(* ===== verification/_CoqProject ===== *)
-Q . S2P
Prelude.v
GoStrings.v
GoNet.v
Fingerprint.v
FingerprintSafety.v
FingerprintProps.v
FingerprintLiteral.v
Digest.v
Records.v
Scoring.v
ScoringProps.v
Config.v
ConfigProps.v
RedisReply.v
RedisConn.v
RedisConnProps.v
RedisPool.v
RedisIdleProps.v
RedisPoolProps.v
RedisActive.v
RedisActiveProps.v
RedisServer.v
RedisQueue.v
RedisQueueProps.v
RedisInstance.v
Pipeline.v
PipelineProps.v
Mysql.v
Explain.v
ExplainProps.v
Request.v
KafkaCodec.v
KafkaProps.v
KafkaDecoder.v
KafkaDecoderProps.v
KafkaDecoderSafety.v
KafkaWire.v
KafkaRecord.v
KafkaRecordProps.v
KafkaMessage.v
KafkaMessageProps.v
KafkaMessageSafety.v
KafkaPartitioner.v
KafkaProtocol.v
KafkaGroups.v
KafkaBalance.v
KafkaMetadata.v
KafkaOffsets.v
KafkaTopics.v
KafkaAcls.v
KafkaProduce.v
KafkaRequest.v
KafkaBroker.v
KafkaBrokerProps.v
KafkaConfig.v
KafkaSync.v
KafkaProduceSet.v
KafkaProduceSetProps.v
KafkaProducer.v
KafkaRetryOrder.v
KafkaProducerOrder.v
KafkaConsumer.v
KafkaConsumerProps.v
KafkaClient.v
KafkaClientProps.v
MysqlUtils.v
MysqlUtilsProps.v
MysqlDsn.v
MysqlDsnProps.v
MysqlBuffer.v
MysqlBufferProps.v
MysqlConn.v
MysqlQuery.v
MysqlStmt.v
MysqlAuth.v
MysqlPacketProps.v
MysqlQueryProps.v
MysqlStmtProps.v
MysqlInterpolateProps.v
MysqlAuthProps.v
