(* ===== verification/Prelude.v ===== *)
(** * SqlReview: a verification development

    SqlReview reviews the SQL statements of a test environment.  Collectors push statements
    to Redis queues, one per branch.  A worker of the test environment ([testSQL.go],
    [lib/soar.go]) pops a statement, normalises it to a fingerprint ([lib/fingerprint.go]),
    digests the fingerprint, and pushes what is new to a unique queue; the first samples of
    each fingerprint are gathered and posted over HTTP ([lib/request.go]) to the production
    side ([prodSQL.go], [lib/explain.go]).  There a consumer pops the samples, runs EXPLAIN
    on the database the sample names, scores the rows and stores the result in MySQL
    ([lib/mysql_pool.go]).  The repository carries its own copies of a Redis client
    ([redis/]), a MySQL driver ([mysql/]) and a Kafka client ([kafka/]).

    ** Files

    - [Prelude]: Go values, panics, run-time checked slices, machine integers, [wp] for code
      that must not panic; tactics, hints and lemmas shared by all files.
    - [GoStrings]: what the program uses of [strings], [unicode/utf8], [strconv], with its
      specifications.
    - [Fingerprint]: [lib/fingerprint.go], the state machine of [Fingerprint] with its output
      slice ([st] is the local variables, [step] an iteration of the loop).
      [FingerprintSafety], [FingerprintProps], [FingerprintLiteral]: its properties.
    - [Digest]: [NewMd5] and [Id] ([lib/tool.go], [lib/fingerprint.go]) over an MD5 parameter.
    - [Records]: the records of [lib/json.go] and the cleaning of their text.
    - [Scoring], [ScoringProps]: [getScore] of [lib/explain.go].
    - [Config], [ConfigProps]: [lib/config.go].
    - [RedisReply]: [redis/reply.go].  [RedisConn], [RedisConnProps]: [redis/conn.go].
    - [RedisPool]: [redis/pool.go], the idle list on a heap of cells and the pool as steps of
      goroutines ([session] is where one of them stands, [step] what it does up to the next
      point where it does not hold the lock, [env] what the environment decides).
      [RedisIdleProps], [RedisPoolProps]: their properties.  [RedisActive],
      [RedisActiveProps]: the borrowed connection of [redis/pool.go] with the command table
      of [redis/commandinfo.go].
    - [RedisServer]: the server as two classes of laws ([RedisStore], [RedisScripting]), and
      the Lua scripts of the queues run against [redis.call].  [RedisQueue],
      [RedisQueueProps]: [redis/script.go], [lib/unique_queue.go], [lib/priority_queue.go],
      [lib/redis_pool.go], proved against the classes.  [RedisInstance]: an implementation
      of the classes by finite maps, on which the theorems are run.
    - [Pipeline], [PipelineProps]: [lib/soar.go] and [testSQL.go].
    - [Mysql]: [mysql/fields.go], the constants of [mysql/const.go], and [lib/mysql_pool.go].
    - [Explain], [ExplainProps]: the rest of [lib/explain.go], and [prodSQL.go].
    - [Request]: [lib/request.go] and [curlURL].
    - [KafkaCodec], [KafkaProps]: the two-pass encoder of [kafka/] ([prep_encoder.go],
      [real_encoder.go], [length_field.go], [crc32_field.go], [encoder_decoder.go]).
      [KafkaDecoder], [KafkaDecoderProps], [KafkaDecoderSafety]: [real_decoder.go] and
      [decode].  [KafkaWire]: a codec as a class with its round trip, and the combinators the
      messages are written with.
    - [KafkaRecord], [KafkaRecordProps]: [record.go], [record_batch.go], [records.go].
      [KafkaMessage], [KafkaMessageProps], [KafkaMessageSafety]: [message.go],
      [message_set.go], compressed sets included.
    - [KafkaProtocol], [KafkaGroups], [KafkaMetadata], [KafkaOffsets], [KafkaTopics],
      [KafkaAcls], [KafkaProduce]: the requests and responses of the protocol, a codec each,
      by group; [KafkaRequest]: [request.go], the envelope and the dispatch on the key.
    - [KafkaBroker], [KafkaBrokerProps]: [broker.go], requests in flight on one connection.
      [KafkaClient], [KafkaClientProps]: [client.go], the cache of metadata, the choice of a
      broker, retries and coordinators.  [KafkaConfig]: [config.go].
    - [KafkaBalance]: [balance_strategy.go].  [KafkaSync]: [sync_producer.go] and the sender
      of the program, [lib/kafka.go].
    - [KafkaPartitioner]: [partitioner.go].  [KafkaProduceSet], [KafkaProduceSetProps]:
      [produce_set.go].  [KafkaProducer], [KafkaRetryOrder], [KafkaProducerOrder]:
      [async_producer.go], its goroutines as steps on the channels between them, and the order
      in which messages are acknowledged.
    - [KafkaConsumer], [KafkaConsumerProps]: [consumer.go], the parsing of a fetch response
      and the goroutines of a partition consumer as steps.
    - [MysqlUtils], [MysqlUtilsProps]: [mysql/utils.go], values of the protocol and escaping.
      [MysqlBuffer], [MysqlBufferProps]: [mysql/buffer.go], with the arrays its slices share.
      [MysqlConn], [MysqlPacketProps]: the packets of [mysql/packets.go].  [MysqlQuery],
      [MysqlQueryProps], [MysqlInterpolateProps]: commands, results and rows of the text
      protocol, LOCAL INFILE and interpolation ([packets.go], [connection.go], [rows.go],
      [infile.go], [transaction.go]).  [MysqlStmt], [MysqlStmtProps]: prepared statements and
      the binary protocol ([statement.go], [packets.go]).  [MysqlAuth], [MysqlAuthProps]: the
      handshake and [Connect] ([auth.go], [packets.go], [connector.go], [collations.go]).
      [MysqlDsn], [MysqlDsnProps], over [GoNet]: [mysql/dsn.go].

    ** How the code is modelled

    Bytes are [Z] between 0 and 255 and strings are lists of them; a rune is a [Z].  A
    computation that can panic is in [Go]: [Ret] or [Panic]; an error of the program is a
    value.  Every index and slice expression keeps its bounds check; a slice whose length comes
    from the network is made with [go_make], which panics for a negative length and above the
    2^48 bytes a slice can have (memory is taken to suffice below).  Integers are [Z]; where
    the width matters the wrap-around is written ([swrap], [uwrap]).  State is passed
    explicitly: the network of a connection is the bytes still to be read and the bytes
    written, Redis is a store of a class, a started goroutine or a posted request is a value
    of the result.  [testSQL.go] and [prodSQL.go] run their workers concurrently; each
    definition is one worker's handling of one element.  The Redis pool is shared memory: its
    runs are all interleavings of the steps of its goroutines, a step being what the code
    does under its lock.

    ** What the theorems show

    - Normaliser: a query with no closing parenthesis is normalised without a panic
      ([Fingerprint_no_panic]); with an output slice five times as long as the query every
      query is ([fingerprint_cap_enough]); with the slice the code makes, two short IN lists
      panic ([Fingerprint_panics_on_two_in_lists]).  The fingerprint does not depend on
      the text of a quoted literal ([Fingerprint_literal]) and has no upper-case ASCII letter,
      the two early returns that copy the query apart ([Fingerprint_lowercase]).
    - Queues: the unique queue refines a first-in first-out queue without duplicates
      ([unique_queue_refines]), whatever the server has cached; clearing, priorities, and the
      replies the key helpers misread.
    - Pipeline: when a statement is pushed and a sample forwarded ([importToRedis_contract]),
      how many samples are posted ([NewExplainData_posts]), that draining a queue ends
      ([sendData_drains]), what the DSN gives, where it panics.
    - Score: the text and the points agree ([getScore_ledger]), the score stays in its range
      ([getScore_bounds]), the level is that of the worst access type ([getScore_level]); the
      row counts no bracket covers ([deduct_rows_gaps]).
    - Configuration: printing and loading is the identity on entries the format can hold
      ([NewConf_roundtrip]); every field is read from its own key ([getConf_complete]).
    - Redis protocol: reading inverts the documented format ([read_reply_roundtrip]), a
      written command reads back as its arguments ([writeCommand_roundtrip]), reading ends on
      every input, at worst with the panic of a length too large ([read_reply_terminates]),
      [Do] keeps the pipeline in step ([Do_pipelined]).
    - Redis pool: the linked idle list is a double-ended queue ([idle_list_refines]); under
      every interleaving a connection is idle, owned by one goroutine or closed, once
      ([pool_exclusive]), the counts and limits hold ([pool_limits]), only a goroutine that
      waits for one of [MaxActive] held connections can be stuck ([pool_progress]), and a
      closed and abandoned pool has closed everything ([closed_pool_released]).  A borrowed
      connection is returned for reuse only with a clean session, when the server, which behaves
      as documented, has refused none of its commands ([returned_clean]; it is not after WATCH
      and a DISCARD that is refused, [discard_without_multi]).
    - MySQL driver: the buffer is a stream whatever the network does ([readNext_stream]) and
      leaves handed-out bytes alone after a flip ([flip_keeps_handed_out]); packets of any
      size but zero are read as written ([packet_roundtrip]); a result set of the text
      protocol is returned value by value, dates as times with parseTime
      ([query_text_result]), and so is what a prepared statement with arguments of every type
      gives ([execute_result]); without TLS, a server that stores the double hash of the
      password reads the response to its greeting and accepts the token in it
      ([login_accepted]); length-encoded values round-trip ([length_encoded_roundtrip]); a
      formatted DSN is parsed to its configuration, as far as what it writes unescaped is free
      of delimiters ([DSN_roundtrip]), and the one the program builds to what was configured
      ([pool_dsn]); interpolation puts each literal in its place ([interpolateParams_spec])
      and a lexer reads the interpolated query as the query with its arguments
      ([interpolated_query_scans]).
    - Production side: which database is chosen, which columns are kept, what a tick takes;
      column types whose values are lost ([bytes2RealType_lost]).
    - Kafka protocol: the encoder computes the denotation of a message ([encode_renders]);
      requests of every kind and version, with the metrics a produce request counts, record
      batches and message sets are decoded as encoded ([request_roundtrip], [batch_roundtrip],
      [message_set_roundtrip]), and a set that is cut short or compressed in layers is decoded
      to an end ([set_from_anywhere]).
    - Kafka broker: under every interleaving a caller gets the response to its own request
      ([own_response]) and every request is answered or failed ([all_answered]).
    - Kafka client: the caches of metadata agree with what the brokers last said
      ([cache_refines]) and every call returns, however many brokers fail, or dereferences the
      nil of a coordinator at the address [:0] ([calls_return]).
    - Kafka producer, when it is not idempotent: a produce set refines a table of messages by
      partition with its counts ([produce_set_refines]), a request has the batches of the set
      ([buildRequest_batches]) and a bounded size ([batch_size]); the messages of a partition
      are acknowledged in the order they were sent in, through all retries
      ([acks_in_order]).  A synchronous call returns what was reported of its own messages
      ([own_outcome]) and no goroutine of it is stuck ([sync_progress]).
    - Kafka groups: either strategy gives each partition of a topic to one of its subscribers
      ([plan_assigns]).
    - Kafka consumer: a fetch response gives exactly the messages it carries from the
      requested offset on ([response_exposes]), and in every run of the consumer the offsets
      the reader of a partition sees only grow ([consumed_increasing]).

    ** Bounds and fuel

    [Itoa] prints with fuel 20, the digits of a 64-bit integer; [writeLen] has the 29 digits
    its scratch buffer leaves; [readReply] has fuel one
    more than the bytes of the input, and [read_reply_terminates] shows that it never runs
    out; [sendData] has fuel above the length of the queue, and [sendData_drains] shows that
    it empties it.  A varint has at most 10 bytes, enough for 64 bits
    ([Uvarint_from_bytes]).  In the MySQL driver [write_loop] has a round per packet of the
    payload, the readers ([read_fuel]) one more than the bytes that can still arrive, [fill]
    one more than the results of the network, [uint64ToString] its 20 digits; the theorems
    above state results, so the fuel was enough.  [read_sentinel] has one more than the bytes
    of the input ([read_sentinel_fuel]).  In the Kafka client the loops over the brokers have
    one more than the brokers that are left, and running out counts as a panic of its own,
    which [calls_return] excludes.  Decoding nested message sets has the bytes of the set.  A run of
    the pool, of a broker, of a producer or of a consumer is a finite sequence of steps of any
    length.  All other recursions are structural.

    ** Parameters

    The tables of [unicode.ToLower] and [unicode.ToUpper] beyond ASCII, MD5,
    [strconv.ParseFloat], [encoding/json], [net/http], [crc32.Checksum], the clock, the
    outcomes of MySQL queries, and the Redis server with the laws of [RedisServer].  For the
    driver: the results of network reads and writes, [time.Parse] and the time zone, the files
    and readers of LOCAL INFILE, time zones and the text of durations, the registries of TLS
    configurations and keys, the spare capacity of a slice that is appended to, SHA-1 and
    SHA-256 (hashes of their sizes), RSA encryption, PEM and X.509, what a TLS connection
    delivers.  For Kafka: the compressors with their inverses, the random numbers, the order
    in which a map is ranged over, the bytes a broker sends, what the scheduler and the
    readers of channels choose, the answers of brokers.

    ** Not modelled

    Logging ([lib/log.go]); dialing, TLS and deadlines of [redis/] and [mysql/]; scanning and
    pub/sub of [redis/], which the program does not use; of [mysql/] the watcher of contexts,
    the registries and the conversion of driver values by reflection; of [kafka/] Kerberos,
    consumer groups, the offset manager, the admin client, metrics other than those that can
    panic, mocks and tools; the
    scheduling of the program's own goroutines, timers and the lock of the configuration. *)

From stdpp Require Export base list list_numbers numbers gmap strings sorting.
From Stdlib Require Export ZArith Lia.
From Stdlib Require Import Ascii.

#[global] Open Scope Z_scope.

(** * Go values *)

(** A Go [string] and a Go [[]byte] are both sequences of bytes; a byte is a [Z] in
    [[0,256)]. *)
Abbreviation bytes := (list Z).

Definition byte_ok (b : Z) : Prop := 0 ≤ b < 256.
Definition bytes_ok (s : bytes) : Prop := Forall byte_ok s.
Definition is_ascii (b : Z) : Prop := 0 ≤ b < 128.

(** [len(s)] *)
Definition len {A} (l : list A) : Z := Z.of_nat (length l).

(** String literals of the source: the bytes of their UTF-8 text. *)
Fixpoint B (s : string) : bytes :=
  match s with
  | EmptyString => []
  | String c s' => Z.of_N (N_of_ascii c) :: B s'
  end.
Arguments B _%_string : simpl never.

(** A character literal. *)
Definition chr (s : string) : Z :=
  match s with String c _ => Z.of_N (N_of_ascii c) | EmptyString => 0 end.
Arguments chr _%_string : simpl never.

(** Boolean equality of byte strings, Go's [==] on strings. *)
Fixpoint beq (a b : bytes) : bool :=
  match a, b with
  | [], [] => true
  | x :: a', y :: b' => (x =? y) && beq a' b'
  | _, _ => false
  end.

(** * Panics

    A run-time panic is a value of the result type; [let*] sequences computations that
    may panic, the way a Go function body does. *)
Inductive panic :=
| IndexOutOfRange
| SliceOutOfRange
| NilDereference
| TypeAssertionFailed
| MakeSliceLen
| StackOverflow
| DivideByZero
| ExplicitPanic.

Inductive Go (A : Type) :=
| Ret (a : A)
| Panic (p : panic).
Arguments Ret {A} _.
Arguments Panic {A} _.

Definition gbind {A C} (m : Go A) (k : A → Go C) : Go C :=
  match m with Ret a => k a | Panic p => Panic p end.

Declare Scope go_scope.
Delimit Scope go_scope with go.
Notation "'let*' x ':=' c1 'in' c2" := (gbind c1 (fun x => c2))
  (at level 10, x pattern, c1 at level 200, c2 at level 200) : go_scope.
#[global] Open Scope go_scope.

Definition returns {A} (m : Go A) : Prop := ∃ a, m = Ret a.

(** Run-time checked accesses: [l[i]], [l[i] = v], [s[a:b]] (for a string, or for a slice
    whose capacity is its length), [copy(f[a:b], src)]. *)
Definition go_index {A} (l : list A) (i : Z) : Go A :=
  if (0 <=? i) && (i <? len l) then
    match l !! Z.to_nat i with Some a => Ret a | None => Panic IndexOutOfRange end
  else Panic IndexOutOfRange.

Definition go_set {A} (l : list A) (i : Z) (v : A) : Go (list A) :=
  if (0 <=? i) && (i <? len l) then Ret (<[Z.to_nat i := v]> l)
  else Panic IndexOutOfRange.

(** The part of [l] between two offsets, with no check. *)
Definition sub {A} (l : list A) (a b : Z) : list A :=
  take (Z.to_nat (b - a)) (drop (Z.to_nat a) l).

Definition go_slice {A} (l : list A) (a b : Z) : Go (list A) :=
  if (0 <=? a) && (a <=? b) && (b <=? len l) then Ret (sub l a b)
  else Panic SliceOutOfRange.

(** [copy(f[a:b], src)] writes [min (b - a) (len src)] elements from offset [a]. *)
Definition go_copy {A} (l : list A) (a b : Z) (src : list A) : Go (list A) :=
  if (0 <=? a) && (a <=? b) && (b <=? len l) then
    let n := Z.to_nat (Z.min (b - a) (len src)) in
    Ret (take (Z.to_nat a) l ++ take n src ++ drop (Z.to_nat a + n) l)
  else Panic SliceOutOfRange.

(** [make([]T, n)] for elements of [size] bytes: the runtime panics for a negative length and
    for more than 2^48 bytes (the address space of a 64-bit machine).  What it accepts is taken
    to fit in memory. *)
Definition maxAlloc : Z := 2 ^ 48.
Definition go_make (size n : Z) : Go unit :=
  if (n <? 0) || (maxAlloc <? size * n) then Panic MakeSliceLen else Ret tt.
Lemma go_make_ok size n : 0 ≤ n → size * n ≤ maxAlloc → go_make size n = Ret tt.
Proof. intros Hn Hs. unfold go_make. by rewrite (proj2 (Z.ltb_ge _ _) Hn), (proj2 (Z.ltb_ge _ _) Hs). Qed.

(** * Machine integers: 64-bit [int], [int64], [uint64] and their narrower siblings. *)
Definition uwrap (w z : Z) : Z := z mod 2 ^ w.
Definition swrap (w z : Z) : Z := (z + 2 ^ (w - 1)) mod 2 ^ w - 2 ^ (w - 1).
Definition max_int64 : Z := 2 ^ 63 - 1.
Definition max_uint64 : Z := 2 ^ 64 - 1.
Definition int_ok (w z : Z) : Prop := - 2 ^ (w - 1) ≤ z < 2 ^ (w - 1).
Definition uint_ok (w z : Z) : Prop := 0 ≤ z < 2 ^ w.

(** * Reasoning about computations that may panic

    [wp m Q]: [m] returns, and what it returns satisfies [Q]. *)
Definition wp {A} (m : Go A) (Q : A → Prop) : Prop :=
  match m with Ret a => Q a | Panic _ => False end.

Create HintDb go.

Lemma wp_ret {A} (a : A) Q : Q a → wp (Ret a) Q.
Proof. done. Qed.

Lemma wp_bind {A C} (m : Go A) (k : A → Go C) Q :
  wp m (fun a => wp (k a) Q) → wp (let* x := m in k x) Q.
Proof. by destruct m. Qed.

Lemma wp_mono {A} (m : Go A) (P Q : A → Prop) : wp m P → (∀ a, P a → Q a) → wp m Q.
Proof. destruct m; simpl; auto. Qed.

Lemma wp_returns {A} (m : Go A) Q : wp m Q → returns m.
Proof. destruct m; [by eexists | done]. Qed.

Lemma wp_if {A} (b : bool) (m n : Go A) Q :
  (b = true → wp m Q) → (b = false → wp n Q) → wp (if b then m else n) Q.
Proof. destruct b; auto. Qed.

Lemma len_nonneg {A} (l : list A) : 0 ≤ len l.
Proof. unfold len. lia. Qed.

Lemma len_app {A} (l k : list A) : len (l ++ k) = len l + len k.
Proof. unfold len. rewrite length_app. lia. Qed.

Lemma len_cons {A} (x : A) l : len (x :: l) = len l + 1.
Proof. unfold len. simpl. lia. Qed.

Lemma wp_go_set {A} (l : list A) i v Q :
  0 ≤ i < len l → (∀ l', len l' = len l → Q l') → wp (go_set l i v) Q.
Proof.
  intros Hi HQ. unfold go_set.
  replace ((0 <=? i) && (i <? len l)) with true by lia.
  simpl. apply HQ. unfold len. by rewrite length_insert.
Qed.

Lemma wp_go_index {A} (l : list A) i Q :
  0 ≤ i < len l → (∀ a, Q a) → wp (go_index l i) Q.
Proof.
  intros Hi HQ. unfold go_index.
  replace ((0 <=? i) && (i <? len l)) with true by lia.
  destruct (lookup_lt_is_Some_2 l (Z.to_nat i)) as [a ->]; [unfold len in Hi; lia|].
  apply HQ.
Qed.

Lemma wp_go_slice {A} (l : list A) a b Q :
  0 ≤ a ≤ b → b ≤ len l → Q (sub l a b) → wp (go_slice l a b) Q.
Proof.
  intros Ha Hb HQ. unfold go_slice.
  by replace ((0 <=? a) && (a <=? b) && (b <=? len l)) with true by lia.
Qed.

Lemma wp_go_copy {A} (l : list A) a b src Q :
  0 ≤ a ≤ b → b ≤ len l → (∀ l', len l' = len l → Q l') → wp (go_copy l a b src) Q.
Proof.
  intros Ha Hb HQ. unfold go_copy.
  replace ((0 <=? a) && (a <=? b) && (b <=? len l)) with true by lia.
  apply HQ. unfold len in *.
  rewrite !length_app, !length_take, length_drop. lia.
Qed.

(** [wp_start] pushes [wp] through binds, returns and boolean branches; the accesses that
    may panic are left to the lemmas above. *)
Ltac wp_step :=
  match goal with
  | |- wp (gbind _ _) _ => apply wp_bind
  | |- wp (Ret _) _ => apply wp_ret
  | |- wp (if _ then _ else _) _ => apply wp_if; intros ?
  end.
Ltac wp_start := repeat wp_step.

(** [wlp m Q]: if [m] returns, what it returns satisfies [Q]; used where only the value is at
    stake and panics are dealt with separately. *)
Definition wlp {A} (m : Go A) (Q : A → Prop) : Prop :=
  match m with Ret a => Q a | Panic _ => True end.

Lemma wlp_ret {A} (a : A) Q : Q a → wlp (Ret a) Q.
Proof. done. Qed.

Lemma wlp_bind {A C} (m : Go A) (k : A → Go C) Q :
  wlp m (fun a => wlp (k a) Q) → wlp (let* x := m in k x) Q.
Proof. by destruct m. Qed.

Lemma wlp_mono {A} (m : Go A) (P Q : A → Prop) : wlp m P → (∀ a, P a → Q a) → wlp m Q.
Proof. destruct m; simpl; auto. Qed.

Lemma wlp_if {A} (b : bool) (m n : Go A) Q :
  (b = true → wlp m Q) → (b = false → wlp n Q) → wlp (if b then m else n) Q.
Proof. destruct b; auto. Qed.

Lemma wlp_elim {A} (m : Go A) Q a : wlp m Q → m = Ret a → Q a.
Proof. by intros ? ->. Qed.

Ltac wlp_step :=
  match goal with
  | |- wlp (gbind _ _) _ => apply wlp_bind
  | |- wlp (Ret _) _ => apply wlp_ret
  | |- wlp (if _ then _ else _) _ => apply wlp_if; intros ?
  end.
Ltac wlp_start := repeat wlp_step.

(** Evaluate the character literals of the goal and of the hypotheses. *)
Ltac chr_norm :=
  repeat match goal with
  | |- context [chr ?c] => let v := eval vm_compute in (chr c) in change (chr c) with v in *
  | H : context [chr ?c] |- _ => let v := eval vm_compute in (chr c) in change (chr c) with v in *
  end.

(** ** Wrap-around *)

Lemma swrap_id z : int_ok 64 z → swrap 64 z = z.
Proof.
  unfold int_ok, swrap. change (64 - 1) with 63. intros H.
  rewrite Z.mod_small by lia. lia.
Qed.

Lemma swrap_mod a b : a mod 2 ^ 64 = b mod 2 ^ 64 → swrap 64 a = swrap 64 b.
Proof.
  intros E. unfold swrap. rewrite <- (Z.add_mod_idemp_l a), <- (Z.add_mod_idemp_l b) by done.
  by rewrite E.
Qed.

Lemma mod_swrap a : swrap 64 a mod 2 ^ 64 = a mod 2 ^ 64.
Proof.
  unfold swrap. rewrite Zminus_mod_idemp_l. f_equal. lia.
Qed.

Lemma swrap_step n d : swrap 64 (swrap 64 (swrap 64 n * 10) + d) = swrap 64 (n * 10 + d).
Proof.
  apply swrap_mod. rewrite <- Z.add_mod_idemp_l, mod_swrap by done.
  rewrite <- Z.mul_mod_idemp_l, mod_swrap, Z.mul_mod_idemp_l by done.
  by rewrite Z.add_mod_idemp_l.
Qed.

(** ** Slices and bits *)

Lemma len_to_nat {A} (l : list A) : Z.to_nat (len l) = length l.
Proof. unfold len. lia. Qed.

Lemma go_slice_mid {A} (pre bs post : list A) :
  go_slice (pre ++ bs ++ post) (len pre) (len pre + len bs) = Ret bs.
Proof.
  pose proof (len_nonneg pre). pose proof (len_nonneg bs). pose proof (len_nonneg post).
  unfold go_slice. rewrite !len_app.
  rewrite (proj2 (Z.leb_le 0 _)), (proj2 (Z.leb_le (len pre) _)), (proj2 (Z.leb_le _ _)) by lia.
  cbn [andb]. unfold sub. rewrite Z.add_simpl_l, !len_to_nat.
  by rewrite drop_app_length, take_app_length.
Qed.

Lemma lor_shiftl x b s : 0 ≤ s → 0 ≤ x < 2 ^ s → Z.lor x (Z.shiftl b s) = x + b * 2 ^ s.
Proof.
  intros Hs Hx. assert (Z.land x (Z.shiftl b s) = 0) as Hl.
  { apply Z.bits_inj'. intros k Hk. rewrite Z.land_spec, Z.bits_0, Z.shiftl_spec by lia.
    destruct (Z.lt_ge_cases k s).
    - rewrite (Z.testbit_neg_r b) by lia. apply andb_false_r.
    - rewrite <- (Z.mod_small x (2 ^ s)), Z.mod_pow2_bits_high by lia. done. }
  rewrite <- Z.lxor_lor, <- Z.add_nocarry_lxor by done. by rewrite Z.shiftl_mul_pow2.
Qed.

Lemma go_set_mid {A} (pre : list A) x post v :
  go_set (pre ++ x :: post) (len pre) v = Ret (pre ++ v :: post).
Proof.
  unfold go_set. pose proof (len_nonneg pre). pose proof (len_nonneg post).
  rewrite len_app, len_cons. replace (_ && _) with true by lia.
  rewrite len_to_nat, <- (Nat.add_0_r (length pre)), insert_app_r. done.
Qed.

Lemma go_slice_front {A} (l post : list A) : go_slice (l ++ post) 0 (len l) = Ret l.
Proof. apply (go_slice_mid [] l post). Qed.

Lemma go_slice_tail {A} (pre l : list A) : go_slice (pre ++ l) (len pre) (len (pre ++ l)) = Ret l.
Proof. pose proof (go_slice_mid pre l []) as H. by rewrite app_nil_r, <- len_app in H. Qed.

Lemma go_index_mid {A} (pre : list A) x post : go_index (pre ++ x :: post) (len pre) = Ret x.
Proof.
  unfold go_index. pose proof (len_nonneg pre). pose proof (len_nonneg post).
  rewrite len_app, len_cons. replace (_ && _) with true by lia.
  by rewrite len_to_nat, lookup_app_r, Nat.sub_diag by lia.
Qed.
