(* ===== verification/GoStrings.v ===== *)
(** * The parts of Go's [strings], [unicode/utf8] and [strconv] the program uses

    Executable definitions on byte strings, followed by the lemmas the components share:
    UTF-8 decoding inverts encoding, [range] visits increasing offsets, [Itoa] and [Atoi]
    round-trip, [Replace] and [Index] meet their specifications. *)

From S2P Require Import Prelude.

(** * Package [strings] *)

Fixpoint HasPrefix (s p : bytes) {struct p} : bool :=
  match p, s with
  | [], _ => true
  | c :: p', d :: s' => (c =? d) && HasPrefix s' p'
  | _ :: _, [] => false
  end.

(** [strings.Index]: the first offset where [sub] occurs, or -1. *)
Fixpoint Index (s p : bytes) : Z :=
  if HasPrefix s p then 0
  else match s with
       | [] => -1
       | _ :: s' => let i := Index s' p in if i =? -1 then -1 else i + 1
       end.

(** [strings.Replace(s, old, new, -1)] for a non-empty [old]: non-overlapping occurrences,
    left to right. [skip] counts the bytes of an occurrence still to be dropped. *)
Fixpoint replace_go (s old new : bytes) (skip : nat) : bytes :=
  match s with
  | [] => []
  | c :: s' =>
      match skip with
      | S k => replace_go s' old new k
      | O => if HasPrefix s old then new ++ replace_go s' old new (length old - 1)
             else c :: replace_go s' old new 0
      end
  end.
Definition ReplaceAll (s old new : bytes) : bytes := replace_go s old new 0.

(** [strings.Split(s, sep)] for a one-byte separator. *)
Fixpoint SplitByte (s : bytes) (sep : Z) : list bytes :=
  match s with
  | [] => [[]]
  | c :: s' =>
      if c =? sep then [] :: SplitByte s' sep
      else match SplitByte s' sep with
           | w :: ws => (c :: w) :: ws
           | [] => [[c]]
           end
  end.

(** * Package [unicode/utf8] *)

Definition RuneError : Z := 65533.

Definition cont_byte (b : Z) : bool := (128 <=? b) && (b <=? 191).

(** [utf8.DecodeRuneInString]: the first rune and its width; an invalid encoding is
    [(RuneError, 1)]. *)
Definition DecodeRune (s : bytes) : Z * nat :=
  match s with
  | [] => (RuneError, 0%nat)
  | b0 :: t =>
      if b0 <? 128 then (b0, 1%nat)
      else if (194 <=? b0) && (b0 <=? 223) then
        match t with
        | b1 :: _ => if cont_byte b1 then ((b0 - 192) * 64 + (b1 - 128), 2%nat)
                     else (RuneError, 1%nat)
        | _ => (RuneError, 1%nat)
        end
      else if (224 <=? b0) && (b0 <=? 239) then
        match t with
        | b1 :: b2 :: _ =>
            let lo := if b0 =? 224 then 160 else 128 in
            let hi := if b0 =? 237 then 159 else 191 in
            if (lo <=? b1) && (b1 <=? hi) && cont_byte b2
            then ((b0 - 224) * 4096 + (b1 - 128) * 64 + (b2 - 128), 3%nat)
            else (RuneError, 1%nat)
        | _ => (RuneError, 1%nat)
        end
      else if (240 <=? b0) && (b0 <=? 244) then
        match t with
        | b1 :: b2 :: b3 :: _ =>
            let lo := if b0 =? 240 then 144 else 128 in
            let hi := if b0 =? 244 then 143 else 191 in
            if (lo <=? b1) && (b1 <=? hi) && cont_byte b2 && cont_byte b3
            then ((b0 - 240) * 262144 + (b1 - 128) * 4096 + (b2 - 128) * 64 + (b3 - 128),
                  4%nat)
            else (RuneError, 1%nat)
        | _ => (RuneError, 1%nat)
        end
      else (RuneError, 1%nat)
  end.

(** [utf8.EncodeRune], which is also [string(r)]. *)
Definition EncodeRune (r : Z) : bytes :=
  if (0 <=? r) && (r <? 128) then [r]
  else if (128 <=? r) && (r <? 2048) then [192 + r / 64; 128 + r mod 64]
  else if (r <? 0) || (1114111 <? r) || ((55296 <=? r) && (r <=? 57343))
  then [239; 191; 189]
  else if r <? 65536 then [224 + r / 4096; 128 + r / 64 mod 64; 128 + r mod 64]
  else [240 + r / 262144; 128 + r / 4096 mod 64; 128 + r / 64 mod 64; 128 + r mod 64].

(** [for i, r := range s]: the runes of [s] with their byte offsets. [skip] counts the
    bytes of the current rune still to be passed over. *)
Fixpoint range_go (s : bytes) (i : Z) (skip : nat) : list (Z * Z) :=
  match s with
  | [] => []
  | _ :: s' =>
      match skip with
      | S k => range_go s' (i + 1) k
      | O => let '(r, w) := DecodeRune s in (i, r) :: range_go s' (i + 1) (w - 1)
      end
  end.
Definition range (s : bytes) : list (Z * Z) := range_go s 0 0.

(** [unicode.ToLower] is the identity-or-[+32] map on ASCII; above ASCII it is a table of
    the Unicode version Go was built with, which stays a parameter. *)
Class UnicodeTables := { unicode_lower : Z → Z }.

(** A fragment of the tables (Latin-1, Greek, Cyrillic and the two runes whose lower case is
    ASCII), for concrete runs. *)
#[export] Instance sample_tables : UnicodeTables | 100 :=
  {| unicode_lower := fun r =>
       if (192 <=? r) && (r <=? 222) && negb (r =? 215) then r + 32
       else if (913 <=? r) && (r <=? 937) && negb (r =? 930) then r + 32
       else if (1040 <=? r) && (r <=? 1071) then r + 32
       else if (1024 <=? r) && (r <=? 1039) then r + 80
       else if r =? 304 then 105
       else if r =? 8490 then 107
       else r |}.

Definition lower_ascii (r : Z) : Z := if (65 <=? r) && (r <=? 90) then r + 32 else r.

Definition rune_lower `{UnicodeTables} (r : Z) : Z :=
  if r <? 128 then lower_ascii r else unicode_lower r.

(** [strings.ToLower]. *)
Definition ToLower `{UnicodeTables} (s : bytes) : bytes :=
  (range s) ≫= (fun ir => EncodeRune (rune_lower ir.2)).

Arguments ToLower : simpl never.

(** [strings.ToUpper], in the same way *)
Class UnicodeUpper := { unicode_upper : Z → Z }.
#[export] Instance sample_upper : UnicodeUpper | 100 :=
  {| unicode_upper := fun r =>
       if (224 <=? r) && (r <=? 254) && negb (r =? 247) then r - 32
       else if (1072 <=? r) && (r <=? 1103) then r - 32
       else if r =? 305 then 73
       else if r =? 383 then 83
       else r |}.
Definition upper_ascii (r : Z) : Z := if (97 <=? r) && (r <=? 122) then r - 32 else r.
Definition rune_upper `{UnicodeUpper} (r : Z) : Z := if r <? 128 then upper_ascii r else unicode_upper r.
Definition ToUpper `{UnicodeUpper} (s : bytes) : bytes :=
  (range s) ≫= (fun ir => EncodeRune (rune_upper ir.2)).
Arguments ToUpper : simpl never.

(** [unicode.IsSpace] and [strings.TrimSpace]. *)
Definition unicode_space (r : Z) : bool :=
  (r =? 9) || (r =? 10) || (r =? 11) || (r =? 12) || (r =? 13) || (r =? 32)
  || (r =? 133) || (r =? 160) || (r =? 5760) || ((8192 <=? r) && (r <=? 8202))
  || (r =? 8232) || (r =? 8233) || (r =? 8239) || (r =? 8287) || (r =? 12288).

(** Offset where the leading (resp. trailing) white space of [rs] ends (resp. starts);
    [e] is the offset of the end of the string. *)
Fixpoint space_prefix_end (rs : list (Z * Z)) (e : Z) : Z :=
  match rs with
  | [] => e
  | (i, r) :: rs' => if unicode_space r then space_prefix_end rs' e else i
  end.
Fixpoint space_suffix_start (rs : list (Z * Z)) (e : Z) : Z :=
  match rs with
  | [] => e
  | (i, r) :: rs' =>
      if unicode_space r then
        if forallb (fun ir => unicode_space ir.2) rs' then i
        else space_suffix_start rs' e
      else space_suffix_start rs' e
  end.
Definition TrimSpace (s : bytes) : bytes :=
  let rs := range s in
  let a := space_prefix_end rs (len s) in
  let b := space_suffix_start rs (len s) in
  if a <? b then sub s a b else [].

(** * Package [strconv] *)

Inductive num_error := ErrSyntax | ErrRange.

Definition is_digit (c : Z) : bool := (48 <=? c) && (c <=? 57).

(** The loop of [strconv.ParseUint(s, 10, 64)]: a range error is reported as soon as the
    accumulator would exceed 64 bits, before the remaining bytes are looked at. *)
Fixpoint parse_uint_loop (s : bytes) (n : Z) : Z * option num_error :=
  match s with
  | [] => (n, None)
  | c :: s' =>
      if is_digit c then
        let n' := n * 10 + (c - 48) in
        if max_uint64 <? n' then (max_uint64, Some ErrRange) else parse_uint_loop s' n'
      else (0, Some ErrSyntax)
  end.
Definition ParseUint (s : bytes) : Z * option num_error :=
  match s with [] => (0, Some ErrSyntax) | _ => parse_uint_loop s 0 end.

(** [strconv.ParseInt(s, 10, 64)], which is also [strconv.Atoi] with a 64-bit [int]. *)
Definition ParseInt (s : bytes) : Z * option num_error :=
  match s with
  | [] => (0, Some ErrSyntax)
  | c :: s' =>
      let neg := c =? 45 in
      let digits := if neg || (c =? 43) then s' else s in
      match ParseUint digits with
      | (_, Some ErrSyntax) => (0, Some ErrSyntax)
      | (un, _) =>
          if neg then if 2 ^ 63 <? un then (- 2 ^ 63, Some ErrRange) else (- un, None)
          else if 2 ^ 63 <=? un then (max_int64, Some ErrRange) else (un, None)
      end
  end.
Definition Atoi : bytes → Z * option num_error := ParseInt.

(** The order of [sort.Strings] *)
Fixpoint bytes_leb (a b : bytes) : bool :=
  match a, b with
  | [], _ => true
  | _ :: _, [] => false
  | x :: a, y :: b => (x <? y) || ((x =? y) && bytes_leb a b)
  end.
Definition bytes_le (a b : bytes) : Prop := bytes_leb a b = true.
#[export] Instance bytes_le_dec : RelDecision bytes_le.
Proof. intros a b. unfold bytes_le. apply _. Defined.
#[export] Instance bytes_le_order : TotalOrder bytes_le.
Proof.
  assert (∀ a, bytes_le a a) as Hr by (unfold bytes_le; intros a; induction a; simpl; [done|rewrite IHa; lia]).
  assert (∀ a b c, bytes_le a b → bytes_le b c → bytes_le a c) as Ht.
  { unfold bytes_le. intros a. induction a as [|x a IH]; intros [|y b] [|z c]; simpl; try done. intros H1 H2.
    destruct (bytes_leb a b) eqn:E1, (bytes_leb b c) eqn:E2; try (specialize (IH _ _ E1 E2); rewrite IH); lia. }
  assert (∀ a b, bytes_le a b → bytes_le b a → a = b) as Ha.
  { unfold bytes_le. intros a. induction a as [|x a IH]; intros [|y b]; simpl; try done. intros H1 H2.
    apply orb_true_iff in H1, H2. rewrite andb_true_iff in H1, H2.
    assert (x = y) as -> by lia. f_equal. apply IH; [destruct H1 as [?|[? ?]]|destruct H2 as [?|[? ?]]]; done || lia. }
  assert (∀ a b, bytes_le a b ∨ bytes_le b a) as Htot.
  { unfold bytes_le. intros a. induction a as [|x a IH]; intros [|y b]; simpl; auto.
    destruct (IH b) as [E|E]; rewrite E; destruct (Z.lt_trichotomy x y) as [?|[?|?]]; lia. }
  split; [split; [split|]|]; [done|done|done|]. intros a b. destruct (decide (a = b)) as [->|Hn]; [by right; left|].
  destruct (Htot a b) as [E|E]; [left|right; right]; (split; [done|]); intros E'; by destruct Hn; apply Ha.
Qed.

(** [strconv.Itoa]: the digits of a non-negative number, least significant first. *)
Fixpoint digits_rev (fuel : nat) (n : Z) : bytes :=
  match fuel with
  | O => []
  | S k => (48 + n mod 10) :: (if n <? 10 then [] else digits_rev k (n / 10))
  end.
Definition Itoa (n : Z) : bytes :=
  if n <? 0 then 45 :: reverse (digits_rev 20 (- n)) else reverse (digits_rev 20 n).

(** * Lemmas *)

Lemma beq_eq a b : beq a b = true ↔ a = b.
Proof.
  revert b. induction a as [|x a IH]; intros [|y b]; simpl; try (split; congruence).
  rewrite andb_true_iff, Z.eqb_eq, IH.
  split; [by intros [-> ->] | by intros [= -> ->]].
Qed.

Lemma beq_refl a : beq a a = true.
Proof. by apply beq_eq. Qed.

Lemma beq_neq a b : beq a b = false ↔ a ≠ b.
Proof. rewrite <- beq_eq. destruct (beq a b); naive_solver. Qed.

Lemma len_sub {A} (l : list A) a b : 0 ≤ a ≤ b → b ≤ len l → len (sub l a b) = b - a.
Proof. intros. unfold sub, len in *. rewrite length_take, length_drop. lia. Qed.

(** ** UTF-8 *)

Definition valid_rune (r : Z) : Prop := 0 ≤ r ≤ 1114111 ∧ ¬ (55296 ≤ r ≤ 57343).

#[export] Instance valid_rune_dec r : Decision (valid_rune r).
Proof. unfold valid_rune. apply _. Defined.

Ltac bool_case :=
  match goal with
  | |- context [if ?b then _ else _] => destruct b eqn:?
  end.

Ltac zdiv := Z.to_euclidean_division_equations; lia.

(** Settle the conditions of the goal that arithmetic decides, split on the others. *)
Ltac decide_if :=
  match goal with
  | |- context [if ?b then _ else _] =>
      lazymatch b with context [if _ then _ else _] => fail | _ => idtac end;
      first [ assert (b = true) as -> by zdiv
            | assert (b = false) as -> by zdiv
            | destruct b eqn:? ]
  end.

Lemma EncodeRune_nonempty r : EncodeRune r ≠ [].
Proof. unfold EncodeRune. repeat bool_case; done. Qed.

Lemma DecodeRune_EncodeRune r t :
  DecodeRune (EncodeRune r ++ t) =
  (if decide (valid_rune r) then r else RuneError, length (EncodeRune r)).
Proof.
  unfold EncodeRune, valid_rune, RuneError.
  repeat bool_case; simpl; unfold cont_byte; case_decide; try lia;
    repeat decide_if; f_equal; zdiv.
Qed.

Lemma DecodeRune_width c s : (1 ≤ (DecodeRune (c :: s)).2 ≤ length (c :: s))%nat.
Proof.
  unfold DecodeRune. repeat first [bool_case | case_match]; simpl; lia.
Qed.

(** A rune below 128 is the byte it was decoded from. *)
Lemma DecodeRune_byte c s r w : DecodeRune (c :: s) = (r, w) → r < 128 → r = c.
Proof.
  unfold DecodeRune, RuneError, cont_byte. intros Hd Hr.
  repeat (case_match; simplify_eq; try done; try lia).
Qed.

Lemma range_go_skip s i k : (k ≤ length s)%nat →
  range_go s i k = range_go (drop k s) (i + Z.of_nat k) 0.
Proof.
  revert i k. induction s as [|c s IH]; intros i k Hk; destruct k; simpl in *.
  - done.
  - lia.
  - by rewrite Z.add_0_r.
  - rewrite IH by lia. f_equal. lia.
Qed.

Lemma range_go_cons c s i :
  range_go (c :: s) i 0 =
  let '(r, w) := DecodeRune (c :: s) in
  (i, r) :: range_go (drop w (c :: s)) (i + Z.of_nat w) 0.
Proof.
  cbn [range_go]. pose proof (DecodeRune_width c s) as Hw.
  destruct (DecodeRune (c :: s)) as [r w]. cbn [snd length] in Hw. f_equal.
  rewrite range_go_skip by lia. destruct w; [lia|].
  cbn [drop]. f_equal; [f_equal; lia|lia].
Qed.

(** One decoding step of [range] on an encoded rune. *)
Lemma range_go_encode r t i :
  range_go (EncodeRune r ++ t) i 0 =
  (i, if decide (valid_rune r) then r else RuneError)
    :: range_go t (i + len (EncodeRune r)) 0.
Proof.
  pose proof (DecodeRune_EncodeRune r t) as Hd.
  destruct (EncodeRune r) as [|c e] eqn:He; [by apply EncodeRune_nonempty in He|].
  cbn [app] in *. rewrite range_go_cons, Hd. f_equal.
  cbn [length drop]. by rewrite drop_app_length.
Qed.

(** The number of runes is at most the number of bytes. *)
Lemma length_range_go s i k : (length (range_go s i k) ≤ length s)%nat.
Proof.
  revert i k. induction s as [|c s IH]; intros i [|k]; cbn [range_go length]; try lia.
  - destruct (DecodeRune (c :: s)) as [r w]. specialize (IH (i + 1) (w - 1)%nat).
    cbn [length]. lia.
  - specialize (IH (i + 1) k). lia.
Qed.

(** [range] yields increasing offsets inside the string. *)
Inductive offsets (hi : Z) : Z → list (Z * Z) → Prop :=
| offsets_nil lo : lo ≤ hi → offsets hi lo []
| offsets_cons lo qi r rs :
    lo ≤ qi → qi < hi → offsets hi (qi + 1) rs → offsets hi lo ((qi, r) :: rs).

Lemma offsets_range_go s i k : offsets (i + len s) i (range_go s i k).
Proof.
  revert i k. induction s as [|c s IH]; intros i k; cbn [range_go].
  - constructor. unfold len; simpl; lia.
  - rewrite len_cons. specialize (IH (i + 1)).
    replace (i + 1 + len s) with (i + (len s + 1)) in IH by lia.
    assert (∀ lo lo' rs, lo ≤ lo' → offsets (i + (len s + 1)) lo' rs →
                         offsets (i + (len s + 1)) lo rs) as Hmono.
    { intros lo lo' rs Hl Ho. destruct Ho; constructor; auto; lia. }
    destruct k as [|k].
    + destruct (DecodeRune (c :: s)) as [r w]. pose proof (len_nonneg s).
      constructor; [lia..|apply IH].
    + eapply Hmono; [|apply IH]. lia.
Qed.

Lemma offsets_range s : offsets (len s) 0 (range s).
Proof. apply (offsets_range_go s 0 0). Qed.

(** UTF-8 is self-synchronising: decoding never reads past an ASCII byte. *)
Lemma DecodeRune_app_ascii c s d t :
  d < 128 → DecodeRune (c :: s ++ d :: t) = DecodeRune (c :: s).
Proof.
  intros Hd. unfold DecodeRune, cont_byte.
  destruct s as [|b1 [|b2 [|b3 s]]]; cbn [app]; try done;
    destruct t as [|t1 [|t2 t]]; repeat (case_match; try done; try lia).
Qed.

Lemma range_go_app_ascii s d t i :
  d < 128 → range_go (s ++ d :: t) i 0 = range_go s i 0 ++ range_go (d :: t) (i + len s) 0.
Proof.
  intros Hd. remember (length s) as n eqn:Hn. revert s i Hn.
  induction (lt_wf n) as [n _ IH]. intros [|c s] i ->.
  - unfold len. cbn [app length]. by rewrite Z.add_0_r.
  - cbn [app]. rewrite (range_go_cons c (s ++ d :: t)), (range_go_cons c s).
    rewrite DecodeRune_app_ascii by done.
    pose proof (DecodeRune_width c s) as Hw.
    destruct (DecodeRune (c :: s)) as [r w]. cbn [snd] in Hw. cbn [app]. f_equal.
    change (c :: s ++ d :: t) with ((c :: s) ++ d :: t).
    rewrite drop_app_le by lia. rewrite (IH (length (drop w (c :: s)))); [| |done].
    + replace (i + Z.of_nat w + len (drop w (c :: s))) with (i + len (c :: s)); [done|].
      unfold len. rewrite length_drop. lia.
    + rewrite length_drop. cbn [length] in *. lia.
Qed.

(** ** Lower case *)

Section Lower.
Context `{UnicodeTables}.

Lemma length_range_encode (g : Z * Z → Z) rs i :
  length (range_go (rs ≫= (fun ir => EncodeRune (g ir))) i 0) = length rs.
Proof.
  revert i. induction rs as [|ir rs IH]; intros i; [done|].
  change ((ir :: rs) ≫= (fun ir => EncodeRune (g ir)))
    with (EncodeRune (g ir) ++ (rs ≫= (fun ir => EncodeRune (g ir)))).
  rewrite range_go_encode. simpl. by rewrite IH.
Qed.

(** [ToLower] maps rune by rune. *)
Lemma length_range_ToLower s : length (range (ToLower s)) = length (range s).
Proof. apply length_range_encode. Qed.

Lemma EncodeRune_ascii r : Forall (fun b => b < 128) (EncodeRune r) → length (EncodeRune r) = 1%nat.
Proof.
  unfold EncodeRune. repeat bool_case; simpl; rewrite !Forall_cons; intros; try done; zdiv.
Qed.

(** An all-ASCII string has as many runes as bytes. *)
Lemma length_range_ascii s i : Forall (fun b => b < 128) s → length (range_go s i 0) = length s.
Proof.
  intros Hs. revert i. induction Hs as [|c s Hc Hs IH]; intros i; [done|].
  rewrite range_go_cons. unfold DecodeRune. replace (c <? 128) with true by lia.
  cbn [drop length]. by rewrite IH.
Qed.

(** A word whose lower-case form is ASCII has at least as many bytes as that form. *)
Lemma ToLower_length s : Forall (fun b => b < 128) (ToLower s) → len (ToLower s) ≤ len s.
Proof.
  intros Hs. unfold len. apply inj_le.
  rewrite <- (length_range_ascii (ToLower s) 0) by done.
  fold (range (ToLower s)). rewrite length_range_ToLower. apply length_range_go.
Qed.

Lemma ToLower2_length s :
  Forall (fun b => b < 128) (ToLower (ToLower s)) → len (ToLower (ToLower s)) ≤ len s.
Proof.
  intros Hs. unfold len. apply inj_le.
  rewrite <- (length_range_ascii (ToLower (ToLower s)) 0) by done.
  fold (range (ToLower (ToLower s))). rewrite !length_range_ToLower. apply length_range_go.
Qed.

End Lower.

(** ** [Replace] and [Index] *)

(** Deleting a byte is a filter. *)
Lemma ReplaceAll_delete s d : ReplaceAll s [d] [] = filter (fun b => b ≠ d) s.
Proof.
  unfold ReplaceAll. induction s as [|c s IH]; [done|]. rewrite filter_cons.
  cbn [replace_go HasPrefix length Nat.sub app]. rewrite andb_true_r.
  destruct (Z.eqb_spec d c); case_decide; simplify_eq; try done; by rewrite IH.
Qed.

(** Replacing a byte by a byte is a map. *)
Lemma ReplaceAll_byte s d e : ReplaceAll s [d] [e] = (fun b => if b =? d then e else b) <$> s.
Proof.
  unfold ReplaceAll. induction s as [|c s IH]; [done|].
  cbn [replace_go HasPrefix length Nat.sub app]. rewrite andb_true_r. csimpl.
  rewrite (Z.eqb_sym c d). destruct (d =? c); by rewrite IH.
Qed.

Lemma HasPrefix_spec s p : HasPrefix s p = true ↔ ∃ t, s = p ++ t.
Proof.
  revert s. induction p as [|c p IH]; intros s; simpl; [by split; eauto|].
  destruct s as [|d s]; [split; [done|intros (t & [=])]|].
  rewrite andb_true_iff, Z.eqb_eq, IH. split.
  - intros [-> (t & ->)]. by exists t.
  - intros (t & [= -> ->]). eauto.
Qed.

Lemma Index_lower s p : -1 ≤ Index s p.
Proof. induction s as [|c s IH]; simpl; repeat case_match; lia. Qed.

(** [Index] returns -1 exactly when the pattern does not occur. *)
Lemma Index_none s p : Index s p = -1 ↔ ¬ ∃ l t, s = l ++ p ++ t.
Proof.
  induction s as [|c s IH]; cbn [Index].
  - destruct (HasPrefix [] p) eqn:E.
    + apply HasPrefix_spec in E as (t & Et). split; [done|]. intros Hn. exfalso. apply Hn.
      by exists [], t.
    + split; [|done]. intros _ (l & t & Et). symmetry in Et.
      apply app_nil in Et as [_ Et]. apply app_nil in Et as [-> _]. done.
  - destruct (HasPrefix (c :: s) p) eqn:E.
    + apply HasPrefix_spec in E as (t & Et). split; [done|]. intros Hn. exfalso. apply Hn.
      by exists [], t.
    + transitivity (Index s p = -1).
      { pose proof (Index_lower s p). destruct (Z.eqb_spec (Index s p) (-1)); lia. }
      rewrite IH. split; intros Hn (l & t & Et); apply Hn.
      * destruct l as [|d l]; simplify_eq/=; [|by exists l, t].
        exfalso. cut (HasPrefix (c :: s) p = true); [congruence|].
        apply HasPrefix_spec. by exists t.
      * exists (c :: l), t. by rewrite Et.
Qed.

(** Otherwise it returns the offset of an occurrence. *)
Lemma Index_some s p i :
  Index s p = i → 0 ≤ i → ∃ l t, s = l ++ p ++ t ∧ len l = i.
Proof.
  revert i. induction s as [|c s IH]; intros i; cbn [Index].
  - destruct (HasPrefix [] p) eqn:E; intros <- Hi; [|lia].
    apply HasPrefix_spec in E as (t & Et). by exists [], t.
  - destruct (HasPrefix (c :: s) p) eqn:E; intros Ei Hi.
    + apply HasPrefix_spec in E as (t & Et). exists [], t. by subst.
    + destruct (Z.eqb_spec (Index s p) (-1)); [lia|]. pose proof (Index_lower s p).
      destruct (IH (i - 1)) as (l & t & -> & Hl); [lia..|].
      exists (c :: l), t. rewrite len_cons. split; [done|lia].
Qed.

(** ** Decimal round trip *)

Lemma digits_rev_value fuel n :
  0 ≤ n < 10 ^ Z.of_nat fuel →
  foldr (fun c acc => acc * 10 + (c - 48)) 0 (digits_rev fuel n) = n.
Proof.
  revert n. induction fuel as [|k IH]; intros n Hn; [simpl in *; lia|].
  cbn [digits_rev]. bool_case; cbn [foldr]; [zdiv|].
  rewrite IH; [zdiv|]. rewrite Nat2Z.inj_succ, Z.pow_succ_r in Hn by lia.
  split; [zdiv|]. apply Z.div_lt_upper_bound; lia.
Qed.

Lemma digits_rev_digit fuel n : 0 ≤ n → Forall (fun c => is_digit c = true) (digits_rev fuel n).
Proof.
  revert n. induction fuel as [|k IH]; intros n Hn; [constructor|]. cbn [digits_rev].
  constructor; [unfold is_digit; zdiv|]. bool_case; [constructor|]. apply IH. zdiv.
Qed.

Lemma parse_uint_loop_digits s n :
  Forall (fun c => is_digit c = true) s → 0 ≤ n →
  foldl (fun acc c => acc * 10 + (c - 48)) n s ≤ max_uint64 →
  parse_uint_loop s n = (foldl (fun acc c => acc * 10 + (c - 48)) n s, None).
Proof.
  intros Hs. revert n. induction Hs as [|c s Hc Hs IH]; intros n Hn Hle; [done|].
  cbn [parse_uint_loop foldl] in *. rewrite Hc.
  unfold is_digit in Hc. assert (∀ s m, 0 ≤ m → Forall (fun c => is_digit c = true) s →
    m ≤ foldl (fun acc c => acc * 10 + (c - 48)) m s) as Hmono.
  { clear. induction s as [|c s IH]; intros m Hm Hf; simpl; [lia|].
    apply Forall_cons in Hf as [Hc Hf]. unfold is_digit in Hc.
    etrans; [|apply IH; [|done]]; lia. }
  specialize (Hmono s (n * 10 + (c - 48)) ltac:(lia) Hs).
  replace (max_uint64 <? n * 10 + (c - 48)) with false by lia. apply IH; [lia|done].
Qed.

Lemma ParseUint_digits fuel n :
  0 ≤ n ≤ max_uint64 → n < 10 ^ Z.of_nat fuel → (0 < fuel)%nat →
  ParseUint (reverse (digits_rev fuel n)) = (n, None).
Proof.
  intros Hn Hf Hk. unfold ParseUint.
  destruct (reverse (digits_rev fuel n)) as [|c s] eqn:E.
  { apply (f_equal reverse) in E. rewrite reverse_involutive in E.
    destruct fuel; [lia|]. discriminate. }
  rewrite <- E. clear E c s.
  assert (foldl (fun acc c => acc * 10 + (c - 48)) 0 (reverse (digits_rev fuel n)) = n) as E.
  { rewrite <- (digits_rev_value fuel n) at 2 by lia.
    induction (digits_rev fuel n) as [|c s IH]; [done|].
    rewrite reverse_cons, foldl_app, IH. done. }
  rewrite parse_uint_loop_digits; [by rewrite E| |lia|rewrite E; lia].
  apply Forall_reverse, digits_rev_digit; lia.
Qed.

Lemma Atoi_Itoa n : int_ok 64 n → Atoi (Itoa n) = (n, None).
Proof.
  unfold int_ok. change (2 ^ (64 - 1)) with 9223372036854775808. intros Hn.
  unfold Itoa, Atoi, ParseInt, max_int64. bool_case.
  - change ((45 =? 45)) with true. cbn [orb]. rewrite ParseUint_digits; [|unfold max_uint64; lia..].
    replace (2 ^ 63 <? - n) with false by lia. f_equal; lia.
  - pose proof (digits_rev_digit 20 n ltac:(lia)) as Hd. apply Forall_reverse in Hd.
    pose proof (ParseUint_digits 20 n ltac:(unfold max_uint64; lia) ltac:(lia) ltac:(lia)) as Hp.
    destruct (reverse (digits_rev 20 n)) as [|c s] eqn:E; [discriminate|].
    apply Forall_cons in Hd as [Hc _]. unfold is_digit in Hc.
    replace (c =? 45) with false by lia. replace (c =? 43) with false by lia. cbn [orb].
    rewrite Hp. by replace (2 ^ 63 <=? n) with false by lia.
Qed.

(** ** White space *)

Definition all_space (rs : list (Z * Z)) : bool := forallb (fun ir => unicode_space ir.2) rs.

Lemma range_go_shift s i j k :
  range_go s (i + j) k = (fun ir => (ir.1 + j, ir.2)) <$> range_go s i k.
Proof.
  revert i k. induction s as [|c s IH]; intros i k; [done|]. cbn [range_go].
  replace (i + j + 1) with (i + 1 + j) by lia.
  destruct k; [|apply IH]. destruct (DecodeRune (c :: s)). csimpl. by rewrite IH.
Qed.

Lemma range_shift s j : range_go s j 0 = (fun ir => (ir.1 + j, ir.2)) <$> range s.
Proof. exact (range_go_shift s 0 j 0). Qed.

Lemma all_space_shift rs j : all_space ((fun ir => (ir.1 + j, ir.2)) <$> rs) = all_space rs.
Proof. unfold all_space. induction rs; csimpl; congruence. Qed.

Lemma suffix_start_shift rs e j :
  space_suffix_start ((fun ir => (ir.1 + j, ir.2)) <$> rs) (e + j) = space_suffix_start rs e + j.
Proof.
  induction rs as [|[i r] rs IH]; csimpl; [done|].
  pose proof (all_space_shift rs j) as E. unfold all_space in E. rewrite E.
  repeat bool_case; done.
Qed.

Lemma suffix_start_app_space rs i r e :
  unicode_space r = true → space_suffix_start (rs ++ [(i, r)]) e = space_suffix_start rs i.
Proof.
  intros Hr. induction rs as [|[j q] rs IH]; csimpl; [by rewrite Hr|].
  rewrite IH, forallb_app. simpl. rewrite Hr, !andb_true_r. done.
Qed.

Lemma suffix_start_app rs rs' e :
  all_space rs' = false → space_suffix_start (rs ++ rs') e = space_suffix_start rs' e.
Proof.
  intros Hr. unfold all_space in Hr. induction rs as [|[j q] rs IH]; csimpl; [done|].
  rewrite IH, forallb_app, Hr, andb_false_r. by repeat bool_case.
Qed.

Lemma suffix_start_all rs i e :
  offsets e i rs → i ≤ space_suffix_start rs e ≤ e.
Proof.
  induction 1; simpl; [lia|]. repeat bool_case; lia.
Qed.

Lemma prefix_end_range rs i e : offsets e i rs → i ≤ space_prefix_end rs e ≤ e.
Proof. induction 1; simpl; [lia|]. repeat bool_case; lia. Qed.

Lemma TrimSpace_length s :
  let a := space_prefix_end (range s) (len s) in
  let b := space_suffix_start (range s) (len s) in
  len (TrimSpace s) = Z.max 0 (b - a).
Proof.
  intros a b. unfold TrimSpace. fold a b.
  pose proof (prefix_end_range _ _ _ (offsets_range s)). 
  pose proof (suffix_start_all _ _ _ (offsets_range s)).
  destruct (Z.ltb_spec a b).
  - rewrite len_sub; lia.
  - unfold len; simpl; lia.
Qed.

(** A string that [TrimSpace] leaves alone starts and ends with something else than space. *)
Definition trimmed (s : bytes) : Prop := TrimSpace s = s.
#[export] Instance trimmed_dec s : Decision (trimmed s).
Proof. unfold trimmed. apply _. Defined.

Lemma trimmed_bounds s :
  trimmed s → s ≠ [] →
  space_prefix_end (range s) (len s) = 0 ∧ space_suffix_start (range s) (len s) = len s.
Proof.
  intros Ht Hs. pose proof (TrimSpace_length s) as Hl. cbn zeta in Hl. rewrite Ht in Hl.
  pose proof (prefix_end_range _ _ _ (offsets_range s)).
  pose proof (suffix_start_all _ _ _ (offsets_range s)).
  assert (0 < len s) by (destruct s; [done|rewrite len_cons; pose proof (len_nonneg s); lia]).
  lia.
Qed.

Lemma TrimSpace_bounds s :
  s ≠ [] → space_prefix_end (range s) (len s) = 0 → space_suffix_start (range s) (len s) = len s →
  TrimSpace s = s.
Proof.
  intros Hs Ha Hb. unfold TrimSpace. rewrite Ha, Hb.
  destruct (Z.ltb_spec 0 (len s)).
  - unfold sub. rewrite Z.sub_0_r. cbn [Z.to_nat drop]. apply take_ge. unfold len; lia.
  - destruct s; [done|]. rewrite len_cons in *. pose proof (len_nonneg s). lia.
Qed.

(** The first rune of a trimmed string settles the start of every longer one. *)
Lemma prefix_end_app rs rs' e e' :
  offsets e 0 rs → rs ≠ [] → space_prefix_end rs e = 0 → space_prefix_end (rs ++ rs') e' = 0.
Proof.
  intros Ho Hn Hp. destruct rs as [|[i r] rs]; [done|]. simpl in *.
  inversion Ho; subst. pose proof (prefix_end_range rs (i + 1) e ltac:(done)).
  bool_case; lia.
Qed.

Lemma range_nonempty s : s ≠ [] → range s ≠ [].
Proof. destruct s; [done|]. intros _. unfold range. rewrite range_go_cons. by destruct (DecodeRune _). Qed.

(** [TrimSpace] removes the newline after a trimmed text. *)
Lemma TrimSpace_newline s : trimmed s → TrimSpace (s ++ [10]) = s.
Proof.
  intros Ht. destruct (decide (s = [])) as [->|Hs]; [by vm_compute|].
  destruct (trimmed_bounds s Ht Hs) as [Ha Hb].
  unfold TrimSpace. unfold range in *. rewrite range_go_app_ascii by lia.
  rewrite (prefix_end_app _ _ (len s)); [|apply offsets_range|by apply range_nonempty|done].
  change (range_go [10] (0 + len s) 0) with [(0 + len s, 10)].
  rewrite suffix_start_app_space by done. rewrite Z.add_0_l, Hb.
  assert (0 < len s) by (destruct s; [done|rewrite len_cons; pose proof (len_nonneg s); lia]).
  replace (0 <? len s) with true by lia.
  unfold sub. rewrite Z.sub_0_r. change (Z.to_nat 0) with 0%nat. unfold len.
  rewrite drop_0, Nat2Z.id. apply take_app_length.
Qed.

Lemma range_go_ascii_cons c s i : c < 128 → range_go (c :: s) i 0 = (i, c) :: range_go s (i + 1) 0.
Proof.
  intros Hc. rewrite range_go_cons. unfold DecodeRune.
  by replace (c <? 128) with true by lia.
Qed.

Lemma ToUpper_ascii `{UnicodeUpper} s : Forall is_ascii s → ToUpper s = upper_ascii <$> s.
Proof.
  unfold ToUpper, range. generalize 0. induction s as [|c s IH]; intros i Hs; [done|].
  apply Forall_cons in Hs as [Hc Hs]. unfold is_ascii in Hc. rewrite range_go_ascii_cons by lia. csimpl.
  rewrite IH by done. unfold rune_upper. replace (c <? 128) with true by lia.
  unfold EncodeRune, upper_ascii. case_match; case_match; simpl; try done; lia.
Qed.

(** Two trimmed texts around a visible ASCII byte make a trimmed text. *)
Lemma trimmed_app k c v :
  c < 128 → unicode_space c = false → trimmed k → k ≠ [] → trimmed v → trimmed (k ++ c :: v).
Proof.
  intros Hc Hsp Hk Hn Hv. destruct (trimmed_bounds k Hk Hn) as [Ha _].
  apply TrimSpace_bounds; [by destruct k| |].
  - unfold range in *. rewrite range_go_app_ascii by done.
    eapply prefix_end_app; [apply offsets_range|by apply range_nonempty|exact Ha].
  - unfold range. rewrite range_go_app_ascii by done. rewrite range_go_ascii_cons by done.
    change ((0 + len k, c) :: ?l) with ([(0 + len k, c)] ++ l).
    rewrite suffix_start_app by (simpl; by rewrite Hsp).
    rewrite range_shift. destruct (decide (v = [])) as [->|Hv'].
    + simpl. rewrite Hsp. done.
    + destruct (trimmed_bounds v Hv Hv') as [_ Hb].
      rewrite suffix_start_app.
      * rewrite len_app, len_cons.
        replace (len k + (len v + 1)) with (len v + (0 + len k + 1)) by lia.
        rewrite suffix_start_shift, Hb. lia.
      * rewrite all_space_shift.
        destruct (all_space (range v)) eqn:E; [|done]. exfalso.
        pose proof (range_nonempty v Hv'). destruct (range v) as [|[i r] rs] eqn:Er; [done|].
        simpl in *. apply andb_true_iff in E as [E1 E2]. unfold all_space in E2.
        rewrite E1, E2 in Hb. pose proof (offsets_range v) as Ho. rewrite Er in Ho.
        inversion Ho. lia.
Qed.

(** ** Splitting *)

Lemma SplitByte_cons k sep t : sep ∉ k → SplitByte (k ++ sep :: t) sep = k :: SplitByte t sep.
Proof.
  induction k as [|c k IH]; intros Hk; cbn [app SplitByte].
  - by rewrite Z.eqb_refl.
  - apply not_elem_of_cons in Hk as [Hc Hk]. rewrite IH by done.
    by replace (c =? sep) with false by lia.
Qed.

Lemma SplitByte_single k sep : sep ∉ k → SplitByte k sep = [k].
Proof.
  induction k as [|c k IH]; intros Hk; cbn [SplitByte]; [done|].
  apply not_elem_of_cons in Hk as [Hc Hk]. rewrite IH by done.
  by replace (c =? sep) with false by lia.
Qed.
