(* ===== verification/GoNet.v ===== *)
(** * Addresses: what the program uses of Go's [net]

    [host:port] is split and joined by the MySQL driver (the address of a DSN) and by the Kafka
    client (the address of a broker). *)

From S2P Require Import Prelude GoStrings.

(** The offset of the first [c], the length when there is none: where the loop
    [for k = a; k < b; k++] that looks for [c] stops *)
Fixpoint index_in (l : bytes) (c : Z) : Z :=
  match l with [] => 0 | x :: l => if x =? c then 0 else 1 + index_in l c end.
(** The offset of the last [c], or -1: where the loop [for i := len(s)-1; i >= 0; i--] stops *)
Fixpoint last_in (l : bytes) (c : Z) : Z :=
  match l with
  | [] => -1
  | x :: l => let r := last_in l c in if 0 <=? r then r + 1 else if x =? c then 0 else -1
  end.
Definition contains (l : bytes) (c : Z) : bool := existsb (Z.eqb c) l.

(** [net.SplitHostPort]: the host and the port, [None] for an error *)
Definition SplitHostPort (hostport : bytes) : option (bytes * bytes) :=
  let i := last_in hostport (chr ":") in
  if i <? 0 then None
  else
    let hp :=
      if default 0 (hostport !! 0%nat) =? chr "[" then
        let e := index_in hostport (chr "]") in
        if e =? len hostport then None
        else if e + 1 =? i then Some (sub hostport 1 e, 1, e + 1)
        else None
      else
        let host := sub hostport 0 i in
        if contains host (chr ":") then None else Some (host, 0, 0) in
    match hp with
    | None => None
    | Some (host, j, k) =>
        if contains (sub hostport j (len hostport)) (chr "[") then None
        else if contains (sub hostport k (len hostport)) (chr "]") then None
        else Some (host, sub hostport (i + 1) (len hostport))
    end.
(** [net.JoinHostPort] *)
Definition JoinHostPort (host port : bytes) : bytes :=
  if contains host (chr ":") then B "[" ++ host ++ B "]:" ++ port else host ++ B ":" ++ port.

(** ** Facts *)

Ltac lens := unfold len; repeat first [rewrite length_app | progress (cbn [length])]; lia.

Lemma index_in_app a c b : c ∉ a → index_in (a ++ c :: b) c = len a.
Proof.
  induction a as [|x a IH]; intros Ha; cbn [app index_in]; [by rewrite Z.eqb_refl|].
  apply not_elem_of_cons in Ha as [Hx Ha]. rewrite IH, len_cons by done. replace (x =? c) with false by lia. lia.
Qed.
Lemma index_in_none a c : c ∉ a → index_in a c = len a.
Proof.
  induction a as [|x a IH]; intros Ha; cbn [index_in]; [done|].
  apply not_elem_of_cons in Ha as [Hx Ha]. rewrite IH, len_cons by done. replace (x =? c) with false by lia. lia.
Qed.
Lemma last_in_none a c : c ∉ a → last_in a c = -1.
Proof.
  induction a as [|x a IH]; intros Ha; cbn [last_in]; [done|].
  apply not_elem_of_cons in Ha as [Hx Ha]. rewrite IH by done. simpl. by replace (x =? c) with false by lia.
Qed.
Lemma last_in_app a c b : c ∉ b → last_in (a ++ c :: b) c = len a.
Proof.
  intros Hb. induction a as [|x a IH]; cbn [app last_in].
  - rewrite last_in_none by done. simpl. by rewrite Z.eqb_refl.
  - rewrite IH, len_cons. pose proof (len_nonneg a). by replace (0 <=? len a) with true by lia.
Qed.

Lemma slice_is {A} (l pre bs post : list A) a b :
  l = pre ++ bs ++ post → a = len pre → b = len pre + len bs → go_slice l a b = Ret bs.
Proof. intros -> -> ->. apply go_slice_mid. Qed.

Lemma contains_not_in l c : (c ∉ l) → contains l c = false.
Proof.
  intros Hc. unfold contains. induction l as [|x l IH]; [done|]. apply not_elem_of_cons in Hc as [Hx Hc]. simpl.
  rewrite IH by done. by replace (c =? x) with false by lia.
Qed.

(** A host without colons and brackets, and a port *)
Lemma SplitHostPort_plain host port :
  (∀ c, c ∈ [chr ":"; chr "["; chr "]"] → (c ∉ host) ∧ (c ∉ port)) →
  SplitHostPort (host ++ B ":" ++ port) = Some (host, port).
Proof.
  intros Hc. destruct (Hc (chr ":")) as [Hc1 Hc2]; [set_solver|]. destruct (Hc (chr "[")) as [Hl1 Hl2]; [set_solver|].
  destruct (Hc (chr "]")) as [Hr1 Hr2]; [set_solver|]. unfold SplitHostPort. change (B ":") with [chr ":"]. cbn [app].
  rewrite last_in_app by done. pose proof (len_nonneg host). replace (len host <? 0) with false by lia.
  assert (Hall : ∀ c, (c ∉ host) → (c ∉ port) → c ≠ chr ":" → c ∉ host ++ chr ":" :: port) by set_solver.
  assert (Hsub : sub (host ++ chr ":" :: port) 0 (len host) = host).
  { unfold sub. rewrite Z.sub_0_r, len_to_nat. change (Z.to_nat 0) with 0%nat. rewrite drop_0. apply take_app_length. }
  assert (Hfull : sub (host ++ chr ":" :: port) 0 (len (host ++ chr ":" :: port)) = host ++ chr ":" :: port).
  { unfold sub. rewrite Z.sub_0_r, len_to_nat. change (Z.to_nat 0) with 0%nat. rewrite drop_0. by apply take_ge. }
  replace (default 0 ((host ++ chr ":" :: port) !! 0%nat) =? chr "[") with false.
  2:{ symmetry. apply Z.eqb_neq. destruct host as [|x host]; simpl; [done|]. set_solver. }
  rewrite Hsub, contains_not_in by done. rewrite Hfull, contains_not_in by (apply Hall; done).
  rewrite contains_not_in by (apply Hall; done). f_equal. f_equal. unfold sub.
  replace (Z.to_nat (len host + 1)) with (length host + 1)%nat by lens.
  rewrite <- drop_drop, drop_app_length. simpl. rewrite drop_0. apply take_ge. lens.
Qed.

(** A host in brackets *)
Lemma SplitHostPort_bracket host port :
  (∀ c, c ∈ [chr "["; chr "]"] → (c ∉ host) ∧ (c ∉ port)) → (chr ":" ∉ port) →
  SplitHostPort (B "[" ++ host ++ B "]:" ++ port) = Some (host, port).
Proof.
  intros Hc Hp. destruct (Hc (chr "[")) as [Hl1 Hl2]; [set_solver|]. destruct (Hc (chr "]")) as [Hr1 Hr2]; [set_solver|].
  assert (E : B "[" ++ host ++ B "]:" ++ port = (chr "[" :: host ++ [chr "]"]) ++ chr ":" :: port) by (simpl; by rewrite <- app_assoc).
  set (s := B "[" ++ host ++ B "]:" ++ port) in *. assert (Hlen : len s = len host + len port + 3) by (rewrite E; lens).
  assert (Hi : last_in s (chr ":") = len host + 2) by (rewrite E, last_in_app by done; lens).
  assert (He : index_in s (chr "]") = len host + 1).
  { replace s with ((chr "[" :: host) ++ chr "]" :: chr ":" :: port); [|done].
    rewrite index_in_app; [lens|]. apply not_elem_of_cons. by split. }
  pose proof (len_nonneg host). pose proof (len_nonneg port).
  assert (Hsub : ∀ a b pre mid post, s = pre ++ mid ++ post → a = len pre → b = len pre + len mid → sub s a b = mid).
  { intros a b pre mid post -> -> ->. unfold sub. rewrite len_to_nat, drop_app_length.
    replace (len pre + len mid - len pre) with (len mid) by lia. by rewrite len_to_nat, take_app_length. }
  unfold SplitHostPort. rewrite Hi, He, Hlen. replace (len host + 2 <? 0) with false by lia.
  change (default 0 (s !! 0%nat)) with (chr "["). rewrite Z.eqb_refl.
  replace (len host + 1 =? len host + len port + 3) with false by lia. replace (len host + 1 + 1 =? len host + 2) with true by lia.
  rewrite (Hsub 1 (len host + 1) [chr "["] host (chr "]" :: chr ":" :: port)) by (done || lens).
  rewrite (Hsub 1 (len host + len port + 3) [chr "["] (host ++ chr "]" :: chr ":" :: port) []) by (rewrite ?app_nil_r; done || lens).
  rewrite contains_not_in by set_solver.
  rewrite (Hsub (len host + 1 + 1) (len host + len port + 3) ((chr "[" :: host) ++ [chr "]"]) (chr ":" :: port) [])
    by (rewrite ?app_nil_r, <- ?app_assoc; done || lens).
  rewrite contains_not_in by set_solver.
  rewrite (Hsub (len host + 2 + 1) (len host + len port + 3) ((chr "[" :: host) ++ [chr "]"; chr ":"]) port [])
    by (rewrite ?app_nil_r, <- ?app_assoc; done || lens).
  done.
Qed.
Lemma SplitHostPort_Join host port :
  (chr "[" ∉ host) → (chr "]" ∉ host) → (∀ c, c ∈ [chr ":"; chr "["; chr "]"] → c ∉ port) →
  SplitHostPort (JoinHostPort host port) = Some (host, port).
Proof.
  intros H1 H2 Hp. unfold JoinHostPort. destruct (contains host (chr ":")) eqn:E.
  - apply SplitHostPort_bracket; [|apply Hp; set_solver]. intros c Hc. split; [set_solver|apply Hp; set_solver].
  - apply SplitHostPort_plain. intros c Hc. split; [|by apply Hp]. intros Hin.
    assert (chr ":" ∉ host) by (intros Hx; apply Bool.not_true_iff_false in E; apply E, existsb_exists;
      exists (chr ":"); split; [by apply list_elem_of_In|done]).
    set_solver.
Qed.

Lemma Itoa_not_in n c : is_digit c = false → c ≠ chr "-" → c ∉ Itoa n.
Proof.
  intros Hd Hm.
  assert (Hr : ∀ l, Forall (fun x => is_digit x = true) l → c ∉ reverse l).
  { intros l Hl Hin. rewrite elem_of_reverse in Hin. by apply (proj1 (Forall_forall _ _) Hl) in Hin; congruence. }
  unfold Itoa. bool_case; [apply not_elem_of_cons; split; [done|]|]; apply Hr, digits_rev_digit; lia.
Qed.
