(* ===== verification/Fingerprint.v ===== *)
(** * [lib/fingerprint.go]: the SQL normaliser

    [Fingerprint] rewrites a query to its canonical form in one pass over its runes.  The
    pass is a state machine that copies slices of the query, [q[cpFromOffset:cpToOffset]],
    into a preallocated byte slice [f].  [step1], [step2] and [step3] are the three numbered
    blocks of the loop body ("Skip parts of the query", "Change state", "Copy a slice"),
    [step] is one iteration, [run] the loop.  Every slice expression and every store into [f]
    keeps Go's bounds check. *)

From S2P Require Import Prelude GoStrings.

(** The parser states, in the order of the source's [iota]. *)
Inductive fstate :=
| unknown | inWord | inNumber | inSpace | inOp | opOrNumber | inQuote | subOrOLC | inDash
| inOLC | divOrMLC | mlcOrMySQLCode | inMLC | inValues | moreValuesOrUnknown | orderBy
| onDupeKeyUpdate | inNumberInWord | inBackticks | inMySQLCode.

Definition fstate_code (s : fstate) : Z :=
  match s with
  | unknown => 0 | inWord => 1 | inNumber => 2 | inSpace => 3 | inOp => 4
  | opOrNumber => 5 | inQuote => 6 | subOrOLC => 7 | inDash => 8 | inOLC => 9
  | divOrMLC => 10 | mlcOrMySQLCode => 11 | inMLC => 12 | inValues => 13
  | moreValuesOrUnknown => 14 | orderBy => 15 | onDupeKeyUpdate => 16
  | inNumberInWord => 17 | inBackticks => 18 | inMySQLCode => 19
  end.

Definition st_is (a b : fstate) : bool := fstate_code a =? fstate_code b.

#[export] Instance fstate_eq_dec : EqDecision fstate.
Proof. solve_decision. Defined.

(** The local variables of [Fingerprint]. *)
Record FP := mkFP {
  prevWord : bytes;
  f : bytes;
  fi : Z;
  pr : Z;
  s : fstate;
  sqlState : fstate;
  quoteChar : Z;
  cpFromOffset : Z;
  cpToOffset : Z;
  addSpace : bool;
  escape : bool;
  parOpen : Z;
  parOpenTotal : Z;
  valueNo : Z;
  firstPar : Z
}.

Definition set_prevWord (v : bytes) (st : FP) : FP :=
  mkFP v (f st) (fi st) (pr st) (s st) (sqlState st) (quoteChar st) (cpFromOffset st)
    (cpToOffset st) (addSpace st) (escape st) (parOpen st) (parOpenTotal st) (valueNo
    st) (firstPar st).
Definition set_f (v : bytes) (st : FP) : FP :=
  mkFP (prevWord st) v (fi st) (pr st) (s st) (sqlState st) (quoteChar st) (cpFromOffset
    st) (cpToOffset st) (addSpace st) (escape st) (parOpen st) (parOpenTotal st)
    (valueNo st) (firstPar st).
Definition set_fi (v : Z) (st : FP) : FP :=
  mkFP (prevWord st) (f st) v (pr st) (s st) (sqlState st) (quoteChar st) (cpFromOffset
    st) (cpToOffset st) (addSpace st) (escape st) (parOpen st) (parOpenTotal st)
    (valueNo st) (firstPar st).
Definition set_pr (v : Z) (st : FP) : FP :=
  mkFP (prevWord st) (f st) (fi st) v (s st) (sqlState st) (quoteChar st) (cpFromOffset
    st) (cpToOffset st) (addSpace st) (escape st) (parOpen st) (parOpenTotal st)
    (valueNo st) (firstPar st).
Definition set_s (v : fstate) (st : FP) : FP :=
  mkFP (prevWord st) (f st) (fi st) (pr st) v (sqlState st) (quoteChar st) (cpFromOffset
    st) (cpToOffset st) (addSpace st) (escape st) (parOpen st) (parOpenTotal st)
    (valueNo st) (firstPar st).
Definition set_sqlState (v : fstate) (st : FP) : FP :=
  mkFP (prevWord st) (f st) (fi st) (pr st) (s st) v (quoteChar st) (cpFromOffset st)
    (cpToOffset st) (addSpace st) (escape st) (parOpen st) (parOpenTotal st) (valueNo
    st) (firstPar st).
Definition set_quoteChar (v : Z) (st : FP) : FP :=
  mkFP (prevWord st) (f st) (fi st) (pr st) (s st) (sqlState st) v (cpFromOffset st)
    (cpToOffset st) (addSpace st) (escape st) (parOpen st) (parOpenTotal st) (valueNo
    st) (firstPar st).
Definition set_cpFromOffset (v : Z) (st : FP) : FP :=
  mkFP (prevWord st) (f st) (fi st) (pr st) (s st) (sqlState st) (quoteChar st) v
    (cpToOffset st) (addSpace st) (escape st) (parOpen st) (parOpenTotal st) (valueNo
    st) (firstPar st).
Definition set_cpToOffset (v : Z) (st : FP) : FP :=
  mkFP (prevWord st) (f st) (fi st) (pr st) (s st) (sqlState st) (quoteChar st)
    (cpFromOffset st) v (addSpace st) (escape st) (parOpen st) (parOpenTotal st)
    (valueNo st) (firstPar st).
Definition set_addSpace (v : bool) (st : FP) : FP :=
  mkFP (prevWord st) (f st) (fi st) (pr st) (s st) (sqlState st) (quoteChar st)
    (cpFromOffset st) (cpToOffset st) v (escape st) (parOpen st) (parOpenTotal st)
    (valueNo st) (firstPar st).
Definition set_escape (v : bool) (st : FP) : FP :=
  mkFP (prevWord st) (f st) (fi st) (pr st) (s st) (sqlState st) (quoteChar st)
    (cpFromOffset st) (cpToOffset st) (addSpace st) v (parOpen st) (parOpenTotal st)
    (valueNo st) (firstPar st).
Definition set_parOpen (v : Z) (st : FP) : FP :=
  mkFP (prevWord st) (f st) (fi st) (pr st) (s st) (sqlState st) (quoteChar st)
    (cpFromOffset st) (cpToOffset st) (addSpace st) (escape st) v (parOpenTotal st)
    (valueNo st) (firstPar st).
Definition set_parOpenTotal (v : Z) (st : FP) : FP :=
  mkFP (prevWord st) (f st) (fi st) (pr st) (s st) (sqlState st) (quoteChar st)
    (cpFromOffset st) (cpToOffset st) (addSpace st) (escape st) (parOpen st) v (valueNo
    st) (firstPar st).
Definition set_valueNo (v : Z) (st : FP) : FP :=
  mkFP (prevWord st) (f st) (fi st) (pr st) (s st) (sqlState st) (quoteChar st)
    (cpFromOffset st) (cpToOffset st) (addSpace st) (escape st) (parOpen st)
    (parOpenTotal st) v (firstPar st).
Definition set_firstPar (v : Z) (st : FP) : FP :=
  mkFP (prevWord st) (f st) (fi st) (pr st) (s st) (sqlState st) (quoteChar st)
    (cpFromOffset st) (cpToOffset st) (addSpace st) (escape st) (parOpen st)
    (parOpenTotal st) (valueNo st) v.

(** [func isSpace(r rune) bool] *)
Definition isSpace (r : Z) : bool := (r =? 32) || (r =? 9) || (r =? 13) || (r =? 10).

Arguments isSpace : simpl never.

(** What one iteration does: go on to the next rune, or return from [Fingerprint]. *)
Inductive outcome :=
| Next (st : FP)
| Return (out : bytes).

Section Fingerprint.

Context `{UnicodeTables}.

(** The package variable [ReplaceNumbersInWords]. *)
Context (ReplaceNumbersInWords : bool).

(** [func wordIn(q string, words ...string) bool] *)
Definition wordIn (q : bytes) (words : list bytes) : bool :=
  existsb (beq (ToLower q)) words.

(** [f[fi] = c; fi++] *)
Definition put (c : Z) (st : FP) : Go FP :=
  let* f' := go_set (f st) (fi st) c in Ret (set_fi (fi st + 1) (set_f f' st)).

(** [if len(f) > fi { f[fi] = ' ' }; fi++] *)
Definition put_space (st : FP) : Go FP :=
  let* f' := (if fi st <? len (f st) then go_set (f st) (fi st) 32 else Ret (f st)) in
  Ret (set_fi (fi st + 1) (set_f f' st)).

(** [copy(f[fi:fi+n], w); fi += n] *)
Definition put_copy (n : Z) (w : bytes) (st : FP) : Go FP :=
  let* f' := go_copy (f st) (fi st) (fi st + n) w in
  Ret (set_fi (fi st + n) (set_f f' st)).

(** Inside '...' or "...": only the escape character and the closing quote matter. *)
Definition step1_inQuote (qi r : Z) (st : FP) : Go (bool * FP) :=
  if negb (r =? quoteChar st) then
    if escape st then Ret (true, set_escape false st)
    else if r =? chr "\" then Ret (true, set_escape true st)
    else Ret (true, st)
  else if escape st then Ret (true, set_escape false st)
  else
    let st := set_cpFromOffset (qi + 1) (set_escape false st) in
    if st_is (sqlState st) inValues then Ret (true, set_s inValues st)
    else let* st := put (chr "?") st in Ret (true, set_s unknown st).

(** Inside `...`. *)
Definition step1_inBackticks (qi r : Z) (st : FP) : Go (bool * FP) :=
  if negb (r =? chr "`") then
    if escape st then Ret (true, set_escape false st)
    else if r =? chr "\" then Ret (true, set_escape true st)
    else Ret (true, st)
  else if escape st then Ret (true, set_escape false st)
  else Ret (true, set_s inWord (set_cpToOffset (qi + 1) (set_escape false st))).

(** Inside the digits of a word such as db37. *)
Definition step1_inNumberInWord (qi r : Z) (st : FP) : Go (bool * FP) :=
  if (48 <=? r) && (r <=? 57) then Ret (true, st)
  else
    let* st := put (chr "?") st in
    let st := set_cpFromOffset qi st in
    Ret (false, set_s (if isSpace r then unknown else inWord) st).

Definition number_rune (r : Z) : bool :=
  ((48 <=? r) && (r <=? 57)) || ((97 <=? r) && (r <=? 102)) || ((65 <=? r) && (r <=? 70))
  || (r =? chr ".") || (r =? chr "x") || (r =? chr "-").

Definition not_number_rune (r : Z) : bool :=
  ((103 <=? r) && (r <=? 122)) || ((71 <=? r) && (r <=? 90)) || (r =? chr "_").

(** Inside a number literal. *)
Definition step1_inNumber (qi r : Z) (st : FP) : Go (bool * FP) :=
  if number_rune r then Ret (true, st)
  else if not_number_rune r then Ret (false, set_s inWord (set_cpToOffset qi st))
  else if st_is (sqlState st) inMySQLCode then
    Ret (false, set_sqlState unknown (set_s inWord (set_cpToOffset qi st)))
  else
    let* st := put (chr "?") st in
    Ret (false, set_s unknown (set_cpToOffset qi (set_cpFromOffset qi st))).

(** The end of [step1_inValues]: what follows the classification of the rune. *)
Definition values_tail (qi r : Z) (st : FP) : Go (bool * FP) :=
  if 0 <? parOpen st then Ret (true, st)
  else if parOpenTotal st =? 0 then Ret (true, set_s inWord st)
  else
    let st := set_valueNo (valueNo st + 1) st in
    let* st :=
      (if valueNo st =? 1 then
         let* st := (if 1 <? qi - firstPar st then put_copy 4 (B "(?+)") st
                     else put_copy 2 (B "()") st) in
         Ret (set_firstPar 0 st)
       else Ret st) in
    Ret (true, set_parOpenTotal 0 (set_cpFromOffset (qi + 1)
                 (set_pr r (set_s moreValuesOrUnknown st)))).

(** Inside the (val1),...,(valN) after IN or VALUE[S]. *)
Definition step1_inValues (qi r : Z) (st : FP) : Go (bool * FP) :=
  if r =? chr ")" then
    values_tail qi r
      (set_parOpenTotal (parOpenTotal st + 1) (set_parOpen (parOpen st - 1) st))
  else if r =? chr "(" then
    let st := set_parOpen (parOpen st + 1) st in
    values_tail qi r (if parOpen st =? 1 then set_firstPar qi st else st)
  else if (r =? 39) || (r =? 34) then Ret (true, set_quoteChar r (set_s inQuote st))
  else if isSpace r then Ret (true, st)
  else values_tail qi r st.

(** Block 1: skip parts of the query for certain states. The boolean is [true] when the
    iteration ends there ([continue]). *)
Definition step1 (qi r : Z) (st : FP) : Go (bool * FP) :=
  match s st with
  | inQuote => step1_inQuote qi r st
  | inBackticks => step1_inBackticks qi r st
  | inNumberInWord => step1_inNumberInWord qi r st
  | inNumber => step1_inNumber qi r st
  | inValues => step1_inValues qi r st
  | inMLC =>
      if (pr st =? chr "*") && (r =? chr "/") then Ret (true, set_s unknown st)
      else Ret (true, set_pr r st)
  | mlcOrMySQLCode =>
      if negb (r =? chr "!") then Ret (true, set_s inMLC (set_pr r st))
      else Ret (false, set_sqlState inMySQLCode (set_s inWord st))
  | inOLC => if r =? 10 then Ret (true, set_s unknown st) else Ret (true, st)
  | _ =>
      if isSpace r && isSpace (pr st)
      then Ret (true, set_pr r (set_cpFromOffset (qi + 1) st))
      else Ret (false, st)
  end.

(** A digit. *)
Definition step2_digit (qi : Z) (st : FP) : FP :=
  match s st with
  | opOrNumber => set_s inNumber (set_cpToOffset (qi - 1) st)
  | inOp => set_s inNumber (set_cpToOffset qi st)
  | inWord =>
      if pr st =? chr "(" then set_s inNumber (set_cpToOffset qi st)
      else if pr st =? chr "," then set_cpToOffset qi (set_s inNumber st)
      else if ReplaceNumbersInWords then set_cpToOffset qi (set_s inNumberInWord st)
      else st
  | _ => set_cpToOffset qi (set_s inNumber st)
  end.

(** White space that ends a word. *)
Definition word_end (q : bytes) (qi : Z) (st : FP) : Go outcome :=
  let* raw := go_slice q (cpFromOffset st) qi in
  let word := ToLower raw in
  if beq word (B "use") && beq (prevWord st) [] then Ret (Return (B "use ?"))
  else
    let* st :=
      (if (beq word (B "null")
           && (negb (beq (prevWord st) (B "is")) && negb (beq (prevWord st) (B "not"))))
          || beq word (B "null,") then
         let* st := put (chr "?") st in
         let* c := go_index word (len word - 1) in
         let* st := (if c =? chr "," then put (chr ",") st else Ret st) in
         let* st := put_space st in
         Ret (set_cpFromOffset (qi + 1) st)
       else if beq (prevWord st) (B "order") && beq word (B "by") then
         Ret (set_sqlState orderBy st)
       else if st_is (sqlState st) orderBy && wordIn word [B "asc"; B "asc,"; B "asc "] then
         let st := set_cpFromOffset qi st in
         let* c := go_index word (len word - 1) in
         if c =? chr "," then
           let st := set_fi (fi st - 1) st in
           let* f1 := go_set (f st) (fi st) (chr ",") in
           let* f2 := go_set f1 (fi st + 1) 32 in
           Ret (set_fi (fi st + 2) (set_f f2 st))
         else Ret st
       else if beq (prevWord st) (B "key") && beq word (B "update") then
         Ret (set_sqlState onDupeKeyUpdate st)
       else Ret st) in
    Ret (Next (set_addSpace true (set_cpToOffset qi (set_s inSpace st)))).

(** White space. *)
Definition step2_space (q : bytes) (qi : Z) (st : FP) : Go outcome :=
  match s st with
  | unknown =>
      if 0 <? fi st then
        let* c := go_index (f st) (fi st - 1) in
        if negb (isSpace c) then
          let* st := put_space st in Ret (Next (set_cpFromOffset (qi + 1) st))
        else Ret (Next st)
      else Ret (Next st)
  | inDash =>
      let st := set_s inOLC st in
      Ret (Next (if 2 <? cpToOffset st then set_cpToOffset (qi - 2) st else st))
  | moreValuesOrUnknown =>
      if valueNo st =? 1 then let* st := put_space st in Ret (Next st)
      else Ret (Next st)
  | _ => word_end q qi st
  end.

(** A quote character. *)
Definition step2_quote (qi r : Z) (st : FP) : FP :=
  if negb (pr st =? chr "\") then
    if negb (st_is (s st) inQuote) then
      let st := set_cpToOffset qi (set_quoteChar r (set_s inQuote st)) in
      if (pr st =? chr "x") || (pr st =? chr "b") then set_cpToOffset (-2) st else st
    else st
  else st.

(** An opening parenthesis. *)
Definition step2_paren (q : bytes) (qi : Z) (st : FP) : Go outcome :=
  if beq (prevWord st) (B "call") then
    let* w := go_slice q (cpFromOffset st) qi in Ret (Return (B "call " ++ w))
  else
    let* values :=
      (if negb (st_is (sqlState st) onDupeKeyUpdate) then
         if (st_is (s st) inSpace || st_is (s st) moreValuesOrUnknown)
            && (beq (prevWord st) (B "value") || beq (prevWord st) (B "values")
                || beq (prevWord st) (B "in"))
         then Ret true
         else let* w := go_slice q (cpFromOffset st) qi in
              Ret (wordIn w [B "value"; B "values"; B "in"])
       else Ret false) in
    if values : bool then
      let st := set_firstPar qi (set_parOpen 1 (set_sqlState inValues (set_s inValues st))) in
      Ret (Next (if valueNo st =? 0 then set_cpToOffset qi st else st))
    else if negb (st_is (s st) inWord) then
      Ret (Next (set_s inWord (set_cpFromOffset qi (set_valueNo 0 st))))
    else Ret (Next st).

(** Any other rune. *)
Definition step2_default (qi : Z) (st : FP) : FP :=
  set_s inWord
    (if negb (st_is (s st) inWord) && negb (st_is (s st) inOp) then
       let st := set_cpFromOffset qi (set_valueNo 0 st) in
       if st_is (sqlState st) inValues then set_sqlState unknown st else st
     else st).

(** Block 2: change state based on rune and current state. *)
Definition step2 (q : bytes) (qi r : Z) (st : FP) : Go outcome :=
  if (48 <=? r) && (r <=? 57) then Ret (Next (step2_digit qi st))
  else if isSpace r then step2_space q qi st
  else if (r =? 39) || (r =? 34) then Ret (Next (step2_quote qi r st))
  else if r =? chr "`" then
    Ret (Next (if negb (pr st =? chr "\") then
                 if negb (st_is (s st) inBackticks) then set_s inBackticks st else st
               else st))
  else if (r =? chr "=") || (r =? chr "<") || (r =? chr ">") || (r =? chr "!") then
    Ret (Next (set_s inOp (if negb (st_is (s st) inWord) && negb (st_is (s st) inOp)
                           then set_cpFromOffset qi st else st)))
  else if r =? chr "/" then Ret (Next (set_s divOrMLC st))
  else if (r =? chr "*") && st_is (s st) divOrMLC then Ret (Next (set_s mlcOrMySQLCode st))
  else if r =? chr "+" then Ret (Next (set_s opOrNumber st))
  else if r =? chr "-" then
    Ret (Next (set_s (if pr st =? chr "-" then inDash else opOrNumber) st))
  else if r =? chr "." then
    Ret (Next (if st_is (s st) inNumber || st_is (s st) inOp
               then set_cpToOffset qi (set_s inNumber st) else st))
  else if r =? chr "(" then step2_paren q qi st
  else if (r =? chr ",") && st_is (s st) moreValuesOrUnknown then Ret (Next st)
  else if (r =? chr ":") && beq (prevWord st) (B "administrator") then
    let* w := go_slice q 0 (len q - 1) in Ret (Return w)
  else if r =? chr "#" then Ret (Next (set_s inOLC (set_addSpace false st)))
  else Ret (Next (step2_default qi st)).

(** Block 3: copy a slice of the query into the fingerprint. *)
Definition step3 (q : bytes) (r : Z) (st : FP) : Go FP :=
  let* st :=
    (if cpFromOffset st <? cpToOffset st then
       let l := cpToOffset st - cpFromOffset st in
       let* raw := go_slice q (cpFromOffset st) (cpToOffset st) in
       let st := set_prevWord (ToLower raw) st in
       let* st := put_copy l (prevWord st) st in
       let st := set_cpFromOffset (cpToOffset st) st in
       if wordIn (prevWord st) [B "in"; B "value"; B "values"]
          && negb (st_is (sqlState st) onDupeKeyUpdate) then
         Ret (set_sqlState inValues (set_s inValues (set_addSpace false st)))
       else if addSpace st then
         let* st := put_space st in
         Ret (set_addSpace false (set_cpFromOffset (cpFromOffset st + 1) st))
       else Ret st
     else Ret st) in
  Ret (set_pr r st).

(** One iteration of the loop. *)
Definition step (q : bytes) (qi r : Z) (st : FP) : Go outcome :=
  let* cs := step1 qi r st in
  if cs.1 : bool then Ret (Next cs.2)
  else
    let* o := step2 q qi r cs.2 in
    match o with
    | Return out => Ret (Return out)
    | Next st2 => let* st3 := step3 q r st2 in Ret (Next st3)
    end.

(** [for qi, r := range q { ... }] *)
Fixpoint run (q : bytes) (rs : list (Z * Z)) (st : FP) : Go outcome :=
  match rs with
  | [] => Ret (Next st)
  | (qi, r) :: rs' =>
      let* o := step q qi r st in
      match o with
      | Return out => Ret (Return out)
      | Next st' => run q rs' st'
      end
  end.

(** [for fi > 0 && (len(f) > fi-1) && isSpace(rune(f[fi-1])) { fi-- }] *)
Fixpoint trim (f : bytes) (n : nat) : nat :=
  match n with
  | O => O
  | S k => match f !! k with
           | Some c => if isSpace c then trim f k else S k
           | None => S k
           end
  end.

(** The code after the loop. *)
Definition finish (st : FP) : Go bytes :=
  let n := Z.of_nat (trim (f st) (Z.to_nat (fi st))) in
  if n <=? len (f st) then
    let* out := go_slice (f st) 0 n in Ret (ReplaceAll out [0] [])
  else Ret [].

(** The variables before the loop; [cap] is the length of [f]. *)
Definition init (cap : nat) : FP :=
  mkFP [] (replicate cap 0) 0 0 unknown unknown 0 0 0 false false 0 0 0 0.

(** The body of [Fingerprint] for a query that already ends in the extra space, with an
    output slice of length [cap]. *)
Definition fingerprint_cap (cap : nat) (q : bytes) : Go bytes :=
  let* o := run q (range q) (init cap) in
  match o with
  | Return out => Ret out
  | Next st => finish st
  end.

(** [func Fingerprint(q string) string] *)
Definition Fingerprint (q : bytes) : Go bytes :=
  let q := q ++ [32] in fingerprint_cap (length q) q.

End Fingerprint.

Arguments wordIn : simpl never.
