(* ===== verification/FingerprintSafety.v ===== *)
(** * Memory safety of the normaliser ([lib/fingerprint.go])

    [Fingerprint] writes into a slice as long as its input.  The proof bounds the write
    index by the read index: every byte written is paid for by a byte of the query that was
    passed over, except that a value list "(1)" is rewritten to the longer "(?+)" and that
    spaces after a value list can be copied twice.  [credit] counts the room these two need;
    a slice with that much extra room is enough for every query, and a query without a
    closing parenthesis needs none. *)

From S2P Require Import Prelude GoStrings Fingerprint.

(** ** The invariant *)

(** Room the fingerprint may need beyond the length of the query: four bytes for a closing
    parenthesis, one byte for a space that follows one. *)
Definition credit_step (g r : Z) : Z :=
  if r =? chr ")" then g + 4 else if isSpace r && (0 <? g) then g + 1 else g.

(** A space that is still to be written. *)
Definition pend (st : FP) : Z := if addSpace st then 1 else 0.

Definition in_number (x : fstate) : bool :=
  match x with inNumber | inNumberInWord => true | _ => false end.
Definition resting (x : fstate) : bool :=
  match x with unknown | inValues | moreValuesOrUnknown => true | _ => false end.

(** What holds in every block of the body. *)
Record Core (cap g hi : Z) (st : FP) : Prop := {
  c_cap : len (f st) = cap;
  c_g : 0 ≤ g;
  c_fi : 0 ≤ fi st;
  c_from : 0 ≤ cpFromOffset st ≤ hi;
  c_budget : fi st ≤ cpFromOffset st + g;
  c_more : s st = moreValuesOrUnknown → 0 < g;
  c_par : parOpen st ≤ 0 → parOpenTotal st = 0;
  c_prev : prevWord st ≠ [] → 1 ≤ fi st;
  c_order : sqlState st = orderBy → 1 ≤ fi st
}.

(** The loop invariant: what holds before the rune at offset [qi]. *)
Record Inv (cap g qi : Z) (st : FP) : Prop := {
  i_core : Core cap g qi st;
  i_to : cpToOffset st ≤ qi;
  i_pend : fi st + pend st ≤ cpFromOffset st + g;
  i_num : in_number (s st) = true → fi st + pend st + 1 ≤ qi + g;
  i_numpr : in_number (s st) = true → isSpace (pr st) = false;
  i_word : resting (s st) = true ∨ isSpace (pr st) = true ∨ cpFromOffset st < qi
           ∨ fi st + 1 ≤ cpFromOffset st + g
}.

(** Between block 1 and block 2. *)
Record Pre2 (cap g qi r : Z) (st : FP) : Prop := {
  p_core : Core cap g qi st;
  p_to : cpToOffset st ≤ qi;
  p_state : in_number (s st) = false ∧ s st ≠ inValues;
  p_pend : fi st + pend st ≤ cpFromOffset st + g;
  p_more : s st = moreValuesOrUnknown → isSpace r = true →
           fi st + pend st + 1 ≤ cpFromOffset st + g;
  p_word : isSpace r = true → resting (s st) = true ∨ cpFromOffset st < qi
           ∨ fi st + 1 ≤ cpFromOffset st + g
}.

(** Between block 2 and block 3. *)
Record Mid (cap g qi r : Z) (st : FP) : Prop := {
  m_core : Core cap g (qi + 1) st;
  m_to : cpToOffset st ≤ qi;
  m_pend : addSpace st = true → fi st + 1 ≤ cpFromOffset st + g
           ∨ (isSpace r = true ∧ cpFromOffset st < cpToOffset st);
  m_from : cpFromOffset st ≤ qi ∨ isSpace r = true;
  m_num : in_number (s st) = true → isSpace r = false
}.


(** Split on the conditions left in a goal about the fields of a state and close it. *)
Ltac fp_solve :=
  intros; simpl in *;
  try match goal with E : s _ = _ |- _ => rewrite E in * end;
  unfold pend, in_number, resting in *; simpl in *;
  repeat match goal with
  | |- context [if ?b then _ else _] => destruct b eqn:?; simpl in *
  | Hx : context [if ?b then _ else _] |- _ => destruct b eqn:?; simpl in *
  end;
  try congruence; try lia; try (intuition (try congruence; try lia); fail).

Section Safety.

Context `{UnicodeTables} (R : bool).

Lemma Inv_weaken cap g qi qi' st : qi ≤ qi' → Inv cap g qi st → Inv cap g qi' st.
Proof. intros ? [[] ?????]. split; [split|..]; fp_solve. Qed.

Lemma wp_put c st (Q : FP → Prop) :
  0 ≤ fi st < len (f st) →
  (∀ f', len f' = len (f st) → Q (set_fi (fi st + 1) (set_f f' st))) → wp (put c st) Q.
Proof. intros Hb HQ. unfold put. wp_start. apply wp_go_set; [done|]. intros. by apply HQ. Qed.

Lemma wp_put_space st (Q : FP → Prop) :
  0 ≤ fi st →
  (∀ f', len f' = len (f st) → Q (set_fi (fi st + 1) (set_f f' st))) → wp (put_space st) Q.
Proof.
  intros Hb HQ. unfold put_space. wp_start; [|by apply HQ].
  apply wp_go_set; [lia|]. intros. by apply HQ.
Qed.

Lemma wp_put_copy n w st (Q : FP → Prop) :
  0 ≤ fi st → 0 ≤ n → fi st + n ≤ len (f st) →
  (∀ f', len f' = len (f st) → Q (set_fi (fi st + n) (set_f f' st))) →
  wp (put_copy n w st) Q.
Proof.
  intros ??? HQ. unfold put_copy. wp_start. apply wp_go_copy; [lia..|].
  intros. by apply HQ.
Qed.

Ltac fp_done := repeat apply wp_ret; simpl; split; [split|..]; fp_solve.

Lemma step3_safe cap g q qi r st :
  qi < len q → len q + g ≤ cap → Mid cap g qi r st →
  wp (step3 q r st) (Inv cap g (qi + 1)).
Proof.
  intros Hq Hcap [[Ecap ?????? Hprev Hord] ????]. unfold step3. apply wp_bind.
  apply wp_if; intros Hc; apply Z.ltb_lt in Hc || apply Z.ltb_ge in Hc.
  - apply wp_bind, wp_go_slice; [lia..|]. apply wp_bind, wp_put_copy; simpl; [lia..|].
    intros f' Ef. apply wp_if; intros Hw; [|apply wp_if; intros Ha].
    + fp_done.
    + apply wp_bind, wp_put_space; [simpl; lia|]. intros f'' Ef'. fp_done.
    + fp_done.
  - fp_done.
Qed.

Definition after1 (cap g qi r : Z) (cs : bool * FP) : Prop :=
  if cs.1 then Inv cap g (qi + 1) cs.2 else Pre2 cap g qi r cs.2.

Lemma credit_step_mono g r : 0 ≤ g → g ≤ credit_step g r.
Proof. unfold credit_step. fp_solve. Qed.


Lemma step1_inQuote_safe cap g qi r st :
  qi + g < cap → s st = inQuote → Inv cap g qi st →
  wp (step1_inQuote qi r st) (after1 cap g qi r).
Proof.
  intros Hcap Es [[] ?????]. destruct st; simpl in *; subst. unfold step1_inQuote.
  wp_start; try (unfold after1; simpl; fp_done).
  apply wp_put; simpl; [lia|]. intros f' Ef. unfold after1; simpl; fp_done.
Qed.

Lemma step1_inBackticks_safe cap g qi r st :
  s st = inBackticks → Inv cap g qi st →
  wp (step1_inBackticks qi r st) (after1 cap g qi r).
Proof.
  intros Es [[] ?????]. destruct st; simpl in *; subst. unfold step1_inBackticks.
  wp_start; unfold after1; simpl; fp_done.
Qed.

Lemma step1_inNumberInWord_safe cap g qi r st :
  qi + g < cap → s st = inNumberInWord → Inv cap g qi st →
  wp (step1_inNumberInWord qi r st) (after1 cap g qi r).
Proof.
  intros Hcap Es [[] ?????]. destruct st; simpl in *; subst. unfold step1_inNumberInWord.
  wp_start; try (unfold after1; simpl; fp_done).
  apply wp_put; simpl; [fp_solve|]. intros f' Ef. unfold after1; simpl; fp_done.
Qed.

Lemma not_number_rune_space r : not_number_rune r = true → isSpace r = false.
Proof. unfold not_number_rune, isSpace. chr_norm. lia. Qed.

Lemma step1_inNumber_safe cap g qi r st :
  qi + g < cap → s st = inNumber → Inv cap g qi st →
  wp (step1_inNumber qi r st) (after1 cap g qi r).
Proof.
  intros Hcap Es [[] ?????]. destruct st; simpl in *; subst. unfold step1_inNumber.
  pose proof (not_number_rune_space r).
  wp_start; try (unfold after1; simpl; fp_done).
  apply wp_put; simpl; [fp_solve|]. intros f' Ef. unfold after1; simpl; fp_done.
Qed.

Lemma values_tail_safe cap g qi r st :
  qi + g < cap → s st = inValues → len (f st) = cap → 0 ≤ g → 0 ≤ fi st →
  0 ≤ cpFromOffset st ≤ qi → cpToOffset st ≤ qi →
  (0 < parOpen st ∨ parOpenTotal st = 0
   ∨ (0 < g ∧ fi st + pend st + 4 ≤ cpFromOffset st + g)) →
  fi st + pend st ≤ cpFromOffset st + g →
  (prevWord st ≠ [] → 1 ≤ fi st) → (sqlState st = orderBy → 1 ≤ fi st) →
  wp (values_tail qi r st) (after1 cap g qi r).
Proof.
  intros ? Es. intros. destruct st; simpl in *; subst. unfold values_tail.
  wp_start; try (apply wp_put_copy; simpl; [fp_solve..|]; intros f' Ef);
    unfold after1; simpl; fp_done.
Qed.

Lemma step1_inValues_safe cap g qi r st :
  qi + credit_step g r < cap → s st = inValues → Inv cap g qi st →
  wp (step1_inValues qi r st) (after1 cap (credit_step g r) qi r).
Proof.
  intros Hcap Es [[] ?????]. destruct st; simpl in *; subst. unfold step1_inValues.
  assert (0 ≤ g → g ≤ credit_step g r) by apply credit_step_mono.
  apply wp_if; intros Hp; [|wp_start]; try (unfold after1; simpl; fp_done; fail).
  - assert (credit_step g r = g + 4) as E by (unfold credit_step; by rewrite Hp).
    rewrite E in *. apply values_tail_safe; fp_solve.
  - apply values_tail_safe; fp_solve.
  - apply values_tail_safe; fp_solve.
Qed.

Lemma Inv_credit cap g g' qi st : g ≤ g' → Inv cap g qi st → Inv cap g' qi st.
Proof. intros ? [[] ?????]. split; [split|..]; fp_solve. Qed.

Lemma skip_space_safe cap g qi r st :
  in_number (s st) = false ∧ s st ≠ inValues →
  (s st = moreValuesOrUnknown → isSpace r = true →
   fi st + pend st + 1 ≤ cpFromOffset st + g) →
  Inv cap g qi st →
  wp (if isSpace r && isSpace (pr st)
      then Ret (true, set_pr r (set_cpFromOffset (qi + 1) st)) else Ret (false, st))
     (after1 cap g qi r).
Proof.
  intros En Hmore [[] ??? _ ?]. unfold after1.
  destruct (isSpace r) eqn:Er, (isSpace (pr st)) eqn:Ep; simpl; fp_done.
Qed.

Lemma step1_safe cap g qi r st :
  qi + credit_step g r < cap → Inv cap g qi st →
  wp (step1 qi r st) (after1 cap (credit_step g r) qi r).
Proof.
  intros Hcap HI. pose proof HI as [[] ?????].
  assert (0 ≤ g → g ≤ credit_step g r) as Hm by apply credit_step_mono.
  assert (Inv cap (credit_step g r) qi st) as HI' by (eapply Inv_credit; [|done]; auto).
  assert (s st = moreValuesOrUnknown → isSpace r = true →
          fi st + pend st + 1 ≤ cpFromOffset st + credit_step g r) as Hmore.
  { intros Es Hr. unfold credit_step. rewrite Hr. fp_solve. }
  clear i_to0 i_pend0 i_num0 i_numpr0 i_word0 c_budget0 c_more0 c_g0 c_fi0 c_from0 c_par0 c_prev0 c_order0 Hm.
  unfold step1. destruct (s st) eqn:Es.
  all: try (apply step1_inQuote_safe || apply step1_inBackticks_safe
            || apply step1_inNumber_safe || apply step1_inNumberInWord_safe; done).
  all: try (apply skip_space_safe; [by rewrite Es | by rewrite Es | done]).
  4: by apply step1_inValues_safe.
  all: destruct HI' as [[] ?????]; wp_start; unfold after1; simpl; fp_done.
  all: rewrite ?Es in *; simpl in *; try done; unfold isSpace in *; chr_norm; lia.
Qed.

(** ** Block 2 *)

Definition after2 (cap g qi r : Z) (o : outcome) : Prop :=
  match o with Return _ => True | Next st => Mid cap g qi r st end.

Lemma step2_digit_safe cap g qi r st :
  isSpace r = false → Pre2 cap g qi r st → Mid cap g qi r (step2_digit R qi st).
Proof.
  intros Hr [[] ? ? Hp ? ?]. unfold step2_digit.
  destruct (s st) eqn:Es; fp_done; rewrite Es in *; done.
Qed.

Lemma word_length q from qi w :
  0 ≤ from ≤ qi → qi ≤ len q → Forall (fun b => b < 128) w →
  ToLower (sub q from qi) = w ∨ ToLower (ToLower (sub q from qi)) = w →
  len w ≤ qi - from.
Proof.
  intros ?? Hw Hl. rewrite <- (len_sub q from qi) by lia.
  destruct Hl as [<- | <-]; [by apply ToLower_length | by apply ToLower2_length].
Qed.

Lemma wordIn_elem w ws : wordIn w ws = true → ToLower w ∈ ws.
Proof.
  unfold wordIn. rewrite existsb_exists. intros (x & Hx & He).
  apply beq_eq in He. rewrite He. by apply list_elem_of_In.
Qed.

Lemma word_end_null_safe cap g (q : bytes) qi r st word :
  qi < len q → len q + g ≤ cap → isSpace r = true →
  4 ≤ qi - cpFromOffset st → (word = B "null" ∨ word = B "null," ∧ 5 ≤ qi - cpFromOffset st) →
  Pre2 cap g qi r st →
  wp (let* st := put (chr "?") st in
      let* c := go_index word (len word - 1) in
      let* st := (if c =? chr "," then put (chr ",") st else Ret st) in
      let* st := put_space st in
      Ret (set_cpFromOffset (qi + 1) st))
     (fun st => Mid cap g qi r (set_addSpace true (set_cpToOffset qi (set_s inSpace st)))).
Proof.
  intros Hq Hcap Hr Hl Hw [[] ? ? Hp ? _].
  wp_step. apply wp_put; [lia|]. intros f' Ef. wp_step.
  destruct Hw as [-> | [-> Hl5]].
  - replace (go_index (B "null") (len (B "null") - 1)) with (Ret 108) by done.
    wp_start; [discriminate|]. apply wp_put_space; [simpl; lia|]. intros f'' Ef'. fp_done.
  - replace (go_index (B "null,") (len (B "null,") - 1)) with (Ret 44) by done.
    wp_start; [|discriminate]. apply wp_put; [simpl; lia|]. intros f'' Ef'. wp_step.
    apply wp_put_space; [simpl; lia|]. intros f3 Ef3. fp_done.
Qed.

Lemma word_end_asc_safe cap g (q : bytes) qi r st (word : bytes) :
  qi < len q → len q + g ≤ cap → isSpace r = true → sqlState st = orderBy →
  2 ≤ qi - cpFromOffset st → 0 < len word →
  Pre2 cap g qi r st →
  wp (let st := set_cpFromOffset qi st in
      let* c := go_index word (len word - 1) in
      if c =? chr "," then
        let st := set_fi (fi st - 1) st in
        let* f1 := go_set (f st) (fi st) (chr ",") in
        let* f2 := go_set f1 (fi st + 1) 32 in
        Ret (set_fi (fi st + 2) (set_f f2 st))
      else Ret st)
     (fun st => Mid cap g qi r (set_addSpace true (set_cpToOffset qi (set_s inSpace st)))).
Proof.
  intros Hq Hcap Hr Ho Hl Hw [[] ? ? Hp ? _]. specialize (c_order0 Ho).
  cbn zeta. wp_step. apply wp_go_index; [lia|]. intros c. wp_step; [|fp_done].
  wp_step. apply wp_go_set; [simpl; lia|]. intros f1 E1.
  wp_step. apply wp_go_set; [simpl in *; lia|]. intros f2 E2. fp_done.
Qed.

Ltac ascii_lit := vm_compute; repeat constructor.

Lemma word_end_safe cap g q qi r st :
  qi < len q → len q + g ≤ cap → isSpace r = true → resting (s st) = false →
  Pre2 cap g qi r st → wp (word_end q qi st) (after2 cap g qi r).
Proof.
  intros Hq Hcap Hr Hs HP. pose proof HP as [[] ? ? Hp ? Hw]. unfold word_end.
  specialize (Hw Hr).
  apply wp_bind, wp_go_slice; [lia..|].
  pose proof (fun w => word_length q (cpFromOffset st) qi w c_from0 (Z.lt_le_incl _ _ Hq)) as Hlen.
  remember (ToLower (sub q (cpFromOffset st) qi)) as word eqn:Eword.
  apply wp_if; intros _; [done|].
  apply wp_bind. apply wp_if; intros H1; [|apply wp_if; intros H2; [|apply wp_if; intros H3;
   [|apply wp_if; intros H4]]].
  - eapply wp_mono; [eapply (word_end_null_safe cap g q qi r st word); eauto|simpl; auto].
    + assert (word = B "null" ∨ word = B "null,") as [E|E] by
        (rewrite orb_true_iff, andb_true_iff, !beq_eq in H1; tauto).
      * apply (Hlen (B "null")); [ascii_lit|by left].
      * transitivity (len (B "null,")); [done|]. apply Hlen; [ascii_lit|by left].
    + rewrite orb_true_iff, andb_true_iff, !beq_eq in H1. destruct H1 as [[H1 _]|H1]; [by left|right].
      split; [done|]. apply (Hlen (B "null,")); [ascii_lit|by left].
  - apply andb_true_iff in H2 as [H2 _]. apply beq_eq in H2.
    assert (1 ≤ fi st) by (apply c_prev0; by rewrite H2). fp_done.
  - apply andb_true_iff in H3 as [H3 H4].
    assert (sqlState st = orderBy) as Ho by (unfold st_is in H3; by destruct (sqlState st)).
    apply wordIn_elem in H4.
    eapply wp_mono; [eapply (word_end_asc_safe cap g q qi r st word); eauto|simpl; auto].
    + rewrite !elem_of_cons, elem_of_nil in H4.
      destruct H4 as [E|[E|[E|[]]]]; 
        (match type of E with _ = ?w => transitivity (len w); [done|] end;
         apply Hlen; [ascii_lit | right; exact E]).
    + destruct word; [|rewrite len_cons; pose proof (len_nonneg word); lia].
      rewrite !elem_of_cons, elem_of_nil in H4. destruct H4 as [E|[E|[E|[]]]]; discriminate E.
  - fp_done.
  - fp_done.
Qed.

Lemma step2_space_safe cap g q qi r st :
  qi < len q → len q + g ≤ cap → isSpace r = true →
  Pre2 cap g qi r st → wp (step2_space q qi st) (after2 cap g qi r).
Proof.
  intros Hq Hcap Hr HP. unfold step2_space. destruct (s st) eqn:Es.
  all: try (apply word_end_safe; [done..|by rewrite Es|done]).
  all: pose proof HP as [[] ? [Hn Hv] Hp Hm _]; try done; wp_start; simpl.
  - apply wp_go_index; [lia|]. intros c. wp_start; simpl; [|fp_done].
    apply wp_put_space; [lia|]. intros f' Ef. fp_done.
  - fp_done.
  - fp_done; rewrite ?Es in *; try done; lia.
  - apply wp_put_space; [lia|]. intros f' Ef. specialize (Hm Es Hr). fp_done.
    all: rewrite ?Es in *; done.
  - fp_done; rewrite ?Es in *; done.
Qed.

Lemma step2_paren_safe cap g q qi r st :
  qi < len q → len q + g ≤ cap → isSpace r = false →
  Pre2 cap g qi r st → wp (step2_paren q qi st) (after2 cap g qi r).
Proof.
  intros Hq Hcap Hr [[] ? ? Hp _ _]. unfold step2_paren.
  wp_start; try (apply wp_go_slice; [lia..|]); wp_start; simpl; try done; fp_done.
Qed.

Lemma step2_safe cap g q qi r st :
  qi < len q → len q + g ≤ cap →
  Pre2 cap g qi r st → wp (step2 R q qi r st) (after2 cap g qi r).
Proof.
  intros Hq Hcap HP. unfold step2.
  wp_step; [apply wp_ret, step2_digit_safe; [unfold isSpace; lia|done]|].
  wp_step; [by apply step2_space_safe|].
  pose proof HP as [[] ? ? Hp _ _].
  repeat (lazymatch goal with |- wp (if _ then _ else _) _ => idtac end;
          apply wp_if; intros _; [try (apply wp_ret; simpl; unfold step2_quote; fp_done; fail)|]).
  - by apply step2_paren_safe.
  - wp_step. by apply wp_go_slice; [lia..|].
  - apply wp_ret; simpl. unfold step2_default. fp_done.
Qed.

Lemma step_safe cap g q qi r st :
  qi < len q → len q + credit_step g r ≤ cap → Inv cap g qi st →
  wp (step R q qi r st)
     (fun o => match o with Return _ => True
               | Next st' => Inv cap (credit_step g r) (qi + 1) st' end).
Proof.
  intros Hq Hcap HI. unfold step. apply wp_bind.
  eapply wp_mono; [apply (step1_safe cap g); [lia|done]|]. intros [[] st1] H1; [done|].
  simpl in *. apply wp_bind.
  eapply wp_mono; [apply (step2_safe cap (credit_step g r)); [..|exact H1]; lia|]. intros [st2|out] H2; [|done].
  apply wp_bind. eapply wp_mono; [by apply (step3_safe cap (credit_step g r) q qi r)|done].
Qed.

(** The room needed by the runes [rs], starting from the credit [g]. *)
Definition credit (rs : list (Z * Z)) (g : Z) : Z :=
  foldl (fun g ir => credit_step g ir.2) g rs.

Lemma credit_mono rs g : 0 ≤ g → g ≤ credit rs g.
Proof.
  revert g. induction rs as [|[i r] rs IH]; intros g Hg; simpl; [lia|].
  pose proof (credit_step_mono g r Hg). specialize (IH (credit_step g r)). unfold credit in *. simpl in *. lia.
Qed.

Lemma run_safe cap q rs lo g st :
  offsets (len q) lo rs → len q + credit rs g ≤ cap → Inv cap g lo st →
  wp (run R q rs st)
     (fun o => match o with Return _ => True
               | Next st' => ∃ hi, hi ≤ len q ∧ Inv cap (credit rs g) hi st' end).
Proof.
  intros Ho. revert g st. induction Ho as [lo Hlo|lo qi r rs Hlo Hqi Ho IH]; intros g st Hcap HI.
  - simpl. eauto.
  - simpl in *. pose proof HI as [[] ?????].
    pose proof (credit_mono rs (credit_step g r)) as Hm.
    pose proof (credit_step_mono g r). unfold credit in *. simpl in *.
    apply wp_bind. eapply wp_mono;
      [apply (step_safe cap g q qi r); [done|lia|by eapply Inv_weaken]|].
    intros [st'|out] Hst; [|done]. by apply IH.
Qed.

Lemma fingerprint_cap_safe cap q :
  len q + credit (range q) 0 ≤ Z.of_nat cap → returns (fingerprint_cap R cap q).
Proof.
  intros Hcap. eapply (wp_returns _ (fun _ => True)). unfold fingerprint_cap.
  apply wp_bind. eapply wp_mono.
  - eapply (run_safe _ q _ _ 0); [apply offsets_range|exact Hcap|].
    split; [split|..]; unfold len; simpl; rewrite ?length_replicate; fp_solve.
  - intros [st|out]; [|done]. intros (hi & Hhi & [[] ?????]). unfold finish.
    apply wp_if; intros Hn; [|done]. wp_step. apply wp_go_slice; [lia..|done].
Qed.

Lemma credit_no_paren rs : (∀ ir, ir ∈ rs → ir.2 ≠ chr ")") → credit rs 0 = 0.
Proof.
  induction rs as [|[i r] rs IH]; intros Hn; [done|].
  unfold credit in *. simpl. unfold credit_step at 2.
  assert (r ≠ chr ")") by (apply (Hn (i, r)); left).
  replace (r =? chr ")") with false by lia. rewrite andb_false_r. apply IH.
  intros ir Hir. apply Hn. by right.
Qed.

(** A rune below 128 is a byte of the string. *)
Lemma range_go_byte q i k ir : ir ∈ range_go q i k → ir.2 < 128 → ir.2 ∈ q.
Proof.
  revert i k. induction q as [|c q IH]; intros i k; cbn [range_go].
  - intros Hin. by apply not_elem_of_nil in Hin.
  - destruct k as [|k]; [|intros Hin ?; right; by eapply IH].
    destruct (DecodeRune (c :: q)) as [r w] eqn:Ed. intros [-> | Hin]%elem_of_cons Hlt.
    + apply DecodeRune_byte in Ed; [|done]. simpl in *. subst. left.
    + right. by eapply IH.
Qed.

(** C1: Fingerprint returns on every query without a closing parenthesis: none of its accesses
    to the output slice or to the query is out of range. *)
Theorem Fingerprint_no_panic (q : bytes) :
  chr ")" ∉ q → returns (Fingerprint R q).
Proof.
  intros Hq. unfold Fingerprint. apply fingerprint_cap_safe.
  rewrite credit_no_paren; [unfold len; lia|].
  intros ir Hin He. apply Hq.
  assert (ir.2 ∈ q ++ [32]) as Hb by (eapply range_go_byte; [exact Hin|by rewrite He]).
  apply elem_of_app in Hb as [Hb|Hb]; [by rewrite <- He|].
  rewrite He in Hb. by apply list_elem_of_singleton in Hb.
Qed.

Lemma credit_le rs g : 0 ≤ g → credit rs g ≤ g + 4 * len rs.
Proof.
  revert g. induction rs as [|[i r] rs IH]; intros g Hg; [unfold credit, len; simpl; lia|].
  pose proof (credit_step_mono g r Hg). specialize (IH (credit_step g r)).
  rewrite len_cons. unfold credit in *. simpl in *.
  assert (credit_step g r ≤ g + 4) by (unfold credit_step; repeat case_match; lia). lia.
Qed.

(** an output slice five times as long as the query is enough for every query: with it
    the body of [Fingerprint] never panics, so the length of [f] is the only thing that can
    make [Fingerprint] panic. *)
Theorem fingerprint_cap_enough (q : bytes) : returns (fingerprint_cap R (5 * length q) q).
Proof.
  apply fingerprint_cap_safe. pose proof (credit_le (range q) 0).
  pose proof (length_range_go q 0 0). unfold range, len in *. lia.
Qed.

(** the slice [Fingerprint] does allocate is too short for a query with two IN lists of
    one digit: "in(1)" becomes the longer "in(?+)", and the second rewrite runs past the end
    of [f]. *)
Theorem Fingerprint_panics_on_two_in_lists :
  (Fingerprint false (B "select a from t where b in(1) and c in(2)"))
  = Panic SliceOutOfRange.
Proof. vm_compute. reflexivity. Qed.

End Safety.

Lemma Fingerprint_no_panic_witness :
  (chr ")" ∉ B "SELECT c FROM t WHERE a = 'x' ORDER BY b ASC, d")
  ∧ returns (Fingerprint (H := sample_tables) false
               (B "SELECT c FROM t WHERE a = 'x' ORDER BY b ASC, d")).
Proof.
  assert (chr ")" ∉ B "SELECT c FROM t WHERE a = 'x' ORDER BY b ASC, d") as Hn
    by (vm_compute; intros Hin; repeat (apply elem_of_cons in Hin as [?|Hin]; [discriminate|]);
        by apply not_elem_of_nil in Hin).
  split; [exact Hn|]. apply (Fingerprint_no_panic (H := sample_tables) false). exact Hn.
Defined.
