(* ===== verification/FingerprintProps.v ===== *)
(** * What a fingerprint looks like ([lib/fingerprint.go])

    The bytes of the output slice, the early returns, and the abstraction of literals. *)

From S2P Require Import Prelude GoStrings Fingerprint.

(** ** The output slice holds only lower-cased text and the normaliser's own punctuation *)

Section Output.

Context `{UnicodeTables} (R : bool).

(** Any predicate that holds of the bytes the normaliser writes by itself and of the bytes
    [ToLower] produces ... *)
Context (P : Z → Prop).
Hypothesis P_own : Forall P [0; 32; 63; 44; 40; 41; 43].
Hypothesis P_lower : ∀ w, Forall P (ToLower w).

(** ... holds of every byte of [f]. *)
Lemma wlp_go_set_Forall l i v : Forall P l → P v → wlp (go_set l i v) (Forall P).
Proof.
  intros Hl Hv. unfold go_set. case_match; [|done]. simpl. by apply Forall_insert.
Qed.

Lemma wlp_go_copy_Forall l a b src :
  Forall P l → Forall P src → wlp (go_copy l a b src) (Forall P).
Proof.
  intros Hl Hs. unfold go_copy. case_match; [|done]. simpl.
  rewrite !Forall_app. repeat split; by (apply Forall_take || apply Forall_drop).
Qed.

Definition clean (st : FP) : Prop := Forall P (f st).

Lemma put_clean c st : P c → clean st → wlp (put c st) clean.
Proof.
  intros Hc Hst. unfold put. wlp_start.
  eapply wlp_mono; [by apply wlp_go_set_Forall|]. intros f' Hf. wlp_start. exact Hf.
Qed.

Lemma own_byte c : c ∈ [0; 32; 63; 44; 40; 41; 43] → P c.
Proof. intros Hc. by eapply Forall_forall in P_own. Qed.

Lemma put_space_clean st : clean st → wlp (put_space st) clean.
Proof.
  intros Hst. unfold put_space. wlp_start; [|exact Hst].
  eapply wlp_mono; [apply wlp_go_set_Forall; [exact Hst|apply own_byte; set_solver]|].
  intros f' Hf. wlp_start. exact Hf.
Qed.

Lemma put_copy_clean n w st : Forall P w → clean st → wlp (put_copy n w st) clean.
Proof.
  intros Hw Hst. unfold put_copy. wlp_start.
  eapply wlp_mono; [by apply wlp_go_copy_Forall|]. intros f' Hf. wlp_start. exact Hf.
Qed.

Definition clean1 (cs : bool * FP) : Prop := clean cs.2.
Definition clean_outcome (q : bytes) (o : outcome) : Prop :=
  match o with
  | Next st => clean st
  | Return out => out = B "use ?" ∨ HasPrefix out (B "call ") = true
                  ∨ out = take (length q - 1) q
  end.

Ltac own := apply own_byte; set_solver.
Ltac after_put L := eapply wlp_mono; [L|intros st' Hst'; wlp_start; exact Hst'].

Lemma values_tail_clean qi r st : clean st → wlp (values_tail qi r st) clean1.
Proof.
  intros Hst. unfold values_tail. cbn zeta. wlp_start; try exact Hst.
  - after_put ltac:(apply put_copy_clean; [change (B "(?+)") with [40; 63; 43; 41]|exact Hst]).
    repeat constructor; own.
  - after_put ltac:(apply put_copy_clean; [change (B "()") with [40; 41]|exact Hst]).
    repeat constructor; own.
Qed.

Lemma step1_clean qi r st : clean st → wlp (step1 qi r st) clean1.
Proof.
  intros Hst. unfold step1.
  destruct (s st);
    unfold step1_inQuote, step1_inBackticks, step1_inNumberInWord, step1_inNumber,
      step1_inValues;
    cbn zeta; wlp_start; try exact Hst; try (apply values_tail_clean; try case_match; exact Hst);
    after_put ltac:(apply put_clean; [own|exact Hst]).
Qed.

Lemma word_end_clean q qi st : clean st → wlp (word_end q qi st) (clean_outcome q).
Proof.
  intros Hst. unfold word_end. wlp_step. destruct (go_slice _ _ _) as [raw|]; [|done].
  wlp_start; try exact Hst; [by left|..].
  - eapply wlp_mono; [apply put_clean; [own|exact Hst]|].
    intros st1 Hst1. wlp_step. destruct (go_index _ _) as [c|]; [|done]. simpl.
    wlp_step. apply (wlp_mono _ clean).
    + wlp_start; [|done]. apply put_clean; [own|done].
    + intros st2 Hst2. wlp_start. after_put ltac:(by apply put_space_clean).
  - destruct (go_index _ _) as [c|]; [|done]. wlp_start; [|exact Hst].
    eapply wlp_mono; [apply wlp_go_set_Forall; [exact Hst|own]|].
    intros f1 Hf1. wlp_start.
    eapply wlp_mono; [apply wlp_go_set_Forall; [exact Hf1|own]|].
    intros f2 Hf2. wlp_start. exact Hf2.
Qed.

Lemma step2_space_clean q qi st : clean st → wlp (step2_space q qi st) (clean_outcome q).
Proof.
  intros Hst. unfold step2_space.
  assert (wlp (word_end q qi st) (clean_outcome q)) as Hw by by apply word_end_clean.
  destruct (s st); try exact Hw; wlp_start; try exact Hst.
  - destruct (go_index _ _) as [c|]; [|done]. wlp_start; [|exact Hst].
    after_put ltac:(by apply put_space_clean).
  - simpl. by case_match.
  - after_put ltac:(by apply put_space_clean).
Qed.

Lemma step2_paren_clean q qi st : clean st → wlp (step2_paren q qi st) (clean_outcome q).
Proof.
  intros Hst. unfold step2_paren. wlp_step.
  - wlp_step. destruct (go_slice _ _ _) as [w|]; [|done]. right. left. reflexivity.
  - wlp_step. apply (wlp_mono _ (fun _ => True)).
    + wlp_start; try done. by destruct (go_slice _ _ _).
    + intros values _. wlp_start; simpl; by try case_match.
Qed.

Lemma step2_clean q qi r st : clean st → wlp (step2 R q qi r st) (clean_outcome q).
Proof.
  intros Hst. unfold step2.
  repeat (lazymatch goal with |- wlp (if _ then _ else _) _ => wlp_step end).
  2: by apply step2_space_clean.
  10: by apply step2_paren_clean.
  11: { wlp_step. unfold go_slice. case_match; [|done]. simpl. right. right.
        unfold sub. rewrite drop_0. f_equal. unfold len. lia. }
  all: wlp_step; simpl; try exact Hst;
    unfold step2_digit, step2_quote, step2_default; by repeat case_match.
Qed.

Lemma step3_clean q r st : clean st → wlp (step3 q r st) clean.
Proof.
  intros Hst. unfold step3. wlp_start; [|exact Hst].
  destruct (go_slice _ _ _) as [raw|]; [|done]. wlp_start. simpl.
  eapply wlp_mono; [apply put_copy_clean; [apply P_lower|exact Hst]|].
  intros st1 Hst1. wlp_start; [exact Hst1| |exact Hst1].
  eapply wlp_mono; [apply put_space_clean; exact Hst1|]. intros st2 Hst2. wlp_start. exact Hst2.
Qed.

Lemma run_clean q rs st : clean st → wlp (run R q rs st) (clean_outcome q).
Proof.
  revert st. induction rs as [|[qi r] rs IH]; intros st Hst; [exact Hst|].
  simpl. unfold step. repeat wlp_step.
  eapply wlp_mono; [by apply step1_clean|]. intros [[] st1] Hst1; [by apply IH|]. simpl.
  wlp_step. eapply wlp_mono; [apply step2_clean; exact Hst1|]. intros [st2|out] Hst2; [|exact Hst2].
  wlp_step. eapply wlp_mono; [apply step3_clean; exact Hst2|]. intros st3 H3. by apply IH.
Qed.

End Output.

(** ** ASCII upper case never survives *)

Section Lowercase.

Context `{UnicodeTables} (R : bool).

Definition upper (b : Z) : Prop := 65 ≤ b ≤ 90.

(** What the Unicode tables promise: no rune has an upper-case ASCII letter as its lower
    case. *)
Definition tables_lower_ok : Prop := ∀ r, 128 ≤ r → ¬ upper (unicode_lower r).

Lemma EncodeRune_not_upper r : ¬ upper r → Forall (fun b => ¬ upper b) (EncodeRune r).
Proof.
  unfold EncodeRune, upper. intros Hr.
  repeat bool_case; repeat constructor; try done; zdiv.
Qed.

Lemma ToLower_not_upper w : tables_lower_ok → Forall (fun b => ¬ upper b) (ToLower w).
Proof.
  intros Ht. unfold ToLower. rewrite Forall_bind. apply Forall_forall. intros [i r] _. simpl.
  apply EncodeRune_not_upper. unfold rune_lower, lower_ascii, upper.
  repeat bool_case; try lia. apply Ht. lia.
Qed.

(** The doc comment's "Lowercase everything": a fingerprint holds no upper-case ASCII
    letter and no NUL byte, except for the two early returns that copy the query verbatim, the
    procedure name of "CALL name(...)" and an "administrator command: ...". *)
Theorem Fingerprint_lowercase (q out : bytes) :
  tables_lower_ok →
  Fingerprint R q = Ret out →
  Forall (fun b => ¬ upper b ∧ b ≠ 0) out ∨ HasPrefix out (B "call ") = true ∨ out = q.
Proof.
  intros Ht. unfold Fingerprint, fingerprint_cap.
  assert (wlp (run R (q ++ [32]) (range (q ++ [32])) (init (length (q ++ [32]))))
              (clean_outcome (fun b => ¬ upper b) (q ++ [32]))) as Hrun.
  { apply run_clean.
    - repeat constructor; unfold upper; lia.
    - intros w. by apply ToLower_not_upper.
    - apply Forall_replicate. unfold upper. lia. }
  destruct (run _ _ _ _) as [[st|o]|]; [| |done]; simpl in *.
  - unfold finish. case_match; [|intros [= <-]; by left].
    unfold go_slice. case_match; [|done]. intros [= <-]. left.
    rewrite ReplaceAll_delete. apply Forall_forall. intros b Hb.
    apply list_elem_of_filter in Hb as [Hz Hb]. split; [|done].
    unfold sub in Hb. rewrite drop_0 in Hb.
    eapply (Forall_forall (fun b => ¬ upper b)); [|exact Hb]. by apply Forall_take.
  - intros [= <-]. destruct Hrun as [-> | [Hc | ->]]; [left|by right; left|right; right].
    + change (B "use ?") with [117; 115; 101; 32; 63]. unfold upper.
      repeat (apply Forall_cons; split; [lia|]). by apply Forall_nil.
    + rewrite length_app. simpl. replace (length q + 1 - 1)%nat with (length q) by lia.
      apply take_app_length.
Qed.

End Lowercase.

Lemma sample_tables_lower_ok : @tables_lower_ok sample_tables.
Proof. intros r Hr. unfold upper, unicode_lower; simpl. repeat bool_case; lia. Qed.

Lemma Fingerprint_lowercase_witness :
  @tables_lower_ok sample_tables ∧
  (Fingerprint (H := sample_tables) false (B "SELECT C FROM T WHERE A = 'X'")
   = Ret (B "select c from t where a = ?")) ∧
  (Forall (fun b => ¬ upper b ∧ b ≠ 0) (B "select c from t where a = ?")
   ∨ HasPrefix (B "select c from t where a = ?") (B "call ") = true
   ∨ B "select c from t where a = ?" = B "SELECT C FROM T WHERE A = 'X'").
Proof.
  split; [exact sample_tables_lower_ok|]. split; [vm_compute; reflexivity|].
  apply (Fingerprint_lowercase (H := sample_tables) false (B "SELECT C FROM T WHERE A = 'X'")
           (B "select c from t where a = ?")).
  - exact sample_tables_lower_ok.
  - vm_compute. reflexivity.
Defined.
