(* ===== verification/FingerprintLiteral.v ===== *)
(** * Literals do not matter ([lib/fingerprint.go])

    "Replace values with ?": two queries that differ only in the text of one quoted literal
    of the same length have the same fingerprint. The two runs are compared rune by rune:
    the only thing an iteration reads of the query besides the current rune are slices
    that start at [cpFromOffset], and these stay on one side of the literal. *)

From S2P Require Import Prelude GoStrings Fingerprint FingerprintSafety.

Section Agreement.

Context `{UnicodeTables} (R : bool).

(** Slices of the two queries that start at [lo] or later and end at [hi] or earlier are
    equal. *)
Definition slices_agree (q1 q2 : bytes) (lo hi : Z) : Prop :=
  ∀ x y, lo ≤ x → y ≤ hi → go_slice q1 x y = go_slice q2 x y.

Record Off (lo qi : Z) (st : FP) : Prop := {
  o_from : lo ≤ cpFromOffset st ≤ qi;
  o_to : cpToOffset st ≤ qi
}.

(** The stores into [f] leave the offsets alone. *)
Definition same_offsets (st st' : FP) : Prop :=
  cpFromOffset st' = cpFromOffset st ∧ cpToOffset st' = cpToOffset st.

Lemma put_offsets c st : wlp (put c st) (same_offsets st).
Proof. unfold put. by destruct (go_set _ _ _). Qed.
Lemma put_space_offsets st : wlp (put_space st) (same_offsets st).
Proof. unfold put_space. case_match; [by destruct (go_set _ _ _)|done]. Qed.
Lemma put_copy_offsets n w st : wlp (put_copy n w st) (same_offsets st).
Proof. unfold put_copy. by destruct (go_copy _ _ _ _). Qed.

Ltac off :=
  simpl in *; repeat case_match; try done; constructor; simpl in *; lia.
Ltac off_put :=
  eapply wlp_mono;
  [first [apply put_offsets | apply put_space_offsets | apply put_copy_offsets]|];
  intros ? [? ?]; wlp_start.

Definition off1 (lo qi : Z) (cs : bool * FP) : Prop :=
  if cs.1 then Off lo (qi + 1) cs.2 else Off lo qi cs.2.

Lemma step1_off lo qi r st : 0 ≤ lo ≤ qi → Off lo qi st → wlp (step1 qi r st) (off1 lo qi).
Proof.
  intros Hlo [??]. unfold step1, off1.
  destruct (s st);
    unfold step1_inQuote, step1_inBackticks, step1_inNumberInWord, step1_inNumber,
      step1_inValues, values_tail; cbn zeta; wlp_start; try off;
    try (off_put; off); (case_match; wlp_start; try off; off_put; off).
Qed.

Definition off2 (lo qi : Z) (o : outcome) : Prop :=
  match o with
  | Next st => lo ≤ cpFromOffset st ≤ qi + 1 ∧ cpToOffset st ≤ qi
  | Return _ => True
  end.

Ltac off' := simpl in *; repeat case_match; try done; simpl in *; lia.

Lemma word_end_off lo q qi st : 0 ≤ lo ≤ qi → Off lo qi st → wlp (word_end q qi st) (off2 lo qi).
Proof.
  intros Hlo [??]. unfold word_end. wlp_step. destruct (go_slice _ _ _) as [raw|]; [|done].
  wlp_start; try off'.
  - off_put. destruct (go_index _ _) as [c|]; [|done]. wlp_start; [off_put|];
      (off_put; off').
  - destruct (go_index _ _) as [c|]; [|done]. wlp_start; [|off'].
    destruct (go_set _ _ _) as [f1|]; [|done]. wlp_start.
    destruct (go_set _ _ _) as [f2|]; [|done]. off'.
Qed.

Lemma step2_off lo q qi r st : 0 ≤ lo ≤ qi → Off lo qi st → wlp (step2 R q qi r st) (off2 lo qi).
Proof.
  intros Hlo Ho. pose proof Ho as [??]. unfold step2.
  repeat (lazymatch goal with |- wlp (if _ then _ else _) _ => wlp_step end).
  2: { unfold step2_space. assert (wlp (word_end q qi st) (off2 lo qi)) as Hw
         by by apply word_end_off.
       destruct (s st); try exact Hw; wlp_start; try off'; try (off_put; off').
       destruct (go_index _ _) as [c|]; [|done]. wlp_start; [off_put|]; off'. }
  10: { unfold step2_paren. wlp_step; [wlp_step; by destruct (go_slice _ _ _)|].
        wlp_step. apply (wlp_mono _ (fun _ => True)).
        - wlp_start; try done. by destruct (go_slice _ _ _).
        - intros v _. wlp_start; off'. }
  11: { wlp_step. by destruct (go_slice _ _ _). }
  all: wlp_step; unfold step2_digit, step2_quote, step2_default; off'.
Qed.

Lemma step3_off lo q qi r st :
  0 ≤ lo ≤ qi → off2 lo qi (Next st) → wlp (step3 q r st) (Off lo (qi + 1)).
Proof.
  intros Hlo [??]. unfold step3. wlp_start; [|off].
  destruct (go_slice _ _ _) as [raw|]; [|done]. wlp_start. off_put; try off. off_put. off.
Qed.

Lemma step_off lo q qi r st :
  0 ≤ lo ≤ qi → Off lo qi st →
  wlp (step R q qi r st) (fun o => match o with Next st' => Off lo (qi + 1) st' | _ => True end).
Proof.
  intros Hlo Ho. unfold step. wlp_step. eapply wlp_mono; [by apply (step1_off lo)|].
  intros [[] st1] H1; [exact H1|]. simpl in H1. cbn [fst snd]. wlp_step.
  eapply wlp_mono; [by apply (step2_off lo)|]. intros [st2|out] H2; [|done].
  wlp_step. eapply wlp_mono; [by apply (step3_off lo)|]. intros st3 H3. exact H3.
Qed.

(** The two runs either make the same step, or both return their query verbatim. *)
Definition verbatim (q : bytes) (m : Go outcome) : Prop :=
  m = Ret (Return (take (length q - 1) q)).
Definition agree (q1 q2 : bytes) (m1 m2 : Go outcome) : Prop :=
  m1 = m2 ∨ verbatim q1 m1 ∧ verbatim q2 m2.

Lemma go_slice_verbatim (q : bytes) : q ≠ [] → go_slice q 0 (len q - 1) = Ret (take (length q - 1) q).
Proof.
  intros Hq. assert (1 ≤ len q) by (destruct q; [done|unfold len; simpl; lia]).
  unfold go_slice, sub, len in *. rewrite drop_0.
  replace (_ && _) with true by lia. do 2 f_equal. lia.
Qed.

Lemma step2_agree q1 q2 lo hi qi r st :
  q1 ≠ [] → q2 ≠ [] → slices_agree q1 q2 lo hi → qi ≤ hi → Off lo qi st →
  agree q1 q2 (step2 R q1 qi r st) (step2 R q2 qi r st).
Proof.
  intros Hn1 Hn2 Hs Hhi [??]. unfold step2, step2_space, word_end, step2_paren.
  rewrite (Hs (cpFromOffset st) qi) by lia.
  repeat (match goal with |- agree _ _ (if ?b then _ else _) (if ?b then _ else _) => destruct b end;
          try (by left)).
  right. rewrite !go_slice_verbatim by done. done.
Qed.

Lemma step3_agree q1 q2 lo hi qi r st :
  slices_agree q1 q2 lo hi → qi ≤ hi → off2 lo qi (Next st) →
  step3 q1 r st = step3 q2 r st.
Proof.
  intros Hs Hhi [??]. unfold step3. case_match; [|done].
  by rewrite (Hs (cpFromOffset st) (cpToOffset st)) by lia.
Qed.

Lemma step_agree q1 q2 lo hi qi r st :
  q1 ≠ [] → q2 ≠ [] → slices_agree q1 q2 lo hi → 0 ≤ lo ≤ qi → qi ≤ hi → Off lo qi st →
  agree q1 q2 (step R q1 qi r st) (step R q2 qi r st).
Proof.
  intros Hn1 Hn2 Hs Hlo Hhi Ho. unfold step.
  pose proof (step1_off lo qi r st Hlo Ho) as H1.
  destruct (step1 qi r st) as [[[] st1]|]; [by left| |by left]. simpl in *.
  pose proof (step2_off lo q1 qi r st1 Hlo H1) as H2.
  destruct (step2_agree q1 q2 lo hi qi r st1) as [E|[E1 E2]]; [done..| |].
  - rewrite <- E. destruct (step2 R q1 qi r st1) as [[st2|]|]; [|by left|by left].
    simpl in *. left. by rewrite (step3_agree q1 q2 lo hi qi r st2).
  - right. unfold verbatim in *. by rewrite E1, E2.
Qed.

Lemma run_agree q1 q2 lo hi rs qi st :
  q1 ≠ [] → q2 ≠ [] → slices_agree q1 q2 lo hi → 0 ≤ lo ≤ qi → offsets hi qi rs → Off lo qi st →
  agree q1 q2 (run R q1 rs st) (run R q2 rs st)
  ∧ wlp (run R q1 rs st)
      (fun o => match o with Next st' => Off lo hi st' | _ => True end).
Proof.
  intros Hn1 Hn2 Hs Hlo Hoff. revert st.
  induction Hoff as [qi ? |qi0 qi r rs ?? Hoff IH]; intros st Ho.
  - destruct Ho. split; [by left|]. simpl. split; lia.
  - assert (Off lo qi st) as Ho' by (destruct Ho; split; lia).
    simpl. pose proof (step_off lo q1 qi r st ltac:(lia) Ho') as Hst.
    destruct (step_agree q1 q2 lo hi qi r st) as [E|[E1 E2]]; try done; [lia..| |].
    + rewrite <- E. destruct (step R q1 qi r st) as [[st'|]|]; simpl; [|by split; [left|]..].
      apply IH; [lia|done].
    + unfold verbatim in *. rewrite E1, E2. split; [by right|done].
Qed.

Lemma take_snoc {A} (l : list A) x : take (length (l ++ [x]) - 1) (l ++ [x]) = l.
Proof.
  rewrite length_app. simpl. rewrite Nat.add_sub. apply take_app_length.
Qed.

(** ** Inside the literal *)

Definition in_literal (c : Z) (st : FP) : Prop :=
  s st = inQuote ∧ quoteChar st = c ∧ escape st = false.

Lemma run_in_literal q c rs rest st :
  in_literal c st → (∀ ir, ir ∈ rs → ir.2 ≠ c ∧ ir.2 ≠ 92) →
  run R q (rs ++ rest) st = run R q rest st.
Proof.
  intros (Es & Eq & Ee). induction rs as [|[qi r] rs IH]; intros Hr; [done|]. simpl.
  destruct (Hr (qi, r)) as [Hc Hb]; [left|]. simpl in *.
  assert (step R q qi r st = Ret (Next st)) as ->.
  { unfold step, step1. rewrite Es. unfold step1_inQuote.
    replace (r =? quoteChar st) with false by lia. rewrite Ee. simpl.
    chr_norm. by replace (r =? 92) with false by lia. }
  simpl. apply IH. intros ir Hir. apply Hr. by right.
Qed.

(** The closing quote moves [cpFromOffset] past the literal. *)
Lemma close_literal q c qi st :
  in_literal c st → cpToOffset st ≤ qi →
  wlp (step R q qi c st)
      (fun o => match o with Next st' => cpFromOffset st' = qi + 1 ∧ cpToOffset st' ≤ qi
                | Return _ => False end).
Proof.
  intros (Es & Eq & Ee) Hto. unfold step, step1. rewrite Es. unfold step1_inQuote.
  rewrite Eq, Z.eqb_refl, Ee. simpl. case_match; [done|].
  pose proof (put_offsets (chr "?") (set_cpFromOffset (qi + 1) (set_escape false st))) as Hp.
  destruct (put _ _) as [st'|]; [|done]. simpl in *. destruct Hp. simpl in *. lia.
Qed.

Lemma step_close_eq q1 q2 c qi st :
  in_literal c st → step R q1 qi c st = step R q2 qi c st.
Proof.
  intros (Es & Eq & Ee). unfold step, step1. rewrite Es. unfold step1_inQuote.
  rewrite Eq, Z.eqb_refl, Ee. simpl. case_match; [done|].
  by destruct (put _ _).
Qed.

(** After the prefix [p], read by the body with an output slice of length [cap], the parser
    is inside a literal opened by [c] (unless it panicked). *)
Definition opens_literal (cap : nat) (p : bytes) (c : Z) : Prop :=
  wlp (run R p (range p) (init cap))
      (fun o => match o with Next st => in_literal c st | Return _ => False end).

Lemma run_app q rs1 rs2 st :
  run R q (rs1 ++ rs2) st =
  let* o := run R q rs1 st in
  match o with Next st' => run R q rs2 st' | Return out => Ret (Return out) end.
Proof.
  revert st. induction rs1 as [|[qi r] rs1 IH]; intros st; [done|]. simpl.
  destruct (step R q qi r st) as [[st'|]|]; simpl; [apply IH|done|done].
Qed.

Lemma go_slice_app (q t : bytes) x y : y ≤ len q → go_slice (q ++ t) x y = go_slice q x y.
Proof.
  intros Hy. unfold go_slice, sub. rewrite len_app. pose proof (len_nonneg t).
  replace (y <=? len q + len t) with true by lia. replace (y <=? len q) with true by lia.
  destruct ((0 <=? x) && (x <=? y)) eqn:E; [|done]. simpl. f_equal.
  unfold len in *. rewrite drop_app_le by lia. rewrite take_app_le; [done|].
  rewrite length_drop. lia.
Qed.

Lemma go_slice_suffix (p1 p2 t : bytes) x y :
  length p1 = length p2 → len p1 ≤ x → go_slice (p1 ++ t) x y = go_slice (p2 ++ t) x y.
Proof.
  intros Hl Hx. unfold go_slice, sub. rewrite !len_app. unfold len in *. rewrite Hl.
  case_match; [|done]. do 2 f_equal. rewrite !drop_app_ge by lia. by rewrite Hl.
Qed.

Lemma runes_avoid v c : c < 128 → c ∉ v → 92 ∉ v →
  ∀ i ir, ir ∈ range_go v i 0 → ir.2 ≠ c ∧ ir.2 ≠ 92.
Proof.
  intros Hc Hv Hb i ir Hir.
  split; intros E; [apply Hv|apply Hb]; rewrite <- E; (eapply range_go_byte; [exact Hir|]); lia.
Qed.

(** The run on the whole query: the prefix, the closing quote, the rest. *)
Lemma run_literal q p c v t cap :
  0 ≤ c < 128 → c ∉ v → 92 ∉ v → q = (p ++ [c]) ++ v ++ c :: t →
  opens_literal cap (p ++ [c]) c →
  run R q (range q) (init cap) =
  let* o := run R (p ++ [c]) (range (p ++ [c])) (init cap) in
  match o with
  | Next st =>
      run R q ((len (p ++ [c]) + len v, c) :: range_go t (len (p ++ [c]) + len v + 1) 0) st
  | Return out => Ret (Return out)
  end.
Proof.
  intros Hc Hv Hb Eq Hopen. set (P := p ++ [c]) in *.
  assert (range q = range P ++ range_go v (len P) 0
            ++ (len P + len v, c) :: range_go t (len P + len v + 1) 0) as ->.
  { subst q P. unfold range. rewrite <- app_assoc. cbn [app].
    rewrite !(range_go_app_ascii p) by lia. rewrite <- app_assoc. f_equal.
    rewrite !Z.add_0_l, len_app. change (len [c]) with 1.
    rewrite (range_go_cons c []), (range_go_cons c (v ++ c :: t)).
    unfold DecodeRune. replace (c <? 128) with true by lia. cbn [drop app].
    rewrite !drop_0. change (Z.of_nat 1) with 1. cbn [range_go app]. f_equal.
    rewrite range_go_app_ascii by lia. f_equal.
    rewrite range_go_cons. unfold DecodeRune. replace (c <? 128) with true by lia.
    cbn [drop]. by rewrite drop_0. }
  rewrite run_app.
  assert (run R q (range P) (init cap) = run R P (range P) (init cap)) as ->.
  { assert (P ≠ []) by (subst P; by destruct p).
    destruct (run_agree q P 0 (len P) (range P) 0 (init cap)) as [[E|[_ E]] _]; try done.
    - subst q. by destruct P.
    - intros x y _ Hy. subst q. by apply go_slice_app.
    - apply offsets_range.
    - exfalso. unfold opens_literal, verbatim in *. by rewrite E in Hopen. }
  unfold opens_literal in Hopen. destruct (run R P _ _) as [[st|]|]; simpl in *; [|done|done].
  eapply run_in_literal; [exact Hopen|]. apply runes_avoid; [lia|done|done].
Qed.

Lemma prefix_off p cap :
  wlp (run R p (range p) (init cap))
      (fun o => match o with Next st => Off 0 (len p) st | Return _ => True end).
Proof.
  destruct p as [|b p]; [split; simpl; unfold len; simpl; lia|].
  apply (run_agree (b :: p) (b :: p) 0 (len (b :: p)) _ 0); try done.
  - apply offsets_range.
Qed.

Lemma literal_agree (P v1 v2 t : bytes) c st :
  length v1 = length v2 → 0 ≤ c → in_literal c st → Off 0 (len P) st →
  let q1 := P ++ v1 ++ c :: t in
  let q2 := P ++ v2 ++ c :: t in
  let rs := (len P + len v1, c) :: range_go t (len P + len v1 + 1) 0 in
  agree q1 q2 (run R q1 rs st) (run R q2 rs st).
Proof.
  intros Hl Hc Hst [??] q1 q2 rs. subst rs. cbn [run].
  pose proof (len_nonneg P). pose proof (len_nonneg v1).
  rewrite (step_close_eq q2 q1) by done.
  pose proof (close_literal q1 c (len P + len v1) st Hst ltac:(lia)) as Hcl.
  destruct (step R q1 _ c st) as [[st'|]|]; [|done|by left]. simpl in Hcl. cbn [gbind].
  apply (run_agree q1 q2 (len P + len v1 + 1) (len P + len v1 + 1 + len t) _
           (len P + len v1 + 1)); subst q1 q2.
  - by destruct P, v1.
  - by destruct P, v2.
  - intros x y Hx _.
    replace (P ++ v1 ++ c :: t) with ((P ++ v1 ++ [c]) ++ t) by (by rewrite <- !app_assoc).
    replace (P ++ v2 ++ c :: t) with ((P ++ v2 ++ [c]) ++ t) by (by rewrite <- !app_assoc).
    apply go_slice_suffix; [rewrite !length_app; lia|].
    rewrite !len_app. change (len [c]) with 1. lia.
  - lia.
  - apply offsets_range_go.
  - split; lia.
Qed.

(** C26: Two queries that differ only inside one quoted literal, by texts of the same length
    without the quote character or a backslash, have the same fingerprint or panic alike,
    unless both are returned verbatim as administrator commands. *)
Theorem Fingerprint_literal (p v1 v2 t : bytes) (c : Z) :
  0 ≤ c < 128 → length v1 = length v2 →
  c ∉ v1 → 92 ∉ v1 → c ∉ v2 → 92 ∉ v2 →
  opens_literal (length (p ++ c :: v1 ++ c :: t) + 1) (p ++ [c]) c →
  Fingerprint R (p ++ c :: v1 ++ c :: t) = Fingerprint R (p ++ c :: v2 ++ c :: t)
  ∨ (Fingerprint R (p ++ c :: v1 ++ c :: t) = Ret (p ++ c :: v1 ++ c :: t)
     ∧ Fingerprint R (p ++ c :: v2 ++ c :: t) = Ret (p ++ c :: v2 ++ c :: t)).
Proof.
  intros Hc Hl Hv1 Hb1 Hv2 Hb2 Hopen. unfold Fingerprint, fingerprint_cap.
  set (P := p ++ [c]) in *.
  assert (∀ v, (p ++ c :: v ++ c :: t) ++ [32] = P ++ v ++ c :: (t ++ [32])) as Eq.
  { intros v. subst P. rewrite <- !app_assoc. cbn [app]. by rewrite <- app_assoc. }
  rewrite !Eq.
  assert (length (P ++ v2 ++ c :: t ++ [32]) = length (P ++ v1 ++ c :: t ++ [32])) as ->
    by (rewrite !length_app; lia).
  replace (length (p ++ c :: v1 ++ c :: t) + 1)%nat
    with (length (P ++ v1 ++ c :: t ++ [32])) in Hopen
    by (rewrite <- Eq, length_app; done).
  set (cap := length (P ++ v1 ++ c :: t ++ [32])) in *.
  rewrite (run_literal (P ++ v1 ++ c :: t ++ [32]) p c v1 _ cap Hc Hv1 Hb1 eq_refl Hopen).
  rewrite (run_literal (P ++ v2 ++ c :: t ++ [32]) p c v2 _ cap Hc Hv2 Hb2 eq_refl Hopen). fold P.
  pose proof (prefix_off P cap) as Hoff. unfold opens_literal in Hopen.
  destruct (run R P (range P) (init cap)) as [[st|]|]; simpl in Hopen, Hoff; [|done|by left].
  cbn [gbind].
  destruct (literal_agree P v1 v2 (t ++ [32]) c st) as [E|[E1 E2]]; [done|lia|done|done| |].
  - left. replace (len v2) with (len v1) by (unfold len; lia). by rewrite E.
  - right. replace (len v2) with (len v1) by (unfold len; lia).
    unfold verbatim in *. rewrite E1, E2. cbn [gbind].
    by rewrite <- !Eq, !take_snoc.
Qed.
End Agreement.

Lemma Fingerprint_literal_witness :
  opens_literal (H := sample_tables) false
    (length (B "select c from t where a = " ++ 39 :: B "bob" ++ 39 :: B " limit 5") + 1)
    (B "select c from t where a = " ++ [39]) 39
  ∧ (Fingerprint (H := sample_tables) false
       (B "select c from t where a = " ++ 39 :: B "bob" ++ 39 :: B " limit 5")
     = Fingerprint (H := sample_tables) false
       (B "select c from t where a = " ++ 39 :: B "eve" ++ 39 :: B " limit 5")
     ∨ (Fingerprint (H := sample_tables) false
          (B "select c from t where a = " ++ 39 :: B "bob" ++ 39 :: B " limit 5")
        = Ret (B "select c from t where a = " ++ 39 :: B "bob" ++ 39 :: B " limit 5")
        ∧ Fingerprint (H := sample_tables) false
          (B "select c from t where a = " ++ 39 :: B "eve" ++ 39 :: B " limit 5")
        = Ret (B "select c from t where a = " ++ 39 :: B "eve" ++ 39 :: B " limit 5"))).
Proof.
  split; [vm_compute; auto|].
  apply (Fingerprint_literal (H := sample_tables) false).
  - lia.
  - reflexivity.
  - apply (bool_decide_unpack _); vm_compute; exact I.
  - apply (bool_decide_unpack _); vm_compute; exact I.
  - apply (bool_decide_unpack _); vm_compute; exact I.
  - apply (bool_decide_unpack _); vm_compute; exact I.
  - vm_compute. auto.
Defined.
