(* ===== verification/Digest.v ===== *)
(** * [lib/tool.go] and the query id of [lib/fingerprint.go]

    MD5 is a parameter; the hexadecimal rendering is the program's. *)

From S2P Require Import Prelude GoStrings.

(** [hex.EncodeToString] and [%x] *)
Definition hex_digit (n : Z) : Z := if n <? 10 then 48 + n else 87 + n.
Definition EncodeToString (s : bytes) : bytes :=
  s ≫= (fun b => [hex_digit (b / 16); hex_digit (b mod 16)]).

(** [crypto/md5] *)
Class Md5 := {
  md5 : bytes → bytes;
  md5_length : ∀ s, length (md5 s) = 16%nat;
  md5_bytes : ∀ s, bytes_ok (md5 s);
}.

Section Digest.
Context `{Md5}.

(** [func NewMd5(str string) string] *)
Definition NewMd5 (str : bytes) : bytes := EncodeToString (md5 str).

(** [func Id(fingerprint string) string]; [strings.ToUpper] of hexadecimal digits *)
Definition Id (fingerprint : bytes) : Go bytes :=
  let h := EncodeToString (md5 fingerprint) in
  let* r := go_slice h 16 32 in
  Ret (upper_ascii <$> r).

Lemma length_EncodeToString s : length (EncodeToString s) = (2 * length s)%nat.
Proof. unfold EncodeToString. induction s; csimpl; lia. Qed.

Definition is_hex (c : Z) : bool := is_digit c || ((97 <=? c) && (c <=? 102)).

Lemma EncodeToString_hex s : bytes_ok s → Forall (fun c => is_hex c = true) (EncodeToString s).
Proof.
  unfold EncodeToString. induction 1 as [|b s Hb Hs IH]; csimpl; [constructor|].
  unfold byte_ok in Hb. unfold is_hex, is_digit, hex_digit.
  constructor; [bool_case; zdiv|]. constructor; [bool_case; zdiv|done].
Qed.

(** A key is 32 hexadecimal digits. *)
Lemma NewMd5_hex s : Forall (fun c => is_hex c = true) (NewMd5 s) ∧ length (NewMd5 s) = 32%nat.
Proof.
  unfold NewMd5. split; [apply EncodeToString_hex, md5_bytes|].
  by rewrite length_EncodeToString, md5_length.
Qed.

(** A query id is 16 upper-case hexadecimal digits; the slice never panics. *)
Lemma Id_returns s :
  wp (Id s) (fun r => length r = 16%nat ∧
    Forall (fun c => (48 ≤ c ≤ 57) ∨ (65 ≤ c ≤ 70)) r).
Proof.
  unfold Id. wp_start. pose proof (NewMd5_hex s) as [Hh Hl]. unfold NewMd5 in *.
  apply wp_go_slice; [lia|unfold len; lia|]. apply wp_ret. unfold sub.
  split; [rewrite length_fmap, length_take, length_drop; lia|].
  apply Forall_fmap, Forall_take, Forall_drop. eapply Forall_impl; [exact Hh|].
  intros c Hc. unfold is_hex, is_digit in Hc. unfold compose, upper_ascii. bool_case; lia.
Qed.

End Digest.
