(* ===== verification/Records.v ===== *)
(** * [lib/json.go]: the records that flow through the pipeline, and their decoding

    A collected statement is a [SqlInfo]; a normalised statement with its samples and its
    score is an [ExplainsResult].  [encoding/json] is not part of the repository: its
    [Unmarshal] is a parameter of the decoders, which only clean the text first. *)

From S2P Require Import Prelude GoStrings.

Record traces := mk_traces {
  t_File : bytes; t_Line : Z; t_Function : bytes; t_Class : bytes; t_Type : bytes
}.

Record SqlInfo := mk_SqlInfo {
  Info : bytes; Trace : list traces; Route : bytes; Branch : bytes; Dsn : bytes
}.

Record Explains := mk_Explains {
  e_Id : Z; e_Select_type : bytes; e_Table : bytes; e_Type : bytes; e_Possible_keys : bytes;
  e_Key : bytes; e_Key_len : bytes; e_Ref : bytes; e_Rows : Z; e_Extra : bytes
}.

Record ExplainsResult := mk_ExplainsResult {
  r_Expl : bytes; r_Arr : list SqlInfo; r_Explain : list Explains;
  r_Last_query_cost : bytes; r_Level : bytes; r_Score : Z; r_Content : bytes;
  r_Branch : bytes; r_Db : bytes; r_Route : bytes
}.

(** [SqlInfo{}] and [ExplainsResult{}] *)
Definition zero_SqlInfo : SqlInfo := mk_SqlInfo [] [] [] [] [].
Definition zero_ExplainsResult : ExplainsResult :=
  mk_ExplainsResult [] [] [] [] [] 0 [] [] [] [].

#[export] Instance traces_eq_dec : EqDecision traces.
Proof. solve_decision. Defined.
#[export] Instance SqlInfo_eq_dec : EqDecision SqlInfo.
Proof. solve_decision. Defined.

Section Decode.

(** [json.Unmarshal] into a [SqlInfo] and into an [ExplainsResult]: the value left in the
    variable and whether an error was returned. *)
Context (Unmarshal_SqlInfo : bytes → SqlInfo * bool).
Context (Unmarshal_ExplainsResult : bytes → ExplainsResult * bool).

(** The cleaning both decoders start with: unless the text holds an embedded object, every
    caret and every backslash goes (the third [Replace] rewrites a quote to itself). *)
Definition clean_json (data : bytes) : bytes :=
  if Index data [34; 123] =? -1 then
    let data := ReplaceAll data (B "^") [] in
    let data := ReplaceAll data (B "\") [] in
    ReplaceAll data [34] [34]
  else data.

(** [func JsonDecode(data string) (SqlInfo, error)] *)
Definition JsonDecode (data : bytes) : SqlInfo * bool := Unmarshal_SqlInfo (clean_json data).

(** [func JsonSqlExpDecode(data string) (ExplainsResult, error)] *)
Definition JsonSqlExpDecode (data : bytes) : ExplainsResult * bool :=
  Unmarshal_ExplainsResult (clean_json data).

End Decode.

(** The third [Replace] of the cleaning does nothing. *)
Lemma ReplaceAll_same s d : ReplaceAll s [d] [d] = s.
Proof.
  rewrite ReplaceAll_byte. induction s as [|c s IH]; [done|]. csimpl. rewrite IH.
  destruct (Z.eqb_spec c d); by simplify_eq.
Qed.

Lemma clean_json_eq data :
  clean_json data =
  if Index data [34; 123] =? -1 then filter (fun b => b ≠ chr "\") (filter (fun b => b ≠ chr "^") data)
  else data.
Proof.
  unfold clean_json. case_match; [|done].
  change (B "^") with [chr "^"]. change (B "\") with [chr "\"].
  by rewrite ReplaceAll_same, !ReplaceAll_delete.
Qed.
