(* ===== verification/Scoring.v ===== *)
(** * [lib/explain.go]: the score of a statement

    [getScore] turns the rows of an EXPLAIN and the cost of the query into a level, a score
    and a text that lists the deductions.  The loops keep their [break]s; Go's map lookups
    keep their zero value for a missing key. *)

From S2P Require Import Prelude GoStrings Records.

(** A Go map literal: its entries. A lookup of a missing key gives the zero value. *)
Definition map_get {V} (zero : V) (m : list (bytes * V)) (k : bytes) : V :=
  match List.find (fun e => beq e.1 k) m with Some e => e.2 | None => zero end.

Definition ExplainType : list (bytes * bytes) :=
  [ (B "ALL", B "L1"); (B "index", B "L1"); (B "range", B "L2");
    (B "index_subquery", B "L2"); (B "unique_subquery", B "L2"); (B "index_merge", B "L2");
    (B "ref_or_null", B "L2"); (B "fulltext", B "L2"); (B "ref", B "L3");
    (B "eq_ref", B "L3"); (B "const", B "L4"); (B "system", B "L4") ].

Definition ExplainTypeScore : list (bytes * Z) :=
  [ (B "L1", 15); (B "L2", 10); (B "L3", 5); (B "L4", 0) ].

(** [ExplainTypeScore[ExplainType[t]]] *)
Definition type_score (t : bytes) : Z :=
  map_get 0 ExplainTypeScore (map_get [] ExplainType t).

(** The running content and deduction. *)
Definition ledger := (bytes * Z)%type.

(** [scoreType += p; sql.Content += text] *)
Definition deduct (p : Z) (text : bytes) (l : ledger) : ledger := (l.1 ++ text, l.2 + p).

(** [int(sqlTmp.Rows)]: a [uint64] reinterpreted as a signed 64-bit integer. *)
Definition rows_int (row : Explains) : Z := swrap 64 (e_Rows row).

(** The four brackets for the number of rows. *)
Definition deduct_rows (row : Explains) (l : ledger) : ledger :=
  let n := rows_int row in
  let text (p : bytes) := B "返回rows行数为：" ++ Itoa n ++ p in
  if (5000 <? n) && (n <? 10000) then deduct 5 (text (B ",扣分为-5,")) l
  else if (10000 <? n) && (n <? 100000) then deduct 10 (text (B ",扣分为-10,")) l
  else if (100000 <? n) && (n <? 1000000) then deduct 15 (text (B ",扣分为-15,")) l
  else if (1000000 <? n) && (n <? 10000000) then deduct 20 (text (B ",扣分为-20,")) l
  else l.

(** The deductions for a missing key, for the Extra column and for the rows, which the
    three branches of [getScore] share. *)
Definition deduct_common (row : Explains) (l : ledger) : ledger :=
  let l := if beq (e_Key row) [] then deduct 5 (B "使用索引key为Null,扣分为-5,") l else l in
  let l :=
    if Index (e_Extra row) (B "index") =? -1 then deduct 5 (B "未使用index索引,扣分为-5,") l
    else if Index (e_Extra row) (B "where") =? -1 then
      deduct 3 (B "未使用where过滤条件,扣分为-3,") l
    else l in
  deduct_rows row l.

(** A row whose type is empty. *)
Definition deduct_null_type (row : Explains) (l : ledger) : ledger :=
  if negb (Index (e_Extra row) (B "const table") =? -1) then
    deduct 1 (e_Table row ++ B "使用type为：Null,未找到const tables，扣分为-1,") l
  else deduct_common row (deduct 15 (e_Table row ++ B "使用type为：Null,扣分为-15,") l).

(** A row of type ALL. *)
Definition deduct_all_type (row : Explains) (l : ledger) : ledger :=
  deduct_common row (deduct 15 (e_Table row ++ B "使用type为：ALL,扣分为-15,") l).

(** The variables of the first loop. *)
Record loop1_state := mk_loop1 {
  l1_level : bytes; l1_ledger : ledger; scoreTypeTmp : Z; flag : Z
}.

(** The first loop: it ends at the first row of type "" or ALL. *)
Fixpoint loop1 (rows : list Explains) (st : loop1_state) : loop1_state :=
  match rows with
  | [] => st
  | row :: rows' =>
      if beq (e_Type row) [] then
        mk_loop1 (B "L1") (deduct_null_type row (l1_ledger st)) (scoreTypeTmp st) (flag st)
      else if beq (e_Type row) (B "ALL") then
        mk_loop1 (B "L1") (deduct_all_type row (l1_ledger st)) (scoreTypeTmp st) (flag st)
      else
        let sc := type_score (e_Type row) in
        let st :=
          if negb (scoreTypeTmp st =? 0) && (scoreTypeTmp st <? sc)
          then mk_loop1 (l1_level st) (l1_ledger st) sc (flag st) else st in
        let st :=
          if flag st =? 0 then mk_loop1 (l1_level st) (l1_ledger st) sc sc else st in
        loop1 rows' st
  end.

(** [ExplainTypeScoreTmp]: the inverse of [ExplainTypeScore]; [entries] is the map in the
    order [range] happens to visit it, and later entries overwrite earlier ones. *)
Definition invert_scores (entries : list (bytes * Z)) (v : Z) : bytes :=
  foldl (fun acc e => if e.2 =? v then e.1 else acc) [] entries.

Definition ExplainTypeScoreTmp : Z → bytes := invert_scores ExplainTypeScore.

(** The second loop: the first row whose type has the worst level. *)
Fixpoint loop2 (rows : list Explains) (tmp : Z) (l : ledger) : ledger :=
  match rows with
  | [] => l
  | row :: rows' =>
      if negb (beq (e_Type row) []) && negb (beq (e_Type row) (B "ALL"))
         && beq (map_get [] ExplainType (e_Type row)) (ExplainTypeScoreTmp tmp) then
        deduct_common row
          (l.1 ++ e_Table row ++ B "使用type为：" ++ e_Type row ++ B ",扣分为-" ++ Itoa tmp ++ B ",",
           l.2)
      else loop2 rows' tmp l
  end.

Section Score.

(** [int(num)] for [num, _ := strconv.ParseFloat(s, 32)]: floating point stays a
    parameter; the theorems hold whatever it returns. *)
Context (float_int : bytes → Z).

(** The brackets for [Last_query_cost]. *)
Definition deduct_cost (cost : bytes) (l : ledger) : ledger :=
  let num := float_int cost in
  let text (p : bytes) := B "查询Last_query_cost为：" ++ cost ++ p in
  if (500 <? num) && (num <? 1000) then deduct 5 (text (B ",扣分为-5,")) l
  else if (1000 <? num) && (num <? 10000) then deduct 10 (text (B ",扣分为-10,")) l
  else if (10000 <? num) && (num <? 50000) then deduct 15 (text (B ",扣分为-15,")) l
  else if (50000 <? num) && (num <? 100000) then deduct 20 (text (B ",扣分为-20,")) l
  else if (100000 <? num) && (num <? 150000) then deduct 25 (text (B ",扣分为-25,")) l
  else if (150000 <? num) && (num <? 200000) then deduct 30 (text (B ",扣分为-30,")) l
  else if (200000 <? num) && (num <? 500000) then deduct 35 (text (B ",扣分为-35,")) l
  else if (500000 <? num) && (num <? 1000000) then deduct 40 (text (B ",扣分为-40,")) l
  else if (1000000 <? num) && (num <? 10000000) then deduct 50 (text (B ",扣分为-50,")) l
  else l.

(** [func getScore(sql ExplainsResult, ...)]: the record it sends on [SqlExplain]. *)
Definition getScore (sql : ExplainsResult) : ExplainsResult :=
  let st := loop1 (r_Explain sql) (mk_loop1 (r_Level sql) (r_Content sql, 0) 0 0) in
  let tmp := scoreTypeTmp st in
  let level := if beq (l1_level st) [] then ExplainTypeScoreTmp tmp else l1_level st in
  let l := ((l1_ledger st).1, (l1_ledger st).2 + tmp) in
  let l := loop2 (r_Explain sql) tmp l in
  let l := deduct_cost (r_Last_query_cost sql) l in
  mk_ExplainsResult (r_Expl sql) (r_Arr sql) (r_Explain sql) (r_Last_query_cost sql)
    level (100 - l.2) l.1 (r_Branch sql) (r_Db sql) (r_Route sql).

End Score.
