(* ===== verification/ScoringProps.v ===== *)
(** * Properties of the score ([lib/explain.go])

    The worst access type, the level, the bounds of the score, and the agreement between the
    score and the text that explains it. *)

From S2P Require Import Prelude GoStrings Records Scoring.

(** ** The worst access type *)

(** The rows the first loop weighs: those before the first row of type "" or ALL. *)
Fixpoint weighed (rows : list Explains) : list Explains :=
  match rows with
  | [] => []
  | row :: rows' =>
      if beq (e_Type row) [] || beq (e_Type row) (B "ALL") then [] else row :: weighed rows'
  end.

Definition has_scan (rows : list Explains) : bool :=
  existsb (fun row => beq (e_Type row) [] || beq (e_Type row) (B "ALL")) rows.

(** The reference: the maximum of the type scores. *)
Definition worst (rows : list Explains) : Z :=
  foldr Z.max 0 ((fun row => type_score (e_Type row)) <$> weighed rows).

Lemma type_score_values t : type_score t ∈ [0; 5; 10; 15].
Proof.
  unfold type_score. unfold map_get at 2. unfold ExplainType. cbn [List.find fst].
  repeat (bool_case; [vm_compute; set_solver|]). vm_compute. set_solver.
Qed.

Lemma type_score_range t : 0 ≤ type_score t ≤ 15.
Proof.
  pose proof (type_score_values t) as Ht. rewrite !elem_of_cons, elem_of_nil in Ht. lia.
Qed.

Lemma loop1_tmp rows st :
  0 ≤ scoreTypeTmp st → (flag st = 0 ↔ scoreTypeTmp st = 0) →
  scoreTypeTmp (loop1 rows st) = Z.max (scoreTypeTmp st) (worst rows).
Proof.
  unfold worst. revert st. induction rows as [|row rows IH]; intros st Hn Hf; simpl; [lia|].
  destruct (beq (e_Type row) []); [simpl; lia|].
  destruct (beq (e_Type row) (B "ALL")); [simpl; lia|]. csimpl.
  pose proof (type_score_range (e_Type row)).
  destruct (Z.eqb_spec (scoreTypeTmp st) 0), (Z.ltb_spec (scoreTypeTmp st) (type_score (e_Type row)));
    simpl; destruct (Z.eqb_spec (flag st) 0); try lia; rewrite IH; simpl; lia.
Qed.

(** The first loop computes the maximum. *)
Lemma loop1_worst rows lvl l :
  scoreTypeTmp (loop1 rows (mk_loop1 lvl l 0 0)) = worst rows.
Proof.
  rewrite loop1_tmp by done. simpl.
  assert (0 ≤ worst rows); [|lia]. unfold worst. induction (weighed rows); csimpl; lia.
Qed.

Lemma loop1_level rows st :
  l1_level (loop1 rows st) = if has_scan rows then B "L1" else l1_level st.
Proof.
  revert st. induction rows as [|row rows IH]; intros st; simpl; [done|].
  destruct (beq (e_Type row) []); [done|]. destruct (beq (e_Type row) (B "ALL")); [done|].
  simpl. rewrite IH. repeat case_match; done.
Qed.

Lemma worst_values rows : worst rows ∈ [0; 5; 10; 15].
Proof.
  unfold worst. induction (weighed rows) as [|row rs IH]; csimpl; [set_solver|].
  destruct (Z.max_spec (type_score (e_Type row)) (foldr Z.max 0 ((λ row, type_score (e_Type row)) <$> rs)))
    as [[_ ->]|[_ ->]]; [done|apply type_score_values].
Qed.

(** The order in which [range] visits [ExplainTypeScore] does not matter. *)
Lemma invert_scores_order entries v :
  entries ≡ₚ ExplainTypeScore → invert_scores entries v = ExplainTypeScoreTmp v.
Proof.
  intros Hp. unfold ExplainTypeScoreTmp.
  assert (NoDup entries.*2) as Hnd.
  { rewrite Hp. vm_compute. apply (bool_decide_unpack _); by vm_compute. }
  assert (∀ (es : list (bytes * Z)) acc, NoDup es.*2 →
    foldl (fun acc e => if e.2 =? v then e.1 else acc) acc es =
    match List.find (fun e => e.2 =? v) es with Some e => e.1 | None => acc end) as Hfold.
  { induction es as [|e es IH]; intros acc Hes; [done|]. csimpl in *.
    apply NoDup_cons in Hes as [Hn Hes]. rewrite IH by done.
    destruct (Z.eqb_spec e.2 v) as [E|E]; [|done].
    destruct (List.find _ es) as [e'|] eqn:Ef; [|done]. exfalso. apply Hn.
    apply List.find_some in Ef as [Hin Ev]. apply Z.eqb_eq in Ev.
    apply list_elem_of_fmap. exists e'. split; [lia|]. by apply list_elem_of_In. }
  assert (NoDup ExplainTypeScore.*2) as Hnd' by (by rewrite <- Hp).
  unfold invert_scores. rewrite !Hfold by done.
  destruct (List.find (fun e => e.2 =? v) entries) as [e|] eqn:E1,
           (List.find (fun e => e.2 =? v) ExplainTypeScore) as [e'|] eqn:E2; try done.
  - apply List.find_some in E1 as [H1 V1]. apply List.find_some in E2 as [H2 V2].
    apply list_elem_of_In in H1, H2. rewrite Hp in H1.
    assert (e = e'); [|by subst].
    apply Z.eqb_eq in V1, V2. apply list_elem_of_lookup in H1 as [i Hi], H2 as [j Hj].
    assert (i = j); [|congruence].
    eapply NoDup_lookup; [exact Hnd'|by rewrite list_lookup_fmap, Hi|].
    rewrite list_lookup_fmap, Hj. simpl. congruence.
  - exfalso. apply List.find_some in E1 as [H1 V1].
    eapply List.find_none in E2; [|apply list_elem_of_In; rewrite <- Hp; by apply list_elem_of_In].
    simpl in *. congruence.
  - exfalso. apply List.find_some in E2 as [H1 V1].
    eapply List.find_none in E1; [|apply list_elem_of_In; rewrite Hp; by apply list_elem_of_In].
    simpl in *. congruence.
Qed.

(** C25: The level of a fresh record is L1 when a row has type ALL or none, and otherwise the
    level of the worst access type. *)
Theorem getScore_level float_int sql :
  r_Level sql = [] →
  r_Level (getScore float_int sql) =
  if has_scan (r_Explain sql) then B "L1"
  else if worst (r_Explain sql) =? 15 then B "L1"
  else if worst (r_Explain sql) =? 10 then B "L2"
  else if worst (r_Explain sql) =? 5 then B "L3" else B "L4".
Proof.
  intros Hl. unfold getScore. cbn [r_Level]. rewrite loop1_level, loop1_worst. cbn [l1_level].
  rewrite Hl. destruct (has_scan _); [done|].
  pose proof (worst_values (r_Explain sql)) as Hw.
  rewrite !elem_of_cons, elem_of_nil in Hw.
  by destruct Hw as [->|[->|[->|[->|[]]]]].
Qed.

(** ** The text accounts for the score *)

(** One deduction: the points and the text appended for it, which ends by naming them. *)
Definition entry := (Z * bytes)%type.
Definition explains (e : entry) : Prop :=
  0 ≤ e.1 ∧ ∃ pre, e.2 = pre ++ B "扣分为-" ++ Itoa e.1 ++ B ",".

Definition total (es : list entry) : Z := foldr Z.add 0 (fst <$> es).
Definition texts (es : list entry) : bytes := es ≫= snd.

(** [l'] is [l] with the deductions [es] applied. *)
Definition extends (l l' : ledger) (es : list entry) : Prop :=
  Forall explains es ∧ l'.1 = l.1 ++ texts es ∧ l'.2 = l.2 + total es.

Lemma total_app es es' : total (es ++ es') = total es + total es'.
Proof. unfold total. induction es; csimpl; lia. Qed.

Lemma extends_nil l : extends l l [].
Proof. split; [done|]. split; [by rewrite app_nil_r|unfold total; simpl; lia]. Qed.

Lemma extends_trans l1 l2 l3 es es' :
  extends l1 l2 es → extends l2 l3 es' → extends l1 l3 (es ++ es').
Proof.
  intros (H1 & E1 & T1) (H2 & E2 & T2). split; [by apply Forall_app|].
  split; [|rewrite total_app; lia]. unfold texts in *. rewrite bind_app, E2, E1.
  by rewrite <- app_assoc.
Qed.

Lemma extends_deduct p text l :
  explains (p, text) → extends l (deduct p text l) [(p, text)].
Proof.
  intros He. split; [by apply Forall_singleton|]. unfold texts, total. csimpl.
  split; [by rewrite app_nil_r|lia].
Qed.

(** A step of the ledger that deducts between 0 and [n] points and explains them. *)
Definition sound (n : Z) (l l' : ledger) : Prop := ∃ es, extends l l' es ∧ total es ≤ n.

Lemma sound_nil n l : 0 ≤ n → sound n l l.
Proof. intros. exists []. split; [apply extends_nil|done]. Qed.

Lemma sound_trans n m l1 l2 l3 : sound n l1 l2 → sound m l2 l3 → sound (n + m) l1 l3.
Proof.
  intros (es & H1 & T1) (es' & H2 & T2). exists (es ++ es').
  split; [by eapply extends_trans|rewrite total_app; lia].
Qed.

Lemma sound_deduct n p text l :
  p ≤ n → explains (p, text) → sound n l (deduct p text l).
Proof.
  intros Hp He. exists [(p, text)]. split; [by apply extends_deduct|].
  unfold total; simpl; lia.
Qed.

Lemma total_nonneg es : Forall explains es → 0 ≤ total es.
Proof.
  unfold total. induction 1 as [|e es [He _] _ IH]; csimpl; lia.
Qed.

(** A text of the source whose last literal ends in "扣分为-p,". *)
Lemma explains_suffix p (pre mid : bytes) text :
  0 ≤ p → text = mid ++ B "扣分为-" ++ Itoa p ++ B "," → explains (p, pre ++ text).
Proof. intros Hp ->. split; [done|]. exists (pre ++ mid). by rewrite <- app_assoc. Qed.

Lemma explains_suffix3 p (a b mid : bytes) text :
  0 ≤ p → text = mid ++ B "扣分为-" ++ Itoa p ++ B "," → explains (p, a ++ b ++ text).
Proof. intros. rewrite app_assoc. by eapply explains_suffix. Qed.

Lemma deduct_rows_sound row l : sound 20 l (deduct_rows row l).
Proof.
  unfold deduct_rows. cbn zeta.
  repeat (bool_case;
    [apply sound_deduct; [lia|];
     apply (explains_suffix3 _ (B "返回rows行数为：") _ (B ",")); [lia|by vm_compute]|]).
  by apply sound_nil.
Qed.

Lemma deduct_common_sound row l : sound 30 l (deduct_common row l).
Proof.
  unfold deduct_common. cbn zeta.
  eapply (sound_trans 10 20); [|apply deduct_rows_sound].
  apply (sound_trans 5 5 _ (if beq (e_Key row) [] then deduct 5 (B "使用索引key为Null,扣分为-5,") l else l)).
  - bool_case; [|by apply sound_nil]. apply sound_deduct; [lia|].
    apply (explains_suffix 5 [] (B "使用索引key为Null,")); [lia|by vm_compute].
  - repeat bool_case; try (by apply sound_nil); apply sound_deduct; try lia.
    + apply (explains_suffix 5 [] (B "未使用index索引,")); [lia|by vm_compute].
    + apply (explains_suffix 3 [] (B "未使用where过滤条件,")); [lia|by vm_compute].
    + apply (explains_suffix 5 [] (B "未使用index索引,")); [lia|by vm_compute].
    + apply (explains_suffix 3 [] (B "未使用where过滤条件,")); [lia|by vm_compute].
Qed.

Lemma deduct_null_type_sound row l : sound 45 l (deduct_null_type row l).
Proof.
  unfold deduct_null_type. bool_case.
  - apply sound_deduct; [lia|].
    apply (explains_suffix 1 _ (B "使用type为：Null,未找到const tables，")); [lia|by vm_compute].
  - eapply (sound_trans 15 30); [|apply deduct_common_sound]. apply sound_deduct; [lia|].
    apply (explains_suffix 15 _ (B "使用type为：Null,")); [lia|by vm_compute].
Qed.

Lemma deduct_all_type_sound row l : sound 45 l (deduct_all_type row l).
Proof.
  eapply (sound_trans 15 30); [|apply deduct_common_sound]. apply sound_deduct; [lia|].
  apply (explains_suffix 15 _ (B "使用type为：ALL,")); [lia|by vm_compute].
Qed.

Lemma loop1_sound rows st : sound 45 (l1_ledger st) (l1_ledger (loop1 rows st)).
Proof.
  revert st. induction rows as [|row rows IH]; intros st; cbn [loop1]; [by apply sound_nil|].
  bool_case; [apply deduct_null_type_sound|]. bool_case; [apply deduct_all_type_sound|].
  cbn zeta.
  match goal with |- sound _ _ (l1_ledger (loop1 _ ?s)) =>
    pose proof (IH s) as Hs; assert (l1_ledger s = l1_ledger st) as E by (by repeat bool_case) end.
  by rewrite E in Hs.
Qed.

Lemma deduct_cost_sound float_int cost l : sound 50 l (deduct_cost float_int cost l).
Proof.
  unfold deduct_cost. cbn zeta.
  repeat (bool_case;
    [apply sound_deduct; [lia|];
     apply (explains_suffix3 _ (B "查询Last_query_cost为：") _ (B ",")); [lia|by vm_compute]|]).
  by apply sound_nil.
Qed.

(** The row the second loop explains. *)
Lemma loop2_sound rows tmp l :
  0 ≤ tmp → tmp = 0 ∨ (∃ row, row ∈ rows ∧ e_Type row ≠ [] ∧ e_Type row ≠ B "ALL" ∧
    map_get [] ExplainType (e_Type row) = ExplainTypeScoreTmp tmp) →
  sound (tmp + 30) l (loop2 rows tmp (l.1, l.2 + tmp)).
Proof.
  intros Htmp. induction rows as [|row rows IH]; intros Hex; cbn [loop2].
  - destruct Hex as [->|(? & ?%elem_of_nil & _)]; [|done].
    rewrite Z.add_0_r. destruct l. by apply sound_nil.
  - destruct (negb _ && negb _ && beq _ _) eqn:Eb.
    + eapply sound_trans; [|apply deduct_common_sound].
      apply (sound_deduct tmp tmp
        (e_Table row ++ B "使用type为：" ++ e_Type row ++ B ",扣分为-" ++ Itoa tmp ++ B ",") l); [lia|].
      split; [done|]. cbn [fst snd].
      exists (e_Table row ++ B "使用type为：" ++ e_Type row ++ B ",").
      change (B ",扣分为-") with (B "," ++ B "扣分为-"). by rewrite <- !app_assoc.
    + apply IH. destruct Hex as [?|(r & [->|Hin]%elem_of_cons & Hn & Ha & Hm)]; [by left| |right; eauto].
      exfalso. apply not_true_iff_false in Eb. apply Eb.
      rewrite !andb_true_iff, !negb_true_iff, !beq_neq, beq_eq. done.
Qed.

Lemma weighed_spec rows row :
  row ∈ weighed rows → row ∈ rows ∧ e_Type row ≠ [] ∧ e_Type row ≠ B "ALL".
Proof.
  induction rows as [|r rows IH]; simpl; [by intros ?%elem_of_nil|].
  destruct (beq (e_Type r) []) eqn:E1; [by intros ?%elem_of_nil|].
  destruct (beq (e_Type r) (B "ALL")) eqn:E2; [by intros ?%elem_of_nil|].
  apply beq_neq in E1, E2. simpl.
  intros [->|H]%elem_of_cons; [by repeat split; [left|..]|].
  destruct (IH H) as (? & ? & ?). repeat split; [by right|done|done].
Qed.

Lemma worst_attained rows :
  worst rows = 0 ∨ ∃ row, row ∈ weighed rows ∧ type_score (e_Type row) = worst rows.
Proof.
  unfold worst. induction (weighed rows) as [|r rs IH]; csimpl; [by left|].
  destruct (Z.max_spec (type_score (e_Type r)) (foldr Z.max 0 ((λ row, type_score (e_Type row)) <$> rs)))
    as [[_ ->]|[_ ->]]; [|right; exists r; split; [by left|done]].
  destruct IH as [?|(row & ? & ?)]; [by left|right; exists row; split; [by right|done]].
Qed.

(** The inverse map recovers the level of a type with a non-zero score. *)
Lemma type_score_level t :
  type_score t ≠ 0 → map_get [] ExplainType t = ExplainTypeScoreTmp (type_score t).
Proof.
  unfold type_score.
  assert (map_get [] ExplainType t ∈ [[]; B "L1"; B "L2"; B "L3"; B "L4"]) as H.
  { unfold map_get, ExplainType. cbn [List.find fst].
    repeat (bool_case; [apply (bool_decide_unpack _); by vm_compute|]). by left. }
  revert H. generalize (map_get [] ExplainType t). intros lv Hlv.
  repeat (apply elem_of_cons in Hlv as [->|Hlv]; [by vm_compute|]). by apply elem_of_nil in Hlv.
Qed.

Lemma worst_nonneg rows : 0 ≤ worst rows ≤ 15.
Proof.
  pose proof (worst_values rows) as Hw. rewrite !elem_of_cons, elem_of_nil in Hw. lia.
Qed.

Lemma getScore_sound float_int sql :
  ∃ l', sound 140 (r_Content sql, 0) l' ∧
    r_Content (getScore float_int sql) = l'.1 ∧ r_Score (getScore float_int sql) = 100 - l'.2.
Proof.
  eexists. split; [|unfold getScore; cbn [r_Content r_Score]; done].
  pose proof (worst_nonneg (r_Explain sql)) as Hw. rewrite loop1_tmp by done. cbn [scoreTypeTmp].
  rewrite Z.max_r by lia. eapply (sound_trans 90 50); [|apply deduct_cost_sound].
  eapply (sound_trans 45 45); [apply (loop1_sound (r_Explain sql) (mk_loop1 (r_Level sql) (r_Content sql, 0) 0 0))|].
  destruct (loop2_sound (r_Explain sql) (worst (r_Explain sql))
    (l1_ledger (loop1 (r_Explain sql) (mk_loop1 (r_Level sql) (r_Content sql, 0) 0 0))))
    as (es & Hes & Ht); [lia| |exists es; split; [done|lia]].
  destruct (worst_attained (r_Explain sql)) as [?|(row & Hrow & Es)]; [by left|].
  destruct (decide (worst (r_Explain sql) = 0)); [by left|right].
  apply weighed_spec in Hrow as (? & ? & ?). exists row. repeat split; try done.
  rewrite <- Es. apply type_score_level. lia.
Qed.

(** C19: The text of a scored statement accounts for its score: what getScore appends is a
    list of deductions, each naming its points, and the score is 100 minus their sum. *)
Theorem getScore_ledger float_int sql :
  ∃ es : list entry,
    Forall explains es ∧
    r_Content (getScore float_int sql) = r_Content sql ++ texts es ∧
    r_Score (getScore float_int sql) = 100 - total es.
Proof.
  destruct (getScore_sound float_int sql) as (l' & (es & (He & E1 & E2) & _) & -> & ->).
  exists es. rewrite E1, E2. simpl. split; [done|split; [done|lia]].
Qed.

(** A score lies between -40 and 100. *)
Theorem getScore_bounds float_int sql : -40 ≤ r_Score (getScore float_int sql) ≤ 100.
Proof.
  destruct (getScore_sound float_int sql) as (l' & (es & (He & E1 & E2) & Ht) & _ & ->).
  apply total_nonneg in He. rewrite E2. simpl. lia.
Qed.

(** ** Concrete scores *)

Definition sample_row (type key extra : bytes) (rows : Z) : Explains :=
  mk_Explains 1 (B "SIMPLE") (B "t") type [] key [] [] rows extra.

Definition sample_result (rows : list Explains) : ExplainsResult :=
  mk_ExplainsResult (B "select ? from t") [] rows (B "5000000.0") [] 0 [] [] [] [].

Lemma getScore_level_witness :
  let sql := sample_result [sample_row (B "ref") (B "k") (B "Using index") 10] in
  r_Level sql = [] ∧ r_Level (getScore (fun _ => 0) sql) = B "L3".
Proof.
  cbn zeta. split; [reflexivity|].
  rewrite (getScore_level (fun _ => 0)
    (sample_result [sample_row (B "ref") (B "k") (B "Using index") 10]) eq_refl).
  vm_compute. reflexivity.
Defined.

(** The lower bound is reached: an index scan joined with a table scan is charged for both,
    and the two loops charge the key, the Extra column and the rows of each. *)
Example getScore_lowest :
  r_Score (getScore (fun _ => 5000000)
    (sample_result [sample_row (B "index") [] [] 5000000; sample_row (B "ALL") [] [] 5000000])) = -40.
Proof. by vm_compute. Qed.

(** ** The brackets *)

(** The row brackets deduct nothing exactly up to 5000 rows, at 10000, 100000 and 1000000
    rows, and from 10000000 rows on. *)
Lemma deduct_rows_gaps row l :
  deduct_rows row l = l ↔
  rows_int row ≤ 5000 ∨ rows_int row ∈ [10000; 100000; 1000000] ∨ 10000000 ≤ rows_int row.
Proof.
  unfold deduct_rows. cbn zeta. rewrite !elem_of_cons, elem_of_nil.
  repeat (bool_case;
    [split; [|lia]; unfold deduct; destruct l as [c n]; simpl; intros [= _ ?]; lia|]).
  split; [lia|done].
Qed.
