(* ===== verification/Config.v ===== *)
(** * [lib/config.go]: the configuration file

    The file is read line by line into a map; [getConf] reads the map into the fields of
    [AppConfig].  A field of the struct is kept as a name with a value, in the order of the
    declaration, because the program also walks the struct by reflection. *)

From S2P Require Import Prelude GoStrings.

(** ** The file *)

(** What [os.Open], [Stat] and the reader see of a file: its bytes, whether the reader fails
    with something else than [io.EOF] after them, whether [Stat] fails, and its modification
    time. *)
Record File := mk_File {
  f_content : bytes; f_read_error : bool; f_stat_error : bool; f_mtime : Z
}.
Definition FS := bytes → option File.

(** Callers registered for a reload; [AppconfigMgr] is the only [Notifyer] of the program. *)
Inductive Notifyer := AppconfigMgr_notifyer.

Record Config := mk_Config {
  filename : bytes; lastModifyTime : Z; data : gmap bytes bytes; notifyList : list Notifyer
}.

(** The errors [parse] returns: the one of [os.Open] and the one of the reader. *)
Inductive conf_error := OpenError | ReadError.

(** [reader.ReadString('\n')] until the end of the file: the complete lines, their delimiter
    included.  What follows the last delimiter comes with [io.EOF], and the loop drops it. *)
Fixpoint read_lines (s acc : bytes) : list bytes :=
  match s with
  | [] => []
  | c :: s' => if c =? 10 then reverse (c :: acc) :: read_lines s' [] else read_lines s' (c :: acc)
  end.

(** The body of the loop: the entry a line defines, if any. *)
Definition parse_line (line : bytes) : option (bytes * bytes) :=
  let line := TrimSpace line in
  match line with
  | [] => None
  | c :: _ =>
      if (c =? 10) || (c =? chr "+") || (c =? chr ";") then None
      else
        match SplitByte line (chr "=") with
        | [] => None
        | k :: rest =>
            let key := TrimSpace k in
            if beq key [] then None
            else match rest with
                 | [] => Some (key, [])
                 | v :: _ => Some (key, TrimSpace v)
                 end
        end
  end.

Definition store_line (m : gmap bytes bytes) (line : bytes) : gmap bytes bytes :=
  match parse_line line with Some (k, v) => <[k := v]> m | None => m end.

Definition parse_content (content : bytes) : gmap bytes bytes :=
  foldl store_line ∅ (read_lines content []).

(** [func (c *Config) parse() (m map[string]string, err error)] *)
Definition parse (fs : FS) (c : Config) : gmap bytes bytes * option conf_error :=
  match fs (filename c) with
  | None => (∅, Some OpenError)
  | Some f => (parse_content (f_content f), if f_read_error f then Some ReadError else None)
  end.

(** [func NewConfig(filename string) (conf *Config, err error)]; the reload it starts in the
    background is [reload] below. *)
Definition NewConfig (fs : FS) (name : bytes) : Config * option conf_error :=
  let conf := mk_Config name 0 ∅ [] in
  match parse fs conf with
  | (m, None) => (mk_Config name 0 m [], None)
  | (_, Some e) => (conf, Some e)
  end.

(** [func (c *Config) AddNotifyer(n Notifyer)] *)
Definition AddNotifyer (c : Config) (n : Notifyer) : Config :=
  mk_Config (filename c) (lastModifyTime c) (data c) (notifyList c ++ [n]).

(** ** Typed access *)

(** [func (c *Config) GetInt(key string) (value int, err error)]: a missing key is logged
    and gives 0 without an error. *)
Definition GetInt (c : Config) (key : bytes) : Z * option num_error :=
  match data c !! key with
  | None => (0, None)
  | Some str => Atoi str
  end.

(** [func (c *Config) GetIntDefault(key string, defval int) (value int)] *)
Definition GetIntDefault (c : Config) (key : bytes) (defval : Z) : Z :=
  match data c !! key with
  | None => defval
  | Some str => match Atoi str with (_, Some _) => defval | (value, None) => value end
  end.

(** [func (c *Config) GetString(key string) (value string, err error)]: the error is never
    set. *)
Definition GetString (c : Config) (key : bytes) : bytes :=
  match data c !! key with None => [] | Some v => v end.

(** ** [AppConfig] *)

Inductive kind := KString | KInt.
#[export] Instance kind_eq_dec : EqDecision kind.
Proof. solve_decision. Defined.

(** A field value. *)
Inductive fvalue := VString (s : bytes) | VInt (n : Z).

Definition zero_value (k : kind) : fvalue :=
  match k with KString => VString [] | KInt => VInt 0 end.

(** The fields of the struct before those of the four databases. *)
Definition fields_base : list (bytes * kind) :=
  [ (B "RedisHost", KString); (B "RedisPort", KInt); (B "RedisPw", KString); (B "RedisDb", KInt);
    (B "RedisMaxActive", KInt); (B "RedisMaxIdle", KInt); (B "RedisIdleTimeOut", KInt);
    (B "Redisquename", KString); (B "RedisSampling", KInt);
    (B "MysqlHost", KString); (B "MysqlDb", KString); (B "MysqlUser", KString);
    (B "MysqlPw", KString); (B "MysqlCharset", KString); (B "MysqlPort", KInt);
    (B "MysqlMaxOpenConns", KInt); (B "MysqlMaxIdleConns", KInt);
    (B "KafkaHost", KString); (B "KafkaPort", KInt); (B "KafkaTopic", KString);
    (B "KafkaChan", KInt); (B "KafkaThreadNum", KInt);
    (B "BranchActive", KInt); (B "TimerActive", KInt);
    (B "CurlUrl", KString); (B "CurlHost", KString); (B "ServerLog", KString);
    (B "ListenHost", KString); (B "ListenPort", KInt);
    (B "SoarTestDsnHost", KString); (B "SoarTestDsnPort", KInt); (B "SoarTestDsnDb", KString);
    (B "SoarTestDsnUser", KString); (B "SoarTestDsnPw", KString);
    (B "SoarOnlineDsnHost", KString); (B "SoarOnlineDsnPort", KInt);
    (B "SoarOnlineDsnDb", KString); (B "SoarOnlineDsnUser", KString);
    (B "SoarOnlineDsnPw", KString);
    (B "ExplainDBTimer", KInt); (B "ExplainDBNumber", KInt) ].

Definition fields_dbs : list (bytes * kind) :=
  [ (B "Comjia_MysqlHost", KString); (B "Comjia_MysqlDb", KString); (B "Comjia", KString);
    (B "Comjia_MysqlUser", KString); (B "Comjia_MysqlPw", KString);
    (B "Comjia_MysqlCharset", KString); (B "Comjia_MysqlPort", KInt);
    (B "Comjia_MysqlMaxOpenConns", KInt); (B "Comjia_MysqlMaxIdleConns", KInt);
    (B "Esf", KString); (B "Esf_MysqlHost", KString); (B "Esf_MysqlDb", KString);
    (B "Esf_MysqlUser", KString); (B "Esf_MysqlPw", KString); (B "Esf_MysqlCharset", KString);
    (B "Esf_MysqlPort", KInt); (B "Esf_MysqlMaxOpenConns", KInt); (B "Esf_MysqlMaxIdleConns", KInt);
    (B "Bbs", KString); (B "Bbs_MysqlHost", KString); (B "Bbs_MysqlDb", KString);
    (B "Bbs_MysqlUser", KString); (B "Bbs_MysqlPw", KString); (B "Bbs_MysqlCharset", KString);
    (B "Bbs_MysqlPort", KInt); (B "Bbs_MysqlMaxOpenConns", KInt); (B "Bbs_MysqlMaxIdleConns", KInt);
    (B "Dsp", KString); (B "Dsp_MysqlHost", KString); (B "Dsp_MysqlDb", KString);
    (B "Dsp_MysqlUser", KString); (B "Dsp_MysqlPw", KString); (B "Dsp_MysqlCharset", KString);
    (B "Dsp_MysqlPort", KInt); (B "Dsp_MysqlMaxOpenConns", KInt); (B "Dsp_MysqlMaxIdleConns", KInt) ].

(** [type AppConfig struct]: every field with its kind, in declaration order. *)
Definition AppConfig_fields : list (bytes * kind) := fields_base ++ fields_dbs.

Definition AppConfig := list (bytes * fvalue).

(** [&AppConfig{}] *)
Definition zero_AppConfig : AppConfig := (fun f => (f.1, zero_value f.2)) <$> AppConfig_fields.

(** [appConfig.name = v] *)
Definition set_field (name : bytes) (v : fvalue) (a : AppConfig) : AppConfig :=
  (fun f => if beq f.1 name then (f.1, v) else f) <$> a.

(** [appConfig.name] *)
Definition field (a : AppConfig) (name : bytes) : option fvalue :=
  snd <$> List.find (fun f => beq f.1 name) a.
Definition cfg_int (a : AppConfig) (name : bytes) : Z :=
  match field a name with Some (VInt n) => n | _ => 0 end.
Definition cfg_string (a : AppConfig) (name : bytes) : bytes :=
  match field a name with Some (VString s) => s | _ => [] end.

(** One block of [getConf]: read the key, log the error, assign the field whatever happened
    ([Atoi] still returns 0 for a syntax error and the nearest bound for a range error). *)
Definition read_value (c : Config) (key : bytes) (k : kind) : fvalue :=
  match k with
  | KInt => VInt (GetInt c key).1
  | KString => VString (GetString c key)
  end.
Definition read_field (c : Config) (a : AppConfig) (f : bytes * kind) : AppConfig :=
  set_field f.1 (read_value c f.1 f.2) a.

(** The blocks of [getConf], in the order of the source. *)
Definition reads_ints : list (bytes * kind) :=
  [ (B "RedisPort", KInt); (B "RedisDb", KInt); (B "RedisMaxActive", KInt);
    (B "RedisMaxIdle", KInt); (B "RedisIdleTimeOut", KInt); (B "RedisSampling", KInt);
    (B "MysqlPort", KInt); (B "MysqlMaxOpenConns", KInt); (B "MysqlMaxIdleConns", KInt);
    (B "KafkaPort", KInt); (B "KafkaChan", KInt); (B "KafkaThreadNum", KInt);
    (B "BranchActive", KInt); (B "TimerActive", KInt) ].

Definition reads_strings : list (bytes * kind) :=
  [ (B "RedisHost", KString); (B "RedisPw", KString); (B "Redisquename", KString);
    (B "MysqlHost", KString); (B "MysqlDb", KString); (B "MysqlUser", KString);
    (B "MysqlPw", KString); (B "MysqlCharset", KString); (B "KafkaHost", KString);
    (B "KafkaTopic", KString); (B "CurlUrl", KString); (B "CurlHost", KString);
    (B "ServerLog", KString); (B "ListenHost", KString); (B "ListenPort", KInt) ].

Definition reads_soar : list (bytes * kind) :=
  [ (B "SoarTestDsnHost", KString); (B "SoarTestDsnPort", KInt); (B "SoarOnlineDsnPort", KInt);
    (B "SoarTestDsnDb", KString); (B "SoarTestDsnUser", KString); (B "SoarTestDsnPw", KString);
    (B "SoarOnlineDsnDb", KString); (B "SoarOnlineDsnHost", KString);
    (B "SoarOnlineDsnUser", KString); (B "SoarOnlineDsnPw", KString);
    (B "ExplainDBTimer", KInt); (B "ExplainDBNumber", KInt) ].

Definition reads_comjia_esf : list (bytes * kind) :=
  [ (B "Comjia", KString); (B "Comjia_MysqlHost", KString); (B "Comjia_MysqlDb", KString);
    (B "Comjia_MysqlUser", KString); (B "Comjia_MysqlPw", KString);
    (B "Comjia_MysqlCharset", KString); (B "Comjia_MysqlPort", KInt);
    (B "Comjia_MysqlMaxOpenConns", KInt); (B "Comjia_MysqlMaxIdleConns", KInt);
    (B "Esf", KString); (B "Esf_MysqlHost", KString); (B "Esf_MysqlDb", KString);
    (B "Esf_MysqlUser", KString); (B "Esf_MysqlPw", KString); (B "Esf_MysqlCharset", KString);
    (B "Esf_MysqlPort", KInt); (B "Esf_MysqlMaxOpenConns", KInt); (B "Esf_MysqlMaxIdleConns", KInt) ].

Definition reads_bbs_dsp : list (bytes * kind) :=
  [ (B "Bbs", KString); (B "Bbs_MysqlHost", KString); (B "Bbs_MysqlDb", KString);
    (B "Bbs_MysqlUser", KString); (B "Bbs_MysqlPw", KString); (B "Bbs_MysqlCharset", KString);
    (B "Bbs_MysqlPort", KInt); (B "Bbs_MysqlMaxOpenConns", KInt); (B "Bbs_MysqlMaxIdleConns", KInt);
    (B "Dsp", KString); (B "Dsp_MysqlHost", KString); (B "Dsp_MysqlDb", KString);
    (B "Dsp_MysqlUser", KString); (B "Dsp_MysqlPw", KString); (B "Dsp_MysqlCharset", KString);
    (B "Dsp_MysqlPort", KInt); (B "Dsp_MysqlMaxOpenConns", KInt); (B "Dsp_MysqlMaxIdleConns", KInt) ].

Definition getConf_reads : list (bytes * kind) :=
  reads_ints ++ reads_strings ++ reads_soar ++ reads_comjia_esf ++ reads_bbs_dsp.

(** [func getConf(conf *Config) *AppConfig] *)
Definition getConf (c : Config) : AppConfig := foldl (read_field c) zero_AppConfig getConf_reads.

(** [func (a *AppconfigMgr) Callback(conf *Config)]: what the manager then holds. *)
Definition Callback (c : Config) : option AppConfig := Some (getConf c).

(** [func (c *Config) reload()]: the configuration afterwards and what the manager holds. *)
Definition reload (fs : FS) (c : Config) (mgr : option AppConfig) : Config * option AppConfig :=
  match fs (filename c) with
  | None => (c, mgr)
  | Some f =>
      if f_stat_error f then (c, mgr)
      else if lastModifyTime c <? f_mtime f then
        match parse fs c with
        | (_, Some _) => (c, mgr)
        | (m, None) =>
            let c' := mk_Config (filename c) (lastModifyTime c) m (notifyList c) in
            (mk_Config (filename c) (f_mtime f) m (notifyList c),
             foldl (fun _ n => match n with AppconfigMgr_notifyer => Callback c' end)
               mgr (notifyList c))
        end
      else (c, mgr)
  end.

(** [func NewConf(env string) *AppConfig], where [dir] is the directory of the executable; an
    error is logged and the empty configuration is read. *)
Definition NewConf (fs : FS) (dir env : bytes) : AppConfig :=
  getConf (NewConfig fs (dir ++ B "/env/" ++ env ++ B ".conf")).1.
