(* ===== verification/ConfigProps.v ===== *)
(** * Properties of the configuration ([lib/config.go])

    Printing a configuration and loading it gives back every value; every field of the struct
    is read from the key of its own name; what the line reader silently drops. *)

From S2P Require Import Prelude GoStrings Config.

(** ** Lines *)

(** An entry as it is written in the file. *)
Definition print_entry (kv : bytes * bytes) : bytes := kv.1 ++ chr "=" :: kv.2 ++ [10].
Definition print_conf (kvs : list (bytes * bytes)) : bytes := kvs ≫= print_entry.

(** Entries the format can hold. *)
Definition entry_ok (kv : bytes * bytes) : Prop :=
  trimmed kv.1 ∧ trimmed kv.2 ∧ kv.1 ≠ [] ∧
  head kv.1 ≠ Some (chr "+") ∧ head kv.1 ≠ Some (chr ";") ∧ head kv.1 ≠ Some 10 ∧
  (chr "=" ∉ kv.1) ∧ (chr "=" ∉ kv.2) ∧ (10 ∉ kv.1) ∧ (10 ∉ kv.2).
#[export] Instance entry_ok_dec kv : Decision (entry_ok kv).
Proof. unfold entry_ok. apply _. Defined.

Lemma read_lines_line l s acc :
  10 ∉ l → read_lines (l ++ 10 :: s) acc = (reverse acc ++ l ++ [10]) :: read_lines s [].
Proof.
  revert acc. induction l as [|c l IH]; intros acc Hl; cbn [app read_lines].
  - by rewrite Z.eqb_refl, reverse_cons.
  - apply not_elem_of_cons in Hl as [Hc Hl]. replace (c =? 10) with false by lia.
    rewrite IH, reverse_cons by done. by rewrite <- !app_assoc.
Qed.

Lemma read_lines_tail l acc : 10 ∉ l → read_lines l acc = [].
Proof.
  revert acc. induction l as [|c l IH]; intros acc Hl; [done|]. cbn [read_lines].
  apply not_elem_of_cons in Hl as [Hc Hl]. replace (c =? 10) with false by lia. auto.
Qed.

Lemma read_lines_app s l acc :
  10 ∉ l → read_lines (s ++ l) acc = read_lines s acc.
Proof.
  intros Hl. revert acc. induction s as [|c s IH]; intros acc; cbn [app read_lines].
  - by apply read_lines_tail.
  - by rewrite !IH.
Qed.

(** The entry of a printed line; the value stops at a second [=]. *)
Lemma parse_line_eq k v :
  trimmed k → k ≠ [] → head k ≠ Some (chr "+") → head k ≠ Some (chr ";") → head k ≠ Some 10 →
  chr "=" ∉ k → trimmed v →
  parse_line (k ++ chr "=" :: v ++ [10]) =
  Some (k, match SplitByte v (chr "=") with w :: _ => TrimSpace w | [] => [] end).
Proof.
  intros Hk Hn Hp Hs Hl He Hv. unfold parse_line.
  replace (k ++ chr "=" :: v ++ [10]) with ((k ++ chr "=" :: v) ++ [10]) by (by rewrite <- app_assoc).
  rewrite TrimSpace_newline by (by apply trimmed_app).
  rewrite SplitByte_cons by done. rewrite Hk.
  destruct k as [|c k]; [done|]. cbn [app head] in *.
  replace (c =? 10) with false by (symmetry; apply Z.eqb_neq; congruence).
  replace (c =? chr "+") with false by (symmetry; apply Z.eqb_neq; congruence).
  replace (c =? chr ";") with false by (symmetry; apply Z.eqb_neq; congruence).
  cbn [orb beq]. destruct (SplitByte v (chr "=")) as [|w ws] eqn:E; [|done].
  exfalso. clear -E. destruct v as [|d v]; [done|]. cbn [SplitByte] in E.
  destruct (d =? chr "="); [done|]. by destruct (SplitByte v (chr "=")).
Qed.

Lemma parse_line_entry kv : entry_ok kv → parse_line (print_entry kv) = Some kv.
Proof.
  destruct kv as [k v]. intros (Hk & Hv & Hn & Hp & Hs & Hl & He & Hve & _). cbn [fst snd] in *.
  unfold print_entry. cbn [fst snd]. rewrite parse_line_eq by done.
  rewrite SplitByte_single by done. by rewrite Hv.
Qed.

Lemma parse_content_print kvs :
  Forall entry_ok kvs →
  parse_content (print_conf kvs) = foldl (fun m kv => <[kv.1 := kv.2]> m) ∅ kvs.
Proof.
  unfold parse_content. generalize (∅ : gmap bytes bytes). intros m Hok. revert m.
  induction Hok as [|kv kvs Hkv Hok IH]; intros m; [done|].
  change (print_conf (kv :: kvs)) with (print_entry kv ++ print_conf kvs).
  pose proof (parse_line_entry kv Hkv) as Hp. destruct kv as [k v].
  destruct Hkv as (_ & _ & _ & _ & _ & _ & _ & _ & Hk & Hv). cbn [fst snd] in *.
  unfold print_entry in *. cbn [fst snd] in *.
  replace ((k ++ chr "=" :: v ++ [10]) ++ print_conf kvs)
    with ((k ++ chr "=" :: v) ++ 10 :: print_conf kvs)
    by (rewrite <- !app_assoc; cbn [app]; by rewrite <- app_assoc).
  rewrite read_lines_line by (rewrite elem_of_app, elem_of_cons; intros [?|[?|?]]; done).
  cbn [foldl fst snd]. rewrite <- IH. f_equal. unfold store_line.
  cbn [reverse app rev_append]. rewrite <- app_assoc. cbn [app]. by rewrite Hp.
Qed.

Lemma foldl_insert_lookup (kvs : list (bytes * bytes)) (m : gmap bytes bytes) k v :
  NoDup kvs.*1 → (k, v) ∈ kvs →
  foldl (fun m kv => <[kv.1 := kv.2]> m) m kvs !! k = Some v.
Proof.
  revert m. induction kvs as [|kv kvs IH]; intros m Hnd Hin; [by apply elem_of_nil in Hin|].
  csimpl in *. apply NoDup_cons in Hnd as [Hn Hnd].
  apply elem_of_cons in Hin as [<-|Hin]; [|by apply IH].
  cbn [fst snd] in *. clear IH. revert m.
  assert (∀ m : gmap bytes bytes, m !! k = Some v →
    foldl (fun m kv => <[kv.1 := kv.2]> m) m kvs !! k = Some v) as H.
  { induction kvs as [|kv kvs IH]; intros m Hm; [done|]. csimpl in *.
    apply not_elem_of_cons in Hn as [Hk Hn]. apply NoDup_cons in Hnd as [_ Hnd].
    apply IH; [done|done|]. by rewrite lookup_insert_ne. }
  intros m. apply H. by rewrite lookup_insert_eq.
Qed.

(** ** [getConf] *)

Lemma read_fields_eq c reads (a : AppConfig) :
  foldl (read_field c) a reads =
  (fun f => (f.1, foldl (fun v r => if beq f.1 r.1 then read_value c r.1 r.2 else v) f.2 reads)) <$> a.
Proof.
  revert a. induction reads as [|r reads IH]; intros a; cbn [foldl].
  - rewrite <- (list_fmap_id a) at 1. apply list_fmap_ext. by intros ? [].
  - rewrite IH. unfold read_field, set_field. rewrite <- list_fmap_compose.
    apply list_fmap_ext. intros i [n v] _. unfold compose. cbn [fst snd].
    by destruct (beq n r.1) eqn:E.
Qed.

Lemma fold_read c (reads : list (bytes * kind)) n k v :
  NoDup reads.*1 → (n, k) ∈ reads →
  foldl (fun v r => if beq n r.1 then read_value c r.1 r.2 else v) v reads = read_value c n k.
Proof.
  revert v. induction reads as [|r reads IH]; intros v Hnd Hin; [by apply elem_of_nil in Hin|].
  csimpl in *. apply NoDup_cons in Hnd as [Hn Hnd].
  apply elem_of_cons in Hin as [<-|Hin]; [|by apply IH].
  cbn [fst snd] in *. rewrite beq_refl. clear IH.
  induction reads as [|r reads IH]; [done|]. csimpl in *.
  apply not_elem_of_cons in Hn as [Hk Hn]. apply NoDup_cons in Hnd as [_ Hnd].
  destruct (beq n r.1) eqn:E; [by apply beq_eq in E|]. auto.
Qed.

Lemma reads_NoDup : NoDup getConf_reads.*1.
Proof. apply (bool_decide_unpack _). by vm_compute. Qed.

Lemma fields_NoDup : NoDup AppConfig_fields.*1.
Proof. apply (bool_decide_unpack _). by vm_compute. Qed.

Lemma fields_read : Forall (.∈ getConf_reads) AppConfig_fields.
Proof. apply (bool_decide_unpack _). by vm_compute. Qed.

Lemma getConf_eq c :
  getConf c = (fun f => (f.1, read_value c f.1 f.2)) <$> AppConfig_fields.
Proof.
  unfold getConf. rewrite read_fields_eq. unfold zero_AppConfig. rewrite <- list_fmap_compose.
  apply list_fmap_ext. intros i [n k] Hi. unfold compose. cbn [fst snd]. f_equal.
  apply fold_read; [apply reads_NoDup|].
  pose proof fields_read as Hf. rewrite Forall_forall in Hf.
  by apply Hf, list_elem_of_lookup; eauto.
Qed.

Lemma field_getConf c n k : (n, k) ∈ AppConfig_fields → field (getConf c) n = Some (read_value c n k).
Proof.
  intros Hin. rewrite getConf_eq. pose proof fields_NoDup as Hnd. unfold field.
  induction AppConfig_fields as [|f fs IH]; [by apply elem_of_nil in Hin|].
  csimpl in *. apply NoDup_cons in Hnd as [Hn Hnd].
  apply elem_of_cons in Hin as [<-|Hin]; cbn [fst snd]; [by rewrite beq_refl|].
  destruct (beq f.1 n) eqn:E; [|by apply IH]. exfalso. apply beq_eq in E. apply Hn.
  rewrite E. by apply (list_elem_of_fmap_2 fst _ (n, k)).
Qed.

(** getConf assigns every field of AppConfig, in declaration order, from the key of its
    own name and by its own type. *)
Lemma getConf_complete c :
  getConf c = (fun f => (f.1, read_value c f.1 f.2)) <$> AppConfig_fields.
Proof. apply getConf_eq. Qed.

(** ** Loading a printed configuration *)

(** A file system with one readable file. *)
Definition one_file (path content : bytes) : FS :=
  fun p => if beq p path then Some (mk_File content false false 1) else None.

Lemma NewConf_one_file dir env content :
  NewConf (one_file (dir ++ B "/env/" ++ env ++ B ".conf") content) dir env =
  getConf (mk_Config (dir ++ B "/env/" ++ env ++ B ".conf") 0 (parse_content content) []).
Proof. unfold NewConf, NewConfig, parse, one_file. cbn [filename]. by rewrite beq_refl. Qed.

(** C39: Loading a printed configuration of entries the format can hold (distinct keys, keys
    and values without surrounding white space, equals signs and newlines, keys not empty and
    not starting with a plus sign or a semicolon) gives back every string field and every
    64-bit integer field of AppConfig that it has. *)
Theorem NewConf_roundtrip dir env kvs :
  Forall entry_ok kvs → NoDup kvs.*1 →
  let cfg := NewConf (one_file (dir ++ B "/env/" ++ env ++ B ".conf") (print_conf kvs)) dir env in
  (∀ n v, (n, KString) ∈ AppConfig_fields → (n, v) ∈ kvs → cfg_string cfg n = v) ∧
  (∀ n z, (n, KInt) ∈ AppConfig_fields → int_ok 64 z → (n, Itoa z) ∈ kvs → cfg_int cfg n = z).
Proof.
  intros Hok Hnd. cbn zeta. rewrite NewConf_one_file, parse_content_print by done.
  unfold cfg_string, cfg_int. split.
  - intros n v Hf Hin. rewrite (field_getConf _ n KString) by done. cbn [read_value].
    unfold GetString. cbn [data]. by erewrite foldl_insert_lookup.
  - intros n z Hf Hz Hin. rewrite (field_getConf _ n KInt) by done. cbn [read_value].
    unfold GetInt. cbn [data]. erewrite foldl_insert_lookup by done. by rewrite Atoi_Itoa.
Qed.

Lemma NewConf_roundtrip_witness :
  let kvs := [(B "RedisHost", B "127.0.0.1"); (B "RedisPort", B "6379")] in
  let cfg := NewConf (one_file (B "/opt/env/prod.conf") (print_conf kvs)) (B "/opt") (B "prod") in
  cfg_string cfg (B "RedisHost") = B "127.0.0.1" ∧ cfg_int cfg (B "RedisPort") = 6379.
Proof.
  cbn zeta.
  destruct (NewConf_roundtrip (B "/opt") (B "prod")
    [(B "RedisHost", B "127.0.0.1"); (B "RedisPort", B "6379")]) as [Hs Hi].
  - apply (bool_decide_unpack _). vm_compute. exact I.
  - apply (bool_decide_unpack _). vm_compute. exact I.
  - split; [apply Hs|apply Hi].
    + apply (bool_decide_unpack _). vm_compute. exact I.
    + apply (bool_decide_unpack _). vm_compute. exact I.
    + apply (bool_decide_unpack _). vm_compute. exact I.
    + unfold int_ok. lia.
    + apply (bool_decide_unpack _). vm_compute. exact I.
Defined.

(** ** What the reader drops *)

(** What follows the last newline of a configuration file is ignored. *)
Lemma parse_content_last_line content l :
  10 ∉ l → parse_content (content ++ 10 :: l) = parse_content (content ++ [10]).
Proof.
  intros Hl. unfold parse_content.
  replace (content ++ 10 :: l) with ((content ++ [10]) ++ l) by (by rewrite <- app_assoc).
  by rewrite read_lines_app.
Qed.

Lemma parse_content_last_line_witness :
  parse_content (B "RedisPort=1" ++ 10 :: B "RedisDb=2") = parse_content (B "RedisPort=1" ++ [10]).
Proof.
  apply (parse_content_last_line (B "RedisPort=1") (B "RedisDb=2")).
  apply (bool_decide_unpack _). vm_compute. exact I.
Defined.
