(* ===== verification/RedisReply.v ===== *)
(** * [redis/reply.go]: replies and their conversions

    A reply is what [readReply] returns: one of the dynamic types the conversions switch on.
    A conversion returns a value and an error, the value being the zero value of its type
    when the reply has no use for it. *)

From S2P Require Import Prelude GoStrings.

Inductive reply :=
| RInt (n : Z)                (* int64 *)
| RBulk (b : bytes)           (* []byte *)
| RSimple (s : bytes)         (* string *)
| RNil                        (* nil *)
| RArr (rs : list reply)      (* []interface{} *)
| RErr (msg : bytes).         (* redis.Error *)

(** The errors of the package. *)
Inductive rerr :=
| ErrNil
| StrconvErrRange
| NumError (e : num_error)
| RedisError (msg : bytes)
| UnexpectedType (fn : bytes)
| UnexpectedElement (fn : bytes)
| errNegativeInt
| OddValues (fn : bytes)
| KeyNotBulk (fn : bytes)
| PositionCount (n : Z)
| ProtocolError (msg : bytes)
| IOError
| PoolError (msg : bytes).

#[export] Instance num_error_eq_dec : EqDecision num_error.
Proof. solve_decision. Defined.
#[export] Instance rerr_eq_dec : EqDecision rerr.
Proof. solve_decision. Defined.

(** ** Scalars *)

(** [func Int(reply interface{}, err error) (int, error)]; [int] has 64 bits, so that the
    conversion from [int64] keeps the value, which the code checks. *)
Definition Int (r : reply) (err : option rerr) : Z * option rerr :=
  match err with
  | Some e => (0, Some e)
  | None =>
      match r with
      | RInt n => let x := swrap 64 n in
                  if x =? n then (x, None) else (0, Some StrconvErrRange)
      | RBulk b => let '(n, e) := ParseInt b in (n, NumError <$> e)
      | RNil => (0, Some ErrNil)
      | RErr m => (0, Some (RedisError m))
      | _ => (0, Some (UnexpectedType (B "Int")))
      end
  end.

(** [func Int64(reply interface{}, err error) (int64, error)] *)
Definition Int64 (r : reply) (err : option rerr) : Z * option rerr :=
  match err with
  | Some e => (0, Some e)
  | None =>
      match r with
      | RInt n => (n, None)
      | RBulk b => let '(n, e) := ParseInt b in (n, NumError <$> e)
      | RNil => (0, Some ErrNil)
      | RErr m => (0, Some (RedisError m))
      | _ => (0, Some (UnexpectedType (B "Int64")))
      end
  end.

(** [func Uint64(reply interface{}, err error) (uint64, error)] *)
Definition Uint64 (r : reply) (err : option rerr) : Z * option rerr :=
  match err with
  | Some e => (0, Some e)
  | None =>
      match r with
      | RInt n => if n <? 0 then (0, Some errNegativeInt) else (uwrap 64 n, None)
      | RBulk b => let '(n, e) := ParseUint b in (n, NumError <$> e)
      | RNil => (0, Some ErrNil)
      | RErr m => (0, Some (RedisError m))
      | _ => (0, Some (UnexpectedType (B "Uint64")))
      end
  end.

(** [func String(reply interface{}, err error) (string, error)] *)
Definition String_ (r : reply) (err : option rerr) : bytes * option rerr :=
  match err with
  | Some e => ([], Some e)
  | None =>
      match r with
      | RBulk b => (b, None)
      | RSimple s => (s, None)
      | RNil => ([], Some ErrNil)
      | RErr m => ([], Some (RedisError m))
      | _ => ([], Some (UnexpectedType (B "String")))
      end
  end.

(** [func Bytes(reply interface{}, err error) ([]byte, error)] *)
Definition Bytes_ (r : reply) (err : option rerr) : bytes * option rerr :=
  match err with
  | Some e => ([], Some e)
  | None =>
      match r with
      | RBulk b => (b, None)
      | RSimple s => (s, None)
      | RNil => ([], Some ErrNil)
      | RErr m => ([], Some (RedisError m))
      | _ => ([], Some (UnexpectedType (B "Bytes")))
      end
  end.

(** [strconv.ParseBool] *)
Definition ParseBool (s : bytes) : bool * option num_error :=
  if existsb (beq s) [B "1"; B "t"; B "T"; B "true"; B "TRUE"; B "True"] then (true, None)
  else if existsb (beq s) [B "0"; B "f"; B "F"; B "false"; B "FALSE"; B "False"] then (false, None)
  else (false, Some ErrSyntax).

(** [func Bool(reply interface{}, err error) (bool, error)] *)
Definition Bool_ (r : reply) (err : option rerr) : bool * option rerr :=
  match err with
  | Some e => (false, Some e)
  | None =>
      match r with
      | RInt n => (negb (n =? 0), None)
      | RBulk b => let '(v, e) := ParseBool b in (v, NumError <$> e)
      | RNil => (false, Some ErrNil)
      | RErr m => (false, Some (RedisError m))
      | _ => (false, Some (UnexpectedType (B "Bool")))
      end
  end.

(** ** Arrays *)

(** [func Values(reply interface{}, err error) ([]interface{}, error)] *)
Definition Values (r : reply) (err : option rerr) : list reply * option rerr :=
  match err with
  | Some e => ([], Some e)
  | None =>
      match r with
      | RArr rs => (rs, None)
      | RNil => ([], Some ErrNil)
      | RErr m => ([], Some (RedisError m))
      | _ => ([], Some (UnexpectedType (B "Values")))
      end
  end.

(** [func MultiBulk(reply interface{}, err error) ([]interface{}, error)] *)
Definition MultiBulk : reply → option rerr → list reply * option rerr := Values.

Section Slices.
Context {T : Type}.

(** The loop of [sliceHelper] over the elements not yet visited, next to the slots of the
    slice that [makeSlice] zeroed: [assign] may store a value and may fail; on failure the
    remaining slots keep their zero. *)
Fixpoint slice_loop (zero : T) (assign : reply → option T * option rerr) (rs : list reply)
  : list T * option rerr :=
  match rs with
  | [] => ([], None)
  | RNil :: rs' => let '(out, e) := slice_loop zero assign rs' in (zero :: out, e)
  | r :: rs' =>
      let '(v, e) := assign r in
      let slot := default zero v in
      match e with
      | Some e => (slot :: replicate (length rs') zero, Some e)
      | None => let '(out, e) := slice_loop zero assign rs' in (slot :: out, e)
      end
  end.

(** [func sliceHelper(reply, err, name, makeSlice, assign) error], with the slice its
    closures fill. *)
Definition sliceHelper (r : reply) (err : option rerr) (name : bytes) (zero : T)
    (assign : reply → option T * option rerr) : list T * option rerr :=
  match err with
  | Some e => ([], Some e)
  | None =>
      match r with
      | RArr rs => slice_loop zero assign rs
      | RNil => ([], Some ErrNil)
      | RErr m => ([], Some (RedisError m))
      | _ => ([], Some (UnexpectedType name))
      end
  end.

End Slices.

(** [func Strings(reply interface{}, err error) ([]string, error)] *)
Definition Strings (r : reply) (err : option rerr) : list bytes * option rerr :=
  sliceHelper r err (B "Strings") [] (fun v =>
    match v with
    | RSimple s => (Some s, None)
    | RBulk b => (Some b, None)
    | _ => (None, Some (UnexpectedElement (B "Strings")))
    end).

(** [func ByteSlices(reply interface{}, err error) ([][]byte, error)]; a nil slice is [None]. *)
Definition ByteSlices (r : reply) (err : option rerr) : list (option bytes) * option rerr :=
  sliceHelper r err (B "ByteSlices") None (fun v =>
    match v with
    | RBulk b => (Some (Some b), None)
    | _ => (None, Some (UnexpectedElement (B "ByteSlices")))
    end).

(** [func Int64s(reply interface{}, err error) ([]int64, error)] *)
Definition Int64s (r : reply) (err : option rerr) : list Z * option rerr :=
  sliceHelper r err (B "Int64s") 0 (fun v =>
    match v with
    | RInt n => (Some n, None)
    | RBulk b => let '(n, e) := ParseInt b in (Some n, NumError <$> e)
    | _ => (None, Some (UnexpectedElement (B "Int64s")))
    end).

(** [func Ints(reply interface{}, err error) ([]int, error)] *)
Definition Ints (r : reply) (err : option rerr) : list Z * option rerr :=
  sliceHelper r err (B "Ints") 0 (fun v =>
    match v with
    | RInt n => let x := swrap 64 n in
                if x =? n then (Some x, None) else (None, Some StrconvErrRange)
    | RBulk b => let '(n, e) := Atoi b in (Some n, NumError <$> e)
    | _ => (None, Some (UnexpectedElement (B "Ints")))
    end).

(** ** Maps *)

(** The loop of [StringMap] over [values], two at a time. *)
Fixpoint string_map_loop (vs : list reply) (m : gmap bytes bytes) : gmap bytes bytes * option rerr :=
  match vs with
  | RBulk k :: RBulk v :: vs' => string_map_loop vs' (<[k := v]> m)
  | _ :: _ :: _ => (∅, Some (KeyNotBulk (B "StringMap")))
  | _ => (m, None)
  end.

(** [func StringMap(result interface{}, err error) (map[string]string, error)] *)
Definition StringMap (r : reply) (err : option rerr) : gmap bytes bytes * option rerr :=
  match Values r err with
  | (_, Some e) => (∅, Some e)
  | (vs, None) =>
      if negb (len vs mod 2 =? 0) then (∅, Some (OddValues (B "StringMap")))
      else string_map_loop vs ∅
  end.

(** The loops of [IntMap] and [Int64Map], which differ in the conversion of the value. *)
Fixpoint int_map_loop (fn : bytes) (conv : reply → option rerr → Z * option rerr)
    (vs : list reply) (m : gmap bytes Z) : gmap bytes Z * option rerr :=
  match vs with
  | RBulk k :: v :: vs' =>
      match conv v None with
      | (_, Some e) => (∅, Some e)
      | (n, None) => int_map_loop fn conv vs' (<[k := n]> m)
      end
  | _ :: _ :: _ => (∅, Some (KeyNotBulk fn))
  | _ => (m, None)
  end.

(** [func IntMap(result interface{}, err error) (map[string]int, error)] *)
Definition IntMap (r : reply) (err : option rerr) : gmap bytes Z * option rerr :=
  match Values r err with
  | (_, Some e) => (∅, Some e)
  | (vs, None) =>
      if negb (len vs mod 2 =? 0) then (∅, Some (OddValues (B "IntMap")))
      else int_map_loop (B "IntMap") Int vs ∅
  end.

(** [func Int64Map(result interface{}, err error) (map[string]int64, error)] *)
Definition Int64Map (r : reply) (err : option rerr) : gmap bytes Z * option rerr :=
  match Values r err with
  | (_, Some e) => (∅, Some e)
  | (vs, None) =>
      if negb (len vs mod 2 =? 0) then (∅, Some (OddValues (B "Int64Map")))
      else int_map_loop (B "Int64Map") Int64 vs ∅
  end.

(** ** Floating point *)

Section Floats.

(** [float64] and [strconv.ParseFloat(s, 64)] stay parameters. *)
Context {F : Type} (zero : F) (ParseFloat : bytes → F * option num_error).

(** [func Float64(reply interface{}, err error) (float64, error)] *)
Definition Float64 (r : reply) (err : option rerr) : F * option rerr :=
  match err with
  | Some e => (zero, Some e)
  | None =>
      match r with
      | RBulk b => let '(n, e) := ParseFloat b in (n, NumError <$> e)
      | RNil => (zero, Some ErrNil)
      | RErr m => (zero, Some (RedisError m))
      | _ => (zero, Some (UnexpectedType (B "Float64")))
      end
  end.

(** [func Float64s(reply interface{}, err error) ([]float64, error)] *)
Definition Float64s (r : reply) (err : option rerr) : list F * option rerr :=
  sliceHelper r err (B "Float64s") zero (fun v =>
    match v with
    | RBulk b => let '(f, e) := ParseFloat b in (Some f, NumError <$> e)
    | _ => (None, Some (UnexpectedElement (B "Floats64")))
    end).

(** The loop of [Positions]; a missing member stays a nil pointer. *)
Fixpoint positions_loop (vs : list reply) : list (option (F * F)) * option rerr :=
  match vs with
  | [] => ([], None)
  | RNil :: vs' =>
      match positions_loop vs' with
      | (_, Some e) => ([], Some e)
      | (ps, None) => (None :: ps, None)
      end
  | RArr p :: vs' =>
      match p with
      | [a; b] =>
          match Float64 a None with
          | (_, Some e) => ([], Some e)
          | (lat, None) =>
              match Float64 b None with
              | (_, Some e) => ([], Some e)
              | (long, None) =>
                  match positions_loop vs' with
                  | (_, Some e) => ([], Some e)
                  | (ps, None) => (Some (lat, long) :: ps, None)
                  end
              end
          end
      | _ => ([], Some (PositionCount (len p)))
      end
  | _ :: _ => ([], Some (UnexpectedElement (B "interface slice")))
  end.

(** [func Positions(result interface{}, err error) ([]*[2]float64, error)] *)
Definition Positions (r : reply) (err : option rerr) : list (option (F * F)) * option rerr :=
  match Values r err with
  | (_, Some e) => ([], Some e)
  | (vs, None) => positions_loop vs
  end.

End Floats.

(** ** Properties *)

(** A slice conversion that got an array always returns a slice of the array's length, and
    without an error exactly when no element that is not nil failed. *)
Lemma slice_loop_length {T} (zero : T) assign rs :
  length (slice_loop zero assign rs).1 = length rs.
Proof.
  induction rs as [|r rs IH]; [done|]. cbn [slice_loop].
  destruct (slice_loop zero assign rs) as [out e], r; cbn [fst length] in *;
    try (destruct (assign _) as [v [e'|]]; cbn [fst length]; rewrite ?length_replicate; lia); lia.
Qed.

Lemma slice_loop_error {T} (zero : T) assign rs :
  (slice_loop zero assign rs).2 = None ↔ Forall (fun r => r = RNil ∨ (assign r).2 = None) rs.
Proof.
  induction rs as [|r rs IH]; [done|]. cbn [slice_loop]. rewrite Forall_cons, <- IH.
  destruct (slice_loop zero assign rs) as [out e], r; cbn [snd];
    try (destruct (assign _) as [v [e'|]]; cbn [snd]; naive_solver); naive_solver.
Qed.

(** What the array conversions return for a list of integers rendered as bulk strings. *)
Lemma Ints_bulk ns :
  Forall (int_ok 64) ns → Ints (RArr (RBulk ∘ Itoa <$> ns)) None = (ns, None).
Proof.
  intros Hns. unfold Ints, sliceHelper. induction Hns as [|n ns Hn Hns IH]; [done|].
  csimpl. rewrite IH, Atoi_Itoa by done. done.
Qed.

Lemma string_map_loop_flat kvs m :
  string_map_loop (kvs ≫= (fun kv => [RBulk kv.1; RBulk kv.2])) m =
  (foldl (fun m kv => <[kv.1 := kv.2]> m) m kvs, None).
Proof. revert m. induction kvs as [|kv kvs IH]; intros m; [done|]. csimpl. apply IH. Qed.

(** An alternating list of keys and values becomes the map, later keys winning. *)
Lemma StringMap_flat kvs :
  StringMap (RArr (kvs ≫= (fun kv => [RBulk kv.1; RBulk kv.2]))) None =
  (foldl (fun m kv => <[kv.1 := kv.2]> m) ∅ kvs, None).
Proof.
  unfold StringMap. cbn [Values]. rewrite string_map_loop_flat.
  replace (len _ mod 2 =? 0) with true; [done|]. symmetry. apply Z.eqb_eq.
  induction kvs as [|kv kvs IH]; [done|]. csimpl. rewrite !len_cons. zdiv.
Qed.
