(* ===== verification/RedisConn.v ===== *)
(** * [redis/conn.go]: the connection and the wire protocol

    Commands are written as arrays of bulk strings; replies are read back by a recursive
    descent over the input.  The network is the bytes still to be read and the bytes written;
    deadlines are not modelled. *)

From S2P Require Import Prelude GoStrings RedisReply.

Definition CRLF : bytes := [13; 10].

(** ** Writing *)

(** [func (c *conn) writeLen(prefix byte, n int) error]: the digits are written backwards into
    a scratch buffer of 32 bytes, which leaves 29 for them. *)
Definition writeLen (prefix : Z) (n : Z) : bytes := prefix :: reverse (digits_rev 29 n) ++ CRLF.

(** [func (c *conn) writeString(s string) error] *)
Definition writeString (s : bytes) : bytes := writeLen (chr "$") (len s) ++ s ++ CRLF.

(** [func (c *conn) writeBytes(p []byte) error] *)
Definition writeBytes (p : bytes) : bytes := writeLen (chr "$") (len p) ++ p ++ CRLF.

(** [func (c *conn) writeInt64(n int64) error] *)
Definition writeInt64 (n : Z) : bytes := writeBytes (Itoa n).

(** The dynamic types [writeArg] distinguishes.  A [float64] comes with its shortest decimal
    text, an [Argument] with what [RedisArg] returns and what [fmt] prints for it, any other
    value with what [fmt] prints. *)
Inductive arg :=
| AString (s : bytes) | ABytes (p : bytes) | AInt (n : Z) | AInt64 (n : Z)
| AFloat64 (text : bytes) | ABool (b : bool) | ANil
| AArgument (inner : arg) (printed : bytes) | AOther (printed : bytes).

(** [func (c *conn) writeArg(arg interface{}, argumentTypeOK bool) (err error)] *)
Fixpoint writeArg (a : arg) (argumentTypeOK : bool) : bytes :=
  match a with
  | AString s => writeString s
  | ABytes p => writeBytes p
  | AInt n => writeInt64 n
  | AInt64 n => writeInt64 n
  | AFloat64 t => writeBytes t
  | ABool b => if b then writeString (B "1") else writeString (B "0")
  | ANil => writeString []
  | AArgument inner printed =>
      if argumentTypeOK then writeArg inner false else writeBytes printed
  | AOther printed => writeBytes printed
  end.

(** [func (c *conn) writeCommand(cmd string, args []interface{}) error] *)
Definition writeCommand (cmd : bytes) (args : list arg) : bytes :=
  writeLen (chr "*") (1 + len args) ++ writeString cmd ++ (args ≫= fun a => writeArg a true).

(** ** Reading *)

(** [c.br.ReadSlice('\n')]: up to and including the delimiter, or the end of the input. *)
Fixpoint read_slice (inp : bytes) : option (bytes * bytes) :=
  match inp with
  | [] => None
  | c :: inp' =>
      if c =? 10 then Some ([c], inp')
      else match read_slice inp' with Some (p, rest) => Some (c :: p, rest) | None => None end
  end.

(** [func (c *conn) readLine() ([]byte, error)] *)
Definition readLine (inp : bytes) : (bytes * bytes) + rerr :=
  match read_slice inp with
  | None => inr IOError
  | Some (p, rest) =>
      let i := len p - 2 in
      if (i <? 0) || negb (default 0 (p !! Z.to_nat i) =? 13)
      then inr (ProtocolError (B "bad response line terminator"))
      else inl (take (Z.to_nat i) p, rest)
  end.

(** The digit loops of [parseLen] and [parseInt]: 64-bit arithmetic that wraps around. *)
Fixpoint parse_digits (p : bytes) (n : Z) : option Z :=
  match p with
  | [] => Some n
  | b :: p' =>
      let n := swrap 64 (n * 10) in
      if (b <? 48) || (57 <? b) then None else parse_digits p' (swrap 64 (n + (b - 48)))
  end.

(** [func parseLen(p []byte) (int, error)] *)
Definition parseLen (p : bytes) : Z * option rerr :=
  match p with
  | [] => (-1, Some (ProtocolError (B "malformed length")))
  | [45; 49] => (-1, None)
  | _ => match parse_digits p 0 with
         | None => (-1, Some (ProtocolError (B "illegal bytes in length")))
         | Some n => (n, None)
         end
  end.

(** [func parseInt(p []byte) (interface{}, error)] *)
Definition parseInt (p : bytes) : reply * option rerr :=
  match p with
  | [] => (RInt 0, Some (ProtocolError (B "malformed integer")))
  | c :: p' =>
      let negate := c =? 45 in
      let p := if negate then p' else p in
      match p with
      | [] => (RInt 0, Some (ProtocolError (B "malformed integer")))
      | _ => match parse_digits p 0 with
             | None => (RInt 0, Some (ProtocolError (B "illegal bytes in length")))
             | Some n => (RInt (if negate then swrap 64 (- n) else n), None)
             end
      end
  end.

(** The result of reading one reply. *)
Inductive read_result (A : Type) :=
| ReadOk (a : A) (rest : bytes)
| ReadErr (e : rerr)
| OutOfFuel.
Arguments ReadOk {A} _ _.
Arguments ReadErr {A} _.
Arguments OutOfFuel {A}.

(** The loop of [readReply] over the elements of an array. *)
Definition read_array (read : bytes → Go (read_result reply)) : nat → Z → bytes → Go (read_result (list reply)) :=
  fix loop g n inp :=
    if n <=? 0 then Ret (ReadOk [] inp)
    else match g with
         | O => Ret OutOfFuel
         | S g' =>
             let* x := read inp in
             match x with
             | ReadOk r rest =>
                 let* xs := loop g' (n - 1) rest in
                 Ret (match xs with
                      | ReadOk rs rest' => ReadOk (r :: rs) rest'
                      | ReadErr e => ReadErr e
                      | OutOfFuel => OutOfFuel
                      end)
             | ReadErr e => Ret (ReadErr e)
             | OutOfFuel => Ret OutOfFuel
             end
         end.

(** The body of a bulk string: [make([]byte, n)], [io.ReadFull] of [n] bytes, an empty line *)
Definition read_bulk (n : Z) (inp : bytes) : Go (read_result reply) :=
  let* _ := go_make 1 n in
  Ret (if len inp <? n then ReadErr IOError
  else
    match readLine (drop (Z.to_nat n) inp) with
    | inr e => ReadErr e
    | inl (line, rest) =>
        if negb (len line =? 0) then ReadErr (ProtocolError (B "bad bulk string format"))
        else ReadOk (RBulk (take (Z.to_nat n) inp)) rest
    end).

(** [func (c *conn) readReply() (interface{}, error)]; the fuel bounds the nesting and the
    length of arrays, both of which consume input.  An array is a slice of interfaces, of 16
    bytes each. *)
Fixpoint readReply (fuel : nat) (inp : bytes) : Go (read_result reply) :=
  match fuel with
  | O => Ret OutOfFuel
  | S f =>
      match readLine inp with
      | inr e => Ret (ReadErr e)
      | inl ([], _) => Ret (ReadErr (ProtocolError (B "short response line")))
      | inl (c :: l, rest) =>
          if c =? chr "+" then Ret (ReadOk (RSimple l) rest)
          else if c =? chr "-" then Ret (ReadOk (RErr l) rest)
          else if c =? chr ":" then
            Ret (match parseInt l with
            | (_, Some e) => ReadErr e
            | (r, None) => ReadOk r rest
            end)
          else if c =? chr "$" then
            match parseLen l with
            | (_, Some e) => Ret (ReadErr e)
            | (n, None) => if n <? 0 then Ret (ReadOk RNil rest) else read_bulk n rest
            end
          else if c =? chr "*" then
            match parseLen l with
            | (_, Some e) => Ret (ReadErr e)
            | (n, None) =>
                if n <? 0 then Ret (ReadOk RNil rest)
                else
                  let* _ := go_make 16 n in
                  let* xs := read_array (readReply f) f n rest in
                  Ret (match xs with
                       | ReadOk rs rest' => ReadOk (RArr rs) rest'
                       | ReadErr e => ReadErr e
                       | OutOfFuel => OutOfFuel
                       end)
            end
          else Ret (ReadErr (ProtocolError (B "unexpected response line")))
      end
  end.

(** Enough fuel for an input. *)
Definition read_reply (inp : bytes) : Go (read_result reply) := readReply (S (length inp)) inp.

(** ** The connection *)

(** [type conn struct]: the count of replies still owed, the first fatal error, the buffered
    output, the output on the wire, the input the reader can still deliver (none once the
    network connection is closed), and whether the network refuses further output. *)
Record conn := mk_conn {
  pending : Z; c_err : option rerr; buffered : bytes; wire : bytes; input : bytes; broken : bool
}.

(** [func (c *conn) Close() error]: the error it returns comes first. *)
Definition Close (c : conn) : option rerr * conn :=
  match c_err c with
  | Some e => (Some e, c)
  | None => (None, mk_conn (pending c) (Some (PoolError (B "redigo: closed")))
                    (buffered c) (wire c) [] true)
  end.

(** [func (c *conn) fatal(err error) error]: the first fatal error sticks and the network
    connection is closed. *)
Definition fatal (e : rerr) (c : conn) : conn :=
  match c_err c with
  | Some _ => c
  | None => mk_conn (pending c) (Some e) (buffered c) (wire c) [] true
  end.

(** [func (c *conn) Err() error] *)
Definition Err (c : conn) : option rerr := c_err c.

Definition set_pending (n : Z) (c : conn) : conn :=
  mk_conn n (c_err c) (buffered c) (wire c) (input c) (broken c).
Definition set_input (i : bytes) (c : conn) : conn :=
  mk_conn (pending c) (c_err c) (buffered c) (wire c) i (broken c).
Definition buffer (b : bytes) (c : conn) : conn :=
  mk_conn (pending c) (c_err c) (buffered c ++ b) (wire c) (input c) (broken c).

(** [func (c *conn) Send(cmd string, args ...interface{}) error]: the command goes to the
    buffer; a network failure shows when the buffer is flushed. *)
Definition Send (cmd : bytes) (args : list arg) (c : conn) : conn :=
  buffer (writeCommand cmd args) (set_pending (pending c + 1) c).

(** [func (c *conn) Flush() error] *)
Definition Flush (c : conn) : option rerr * conn :=
  if broken c then (Some IOError, fatal IOError c)
  else (None, mk_conn (pending c) (c_err c) [] (wire c ++ buffered c) (input c) false).

(** One reply off the input, or a fatal error. *)
Definition read_one (c : conn) : Go ((reply + rerr) * conn) :=
  let* x := read_reply (input c) in
  Ret (match x with
  | ReadOk r rest => (inl r, set_input rest c)
  | ReadErr e => (inr e, fatal e c)
  | OutOfFuel => (inr IOError, fatal IOError c)
  end).

(** [func (c *conn) ReceiveWithTimeout(timeout time.Duration) (reply interface{}, err error)] *)
Definition Receive (c : conn) : Go ((reply * option rerr) * conn) :=
  let* x := read_one c in
  Ret (match x with
  | (inr e, c') => ((RNil, Some e), c')
  | (inl r, c') =>
      let c' := if 0 <? pending c' then set_pending (pending c' - 1) c' else c' in
      match r with
      | RErr m => ((RNil, Some (RedisError m)), c')
      | _ => ((r, None), c')
      end
  end).

(** The replies [DoWithTimeout] collects for the pending commands when [cmd] is empty. *)
Fixpoint drain (k : nat) (c : conn) : Go ((list reply + rerr) * conn) :=
  match k with
  | O => Ret (inl [], c)
  | S k' =>
      let* x := read_one c in
      match x with
      | (inr e, c') => Ret (inr e, c')
      | (inl r, c') =>
          let* xs := drain k' c' in
          Ret (match xs with
          | (inl rs, c'') => (inl (r :: rs), c'')
          | (inr e, c'') => (inr e, c'')
          end)
      end
  end.

(** The loop of [DoWithTimeout] over the pending replies and the command's own: the last
    reply, with the first error reply. *)
Fixpoint do_loop (k : nat) (last : reply) (err : option rerr) (c : conn)
  : Go ((reply * option rerr) * conn) :=
  match k with
  | O => Ret ((last, err), c)
  | S k' =>
      let* x := read_one c in
      match x with
      | (inr e, c') => Ret ((RNil, Some e), c')
      | (inl r, c') =>
          let err := match err, r with None, RErr m => Some (RedisError m) | _, _ => err end in
          do_loop k' r err c'
      end
  end.

(** [func (c *conn) DoWithTimeout(readTimeout, cmd, args...) (interface{}, error)] *)
Definition Do (cmd : bytes) (args : list arg) (c : conn) : Go ((reply * option rerr) * conn) :=
  let p := pending c in
  let c := set_pending 0 c in
  if beq cmd [] && (p =? 0) then Ret ((RNil, None), c)
  else
    let c := if beq cmd [] then c else buffer (writeCommand cmd args) c in
    match Flush c with
    | (Some e, c) => Ret ((RNil, Some e), c)
    | (None, c) =>
        if beq cmd [] then
          let* x := drain (Z.to_nat p) c in
          Ret (match x with
          | (inl rs, c) => ((RArr rs, None), c)
          | (inr e, c) => ((RNil, Some e), c)
          end)
        else do_loop (S (Z.to_nat p)) RNil None c
    end.
