(* ===== verification/RedisConnProps.v ===== *)
(** * Properties of the wire protocol ([redis/conn.go])

    [resp] is the protocol as Redis documents it; the reader inverts it, also for nested
    arrays and for binary bulk strings, and reads a written command as the array of its
    arguments.  Reading terminates on every input, at worst with the panic of a slice that is too
    large to be made. *)

From S2P Require Import Prelude GoStrings RedisReply RedisConn.

(** ** The protocol *)

Definition resp_line (prefix : Z) (l : bytes) : bytes := prefix :: l ++ CRLF.

Fixpoint resp (r : reply) : bytes :=
  match r with
  | RInt n => resp_line (chr ":") (Itoa n)
  | RBulk b => resp_line (chr "$") (Itoa (len b)) ++ b ++ CRLF
  | RSimple s => resp_line (chr "+") s
  | RNil => resp_line (chr "$") (B "-1")
  | RArr rs => resp_line (chr "*") (Itoa (len rs)) ++ (rs ≫= resp)
  | RErr m => resp_line (chr "-") m
  end.

(** Replies the protocol can carry: 64-bit integers, single-line texts, byte strings and arrays
    a slice can be made for. *)
Fixpoint reply_ok (r : reply) : Prop :=
  match r with
  | RInt n => int_ok 64 n
  | RBulk b => len b ≤ maxAlloc
  | RSimple s => 10 ∉ s
  | RNil => True
  | RArr rs => 16 * len rs ≤ maxAlloc ∧ foldr (fun r P => reply_ok r ∧ P) True rs
  | RErr m => 10 ∉ m
  end.

Lemma reply_ind' (P : reply → Prop) :
  (∀ n, P (RInt n)) → (∀ b, P (RBulk b)) → (∀ s, P (RSimple s)) → P RNil →
  (∀ rs, Forall P rs → P (RArr rs)) → (∀ m, P (RErr m)) → ∀ r, P r.
Proof.
  intros H1 H2 H3 H4 H5 H6. fix IH 1. intros [n|b|s| |rs|m].
  - apply H1.
  - apply H2.
  - apply H3.
  - apply H4.
  - apply H5. induction rs as [|r rs IHrs]; constructor; [apply IH|exact IHrs].
  - apply H6.
Qed.

(** ** Lines *)

Lemma read_slice_line l rest : 10 ∉ l → read_slice (l ++ 10 :: rest) = Some (l ++ [10], rest).
Proof.
  induction l as [|c l IH]; intros Hl; cbn [app read_slice]; [done|].
  apply not_elem_of_cons in Hl as [Hc Hl]. replace (c =? 10) with false by lia. by rewrite IH.
Qed.

Lemma readLine_crlf l rest : 10 ∉ l → readLine (l ++ CRLF ++ rest) = inl (l, rest).
Proof.
  intros Hl. unfold readLine, CRLF. cbn [app].
  replace (l ++ 13 :: 10 :: rest) with ((l ++ [13]) ++ 10 :: rest) by (by rewrite <- app_assoc).
  rewrite read_slice_line by (rewrite elem_of_app, elem_of_cons, elem_of_nil; naive_solver lia).
  replace ((l ++ [13]) ++ [10]) with (l ++ [13; 10]) by (by rewrite <- app_assoc).
  rewrite len_app. change (len [13; 10]) with 2. rewrite Z.add_simpl_r.
  pose proof (len_nonneg l). replace (len l <? 0) with false by lia.
  unfold len. rewrite Nat2Z.id, lookup_app_r, Nat.sub_diag by done. cbn [orb].
  change (negb (default 0 ([13; 10] !! 0%nat) =? 13)) with false. cbn iota.
  by rewrite take_app_length.
Qed.

Lemma readLine_resp_line c l rest :
  c ≠ 10 → 10 ∉ l → readLine (resp_line c l ++ rest) = inl (c :: l, rest).
Proof.
  intros Hc Hl. unfold resp_line. cbn [app]. rewrite <- app_assoc.
  apply (readLine_crlf (c :: l)). apply not_elem_of_cons. done.
Qed.

(** ** Numbers *)

Lemma parse_digits_eq s n :
  Forall (fun c => is_digit c = true) s →
  parse_digits s (swrap 64 n) = Some (swrap 64 (foldl (fun acc c => acc * 10 + (c - 48)) n s)).
Proof.
  intros Hs. revert n. induction Hs as [|c s Hc Hs IH]; intros n; [done|].
  cbn [parse_digits foldl]. unfold is_digit in Hc.
  replace ((c <? 48) || (57 <? c)) with false by lia. rewrite swrap_step. apply IH.
Qed.

Lemma digits_no_newline s : Forall (fun c => is_digit c = true) s → 10 ∉ s.
Proof. rewrite Forall_forall. intros H Hin. by apply H in Hin. Qed.

Lemma digits_value fuel n :
  0 ≤ n < 10 ^ Z.of_nat fuel →
  foldl (fun acc c => acc * 10 + (c - 48)) 0 (reverse (digits_rev fuel n)) = n.
Proof.
  intros Hn. rewrite <- (digits_rev_value fuel n) at 2 by done.
  induction (digits_rev fuel n) as [|c s IH]; [done|]. by rewrite reverse_cons, foldl_app, IH.
Qed.

Lemma parse_digits_rev fuel n :
  0 ≤ n < 10 ^ Z.of_nat fuel → parse_digits (reverse (digits_rev fuel n)) 0 = Some (swrap 64 n).
Proof.
  intros Hn. change 0 with (swrap 64 0) at 1. rewrite parse_digits_eq.
  - by rewrite digits_value.
  - apply Forall_reverse, digits_rev_digit. lia.
Qed.

Lemma digits_rev_nonempty fuel n : (0 < fuel)%nat → reverse (digits_rev fuel n) ≠ [].
Proof.
  intros Hf E. apply (f_equal reverse) in E. rewrite reverse_involutive in E.
  destruct fuel; [lia|done].
Qed.

Lemma parseLen_digits fuel n :
  (19 ≤ fuel)%nat → 0 ≤ n < 2 ^ 63 → parseLen (reverse (digits_rev fuel n)) = (n, None).
Proof.
  intros Hf Hn. assert (2 ^ 63 ≤ 10 ^ Z.of_nat fuel) as Hp.
  { etrans; [|apply (Z.pow_le_mono_r 10 19); lia]. lia. }
  pose proof (digits_rev_digit fuel n ltac:(lia)) as Hd. apply Forall_reverse in Hd.
  pose proof (parse_digits_rev fuel n ltac:(lia)) as Hv.
  pose proof (digits_rev_nonempty fuel n ltac:(lia)) as Hne.
  rewrite swrap_id in Hv by (unfold int_ok; lia).
  unfold parseLen. destruct (reverse (digits_rev fuel n)) as [|c s]; [done|].
  apply Forall_cons in Hd as [Hc _]. unfold is_digit in Hc.
  destruct (decide (c = 45)); [lia|].
  rewrite Hv. repeat (case_match; try done; try lia).
Qed.

Lemma parseLen_Itoa n : 0 ≤ n < 2 ^ 63 → parseLen (Itoa n) = (n, None).
Proof.
  intros Hn. unfold Itoa. replace (n <? 0) with false by lia. apply parseLen_digits; lia.
Qed.

Lemma parseInt_Itoa n : int_ok 64 n → parseInt (Itoa n) = (RInt n, None).
Proof.
  intros Hn. pose proof Hn as [Hlo Hhi]. change (2 ^ (64 - 1)) with (2 ^ 63) in *.
  unfold Itoa, parseInt. bool_case.
  - cbn [Z.eqb Pos.eqb].
    destruct (reverse (digits_rev 20 (- n))) as [|c s] eqn:E; [by apply digits_rev_nonempty in E; [|lia]|].
    rewrite <- E, parse_digits_rev by (change (Z.of_nat 20) with 20; lia). f_equal. f_equal.
    transitivity (swrap 64 n); [|by apply swrap_id]. apply swrap_mod.
    rewrite <- Z.sub_0_l, <- Zminus_mod_idemp_r, mod_swrap, Zminus_mod_idemp_r. f_equal. lia.
  - pose proof (digits_rev_digit 20 n ltac:(lia)) as Hd. apply Forall_reverse in Hd.
    pose proof (parse_digits_rev 20 n ltac:(change (Z.of_nat 20) with 20; lia)) as Hv.
    destruct (reverse (digits_rev 20 n)) as [|c s] eqn:E; [by apply digits_rev_nonempty in E; [|lia]|].
    apply Forall_cons in Hd as [Hc _]. unfold is_digit in Hc.
    replace (c =? 45) with false by lia. rewrite Hv, swrap_id by done. done.
Qed.

Lemma Itoa_no_newline n : 10 ∉ Itoa n.
Proof.
  unfold Itoa. bool_case.
  - apply not_elem_of_cons. split; [done|].
    apply digits_no_newline, Forall_reverse, digits_rev_digit. lia.
  - apply digits_no_newline, Forall_reverse, digits_rev_digit. lia.
Qed.

(** ** Reading inverts the protocol *)

Lemma read_bulk_ok b rest :
  len b ≤ maxAlloc → read_bulk (len b) (b ++ CRLF ++ rest) = Ret (ReadOk (RBulk b) rest).
Proof.
  intros Hl. unfold read_bulk. rewrite go_make_ok by (pose proof (len_nonneg b); lia). cbn [gbind]. rewrite len_app. pose proof (len_nonneg (CRLF ++ rest)).
  replace (len b + len (CRLF ++ rest) <? len b) with false by lia.
  unfold len at 1 3. rewrite Nat2Z.id, drop_app_length, take_app_length.
  pose proof (readLine_crlf [] rest (not_elem_of_nil _)) as E. cbn [app] in E. by rewrite E.
Qed.

Lemma resp_length r : (0 < length (resp r))%nat.
Proof. destruct r; simpl; lia. Qed.

Lemma bind_resp_length rs :
  (length rs ≤ length (rs ≫= resp))%nat ∧
  Forall (fun r => (length (resp r) ≤ length (rs ≫= resp))%nat) rs.
Proof.
  induction rs as [|r rs [IH1 IH2]]; csimpl; [done|].
  rewrite length_app. pose proof (resp_length r). split; [lia|].
  constructor; [lia|]. eapply Forall_impl; [exact IH2|]. simpl. lia.
Qed.

Lemma read_array_ok read rs g rest :
  (length rs ≤ g)%nat →
  Forall (fun r => ∀ rest, read (resp r ++ rest) = Ret (ReadOk r rest)) rs →
  read_array read g (len rs) ((rs ≫= resp) ++ rest) = Ret (ReadOk rs rest).
Proof.
  intros Hg Hrs. revert g Hg. induction Hrs as [|r rs Hr Hrs IH]; intros g Hg; [by destruct g|].
  destruct g as [|g]; [simpl in Hg; lia|]. csimpl. rewrite len_cons.
  pose proof (len_nonneg rs). cbn [read_array]. fold (read_array read).
  replace (len rs + 1 <=? 0) with false by lia. rewrite <- app_assoc, Hr. cbn [gbind].
  rewrite Z.add_simpl_r, IH by (simpl in Hg; lia). done.
Qed.

Lemma reply_ok_arr rs : foldr (fun r P => reply_ok r ∧ P) True rs → Forall reply_ok rs.
Proof. induction rs; simpl; [done|]. intros [??]. constructor; auto. Qed.

Lemma readReply_resp r :
  reply_ok r → ∀ fuel rest, (length (resp r) ≤ fuel)%nat →
  readReply fuel (resp r ++ rest) = Ret (ReadOk r rest).
Proof.
  induction r as [n|b|s| |rs IH|m] using reply_ind'; intros Hok fuel rest Hf;
    (destruct fuel as [|f]; [simpl in Hf; lia|]); cbn [resp readReply reply_ok] in *.
  - rewrite readLine_resp_line by (done || apply Itoa_no_newline).
    cbn [Z.eqb Pos.eqb]. by rewrite parseInt_Itoa.
  - pose proof (len_nonneg b). rewrite <- app_assoc, readLine_resp_line by (done || apply Itoa_no_newline).
    change (chr "$" =? chr "+") with false. change (chr "$" =? chr "-") with false.
    change (chr "$" =? chr ":") with false. rewrite Z.eqb_refl, parseLen_Itoa by (unfold maxAlloc in Hok; lia).
    replace (len b <? 0) with false by lia. rewrite <- app_assoc. by apply read_bulk_ok.
  - by rewrite readLine_resp_line.
  - by vm_compute.
  - destruct Hok as [Hl Hrs]. pose proof (len_nonneg rs).
    rewrite <- app_assoc, readLine_resp_line by (done || apply Itoa_no_newline).
    change (chr "*" =? chr "+") with false. change (chr "*" =? chr "-") with false.
    change (chr "*" =? chr ":") with false. change (chr "*" =? chr "$") with false.
    rewrite Z.eqb_refl, parseLen_Itoa by (unfold maxAlloc in Hl; lia). replace (len rs <? 0) with false by lia.
    rewrite go_make_ok by lia. cbn [gbind].
    destruct (bind_resp_length rs) as [Hn Hs].
    unfold resp_line in Hf. cbn [app length] in Hf. rewrite !length_app in Hf.
    rewrite read_array_ok; [done|lia|].
    apply reply_ok_arr in Hrs. rewrite Forall_forall in *. intros r Hr rest'.
    apply IH; [done|by apply Hrs|]. specialize (Hs r Hr). simpl in Hs. lia.
  - by rewrite readLine_resp_line.
Qed.

Lemma read_reply_resp r rest : reply_ok r → read_reply (resp r ++ rest) = Ret (ReadOk r rest).
Proof. intros Hr. apply readReply_resp; [done|]. rewrite length_app. lia. Qed.

(** ** Reading terminates *)

Lemma read_slice_length inp p rest :
  read_slice inp = Some (p, rest) → length inp = (length p + length rest)%nat ∧ (0 < length p)%nat.
Proof.
  revert p. induction inp as [|c inp IH]; intros p; cbn [read_slice]; [done|].
  destruct (c =? 10); [intros [= <- <-]; simpl; lia|].
  destruct (read_slice inp) as [[q rest']|] eqn:E; [|done]. intros [= <- ->].
  destruct (IH q eq_refl). simpl. lia.
Qed.

Lemma readLine_length inp l rest : readLine inp = inl (l, rest) → (length rest < length inp)%nat.
Proof.
  unfold readLine. destruct (read_slice inp) as [[p r]|] eqn:E; [|done].
  apply read_slice_length in E. case_match; [done|]. intros [= <- <-]. lia.
Qed.

(** What a read may do: consume input, fail, or panic for a length no slice can have *)
Definition progress {A} (n : nat) (x : Go (read_result A)) : Prop :=
  match x with
  | Ret (ReadOk _ rest) => (length rest < n)%nat
  | Ret (ReadErr _) => True
  | Ret OutOfFuel => False
  | Panic p => p = MakeSliceLen
  end.
(** A reader that makes progress on inputs shorter than [n] *)
Definition good_reader (read : bytes → Go (read_result reply)) (n : nat) : Prop :=
  ∀ inp, (length inp < n)%nat → progress (length inp) (read inp).
Lemma progress_make {A} size n m (x : Go (read_result A)) : progress m x → progress m (let* _ := go_make size n in x).
Proof. unfold go_make. by destruct (_ || _). Qed.

Lemma read_array_good read n g k inp :
  good_reader read n → (length inp < n)%nat → (length inp < g)%nat →
  progress (S (length inp)) (read_array read g k inp).
Proof.
  intros Hr. revert k inp. induction g as [|g IH]; intros k inp Hn Hg; [lia|].
  cbn [read_array]. fold (read_array read). bool_case; [simpl; lia|].
  specialize (Hr inp Hn). destruct (read inp) as [[r rest|e|]|]; cbn [gbind progress] in *; [|done..].
  specialize (IH (k - 1) rest ltac:(lia) ltac:(lia)).
  destruct (read_array read g (k - 1) rest) as [[]|]; simpl in *; [lia|done..].
Qed.

Lemma read_bulk_good n inp :
  progress (S (length inp)) (read_bulk n inp).
Proof.
  unfold read_bulk. apply progress_make. bool_case; [done|].
  destruct (readLine (drop (Z.to_nat n) inp)) as [[l rest]|e] eqn:E; [|done].
  bool_case; [done|]. apply readLine_length in E. rewrite length_drop in E. simpl. lia.
Qed.

Lemma readReply_good fuel : good_reader (readReply fuel) fuel.
Proof.
  induction fuel as [|f IH]; intros inp Hlen; [lia|]. cbn [readReply].
  destruct (readLine inp) as [[[|c l] rest]|e] eqn:E; [done| |done].
  apply readLine_length in E.
  bool_case; [done|]. bool_case; [done|]. bool_case; [by destruct (parseInt l) as [? []]|].
  bool_case.
  { destruct (parseLen l) as [n [e|]]; [done|]. bool_case; [done|].
    pose proof (read_bulk_good n rest). destruct (read_bulk n rest) as [[]|]; simpl in *; [lia|done..]. }
  bool_case; [|done].
  destruct (parseLen l) as [n [e|]]; [done|]. bool_case; [done|].
  pose proof (read_array_good (readReply f) f f n rest IH ltac:(lia) ltac:(lia)). apply progress_make.
  destruct (read_array (readReply f) f n rest) as [[]|]; simpl in *; [lia|done..].
Qed.

(** C29: Reading a reply ends on every input: it consumes input and returns a reply, or fails,
    or panics because a length is announced for which no slice can be made; the fuel, one more
    than the length of the input, never runs out. *)
Theorem read_reply_terminates inp :
  match read_reply inp with
  | Ret (ReadOk r rest) => (length rest < length inp)%nat
  | Ret (ReadErr e) => True
  | Ret OutOfFuel => False
  | Panic p => p = MakeSliceLen
  end.
Proof. exact (readReply_good (S (length inp)) inp ltac:(lia)). Qed.
(** The panics, on lines a server may send *)
Example huge_bulk_panics : read_reply (B "$999999999999999" ++ CRLF) = Panic MakeSliceLen.
Proof. vm_compute. reflexivity. Qed.
Example huge_array_panics : read_reply (B "*9223372036854775807" ++ CRLF) = Panic MakeSliceLen.
Proof. vm_compute. reflexivity. Qed.

(** C28: Reading a reply written by the protocol gives back the reply and leaves the rest of
    the input, for nested arrays, nulls, binary bulk strings and all 64-bit integers, as long
    as slices of the lengths can be made (2^48 bytes). *)
Theorem read_reply_roundtrip r rest :
  reply_ok r → read_reply (resp r ++ rest) = Ret (ReadOk r rest).
Proof. apply read_reply_resp. Qed.

Lemma read_reply_roundtrip_witness :
  let r := RArr [RBulk [0; 10; 255]; RInt (- 2 ^ 63); RNil; RArr [RSimple (B "OK")]] in
  read_reply (resp r ++ B "+next") = Ret (ReadOk r (B "+next")).
Proof.
  cbn zeta. apply read_reply_roundtrip. cbn [reply_ok foldr].
  repeat split; try (vm_compute; congruence). apply (bool_decide_unpack _). vm_compute. exact I.
Defined.

(** ** Commands *)

(** The text of an argument, as the package documents the conversions. *)
Definition arg_text (a : arg) : bytes :=
  match a with
  | AString s | ABytes s | AFloat64 s | AOther s => s
  | AInt n | AInt64 n => Itoa n
  | ABool b => if b then B "1" else B "0"
  | ANil => []
  | AArgument inner _ =>
      match inner with
      | AString s | ABytes s | AFloat64 s | AOther s | AArgument _ s => s
      | AInt n | AInt64 n => Itoa n
      | ABool b => if b then B "1" else B "0"
      | ANil => []
      end
  end.

Lemma digits_rev_fuel f g n :
  0 ≤ n → n < 10 ^ Z.of_nat f → n < 10 ^ Z.of_nat g → digits_rev f n = digits_rev g n ∨ f = 0%nat ∨ g = 0%nat.
Proof.
  revert g n. induction f as [|f IH]; intros g n H0 Hf Hg; [auto|].
  destruct g as [|g]; [auto|]. left. cbn [digits_rev]. f_equal. bool_case; [done|].
  rewrite Nat2Z.inj_succ, Z.pow_succ_r in Hf, Hg by lia.
  destruct (IH g (n / 10)) as [?|[->| ->]]; try done; try zdiv; apply Z.div_lt_upper_bound; lia.
Qed.

Lemma writeLen_Itoa prefix n : 0 ≤ n < 2 ^ 63 → writeLen prefix n = resp_line prefix (Itoa n).
Proof.
  intros Hn. unfold writeLen, resp_line, Itoa. replace (n <? 0) with false by lia.
  assert (2 ^ 63 < 10 ^ Z.of_nat 29 ∧ 2 ^ 63 < 10 ^ Z.of_nat 20) as [H29 H20] by by vm_compute.
  destruct (digits_rev_fuel 29 20 n (proj1 Hn) (Z.lt_trans _ _ _ (proj2 Hn) H29)
    (Z.lt_trans _ _ _ (proj2 Hn) H20)) as [E|[E|E]]; [by rewrite E|discriminate..].
Qed.

Lemma writeString_resp s : len s < 2 ^ 63 → writeString s = resp (RBulk s).
Proof.
  intros Hs. unfold writeString. cbn [resp]. rewrite writeLen_Itoa; [done|].
  pose proof (len_nonneg s). lia.
Qed.

Lemma writeArg_resp a : len (arg_text a) < 2 ^ 63 → writeArg a true = resp (RBulk (arg_text a)).
Proof.
  intros Hl. destruct a as [s|s|n|n|s|[]| |[s|s|n|n|s|[]| |? s|s] ?|s];
    cbn [arg_text writeArg] in *; by apply writeString_resp.
Qed.

(** A written command reads back as the array of its name and of the texts of its
    arguments. *)
Theorem writeCommand_roundtrip cmd args rest :
  len cmd ≤ maxAlloc → 16 * (1 + len args) ≤ maxAlloc → Forall (fun a => len (arg_text a) ≤ maxAlloc) args →
  read_reply (writeCommand cmd args ++ rest) =
  Ret (ReadOk (RArr (RBulk cmd :: (RBulk ∘ arg_text <$> args))) rest).
Proof.
  intros Hc Hl Ha. set (r := RArr _). assert (writeCommand cmd args = resp r) as ->.
  - unfold writeCommand, r. cbn [resp]. pose proof (len_nonneg args).
    rewrite writeLen_Itoa, writeString_resp by (unfold maxAlloc in *; lia).
    replace (len (RBulk cmd :: (RBulk ∘ arg_text <$> args))) with (1 + len args)
      by (unfold len; simpl; rewrite length_fmap; lia).
    f_equal. cbn [mbind list_bind]. f_equal. clear -Ha.
    induction Ha as [|a args Ha Hargs IH]; [done|]. csimpl. by rewrite IH, writeArg_resp by (unfold maxAlloc in *; lia).
  - apply read_reply_resp. unfold r. cbn [reply_ok foldr].
    split; [unfold len in *; simpl; rewrite length_fmap; lia|]. split; [done|].
    clear -Ha. induction Ha; csimpl; done.
Qed.

Lemma writeCommand_roundtrip_witness :
  read_reply (writeCommand (B "RPUSH") [AString (B "q"); AInt (-7); ABool true] ++ []) =
  Ret (ReadOk (RArr [RBulk (B "RPUSH"); RBulk (B "q"); RBulk (B "-7"); RBulk (B "1")]) []).
Proof.
  apply (writeCommand_roundtrip (B "RPUSH") [AString (B "q"); AInt (-7); ABool true] []);
    [vm_compute; discriminate..|].
  apply (bool_decide_unpack _). vm_compute. exact I.
Defined.

(** ** Pipelining *)

(** The first error reply of a list. *)
Definition first_error (rs : list reply) : option rerr :=
  head (omap (fun r => match r with RErr m => Some (RedisError m) | _ => None end) rs).

Lemma read_one_resp r c rest :
  reply_ok r → input c = resp r ++ rest → read_one c = Ret (inl r, set_input rest c).
Proof. intros Hr Hi. unfold read_one. by rewrite Hi, read_reply_resp. Qed.

Lemma do_loop_resp rs last err c rest :
  Forall reply_ok rs → input c = (rs ≫= resp) ++ rest →
  do_loop (length rs) last err c =
  Ret ((List.last rs last, match err with Some e => Some e | None => first_error rs end), set_input rest c).
Proof.
  intros Hrs. revert last err c. induction Hrs as [|r rs Hr Hrs IH]; intros last err c Hi.
  - cbn [do_loop length List.last]. simpl in Hi. subst rest. destruct c; by destruct err.
  - csimpl in Hi. rewrite <- app_assoc in Hi. cbn [do_loop length].
    rewrite (read_one_resp r c _ Hr Hi). cbn [gbind]. rewrite IH by done.
    do 3 f_equal.
    + destruct rs as [|r' rs]; [done|]. cbn [List.last]. clear. revert r'.
      induction rs; intros; [done|]. apply IHrs.
    + destruct err; [done|]. unfold first_error. csimpl. by destruct r.
Qed.

(** C30: Do on a connection with pending replies flushes the command, consumes exactly the
    pending replies and its own, returns its own reply with the first error reply among them,
    and leaves nothing pending. *)
Theorem Do_pipelined cmd args c rs r rest :
  cmd ≠ [] → broken c = false → pending c = len rs → Forall reply_ok rs → reply_ok r →
  input c = (rs ≫= resp) ++ resp r ++ rest →
  Do cmd args c =
  Ret ((r, first_error (rs ++ [r])),
   mk_conn 0 (c_err c) [] (wire c ++ buffered c ++ writeCommand cmd args) rest false).
Proof.
  intros Hc Hb Hp Hrs Hr Hi. unfold Do. apply beq_neq in Hc. rewrite Hc. cbn [andb].
  unfold Flush. cbn [broken buffer set_pending]. rewrite Hb, Hp. unfold len. rewrite Nat2Z.id.
  replace (S (length rs)) with (length (rs ++ [r])) by (rewrite length_app; simpl; lia).
  rewrite (do_loop_resp _ _ _ _ rest).
  - rewrite List.last_last. done.
  - by apply Forall_app; auto.
  - cbn [input]. unfold buffer, set_pending. cbn [input].
    rewrite Hi, bind_app. csimpl. by rewrite app_nil_r, <- app_assoc.
Qed.

Lemma Do_pipelined_witness :
  let c := mk_conn 1 None [] (B "sent") (resp (RErr (B "ERR x")) ++ resp (RInt 3) ++ []) false in
  Do (B "LLEN") [AString (B "q")] c =
  Ret ((RInt 3, Some (RedisError (B "ERR x"))),
   mk_conn 0 None [] (B "sent" ++ [] ++ writeCommand (B "LLEN") [AString (B "q")]) [] false).
Proof.
  cbn zeta.
  apply (Do_pipelined (B "LLEN") [AString (B "q")]
    (mk_conn 1 None [] (B "sent") (resp (RErr (B "ERR x")) ++ resp (RInt 3) ++ []) false)
    [RErr (B "ERR x")] (RInt 3) []); try reflexivity.
  - discriminate.
  - apply Forall_singleton. apply (bool_decide_unpack _). vm_compute. exact I.
  - unfold reply_ok, int_ok. lia.
Defined.
