(* ===== verification/RedisPool.v ===== *)
(** * [redis/pool.go]: the connection pool

    Goroutines share a pool of connections.  The code holds [p.mu] except while it dials,
    tests or closes a connection and while it waits for the channel that limits [Get]; so a
    step of the model is what a goroutine does between two such points, and any
    interleaving of steps is a run.  A [poolConn] is a cell of a heap, its address stands for
    the connection dialed for it; the idle list is the doubly-linked list of the code.  What
    the environment decides (the clock, the outcome of [Dial] and [TestOnBorrow], a context
    that ends, which call the application makes) is an argument of the step. *)

From S2P Require Import Prelude GoStrings RedisReply RedisConn.

(** ** The idle list *)

(** [type poolConn struct], without the connection [c] *)
Record poolConn := mk_pc { pc_t : Z; pc_created : Z; pc_next : option nat; pc_prev : option nat }.
Abbreviation heap := (list poolConn).

(** Loads and stores through a pointer *)
Definition load (h : heap) (p : option nat) : Go poolConn :=
  match p ≫= (h !!.) with Some c => Ret c | None => Panic NilDereference end.
Definition store (p : option nat) (f : poolConn → poolConn) (h : heap) : Go heap :=
  match p with
  | Some i => if h !! i is Some c then Ret (<[i := f c]> h) else Panic NilDereference
  | None => Panic NilDereference
  end.
Definition set_next (v : option nat) (c : poolConn) : poolConn := mk_pc (pc_t c) (pc_created c) v (pc_prev c).
Definition set_prev (v : option nat) (c : poolConn) : poolConn := mk_pc (pc_t c) (pc_created c) (pc_next c) v.
Definition set_t (t : Z) (c : poolConn) : poolConn := mk_pc t (pc_created c) (pc_next c) (pc_prev c).

(** [type idleList struct] *)
Record idleList := mk_idle { count : Z; front : option nat; back : option nat }.

(** [func (l *idleList) pushFront(pc *poolConn)] *)
Definition pushFront (pc : option nat) (l : idleList) (h : heap) : Go (idleList * heap) :=
  let* h := store pc (set_next (front l)) h in
  let* h := store pc (set_prev None) h in
  let* (b, h) :=
    if count l =? 0 then Ret (pc, h)
    else let* h := store (front l) (set_prev pc) h in Ret (back l, h) in
  Ret (mk_idle (count l + 1) pc b, h).

(** [func (l *idleList) popFront()] *)
Definition popFront (l : idleList) (h : heap) : Go (idleList * heap) :=
  let pc := front l in
  let n := count l - 1 in
  let* (l, h) :=
    if n =? 0 then Ret (mk_idle n None None, h)
    else
      let* c := load h pc in
      let* h := store (pc_next c) (set_prev None) h in
      let* c := load h pc in
      Ret (mk_idle n (pc_next c) (back l), h) in
  let* h := store pc (set_next None) h in
  let* h := store pc (set_prev None) h in
  Ret (l, h).

(** [func (l *idleList) popBack()] *)
Definition popBack (l : idleList) (h : heap) : Go (idleList * heap) :=
  let pc := back l in
  let n := count l - 1 in
  let* (l, h) :=
    if n =? 0 then Ret (mk_idle n None None, h)
    else
      let* c := load h pc in
      let* h := store (pc_prev c) (set_next None) h in
      let* c := load h pc in
      Ret (mk_idle n (front l) (pc_prev c), h) in
  let* h := store pc (set_next None) h in
  let* h := store pc (set_prev None) h in
  Ret (l, h).

(** ** The pool *)

(** The options of [type Pool struct]; [TestOnBorrow] says whether the function is set. *)
Record pool_cfg := mk_pool_cfg {
  TestOnBorrow : bool; MaxIdle : Z; MaxActive : Z; IdleTimeout : Z; Wait : bool; MaxConnLifetime : Z }.

(** A channel of capacity [MaxActive] whose elements carry nothing *)
Record chan := mk_chan { tokens : Z; ch_closed : bool }.

(** The fields [p.mu] protects; [p_log] records the connections closed so far. *)
Record pool := mk_pool {
  p_heap : heap; p_idle : idleList; p_closed : bool; p_active : Z; p_ch : option chan;
  p_waitCount : Z; p_waitDuration : Z; p_log : list nat }.

Definition set_list (l : idleList * heap) (p : pool) : pool :=
  mk_pool l.2 l.1 (p_closed p) (p_active p) (p_ch p) (p_waitCount p) (p_waitDuration p) (p_log p).
Definition set_ch (c : option chan) (p : pool) : pool :=
  mk_pool (p_heap p) (p_idle p) (p_closed p) (p_active p) c (p_waitCount p) (p_waitDuration p) (p_log p).
Definition add_active (k : Z) (p : pool) : pool :=
  mk_pool (p_heap p) (p_idle p) (p_closed p) (p_active p + k) (p_ch p) (p_waitCount p) (p_waitDuration p) (p_log p).
Definition count_wait (waited : Z) (p : pool) : pool :=
  mk_pool (p_heap p) (p_idle p) (p_closed p) (p_active p) (p_ch p) (p_waitCount p + 1) (p_waitDuration p + waited) (p_log p).
(** [pc.c.Close()] *)
Definition close_conn (pc : nat) (p : pool) : pool :=
  mk_pool (p_heap p) (p_idle p) (p_closed p) (p_active p) (p_ch p) (p_waitCount p) (p_waitDuration p) (pc :: p_log p).
(** [&poolConn{c: c, created: nowFunc()}] *)
Definition new_conn (now : Z) (p : pool) : nat * pool :=
  (length (p_heap p), set_list (p_idle p, p_heap p ++ [mk_pc 0 now None None]) p).

(** [p.ch <- struct{}{}]: [None] when the channel is full, where the goroutine blocks with
    the lock held *)
Definition send (c : pool_cfg) (ch : chan) : Go (option chan) :=
  if ch_closed ch then Panic ExplicitPanic
  else if tokens ch <? MaxActive c then Ret (Some (mk_chan (tokens ch + 1) false))
  else Ret None.
Definition close_chan (ch : chan) : Go chan :=
  if ch_closed ch then Panic ExplicitPanic else Ret (mk_chan (tokens ch) true).

(** What one call of [get] and the [put] after it, or one call of [Close], is about to do *)
Inductive pool_err := ErrGetOnClosed | ErrPoolExhausted | ErrDial | ErrContext.
Inductive session :=
| Ready
| Failed (e : pool_err)               (* [get] returned an error *)
| Counting (ctx : bool)               (* [wait := len(p.ch) == 0] *)
| AwaitToken (ctx wait : bool)        (* [<-p.ch] *)
| Entering (waited : Z)               (* [p.mu.Lock()] of [get] *)
| Pruning (i n : Z) (pc : nat)        (* closing a stale connection *)
| Borrowing (pc : nat)                (* testing an idle connection *)
| Dialing
| Using (pc : nat)                    (* [get] returned a connection *)
| Discarding (pc : nat)               (* [put] closing a connection *)
| PoolClosing (pc : option nat).      (* the loop of [Close] *)

(** What the environment decides in a step: the call of the application ([call_close] or
    [Get], with a context or without; [force] for [put]), the clock, the outcomes. *)
Record env := mk_env {
  now : Z; test_ok : bool; dial_ok : bool; ctx_done : bool; elapsed : Z;
  call_close : bool; with_ctx : bool; force : bool }.

Section operations.
Context (c : pool_cfg).

Definition wait_mode : bool := Wait c && (0 <? MaxActive c).

(** [func (p *Pool) lazyInit()]: [chInitialized] is set together with [ch]. *)
Definition lazyInit (p : pool) : pool :=
  match p_ch p with
  | Some _ => p
  | None => set_ch (Some (if p_closed p then mk_chan 0 true else mk_chan (MaxActive c) false)) p
  end.

(** [if p.ch != nil && !p.closed { p.ch <- struct{}{} }] *)
Definition release (p : pool) : Go (option pool) :=
  match p_ch p with
  | Some ch =>
      if p_closed p then Ret (Some p)
      else let* r := send c ch in Ret ((fun ch => set_ch (Some ch) p) <$> r)
  | None => Ret (Some p)
  end.

(** [get] from the loop over the idle connections to the next [p.mu.Unlock()] *)
Definition take_idle (p : pool) : Go (session * pool) :=
  match front (p_idle p) with
  | Some pc => let* l := popFront (p_idle p) (p_heap p) in Ret (Borrowing pc, set_list l p)
  | None =>
      if p_closed p then Ret (Failed ErrGetOnClosed, p)
      else if negb (Wait c) && (0 <? MaxActive c) && (MaxActive c <=? p_active p)
      then Ret (Failed ErrPoolExhausted, p)
      else Ret (Dialing, add_active 1 p)
  end.

(** [get] from an iteration of the pruning loop to the next [p.mu.Unlock()] *)
Definition prune (now i n : Z) (p : pool) : Go (session * pool) :=
  if (0 <? IdleTimeout c) && (i <? n) then
    match back (p_idle p) with
    | Some pc =>
        let* b := load (p_heap p) (Some pc) in
        if pc_t b + IdleTimeout c <? now then
          let* l := popBack (p_idle p) (p_heap p) in Ret (Pruning (i + 1) n pc, set_list l p)
        else take_idle p
    | None => take_idle p
    end
  else take_idle p.

(** The condition under which [get] returns an idle connection *)
Definition fit (e : env) (b : poolConn) : bool :=
  (negb (TestOnBorrow c) || test_ok e) &&
  ((MaxConnLifetime c =? 0) || (now e - pc_created b <? MaxConnLifetime c)).

(** The locked part of [func (p *Pool) Close() error] *)
Definition pool_Close (p : pool) : Go (session * pool) :=
  if p_closed p then Ret (Ready, p)
  else
    let* ch := match p_ch p with
               | Some ch => let* ch := close_chan ch in Ret (Some ch)
               | None => Ret None
               end in
    Ret (PoolClosing (front (p_idle p)),
         mk_pool (p_heap p) (mk_idle 0 None None) true (p_active p - count (p_idle p)) ch
           (p_waitCount p) (p_waitDuration p) (p_log p)).

(** [func (p *Pool) put(pc *poolConn, forceClose bool) error], up to the first
    [p.mu.Unlock()] *)
Definition put (e : env) (pc : nat) (p : pool) : Go (option (session * pool)) :=
  let* (pc, p) :=
    if negb (p_closed p) && negb (force e) then
      let* h := store (Some pc) (set_t (now e)) (p_heap p) in
      let* l := pushFront (Some pc) (p_idle p) h in
      let p := set_list l p in
      if MaxIdle c <? count (p_idle p) then
        let pc := back (p_idle p) in
        let* l := popBack (p_idle p) (p_heap p) in Ret (pc, set_list l p)
      else Ret (None, p)
    else Ret (Some pc, p) in
  match pc with
  | Some pc => Ret (Some (Discarding pc, p))
  | None => let* r := release p in Ret ((fun p => (Ready, p)) <$> r)
  end.

(** One step of a goroutine; [None] where it blocks *)
Definition step (e : env) (s : session) (p : pool) : Go (option (session * pool)) :=
  match s with
  | Ready | Failed _ =>
      if call_close e then let* r := pool_Close p in Ret (Some r)
      else if wait_mode then Ret (Some (Counting (with_ctx e), lazyInit p))
      else Ret (Some (Entering 0, p))
  | Counting ctx =>
      Ret (Some (AwaitToken ctx (match p_ch p with Some ch => tokens ch =? 0 | None => true end), p))
  | AwaitToken ctx wait =>
      if ctx && ctx_done e then Ret (Some (Failed ErrContext, p))
      else
        let s := Entering (if wait then elapsed e else 0) in
        match p_ch p with
        | Some ch =>
            if 0 <? tokens ch then Ret (Some (s, set_ch (Some (mk_chan (tokens ch - 1) (ch_closed ch))) p))
            else if ch_closed ch then Ret (Some (s, p)) else Ret None
        | None => Ret None
        end
  | Entering waited =>
      let p := if 0 <? waited then count_wait waited p else p in
      let* r := prune (now e) 0 (count (p_idle p)) p in Ret (Some r)
  | Pruning i n pc => let* r := prune (now e) i n (add_active (-1) (close_conn pc p)) in Ret (Some r)
  | Borrowing pc =>
      let* b := load (p_heap p) (Some pc) in
      if fit e b then Ret (Some (Using pc, p))
      else let* r := take_idle (add_active (-1) (close_conn pc p)) in Ret (Some r)
  | Dialing =>
      if dial_ok e then let (pc, p) := new_conn (now e) p in Ret (Some (Using pc, p))
      else let* r := release (add_active (-1) p) in Ret ((fun p => (Failed ErrDial, p)) <$> r)
  | Using pc => put e pc p
  | Discarding pc =>
      let* r := release (add_active (-1) (close_conn pc p)) in Ret ((fun p => (Ready, p)) <$> r)
  | PoolClosing None => Ret (Some (Ready, p))
  | PoolClosing (Some pc) =>
      let* b := load (p_heap p) (Some pc) in Ret (Some (PoolClosing (pc_next b), close_conn pc p))
  end.

(** ** Runs *)

(** Goroutines over one pool *)
Record system := mk_sys { s_pool : pool; s_sessions : list session }.

Definition sys_step (e : env) (i : nat) (s : system) : Go (option system) :=
  match s_sessions s !! i with
  | Some t =>
      let* r := step e t (s_pool s) in
      Ret ((fun '(t', p') => mk_sys p' (<[i := t']> (s_sessions s))) <$> r)
  | None => Ret None
  end.

(** A fresh pool: the zero values of its fields *)
Definition pool_init (k : nat) : system :=
  mk_sys (mk_pool [] (mk_idle 0 None None) false 0 None 0 0 []) (replicate k Ready).

Inductive reachable (k : nat) : system → Prop :=
| reachable_init : reachable k (pool_init k)
| reachable_step e i s s' : reachable k s → sys_step e i s = Ret (Some s') → reachable k s'.

(** A run of given steps *)
Fixpoint run (l : list (nat * env)) (s : system) : Go (option system) :=
  match l with
  | [] => Ret (Some s)
  | (i, e) :: l =>
      let* r := sys_step e i s in
      match r with Some s => run l s | None => Ret None end
  end.
End operations.

(** ** Statistics *)

(** [func (p *Pool) Stats() PoolStats], [ActiveCount], [IdleCount] *)
Record PoolStats := mk_stats { st_ActiveCount : Z; st_IdleCount : Z; st_WaitCount : Z; st_WaitDuration : Z }.
Definition Stats (p : pool) : PoolStats :=
  mk_stats (p_active p) (count (p_idle p)) (p_waitCount p) (p_waitDuration p).
Definition ActiveCount (p : pool) : Z := p_active p.
Definition IdleCount (p : pool) : Z := count (p_idle p).
