(* ===== verification/RedisIdleProps.v ===== *)
(** * [redis/pool.go]: the idle list is a double-ended queue

    [is_idle h l ids]: from the list head [l], the cells of [h] link the addresses [ids] in
    both directions.  The three operations of the list are those of a sequence. *)

From S2P Require Import Prelude RedisPool.

(** The cell at position [k] of [ids] and its two links *)
Definition linked (h : heap) (ids : list nat) (k : nat) (pc : nat) : Prop :=
  ∃ c, h !! pc = Some c ∧ pc_next c = ids !! S k ∧
       pc_prev c = match k with O => None | S j => ids !! j end.

Record is_idle (h : heap) (l : idleList) (ids : list nat) : Prop := {
  idle_count : count l = len ids;
  idle_front : front l = head ids;
  idle_back : back l = last ids;
  idle_nodup : NoDup ids;
  idle_cells k pc : ids !! k = Some pc → linked h ids k pc }.

(** Nothing but the addresses in [A] changed, and no cell was freed. *)
Definition touches (A : list nat) (h h' : heap) : Prop :=
  length h' = length h ∧ ∀ x, x ∉ A → h' !! x = h !! x.

Lemma is_idle_bound h l ids pc : is_idle h l ids → pc ∈ ids → is_Some (h !! pc).
Proof. intros H [k Hk]%list_elem_of_lookup. destruct (idle_cells _ _ _ H k pc Hk) as (c & -> & _). by eexists. Qed.

Lemma is_idle_nil h : is_idle h (mk_idle 0 None None) [].
Proof. split; try done. constructor. Qed.

Lemma store_wp p f h c Q : h !! p = Some c → Q (<[p := f c]> h) → wp (store (Some p) f h) Q.
Proof. unfold store. by intros ->. Qed.
Lemma load_wp p h c Q : h !! p = Some c → Q c → wp (load h (Some p)) Q.
Proof. unfold load. simpl. by intros ->. Qed.

Lemma is_idle_ext h h' l ids : (∀ x, x ∈ ids → h' !! x = h !! x) → is_idle h l ids → is_idle h' l ids.
Proof.
  intros E [Hc Hf Hb Hn Hl]. split; try done. intros k pc Hk.
  destruct (Hl k pc Hk) as (c & Hc' & ?). exists c. rewrite E; [done|by eapply list_elem_of_lookup_2].
Qed.

(** Lookups in an updated heap, by cases on the addresses *)
Ltac heap_lookup :=
  repeat first
    [ rewrite list_lookup_insert_ne by congruence
    | rewrite list_lookup_insert_eq by (try rewrite !length_insert; eauto using lookup_lt_Some) ].

Lemma touches_insert A h p c : p ∈ A → touches A h (<[p := c]> h).
Proof.
  intros Hp. split; [apply length_insert|]. intros x Hx. rewrite list_lookup_insert_ne; set_solver.
Qed.
Lemma touches_trans A h1 h2 h3 : touches A h1 h2 → touches A h2 h3 → touches A h1 h3.
Proof. intros [L1 E1] [L2 E2]. split; [congruence|]. intros x Hx. by rewrite E2, E1. Qed.
Lemma touches_mono A A' h h' : A ⊆ A' → touches A h h' → touches A' h h'.
Proof. intros HA [L E]. split; [done|]. intros x Hx. apply E. set_solver. Qed.
Lemma touches_refl A h : touches A h h.
Proof. done. Qed.

Lemma later_ne (q : nat) ids k p : NoDup (q :: ids) → ids !! k = Some p → p ≠ q.
Proof. intros [Hq _]%NoDup_cons Hk ->. by eapply Hq, list_elem_of_lookup_2. Qed.

Lemma pushFront_idle h l ids pc :
  is_idle h l ids → pc ∉ ids → is_Some (h !! pc) →
  wp (pushFront (Some pc) l h) (fun r => is_idle r.2 r.1 (pc :: ids) ∧ touches (pc :: ids) h r.2).
Proof.
  intros Hi Hpc [c Hc]. pose proof Hi as [Hn Hf Hb Hnd Hl]. unfold pushFront.
  apply wp_bind. eapply store_wp; [done|]. apply wp_bind. eapply store_wp; [heap_lookup; done|].
  rewrite list_insert_insert_eq. set (h1 := <[pc := _]> h).
  assert (Hlen : length h1 = length h) by apply length_insert.
  assert (T1 : touches (pc :: ids) h h1) by (apply touches_insert; set_solver).
  apply wp_bind. destruct ids as [|q ids].
  - rewrite Hn. simpl. apply wp_ret. simpl.
    split; [|done]. split; simpl; [done|done|done|apply NoDup_singleton|].
    intros [|k] p; [|done]. intros [= <-]. unfold linked. exists (set_prev None (set_next (front l) c)).
    split; [|by rewrite Hf]. unfold h1. heap_lookup. done.
  - rewrite Hn. replace (len (q :: ids) =? 0) with false by (symmetry; apply Z.eqb_neq; rewrite len_cons; pose proof (len_nonneg ids); lia).
    destruct (Hl 0%nat q eq_refl) as (cq & Hq & Hqn & Hqp). rewrite Hf. simpl.
    assert (q ≠ pc) by set_solver.
    assert (Hq1 : h1 !! q = Some cq) by (unfold h1; by heap_lookup).
    apply wp_bind. eapply store_wp; [done|]. apply wp_ret. simpl.
    split; [|by eapply touches_trans, touches_insert; [|set_solver]].
    split; simpl; [by rewrite (len_cons pc)|done| |by constructor|].
    + by rewrite Hb.
    + intros [|[|k]] p; simpl.
      * intros [= <-]. eexists. split; [heap_lookup; unfold h1; heap_lookup; done|].
        by rewrite ?Hf.
      * intros [= <-]. exists (set_prev (Some pc) cq). split; [heap_lookup; done|]. by split.
      * intros Hk. destruct (Hl (S k) p Hk) as (c' & Hc' & ?).
        assert (p ≠ q) by by eapply later_ne.
        assert (p ≠ pc) by (intros ->; exact (Hpc (list_elem_of_lookup_2 (q :: ids) (S k) _ Hk))).
        exists c'. split; [|done]. unfold h1. by heap_lookup.
Qed.

(** The end of both pops: the links of the popped cell are cut. *)
Lemma unlink_wp (l : idleList) h pc c Q :
  h !! pc = Some c → Q (l, <[pc := set_prev None (set_next None c)]> h) →
  wp (let* h := store (Some pc) (set_next None) h in
      let* h := store (Some pc) (set_prev None) h in Ret (l, h)) Q.
Proof.
  intros Hc HQ. apply wp_bind. eapply store_wp; [done|]. apply wp_bind. eapply store_wp; [heap_lookup; done|].
  by rewrite list_insert_insert_eq.
Qed.

Lemma popFront_idle h l pc ids :
  is_idle h l (pc :: ids) →
  wp (popFront l h) (fun r => is_idle r.2 r.1 ids ∧ touches (pc :: ids) h r.2).
Proof.
  intros Hi. pose proof Hi as [Hn Hf Hb Hnd Hl]. apply NoDup_cons in Hnd as [Hpc Hnd].
  destruct (Hl 0%nat pc eq_refl) as (c & Hc & Hcn & _). simpl in Hcn.
  unfold popFront. rewrite Hn, Hf. simpl. rewrite len_cons.
  replace (len ids + 1 - 1) with (len ids) by lia. apply wp_bind. destruct ids as [|q ids].
  - simpl. apply wp_ret. eapply unlink_wp; [done|]. simpl. split; [apply is_idle_nil|apply touches_insert; set_solver].
  - replace (len (q :: ids) =? 0) with false by (symmetry; apply Z.eqb_neq; rewrite len_cons; pose proof (len_nonneg ids); lia).
    destruct (Hl 1%nat q eq_refl) as (cq & Hq & Hqn & _).
    assert (q ≠ pc) by set_solver.
    apply wp_bind. eapply load_wp; [done|]. rewrite Hcn. simpl. apply wp_bind. eapply store_wp; [done|].
    apply wp_bind. eapply load_wp; [heap_lookup; done|]. rewrite Hcn. apply wp_ret.
    eapply unlink_wp; [heap_lookup; done|]. simpl.
    split; [|eapply touches_trans; apply touches_insert; set_solver].
    split; simpl; [done|done|done|done|].
    intros k p Hk. destruct (Hl (S k) p Hk) as (c' & Hc' & Hn' & Hp').
    assert (p ≠ pc) by (intros ->; apply Hpc; by eapply list_elem_of_lookup_2).
    destruct k as [|k].
    + injection Hk as <-. exists (set_prev None cq). split; [heap_lookup; done|]. by split.
    + assert (p ≠ q) by by eapply later_ne.
      exists c'. split; [by heap_lookup|]. done.
Qed.

Lemma popBack_idle h l pc ids :
  is_idle h l (ids ++ [pc]) →
  wp (popBack l h) (fun r => is_idle r.2 r.1 ids ∧ touches (ids ++ [pc]) h r.2).
Proof.
  intros Hi. pose proof Hi as [Hn Hf Hb Hnd Hl].
  assert (Hpc : pc ∉ ids) by (apply NoDup_app in Hnd as (_ & Hd & _); set_solver).
  assert (Hnd' : NoDup ids) by by apply NoDup_app in Hnd as (? & _).
  destruct (Hl (length ids) pc) as (c & Hc & _ & Hcp); [by rewrite list_lookup_middle|].
  unfold popBack. rewrite Hn, Hb, last_snoc, len_app. change (len [pc]) with 1.
  replace (len ids + 1 - 1) with (len ids) by lia. apply wp_bind.
  destruct ids as [|q ids' _] using rev_ind.
  - simpl. apply wp_ret. eapply unlink_wp; [done|]. simpl. split; [apply is_idle_nil|apply touches_insert; set_solver].
  - replace (len (ids' ++ [q]) =? 0) with false
      by (symmetry; apply Z.eqb_neq; rewrite len_app; change (len [q]) with 1; pose proof (len_nonneg ids'); lia).
    rewrite length_app, Nat.add_1_r in Hcp. cbn iota beta in Hcp.
    rewrite <- (app_assoc ids') in Hcp. simpl in Hcp. rewrite (list_lookup_middle ids' [pc] q) in Hcp by done.
    destruct (Hl (length ids') q) as (cq & Hq & _ & Hqp); [by rewrite <- app_assoc; apply list_lookup_middle|].
    assert (q ≠ pc) by set_solver.
    apply wp_bind. eapply load_wp; [done|]. rewrite Hcp. apply wp_bind. eapply store_wp; [done|].
    apply wp_bind. eapply load_wp; [heap_lookup; done|]. rewrite Hcp. apply wp_ret.
    eapply unlink_wp; [heap_lookup; done|]. simpl.
    split; [|eapply touches_trans; apply touches_insert; set_solver].
    split; simpl; [done| |by rewrite last_snoc|done|].
    + rewrite Hf. by destruct ids'.
    + intros k p Hk. destruct (Hl k p) as (c' & Hc' & Hn' & Hp'); [by apply lookup_app_l_Some|].
      assert (p ≠ pc) by (intros ->; apply Hpc; by eapply list_elem_of_lookup_2).
      destruct (decide (p = q)) as [->|Hpq].
      * assert (k = length ids') as -> by (eapply NoDup_lookup; [done..|]; by rewrite list_lookup_middle).
        exists (set_next None cq). split; [heap_lookup; done|]. simpl. split.
        -- symmetry. apply lookup_ge_None. rewrite length_app. simpl. lia.
        -- rewrite Hqp. destruct (length ids') eqn:E; [done|]. apply lookup_app_l. rewrite length_app. lia.
      * exists c'. split; [by heap_lookup|].
        assert (k < length ids')%nat.
        { pose proof (lookup_lt_Some _ _ _ Hk) as Hlt. rewrite length_app in Hlt. simpl in Hlt.
          destruct (decide (k = length ids')) as [->|]; [|lia]. rewrite list_lookup_middle in Hk by done. congruence. }
        split.
        -- rewrite Hn'. apply lookup_app_l. rewrite length_app. simpl. lia.
        -- rewrite Hp'. destruct k; [done|]. apply lookup_app_l. rewrite length_app. simpl. lia.
Qed.

(** ** Sequences of operations *)

Inductive dq_op := PushFront (pc : nat) | PopFront | PopBack.

(** A deque of addresses: what it holds has no duplicates, and the empty one is not popped. *)
Definition dq_spec (o : dq_op) (ids : list nat) : option (list nat) :=
  match o with
  | PushFront pc => if decide (pc ∈ ids) then None else Some (pc :: ids)
  | PopFront => match ids with [] => None | _ :: ids => Some ids end
  | PopBack => match reverse ids with [] => None | _ :: r => Some (reverse r) end
  end.
Definition dq_code (o : dq_op) (l : idleList * heap) : Go (idleList * heap) :=
  match o with
  | PushFront pc => pushFront (Some pc) l.1 l.2
  | PopFront => popFront l.1 l.2
  | PopBack => popBack l.1 l.2
  end.
Fixpoint dq_specs (os : list dq_op) (ids : list nat) : option (list nat) :=
  match os with [] => Some ids | o :: os => dq_spec o ids ≫= dq_specs os end.
Fixpoint dq_codes (os : list dq_op) (l : idleList * heap) : Go (idleList * heap) :=
  match os with [] => Ret l | o :: os => let* l := dq_code o l in dq_codes os l end.

Lemma dq_code_spec o h l ids ids' :
  is_idle h l ids → dq_spec o ids = Some ids' → (∀ pc, o = PushFront pc → is_Some (h !! pc)) →
  wp (dq_code o (l, h)) (fun r => is_idle r.2 r.1 ids' ∧ length r.2 = length h).
Proof.
  intros Hi Ho Hp. destruct o as [pc| |]; simpl in *.
  - case_decide; simplify_eq. eapply wp_mono; [by apply pushFront_idle; auto|]. intros r [? [? _]]. done.
  - destruct ids as [|pc ids]; simplify_eq. eapply wp_mono; [by apply popFront_idle|]. intros r [? [? _]]. done.
  - destruct (reverse ids) as [|pc r] eqn:E; simplify_eq.
    assert (ids = reverse r ++ [pc]) as -> by (by rewrite <- reverse_cons, <- E, reverse_involutive).
    eapply wp_mono; [by apply popBack_idle|]. intros r' [? [? _]]. done.
Qed.

(** C38: The doubly-linked idle list is a double-ended queue: any sequence of pushes and pops
    that is legal on a sequence of connections runs without a nil dereference and represents
    the resulting sequence, with its ends and its count. *)
Theorem idle_list_refines os h l ids ids' :
  is_idle h l ids → dq_specs os ids = Some ids' → Forall (fun o => ∀ pc, o = PushFront pc → (pc < length h)%nat) os →
  wp (dq_codes os (l, h)) (fun r =>
    is_idle r.2 r.1 ids' ∧ front r.1 = head ids' ∧ back r.1 = last ids' ∧ count r.1 = len ids').
Proof.
  revert h l ids. induction os as [|o os IH]; intros h l ids Hi Hs Hb; simpl in *; simplify_eq.
  - destruct Hi. by repeat split.
  - apply bind_Some in Hs as (ids1 & H1 & Hs). apply Forall_cons in Hb as [Ho Hb].
    apply wp_bind. eapply wp_mono.
    + eapply dq_code_spec; [done..|]. intros pc E. by apply lookup_lt_is_Some_2, Ho.
    + intros [l1 h1] [Hi1 Hl1]. eapply IH; [done..|]. simpl in Hl1. by rewrite Hl1.
Qed.

Definition idle_cell : poolConn := mk_pc 0 0 None None.
Lemma idle_list_refines_witness :
  let os := [PushFront 0%nat; PushFront 1%nat; PushFront 2%nat; PopBack; PushFront 0%nat; PopFront] in
  dq_specs os [] = Some [2; 1]%nat ∧
  wp (dq_codes os (mk_idle 0 None None, replicate 3 idle_cell)) (fun r =>
    is_idle r.2 r.1 [2; 1]%nat ∧ front r.1 = Some 2%nat ∧ back r.1 = Some 1%nat ∧ count r.1 = 2).
Proof.
  simpl. split; [reflexivity|].
  apply (idle_list_refines [PushFront 0%nat; PushFront 1%nat; PushFront 2%nat; PopBack; PushFront 0%nat; PopFront]
    (replicate 3 idle_cell) (mk_idle 0 None None) [] [2; 1]%nat); [apply is_idle_nil|reflexivity|].
  repeat (apply Forall_cons_2; [intros pc E; (discriminate E || (injection E as <-; simpl; lia))|]).
  apply Forall_nil_2.
Defined.
