(* ===== verification/RedisPoolProps.v ===== *)
(** * [redis/pool.go]: the invariant of the pool under any interleaving

    Every connection dialed is idle, owned by exactly one goroutine, or closed; [active]
    counts the idle and the owned ones; the channel of [Wait] holds exactly the tokens no
    goroutine has.  A step of one goroutine sees the others only through the sums of what
    they hold, so the invariant is proved for one goroutine against such a frame and then
    put together. *)

From S2P Require Import Prelude RedisPool RedisIdleProps.

(** ** What a goroutine holds *)

(** The cells of the list [Close] has detached: only the forward links matter. *)
Definition chain (h : heap) (p : option nat) (l : list nat) : Prop :=
  p = head l ∧ ∀ k pc, l !! k = Some pc → ∃ c, h !! pc = Some c ∧ pc_next c = l !! S k.

Definition owns (h : heap) (s : session) (o : list nat) : Prop :=
  match s with
  | Pruning _ _ pc | Borrowing pc | Using pc | Discarding pc => o = [pc] ∧ (pc < length h)%nat
  | PoolClosing p => chain h p o
  | _ => o = []
  end.

(** Connections counted in [active], tokens taken from the channel *)
Definition weight (s : session) : Z :=
  match s with Pruning _ _ _ | Borrowing _ | Dialing | Using _ | Discarding _ => 1 | _ => 0 end.
Definition tok (s : session) : Z := match s with Entering _ => 1 | _ => weight s end.

Definition waiting (s : session) : bool := match s with Counting _ | AwaitToken _ _ => true | _ => false end.
(** Outside [get] and [put] *)
Definition quiet (s : session) : bool := match s with Ready | Failed _ | PoolClosing _ => true | _ => false end.

Lemma weight_tok s : 0 ≤ weight s ≤ tok s.
Proof. destruct s; simpl; lia. Qed.
Lemma quiet_tok s : quiet s = true → tok s = 0.
Proof. by destruct s. Qed.

Lemma chain_ext h h' p l : (∀ x, x ∈ l → h' !! x = h !! x) → chain h p l → chain h' p l.
Proof.
  intros E [Hp Hl]. split; [done|]. intros k pc Hk. rewrite E; [by apply Hl|]. by eapply list_elem_of_lookup_2.
Qed.
Lemma owns_ext h h' s o :
  (∀ x, x ∈ o → h' !! x = h !! x) → (length h ≤ length h')%nat → owns h s o → owns h' s o.
Proof.
  intros E L. destruct s; simpl; try done; try (intros [-> ?]; split; [done|lia]). by apply chain_ext.
Qed.

Section local.
Context (c : pool_cfg).

(** The others: the connections they own, their number, their tokens, whether all of
    them are quiet *)
Context (R : list nat) (W T : Z) (Q : Prop).
Context (HW : 0 ≤ W ≤ T) (HQ : Q → T = 0).

Definition chan_inv (p : pool) (s : session) : Prop :=
  if wait_mode c then
    match p_ch p with
    | None => quiet s = true ∧ Q
    | Some ch => ch_closed ch = p_closed p ∧ 0 ≤ tokens ch ∧
                 (p_closed p = false → tokens ch + tok s + T = MaxActive c)
    end
  else p_ch p = None ∧ waiting s = false.

Record linv (p : pool) (s : session) (ids o : list nat) : Prop := {
  l_idle : is_idle (p_heap p) (p_idle p) ids;
  l_own : owns (p_heap p) s o;
  l_perm : ids ++ o ++ R ++ p_log p ≡ₚ seq 0 (length (p_heap p));
  l_active : p_active p = len ids + weight s + W;
  l_maxidle : len ids ≤ Z.max 0 (MaxIdle c);
  l_maxactive : 0 < MaxActive c → p_active p ≤ MaxActive c;
  l_closed : p_closed p = true → ids = [];
  l_chan : chan_inv p s }.

(** The heap of the others is left alone, and a closed pool stays closed. *)
Definition frame (p p' : pool) : Prop :=
  (length (p_heap p) ≤ length (p_heap p'))%nat ∧ (∀ x, x ∈ R → p_heap p' !! x = p_heap p !! x) ∧
  (p_ch p' = None → p_ch p = None).

Definition after (p : pool) (r : session * pool) : Prop :=
  frame p r.2 ∧ ∃ ids o, linv r.2 r.1 ids o.

Lemma after_intro p s' p' ids o : frame p p' → linv p' s' ids o → after p (s', p').
Proof. intros F H. split; [done|]. by exists ids, o. Qed.
Lemma frame_refl p : frame p p.
Proof. by split. Qed.
Lemma frame_trans p1 p2 p3 : frame p1 p2 → frame p2 p3 → frame p1 p3.
Proof.
  intros (L1 & E1 & C1) (L2 & E2 & C2). split; [lia|]. split; [|auto]. intros x Hx. by rewrite E2, E1.
Qed.
Lemma after_trans p p' r : frame p p' → after p' r → after p r.
Proof. intros F [F' H]. split; [by eapply frame_trans|done]. Qed.

Lemma perm_nodup p s ids o : linv p s ids o → NoDup (ids ++ o ++ R ++ p_log p).
Proof. intros H. rewrite (l_perm _ _ _ _ H). apply NoDup_seq. Qed.

(** The idle list and the goroutine's own connections are disjoint from the others'. *)
Lemma frame_set_list p s ids o A l :
  linv p s ids o → A ⊆ ids ++ o → touches A (p_heap p) l.2 → frame p (set_list l p).
Proof.
  intros H HA [L E]. split; [simpl; lia|]. split; [|done]. intros x Hx. simpl. apply E. intros HxA%HA.
  pose proof (perm_nodup _ _ _ _ H) as N. rewrite app_assoc in N. apply NoDup_app in N as (_ & N & _).
  apply (N x HxA). set_solver.
Qed.

(** Giving a connection up: it is closed and no longer counted. *)
Lemma linv_close p s ids pc :
  linv p s ids [pc] → weight s = 1 → linv (add_active (-1) (close_conn pc p)) (Entering 0) ids [].
Proof.
  intros [Hi Ho Hp Ha Hm HM Hc Hch] Hw. split; simpl; try done.
  - rewrite <- Hp. simpl. f_equiv. symmetry. apply Permutation_middle.
  - rewrite Ha, Hw. lia.
  - intros. specialize (HM ltac:(done)). lia.
  - unfold chan_inv in *. simpl. destruct (wait_mode c); [|by destruct Hch].
    destruct (p_ch p); [|destruct s; simpl in *; (lia || by destruct Hch)].
    replace (tok s) with 1 in Hch by (destruct s; simpl in *; lia). done.
Qed.

(** A goroutine that has entered [get] and owns nothing *)
Abbreviation bare p ids := (linv p (Entering 0) ids []).

Lemma take_idle_ok p ids : bare p ids → wp (take_idle c p) (after p).
Proof.
  intros H. pose proof H as [Hi _ Hp Ha Hm HM Hc Hch]. unfold take_idle. rewrite (idle_front _ _ _ Hi).
  destruct ids as [|pc ids]; simpl.
  - destruct (p_closed p) eqn:Hcl; [|case_match eqn:E].
    + apply (after_intro _ _ _ [] []); [done|]. split; try done. unfold chan_inv in *. rewrite Hcl in *.
      destruct (wait_mode c); [|by destruct Hch]. destruct (p_ch p); [|by destruct Hch].
      destruct Hch as (? & ? & _). split; [|split]; simpl in *; congruence || done.
    + apply (after_intro _ _ _ [] []); [done|]. split; try done. unfold chan_inv, wait_mode in *.
      destruct (Wait c); [by rewrite andb_false_l in E|]. by destruct Hch.
    + apply (after_intro _ _ _ [] []); [done|]. split; simpl; try done.
      * rewrite Ha. simpl. lia.
      * intros H0. rewrite Ha. unfold chan_inv, wait_mode in Hch. change (len (@nil nat)) with 0. simpl.
        destruct (Wait c) eqn:HWa; simpl in *.
        -- rewrite (proj2 (Z.ltb_lt _ _) H0) in Hch. destruct (p_ch p) as [ch|]; [|by destruct Hch].
           destruct Hch as (_ & Ht & Hs). specialize (Hs Hcl). lia.
        -- rewrite (proj2 (Z.ltb_lt _ _) H0) in E. simpl in E. apply Z.leb_gt in E.
           rewrite Ha in E. change (len (@nil nat)) with 0 in E. simpl in E. lia.
  - apply wp_bind. eapply wp_mono; [by apply popFront_idle|]. intros [l h] [Hi' Ht]. simpl in *. apply wp_ret.
    apply (after_intro _ _ _ ids [pc]); [eapply frame_set_list; [done| |done]; set_solver|]. split; simpl; try done.
    + split; [done|]. destruct Ht as [-> _].
      assert (pc ∈ seq 0 (length (p_heap p))) as ?%elem_of_seq by (rewrite <- Hp; set_solver). lia.
    + destruct Ht as [-> _]. rewrite <- Hp. simpl. symmetry. apply Permutation_middle.
    + rewrite Ha, len_cons. simpl. lia.
    + rewrite len_cons in Hm. lia.
    + intros ?. by specialize (Hc ltac:(done)).
Qed.

(** The number of idle connections does not grow when the list is taken apart. *)
Lemma bound_of p s ids o pc : linv p s ids o → pc ∈ ids ++ o → (pc < length (p_heap p))%nat.
Proof.
  intros H Hpc. assert (pc ∈ seq 0 (length (p_heap p))) as ?%elem_of_seq; [|lia].
  rewrite <- (l_perm _ _ _ _ H). set_solver.
Qed.

Lemma prune_ok now i n p ids : bare p ids → wp (prune c now i n p) (after p).
Proof.
  intros H. pose proof H as [Hi _ Hp Ha Hm HM Hc Hch]. unfold prune.
  destruct (_ && _); [|by apply take_idle_ok with ids]. rewrite (idle_back _ _ _ Hi).
  destruct ids as [|pc ids' _] using rev_ind; [by apply take_idle_ok with []|]. rewrite last_snoc.
  destruct (lookup_lt_is_Some_2 (p_heap p) pc) as [b Hb]; [eapply bound_of; [done|set_solver]|].
  apply wp_bind. eapply load_wp; [done|]. case_match; [|by apply take_idle_ok with (ids' ++ [pc])].
  apply wp_bind. eapply wp_mono; [by apply popBack_idle|]. intros [l h] [Hi' Ht]. apply wp_ret.
  apply (after_intro _ _ _ ids' [pc]); [eapply frame_set_list; [done| |done]; set_solver|].
  pose proof Ht as [Hl _]. simpl in *. rewrite len_app in *. change (len [pc]) with 1 in *.
  split; simpl; try done.
  - split; [done|]. rewrite Hl. eapply bound_of; [done|set_solver].
  - rewrite Hl, <- Hp. by rewrite <- app_assoc.
  - lia.
  - lia.
  - intros ?%Hc. by destruct ids'.
Qed.

Lemma release_ok p ids s' :
  bare p ids → quiet s' = true → owns (p_heap p) s' [] →
  ∃ p', release c p = Ret (Some p') ∧ frame p p' ∧ linv p' s' ids [].
Proof.
  intros [Hi _ Hp Ha Hm HM Hc Hch] Hq Ho. unfold release, chan_inv in *.
  assert (Ew : weight s' = 0) by (by destruct s'). assert (Et : tok s' = 0) by (by destruct s').
  destruct (wait_mode c) eqn:Hwm.
  - destruct (p_ch p) as [ch|] eqn:Hchan; [|by destruct Hch]. destruct Hch as (Hcc & Ht & Hs).
    destruct (p_closed p) eqn:Hcl.
    + exists p. split; [done|]. split; [apply frame_refl|]. split; rewrite ?Hcl; try done; [by rewrite Ew|].
      unfold chan_inv. rewrite Hwm, Hchan, Hcl. by repeat split.
    + specialize (Hs eq_refl). simpl in Hs. unfold send. rewrite Hcc.
      rewrite (proj2 (Z.ltb_lt _ _)) by lia. eexists. split; [done|]. split; [by split|].
      split; simpl; rewrite ?Hcl; try done; [by rewrite Ew|]. unfold chan_inv. rewrite Hwm. simpl. rewrite Hcl. split; [done|].
      split; [lia|]. intros _. lia.
  - destruct Hch as [Hch _]. rewrite Hch. exists p. split; [done|]. split; [apply frame_refl|].
    split; try done; [by rewrite Ew|]. unfold chan_inv. rewrite Hwm. split; [done|]. by destruct s'.
Qed.

(** What a blocked goroutine waits for *)
Definition blocked (s : session) (p : pool) : Prop :=
  (∃ ctx wait, s = AwaitToken ctx wait) ∧ p_closed p = false ∧ T = MaxActive c.

(** A step does not panic; it leads to a good state, or the goroutine is waiting. *)
Definition step_post (s : session) (p : pool) (r : option (session * pool)) : Prop :=
  match r with Some r => after p r | None => blocked s p end.

Lemma release_step p p0 ids s s' :
  frame p0 p → bare p ids → quiet s' = true → owns (p_heap p) s' [] →
  wp (let* r := release c p in Ret ((fun p => (s', p)) <$> r)) (step_post s p0).
Proof.
  intros F H Hq Ho. destruct (release_ok p ids s' H Hq Ho) as (p' & -> & F' & H').
  eapply after_intro; [by eapply frame_trans|done].
Qed.

(** [put] pushes its connection: the list grows by it. *)
Lemma put_push t p pc ids (Q' : idleList * heap → Prop) :
  linv p (Using pc) ids [pc] →
  (∀ l, is_idle l.2 l.1 (pc :: ids) → touches (pc :: ids) (p_heap p) l.2 → Q' l) →
  wp (store (Some pc) (set_t t) (p_heap p)) (fun h => wp (pushFront (Some pc) (p_idle p) h) Q').
Proof.
  intros H HQ'. pose proof H as [Hi [_ Hb] _ _ _ _ _ _]. destruct (lookup_lt_is_Some_2 _ _ Hb) as [b Hb'].
  assert (Hpc : pc ∉ ids).
  { pose proof (perm_nodup _ _ _ _ H) as N. apply NoDup_app in N as (_ & N & _). intros Hx%N. set_solver. }
  eapply store_wp; [done|]. set (h1 := <[pc := set_t t b]> (p_heap p)).
  assert (T1 : touches [pc] (p_heap p) h1) by (apply touches_insert; set_solver).
  eapply wp_mono.
  - apply pushFront_idle; [|done|].
    + eapply is_idle_ext; [|done]. intros x Hx. destruct T1 as [_ E]. apply E. set_solver.
    + apply lookup_lt_is_Some. unfold h1. by rewrite length_insert.
  - intros l [Hi' T2]. apply HQ'; [done|]. eapply touches_trans; [|done]. eapply touches_mono; [|done]. set_solver.
Qed.

(** The list [put] has pushed to, seen as an idle list with nothing owned *)
Lemma put_kept p pc ids l :
  linv p (Using pc) ids [pc] → p_closed p = false → is_idle l.2 l.1 (pc :: ids) →
  length l.2 = length (p_heap p) → len (pc :: ids) ≤ MaxIdle c → bare (set_list l p) (pc :: ids).
Proof.
  intros [Hi _ Hp Ha Hm HM Hc Hch] Hcl Hi' Hl Hk. split; simpl; try done.
  - rewrite Hl, <- Hp. apply Permutation_middle.
  - rewrite Ha, len_cons. simpl. lia.
  - lia.
  - congruence.
Qed.

(** ... or taken the last one from, to close it *)
Lemma put_dropped p pc ids q rest l :
  linv p (Using pc) ids [pc] → p_closed p = false → pc :: ids = rest ++ [q] → is_idle l.2 l.1 rest →
  length l.2 = length (p_heap p) → linv (set_list l p) (Discarding q) rest [q].
Proof.
  intros H Hcl E Hi' Hl. pose proof H as [Hi _ Hp Ha Hm HM Hc Hch].
  assert (Elen : length ids = length rest).
  { apply (f_equal length) in E. rewrite length_app in E. simpl in E. lia. }
  split; simpl; try done.
  - split; [done|]. rewrite Hl. eapply bound_of; [exact H|].
    assert (q ∈ pc :: ids) by (rewrite E; set_solver). set_solver.
  - rewrite Hl, <- Hp. change (rest ++ q :: R ++ p_log p) with (rest ++ [q] ++ R ++ p_log p).
    rewrite app_assoc, <- E. simpl. apply Permutation_middle.
  - rewrite Ha. unfold len. by rewrite Elen.
  - unfold len in *. by rewrite <- Elen.
  - congruence.
Qed.

Lemma put_ok e p pc ids :
  linv p (Using pc) ids [pc] → wp (put c e pc p) (step_post (Using pc) p).
Proof.
  intros H. unfold put. destruct (p_closed p) eqn:Hcl; simpl; [|destruct (force e); simpl].
  1,2: apply (after_intro _ _ _ ids [pc]); [apply frame_refl|]; by destruct H.
  apply wp_bind, wp_bind. eapply wp_mono; [eapply put_push; [done|]|]; swap 1 2.
  { intros h Hh. apply wp_bind. exact Hh. }
  intros [l h] Hi' T'. simpl in *. pose proof T' as [Hl _].
  assert (F : ∀ l', touches (pc :: ids) (p_heap p) l'.2 → frame p (set_list l' p)).
  { intros l' T''. eapply frame_set_list; [done| |done]. set_solver. }
  case_match eqn:E.
  - apply Z.ltb_lt in E. rewrite (idle_back _ _ _ Hi'). destruct (exists_last (l := pc :: ids)) as (rest & q & Eq); [done|].
    rewrite Eq in Hi' |- *. rewrite last_snoc. apply wp_bind. eapply wp_mono; [by apply popBack_idle|].
    intros [l2 h2] [Hi2 T2]. simpl in *. assert (touches (pc :: ids) (p_heap p) h2).
    { eapply touches_trans; [done|]. by rewrite Eq. }
    apply (after_intro _ _ _ rest [q]); [by apply (F (l2, h2))|].
    eapply (put_dropped p pc ids q rest (l2, h2)); try done. simpl. destruct T2 as [-> _]. done.
  - apply Z.ltb_ge in E. rewrite (idle_count _ _ _ Hi') in E. simpl.
    eapply (release_step _ p (pc :: ids)); [by apply (F (l, h))| |done|done].
    by apply (put_kept p pc ids (l, h)).
Qed.

(** A detached idle list is a chain. *)
Lemma idle_chain h l ids : is_idle h l ids → chain h (front l) ids.
Proof.
  intros H. split; [apply H|]. intros k pc Hk. destruct (idle_cells _ _ _ H k pc Hk) as (b & ? & ? & _). by exists b.
Qed.

Lemma pool_Close_ok p s ids :
  linv p s ids [] → quiet s = true → weight s = 0 → wp (pool_Close p) (after p).
Proof.
  intros [Hi Ho Hp Ha Hm HM Hc Hch] Hq Hw. unfold pool_Close, chan_inv in *.
  destruct (p_closed p) eqn:Hcl.
  { apply (after_intro _ _ _ ids []); [apply frame_refl|]. split; rewrite ?Hcl; try done; [by rewrite Ha, Hw|].
    unfold chan_inv. rewrite Hcl. destruct (wait_mode c); [|by destruct Hch].
    destruct (p_ch p); [|by destruct Hch]. destruct Hch as (? & ? & _). by split_and!. }
  assert (Hgo : ∀ ch, (ch = None → p_ch p = None) → (if wait_mode c then
      match ch with None => Q | Some ch => ch_closed ch = true ∧ 0 ≤ tokens ch end else ch = None) →
    after p (PoolClosing (front (p_idle p)), mk_pool (p_heap p) (mk_idle 0 None None) true
      (p_active p - count (p_idle p)) ch (p_waitCount p) (p_waitDuration p) (p_log p))).
  { intros ch F Hch'. apply (after_intro _ _ _ [] ids); [by split|].
    split; simpl; try done; [apply is_idle_nil|by apply idle_chain| |change (len (@nil nat)) with 0; lia| |].
    - rewrite (idle_count _ _ _ Hi), Ha, Hw. change (len (@nil nat)) with 0. lia.
    - intros H0. specialize (HM H0). rewrite (idle_count _ _ _ Hi). pose proof (len_nonneg ids). lia.
    - unfold chan_inv. simpl. destruct (wait_mode c); [|done]. destruct ch; [|done]. naive_solver. }
  destruct (wait_mode c) eqn:Hwm.
  - destruct (p_ch p) as [ch|] eqn:Hchan; simpl.
    + destruct Hch as (Hcc & Ht & _). unfold close_chan. rewrite Hcc. simpl. apply Hgo; done.
    + destruct Hch. by apply Hgo.
  - destruct Hch as [Hn _]. rewrite Hn. simpl. by apply Hgo.
Qed.

(** A step within [get] or [put] that only changes the session *)
Lemma linv_session p s s' ids o :
  linv p s ids o → owns (p_heap p) s' o → weight s' = weight s → tok s' = tok s →
  (quiet s = true → quiet s' = true) → (waiting s = false → waiting s' = false) → linv p s' ids o.
Proof.
  intros [Hi Ho Hp Ha Hm HM Hc Hch] Ho' Hw Ht Hq Hwt. split; try done; [by rewrite Hw|].
  unfold chan_inv in *. destruct (wait_mode c); [|naive_solver].
  destruct (p_ch p); [by rewrite Ht|naive_solver].
Qed.

Lemma await_ok e ctx wait p ids :
  linv p (AwaitToken ctx wait) ids [] →
  wp (step c e (AwaitToken ctx wait) p) (step_post (AwaitToken ctx wait) p).
Proof.
  intros H. pose proof H as [Hi Ho Hp Ha Hm HM Hc Hch]. unfold chan_inv in Hch. simpl.
  destruct (ctx && ctx_done e).
  { apply (after_intro _ _ _ ids []); [apply frame_refl|]. split; try done.
    unfold chan_inv. destruct (wait_mode c); [|by destruct Hch]. destruct (p_ch p); [done|by destruct Hch]. }
  destruct (wait_mode c) eqn:Hwm; [|by destruct Hch].
  destruct (p_ch p) as [ch|] eqn:Hchan; [|by destruct Hch]. destruct Hch as (Hcc & Ht & Hs). simpl in Hs.
  destruct (0 <? tokens ch) eqn:E; [apply Z.ltb_lt in E|apply Z.ltb_ge in E; destruct (ch_closed ch) eqn:Hcl].
  - apply (after_intro _ _ _ ids []); [by split|]. split; simpl; try done.
    unfold chan_inv. rewrite Hwm. simpl. split; [done|]. split; [lia|]. intros Hx. specialize (Hs Hx). lia.
  - apply (after_intro _ _ _ ids []); [apply frame_refl|]. split; simpl; try done.
    unfold chan_inv. rewrite Hwm, Hchan, Hcl, <- Hcc. done.
  - split; [by eexists _, _|]. split; [done|]. specialize (Hs ltac:(done)). lia.
Qed.

Lemma lazyInit_ok p s ids ctx :
  linv p s ids [] → quiet s = true → wait_mode c = true →
  frame p (lazyInit c p) ∧ linv (lazyInit c p) (Counting ctx) ids [].
Proof.
  intros [Hi Ho Hp Ha Hm HM Hc Hch] Hq Hwm. unfold chan_inv in Hch. rewrite Hwm in Hch.
  assert (Hw : weight s = 0) by (by destruct s). assert (Ht : tok s = 0) by (by destruct s).
  rewrite Hw in Ha. unfold lazyInit. destruct (p_ch p) as [ch|] eqn:Hchan.
  - split; [by split|]. split; try done. unfold chan_inv. rewrite Hwm, Hchan. by rewrite Ht in Hch.
  - split; [by split|]. split; simpl; try done. unfold chan_inv. rewrite Hwm. simpl. destruct Hch as [_ HQ'%HQ].
    assert (0 < MaxActive c) by (unfold wait_mode in Hwm; apply andb_true_iff in Hwm as [_ ?%Z.ltb_lt]; done).
    destruct (p_closed p); simpl; (split; [done|]; split; [lia|]; intros; (done || lia)).
Qed.

Lemma linv_count_wait p s ids o w : linv p s ids o → linv (count_wait w p) s ids o.
Proof. by intros []. Qed.

Lemma dial_ok_inv p ids t :
  linv p Dialing ids [] → let (pc, p') := new_conn t p in after p (Using pc, p').
Proof.
  intros [Hi Ho Hp Ha Hm HM Hc Hch]. simpl.
  assert (Hold : ∀ x, (x < length (p_heap p))%nat → (p_heap p ++ [mk_pc 0 t None None]) !! x = p_heap p !! x)
    by (intros x Hx; by apply lookup_app_l).
  assert (Hin : ∀ x, x ∈ ids ++ R → (x < length (p_heap p))%nat).
  { intros x Hx. assert (x ∈ seq 0 (length (p_heap p))) as ?%elem_of_seq; [|lia]. rewrite <- Hp. set_solver. }
  apply (after_intro _ _ _ ids [length (p_heap p)]).
  - split; [simpl; rewrite length_app; simpl; lia|]. split; [|done]. intros x Hx. apply Hold, Hin. set_solver.
  - split; simpl; try done.
    + eapply is_idle_ext; [|done]. intros x Hx. apply Hold, Hin. set_solver.
    + split; [done|]. rewrite length_app. simpl. lia.
    + rewrite length_app, seq_app, <- Hp. simpl.
      by rewrite <- Permutation_middle, <- Permutation_cons_append.
Qed.

Lemma close_next h pc o : chain h (Some pc) o →
  ∃ b o', o = pc :: o' ∧ h !! pc = Some b ∧ chain h (pc_next b) o'.
Proof.
  intros [Hh Hl]. destruct o as [|x o']; [done|]. injection Hh as <-.
  destruct (Hl 0%nat pc eq_refl) as (b & Hb & Hn). exists b, o'. split; [done|]. split; [done|]. split.
  - rewrite Hn. by destruct o'.
  - intros k q Hk. apply (Hl (S k) q Hk).
Qed.

Lemma step_ok e s p ids o : linv p s ids o → wp (step c e s p) (step_post s p).
Proof.
  intros H. pose proof (l_own _ _ _ _ H) as Ho.
  assert (Hcl : ∀ pc, o = [pc] → weight s = 1 → bare (add_active (-1) (close_conn pc p)) ids)
    by (intros pc -> Hw; by eapply linv_close).
  destruct s as [| | | | | | | | | |[pc|]]; simpl in Ho;
    match type of Ho with chain _ _ _ => idtac | _ ∧ _ => destruct Ho as [-> Hb] | _ => subst o end.
  1,2: unfold step; destruct (call_close e);
    [apply wp_bind; eapply wp_mono; [by eapply pool_Close_ok|done]|];
    destruct (wait_mode c) eqn:Hwm; [destruct (lazyInit_ok p _ ids (with_ctx e) H eq_refl Hwm); by eapply after_intro|];
    eapply after_intro; [apply frame_refl|];
    destruct H as [? ? ? ? ? ? ? Hch]; split; try done; unfold chan_inv in *; rewrite Hwm in *; by destruct Hch.
  - (* Counting *) eapply after_intro; [apply frame_refl|]. by eapply linv_session.
  - (* AwaitToken *) by apply await_ok with ids.
  - (* Entering *) apply wp_bind. set (p' := if 0 <? waited then _ else _).
    eapply wp_mono; [apply (prune_ok _ _ _ p' ids)|].
    + unfold p'. case_match; [apply linv_count_wait|]; by eapply linv_session.
    + intros r. apply after_trans. unfold p'. by case_match.
  - (* Pruning *) apply wp_bind. eapply wp_mono; [eapply prune_ok, Hcl; done|]. intros r. by apply after_trans.
  - (* Borrowing *) destruct (lookup_lt_is_Some_2 _ _ Hb) as [b Hb']. unfold step. apply wp_bind.
    eapply load_wp; [done|]. case_match; [eapply after_intro; [apply frame_refl|]; by eapply linv_session|].
    apply wp_bind. eapply wp_mono; [eapply take_idle_ok, Hcl; done|]. intros r. by apply after_trans.
  - (* Dialing *) unfold step. destruct (dial_ok e); [by apply (dial_ok_inv p ids)|].
    eapply release_step; [| |done..]; [done|]. destruct H as [? ? ? Ha ? HM ? Hch]. split; simpl in *; try done; [lia|].
    intros H0. specialize (HM H0). lia.
  - (* Using *) by apply put_ok with ids.
  - (* Discarding *) unfold step. eapply release_step; [| |done..]; [done|]. by apply Hcl.
  - (* PoolClosing *) apply close_next in Ho as (b & o' & -> & Hb & Hch). unfold step. apply wp_bind. eapply load_wp; [done|].
    apply (after_intro _ _ _ ids o'); [done|]. destruct H as [? _ Hp ? ? ? ? ?]. split; simpl in *; try done.
    rewrite <- Hp. f_equiv. rewrite !app_assoc, <- Permutation_middle. done.
  - destruct Ho as [Ho _]. destruct o; [|done]. eapply after_intro; [apply frame_refl|]. by eapply linv_session.
Qed.
End local.

(** ** All goroutines together *)

Definition total (f : session → Z) (l : list session) : Z := foldr (fun s k => f s + k) 0 l.

Lemma total_sessions_app f l k : total f (l ++ k) = total f l + total f k.
Proof. induction l; simpl; lia. Qed.
Lemma total_middle f l s k : total f (l ++ s :: k) = f s + total f (l ++ k).
Proof. rewrite !total_sessions_app. simpl. lia. Qed.
Lemma total_bounds l : 0 ≤ total weight l ≤ total tok l.
Proof. induction l as [|s l IH]; simpl; [lia|]. pose proof (weight_tok s). lia. Qed.
Lemma total_quiet l : Forall (fun s => quiet s = true) l → total tok l = 0.
Proof. induction 1 as [|s l Hs _ IH]; simpl; [done|]. rewrite (quiet_tok s Hs). lia. Qed.

Section whole.
Context (c : pool_cfg).

Record inv (s : system) (ids : list nat) (own : list (list nat)) : Prop := {
  i_idle : is_idle (p_heap (s_pool s)) (p_idle (s_pool s)) ids;
  i_own : Forall2 (owns (p_heap (s_pool s))) (s_sessions s) own;
  i_perm : ids ++ concat own ++ p_log (s_pool s) ≡ₚ seq 0 (length (p_heap (s_pool s)));
  i_active : p_active (s_pool s) = len ids + total weight (s_sessions s);
  i_maxidle : len ids ≤ Z.max 0 (MaxIdle c);
  i_maxactive : 0 < MaxActive c → p_active (s_pool s) ≤ MaxActive c;
  i_closed : p_closed (s_pool s) = true → ids = [];
  i_chan :
    if wait_mode c then
      match p_ch (s_pool s) with
      | None => Forall (fun s => quiet s = true) (s_sessions s)
      | Some ch => ch_closed ch = p_closed (s_pool s) ∧ 0 ≤ tokens ch ∧
          (p_closed (s_pool s) = false → tokens ch + total tok (s_sessions s) = MaxActive c)
      end
    else p_ch (s_pool s) = None ∧ Forall (fun s => waiting s = false) (s_sessions s) }.

(** One goroutine against the others *)
Abbreviation linv_at l1 l2 o1 o2 :=
  (linv c (concat (o1 ++ o2)) (total weight (l1 ++ l2)) (total tok (l1 ++ l2))
     (Forall (fun s => quiet s = true) (l1 ++ l2))).

Lemma concat_middle {A} (o1 o2 : list (list A)) o : concat (o1 ++ o :: o2) ≡ₚ o ++ concat (o1 ++ o2).
Proof. rewrite !concat_app. simpl. rewrite !app_assoc. f_equiv. apply Permutation_app_comm. Qed.

Lemma focus p l1 t l2 ids own :
  inv (mk_sys p (l1 ++ t :: l2)) ids own →
  ∃ o1 o o2, own = o1 ++ o :: o2 ∧ length o1 = length l1 ∧ linv_at l1 l2 o1 o2 p t ids o.
Proof.
  intros [Hi Ho Hp Ha Hm HM Hc Hch]. simpl in *.
  apply Forall2_app_inv_l in Ho as (o1 & o' & H1 & H2 & ->). inversion H2 as [|? o ? o2 Ht H3]; subst.
  exists o1, o, o2. split; [done|]. split; [by rewrite (Forall2_length _ _ _ H1)|].
  rewrite concat_middle, <- app_assoc in Hp. rewrite total_middle in Ha.
  split; try done; [lia|]. unfold chan_inv. rewrite total_middle in Hch. destruct (wait_mode c).
  - destruct (p_ch p); [|rewrite Forall_app, Forall_cons in Hch; rewrite Forall_app; naive_solver].
    destruct Hch as (? & ? & Hs). split; [done|]. split; [done|]. intros Hx. specialize (Hs Hx). lia.
  - destruct Hch as [? Hw]. rewrite Forall_app, Forall_cons in Hw. naive_solver.
Qed.

Lemma unfocus p p' l1 t t' l2 ids o1 o o2 ids' o' :
  inv (mk_sys p (l1 ++ t :: l2)) ids (o1 ++ o :: o2) → length o1 = length l1 →
  frame (concat (o1 ++ o2)) p p' → linv_at l1 l2 o1 o2 p' t' ids' o' →
  inv (mk_sys p' (l1 ++ t' :: l2)) ids' (o1 ++ o' :: o2).
Proof.
  intros H0 Hlen (Fl & Fh & Fc) [Hi Ho Hp Ha Hm HM Hc Hch]. pose proof (i_own _ _ _ H0) as Ho0. simpl in *.
  apply Forall2_app_inv in Ho0 as [Ho1 Ho2]; [|done]. apply Forall2_cons in Ho2 as [_ Ho2].
  assert (Hext : ∀ l k, k ⊆ o1 ++ o2 → Forall2 (owns (p_heap p)) l k → Forall2 (owns (p_heap p')) l k).
  { intros l k Hk HF. revert Hk. induction HF as [|s q l k Hs HF IH]; intros Hk; [done|]. constructor.
    - eapply owns_ext; [|done|done]. intros x Hx. apply Fh, elem_of_list_concat || apply Fh.
      rewrite list_elem_of_In, in_concat. exists q. rewrite <- !list_elem_of_In. set_solver.
    - apply IH. set_solver. }
  split; simpl; try done.
  - apply Forall2_app; [apply Hext; [set_solver|done]|]. constructor; [done|]. apply Hext; [set_solver|done].
  - by rewrite concat_middle, <- app_assoc.
  - rewrite total_middle. lia.
  - rewrite total_middle. pose proof (i_chan _ _ _ H0) as H0c. unfold chan_inv in Hch. simpl in *.
    destruct (wait_mode c).
    + destruct (p_ch p').
      * destruct Hch as (? & ? & Hs). split; [done|]. split; [done|]. intros Hx. specialize (Hs Hx). lia.
      * rewrite Forall_app, Forall_cons. rewrite Forall_app in Hch. naive_solver.
    + rewrite Forall_app, Forall_cons in *. naive_solver.
Qed.

(** A step of any goroutine keeps the invariant, and panics in no good state. *)
Lemma sys_step_inv e i s ids own :
  inv s ids own → (i < length (s_sessions s))%nat →
  wp (sys_step c e i s) (fun r => match r with
    | Some s' => ∃ ids' own', inv s' ids' own'
    | None => ∃ ctx wait, s_sessions s !! i = Some (AwaitToken ctx wait) ∧
                p_closed (s_pool s) = false ∧ total tok (s_sessions s) = MaxActive c end).
Proof.
  destruct s as [p l]. simpl. intros H Hi. destruct (lookup_lt_is_Some_2 _ _ Hi) as [t Ht].
  destruct (list_elem_of_split_length l i t Ht) as (l1 & l2 & -> & ->).
  destruct (focus _ _ _ _ _ _ H) as (o1 & o & o2 & -> & Hlen & HL).
  unfold sys_step. simpl. rewrite Ht. apply wp_bind. eapply wp_mono.
  - apply (step_ok c _ _ _ _ (total_bounds _) (total_quiet _) e t p ids o HL).
  - intros [[t' p']|] Hr; simpl.
    + destruct Hr as [F (ids' & o' & HL')]. simpl in *. exists ids', (o1 ++ o' :: o2).
      rewrite insert_app_r_alt, Nat.sub_diag by done. by eapply unfocus.
    + destruct Hr as ((ctx & wait & ->) & ? & ?). exists ctx, wait. by rewrite total_middle.
Qed.

Lemma inv_init k : inv (pool_init k) [] (replicate k []).
Proof.
  assert (Hf : ∀ f, f Ready = 0 → total f (replicate k Ready) = 0) by (intros f E; induction k; simpl; lia).
  split; simpl; try done; [apply is_idle_nil| | |by rewrite Hf|change (len (@nil nat)) with 0; lia|lia|].
  - by apply Forall2_replicate.
  - rewrite app_nil_r. clear Hf. by induction k.
  - destruct (wait_mode c); [|split; [done|]]; by apply Forall_replicate.
Qed.

Lemma sys_step_sessions e i s s' : sys_step c e i s = Ret (Some s') →
  length (s_sessions s') = length (s_sessions s) ∧ (i < length (s_sessions s))%nat.
Proof.
  unfold sys_step. destruct (s_sessions s !! i) eqn:E; [|done]. apply lookup_lt_Some in E.
  destruct (step c e s0 (s_pool s)) as [[[]|]|]; simpl; try done. intros [= <-]. simpl. by rewrite length_insert.
Qed.

Lemma reachable_inv k s : reachable c k s → length (s_sessions s) = k ∧ ∃ ids own, inv s ids own.
Proof.
  induction 1 as [|e i s s' _ [Hl (ids & own & IH)] Hs].
  - simpl. rewrite length_replicate. split; [done|]. eexists _, _. apply inv_init.
  - destruct (sys_step_sessions _ _ _ _ Hs) as [Hl' Hi]. split; [congruence|].
    pose proof (sys_step_inv e i s ids own IH Hi) as H. by rewrite Hs in H.
Qed.
End whole.

Lemma run_reachable c k l s s' : reachable c k s → run c l s = Ret (Some s') → reachable c k s'.
Proof.
  revert s. induction l as [|[i e] l IH]; intros s Hr; simpl; [by intros [= <-]|].
  destruct (sys_step c e i s) as [[s1|]|] eqn:E; simpl; try done. intros Hs. eapply IH; [|done]. by eapply reachable_step.
Qed.

(** C27: In every reachable state the active count is the number of idle connections plus
    those goroutines hold, the idle count is at most MaxIdle, and with a limit the active
    count is at most MaxActive, whether or not the pool waits. *)
Theorem pool_limits c k s :
  reachable c k s →
  ActiveCount (s_pool s) = IdleCount (s_pool s) + total weight (s_sessions s) ∧
  0 ≤ IdleCount (s_pool s) ≤ Z.max 0 (MaxIdle c) ∧
  (0 < MaxActive c → ActiveCount (s_pool s) ≤ MaxActive c).
Proof.
  intros [_ (ids & own & H)]%reachable_inv. unfold ActiveCount, IdleCount.
  rewrite (idle_count _ _ _ (i_idle _ _ _ _ H)). destruct H. pose proof (len_nonneg ids). done.
Qed.

(** C3: Under any interleaving of any number of goroutines that get, use, put and close, every
    connection the pool has dialed is in exactly one place: in the idle list, owned by one
    goroutine, or closed, and closed once. *)
Theorem pool_exclusive c k s :
  reachable c k s →
  ∃ ids own,
    is_idle (p_heap (s_pool s)) (p_idle (s_pool s)) ids ∧
    Forall2 (owns (p_heap (s_pool s))) (s_sessions s) own ∧
    ids ++ concat own ++ p_log (s_pool s) ≡ₚ seq 0 (length (p_heap (s_pool s))).
Proof. intros [_ (ids & own & [])]%reachable_inv. by exists ids, own. Qed.

(** C20: No goroutine panics in the pool, sends on a full channel with the lock held, or waits
    without need: in every reachable state each goroutine can take its next step, except one
    that waits for a connection while MaxActive goroutines hold one. *)
Theorem pool_progress c k s i e :
  reachable c k s → (i < k)%nat →
  (∃ s', sys_step c e i s = Ret (Some s')) ∨
  (sys_step c e i s = Ret None ∧ (∃ ctx wait, s_sessions s !! i = Some (AwaitToken ctx wait)) ∧
   p_closed (s_pool s) = false ∧ total tok (s_sessions s) = MaxActive c).
Proof.
  intros [Hl (ids & own & H)]%reachable_inv Hi. rewrite <- Hl in Hi.
  pose proof (sys_step_inv c e i s ids own H Hi) as Hs.
  destruct (sys_step c e i s) as [[s'|]|]; simpl in Hs; [left; by exists s'|right; naive_solver|done].
Qed.

(** When a closed pool has no goroutine left in it, every connection it ever dialed has
    been closed exactly once and the active count is 0. *)
Theorem closed_pool_released c k s :
  reachable c k s → p_closed (s_pool s) = true →
  Forall (fun t => t = Ready ∨ ∃ e, t = Failed e) (s_sessions s) →
  p_log (s_pool s) ≡ₚ seq 0 (length (p_heap (s_pool s))) ∧ ActiveCount (s_pool s) = 0.
Proof.
  intros [_ (ids & own & [Hi Ho Hp Ha _ _ Hc _])]%reachable_inv Hcl Hall. specialize (Hc Hcl) as ->.
  assert (concat own = []) as E.
  { clear Hp Ha. induction Ho as [|t o l own Ht Ho IH]; [done|]. apply Forall_cons in Hall as [Ht' Hall]. simpl.
    rewrite IH by done. destruct Ht' as [->|[e ->]]; simpl in Ht; by subst. }
  rewrite E in Hp. split; [done|]. unfold ActiveCount. rewrite Ha. change (len (@nil nat)) with 0. clear Ha Hp Ho.
  induction Hall as [|t l [->|[e ->]] _ IH]; simpl in *; lia.
Qed.

(** ** A run of three goroutines over two connections *)

Definition demo_cfg : pool_cfg := mk_pool_cfg true 1 2 10 true 0.
Definition demo_env : env := mk_env 0 true true false 1 false false false.
Definition demo_close : env := mk_env 0 true true false 1 true false false.
Definition turns (i n : nat) : list (nat * env) := replicate n (i, demo_env).

(** Two connections are in use and the third goroutine waits ... *)
Definition demo_busy : list (nat * env) := turns 0 5 ++ turns 1 5 ++ turns 2 2.
(** ... a connection is returned, borrowed by it and returned; the pool is closed; the other
    connection is returned and closed. *)
Definition demo_done : list (nat * env) :=
  demo_busy ++ turns 0 1 ++ turns 2 4 ++ [(0%nat, demo_close)] ++ turns 0 2 ++ turns 1 2.

Definition final (l : list (nat * env)) : system :=
  match run demo_cfg l (pool_init 3) with Ret (Some s) => s | _ => pool_init 3 end.

Lemma final_reachable l s : run demo_cfg l (pool_init 3) = Ret (Some s) → reachable demo_cfg 3 (final l).
Proof. intros H. unfold final. rewrite H. eapply run_reachable; [apply reachable_init|done]. Qed.

Lemma pool_limits_witness :
  ActiveCount (s_pool (final demo_busy)) = 2 ∧ total weight (s_sessions (final demo_busy)) = 2 ∧
  (ActiveCount (s_pool (final demo_busy)) = IdleCount (s_pool (final demo_busy)) + total weight (s_sessions (final demo_busy)) ∧
   0 ≤ IdleCount (s_pool (final demo_busy)) ≤ Z.max 0 (MaxIdle demo_cfg) ∧
   (0 < MaxActive demo_cfg → ActiveCount (s_pool (final demo_busy)) ≤ MaxActive demo_cfg)).
Proof.
  split; [vm_compute; reflexivity|]. split; [vm_compute; reflexivity|].
  apply (pool_limits demo_cfg 3). eapply final_reachable. vm_compute. reflexivity.
Defined.

Lemma pool_exclusive_witness :
  s_sessions (final demo_busy) = [Using 0; Using 1; AwaitToken false true] ∧
  ∃ ids own,
    is_idle (p_heap (s_pool (final demo_busy))) (p_idle (s_pool (final demo_busy))) ids ∧
    Forall2 (owns (p_heap (s_pool (final demo_busy)))) (s_sessions (final demo_busy)) own ∧
    ids ++ concat own ++ p_log (s_pool (final demo_busy)) ≡ₚ seq 0 (length (p_heap (s_pool (final demo_busy)))).
Proof.
  split; [vm_compute; reflexivity|].
  apply (pool_exclusive demo_cfg 3). eapply final_reachable. vm_compute. reflexivity.
Defined.

Lemma pool_progress_witness :
  sys_step demo_cfg demo_env 2 (final demo_busy) = Ret None ∧
  ((∃ s', sys_step demo_cfg demo_env 2 (final demo_busy) = Ret (Some s')) ∨
   (sys_step demo_cfg demo_env 2 (final demo_busy) = Ret None ∧
    (∃ ctx wait, s_sessions (final demo_busy) !! 2%nat = Some (AwaitToken ctx wait)) ∧
    p_closed (s_pool (final demo_busy)) = false ∧ total tok (s_sessions (final demo_busy)) = MaxActive demo_cfg)).
Proof.
  split; [vm_compute; reflexivity|].
  apply (pool_progress demo_cfg 3); [|lia]. eapply final_reachable. vm_compute. reflexivity.
Defined.

Lemma closed_pool_released_witness :
  length (p_heap (s_pool (final demo_done))) = 2%nat ∧
  p_log (s_pool (final demo_done)) ≡ₚ seq 0 (length (p_heap (s_pool (final demo_done)))) ∧
  ActiveCount (s_pool (final demo_done)) = 0.
Proof.
  split; [vm_compute; reflexivity|].
  apply (closed_pool_released demo_cfg 3).
  - eapply final_reachable. vm_compute. reflexivity.
  - vm_compute. reflexivity.
  - replace (s_sessions (final demo_done)) with [Ready; Ready; Ready] by (vm_compute; reflexivity).
    repeat (apply Forall_cons_2; [by left|]). apply Forall_nil_2.
Defined.
