(* ===== verification/RedisActive.v ===== *)
(** * [redis/pool.go], [redis/commandinfo.go]: a borrowed connection

    An [activeConn] passes commands on and remembers which of them put the connection in a
    special state; [Close] undoes that state before the connection goes back to the pool, or
    has it closed. *)

From S2P Require Import Prelude GoStrings RedisReply RedisConn.

(** ** Commands and the states they set ([redis/commandinfo.go]) *)

Definition connectionWatchState : Z := 1.
Definition connectionMultiState : Z := 2.
Definition connectionSubscribeState : Z := 4.
Definition connectionMonitorState : Z := 8.

(** [type commandInfo struct] *)
Record commandInfo := mk_info { Set_ : Z; Clear : Z }.

(** The literal of [commandInfos] ... *)
Definition commandInfos_literal : list (bytes * commandInfo) :=
  [(B "WATCH", mk_info connectionWatchState 0);
   (B "UNWATCH", mk_info 0 connectionWatchState);
   (B "MULTI", mk_info connectionMultiState 0);
   (B "EXEC", mk_info 0 (Z.lor connectionWatchState connectionMultiState));
   (B "DISCARD", mk_info 0 (Z.lor connectionWatchState connectionMultiState));
   (B "PSUBSCRIBE", mk_info connectionSubscribeState 0);
   (B "SUBSCRIBE", mk_info connectionSubscribeState 0);
   (B "MONITOR", mk_info connectionMonitorState 0)].

(** ... to which [init] adds the names in lower case. *)
Definition commandInfos : list (bytes * commandInfo) :=
  commandInfos_literal ++
  map (fun x : bytes * commandInfo => (lower_ascii <$> x.1, x.2)) commandInfos_literal.

Fixpoint info_of (l : list (bytes * commandInfo)) (name : bytes) : option commandInfo :=
  match l with
  | [] => None
  | (n, ci) :: l => if beq n name then Some ci else info_of l name
  end.

(** [func lookupCommandInfo(commandName string) commandInfo] *)
Definition lookupCommandInfo `{UnicodeUpper} (commandName : bytes) : commandInfo :=
  match info_of commandInfos commandName with
  | Some ci => ci
  | None => default (mk_info 0 0) (info_of commandInfos (ToUpper commandName))
  end.

(** ** The borrowed connection *)

(** [type activeConn struct]; [ac_pc] is the connection of [pc], [None] once it is returned. *)
Record activeConn := mk_active { ac_pc : option conn; ac_state : Z }.

Definition errConnClosed : rerr := PoolError (B "redigo: connection closed").

Section active.
Context `{UnicodeUpper}.

(** [ac.state = (ac.state | ci.Set) &^ ci.Clear] *)
Definition track (name : bytes) (state : Z) : Z :=
  let ci := lookupCommandInfo name in Z.ldiff (Z.lor state (Set_ ci)) (Clear ci).

(** [func (ac *activeConn) Do(commandName string, args ...interface{})]; [DoWithTimeout] does the
    same with a deadline. *)
Definition active_Do (name : bytes) (args : list arg) (ac : activeConn) : Go ((reply * option rerr) * activeConn) :=
  match ac_pc ac with
  | None => Ret ((RNil, Some errConnClosed), ac)
  | Some c =>
      let state := track name (ac_state ac) in
      let* (r, c) := Do name args c in Ret (r, mk_active (Some c) state)
  end.

(** [func (ac *activeConn) Send(commandName string, args ...interface{}) error] *)
Definition active_Send (name : bytes) (args : list arg) (ac : activeConn) : option rerr * activeConn :=
  match ac_pc ac with
  | None => (Some errConnClosed, ac)
  | Some c => (None, mk_active (Some (Send name args c)) (track name (ac_state ac)))
  end.

(** [func (ac *activeConn) Flush() error] *)
Definition active_Flush (ac : activeConn) : option rerr * activeConn :=
  match ac_pc ac with
  | None => (Some errConnClosed, ac)
  | Some c => let (e, c) := Flush c in (e, mk_active (Some c) (ac_state ac))
  end.

(** [func (ac *activeConn) Receive() (reply interface{}, err error)] *)
Definition active_Receive (ac : activeConn) : Go ((reply * option rerr) * activeConn) :=
  match ac_pc ac with
  | None => Ret ((RNil, Some errConnClosed), ac)
  | Some c => let* (r, c) := Receive c in Ret (r, mk_active (Some c) (ac_state ac))
  end.

(** [func (ac *activeConn) Err() error] *)
Definition active_Err (ac : activeConn) : option rerr :=
  match ac_pc ac with None => Some errConnClosed | Some c => Err c end.

(** The loop of [Close]: replies are read until the sentinel comes back (true) or reading
    fails (false).  A reply is at least a byte, so the input bounds the rounds. *)
Fixpoint read_sentinel (fuel : nat) (sentinel : bytes) (c : conn) : Go (bool * conn) :=
  match fuel with
  | O => Ret (false, c)
  | S k =>
      let* x := Receive c in
      match x with
      | ((_, Some _), c) => Ret (false, c)
      | ((RBulk b, None), c) => if beq b sentinel then Ret (true, c) else read_sentinel k sentinel c
      | ((_, None), c) => read_sentinel k sentinel c
      end
  end.

(** The part of [Close] that ends a transaction *)
Definition end_transaction (state : Z) (c : conn) : Z * conn :=
  if negb (Z.land state connectionMultiState =? 0) then
    (Z.ldiff state (Z.lor connectionMultiState connectionWatchState), Send (B "DISCARD") [] c)
  else if negb (Z.land state connectionWatchState =? 0) then
    (Z.ldiff state connectionWatchState, Send (B "UNWATCH") [] c)
  else (state, c).

(** The part of [Close] that ends subscriptions *)
Definition end_subscriptions (sentinel : bytes) (state : Z) (c : conn) : Go (Z * conn) :=
  if negb (Z.land state connectionSubscribeState =? 0) then
    let c := Send (B "UNSUBSCRIBE") [] c in
    let c := Send (B "PUNSUBSCRIBE") [] c in
    let c := Send (B "ECHO") [ABytes sentinel] c in
    let (_, c) := Flush c in
    let* (seen, c) := read_sentinel (S (length (input c))) sentinel c in
    Ret (if seen then Z.ldiff state connectionSubscribeState else state, c)
  else Ret (state, c).

(** [func (ac *activeConn) Close() error]: the connection and [forceClose] of the call of
    [put], if there is one. *)
Definition active_Close (sentinel : bytes) (ac : activeConn) : Go (option (conn * bool) * activeConn) :=
  match ac_pc ac with
  | None => Ret (None, ac)
  | Some c =>
      let (state, c) := end_transaction (ac_state ac) c in
      let* (state, c) := end_subscriptions sentinel state c in
      let* (_, c) := Do [] [] c in
      Ret (Some (c, negb (state =? 0) || bool_decide (is_Some (Err c))), mk_active None state)
  end.

(** ** Failed [Get] ([errorConn]) *)
Definition error_Do (e : rerr) (name : bytes) (args : list arg) : reply * option rerr := (RNil, Some e).
Definition error_Send (e : rerr) (name : bytes) (args : list arg) : option rerr := Some e.
Definition error_Receive (e : rerr) : reply * option rerr := (RNil, Some e).
Definition error_Close (e : rerr) : option rerr := None.

End active.
