(* ===== verification/RedisActiveProps.v ===== *)
(** * [redis/pool.go]: a connection goes back to the pool clean

    The specification is the session a Redis server keeps for a connection, as documented:
    watched keys, a transaction with its queue, subscriptions to channels and to patterns,
    monitor mode, and the commands that are refused in each state.  The state of an
    [activeConn] covers the session as long as no command is refused, and then a connection
    that [Close] returns for reuse has no session state left and no reply pending. *)

From S2P Require Import Prelude GoStrings RedisReply RedisConn RedisConnProps RedisActive.

(** ** The session of the server *)

(** Commands by their names, in any case *)
Definition command := (bytes * list arg)%type.
Inductive kind := KWatch | KUnwatch | KMulti | KExec | KDiscard | KPsubscribe | KSubscribe | KMonitor | KUnsubscribe | KPunsubscribe | KPing | KQuit | KOther.
#[global] Instance kind_eq : EqDecision kind.
Proof. solve_decision. Defined.
Definition kinds : list (bytes * kind) :=
  [(B "WATCH", KWatch); (B "UNWATCH", KUnwatch); (B "MULTI", KMulti); (B "EXEC", KExec); (B "DISCARD", KDiscard);
   (B "PSUBSCRIBE", KPsubscribe); (B "SUBSCRIBE", KSubscribe); (B "MONITOR", KMonitor);
   (B "UNSUBSCRIBE", KUnsubscribe); (B "PUNSUBSCRIBE", KPunsubscribe); (B "PING", KPing); (B "QUIT", KQuit)].
Definition kind_in (l : list (bytes * kind)) (name : bytes) : kind :=
  foldr (fun x k => if beq x.1 name then x.2 else k) KOther l.
Definition kind_of (cmd : command) : kind := kind_in kinds (upper_ascii <$> cmd.1).

(** Watched keys; the queued commands of a transaction; the channels and patterns subscribed
    to; monitor mode *)
Record server_session := mk_session {
  ss_watch : bool; ss_multi : option (list command); ss_sub : list bytes; ss_psub : list bytes; ss_monitor : bool }.
Definition clean : server_session := mk_session false None [] [] false.
Definition subscribed (s : server_session) : bool := match ss_sub s, ss_psub s with [], [] => false | _, _ => true end.

(** What a command does when it is run; an unsubscribing command without arguments ends all
    subscriptions of its kind. *)
Definition left_after (args : list arg) (l : list bytes) : list bytes :=
  match args with [] => [] | _ => filter (fun x => x ∉ (arg_text <$> args)) l end.
Definition effect (s : server_session) (cmd : command) : server_session :=
  let '(mk_session w m c p o) := s in
  match kind_of cmd with
  | KWatch => mk_session true m c p o
  | KUnwatch => mk_session false m c p o
  | KSubscribe => mk_session w m (c ++ (arg_text <$> cmd.2)) p o
  | KPsubscribe => mk_session w m c (p ++ (arg_text <$> cmd.2)) o
  | KUnsubscribe => mk_session w m (left_after cmd.2 c) p o
  | KPunsubscribe => mk_session w m c (left_after cmd.2 p) o
  | KMonitor => mk_session w m c p true
  | _ => s
  end.

(** The numbers of arguments the server accepts *)
Definition arity_ok (cmd : command) : bool :=
  match kind_of cmd with
  | KWatch | KSubscribe | KPsubscribe => negb (len cmd.2 =? 0)
  | KUnwatch | KMulti | KExec | KDiscard | KMonitor => len cmd.2 =? 0
  | _ => true
  end.
Definition allowed_subscribed (k : kind) : bool :=
  match k with KPsubscribe | KSubscribe | KUnsubscribe | KPunsubscribe | KPing | KQuit => true | _ => false end.

(** A command as the server documents it, [None] when it is refused with an error: a wrong
    number of arguments; with a subscription (in the second version of the protocol) everything
    but subscribing, unsubscribing, [PING] and [QUIT]; in a transaction [WATCH] and [MULTI];
    without one [EXEC] and [DISCARD].  In a transaction other commands are queued; [EXEC] ends
    it and all watches, and runs the queue unless it is [aborted]: because a watched key has
    changed or a queued command was refused, which is left open. *)
Definition session_step (s : server_session) (x : command * bool) : option server_session :=
  let '(cmd, aborted) := x in
  let '(mk_session w m c p o) := s in
  if negb (arity_ok cmd) || subscribed s && negb (allowed_subscribed (kind_of cmd)) then None
  else match m with
  | Some q =>
      match kind_of cmd with
      | KWatch | KMulti => None
      | KExec => Some (if aborted : bool then mk_session false None c p o else foldl effect (mk_session false None c p o) q)
      | KDiscard => Some (mk_session false None c p o)
      | _ => Some (mk_session w (Some (q ++ [cmd])) c p o)
      end
  | None =>
      match kind_of cmd with
      | KExec | KDiscard => None
      | KMulti => Some (mk_session w (Some []) c p o)
      | _ => Some (effect s cmd)
      end
  end.
(** A refused command leaves the session as it is. *)
Definition serve : server_session → list (command * bool) → server_session :=
  foldl (fun s x => default s (session_step s x)).

(** None of the commands that watch or end a transaction is refused. *)
Definition transactional (k : kind) : bool :=
  match k with KWatch | KUnwatch | KMulti | KExec | KDiscard => true | _ => false end.
Fixpoint accepted (s : server_session) (l : list (command * bool)) : bool :=
  match l with
  | [] => true
  | x :: l' => (negb (transactional (kind_of x.1)) || bool_decide (is_Some (session_step s x))) &&
               accepted (default s (session_step s x)) l'
  end.

(** The state of an [activeConn] has a bit for everything the session has or has queued. *)
Definition queued (ks : list kind) (s : server_session) : bool :=
  match ss_multi s with Some q => existsb (fun c => bool_decide (kind_of c ∈ ks)) q | None => false end.
Record covers_bits (b0 b1 b2 b3 : bool) (s : server_session) : Prop := {
  cov_watch : ss_watch s = true → b0 = true ∨ b1 = true;
  cov_multi : b1 = match ss_multi s with Some _ => true | None => false end;
  cov_sub : subscribed s = true ∨ queued [KSubscribe; KPsubscribe] s = true → b2 = true;
  cov_monitor : ss_monitor s = true ∨ queued [KMonitor] s = true → b3 = true;
  cov_queue : queued [KWatch] s = false;
  cov_alone : ss_multi s ≠ None → subscribed s = false }.
Definition covers (state : Z) : server_session → Prop :=
  covers_bits (Z.testbit state 0) (Z.testbit state 1) (Z.testbit state 2) (Z.testbit state 3).

#[local] Arguments beq : simpl never.
#[local] Arguments writeCommand : simpl never.

Section active_props.
Context `{UnicodeUpper}.

(** ** The command table *)

Lemma info_of_app l k n : info_of (l ++ k) n = match info_of l n with Some ci => Some ci | None => info_of k n end.
Proof. induction l as [|[m ci] l IH]; simpl; [done|]. by destruct (beq m n). Qed.

(** A name in upper case is none of the names in lower case. *)
Lemma upper_not_lower c k s : 97 ≤ c ≤ 122 → beq (c :: k) (upper_ascii <$> s) = false.
Proof.
  intros Hc. apply beq_neq. destruct s as [|d s]; [done|]. csimpl. intros [= E _]. revert E.
  unfold upper_ascii. case_match; lia.
Qed.

Lemma lookupCommandInfo_upper name :
  Forall is_ascii name →
  lookupCommandInfo name = default (mk_info 0 0) (info_of commandInfos_literal (upper_ascii <$> name)).
Proof.
  intros Ha. unfold lookupCommandInfo. rewrite ToUpper_ascii by done.
  destruct (info_of commandInfos name) as [ci|] eqn:E.
  - revert E. unfold commandInfos, commandInfos_literal. cbn [app map info_of fst snd].
    repeat (case_match eqn:Hb; [apply beq_eq in Hb; subst name; intros [= <-]; vm_compute; reflexivity|clear Hb]).
    done.
  - unfold commandInfos. rewrite info_of_app. destruct (info_of commandInfos_literal _); [done|].
    unfold commandInfos_literal. cbn [map info_of fst snd].
    repeat (match goal with |- context [beq ?k (upper_ascii <$> name)] =>
      replace (beq k (upper_ascii <$> name)) with false by (symmetry; apply upper_not_lower; vm_compute; split; congruence) end).
    done.
Qed.

Lemma track_bit name state i :
  Z.testbit (track name state) i =
  (Z.testbit state i || Z.testbit (Set_ (lookupCommandInfo name)) i) && negb (Z.testbit (Clear (lookupCommandInfo name)) i).
Proof. unfold track. by rewrite Z.ldiff_spec, Z.lor_spec. Qed.

Lemma beq_comm a b : beq a b = beq b a.
Proof. destruct (beq a b) eqn:E; symmetry; [apply beq_eq in E as ->; apply beq_refl|]. apply beq_neq in E. by apply beq_neq. Qed.

(** What the table says of a kind of command *)
Definition info_of_kind (k : kind) : commandInfo :=
  match k with
  | KWatch => mk_info 1 0 | KUnwatch => mk_info 0 1 | KMulti => mk_info 2 0 | KExec | KDiscard => mk_info 0 3
  | KPsubscribe | KSubscribe => mk_info 4 0 | KMonitor => mk_info 8 0 | _ => mk_info 0 0
  end.
Lemma lookupCommandInfo_kind name args :
  Forall is_ascii name → lookupCommandInfo name = info_of_kind (kind_of (name, args)).
Proof.
  intros Ha. rewrite lookupCommandInfo_upper by done. unfold kind_of, kinds, commandInfos_literal. cbn [info_of kind_in foldr fst snd].
  repeat (case_match; [done|]). done.
Qed.

(** Running a queue *)
Lemma subscribed_effect s c :
  subscribed (effect s c) = true → subscribed s = true ∨ kind_of c ∈ [KSubscribe; KPsubscribe].
Proof.
  destruct s as [w m su p o]. unfold effect, subscribed, left_after. destruct (kind_of c); cbn; intros H1;
    try (by left); try (right; set_solver); left; destruct su, p, (c.2); try done; by rewrite ?filter_nil in H1.
Qed.
Lemma run_queue q s :
  existsb (fun c => bool_decide (kind_of c ∈ [KWatch])) q = false →
  let s' := foldl effect s q in
  (ss_watch s' = true → ss_watch s = true) ∧ ss_multi s' = ss_multi s ∧
  (subscribed s' = true → subscribed s = true ∨ existsb (fun c => bool_decide (kind_of c ∈ [KSubscribe; KPsubscribe])) q = true) ∧
  (ss_monitor s' = true → ss_monitor s = true ∨ existsb (fun c => bool_decide (kind_of c ∈ [KMonitor])) q = true).
Proof.
  revert s. induction q as [|c q IH]; intros s Hq; cbn [existsb foldl] in *; [by split_and!; auto|].
  apply orb_false_iff in Hq as [Hc Hq]. apply bool_decide_eq_false in Hc. destruct (IH (effect s c) Hq) as (Hw & Hm & Hs & Ho).
  split_and!.
  - intros E. apply Hw in E. revert E. destruct s. unfold effect. destruct (kind_of c); try done; set_solver.
  - rewrite Hm. destruct s. unfold effect. by destruct (kind_of c).
  - intros E. apply Hs in E as [E|E]; [|right; by rewrite E, orb_true_r]. apply subscribed_effect in E as [E|E]; [by left|].
    right. by rewrite bool_decide_eq_true_2.
  - intros E. apply Ho in E as [E|E]; [|right; by rewrite E, orb_true_r]. revert E. destruct s. unfold effect.
    destruct (kind_of c); cbn; auto.
Qed.

(** A command the server runs, queues or refuses *)
Lemma bit_cases state name args :
  Forall is_ascii name → ∀ i, Z.testbit (track name state) i =
  (Z.testbit state i || Z.testbit (Set_ (info_of_kind (kind_of (name, args)))) i) && negb (Z.testbit (Clear (info_of_kind (kind_of (name, args)))) i).
Proof. intros Ha i. by rewrite track_bit, (lookupCommandInfo_kind name args). Qed.

Lemma queued_snoc ks w q cmd c p o :
  queued ks (mk_session w (Some (q ++ [cmd])) c p o) = queued ks (mk_session w (Some q) c p o) || bool_decide (kind_of cmd ∈ ks).
Proof. unfold queued. cbn [ss_multi]. rewrite existsb_app. cbn [existsb]. by rewrite orb_false_r. Qed.

Lemma covers_enqueue b0 b0' b2 b3 w q c p o cmd :
  covers_bits b0 true b2 b3 (mk_session w (Some q) c p o) → kind_of cmd ≠ KWatch →
  covers_bits b0' true (b2 || bool_decide (kind_of cmd ∈ [KSubscribe; KPsubscribe])) (b3 || bool_decide (kind_of cmd ∈ [KMonitor]))
    (mk_session w (Some (q ++ [cmd])) c p o).
Proof.
  intros [Cw Cm Cs Co Cq Ca] Hk. split; rewrite ?queued_snoc; cbn [ss_watch ss_multi ss_monitor] in *; [by right|done| | | |intros _; by apply Ca].
  - intros [E|[E|E]%orb_true_iff]; [rewrite Cs by auto; done..|]. by rewrite E, orb_true_r.
  - intros [E|[E|E]%orb_true_iff]; [rewrite Co by auto; done..|]. by rewrite E, orb_true_r.
  - change (queued [KWatch] (mk_session w (Some q) c p o) || bool_decide (kind_of cmd ∈ [KWatch]) = false).
    rewrite Cq. apply bool_decide_eq_false. set_solver.
Qed.
Lemma covers_exec b0 b2 b3 w q c p o (ab : bool) :
  covers_bits b0 true b2 b3 (mk_session w (Some q) c p o) →
  covers_bits false false b2 b3 (if ab then mk_session false None c p o else foldl effect (mk_session false None c p o) q).
Proof.
  intros [Cw Cm Cs Co Cq Ca]. unfold queued in *. cbn [ss_multi ss_watch ss_monitor] in *. specialize (Ca ltac:(done)).
  destruct ab; [split; unfold queued; cbn in *; naive_solver|].
  destruct (run_queue q (mk_session false None c p o) Cq) as (Hw & Hm & Hs & Ho). cbn [ss_multi ss_watch ss_monitor] in *.
  split; unfold queued; rewrite ?Hm; [intros E; by apply Hw in E|done|intros [E|E]; [|done]|intros [E|E]; [|done]|done|done].
  - apply Cs. by apply Hs in E.
  - apply Co. by apply Ho in E.
Qed.
Lemma covers_effect b0 b1 b2 b3 w c p o cmd :
  covers_bits b0 b1 b2 b3 (mk_session w None c p o) →
  covers_bits (match kind_of cmd with KWatch => true | KUnwatch => false | _ => b0 end) b1
    (b2 || bool_decide (kind_of cmd ∈ [KSubscribe; KPsubscribe])) (b3 || bool_decide (kind_of cmd ∈ [KMonitor]))
    (effect (mk_session w None c p o) cmd).
Proof.
  intros [Cw Cm Cs Co Cq Ca]. pose proof (subscribed_effect (mk_session w None c p o) cmd) as Hs. cbn [ss_multi ss_watch ss_monitor] in *. subst b1.
  assert (ss_multi (effect (mk_session w None c p o) cmd) = None) as Hm by (unfold effect; by destruct (kind_of cmd)).
  split; unfold queued; rewrite ?Hm.
  - unfold effect. destruct (kind_of cmd); cbn; auto.
  - done.
  - intros [E|E]; [|done]. apply Hs in E as [E|E]; [by rewrite Cs by auto|]. by rewrite bool_decide_eq_true_2, orb_true_r.
  - intros [E|E]; [|done]. revert E. unfold effect. destruct (kind_of cmd); cbn; intros E; rewrite ?Co by auto; rewrite ?orb_true_r; done.
  - done.
  - done.
Qed.

(** Tracking a command that the server does not refuse, or that does not touch watches and
    transactions, keeps the state above the session. *)
Lemma track_covers name args ab state s :
  Forall is_ascii name → covers state s →
  negb (transactional (kind_of (name, args))) || bool_decide (is_Some (session_step s ((name, args), ab))) = true →
  covers (track name state) (default s (session_step s ((name, args), ab))).
Proof.
  intros Ha Hc Hacc. unfold covers in *. rewrite !(bit_cases state name args Ha).
  generalize dependent (Z.testbit state 0). generalize dependent (Z.testbit state 1). generalize dependent (Z.testbit state 2).
  generalize dependent (Z.testbit state 3). intros b3 b2 b1 b0 Hc. destruct s as [w m c p o].
  unfold session_step in *. set (cmd := (name, args)) in *. clearbody cmd.
  destruct (negb (arity_ok cmd) || subscribed _ && _) eqn:Er.
  { cbn [default from_option id] in *. clear Er.
    destruct (kind_of cmd); try discriminate Hacc; cbn; rewrite ?orb_false_r, ?orb_true_r, ?andb_true_r; destruct Hc; split; auto. }
  destruct m as [q|]; cbn [ss_watch ss_multi ss_monitor] in *.
  - pose proof (cov_multi _ _ _ _ _ Hc) as ->. pose proof (covers_exec _ _ _ _ _ _ _ _ ab Hc) as He.
    pose proof (fun b0' => covers_enqueue b0 b0' _ _ _ _ _ _ _ cmd Hc) as Hq.
    destruct (kind_of cmd) eqn:Ek; try discriminate Hacc; cbn in He, Hq |- *; rewrite ?orb_false_r, ?orb_true_r, ?andb_true_r, ?andb_false_r in *;
      try (by apply Hq); [done|]. exact (covers_exec _ _ _ _ _ _ _ _ true Hc).
  - pose proof (cov_multi _ _ _ _ _ Hc) as ->. pose proof (covers_effect _ _ _ _ _ _ _ _ cmd Hc) as He.
    destruct (kind_of cmd) eqn:Ek; try discriminate Hacc; cbn in He |- *; rewrite ?orb_false_r, ?orb_true_r, ?andb_true_r, ?andb_false_r in *;
      try exact He. apply orb_false_iff in Er as [_ Er]. cbn [allowed_subscribed negb] in Er. rewrite ?andb_true_r in Er.
    destruct Hc as [Cw Cm Cs Co Cq Ca].
    split; [by right|done|intros [E|E]; [by unfold subscribed in Er, E; cbn in Er, E; rewrite Er in E|done]|intros [E|E]; [by apply Co; left|done]|done|intros _; exact Er].
Qed.

(** ** What a connection has been sent *)

Definition written (c : conn) : bytes := wire c ++ buffered c.
Definition cmd_bytes (l : list command) : bytes := l ≫= fun x => writeCommand x.1 x.2.

Lemma cmd_bytes_app l k : cmd_bytes (l ++ k) = cmd_bytes l ++ cmd_bytes k.
Proof. apply bind_app. Qed.

Lemma written_fatal e c : written (fatal e c) = written c.
Proof. unfold fatal. by destruct (c_err c). Qed.
Lemma written_Flush c : written (Flush c).2 = written c.
Proof. unfold Flush. destruct (broken c); [apply written_fatal|]. unfold written. simpl. by rewrite app_nil_r. Qed.
Lemma written_Send n a c : written (Send n a c) = written c ++ writeCommand n a.
Proof. unfold written. simpl. by rewrite app_assoc. Qed.
(** Reading writes nothing and leaves the pending count to [Receive]. *)
Lemma read_one_same c x c' : read_one c = Ret (x, c') → written c' = written c ∧ pending c' = pending c.
Proof.
  unfold read_one. destruct (read_reply (input c)) as [[r rest|e|]|]; intros [= <- <-]; [done|..];
    (split; [apply written_fatal|unfold fatal; by destruct (c_err c)]).
Qed.
Lemma written_Receive c x c' : Receive c = Ret (x, c') → written c' = written c.
Proof.
  unfold Receive. destruct (read_one c) as [[[r|e] c1]|] eqn:E; cbn [gbind]; [| |done]; apply read_one_same in E as [E _].
  - intros [= E1]. destruct r; injection E1 as <- <-; by case_match.
  - by intros [= <- <-].
Qed.
Lemma drain_same k c x c' : drain k c = Ret (x, c') → written c' = written c ∧ pending c' = pending c.
Proof.
  revert c x. induction k as [|k IH]; intros c x; cbn [drain]; [by intros [= <- <-]|].
  destruct (read_one c) as [[[r|e] c1]|] eqn:E; cbn [gbind]; [| |done]; apply read_one_same in E as [E1 E2]; [|by intros [= <- <-]].
  destruct (drain k c1) as [[[rs|e] c2]|] eqn:E; cbn [gbind]; [| |done]; intros [= <- <-]; apply IH in E as [E3 E4]; split; congruence.
Qed.
Lemma written_do_loop k r e c x c' : do_loop k r e c = Ret (x, c') → written c' = written c.
Proof.
  revert r e c. induction k as [|k IH]; intros r e c; cbn [do_loop]; [by intros [= <- <-]|].
  destruct (read_one c) as [[[r'|e'] c1]|] eqn:E; cbn [gbind]; [| |done]; apply read_one_same in E as [E _]; [|by intros [= <- <-]].
  intros H1. apply IH in H1. congruence.
Qed.
Lemma written_Do n a c x c' :
  Do n a c = Ret (x, c') → written c' = written c ++ cmd_bytes (if beq n [] then [] else [(n, a)]).
Proof.
  unfold Do. destruct (beq n []); cbn [andb].
  - rewrite app_nil_r. destruct (pending c =? 0); [by intros [= <- <-]|]. pose proof (written_Flush (set_pending 0 c)) as EF.
    destruct (Flush (set_pending 0 c)) as [[e|] c1]; cbn [snd] in *; [by intros [= <- <-]|].
    destruct (drain _ c1) as [[[rs|e] c2]|] eqn:E; cbn [gbind]; [| |done]; intros [= <- <-]; apply drain_same in E as [E _]; by rewrite E, EF.
  - set (c1 := buffer (writeCommand n a) (set_pending 0 c)). pose proof (written_Flush c1) as EF.
    assert (E1 : written c1 = written c ++ writeCommand n a) by apply (written_Send n a (set_pending (-1) c)).
    unfold cmd_bytes. cbn [mbind list_bind fst snd]. rewrite app_nil_r.
    destruct (Flush c1) as [[e|] c2]; cbn [snd] in *; [intros [= <- <-]; congruence|].
    intros E. apply written_do_loop in E. congruence.
Qed.
Lemma Do_empty_pending c x c' : Do [] [] c = Ret (x, c') → pending c' = 0.
Proof.
  unfold Do. change (beq [] []) with true. cbn [andb]. destruct (pending c =? 0); [by intros [= <- <-]|].
  assert (E : pending (Flush (set_pending 0 c)).2 = 0).
  { unfold Flush, fatal. destruct (broken _); [|done]. by destruct (c_err _). }
  destruct (Flush (set_pending 0 c)) as [[e|] c1]; cbn [snd] in *; [by intros [= <- <-]|].
  destruct (drain _ c1) as [[[rs|e] c2]|] eqn:E2; cbn [gbind]; [| |done]; intros [= <- <-]; apply drain_same in E2 as [_ E2]; congruence.
Qed.

(** ** The calls of an application *)

Inductive ac_op := OSend (n : bytes) (a : list arg) | ODo (n : bytes) (a : list arg) | OFlush | OReceive.
Definition ac_run (ac : activeConn) (o : ac_op) : Go activeConn :=
  match o with
  | OSend n a => Ret (active_Send n a ac).2
  | ODo n a => let* (_, ac) := active_Do n a ac in Ret ac
  | OFlush => Ret (active_Flush ac).2
  | OReceive => let* (_, ac) := active_Receive ac in Ret ac
  end.
Fixpoint ac_runs (ac : activeConn) (ops : list ac_op) : Go activeConn :=
  match ops with [] => Ret ac | o :: ops => let* ac := ac_run ac o in ac_runs ac ops end.
Definition op_commands (o : ac_op) : list command :=
  match o with OSend n a => [(n, a)] | ODo n a => if beq n [] then [] else [(n, a)] | _ => [] end.
Definition op_ok (o : ac_op) : Prop :=
  match o with OSend n _ | ODo n _ => Forall is_ascii n | _ => True end.

(** The commands of [t] were sent since [w0], and the state covers their session. *)
Definition tracked (w0 : bytes) (t : list (command * bool)) (state : Z) (c : conn) : Prop :=
  written c = w0 ++ cmd_bytes (fst <$> t) ∧ covers state (serve clean t).

Lemma serve_app s t u : serve s (t ++ u) = serve (serve s t) u.
Proof. apply foldl_app. Qed.
Lemma accepted_app s t u : accepted s (t ++ u) = accepted s t && accepted (serve s t) u.
Proof. revert s. induction t as [|x t IH]; intros s; [done|]. cbn [accepted app]. by rewrite IH, andb_assoc. Qed.

Lemma tracked_snoc w0 t state c n a ab c' state' :
  tracked w0 t state c → written c' = written c ++ writeCommand n a →
  (covers state (serve clean t) → covers state' (default (serve clean t) (session_step (serve clean t) ((n, a), ab)))) →
  tracked w0 (t ++ [((n, a), ab)]) state' c'.
Proof.
  intros [Hw Hc] Hw' Hs. split.
  - rewrite Hw', Hw, fmap_app, cmd_bytes_app, <- app_assoc. unfold cmd_bytes at 3. cbn [mbind list_bind fst snd fmap list_fmap]. by rewrite app_nil_r.
  - rewrite serve_app. by apply Hs.
Qed.
Lemma tracked_same w0 t state c c' : tracked w0 t state c → written c' = written c → tracked w0 t state c'.
Proof. intros [Hw Hc] E. split; [congruence|done]. Qed.

Lemma track_nil state : track [] state = state.
Proof. unfold track. by rewrite Z.lor_0_r, Z.ldiff_0_r. Qed.

Lemma run_tracked w0 t u state c o ac :
  op_ok o → tracked w0 t state c → fst <$> u = op_commands o → accepted (serve clean t) u = true →
  ac_run (mk_active (Some c) state) o = Ret ac →
  ∃ c' state', ac = mk_active (Some c') state' ∧ tracked w0 (t ++ u) state' c'.
Proof.
  intros Ho Ht Eu Ha. assert (∀ n a, Forall is_ascii n → fst <$> u = [(n, a)] →
    ∃ ab, u = [((n, a), ab)] ∧ (covers state (serve clean t) → covers (track n state) (default (serve clean t) (session_step (serve clean t) ((n, a), ab))))) as Hstep.
  { intros n a Hn E. destruct u as [|[cmd ab] [|? ?]]; try discriminate E. injection E as ->. exists ab. split; [done|].
    intros Hc. apply track_covers; [done..|]. cbn [accepted] in Ha. by apply andb_true_iff in Ha as [Ha _]. }
  destruct o as [n a|n a| |]; cbn [op_commands op_ok ac_run] in *.
  - intros [= <-]. destruct (Hstep n a Ho Eu) as (ab & -> & Hs). eexists _, _. split; [done|]. eapply tracked_snoc; [done|apply written_Send|exact Hs].
  - unfold active_Do. cbn [ac_pc ac_state]. destruct (Do n a c) as [[r c']|] eqn:E; cbn [gbind]; [|done]. intros [= <-].
    apply written_Do in E. eexists _, _. split; [done|]. destruct (beq n []) eqn:En.
    + apply beq_eq in En as ->. apply fmap_nil_inv in Eu as ->. rewrite track_nil. rewrite app_nil_r in *. by eapply tracked_same.
    + destruct (Hstep n a Ho Eu) as (ab & -> & Hs). unfold cmd_bytes in E. cbn [mbind list_bind fst snd] in E. rewrite app_nil_r in E.
      by eapply tracked_snoc.
  - intros [= <-]. unfold active_Flush. cbn [ac_pc ac_state]. pose proof (written_Flush c) as E.
    destruct (Flush c) as [r c']. apply fmap_nil_inv in Eu as ->. rewrite app_nil_r. eexists _, _. split; [done|]. by eapply tracked_same.
  - unfold active_Receive. cbn [ac_pc ac_state]. destruct (Receive c) as [[r c']|] eqn:E; cbn [gbind]; [|done]. intros [= <-].
    apply written_Receive in E. apply fmap_nil_inv in Eu as ->. rewrite app_nil_r. eexists _, _. split; [done|]. by eapply tracked_same.
Qed.

Lemma runs_tracked ops w0 t u state c ac :
  Forall op_ok ops → tracked w0 t state c → fst <$> u = ops ≫= op_commands → accepted (serve clean t) u = true →
  ac_runs (mk_active (Some c) state) ops = Ret ac →
  ∃ c' state', ac = mk_active (Some c') state' ∧ tracked w0 (t ++ u) state' c'.
Proof.
  intros Ho. revert t u state c. induction Ho as [|o ops Ho Hos IH]; intros t u state c Ht Eu Ha; cbn [ac_runs].
  - apply fmap_nil_inv in Eu as ->. intros [= <-]. rewrite app_nil_r. by eexists _, _.
  - csimpl in Eu. apply fmap_app_inv in Eu as (u1 & u2 & E1 & E2 & ->). rewrite accepted_app in Ha. apply andb_true_iff in Ha as [Ha1 Ha2].
    destruct (ac_run _ o) as [ac1|] eqn:Er; cbn [gbind]; [|done].
    destruct (run_tracked w0 t u1 state c o ac1 Ho Ht (eq_sym E1) Ha1 Er) as (c1 & st1 & -> & Ht1).
    rewrite app_assoc. apply IH; [done|by rewrite E2|by rewrite serve_app].
Qed.

(** ** [Close] *)

Lemma written_read_sentinel k b c x c' : read_sentinel k b c = Ret (x, c') → written c' = written c.
Proof.
  revert c. induction k as [|k IH]; intros c; cbn [read_sentinel]; [by intros [= <- <-]|].
  destruct (Receive c) as [[[r [e|]] c1]|] eqn:E; cbn [gbind]; [| |done]; apply written_Receive in E.
  - destruct r; by intros [= <- <-].
  - intros H1. rewrite <- E. destruct r; try (by apply IH). destruct (beq b0 b); [by injection H1 as <- <-|by apply IH].
Qed.

(** The fuel of the loop is never used up: with more of it the loop does the same. *)
Lemma read_sentinel_fuel k k' b c :
  (length (input c) < k)%nat → (k ≤ k')%nat → read_sentinel k' b c = read_sentinel k b c.
Proof.
  revert k' c. induction k as [|k IH]; intros k' c Hk Hk'; [lia|]. destruct k' as [|k']; [lia|].
  cbn [read_sentinel]. unfold Receive, read_one, read_reply.
  pose proof (readReply_good (S (length (input c))) (input c) ltac:(lia)) as Hg.
  destruct (readReply (S (length (input c))) (input c)) as [[r rest|e|]|]; cbn [gbind progress] in *; [|done..].
  assert (Hrec : ∀ c', input c' = rest → read_sentinel k' b c' = read_sentinel k b c').
  { intros c' E. apply IH; [rewrite E|]; lia. }
  destruct r; cbv zeta; try done; try (apply Hrec; by case_match).
  destruct (beq b0 b); [done|]. apply Hrec. by case_match.
Qed.

(** The commands [Close] adds *)
Definition transaction_cleanup (state : Z) : list command :=
  if Z.testbit state 1 then [(B "DISCARD", [])] else if Z.testbit state 0 then [(B "UNWATCH", [])] else [].
Definition subscription_cleanup (sentinel : bytes) (state : Z) : list command :=
  if Z.testbit state 2 then [(B "UNSUBSCRIBE", []); (B "PUNSUBSCRIBE", []); (B "ECHO", [ABytes sentinel])] else [].

(** The session is over, except for what the state still says. *)
Definition ended (state : Z) (s : server_session) : Prop :=
  ss_watch s = false ∧ ss_multi s = None ∧ covers state s.

Lemma land_bit state i : 0 ≤ i → (Z.land state (2 ^ i) =? 0) = negb (Z.testbit state i).
Proof.
  intros Hi. destruct (Z.testbit state i) eqn:E; cbn [negb].
  - apply Z.eqb_neq. intros E1. apply (f_equal (fun z => Z.testbit z i)) in E1.
    by rewrite Z.land_spec, E, Z.pow2_bits_true, Z.testbit_0_l in E1.
  - apply Z.eqb_eq, Z.bits_inj'. intros n Hn. rewrite Z.land_spec, Z.testbit_0_l. destruct (decide (n = i)) as [->|]; [by rewrite E|].
    by rewrite Z.pow2_bits_false, andb_false_r by lia.
Qed.
Lemma covers_clear state mask s s' :
  covers_bits (Z.testbit state 0 && negb (Z.testbit mask 0)) (Z.testbit state 1 && negb (Z.testbit mask 1))
    (Z.testbit state 2 && negb (Z.testbit mask 2)) (Z.testbit state 3 && negb (Z.testbit mask 3)) s' →
  s = s' → covers (Z.ldiff state mask) s.
Proof. intros Hc ->. unfold covers. by rewrite !Z.ldiff_spec. Qed.

Lemma end_transaction_ended t state c :
  covers state (serve clean t) → ss_watch (serve clean t) && subscribed (serve clean t) = false →
  written (end_transaction state c).2 = written c ++ cmd_bytes (transaction_cleanup state) ∧
  ∀ u, fst <$> u = transaction_cleanup state → ended (end_transaction state c).1 (serve clean (t ++ u)).
Proof.
  intros Hc Hw. unfold end_transaction, transaction_cleanup. setoid_rewrite serve_app. destruct (serve clean t) as [w m su p o]. cbn [ss_watch] in Hw.
  change connectionMultiState with (2 ^ 1). change connectionWatchState with (2 ^ 0).
  rewrite (land_bit state 1), (land_bit state 0), !negb_involutive by done. destruct (Z.testbit state 1) eqn:E1; [|destruct (Z.testbit state 0) eqn:E0]; cbn [fst snd].
  - split; [by rewrite written_Send; unfold cmd_bytes; cbn [mbind list_bind fst snd]; rewrite app_nil_r|].
    intros [|[cmd ab] [|? ?]] Eu; try discriminate Eu. injection Eu as ->. unfold covers in Hc. rewrite E1 in Hc.
    pose proof (cov_multi _ _ _ _ _ Hc) as Em. destruct m as [q|]; [|done].
    pose proof (cov_alone _ _ _ _ _ Hc ltac:(done)) as Es.
    cbn [serve foldl]. unfold session_step. rewrite Es. change (kind_of (B "DISCARD", [])) with KDiscard. cbn.
    split; [done|]. split; [done|]. eapply covers_clear; [|done]. rewrite E1. cbn. rewrite !andb_false_r, !andb_true_r.
    exact (covers_exec _ _ _ _ _ _ _ _ true Hc).
  - split; [by rewrite written_Send; unfold cmd_bytes; cbn [mbind list_bind fst snd]; rewrite app_nil_r|].
    intros [|[cmd ab] [|? ?]] Eu; try discriminate Eu. injection Eu as ->. unfold covers in Hc. rewrite E0, E1 in Hc.
    pose proof (cov_multi _ _ _ _ _ Hc) as Em. destruct m as [q|]; [done|].
    cbn [serve foldl]. match goal with |- ended _ ?s => assert (s = mk_session false None su p o) as -> end.
    { unfold session_step. change (kind_of (B "UNWATCH", [])) with KUnwatch. unfold arity_ok. change (kind_of (B "UNWATCH", [])) with KUnwatch. cbn [negb len Z.eqb orb allowed_subscribed].
      destruct (subscribed (mk_session w None su p o)) eqn:Es; cbn; [|done]. rewrite andb_true_r in Hw. by subst w. }
    split; [done|]. split; [done|]. eapply covers_clear; [|done]. rewrite E0, E1. cbn. rewrite !andb_true_r. destruct Hc. split; try done; auto.
  - split; [by rewrite app_nil_r|]. intros u Eu. apply fmap_nil_inv in Eu as ->. cbn [serve foldl].
    pose proof Hc as Hc'. destruct Hc as [Cw Cm _ _ _ _]. cbn [ss_watch ss_multi] in Cw, Cm. rewrite ?E0, ?E1 in Cw, Cm.
    destruct m; [done|]. destruct w; [destruct (Cw eq_refl); congruence|]. done.
Qed.

Lemma step_unsubscribe su p o ab :
  session_step (mk_session false None su p o) ((B "UNSUBSCRIBE", []), ab) = Some (mk_session false None [] p o).
Proof.
  assert (kind_of (B "UNSUBSCRIBE", []) = KUnsubscribe) as E by (vm_compute; reflexivity).
  unfold session_step, arity_ok, effect. rewrite E. cbn [negb orb allowed_subscribed]. by rewrite andb_false_r.
Qed.
Lemma step_punsubscribe su p o ab :
  session_step (mk_session false None su p o) ((B "PUNSUBSCRIBE", []), ab) = Some (mk_session false None su [] o).
Proof.
  assert (kind_of (B "PUNSUBSCRIBE", []) = KPunsubscribe) as E by (vm_compute; reflexivity).
  unfold session_step, arity_ok, effect. rewrite E. cbn [negb orb allowed_subscribed]. by rewrite andb_false_r.
Qed.
Lemma step_echo a o ab :
  default (mk_session false None [] [] o) (session_step (mk_session false None [] [] o) ((B "ECHO", a), ab)) = mk_session false None [] [] o.
Proof.
  assert (kind_of (B "ECHO", a) = KOther) as E by (unfold kind_of; cbn [fst]; vm_compute; reflexivity).
  unfold session_step, arity_ok, effect. by rewrite E.
Qed.
Lemma end_subscriptions_ended sentinel t state c st c' :
  ended state (serve clean t) → end_subscriptions sentinel state c = Ret (st, c') →
  written c' = written c ++ cmd_bytes (subscription_cleanup sentinel state) ∧
  ∀ u, fst <$> u = subscription_cleanup sentinel state → ended st (serve clean (t ++ u)).
Proof.
  intros (Hw & Hm & Hc). unfold end_subscriptions, subscription_cleanup. setoid_rewrite serve_app. destruct (serve clean t) as [w m su p o].
  cbn [ss_watch ss_multi] in Hw, Hm. subst w m. change connectionSubscribeState with (2 ^ 2). rewrite (land_bit state 2), negb_involutive by done.
  destruct (Z.testbit state 2) eqn:E2.
  - set (c1 := Send (B "UNSUBSCRIBE") [] c). set (c2 := Send (B "PUNSUBSCRIBE") [] c1). set (c3 := Send (B "ECHO") [ABytes sentinel] c2).
    pose proof (written_Flush c3) as EF. destruct (Flush c3) as [e4 c4]. cbn [snd] in EF.
    destruct (read_sentinel _ sentinel c4) as [[seen c5]|] eqn:ER; cbn [gbind]; [|done]. intros [= <- <-]. apply written_read_sentinel in ER.
    split.
    { rewrite ER, EF. unfold c3, c2, c1. rewrite !written_Send. unfold cmd_bytes. cbn [mbind list_bind fst snd]. by rewrite <- !app_assoc, app_nil_r. }
    intros [|[k1 a1] [|[k2 a2] [|[k3 a3] [|? ?]]]] Eu; try discriminate Eu. injection Eu as -> -> ->.
    match goal with |- ended _ ?s => assert (s = mk_session false None [] [] o) as ->;
      [cbn [serve foldl]; rewrite step_unsubscribe; cbn [default from_option id]; rewrite step_punsubscribe; cbn [default from_option id]; apply step_echo|] end.
    split; [done|]. split; [done|]. destruct Hc as [Cw Cm Cs Co Cq Ca]. cbn [ss_monitor ss_multi] in *. unfold queued in Co. cbn [ss_multi] in Co.
    destruct seen; [eapply covers_clear; [|done]; cbn; rewrite !andb_true_r|]; split; unfold queued; cbn in *; naive_solver.
  - intros [= <- <-]. split; [by rewrite app_nil_r|]. intros u Eu. by apply fmap_nil_inv in Eu as ->.
Qed.

(** C23: A borrowed connection that Close returns for reuse has no session state left: as the
    server runs, queues and refuses the commands written on it, those of the application and
    those Close adds, its session ends without watched keys, transaction, subscriptions or
    monitor mode; the count of pending replies is zero and the connection has no error. The
    application sends commands with ASCII names, none of its WATCH, UNWATCH, MULTI, EXEC and
    DISCARD is refused (an EXEC may be aborted), and when it calls Close it does not have
    watched keys and a subscription at once. *)
Theorem returned_clean ops u c0 ac sentinel c ac' :
  Forall op_ok ops → fst <$> u = ops ≫= op_commands →
  accepted clean u = true → ss_watch (serve clean u) && subscribed (serve clean u) = false →
  ac_runs (mk_active (Some c0) 0) ops = Ret ac → active_Close sentinel ac = Ret (Some (c, false), ac') →
  ∃ cleanup,
    written c = written c0 ++ cmd_bytes ((ops ≫= op_commands) ++ cleanup) ∧
    (∀ v, fst <$> v = cleanup → serve clean (u ++ v) = clean) ∧
    pending c = 0 ∧ Err c = None.
Proof.
  intros Ho Eu Ha Hw Hr. assert (H0 : tracked (written c0) [] 0 c0) by (split; [by rewrite app_nil_r|split; unfold queued; cbn; naive_solver]).
  destruct (runs_tracked ops _ _ u _ _ _ Ho H0 Eu Ha Hr) as (c1 & st1 & -> & H1 & Hc1). cbn [app] in *. unfold active_Close. cbn [ac_pc ac_state].
  destruct (end_transaction_ended u st1 c1 Hc1 Hw) as [W2 H2]. destruct (end_transaction st1 c1) as [st2 c2]. cbn [fst snd] in *.
  destruct (end_subscriptions sentinel st2 c2) as [[st3 c3]|] eqn:E3; cbn [gbind]; [|done].
  pose proof (fun v Ev => end_subscriptions_ended sentinel _ _ _ _ _ (H2 v Ev) E3) as H3.
  destruct (H3 ((., false) <$> transaction_cleanup st1)) as [W3 _]; [rewrite <- list_fmap_compose; apply list_fmap_id|].
  destruct (Do [] [] c3) as [[r c4]|] eqn:E4; cbn [gbind]; [|done]. pose proof (Do_empty_pending _ _ _ E4) as EP. apply written_Do in E4.
  change (beq [] []) with true in E4. cbn [cmd_bytes mbind list_bind] in E4. rewrite app_nil_r in E4.
  intros [= <- Hf _]. apply orb_false_iff in Hf as [Hst He]. apply negb_false_iff, Z.eqb_eq in Hst as ->.
  exists (transaction_cleanup st1 ++ subscription_cleanup sentinel st2). split; [|split; [|split; [done|]]].
  - rewrite E4, W3, W2, H1, Eu, <- !app_assoc. by rewrite !cmd_bytes_app.
  - intros v Ev. apply fmap_app_inv in Ev as (v2 & v3 & E2' & E3' & ->). rewrite app_assoc.
    destruct (proj2 (H3 v2 (eq_sym E2')) v3 (eq_sym E3')) as (Fw & Fm & [_ _ Cs Co _ _]).
    generalize dependent (serve clean ((u ++ v2) ++ v3)). intros [w m su p o] Fw Fm Cs Co. cbn [ss_watch ss_multi ss_monitor] in *. subst w m.
    destruct o; [discriminate (Co (or_introl eq_refl))|]. destruct su, p; try discriminate (Cs (or_introl eq_refl)). done.
  - by apply bool_decide_eq_false, eq_None_not_Some in He.
Qed.
End active_props.

(** A transaction left open is discarded, and the connection is reused. *)
Definition demo_conn : conn := mk_conn 0 None [] [] (B "+OK" ++ CRLF ++ B "+QUEUED" ++ CRLF ++ B "+OK" ++ CRLF) false.
Definition demo_ops : list ac_op := [ODo (B "multi") []; OSend (B "SET") [AString (B "k"); AInt 1]].
Definition after_close (c0 : conn) (ops : list ac_op) : option (conn * bool) :=
  match ac_runs (mk_active (Some c0) 0) ops with
  | Ret ac => match active_Close (B "s") ac with Ret (x, _) => x | Panic _ => None end
  | Panic _ => None
  end.
Definition demo_trace (ops : list ac_op) : list (command * bool) := (., false) <$> (ops ≫= op_commands).
Definition demo_ac : activeConn := match ac_runs (mk_active (Some demo_conn) 0) demo_ops with Ret ac => ac | Panic _ => mk_active None 0 end.
Definition demo_returned : conn * activeConn :=
  match active_Close (B "s") demo_ac with Ret (Some (c, _), ac) => (c, ac) | _ => (demo_conn, demo_ac) end.
Lemma returned_clean_witness :
  active_Close (B "s") demo_ac = Ret (Some (demo_returned.1, false), demo_returned.2) ∧
  ∃ cleanup,
    written demo_returned.1 = written demo_conn ++ cmd_bytes ((demo_ops ≫= op_commands) ++ cleanup) ∧
    (∀ v, fst <$> v = cleanup → serve clean (demo_trace demo_ops ++ v) = clean) ∧
    pending demo_returned.1 = 0 ∧ Err demo_returned.1 = None.
Proof.
  split; [vm_compute; reflexivity|].
  apply (returned_clean demo_ops (demo_trace demo_ops) demo_conn demo_ac (B "s") demo_returned.1 demo_returned.2);
    [|reflexivity|vm_compute; reflexivity..].
  repeat (apply Forall_cons_2; [vm_compute; repeat constructor; discriminate|]). apply Forall_nil_2.
Defined.

(** Watched keys survive [Close] when the application ends a transaction it has not begun:
    [EXEC] and [DISCARD] clear the bit of the watch, but the server refuses them. *)
Definition replying (l : list bytes) : conn := mk_conn 0 None [] [] (l ≫= fun x => x ++ CRLF) false.
Example discard_without_multi :
  let ops := [ODo (B "WATCH") [AString (B "k")]; ODo (B "DISCARD") []] in
  (∃ c, after_close (replying [B "+OK"; B "-ERR DISCARD without MULTI"]) ops = Some (c, false) ∧
    written c = cmd_bytes (ops ≫= op_commands)) ∧
  ss_watch (serve clean (demo_trace ops)) = true.
Proof. split; [eexists; split; vm_compute; reflexivity|vm_compute; reflexivity]. Qed.
(** With a subscription the server refuses the [UNWATCH] of [Close]; the error reply comes
    before the sentinel, and the connection is closed. *)
Example unwatch_while_subscribed :
  let ops := [ODo (B "WATCH") [AString (B "k")]; ODo (B "SUBSCRIBE") [AString (B "c")]] in
  (∃ c, after_close (replying [B "+OK"; B "*0"; B "-ERR only SUBSCRIBE allowed"; B "*0"; B "*0"; B "$1"; B "s"]) ops = Some (c, true)) ∧
  session_step (serve clean (demo_trace ops)) ((B "UNWATCH", []), false) = None.
Proof. split; [eexists; vm_compute; reflexivity|vm_compute; reflexivity]. Qed.

(** A borrowed connection is returned once: after [Close] every call is refused. *)
Lemma closed_refuses `{UnicodeUpper} sentinel ac x ac' o :
  active_Close sentinel ac = Ret (x, ac') →
  ac_pc ac' = None ∧ active_Close sentinel ac' = Ret (None, ac') ∧ active_Err ac' = Some errConnClosed ∧ ac_run ac' o = Ret ac'.
Proof.
  intros Hc. assert (ac_pc ac' = None) as E.
  { revert Hc. unfold active_Close. destruct (ac_pc ac) eqn:E; [|by intros [= <- <-]]. destruct (end_transaction _ _).
    destruct (end_subscriptions _ _ _) as [[? ?]|]; cbn [gbind]; [|done]. destruct (Do [] [] _) as [[? ?]|]; cbn [gbind]; [|done]. by intros [= <- <-]. }
  destruct ac' as [pc st]. simpl in E. subst pc. by destruct o.
Qed.
