(* ===== verification/RedisServer.v ===== *)
(** * The Redis server as the queues see it

    The server is not part of the repository.  What the queues rely on is stated as the laws
    of two classes: the effect of the commands on one key ([RedisStore]) and the evaluation of
    a Lua script by its text or by its hash ([RedisScripting]).  The Lua scripts are part of
    the repository ([lib/unique_queue.go], [lib/priority_queue.go], [lib/redis_pool.go]); they
    are translated here against [redis.call]. *)

From S2P Require Import Prelude GoStrings RedisReply.

(** ** Commands on one key *)

Inductive rvalue := VNone | VStr (s : bytes) | VList (l : list bytes) | VSet (x : gset bytes).

(** Redis removes a list or a set that has become empty. *)
Definition of_list (l : list bytes) : rvalue := match l with [] => VNone | _ => VList l end.
Definition of_set (x : gset bytes) : rvalue := if decide (x = ∅) then VNone else VSet x.

Definition WRONGTYPE : reply :=
  RErr (B "WRONGTYPE Operation against a key holding the wrong kind of value").

(** The documented effect of a command on the value at its key, and its reply. *)
Definition key_command (cmd : bytes) (v : rvalue) (args : list bytes) : option (rvalue * reply) :=
  if beq cmd (B "SADD") then
    match v, args with
    | VNone, [x] => Some (VSet {[x]}, RInt 1)
    | VSet y, [x] => Some (VSet ({[x]} ∪ y), RInt (if decide (x ∈ y) then 0 else 1))
    | _, [x] => Some (v, WRONGTYPE)
    | _, _ => None
    end
  else if beq cmd (B "SREM") then
    match v, args with
    | VNone, [x] => Some (VNone, RInt 0)
    | VSet y, [x] => Some (of_set (y ∖ {[x]}), RInt (if decide (x ∈ y) then 1 else 0))
    | _, [x] => Some (v, WRONGTYPE)
    | _, _ => None
    end
  else if beq cmd (B "RPUSH") then
    match v, args with
    | VNone, [x] => Some (VList [x], RInt 1)
    | VList l, [x] => Some (VList (l ++ [x]), RInt (len l + 1))
    | _, [x] => Some (v, WRONGTYPE)
    | _, _ => None
    end
  else if beq cmd (B "LPOP") then
    match v, args with
    | VNone, [] => Some (VNone, RNil)
    | VList (x :: l), [] => Some (of_list l, RBulk x)
    | VList [], [] => None
    | _, [] => Some (v, WRONGTYPE)
    | _, _ => None
    end
  else if beq cmd (B "LLEN") then
    match v, args with
    | VNone, [] => Some (VNone, RInt 0)
    | VList l, [] => Some (v, RInt (len l))
    | _, [] => Some (v, WRONGTYPE)
    | _, _ => None
    end
  else if beq cmd (B "DEL") then
    match v, args with
    | VNone, [] => Some (VNone, RInt 0)
    | _, [] => Some (VNone, RInt 1)
    | _, _ => None
    end
  else if beq cmd (B "GET") then
    match v, args with
    | VNone, [] => Some (VNone, RNil)
    | VStr s, [] => Some (v, RBulk s)
    | _, [] => Some (v, WRONGTYPE)
    | _, _ => None
    end
  else if beq cmd (B "SET") then
    match args with [x] => Some (VStr x, RSimple (B "OK")) | _ => None end
  else None.

(** A server: what a client command does ([command]), what [redis.call] does inside a script
    ([call]), the value at a key and the text of a cached script. *)
Class RedisStore := {
  srv : Type;
  command : srv → bytes → list bytes → srv * reply;
  call : srv → bytes → list bytes → srv * reply;
  value_at : srv → bytes → rvalue;
  cached : srv → bytes → option bytes;
  command_key : ∀ s cmd key args v r,
    key_command cmd (value_at s key) args = Some (v, r) →
    ∃ s', command s cmd (key :: args) = (s', r) ∧ value_at s' key = v ∧
          (∀ k, k ≠ key → value_at s' k = value_at s k) ∧ (∀ h, cached s' h = cached s h);
  call_key : ∀ s cmd key args v r,
    key_command cmd (value_at s key) args = Some (v, r) →
    ∃ s', call s cmd (key :: args) = (s', r) ∧ value_at s' key = v ∧
          (∀ k, k ≠ key → value_at s' k = value_at s k) ∧ (∀ h, cached s' h = cached s h);
}.

(** ** Lua *)

(** The values the scripts handle: numbers, strings, the boolean false a nil reply becomes,
    the table a status reply becomes, and nil. *)
Inductive lua := LNum (n : Z) | LStr (s : bytes) | LFalse | LStatus (s : bytes) | LNil.

Definition of_reply (r : reply) : lua + bytes :=
  match r with
  | RInt n => inl (LNum n)
  | RBulk s => inl (LStr s)
  | RNil => inl LFalse
  | RSimple s => inl (LStatus s)
  | RErr m => inr m
  | RArr _ => inr (B "table")
  end.

(** What the reply to [EVAL] is for the value a script returns. *)
Definition to_reply (v : lua) : reply :=
  match v with
  | LNum n => RInt n | LStr s => RBulk s | LFalse => RNil | LStatus s => RSimple s | LNil => RNil
  end.

(** [a and b] *)
Definition lua_and (a b : lua) : lua :=
  match a with LFalse | LNil => a | _ => b end.

Section Lua.
Context `{RedisStore}.

(** A script runs on the server; a raised error ends it and keeps the effects so far. *)
Definition Lua (A : Type) := srv → srv * (A + bytes).
Definition lret {A} (a : A) : Lua A := fun s => (s, inl a).
Definition lbind {A C} (m : Lua A) (k : A → Lua C) : Lua C := fun s =>
  match m s with (s', inl a) => k a s' | (s', inr e) => (s', inr e) end.
Definition lraise {A} (e : bytes) : Lua A := fun s => (s, inr e).

(** Arguments of [redis.call] must be strings or numbers. *)
Definition lua_arg (v : lua) : option bytes :=
  match v with LStr s => Some s | LNum n => Some (Itoa n) | _ => None end.

Definition redis_call (cmd : bytes) (args : list lua) : Lua lua := fun s =>
  match mapM lua_arg args with
  | None => (s, inr (B "Lua redis() command arguments must be strings or integers"))
  | Some args =>
      let '(s', r) := call s cmd args in
      match of_reply r with inl v => (s', inl v) | inr e => (s', inr e) end
  end.

Notation "x <- m ;; k" := (lbind m (fun x => k)) (at level 100, m at next level, right associativity).

(** [KEYS[1]] is [q]; a script reads [ARGV] from [argv]. *)
Definition script := bytes → list bytes → Lua lua.

Definition ARGV (argv : list bytes) (i : nat) : lua :=
  match argv !! (i - 1)%nat with Some s => LStr s | None => LNil end.

(** [..] on a string and a value. *)
Definition concat_ (a : bytes) (v : lua) : Lua bytes :=
  match v with
  | LStr s => lret (a ++ s)
  | LNum n => lret (a ++ Itoa n)
  | _ => lraise (B "attempt to concatenate")
  end.

Definition q_set (q : bytes) : bytes := q ++ B "_set".

(** [SCRIPT_PUSH] of [lib/unique_queue.go] *)
Definition lua_push : script := fun q argv =>
  v <- redis_call (B "SADD") [LStr (q_set q); ARGV argv 1] ;;
  match v with
  | LNum 1 => x <- redis_call (B "RPUSH") [LStr q; ARGV argv 1] ;; lret (lua_and x (LNum 1))
  | _ => lret (LNum 0)
  end.

(** [SCRIPT_POP]: [v ~= ""] also holds for the boolean of an empty queue. *)
Definition lua_pop : script := fun q argv =>
  v <- redis_call (B "LPOP") [LStr q] ;;
  match v with
  | LStr [] => lret v
  | _ => _ <- redis_call (B "SREM") [LStr (q_set q); v] ;; lret v
  end.

(** [SCRIPT_PRIORITY_PUSH] of [lib/priority_queue.go] *)
Definition lua_priority_push : script := fun q argv =>
  v <- redis_call (B "SADD") [LStr (q_set q); ARGV argv 1] ;;
  match v with
  | LNum 1 =>
      q_pri <- concat_ (q ++ B "_") (ARGV argv 2) ;;
      x <- redis_call (B "RPUSH") [LStr q_pri; ARGV argv 1] ;; lret (lua_and x (LNum 1))
  | _ => lret (LNum 0)
  end.

(** The loop of [SCRIPT_PRIORITY_POP] from queue number [i]; [k] rounds are left. *)
Fixpoint lua_priority_loop (q : bytes) (k : nat) (i : Z) : Lua lua :=
  match k with
  | O => lret LNil
  | S k' =>
      v <- redis_call (B "LPOP") [LStr (q ++ B "_" ++ Itoa i)] ;;
      match v with
      | LFalse => lua_priority_loop q k' (i + 1)
      | _ => _ <- redis_call (B "SREM") [LStr (q_set q); v] ;; lret v
      end
  end.

(** [SCRIPT_PRIORITY_POP]; the client passes a decimal integer, so that [tonumber] is [Atoi];
    comparing with the nil of a failed conversion raises. *)
Definition lua_priority_pop : script := fun q argv =>
  match ARGV argv 1 with
  | LStr a => match Atoi a with
              | (loop_num, None) => lua_priority_loop q (Z.to_nat loop_num) 1
              | _ => lraise (B "attempt to compare")
              end
  | _ => lraise (B "attempt to compare")
  end.

(** The scripts of [lib/redis_pool.go] *)
Definition lua_list_push : script := fun q argv => redis_call (B "RPUSH") [LStr q; ARGV argv 1].
Definition lua_get : script := fun q argv => redis_call (B "GET") [LStr q].
Definition lua_set : script := fun q argv => redis_call (B "SET") [LStr q; ARGV argv 1].
Definition lua_del : script := fun q argv => redis_call (B "DEL") [LStr q].
Definition lua_list_count : script := fun q argv => redis_call (B "LLEN") [LStr q].
Definition lua_list_pop : script := fun q argv =>
  v <- redis_call (B "LPOP") [LStr q] ;;
  match v with LStr [] => lret (LNum 0) | _ => lret v end.

End Lua.
