(* ===== verification/RedisQueue.v ===== *)
(** * [redis/script.go], [lib/unique_queue.go], [lib/priority_queue.go], [lib/redis_pool.go]

    The queues the collectors push statements to and the workers pop them from.  Every
    operation takes a connection from the pool, evaluates a Lua script by its hash (by its
    text when the server does not know it yet) and converts the reply. *)

From S2P Require Import Prelude GoStrings RedisReply RedisConn RedisConnProps RedisServer.

(** ** The texts of the scripts *)

(** The text of a raw string literal; a single quote stands for a double one. *)
Definition raw (s : string) : bytes := (fun c => if c =? 39 then 34 else c) <$> B s.
Arguments raw _%_string.

Definition SCRIPT_PUSH : bytes := raw "
local q = KEYS[1]
local q_set = KEYS[1] .. '_set'
local v = redis.call('SADD', q_set, ARGV[1])
if v == 1
then
	return redis.call('RPUSH', q, ARGV[1]) and 1
else
	return 0
end
".

Definition SCRIPT_POP : bytes := raw "
local q = KEYS[1]
local q_set = KEYS[1] .. '_set'
local v = redis.call('LPOP', q)
if v ~= ''
then
	redis.call('SREM', q_set, v)
end
return v
".

Definition SCRIPT_PRIORITY_PUSH : bytes := raw "
local q = KEYS[1]
local q_set = KEYS[1] .. '_set'
local v = redis.call('SADD', q_set, ARGV[1])
if v == 1
then
	local q_pri = KEYS[1] .. '_' .. ARGV[2]
	return redis.call('RPUSH', q_pri, ARGV[1]) and 1
else
	return 0
end

".

Definition SCRIPT_PRIORITY_POP : bytes := raw "
local q_set = KEYS[1] .. '_set'
local loop_num = tonumber(ARGV[1])
local i = 1

while (i <= loop_num) do
	local q = KEYS[1] .. '_' ..i
	local v = redis.call('LPOP', q)
	-- when not res, is bool
	if type(v) == 'boolean'
	then
		local x = KEYS[1] .. '_' ..i
	else
		redis.call('SREM', q_set, v)
		return v
	end
	i = i + 1
end
".

Definition SCRIPT_LIST_PUSH : bytes := raw "
local q = KEYS[1]
return redis.call('RPUSH', q, ARGV[1])
".

Definition SCRIPT_GET : bytes := raw "
local q = KEYS[1]
return redis.call('GET', q)
".

Definition SCRIPT_SET : bytes := raw "
local q = KEYS[1]
return redis.call('SET', q, ARGV[1])
".

Definition SCRIPT_DEL : bytes := raw "
local q = KEYS[1]
return redis.call('DEL', q)
".

Definition SCRIPT_LIST_COUNT : bytes := raw "
local q = KEYS[1]
return redis.call('LLEN', q)
".

Definition SCRIPT_LIST_POP : bytes := raw "
local q = KEYS[1]
local v = redis.call('LPOP', q)
if v ~= ''
then
	return v
end
return 0
".

(** Every script of the program with its translation. *)
Definition scripts `{RedisStore} : list (bytes * script) :=
  [ (SCRIPT_PUSH, lua_push); (SCRIPT_POP, lua_pop);
    (SCRIPT_PRIORITY_PUSH, lua_priority_push); (SCRIPT_PRIORITY_POP, lua_priority_pop);
    (SCRIPT_LIST_PUSH, lua_list_push); (SCRIPT_GET, lua_get); (SCRIPT_SET, lua_set);
    (SCRIPT_DEL, lua_del); (SCRIPT_LIST_COUNT, lua_list_count); (SCRIPT_LIST_POP, lua_list_pop) ].

(** ** Scripting on the server *)

Definition NOSCRIPT : bytes := B "NOSCRIPT No matching script. Please use EVAL.".

(** The reply to a script that has run; [wrap] is the text Redis puts around an error. *)
Definition run_script `{RedisStore} (wrap : bytes → bytes) (s : srv) (f : script)
    (q : bytes) (argv : list bytes) : srv * reply :=
  match f q argv s with
  | (s', inl v) => (s', to_reply v)
  | (s', inr e) => (s', RErr (wrap e))
  end.

(** What the program relies on: [EVAL] loads a script and runs it, [EVALSHA] runs a loaded
    one; the hash tells the scripts of the program apart. *)
Class RedisScripting `{RedisStore} := {
  sha1hex : bytes → bytes;
  load : srv → bytes → srv;
  wrap_error : bytes → bytes;
  load_value : ∀ s src k, value_at (load s src) k = value_at s k;
  load_cached : ∀ s src h, cached (load s src) h = if beq h (sha1hex src) then Some src else cached s h;
  eval_law : ∀ s src f q argv, (src, f) ∈ scripts →
    command s (B "EVAL") (src :: B "1" :: q :: argv) = run_script wrap_error (load s src) f q argv;
  evalsha_hit : ∀ s h src f q argv, (src, f) ∈ scripts → cached s h = Some src →
    command s (B "EVALSHA") (h :: B "1" :: q :: argv) = run_script wrap_error s f q argv;
  evalsha_miss : ∀ s h args, cached s h = None →
    command s (B "EVALSHA") (h :: args) = (s, RErr NOSCRIPT);
  wrap_not_noscript : ∀ e, HasPrefix (wrap_error e) (B "NOSCRIPT ") = false;
  sha1_scripts : ∀ a b, a ∈ scripts.*1 → b ∈ scripts.*1 → sha1hex a = sha1hex b → a = b;
}.

(** ** The client *)

(** What [pool.Get] returns: a connection to the server, or an [errorConn] when no connection
    could be had. *)
Inductive Conn := Live | ErrorConn (e : rerr).

Section Client.
Context `{RedisScripting}.

(** [rc.Do]: an [errorConn] returns its error; a live connection with nothing pending sends
    the texts of the arguments and returns the reply, with an error if it is one. *)
Definition conn_Do (rc : Conn) (cmd : bytes) (args : list arg) (s : srv)
  : (reply * option rerr) * srv :=
  match rc with
  | ErrorConn e => ((RNil, Some e), s)
  | Live =>
      let '(s', r) := command s cmd (arg_text <$> args) in
      ((r, match r with RErr m => Some (RedisError m) | _ => None end), s')
  end.

(** [type Script struct] *)
Record Script := mk_Script { keyCount : Z; src : bytes; hash : bytes }.

(** [func NewScript(keyCount int, src string) *Script] *)
Definition NewScript (keyCount : Z) (src : bytes) : Script := mk_Script keyCount src (sha1hex src).

(** [func (s *Script) args(spec string, keysAndArgs []interface{}) []interface{}] *)
Definition script_args (sc : Script) (spec : bytes) (keysAndArgs : list arg) : list arg :=
  if keyCount sc <? 0 then AString spec :: keysAndArgs
  else AString spec :: AInt (keyCount sc) :: keysAndArgs.

(** [func (s *Script) Hash() string] *)
Definition script_Hash (sc : Script) : bytes := hash sc.

(** [func (s *Script) Do(c Conn, keysAndArgs ...interface{}) (interface{}, error)] *)
Definition script_Do (sc : Script) (rc : Conn) (keysAndArgs : list arg) (s : srv)
  : (reply * option rerr) * srv :=
  let '((v, err), s1) := conn_Do rc (B "EVALSHA") (script_args sc (hash sc) keysAndArgs) s in
  match err with
  | Some (RedisError e) =>
      if HasPrefix e (B "NOSCRIPT ")
      then conn_Do rc (B "EVAL") (script_args sc (src sc) keysAndArgs) s1
      else ((v, err), s1)
  | _ => ((v, err), s1)
  end.

(** [if err == redis.ErrNil { err = nil }] *)
Definition ignore_nil (err : option rerr) : option rerr :=
  match err with Some ErrNil => None | _ => err end.

Definition int_result (x : (reply * option rerr) * srv) : (Z * option rerr) * srv :=
  let '((v, err), s) := x in
  let '(n, e) := Int v err in ((n, ignore_nil e), s).

Definition string_result (x : (reply * option rerr) * srv) : (bytes * option rerr) * srv :=
  let '((v, err), s) := x in
  let '(r, e) := String_ v err in ((r, ignore_nil e), s).

(** ** [lib/unique_queue.go] *)

(** [func (u *UniqueQueue) UniquePush(q string, body string) (int, error)] *)
Definition UniquePush (rc : Conn) (q body : bytes) (s : srv) : (Z * option rerr) * srv :=
  int_result (script_Do (NewScript 1 SCRIPT_PUSH) rc [AString q; AString body] s).

(** [func (u *UniqueQueue) UniquePop(q string) (resp string, err error)] *)
Definition UniquePop (rc : Conn) (q : bytes) (s : srv) : (bytes * option rerr) * srv :=
  string_result (script_Do (NewScript 1 SCRIPT_POP) rc [AString q] s).

(** [func (u *UniqueQueue) Length(q string) (resp int, err error)] *)
Definition UniqueLength (rc : Conn) (q : bytes) (s : srv) : (Z * option rerr) * srv :=
  let '((v, err), s) := conn_Do rc (B "LLEN") [AString q] s in (Int v err, s).

(** [func (u *UniqueQueue) getQueueSet(q string) string] *)
Definition getQueueSet (q : bytes) : bytes := q ++ B "_set".

(** [func (u *UniqueQueue) Clear(q string) (resp int, err error)] *)
Definition UniqueClear (rc : Conn) (q : bytes) (s : srv) : (Z * option rerr) * srv :=
  let '((v, err), s) := conn_Do rc (B "DEL") [AString q] s in
  match Int v err with
  | (n, Some e) => ((n, Some e), s)
  | (_, None) =>
      let '((v, err), s) := conn_Do rc (B "DEL") [AString (getQueueSet q)] s in (Int v err, s)
  end.

(** ** [lib/priority_queue.go] *)

Definition DEFAULT_PRIORITY : Z := 1.

(** [type PriorityQueue struct], without its pool *)
Record PriorityQueue := mk_PriorityQueue { Priority : Z; Unique : bool }.

(** [func NewPriorityQueue(priority int, unique bool, r *redis.Pool) *PriorityQueue] *)
Definition NewPriorityQueue (priority : Z) (unique : bool) : PriorityQueue :=
  mk_PriorityQueue (if priority <? 0 then DEFAULT_PRIORITY else priority) unique.

(** [func (u *PriorityQueue) Push(q string, body string, priority int) (int, error)] *)
Definition Push (rc : Conn) (q body : bytes) (priority : Z) (s : srv) : (Z * option rerr) * srv :=
  int_result (script_Do (NewScript 1 SCRIPT_PRIORITY_PUSH) rc
    [AString q; AString body; AInt priority] s).

(** [func (u *PriorityQueue) Pop(q string) (resp string, err error)] *)
Definition Pop (u : PriorityQueue) (rc : Conn) (q : bytes) (s : srv) : (bytes * option rerr) * srv :=
  string_result (script_Do (NewScript 1 SCRIPT_PRIORITY_POP) rc [AString q; AInt (Priority u)] s).

(** ** [lib/redis_pool.go] *)

(** [func ListPush(redis_client *redis.Pool, q string, body string) (int, error)] *)
Definition ListPush (rc : Conn) (q body : bytes) (s : srv) : (Z * option rerr) * srv :=
  int_result (script_Do (NewScript 1 SCRIPT_LIST_PUSH) rc [AString q; AString body] s).

(** [func ListPop(redis_client *redis.Pool, q string) (resp string, err error)] *)
Definition ListPop (rc : Conn) (q : bytes) (s : srv) : (bytes * option rerr) * srv :=
  string_result (script_Do (NewScript 1 SCRIPT_LIST_POP) rc [AString q] s).

(** [func GetKey(redis_client *redis.Pool, q string) (resp string, err error)] *)
Definition GetKey (rc : Conn) (q : bytes) (s : srv) : (bytes * option rerr) * srv :=
  string_result (script_Do (NewScript 1 SCRIPT_GET) rc [AString q] s).

(** [func DelKey(redis_client *redis.Pool, q string) (string, error)] *)
Definition DelKey (rc : Conn) (q : bytes) (s : srv) : (bytes * option rerr) * srv :=
  string_result (script_Do (NewScript 1 SCRIPT_DEL) rc [AString q] s).

(** [func SetKey(redis_client *redis.Pool, q string, body string) (int, error)] *)
Definition SetKey (rc : Conn) (q body : bytes) (s : srv) : (Z * option rerr) * srv :=
  int_result (script_Do (NewScript 1 SCRIPT_SET) rc [AString q; AString body] s).

(** [func ListCount(redis_client *redis.Pool, q string) (int, error)] *)
Definition ListCount (rc : Conn) (q : bytes) (s : srv) : (Z * option rerr) * srv :=
  int_result (script_Do (NewScript 1 SCRIPT_LIST_COUNT) rc [AString q] s).

End Client.

(** The [Dial] function of [NewRedisPool]: [dial] is the outcome of [redis.Dial], [auth] and
    [select] those of the two commands; the result is the connection and whether it has been
    closed.  A failed authentication is only logged, a failed selection closes the connection
    that is returned all the same, and without a password no database is selected. *)
Definition pool_Dial (RedisPw : bytes) (dial auth select : option rerr) : (bool + rerr) * list bytes :=
  match dial with
  | Some e => (inr e, [])
  | None =>
      if beq RedisPw [] then (inl false, [])
      else match select with
           | Some _ => (inl true, [B "AUTH"; B "SELECT"])
           | None => (inl false, [B "AUTH"; B "SELECT"])
           end
  end.
