(* ===== verification/RedisQueueProps.v ===== *)
(** * Properties of the queues

    Against the interface of [RedisServer]: evaluating a script does not depend on what the
    server has cached; the unique queue is a first-in first-out queue without duplicates; the
    priority queue serves the lowest number first; what the key helpers report. *)

From S2P Require Import Prelude GoStrings RedisReply RedisConn RedisConnProps RedisServer RedisQueue.

#[local] Arguments HasPrefix : simpl never.

(** ** Running scripts *)

Section Props.
Context `{RedisScripting}.

(** Two states of the server with the same values. *)
Definition same_values (s s' : srv) : Prop := ∀ k, value_at s' k = value_at s k.

(** The cache holds a script of the program under its own hash only. *)
Definition cache_ok (s : srv) : Prop :=
  ∀ t, t ∈ scripts.*1 → cached s (sha1hex t) = None ∨ cached s (sha1hex t) = Some t.

(** [s'] is [s] with the value of one key changed. *)
Definition updated (s s' : srv) (key : bytes) (v : rvalue) : Prop :=
  value_at s' key = v ∧ (∀ k, k ≠ key → value_at s' k = value_at s k) ∧
  (∀ h, cached s' h = cached s h).

Lemma updated_cache_ok s s' key v : updated s s' key v → cache_ok s → cache_ok s'.
Proof. intros (_ & _ & Hc) Hs t Ht. rewrite Hc. auto. Qed.

Lemma load_cache_ok s t : t ∈ scripts.*1 → cache_ok s → cache_ok (load s t).
Proof.
  intros Ht Hs t' Ht'. rewrite load_cached.
  destruct (beq (sha1hex t') (sha1hex t)) eqn:E; [|by apply Hs].
  apply beq_eq in E. right. f_equal. symmetry. by apply sha1_scripts.
Qed.

(** The error a reply is returned with. *)
Definition reply_error (r : reply) : option rerr :=
  match r with RErr m => Some (RedisError m) | _ => None end.

(** [EVALSHA] then [EVAL]: the script runs once, on a state with the same values. *)
Lemma script_Do_runs s t f q args :
  (t, f) ∈ scripts → cache_ok s →
  ∃ s0, same_values s s0 ∧ cache_ok s0 ∧
    script_Do (NewScript 1 t) Live (AString q :: args) s =
    let '(s', r) := run_script wrap_error s0 f q (arg_text <$> args) in ((r, reply_error r), s').
Proof.
  intros Hf Hs. assert (t ∈ scripts.*1) as Ht by (by apply (list_elem_of_fmap_2 fst _ _ Hf)).
  unfold script_Do, NewScript, script_args, conn_Do. cbn [keyCount hash src].
  change (1 <? 0) with false. cbn iota. csimpl. change (Itoa 1) with (B "1").
  destruct (Hs t Ht) as [Hc|Hc].
  - rewrite (evalsha_miss s _ _ Hc). cbn [reply_error].
    change (HasPrefix NOSCRIPT (B "NOSCRIPT ")) with true. cbn iota.
    rewrite (eval_law _ _ _ _ _ Hf). exists (load s t).
    split; [intros k; apply load_value|]. split; [by apply load_cache_ok|].
    by destruct (run_script _ _ _ _ _).
  - rewrite (evalsha_hit _ _ _ _ _ _ Hf Hc). exists s. split; [done|]. split; [done|].
    unfold run_script. destruct (f q _ s) as [s' [v|e]]; [by destruct v|].
    cbn [reply_error]. by rewrite wrap_not_noscript.
Qed.

(** One [redis.call] on a key. *)
Lemma redis_call_key s cmd key args args' v r :
  mapM lua_arg args = Some args' → key_command cmd (value_at s key) args' = Some (v, r) →
  ∃ s', updated s s' key v ∧
    redis_call cmd (LStr key :: args) s =
    (s', match of_reply r with inl x => inl x | inr e => inr e end).
Proof.
  intros Ha Hk. destruct (call_key _ _ _ _ _ _ Hk) as (s' & Hc & Hu). exists s'.
  split; [done|]. unfold redis_call. cbn [mapM mbind option_bind lua_arg].
  rewrite Ha. cbn. rewrite Hc. by destruct (of_reply r).
Qed.

Lemma ARGV_cons a argv : ARGV (a :: argv) 1 = LStr a.
Proof. done. Qed.

(** ** The unique queue *)

(** The list at [q] and the set at [q_set]. *)
Definition queue_is (s : srv) (q : bytes) (l : list bytes) (X : gset bytes) : Prop :=
  value_at s q = of_list l ∧ value_at s (q_set q) = of_set X ∧ cache_ok s.

Lemma q_set_ne q : q_set q ≠ q.
Proof. unfold q_set. intros E%(f_equal length). rewrite length_app in E. simpl in E. lia. Qed.

Lemma queue_is_same s s0 q l X :
  same_values s s0 → cache_ok s0 → queue_is s q l X → queue_is s0 q l X.
Proof. intros Hs Hc (Hq & Hx & _). unfold queue_is. by rewrite !Hs. Qed.

Lemma sadd_spec b X :
  key_command (B "SADD") (of_set X) [b] =
  Some (of_set ({[b]} ∪ X), RInt (if decide (b ∈ X) then 0 else 1)).
Proof.
  assert ({[b]} ∪ X ≠ ∅) as Hne by set_solver.
  unfold key_command, of_set. rewrite (decide_False (P := {[b]} ∪ X = ∅)) by done.
  destruct (decide (X = ∅)) as [->|HX]; [|done]. simpl.
  rewrite decide_False by set_solver. by replace ({[b]} ∪ ∅) with ({[b]} : gset bytes) by set_solver.
Qed.

Lemma srem_spec b X :
  key_command (B "SREM") (of_set X) [b] =
  Some (of_set (X ∖ {[b]}), RInt (if decide (b ∈ X) then 1 else 0)).
Proof.
  destruct (decide (X = ∅)) as [->|HX].
  - rewrite (decide_False (P := b ∈ ∅)) by set_solver.
    by replace (∅ ∖ {[b]}) with (∅ : gset bytes) by set_solver.
  - assert (of_set X = VSet X) as E by (unfold of_set; by rewrite decide_False). by rewrite E.
Qed.

Lemma rpush_spec b l :
  key_command (B "RPUSH") (of_list l) [b] = Some (of_list (l ++ [b]), RInt (len l + 1)).
Proof. destruct l; done. Qed.

Lemma lpop_spec l :
  key_command (B "LPOP") (of_list l) [] =
  match l with [] => Some (VNone, RNil) | x :: l' => Some (of_list l', RBulk x) end.
Proof. destruct l; done. Qed.

Lemma updated_queue_set s s' q l X Y :
  queue_is s q l X → updated s s' (q_set q) (of_set Y) → queue_is s' q l Y.
Proof.
  intros (Hq & Hx & Hc) Hu. split; [|split; [apply Hu|by eapply updated_cache_ok]].
  destruct Hu as (_ & Hf & _). rewrite Hf; [done|]. intros E. by apply (q_set_ne q).
Qed.

Lemma updated_queue_list s s' q l l' X :
  queue_is s q l X → updated s s' q (of_list l') → queue_is s' q l' X.
Proof.
  intros (Hq & Hx & Hc) Hu. split; [apply Hu|]. split; [|by eapply updated_cache_ok].
  destruct Hu as (_ & Hf & _). rewrite Hf; [done|]. apply q_set_ne.
Qed.

Lemma lua_push_spec s q b l X :
  queue_is s q l X →
  ∃ s', lua_push q [b] s = (s', inl (LNum (if decide (b ∈ X) then 0 else 1))) ∧
    queue_is s' q (if decide (b ∈ X) then l else l ++ [b]) ({[b]} ∪ X) ∧
    (∀ k, k ≠ q → k ≠ q_set q → value_at s' k = value_at s k).
Proof.
  intros Hq. unfold lua_push, lbind. rewrite ARGV_cons.
  destruct (redis_call_key s (B "SADD") (q_set q) [LStr b] [b] (of_set ({[b]} ∪ X))
    (RInt (if decide (b ∈ X) then 0 else 1))) as (s1 & Hu1 & ->); [done|..].
  { destruct Hq as (_ & -> & _). apply sadd_spec. }
  pose proof (updated_queue_set _ _ _ _ _ _ Hq Hu1) as Hq1. cbn [of_reply].
  destruct (decide (b ∈ X)).
  { exists s1. split; [done|]. split; [done|]. intros k _ Hk. by apply Hu1. }
  destruct (redis_call_key s1 (B "RPUSH") q [LStr b] [b] (of_list (l ++ [b])) (RInt (len l + 1)))
    as (s2 & Hu2 & ->); [done|..].
  { destruct Hq1 as (-> & _). apply rpush_spec. }
  exists s2. split; [done|]. split; [by eapply updated_queue_list|].
  intros k Hk Hk'. destruct Hu1 as (_ & Hf1 & _), Hu2 as (_ & Hf2 & _).
  by rewrite Hf2, Hf1.
Qed.

Lemma lua_pop_spec s q x l X :
  queue_is s q (x :: l) X →
  ∃ s', lua_pop q [] s = (s', inl (LStr x)) ∧
    queue_is s' q l (if decide (x = []) then X else X ∖ {[x]}).
Proof.
  intros Hq. unfold lua_pop, lbind.
  destruct (redis_call_key s (B "LPOP") q [] [] (of_list l) (RBulk x)) as (s1 & Hu1 & ->); [done|..].
  { destruct Hq as (-> & _). apply lpop_spec. }
  pose proof (updated_queue_list _ _ _ _ _ _ Hq Hu1) as Hq1. cbn [of_reply].
  destruct x as [|c x]; [by exists s1|]. rewrite decide_False by done.
  destruct (redis_call_key s1 (B "SREM") (q_set q) [LStr (c :: x)] [c :: x]
    (of_set (X ∖ {[c :: x]})) (RInt (if decide (c :: x ∈ X) then 1 else 0)))
    as (s2 & Hu2 & ->); [done|..].
  { destruct Hq1 as (_ & -> & _). apply srem_spec. }
  exists s2. split; [by cbn [of_reply]|]. by eapply updated_queue_set.
Qed.

(** On an empty queue the script raises: the boolean is no argument for [SREM]. *)
Lemma lua_pop_empty s q X :
  queue_is s q [] X →
  ∃ s' e, lua_pop q [] s = (s', inr e) ∧ queue_is s' q [] X.
Proof.
  intros Hq. unfold lua_pop, lbind.
  destruct (redis_call_key s (B "LPOP") q [] [] VNone RNil) as (s1 & Hu1 & ->); [done|..].
  { destruct Hq as (-> & _). apply (lpop_spec []). }
  exists s1. eexists. split; [done|]. by eapply (updated_queue_list s s1 q [] []).
Qed.

Lemma UniquePush_spec s q b l X :
  queue_is s q l X →
  ∃ s', UniquePush Live q b s = ((if decide (b ∈ X) then 0 else 1, None), s') ∧
    queue_is s' q (if decide (b ∈ X) then l else l ++ [b]) ({[b]} ∪ X) ∧
    (∀ k, k ≠ q → k ≠ q_set q → value_at s' k = value_at s k).
Proof.
  intros Hq. unfold UniquePush.
  destruct (script_Do_runs s SCRIPT_PUSH lua_push q [AString b]) as (s0 & Hs & Hc & ->);
    [by left|by apply Hq|].
  destruct (lua_push_spec s0 q b l X) as (s' & Hr & Hq' & Hf); [by eapply queue_is_same|].
  exists s'. split; [|split; [done|intros k Hk Hk'; by rewrite Hf, Hs]]. unfold run_script. csimpl. rewrite Hr. cbn [to_reply reply_error].
  by destruct (decide (b ∈ X)).
Qed.

Lemma UniquePop_spec s q x l X :
  queue_is s q (x :: l) X →
  ∃ s', UniquePop Live q s = ((x, None), s') ∧
    queue_is s' q l (if decide (x = []) then X else X ∖ {[x]}).
Proof.
  intros Hq. unfold UniquePop.
  destruct (script_Do_runs s SCRIPT_POP lua_pop q []) as (s0 & Hs & Hc & ->);
    [by right; left|by apply Hq|].
  destruct (lua_pop_spec s0 q x l X) as (s' & Hr & Hq'); [by eapply queue_is_same|].
  exists s'. split; [|done]. unfold run_script. csimpl. by rewrite Hr.
Qed.

Lemma UniquePop_empty s q X :
  queue_is s q [] X →
  ∃ s' e, UniquePop Live q s = (([], Some (RedisError e)), s') ∧ queue_is s' q [] X.
Proof.
  intros Hq. unfold UniquePop.
  destruct (script_Do_runs s SCRIPT_POP lua_pop q []) as (s0 & Hs & Hc & ->);
    [by right; left|by apply Hq|].
  destruct (lua_pop_empty s0 q X) as (s' & e & Hr & Hq'); [by eapply queue_is_same|].
  exists s', (wrap_error e). split; [|done]. unfold run_script. csimpl. by rewrite Hr.
Qed.

(** *** The abstract queue and the refinement *)

Inductive queue_op := OPush (b : bytes) | OPop.
Inductive queue_out := OutPushed (n : Z) | OutPopped (b : bytes) | OutError.

(** The specification: a first-in first-out queue that refuses what it already holds. *)
Definition queue_step (l : list bytes) (op : queue_op) : queue_out * list bytes :=
  match op, l with
  | OPush b, _ => if decide (b ∈ l) then (OutPushed 0, l) else (OutPushed 1, l ++ [b])
  | OPop, x :: l' => (OutPopped x, l')
  | OPop, [] => (OutError, [])
  end.
Fixpoint queue_run (l : list bytes) (ops : list queue_op) : list queue_out :=
  match ops with
  | [] => []
  | op :: ops' => let '(o, l') := queue_step l op in o :: queue_run l' ops'
  end.

(** The implementation, on the server. *)
Definition impl_step (q : bytes) (s : srv) (op : queue_op) : queue_out * srv :=
  match op with
  | OPush b => let '((n, e), s') := UniquePush Live q b s in
               (match e with None => OutPushed n | Some _ => OutError end, s')
  | OPop => let '((b, e), s') := UniquePop Live q s in
            (match e with None => OutPopped b | Some _ => OutError end, s')
  end.
Fixpoint impl_run (q : bytes) (s : srv) (ops : list queue_op) : list queue_out :=
  match ops with
  | [] => []
  | op :: ops' => let '(o, s') := impl_step q s op in o :: impl_run q s' ops'
  end.

(** The representation invariant: no duplicates, and the set holds what the list holds. *)
Definition represents (s : srv) (q : bytes) (l : list bytes) : Prop :=
  queue_is s q l (list_to_set l) ∧ NoDup l ∧ [] ∉ l.

Lemma impl_step_refines q s l op :
  represents s q l → op ≠ OPush [] →
  ∃ s', impl_step q s op = ((queue_step l op).1, s') ∧ represents s' q (queue_step l op).2.
Proof.
  intros (Hq & Hnd & Hne) Hop. destruct op as [b|]; cbn [impl_step queue_step].
  - destruct (UniquePush_spec s q b l _ Hq) as (s' & -> & Hq' & _).
    exists s'. destruct (decide (b ∈ l)) as [Hb|Hb]; cbn [fst snd];
      [rewrite decide_True in Hq' by set_solver; rewrite decide_True by set_solver
      |rewrite decide_False in Hq' by set_solver; rewrite decide_False by set_solver];
      (split; [done|]).
    + split; [|done]. by replace ({[b]} ∪ list_to_set l) with (list_to_set (C := gset bytes) l)
        in Hq' by set_solver.
    + split; [|split].
      * replace (list_to_set (l ++ [b])) with ({[b]} ∪ list_to_set (C := gset bytes) l); [done|].
        set_solver.
      * apply NoDup_app. split; [done|]. split; [|apply NoDup_singleton]. set_solver.
      * rewrite elem_of_app, list_elem_of_singleton. intros [?|?]; [done|]. by subst.
  - destruct l as [|x l].
    + destruct (UniquePop_empty s q _ Hq) as (s' & e & -> & Hq'). exists s'. done.
    + destruct (UniquePop_spec s q x l _ Hq) as (s' & -> & Hq'). exists s'. split; [done|].
      apply NoDup_cons in Hnd as [Hx Hnd]. apply not_elem_of_cons in Hne as [Hx0 Hne].
      cbn [snd]. split; [|done]. rewrite decide_False in Hq' by done.
      by replace (list_to_set (x :: l) ∖ {[x]}) with (list_to_set (C := gset bytes) l)
        in Hq' by set_solver.
Qed.

(** C2: Any sequence of UniquePush (of non-empty bodies) and UniquePop on the server returns
    exactly what a first-in first-out queue that refuses duplicates returns; a pop of the
    empty queue is an error. *)
Theorem unique_queue_refines q s l ops :
  represents s q l → Forall (fun op => op ≠ OPush []) ops →
  impl_run q s ops = queue_run l ops.
Proof.
  intros Hr Hops. revert s l Hr. induction Hops as [|op ops Hop Hops IH]; intros s l Hr; [done|].
  cbn [impl_run queue_run]. destruct (impl_step_refines q s l op Hr Hop) as (s' & -> & Hr').
  destruct (queue_step l op) as [o l']. cbn [fst snd] in *. f_equal. by apply IH.
Qed.

(** Once an empty body has been popped its mark stays in the set: it is refused ever
    after. *)
Lemma UniquePush_empty_body q s l X :
  queue_is s q ([] :: l) X → [] ∈ X →
  ∃ s1 s2, UniquePop Live q s = (([], None), s1) ∧ UniquePush Live q [] s1 = ((0, None), s2) ∧
    queue_is s2 q l X.
Proof.
  intros Hq Hin. destruct (UniquePop_spec s q [] l X Hq) as (s1 & E1 & Hq1).
  rewrite decide_True in Hq1 by done.
  destruct (UniquePush_spec s1 q [] l X Hq1) as (s2 & E2 & Hq2 & _).
  rewrite decide_True in E2 by done. rewrite decide_True in Hq2 by done. exists s1, s2. split; [done|]. split; [done|].
  by replace ({[[]]} ∪ X) with X in Hq2 by set_solver.
Qed.

(** *** Length and Clear *)

Lemma conn_Do_key s cmd key args v r :
  key_command cmd (value_at s key) (arg_text <$> args) = Some (v, r) →
  ∃ s', updated s s' key v ∧ conn_Do Live cmd (AString key :: args) s = ((r, reply_error r), s').
Proof.
  intros Hk. destruct (command_key _ _ _ _ _ _ Hk) as (s' & Hc & Hu). exists s'.
  split; [done|]. unfold conn_Do. csimpl. by rewrite Hc.
Qed.

Lemma del_spec v : ∃ r, key_command (B "DEL") v [] = Some (VNone, RInt r) ∧ (r = 0 ∨ r = 1).
Proof. destruct v; eexists; (split; [reflexivity|auto]). Qed.

(** Clear leaves an empty list and an empty set, so that Length is 0 afterwards. *)
Lemma UniqueClear_clears q s l X :
  queue_is s q l X →
  ∃ n s', UniqueClear Live q s = ((n, None), s') ∧ (n = 0 ∨ n = 1) ∧ queue_is s' q [] ∅ ∧
    (UniqueLength Live q s').1 = (0, None).
Proof.
  intros Hq. unfold UniqueClear.
  destruct (del_spec (value_at s q)) as (r1 & Hd1 & Hr1).
  destruct (conn_Do_key s (B "DEL") q [] _ _ Hd1) as (s1 & Hu1 & ->).
  cbn [reply_error].
  assert (Int (RInt r1) None = (r1, None)) as -> by (by destruct Hr1 as [-> | ->]).
  destruct (del_spec (value_at s1 (getQueueSet q))) as (r2 & Hd2 & Hr2).
  destruct (conn_Do_key s1 (B "DEL") (getQueueSet q) [] _ _ Hd2) as (s2 & Hu2 & ->).
  cbn [reply_error]. exists r2, s2.
  assert (Int (RInt r2) None = (r2, None)) as -> by (by destruct Hr2 as [-> | ->]).
  split; [done|]. split; [done|].
  pose proof (updated_queue_list s s1 q l [] X Hq Hu1) as Hq1.
  pose proof (updated_queue_set s1 s2 q [] X ∅ Hq1) as Hq2.
  assert (queue_is s2 q [] ∅) as Hq3.
  { apply Hq2. unfold q_set, getQueueSet in *. unfold of_set. by rewrite decide_True. }
  split; [done|]. unfold UniqueLength.
  destruct (conn_Do_key s2 (B "LLEN") q [] VNone (RInt 0)) as (s3 & Hu3 & ->); [|done].
  by destruct Hq3 as (-> & _).
Qed.

(** ** The key helpers *)

(** A script that is one [redis.call]. *)
Lemma run_one_call s t f cmd q args args' v r :
  (t, f) ∈ scripts → cache_ok s →
  (∀ s, f q (arg_text <$> args) s = redis_call cmd (LStr q :: args') s) →
  mapM lua_arg args' = Some (arg_text <$> args) →
  key_command cmd (value_at s q) (arg_text <$> args) = Some (v, r) →
  to_reply <$> (match of_reply r with inl x => Some x | inr _ => None end) = Some r →
  ∃ s', script_Do (NewScript 1 t) Live (AString q :: args) s = ((r, reply_error r), s') ∧
    value_at s' q = v ∧ (∀ k, k ≠ q → value_at s' k = value_at s k) ∧ cache_ok s'.
Proof.
  intros Hf Hc Hcall Ha Hk Hr.
  destruct (script_Do_runs s t f q args Hf Hc) as (s0 & Hs & Hc0 & ->).
  destruct (redis_call_key s0 cmd q args' (arg_text <$> args) v r Ha) as (s' & Hu & E);
    [by rewrite Hs|].
  exists s'. unfold run_script. rewrite Hcall, E.
  destruct (of_reply r) as [x|]; [|done]. simplify_eq/=.
  split; [done|]. destruct Hu as (Hv & Hfr & Hca).
  split; [done|]. split; [intros k Hkq; by rewrite Hfr, Hs|].
  intros t' Ht'. rewrite Hca. by apply Hc0.
Qed.

(** C40: SetKey stores the value, which GetKey then returns, but always reports an error,
    because the status reply is converted to an integer. *)
Theorem SetKey_stores_and_fails q body s :
  cache_ok s →
  ∃ s', SetKey Live q body s = ((0, Some (UnexpectedType (B "Int"))), s') ∧
    (GetKey Live q s').1 = (body, None) ∧
    (∀ k, k ≠ q → value_at s' k = value_at s k).
Proof.
  intros Hc. unfold SetKey, GetKey.
  destruct (run_one_call s SCRIPT_SET lua_set (B "SET") q [AString body] [LStr body]
    (VStr body) (RSimple (B "OK"))) as (s1 & -> & Hv & Hf & Hc1); try done.
  { do 6 right. by left. }
  exists s1. split; [done|]. split; [|done].
  destruct (run_one_call s1 SCRIPT_GET lua_get (B "GET") q [] [] (VStr body) (RBulk body))
    as (s2 & -> & _); try done.
  { do 5 right. by left. }
  by rewrite Hv.
Qed.

(** DelKey deletes the key but always reports an error, because the integer reply is
    converted to a string. *)
Lemma DelKey_deletes_and_fails q s :
  cache_ok s →
  ∃ s', DelKey Live q s = (([], Some (UnexpectedType (B "String"))), s') ∧
    value_at s' q = VNone ∧ (∀ k, k ≠ q → value_at s' k = value_at s k).
Proof.
  intros Hc. unfold DelKey. destruct (del_spec (value_at s q)) as (r & Hd & Hr).
  destruct (run_one_call s SCRIPT_DEL lua_del (B "DEL") q [] [] VNone (RInt r))
    as (s1 & -> & Hv & Hf & Hc1); try done.
  { do 7 right. by left. }
  by exists s1.
Qed.

(** ** The priority queue *)

Definition q_pri (q : bytes) (i : Z) : bytes := q ++ B "_" ++ Itoa i.

(** The lists of every priority and the set of members. *)
Definition pqueue_is (s : srv) (q : bytes) (ls : Z → list bytes) (X : gset bytes) : Prop :=
  (∀ i, int_ok 64 i → value_at s (q_pri q i) = of_list (ls i)) ∧
  value_at s (q_set q) = of_set X ∧ cache_ok s.

Lemma q_pri_inj q i j : int_ok 64 i → int_ok 64 j → q_pri q i = q_pri q j → i = j.
Proof.
  intros Hi Hj E. unfold q_pri in E. apply (inj (q ++.)) in E. apply (inj (B "_" ++.)) in E.
  apply (f_equal Atoi) in E. rewrite !Atoi_Itoa in E by done. congruence.
Qed.

Lemma q_pri_q_set q i : int_ok 64 i → q_pri q i ≠ q_set q.
Proof.
  intros Hi E. unfold q_pri, q_set in E. apply (inj (q ++.)) in E.
  change (B "_set") with (B "_" ++ B "set") in E. apply (inj (B "_" ++.)) in E.
  apply (f_equal Atoi) in E. rewrite Atoi_Itoa in E by done. discriminate.
Qed.

Lemma pqueue_is_same s s0 q ls X :
  same_values s s0 → cache_ok s0 → pqueue_is s q ls X → pqueue_is s0 q ls X.
Proof.
  intros Hs Hc (Hl & Hx & _). split; [|split; [by rewrite Hs|done]].
  intros i Hi. rewrite Hs. auto.
Qed.

Lemma updated_pqueue_set s s' q ls X Y :
  pqueue_is s q ls X → updated s s' (q_set q) (of_set Y) → pqueue_is s' q ls Y.
Proof.
  intros (Hl & Hx & Hc) Hu. pose proof (updated_cache_ok _ _ _ _ Hu Hc).
  destruct Hu as (Hv & Hf & _). split; [|done]. intros i Hi. rewrite Hf; [auto|].
  by apply q_pri_q_set.
Qed.

Lemma updated_pqueue_list s s' q ls l X i :
  int_ok 64 i → pqueue_is s q ls X → updated s s' (q_pri q i) (of_list l) →
  pqueue_is s' q (fun j => if decide (j = i) then l else ls j) X.
Proof.
  intros Hi (Hl & Hx & Hc) Hu. pose proof (updated_cache_ok _ _ _ _ Hu Hc).
  destruct Hu as (Hv & Hf & _). split; [|split; [|done]].
  - intros j Hj. destruct (decide (j = i)) as [->|Hne]; [done|]. rewrite Hf; [auto|].
    intros E. by apply q_pri_inj in E.
  - rewrite Hf; [done|]. intros E. symmetry in E. by apply q_pri_q_set in E.
Qed.

Lemma lua_priority_push_spec s q b i ls X :
  int_ok 64 i → pqueue_is s q ls X →
  ∃ s', lua_priority_push q [b; Itoa i] s = (s', inl (LNum (if decide (b ∈ X) then 0 else 1))) ∧
    pqueue_is s' q
      (if decide (b ∈ X) then ls else fun j => if decide (j = i) then ls i ++ [b] else ls j)
      ({[b]} ∪ X).
Proof.
  intros Hi Hq. unfold lua_priority_push, lbind. rewrite ARGV_cons.
  destruct (redis_call_key s (B "SADD") (q_set q) [LStr b] [b] (of_set ({[b]} ∪ X))
    (RInt (if decide (b ∈ X) then 0 else 1))) as (s1 & Hu1 & ->); [done|..].
  { destruct Hq as (_ & -> & _). apply sadd_spec. }
  pose proof (updated_pqueue_set _ _ _ _ _ _ Hq Hu1) as Hq1. cbn [of_reply].
  destruct (decide (b ∈ X)); [by exists s1|].
  change (concat_ (q ++ B "_") (ARGV [b; Itoa i] 2) s1)
    with (s1, inl ((q ++ B "_") ++ Itoa i) : bytes + bytes). cbn iota.
  rewrite <- app_assoc. change (q ++ B "_" ++ Itoa i) with (q_pri q i).
  destruct (redis_call_key s1 (B "RPUSH") (q_pri q i) [LStr b] [b] (of_list (ls i ++ [b]))
    (RInt (len (ls i) + 1))) as (s2 & Hu2 & ->); [done|..].
  { destruct Hq1 as (Hl & _). rewrite Hl by done. apply rpush_spec. }
  exists s2. split; [done|]. by eapply updated_pqueue_list.
Qed.

(** The loop passes over the empty lists. *)
Lemma lua_priority_loop_spec s q k i d x l ls X :
  1 ≤ i → i + Z.of_nat k ≤ max_int64 → (d < k)%nat →
  (∀ j, i ≤ j < i + Z.of_nat d → ls j = []) → ls (i + Z.of_nat d) = x :: l →
  pqueue_is s q ls X →
  ∃ s', lua_priority_loop q k i s = (s', inl (LStr x)) ∧
    pqueue_is s' q (fun j => if decide (j = i + Z.of_nat d) then l else ls j) (X ∖ {[x]}).
Proof.
  unfold max_int64. revert s i d. induction k as [|k IH]; intros s i d Hi Hk Hd Hempty Hx Hq; [lia|].
  assert (int_ok 64 i) as Hok by (unfold int_ok; lia).
  cbn [lua_priority_loop]. unfold lbind at 1. change (q ++ B "_" ++ Itoa i) with (q_pri q i).
  destruct d as [|d].
  - rewrite Z.add_0_r in *.
    destruct (redis_call_key s (B "LPOP") (q_pri q i) [] [] (of_list l) (RBulk x))
      as (s1 & Hu1 & ->); [done|..].
    { destruct Hq as (Hl & _). rewrite Hl, Hx by done. apply lpop_spec. }
    pose proof (updated_pqueue_list _ _ _ _ _ _ _ Hok Hq Hu1) as Hq1. cbn [of_reply].
    unfold lbind.
    destruct (redis_call_key s1 (B "SREM") (q_set q) [LStr x] [x] (of_set (X ∖ {[x]}))
      (RInt (if decide (x ∈ X) then 1 else 0))) as (s2 & Hu2 & ->); [done|..].
    { destruct Hq1 as (_ & -> & _). apply srem_spec. }
    exists s2. split; [by cbn [of_reply]|]. by eapply updated_pqueue_set.
  - destruct (redis_call_key s (B "LPOP") (q_pri q i) [] [] VNone RNil)
      as (s1 & Hu1 & ->); [done|..].
    { destruct Hq as (Hl & _). rewrite Hl, (Hempty i) by (done || lia). apply (lpop_spec []). }
    cbn [of_reply].
    pose proof (updated_pqueue_list s s1 q ls [] X i Hok Hq Hu1) as Hq1.
    destruct (IH s1 (i + 1) d) as (s' & E & Hq'); [lia|lia|lia| | | |].
    + intros j Hj. apply Hempty. lia.
    + rewrite <- Hx. f_equal. lia.
    + destruct Hq1 as (Hl & Hr). split; [|exact Hr]. intros j Hj. rewrite Hl by done.
      destruct (decide (j = i)) as [->|]; [|done]. by rewrite Hempty by lia.
    + exists s'. split; [done|].
      replace (i + Z.of_nat (S d)) with (i + 1 + Z.of_nat d) by lia. done.
Qed.

(** Pop of the priority queue returns the oldest element of the lowest-numbered non-empty
    list up to Priority, and removes it from that list and from the set. *)
Theorem Pop_lowest_first u q s ls X i x l :
  Priority u < max_int64 → 1 ≤ i ≤ Priority u → (∀ j, 1 ≤ j < i → ls j = []) → ls i = x :: l →
  pqueue_is s q ls X →
  ∃ s', Pop u Live q s = ((x, None), s') ∧
    pqueue_is s' q (fun j => if decide (j = i) then l else ls j) (X ∖ {[x]}).
Proof.
  intros Hp Hi Hempty Hx Hq. unfold Pop.
  destruct (script_Do_runs s SCRIPT_PRIORITY_POP lua_priority_pop q [AInt (Priority u)])
    as (s0 & Hs & Hc & ->); [do 3 right; by left|by apply Hq|].
  destruct (lua_priority_loop_spec s0 q (Z.to_nat (Priority u)) 1 (Z.to_nat (i - 1)) x l ls X)
    as (s' & E & Hq').
  - lia.
  - unfold max_int64 in *. lia.
  - lia.
  - intros j Hj. apply Hempty. lia.
  - rewrite <- Hx. f_equal. lia.
  - by eapply pqueue_is_same.
  - exists s'. replace (1 + Z.of_nat (Z.to_nat (i - 1))) with i in Hq' by lia. split; [|done].
    unfold run_script, lua_priority_pop. csimpl. rewrite Atoi_Itoa
      by (unfold int_ok, max_int64 in *; lia).
    by rewrite E.
Qed.

(** Push of the priority queue appends a new element to the list of its priority and
    reports 1; an element already in the set is refused with 0. *)
Theorem Push_appends q s b i ls X :
  int_ok 64 i → pqueue_is s q ls X →
  ∃ s', Push Live q b i s = ((if decide (b ∈ X) then 0 else 1, None), s') ∧
    pqueue_is s' q
      (if decide (b ∈ X) then ls else fun j => if decide (j = i) then ls i ++ [b] else ls j)
      ({[b]} ∪ X).
Proof.
  intros Hi Hq. unfold Push.
  destruct (script_Do_runs s SCRIPT_PRIORITY_PUSH lua_priority_push q [AString b; AInt i])
    as (s0 & Hs & Hc & ->); [do 2 right; by left|by apply Hq|].
  destruct (lua_priority_push_spec s0 q b i ls X Hi) as (s' & E & Hq'); [by eapply pqueue_is_same|].
  exists s'. split; [|done]. unfold run_script. csimpl. rewrite E. by destruct (decide (b ∈ X)).
Qed.

End Props.
