(* ===== verification/RedisInstance.v ===== *)
(** * A server that satisfies the laws

    A map from keys to values and a script cache: it shows that the interface the queue
    theorems assume can be met, and gives the concrete runs. *)

From S2P Require Import Prelude GoStrings RedisReply RedisConn RedisConnProps RedisServer RedisQueue RedisQueueProps.

Module MapServer.

Record state := mk_state { kv : gmap bytes rvalue; cache : gmap bytes bytes }.

Definition value (s : state) (k : bytes) : rvalue := default VNone (kv s !! k).

Definition base (s : state) (cmd : bytes) (args : list bytes) : state * reply :=
  match args with
  | key :: args =>
      match key_command cmd (value s key) args with
      | Some (v, r) => (mk_state (<[key := v]> (kv s)) (cache s), r)
      | None => (s, RErr (B "ERR unknown command"))
      end
  | [] => (s, RErr (B "ERR unknown command"))
  end.

Lemma base_key s cmd key args v r :
  key_command cmd (value s key) args = Some (v, r) →
  ∃ s', base s cmd (key :: args) = (s', r) ∧ value s' key = v ∧
        (∀ k, k ≠ key → value s' k = value s k) ∧ (∀ h, cache s' !! h = cache s !! h).
Proof.
  intros Hk. unfold base. rewrite Hk. eexists. split; [done|]. unfold value. cbn [kv cache].
  rewrite lookup_insert_eq. split; [done|]. split; [|done].
  intros k Hne. by rewrite lookup_insert_ne.
Qed.

(** Scripts only use [call]; they are defined before the commands that run them. *)
Definition plain : RedisStore := {|
  srv := state; command := base; call := base; value_at := value;
  cached := fun s h => cache s !! h;
  command_key := base_key; call_key := base_key |}.

Definition load_script (s : state) (t : bytes) : state := mk_state (kv s) (<[t := t]> (cache s)).

Definition wrap (e : bytes) : bytes := B "ERR Error running script: " ++ e.

Definition run_text (s : state) (t q : bytes) (argv : list bytes) : state * reply :=
  match List.find (fun tf => beq tf.1 t) (@scripts plain) with
  | Some tf => @run_script plain wrap s tf.2 q argv
  | None => (s, RErr (B "ERR unknown script"))
  end.

Definition commands (s : state) (cmd : bytes) (args : list bytes) : state * reply :=
  if beq cmd (B "EVAL") then
    match args with
    | t :: _ :: q :: argv => run_text (load_script s t) t q argv
    | _ => (s, RErr (B "ERR wrong number of arguments"))
    end
  else if beq cmd (B "EVALSHA") then
    match args with
    | h :: rest =>
        match cache s !! h with
        | None => (s, RErr NOSCRIPT)
        | Some t => match rest with
                    | _ :: q :: argv => run_text s t q argv
                    | _ => (s, RErr (B "ERR wrong number of arguments"))
                    end
        end
    | _ => (s, RErr (B "ERR wrong number of arguments"))
    end
  else base s cmd args.

Lemma commands_key s cmd key args v r :
  key_command cmd (value s key) args = Some (v, r) →
  ∃ s', commands s cmd (key :: args) = (s', r) ∧ value s' key = v ∧
        (∀ k, k ≠ key → value s' k = value s k) ∧ (∀ h, cache s' !! h = cache s !! h).
Proof.
  intros Hk. unfold commands.
  destruct (beq cmd (B "EVAL")) eqn:E1; [apply beq_eq in E1; subst; discriminate|].
  destruct (beq cmd (B "EVALSHA")) eqn:E2; [apply beq_eq in E2; subst; discriminate|].
  by apply base_key.
Qed.

#[export] Instance store : RedisStore := {|
  srv := state; command := commands; call := base; value_at := value;
  cached := fun s h => cache s !! h;
  command_key := commands_key; call_key := base_key |}.

Lemma run_text_script s t f q argv :
  (t, f) ∈ (@scripts store) → run_text s t q argv = run_script (H := store) wrap s f q argv.
Proof.
  intros Hf. unfold scripts in Hf.
  repeat (apply elem_of_cons in Hf as [[= -> ->]|Hf]; [reflexivity|]). by apply elem_of_nil in Hf.
Qed.

#[export] Instance scripting : RedisScripting (H := store).
Proof.
  refine (Build_RedisScripting store (fun t => t) load_script wrap _ _ _ _ _ _ _).
  - done.
  - intros s t h. cbn. destruct (beq h t) eqn:E.
    + apply beq_eq in E as ->. by rewrite lookup_insert_eq.
    + apply beq_neq in E. by rewrite lookup_insert_ne.
  - intros s t f q argv Hf. cbn. by apply run_text_script.
  - intros s h t f q argv Hf Hc. change (cache s !! h = Some t) in Hc.
    change (commands s (B "EVALSHA") (h :: B "1" :: q :: argv) = run_script (H := store) wrap s f q argv).
    unfold commands. change (beq (B "EVALSHA") (B "EVAL")) with false.
    rewrite beq_refl. cbn iota. rewrite Hc. by apply run_text_script.
  - intros s h args Hc. change (cache s !! h = None) in Hc.
    change (commands s (B "EVALSHA") (h :: args) = (s, RErr NOSCRIPT)).
    unfold commands. change (beq (B "EVALSHA") (B "EVAL")) with false.
    rewrite beq_refl. cbn iota. by rewrite Hc.
  - done.
  - done.
Defined.

(** A server with nothing in it. *)
Definition fresh : state := mk_state ∅ ∅.

Lemma fresh_cache_ok : cache_ok (H0 := scripting) fresh.
Proof. intros t Ht. by left. Qed.

End MapServer.

Import MapServer.

(** ** Concrete runs *)

Lemma fresh_represents : represents (H0 := scripting) fresh (B "q") [].
Proof.
  split; [split; [done|split; [done|apply fresh_cache_ok]]|].
  split; [constructor|apply not_elem_of_nil].
Qed.

(** The queue after one push of the empty string. *)
Definition holds_empty : state :=
  mk_state {[ B "q" := VList [[]]; B "q_set" := VSet {[ [] ]} ]} ∅.

Lemma unique_queue_refines_witness :
  impl_run (H0 := scripting) (B "q") fresh
    [OPush (B "a"); OPush (B "b"); OPush (B "a"); OPop; OPush (B "a"); OPop; OPop; OPop] =
  [OutPushed 1; OutPushed 1; OutPushed 0; OutPopped (B "a"); OutPushed 1; OutPopped (B "b");
   OutPopped (B "a"); OutError].
Proof.
  rewrite (unique_queue_refines (H0 := scripting) (B "q") fresh []).
  - vm_compute. reflexivity.
  - apply fresh_represents.
  - repeat constructor; discriminate.
Defined.

Lemma UniquePush_empty_body_witness :
  ∃ s1 s2, UniquePop (H0 := scripting) Live (B "q") holds_empty = (([], None), s1) ∧
    UniquePush (H0 := scripting) Live (B "q") [] s1 = ((0, None), s2) ∧
    queue_is (H0 := scripting) s2 (B "q") [] {[ [] ]}.
Proof.
  apply (UniquePush_empty_body (H0 := scripting) (B "q") holds_empty [] {[ [] ]}).
  - split; [reflexivity|]. split; [reflexivity|]. intros t Ht. left. reflexivity.
  - set_solver.
Defined.

Lemma UniqueClear_clears_witness :
  ∃ n s', UniqueClear (H := store) Live (B "q") holds_empty = ((n, None), s') ∧
    (n = 0 ∨ n = 1) ∧ queue_is (H0 := scripting) s' (B "q") [] ∅ ∧
    (UniqueLength (H := store) Live (B "q") s').1 = (0, None).
Proof.
  apply (UniqueClear_clears (H0 := scripting) (B "q") holds_empty [[]] {[ [] ]}).
  split; [reflexivity|]. split; [reflexivity|]. intros t Ht. left. reflexivity.
Defined.

Lemma SetKey_stores_and_fails_witness :
  ∃ s', SetKey (H0 := scripting) Live (B "k") (B "v") fresh = ((0, Some (UnexpectedType (B "Int"))), s') ∧
    (GetKey (H0 := scripting) Live (B "k") s').1 = (B "v", None) ∧
    (∀ k, k ≠ B "k" → value_at s' k = value_at (RedisStore := store) fresh k).
Proof. apply (SetKey_stores_and_fails (H0 := scripting) (B "k") (B "v") fresh), fresh_cache_ok. Defined.

Lemma DelKey_deletes_and_fails_witness :
  ∃ s', DelKey (H0 := scripting) Live (B "q") holds_empty = (([], Some (UnexpectedType (B "String"))), s') ∧
    value_at (RedisStore := store) s' (B "q") = VNone ∧
    (∀ k, k ≠ B "q" → value_at s' k = value_at (RedisStore := store) holds_empty k).
Proof.
  apply (DelKey_deletes_and_fails (H0 := scripting) (B "q") holds_empty).
  intros t Ht. left. reflexivity.
Defined.

(** Queue 2 holds two statements, queue 1 none. *)
Definition two_priorities : state :=
  mk_state {[ B "q_2" := VList [B "a"; B "b"]; B "q_set" := VSet {[ B "a"; B "b" ]} ]} ∅.
Definition two_lists (i : Z) : list bytes := if decide (i = 2) then [B "a"; B "b"] else [].

Lemma two_priorities_is :
  pqueue_is (H0 := scripting) two_priorities (B "q") two_lists {[ B "a"; B "b" ]}.
Proof.
  split; [|split; [vm_compute; reflexivity|intros t Ht; by left]].
  intros i Hi. cbn. unfold value, two_priorities. cbn [kv]. unfold two_lists.
  destruct (decide (i = 2)) as [->|Hne]; [reflexivity|].
  rewrite lookup_insert_ne.
  - rewrite lookup_singleton_ne; [reflexivity|]. intros E. symmetry in E.
    by apply (q_pri_q_set (B "q")) in E.
  - intros E. change (B "q_2") with (q_pri (B "q") 2) in E.
    apply q_pri_inj in E; [congruence| |done]. unfold int_ok. lia.
Qed.

Lemma Pop_lowest_first_witness :
  ∃ s', Pop (H0 := scripting) (NewPriorityQueue 3 true) Live (B "q") two_priorities = ((B "a", None), s') ∧
    pqueue_is (H0 := scripting) s' (B "q") (fun j => if decide (j = 2) then [B "b"] else two_lists j)
      ({[ B "a"; B "b" ]} ∖ {[ B "a" ]}).
Proof.
  apply (Pop_lowest_first (H0 := scripting) (NewPriorityQueue 3 true) (B "q") two_priorities
    two_lists {[ B "a"; B "b" ]} 2 (B "a") [B "b"]).
  - vm_compute. reflexivity.
  - cbn. lia.
  - intros j Hj. unfold two_lists. rewrite decide_False by lia. reflexivity.
  - reflexivity.
  - apply two_priorities_is.
Defined.

Lemma Push_appends_witness :
  ∃ s', Push (H0 := scripting) Live (B "q") (B "c") 1 two_priorities = ((1, None), s') ∧
    pqueue_is (H0 := scripting) s' (B "q")
      (fun j => if decide (j = 1) then two_lists 1 ++ [B "c"] else two_lists j)
      ({[ B "c" ]} ∪ {[ B "a"; B "b" ]}).
Proof.
  destruct (Push_appends (H0 := scripting) (B "q") two_priorities (B "c") 1 two_lists {[ B "a"; B "b" ]})
    as (s' & E & Hq).
  - unfold int_ok. lia.
  - apply two_priorities_is.
  - rewrite decide_False in E by (apply (bool_decide_unpack _); vm_compute; exact I).
    rewrite decide_False in Hq by (apply (bool_decide_unpack _); vm_compute; exact I).
    exists s'. split; [exact E|exact Hq].
Defined.
