(* ===== verification/Pipeline.v ===== *)
(** * [lib/soar.go] and [testSQL.go]: from collected statements to samples

    The test environment pops collected statements off the branch queues, fingerprints each
    ([ExcuteUnique]), pushes new fingerprints to the unique queue of the branch and forwards
    samples ([importToRedis]); [NewExplainData] gathers the samples of a fingerprint and posts
    them when it has enough.  A goroutine that is started is a value of the result. *)

From S2P Require Import Prelude GoStrings Fingerprint Digest Records Config.
From S2P Require Import RedisReply RedisConn RedisServer RedisQueue.

(** ** Text handling *)

(** The escapes [\u003c] and [\u003e] that [encoding/json] writes for the angle brackets. *)
Definition esc_lt : bytes := B "\u003c".
Definition esc_gt : bytes := B "\u003e".

(** The four replacements of [ExcuteUnique]; the last two replace a bracket by itself, since
    the source spells it with an escape inside an interpreted string. *)
Definition unescape_info (s : bytes) : bytes :=
  let s := if negb (Index s esc_lt =? -1) then ReplaceAll s esc_lt (B "<") else s in
  let s := if negb (Index s esc_gt =? -1) then ReplaceAll s esc_gt (B ">") else s in
  let s := if negb (Index s (B "<") =? -1) then ReplaceAll s (B "<") (B "<") else s in
  if negb (Index s (B ">") =? -1) then ReplaceAll s (B ">") (B ">") else s.

(** [sqlStr]: single quotes become double quotes (the second replacement changes nothing). *)
Definition requote (s : bytes) : bytes :=
  ReplaceAll (ReplaceAll s (B "'") [34]) [34] [34].

Definition set_Info (info : bytes) (sql : SqlInfo) : SqlInfo :=
  mk_SqlInfo info (Trace sql) (Route sql) (Branch sql) (Dsn sql).

(** The brackets of a fingerprint line. *)
Definition unescape_line (line : bytes) : bytes :=
  let line := if negb (Index line (B "u003e") =? -1) then ReplaceAll line (B "u003e") (B ">") else line in
  if negb (Index line (B "u003c") =? -1) then ReplaceAll line (B "u003c") (B "<") else line.

(** The database name in a DSN: what stands between [dbname=] and the next bracket. *)
Definition dsn_db (dsn : bytes) : Go bytes :=
  let pos := Index dsn (B "dbname=") in
  if negb (pos =? -1) then
    let* tail := go_slice dsn pos (len dsn) in
    let end_ := Index tail (B "]") in
    if negb (end_ =? -1) then go_slice dsn (pos + 7) (pos + end_) else Ret []
  else Ret [].

(** [getUnicode]: removes the text between the escaped brackets. *)
Definition getUnicode (data : bytes) : Go bytes :=
  let start := Index data esc_lt in
  let* tail := go_slice data start (len data) in
  let end_ := Index tail esc_gt in
  let* old := go_slice data start (start + end_ + 6) in
  Ret (ReplaceAll data old []).

(** [strings.SplitN(s, sep, -1)] for a non-empty separator. *)
Fixpoint split_go (s sep : bytes) (skip : nat) (cur : bytes) : list bytes :=
  match s with
  | [] => [reverse cur]
  | c :: s' =>
      match skip with
      | S k => split_go s' sep k cur
      | O => if HasPrefix s sep then reverse cur :: split_go s' sep (length sep - 1) []
             else split_go s' sep 0 (c :: cur)
      end
  end.
Definition Split (s sep : bytes) : list bytes := split_go s sep 0 [].

(** The loop of [analyseSql] over the columns of the two rows. *)
Fixpoint analyse_columns (header pargam : list bytes) (i : nat) (m : gmap bytes bytes)
  : Go (gmap bytes bytes) :=
  match header with
  | [] => Ret m
  | h :: header' =>
      if beq h [] then analyse_columns header' pargam (S i) m
      else
        let h := ReplaceAll h (B "\\") [] in
        let* p := go_index pargam (Z.of_nat i) in
        let p := ReplaceAll p (B "\\") [] in
        let* p := if negb (Index p (B "\u") =? -1) then getUnicode p else Ret p in
        analyse_columns header' pargam (S i) (<[h := p]> m)
  end.

(** [func analyseSql(sqlContent string, ...)]: the map it logs. *)
Definition analyseSql (sqlContent : bytes) : Go (gmap bytes bytes) :=
  let comma := Index sqlContent (B "Explain") in
  let* t1 := go_slice sqlContent comma (len sqlContent) in
  let start := Index t1 (B "Content") in
  let* t2 := go_slice sqlContent (comma + start) (len sqlContent) in
  let pos := Index t2 (B "Position") in
  let* explainContent := go_slice sqlContent (comma + start + 11) (comma + start + pos - 10) in
  let data := Split explainContent (B "\n") in
  let* d0 := go_index data 0 in
  let* d2 := go_index data 2 in
  analyse_columns (SplitByte d0 (chr "|")) (SplitByte d2 (chr "|")) 0 ∅.

(** The [soar] command line of [ExcuteSql]. *)
Definition soar_dsn (user pw host : bytes) (port : Z) (db : bytes) : bytes :=
  user ++ B ":" ++ pw ++ B "@" ++ host ++ B ":" ++ Itoa port ++ B "/" ++ db.
Definition ExcuteSql (sql : ExplainsResult) (cfg : AppConfig) : Go bytes :=
  let* first := go_index (r_Arr sql) 0 in
  let sqlStr := requote (Info first) in
  let str := cfg_string cfg in
  Ret (B "echo '" ++ sqlStr ++ B "'|./soarbin/soar -test-dsn='" ++
       soar_dsn (str (B "SoarTestDsnUser")) (str (B "SoarTestDsnPw")) (str (B "SoarTestDsnHost"))
         (cfg_int cfg (B "SoarTestDsnPort")) (str (B "SoarTestDsnDb")) ++
       B "' -online-dsn='" ++
       soar_dsn (str (B "SoarOnlineDsnUser")) (str (B "SoarOnlineDsnPw")) (str (B "SoarOnlineDsnHost"))
         (cfg_int cfg (B "SoarOnlineDsnPort")) (str (B "SoarOnlineDsnDb")) ++
       B "' -allow-online-as-test -report-type json").

(** [func execCommandSql(params, ...) bool]: the argument vector for the operating system,
    and what is read of the output [out] of the process, line by line. *)
Definition shell_of (shell : bytes) (sysType : bytes) : bytes * bytes :=
  let c := if beq sysType (B "linux") then (shell, B "-c") else ([], []) in
  if beq sysType (B "windows") then (B "cmd", B "/C") else c.

Definition execCommandSql (sysType params : bytes) (pipe_error : bool) (out : bytes)
  : list bytes * option (Go (gmap bytes bytes)) * bool :=
  let '(cmmd, cmmdTmp) := shell_of (B "/bin/bash") sysType in
  let argv := [cmmd; cmmdTmp; params] in
  if pipe_error then (argv, None, false)
  else
    let sqlContent := foldl (fun acc line => acc ++ line) [] (read_lines out []) in
    (argv, Some (analyseSql sqlContent), true).

(** ** Fingerprinting a statement *)

Section Pipeline.
Context `{UnicodeTables} `{Md5} `{RedisScripting}.

(** The goroutine [ExcuteUnique] starts: the arguments of [importToRedis]. *)
Record import_job := mk_job { j_line : bytes; j_sql : SqlInfo }.

(** [func ExcuteUnique(sql SqlInfo, ...)]: [recover] is installed after [Fingerprint] has
    returned, so a panic of [Fingerprint] leaves the function. *)
Definition ExcuteUnique (sql : SqlInfo) : Go (option import_job) :=
  let sqlStr := requote (Info sql) in
  let sql := set_Info (unescape_info (Info sql)) sql in
  if negb (beq sqlStr []) then
    let* f := Fingerprint false sqlStr in
    Ret (Some (mk_job (TrimSpace f) sql))
  else Ret None.

(** ** Deduplication and sampling *)

(** The record [importToRedis] and [execCommand] send. *)
Definition sample_record (line db : bytes) (sql : SqlInfo) : ExplainsResult :=
  mk_ExplainsResult line [sql] [] [] [] 0 [] (Branch sql) db (Route sql).

(** What a run of [importToRedis] yields: its result, the records sent on [SqlExplain] and
    the server. *)
Definition import_result := ((bool * list ExplainsResult) * srv)%type.

(** The part [importToRedis] and [execCommand] share, from the unique queue on; [db_of] is
    how they find the database.  Every Redis operation takes a connection from the pool. *)
Definition push_and_sample (rc_push rc_set rc_get : Conn) (db_of : bytes → Go bytes)
    (line : bytes) (sql : SqlInfo) (s : srv) : Go import_result :=
  let branchName := B "julive_" ++ Branch sql in
  let '((resp, _), s) := UniquePush rc_push branchName line s in
  let s := if resp =? 1 then (SetKey rc_set (NewMd5 line) (B "1") s).2 else s in
  let '((SqlKey, _), s) := GetKey rc_get (NewMd5 line) s in
  if negb (beq SqlKey []) then
    let* db := db_of (Dsn sql) in
    Ret ((true, [sample_record line db sql]), s)
  else Ret ((true, []), s).

(** [func importToRedis(line string, ...) bool] *)
Definition importToRedis (rc_push rc_set rc_get : Conn) (line : bytes) (sql : SqlInfo) (s : srv)
  : Go import_result :=
  if beq line [] then Ret ((false, []), s)
  else push_and_sample rc_push rc_set rc_get dsn_db (unescape_line line) sql s.

(** The database in [execCommand]: the slice is taken before the position is tested. *)
Definition dsn_db_unchecked (dsn : bytes) : Go bytes :=
  let pos := Index dsn (B "dbname=") in
  let* tail := go_slice dsn pos (len dsn) in
  let end_ := Index tail (B "]") in
  if negb (pos =? -1) && negb (end_ =? -1) then go_slice dsn (pos + 7) (pos + end_) else Ret [].

(** [func execCommand(params string, ...) bool]; [output] is what the command printed, or
    nothing when it failed. *)
Definition execCommand (rc_push rc_set rc_get : Conn) (output : option bytes) (sql : SqlInfo) (s : srv)
  : Go import_result :=
  match output with
  | None => Ret ((false, []), s)
  | Some line =>
      if beq line [] then Ret ((false, []), s)
      else
        let* line := go_slice line 0 (len line - 1) in
        push_and_sample rc_push rc_set rc_get dsn_db_unchecked (unescape_line line) sql s
  end.

(** ** Gathering samples *)

(** [SqlExplainArr] *)
Definition samples := gmap bytes ExplainsResult.

Definition set_Arr (arr : list SqlInfo) (r : ExplainsResult) : ExplainsResult :=
  mk_ExplainsResult (r_Expl r) arr (r_Explain r) (r_Last_query_cost r) (r_Level r) (r_Score r)
    (r_Content r) (r_Branch r) (r_Db r) (r_Route r).

(** One round of the loop of [NewExplainData]: the map and the server afterwards, and the
    record that is posted, if any; its key is then deleted on the server. *)
Definition explain_data_step (rc : Conn) (RedisSampling : Z) (arr : samples) (sqldata : ExplainsResult)
    (s : srv) : Go (samples * option ExplainsResult * srv) :=
  let key := NewMd5 (r_Expl sqldata) in
  match arr !! key with
  | None => Ret (<[key := sqldata]> arr, None, s)
  | Some entry =>
      if len (r_Arr entry) <? RedisSampling then
        let* flag :=
          foldl (fun acc sqlTmp =>
            let* flag := acc in
            let* first := go_index (r_Arr sqldata) 0 in
            Ret (if beq (Info first) (Info sqlTmp) then 1 else flag)) (Ret 0) (r_Arr entry) in
        if flag =? 0 then
          let* first := go_index (r_Arr sqldata) 0 in
          Ret (<[key := set_Arr (r_Arr entry ++ [first]) entry]> arr, None, s)
        else Ret (arr, None, s)
      else
        let '(_, s) := DelKey rc key s in
        Ret (delete key arr, Some entry, s)
  end.

(** [func NewExplainData(...)] on the messages of the channel, in order of arrival: what is
    posted. *)
Fixpoint NewExplainData (rcs : nat → Conn) (RedisSampling : Z) (arr : samples)
    (msgs : list ExplainsResult) (s : srv) : Go (samples * list ExplainsResult * srv) :=
  match msgs with
  | [] => Ret (arr, [], s)
  | m :: msgs' =>
      let* (arr', out, s) := explain_data_step (rcs 0%nat) RedisSampling arr m s in
      let* (arr'', outs, s) := NewExplainData (fun i => rcs (S i)) RedisSampling arr' msgs' s in
      Ret (arr'', option_list out ++ outs, s)
  end.

(** ** [testSQL.go] *)

(** [julive_com.RedisConfType{...}] from the configuration *)
Record RedisConfType := mk_RedisConf {
  RedisPw : bytes; RedisHost : bytes; RedisDb : Z;
  RedisMaxActive : Z; RedisMaxIdle : Z; RedisIdleTimeOut : Z
}.
Definition redis_conf (cfg : AppConfig) : RedisConfType :=
  mk_RedisConf (cfg_string cfg (B "RedisPw"))
    (cfg_string cfg (B "RedisHost") ++ B ":" ++ Itoa (cfg_int cfg (B "RedisPort")))
    (cfg_int cfg (B "RedisDb")) (cfg_int cfg (B "RedisMaxActive"))
    (cfg_int cfg (B "RedisMaxIdle")) (cfg_int cfg (B "RedisIdleTimeOut")).

(** [func dispatch(Type string, ...) []string]: the branches it starts a worker for and the
    slice it returns; [make] panics for a negative length. *)
Definition branch_name (i : nat) : bytes := B "SQL_" ++ Itoa (Z.of_nat i).
Definition dispatch (Type_ : bytes) (BranchActive : Z) : Go (list bytes * list bytes) :=
  if BranchActive <? 0 then Panic ExplicitPanic
  else
    let names := branch_name <$> seq 0 (Z.to_nat BranchActive) in
    if beq Type_ (B "ALL") then Ret (names, (fun _ => []) <$> names) else Ret ([], names).

(** [func checkBranch(...)]: the branches whose queue is not empty get a worker. *)
Fixpoint check_loop (rcs : nat → Conn) (branch : list bytes) (i : nat) (s : srv)
  : list bytes * srv :=
  match branch with
  | [] => ([], s)
  | v :: branch' =>
      let '((data, _), s) := ListCount (rcs i) v s in
      let '(started, s) := check_loop rcs branch' (S i) s in
      (if negb (data =? 0) then v :: started else started, s)
  end.
Definition checkBranch (rcs : nat → Conn) (BranchActive : Z) (s : srv) : Go (list bytes * srv) :=
  let* (_, branch) := dispatch (B "single") BranchActive in
  Ret (check_loop rcs branch 0 s).

(** [func sendData(branchName string, ...)]: the statements handed to [ExcuteUnique], in
    order; [decode] is [JsonDecode], whose error is only logged. *)
Fixpoint sendData (decode : bytes → SqlInfo * bool) (fuel : nat) (rcs : nat → Conn)
    (branchName : bytes) (s : srv) : option (list SqlInfo * srv) :=
  match fuel with
  | O => None
  | S k =>
      let '((data, _), s) := ListPop (rcs 0%nat) branchName s in
      if beq data [] then Some ([], s)
      else
        match sendData decode k (fun i => rcs (S i)) branchName s with
        | None => None
        | Some (jobs, s) => Some ((decode data).1 :: jobs, s)
        end
  end.

End Pipeline.
