(* ===== verification/PipelineProps.v ===== *)
(** * Properties of the pipeline ([lib/soar.go], [testSQL.go])

    Which samples are gathered and posted, which statements are pushed and forwarded, and
    where the code panics. *)

From S2P Require Import Prelude GoStrings Fingerprint Digest Records Config.
From S2P Require Import RedisReply RedisConn RedisConnProps RedisServer RedisQueue RedisQueueProps.
From S2P Require Import Pipeline RedisInstance.

(** ** The database of a DSN *)

Lemma Index_app_notin c s t : c ∉ s → Index (s ++ [c] ++ t) [c] = len s.
Proof.
  induction s as [|d s IH]; intros Hs.
  - cbn. by rewrite Z.eqb_refl.
  - apply not_elem_of_cons in Hs as [Hd Hs]. cbn [app Index HasPrefix].
    replace (c =? d) with false by lia. cbn [andb]. cbn [app] in IH. rewrite IH by done.
    pose proof (len_nonneg s). rewrite len_cons. replace (len s =? -1) with false by lia. lia.
Qed.

Lemma Index_bracket_dbname t :
  Index (B "dbname=" ++ t) (B "]") = if Index t (B "]") =? -1 then -1 else Index t (B "]") + 7.
Proof.
  pose proof (Index_lower t (B "]")). change (B "]") with [93] in *.
  change (B "dbname=") with [100; 98; 110; 97; 109; 101; 61].
  cbn [app Index HasPrefix Z.eqb Pos.eqb andb].
  destruct (Z.eqb_spec (Index t [93]) (-1)) as [E|E]; [done|].
  repeat match goal with |- context [?x =? -1] => replace (x =? -1) with false by lia end. lia.
Qed.

Lemma sub_drop {A} (l : list A) a : 0 ≤ a ≤ len l → sub l a (len l) = drop (Z.to_nat a) l.
Proof. intros Ha. unfold sub, len in *. apply take_ge. rewrite length_drop. lia. Qed.

(** The database of a sample is the text between the first dbname= of its DSN and the
    next closing bracket. *)
Lemma dsn_db_spec pre db post :
  Index (pre ++ B "dbname=" ++ db ++ B "]" ++ post) (B "dbname=") = len pre → chr "]" ∉ db →
  dsn_db (pre ++ B "dbname=" ++ db ++ B "]" ++ post) = Ret db.
Proof.
  intros Hpos Hdb. unfold dsn_db. rewrite Hpos. set (dsn := pre ++ _).
  pose proof (len_nonneg pre). replace (len pre =? -1) with false by lia. cbn [negb].
  assert (len dsn = len pre + (7 + (len db + (1 + len post)))) as Hl.
  { unfold dsn. rewrite !len_app. reflexivity. }
  pose proof (len_nonneg db). pose proof (len_nonneg post). unfold go_slice at 1.
  replace ((0 <=? len pre) && (len pre <=? len dsn) && (len dsn <=? len dsn)) with true by lia.
  cbn [gbind]. rewrite sub_drop by lia.
  assert (drop (Z.to_nat (len pre)) dsn = B "dbname=" ++ db ++ [chr "]"] ++ post) as ->.
  { unfold len, dsn. by rewrite Nat2Z.id, drop_app_length. }
  rewrite Index_bracket_dbname. change (B "]") with [chr "]"].
  rewrite (Index_app_notin _ _ post Hdb).
  replace (len db =? -1) with false by lia. replace (len db + 7 =? -1) with false by lia.
  cbn [negb]. unfold go_slice.
  replace ((0 <=? len pre + 7) && (len pre + 7 <=? len pre + (len db + 7)) &&
           (len pre + (len db + 7) <=? len dsn)) with true by lia.
  f_equal. unfold sub, dsn.
  replace (Z.to_nat (len pre + (len db + 7) - (len pre + 7))) with (length db) by (unfold len; lia).
  replace (Z.to_nat (len pre + 7)) with (length (pre ++ B "dbname="))
    by (rewrite length_app; unfold len; simpl; lia).
  rewrite (app_assoc pre), drop_app_length. by rewrite take_app_length.
Qed.

Lemma dsn_db_spec_witness :
  dsn_db (B "[mysql:host=10.0.0.1;" ++ B "dbname=" ++ B "comjia" ++ B "]" ++ B "[x]") = Ret (B "comjia").
Proof.
  apply (dsn_db_spec (B "[mysql:host=10.0.0.1;") (B "comjia") (B "[x]")); [vm_compute; reflexivity|].
  apply (bool_decide_unpack _). vm_compute. exact I.
Defined.

(** The guarded version never panics; the one of [execCommand] does without a database. *)
Lemma dsn_db_returns dsn : returns (dsn_db dsn).
Proof.
  eapply wp_returns with (Q := fun _ => True). unfold dsn_db.
  pose proof (Index_lower dsn (B "dbname=")) as Hi. pose proof (len_nonneg dsn).
  wp_start; [|done]. rename select (negb _ = true) into Hn.
  destruct (Index_some dsn (B "dbname=") _ eq_refl ltac:(lia)) as (l & t & Hd & Hl).
  assert (len dsn = len l + (7 + len t)) as Hlen by (rewrite Hd, !len_app; done).
  pose proof (len_nonneg t). apply wp_go_slice; [lia|lia|].
  rewrite sub_drop by lia.
  assert (drop (Z.to_nat (Index dsn (B "dbname="))) dsn = B "dbname=" ++ t) as ->.
  { rewrite <- Hl, Hd. unfold len. by rewrite Nat2Z.id, drop_app_length. }
  rewrite Index_bracket_dbname.
  destruct (Z.eqb_spec (Index t (B "]")) (-1)) as [E|E]; [done|].
  pose proof (Index_lower t (B "]")).
  replace (Index t (B "]") + 7 =? -1) with false by lia. cbn [negb].
  destruct (Index_some t (B "]") _ eq_refl ltac:(lia)) as (l' & t' & Ht & Hl').
  assert (len t = len l' + (1 + len t')) as Hlen' by (rewrite Ht, !len_app; done).
  pose proof (len_nonneg t'). apply wp_go_slice; [lia|lia|done].
Qed.

(** The copy of that code in execCommand panics exactly when the DSN has no dbname=. *)
Lemma dsn_db_unchecked_panics dsn :
  Index dsn (B "dbname=") = -1 ↔ dsn_db_unchecked dsn = Panic SliceOutOfRange.
Proof.
  unfold dsn_db_unchecked. split.
  - intros ->. done.
  - intros Hp. destruct (decide (Index dsn (B "dbname=") = -1)) as [|Hne]; [done|].
    exfalso. destruct (dsn_db_returns dsn) as [db Hdb]. unfold dsn_db in Hdb.
    replace (Index dsn (B "dbname=") =? -1) with false in * by lia. cbn [negb andb] in *.
    rewrite Hdb in Hp. done.
Qed.

(** ** Quoting of the shell command *)

Lemma requote_eq s : requote s = (fun b => if b =? chr "'" then 34 else b) <$> s.
Proof. unfold requote. rewrite ReplaceAll_same. exact (ReplaceAll_byte s (chr "'") 34). Qed.

Lemma requote_no_quote s : chr "'" ∉ requote s.
Proof.
  rewrite requote_eq. rewrite list_elem_of_fmap. intros (b & E & _).
  destruct (Z.eqb_spec b (chr "'")); [done|congruence].
Qed.

(** The statement ExcuteSql puts between single quotes on the command line contains no
    single quote, so it cannot end the quotation. *)
Lemma ExcuteSql_quoted sql first rest cfg :
  r_Arr sql = first :: rest →
  ∃ stmt tail, ExcuteSql sql cfg = Ret (B "echo '" ++ stmt ++ B "'|./soarbin/soar" ++ tail) ∧
    (chr "'" ∉ stmt) ∧ length stmt = length (Info first).
Proof.
  intros Ha. unfold ExcuteSql. rewrite Ha. cbn [go_index].
  exists (requote (Info first)). eexists. split; [|split; [apply requote_no_quote|]].
  - unfold go_index. rewrite len_cons. pose proof (len_nonneg rest).
    replace ((0 <=? 0) && (0 <? len rest + 1)) with true by lia. cbn [Z.to_nat lookup list_lookup].
    cbn [gbind]. do 2 f_equal.
  - by rewrite requote_eq, length_fmap.
Qed.

Definition sample_sql (info : bytes) : SqlInfo := mk_SqlInfo info [] (B "/r") (B "master") (B "[dbname=d]").

Lemma ExcuteSql_quoted_witness :
  let sql := mk_ExplainsResult [] [sample_sql (B "select 'x'; rm")] [] [] [] 0 [] [] [] [] in
  ∃ stmt tail, ExcuteSql sql zero_AppConfig = Ret (B "echo '" ++ stmt ++ B "'|./soarbin/soar" ++ tail) ∧
    (chr "'" ∉ stmt) ∧ length stmt = length (B "select 'x'; rm").
Proof. cbn zeta. apply (ExcuteSql_quoted _ (sample_sql (B "select 'x'; rm")) [] zero_AppConfig). reflexivity. Defined.

(** ** Where it panics *)

(** [getUnicode] panics on a text with some other escape than the opening bracket. *)
Lemma getUnicode_panics data :
  Index data esc_lt = -1 → getUnicode data = Panic SliceOutOfRange.
Proof. unfold getUnicode. intros ->. done. Qed.

(** ** Sampling *)

Section Sampling.
Context `{UnicodeTables} `{Md5} `{RedisScripting}.

(** What [importToRedis] sends carries one sample. *)
Definition one_sample (m : ExplainsResult) : Prop := ∃ x, r_Arr m = [x].

(** An entry of the map: its key, a number of samples between 1 and the limit, no statement
    twice, and every sample from a message with that key. *)
Definition entry_inv (msgs : list ExplainsResult) (n : Z) (key : bytes) (e : ExplainsResult) : Prop :=
  NewMd5 (r_Expl e) = key ∧ 1 ≤ len (r_Arr e) ≤ Z.max 1 n ∧ NoDup (Info <$> r_Arr e) ∧
  Forall (fun x => ∃ m, m ∈ msgs ∧ NewMd5 (r_Expl m) = key ∧ r_Arr m = [x]) (r_Arr e).

Definition samples_inv msgs n (arr : samples) : Prop := map_Forall (entry_inv msgs n) arr.

(** The search loop sets the flag exactly when the statement is already among the samples. *)
Lemma flag_loop (x : SqlInfo) (xs : list SqlInfo) (f : Z) :
  foldl (fun acc sqlTmp =>
    let* flag := acc in
    let* first := go_index [x] 0 in
    Ret (if beq (Info first) (Info sqlTmp) then 1 else flag)) (Ret f) xs =
  Ret (if decide (Info x ∈ (Info <$> xs)) then 1 else f).
Proof.
  revert f. induction xs as [|y xs IH]; intros f; [done|]. cbn [foldl].
  change (go_index [x] 0) with (Ret x) at 2. cbn [gbind]. rewrite IH. f_equal. csimpl.
  destruct (beq (Info x) (Info y)) eqn:E.
  - apply beq_eq in E. rewrite (decide_True (P := Info x ∈ Info y :: _)) by set_solver.
    by destruct (decide _).
  - apply beq_neq in E. destruct (decide (Info x ∈ Info <$> xs)).
    + by rewrite decide_True by set_solver.
    + by rewrite decide_False by set_solver.
Qed.

Lemma explain_data_step_inv rc msgs n arr m s :
  samples_inv msgs n arr → one_sample m → m ∈ msgs →
  wp (explain_data_step rc n arr m s) (fun '(arr', out, _) =>
    samples_inv msgs n arr' ∧
    match out with
    | None => True
    | Some e => entry_inv msgs n (NewMd5 (r_Expl e)) e ∧ n ≤ len (r_Arr e)
    end).
Proof.
  intros Hinv [x Hx] Hm. unfold explain_data_step. cbn zeta.
  destruct (arr !! NewMd5 (r_Expl m)) as [e|] eqn:E.
  - pose proof (Hinv _ _ E) as (Hkey & Hlen & Hnd & Hfrom).
    destruct (Z.ltb_spec (len (r_Arr e)) n).
    + rewrite Hx, flag_loop. cbn [gbind].
      destruct (decide (Info x ∈ (Info <$> r_Arr e))) as [Hin|Hnin]; [by split|].
      cbn [Z.eqb wp]. split; [|done]. apply map_Forall_insert_2; [|done].
      split; [done|]. cbn [r_Arr set_Arr]. rewrite len_app. change (len [x]) with 1.
      split; [lia|]. rewrite fmap_app. split.
      * apply NoDup_app. split; [done|]. split; [set_solver|apply NoDup_singleton].
      * apply Forall_app. split; [done|]. apply Forall_singleton. by exists m.
    + destruct (DelKey rc _ s) as [? s']. cbn [wp]. split; [by apply map_Forall_delete|].
      split; [by rewrite Hkey|lia].
  - cbn [wp]. split; [|done]. apply map_Forall_insert_2; [|done].
    split; [done|]. rewrite Hx. change (len [x]) with 1. split; [lia|].
    split; [apply NoDup_singleton|]. apply Forall_singleton. by exists m.
Qed.

Lemma NewExplainData_inv rcs msgs all n arr s :
  samples_inv all n arr → Forall one_sample msgs → msgs ⊆ all →
  wp (NewExplainData rcs n arr msgs s) (fun '(_, outs, _) =>
    Forall (fun e => entry_inv all n (NewMd5 (r_Expl e)) e ∧ n ≤ len (r_Arr e)) outs).
Proof.
  intros Hinv Hok. revert rcs arr s Hinv.
  induction Hok as [|m msgs Hm Hok IH]; intros rcs arr s Hinv Hsub; cbn [NewExplainData].
  - by constructor.
  - wp_start. eapply wp_mono; [apply (explain_data_step_inv _ all); [done|done|set_solver]|].
    intros [[arr' out] s'] [Hinv' Hout]. wp_start.
    eapply wp_mono; [apply IH; [done|set_solver]|].
    intros [[arr'' outs] s''] Houts. apply wp_ret. apply Forall_app. split; [|done].
    destruct out; [by apply Forall_singleton|constructor].
Qed.

(** C18: On messages with one sample each NewExplainData never panics, and every record it
    posts carries exactly max(1, RedisSampling) samples with pairwise different statements,
    each from a message with the same key. *)
Theorem NewExplainData_posts rcs n msgs s :
  Forall one_sample msgs →
  wp (NewExplainData rcs n ∅ msgs s) (fun '(_, outs, _) =>
    Forall (fun e =>
      len (r_Arr e) = Z.max 1 n ∧ NoDup (Info <$> r_Arr e) ∧
      Forall (fun x => ∃ m, m ∈ msgs ∧ NewMd5 (r_Expl m) = NewMd5 (r_Expl e) ∧ r_Arr m = [x])
        (r_Arr e)) outs).
Proof.
  intros Hok. eapply wp_mono; [apply (NewExplainData_inv rcs msgs msgs n ∅ s); [|done|done]|].
  - apply map_Forall_empty.
  - intros [[arr outs] s'] Houts. eapply Forall_impl; [exact Houts|].
    intros e ((_ & Hlen & Hnd & Hfrom) & Hn). split; [lia|]. by split.
Qed.

(** ** Deduplication *)

#[local] Instance rvalue_eq_dec : EqDecision rvalue.
Proof. solve_decision. Defined.

Lemma md5_key_ne line t : NewMd5 line ≠ B "julive_" ++ t.
Proof.
  intros E. destruct (NewMd5_hex line) as [Hh _]. rewrite E in Hh.
  apply Forall_cons in Hh as [Hh _]. discriminate.
Qed.

(** [queue_is] does not look at other keys. *)
Lemma queue_is_frame s s' q l X :
  queue_is s q l X → cache_ok s' → value_at s' q = value_at s q →
  value_at s' (q_set q) = value_at s (q_set q) → queue_is s' q l X.
Proof. intros (Hq & Hx & _) Hc E1 E2. unfold queue_is. by rewrite E1, E2. Qed.

Lemma GetKey_spec s key v :
  cache_ok s → value_at s key = (match v with [] => VNone | _ => VStr v end) →
  ∃ s', (GetKey Live key s) = ((v, None), s') ∧ same_values s s' ∧ cache_ok s'.
Proof.
  intros Hc Hv. unfold GetKey.
  assert (∀ val r, key_command (B "GET") (value_at s key) [] = Some (val, r) →
    val = value_at s key → to_reply <$> (match of_reply r with inl x => Some x | inr _ => None end) = Some r →
    ∃ s', script_Do (NewScript 1 SCRIPT_GET) Live [AString key] s = ((r, reply_error r), s') ∧
      same_values s s' ∧ cache_ok s') as Hrun.
  { intros val r Hk -> Hr.
    destruct (run_one_call s SCRIPT_GET lua_get (B "GET") key [] [] (value_at s key) r)
      as (s1 & E & Hval & Hf & Hc1); try done.
    { do 5 right. by left. }
    exists s1. split; [done|]. split; [|done]. intros k.
    destruct (decide (k = key)) as [->|]; [done|by apply Hf]. }
  destruct v as [|c v].
  - destruct (Hrun VNone RNil) as (s1 & -> & Hs & Hc1); [by rewrite Hv|by rewrite Hv|done|].
    by exists s1.
  - destruct (Hrun (VStr (c :: v)) (RBulk (c :: v))) as (s1 & -> & Hs & Hc1);
      [by rewrite Hv|by rewrite Hv|done|]. by exists s1.
Qed.

(** C17: importToRedis pushes a fingerprint to the queue of its branch exactly when it is new,
    marks it, and forwards the statement as a sample exactly when the fingerprint is new or
    still marked. *)
Theorem importToRedis_contract line sql s l X :
  let q := B "julive_" ++ Branch sql in
  let fp := unescape_line line in
  let key := NewMd5 fp in
  line ≠ [] → queue_is s q l X →
  value_at s key = VNone ∨ value_at s key = VStr (B "1") →
  ∃ db s', dsn_db (Dsn sql) = Ret db ∧
    importToRedis Live Live Live line sql s =
      Ret ((true, if decide (fp ∈ X ∧ value_at s key = VNone) then [] else [sample_record fp db sql]), s') ∧
    queue_is s' q (if decide (fp ∈ X) then l else l ++ [fp]) ({[fp]} ∪ X) ∧
    value_at s' key = (if decide (fp ∈ X) then value_at s key else VStr (B "1")).
Proof.
  intros q fp key Hline Hq Hkey. destruct (dsn_db_returns (Dsn sql)) as [db Hdb].
  assert (key ≠ q ∧ key ≠ q_set q) as [Hk1 Hk2].
  { split; [apply md5_key_ne|]. unfold q_set, q. rewrite <- app_assoc. apply md5_key_ne. }
  unfold importToRedis, push_and_sample. apply beq_neq in Hline. rewrite Hline.
  fold fp q key.
  destruct (UniquePush_spec s q fp l X Hq) as (s1 & -> & Hq1 & Hf1).
  pose proof (Hf1 key Hk1 Hk2) as Hv1. exists db.
  destruct (decide (fp ∈ X)) as [Hin|Hin].
  - cbn [Z.eqb].
    destruct (GetKey_spec s1 key (if decide (value_at s key = VNone) then [] else B "1"))
      as (s2 & -> & Hs2 & Hc2); [apply Hq1|rewrite Hv1; by destruct Hkey as [-> | ->]|].
    exists s2. split; [done|].
    assert (queue_is s2 q l ({[fp]} ∪ X)) as Hq2 by (by eapply queue_is_same).
    destruct (decide (value_at s key = VNone)) as [E|E].
    + rewrite decide_True by done. split; [done|]. split; [done|]. by rewrite Hs2, Hv1.
    + rewrite decide_False by naive_solver. cbn [negb beq]. rewrite Hdb.
      split; [done|]. split; [done|]. by rewrite Hs2, Hv1.
  - cbn [Z.eqb Pos.eqb]. rewrite decide_False by naive_solver.
    unfold SetKey.
    destruct (run_one_call s1 SCRIPT_SET lua_set (B "SET") key [AString (B "1")] [LStr (B "1")]
      (VStr (B "1")) (RSimple (B "OK"))) as (s2 & E2 & Hv2 & Hf2 & Hc2); try done.
    { do 6 right. by left. }
    { by apply Hq1. }
    change (script_Do (NewScript 1 SCRIPT_SET) Live [AString key; AString (B "1")] s1)
      with (script_Do (NewScript 1 SCRIPT_SET) Live (AString key :: [AString (B "1")]) s1).
    rewrite E2. cbn [int_result snd Int reply_error].
    destruct (GetKey_spec s2 key (B "1")) as (s3 & -> & Hs3 & Hc3); [done|done|].
    exists s3. split; [done|]. cbn [beq negb]. rewrite Hdb. split; [done|]. split.
    + eapply queue_is_same; [done|done|]. eapply queue_is_frame; [exact Hq1|done|by apply Hf2..].
    + by rewrite Hs3.
Qed.

(** ** Draining a branch queue *)

Lemma ListPop_spec s q x l :
  cache_ok s → value_at s q = of_list (x :: l) → x ≠ [] →
  ∃ s', ListPop Live q s = ((x, None), s') ∧ value_at s' q = of_list l ∧ cache_ok s'.
Proof.
  intros Hc Hq Hx. unfold ListPop.
  destruct (script_Do_runs s SCRIPT_LIST_POP lua_list_pop q []) as (s0 & Hs & Hc0 & ->);
    [do 9 right; by left|done|].
  unfold run_script, lua_list_pop, lbind.
  destruct (redis_call_key s0 (B "LPOP") q [] [] (of_list l) (RBulk x)) as (s1 & Hu & ->); [done|..].
  { rewrite Hs, Hq. apply lpop_spec. }
  exists s1. destruct x; [done|]. split; [done|]. split; [apply Hu|by eapply updated_cache_ok].
Qed.

Lemma ListPop_none s q :
  cache_ok s → value_at s q = VNone →
  ∃ s', ListPop Live q s = (([], None), s') ∧ value_at s' q = VNone ∧ cache_ok s'.
Proof.
  intros Hc Hq. unfold ListPop.
  destruct (script_Do_runs s SCRIPT_LIST_POP lua_list_pop q []) as (s0 & Hs & Hc0 & ->);
    [do 9 right; by left|done|].
  unfold run_script, lua_list_pop, lbind.
  destruct (redis_call_key s0 (B "LPOP") q [] [] VNone RNil) as (s1 & Hu & ->); [done|..].
  { by rewrite Hs, Hq. }
  exists s1. split; [done|]. split; [apply Hu|by eapply updated_cache_ok].
Qed.

(** sendData empties the queue of a branch and hands every element, decoded, to
    ExcuteUnique in order, when no element is empty. *)
Theorem sendData_drains decode q l s fuel :
  cache_ok s → value_at s q = of_list l → Forall (fun x => x ≠ []) l → (length l < fuel)%nat →
  ∃ s', sendData decode fuel (fun _ => Live) q s = Some ((fun x => (decode x).1) <$> l, s') ∧
    value_at s' q = VNone.
Proof.
  intros Hc Hq Hl. revert s fuel Hc Hq. induction Hl as [|x l Hx Hl IH]; intros s fuel Hc Hq Hf;
    (destruct fuel as [|fuel]; [simpl in Hf; lia|]); cbn [sendData].
  - destruct (ListPop_none s q Hc Hq) as (s1 & -> & Hq1 & _). by exists s1.
  - destruct (ListPop_spec s q x l Hc Hq Hx) as (s1 & -> & Hq1 & Hc1).
    apply beq_neq in Hx. rewrite Hx.
    destruct (IH s1 fuel Hc1 Hq1) as (s2 & -> & Hq2); [simpl in Hf; lia|].
    by exists s2.
Qed.

(** A panic of [Fingerprint] leaves [ExcuteUnique]. *)
Lemma ExcuteUnique_panics :
  ExcuteUnique (sample_sql (B "select a from t where b in(1) and c in(2)")) = Panic SliceOutOfRange.
Proof. vm_compute. reflexivity. Qed.

End Sampling.

(** ** Concrete runs *)

(** A stand-in for the digest: the first 16 bytes. *)
Definition first16 (s : bytes) : bytes := take 16 (((fun b => b mod 256) <$> s) ++ replicate 16 0).
Definition sample_md5 : Md5.
Proof.
  refine (Build_Md5 first16 _ _).
  - intros s. unfold first16. rewrite length_take, length_app, length_replicate. lia.
  - intros s. unfold first16, bytes_ok. apply Forall_take, Forall_app. split.
    + apply Forall_fmap, Forall_forall. intros b _. unfold compose, byte_ok. zdiv.
    + apply Forall_replicate. unfold byte_ok. lia.
Defined.

Definition sample_msg (info : bytes) : ExplainsResult := sample_record (B "select ?") (B "d") (sample_sql info).

Lemma NewExplainData_posts_witness :
  let msgs := sample_msg <$> [B "select 1"; B "select 1"; B "select 2"; B "select 3"] in
  Forall one_sample msgs ∧
  wp (NewExplainData (H0 := sample_md5) (H2 := MapServer.scripting) (fun _ => Live) 2 ∅ msgs MapServer.fresh)
    (fun '(_, outs, _) => Forall (fun e => len (r_Arr e) = Z.max 1 2 ∧ NoDup (Info <$> r_Arr e) ∧
      Forall (fun x => ∃ m, m ∈ msgs ∧
        @NewMd5 sample_md5 (r_Expl m) = @NewMd5 sample_md5 (r_Expl e) ∧ r_Arr m = [x]) (r_Arr e)) outs).
Proof.
  cbn zeta.
  assert (Forall one_sample (sample_msg <$> [B "select 1"; B "select 1"; B "select 2"; B "select 3"])) as H.
  { repeat constructor; eexists; reflexivity. }
  split; [exact H|].
  exact (NewExplainData_posts (H0 := sample_md5) (H2 := MapServer.scripting) (fun _ => Live) 2 _ MapServer.fresh H).
Defined.

(** That run posts one record with the two different statements. *)
Example NewExplainData_run :
  match NewExplainData (H0 := sample_md5) (H2 := MapServer.scripting) (fun _ => Live) 2 ∅
    (sample_msg <$> [B "select 1"; B "select 1"; B "select 2"; B "select 3"]) MapServer.fresh with
  | Ret (_, outs, _) => (fun e => Info <$> r_Arr e) <$> outs = [[B "select 1"; B "select 2"]]
  | Panic _ => False
  end.
Proof. vm_compute. reflexivity. Qed.

Lemma importToRedis_contract_witness :
  let sql := sample_sql (B "select 1") in
  ∃ db s', dsn_db (Dsn sql) = Ret db ∧
    importToRedis (H0 := sample_md5) (H2 := MapServer.scripting) Live Live Live (B "select ?") sql MapServer.fresh =
      Ret ((true, [sample_record (B "select ?") db sql]), s') ∧
    queue_is (H0 := MapServer.scripting) s' (B "julive_master") [B "select ?"] {[B "select ?"]} ∧
    value_at (RedisStore := MapServer.store) s' (@NewMd5 sample_md5 (B "select ?")) = VStr (B "1").
Proof.
  cbn zeta.
  destruct (importToRedis_contract (H0 := sample_md5) (H2 := MapServer.scripting) (B "select ?")
    (sample_sql (B "select 1")) MapServer.fresh [] ∅) as (db & s' & Hdb & E & Hq & Hv).
  - discriminate.
  - split; [reflexivity|]. split; [reflexivity|]. intros t Ht. left. reflexivity.
  - left. reflexivity.
  - exists db, s'. split; [exact Hdb|]. split; [|split; [|exact Hv]].
    + exact E.
    + replace ({[B "select ?"]} : gset bytes) with ({[unescape_line (B "select ?")]} ∪ (∅ : gset bytes))
        by (apply (bool_decide_unpack _); vm_compute; exact I).
      exact Hq.
Defined.

Lemma sendData_drains_witness :
  ∃ s', sendData (H2 := MapServer.scripting) (fun d => (sample_sql d, true)) 3 (fun _ => Live) (B "SQL_0")
      (MapServer.mk_state {[ B "SQL_0" := VList [B "a"; B "b"] ]} ∅)
    = Some ([sample_sql (B "a"); sample_sql (B "b")], s') ∧
    value_at (RedisStore := MapServer.store) s' (B "SQL_0") = VNone.
Proof.
  apply (sendData_drains (H2 := MapServer.scripting) (fun d => (sample_sql d, true)) (B "SQL_0") [B "a"; B "b"]).
  - intros t Ht. left. reflexivity.
  - reflexivity.
  - repeat constructor; discriminate.
  - simpl. lia.
Defined.
