(* ===== verification/Mysql.v ===== *)
(** * [mysql/fields.go] and [lib/mysql_pool.go]: column types and result rows

    The driver names the type of a column; the pool converts the text of a value by that
    name.  [database/sql] and the server are parameters: a query is its outcome. *)

From S2P Require Import Prelude GoStrings.

(** ** Column types *)

(** [type fieldType byte] *)
Definition fieldTypeDecimal : Z := 0.
Definition fieldTypeTiny : Z := 1.
Definition fieldTypeShort : Z := 2.
Definition fieldTypeLong : Z := 3.
Definition fieldTypeFloat : Z := 4.
Definition fieldTypeDouble : Z := 5.
Definition fieldTypeNULL : Z := 6.
Definition fieldTypeTimestamp : Z := 7.
Definition fieldTypeLongLong : Z := 8.
Definition fieldTypeInt24 : Z := 9.
Definition fieldTypeDate : Z := 10.
Definition fieldTypeTime : Z := 11.
Definition fieldTypeDateTime : Z := 12.
Definition fieldTypeYear : Z := 13.
Definition fieldTypeNewDate : Z := 14.
Definition fieldTypeVarChar : Z := 15.
Definition fieldTypeBit : Z := 16.
Definition fieldTypeJSON : Z := 245.
Definition fieldTypeNewDecimal : Z := 246.
Definition fieldTypeEnum : Z := 247.
Definition fieldTypeSet : Z := 248.
Definition fieldTypeTinyBLOB : Z := 249.
Definition fieldTypeMediumBLOB : Z := 250.
Definition fieldTypeLongBLOB : Z := 251.
Definition fieldTypeBLOB : Z := 252.
Definition fieldTypeVarString : Z := 253.
Definition fieldTypeString : Z := 254.
Definition fieldTypeGeometry : Z := 255.

(** [flagNotNULL] and [flagUnsigned] *)
Definition flagNotNULL : Z := 1.
Definition flagUnsigned : Z := 32.

(** [collations[binaryCollation]] *)
Definition binary_collation : Z := 63.

(** [type mysqlField struct] *)
Record mysqlField := mk_field {
  f_tableName : bytes; f_name : bytes; f_length : Z; f_flags : Z; f_type : Z; f_decimals : Z; f_charSet : Z }.

(** [func (mf *mysqlField) typeDatabaseName() string] *)
Definition typeDatabaseName (mf : mysqlField) : bytes :=
  let t := f_type mf in
  let binary := f_charSet mf =? binary_collation in
  if t =? fieldTypeBit then B "BIT"
  else if t =? fieldTypeBLOB then if negb binary then B "TEXT" else B "BLOB"
  else if t =? fieldTypeDate then B "DATE"
  else if t =? fieldTypeDateTime then B "DATETIME"
  else if t =? fieldTypeDecimal then B "DECIMAL"
  else if t =? fieldTypeDouble then B "DOUBLE"
  else if t =? fieldTypeEnum then B "ENUM"
  else if t =? fieldTypeFloat then B "FLOAT"
  else if t =? fieldTypeGeometry then B "GEOMETRY"
  else if t =? fieldTypeInt24 then B "MEDIUMINT"
  else if t =? fieldTypeJSON then B "JSON"
  else if t =? fieldTypeLong then B "INT"
  else if t =? fieldTypeLongBLOB then if negb binary then B "LONGTEXT" else B "LONGBLOB"
  else if t =? fieldTypeLongLong then B "BIGINT"
  else if t =? fieldTypeMediumBLOB then if negb binary then B "MEDIUMTEXT" else B "MEDIUMBLOB"
  else if t =? fieldTypeNewDate then B "DATE"
  else if t =? fieldTypeNewDecimal then B "DECIMAL"
  else if t =? fieldTypeNULL then B "NULL"
  else if t =? fieldTypeSet then B "SET"
  else if t =? fieldTypeShort then B "SMALLINT"
  else if t =? fieldTypeString then if binary then B "BINARY" else B "CHAR"
  else if t =? fieldTypeTime then B "TIME"
  else if t =? fieldTypeTimestamp then B "TIMESTAMP"
  else if t =? fieldTypeTiny then B "TINYINT"
  else if t =? fieldTypeTinyBLOB then if negb binary then B "TINYTEXT" else B "TINYBLOB"
  else if t =? fieldTypeVarChar then if binary then B "VARBINARY" else B "VARCHAR"
  else if t =? fieldTypeVarString then if binary then B "VARBINARY" else B "VARCHAR"
  else if t =? fieldTypeYear then B "YEAR"
  else [].

(** The [reflect.Type]s of [scanType]. *)
Inductive scan_type :=
| scanTypeFloat32 | scanTypeFloat64 | scanTypeInt8 | scanTypeInt16 | scanTypeInt32 | scanTypeInt64
| scanTypeNullFloat | scanTypeNullInt | scanTypeNullTime | scanTypeUint8 | scanTypeUint16
| scanTypeUint32 | scanTypeUint64 | scanTypeRawBytes | scanTypeUnknown.

Definition has_flag (flags flag : Z) : bool := negb (Z.land flags flag =? 0).

(** The integer cases of [scanType]. *)
Definition int_scan (flags : Z) (unsigned signed : scan_type) : scan_type :=
  if has_flag flags flagNotNULL then
    if has_flag flags flagUnsigned then unsigned else signed
  else scanTypeNullInt.

(** [func (mf *mysqlField) scanType() reflect.Type] *)
Definition scanType (mf : mysqlField) : scan_type :=
  let t := f_type mf in
  let one_of ts := existsb (Z.eqb t) ts in
  if one_of [fieldTypeTiny] then int_scan (f_flags mf) scanTypeUint8 scanTypeInt8
  else if one_of [fieldTypeShort; fieldTypeYear] then int_scan (f_flags mf) scanTypeUint16 scanTypeInt16
  else if one_of [fieldTypeInt24; fieldTypeLong] then int_scan (f_flags mf) scanTypeUint32 scanTypeInt32
  else if one_of [fieldTypeLongLong] then int_scan (f_flags mf) scanTypeUint64 scanTypeInt64
  else if one_of [fieldTypeFloat] then
    if has_flag (f_flags mf) flagNotNULL then scanTypeFloat32 else scanTypeNullFloat
  else if one_of [fieldTypeDouble] then
    if has_flag (f_flags mf) flagNotNULL then scanTypeFloat64 else scanTypeNullFloat
  else if one_of [fieldTypeDecimal; fieldTypeNewDecimal; fieldTypeVarChar; fieldTypeBit; fieldTypeEnum;
              fieldTypeSet; fieldTypeTinyBLOB; fieldTypeMediumBLOB; fieldTypeLongBLOB; fieldTypeBLOB;
              fieldTypeVarString; fieldTypeString; fieldTypeGeometry; fieldTypeJSON; fieldTypeTime]
  then scanTypeRawBytes
  else if one_of [fieldTypeDate; fieldTypeNewDate; fieldTypeTimestamp; fieldTypeDateTime]
  then scanTypeNullTime
  else scanTypeUnknown.

(** ** Values *)

(** What [bytes2RealType] returns; a floating-point value is kept as its text, which is all
    the program looks at. *)
Inductive sqlval := VInt64 (n : Z) | VUint64 (n : Z) | VText (s : bytes) | VFloat (s : bytes) | VNil.

(** [func bytes2RealType(src []byte, column *sql.ColumnType) interface{}] *)
Definition bytes2RealType (src : bytes) (typeName : bytes) : sqlval :=
  let one_of ts := existsb (beq typeName) ts in
  if one_of [B "BIT"; B "TINYINT"; B "SMALLINT"; B "INT"] then VInt64 (ParseInt src).1
  else if one_of [B "BIGINT"] then VUint64 (ParseUint src).1
  else if one_of [B "CHAR"; B "VARCHAR"; B "TINY TEXT"; B "TEXT"; B "MEDIUM TEXT"; B "LONG TEXT";
              B "TINY BLOB"; B "MEDIUM BLOB"; B "BLOB"; B "LONG BLOB"; B "JSON"; B "ENUM"; B "SET";
              B "YEAR"; B "DATE"; B "TIME"; B "TIMESTAMP"; B "DATETIME"] then VText src
  else if one_of [B "FLOAT"; B "DOUBLE"; B "DECIMAL"] then VFloat src
  else VNil.

(** A row as the program sees it: column name to value. *)
Abbreviation rowMap := (gmap bytes sqlval).

(** ** Queries *)

Inductive sql_error := ErrNoRows | MoreThanOneRow | DriverError (msg : bytes).

(** The outcome of [SQLDB.Query] (or [SQLTX.Query]): an error, or the columns with their type
    names, the rows that [Next] and [Scan] deliver, and what [rows.Err] returns. *)
Inductive outcome :=
| QueryError (e : sql_error)
| QueryRows (columns : list (bytes * bytes)) (rows : list (list bytes)) (err : option sql_error).

(** One round of the loop over the columns. *)
Definition row_map (columns : list (bytes * bytes)) (values : list bytes) : rowMap :=
  foldl (fun m cv => <[cv.1.1 := bytes2RealType cv.2 cv.1.2]> m) ∅ (zip columns values).

(** [func (p *SQLConnPool) Query(queryStr string, ...) ([]map[string]interface{}, error)]; the
    method of [SQLConnTransaction] has the same body. *)
Definition Query (o : outcome) : list rowMap * option sql_error :=
  match o with
  | QueryError e => ([], Some e)
  | QueryRows columns rows err =>
      match err with
      | Some e => ([], Some e)
      | None => (row_map columns <$> rows, None)
      end
  end.
Definition TxQuery : outcome → list rowMap * option sql_error := Query.

(** [func (p *SQLConnPool) Get(queryStr string, ...) (map[string]interface{}, error)] *)
Definition Get (o : outcome) : rowMap * option sql_error :=
  match Query o with
  | (_, Some e) => (∅, Some e)
  | (results, None) =>
      match results with
      | [] => (∅, Some ErrNoRows)
      | [r] => (r, None)
      | _ => (∅, Some MoreThanOneRow)
      end
  end.
Definition TxGet : outcome → rowMap * option sql_error := Get.

(** The outcome of [Exec]: an error, or what [RowsAffected] and [LastInsertId] return. *)
Inductive exec_outcome :=
| ExecError (e : sql_error)
| ExecResult (affected lastId : Z * option sql_error).

(** [Update] and [Delete], of the pool and of a transaction *)
Definition Update (o : exec_outcome) : Z * option sql_error :=
  match o with ExecError e => (0, Some e) | ExecResult affected _ => affected end.
Definition Delete (o : exec_outcome) : Z * option sql_error :=
  match o with ExecError e => (0, Some e) | ExecResult affected _ => affected end.

(** [Insert], of the pool and of a transaction *)
Definition Insert_ (o : exec_outcome) : Z * option sql_error :=
  match o with ExecError e => (0, Some e) | ExecResult _ lastId => lastId end.

(** ** The pool *)

(** [type MysqlConfType struct] *)
Record MysqlConfType := mk_MysqlConf {
  MysqlHost : bytes; MysqlDb : bytes; MysqlUser : bytes; MysqlPw : bytes; MysqlCharset : bytes;
  MysqlPort : Z; MysqlMaxOpenConns : Z; MysqlMaxIdleConns : Z
}.

(** The data source name of [InitMySQLPool]. *)
Definition dataSourceName (c : MysqlConfType) : bytes :=
  MysqlUser c ++ B ":" ++ MysqlPw c ++ B "@tcp(" ++ MysqlHost c ++ B ":" ++ Itoa (MysqlPort c) ++
  B ")/" ++ MysqlDb c ++ B "?charset=" ++ MysqlCharset c ++ B "&autocommit=true".

(** [type SQLConnPool struct]; [SQLDB] is nil when [sql.Open] failed. *)
Record SQLConnPool := mk_pool {
  DataSourceName : bytes; MaxOpenConns : Z; MaxIdleConns : Z;
  SQLDB : bool; limits : option (Z * Z)
}.

(** [func (p *SQLConnPool) Open() error]: the limits are set only after a successful ping. *)
Definition Open (open_err ping_err : option sql_error) (p : SQLConnPool) : option sql_error * SQLConnPool :=
  match open_err with
  | Some e => (Some e, mk_pool (DataSourceName p) (MaxOpenConns p) (MaxIdleConns p) false None)
  | None =>
      match ping_err with
      | Some e => (Some e, mk_pool (DataSourceName p) (MaxOpenConns p) (MaxIdleConns p) true None)
      | None => (None, mk_pool (DataSourceName p) (MaxOpenConns p) (MaxIdleConns p) true
                   (Some (MaxOpenConns p, MaxIdleConns p)))
      end
  end.

(** [func InitMySQLPool(mysql_conf MysqlConfType) *SQLConnPool]: an error is only logged. *)
Definition InitMySQLPool (open_err ping_err : option sql_error) (c : MysqlConfType) : SQLConnPool :=
  (Open open_err ping_err
     (mk_pool (dataSourceName c) (MysqlMaxOpenConns c) (MysqlMaxIdleConns c) false None)).2.

(** [func (p *SQLConnPool) Close() error]: a method call on a nil [*sql.DB] panics. *)
Definition pool_Close (p : SQLConnPool) : Go unit := if SQLDB p then Ret tt else Panic NilDereference.

(** ** Properties *)

(** The type names the driver can produce. *)
Definition driver_names : list bytes :=
  [ B "BIT"; B "TEXT"; B "BLOB"; B "DATE"; B "DATETIME"; B "DECIMAL"; B "DOUBLE"; B "ENUM"; B "FLOAT";
    B "GEOMETRY"; B "MEDIUMINT"; B "JSON"; B "INT"; B "LONGTEXT"; B "LONGBLOB"; B "BIGINT";
    B "MEDIUMTEXT"; B "MEDIUMBLOB"; B "NULL"; B "SET"; B "SMALLINT"; B "BINARY"; B "CHAR"; B "TIME";
    B "TIMESTAMP"; B "TINYINT"; B "TINYTEXT"; B "TINYBLOB"; B "VARBINARY"; B "VARCHAR"; B "YEAR"; [] ].

Lemma typeDatabaseName_names mf : typeDatabaseName mf ∈ driver_names.
Proof.
  unfold typeDatabaseName. cbn zeta.
  repeat (bool_case; [try bool_case; apply (bool_decide_unpack _); by vm_compute|]).
  apply (bool_decide_unpack _); by vm_compute.
Qed.

(** The types whose values the program loses. *)
Definition lost_names : list bytes :=
  [ B "GEOMETRY"; B "MEDIUMINT"; B "LONGTEXT"; B "LONGBLOB"; B "MEDIUMTEXT"; B "MEDIUMBLOB"; B "NULL";
    B "BINARY"; B "TINYTEXT"; B "TINYBLOB"; B "VARBINARY"; [] ].

(** bytes2RealType returns nil exactly for the columns the driver names GEOMETRY,
    MEDIUMINT, LONGTEXT, LONGBLOB, MEDIUMTEXT, MEDIUMBLOB, NULL, BINARY, TINYTEXT, TINYBLOB,
    VARBINARY or with no name. *)
Theorem bytes2RealType_lost mf src :
  bytes2RealType src (typeDatabaseName mf) = VNil ↔ typeDatabaseName mf ∈ lost_names.
Proof.
  pose proof (typeDatabaseName_names mf) as Hn. unfold driver_names in Hn.
  repeat (apply elem_of_cons in Hn as [->|Hn];
    [split; [try (by intros [=]); intros _; apply (bool_decide_unpack _); by vm_compute
            |try (by intros _); intros Hl; exfalso; revert Hl; apply (bool_decide_unpack _);
             by vm_compute]|]).
  by apply elem_of_nil in Hn.
Qed.

(** A BIGINT value comes back as an unsigned number, and a negative one comes back as 0.
    *)
Lemma bytes2RealType_bigint n :
  int_ok 64 n → bytes2RealType (Itoa n) (B "BIGINT") = VUint64 (Z.max 0 n).
Proof.
  unfold int_ok. change (2 ^ (64 - 1)) with (2 ^ 63). intros Hn.
  change (bytes2RealType (Itoa n) (B "BIGINT")) with (VUint64 (ParseUint (Itoa n)).1). f_equal.
  unfold Itoa. destruct (Z.ltb_spec n 0).
  - rewrite Z.max_l by lia. done.
  - rewrite ParseUint_digits; [simpl; lia|unfold max_uint64; lia|change (Z.of_nat 20) with 20; lia|lia].
Qed.

Lemma bytes2RealType_bigint_witness : bytes2RealType (Itoa (-5)) (B "BIGINT") = VUint64 0.
Proof. apply (bytes2RealType_bigint (-5)). unfold int_ok. lia. Defined.

Lemma row_map_fold (cvs : list (bytes * bytes * bytes)) (m : rowMap) c v :
  NoDup cvs.*1.*1 → (c, v) ∈ cvs →
  foldl (fun m cv => <[cv.1.1 := bytes2RealType cv.2 cv.1.2]> m) m cvs !! c.1 =
  Some (bytes2RealType v c.2).
Proof.
  revert m. induction cvs as [|cv cvs IH]; intros m Hnd Hin; [by apply elem_of_nil in Hin|].
  csimpl in *. apply NoDup_cons in Hnd as [Hn Hnd].
  apply elem_of_cons in Hin as [<-|Hin]; [|by apply IH]. cbn [fst snd] in *.
  assert (∀ m : rowMap, m !! c.1 = Some (bytes2RealType v c.2) →
    foldl (fun m cv => <[cv.1.1 := bytes2RealType cv.2 cv.1.2]> m) m cvs !! c.1 =
    Some (bytes2RealType v c.2)) as Hkeep.
  { clear IH. induction cvs as [|cv cvs IH]; intros m' Hm; [done|]. csimpl in *.
    apply not_elem_of_cons in Hn as [Hk Hn]. apply NoDup_cons in Hnd as [_ Hnd].
    apply IH; [done|done|]. by rewrite lookup_insert_ne. }
  apply Hkeep. by rewrite lookup_insert_eq.
Qed.

(** Query gives every cell of every row under its column name, converted by the type of
    the column, when the column names are distinct. *)
Lemma Query_row columns rows i j name ty row v :
  NoDup columns.*1 → Forall (fun row => length row = length columns) rows →
  rows !! i = Some row → columns !! j = Some (name, ty) → row !! j = Some v →
  ∃ m, (Query (QueryRows columns rows None)).1 !! i = Some m ∧ m !! name = Some (bytes2RealType v ty).
Proof.
  intros Hnd Hlen Hi Hj Hv. cbn [Query fst]. rewrite list_lookup_fmap, Hi. eexists. split; [done|].
  apply (row_map_fold (zip columns row) ∅ (name, ty) v).
  - rewrite Forall_forall in Hlen.
    assert (length row = length columns) as Hl by (apply Hlen, list_elem_of_lookup; eauto).
    by rewrite fst_zip by lia.
  - apply list_elem_of_lookup. exists j. apply lookup_zip_Some. done.
Qed.

Lemma Query_row_witness :
  let columns := [(B "id", B "BIGINT"); (B "table", B "VARCHAR")] in
  ∃ m, (Query (QueryRows columns [[B "1"; B "users"]] None)).1 !! 0%nat = Some m ∧
    m !! B "table" = Some (bytes2RealType (B "users") (B "VARCHAR")).
Proof.
  cbn zeta. apply (Query_row _ _ 0 1 (B "table") (B "VARCHAR") [B "1"; B "users"] (B "users")); try reflexivity.
  - apply (bool_decide_unpack _). vm_compute. exact I.
  - repeat constructor.
Defined.
