(* ===== verification/Explain.v ===== *)
(** * [lib/explain.go] and [prodSQL.go]: explaining and storing statements

    The production environment receives posted samples, pops them from the queue, runs
    EXPLAIN against the database the sample names, scores the result ([Scoring]) and inserts
    a row.  The database is chosen by walking the configuration struct. *)

From S2P Require Import Prelude GoStrings Digest Records Config Mysql Scoring.
From S2P Require Import RedisReply RedisConn RedisServer RedisQueue Pipeline.

(** [func Capitalize(str string) string] *)
Definition Capitalize (str : bytes) : bytes :=
  match range str with
  | [] => []
  | (_, r) :: rs =>
      if (97 <=? r) && (r <=? 122) then
        EncodeRune (r - 32) ++ (rs ≫= fun ir => EncodeRune ir.2)
      else str
  end.

(** ** The database of a sample *)

(** The first loop of [ExcuteDbSql]: the name of the last string field whose value is the
    database of the sample. *)
Definition DbUpon (cfg : AppConfig) (db : bytes) : bytes :=
  foldl (fun acc f => match f.2 with
                      | VString v => if beq v db then f.1 else acc
                      | VInt _ => acc
                      end) [] cfg.

(** Type assertions on the value of a field. *)
Definition as_string (v : fvalue) : Go bytes :=
  match v with VString s => Ret s | VInt _ => Panic TypeAssertionFailed end.
Definition as_int (v : fvalue) : Go Z :=
  match v with VInt n => Ret n | VString _ => Panic TypeAssertionFailed end.

Definition zero_MysqlConf : MysqlConfType := mk_MysqlConf [] [] [] [] [] 0 0 0.

(** The switch of the second loop. *)
Definition switch_field (upon : bytes) (c : MysqlConfType) (f : bytes * fvalue) : Go MysqlConfType :=
  let '(n, v) := f in
  let one suffix := beq n (upon ++ suffix) in
  let 'mk_MysqlConf h d u p ch po mo mi := c in
  if one (B "_MysqlHost") then let* x := as_string v in Ret (mk_MysqlConf x d u p ch po mo mi)
  else if one (B "_MysqlDb") then let* x := as_string v in Ret (mk_MysqlConf h x u p ch po mo mi)
  else if one (B "_MysqlUser") then let* x := as_string v in Ret (mk_MysqlConf h d x p ch po mo mi)
  else if one (B "_MysqlPw") then let* x := as_string v in Ret (mk_MysqlConf h d u x ch po mo mi)
  else if one (B "_MysqlCharset") then let* x := as_string v in Ret (mk_MysqlConf h d u p x po mo mi)
  else if one (B "_MysqlPort") then let* x := as_int v in Ret (mk_MysqlConf h d u p ch x mo mi)
  else if one (B "_MysqlMaxOpenConns") then let* x := as_int v in Ret (mk_MysqlConf h d u p ch po x mi)
  else if one (B "_MysqlMaxIdleConns") then let* x := as_int v in Ret (mk_MysqlConf h d u p ch po mo x)
  else Ret c.

(** The second loop. *)
Definition select_conf (upon : bytes) (cfg : AppConfig) : Go MysqlConfType :=
  foldl (fun acc f => let* c := acc in switch_field upon c f) (Ret zero_MysqlConf) cfg.

(** Both loops: the connection parameters for a database. *)
Definition explain_conf (cfg : AppConfig) (db : bytes) : Go MysqlConfType :=
  select_conf (DbUpon cfg db) cfg.

(** ** Running EXPLAIN *)

(** The text sent to the server. *)
Definition explain_text (info : bytes) : bytes :=
  let s := requote info in
  let s := if negb (Index s (B "u003c") =? -1) then ReplaceAll s (B "u003c") (B "<") else s in
  let s := if negb (Index s (B "u003e") =? -1) then ReplaceAll s (B "u003e") (B ">") else s in
  B "EXPLAIN " ++ s.

(** [interface{}(row[name]).(string)] and [.(uint64)]: a missing column is a nil interface. *)
Definition col_string (row : rowMap) (name : bytes) : Go bytes :=
  match row !! name with Some (VText s) => Ret s | _ => Panic TypeAssertionFailed end.
Definition col_uint64 (row : rowMap) (name : bytes) : Go Z :=
  match row !! name with Some (VUint64 n) => Ret n | _ => Panic TypeAssertionFailed end.

(** One row of the EXPLAIN. *)
Definition explain_row (row : rowMap) : Go Explains :=
  let* id := col_uint64 row (B "id") in
  let* select_type := col_string row (B "select_type") in
  let* table := col_string row (B "table") in
  let* type := col_string row (B "type") in
  let* possible_keys := col_string row (B "possible_keys") in
  let* key := col_string row (B "key") in
  let* key_len := col_string row (B "key_len") in
  let* ref := col_string row (B "ref") in
  let* rows := col_uint64 row (B "rows") in
  let* extra := col_string row (B "Extra") in
  Ret (mk_Explains id select_type table type possible_keys key key_len ref rows extra).

Fixpoint explain_rows (rows : list rowMap) : Go (list Explains) :=
  match rows with
  | [] => Ret []
  | r :: rows' =>
      let* e := explain_row r in
      let* es := explain_rows rows' in
      Ret (e :: es)
  end.

(** The comma-ok assertion of the cost. *)
Definition cost_value (rows : list rowMap) : option bytes :=
  match rows with
  | [] => None
  | r :: _ => Some (match r !! B "Value" with Some (VText s) => s | _ => [] end)
  end.

Definition set_explain (es : list Explains) (cost : bytes) (r : ExplainsResult) : ExplainsResult :=
  mk_ExplainsResult (r_Expl r) (r_Arr r) es cost (r_Level r) (r_Score r) (r_Content r)
    (r_Branch r) (r_Db r) (r_Route r).

(** [func ExcuteDbSql(sql ExplainsResult, ...)]: what it hands to [getScore].  [server] is the
    database a configuration leads to: whether [sql.Open] succeeds, and the outcome of each
    statement; a failed query is logged and yields no rows. *)
Definition ExcuteDbSql (server : MysqlConfType → bool * (bytes → outcome))
    (cfg : AppConfig) (sql : ExplainsResult) : Go ExplainsResult :=
  let* conf := explain_conf cfg (r_Db sql) in
  let '(opened, run) := server conf in
  let* first := go_index (r_Arr sql) 0 in
  if opened then
    let rows := (Query (run (explain_text (Info first)))).1 in
    let* es := explain_rows rows in
    let costs := (Query (run (B "show status like 'Last_query_cost'"))).1 in
    Ret (set_explain (r_Explain sql ++ es) (default (r_Last_query_cost sql) (cost_value costs)) sql)
  else Panic NilDereference.

(** ** The consumers *)

Section Consumers.
Context `{Md5} `{RedisScripting}.

(** One tick of [NewExplainResult]: [ExplainDBNumber] pops, an empty one is skipped; the
    samples for which [ExcuteDbSql] is started. *)
Fixpoint explain_tick (decode : bytes → ExplainsResult * bool) (rcs : nat → Conn) (number : nat)
    (quename : bytes) (s : srv) : list ExplainsResult * srv :=
  match number with
  | O => ([], s)
  | S k =>
      let '((data, _), s) := ListPop (rcs 0%nat) quename s in
      let '(jobs, s) := explain_tick decode (fun i => rcs (S i)) k quename s in
      (if beq data [] then jobs else (decode data).1 :: jobs, s)
  end.

(** The replacements of [NewExplainDb] and of the handler on encoded JSON. *)
Definition unescape_json (s : bytes) : bytes :=
  let s := ReplaceAll s (B "u003c") (B "<") in
  let s := ReplaceAll s (B "u003e") (B ">") in
  let s := ReplaceAll s (B "&lt") (B "<") in
  let s := ReplaceAll s (B "&gt") (B ">") in
  ReplaceAll s (B "u0026") (B "&").

(** The replacements of [NewExplainDb] on the fingerprint, in their own order. *)
Definition unescape_expl (s : bytes) : bytes :=
  let s := ReplaceAll s (B "u003c") (B "<") in
  let s := ReplaceAll s (B "u003e") (B ">") in
  let s := ReplaceAll s (B "u0026") (B "&") in
  let s := ReplaceAll s (B "&lt") (B "<") in
  ReplaceAll s (B "&gt") (B ">").

(** [strings.Replace(s, "'", "\\'", -1)] *)
Definition escape_quotes (s : bytes) : bytes := ReplaceAll s (B "'") (B "\'").

(** The INSERT statement. *)
Definition insert_text (expl route sql_info explain cost level : bytes) (score : Z)
    (content branch db : bytes) (flag : Z) (day time : bytes) : bytes :=
  let q s := B "'" ++ s ++ B "'" in
  B "INSERT INTO sqlexplain(`expl`,`route`,`sql_info`,`explain`,`last_query_cost`,`level`,`score`,`content`,`branch`,`db`,`flag`,`daytime`,`create_datetime`) VALUES("
  ++ q expl ++ B "," ++ q route ++ B "," ++ q sql_info ++ B "," ++ q explain ++ B "," ++ cost
  ++ B "," ++ q level ++ B "," ++ Itoa score ++ B "," ++ q content ++ B "," ++ q branch
  ++ B "," ++ q db ++ B "," ++ Itoa flag ++ B "," ++ q day ++ B "," ++ q time ++ B ")".

(** One message of [NewExplainDb]: the statement it inserts.  [marshal_arr] and
    [marshal_explain] are [json.Marshal]; [day] and [time] format the current time. *)
Definition store_result (marshal_arr : list SqlInfo → bytes) (marshal_explain : list Explains → bytes)
    (day time : bytes) (rc : Conn) (sqldata : ExplainsResult) (s : srv) : bytes * srv :=
  let sqlInfoData := escape_quotes (unescape_json (marshal_arr (r_Arr sqldata))) in
  let explainInfoData := escape_quotes (unescape_json (marshal_explain (r_Explain sqldata))) in
  let expl := unescape_expl (r_Expl sqldata) in
  let '((resp, _), s) := UniquePush rc (B "julive:" ++ r_Branch sqldata) (NewMd5 expl) s in
  let flag := if resp =? 1 then 1 else 0 in
  (insert_text expl (r_Route sqldata) sqlInfoData explainInfoData (r_Last_query_cost sqldata)
     (r_Level sqldata) (r_Score sqldata) (r_Content sqldata) (r_Branch sqldata) (r_Db sqldata)
     flag day time, s).

(** The MySQL configuration [NewExplainDb] stores with. *)
Definition store_conf (cfg : AppConfig) : MysqlConfType :=
  mk_MysqlConf (cfg_string cfg (B "MysqlHost")) (cfg_string cfg (B "MysqlDb"))
    (cfg_string cfg (B "MysqlUser")) (cfg_string cfg (B "MysqlPw"))
    (cfg_string cfg (B "MysqlCharset")) (cfg_int cfg (B "MysqlPort"))
    (cfg_int cfg (B "MysqlMaxOpenConns")) (cfg_int cfg (B "MysqlMaxIdleConns")).

(** ** [prodSQL.go] *)

(** The two goroutines of [handler] for a POST: the body goes to the queue, and a message
    with the first sample goes to Kafka ([marshal] is [json.Marshal] of the map). *)
Definition handler_queue (rc : Conn) (cfg : AppConfig) (body : bytes) (s : srv) : srv :=
  (ListPush rc (cfg_string cfg (B "Redisquename")) body s).2.

Definition handler_kafka (decode : bytes → ExplainsResult * bool)
    (marshal : bytes → SqlInfo → bytes → bytes → bytes → bytes) (body : bytes) : Go bytes :=
  let kafkaData := (decode body).1 in
  let* arr := go_index (r_Arr kafkaData) 0 in
  Ret (unescape_json (marshal (r_Expl kafkaData) arr (r_Branch kafkaData) (r_Db kafkaData) (r_Route kafkaData))).

Definition handler (decode : bytes → ExplainsResult * bool)
    (marshal : bytes → SqlInfo → bytes → bytes → bytes → bytes)
    (rc : Conn) (cfg : AppConfig) (method body : bytes) (s : srv) : option (Go bytes) * srv :=
  if beq method (B "POST") then
    (Some (handler_kafka decode marshal body), handler_queue rc cfg body s)
  else (None, s).

End Consumers.
