(* ===== verification/ExplainProps.v ===== *)
(** * Properties of the production side ([lib/explain.go], [prodSQL.go])

    Which database a sample is explained on, what the rows of an EXPLAIN become, what one
    tick takes off the queue, and where the handler panics. *)

From S2P Require Import Prelude GoStrings Digest Records Config ConfigProps Mysql Scoring.
From S2P Require Import RedisReply RedisConn RedisConnProps RedisServer RedisQueue RedisQueueProps RedisInstance.
From S2P Require Import Pipeline PipelineProps Explain.

(** ** The database of a sample *)

(** A configuration with the values [sv] and [iv] in its fields. *)
Definition typed_config (sv : bytes → bytes) (iv : bytes → Z) : AppConfig :=
  (fun f => (f.1, match f.2 with KString => VString (sv f.1) | KInt => VInt (iv f.1) end))
    <$> AppConfig_fields.

Lemma getConf_typed c :
  getConf c = typed_config (fun n => GetString c n) (fun n => (GetInt c n).1).
Proof.
  rewrite getConf_eq. unfold typed_config. apply list_fmap_ext. by intros i [n []] _.
Qed.

(** The first loop finds the last match; with one match, that one. *)
Lemma DbUpon_fold (sv : bytes → bytes) (iv : bytes → Z) fs acc P db :
  (∀ n, (n, KString) ∈ fs → sv n = db → n = P) → sv P = db →
  (P, KString) ∈ fs ∨ acc = P →
  foldl (fun acc f => match f.2 with
                      | VString v => if beq v db then f.1 else acc
                      | VInt _ => acc
                      end) acc
    ((fun f => (f.1, match f.2 with KString => VString (sv f.1) | KInt => VInt (iv f.1) end)) <$> fs) = P.
Proof.
  intros Huniq HP. revert acc. induction fs as [|[n k] fs IH]; intros acc Hin; csimpl.
  - by destruct Hin as [?%elem_of_nil|?].
  - apply IH; [intros; apply Huniq; [by right|done]|]. destruct k; cbn [fst snd].
    + destruct (beq (sv n) db) eqn:E.
      * right. apply beq_eq in E. apply Huniq; [by left|done].
      * destruct Hin as [[[= ->]|Hin]%elem_of_cons|Hin]; [|by left|by right].
        apply beq_neq in E. done.
    + destruct Hin as [[[=]|Hin]%elem_of_cons|Hin]; [by left|by right].
Qed.

(** The databases the configuration describes. *)
Definition db_names : list bytes := [B "Comjia"; B "Esf"; B "Bbs"; B "Dsp"].

Lemma select_conf_db sv iv P :
  P ∈ db_names →
  select_conf P (typed_config sv iv) =
  Ret (mk_MysqlConf (sv (P ++ B "_MysqlHost")) (sv (P ++ B "_MysqlDb")) (sv (P ++ B "_MysqlUser"))
         (sv (P ++ B "_MysqlPw")) (sv (P ++ B "_MysqlCharset")) (iv (P ++ B "_MysqlPort"))
         (iv (P ++ B "_MysqlMaxOpenConns")) (iv (P ++ B "_MysqlMaxIdleConns"))).
Proof.
  intros HP. unfold db_names in HP.
  repeat (apply elem_of_cons in HP as [->|HP]; [vm_compute; reflexivity|]).
  by apply elem_of_nil in HP.
Qed.

(** When exactly one string field of the configuration holds the name of the database and
    it is one of the four database fields, ExcuteDbSql connects with the parameters of that
    database. *)
Theorem explain_conf_selects sv iv P db :
  P ∈ db_names → sv P = db → (∀ n, (n, KString) ∈ AppConfig_fields → sv n = db → n = P) →
  explain_conf (typed_config sv iv) db =
  Ret (mk_MysqlConf (sv (P ++ B "_MysqlHost")) (sv (P ++ B "_MysqlDb")) (sv (P ++ B "_MysqlUser"))
         (sv (P ++ B "_MysqlPw")) (sv (P ++ B "_MysqlCharset")) (iv (P ++ B "_MysqlPort"))
         (iv (P ++ B "_MysqlMaxOpenConns")) (iv (P ++ B "_MysqlMaxIdleConns"))).
Proof.
  intros HP Hdb Huniq. unfold explain_conf. rewrite <- (select_conf_db sv iv P HP). f_equal.
  apply DbUpon_fold; [done|done|]. left.
  unfold db_names in HP.
  repeat (apply elem_of_cons in HP as [->|HP]; [apply (bool_decide_unpack _); by vm_compute|]).
  by apply elem_of_nil in HP.
Qed.

Definition sample_strings (n : bytes) : bytes := if beq n (B "Bbs") then B "forum" else n.

Lemma explain_conf_selects_witness :
  ∃ conf, explain_conf (typed_config sample_strings (fun _ => 3306)) (B "forum") = Ret conf ∧
    MysqlHost conf = B "Bbs_MysqlHost".
Proof.
  eexists. split.
  - apply (explain_conf_selects sample_strings (fun _ => 3306) (B "Bbs") (B "forum")).
    + apply (bool_decide_unpack _). vm_compute. exact I.
    + reflexivity.
    + intros n Hn. unfold sample_strings. destruct (beq n (B "Bbs")) eqn:E; [by apply beq_eq in E|].
      intros ->. exfalso. revert Hn. apply (bool_decide_unpack _). vm_compute. exact I.
  - reflexivity.
Defined.

(** The entries of the shipped [env/prod.conf] that name a database. *)
Definition prod_conf_dbs : bytes := print_conf
  [ (B "MysqlDb", B "comjia"); (B "MysqlUser", B "com");
    (B "Comjia_MysqlHost", B "101.60.35.63"); (B "Comjia_MysqlDb", B "comji");
    (B "Comjia_MysqlUser", B "comj"); (B "Comjia_MysqlPw", B "444");
    (B "Comjia_MysqlCharset", B "utf8"); (B "Comjia_MysqlPort", B "3306");
    (B "Comjia_MysqlMaxOpenConns", B "100"); (B "Comjia_MysqlMaxIdleConns", B "100");
    (B "Comjia", B "comj"); (B "SoarTestDsnDb", B "comj") ].

(** With the databases of the shipped prod.conf a sample of database comj is explained
    with no connection parameters at all: the last field with that value is the user name. *)
Lemma explain_conf_last_match :
  explain_conf (NewConf (one_file (B "/opt/env/prod.conf") prod_conf_dbs) (B "/opt") (B "prod")) (B "comj")
  = Ret zero_MysqlConf.
Proof. vm_compute. reflexivity. Qed.

(** ** Rows of an EXPLAIN *)

(** The columns MySQL documents for EXPLAIN, with the type names of the driver. *)
Definition explain_columns : list (bytes * bytes) :=
  [ (B "id", B "BIGINT"); (B "select_type", B "VARCHAR"); (B "table", B "VARCHAR");
    (B "type", B "VARCHAR"); (B "possible_keys", B "VARCHAR"); (B "key", B "VARCHAR");
    (B "key_len", B "VARCHAR"); (B "ref", B "VARCHAR"); (B "rows", B "BIGINT");
    (B "Extra", B "VARCHAR") ].

(** What a row of texts becomes. *)
Definition row_explains (v : list bytes) : Explains :=
  let t i := default [] (v !! i) in
  mk_Explains (ParseUint (t 0%nat)).1 (t 1%nat) (t 2%nat) (t 3%nat) (t 4%nat) (t 5%nat) (t 6%nat)
    (t 7%nat) (ParseUint (t 8%nat)).1 (t 9%nat).

Lemma row_map_lookup v i name ty :
  length v = 10%nat → explain_columns !! i = Some (name, ty) →
  row_map explain_columns v !! name = Some (bytes2RealType (default [] (v !! i)) ty).
Proof.
  intros Hv Hi. unfold row_map.
  assert (is_Some (v !! i)) as [x Hx].
  { apply lookup_lt_is_Some. apply lookup_lt_Some in Hi. rewrite Hv. exact Hi. }
  rewrite Hx. apply (row_map_fold (zip explain_columns v) ∅ (name, ty) x).
  - rewrite fst_zip by (rewrite Hv; simpl; lia). apply (bool_decide_unpack _). by vm_compute.
  - apply list_elem_of_lookup. exists i. by apply lookup_zip_Some.
Qed.

Lemma explain_row_columns v :
  length v = 10%nat → explain_row (row_map explain_columns v) = Ret (row_explains v).
Proof.
  intros Hv. unfold explain_row, col_uint64, col_string.
  rewrite (row_map_lookup v 0 (B "id") (B "BIGINT")), (row_map_lookup v 1 (B "select_type") (B "VARCHAR")),
    (row_map_lookup v 2 (B "table") (B "VARCHAR")), (row_map_lookup v 3 (B "type") (B "VARCHAR")),
    (row_map_lookup v 4 (B "possible_keys") (B "VARCHAR")), (row_map_lookup v 5 (B "key") (B "VARCHAR")),
    (row_map_lookup v 6 (B "key_len") (B "VARCHAR")), (row_map_lookup v 7 (B "ref") (B "VARCHAR")),
    (row_map_lookup v 8 (B "rows") (B "BIGINT")), (row_map_lookup v 9 (B "Extra") (B "VARCHAR")) by done.
  reflexivity.
Qed.

(** For a result with the columns MySQL documents for EXPLAIN no type assertion fails and
    every row becomes the record of its texts and numbers. *)
Theorem explain_rows_columns rows :
  Forall (fun v => length v = 10%nat) rows →
  explain_rows (Query (QueryRows explain_columns rows None)).1 = Ret (row_explains <$> rows).
Proof.
  intros Hrows. cbn [Query fst]. induction Hrows as [|v rows Hv Hrows IH]; [done|].
  csimpl. cbn [explain_rows]. rewrite explain_row_columns by done. cbn [gbind]. rewrite IH. done.
Qed.

Definition sample_explain : list bytes :=
  [B "1"; B "SIMPLE"; B "t"; B "ALL"; []; []; []; []; B "42"; B "Using where"].

Lemma explain_rows_columns_witness :
  explain_rows (Query (QueryRows explain_columns [sample_explain] None)).1
  = Ret [mk_Explains 1 (B "SIMPLE") (B "t") (B "ALL") [] [] [] [] 42 (B "Using where")].
Proof. apply (explain_rows_columns [sample_explain]). repeat constructor. Defined.

(** ** One tick *)

Section Tick.
Context `{RedisScripting}.

(** One tick of NewExplainResult takes ExplainDBNumber elements off the queue in order,
    or all of them, and leaves the rest. *)
Theorem explain_tick_takes decode n q l s :
  cache_ok s → value_at s q = of_list l → Forall (fun x => x ≠ []) l →
  ∃ s', explain_tick decode (fun _ => Live) n q s = ((fun x => (decode x).1) <$> take n l, s') ∧
    value_at s' q = of_list (drop n l).
Proof.
  revert l s. induction n as [|n IH]; intros l s Hc Hq Hl; cbn [explain_tick].
  - exists s. by rewrite drop_0.
  - destruct l as [|x l].
    + destruct (ListPop_none s q Hc Hq) as (s1 & -> & Hq1 & Hc1).
      destruct (IH [] s1 Hc1 Hq1 ltac:(constructor)) as (s2 & -> & Hq2).
      exists s2. rewrite take_nil, drop_nil in *. done.
    + apply Forall_cons in Hl as [Hx Hl].
      destruct (ListPop_spec s q x l Hc Hq Hx) as (s1 & -> & Hq1 & Hc1).
      destruct (IH l s1 Hc1 Hq1 Hl) as (s2 & -> & Hq2). exists s2.
      apply beq_neq in Hx. by rewrite Hx.
Qed.

End Tick.

Lemma explain_tick_takes_witness :
  ∃ s', explain_tick (H1 := MapServer.scripting) (fun d => (sample_msg d, true)) (fun _ => Live) 1 (B "julive")
      (MapServer.mk_state {[ B "julive" := VList [B "a"; B "b"] ]} ∅)
    = ([sample_msg (B "a")], s') ∧
    value_at (RedisStore := MapServer.store) s' (B "julive") = of_list [B "b"].
Proof.
  apply (explain_tick_takes (H0 := MapServer.scripting) (fun d => (sample_msg d, true)) 1 (B "julive")
    [B "a"; B "b"]).
  - intros t Ht. left. reflexivity.
  - reflexivity.
  - repeat constructor; discriminate.
Defined.

(** ** The handler *)

(** The Kafka branch of the handler returns exactly when the posted record has a sample;
    without one it panics. *)
Lemma handler_kafka_returns decode marshal body :
  returns (handler_kafka decode marshal body) ↔ r_Arr (decode body).1 ≠ [].
Proof.
  unfold handler_kafka. destruct (r_Arr (decode body).1) as [|x arr].
  - split; [by intros [? ?]|done].
  - split; [done|]. intros _. eexists. unfold go_index. rewrite len_cons.
    pose proof (len_nonneg arr). replace ((0 <=? 0) && (0 <? len arr + 1)) with true by lia.
    reflexivity.
Qed.

(** ** Capitalising *)

Lemma range_encode_bind s : Forall (fun b => 0 ≤ b < 128) s →
  ∀ i, (range_go s i 0 ≫= fun ir => EncodeRune ir.2) = s.
Proof.
  induction 1 as [|c s Hc Hs IH]; intros i; [done|].
  rewrite range_go_ascii_cons by lia. csimpl. rewrite IH. unfold EncodeRune.
  by replace ((0 <=? c) && (c <? 128)) with true by lia.
Qed.

(** On ASCII text [Capitalize] changes the first letter only. *)
Lemma Capitalize_ascii c s :
  Forall (fun b => 0 ≤ b < 128) (c :: s) →
  Capitalize (c :: s) = (if (97 <=? c) && (c <=? 122) then c - 32 else c) :: s.
Proof.
  intros Hs. apply Forall_cons in Hs as [Hc Hs]. unfold Capitalize, range.
  rewrite range_go_ascii_cons by lia. bool_case; [|done].
  rewrite range_encode_bind by done. unfold EncodeRune.
  by replace ((0 <=? c - 32) && (c - 32 <? 128)) with true by lia.
Qed.
