(* ===== verification/Request.v ===== *)
(** * [lib/request.go] and [curlURL] of [lib/soar.go]: posting a gathered record

    [net/http] and [encoding/json] are parameters: [Marshal] encodes the record,
    [request_error] is what [http.NewRequest] reports, [client_Do] performs the request. *)

From S2P Require Import Prelude GoStrings Records Config.

(** [type Request struct], the fields that shape a request *)
Record Request := mk_Request {
  Method : bytes; Url : bytes; Host : bytes; dialTimeout : Z; responseTimeOut : Z;
  Headers : gmap bytes bytes; Cookies : gmap bytes bytes; Queries : gmap bytes bytes;
  PostData : ExplainsResult
}.

(** [func NewRequest() *Request] *)
Definition NewRequest : Request := mk_Request [] [] [] 5 5 ∅ ∅ ∅ zero_ExplainsResult.

(** The setters; each returns its receiver. *)
Definition SetMethod (m : bytes) (r : Request) : Request :=
  let 'mk_Request _ u h d t hs cs qs p := r in mk_Request m u h d t hs cs qs p.
Definition SetUrl (u : bytes) (r : Request) : Request :=
  let 'mk_Request m _ h d t hs cs qs p := r in mk_Request m u h d t hs cs qs p.
Definition SetHeaders (hs : gmap bytes bytes) (r : Request) : Request :=
  let 'mk_Request m u h d t _ cs qs p := r in mk_Request m u h d t hs cs qs p.
Definition SetCookies (cs : gmap bytes bytes) (r : Request) : Request :=
  let 'mk_Request m u h d t hs _ qs p := r in mk_Request m u h d t hs cs qs p.
Definition SetHost (h : bytes) (r : Request) : Request :=
  let 'mk_Request m u _ d t hs cs qs p := r in mk_Request m u h d t hs cs qs p.
Definition SetQueries (qs : gmap bytes bytes) (r : Request) : Request :=
  let 'mk_Request m u h d t hs cs _ p := r in mk_Request m u h d t hs cs qs p.
Definition SetPostData (p : ExplainsResult) (r : Request) : Request :=
  let 'mk_Request m u h d t hs cs qs _ := r in mk_Request m u h d t hs cs qs p.
Definition SetDialTimeOut (n : Z) (r : Request) : Request :=
  let 'mk_Request m u h _ t hs cs qs p := r in mk_Request m u h n t hs cs qs p.
Definition SetResponseTimeOut (n : Z) (r : Request) : Request :=
  let 'mk_Request m u h d _ hs cs qs p := r in mk_Request m u h d n hs cs qs p.

(** The [http.Request] that is sent; [http_host] overrides the host of the URL when the
    code sets it. *)
Record http_request := mk_http {
  http_method : bytes; http_url : bytes; http_body : option bytes; http_host : option bytes;
  http_headers : gmap bytes bytes; http_cookies : gmap bytes bytes; http_queries : gmap bytes bytes;
  http_timeouts : Z * Z
}.

(** The [http.Response]; the body is what [ReadAll] returns. *)
Record http_response := mk_http_response {
  StatusCode : Z; raw_headers : list (bytes * list bytes); raw_body : bytes + bytes
}.

(** [type Response struct] *)
Record Response := mk_Response { resp_Raw : http_response; resp_Headers : gmap bytes bytes; resp_Body : bytes }.

Inductive send_error := LackOfUrl | LackOfMethod | MarshalError (e : bytes) | RequestError (e : bytes) | NetError (e : bytes).

(** [func (this Response) IsOk() bool] *)
Definition IsOk (r : Response) : bool := StatusCode (resp_Raw r) =? 200.

(** [func (this Response) parseHeaders() error]: the first value of every header. *)
Fixpoint parseHeaders (hs : list (bytes * list bytes)) (m : gmap bytes bytes) : Go (gmap bytes bytes) :=
  match hs with
  | [] => Ret m
  | (k, v) :: hs' => let* v0 := go_index v 0 in parseHeaders hs' (<[k := v0]> m)
  end.

(** [func (this Response) parseBody() error]: a read error panics. *)
Definition parseBody (r : http_response) : Go bytes :=
  match raw_body r with inl b => Ret b | inr _ => Panic ExplicitPanic end.

Section Send.
Context (Marshal : ExplainsResult → bytes + bytes).
Context (request_error : bytes → bytes → option bytes).
Context (client_Do : http_request → http_response + bytes).

(** The request [Send] builds once its guards have passed. *)
Definition build (r : Request) (url method : bytes) (payload : option bytes) : http_request :=
  mk_http method url payload (if beq (Host r) [] then None else Some (Host r))
    (Headers r) (Cookies r) (Queries r) (dialTimeout r, responseTimeOut r).

(** [func (this Request) Send(url string, method string) (resp, err)]: the requests
    that reach the network, and the result. *)
Definition Send (r : Request) (url method : bytes) : list http_request * Go (Response + send_error) :=
  if beq url [] then ([], Ret (inr LackOfUrl))
  else if beq method [] then ([], Ret (inr LackOfMethod))
  else
    let payload := if beq method (B "POST") then
                     match Marshal (PostData r) with inl b => inl (Some b) | inr e => inr e end
                   else inl None in
    match payload with
    | inr e => ([], Ret (inr (MarshalError e)))
    | inl body =>
        match request_error method url with
        | Some e => ([], Ret (inr (RequestError e)))
        | None =>
            let req := build r url method body in
            match client_Do req with
            | inr e => ([req], Ret (inr (NetError e)))
            | inl raw =>
                ([req],
                 let* hs := parseHeaders (raw_headers raw) ∅ in
                 let* b := parseBody raw in
                 Ret (inl (mk_Response raw hs b)))
            end
        end
    end.

(** [Get], [Delete], [Put], [Post], [PUT], [PATCH] *)
Definition Request_Get (r : Request) := Send r (Url r) (B "GET").
Definition Request_Delete (r : Request) := Send r (Url r) (B "DELETE").
Definition Request_Put (r : Request) := Send r (Url r) (B "PUT").
Definition Request_Post (r : Request) := Send r (Url r) (B "POST").
Definition Request_PUT (r : Request) := Send r (Url r) (B "PUT").
Definition Request_PATCH (r : Request) := Send r (Url r) (B "PATCH").

(** [func curlURL(sql ExplainsResult, appconfig *AppConfig)]: the requests, and whether the
    answer is logged as a success. *)
Definition curl_headers : gmap bytes bytes :=
  {[ B "User-Agent" := B "go-agent"; B "Content-Type" := B "application/json" ]}.
Definition curl_request (sql : ExplainsResult) (cfg : AppConfig) : Request :=
  SetPostData sql (SetHeaders curl_headers
    (SetHost (cfg_string cfg (B "CurlHost")) (SetUrl (cfg_string cfg (B "CurlUrl")) NewRequest))).
Definition curlURL (sql : ExplainsResult) (cfg : AppConfig) : list http_request * Go bool :=
  let '(reqs, res) := Request_Post (curl_request sql cfg) in
  (reqs, let* x := res in Ret (match x with inl resp => IsOk resp | inr _ => false end)).

(** curlURL sends one POST request to CurlUrl with the encoded record, the two headers,
    no cookies or queries, and the configured host when there is one. *)
Lemma curlURL_posts_once sql cfg body :
  let url := cfg_string cfg (B "CurlUrl") in
  let host := cfg_string cfg (B "CurlHost") in
  url ≠ [] → Marshal sql = inl body → request_error (B "POST") url = None →
  (curlURL sql cfg).1 =
  [mk_http (B "POST") url (Some body) (if beq host [] then None else Some host)
     curl_headers ∅ ∅ (5, 5)].
Proof.
  intros url host Hurl Hm Hr. unfold curlURL, Request_Post, Send. cbn [Url curl_request].
  change (Url (curl_request sql cfg)) with url. apply beq_neq in Hurl. rewrite Hurl.
  change (beq (B "POST") []) with false. change (beq (B "POST") (B "POST")) with true. cbn iota.
  change (PostData (curl_request sql cfg)) with sql. rewrite Hm, Hr.
  change (build (curl_request sql cfg) url (B "POST") (Some body)) with
    (mk_http (B "POST") url (Some body) (if beq host [] then None else Some host)
       curl_headers ∅ ∅ (5, 5)).
  by destruct (client_Do _).
Qed.

End Send.

Lemma curlURL_posts_once_witness :
  let cfg := set_field (B "CurlUrl") (VString (B "http://h/")) zero_AppConfig in
  (curlURL (fun _ => inl (B "{}")) (fun _ _ => None) (fun _ => inr (B "refused")) zero_ExplainsResult cfg).1
  = [mk_http (B "POST") (B "http://h/") (Some (B "{}")) None curl_headers ∅ ∅ (5, 5)].
Proof.
  cbn zeta.
  apply (curlURL_posts_once (fun _ => inl (B "{}")) (fun _ _ => None) (fun _ => inr (B "refused"))
    zero_ExplainsResult (set_field (B "CurlUrl") (VString (B "http://h/")) zero_AppConfig) (B "{}")).
  - vm_compute. discriminate.
  - reflexivity.
  - reflexivity.
Defined.
