(* ===== verification/KafkaCodec.v ===== *)
(** * [kafka/prep_encoder.go], [kafka/real_encoder.go], [kafka/encoder_decoder.go],
    [kafka/length_field.go], [kafka/crc32_field.go]: the two-pass encoder

    A message is encoded twice by the same sequence of calls on the [packetEncoder]
    interface: the first pass counts, the second writes into a slice of exactly that length
    and patches the length and checksum fields that were reserved earlier.  The sequence of
    calls is a value here ([put]), the two implementations are its interpreters. *)

From S2P Require Import Prelude GoStrings.

(** ** The interface *)

(** [pushEncoder]: a 4-byte length, a CRC32 with one of the two polynomials the code defines,
    or a varint length.  A [varintLengthField] is a part of the record it measures and keeps
    the length from the counting pass to the writing pass: the field names the record, and
    the lengths are a store ([fields]). *)
Inductive crcPolynomial := crcIEEE | crcCastagnoli.
Inductive pushEncoder := lengthField | crc32Field (p : crcPolynomial) | varintLengthField (record : nat).
Abbreviation fields := (gmap nat Z).

Inductive packet_error :=
| ArrayTooLong | ByteSliceTooLong | StringTooLong | InvalidRequestSize
| InvalidTimestamp | UnsupportedCodec (codec : Z) | CompressionFailed | UnknownRecordsType
| UnsupportedVersion | BothGroupProtocols | InvalidAddress.

(** The calls of [packetEncoder]; a nil slice or string pointer is [None].  [report] is not a
    call: the encoder of the message returns an error of its own at this point. *)
Inductive put :=
| putInt8 (n : Z) | putInt16 (n : Z) | putInt32 (n : Z) | putInt64 (n : Z) | putVarint (n : Z)
| putArrayLength (n : Z) | putBool (b : bool)
| putRawBytes (b : bytes) | putBytes (b : option bytes) | putVarintBytes (b : option bytes)
| putString (s : bytes) | putNullableString (s : option bytes)
| putStringArray (ss : list bytes) | putInt32Array (ns : list Z) | putInt64Array (ns : list Z)
| push (f : pushEncoder) | pop | report (e : packet_error).

(** ** Byte orders *)

(** [binary.BigEndian.PutUint16] and its siblings on [uint(n)] *)
Fixpoint be_bytes (w : nat) (n : Z) : bytes :=
  match w with
  | O => []
  | S k => (n / 256 ^ Z.of_nat k) mod 256 :: be_bytes k n
  end.

(** [binary.PutVarint]: zig-zag, then 7 bits per byte, at most 10 bytes *)
Definition zigzag (n : Z) : Z := uwrap 64 (if n <? 0 then - 2 * n - 1 else 2 * n).
Fixpoint uvarint_bytes (fuel : nat) (u : Z) : bytes :=
  match fuel with
  | O => []
  | S k => if u <? 128 then [u] else Z.lor (u mod 256) 128 :: uvarint_bytes k (Z.shiftr u 7)
  end.
Definition varint_bytes (n : Z) : bytes := uvarint_bytes 10 (zigzag n).

(** ** The counting pass *)

Definition math_MaxInt16 : Z := 2 ^ 15 - 1.
Definition math_MaxInt32 : Z := 2 ^ 31 - 1.

(** [reserveLength] of the three fields *)
Definition reserveLength (h : fields) (f : pushEncoder) : Z :=
  match f with
  | lengthField | crc32Field _ => 4
  | varintLengthField r => len (varint_bytes (h !!! r))
  end.

(** [type prepEncoder struct]; the stack holds the fields with the offsets they saved. *)
Record prepEncoder := mk_prep { p_stack : list (pushEncoder * Z); p_length : Z; p_fields : fields }.
Definition p_add (n : Z) (pe : prepEncoder) : prepEncoder := mk_prep (p_stack pe) (p_length pe + n) (p_fields pe).

(** [func (l *varintLengthField) adjustLength(currOffset int) int], the new length and the
    change of the size *)
Definition adjustLength (h : fields) (r : nat) (startOffset currOffset : Z) : fields * Z :=
  let oldFieldSize := reserveLength h (varintLengthField r) in
  let h' := <[r := currOffset - startOffset - oldFieldSize]> h in
  (h', reserveLength h' (varintLengthField r) - oldFieldSize).

Definition prep_putString (s : bytes) (pe : prepEncoder) : prepEncoder + packet_error :=
  let pe := p_add 2 pe in
  if math_MaxInt16 <? len s then inr StringTooLong else inl (p_add (len s) pe).
Definition prep_putRawBytes (b : bytes) (pe : prepEncoder) : prepEncoder + packet_error :=
  if math_MaxInt32 <? len b then inr ByteSliceTooLong else inl (p_add (len b) pe).
Definition prep_putArrayLength (n : Z) (pe : prepEncoder) : prepEncoder + packet_error :=
  if math_MaxInt32 <? n then inr ArrayTooLong else inl (p_add 4 pe).

Definition ebind {A C E} (m : A + E) (k : A → C + E) : C + E :=
  match m with inl a => k a | inr e => inr e end.

Fixpoint prep_strings (ss : list bytes) (pe : prepEncoder) : prepEncoder + packet_error :=
  match ss with
  | [] => inl pe
  | s :: ss' => ebind (prep_putString s pe) (prep_strings ss')
  end.

(** The methods of [prepEncoder] that write data. *)
Definition prep_data (c : put) (pe : prepEncoder) : prepEncoder + packet_error :=
  match c with
  | putInt8 _ => inl (p_add 1 pe)
  | putInt16 _ => inl (p_add 2 pe)
  | putInt32 _ => inl (p_add 4 pe)
  | putInt64 _ => inl (p_add 8 pe)
  | putVarint n => inl (p_add (len (varint_bytes n)) pe)
  | putArrayLength n => prep_putArrayLength n pe
  | putBool _ => inl (p_add 1 pe)
  | putRawBytes b => prep_putRawBytes b pe
  | putBytes None => inl (p_add 4 pe)
  | putBytes (Some b) => prep_putRawBytes b (p_add 4 pe)
  | putVarintBytes None => inl (p_add (len (varint_bytes (-1))) pe)
  | putVarintBytes (Some b) => prep_putRawBytes b (p_add (len (varint_bytes (len b))) pe)
  | putString s => prep_putString s pe
  | putNullableString None => inl (p_add 2 pe)
  | putNullableString (Some s) => prep_putString s pe
  | putStringArray ss => ebind (prep_putArrayLength (len ss) pe) (prep_strings ss)
  | putInt32Array ns => ebind (prep_putArrayLength (len ns) pe) (fun pe => inl (p_add (4 * len ns) pe))
  | putInt64Array ns => ebind (prep_putArrayLength (len ns) pe) (fun pe => inl (p_add (8 * len ns) pe))
  | push _ | pop => inl pe
  | report e => inr e
  end.

(** All methods: [push] reserves the room of the field, [pop] takes the field off the stack,
    adjusts a varint length, and panics on an empty stack. *)
Definition prep_put (c : put) (pe : prepEncoder) : Go (prepEncoder + packet_error) :=
  match c with
  | push f => Ret (inl (mk_prep ((f, p_length pe) :: p_stack pe) (p_length pe + reserveLength (p_fields pe) f) (p_fields pe)))
  | pop => match p_stack pe with
           | [] => Panic IndexOutOfRange
           | (varintLengthField r, start) :: st =>
               let (h, d) := adjustLength (p_fields pe) r start (p_length pe) in
               Ret (inl (mk_prep st (p_length pe + d) h))
           | _ :: st => Ret (inl (mk_prep st (p_length pe) (p_fields pe)))
           end
  | _ => Ret (prep_data c pe)
  end.

(** A sequence of calls ends at the first error. *)
Fixpoint prep_run (cs : list put) (pe : prepEncoder) : Go (prepEncoder + packet_error) :=
  match cs with
  | [] => Ret (inl pe)
  | c :: cs' =>
      let* r := prep_put c pe in
      match r with inl pe' => prep_run cs' pe' | inr e => Ret (inr e) end
  end.

(** ** The writing pass *)

(** [type realEncoder struct]; the stack holds the reserved fields with their offsets. *)
Record realEncoder := mk_real { raw : bytes; off : Z; stack : list (pushEncoder * Z) }.

(** A store of [bs] at offset [o]: [PutUint32(raw[o:], v)] and [PutVarint(raw[o:], v)] panic
    when they do not fit. *)
Definition store (raw : bytes) (o : Z) (bs : bytes) : Go bytes :=
  if (0 <=? o) && (o + len bs <=? len raw)
  then Ret (take (Z.to_nat o) raw ++ bs ++ drop (Z.to_nat (o + len bs)) raw)
  else Panic IndexOutOfRange.

(** [copy(re.raw[re.off:], in)] writes what fits. *)
Definition copy_at (raw : bytes) (o : Z) (bs : bytes) : Go bytes := go_copy raw o (len raw) bs.

Section Real.

(** [crc32.Checksum], and the lengths the counting pass has left: this pass does not change
    them *)
Context (checksum : crcPolynomial → bytes → Z) (h : fields).

Definition real_store (bs : bytes) (re : realEncoder) : Go realEncoder :=
  let* raw' := store (raw re) (off re) bs in
  Ret (mk_real raw' (off re + len bs) (stack re)).
Definition real_putRawBytes (b : bytes) (re : realEncoder) : Go realEncoder :=
  let* raw' := copy_at (raw re) (off re) b in
  Ret (mk_real raw' (off re + len b) (stack re)).
Definition real_putInt16 (n : Z) : realEncoder → Go realEncoder := real_store (be_bytes 2 n).
Definition real_putInt32 (n : Z) : realEncoder → Go realEncoder := real_store (be_bytes 4 n).
Definition real_putInt64 (n : Z) : realEncoder → Go realEncoder := real_store (be_bytes 8 n).
Definition real_putVarint (n : Z) : realEncoder → Go realEncoder := real_store (varint_bytes n).
Definition real_putInt8 (n : Z) (re : realEncoder) : Go realEncoder :=
  let* raw' := go_set (raw re) (off re) (n mod 256) in
  Ret (mk_real raw' (off re + 1) (stack re)).
Definition real_putString (s : bytes) (re : realEncoder) : Go realEncoder :=
  let* re := real_putInt16 (len s) re in real_putRawBytes s re.

Fixpoint real_each {A} (f : A → realEncoder → Go realEncoder) (l : list A) (re : realEncoder) : Go realEncoder :=
  match l with [] => Ret re | x :: l' => let* re := f x re in real_each f l' re end.

(** [run] of the fields: the bytes written at the saved offset. *)
Definition field_crc (p : crcPolynomial) (startOffset curOffset : Z) (buf : bytes) : Go Z :=
  let* s := go_slice buf (startOffset + 4) curOffset in Ret (checksum p s).
Definition field_value (f : pushEncoder) (startOffset curOffset : Z) (buf : bytes) : Go bytes :=
  match f with
  | lengthField => Ret (be_bytes 4 (curOffset - startOffset - 4))
  | crc32Field p => let* crc := field_crc p startOffset curOffset buf in Ret (be_bytes 4 crc)
  | varintLengthField r => Ret (varint_bytes (h !!! r))
  end.
Definition field_run (f : pushEncoder) (startOffset curOffset : Z) (buf : bytes) : Go bytes :=
  let* v := field_value f startOffset curOffset buf in store buf startOffset v.

(** [func (re realEncoder) push] and [pop] *)
Definition real_push (f : pushEncoder) (re : realEncoder) : Go realEncoder :=
  Ret (mk_real (raw re) (off re + reserveLength h f) ((f, off re) :: stack re)).
Definition real_pop (re : realEncoder) : Go realEncoder :=
  match stack re with
  | [] => Panic IndexOutOfRange
  | (f, start) :: st =>
      let* raw' := field_run f start (off re) (raw re) in Ret (mk_real raw' (off re) st)
  end.

(** The methods of [realEncoder]. *)
Definition real_put (c : put) (re : realEncoder) : Go realEncoder :=
  match c with
  | putInt8 n => real_putInt8 n re
  | putInt16 n => real_putInt16 n re
  | putInt32 n => real_putInt32 n re
  | putInt64 n => real_putInt64 n re
  | putVarint n => real_putVarint n re
  | putArrayLength n => real_putInt32 n re
  | putBool b => real_putInt8 (if b then 1 else 0) re
  | putRawBytes b => real_putRawBytes b re
  | putBytes None => real_putInt32 (-1) re
  | putBytes (Some b) => let* re := real_putInt32 (len b) re in real_putRawBytes b re
  | putVarintBytes None => real_putVarint (-1) re
  | putVarintBytes (Some b) => let* re := real_putVarint (len b) re in real_putRawBytes b re
  | putString s => real_putString s re
  | putNullableString None => real_putInt16 (-1) re
  | putNullableString (Some s) => real_putString s re
  | putStringArray ss => let* re := real_putInt32 (len ss) re in real_each real_putString ss re
  | putInt32Array ns => let* re := real_putInt32 (len ns) re in real_each real_putInt32 ns re
  | putInt64Array ns => let* re := real_putInt32 (len ns) re in real_each real_putInt64 ns re
  | push f => real_push f re
  | pop => real_pop re
  | report _ => Ret re
  end.

(** No method reports an error in this pass. *)
Fixpoint real_run (cs : list put) (re : realEncoder) : Go (realEncoder + packet_error) :=
  match cs with
  | [] => Ret (inl re)
  | report e :: _ => Ret (inr e)
  | c :: cs' => let* re := real_put c re in real_run cs' re
  end.

End Real.

(** [MaxRequestSize int32 = 100 * 1024 * 1024], a variable nothing assigns *)
Definition MaxRequestSize : Z := 100 * 1024 * 1024.

(** [func encode(e encoder, metricRegistry metrics.Registry) ([]byte, error)], for an encoder
    that is not nil; [h] is what the varint lengths of its records held before.  The encoder is
    called twice, and an encoder that ranges over a map may write its entries in another order
    the second time: [cs] are the calls of the counting pass and [cs'] those of the writing
    pass. *)
Definition encode_passes (checksum : crcPolynomial → bytes → Z) (h : fields) (cs cs' : list put) :
    Go (bytes + packet_error) :=
  let* prepEnc := prep_run cs (mk_prep [] 0 h) in
  match prepEnc with
  | inr e => Ret (inr e)
  | inl pe =>
      if (p_length pe <? 0) || (MaxRequestSize <? p_length pe) then Ret (inr InvalidRequestSize)
      else
        let* re := real_run checksum (p_fields pe) cs' (mk_real (replicate (Z.to_nat (p_length pe)) 0) 0 []) in
        Ret (match re with inl re => inl (raw re) | inr e => inr e end)
  end.
(** An encoder that makes the same calls both times *)
Definition encode (checksum : crcPolynomial → bytes → Z) (h : fields) (cs : list put) : Go (bytes + packet_error) :=
  encode_passes checksum h cs cs.
