(* ===== verification/KafkaProps.v ===== *)
(** * Properties of the two-pass encoder

    [render] is what a message denotes: its bytes with every length and checksum in place.
    The encoder, which counts first, writes into a fixed slice and patches reserved fields,
    computes it. *)

From S2P Require Import Prelude GoStrings KafkaCodec.

#[local] Arguments be_bytes : simpl never.
#[local] Arguments varint_bytes : simpl never.

(** ** Messages *)

(** A message: calls that write data, and fields over the calls between [push] and [pop]. *)
Inductive item := Data (c : put) | Field (f : pushEncoder) (body : list item).

Lemma item_ind' (P : item → Prop) :
  (∀ c, P (Data c)) → (∀ f body, Forall P body → P (Field f body)) → ∀ i, P i.
Proof.
  intros H1 H2. fix IH 1. intros [c|f body]; [apply H1|]. apply H2.
  induction body as [|i body IHb]; constructor; [apply IH|exact IHb].
Qed.

(** The calls a message makes. *)
Fixpoint calls (i : item) : list put :=
  match i with
  | Data c => [c]
  | Field f body => push f :: (body ≫= calls) ++ [pop]
  end.

Definition is_data (c : put) : bool := match c with push _ | pop => false | _ => true end.

(** What a call that writes data denotes. *)
Definition data_bytes (c : put) : bytes :=
  match c with
  | putInt8 n => [n mod 256]
  | putInt16 n => be_bytes 2 n
  | putInt32 n | putArrayLength n => be_bytes 4 n
  | putInt64 n => be_bytes 8 n
  | putVarint n => varint_bytes n
  | putBool b => [if b then 1 else 0]
  | putRawBytes b => b
  | putBytes None => be_bytes 4 (-1)
  | putBytes (Some b) => be_bytes 4 (len b) ++ b
  | putVarintBytes None => varint_bytes (-1)
  | putVarintBytes (Some b) => varint_bytes (len b) ++ b
  | putString s => be_bytes 2 (len s) ++ s
  | putNullableString None => be_bytes 2 (-1)
  | putNullableString (Some s) => be_bytes 2 (len s) ++ s
  | putStringArray ss => be_bytes 4 (len ss) ++ (ss ≫= fun s => be_bytes 2 (len s) ++ s)
  | putInt32Array ns => be_bytes 4 (len ns) ++ (ns ≫= be_bytes 4)
  | putInt64Array ns => be_bytes 4 (len ns) ++ (ns ≫= be_bytes 8)
  | push _ | pop | report _ => []
  end.

Lemma length_be_bytes w n : length (be_bytes w n) = w.
Proof. induction w as [|w IH]; [done|]. change (S (length (be_bytes w n)) = S w). by rewrite IH. Qed.

Lemma len_be_bytes w n : len (be_bytes w n) = Z.of_nat w.
Proof. unfold len. by rewrite length_be_bytes. Qed.

(** ** The counting pass *)

Lemma len_strings ss :
  len (ss ≫= fun s => be_bytes 2 (len s) ++ s) = foldr (fun s n => 2 + len s + n) 0 ss.
Proof.
  induction ss as [|s ss IH]; [done|].
  rewrite bind_cons, !len_app, IH, len_be_bytes. cbn [foldr]. lia.
Qed.

Lemma len_ints w (ns : list Z) : len (ns ≫= be_bytes w) = Z.of_nat w * len ns.
Proof.
  induction ns as [|n ns IH]; [unfold len; simpl; lia|].
  rewrite bind_cons, len_app, IH, len_be_bytes, len_cons. lia.
Qed.

(** The error a call that writes data reports, if any. *)
Definition data_error (c : put) : option packet_error :=
  match c with
  | putArrayLength n => if math_MaxInt32 <? n then Some ArrayTooLong else None
  | putRawBytes b | putBytes (Some b) | putVarintBytes (Some b) =>
      if math_MaxInt32 <? len b then Some ByteSliceTooLong else None
  | putString s | putNullableString (Some s) =>
      if math_MaxInt16 <? len s then Some StringTooLong else None
  | putStringArray ss =>
      if math_MaxInt32 <? len ss then Some ArrayTooLong
      else if existsb (fun s => math_MaxInt16 <? len s) ss then Some StringTooLong else None
  | putInt32Array ns | putInt64Array ns =>
      if math_MaxInt32 <? len ns then Some ArrayTooLong else None
  | report e => Some e
  | _ => None
  end.

(** The outcome of the counting pass on calls with error [e] that denote [bs]. *)
Definition counted (e : option packet_error) (bs : bytes) (pe : prepEncoder) : prepEncoder + packet_error :=
  match e with Some e => inr e | None => inl (p_add (len bs) pe) end.

Lemma p_add_0 pe : p_add 0 pe = pe.
Proof. destruct pe. unfold p_add. simpl. f_equal. lia. Qed.

Lemma p_add_add m n pe : p_add n (p_add m pe) = p_add (m + n) pe.
Proof. unfold p_add. simpl. f_equal. lia. Qed.

Lemma prep_strings_counted ss pe :
  prep_strings ss pe =
  counted (if existsb (fun s => math_MaxInt16 <? len s) ss then Some StringTooLong else None)
    (ss ≫= fun s => be_bytes 2 (len s) ++ s) pe.
Proof.
  revert pe. induction ss as [|s ss IH]; intros pe; cbn [prep_strings existsb].
  - simpl. by rewrite p_add_0.
  - unfold prep_putString. destruct (math_MaxInt16 <? len s); [done|]. cbn [ebind orb].
    rewrite IH. destruct (existsb _ ss); [done|]. cbn [counted].
    rewrite bind_cons, !len_app, len_be_bytes, !p_add_add. do 2 f_equal. lia.
Qed.

Lemma prep_data_counted c pe :
  is_data c = true → prep_data c pe = counted (data_error c) (data_bytes c) pe.
Proof.
  destruct c as [| | | |k|k| |b|[b|]|[b|]|s|[s|]|ss|ns|ns| | |e]; intros Hd; try discriminate;
    cbn [prep_data data_bytes data_error];
    unfold prep_putRawBytes, prep_putString, prep_putArrayLength;
    try (case_match; [done|]); cbn [ebind counted];
    rewrite ?prep_strings_counted, ?p_add_add, ?len_app, ?len_be_bytes, ?len_ints; try done.
  destruct (existsb _ ss); [done|]. cbn [counted]. rewrite p_add_add.
  by rewrite len_app, len_be_bytes.
Qed.

(** ** What a message denotes *)

(** Messages whose [Data] calls write data. *)
Fixpoint item_ok (i : item) : bool :=
  match i with Data c => is_data c | Field _ body => forallb item_ok body end.

Fixpoint item_error (i : item) : option packet_error :=
  match i with
  | Data c => data_error c
  | Field _ body => (fix go l := match l with
                                 | [] => None
                                 | j :: l' => match item_error j with Some e => Some e | None => go l' end
                                 end) body
  end.
(** The first error of a sequence of messages. *)
Fixpoint items_error (l : list item) : option packet_error :=
  match l with
  | [] => None
  | j :: l' => match item_error j with Some e => Some e | None => items_error l' end
  end.

Lemma item_error_Field f body : item_error (Field f body) = items_error body.
Proof. induction body as [|j l IH]; [done|]. simpl in *. by rewrite IH. Qed.

(** The records whose varint lengths a message has. *)
Fixpoint refs (i : item) : list nat :=
  match i with
  | Data _ => []
  | Field f body => (match f with varintLengthField r => [r] | _ => [] end) ++ (body ≫= refs)
  end.
(** A message the code can make: data between [push] and [pop], each record once. *)
Definition message_ok (l : list item) : bool := forallb item_ok l && bool_decide (NoDup (l ≫= refs)).

Section Messages.
Context (checksum : crcPolynomial → bytes → Z).

(** A length counts the bytes of its body, a checksum digests them. *)
Definition field_of (f : pushEncoder) (body : bytes) : bytes :=
  match f with
  | lengthField => be_bytes 4 (len body)
  | crc32Field p => be_bytes 4 (checksum p body)
  | varintLengthField _ => varint_bytes (len body)
  end.

Fixpoint render (i : item) : bytes :=
  match i with
  | Data c => data_bytes c
  | Field f body => field_of f (body ≫= render) ++ (body ≫= render)
  end.

(** The lengths the counting pass leaves. *)
Fixpoint measure (i : item) (h : fields) : fields :=
  match i with
  | Data _ => h
  | Field f body =>
      let h := foldl (fun h j => measure j h) h body in
      match f with varintLengthField r => <[r := len (body ≫= render)]> h | _ => h end
  end.
Abbreviation measures l h0 := (foldl (fun h j => measure j h) h0 l).

Lemma measure_other i h r : (r ∉ refs i) → measure i h !! r = h !! r.
Proof.
  revert h. induction i as [c|f body IH] using item_ind'; intros h Hr; [done|]. cbn [refs measure] in *.
  apply not_elem_of_app in Hr as [Hf Hb].
  assert (measures body h !! r = h !! r) as E.
  { clear Hf. revert h. induction IH as [|j l Hj _ IH]; intros h; [done|]. csimpl. rewrite bind_cons in Hb.
    apply not_elem_of_app in Hb as [??]. by rewrite IH, Hj. }
  destruct f as [|p|r']; [done|done|]. cbv zeta iota. rewrite lookup_insert_ne by set_solver. done.
Qed.
Lemma measures_other l h r : (r ∉ l ≫= refs) → measures l h !! r = h !! r.
Proof.
  revert h. induction l as [|i l IH]; intros h Hr; [done|]. rewrite bind_cons in Hr. apply not_elem_of_app in Hr as [??].
  cbn [foldl]. by rewrite IH, measure_other.
Qed.

Lemma prep_run_app cs1 cs2 pe :
  prep_run (cs1 ++ cs2) pe =
  let* r := prep_run cs1 pe in
  match r with inl pe' => prep_run cs2 pe' | inr e => Ret (inr e) end.
Proof.
  revert pe. induction cs1 as [|c cs IH]; intros pe; [done|]. cbn [prep_run app].
  destruct (prep_put c pe) as [[pe'|e]|]; cbn [gbind]; [apply IH|done|done].
Qed.

(** The outcome of the counting pass on a message. *)
Definition counted_items (l : list item) (pe : prepEncoder) : prepEncoder + packet_error :=
  match items_error l with
  | Some e => inr e
  | None => inl (mk_prep (p_stack pe) (p_length pe + len (l ≫= render)) (measures l (p_fields pe)))
  end.

(** The messages on which the counting pass is right. *)
Definition counts (i : item) : Prop :=
  item_ok i = true → NoDup (refs i) → ∀ pe, prep_run (calls i) pe = Ret (counted_items [i] pe).

Lemma prep_run_items l :
  Forall counts l → forallb item_ok l = true → NoDup (l ≫= refs) →
  ∀ pe, prep_run (l ≫= calls) pe = Ret (counted_items l pe).
Proof.
  induction 1 as [|i l Hi Hl IH]; intros Hok Hnd pe.
  - unfold counted_items. simpl. destruct pe. simpl. by rewrite Z.add_0_r.
  - cbn [forallb] in Hok. apply andb_true_iff in Hok as [Hoki Hokl]. rewrite bind_cons in Hnd.
    apply NoDup_app in Hnd as (Hn1 & _ & Hn2).
    rewrite bind_cons, prep_run_app, Hi by done. unfold counted_items. cbn [items_error].
    destruct (item_error i); [done|]. cbn [gbind]. rewrite IH by done. unfold counted_items.
    destruct (items_error l); [done|]. cbn [p_stack p_length p_fields foldl]. rewrite !bind_cons, app_nil_r, len_app.
    do 3 f_equal. lia.
Qed.

Lemma prep_run_item i : counts i.
Proof.
  induction i as [c|f body IH] using item_ind'; intros Hok Hnd pe.
  - assert (prep_put c pe = Ret (prep_data c pe)) as Hp by (by destruct c).
    cbn [calls prep_run]. rewrite Hp, prep_data_counted by done. unfold counted_items. cbn [gbind items_error item_error].
    destruct (data_error c); [done|]. cbn [gbind counted]. by rewrite bind_cons, app_nil_r.
  - cbn [refs] in Hnd. apply NoDup_app in Hnd as (_ & Hr & Hnd).
    cbn [calls prep_run prep_put gbind]. rewrite prep_run_app, prep_run_items by done.
    unfold counted_items. cbn [items_error]. rewrite item_error_Field. destruct (items_error body); [done|].
    cbn [gbind prep_run prep_put p_stack p_length p_fields]. rewrite bind_cons, app_nil_r. cbn [foldl measure render].
    rewrite len_app.
    destruct f as [|p|r]; cbn [field_of reserveLength gbind]; rewrite ?len_be_bytes; [do 3 f_equal; lia..|].
    assert (measures body (p_fields pe) !! r = p_fields pe !! r) as E by (apply measures_other, Hr; set_solver).
    unfold adjustLength, reserveLength. rewrite !lookup_total_alt, E, lookup_insert_eq. cbn [default from_option].
    replace (_ - p_length pe - _) with (len (body ≫= render)) by (unfold id; lia).
    cbn [gbind]. do 3 f_equal. unfold id. lia.
Qed.

(** ** The writing pass *)

(** [f] writes [bs] at the offset, into the room that is left, and moves past it. *)
Definition writes (f : realEncoder → Go realEncoder) (bs : bytes) : Prop :=
  ∀ pre hole st, len bs ≤ len hole →
  f (mk_real (pre ++ hole) (len pre) st)
  = Ret (mk_real ((pre ++ bs) ++ drop (length bs) hole) (len (pre ++ bs)) st).

Lemma writes_ret : writes Ret [].
Proof. intros pre hole st _. by rewrite app_nil_r. Qed.

Lemma writes_bind f g a b :
  writes f a → writes g b → writes (fun re => let* re := f re in g re) (a ++ b).
Proof.
  intros Hf Hg pre hole st Hlen. rewrite len_app in Hlen. pose proof (len_nonneg b).
  cbv beta. rewrite Hf by lia. cbn [gbind].
  rewrite Hg by (unfold len in *; rewrite length_drop; lia).
  rewrite drop_drop, length_app. by rewrite <- (assoc_L (++) pre a b).
Qed.

Lemma store_at pre hole bs :
  len bs ≤ len hole →
  store (pre ++ hole) (len pre) bs = Ret ((pre ++ bs) ++ drop (length bs) hole).
Proof.
  intros Hlen. pose proof (len_nonneg pre). unfold store. rewrite len_app.
  rewrite (proj2 (Z.leb_le 0 (len pre))), (proj2 (Z.leb_le (len pre + len bs) _)) by lia. cbn [andb].
  rewrite len_to_nat, take_app_length, <- len_app, len_to_nat, length_app.
  rewrite drop_app_add, <- (assoc_L (++)). done.
Qed.

Lemma writes_store bs : writes (real_store bs) bs.
Proof.
  intros pre hole st Hlen. unfold real_store. cbn [raw off stack].
  rewrite store_at by done. cbn [gbind]. by rewrite len_app.
Qed.

Lemma writes_raw bs : writes (real_putRawBytes bs) bs.
Proof.
  intros pre hole st Hlen. unfold real_putRawBytes, copy_at, go_copy. cbn [raw off stack].
  pose proof (len_nonneg pre). pose proof (len_nonneg hole). rewrite len_app.
  rewrite (proj2 (Z.leb_le 0 (len pre))), (proj2 (Z.leb_le (len pre) _)), (proj2 (Z.leb_le _ _)) by lia.
  cbn [andb gbind]. rewrite Z.min_r, !len_to_nat, take_app_length, drop_app_add, firstn_all by lia.
  by rewrite len_app, <- (assoc_L (++)).
Qed.

Lemma writes_int8 n : writes (real_putInt8 n) [n mod 256].
Proof.
  intros pre hole st Hlen. destruct hole as [|h hole]; [unfold len in Hlen; simpl in Hlen; lia|].
  unfold real_putInt8, go_set. cbn [raw off stack].
  pose proof (len_nonneg pre). pose proof (len_nonneg hole). rewrite len_app, len_cons.
  rewrite (proj2 (Z.leb_le 0 (len pre))), (proj2 (Z.ltb_lt (len pre) _)) by lia.
  cbn [andb gbind]. rewrite len_to_nat.
  rewrite <- (Nat.add_0_r (length pre)), insert_app_r. simpl.
  rewrite len_app, <- (assoc_L (++)). unfold len. done.
Qed.

Lemma writes_each {A} (f : A → realEncoder → Go realEncoder) (g : A → bytes) l :
  (∀ x, writes (f x) (g x)) → writes (real_each f l) (l ≫= g).
Proof.
  intros Hf. induction l as [|x l IH]; [apply writes_ret|]. rewrite bind_cons.
  change (writes (fun re => let* re := f x re in real_each f l re) (g x ++ (l ≫= g))).
  by apply writes_bind.
Qed.

Lemma writes_string s : writes (real_putString s) (be_bytes 2 (len s) ++ s).
Proof. apply (writes_bind _ _ _ _ (writes_store _) (writes_raw s)). Qed.

(** The second pass is run with the lengths [h]. *)
Section Writing.
Context (h : fields).

Lemma writes_data c :
  is_data c = true → data_error c = None → writes (real_put checksum h c) (data_bytes c).
Proof.
  destruct c as [| | | |k|k|[]|b|[b|]|[b|]|s|[s|]|ss|ns|ns| | |e]; intros Hd He; try discriminate;
    cbn [real_put data_bytes];
    first [apply writes_store | apply writes_raw | apply writes_string | apply writes_int8
          | apply (writes_int8 1) | apply (writes_int8 0)
          | apply (writes_bind _ _ _ _ (writes_store _)), writes_raw
          | apply (writes_bind _ _ _ _ (writes_store _)), writes_each; intros; idtac].
  all: first [apply writes_string | apply writes_store].
Qed.

(** ** Fields *)

Lemma split_hole n (hole : bytes) :
  (n ≤ length hole)%nat → ∃ h rest, hole = h ++ rest ∧ length h = n ∧ rest = drop n hole.
Proof.
  intros Hn. exists (take n hole), (drop n hole). rewrite take_drop, length_take. split_and!; [done|lia|done].
Qed.

Lemma real_run_app cs1 cs2 re :
  real_run checksum h (cs1 ++ cs2) re =
  let* r := real_run checksum h cs1 re in
  match r with inl re => real_run checksum h cs2 re | inr e => Ret (inr e) end.
Proof.
  revert re. induction cs1 as [|c cs IH]; intros re; [done|]. cbn [app].
  destruct c; cbn [real_run]; try done;
    match goal with |- gbind ?m _ = _ => destruct m; cbn [gbind]; [apply IH|done] end.
Qed.

(** The calls [cs] write [bs]. *)
Definition run_writes (cs : list put) (bs : bytes) : Prop :=
  ∀ pre hole st, len bs ≤ len hole →
  real_run checksum h cs (mk_real (pre ++ hole) (len pre) st)
  = Ret (inl (mk_real ((pre ++ bs) ++ drop (length bs) hole) (len (pre ++ bs)) st)).

Lemma run_writes_nil : run_writes [] [].
Proof. intros pre hole st _. simpl. by rewrite app_nil_r. Qed.
Lemma run_writes_app cs1 cs2 a b : run_writes cs1 a → run_writes cs2 b → run_writes (cs1 ++ cs2) (a ++ b).
Proof.
  intros Hf Hg pre hole st Hlen. rewrite len_app in Hlen. pose proof (len_nonneg b).
  rewrite real_run_app, Hf by lia. cbn [gbind].
  rewrite Hg by (unfold len in *; rewrite length_drop; lia).
  rewrite drop_drop, length_app. by rewrite <- (assoc_L (++) pre a b).
Qed.

(** The lengths [h] are those of the message. *)
Fixpoint sized (i : item) : bool :=
  match i with
  | Data _ => true
  | Field f body =>
      match f with varintLengthField r => h !!! r =? len (body ≫= render) | _ => true end && forallb sized body
  end.

(** The value of a field whose body has been written after it. *)
Lemma field_value_body f pre hd body rest :
  length hd = length (field_of f body) →
  (∀ r, f = varintLengthField r → h !!! r = len body) →
  field_value checksum h f (len pre) (len ((pre ++ hd) ++ body)) (((pre ++ hd) ++ body) ++ rest)
  = Ret (field_of f body).
Proof.
  intros Hh Hv. pose proof (len_nonneg pre). pose proof (len_nonneg body). pose proof (len_nonneg rest).
  destruct f as [|p|r]; cbn [field_value field_of] in *; rewrite ?length_be_bytes in Hh.
  - assert (len hd = 4) as Hl by (unfold len; lia). rewrite !len_app. do 2 f_equal. lia.
  - assert (len hd = 4) as Hl by (unfold len; lia). unfold field_crc. rewrite <- (assoc_L (++) (pre ++ hd)).
    replace (len pre + 4) with (len (pre ++ hd)) by (rewrite len_app; lia). rewrite (len_app (pre ++ hd)).
    rewrite go_slice_mid. done.
  - by rewrite (Hv r).
Qed.
Lemma len_field f body :
  (∀ r, f = varintLengthField r → h !!! r = len body) → reserveLength h f = len (field_of f body).
Proof.
  destruct f as [|p|r]; intros Hv; cbn [reserveLength field_of]; rewrite ?len_be_bytes; [done..|]. by rewrite (Hv r).
Qed.

Definition renders (i : item) : Prop :=
  item_ok i = true → item_error i = None → sized i = true → run_writes (calls i) (render i).

Lemma writes_items l :
  Forall renders l → forallb item_ok l = true → items_error l = None → forallb sized l = true →
  run_writes (l ≫= calls) (l ≫= render).
Proof.
  induction 1 as [|i l Hi Hl IH]; intros Hok He Hs; [apply run_writes_nil|].
  cbn [forallb items_error] in *. apply andb_true_iff in Hok as [? ?], Hs as [? ?].
  destruct (item_error i) eqn:?; [done|]. rewrite !bind_cons. apply run_writes_app; auto.
Qed.

Lemma writes_field f body :
  (∀ r, f = varintLengthField r → h !!! r = len (body ≫= render)) →
  run_writes (body ≫= calls) (body ≫= render) → run_writes (calls (Field f body)) (render (Field f body)).
Proof.
  intros Hv Hb pre hole st Hlen. cbn [render calls] in *. set (bs := body ≫= render) in *.
  set (v := field_of f bs) in *. rewrite len_app in Hlen. pose proof (len_nonneg bs).
  destruct (split_hole (length v) hole) as (hd & rest & -> & Hh & _); [unfold len in *; lia|].
  cbn [real_run real_put real_push gbind raw off stack]. rewrite real_run_app.
  rewrite (len_field f bs Hv). fold v. rewrite (assoc_L (++)).
  replace (len pre + len v) with (len (pre ++ hd)) by (rewrite len_app; unfold len; lia).
  rewrite len_app in Hlen. rewrite Hb by (unfold len in *; lia).
  cbn [gbind real_run real_put]. unfold real_pop, field_run. cbn [stack off raw].
  rewrite field_value_body by done. cbn [gbind]. fold v.
  rewrite <- !(assoc_L (++) pre), <- !(assoc_L (++) hd).
  rewrite store_at by (rewrite !len_app; pose proof (len_nonneg (drop (length bs) rest)); unfold len in *; lia).
  cbn [gbind]. rewrite <- Hh, drop_app_length.
  rewrite length_app, <- Hh, drop_app_add. do 3 f_equal.
  - by rewrite <- !(assoc_L (++)).
  - rewrite !len_app. unfold len. lia.
Qed.

Lemma writes_item i : renders i.
Proof.
  induction i as [c|f body IH] using item_ind'; intros Hok He Hs.
  - intros pre hole st Hlen. cbn [calls item_error render] in *. pose proof (writes_data c Hok He pre hole st Hlen) as Hw.
    destruct c; try discriminate; cbn [real_run]; by rewrite Hw.
  - rewrite item_error_Field in He. cbn [sized] in Hs. apply andb_true_iff in Hs as [Hs Hb].
    apply writes_field; [intros r ->; by apply Z.eqb_eq|]. by apply writes_items.
Qed.
End Writing.

(** The counting pass leaves the lengths the writing pass needs. *)
Lemma sized_ext h h' i : (∀ r, r ∈ refs i → h !! r = h' !! r) → sized h i = sized h' i.
Proof.
  induction i as [c|f body IH] using item_ind'; intros Hr; [done|]. cbn [sized refs] in *.
  assert (forallb (sized h) body = forallb (sized h') body) as ->.
  { assert (∀ r, r ∈ body ≫= refs → h !! r = h' !! r) as Hb by (intros r Hin; apply Hr, elem_of_app; by right). clear Hr.
    induction IH as [|j l Hj _ IH]; [done|]. cbn [forallb]. rewrite bind_cons in Hb.
    rewrite Hj, IH; [done|intros r Hin; apply Hb, elem_of_app; auto..]. }
  destruct f as [|p|r]; [done..|]. by rewrite !lookup_total_alt, Hr by set_solver.
Qed.

Lemma sized_measures l :
  Forall (fun i => ∀ h, NoDup (refs i) → sized (measure i h) i = true) l →
  ∀ h, NoDup (l ≫= refs) → forallb (sized (measures l h)) l = true.
Proof.
  induction 1 as [|i l Hi Hl IH]; intros h Hnd; [done|]. rewrite bind_cons in Hnd.
  apply NoDup_app in Hnd as (Hn1 & Hd & Hn2). cbn [foldl forallb]. rewrite IH by done.
  rewrite (sized_ext _ (measure i h)); [by rewrite Hi|]. intros r Hr. by apply measures_other, Hd.
Qed.
Lemma sized_measure i h : NoDup (refs i) → sized (measure i h) i = true.
Proof.
  revert h. induction i as [c|f body IH] using item_ind'; intros h Hnd; [done|]. cbn [refs] in Hnd.
  apply NoDup_app in Hnd as (_ & Hr & Hnd). pose proof (sized_measures body IH h Hnd) as Hb. cbn [sized measure].
  destruct f as [|p|r]; [by rewrite Hb..|]. rewrite lookup_total_insert_eq, Z.eqb_refl. cbn [andb].
  apply forallb_forall. intros j Hj. rewrite forallb_forall in Hb. rewrite <- (Hb j Hj).
  apply list_elem_of_In in Hj. apply sized_ext. intros r' Hr'.
  apply lookup_insert_ne. intros ->. apply (Hr r'); [set_solver|]. apply list_elem_of_bind. by exists j.
Qed.

(** The writing pass fills the buffer the counting pass has measured. *)
Lemma encode_passes_shape h l l' :
  message_ok l = true → forallb item_ok l' = true → (items_error l = None → items_error l' = None) →
  len (l ≫= render) = len (l' ≫= render) → forallb (sized (measures l h)) l' = true →
  encode_passes checksum h (l ≫= calls) (l' ≫= calls) =
  Ret (match items_error l with
       | Some e => inr e
       | None => if MaxRequestSize <? len (l' ≫= render) then inr InvalidRequestSize
                 else inl (l' ≫= render)
       end).
Proof.
  intros Hm Hok' He' Hlen Hs. apply andb_true_iff in Hm as [Hok Hnd]. apply bool_decide_eq_true in Hnd. unfold encode_passes.
  rewrite prep_run_items by (try apply Forall_forall; auto using prep_run_item).
  unfold counted_items. cbn [gbind]. destruct (items_error l) as [e|]; [done|]. cbn [p_length p_stack p_fields].
  rewrite Z.add_0_l, Hlen. set (bs := l' ≫= render). pose proof (len_nonneg bs).
  rewrite (proj2 (Z.ltb_ge (len bs) 0)) by lia. cbn [orb].
  destruct (MaxRequestSize <? len bs); [done|].
  assert (run_writes (measures l h) (l' ≫= calls) bs) as Hw.
  { apply writes_items; [apply Forall_forall; auto using writes_item|by auto..]. }
  rewrite len_to_nat. specialize (Hw [] (replicate (length bs) 0) []). cbn [app] in Hw.
  change (len (@nil Z)) with 0 in Hw.
  rewrite Hw by (unfold len; rewrite length_replicate; lia). cbn [gbind raw].
  by rewrite drop_ge, app_nil_r by (rewrite length_replicate; lia).
Qed.
Lemma encode_shape h l :
  message_ok l = true →
  encode checksum h (l ≫= calls) =
  Ret (match items_error l with
       | Some e => inr e
       | None => if MaxRequestSize <? len (l ≫= render) then inr InvalidRequestSize
                 else inl (l ≫= render)
       end).
Proof.
  intros Hm. pose proof Hm as [Hok Hnd]%andb_true_iff. apply bool_decide_eq_true in Hnd.
  apply encode_passes_shape; auto. apply sized_measures; [apply Forall_forall; auto using sized_measure|done].
Qed.

(** C31: The two-pass encoder never panics on a message with balanced fields: it reports the
    first call whose argument is too long, or that the message is over MaxRequestSize, or
    returns the bytes the message denotes with every reserved length and checksum in place. *)
Theorem encode_renders h l :
  message_ok l = true →
  encode checksum h (l ≫= calls) =
  Ret (match items_error l with
       | Some e => inr e
       | None => if MaxRequestSize <? len (l ≫= render) then inr InvalidRequestSize
                 else inl (l ≫= render)
       end).
Proof. apply encode_shape. Qed.
End Messages.

(** A length field around a string, an int32 array and a checksummed body with a record whose
    length field holds an old length. *)
Definition sample_message : list item :=
  [Field lengthField [Data (putInt16 3); Data (putString (B "ab"));
     Field (crc32Field crcIEEE) [Data (putInt8 (-1)); Field (varintLengthField 7) [Data (putVarint (-3))]]]].

Lemma encode_renders_witness :
  encode (fun _ b => len b) {[7%nat := 1000]} (sample_message ≫= calls)
  = Ret (inl [0; 0; 0; 13; 0; 3; 0; 2; 97; 98; 0; 0; 0; 3; 255; 2; 5]).
Proof. rewrite (encode_renders (fun _ b => len b) _ sample_message); reflexivity. Defined.
