(* ===== verification/KafkaDecoder.v ===== *)
(** * [kafka/real_decoder.go], with [decode] of [kafka/encoder_decoder.go] and the decoding
    side of [kafka/length_field.go] and [kafka/crc32_field.go]

    The decoder reads a fixed slice from an offset; when the data run out the offset is moved
    to the end, so the decoder's state after an error is part of the result. *)

From S2P Require Import Prelude GoStrings KafkaCodec.

Inductive decode_error :=
| ErrInsufficientData | errInvalidArrayLength | errInvalidByteSliceLength
| errInvalidStringLength | errVarintOverflow | errInvalidBool
| LengthFieldInvalid | CRCMismatch | InvalidLength
| DecompressionFailed | InvalidCompression (codec : Z) | UnknownMagic (version : Z)
| AddressInvalid | UnknownKey (key : Z) | SizeRejected (length : Z)
| RecordsInvalid (e : packet_error) | ControlBatchEmpty.

(** A pushed field: the offset [saveOffset] kept, and the length [decode] of a length field
    read. *)
Record pushDecoder := mk_push { pd_field : pushEncoder; startOffset : Z; pd_length : Z }.

(** [type realDecoder struct] *)
Record realDecoder := mk_rd { rd_raw : bytes; rd_off : Z; rd_stack : list pushDecoder }.

Definition moved (rd : realDecoder) (o : Z) : realDecoder := mk_rd (rd_raw rd) o (rd_stack rd).
Definition at_end (rd : realDecoder) : realDecoder := moved rd (len (rd_raw rd)).

(** A method: a value or an error, and the decoder after it. *)
Definition rd_get (A : Type) : Type := realDecoder → Go ((A + decode_error) * realDecoder).
Definition rd_ret {A} (a : A) : rd_get A := fun rd => Ret (inl a, rd).
Definition rd_fail {A} (e : decode_error) : rd_get A := fun rd => Ret (inr e, rd).
Definition rd_bind {A C} (m : rd_get A) (k : A → rd_get C) : rd_get C := fun rd =>
  let* r := m rd in
  match r with
  | (inl a, rd') => k a rd'
  | (inr e, rd') => Ret (inr e, rd')
  end.
Notation "'get*' x ':=' m 'in' k" := (rd_bind m (fun x => k))
  (at level 10, x pattern, m at level 200, k at level 200) : go_scope.
(** [rd.off = len(rd.raw); return ErrInsufficientData] *)
Definition insufficient {A} : rd_get A := fun rd => Ret (inr ErrInsufficientData, at_end rd).

(** [func (rd realDecoder) remaining() int] *)
Definition remaining (rd : realDecoder) : Z := len (rd_raw rd) - rd_off rd.

(** [binary.BigEndian.Uint16(b)] and its siblings *)
Definition be_uint (b : bytes) : Z := fold_left (fun acc x => acc * 256 + x) b 0.

(** ** Primitives *)

(** [getInt8], [getInt16], [getInt32], [getInt64]: [w] bytes, the sign restored. *)
Definition get_uint (w : nat) : rd_get Z := fun rd =>
  if remaining rd <? Z.of_nat w then insufficient rd
  else
    let* b := go_slice (rd_raw rd) (rd_off rd) (rd_off rd + Z.of_nat w) in
    Ret (inl (be_uint b), moved rd (rd_off rd + Z.of_nat w)).
Definition get_int (w : nat) : rd_get Z :=
  rd_bind (get_uint w) (fun u => rd_ret (swrap (8 * Z.of_nat w) u)).
Definition getInt8 : rd_get Z := get_int 1.
Definition getInt16 : rd_get Z := get_int 2.
Definition getInt32 : rd_get Z := get_int 4.
Definition getInt64 : rd_get Z := get_int 8.

(** [binary.Uvarint]: the value and the bytes read; 0 when the buffer is too short, negative
    on overflow of 64 bits *)
Fixpoint Uvarint_from (buf : bytes) (i : Z) (x s : Z) : Z * Z :=
  match buf with
  | [] => (0, 0)
  | b :: buf' =>
      if i =? 10 then (0, - (i + 1))
      else if b <? 128 then
        if (i =? 9) && (1 <? b) then (0, - (i + 1))
        else (Z.lor x (uwrap 64 (Z.shiftl b s)), i + 1)
      else Uvarint_from buf' (i + 1) (Z.lor x (uwrap 64 (Z.shiftl (Z.land b 127) s))) (s + 7)
  end.
Definition Uvarint (buf : bytes) : Z * Z := Uvarint_from buf 0 0 0.
(** [binary.Varint]: [int64(ux >> 1)], complemented when the low bit is set *)
Definition Varint (buf : bytes) : Z * Z :=
  let (ux, n) := Uvarint buf in
  let x := Z.shiftr ux 1 in
  (if Z.odd ux then Z.lnot x else x, n).

Definition getVarint : rd_get Z := fun rd =>
  let* s := go_slice (rd_raw rd) (rd_off rd) (len (rd_raw rd)) in
  let (tmp, n) := Varint s in
  if n =? 0 then insufficient rd
  else if n <? 0 then Ret (inr errVarintOverflow, moved rd (rd_off rd - n))
  else Ret (inl tmp, moved rd (rd_off rd + n)).

Definition math_MaxUint16 : Z := 2 ^ 16 - 1.
Definition getArrayLength : rd_get Z :=
  rd_bind (get_int 4) (fun tmp rd =>
    if remaining rd <? tmp then insufficient rd
    else if 2 * math_MaxUint16 <? tmp then Ret (inr errInvalidArrayLength, rd)
    else Ret (inl tmp, rd)).

Definition getBool : rd_get bool :=
  rd_bind getInt8 (fun b =>
    if b =? 0 then rd_ret false else if b =? 1 then rd_ret true else rd_fail errInvalidBool).

(** ** Collections *)

Definition getRawBytes (length : Z) : rd_get bytes := fun rd =>
  if length <? 0 then Ret (inr errInvalidByteSliceLength, rd)
  else if remaining rd <? length then insufficient rd
  else
    let* b := go_slice (rd_raw rd) (rd_off rd) (rd_off rd + length) in
    Ret (inl b, moved rd (rd_off rd + length)).

Definition getBytes : rd_get (option bytes) :=
  rd_bind getInt32 (fun tmp =>
    if tmp =? -1 then rd_ret None else rd_bind (getRawBytes tmp) (fun b => rd_ret (Some b))).
Definition getVarintBytes : rd_get (option bytes) :=
  rd_bind getVarint (fun tmp =>
    if tmp =? -1 then rd_ret None else rd_bind (getRawBytes tmp) (fun b => rd_ret (Some b))).

Definition getStringLength : rd_get Z :=
  rd_bind getInt16 (fun n rd =>
    if n <? -1 then Ret (inr errInvalidStringLength, rd)
    else if remaining rd <? n then insufficient rd
    else Ret (inl n, rd)).

(** The bytes of a string whose length has been checked: [string(rd.raw[rd.off : rd.off+n])] *)
Definition take_string (n : Z) : rd_get bytes := fun rd =>
  let* s := go_slice (rd_raw rd) (rd_off rd) (rd_off rd + n) in
  Ret (inl s, moved rd (rd_off rd + n)).
Definition getString : rd_get bytes :=
  rd_bind getStringLength (fun n => if n =? -1 then rd_ret [] else take_string n).
Definition getNullableString : rd_get (option bytes) :=
  rd_bind getStringLength (fun n =>
    if n =? -1 then rd_ret None else rd_bind (take_string n) (fun s => rd_ret (Some s))).

(** [n] reads in a row *)
Fixpoint get_times {A} (n : nat) (m : rd_get A) : rd_get (list A) :=
  match n with
  | O => rd_ret []
  | S k => rd_bind m (fun a => rd_bind (get_times k m) (fun l => rd_ret (a :: l)))
  end.

(** [getInt32Array] and [getInt64Array]: [n] is [int(uint32)], the room is checked before the
    slice is made.  The test [n < 0] never succeeds: [n] is unsigned. *)
Definition get_int_array (w : nat) : rd_get (list Z) :=
  rd_bind (get_uint 4) (fun n rd =>
    if remaining rd <? Z.of_nat w * n then insufficient rd
    else if n =? 0 then Ret (inl [], rd)
    else if n <? 0 then Ret (inr errInvalidArrayLength, rd)
    else get_times (Z.to_nat n) (get_int w) rd).
Definition getInt32Array : rd_get (list Z) := get_int_array 4.
Definition getInt64Array : rd_get (list Z) := get_int_array 8.

(** [make([]T, n)] for elements of [size] bytes *)
Definition rd_make (size n : Z) : rd_get unit := fun rd => let* _ := go_make size n in Ret (inl tt, rd).
Definition getStringArray : rd_get (list bytes) :=
  rd_bind (get_uint 4) (fun n =>
    if n =? 0 then rd_ret []
    else if n <? 0 then rd_fail errInvalidArrayLength
    else rd_bind (rd_make 16 n) (fun _ => get_times (Z.to_nat n) getString)).

(** ** Subsets *)

Definition getSubset (length : Z) : rd_get realDecoder :=
  rd_bind (getRawBytes length) (fun buf => rd_ret (mk_rd buf 0 [])).
Definition peek (offset length : Z) : rd_get realDecoder := fun rd =>
  if remaining rd <? offset + length then Ret (inr ErrInsufficientData, rd)
  else
    let off := rd_off rd + offset in
    let* b := go_slice (rd_raw rd) off (off + length) in
    Ret (inl (mk_rd b 0 []), rd).
Definition peekInt8 (offset : Z) : rd_get Z := fun rd =>
  if remaining rd <? offset + 1 then Ret (inr ErrInsufficientData, rd)
  else let* b := go_index (rd_raw rd) (rd_off rd + offset) in Ret (inl (swrap 8 b), rd).

(** ** Fields *)

(** [push]: a length field reads itself (the 4-byte one checks that there is as much data), a
    checksum reserves four bytes. *)
Definition rd_push (f : pushEncoder) : rd_get unit := fun rd =>
  let start := rd_off rd in
  match f with
  | lengthField =>
      rd_bind getInt32 (fun l rd' =>
        if swrap 32 (remaining rd') <? l then Ret (inr ErrInsufficientData, rd')
        else Ret (inl tt, mk_rd (rd_raw rd') (rd_off rd') (mk_push f start l :: rd_stack rd'))) rd
  | varintLengthField _ =>
      rd_bind getVarint (fun l rd' =>
        Ret (inl tt, mk_rd (rd_raw rd') (rd_off rd') (mk_push f start l :: rd_stack rd'))) rd
  | crc32Field _ =>
      if remaining rd <? 4 then insufficient rd
      else Ret (inl tt, mk_rd (rd_raw rd) (rd_off rd + 4) (mk_push f start 0 :: rd_stack rd))
  end.

Section Check.
(** [crc32.Checksum] *)
Context (checksum : crcPolynomial → bytes → Z).

(** [check] of the fields *)
Definition field_check (p : pushDecoder) (curOffset : Z) (buf : bytes) : Go (option decode_error) :=
  match pd_field p with
  | lengthField =>
      Ret (if swrap 32 (curOffset - startOffset p - 4) =? pd_length p then None else Some LengthFieldInvalid)
  | crc32Field poly =>
      let* crc := field_crc checksum poly (startOffset p) curOffset buf in
      let* b := go_slice buf (startOffset p) (startOffset p + 4) in
      Ret (if crc =? be_uint b then None else Some CRCMismatch)
  | varintLengthField _ =>
      Ret (if curOffset - startOffset p - len (varint_bytes (pd_length p)) =? pd_length p then None
           else Some LengthFieldInvalid)
  end.

(** [pop] *)
Definition rd_pop : rd_get unit := fun rd =>
  match rd_stack rd with
  | [] => Panic IndexOutOfRange
  | p :: st =>
      let* e := field_check p (rd_off rd) (rd_raw rd) in
      let rd' := mk_rd (rd_raw rd) (rd_off rd) st in
      Ret (match e with None => inl tt | Some e => inr e end, rd')
  end.

(** A field around what [m] reads: [push], [m], [pop] *)
Definition in_field {A} (f : pushEncoder) (m : rd_get A) : rd_get A :=
  get* _ := rd_push f in get* v := m in get* _ := rd_pop in rd_ret v.

End Check.

(** [func decode(buf []byte, in decoder) error], on a decoder that returns what it filled *)
Definition decode {A} (m : rd_get A) (buf : bytes) : Go (A + decode_error) :=
  let* r := m (mk_rd buf 0 []) in
  match r with
  | (inr e, _) => Ret (inr e)
  | (inl a, helper) => Ret (if rd_off helper =? len buf then inl a else inr InvalidLength)
  end.
