(* ===== verification/KafkaDecoderProps.v ===== *)
(** * The Kafka decoder reads back what the encoder wrote

    [reads r m bs v]: with [r] bytes behind them the method [m] reads the bytes [bs] as [v] and
    stops behind them.  Every method of the decoder reads what the method of the encoder of its
    name writes, and a field with a length or a checksum is read back with its check. *)

From S2P Require Import Prelude GoStrings KafkaCodec KafkaProps KafkaDecoder.

#[local] Arguments be_bytes : simpl never.
#[local] Arguments varint_bytes : simpl never.

(** ** Reading what was written *)

Definition reads {A} (r : Z) (m : rd_get A) (bs : bytes) (v : A) : Prop :=
  ∀ pre post st, len post = r →
  m (mk_rd (pre ++ bs ++ post) (len pre) st)
  = Ret (inl v, mk_rd (pre ++ bs ++ post) (len pre + len bs) st).

Lemma reads_ret {A} r (v : A) : reads r (rd_ret v) [] v.
Proof. intros pre post st _. unfold rd_ret, len. simpl. by rewrite Z.add_0_r. Qed.

Lemma reads_bind {A C} r (m : rd_get A) (k : A → rd_get C) a b v w :
  reads (len b + r) m a v → reads r (k v) b w → reads r (rd_bind m k) (a ++ b) w.
Proof.
  intros Hm Hk pre post st Hr. unfold rd_bind.
  rewrite <- (assoc_L (++) a b post), Hm by (rewrite len_app; lia). cbn [gbind].
  specialize (Hk (pre ++ a) post st Hr). rewrite len_app, <- !(assoc_L (++)) in Hk.
  rewrite Hk, len_app. do 3 f_equal. lia.
Qed.

Lemma reads_map {A C} r (m : rd_get A) (f : A → C) bs v :
  reads r m bs v → reads r (rd_bind m (fun a => rd_ret (f a))) bs (f v).
Proof.
  intros Hm. rewrite <- (app_nil_r bs). apply reads_bind with v; [by rewrite Z.add_0_l|apply reads_ret].
Qed.

Lemma remaining_mid pre bs post st : remaining (mk_rd (pre ++ bs ++ post) (len pre) st) = len bs + len post.
Proof. unfold remaining. simpl. rewrite !len_app. lia. Qed.

(** ** Integers *)

Lemma be_uint_acc w n acc :
  fold_left (fun acc x => acc * 256 + x) (be_bytes w n) acc
  = acc * 256 ^ Z.of_nat w + n mod 256 ^ Z.of_nat w.
Proof.
  revert acc. induction w as [|w IH]; intros acc.
  - change (acc = acc * 1 + n mod 1). rewrite Z.mod_1_r. lia.
  - change (be_bytes (S w) n) with ((n / 256 ^ Z.of_nat w) mod 256 :: be_bytes w n).
    cbn [fold_left]. rewrite IH, Nat2Z.inj_succ, Z.pow_succ_r by lia.
    set (p := 256 ^ Z.of_nat w). assert (0 < p) by (apply Z.pow_pos_nonneg; lia).
    rewrite (Z.mul_comm 256 p), Z.rem_mul_r by lia. lia.
Qed.

Lemma be_uint_be_bytes w n : be_uint (be_bytes w n) = n mod 256 ^ Z.of_nat w.
Proof. unfold be_uint. rewrite be_uint_acc. lia. Qed.

Lemma reads_uint r w n : reads r (get_uint w) (be_bytes w n) (n mod 256 ^ Z.of_nat w).
Proof.
  intros pre post st Hr. unfold get_uint. rewrite remaining_mid, len_be_bytes.
  pose proof (len_nonneg post). rewrite (proj2 (Z.ltb_ge _ _)) by lia. cbn [rd_raw rd_off].
  rewrite <- (len_be_bytes w n) at 1. rewrite go_slice_mid. cbn [gbind].
  by rewrite be_uint_be_bytes.
Qed.

Lemma swrap_idemp w n : 0 < w → swrap w (n mod 2 ^ w) = swrap w n.
Proof. intros Hw. unfold swrap. by rewrite Zplus_mod_idemp_l. Qed.

Lemma swrap_small w n : 0 < w → - 2 ^ (w - 1) ≤ n < 2 ^ (w - 1) → swrap w n = n.
Proof.
  intros Hw Hn. unfold swrap. assert (2 ^ w = 2 * 2 ^ (w - 1)).
  { rewrite <- Z.pow_succ_r by lia. f_equal. lia. }
  rewrite Z.mod_small; lia.
Qed.

Lemma reads_int r w n : (0 < w)%nat → swrap (8 * Z.of_nat w) n = n → reads r (get_int w) (be_bytes w n) n.
Proof.
  intros Hw Hn. rewrite <- Hn at 2. rewrite <- swrap_idemp by lia.
  rewrite Z.pow_mul_r by lia.
  apply (reads_map r (get_uint w) (swrap (8 * Z.of_nat w))), reads_uint.
Qed.

(** ** Varints *)

(** A byte with the continuation bit, and without it again; checked on all bytes. *)
Lemma cont_byte v : 0 ≤ v < 256 → (128 <=? Z.lor v 128) && (Z.land (Z.lor v 128) 127 =? v mod 128) = true.
Proof.
  intros Hv. set (P v := (128 <=? Z.lor v 128) && (Z.land (Z.lor v 128) 127 =? v mod 128)).
  assert (forallb P (seqZ 0 256) = true) as HP by reflexivity.
  rewrite forallb_forall in HP. apply (HP v), list_elem_of_In, elem_of_seqZ. lia.
Qed.

Lemma uwrap_shiftl b s : 0 ≤ s ≤ 64 → 0 ≤ b < 2 ^ (64 - s) → uwrap 64 (Z.shiftl b s) = Z.shiftl b s.
Proof.
  intros Hs Hb. unfold uwrap. rewrite Z.shiftl_mul_pow2 by lia. apply Z.mod_small.
  replace (2 ^ 64) with (2 ^ (64 - s) * 2 ^ s) by (rewrite <- Z.pow_add_r by lia; f_equal; lia).
  assert (0 < 2 ^ s) by (apply Z.pow_pos_nonneg; lia). nia.
Qed.

Lemma Uvarint_from_bytes fuel : ∀ u i x post,
  Z.of_nat fuel = 10 - i → 0 ≤ i ≤ 9 → 0 ≤ x < 2 ^ (7 * i) → 0 ≤ u < 2 ^ (64 - 7 * i) →
  Uvarint_from (uvarint_bytes fuel u ++ post) i x (7 * i)
  = (x + u * 2 ^ (7 * i), i + len (uvarint_bytes fuel u)).
Proof.
  induction fuel as [|fuel IH]; intros u i x post Hf Hi Hx Hu; [lia|].
  cbn [uvarint_bytes]. destruct (Z.ltb_spec u 128) as [Hlt|Hge]; cbn [app Uvarint_from].
  - rewrite (proj2 (Z.eqb_neq i 10)), (proj2 (Z.ltb_lt u 128)) by lia.
    replace ((i =? 9) && (1 <? u)) with false.
    2:{ destruct (Z.eqb_spec i 9) as [->|]; [|done]. symmetry. apply Z.ltb_ge. simpl in Hu. lia. }
    rewrite uwrap_shiftl, lor_shiftl by lia. f_equal.
  - assert (i ≠ 9) by (intros ->; simpl in Hu; lia).
    pose proof (Z.mod_pos_bound u 256). pose proof (Z.mod_pos_bound u 128) as Hm.
    pose proof (cont_byte (u mod 256)) as Hc. apply andb_true_iff in Hc as [Hc1 Hc2]; [|lia].
    apply Z.leb_le in Hc1. apply Z.eqb_eq in Hc2.
    rewrite (proj2 (Z.eqb_neq i 10)), (proj2 (Z.ltb_ge _ 128)), Hc2 by lia.
    replace ((u mod 256) mod 128) with (u mod 128).
    2:{ change 256 with (128 * 2). rewrite Z.rem_mul_r, (Z.mul_comm 128), Z_mod_plus_full by lia.
        by rewrite Z.mod_mod. }
    assert (128 = 2 ^ 7) as E7 by done. assert (0 < 2 ^ (7 * i)) by (apply Z.pow_pos_nonneg; lia).
    assert (2 ^ (64 - 7 * i) = 2 ^ (64 - 7 * (i + 1)) * 128) as Ep.
    { rewrite E7, <- Z.pow_add_r by lia. f_equal. lia. }
    assert (2 ^ (7 * (i + 1)) = 2 ^ (7 * i) * 128) as Ep'.
    { rewrite E7, <- Z.pow_add_r by lia. f_equal. lia. }
    pose proof (Z.div_mod u 128). 
    assert (0 < 2 ^ (64 - 7 * (i + 1))) by (apply Z.pow_pos_nonneg; lia).
    rewrite uwrap_shiftl, lor_shiftl by nia.
    replace (7 * i + 7) with (7 * (i + 1)) by lia.
    rewrite IH; rewrite ?Z.shiftr_div_pow2, <- ?E7 by lia; try lia.
    + rewrite len_cons, Ep'. f_equal; nia.
    + rewrite Ep'. nia.
Qed.

Lemma Varint_bytes n post :
  swrap 64 n = n → Varint (varint_bytes n ++ post) = (n, len (varint_bytes n)).
Proof.
  intros Hn. unfold swrap in Hn. pose proof (Z.mod_pos_bound (n + 2 ^ (64 - 1)) (2 ^ 64)).
  assert (- 2 ^ 63 ≤ n < 2 ^ 63) as Hr by (simpl in *; lia). clear Hn.
  unfold Varint, Uvarint, varint_bytes.
  assert (zigzag n = if n <? 0 then - 2 * n - 1 else 2 * n) as Hz.
  { unfold zigzag, uwrap. apply Z.mod_small. destruct (Z.ltb_spec n 0); lia. }
  assert (0 ≤ zigzag n < 2 ^ 64) as Hb by (rewrite Hz; destruct (Z.ltb_spec n 0); lia).
  change (Uvarint_from ?b 0 0 0) with (Uvarint_from b 0 0 (7 * 0)).
  rewrite Uvarint_from_bytes by (simpl; lia).
  change (0 + zigzag n * 2 ^ (7 * 0)) with (zigzag n * 1). rewrite Z.mul_1_r, Hz.
  f_equal. rewrite Z.shiftr_div_pow2 by lia. change (2 ^ 1) with 2.
  destruct (Z.ltb_spec n 0).
  - replace (- 2 * n - 1) with (1 + (- n - 1) * 2) by lia.
    rewrite Z.odd_add, Z.odd_mul, andb_false_r. simpl. rewrite Z.div_add by lia.
    change (1 / 2) with 0. unfold Z.lnot. lia.
  - rewrite Z.odd_mul. simpl. rewrite Z.mul_comm. apply Z.div_mul. lia.
Qed.

Lemma len_uvarint_pos fuel u : 0 < len (uvarint_bytes (S fuel) u).
Proof.
  cbn [uvarint_bytes]. destruct (u <? 128); [done|]. rewrite len_cons.
  pose proof (len_nonneg (uvarint_bytes fuel (Z.shiftr u 7))). lia.
Qed.

Lemma reads_varint r n : swrap 64 n = n → reads r getVarint (varint_bytes n) n.
Proof.
  intros Hn pre post st Hr. unfold getVarint. cbn [rd_raw rd_off].
  rewrite (len_app pre). rewrite <- (app_nil_r (varint_bytes n ++ post)) at 1.
  rewrite go_slice_mid. cbn [gbind]. rewrite Varint_bytes by done.
  pose proof (len_uvarint_pos 9 (zigzag n) : 0 < len (varint_bytes n)).
  rewrite (proj2 (Z.eqb_neq _ 0)), (proj2 (Z.ltb_ge _ 0)) by lia. done.
Qed.

(** ** Collections *)

Lemma reads_raw r b : reads r (getRawBytes (len b)) b b.
Proof.
  intros pre post st Hr. unfold getRawBytes. rewrite remaining_mid.
  pose proof (len_nonneg b). pose proof (len_nonneg post).
  rewrite !(proj2 (Z.ltb_ge _ _)) by lia. cbn [rd_raw rd_off]. by rewrite go_slice_mid.
Qed.

Lemma reads_string_length r n : -1 ≤ n ≤ math_MaxInt16 → n ≤ r → reads r getStringLength (be_bytes 2 n) n.
Proof.
  intros Hn Hr. rewrite <- (app_nil_r (be_bytes 2 n)). unfold getStringLength.
  apply reads_bind with n.
  - apply reads_int; [lia|]. apply swrap_small; unfold math_MaxInt16 in *; simpl in *; lia.
  - intros pre post st Hp. rewrite (proj2 (Z.ltb_ge n (-1))), remaining_mid by lia.
    rewrite (proj2 (Z.ltb_ge _ n)) by (unfold len in *; simpl; lia).
    unfold len. simpl. by rewrite Z.add_0_r.
Qed.

Lemma reads_take_string r s : reads r (take_string (len s)) s s.
Proof. intros pre post st Hr. unfold take_string. cbn [rd_raw rd_off]. by rewrite go_slice_mid. Qed.

Lemma reads_string r s :
  0 ≤ r → (math_MaxInt16 <? len s) = false → reads r getString (be_bytes 2 (len s) ++ s) s.
Proof.
  intros Hr Hs%Z.ltb_ge. pose proof (len_nonneg s). apply reads_bind with (len s).
  - apply reads_string_length; lia.
  - rewrite (proj2 (Z.eqb_neq _ (-1))) by lia. apply reads_take_string.
Qed.

Lemma reads_nullable r s :
  0 ≤ r → (math_MaxInt16 <? len s) = false →
  reads r getNullableString (be_bytes 2 (len s) ++ s) (Some s).
Proof.
  intros Hr Hs%Z.ltb_ge. pose proof (len_nonneg s). apply reads_bind with (len s).
  - apply reads_string_length; lia.
  - rewrite (proj2 (Z.eqb_neq _ (-1))) by lia. apply (reads_map _ _ Some), reads_take_string.
Qed.

Lemma reads_times {A} (m : rd_get A) (g : A → bytes) l r :
  0 ≤ r → (∀ x r, x ∈ l → 0 ≤ r → reads r m (g x) x) → reads r (get_times (length l) m) (l ≫= g) l.
Proof.
  intros Hr Hm. induction l as [|x l IH]; [apply reads_ret|].
  rewrite bind_cons. cbn [get_times length]. apply reads_bind with x.
  - apply Hm; [left|]. pose proof (len_nonneg (l ≫= g)). lia.
  - apply (reads_map _ _ (cons x)), IH. intros y r' Hy. apply Hm. by right.
Qed.

(** The element count of an array, read back as an unsigned number. *)
Lemma reads_count {A} r (l : list A) :
  (math_MaxInt32 <? len l) = false → reads r (get_uint 4) (be_bytes 4 (len l)) (len l).
Proof.
  intros Hl%Z.ltb_ge. pose proof (len_nonneg l).
  rewrite <- (Z.mod_small (len l) (256 ^ Z.of_nat 4)) at 2.
  - apply reads_uint.
  - unfold math_MaxInt32 in Hl. simpl in *. lia.
Qed.

Lemma reads_int_array w r ns :
  (0 < w)%nat → 0 ≤ r → (math_MaxInt32 <? len ns) = false →
  forallb (fun n => swrap (8 * Z.of_nat w) n =? n) ns = true →
  reads r (get_int_array w) (be_bytes 4 (len ns) ++ (ns ≫= be_bytes w)) ns.
Proof.
  intros Hw Hr Hl Hns. unfold get_int_array. apply reads_bind with (len ns); [by apply reads_count|].
  intros pre post st Hp. rewrite remaining_mid, len_ints.
  rewrite (proj2 (Z.ltb_ge _ _)) by lia. destruct (Z.eqb_spec (len ns) 0) as [E|E].
  - destruct ns; [|rewrite len_cons in E; pose proof (len_nonneg ns); lia].
    rewrite Z.mul_0_r, Z.add_0_r. done.
  - pose proof (len_nonneg ns). rewrite (proj2 (Z.ltb_ge _ 0)), len_to_nat by lia. rewrite <- len_ints.
    apply (reads_times (get_int w) (be_bytes w) ns r Hr); [|done]. intros x r' Hx _.
    apply reads_int; [done|]. apply Z.eqb_eq. rewrite forallb_forall in Hns.
    by apply Hns, list_elem_of_In.
Qed.

Lemma reads_make r size n : 0 ≤ n → size * n ≤ maxAlloc → reads r (rd_make size n) [] tt.
Proof. intros Hn Hs pre post st _. unfold rd_make. rewrite go_make_ok by done. cbn [gbind app]. by rewrite Z.add_0_r. Qed.
Lemma reads_string_array r ss :
  0 ≤ r → (math_MaxInt32 <? len ss) = false → existsb (fun s => math_MaxInt16 <? len s) ss = false →
  reads r getStringArray (be_bytes 4 (len ss) ++ (ss ≫= fun s => be_bytes 2 (len s) ++ s)) ss.
Proof.
  intros Hr Hl Hss. apply reads_bind with (len ss); [by apply reads_count|].
  destruct (Z.eqb_spec (len ss) 0) as [E|E].
  - destruct ss; [apply reads_ret|]. rewrite len_cons in E. pose proof (len_nonneg ss). lia.
  - pose proof (len_nonneg ss). rewrite (proj2 (Z.ltb_ge _ 0)), len_to_nat by lia.
    apply (reads_bind _ _ _ [] _ tt); [apply reads_make; [lia|]; apply Z.ltb_ge in Hl; unfold math_MaxInt32, maxAlloc in *; lia|].
    apply reads_times; [done|]. intros s r' Hs Hr'. apply reads_string; [done|].
    apply not_true_is_false. intros Ht. assert (existsb (fun s => math_MaxInt16 <? len s) ss = true) as He.
    { apply existsb_exists. exists s. by rewrite <- list_elem_of_In. }
    congruence.
Qed.

Lemma reads_bytes r b :
  (math_MaxInt32 <? len b) = false → reads r getBytes (be_bytes 4 (len b) ++ b) (Some b).
Proof.
  intros Hb%Z.ltb_ge. pose proof (len_nonneg b). apply reads_bind with (len b).
  - apply reads_int; [lia|]. apply swrap_small; unfold math_MaxInt32 in *; simpl in *; lia.
  - rewrite (proj2 (Z.eqb_neq _ (-1))) by lia. apply (reads_map _ _ Some), reads_raw.
Qed.

Lemma reads_varint_bytes r b :
  (math_MaxInt32 <? len b) = false → reads r getVarintBytes (varint_bytes (len b) ++ b) (Some b).
Proof.
  intros Hb%Z.ltb_ge. pose proof (len_nonneg b). apply reads_bind with (len b).
  - apply reads_varint, swrap_small; unfold math_MaxInt32 in *; simpl in *; lia.
  - rewrite (proj2 (Z.eqb_neq _ (-1))) by lia. apply (reads_map _ _ Some), reads_raw.
Qed.

(** A method that reads a length, and takes -1 for nil. *)
Lemma reads_none {A C} r (m : rd_get Z) (k : Z → rd_get A) bs (f : option C → A) :
  reads r m bs (-1) → k (-1) = rd_ret (f None) → reads r (rd_bind m k) bs (f None).
Proof.
  intros Hm Hk. rewrite <- (app_nil_r bs). apply reads_bind with (-1); [by rewrite Z.add_0_l|].
  rewrite Hk. apply reads_ret.
Qed.

Lemma reads_array_length r n :
  swrap 32 n = n → n ≤ r → n ≤ 2 * math_MaxUint16 → reads r getArrayLength (be_bytes 4 n) n.
Proof.
  intros Hn Hr Hm. rewrite <- (app_nil_r (be_bytes 4 n)). apply reads_bind with n.
  - by apply reads_int; [lia|].
  - intros pre post st Hp. rewrite remaining_mid, !(proj2 (Z.ltb_ge _ _)) by (unfold len in *; simpl; lia).
    unfold len. simpl. by rewrite Z.add_0_r.
Qed.

Lemma reads_bool r b : reads r getBool [if b : bool then 1 else 0] b.
Proof.
  assert (reads r getInt8 [if b : bool then 1 else 0] (if b then 1 else 0)) as H.
  { destruct b; [apply (reads_int r 1 1)|apply (reads_int r 1 0)]; try done; lia. }
  unfold getBool. rewrite <- (app_nil_r [_]). apply reads_bind with (if b then 1 else 0).
  - by rewrite Z.add_0_l.
  - destruct b; apply reads_ret.
Qed.

Lemma be_bytes_1 n : be_bytes 1 n = [n mod 256].
Proof. unfold be_bytes. by rewrite Z.div_1_r. Qed.

(** ** Fields *)

Section Roundtrip.
Context (checksum : crcPolynomial → bytes → Z).

(** [crc32.Checksum] returns a [uint32]. *)
Hypothesis checksum_uint32 : ∀ p b, uint_ok 32 (checksum p b).

(** The length a pushed field remembers. *)
Definition pushed_length (f : pushEncoder) (bs : bytes) : Z :=
  match f with lengthField | varintLengthField _ => len bs | crc32Field _ => 0 end.

Lemma rd_push_ok f pre bs post st :
  len bs + len post < 2 ^ 31 →
  let hd := field_of checksum f bs in
  rd_push f (mk_rd (pre ++ hd ++ bs ++ post) (len pre) st)
  = Ret (inl tt, mk_rd (pre ++ hd ++ bs ++ post) (len pre + len hd) (mk_push f (len pre) (pushed_length f bs) :: st)).
Proof.
  intros Hlen hd. pose proof (len_nonneg bs). pose proof (len_nonneg post). change (2 ^ 31) with 2147483648 in Hlen.
  destruct f as [|p|r]; unfold rd_push; cbn [rd_off]; unfold hd; cbn [field_of]; rewrite ?len_be_bytes.
  - unfold rd_bind at 1.
    rewrite (reads_int (len (bs ++ post)) 4 (len bs)); [|lia|apply swrap_small; simpl; lia|done].
    cbn [gbind]. unfold remaining. cbn [rd_raw rd_off]. rewrite !len_app, len_be_bytes.
    rewrite swrap_small, (proj2 (Z.ltb_ge _ _)) by (simpl; lia). done.
  - rewrite remaining_mid, len_be_bytes, (proj2 (Z.ltb_ge _ _)) by (rewrite len_app; lia). done.
  - unfold rd_bind. rewrite (reads_varint (len (bs ++ post)) (len bs)); [done|apply swrap_small; simpl; lia|done].
Qed.

Lemma field_check_ok f pre bs post :
  len bs < 2 ^ 31 →
  let hd := field_of checksum f bs in
  field_check checksum (mk_push f (len pre) (pushed_length f bs)) (len ((pre ++ hd) ++ bs)) (((pre ++ hd) ++ bs) ++ post)
  = Ret None.
Proof.
  intros Hlen hd. pose proof (len_nonneg bs). change (2 ^ 31) with 2147483648 in Hlen. unfold hd.
  destruct f as [|p|r]; unfold field_check; cbn [pd_field startOffset pd_length pushed_length field_of].
  - rewrite !len_app, len_be_bytes. replace (_ - len pre - 4) with (len bs) by lia.
    rewrite swrap_small by (simpl; lia). by rewrite Z.eqb_refl.
  - set (v := be_bytes 4 _). assert (len v = 4) as Hv by apply len_be_bytes. unfold field_crc.
    rewrite <- (assoc_L (++) (pre ++ v)). replace (len pre + 4) with (len (pre ++ v)) by (rewrite len_app; lia).
    rewrite (len_app (pre ++ v)), go_slice_mid. cbn [gbind].
    rewrite <- (assoc_L (++) pre), len_app, go_slice_mid. cbn [gbind]. unfold v.
    rewrite be_uint_be_bytes, Z.mod_small by apply checksum_uint32. by rewrite Z.eqb_refl.
  - rewrite !len_app. replace (_ - len pre - _) with (len bs) by lia. by rewrite Z.eqb_refl.
Qed.

Lemma reads_field {A} r f (m : rd_get A) bs v :
  len bs + r < 2 ^ 31 → reads r m bs v → reads r (in_field checksum f m) (field_of checksum f bs ++ bs) v.
Proof.
  intros Hlen Hm pre post st Hr. pose proof (len_nonneg post). unfold in_field. set (hd := field_of checksum f bs).
  unfold rd_bind at 1. rewrite <- (assoc_L (++) hd). unfold hd. rewrite rd_push_ok by lia. fold hd. cbn [gbind].
  unfold rd_bind at 1. rewrite (assoc_L (++) pre hd). rewrite <- len_app.
  rewrite Hm by done. cbn [gbind]. unfold rd_bind, rd_pop. cbn [rd_stack rd_off rd_raw].
  rewrite <- len_app, (assoc_L (++) _ bs). unfold hd. rewrite field_check_ok by lia. fold hd. cbn [gbind].
  unfold rd_ret. rewrite <- !(assoc_L (++)), !len_app. do 3 f_equal; lia.
Qed.

End Roundtrip.

Definition sample_checksum (_ : crcPolynomial) (b : bytes) : Z := len b mod 2 ^ 32.
