(* ===== verification/KafkaDecoderSafety.v ===== *)
(** * The Kafka decoder on bytes from anywhere

    [safe m P]: from any offset of any data, [m] returns with the offset between the old one
    and the end of the data; what it returns satisfies [P].  Every method is safe for the
    range of its Go type, and a field with a length or a checksum is when its content is. *)

From S2P Require Import Prelude GoStrings KafkaCodec KafkaProps KafkaDecoder KafkaDecoderProps.

Record rd_ok (rd : realDecoder) : Prop := {
  ok_bytes : bytes_ok (rd_raw rd);
  ok_off : 0 ≤ rd_off rd ≤ len (rd_raw rd) }.

(** The decoder after a method: the same data, an offset that has not gone back; after a
    value, the same stack *)
Definition post {A} (rd : realDecoder) (P : A → Prop) (r : (A + decode_error) * realDecoder) : Prop :=
  rd_raw r.2 = rd_raw rd ∧ rd_off rd ≤ rd_off r.2 ≤ len (rd_raw rd) ∧
  match r.1 with inl a => rd_stack r.2 = rd_stack rd ∧ P a | inr _ => True end.
Definition safe {A} (m : rd_get A) (P : A → Prop) : Prop := ∀ rd, rd_ok rd → wp (m rd) (post rd P).

Lemma safe_ret {A} (a : A) (P : A → Prop) : P a → safe (rd_ret a) P.
Proof. intros Ha rd [_ ?]. split; [done|]. split; [simpl; lia|done]. Qed.
Lemma safe_fail {A} e (P : A → Prop) : safe (rd_fail e) P.
Proof. intros rd [_ ?]. split; [done|]. split; [simpl; lia|done]. Qed.
Lemma safe_mono {A} (m : rd_get A) (P Q : A → Prop) : safe m P → (∀ a, P a → Q a) → safe m Q.
Proof.
  intros Hm HPQ rd Hrd. eapply wp_mono; [by apply Hm|]. intros [[a|e] rd'] (? & ? & Ha); simpl in *; [|done].
  destruct Ha. repeat split; simpl; auto; lia.
Qed.

(** What a step in a sequence leaves is as good as what it found. *)
Lemma rd_ok_moved rd rd' :
  rd_ok rd → rd_raw rd' = rd_raw rd → rd_off rd ≤ rd_off rd' ≤ len (rd_raw rd) → rd_ok rd'.
Proof. intros [Hb Ho] E Hoff. split; rewrite E; [done|lia]. Qed.

(** The methods of a sequence, seen from its start *)
Lemma post_lift {A} rd rd' (P : A → Prop) r :
  rd_raw rd' = rd_raw rd → rd_off rd ≤ rd_off rd' → rd_stack rd' = rd_stack rd → post rd' P r → post rd P r.
Proof.
  intros Hraw Hoff Hst. destruct r as [[b|e] rd2]; intros (E1 & E2 & E3); cbn [fst snd] in *; rewrite Hraw in E2;
    (split; [simpl; congruence|]; split; [simpl; lia|]); [|done]. destruct E3. split; [simpl; congruence|done].
Qed.

Lemma safe_bind {A C} (m : rd_get A) (k : A → rd_get C) P Q :
  safe m P → (∀ a, P a → safe (k a) Q) → safe (rd_bind m k) Q.
Proof.
  intros Hm Hk rd Hrd. unfold rd_bind. apply wp_bind. eapply wp_mono; [by apply Hm|].
  intros [[a|e] rd'] Hp; [|done]. pose proof Hp as (Hraw & Hoff & Hst & Ha). cbn [fst snd] in *.
  eapply wp_mono; [by eapply Hk, rd_ok_moved|]. intros r. apply post_lift; [done|lia|done].
Qed.

Lemma safe_insufficient {A} (P : A → Prop) : safe insufficient P.
Proof. intros rd [_ ?]. split; [done|]. split; [simpl; lia|done]. Qed.

(** A guard on the state *)
Lemma safe_if {A} (b : realDecoder → bool) (m1 m2 : rd_get A) P :
  safe m1 P → (∀ rd, rd_ok rd → b rd = false → wp (m2 rd) (post rd P)) →
  safe (fun rd => if b rd then m1 rd else m2 rd) P.
Proof. intros H1 H2 rd Hrd. destruct (b rd) eqn:E; [by apply H1|by apply H2]. Qed.

(** [rd.raw[rd.off : rd.off+n]] and the offset behind it, when there is room *)
Lemma slice_wp {A} n rd (f : bytes → A) (P : A → Prop) :
  rd_ok rd → 0 ≤ n ≤ remaining rd → (∀ b, bytes_ok b → len b = n → P (f b)) →
  wp (let* b := go_slice (rd_raw rd) (rd_off rd) (rd_off rd + n) in Ret (inl (f b), moved rd (rd_off rd + n)))
    (post rd P).
Proof.
  intros [Hb Ho] Hn HP. unfold remaining in Hn. apply wp_bind, wp_go_slice; [lia..|]. apply wp_ret.
  split; [done|]. split; [simpl; lia|]. split; [done|]. apply HP.
  - unfold sub. by apply Forall_take, Forall_drop.
  - unfold sub, len in *. rewrite length_take, length_drop. lia.
Qed.

(** ** Integers *)

Lemma be_uint_bound b acc : bytes_ok b → 0 ≤ acc →
  0 ≤ fold_left (fun a x => a * 256 + x) b acc < (acc + 1) * 256 ^ len b.
Proof.
  intros Hb. revert acc. induction Hb as [|x b Hx Hb IH]; intros acc Ha; simpl; [change (len (@nil Z)) with 0; lia|].
  rewrite len_cons, Z.pow_add_r by (pose proof (len_nonneg b); lia). unfold byte_ok in Hx.
  specialize (IH (acc * 256 + x) ltac:(lia)). pose proof (Z.pow_pos_nonneg 256 (len b)). pose proof (len_nonneg b). nia.
Qed.

Lemma safe_uint w : safe (get_uint w) (fun u => 0 ≤ u < 256 ^ Z.of_nat w).
Proof.
  apply safe_if; [apply safe_insufficient|]. intros rd Hrd E%Z.ltb_ge.
  apply (slice_wp (Z.of_nat w) rd be_uint); [done|lia|]. intros b Hb Hl. pose proof (be_uint_bound b 0 Hb ltac:(lia)).
  rewrite Hl in *. unfold be_uint. lia.
Qed.
Lemma swrap_range w n : 0 < w → int_ok w (swrap w n).
Proof.
  intros Hw. unfold int_ok, swrap. pose proof (Z.mod_pos_bound (n + 2 ^ (w - 1)) (2 ^ w) ltac:(lia)).
  replace (2 ^ w) with (2 * 2 ^ (w - 1)) in * by (rewrite <- Z.pow_succ_r by lia; f_equal; lia). lia.
Qed.
Lemma safe_int w : (0 < w)%nat → safe (get_int w) (int_ok (8 * Z.of_nat w)).
Proof. intros Hw. eapply safe_bind; [apply safe_uint|]. intros u _. apply safe_ret, swrap_range. lia. Qed.

Lemma lor_bound a b : 0 ≤ a < 2 ^ 64 → 0 ≤ b < 2 ^ 64 → 0 ≤ Z.lor a b < 2 ^ 64.
Proof.
  intros Ha Hb. split; [apply Z.lor_nonneg; lia|].
  destruct (decide (Z.lor a b = 0)) as [->|Hz]; [lia|].
  apply Z.log2_lt_pow2; [assert (0 ≤ Z.lor a b) by (apply Z.lor_nonneg; lia); lia|].
  rewrite Z.log2_lor by lia.
  assert (∀ x, 0 ≤ x < 2 ^ 64 → Z.log2 x < 64).
  { intros x Hx. destruct (decide (x = 0)) as [->|]; [done|]. apply Z.log2_lt_pow2; lia. }
  apply Z.max_lub_lt; auto.
Qed.

(** The value is 64 bits wide; the count of bytes, or its negation, fits the buffer. *)
Lemma Uvarint_from_bound buf : ∀ i x s, 0 ≤ i → 0 ≤ x < 2 ^ 64 →
  let (ux, n) := Uvarint_from buf i x s in
  0 ≤ ux < 2 ^ 64 ∧ (n = 0 ∨ i < n ≤ i + len buf ∨ i < - n ≤ i + len buf).
Proof.
  induction buf as [|b buf IH]; intros i x s Hi Hx; cbn [Uvarint_from]; [lia|].
  rewrite len_cons. pose proof (len_nonneg buf).
  assert (Hw : ∀ z, 0 ≤ uwrap 64 z < 2 ^ 64) by (intros z; apply Z.mod_pos_bound; lia).
  destruct (i =? 10); [lia|]. destruct (b <? 128).
  - destruct (_ && _); [lia|]. split; [by apply lor_bound|lia].
  - specialize (IH (i + 1) (Z.lor x (uwrap 64 (Z.shiftl (Z.land b 127) s))) (s + 7) ltac:(lia)
      ltac:(by apply lor_bound)). destruct (Uvarint_from _ _ _ _) as [ux n]. lia.
Qed.

Lemma safe_varint : safe getVarint (int_ok 64).
Proof.
  intros rd [Hb Ho]. unfold getVarint. apply wp_bind, wp_go_slice; [lia..|].
  set (buf := sub _ _ _). assert (Hl : len buf = remaining rd).
  { unfold buf, sub, remaining, len in *. rewrite length_take, length_drop. lia. }
  unfold Varint, Uvarint. pose proof (Uvarint_from_bound buf 0 0 0 ltac:(lia) ltac:(lia)) as Hv.
  destruct (Uvarint_from buf 0 0 0) as [ux n]. unfold remaining in Hl. destruct Hv as [Hu Hn].
  destruct (n =? 0) eqn:E0; [by apply safe_insufficient|]. destruct (n <? 0) eqn:E1; simpl.
  { split; [done|]. split; [simpl; lia|done]. }
  split; [done|]. split; [simpl; lia|]. split; [done|].
  assert (Hx : 0 ≤ Z.shiftr ux 1 < 2 ^ 63).
  { rewrite Z.shiftr_div_pow2 by lia. change (2 ^ 1) with 2. change (2 ^ 64) with (2 * 2 ^ 63) in Hu.
    split; [apply Z.div_pos; lia|apply Z.div_lt_upper_bound; lia]. }
  unfold int_ok. change (64 - 1) with 63. destruct (Z.odd ux); [unfold Z.lnot|]; lia.
Qed.

Lemma safe_array_length : safe getArrayLength (fun n => int_ok 32 n ∧ n ≤ 2 * math_MaxUint16).
Proof.
  eapply safe_bind; [apply (safe_int 4); lia|]. intros n Hn. apply safe_if; [apply safe_insufficient|].
  intros rd Hrd _. case_match eqn:E; [by apply safe_fail|]. apply Z.ltb_ge in E. by apply safe_ret.
Qed.

Lemma safe_bool : safe getBool (fun _ => True).
Proof.
  eapply safe_bind; [apply (safe_int 1); lia|]. intros b _. repeat case_match; by apply safe_ret || apply safe_fail.
Qed.

(** ** Byte strings and arrays *)

Lemma safe_raw n : safe (getRawBytes n) (fun b => bytes_ok b ∧ len b = n).
Proof.
  intros rd Hrd. unfold getRawBytes. case_match eqn:E1; [by apply safe_fail|].
  case_match eqn:E2; [by apply safe_insufficient|].
  apply Z.ltb_ge in E1, E2. by apply (slice_wp n rd (fun b => b)).
Qed.

Definition opt_ok (b : option bytes) : Prop := if b is Some b then bytes_ok b else True.

(** A length, absent when it is -1, and that many bytes *)
Lemma safe_sized (m : rd_get Z) P : safe m P →
  safe (rd_bind m (fun tmp => if tmp =? -1 then rd_ret None else rd_bind (getRawBytes tmp) (fun b => rd_ret (Some b))))
    opt_ok.
Proof.
  intros Hm. eapply safe_bind; [done|]. intros n _. case_match; [by apply safe_ret|].
  eapply safe_bind; [apply safe_raw|]. intros b [Hb _]. by apply safe_ret.
Qed.

Lemma safe_take_string n rd :
  rd_ok rd → 0 ≤ n ≤ remaining rd → wp (take_string n rd) (post rd (fun s => bytes_ok s ∧ len s = n)).
Proof. intros Hrd Hn. by apply (slice_wp n rd (fun b => b)). Qed.

(** Strings: the length has been checked against what is left when the bytes are taken. *)
Lemma string_length_wp rd : rd_ok rd →
  wp (getStringLength rd) (fun r => post rd (fun n => -1 ≤ n < 2 ^ 15) r ∧
    match r.1 with inl n => n ≤ remaining r.2 | inr _ => True end).
Proof.
  intros Hrd. unfold getStringLength, rd_bind. apply wp_bind. eapply wp_mono; [by apply (safe_int 2); [lia|]|].
  intros [[n|e] rd'] Hp; [|done]. pose proof Hp as (Hraw & Hoff & Hst & Hn). cbn [fst snd] in *.
  assert (rd_ok rd') by by eapply rd_ok_moved. unfold int_ok in Hn. simpl in Hn.
  destruct (n <? -1) eqn:E1; [done|]. destruct (remaining rd' <? n) eqn:E2.
  - split; [|done]. split; [done|]. split; [simpl; rewrite Hraw; lia|done].
  - apply Z.ltb_ge in E1, E2. split; [|done]. split; [done|]. split; [done|]. split; [done|]. simpl. lia.
Qed.

Lemma safe_string_with {A} (none : A) (some : bytes → A) (P : A → Prop) :
  P none → (∀ s, bytes_ok s → len s < 2 ^ 15 → P (some s)) →
  safe (rd_bind getStringLength (fun n => if n =? -1 then rd_ret none else rd_bind (take_string n) (fun s => rd_ret (some s)))) P.
Proof.
  intros H0 H1 rd Hrd. unfold rd_bind at 1. apply wp_bind. eapply wp_mono; [by apply string_length_wp|].
  intros [[n|e] rd'] [Hp Hn]; [|done]. pose proof Hp as (Hraw & Hoff & Hst & Hr). cbn [fst snd] in *.
  assert (Hrd' : rd_ok rd') by by eapply rd_ok_moved.
  assert (Hlift : ∀ r : (A + decode_error) * realDecoder, post rd' P r → post rd P r)
    by (intros r; apply post_lift; [done|lia|done]).
  destruct (n =? -1) eqn:E; [by apply Hlift, safe_ret|]. unfold rd_bind. apply wp_bind.
  eapply wp_mono; [apply safe_take_string; [done|lia]|].
  intros [[b|e] rd2] Hp2; [|by apply Hlift]. apply wp_ret, Hlift. destruct Hp2 as (? & ? & ? & Hb & Hl). cbn [fst snd] in *.
  split; [done|]. split; [done|]. split; [done|]. apply H1; [done|lia].
Qed.
Lemma safe_string : safe getString (fun s => bytes_ok s ∧ len s < 2 ^ 15).
Proof.
  assert (E : ∀ rd, getString rd = rd_bind getStringLength (fun n =>
    if n =? -1 then rd_ret [] else rd_bind (take_string n) (fun s => rd_ret s)) rd).
  { intros rd. unfold getString, rd_bind. destruct (getStringLength rd) as [[[n|e] rd']|]; simpl; try done.
    destruct (n =? -1); [done|]. by destruct (take_string n rd') as [[[]]|]. }
  intros rd Hrd. rewrite E. revert rd Hrd. apply (safe_string_with [] (fun s => s)); [|done].
  split; [constructor|done].
Qed.
Lemma safe_nullable : safe getNullableString opt_ok.
Proof. by apply (safe_string_with None Some). Qed.

Lemma safe_times {A} n (m : rd_get A) P : safe m P → safe (get_times n m) (fun l => Forall P l ∧ length l = n).
Proof.
  intros Hm. induction n as [|n IH]; cbn [get_times]; [by apply safe_ret|].
  eapply safe_bind; [done|]. intros a Ha. eapply safe_bind; [done|]. intros l [Hl Hn]. apply safe_ret. simpl. auto.
Qed.
Lemma safe_int_array w : (0 < w)%nat → safe (get_int_array w) (Forall (int_ok (8 * Z.of_nat w))).
Proof.
  intros Hw. eapply safe_bind; [apply safe_uint|]. intros n _. apply safe_if; [apply safe_insufficient|].
  intros rd Hrd _. case_match; [by apply safe_ret|]. case_match; [by apply safe_fail|].
  eapply (safe_mono _ _ _ (safe_times _ _ _ (safe_int w Hw))); [|done]. by intros l [Hl _].
Qed.
(** The length of an array is below 2^32, so that the slice of its strings can be made. *)
Lemma safe_make size n : 0 ≤ n → size * n ≤ maxAlloc → safe (rd_make size n) (fun _ => True).
Proof. intros Hn Hs rd Hrd. unfold rd_make. rewrite go_make_ok by done. by apply (safe_ret tt). Qed.
Lemma safe_string_array : safe getStringArray (Forall (fun s => bytes_ok s ∧ len s < 2 ^ 15)).
Proof.
  eapply safe_bind; [apply safe_uint|]. intros n [Hn Hn2]. case_match; [by apply safe_ret|]. case_match; [by apply safe_fail|].
  eapply safe_bind; [apply safe_make; [lia|change (256 ^ Z.of_nat 4) with 4294967296 in Hn2; change maxAlloc with 281474976710656; lia]|]. intros _ _.
  eapply (safe_mono _ _ _ (safe_times _ _ _ safe_string)). by intros l [Hl _].
Qed.

(** ** Fields *)

Section messages.
Context (checksum : crcPolynomial → bytes → Z).

(** A field: the offset it remembers is behind, by the four bytes of a checksum if it is one. *)
Definition behind (f : pushEncoder) (start off : Z) : Prop :=
  match f with crc32Field _ => start + 4 ≤ off | _ => start ≤ off end.
Lemma push_wp f rd : rd_ok rd →
  wp (rd_push f rd) (fun r => match r.1 with
    | inl _ => ∃ o l, r.2 = mk_rd (rd_raw rd) o (mk_push f (rd_off rd) l :: rd_stack rd) ∧ behind f (rd_off rd) o
    | inr _ => True end ∧ rd_raw r.2 = rd_raw rd ∧ rd_off rd ≤ rd_off r.2 ≤ len (rd_raw rd)).
Proof.
  intros Hrd. pose proof Hrd as [Hb Ho].
  destruct f as [|poly|ref]; unfold rd_push.
  - unfold rd_bind at 1. apply wp_bind. eapply wp_mono; [apply (safe_int 4); [lia|done]|].
    intros [[l|e] rd'] (Hraw & Hoff & Hst); cbn [fst snd] in *; [|simpl; split; [done|split; [done|lia]]].
    destruct Hst as [Hst _]. case_match; simpl; (split; [|split; [done|lia]]); [done|].
    exists (rd_off rd'), l. rewrite Hraw, Hst. split; [done|simpl; lia].
  - destruct (remaining rd <? 4) eqn:E; simpl; [split; [done|]; split; [done|lia]|].
    apply Z.ltb_ge in E. unfold remaining in E. split; [by do 2 eexists|]. split; [done|lia].
  - unfold rd_bind at 1. apply wp_bind. eapply wp_mono; [by apply safe_varint|].
    intros [[l|e] rd'] (Hraw & Hoff & Hst); cbn [fst snd] in *; [|simpl; split; [done|split; [done|lia]]].
    destruct Hst as [Hst _]. simpl. (split; [|split; [done|lia]]).
    exists (rd_off rd'), l. rewrite Hraw, Hst. split; [done|simpl; lia].
Qed.

Lemma check_wp f start l off raw Q :
  0 ≤ start → behind f start off → off ≤ len raw → (∀ e, Q e) → wp (field_check checksum (mk_push f start l) off raw) Q.
Proof.
  intros Hs Hf Ho HQ. destruct f as [|poly|ref]; unfold field_check; cbn [pd_field startOffset]; [apply HQ| |apply HQ].
  simpl in Hf. unfold field_crc. apply wp_bind, wp_bind, wp_go_slice; [lia..|]. apply wp_ret.
  apply wp_bind, wp_go_slice; [lia..|]. apply wp_ret, HQ.
Qed.

Lemma safe_field {A} f (m : rd_get A) P : safe m P → safe (in_field checksum f m) P.
Proof.
  intros Hm rd Hrd. unfold in_field. unfold rd_bind at 1. apply wp_bind. eapply wp_mono; [by apply push_wp|].
  intros [[[]|e] rd1] (H1 & Hraw1 & Hoff1); cbn [fst snd] in *; [|done]. destruct H1 as (o & l & -> & Hbe). cbn [rd_raw rd_off] in *.
  unfold rd_bind at 1. apply wp_bind. eapply wp_mono; [apply Hm; destruct Hrd; split; simpl; [done|lia]|].
  intros [[vs|e] rd2] (Hraw2 & Hoff2 & H2); cbn [fst snd rd_raw rd_off rd_stack] in *.
  2:{ split; [done|]. split; [simpl; lia|done]. }
  destruct H2 as [Hst HP]. unfold rd_bind, rd_pop. apply wp_bind. rewrite Hst. apply wp_bind. rewrite Hraw2.
  destruct Hrd as [_ Ho]. apply check_wp; [lia|destruct f; simpl in *; lia|lia|]. intros e. apply wp_ret.
  destruct e as [e|]; simpl; (split; [done|]; split; [simpl; lia|done]).
Qed.

End messages.
