(* ===== verification/KafkaWire.v ===== *)
(** * What a message promises on the wire

    [wire l m v]: when the encoder of the message [l] reports no error, the reader [m] reads
    its bytes as [v]; [wire_from q l m v]: when at least [q] bytes follow them.  The relation is
    closed under sequencing, fields, options and arrays, so that a message is shown to be read
    back from its parts; then whatever [encode] returns is decoded ([encode_decode_wire]). *)

From S2P Require Import Prelude GoStrings KafkaCodec KafkaProps KafkaDecoder KafkaDecoderProps KafkaDecoderSafety.

#[local] Arguments be_bytes : simpl never.
#[local] Arguments varint_bytes : simpl never.

Create HintDb wire discriminated.

Section wire.
Context (checksum : crcPolynomial → bytes → Z).
(** [crc32.Checksum] returns a [uint32]. *)
Hypothesis checksum_uint32 : ∀ p b, uint_ok 32 (checksum p b).

Abbreviation bytes_of l := (l ≫= render checksum).

Definition wire_from {A} (q : Z) (l : list item) (m : rd_get A) (v : A) : Prop :=
  items_error l = None → ∀ r, q ≤ r → len (bytes_of l) + r < 2 ^ 31 → reads r m (bytes_of l) v.
Abbreviation wire := (wire_from 0).

Lemma items_error_app l k : items_error (l ++ k) = None → items_error l = None ∧ items_error k = None.
Proof.
  induction l as [|i l IH]; [done|]. cbn [app items_error]. destruct (item_error i); [done|]. exact IH.
Qed.

Lemma items_error_join l k : items_error l = None → items_error (l ++ k) = items_error k.
Proof. induction l as [|i l IH]; [done|]. cbn [app items_error]. by destruct (item_error i). Qed.

Lemma no_error_data c l : data_error c = None → items_error (Data c :: l) = items_error l.
Proof. intros Hc. cbn [items_error item_error]. by rewrite Hc. Qed.
Lemma no_error_field f body l : items_error body = None → items_error (Field f body :: l) = items_error l.
Proof. intros Hb. cbn [items_error]. by rewrite item_error_Field, Hb. Qed.

(** ** Sequences *)

Lemma wire_ret {A} q (v : A) : wire_from q [] (rd_ret v) v.
Proof. intros _ r _ _. apply reads_ret. Qed.

Lemma wire_bind {A C} q l k (m : rd_get A) (f : A → rd_get C) v w :
  0 ≤ q → wire l m v → wire_from q k (f v) w → wire_from q (l ++ k) (rd_bind m f) w.
Proof.
  intros Hq Hm Hf He r Hr Hlen. apply items_error_app in He as [H1 H2]. rewrite bind_app in *. rewrite len_app in Hlen.
  pose proof (len_nonneg (bytes_of l)). pose proof (len_nonneg (bytes_of k)).
  apply reads_bind with v; [apply Hm; auto; lia|apply Hf; auto; lia].
Qed.
Lemma wire_cons {A C} q i k (m : rd_get A) (f : A → rd_get C) v w :
  0 ≤ q → wire [i] m v → wire_from q k (f v) w → wire_from q (i :: k) (rd_bind m f) w.
Proof. apply (wire_bind q [i]). Qed.
Lemma wire_map {A C} q l (m : rd_get A) (f : A → C) v :
  wire_from q l m v → wire_from q l (get* a := m in rd_ret (f a)) (f v).
Proof. intros Hm He r Hr Hlen. apply reads_map. by apply Hm. Qed.
(** A step that reads nothing *)
Lemma wire_skip {A C} l (m : rd_get A) (f : A → rd_get C) v w : wire [] m v → wire l (f v) w → wire l (rd_bind m f) w.
Proof. intros Hm Hf. rewrite <- (app_nil_l l). by eapply wire_bind. Qed.

Lemma wire_field {A} f l (m : rd_get A) v : wire l m v → wire [Field f l] (in_field checksum f m) v.
Proof using checksum_uint32.
  intros Hm He r Hr Hlen. cbn [items_error] in He. rewrite item_error_Field in He.
  destruct (items_error l) eqn:El; [done|]. csimpl. csimpl in Hlen. rewrite app_nil_r in *. rewrite len_app in Hlen.
  pose proof (len_nonneg (field_of checksum f (bytes_of l))).
  apply reads_field; [done|lia|]. apply Hm; auto; lia.
Qed.

(** Messages with the same bytes *)
Lemma wire_ext {A} q l k (m : rd_get A) v :
  bytes_of l = bytes_of k → items_error l = items_error k → wire_from q k m v → wire_from q l m v.
Proof. intros Hb He Hw. unfold wire_from. by rewrite Hb, He. Qed.

(** ** Calls *)

(** A call and the method that reads it *)
Lemma wire_data {A} q c (m : rd_get A) v :
  (∀ r, q ≤ r → data_error c = None → reads r m (data_bytes c) v) → wire_from q [Data c] m v.
Proof.
  intros Hm He r Hr Hlen. csimpl. rewrite app_nil_r. apply Hm; [done|]. cbn [items_error item_error] in He.
  by destruct (data_error c).
Qed.

Lemma int_ok_swrap w n : 0 < w → int_ok w n → swrap w n = n.
Proof. intros Hw Hn. by apply swrap_small. Qed.

Lemma wire_int8 n : int_ok 8 n → wire [Data (putInt8 n)] getInt8 n.
Proof.
  intros Hn. apply wire_data. intros r _ _. cbn [data_bytes]. rewrite <- be_bytes_1.
  apply reads_int; [lia|]. by apply int_ok_swrap.
Qed.
Lemma wire_int16 n : int_ok 16 n → wire [Data (putInt16 n)] getInt16 n.
Proof. intros Hn. apply wire_data. intros r _ _. apply reads_int; [lia|]. by apply int_ok_swrap. Qed.
Lemma wire_int32 n : int_ok 32 n → wire [Data (putInt32 n)] getInt32 n.
Proof. intros Hn. apply wire_data. intros r _ _. apply reads_int; [lia|]. by apply int_ok_swrap. Qed.
Lemma wire_int64 n : int_ok 64 n → wire [Data (putInt64 n)] getInt64 n.
Proof. intros Hn. apply wire_data. intros r _ _. apply reads_int; [lia|]. by apply int_ok_swrap. Qed.
Lemma wire_varint n : int_ok 64 n → wire [Data (putVarint n)] getVarint n.
Proof. intros Hn. apply wire_data. intros r _ _. apply reads_varint. by apply int_ok_swrap. Qed.
Lemma wire_bool b : wire [Data (putBool b)] getBool b.
Proof. apply wire_data. intros r _ _. apply reads_bool. Qed.
Lemma wire_raw b : wire [Data (putRawBytes b)] (getRawBytes (len b)) b.
Proof. apply wire_data. intros r _ _. apply reads_raw. Qed.

Lemma no_error (b : bool) (e : packet_error) : (if b then Some e else None) = None → b = false.
Proof. by destruct b. Qed.

Lemma wire_bytes b : wire [Data (putBytes b)] getBytes b.
Proof.
  apply wire_data. intros r _ He. destruct b as [b|]; [by eapply reads_bytes, no_error|].
  apply (reads_none _ _ _ _ (fun b : option bytes => b)); [by apply reads_int; [lia|]|done].
Qed.
Lemma wire_varint_bytes b : wire [Data (putVarintBytes b)] getVarintBytes b.
Proof.
  apply wire_data. intros r _ He. destruct b as [b|]; [by eapply reads_varint_bytes, no_error|].
  apply (reads_none _ _ _ _ (fun b : option bytes => b)); [by apply reads_varint|done].
Qed.
Lemma wire_string s : wire [Data (putString s)] getString s.
Proof. apply wire_data. intros r Hr He. by eapply reads_string, no_error. Qed.
Lemma wire_nullable s : wire [Data (putNullableString s)] getNullableString s.
Proof.
  apply wire_data. intros r Hr He. destruct s as [s|]; [by eapply reads_nullable, no_error|].
  apply (reads_none _ _ _ _ (fun b : option bytes => b)); [|done].
  apply reads_string_length; unfold math_MaxInt16; lia.
Qed.
Lemma wire_string_array ss : wire [Data (putStringArray ss)] getStringArray ss.
Proof.
  apply wire_data. intros r Hr He. cbn [data_error] in He.
  destruct (math_MaxInt32 <? len ss) eqn:E1; [done|]. destruct (existsb _ ss) eqn:E2; [done|]. by apply reads_string_array.
Qed.
Lemma wire_int32_array ns : Forall (int_ok 32) ns → wire [Data (putInt32Array ns)] getInt32Array ns.
Proof.
  intros Hn. apply wire_data. intros r Hr He. apply (reads_int_array 4); [lia|done|by eapply no_error|].
  apply forallb_forall. intros n Hin. apply Z.eqb_eq, int_ok_swrap; [done|]. by eapply Forall_forall, list_elem_of_In.
Qed.
Lemma wire_int64_array ns : Forall (int_ok 64) ns → wire [Data (putInt64Array ns)] getInt64Array ns.
Proof.
  intros Hn. apply wire_data. intros r Hr He. apply (reads_int_array 8); [lia|done|by eapply no_error|].
  apply forallb_forall. intros n Hin. apply Z.eqb_eq, int_ok_swrap; [done|]. by eapply Forall_forall, list_elem_of_In.
Qed.

Lemma wire_array_length q n :
  int_ok 32 n → n ≤ q → n ≤ 2 * math_MaxUint16 → wire_from q [Data (putArrayLength n)] getArrayLength n.
Proof.
  intros Hn Hq Hm. apply wire_data. intros r Hr _. apply reads_array_length; [by apply int_ok_swrap|lia|done].
Qed.

(** ** Arrays *)

Lemma wire_all {A} (ls : list (list item)) (m : rd_get A) vs :
  Forall2 (fun l v => wire l m v) ls vs → wire (mjoin ls) (get_times (length vs) m) vs.
Proof.
  induction 1 as [|l v ls vs Hl Hls IH]; [apply wire_ret|]. cbn [mjoin list_join length get_times].
  eapply wire_bind; [done|exact Hl|]. by apply (wire_map _ _ _ (cons v)).
Qed.
Lemma bind_join {A C} (g : A → list C) l : (l ≫= g) = mjoin (g <$> l).
Proof. induction l as [|x l IH]; [done|]. rewrite bind_cons, IH. done. Qed.
Lemma wire_times {A} (g : A → list item) (m : rd_get A) l :
  Forall (fun x => wire (g x) m x) l → wire (l ≫= g) (get_times (length l) m) l.
Proof. intros Hl. rewrite bind_join. by apply wire_all, Forall2_fmap_l, Forall_Forall2_diag. Qed.

(** Every message of the list has a byte at least. *)
Lemma len_bytes_of (ls : list (list item)) :
  Forall (fun l => bytes_of l ≠ []) ls → len ls ≤ len (bytes_of (mjoin ls)).
Proof.
  induction 1 as [|l ls Hl Hls IH]; [done|]. change (mjoin (l :: ls)) with (l ++ mjoin ls). rewrite bind_app, len_app, len_cons.
  destruct (bytes_of l) as [|y ys]; [done|]. rewrite len_cons. pose proof (len_nonneg ys). lia.
Qed.

(** [putArrayLength], the elements; [getArrayLength] and a loop *)
Lemma wire_array {A C} (ls : list (list item)) (m : rd_get A) vs (k : Z → rd_get (list A) → rd_get C) v :
  len vs ≤ 2 * math_MaxUint16 → Forall (fun l => bytes_of l ≠ []) ls → Forall2 (fun l v => wire l m v) ls vs →
  (wire (mjoin ls) (get_times (length vs) m) vs → wire (mjoin ls) (k (len vs) (get_times (length vs) m)) v) →
  wire (Data (putArrayLength (len vs)) :: mjoin ls) (get* n := getArrayLength in k n (get_times (Z.to_nat n) m)) v.
Proof.
  intros Hn Hne Hl Hk He r Hr Hlen. pose proof (len_bytes_of ls Hne) as Hle.
  assert (len ls = len vs) as Hls by (unfold len; by rewrite (Forall2_length _ _ _ Hl)). pose proof (len_nonneg ls).
  apply (items_error_app [_]) in He as [_ He]. rewrite bind_cons in *. cbn [render data_bytes] in *.
  rewrite len_app, len_be_bytes in Hlen.
  apply reads_bind with (len vs).
  - apply reads_array_length; [|lia|done]. apply int_ok_swrap; [done|]. unfold int_ok, math_MaxUint16 in *. simpl in *. lia.
  - rewrite len_to_nat. apply Hk; [by apply wire_all|done|done|lia].
Qed.

(** ** [encode] and [decode] *)

Lemma decode_wire {A} l (m : rd_get A) v :
  items_error l = None → len (bytes_of l) < 2 ^ 31 → wire l m v → decode m (bytes_of l) = Ret (inl v).
Proof.
  intros He Hlen Hw. specialize (Hw He 0 ltac:(lia) ltac:(lia) [] [] [] eq_refl). unfold decode.
  rewrite app_nil_r, app_nil_l in Hw. change (len (@nil Z)) with 0 in Hw. rewrite Hw. cbn [gbind rd_off].
  by rewrite Z.add_0_l, Z.eqb_refl.
Qed.

(** [encode] of a message either reports what is too long or returns bytes that [decode] reads. *)
Lemma encode_decode_wire {A} h l (m : rd_get A) v :
  message_ok l = true → wire l m v →
  ∃ r, encode checksum h (l ≫= calls) = Ret r ∧
    match r with
    | inl buf => buf = bytes_of l ∧ decode m buf = Ret (inl v)
    | inr e => items_error l = Some e ∨ e = InvalidRequestSize ∧ MaxRequestSize < len (bytes_of l)
    end.
Proof.
  intros Hok Hw. rewrite encode_shape by done. eexists. split; [done|]. destruct (items_error l) eqn:He; [by left|].
  destruct (Z.ltb_spec MaxRequestSize (len (bytes_of l))); [by right|]. split; [done|].
  apply decode_wire; [done|unfold MaxRequestSize in *; simpl; lia|done].
Qed.
End wire.
Abbreviation wire checksum := (wire_from checksum 0).

#[export] Hint Resolve wire_int8 wire_int16 wire_int32 wire_int64 wire_varint wire_bool wire_raw wire_bytes
  wire_varint_bytes wire_string wire_nullable wire_string_array wire_int32_array wire_int64_array : wire.

(** Reads a sequence item by item *)
Ltac wire_step :=
  lazymatch goal with
  | |- wire_from _ _ [] (rd_ret _) _ => apply wire_ret
  | |- wire_from _ _ (_ :: _) (rd_bind _ _) _ => eapply wire_cons; [first [done|lia]|solve [eauto with wire]|cbv beta]
  | |- wire_from _ _ (_ ++ _) (rd_bind _ _) _ => eapply wire_bind; [first [done|lia]|solve [eauto with wire]|cbv beta]
  end.
Ltac wire_seq := repeat wire_step.
