(* ===== verification/KafkaRecord.v ===== *)
(** * [kafka/record.go], [kafka/record_batch.go], [kafka/timestamp.go], with [compress] and
    [decompress]: the records a producer sends

    An encoder is the message it writes, as a list of [item]s; a decoder is a reader.  The
    compressors are parameters. *)

From S2P Require Import Prelude GoStrings KafkaCodec KafkaProps KafkaDecoder.

(** ** Times *)

(** [time.Time] and [time.Duration] in nanoseconds, a time from the Unix epoch; [time.Time{}]
    is the first of January of the year 1. *)
Definition Millisecond : Z := 1000000.
Definition zero_time : Z := -62135596800 * 1000000000.

(** [func (t Timestamp) encode(pe packetEncoder) error] *)
Definition Timestamp_items (t : Z) : list item :=
  if negb (t <? 0) then [Data (putInt64 (Z.quot (swrap 64 t) Millisecond))]
  else if negb (t =? zero_time) then [Data (report InvalidTimestamp)]
  else [Data (putInt64 (-1))].
(** [func (t Timestamp) decode(pd packetDecoder) error] *)
Definition time_of_millis (millis : Z) : Z :=
  if 0 <=? millis then Z.quot millis 1000 * 1000000000 + Z.rem millis 1000 * Millisecond else zero_time.
Definition Timestamp_decode : rd_get Z := get* millis := getInt64 in rd_ret (time_of_millis millis).

(** ** Compression *)

Definition CompressionNone : Z := 0.
Definition CompressionZSTD : Z := 4.
Definition compressionCodecMask : Z := 7.
Definition timestampTypeMask : Z := 8.
Definition isTransactionalMask : Z := 16.
Definition controlMask : Z := 32.

(** ** Records *)

(** [type RecordHeader struct], [type Record struct]; the field [length] is the varint length
    of [KafkaCodec.fields], a nil slice of headers is the empty list. *)
Record RecordHeader := mk_header { h_Key : option bytes; h_Value : option bytes }.
Record Record_ := mk_record {
  Headers : list RecordHeader; Attributes : Z; TimestampDelta : Z; OffsetDelta : Z;
  r_Key : option bytes; r_Value : option bytes }.

Definition RecordHeader_items (h : RecordHeader) : list item :=
  [Data (putVarintBytes (h_Key h)); Data (putVarintBytes (h_Value h))].
Definition RecordHeader_decode : rd_get RecordHeader :=
  get* k := getVarintBytes in get* v := getVarintBytes in rd_ret (mk_header k v).

(** [func (r *Record) encode(pe packetEncoder) error]; [ref] names the record. *)
Definition Record_items (ref : nat) (r : Record_) : item :=
  Field (varintLengthField ref)
    ([Data (putInt8 (Attributes r));
      Data (putVarint (Z.quot (TimestampDelta r) Millisecond));
      Data (putVarint (OffsetDelta r));
      Data (putVarintBytes (r_Key r));
      Data (putVarintBytes (r_Value r));
      Data (putVarint (len (Headers r)))] ++
     (Headers r ≫= RecordHeader_items)).

(** [make([]*T, n)]: the runtime allocates at most 2^48 bytes. *)
Definition make_pointers (n : Z) : rd_get unit := fun rd =>
  if 2 ^ 48 <? 8 * n then Panic MakeSliceLen else Ret (inl tt, rd).

Section records.
(** [crc32.Checksum]; the libraries for gzip, snappy, LZ4 and zstd by the number of their
    codec, with the compression level; [None] is an error. *)
Context (checksum : crcPolynomial → bytes → Z).
Context (compressor : Z → Z → bytes → option bytes) (decompressor : Z → bytes → option bytes).

(** [func compress(cc CompressionCodec, level int, data []byte) ([]byte, error)] *)
Definition compress (cc level : Z) (data : bytes) : bytes + packet_error :=
  if cc =? CompressionNone then inl data
  else if (1 <=? cc) && (cc <=? CompressionZSTD) then
    match compressor cc level data with Some b => inl b | None => inr CompressionFailed end
  else inr (UnsupportedCodec cc).
(** [func decompress(cc CompressionCodec, data []byte) ([]byte, error)] *)
Definition decompress (cc : Z) (data : bytes) : bytes + decode_error :=
  if cc =? CompressionNone then inl data
  else if (1 <=? cc) && (cc <=? CompressionZSTD) then
    match decompressor cc data with Some b => inl b | None => inr DecompressionFailed end
  else inr (InvalidCompression cc).

(** [func (r *Record) decode(pd packetDecoder) (err error)] *)
Definition Record_decode : rd_get Record_ :=
  in_field checksum (varintLengthField 0) (
    get* attributes := getInt8 in
    get* timestamp := getVarint in
    get* offsetDelta := getVarint in
    get* key := getVarintBytes in
    get* value := getVarintBytes in
    get* numHeaders := getVarint in
    get* _ := make_pointers numHeaders in
    get* headers := get_times (Z.to_nat numHeaders) RecordHeader_decode in
    rd_ret (mk_record headers attributes (swrap 64 (timestamp * Millisecond)) offsetDelta key value)).

(** [type recordsArray []*Record]: the records of a batch are named by their position. *)
Definition recordsArray_items (l : list Record_) : list item := imap Record_items l.
Definition recordsArray_decode (n : nat) : rd_get (list Record_) := get_times n Record_decode.

(** ** Batches *)

(** [type RecordBatch struct]; [recordsLen], which only feeds metrics, is left out. *)
Record RecordBatch := mk_batch {
  FirstOffset : Z; PartitionLeaderEpoch : Z; Version : Z; Codec : Z; CompressionLevel : Z;
  Control : bool; LogAppendTime : bool; LastOffsetDelta : Z; FirstTimestamp : Z; MaxTimestamp : Z;
  ProducerID : Z; ProducerEpoch : Z; FirstSequence : Z; Records : list Record_;
  PartialTrailingRecord : bool; IsTransactional : bool; compressedRecords : option bytes }.

Definition recordBatchOverhead : Z := 49.

(** [func (b *RecordBatch) LastOffset() int64] *)
Definition LastOffset (b : RecordBatch) : Z := swrap 64 (FirstOffset b + LastOffsetDelta b).

(** [func (b *RecordBatch) computeAttributes() int16] *)
Definition flag (b : bool) (mask : Z) : Z := if b then mask else 0.
Definition computeAttributes (b : RecordBatch) : Z :=
  Z.lor (Z.lor (Z.lor (Z.land (Codec b) compressionCodecMask) (flag (Control b) controlMask))
    (flag (LogAppendTime b) timestampTypeMask)) (flag (IsTransactional b) isTransactionalMask).

(** [func (b *RecordBatch) encodeRecords(pe packetEncoder) error]: the compressed records.
    [h] is what the length fields of the records held before. *)
Definition encodeRecords (h : fields) (b : RecordBatch) : Go (bytes + packet_error) :=
  let* r := encode checksum h (recordsArray_items (Records b) ≫= calls) in
  match r with
  | inr e => Ret (inr e)
  | inl raw => Ret (compress (Codec b) (CompressionLevel b) raw)
  end.

(** [func (b *RecordBatch) encode(pe packetEncoder) error]: the counting pass compresses and
    keeps the result for the writing pass. *)
Definition RecordBatch_items (h : fields) (b : RecordBatch) : Go (list item) :=
  if negb (Version b =? 2) then Ret [Data (report (UnsupportedCodec (Codec b)))]
  else
    let* payload := match compressedRecords b with
                    | Some p => Ret (inl p)
                    | None => encodeRecords h b
                    end in
    Ret [Data (putInt64 (FirstOffset b));
         Field lengthField
           [Data (putInt32 (PartitionLeaderEpoch b));
            Data (putInt8 (Version b));
            Field (crc32Field crcCastagnoli)
              ([Data (putInt16 (computeAttributes b));
                Data (putInt32 (LastOffsetDelta b))] ++
               Timestamp_items (FirstTimestamp b) ++
               Timestamp_items (MaxTimestamp b) ++
               [Data (putInt64 (ProducerID b));
                Data (putInt16 (ProducerEpoch b));
                Data (putInt32 (FirstSequence b));
                Data (putArrayLength (len (Records b)));
                Data (match payload with inl p => putRawBytes p | inr e => report e end)])]].

(** [func (b *RecordBatch) decode(pd packetDecoder) (err error)] on a zero batch, in three
    parts: up to the version, the fields under the checksum, the records. *)
Definition batch_start : rd_get (Z * Z * Z * Z) :=
  get* firstOffset := getInt64 in
  get* batchLen := getInt32 in
  get* partitionLeaderEpoch := getInt32 in
  get* version := getInt8 in
  rd_ret (firstOffset, batchLen, partitionLeaderEpoch, version).

Definition mask_set (a mask : Z) : bool := Z.land a mask =? mask.
Definition batch_fields (firstOffset partitionLeaderEpoch version : Z) : rd_get (RecordBatch * Z) :=
  get* attributes := getInt16 in
  get* lastOffsetDelta := getInt32 in
  get* firstTimestamp := Timestamp_decode in
  get* maxTimestamp := Timestamp_decode in
  get* producerID := getInt64 in
  get* producerEpoch := getInt16 in
  get* firstSequence := getInt32 in
  get* numRecs := getArrayLength in
  rd_ret (mk_batch firstOffset partitionLeaderEpoch version (Z.land attributes compressionCodecMask) 0
            (mask_set attributes controlMask) (mask_set attributes timestampTypeMask) lastOffsetDelta firstTimestamp
            maxTimestamp producerID producerEpoch firstSequence [] false (mask_set attributes isTransactionalMask) None,
          numRecs).

Definition set_Records (l : list Record_) (b : RecordBatch) : RecordBatch :=
  mk_batch (FirstOffset b) (PartitionLeaderEpoch b) (Version b) (Codec b) (CompressionLevel b) (Control b)
    (LogAppendTime b) (LastOffsetDelta b) (FirstTimestamp b) (MaxTimestamp b) (ProducerID b) (ProducerEpoch b)
    (FirstSequence b) l (PartialTrailingRecord b) (IsTransactional b) (compressedRecords b).
Definition set_partial (b : RecordBatch) : RecordBatch :=
  mk_batch (FirstOffset b) (PartitionLeaderEpoch b) (Version b) (Codec b) (CompressionLevel b) (Control b)
    (LogAppendTime b) (LastOffsetDelta b) (FirstTimestamp b) (MaxTimestamp b) (ProducerID b) (ProducerEpoch b)
    (FirstSequence b) [] true (IsTransactional b) (compressedRecords b).

(** [func (b *RecordBatch) addRecord(r *Record)] *)
Definition addRecord (r : Record_) (b : RecordBatch) : RecordBatch := set_Records (Records b ++ [r]) b.

(** The records out of their buffer *)
Definition batch_records (b : RecordBatch) (numRecs : Z) (recBuffer : bytes) : Go (RecordBatch + decode_error) :=
  match decompress (Codec b) recBuffer with
  | inr e => Ret (inr e)
  | inl recBuffer =>
      let* r := decode (recordsArray_decode (Z.to_nat numRecs)) recBuffer in
      Ret (match r with
           | inl records => inl (set_Records records b)
           | inr ErrInsufficientData => inl (set_partial b)
           | inr e => inr e
           end)
  end.

(** A batch that is cut off is returned without its records, before the checksum is popped. *)
Definition batch_rest (b : RecordBatch) (numRecs bufSize : Z) : rd_get RecordBatch := fun rd =>
  let* r := getRawBytes bufSize rd in
  match r with
  | (inr ErrInsufficientData, rd) => Ret (inl (set_partial b), rd)
  | (inr e, rd) => Ret (inr e, rd)
  | (inl recBuffer, rd) =>
      let* r := rd_pop checksum rd in
      match r with
      | (inr e, rd) => Ret (inr e, rd)
      | (inl _, rd) => let* r := batch_records b numRecs recBuffer in Ret (r, rd)
      end
  end.

Definition RecordBatch_decode : rd_get RecordBatch :=
  get* (firstOffset, batchLen, partitionLeaderEpoch, version) := batch_start in
  get* _ := rd_push (crc32Field crcCastagnoli) in
  get* (b, numRecs) := batch_fields firstOffset partitionLeaderEpoch version in
  batch_rest b numRecs (batchLen - recordBatchOverhead).

End records.
