(* ===== verification/KafkaRecordProps.v ===== *)
(** * Record batches: what is encoded is decoded *)

From S2P Require Import Prelude GoStrings KafkaCodec KafkaProps KafkaDecoder KafkaDecoderProps KafkaDecoderSafety KafkaWire KafkaRecord.

#[local] Arguments be_bytes : simpl never.
#[local] Arguments varint_bytes : simpl never.

(** ** Times *)

(** A time that the wire can hold: none, or whole milliseconds since the epoch *)
Definition time_ok (t : Z) : Prop := t = zero_time ∨ (0 ≤ t < 2 ^ 63 ∧ t mod Millisecond = 0).

Section records.
Context (checksum : crcPolynomial → bytes → Z).
Hypothesis checksum_uint32 : ∀ p b, uint_ok 32 (checksum p b).

(** What is written for a time *)
Lemma timestamp_millis t : time_ok t →
  ∃ n, Timestamp_items t = [Data (putInt64 n)] ∧ int_ok 64 n ∧ time_of_millis n = t.
Proof.
  intros Ht. unfold Timestamp_items. destruct (Z.ltb_spec t 0) as [Hn|Hn]; cbn [negb].
  - destruct Ht as [->|[]]; [|lia]. exists (-1). rewrite Z.eqb_refl. split_and!; [done|by unfold int_ok|done].
  - destruct Ht as [->|[Hr Hm]]; [by unfold zero_time in Hn|].
    rewrite int_ok_swrap by (unfold int_ok; simpl in *; lia). exists (Z.quot t Millisecond).
    assert (t = Z.quot t Millisecond * 1000000 ∧ 0 ≤ Z.quot t Millisecond) as [Et Hn0].
    { unfold Millisecond in *. rewrite Z.quot_div_nonneg by lia. pose proof (Z.div_mod t 1000000).
      pose proof (Z.div_pos t 1000000). lia. }
    set (n := Z.quot t Millisecond) in *. split_and!; [done|unfold int_ok; simpl in *; lia|].
    unfold time_of_millis, Millisecond. replace (0 <=? n) with true by lia.
    rewrite Z.quot_div_nonneg, Z.rem_mod_nonneg by lia. pose proof (Z.div_mod n 1000). lia.
Qed.
Lemma wire_millis n : int_ok 64 n → wire checksum [Data (putInt64 n)] Timestamp_decode (time_of_millis n).
Proof. intros Hn. by apply wire_map, wire_int64. Qed.

(** ** Records *)

Lemma wire_header h : wire checksum (RecordHeader_items h) RecordHeader_decode h.
Proof. destruct h as [k v]. unfold RecordHeader_items, RecordHeader_decode. cbn [h_Key h_Value]. wire_seq. Qed.

Record record_ok (r : Record_) : Prop := {
  ok_Attributes : int_ok 8 (Attributes r);
  ok_TimestampDelta : int_ok 64 (TimestampDelta r) ∧ Z.rem (TimestampDelta r) Millisecond = 0;
  ok_OffsetDelta : int_ok 64 (OffsetDelta r);
  ok_Headers : len (Headers r) < 2 ^ 31 }.

Lemma delta_ok d : int_ok 64 d → Z.rem d Millisecond = 0 →
  int_ok 64 (Z.quot d Millisecond) ∧ swrap 64 (Z.quot d Millisecond * Millisecond) = d.
Proof.
  intros Hd Hr. pose proof (Z.quot_rem d Millisecond ltac:(done)) as E. rewrite Hr, Z.add_0_r, Z.mul_comm in E.
  split; [|rewrite <- E; by apply int_ok_swrap]. unfold int_ok, Millisecond in *. simpl in *. lia.
Qed.

Lemma wire_record k r : record_ok r → wire checksum [Record_items k r] (Record_decode checksum) r.
Proof.
  intros [Ha [Ht Hm] Ho Hh]. destruct (delta_ok _ Ht Hm) as [Hq Ed].
  change (wire checksum [Record_items 0 r] (Record_decode checksum) r). apply wire_field; [done|].
  destruct r as [hs a t o k' v]. cbn [Attributes TimestampDelta OffsetDelta r_Key r_Value Headers] in *. cbn [app]. wire_seq.
  eapply wire_cons; [done|apply wire_varint; unfold int_ok; pose proof (len_nonneg hs); simpl in *; lia|].
  apply (wire_skip _ _ _ _ tt).
  { intros _ r _ _ pre post st _. unfold make_pointers. replace (2 ^ 48 <? 8 * len hs) with false by (simpl in *; lia).
    simpl. by rewrite Z.add_0_r. }
  rewrite len_to_nat. rewrite Ed. apply (wire_map _ _ _ _ (fun hs => mk_record hs a t o k' v)).
  apply wire_times, Forall_true, wire_header.
Qed.

(** The records of a batch: their names do not show in the bytes. *)
Lemma records_bytes n l :
  (imap (fun i => Record_items (n + i)) l ≫= render checksum) = ((l ≫= fun r => [Record_items 0 r]) ≫= render checksum).
Proof.
  revert n. induction l as [|r l IH]; intros n; [done|]. cbn [imap]. rewrite !bind_cons, bind_app. f_equal; [csimpl; by rewrite app_nil_r|].
  rewrite <- (IH (S n)). f_equal. apply imap_ext. intros i x _. simpl. f_equal. lia.
Qed.
Lemma records_error n l :
  items_error (imap (fun i => Record_items (n + i)) l) = items_error (l ≫= fun r => [Record_items 0 r]).
Proof.
  revert n. induction l as [|r l IH]; intros n; [done|]. cbn [imap]. rewrite bind_cons. cbn [app items_error].
  change (item_error (Record_items (n + 0) r)) with (item_error (Record_items 0 r)). destruct (item_error _); [done|].
  rewrite <- (IH (S n)). f_equal. apply imap_ext. intros i x _. simpl. f_equal. lia.
Qed.
Lemma records_refs n l : (imap (fun i => Record_items (n + i)) l ≫= refs) = seq n (length l).
Proof.
  revert n. induction l as [|r l IH]; intros n; [done|]. cbn [imap length seq]. rewrite bind_cons, <- (IH (S n)).
  assert (refs (Record_items (n + 0) r) = [n]) as ->.
  { rewrite Nat.add_0_r. unfold Record_items. cbn [refs app mbind list_bind]. f_equal.
    induction (Headers r) as [|h hs IHh]; [done|]. exact IHh. }
  cbn [app]. do 2 f_equal. apply imap_ext. intros i x _. simpl. f_equal. lia.
Qed.

Lemma records_ok l : message_ok (recordsArray_items l) = true.
Proof.
  apply andb_true_iff. split.
  - apply forallb_forall. intros i Hi. apply list_elem_of_In, elem_of_lookup_imap in Hi as (k & r & -> & _).
    unfold Record_items. cbn [item_ok]. rewrite forallb_app. apply andb_true_iff. split; [done|].
    induction (Headers r) as [|h hs IHh]; [done|]. exact IHh.
  - apply bool_decide_eq_true. change (NoDup (imap (fun i => Record_items (0 + i)) l ≫= refs)).
    rewrite records_refs. apply NoDup_seq.
Qed.

Lemma wire_records l :
  Forall record_ok l → wire checksum (recordsArray_items l) (recordsArray_decode checksum (length l)) l.
Proof.
  intros Hl. apply (wire_ext _ _ _ (l ≫= fun r => [Record_items 0 r])); [apply (records_bytes 0)|apply (records_error 0)|].
  apply wire_times. eapply Forall_impl; [done|]. apply wire_record.
Qed.

(** ** Batches *)

Context (compressor : Z → Z → bytes → option bytes) (decompressor : Z → bytes → option bytes).
(** The libraries decompress what they have compressed. *)
Hypothesis decompress_compress : ∀ cc level raw p, compressor cc level raw = Some p → decompressor cc p = Some raw.

Record batch_ok (b : RecordBatch) : Prop := {
  ok_Version : Version b = 2;
  ok_Codec : 0 ≤ Codec b ≤ CompressionZSTD;
  ok_fresh : compressedRecords b = None ∧ PartialTrailingRecord b = false;
  ok_int64 : int_ok 64 (FirstOffset b) ∧ int_ok 64 (ProducerID b);
  ok_int32 : int_ok 32 (PartitionLeaderEpoch b) ∧ int_ok 32 (LastOffsetDelta b) ∧ int_ok 32 (FirstSequence b);
  ok_int16 : int_ok 16 (ProducerEpoch b);
  ok_times : time_ok (FirstTimestamp b) ∧ time_ok (MaxTimestamp b);
  ok_Records : Forall record_ok (Records b);
  ok_number : len (Records b) ≤ 2 * math_MaxUint16 }.

(** The compression level is not sent. *)
Definition sent (b : RecordBatch) : RecordBatch :=
  mk_batch (FirstOffset b) (PartitionLeaderEpoch b) (Version b) (Codec b) 0 (Control b)
    (LogAppendTime b) (LastOffsetDelta b) (FirstTimestamp b) (MaxTimestamp b) (ProducerID b) (ProducerEpoch b)
    (FirstSequence b) (Records b) (PartialTrailingRecord b) (IsTransactional b) (compressedRecords b).

Lemma attributes_back b : 0 ≤ Codec b ≤ CompressionZSTD →
  let a := computeAttributes b in
  int_ok 16 a ∧ Z.land a compressionCodecMask = Codec b ∧ mask_set a controlMask = Control b ∧
  mask_set a timestampTypeMask = LogAppendTime b ∧ mask_set a isTransactionalMask = IsTransactional b.
Proof.
  intros Hc. unfold computeAttributes, CompressionZSTD in *.
  assert (Codec b = 0 ∨ Codec b = 1 ∨ Codec b = 2 ∨ Codec b = 3 ∨ Codec b = 4) as Hs by lia.
  destruct Hs as [->|[->|[->|[->| ->]]]], (Control b), (LogAppendTime b), (IsTransactional b); by vm_compute.
Qed.

(** What [encodeRecords] made is read back. *)
Lemma records_back h b p :
  Forall record_ok (Records b) → encodeRecords checksum compressor h b = Ret (inl p) →
  ∃ raw, decompress decompressor (Codec b) p = inl raw ∧
    decode (recordsArray_decode checksum (length (Records b))) raw = Ret (inl (Records b)).
Proof.
  intros Hr. unfold encodeRecords.
  destruct (encode_decode_wire checksum h _ _ _ (records_ok (Records b)) (wire_records _ Hr)) as ([raw|e] & -> & He);
    cbn [gbind]; [|done]. destruct He as [_ Hd]. intros [= Hc]. exists raw. split; [|done].
  unfold compress, decompress in *. destruct (Codec b =? CompressionNone); [congruence|].
  destruct (_ && _); [|done]. destruct (compressor (Codec b) (CompressionLevel b) raw) eqn:E; [|done].
  injection Hc as <-. by rewrite (decompress_compress _ _ _ _ E).
Qed.

(** The fields of a batch under its checksum *)
Definition batch_body (b : RecordBatch) : list item :=
  [Data (putInt16 (computeAttributes b)); Data (putInt32 (LastOffsetDelta b))] ++
  Timestamp_items (FirstTimestamp b) ++ Timestamp_items (MaxTimestamp b) ++
  [Data (putInt64 (ProducerID b)); Data (putInt16 (ProducerEpoch b)); Data (putInt32 (FirstSequence b));
   Data (putArrayLength (len (Records b)))].
Definition batch_items (b : RecordBatch) (p : bytes) : list item :=
  [Data (putInt64 (FirstOffset b));
   Field lengthField
     [Data (putInt32 (PartitionLeaderEpoch b)); Data (putInt8 (Version b));
      Field (crc32Field crcCastagnoli) (batch_body b ++ [Data (putRawBytes p)])]].

Lemma RecordBatch_items_eq h b p :
  batch_ok b → encodeRecords checksum compressor h b = Ret (inl p) →
  RecordBatch_items checksum compressor h b = Ret (batch_items b p).
Proof.
  intros [Hv _ [Hc _] _ _ _ _ _ _] Hp. unfold RecordBatch_items. rewrite Hv, Hc, Hp. cbn [gbind negb Z.eqb Pos.eqb].
  unfold batch_items, batch_body. by rewrite Hv, <- !app_assoc.
Qed.

Abbreviation bytes_of l := (l ≫= render checksum).

Lemma len_body b : batch_ok b → len (bytes_of (batch_body b)) = 40.
Proof.
  intros [_ _ _ _ _ _ [H1 H2] _ _]. unfold batch_body.
  destruct (timestamp_millis _ H1) as (n1 & -> & _), (timestamp_millis _ H2) as (n2 & -> & _).
  rewrite !bind_app, !bind_cons, !len_app. cbn [render data_bytes]. rewrite !len_be_bytes. done.
Qed.

(** The batch without its records *)
Lemma wire_fields b : batch_ok b →
  wire_from checksum (len (Records b)) (batch_body b)
    (batch_fields (FirstOffset b) (PartitionLeaderEpoch b) (Version b)) (set_Records [] (sent b), len (Records b)).
Proof.
  intros [_ Hc [Hf Hf'] [_ I1] (_ & I2 & I3) I4 [H1 H2] _ Hn]. pose proof (len_nonneg (Records b)).
  destruct (attributes_back b Hc) as (Ia & E1 & E2 & E3 & E4). unfold batch_body, batch_fields.
  destruct (timestamp_millis _ H1) as (n1 & -> & J1 & T1), (timestamp_millis _ H2) as (n2 & -> & J2 & T2). cbn [app].
  do 2 (eapply wire_cons; [done|by eauto with wire|cbv beta]).
  do 2 (eapply wire_cons; [done|by apply wire_millis|cbv beta]).
  do 3 (eapply wire_cons; [done|by eauto with wire|cbv beta]).
  rewrite E1, E2, E3, E4, T1, T2. unfold set_Records, sent. cbn. rewrite Hf, Hf'.
  apply (wire_map _ _ _ _ (fun n => (_, n))), wire_array_length; [|done|done].
  unfold int_ok, math_MaxUint16 in *. simpl in *. lia.
Qed.

Lemma body_error b : batch_ok b → items_error (batch_body b) = None.
Proof.
  intros [_ _ _ _ _ _ [H1 H2] _ Hn]. unfold batch_body.
  destruct (timestamp_millis _ H1) as (n1 & -> & _), (timestamp_millis _ H2) as (n2 & -> & _). cbn.
  unfold math_MaxUint16, math_MaxInt32 in *. by replace (_ <? _) with false by lia.
Qed.
Lemma reads_fields b r : batch_ok b → len (Records b) ≤ r → 40 + r < 2 ^ 31 →
  reads r (batch_fields (FirstOffset b) (PartitionLeaderEpoch b) (Version b)) (bytes_of (batch_body b))
    (set_Records [] (sent b), len (Records b)).
Proof. intros Hok Hr Hlen. apply wire_fields; [done|by apply body_error|done|by rewrite len_body]. Qed.

Lemma batch_error b p : batch_ok b → len p ≤ math_MaxInt32 → items_error (batch_items b p) = None.
Proof.
  intros Hok Hp. unfold batch_items. rewrite no_error_data, no_error_field; [done| |done].
  rewrite !no_error_data, no_error_field; [done| |done..]. rewrite items_error_join by (by apply body_error).
  apply no_error_data. cbn [data_error]. by replace (math_MaxInt32 <? len p) with false by lia.
Qed.
Lemma batch_message_ok b p : batch_ok b → message_ok (batch_items b p) = true.
Proof.
  intros [_ _ _ _ _ _ [H1 H2] _ _]. unfold batch_items, batch_body.
  by destruct (timestamp_millis _ H1) as (n1 & -> & _), (timestamp_millis _ H2) as (n2 & -> & _).
Qed.

(** The bytes of a batch, the length read as a number *)
Definition start_items (b : RecordBatch) (p : bytes) : list item :=
  [Data (putInt64 (FirstOffset b)); Data (putInt32 (len p + recordBatchOverhead));
   Data (putInt32 (PartitionLeaderEpoch b)); Data (putInt8 (Version b))].
Lemma batch_bytes b p : batch_ok b →
  let body := bytes_of (batch_body b) ++ p in
  bytes_of (batch_items b p) = bytes_of (start_items b p) ++ field_of checksum (crc32Field crcCastagnoli) body ++ body.
Proof.
  intros Hok body. assert (Hb : bytes_of (batch_body b ++ [Data (putRawBytes p)]) = body).
  { rewrite bind_app, bind_cons. cbn [render data_bytes]. change ([] ≫= render checksum) with (@nil Z). by rewrite app_nil_r. }
  assert (Hl : len body = 40 + len p) by (unfold body; rewrite len_app, len_body by done; done).
  unfold batch_items, start_items. rewrite !bind_cons. cbn [render]. rewrite !bind_cons. cbn [render]. rewrite Hb.
  change ([] ≫= render checksum) with (@nil Z). rewrite !app_nil_r, <- !app_assoc. cbn [data_bytes field_of].
  do 3 f_equal. rewrite !len_app, !len_be_bytes. unfold recordBatchOverhead. rewrite Hl. unfold len. simpl. lia.
Qed.

Lemma len_start b p : len (bytes_of (start_items b p)) = 17.
Proof. unfold start_items. rewrite !bind_cons, !len_app. cbn [render data_bytes]. by rewrite !len_be_bytes. Qed.

Lemma reads_start b p r : batch_ok b → 0 ≤ r → len p + 49 < 2 ^ 31 → 17 + r < 2 ^ 31 →
  reads r batch_start (bytes_of (start_items b p)) (FirstOffset b, len p + recordBatchOverhead, PartitionLeaderEpoch b, Version b).
Proof.
  intros [Hv _ _ [I1 _] (I2 & _ & _) _ _ _ _] Hr Hlen Hlen'. pose proof (len_nonneg p).
  assert (wire checksum (start_items b p) batch_start
    (FirstOffset b, len p + recordBatchOverhead, PartitionLeaderEpoch b, Version b)) as Hw.
  { unfold batch_start, start_items. eapply wire_cons; [done|by eauto with wire|cbv beta].
    eapply wire_cons; [done|apply wire_int32; unfold int_ok, recordBatchOverhead; simpl in *; lia|cbv beta].
    eapply wire_cons; [done|by eauto with wire|cbv beta].
    eapply wire_cons; [done|apply wire_int8; rewrite Hv; by unfold int_ok|cbv beta]. apply wire_ret. }
  apply Hw; [done|done|]. rewrite len_start. lia.
Qed.

Lemma wire_batch h b p :
  batch_ok b → encodeRecords checksum compressor h b = Ret (inl p) → len (Records b) ≤ len p →
  wire checksum (batch_items b p) (RecordBatch_decode checksum decompressor) (sent b).
Proof using checksum_uint32 decompress_compress.
  intros Hok Hp Hd He r Hr Hlen pre post st Hpost. rewrite batch_bytes in * by done.
  destruct (records_back h b p (ok_Records _ Hok) Hp) as (raw & Hraw & Hdec).
  set (A := bytes_of (start_items b p)) in *. set (F := bytes_of (batch_body b)) in *.
  set (c := field_of checksum _ (F ++ p)) in *.
  assert (HF : len F = 40) by (by apply len_body). assert (Hc : len c = 4) by apply len_be_bytes.
  assert (HA : len A = 17) by apply len_start. pose proof (len_nonneg p). rewrite !len_app in Hlen.
  unfold RecordBatch_decode. unfold rd_bind at 1. rewrite <- !(assoc_L (++)).
  rewrite (reads_start b p (len (c ++ F ++ p ++ post))) by (done || apply len_nonneg || rewrite ?len_app; lia).
  cbn [gbind]. unfold rd_bind at 1. fold A. rewrite <- len_app, (assoc_L (++) pre A).
  replace (F ++ p ++ post) with ((F ++ p) ++ post) by (by rewrite (assoc_L (++))).
  unfold c. rewrite rd_push_ok by (rewrite ?len_app; lia). fold c.
  cbn [gbind]. unfold rd_bind at 1. rewrite <- (assoc_L (++) F), <- len_app, (assoc_L (++) (pre ++ A)).
  rewrite (reads_fields b (len (p ++ post))) by (done || rewrite ?len_app; lia).
  cbn [gbind]. fold F. unfold batch_rest. replace (len p + recordBatchOverhead - recordBatchOverhead) with (len p) by lia.
  rewrite <- len_app, (assoc_L (++) _ F), (reads_raw (len post)) by done. cbn [gbind].
  unfold rd_pop. cbn [rd_stack rd_raw rd_off].
  rewrite <- len_app, (assoc_L (++) _ p post), <- (assoc_L (++) _ F p).
  unfold c. rewrite field_check_ok by (done || rewrite ?len_app; lia). fold c. cbn [gbind].
  unfold batch_records. cbn [Codec set_Records sent]. rewrite Hraw. cbn iota. rewrite len_to_nat, Hdec. cbn [gbind].
  rewrite <- !(assoc_L (++)), len_app. destruct b. done.
Qed.

(** C33: A record batch of version 2 with at most 131070 records, with times from 1970 on and
    deltas in whole milliseconds (or no time), and fields of their widths, whose records could
    be encoded and compressed, is encoded, with a length, a checksum and varint lengths that
    were unknown before the first pass, to bytes that RecordBatch.decode reads back as the
    batch with all its records, when there are not more records than compressed bytes and the
    batch fits into a request. *)
Theorem batch_roundtrip h h' b p :
  batch_ok b → encodeRecords checksum compressor h b = Ret (inl p) →
  len (Records b) ≤ len p → len p + 61 ≤ MaxRequestSize →
  ∃ buf, (let* items := RecordBatch_items checksum compressor h b in encode checksum h' (items ≫= calls)) = Ret (inl buf) ∧
    len buf = len p + 61 ∧
    decode (RecordBatch_decode checksum decompressor) buf = Ret (inl (sent b)).
Proof using checksum_uint32 decompress_compress.
  intros Hok Hp Hd Hs. rewrite (RecordBatch_items_eq h b p) by done. cbn [gbind].
  assert (Hl : len (bytes_of (batch_items b p)) = len p + 61).
  { rewrite batch_bytes by done. rewrite !len_app, len_start, len_body by done. cbn [field_of]. rewrite len_be_bytes. lia. }
  destruct (encode_decode_wire checksum h' _ _ _ (batch_message_ok b p Hok) (wire_batch h b p Hok Hp Hd))
    as ([buf|e] & -> & He).
  - destruct He as [-> Hdec]. by eexists.
  - rewrite batch_error in He by (done || unfold MaxRequestSize, math_MaxInt32 in *; lia).
    destruct He as [?|[_ ?]]; [done|lia].
Qed.
End records.

(** ** Examples *)

Lemma sample_checksum_uint32 p b : uint_ok 32 (sample_checksum p b).
Proof. by apply Z.mod_pos_bound. Qed.

(** A codec that reverses what it is given *)
Definition reversing (_ _ : Z) (raw : bytes) : option bytes := Some (reverse raw).
Definition unreversing (_ : Z) (p : bytes) : option bytes := Some (reverse p).
Lemma reversing_back cc level raw p : reversing cc level raw = Some p → unreversing cc p = Some raw.
Proof. intros [= <-]. unfold unreversing. by rewrite reverse_involutive. Qed.

Definition sample_records : list Record_ :=
  [mk_record [mk_header (Some (B "k")) None] 0 0 0 (Some (B "key")) (Some (B "value"));
   mk_record [] 0 5000000 1 None (Some [])].
Definition sample_batch : RecordBatch :=
  mk_batch 7 (-1) 2 1 9 false false 1 1500000000000000000 1500000000005000000 (-1) (-1) (-1) sample_records false true None.

Definition sample_payload : bytes :=
  [0; 0; 1; 2; 10; 0; 12; 1; 107; 2; 2; 101; 117; 108; 97; 118; 10; 121; 101; 107; 6; 0; 0; 0; 34].

Lemma sample_batch_ok : batch_ok sample_batch.
Proof.
  split; try (by repeat split).
  - split; right; (split; [by split|done]).
  - apply Forall_cons_2, Forall_cons_2, Forall_nil_2; by repeat split.
Qed.

(** The first record had another length before. *)
Lemma batch_roundtrip_witness :
  ∃ buf, (let* items := RecordBatch_items sample_checksum reversing {[0%nat := 300]} sample_batch in
          encode sample_checksum ∅ (items ≫= calls)) = Ret (inl buf) ∧ len buf = 86 ∧
    decode (RecordBatch_decode sample_checksum unreversing) buf = Ret (inl (sent sample_batch)).
Proof.
  refine (batch_roundtrip _ sample_checksum_uint32 _ _ reversing_back {[0%nat := 300]} ∅ sample_batch sample_payload _ _ _ _).
  - exact sample_batch_ok.
  - vm_compute. reflexivity.
  - vm_compute. discriminate.
  - vm_compute. discriminate.
Defined.

(** Two records whose compressed form is a single byte are not read: the decoder takes the
    number of records for a number of bytes that must follow. *)
Lemma dense_batch_rejected :
  let records := [mk_record [] 0 0 0 None None; mk_record [] 0 0 0 None None] in
  let b := mk_batch 0 0 2 1 0 false false 1 0 0 0 0 0 records false false None in
  let raw := [12; 0; 0; 0; 1; 1; 0; 12; 0; 0; 0; 1; 1; 0] in
  (let* items := RecordBatch_items sample_checksum (fun _ _ _ => Some [255]) ∅ b in
   let* r := encode sample_checksum ∅ (items ≫= calls) in
   match r with
   | inl buf => decode (RecordBatch_decode sample_checksum (fun _ _ => Some raw)) buf
   | inr _ => Ret (inr LengthFieldInvalid)
   end) = Ret (inr ErrInsufficientData).
Proof. vm_compute. reflexivity. Qed.

(** A record with a header count of 2^62 panics. *)
Lemma header_count_panics :
  decode (Record_decode sample_checksum) [32; 0; 0; 0; 1; 1; 128; 128; 128; 128; 128; 128; 128; 128; 128; 1] = Panic MakeSliceLen.
Proof. vm_compute. reflexivity. Qed.
