(* ===== verification/KafkaMessage.v ===== *)
(** * [kafka/message.go], [kafka/message_set.go], [kafka/records.go]: message sets

    The format of the broker versions before 0.11, which a producer uses unless it is
    configured otherwise.  A message set has no length: it is read to the end of its data, and
    the server may cut off its last message.  A compressed message holds a message set. *)

From S2P Require Import Prelude GoStrings KafkaCodec KafkaProps KafkaDecoder KafkaRecord.

(** [type Message struct], [type MessageBlock struct], [type MessageSet struct] without the
    cache of the compressed value, which passes it from the counting pass to the writing
    pass. *)
Inductive Message := mk_message {
  m_Codec : Z; m_CompressionLevel : Z; m_LogAppendTime : bool; m_Key : option bytes; m_Value : option bytes;
  m_Set : option MessageSet; m_Version : Z; m_Timestamp : Z }
with MessageBlock := mk_block { mb_Offset : Z; mb_Msg : Message }
with MessageSet := mk_set { PartialTrailingMessage : bool; OverflowMessage : bool; Messages : list MessageBlock }.

(** [func (ms *MessageSet) addMessage(msg *Message)] *)
Definition addMessage (msg : Message) (ms : MessageSet) : MessageSet :=
  mk_set (PartialTrailingMessage ms) (OverflowMessage ms) (Messages ms ++ [mk_block 0 msg]).
(** [func (msb *MessageBlock) Messages() []*MessageBlock] *)
Definition block_Messages (msb : MessageBlock) : list MessageBlock :=
  match m_Set (mb_Msg msb) with Some s => Messages s | None => [msb] end.

Section messages.
Context (checksum : crcPolynomial → bytes → Z).
Context (compressor : Z → Z → bytes → option bytes) (decompressor : Z → bytes → option bytes).

(** ** Encoding *)

(** [func (m *Message) encode(pe packetEncoder) error] *)
Definition message_attributes (m : Message) : Z :=
  Z.lor (Z.land (m_Codec m) compressionCodecMask) (flag (m_LogAppendTime m) timestampTypeMask).
Definition message_payload (m : Message) : put :=
  match m_Value m with
  | None => putBytes None
  | Some v => match compress compressor (m_Codec m) (m_CompressionLevel m) v with
              | inl p => putBytes (Some p)
              | inr e => report e
              end
  end.
Definition Message_items (m : Message) : item :=
  Field (crc32Field crcIEEE)
    ([Data (putInt8 (m_Version m)); Data (putInt8 (message_attributes m))] ++
     (if 1 <=? m_Version m then Timestamp_items (m_Timestamp m) else []) ++
     [Data (putBytes (m_Key m)); Data (message_payload m)]).
(** [func (msb *MessageBlock) encode(pe packetEncoder) error] *)
Definition MessageBlock_items (msb : MessageBlock) : list item :=
  [Data (putInt64 (mb_Offset msb)); Field lengthField [Message_items (mb_Msg msb)]].
(** [func (ms *MessageSet) encode(pe packetEncoder) error] *)
Definition MessageSet_items (ms : MessageSet) : list item := Messages ms ≫= MessageBlock_items.

(** ** Decoding *)

Section nested.
(** [m.Set.decode(&realDecoder{raw: m.Value})] *)
Context (decodeSet : bytes → Go (MessageSet + decode_error)).

(** The value of a message: decompressed, and a message set when it was compressed *)
Definition message_value (codec : Z) : rd_get (option bytes * option MessageSet) :=
  get* value := getBytes in
  if codec =? CompressionNone then rd_ret (value, None)
  else
    match value with
    | None => rd_ret (None, None)
    | Some v =>
        match decompress decompressor codec v with
        | inr e => rd_fail e
        | inl v => fun rd =>
            let* r := decodeSet v in
            Ret (match r with inl s => inl (Some v, Some s) | inr e => inr e end, rd)
        end
    end.

(** [func (m *Message) decode(pd packetDecoder) (err error)] *)
Definition message_body : rd_get Message :=
  get* version := getInt8 in
  if 1 <? version then rd_fail (UnknownMagic version)
  else
    get* attribute := getInt8 in
    let codec := Z.land attribute compressionCodecMask in
    get* timestamp := if version =? 1 then Timestamp_decode else rd_ret zero_time in
    get* key := getBytes in
    get* (v, s) := message_value codec in
    rd_ret (mk_message codec 0 (mask_set attribute timestampTypeMask) key v s version timestamp).
Definition Message_decode : rd_get Message := in_field checksum (crc32Field crcIEEE) message_body.

(** The part of [MessageBlock.decode] behind the offset *)
Definition block_message : rd_get Message := in_field checksum lengthField Message_decode.

Definition magicOffset : Z := 16.
(** [func magicValue(pd packetDecoder) (int8, error)] *)
Definition magicValue : rd_get Z := peekInt8 magicOffset.

(** [func (ms *MessageSet) decode(pd packetDecoder) (err error)], an iteration per unit of
    fuel; [blocks] are the messages so far.  [getInt64] leaves -1 in [msb.Offset] when it fails. *)
Fixpoint set_loop (fuel : nat) (blocks : list MessageBlock) : rd_get MessageSet := fun rd =>
  if negb (0 <? remaining rd) then Ret (inl (mk_set false false blocks), rd)
  else match fuel with
  | O => Panic ExplicitPanic
  | S fuel =>
      let* r := magicValue rd in
      match r with
      | (inr ErrInsufficientData, rd) => Ret (inl (mk_set true false blocks), rd)
      | (inr e, rd) => Ret (inr e, rd)
      | (inl magic, rd) =>
          if 1 <? magic then Ret (inl (mk_set false false blocks), rd)
          else
            let* r := getInt64 rd in
            let offset := match r.1 with inl o => o | inr _ => -1 end in
            let* r := match r with
                      | (inl _, rd) => block_message rd
                      | (inr e, rd) => Ret (inr e, rd)
                      end in
            match r with
            | (inl msg, rd) => set_loop fuel (blocks ++ [mk_block offset msg]) rd
            | (inr ErrInsufficientData, rd) =>
                Ret (inl (if offset =? -1 then mk_set false true blocks else mk_set true false blocks), rd)
            | (inr e, rd) => Ret (inr e, rd)
            end
      end
  end.
(** One more iteration than bytes *)
Definition set_decode : rd_get MessageSet := fun rd => set_loop (S (Z.to_nat (remaining rd))) [] rd.
End nested.

(** [depth] is the number of sets inside each other for which the stack has room. *)
Fixpoint MessageSet_decode (depth : nat) : rd_get MessageSet :=
  set_decode (fun v =>
    match depth with
    | O => Panic StackOverflow
    | S depth => let* r := MessageSet_decode depth (mk_rd v 0 []) in Ret r.1
    end).

(** ** [Records] *)

(** [type Records struct] *)
Inductive records_type := unknownRecords | legacyRecords | defaultRecords.
Record Records_ := mk_Records { recordsType : records_type; MsgSet : option MessageSet; Batch : option RecordBatch }.

Definition newLegacyRecords (msgSet : MessageSet) : Records_ := mk_Records legacyRecords (Some msgSet) None.
Definition newDefaultRecords (batch : RecordBatch) : Records_ := mk_Records defaultRecords None (Some batch).

(** [func (r *Records) setTypeFromFields() (bool, error)]: the records with their type, or
    whether they are empty, or an error *)
Definition setTypeFromFields (r : Records_) : (Records_ * bool) + packet_error :=
  match MsgSet r, Batch r with
  | None, None => inl (r, true)
  | Some _, Some _ => inr UnknownRecordsType
  | Some _, None => inl (mk_Records legacyRecords (MsgSet r) (Batch r), false)
  | None, Some _ => inl (mk_Records defaultRecords (MsgSet r) (Batch r), false)
  end.

(** The start of the methods: the type is found first. *)
Definition with_type {A} (r : Records_) (empty : A) (k : Records_ → A) : A + packet_error :=
  match recordsType r with
  | unknownRecords =>
      match setTypeFromFields r with
      | inr e => inr e
      | inl (_, true) => inl empty
      | inl (r, false) => inl (k r)
      end
  | _ => inl (k r)
  end.

(** [func (r *Records) encode(pe packetEncoder) error] *)
Definition Records_items (h : fields) (r : Records_) : Go (list item) :=
  match with_type r (Ret []) (fun r =>
    match recordsType r with
    | legacyRecords => Ret (match MsgSet r with Some s => MessageSet_items s | None => [] end)
    | defaultRecords => match Batch r with Some b => RecordBatch_items checksum compressor h b | None => Ret [] end
    | unknownRecords => Ret [Data (report UnknownRecordsType)]
    end) with
  | inl m => m
  | inr e => Ret [Data (report e)]
  end.

(** [func (r *Records) decode(pd packetDecoder) error] of records without a type *)
Definition Records_decode (depth : nat) : rd_get Records_ :=
  get* magic := magicValue in
  if magic <? 2 then get* s := MessageSet_decode depth in rd_ret (newLegacyRecords s)
  else get* b := RecordBatch_decode checksum decompressor in rd_ret (newDefaultRecords b).

(** [numRecords], [isPartial], [isControl], [isOverflow] *)
Definition numRecords (r : Records_) : Z + packet_error :=
  with_type r 0 (fun r => match recordsType r with
    | legacyRecords => default 0 ((fun s => len (Messages s)) <$> MsgSet r)
    | _ => default 0 ((fun b => len (Records b)) <$> Batch r)
    end).
Definition isPartial (r : Records_) : bool + packet_error :=
  with_type r false (fun r => match recordsType r with
    | legacyRecords => default false (PartialTrailingMessage <$> MsgSet r)
    | _ => default false (PartialTrailingRecord <$> Batch r)
    end).
Definition isControl (r : Records_) : bool + packet_error :=
  with_type r false (fun r => match recordsType r with
    | legacyRecords => false
    | _ => default false (Control <$> Batch r)
    end).
Definition isOverflow (r : Records_) : bool + packet_error :=
  with_type r false (fun r => match recordsType r with
    | legacyRecords => default false (OverflowMessage <$> MsgSet r)
    | _ => false
    end).
End messages.
