(* ===== verification/KafkaMessageProps.v ===== *)
(** * Message sets: what is encoded is decoded, and what decoding does with other data *)

From S2P Require Import Prelude GoStrings KafkaCodec KafkaProps KafkaDecoder KafkaDecoderProps KafkaDecoderSafety KafkaWire.
From S2P Require Import KafkaRecord KafkaRecordProps KafkaMessage.

#[local] Arguments be_bytes : simpl never.

(** What is left of a message on the wire: not its compression level. *)
Definition message_sent (m : Message) : Message :=
  mk_message (m_Codec m) 0 (m_LogAppendTime m) (m_Key m) (m_Value m) (m_Set m) (m_Version m) (m_Timestamp m).
Definition block_sent (b : MessageBlock) : MessageBlock := mk_block (mb_Offset b) (message_sent (mb_Msg b)).
Definition set_sent (s : MessageSet) : MessageSet :=
  mk_set (PartialTrailingMessage s) (OverflowMessage s) (block_sent <$> Messages s).

Section messages.
Context (checksum : crcPolynomial → bytes → Z).
Hypothesis checksum_uint32 : ∀ p b, uint_ok 32 (checksum p b).
Context (compressor : Z → Z → bytes → option bytes) (decompressor : Z → bytes → option bytes).
Hypothesis decompress_compress : ∀ cc level raw p, compressor cc level raw = Some p → decompressor cc p = Some raw.

Abbreviation bytes_of l := (l ≫= render checksum).
Abbreviation set_items := (MessageSet_items compressor).

(** A message that can be sent: its value, when compressed, is a set that can be sent itself. *)
Definition value_ok (P : MessageSet → Prop) (m : Message) : Prop :=
  match m_Value m with
  | Some v => if m_Codec m =? CompressionNone then m_Set m = None
              else ∃ s, m_Set m = Some s ∧ P s ∧ set_sent s = s ∧ v = bytes_of (set_items s) ∧
                        items_error (set_items s) = None ∧ len v < 2 ^ 31
  | None => m_Set m = None
  end.
Definition msg_ok (P : MessageSet → Prop) (m : Message) : Prop :=
  (m_Version m = 0 ∧ m_Timestamp m = zero_time ∨ m_Version m = 1 ∧ time_ok (m_Timestamp m)) ∧
  0 ≤ m_Codec m ≤ CompressionZSTD ∧ value_ok P m.
Definition block_ok (P : MessageSet → Prop) (b : MessageBlock) : Prop := int_ok 64 (mb_Offset b) ∧ msg_ok P (mb_Msg b).
(** A set that can be sent, with at most [d] sets inside each other *)
Fixpoint set_ok (d : nat) (s : MessageSet) : Prop :=
  PartialTrailingMessage s = false ∧ OverflowMessage s = false ∧
  Forall (block_ok (fun s => match d with O => False | S d => set_ok d s end)) (Messages s).

Section nested.
Context (decodeSet : bytes → Go (MessageSet + decode_error)) (P : MessageSet → Prop).
Hypothesis decodeSet_back : ∀ s, P s → items_error (set_items s) = None → len (bytes_of (set_items s)) < 2 ^ 31 →
  decodeSet (bytes_of (set_items s)) = Ret (inl (set_sent s)).

Lemma attributes_message m : 0 ≤ m_Codec m ≤ CompressionZSTD →
  let a := message_attributes m in
  int_ok 8 a ∧ Z.land a compressionCodecMask = m_Codec m ∧ mask_set a timestampTypeMask = m_LogAppendTime m.
Proof.
  intros Hc. unfold message_attributes, CompressionZSTD in *.
  assert (m_Codec m = 0 ∨ m_Codec m = 1 ∨ m_Codec m = 2 ∨ m_Codec m = 3 ∨ m_Codec m = 4) as Hs by lia.
  destruct Hs as [->|[->|[->|[->| ->]]]], (m_LogAppendTime m); by vm_compute.
Qed.

(** The value, through compression and the set in it *)
Lemma wire_value m : 0 ≤ m_Codec m ≤ CompressionZSTD → value_ok P m →
  wire checksum [Data (message_payload compressor m)]
    (message_value decompressor decodeSet (m_Codec m)) (m_Value m, m_Set m).
Proof using decodeSet_back decompress_compress.
  intros Hc Hv. unfold value_ok, message_payload, message_value in *. destruct (m_Value m) as [v|].
  2:{ rewrite Hv. eapply wire_cons; [done|apply wire_bytes|]. case_match; apply wire_ret. }
  unfold compress, decompress. destruct (m_Codec m =? CompressionNone) eqn:E0.
  { rewrite Hv. eapply wire_cons; [done|apply wire_bytes|]. apply wire_ret. }
  destruct Hv as (s & -> & Hs & Hsent & -> & He & Hl).
  replace ((1 <=? m_Codec m) && (m_Codec m <=? CompressionZSTD)) with true
    by (unfold CompressionNone, CompressionZSTD in *; lia).
  destruct (compressor _ _ _) as [p|] eqn:Ep; [|by intros ?].
  eapply wire_cons; [done|apply wire_bytes|]. cbv beta iota. rewrite (decompress_compress _ _ _ _ Ep).
  intros _ r _ _ pre post st _. rewrite decodeSet_back by done. cbn [gbind]. rewrite Hsent. csimpl. by rewrite Z.add_0_r.
Qed.

Lemma wire_message m : msg_ok P m →
  wire checksum [Message_items compressor m] (Message_decode checksum decompressor decodeSet) (message_sent m).
Proof using checksum_uint32 decodeSet_back decompress_compress.
  intros (Hv & Hc & Hval). destruct (attributes_message m Hc) as (Ia & E1 & E2). apply wire_field; [done|].
  assert (Hv8 : int_ok 8 (m_Version m) ∧ (1 <? m_Version m) = false).
  { destruct Hv as [[-> _]|[-> _]]; (split; [by unfold int_ok|done]). }
  unfold message_body. cbn [app]. eapply wire_cons; [done|apply wire_int8, Hv8|]. cbv beta. rewrite (proj2 Hv8).
  eapply wire_cons; [done|by apply wire_int8|]. cbv beta zeta. rewrite E1, E2.
  eapply wire_bind; [done| |].
  { instantiate (1 := m_Timestamp m). destruct Hv as [[-> ->]|[-> Ht]]; cbn [Z.leb Z.eqb Z.compare Pos.compare Pos.eqb].
    - apply wire_ret.
    - destruct (timestamp_millis _ Ht) as (n & -> & Hn & <-). by apply wire_millis. }
  eapply wire_cons; [done|apply wire_bytes|]. cbv beta.
  eapply wire_cons; [done|by apply wire_value|]. apply wire_ret.
Qed.

(** The version of the message at the front is at [magicOffset]. *)
Lemma block_front b : ∃ front back, len front = magicOffset ∧
  bytes_of (MessageBlock_items compressor b) = front ++ m_Version (mb_Msg b) mod 256 :: back.
Proof.
  unfold MessageBlock_items, Message_items. rewrite !bind_cons. cbn [render]. rewrite !bind_cons. cbn [render app].
  rewrite !bind_cons. cbn [render data_bytes field_of]. set (x := be_bytes 4 _). set (y := be_bytes 4 _).
  exists (be_bytes 8 (mb_Offset b) ++ x ++ y). eexists. split.
  - rewrite !len_app. unfold x, y. by rewrite !len_be_bytes.
  - rewrite <- !app_assoc. cbn [app]. reflexivity.
Qed.

Lemma magic_at b pre post st : m_Version (mb_Msg b) = 0 ∨ m_Version (mb_Msg b) = 1 →
  magicValue (mk_rd (pre ++ bytes_of (MessageBlock_items compressor b) ++ post) (len pre) st)
  = Ret (inl (m_Version (mb_Msg b)), mk_rd (pre ++ bytes_of (MessageBlock_items compressor b) ++ post) (len pre) st).
Proof.
  intros Hv. destruct (block_front b) as (front & back & Hf & ->).
  replace (m_Version (mb_Msg b) mod 256) with (m_Version (mb_Msg b)) by (destruct Hv as [-> | ->]; done).
  unfold magicOffset in Hf.
  unfold magicValue, peekInt8, magicOffset, remaining. cbn [rd_raw rd_off].
  pose proof (len_nonneg back). pose proof (len_nonneg post).
  rewrite (proj2 (Z.ltb_ge _ _)) by (rewrite !len_app, len_cons; lia).
  rewrite <- Hf, <- len_app, <- !app_assoc, (app_assoc pre). cbn [app]. rewrite go_index_mid. cbn [gbind].
  by replace (swrap 8 (m_Version (mb_Msg b))) with (m_Version (mb_Msg b)) by (destruct Hv as [-> | ->]; done).
Qed.

Abbreviation blocks_items l := (l ≫= MessageBlock_items compressor).
Abbreviation loop := (set_loop checksum decompressor decodeSet).

Lemma loop_block fuel acc b pre post st :
  block_ok P b → items_error (MessageBlock_items compressor b) = None →
  len (bytes_of (MessageBlock_items compressor b)) + len post < 2 ^ 31 →
  loop (S fuel) acc (mk_rd (pre ++ bytes_of (MessageBlock_items compressor b) ++ post) (len pre) st)
  = loop fuel (acc ++ [block_sent b])
      (mk_rd ((pre ++ bytes_of (MessageBlock_items compressor b)) ++ post)
         (len (pre ++ bytes_of (MessageBlock_items compressor b))) st).
Proof using checksum_uint32 decodeSet_back decompress_compress.
  intros [Ho Hm] He Hlen. set (B1 := bytes_of (MessageBlock_items compressor b)) in *.
  assert (Hw : wire checksum (MessageBlock_items compressor b)
    (get* o := getInt64 in get* m := block_message checksum decompressor decodeSet in rd_ret (mk_block o m)) (block_sent b)).
  { eapply wire_cons; [done|by apply wire_int64|]. cbv beta.
    apply (wire_map _ _ _ _ (mk_block (mb_Offset b))), wire_field; [done|]. by apply wire_message. }
  pose proof (len_nonneg post).
  specialize (Hw He (len post) ltac:(lia) ltac:(fold B1; lia) pre post st eq_refl). fold B1 in Hw.
  assert (Hv : m_Version (mb_Msg b) = 0 ∨ m_Version (mb_Msg b) = 1) by (destruct Hm as [[[? _]|[? _]] _]; auto).
  pose proof (magic_at b pre post st Hv) as Hmagic. fold B1 in Hmagic.
  assert (HB : 16 < len B1).
  { destruct (block_front b) as (front & back & Hf & E). unfold B1. rewrite E, len_app, len_cons, Hf.
    pose proof (len_nonneg back). unfold magicOffset. lia. }
  cbn [set_loop]. unfold remaining. cbn [rd_raw rd_off]. rewrite !len_app.
  replace (0 <? len pre + (len B1 + len post) - len pre) with true by lia. cbn [negb].
  rewrite Hmagic. cbn [gbind]. replace (1 <? m_Version (mb_Msg b)) with false by (destruct Hv as [-> | ->]; done).
  unfold rd_bind in Hw.
  destruct (getInt64 _) as [[[o|e] rd1]|] eqn:E1; cbn [gbind fst] in *; [|done|done].
  destruct (block_message _ _ _ rd1) as [[[m|e] rd2]|] eqn:E2; cbn [gbind] in *; [|done|done].
  unfold rd_ret in Hw. assert (mk_block o m = block_sent b ∧ rd2 = mk_rd (pre ++ B1 ++ post) (len pre + len B1) st) as [-> ->]
    by (split; congruence). by rewrite <- !app_assoc.
Qed.

Lemma loop_blocks blocks : ∀ fuel acc pre post st,
  Forall (block_ok P) blocks →
  items_error (blocks_items blocks) = None → len (bytes_of (blocks_items blocks)) + len post < 2 ^ 31 →
  loop (length blocks + fuel) acc (mk_rd (pre ++ bytes_of (blocks_items blocks) ++ post) (len pre) st)
  = loop fuel (acc ++ (block_sent <$> blocks))
      (mk_rd ((pre ++ bytes_of (blocks_items blocks)) ++ post) (len (pre ++ bytes_of (blocks_items blocks))) st).
Proof using checksum_uint32 decodeSet_back decompress_compress.
  induction blocks as [|b blocks IH]; intros fuel acc pre post st Hok He Hl; [csimpl; by rewrite !app_nil_r|].
  apply Forall_cons in Hok as [Hb Hok]. rewrite !bind_cons in *. apply items_error_app in He as [He1 He]. rewrite bind_app in *.
  rewrite len_app in Hl. pose proof (len_nonneg (bytes_of (MessageBlock_items compressor b))). cbn [length Nat.add].
  rewrite <- !(assoc_L (++) (bytes_of _)), loop_block by (done || rewrite ?len_app; lia).
  rewrite IH by (done || lia). rewrite <- !app_assoc. done.
Qed.

Lemma blocks_count l : (length l ≤ length (bytes_of (l ≫= MessageBlock_items compressor)))%nat.
Proof.
  pose proof (len_bytes_of checksum (MessageBlock_items compressor <$> l)) as Hl.
  unfold len in Hl. rewrite <- bind_join, length_fmap in Hl.
  cut (Z.of_nat (length l) ≤ Z.of_nat (length (bytes_of (l ≫= MessageBlock_items compressor)))); [lia|].
  apply Hl, Forall_fmap, Forall_true. intros b E. destruct (block_front b) as (front & back & _ & Eb).
  rewrite Eb in E. by destruct front.
Qed.

(** Where a set ends: at the end of the data, or before a record batch *)
Definition ends (post : bytes) : Prop :=
  post = [] ∨ ∀ pre st, ∃ magic, 1 < magic ∧
    magicValue (mk_rd (pre ++ post) (len pre) st) = Ret (inl magic, mk_rd (pre ++ post) (len pre) st).
Lemma loop_ends fuel acc pre post st : ends post →
  loop (S fuel) acc (mk_rd (pre ++ post) (len pre) st) = Ret (inl (mk_set false false acc), mk_rd (pre ++ post) (len pre) st).
Proof.
  intros He. cbn [set_loop]. unfold remaining. cbn [rd_raw rd_off]. rewrite len_app.
  destruct (Z.ltb_spec 0 (len pre + len post - len pre)) as [Hp|_]; cbn [negb]; [|done].
  destruct He as [->|Hm]; [unfold len in Hp; simpl in Hp; lia|]. destruct (Hm pre st) as (magic & Hgt & ->). cbn [gbind].
  by rewrite (proj2 (Z.ltb_lt _ _) Hgt).
Qed.

Lemma set_decode_back s pre post st :
  PartialTrailingMessage s = false → OverflowMessage s = false →
  Forall (block_ok P) (Messages s) → ends post →
  items_error (set_items s) = None → len (bytes_of (set_items s)) + len post < 2 ^ 31 →
  set_decode checksum decompressor decodeSet (mk_rd (pre ++ bytes_of (set_items s) ++ post) (len pre) st)
  = Ret (inl (set_sent s), mk_rd (pre ++ bytes_of (set_items s) ++ post) (len (pre ++ bytes_of (set_items s))) st).
Proof using checksum_uint32 decodeSet_back decompress_compress.
  intros Hp Ho Hb Hpost He Hl. unfold set_decode, set_sent. rewrite Hp, Ho. unfold MessageSet_items in *.
  set (l := Messages s) in *. pose proof (blocks_count l) as Hc. unfold remaining. cbn [rd_raw rd_off].
  assert (∃ n, S (Z.to_nat (len (pre ++ bytes_of (blocks_items l) ++ post) - len pre)) = (length l + S n)%nat) as [n ->].
  { rewrite !len_app. unfold len. exists (length (bytes_of (blocks_items l)) + length post - length l)%nat. lia. }
  rewrite (loop_blocks l (S n) [] pre post st Hb He Hl), loop_ends by done. by rewrite <- app_assoc.
Qed.

(** ** A set that was cut off *)

Lemma app_split (x y t u : bytes) : x ++ y = t ++ u → len x ≤ len t → ∃ z, t = x ++ z ∧ y = z ++ u.
Proof.
  intros E Hl. exists (drop (length x) t). assert (t = x ++ drop (length x) t) as Et.
  { rewrite <- (take_drop (length x) t) at 1. f_equal. apply (f_equal (take (length x))) in E.
    rewrite take_app_length, take_app_le in E by (unfold len in *; lia). by symmetry. }
  split; [done|]. rewrite Et, <- app_assoc in E. by apply app_inv_head in E.
Qed.

Lemma magic_cut b t u pre st :
  m_Version (mb_Msg b) = 0 ∨ m_Version (mb_Msg b) = 1 → bytes_of (MessageBlock_items compressor b) = t ++ u → 17 ≤ len t →
  magicValue (mk_rd (pre ++ t) (len pre) st) = Ret (inl (m_Version (mb_Msg b)), mk_rd (pre ++ t) (len pre) st).
Proof.
  intros Hv E Hs. destruct (block_front b) as (front & back & Hf & Eb). unfold magicOffset in Hf. rewrite E in Eb.
  destruct (app_split front (m_Version (mb_Msg b) mod 256 :: back) t u) as (z & Et & Ez); [done|lia|].
  destruct z as [|v z]; [rewrite app_nil_r in Et; subst t; lia|]. injection Ez as Ev Eback.
  unfold magicValue, peekInt8, remaining, magicOffset. cbn [rd_raw rd_off]. rewrite len_app.
  replace (_ <? 16 + 1) with false by lia. rewrite Et, <- Hf, <- len_app, app_assoc, go_index_mid. cbn [gbind]. rewrite <- Ev.
  by destruct Hv as [-> | ->].
Qed.

(** A part [t] of the message [b] *)
Lemma loop_cut fuel acc b t u pre st :
  block_ok P b → bytes_of (MessageBlock_items compressor b) = t ++ u →
  len (t ++ u) < 2 ^ 31 → t ≠ [] → u ≠ [] → mb_Offset b ≠ -1 →
  ∃ rd, loop (S fuel) acc (mk_rd (pre ++ t) (len pre) st) = Ret (inl (mk_set true false acc), rd).
Proof.
  intros [Ho Hm] E Hlen Ht Hu Hoff. cbn [set_loop]. unfold remaining. cbn [rd_raw rd_off]. rewrite len_app.
  assert (0 < len t) by (destruct t; [done|]; rewrite len_cons; pose proof (len_nonneg t); lia).
  assert (0 < len u) by (destruct u; [done|]; rewrite len_cons; pose proof (len_nonneg u); lia).
  replace (0 <? len pre + len t - len pre) with true by lia. cbn [negb].
  assert (Hv : m_Version (mb_Msg b) = 0 ∨ m_Version (mb_Msg b) = 1) by (destruct Hm as [[[? _]|[? _]] _]; auto).
  destruct (Z.ltb_spec (len t) 17) as [Hs|Hs].
  { unfold magicValue, peekInt8, remaining, magicOffset. cbn [rd_raw rd_off]. rewrite len_app.
    replace (_ <? 16 + 1) with true by lia. cbn [gbind]. by eexists. }
  rewrite (magic_cut b t u pre st Hv E Hs). cbn [gbind]. replace (1 <? m_Version (mb_Msg b)) with false by (destruct Hv as [-> | ->]; done).
  set (M := bytes_of [Message_items compressor (mb_Msg b)]).
  assert (EB : bytes_of (MessageBlock_items compressor b) = (be_bytes 8 (mb_Offset b) ++ be_bytes 4 (len M)) ++ M).
  { unfold MessageBlock_items, M. rewrite !bind_cons. cbn [render data_bytes field_of]. fold M. by rewrite app_nil_r, <- app_assoc. }
  destruct (app_split (be_bytes 8 (mb_Offset b) ++ be_bytes 4 (len M)) M t u) as (t2 & -> & EM);
    [congruence|rewrite len_app, !len_be_bytes; lia|].
  assert (Hint : getInt64 (mk_rd (pre ++ (be_bytes 8 (mb_Offset b) ++ be_bytes 4 (len M)) ++ t2) (len pre) st) =
    Ret (inl (mb_Offset b), mk_rd (pre ++ (be_bytes 8 (mb_Offset b) ++ be_bytes 4 (len M)) ++ t2) (len pre + 8) st)).
  { rewrite <- app_assoc. rewrite (reads_int (len (be_bytes 4 (len M) ++ t2)) 8); [by rewrite len_be_bytes|lia|by apply int_ok_swrap|done]. }
  rewrite Hint. cbn [gbind fst]. unfold block_message, in_field. unfold rd_bind at 1, rd_push, rd_bind at 1.
  assert (Hlen4 : len pre + 8 = len (pre ++ be_bytes 8 (mb_Offset b))) by (by rewrite len_app, len_be_bytes).
  rewrite Hlen4, <- (app_assoc (be_bytes 8 _)), app_assoc.
  pose proof (f_equal len EM) as HM. rewrite len_app in HM. rewrite !len_app, !len_be_bytes in Hlen. pose proof (len_nonneg t2).
  rewrite (reads_int (len t2) 4 (len M)); [|lia|apply int_ok_swrap; [done|unfold int_ok; simpl in *; lia]|done].
  cbn [gbind]. unfold remaining. cbn [rd_raw rd_off]. rewrite !len_app, len_be_bytes.
  rewrite swrap_small by (simpl in *; lia). rewrite (proj2 (Z.ltb_lt _ (len M))) by lia. cbn [gbind].
  rewrite (proj2 (Z.eqb_neq _ _) Hoff). by eexists.
Qed.

Lemma set_decode_cut s b t u :
  Forall (block_ok P) (Messages s) → block_ok P b → mb_Offset b ≠ -1 →
  bytes_of (MessageBlock_items compressor b) = t ++ u → t ≠ [] → u ≠ [] →
  items_error (set_items s) = None → len (bytes_of (set_items s) ++ t ++ u) < 2 ^ 31 →
  ∃ rd, set_decode checksum decompressor decodeSet (mk_rd (bytes_of (set_items s) ++ t) 0 [])
    = Ret (inl (mk_set true false (block_sent <$> Messages s)), rd).
Proof using checksum_uint32 decodeSet_back decompress_compress.
  intros Hs Hb Ho E Ht Hu He Hl. unfold set_decode, MessageSet_items in *. set (l := Messages s) in *.
  pose proof (blocks_count l) as Hc. rewrite !len_app in Hl. pose proof (len_nonneg (bytes_of (blocks_items l))). pose proof (len_nonneg u).
  assert (0 < length t)%nat by (destruct t; [done|simpl; lia]).
  unfold remaining. cbn [rd_raw rd_off]. rewrite Z.sub_0_r, len_to_nat.
  replace (S (length (bytes_of (blocks_items l) ++ t))) with
    (length l + S (length (bytes_of (blocks_items l) ++ t) - length l))%nat by (rewrite length_app in *; lia).
  pose proof (loop_blocks l (S (length (bytes_of (blocks_items l) ++ t) - length l)) [] [] t [] Hs He ltac:(lia)) as Hloop.
  cbn [app] in Hloop. change (len (@nil Z)) with 0 in Hloop. rewrite Hloop.
  apply (loop_cut _ _ b t u); auto. rewrite len_app. lia.
Qed.
End nested.

(** The sets inside the messages, one level down *)
Definition inner (d : nat) (v : bytes) : Go (MessageSet + decode_error) :=
  match d with
  | O => Panic StackOverflow
  | S d => let* r := MessageSet_decode checksum decompressor d (mk_rd v 0 []) in Ret r.1
  end.
Definition inner_ok (d : nat) (s : MessageSet) : Prop := match d with O => False | S d => set_ok d s end.
Lemma decode_inner d rd : MessageSet_decode checksum decompressor d rd = set_decode checksum decompressor (inner d) rd.
Proof. by destruct d. Qed.
Lemma set_ok_inner d s : set_ok d s →
  PartialTrailingMessage s = false ∧ OverflowMessage s = false ∧ Forall (block_ok (inner_ok d)) (Messages s).
Proof. by destruct d. Qed.

(** A set that can be sent is read back from the end of the data. *)
Lemma inner_back d : ∀ s, inner_ok d s → items_error (set_items s) = None → len (bytes_of (set_items s)) < 2 ^ 31 →
  inner d (bytes_of (set_items s)) = Ret (inl (set_sent s)).
Proof using checksum_uint32 decompress_compress.
  induction d as [|d IH]; intros s; [done|]. intros Hok He Hl. cbn [inner]. rewrite decode_inner.
  apply set_ok_inner in Hok as (Hp & Ho & Hb).
  pose proof (set_decode_back (inner d) (inner_ok d) IH s [] [] [] Hp Ho Hb (or_introl eq_refl) He) as Hd.
  rewrite app_nil_r, Z.add_0_r in Hd. cbn [app] in Hd. change (len (@nil Z)) with 0 in Hd. by rewrite Hd.
Qed.
Lemma set_back d s pre post st :
  set_ok d s → ends post → items_error (set_items s) = None → len (bytes_of (set_items s)) + len post < 2 ^ 31 →
  MessageSet_decode checksum decompressor d (mk_rd (pre ++ bytes_of (set_items s) ++ post) (len pre) st)
  = Ret (inl (set_sent s), mk_rd (pre ++ bytes_of (set_items s) ++ post) (len (pre ++ bytes_of (set_items s))) st).
Proof using checksum_uint32 decompress_compress.
  intros (Hp & Ho & Hb)%set_ok_inner Hpost He Hl. rewrite decode_inner.
  apply (set_decode_back _ (inner_ok d)); auto using inner_back.
Qed.

(** From a message set that the server cut off inside its last message the decoder
    returns all whole messages and the flag PartialTrailingMessage, wherever the cut is. *)
Theorem cut_set d s b t u :
  set_ok d s → set_ok d (mk_set false false [b]) → mb_Offset b ≠ -1 →
  bytes_of (MessageBlock_items compressor b) = t ++ u → t ≠ [] → u ≠ [] →
  items_error (set_items s) = None → len (bytes_of (set_items s) ++ t ++ u) < 2 ^ 31 →
  ∃ rd, MessageSet_decode checksum decompressor d (mk_rd (bytes_of (set_items s) ++ t) 0 [])
    = Ret (inl (mk_set true false (block_sent <$> Messages s)), rd).
Proof using checksum_uint32 decompress_compress.
  intros (_ & _ & Hs)%set_ok_inner (_ & _ & Hb)%set_ok_inner Ho E Ht Hu He Hl. apply Forall_cons in Hb as [Hb _].
  rewrite decode_inner. apply (set_decode_cut _ (inner_ok d) (inner_back d) _ b t u); auto.
Qed.

Lemma set_message_ok s : message_ok (set_items s) = true.
Proof.
  unfold message_ok, MessageSet_items.
  assert (∀ t, forallb item_ok (Timestamp_items t) = true ∧ (Timestamp_items t ≫= refs) = []) as Ht.
  { intros t. unfold Timestamp_items. repeat case_match; done. }
  assert (∀ m, item_ok (Message_items compressor m) = true ∧ refs (Message_items compressor m) = []) as Hm.
  { intros m. assert (is_data (message_payload compressor m) = true) as Hp by (unfold message_payload; repeat case_match; done).
    unfold Message_items. cbn [item_ok refs app]. destruct (1 <=? m_Version m); [destruct (Ht (m_Timestamp m)) as [H1 H2]|].
    - cbn. rewrite forallb_app, H1, bind_app, H2. cbn. by rewrite Hp.
    - cbn. by rewrite Hp. }
  apply andb_true_iff. split.
  - apply forallb_forall. intros i Hi. apply list_elem_of_In, list_elem_of_bind in Hi as (b & Hi & _).
    unfold MessageBlock_items in Hi. rewrite !elem_of_cons in Hi. destruct Hi as [->|[->|Hi]]; [done| |by apply elem_of_nil in Hi].
    cbn [item_ok forallb]. by rewrite (proj1 (Hm _)).
  - apply bool_decide_eq_true. assert (((Messages s ≫= MessageBlock_items compressor) ≫= refs) = []) as ->; [|apply NoDup_nil_2].
    induction (Messages s) as [|b l IH]; [done|]. rewrite bind_cons, bind_app, IH, app_nil_r.
    unfold MessageBlock_items. rewrite !bind_cons. cbn [refs app]. rewrite bind_cons. by rewrite (proj2 (Hm _)).
Qed.

(** C34: A message set whose messages have version 0 and no time, or version 1 and a time from
    1970 on in whole milliseconds (or none), and whose compressed messages have as their value
    the encoding of the set inside them, is encoded to bytes that MessageSet.decode reads back
    as the same messages in order, through checksums, compression and the sets inside
    compressed messages, or the encoder reports what is too long. *)
Theorem message_set_roundtrip h d ms :
  set_ok d ms →
  ∃ r, encode checksum h (set_items ms ≫= calls) = Ret r ∧
    match r with
    | inl buf => decode (MessageSet_decode checksum decompressor d) buf = Ret (inl (set_sent ms))
    | inr e => items_error (set_items ms) = Some e ∨ e = InvalidRequestSize ∧ MaxRequestSize < len (bytes_of (set_items ms))
    end.
Proof using checksum_uint32 decompress_compress.
  intros Hok. rewrite encode_shape by apply set_message_ok. eexists. split; [done|].
  destruct (items_error (set_items ms)) eqn:He; [by left|].
  destruct (Z.ltb_spec MaxRequestSize (len (bytes_of (set_items ms)))) as [|Hs]; [by right|].
  unfold decode. pose proof (set_back d ms [] [] [] Hok (or_introl eq_refl) He ltac:(change (len (@nil Z)) with 0; unfold MaxRequestSize in *; simpl; lia)) as Hb.
  rewrite app_nil_r in Hb. cbn [app] in Hb.
  change (len (@nil Z)) with 0 in Hb. rewrite Hb. cbn [gbind rd_off]. by rewrite Z.eqb_refl.
Qed.
End messages.

(** ** Examples *)

(** A message of version 1, and a compressed one that holds it *)
Definition plain_message : Message := mk_message 0 0 false (Some (B "k")) (Some (B "select 1")) None 1 1500000000000000000.
Definition plain_set : MessageSet := mk_set false false [mk_block 0 plain_message].
Definition sample_set : MessageSet :=
  mk_set false false
    [mk_block 41 (mk_message 2 (-1000) false None
       (Some (MessageSet_items reversing plain_set ≫= render sample_checksum)) (Some plain_set) 1 1500000000000000000);
     mk_block 42 plain_message].

Lemma plain_ok P : msg_ok sample_checksum reversing P plain_message.
Proof. split_and!; [right; split; [done|right; split; [by split|done]]|done|done|done]. Qed.
Lemma sample_set_ok : set_ok sample_checksum reversing 1 sample_set.
Proof.
  assert (Hp : set_ok sample_checksum reversing 0 plain_set).
  { split_and!; [done|done|]. apply Forall_cons_2, Forall_nil_2. split; [by split|apply plain_ok]. }
  split_and!; [done|done|]. apply Forall_cons_2, Forall_cons_2, Forall_nil_2; (split; [by split|]); [|apply plain_ok].
  split_and!; [right; split; [done|right; split; [by split|done]]|done|done|].
  exists plain_set. split_and!; [done|exact Hp|done|done|vm_compute; reflexivity|vm_compute; reflexivity].
Qed.

Lemma message_set_roundtrip_witness :
  ∃ r, encode sample_checksum ∅ (MessageSet_items reversing sample_set ≫= calls) = Ret r ∧
    match r with
    | inl buf => decode (MessageSet_decode sample_checksum unreversing 1) buf = Ret (inl (set_sent sample_set))
    | inr e => items_error (MessageSet_items reversing sample_set) = Some e ∨
        e = InvalidRequestSize ∧ MaxRequestSize < len (MessageSet_items reversing sample_set ≫= render sample_checksum)
    end.
Proof.
  apply (message_set_roundtrip _ sample_checksum_uint32 _ _ reversing_back ∅ 1 sample_set). exact sample_set_ok.
Defined.

(** The last message is cut after 20 of its bytes. *)
Lemma cut_set_witness :
  let all := MessageBlock_items reversing (mk_block 43 plain_message) ≫= render sample_checksum in
  ∃ rd, MessageSet_decode sample_checksum unreversing 1
      (mk_rd ((MessageSet_items reversing sample_set ≫= render sample_checksum) ++ take 20 all) 0 [])
    = Ret (inl (mk_set true false (block_sent <$> Messages sample_set)), rd).
Proof.
  intros all. refine (cut_set _ sample_checksum_uint32 _ _ reversing_back 1 sample_set (mk_block 43 plain_message)
    (take 20 all) (drop 20 all) sample_set_ok _ _ _ _ _ _ _).
  - split_and!; [done|done|]. apply Forall_cons_2, Forall_nil_2. split; [by split|apply plain_ok].
  - done.
  - symmetry. apply take_drop.
  - vm_compute. discriminate.
  - vm_compute. discriminate.
  - vm_compute. reflexivity.
  - vm_compute. reflexivity.
Defined.
