(* ===== verification/KafkaMessageSafety.v ===== *)
(** * Message sets from anywhere

    Whatever the bytes, reading a message set ends and does not panic, except that sets inside
    sets can exhaust the stack.  [may p]: a computation that returns or panics with [p]. *)

From S2P Require Import Prelude GoStrings KafkaCodec KafkaProps KafkaDecoder KafkaDecoderProps KafkaDecoderSafety.
From S2P Require Import KafkaRecord KafkaMessage.

Definition may {A} (p : panic) (m : Go A) (Q : A → Prop) : Prop :=
  match m with Ret a => Q a | Panic q => q = p end.
Lemma may_wp {A} p (m : Go A) Q : wp m Q → may p m Q.
Proof. by destruct m. Qed.
Lemma may_bind {A C} p (m : Go A) (k : A → Go C) Q : may p m (fun a => may p (k a) Q) → may p (let* x := m in k x) Q.
Proof. by destruct m. Qed.
Lemma may_mono {A} p (m : Go A) (P Q : A → Prop) : may p m P → (∀ a, P a → Q a) → may p m Q.
Proof. destruct m; simpl; auto. Qed.

Definition safe_or {A} (p : panic) (m : rd_get A) (P : A → Prop) : Prop := ∀ rd, rd_ok rd → may p (m rd) (post rd P).
Lemma safe_or_safe {A} p (m : rd_get A) P : safe m P → safe_or p m P.
Proof. intros Hm rd Hrd. by apply may_wp, Hm. Qed.
Lemma safe_or_bind {A C} p (m : rd_get A) (k : A → rd_get C) P Q :
  safe_or p m P → (∀ a, P a → safe_or p (k a) Q) → safe_or p (rd_bind m k) Q.
Proof.
  intros Hm Hk rd Hrd. unfold rd_bind. apply may_bind. eapply may_mono; [by apply Hm|].
  intros [[a|e] rd'] Hp; [|done]. pose proof Hp as (Hraw & Hoff & Hst & Ha). cbn [fst snd] in *.
  eapply may_mono; [by eapply Hk, rd_ok_moved|]. intros r. apply post_lift; [done|lia|done].
Qed.

Section messages.
Context (checksum : crcPolynomial → bytes → Z) (decompressor : Z → bytes → option bytes).
Hypothesis decompressor_bytes : ∀ cc v w, bytes_ok v → decompressor cc v = Some w → bytes_ok w.

Lemma safe_or_field {A} p f (m : rd_get A) P : safe_or p m P → safe_or p (in_field checksum f m) P.
Proof.
  intros Hm rd Hrd. unfold in_field. unfold rd_bind at 1. apply may_bind. eapply may_mono; [by apply may_wp, push_wp|].
  intros [[[]|e] rd1] (H1 & Hraw1 & Hoff1); cbn [fst snd] in *; [|done]. destruct H1 as (o & l & -> & Hbe). cbn [rd_raw rd_off] in *.
  unfold rd_bind at 1. apply may_bind. eapply may_mono; [apply Hm; destruct Hrd; split; simpl; [done|lia]|].
  intros [[vs|e] rd2] (Hraw2 & Hoff2 & H2); cbn [fst snd rd_raw rd_off rd_stack] in *.
  2:{ split; [done|]. split; [simpl; lia|done]. }
  destruct H2 as [Hst HP]. unfold rd_bind, rd_pop. apply may_bind. rewrite Hst. apply may_bind. rewrite Hraw2.
  destruct Hrd as [_ Ho]. apply may_wp, check_wp; [lia|destruct f; simpl in *; lia|lia|]. intros e.
  destruct e as [e|]; simpl; (split; [done|]; split; [simpl; lia|done]).
Qed.

Lemma safe_getBytes : safe getBytes opt_ok.
Proof. eapply safe_sized, (safe_int 4). lia. Qed.
Lemma safe_timestamp : safe Timestamp_decode (fun _ => True).
Proof. eapply safe_bind; [apply (safe_int 8); lia|]. intros n _. by apply safe_ret. Qed.

(** After a set: the same data, an offset that has not gone back *)
Definition ahead {A} (rd : realDecoder) (r : A * realDecoder) : Prop :=
  rd_raw r.2 = rd_raw rd ∧ rd_off rd ≤ rd_off r.2 ≤ len (rd_raw rd).

Section nested.
Context (decodeSet : bytes → Go (MessageSet + decode_error)).
Hypothesis decodeSet_may : ∀ v, bytes_ok v → may StackOverflow (decodeSet v) (fun _ => True).

Lemma safe_value codec : safe_or StackOverflow (message_value decompressor decodeSet codec) (fun _ => True).
Proof using decodeSet_may decompressor_bytes.
  eapply safe_or_bind; [apply safe_or_safe, safe_getBytes|]. intros v Hv. cbv beta.
  destruct (codec =? CompressionNone); [by apply safe_or_safe, safe_ret|].
  destruct v as [v|]; [|by apply safe_or_safe, safe_ret]. unfold decompress.
  destruct (codec =? CompressionNone); [|destruct (_ && _); [destruct (decompressor codec v) as [w|] eqn:E|]].
  all: try by apply safe_or_safe, safe_fail.
  all: intros rd [Hb Ho]; apply may_bind; eapply may_mono; [apply decodeSet_may; eauto|].
  all: intros [s|e] _; simpl; (split; [done|split; [simpl; lia|done]]).
Qed.

Lemma safe_message : safe_or StackOverflow (Message_decode checksum decompressor decodeSet) (fun _ => True).
Proof using decodeSet_may decompressor_bytes.
  apply safe_or_field. eapply safe_or_bind; [apply safe_or_safe, (safe_int 1); lia|]. intros version _. cbv beta.
  destruct (1 <? version); [by apply safe_or_safe, safe_fail|].
  eapply safe_or_bind; [apply safe_or_safe, (safe_int 1); lia|]. intros attribute _. cbv beta zeta.
  eapply safe_or_bind; [instantiate (1 := fun _ => True); destruct (version =? 1);
    [apply safe_or_safe, safe_timestamp|by apply safe_or_safe, safe_ret]|]. intros t _.
  eapply safe_or_bind; [apply safe_or_safe, safe_getBytes|]. intros key _.
  eapply safe_or_bind; [apply safe_value|]. intros [v s] _. by apply safe_or_safe, safe_ret.
Qed.

(** [getInt64] moves by eight bytes, so every message of the loop makes progress. *)
Lemma int64_moves rd : rd_ok rd →
  wp (getInt64 rd) (fun r => rd_raw r.2 = rd_raw rd ∧ rd_off rd ≤ rd_off r.2 ≤ len (rd_raw rd) ∧
    match r.1 with inl _ => rd_off r.2 = rd_off rd + 8 | inr _ => True end).
Proof.
  intros [Hb Ho]. unfold getInt64, get_int, rd_bind, get_uint. destruct (remaining rd <? Z.of_nat 8) eqn:E.
  - cbn. split_and!; (done || lia).
  - apply Z.ltb_ge in E. unfold remaining in E. apply wp_bind, wp_bind, wp_go_slice; [lia..|]. apply wp_ret. cbn. split_and!; (done || lia).
Qed.

Lemma magic_wp rd : rd_ok rd → wp (magicValue rd) (fun r => r.2 = rd).
Proof.
  intros [Hb Ho]. unfold magicValue, peekInt8, magicOffset. destruct (remaining rd <? 16 + 1) eqn:E; [done|].
  apply Z.ltb_ge in E. unfold remaining in E. apply wp_bind, wp_go_index; [lia|done].
Qed.

Lemma loop_may fuel : ∀ blocks rd, rd_ok rd → (Z.to_nat (remaining rd) < fuel)%nat →
  may StackOverflow (set_loop checksum decompressor decodeSet fuel blocks rd) (ahead rd).
Proof using decodeSet_may decompressor_bytes.
  induction fuel as [|fuel IH]; intros blocks rd Hrd Hf; [lia|]. pose proof Hrd as [Hb Ho]. cbn [set_loop].
  destruct (0 <? remaining rd) eqn:Er; cbn [negb]; [|by repeat split; simpl; lia].
  apply may_bind. eapply may_mono; [by apply may_wp, magic_wp|]. intros [[magic|e] rd0] E; cbn [snd] in E; subst rd0.
  2:{ destruct e; by repeat split; simpl; lia. }
  destruct (1 <? magic); [by repeat split; simpl; lia|].
  apply may_bind. eapply may_mono; [by apply may_wp, int64_moves|].
  intros [[o|e] rd1] (Hraw1 & Hoff1 & H8); cbn [fst snd] in *; apply may_bind.
  2:{ destruct e; cbn; (split; [done|cbn; lia]). }
  eapply may_mono; [apply safe_or_field; [apply safe_message|split; rewrite Hraw1; [done|lia]]|].
  intros [[msg|e] rd2] (Hraw2 & Hoff2 & _); cbn [fst snd] in *; rewrite Hraw1 in *.
  - eapply may_mono; [apply IH; [split; rewrite Hraw2; [done|lia]|unfold remaining in *; rewrite Hraw2; lia]|].
    intros r (H1 & H2). split; [congruence|]. rewrite Hraw2 in H2. lia.
  - destruct e; cbn; (split; [done|cbn; lia]).
Qed.
End nested.

(** C35: Reading a message set ends on arbitrary bytes, without a panic other than a stack
    exhausted by sets inside sets, and leaves the offset in the data. *)
Theorem set_from_anywhere d rd :
  rd_ok rd → may StackOverflow (MessageSet_decode checksum decompressor d rd) (ahead rd).
Proof using decompressor_bytes.
  revert rd. induction d as [|d IH]; intros rd Hrd; cbn [MessageSet_decode]; unfold set_decode;
    (apply loop_may; [intros v Hv|done|lia]); [done|].
  apply may_bind. eapply may_mono; [apply IH; split; simpl; [done|pose proof (len_nonneg v); lia]|]. done.
Qed.
End messages.

(** Bytes that are no message set *)
Lemma set_from_anywhere_witness :
  let rd := mk_rd (replicate 40 1) 0 [] in
  may StackOverflow (MessageSet_decode sample_checksum (fun _ v => Some v) 3 rd) (ahead rd).
Proof.
  apply (set_from_anywhere sample_checksum (fun _ v => Some v)).
  - intros cc v w Hv E. injection E as <-. exact Hv.
  - split; [apply Forall_replicate; unfold byte_ok; lia|vm_compute; split; discriminate].
Defined.
