(* ===== verification/KafkaPartitioner.v ===== *)
(** * [kafka/partitioner.go]: the choice of a partition

    The partitioners as functions from their state.  The hash of a [hashPartitioner] is
    FNV-1a unless another one is given; the random generator is a parameter with the bound that
    [rand.Intn] documents. *)

From S2P Require Import Prelude GoStrings KafkaDecoderProps KafkaDecoderSafety KafkaRecord.

(** [type Encoder interface]: the bytes, or an error; [Length] must return the length of the bytes,
    and is any number when there are none. *)
Inductive Encoder := Encoded (b : bytes) | EncodeError (length : Z).
Definition Length (e : Encoder) : Z := match e with Encoded b => len b | EncodeError n => n end.
(** [type ProducerMessage struct] without [Metadata] and [expectation], which the producer only
    passes through *)
Record ProducerMessage := mk_pm {
  Topic : bytes; pm_Key : option Encoder; pm_Value : option Encoder; pm_Headers : option (list RecordHeader);
  pm_Offset : Z; pm_Partition : Z; pm_Timestamp : Z; retries : Z; pm_flags : Z; sequenceNumber : Z }.

Inductive partition_error := ErrEncode.
(** [(int32, error)] *)
Abbreviation choice := (Z * option partition_error)%type.

(** Go's [%] on [int32]; a zero divisor panics. *)
Definition rem32 (a n : Z) : Go Z := if n =? 0 then Panic DivideByZero else Ret (Z.rem a n).

(** [hash/fnv]: [New32a], [Reset], [Write], [Sum32] *)
Definition fnv32a (b : bytes) : Z :=
  fold_left (fun hash c => uwrap 32 (Z.lxor hash c * 16777619)) b 2166136261.

(** [func (p *manualPartitioner) Partition] *)
Definition manual_Partition (message : ProducerMessage) (numPartitions : Z) : choice := (pm_Partition message, None).

(** [type roundRobinPartitioner struct] is its field [partition]. *)
Definition roundRobin_Partition (partition numPartitions : Z) : choice * Z :=
  let partition := if numPartitions <=? partition then 0 else partition in
  ((partition, None), swrap 32 (partition + 1)).

Section random.
(** [p.generator.Intn(n)] with the generator before and after; it panics for [n <= 0]. *)
Context {G : Type} (Intn : G → Z → Z * G).
Hypothesis Intn_bound : ∀ g n, 0 < n → 0 ≤ (Intn g n).1 < n.

(** [func (p *randomPartitioner) Partition] *)
Definition random_Partition (g : G) (numPartitions : Z) : Go (choice * G) :=
  if numPartitions <=? 0 then Panic ExplicitPanic
  else let (n, g) := Intn g numPartitions in Ret ((swrap 32 n, None), g).

(** [func (p *hashPartitioner) Partition]: [hasher] is [Sum32] after [Reset] and [Write]. *)
Definition hash_Partition (hasher : bytes → Z) (referenceAbs : bool) (g : G) (message : ProducerMessage)
    (numPartitions : Z) : Go (choice * G) :=
  match pm_Key message with
  | None => random_Partition g numPartitions
  | Some (EncodeError _) => Ret ((-1, Some ErrEncode), g)
  | Some (Encoded b) =>
      let sum := swrap 32 (hasher b) in
      let* partition :=
        if referenceAbs then rem32 (Z.land sum 0x7fffffff) numPartitions
        else let* partition := rem32 sum numPartitions in
             Ret (if partition <? 0 then swrap 32 (- partition) else partition) in
      Ret ((partition, None), g)
  end.

(** [RequiresConsistency] and [MessageRequiresConsistency] *)
Definition hash_RequiresConsistency : bool := true.
Definition MessageRequiresConsistency (message : ProducerMessage) : bool :=
  match pm_Key message with None => false | Some _ => true end.

(** ** Construction

    [type hashPartitioner struct]; its fallback is a generator of its own or, after
    [WithCustomFallbackPartitioner], the partitioner itself. *)
Inductive fallback := Generator | Itself.
Record hashPartitioner := mk_hp { hp_random : fallback; hp_hasher : bytes → Z; hp_referenceAbs : bool }.

(** [type HashPartitionerOption func(hashPartitioner)] and the options *)
Abbreviation HashPartitionerOption := (hashPartitioner → hashPartitioner).
Definition WithAbsFirst : HashPartitionerOption := fun hp => mk_hp (hp_random hp) (hp_hasher hp) true.
Definition WithCustomHashFunction (hasher : bytes → Z) : HashPartitionerOption := fun hp =>
  mk_hp (hp_random hp) hasher (hp_referenceAbs hp).
(** The argument is not used: the option sets [hp.random = hp]. *)
Definition WithCustomFallbackPartitioner (randomHP : hashPartitioner) : HashPartitionerOption := fun hp =>
  mk_hp Itself (hp_hasher hp) (hp_referenceAbs hp).

Definition NewHashPartitioner : hashPartitioner := mk_hp Generator fnv32a false.
Definition NewReferenceHashPartitioner : hashPartitioner := mk_hp Generator fnv32a true.
Definition NewCustomHashPartitioner (hasher : bytes → Z) : hashPartitioner := mk_hp Generator hasher false.
Definition NewCustomPartitioner (options : list HashPartitionerOption) : hashPartitioner :=
  fold_left (fun p option => option p) options (mk_hp Generator fnv32a false).

(** [p.Partition(message, numPartitions)]; a fallback that is the partitioner itself calls
    itself with the same arguments until the stack is exhausted. *)
Definition Partition (p : hashPartitioner) (g : G) (message : ProducerMessage) (numPartitions : Z) : Go (choice * G) :=
  match pm_Key message, hp_random p with
  | None, Itself => Panic StackOverflow
  | _, _ => hash_Partition (hp_hasher p) (hp_referenceAbs p) g message numPartitions
  end.

(** [RequiresConsistency] of the partitioners *)
Inductive partitioner := Manual | Random | RoundRobin (partition : Z) | Hash (p : hashPartitioner).
Definition RequiresConsistency (p : partitioner) : bool :=
  match p with Manual => true | Random => false | RoundRobin _ => false | Hash _ => hash_RequiresConsistency end.

(** ** Properties *)

Lemma land_mod31 n : Z.land (swrap 32 n) 0x7fffffff = n mod 2 ^ 31.
Proof.
  change 0x7fffffff with (Z.ones 31). rewrite Z.land_ones by done. unfold swrap. change (32 - 1) with 31.
  rewrite (Z.mod_eq (n + 2 ^ 31) (2 ^ 32)) by done. set (q := _ / _).
  replace (n + 2 ^ 31 - 2 ^ 32 * q - 2 ^ 31) with (n + (- 2 * q) * 2 ^ 31) by (change (2 ^ 32) with (2 * 2 ^ 31); ring).
  by apply Z.mod_add.
Qed.

(** What a hash partitioner answers for a key *)
Definition hash_choice (hasher : bytes → Z) (referenceAbs : bool) (b : bytes) (n : Z) : Z :=
  if referenceAbs then (hasher b mod 2 ^ 31) mod n else Z.abs (swrap 32 (hasher b)) mod n.

Lemma rem_abs a n : 0 < n → (if Z.rem a n <? 0 then - Z.rem a n else Z.rem a n) = Z.abs a mod n.
Proof.
  intros Hn. rewrite <- (Z.rem_mod_nonneg (Z.abs a) n) by lia.
  destruct (Z.le_gt_cases 0 a) as [Ha|Ha].
  - rewrite Z.abs_eq by lia. pose proof (Z.rem_bound_pos a n ltac:(lia) Hn). by replace (Z.rem a n <? 0) with false by lia.
  - rewrite Z.abs_neq, Z.rem_opp_l by lia. pose proof (Z.rem_bound_pos_neg a n Hn ltac:(lia)).
    destruct (Z.ltb_spec (Z.rem a n) 0); lia.
Qed.

(** A message with a key goes to a partition in range that depends on the key only: the hash
    taken as a signed number, or without its sign bit, modulo the number of partitions. *)
Theorem hash_Partition_consistent hasher referenceAbs g m b n :
  pm_Key m = Some (Encoded b) → 0 < n < 2 ^ 31 →
  hash_Partition hasher referenceAbs g m n = Ret ((hash_choice hasher referenceAbs b n, None), g) ∧
  0 ≤ hash_choice hasher referenceAbs b n < n.
Proof.
  intros Hk Hn. unfold hash_Partition, hash_choice, rem32. rewrite Hk.
  replace (n =? 0) with false by lia. split; [|destruct referenceAbs; apply Z.mod_pos_bound; lia].
  destruct referenceAbs; cbn [gbind].
  - pose proof (Z.mod_pos_bound (hasher b) (2 ^ 31) ltac:(done)). rewrite land_mod31, Z.rem_mod_nonneg by lia. done.
  - rewrite <- rem_abs by lia. destruct (Z.ltb_spec (Z.rem (swrap 32 (hasher b)) n) 0) as [Hr|Hr]; [|done].
    pose proof (Z.rem_bound_abs (swrap 32 (hasher b)) n ltac:(lia)). rewrite (swrap_small 32) by (simpl in *; lia). done.
Qed.

(** ** Round robin *)

Definition next (n p : Z) : Z := (roundRobin_Partition p n).2.

Lemma succ_mod k n : 0 < n → (k + 1) mod n = if n <=? k mod n + 1 then 0 else k mod n + 1.
Proof.
  intros Hn. rewrite <- Z.add_mod_idemp_l by lia. pose proof (Z.mod_pos_bound k n Hn).
  destruct (Z.leb_spec n (k mod n + 1)); [replace (k mod n + 1) with n by lia; by apply Z.mod_same; lia|].
  apply Z.mod_small. lia.
Qed.
Lemma next_iter n k : 0 < n < 2 ^ 31 → Nat.iter (S k) (next n) 0 = Z.of_nat k mod n + 1.
Proof.
  intros Hn. induction k as [|k IH].
  - cbn. unfold next, roundRobin_Partition. replace (n <=? 0) with false by lia. by rewrite Z.mod_0_l by lia.
  - change (next n (Nat.iter (S k) (next n) 0) = Z.of_nat (S k) mod n + 1). rewrite IH, Nat2Z.inj_succ, <- Z.add_1_r, succ_mod by lia.
    unfold next, roundRobin_Partition. cbn [snd]. pose proof (Z.mod_pos_bound (Z.of_nat k) n ltac:(lia)).
    apply swrap_small; [done|]. destruct (Z.leb_spec n (Z.of_nat k mod n + 1)); simpl in *; lia.
Qed.

(** The k-th message goes to partition k modulo the number of partitions. *)
Theorem roundRobin_cycles n k :
  0 < n < 2 ^ 31 → (roundRobin_Partition (Nat.iter k (next n) 0) n).1 = (Z.of_nat k mod n, None).
Proof.
  intros Hn. destruct k as [|k]; unfold roundRobin_Partition; cbn [fst].
  - cbn [Nat.iter nat_rect]. replace (n <=? 0) with false by lia. by rewrite Z.mod_0_l by lia.
  - rewrite next_iter, Nat2Z.inj_succ, <- Z.add_1_r, succ_mod by lia. done.
Qed.

(** The random partitioner stays in range, and a key is needed for consistency. *)
Lemma random_Partition_range g n : 0 < n < 2 ^ 31 →
  ∃ p g', random_Partition g n = Ret ((p, None), g') ∧ 0 ≤ p < n.
Proof using Intn_bound.
  intros Hn. unfold random_Partition. replace (n <=? 0) with false by lia. pose proof (Intn_bound g n ltac:(lia)) as Hb.
  destruct (Intn g n) as [p g']. cbn [fst] in Hb. exists p, g'. rewrite swrap_small by (simpl in *; lia). done.
Qed.
End random.

(** ** Examples *)

(** The two treatments of the sign send the same key to different partitions. *)
Lemma abs_differs : hash_choice fnv32a true (B "foobar") 10 ≠ hash_choice fnv32a false (B "foobar") 10.
Proof. vm_compute. discriminate. Qed.

Lemma hash_Partition_consistent_witness :
  hash_Partition (fun (g : nat) (n : Z) => (0, g)) fnv32a false 0%nat (mk_pm (B "t") (Some (Encoded (B "foobar"))) None None 0 0 0 0 0 0) 10 =
  Ret ((hash_choice fnv32a false (B "foobar") 10, None), 0%nat) ∧ 0 ≤ hash_choice fnv32a false (B "foobar") 10 < 10.
Proof. apply hash_Partition_consistent; [reflexivity|split; reflexivity]. Defined.

Lemma roundRobin_cycles_witness : (roundRobin_Partition (Nat.iter 8 (next 3) 0) 3).1 = (2, None).
Proof. apply (roundRobin_cycles 3 8). split; reflexivity. Defined.

(** A custom partitioner with the options for the absolute value and the hash only is one of
    the others; with the option for the fallback it never returns for a message without key,
    whatever fallback is given. *)
Lemma custom_partitioner hasher :
  NewCustomPartitioner [] = NewHashPartitioner ∧ NewCustomPartitioner [WithAbsFirst] = NewReferenceHashPartitioner ∧
  NewCustomPartitioner [WithCustomHashFunction hasher] = NewCustomHashPartitioner hasher.
Proof. done. Qed.

Lemma fallback_is_itself {G} (Intn : G → Z → Z * G) options randomHP g m n :
  pm_Key m = None → Partition Intn (NewCustomPartitioner (options ++ [WithCustomFallbackPartitioner randomHP])) g m n = Panic StackOverflow.
Proof. intros Hk. unfold Partition, NewCustomPartitioner. rewrite Hk, fold_left_app. done. Qed.
