(* ===== verification/KafkaProtocol.v ===== *)
(** * [kafka/request.go], [kafka/utils.go], [kafka/encoder_decoder.go]: what a request or a
    response is

    A [protocolBody] has an encoder, a decoder for each version of its format, a key, and the
    version of the broker it needs.  Its laws say that whatever order Go gives the entries of
    its maps, in either pass of the encoder, the bytes are the same in number and are read back
    as the same body.  The bodies are instances, and a request is made of any of them. *)

From S2P Require Import Prelude GoStrings KafkaCodec KafkaProps KafkaDecoder KafkaDecoderProps KafkaDecoderSafety KafkaWire KafkaRecord.

(** ** Versions of the broker *)

(** [type KafkaVersion struct], with [newKafkaVersion] *)
Record KafkaVersion := newKafkaVersion { major : Z; minor : Z; veryMinor : Z; patch : Z }.
#[export] Instance KafkaVersion_eq_dec : EqDecision KafkaVersion.
Proof. solve_decision. Defined.

(** [func (v KafkaVersion) IsAtLeast(other KafkaVersion) bool], the loop over the numbers *)
Fixpoint at_least (v other : list Z) : bool :=
  match v, other with
  | x :: v, y :: other => if y <? x then true else if x <? y then false else at_least v other
  | _, _ => true
  end.
Definition numbers (v : KafkaVersion) : list Z := [major v; minor v; veryMinor v; patch v].
Definition IsAtLeast (v other : KafkaVersion) : bool := at_least (numbers v) (numbers other).

Definition V0_8_2_0 := newKafkaVersion 0 8 2 0.
Definition V0_8_2_1 := newKafkaVersion 0 8 2 1.
Definition V0_8_2_2 := newKafkaVersion 0 8 2 2.
Definition V0_9_0_0 := newKafkaVersion 0 9 0 0.
Definition V0_9_0_1 := newKafkaVersion 0 9 0 1.
Definition V0_10_0_0 := newKafkaVersion 0 10 0 0.
Definition V0_10_0_1 := newKafkaVersion 0 10 0 1.
Definition V0_10_1_0 := newKafkaVersion 0 10 1 0.
Definition V0_10_1_1 := newKafkaVersion 0 10 1 1.
Definition V0_10_2_0 := newKafkaVersion 0 10 2 0.
Definition V0_10_2_1 := newKafkaVersion 0 10 2 1.
Definition V0_11_0_0 := newKafkaVersion 0 11 0 0.
Definition V0_11_0_1 := newKafkaVersion 0 11 0 1.
Definition V0_11_0_2 := newKafkaVersion 0 11 0 2.
Definition V1_0_0_0 := newKafkaVersion 1 0 0 0.
Definition V1_1_0_0 := newKafkaVersion 1 1 0 0.
Definition V1_1_1_0 := newKafkaVersion 1 1 1 0.
Definition V2_0_0_0 := newKafkaVersion 2 0 0 0.
Definition V2_0_1_0 := newKafkaVersion 2 0 1 0.
Definition V2_1_0_0 := newKafkaVersion 2 1 0 0.
Definition V2_2_0_0 := newKafkaVersion 2 2 0 0.
Definition SupportedVersions : list KafkaVersion :=
  [V0_8_2_0; V0_8_2_1; V0_8_2_2; V0_9_0_0; V0_9_0_1; V0_10_0_0; V0_10_0_1; V0_10_1_0; V0_10_1_1; V0_10_2_0; V0_10_2_1;
   V0_11_0_0; V0_11_0_1; V0_11_0_2; V1_0_0_0; V1_1_0_0; V1_1_1_0; V2_0_0_0; V2_0_1_0; V2_1_0_0; V2_2_0_0].
Definition MinVersion := V0_8_2_0.
Definition MaxVersion := V2_2_0_0.

(** The versions are ordered: [IsAtLeast] is the lexicographic order of their numbers. *)
Lemma at_least_refl v : at_least v v = true.
Proof. induction v as [|x v IH]; [done|]. cbn [at_least]. by rewrite Z.ltb_irrefl. Qed.
Lemma at_least_trans u v w : length u = length v → length v = length w →
  at_least u v = true → at_least v w = true → at_least u w = true.
Proof.
  revert v w. induction u as [|x u IH]; intros [|y v] [|z w] Hu Hv; try done. simplify_eq/=.
  repeat case_match; try done; try lia. intros. eapply IH; eauto.
Qed.
Lemma at_least_antisym v w : length v = length w → at_least v w = true → at_least w v = true → v = w.
Proof.
  revert w. induction v as [|x v IH]; intros [|y w] Hl; try done. simplify_eq/=.
  destruct (Z.ltb_spec y x), (Z.ltb_spec x y); try done; intros; try lia. f_equal; [lia|]. by apply IH.
Qed.
Lemma at_least_total v w : at_least v w = true ∨ at_least w v = true.
Proof. revert w. induction v as [|x v IH]; intros [|y w]; try (by left). simpl. repeat case_match; try apply IH; auto. Qed.
Lemma IsAtLeast_antisym v w : IsAtLeast v w = true → IsAtLeast w v = true → v = w.
Proof.
  intros H1 H2. assert (numbers v = numbers w) as E by (by apply at_least_antisym). destruct v, w. by injection E as -> -> -> ->.
Qed.
#[export] Instance IsAtLeast_order : TotalOrder (fun v w => IsAtLeast w v = true).
Proof.
  split; [split; [split|]|].
  - intros v. apply at_least_refl.
  - intros u v w H1 H2. by apply (at_least_trans (numbers w) (numbers v) (numbers u)).
  - intros v w H1 H2. by apply IsAtLeast_antisym.
  - intros v w. destruct (decide (v = w)) as [->|Hn]; [by right; left|].
    destruct (at_least_total (numbers w) (numbers v)) as [Hl|Hl]; [left|right; right];
      (split; [done|]); intros Hr; by destruct Hn; apply IsAtLeast_antisym.
Qed.

(** ** Maps *)

(** Go visits the entries of a map in an order of its own, another one each time.  [o p] is the
    order of the range statement at [p], the iterations of the loops around it. *)
Definition orders : Type := list nat → ∀ A : Type, list A → list A.
Definition fair (o : orders) : Prop := ∀ p A (l : list A), o p A l ≡ₚ l.
Definition range_map `{Countable K} {V} (o : orders) (p : list nat) (m : gmap K V) : list (K * V) :=
  o p _ (map_to_list m).

(** [putArrayLength(len(m))] and a loop over the map *)
Definition put_map `{Countable K} {V} (o : orders) (p : list nat) (m : gmap K V) (g : list nat → K * V → list item) :
    list item :=
  Data (putArrayLength (Z.of_nat (size m))) :: mjoin (imap (fun i e => g (i :: p) e) (range_map o p m)).
(** The same with the keys sorted first *)
Definition by_key {K V} (R : K → K → Prop) (e e' : K * V) : Prop := R e.1 e'.1.
#[export] Instance by_key_dec {K V} (R : K → K → Prop) `{!RelDecision R} : RelDecision (@by_key K V R).
Proof. intros e e'. unfold by_key. apply _. Defined.
Definition put_sorted `{Countable K} {V} (R : K → K → Prop) `{!RelDecision R} (o : orders) (p : list nat) (m : gmap K V)
    (g : list nat → K * V → list item) : list item :=
  Data (putArrayLength (Z.of_nat (size m))) ::
  mjoin (imap (fun i e => g (i :: p) e) (merge_sort (by_key R) (range_map o p m))).
(** [n := getArrayLength()] and [n] insertions into a map.  A negative [n] is a loop that is not
    entered, so is the code's early return for 0. *)
Definition map_of `{Countable K} {V} (l : list (K * V)) : gmap K V := fold_left (fun m e => <[e.1 := e.2]> m) l ∅.
Definition get_map `{Countable K} {V} (entry : rd_get (K * V)) : rd_get (gmap K V) :=
  get* n := getArrayLength in get* l := get_times (Z.to_nat n) entry in rd_ret (map_of l).

(** An entry: the key, the value *)
Definition get_entry {K V} (k : rd_get K) (v : rd_get V) : rd_get (K * V) := get* a := k in get* b := v in rd_ret (a, b).
(** Entries of a [map[string][]byte], [map[string]string], [map[string]KError], [map[string]*string]
    and [map[string][]int32] *)
Definition bytes_entry (_ : list nat) (e : bytes * option bytes) : list item :=
  [Data (putString e.1); Data (putBytes e.2)].
Definition string_entry (_ : list nat) (e : bytes * bytes) : list item := [Data (putString e.1); Data (putString e.2)].
Definition code_entry (_ : list nat) (e : bytes * Z) : list item := [Data (putString e.1); Data (putInt16 e.2)].
Definition nullable_entry (_ : list nat) (e : bytes * option bytes) : list item :=
  [Data (putString e.1); Data (putNullableString e.2)].
Definition partitions_entry (_ : list nat) (e : bytes * list Z) : list item :=
  [Data (putString e.1); Data (putInt32Array e.2)].
(** [map[string]map[int32]T]: partitions by topic *)
Definition put_topics {V} (o : orders) (p : list nat) (m : gmap bytes (gmap Z V)) (g : V → list item) : list item :=
  put_map o p m (fun p e =>
    Data (putString e.1) :: put_map o p e.2 (fun _ e => Data (putInt32 e.1) :: g e.2)).
Definition get_topics {V} (v : rd_get V) : rd_get (gmap bytes (gmap Z V)) :=
  get_map (get_entry getString (get_map (get_entry getInt32 v))).

(** The block of a partition, and a new one for it *)
Definition get_block {V} (m : gmap bytes (gmap Z V)) (topic : bytes) (partition : Z) : option V :=
  m !! topic ≫= (.!! partition).
Definition add_block {V} (topic : bytes) (partition : Z) (b : V) (m : gmap bytes (gmap Z V)) : gmap bytes (gmap Z V) :=
  <[topic := <[partition := b]> (default ∅ (m !! topic))]> m.

(** ** Slices *)

(** [putArrayLength(len(l))] and a loop over the slice; the encoder of an element with maps needs
    the iteration. *)
Definition put_each {A} (p : list nat) (l : list A) (g : list nat → A → list item) : list item :=
  Data (putArrayLength (len l)) :: mjoin (imap (fun i x => g (i :: p) x) l).
Definition put_array {A} (l : list A) (g : A → list item) : list item := put_each [] l (fun _ => g).
(** [make([]T, n)] *)
Definition make_slice (n : Z) : rd_get unit := fun rd => if n <? 0 then Panic MakeSliceLen else Ret (inl tt, rd).
(** [n := getArrayLength()], [make([]T, n)] and a loop *)
Definition get_array {A} (m : rd_get A) : rd_get (list A) :=
  get* n := getArrayLength in get* _ := make_slice n in get_times (Z.to_nat n) m.

(** The same with a slice that grows *)
Definition get_list {A} (m : rd_get A) : rd_get (list A) := get* n := getArrayLength in get_times (Z.to_nat n) m.

(** [n := getInt32()] and a loop, when [n] is positive *)
Definition get_int_list {A} (m : rd_get A) : rd_get (list A) :=
  get* n := getInt32 in if 0 <? n then get_times (Z.to_nat n) m else rd_ret [].
(** A read whose error ends the decoder without an error *)
Definition get_or {A C} (m : rd_get A) (stop : C) (k : A → rd_get C) : rd_get C := fun rd =>
  let* r := m rd in
  match r with
  | (inl a, rd') => k a rd'
  | (inr _, rd') => Ret (inl stop, rd')
  end.

(** ** Durations *)

(** [putInt32(int32(d / time.Millisecond))] *)
Definition put_millis (d : Z) : item := Data (putInt32 (swrap 32 (Z.quot d Millisecond))).
(** [time.Duration(n) * time.Millisecond] of an [int32] *)
Definition get_millis : rd_get Z := get* n := getInt32 in rd_ret (n * Millisecond).
Definition millis_ok (d : Z) : Prop := ∃ n, int_ok 32 n ∧ d = n * Millisecond.

#[global] Arguments put_map : simpl never.
#[global] Arguments put_sorted : simpl never.
#[global] Arguments put_topics : simpl never.
#[global] Arguments put_each : simpl never.
#[global] Arguments put_array : simpl never.
#[global] Arguments put_millis : simpl never.

(** ** Bodies *)

(** [type protocolBody interface] *)
Class protocolBody (A : Type) := {
  key : A → Z;
  version : A → Z;
  requiredVersion : A → KafkaVersion;
  body_encode : orders → A → Go (list item);
  (** what [encode] does beside writing when the encoder has a registry of metrics: the records
      it counts *)
  body_metrics : A → Go Z;
  body_decode : Z → rd_get A }.

(** A part of a message that keeps no lengths of records *)
Definition plain (l : list item) : Prop := Forall (fun i => item_ok i = true ∧ refs i = []) l.

(** What [getArrayLength] takes for a length *)
Definition short (n : nat) : Prop := Z.of_nat n ≤ 2 * math_MaxUint16.
Definition topics_ok {V} (P : V → Prop) (m : gmap bytes (gmap Z V)) : Prop :=
  short (size m) ∧ map_Forall (fun _ ps => short (size ps) ∧ map_Forall (fun id v => int_ok 32 id ∧ P v) ps) m.

(** What the bodies promise to [request] and [Broker]: a body that is [valid] is written in any
    order with the same calls, and the bytes are read as what the other side [received]. *)
Class protocolLaws (checksum : crcPolynomial → bytes → Z) (A : Type) `{protocolBody A} := {
  valid : A → Prop;
  received : A → A;
  valid_version x : valid x → int_ok 16 (version x) ∧ int_ok 16 (key x);
  body_counted x : valid x → returns (body_metrics x);
  body_wire o x : fair o → valid x →
    ∃ l, body_encode o x = Ret l ∧ plain l ∧ wire checksum l (body_decode (version x)) (received x);
  body_order o o' x l l' : fair o → fair o' → valid x →
    body_encode o x = Ret l → body_encode o' x = Ret l' → l ≡ₚ l' }.

(** ** Laws of the parts *)

Lemma plain_items_ok l : plain l → forallb item_ok l = true.
Proof.
  intros Hl. apply forallb_forall. intros i Hi. apply list_elem_of_In in Hi. by eapply Forall_forall in Hl as [? _].
Qed.
Lemma plain_refs l : plain l → (l ≫= refs) = [].
Proof. induction 1 as [|i l [_ Hi] _ IH]; [done|]. rewrite bind_cons, Hi. apply IH. Qed.
Lemma plain_nil : plain [].
Proof. constructor. Qed.
Lemma plain_data c l : is_data c = true → plain l → plain (Data c :: l).
Proof. intros Hc Hl. by apply Forall_cons_2. Qed.
Lemma plain_millis d l : plain l → plain (put_millis d :: l).
Proof. by apply plain_data. Qed.
Lemma plain_app l k : plain l → plain k → plain (l ++ k).
Proof. apply Forall_app_2. Qed.
Lemma plain_if (b : bool) l k : plain l → plain k → plain (if b then l else k).
Proof. by destruct b. Qed.
Lemma plain_join ls : Forall plain ls → plain (mjoin ls).
Proof. induction 1; [constructor|]. by apply Forall_app_2. Qed.
Lemma plain_indexed {A} (l : list A) (g : nat → A → list item) : (∀ i x, plain (g i x)) → plain (mjoin (imap g l)).
Proof.
  intros Hg. apply plain_join, Forall_lookup. intros i x Hx. rewrite list_lookup_imap in Hx.
  destruct (l !! i); simplify_eq/=. apply Hg.
Qed.
Lemma plain_each {A} p (l : list A) g : (∀ p x, plain (g p x)) → plain (put_each p l g).
Proof. intros Hg. apply plain_data; [done|]. apply plain_indexed. auto. Qed.
Lemma plain_array {A} (l : list A) g : (∀ x, plain (g x)) → plain (put_array l g).
Proof. intros Hg. apply plain_each. auto. Qed.
Lemma plain_map `{Countable K} {V} o p (m : gmap K V) g : (∀ p e, plain (g p e)) → plain (put_map o p m g).
Proof. intros Hg. apply plain_data; [done|]. apply plain_indexed. auto. Qed.
Lemma plain_sorted `{Countable K} {V} (R : K → K → Prop) `{!RelDecision R} o p (m : gmap K V) g :
  (∀ p e, plain (g p e)) → plain (put_sorted R o p m g).
Proof. intros Hg. apply plain_data; [done|]. apply plain_indexed. auto. Qed.
Lemma plain_topics {V} (o : orders) (p : list nat) (m : gmap bytes (gmap Z V)) (g : V → list item) : (∀ v, plain (g v)) → plain (put_topics o p m g).
Proof. intros Hg. apply plain_map. intros. apply plain_data; [done|]. apply plain_map. intros. by apply plain_data. Qed.
Lemma plain_field body l : plain body → plain l → plain (Field lengthField body :: l).
Proof. intros Hb Hl. apply Forall_cons_2; [|done]. split; [by apply plain_items_ok|by apply plain_refs]. Qed.

#[export] Hint Resolve plain_nil plain_data plain_millis plain_app plain_if plain_each plain_array plain_map plain_sorted plain_topics plain_field : wire.

(** *** Bytes *)

(** A message that starts with a call that writes *)
Definition starts (l : list item) : bool :=
  match l with
  | Data (putRawBytes _ | push _ | pop | report _) :: _ => false
  | Data _ :: _ => true
  | _ => false
  end.

#[local] Arguments be_bytes : simpl never.
Section laws.
Context (checksum : crcPolynomial → bytes → Z).
Abbreviation bytes_of l := (l ≫= render checksum).

Lemma varint_bytes_ne n : varint_bytes n ≠ [].
Proof. unfold varint_bytes. cbn [uvarint_bytes]. by case_match. Qed.
Lemma starts_bytes l : starts l = true → bytes_of l ≠ [].
Proof.
  destruct l as [|[c|f body] l]; [done| |done]. intros Hc. rewrite bind_cons. cbn [render]. intros E.
  apply app_nil in E as [E _]. assert (∀ w n, be_bytes (S w) n ≠ []) as Hb by done.
  destruct c as [| | | | | | | |[]|[]| |[]| | | | | |]; try done;
    cbn [data_bytes] in E; try apply app_nil in E as [E _]; by try apply Hb in E; try apply varint_bytes_ne in E.
Qed.

(** *** Slices, maps, durations, fields of some versions *)

Lemma join_const {A} (g : A → list item) (l : list A) : mjoin (imap (fun _ => g) l) = l ≫= g.
Proof. rewrite bind_join. f_equal. exact (imap_const g l). Qed.

(** The parts of a loop, read one after the other *)
Lemma wire_loop {A C D} (l : list A) (g : nat → A → list item) (m : rd_get C) (f : A → C) (k : Z → rd_get (list C) → rd_get D) v :
  short (length l) → Forall (fun x => ∀ i, starts (g i x) = true ∧ wire checksum (g i x) m (f x)) l →
  (wire checksum (mjoin (imap g l)) (get_times (length l) m) (f <$> l) →
   wire checksum (mjoin (imap g l)) (k (len l) (get_times (length l) m)) v) →
  wire checksum (Data (putArrayLength (len l)) :: mjoin (imap g l)) (get* n := getArrayLength in k n (get_times (Z.to_nat n) m)) v.
Proof.
  intros Hn Hl Hk.
  assert (len (f <$> l) = len l) as Hf by (unfold len; by rewrite length_fmap). rewrite <- Hf in *.
  rewrite <- (length_fmap f l) in *. apply wire_array; [done| | |exact Hk].
  - apply Forall_lookup. intros i x Hx. rewrite list_lookup_imap in Hx. destruct (l !! i) as [z|] eqn:E; simplify_eq/=.
    apply starts_bytes, (proj1 (Forall_lookup _ _) Hl i z E).
  - apply Forall2_same_length_lookup. split; [by rewrite length_imap, length_fmap|]. intros i x y Hx Hy.
    rewrite list_lookup_imap in Hx. rewrite list_lookup_fmap in Hy. destruct (l !! i) as [z|] eqn:E; simplify_eq/=.
    by apply (proj1 (Forall_lookup _ _) Hl i z).
Qed.

Lemma wire_make_slice n : 0 ≤ n → wire checksum [] (make_slice n) tt.
Proof.
  intros Hn _ r _ _ pre post st _. unfold make_slice. replace (n <? 0) with false by lia. by rewrite app_nil_l, Z.add_0_r.
Qed.
Lemma wire_minus_one : wire checksum [Data (putInt32 (-1))] getArrayLength (-1).
Proof. apply wire_data. intros r Hr _. apply (reads_array_length r (-1)); [done|lia|done]. Qed.
Lemma wire_each {A C} p (l : list A) g (m : rd_get C) (f : A → C) :
  short (length l) → Forall (fun x => ∀ p, starts (g p x) = true ∧ wire checksum (g p x) m (f x)) l →
  wire checksum (put_each p l g) (get_array m) (f <$> l).
Proof.
  intros Hn Hl. apply (wire_loop l _ m f (fun n t => get* _ := make_slice n in t)); [done| |].
  - eapply Forall_impl; [exact Hl|]. auto.
  - intros Hw. eapply wire_skip; [apply wire_make_slice, len_nonneg|exact Hw].
Qed.
Lemma wire_slice {A} (P : A → Prop) g (m : rd_get A) l :
  (∀ x, P x → wire checksum (g x) m x) → (∀ x, P x → starts (g x) = true) →
  short (length l) → Forall P l → wire checksum (put_array l g) (get_array m) l.
Proof.
  intros Hw Hs Hn Hl. rewrite <- (list_fmap_id l) at 2. apply wire_each; [done|].
  eapply Forall_impl; [exact Hl|]. auto.
Qed.
Lemma wire_list {A} (P : A → Prop) g (m : rd_get A) l :
  (∀ x, P x → wire checksum (g x) m x) → (∀ x, P x → starts (g x) = true) →
  short (length l) → Forall P l → wire checksum (put_array l g) (get_list m) l.
Proof.
  intros Hw Hs Hn Hl. apply (wire_loop l _ m id (fun _ t => t)); [done| |].
  - eapply Forall_impl; [exact Hl|]. auto.
  - by rewrite list_fmap_id.
Qed.

(** [putArrayLength] is read by [getInt32] as well. *)
Lemma wire_int_list {A} (g : A → list item) (m : rd_get A) l :
  Forall (fun x => wire checksum (g x) m x) l → wire checksum (put_array l g) (get_int_list m) l.
Proof.
  intros Hl He. pose proof He as Hn. apply (items_error_app [_]) in Hn as [Hn _]. cbn in Hn.
  destruct (math_MaxInt32 <? len l) eqn:El; [done|]. apply Z.ltb_ge in El. pose proof (len_nonneg l).
  revert He. unfold put_array, put_each, get_int_list. eapply wire_cons; [done| |].
  - apply wire_data. intros r _ _. apply (reads_int _ 4); [lia|]. apply int_ok_swrap; [done|].
    unfold int_ok, math_MaxInt32 in *. simpl in *. lia.
  - cbv beta. rewrite len_to_nat, join_const.
    destruct l as [|x l]; [apply wire_ret|].
    replace (0 <? len (x :: l)) with true by (rewrite len_cons; pose proof (len_nonneg l); lia). by apply wire_times.
Qed.
Lemma wire_or {A C} l k (m : rd_get A) (stop : C) (f : A → rd_get C) v w :
  wire checksum l m v → wire checksum k (f v) w → wire checksum (l ++ k) (get_or m stop f) w.
Proof.
  intros Hm Hf He r Hr Hlen. pose proof (wire_bind checksum 0 l k m f v w ltac:(lia) Hm Hf He r Hr Hlen) as Hb.
  apply items_error_app in He as [He _]. rewrite bind_app, len_app in *. pose proof (len_nonneg (k ≫= render checksum)).
  intros pre post st Hp. specialize (Hb pre post st Hp). unfold get_or, rd_bind in *.
  assert (reads (len (k ≫= render checksum) + r) m (l ≫= render checksum) v) as Hm' by (apply Hm; auto; lia).
  specialize (Hm' pre ((k ≫= render checksum) ++ post) st). rewrite <- app_assoc in *.
  rewrite Hm' in Hb |- * by (rewrite len_app; lia). done.
Qed.

Lemma map_of_reverse `{Countable K} {V} (l : list (K * V)) : map_of l = list_to_map (reverse l).
Proof.
  induction l as [|[k v] l IH] using rev_ind; [done|]. unfold map_of in *.
  rewrite fold_left_app, reverse_app, IH. done.
Qed.
Lemma map_of_entries `{Countable K} {V W} (f : V → W) (m : gmap K V) l :
  l ≡ₚ map_to_list m → map_of (prod_map id f <$> l) = f <$> m.
Proof.
  intros Hl. rewrite map_of_reverse, <- fmap_reverse, list_to_map_fmap. f_equal.
  rewrite <- (list_to_map_to_list m). apply list_to_map_proper; [|by rewrite reverse_Permutation].
  rewrite fmap_reverse, reverse_Permutation, Hl. apply NoDup_fst_map_to_list.
Qed.

(** A loop over the entries of a map in whatever order *)
Lemma wire_listed `{Countable K} {V W} (l : list (K * V)) p (m : gmap K V) g (entry : rd_get (K * W)) (f : V → W) :
  l ≡ₚ map_to_list m → (∀ p e, starts (g p e) = true) → short (size m) →
  (∀ p k v, m !! k = Some v → wire checksum (g p (k, v)) entry (k, f v)) →
  wire checksum (Data (putArrayLength (Z.of_nat (size m))) :: mjoin (imap (fun i e => g (i :: p) e) l)) (get_map entry) (f <$> m).
Proof.
  intros Hp Hs Hn Hw. unfold get_map.
  assert (size m = length l) as Hl by (by rewrite Hp, length_map_to_list). rewrite Hl in *.
  apply (wire_loop l _ entry (prod_map id f) (fun _ t => get* l := t in rd_ret (map_of l))); [done| |].
  - apply Forall_forall. intros [k v] Hx i. split; [done|]. apply Hw, elem_of_map_to_list. by rewrite <- Hp.
  - intros Ht. rewrite <- (map_of_entries f m l) by done. by apply (wire_map checksum _ _ _ map_of).
Qed.
Lemma wire_entries `{Countable K} {V W} o p (m : gmap K V) g (entry : rd_get (K * W)) (f : V → W) :
  fair o → (∀ p e, starts (g p e) = true) → short (size m) →
  (∀ p k v, m !! k = Some v → wire checksum (g p (k, v)) entry (k, f v)) →
  wire checksum (put_map o p m g) (get_map entry) (f <$> m).
Proof. intros Ho. apply wire_listed, Ho. Qed.
Lemma wire_gmap `{Countable K} {V} (P : K → V → Prop) o p (m : gmap K V) g (entry : rd_get (K * V)) :
  fair o → (∀ p e, starts (g p e) = true) → (∀ p k v, P k v → wire checksum (g p (k, v)) entry (k, v)) →
  short (size m) → map_Forall P m → wire checksum (put_map o p m g) (get_map entry) m.
Proof.
  intros Ho Hs Hw Hn Hm. rewrite <- (map_fmap_id m) at 2. apply wire_entries; [done..|]. intros q k v Hk. by apply Hw, Hm.
Qed.

Lemma wire_sorted `{Countable K} {V} (R : K → K → Prop) `{!RelDecision R} (P : K → V → Prop) o p (m : gmap K V) g
    (entry : rd_get (K * V)) :
  fair o → (∀ p e, starts (g p e) = true) → (∀ p k v, P k v → wire checksum (g p (k, v)) entry (k, v)) →
  short (size m) → map_Forall P m → wire checksum (put_sorted R o p m g) (get_map entry) m.
Proof.
  intros Ho Hs Hw Hn Hm. rewrite <- (map_fmap_id m) at 2. apply wire_listed; [|done..|].
  - rewrite (merge_sort_Permutation _). apply Ho.
  - intros q k v Hk. by apply Hw, Hm.
Qed.

Lemma wire_entry {K V} l l' (mk : rd_get K) (mv : rd_get V) k v :
  wire checksum l mk k → wire checksum l' mv v → wire checksum (l ++ l') (get_entry mk mv) (k, v).
Proof.
  intros Hk Hv. eapply wire_bind; [done|exact Hk|]. cbv beta. by apply (wire_map checksum _ _ _ (pair k)).
Qed.

Lemma wire_bytes_map o p m : fair o → short (size m) →
  wire checksum (put_map o p m bytes_entry) (get_map (get_entry getString getBytes)) m.
Proof.
  intros Ho Hm. apply (wire_gmap (fun _ _ => True)); [done|done| |done|by intros ???].
  intros q k v _. apply (wire_entry [_] [_]); eauto with wire.
Qed.
Lemma wire_string_map o p m : fair o → short (size m) →
  wire checksum (put_map o p m string_entry) (get_map (get_entry getString getString)) m.
Proof.
  intros Ho Hm. apply (wire_gmap (fun _ _ => True)); [done|done| |done|by intros ???].
  intros q k v _. apply (wire_entry [_] [_]); eauto with wire.
Qed.
Lemma wire_code_map o p m : fair o → short (size m) → map_Forall (fun _ => int_ok 16) m →
  wire checksum (put_map o p m code_entry) (get_map (get_entry getString getInt16)) m.
Proof.
  intros Ho Hm Hc. apply (wire_gmap (fun _ => int_ok 16)); [done|done| |done|done].
  intros q k v Hv. apply (wire_entry [_] [_]); eauto with wire.
Qed.
Lemma wire_partitions_map o p m : fair o → short (size m) → map_Forall (fun _ => Forall (int_ok 32)) m →
  wire checksum (put_map o p m partitions_entry) (get_map (get_entry getString getInt32Array)) m.
Proof.
  intros Ho Hm Hc. apply (wire_gmap (fun _ => Forall (int_ok 32))); [done|done| |done|done].
  intros q k v Hv. apply (wire_entry [_] [_]); eauto with wire.
Qed.
Lemma wire_nullable_map o p m : fair o → short (size m) →
  wire checksum (put_map o p m nullable_entry) (get_map (get_entry getString getNullableString)) m.
Proof.
  intros Ho Hm. apply (wire_gmap (fun _ _ => True)); [done|done| |done|by intros ???].
  intros q k v _. apply (wire_entry [_] [_]); eauto with wire.
Qed.

Lemma wire_topics {V W : Type} (o : orders) (p : list nat) (m : gmap bytes (gmap Z V)) (g : V → list item) (mv : rd_get W) (f : V → W) P :
  fair o → (∀ v, P v → wire checksum (g v) mv (f v)) → topics_ok P m →
  wire checksum (put_topics o p m g) (get_topics mv) ((fun ps : gmap Z V => f <$> ps) <$> m).
Proof.
  intros Ho Hg [Hn Hm]. apply wire_entries; [done|done|done|]. intros q k ps Hk. apply Hm in Hk as [Hn' Hps].
  apply (wire_entry [_]); [apply wire_string|]. apply wire_entries; [done|done|done|]. intros q' id v Hv.
  apply Hps in Hv as [Hid Hv]. apply (wire_entry [_]); [by apply wire_int32|by apply Hg].
Qed.
Lemma wire_topics_id {V} (o : orders) (p : list nat) (m : gmap bytes (gmap Z V)) (g : V → list item) (mv : rd_get V) P :
  fair o → (∀ v, P v → wire checksum (g v) mv v) → topics_ok P m →
  wire checksum (put_topics o p m g) (get_topics mv) m.
Proof.
  intros Ho Hg Hm. pose proof (wire_topics o p m g mv id P Ho Hg Hm) as Hw.
  replace ((fun ps : gmap Z V => id <$> ps) <$> m) with m in Hw; [done|].
  rewrite <- (map_fmap_id m) at 1. apply map_fmap_ext. intros k ps _. symmetry. apply map_fmap_id.
Qed.

Lemma wire_duration d : millis_ok d → wire checksum [put_millis d] get_millis d.
Proof.
  intros (n & Hn & ->). unfold put_millis, get_millis. rewrite Z.quot_mul by done. rewrite int_ok_swrap by done.
  eapply wire_cons; [done|by apply wire_int32|]. apply wire_ret.
Qed.

(** A field that is written from some version on; before, it has its zero value. *)
Lemma wire_since {A} (b : bool) l (m : rd_get A) v d :
  (b = true → wire checksum l m v) → (b = false → v = d) →
  wire checksum (if b then l else []) (if b then m else rd_ret d) v.
Proof. intros Hl Hd. destruct b; [by apply Hl|]. rewrite Hd by done. apply wire_ret. Qed.
End laws.

(** *** Orders *)

Lemma join_order {A} (g g' : list nat → A → list item) (l l' : list A) p q :
  (∀ p q x, g p x ≡ₚ g' q x) → l ≡ₚ l' →
  mjoin (imap (fun i x => g (i :: p) x) l) ≡ₚ mjoin (imap (fun i x => g' (i :: q) x) l').
Proof.
  intros Hg Hl. assert (∀ (g : list nat → A → list item) f p l, (∀ p x, g p x ≡ₚ f x) →
    mjoin (imap (fun i x => g (i :: p) x) l) ≡ₚ l ≫= f) as Hf.
  { clear. intros g f p l Hg. revert g Hg p. induction l as [|x l IH]; intros g Hg p; [done|].
    rewrite imap_cons, bind_cons. change (mjoin (?a :: ?k)) with (a ++ mjoin k). rewrite Hg. f_equiv.
    apply (IH (fun p x => match p with i :: p => g (S i :: p) x | [] => f x end)). intros [|i p'] y; [done|]. apply Hg. }
  rewrite (Hf g (g' []) p l) by done.
  rewrite (Hf g' (g' []) q l'); [by rewrite Hl|]. intros r x. by rewrite <- (Hg [] r), (Hg [] []).
Qed.
Lemma map_order `{Countable K} {V} (o o' : orders) (p q : list nat) (m : gmap K V) g g' :
  fair o → fair o' → (∀ p q e, g p e ≡ₚ g' q e) → put_map o p m g ≡ₚ put_map o' q m g'.
Proof. intros Ho Ho' Hg. unfold put_map. f_equiv. apply join_order; [done|]. unfold range_map. by rewrite (Ho p), (Ho' q). Qed.
(** Sorted entries are in one order only. *)
Lemma sorted_unique `{Countable K} {V} (R : K → K → Prop) `{!RelDecision R, !Transitive R, !AntiSymm (=) R, !Total R} o o' p q (m : gmap K V) :
  fair o → fair o' → merge_sort (by_key R) (range_map o p m) = merge_sort (by_key R) (range_map o' q m).
Proof.
  intros Ho Ho'. assert (Transitive (@by_key K V R)) by (intros x y z; unfold by_key; intros; by etrans).
  assert (Total (@by_key K V R)) by (intros x y; apply (total R)).
  assert (∀ o p, fair o → merge_sort (by_key R) (range_map o p m) ≡ₚ map_to_list m) as Hp.
  { intros o1 p1 Ho1. rewrite (merge_sort_Permutation _). apply Ho1. }
  apply (Sorted_unique_strong (by_key R)); [|apply Sorted_merge_sort, _..|by rewrite (Hp o p Ho), (Hp o' q Ho')].
  intros [k v] [k' v'] Hk Hk' Hle Hge. unfold by_key in Hle, Hge. assert (k = k') as -> by (by apply (anti_symm R)).
  rewrite Hp, elem_of_map_to_list in Hk by done. rewrite Hp, elem_of_map_to_list in Hk' by done. congruence.
Qed.
Lemma sorted_order `{Countable K} {V} (R : K → K → Prop) `{!RelDecision R, !Transitive R, !AntiSymm (=) R, !Total R} o o' p q (m : gmap K V) g g' :
  fair o → fair o' → (∀ p q e, g p e ≡ₚ g' q e) → put_sorted R o p m g ≡ₚ put_sorted R o' q m g'.
Proof.
  intros Ho Ho' Hg. unfold put_sorted. f_equiv. apply join_order; [done|]. by rewrite (sorted_unique R o o' p q).
Qed.
Lemma each_order {A} p q (l : list A) g g' : (∀ p q x, g p x ≡ₚ g' q x) → put_each p l g ≡ₚ put_each q l g'.
Proof. intros Hg. unfold put_each. f_equiv. by apply join_order. Qed.
Lemma topics_order {V} (o o' : orders) (p q : list nat) (m : gmap bytes (gmap Z V)) (g : V → list item) :
  fair o → fair o' → put_topics o p m g ≡ₚ put_topics o' q m g.
Proof. intros Ho Ho'. apply map_order; [done|done|]. intros. f_equiv. by apply map_order. Qed.
Lemma if_order (b : bool) (l l' k k' : list item) : l ≡ₚ l' → k ≡ₚ k' → (if b then l else k) ≡ₚ (if b then l' else k').
Proof. by destruct b. Qed.

Create HintDb order discriminated.
#[export] Hint Resolve wire_duration wire_since wire_ret wire_bytes_map wire_string_map wire_code_map wire_nullable_map
  wire_partitions_map : wire.
#[export] Hint Resolve map_order each_order topics_order if_order Permutation_app Permutation_refl perm_skip : order.
#[export] Hint Extern 1 (put_sorted _ _ _ _ _ ≡ₚ _) => apply sorted_order; [apply _..| | |] : order.

(** ** The two passes of the encoder *)

Lemma items_error_Forall l : items_error l = None ↔ Forall (fun i => item_error i = None) l.
Proof.
  induction l as [|i l IH]; [by split|]. cbn [items_error]. rewrite Forall_cons, <- IH.
  destruct (item_error i); naive_solver.
Qed.

(** ** Bodies without records *)

(** The laws of a body whose encoder is a list of calls *)
Definition body_laws checksum {A} `{protocolBody A} (items : orders → A → list item) (ok : A → Prop) (sent : A → A)
    (Hitems : (∀ o x, body_encode o x = Ret (items o x)) ∧ ∀ x, body_metrics x = Ret 0)
    (Hversion : ∀ x, ok x → int_ok 16 (version x) ∧ int_ok 16 (key x))
    (Hplain : ∀ o x, plain (items o x))
    (Hwire : ∀ o x, fair o → ok x → wire checksum (items o x) (body_decode (version x)) (sent x))
    (Horder : ∀ o o' x, fair o → fair o' → items o x ≡ₚ items o' x) : protocolLaws checksum A.
Proof.
  refine {| valid := ok; received := sent; valid_version := Hversion |}.
  - intros x _. rewrite (proj2 Hitems). by eexists.
  - intros o x Ho Hx. exists (items o x). destruct Hitems. auto.
  - intros o o' x l l' Ho Ho' _ Hl Hl'. rewrite (proj1 Hitems) in Hl, Hl'. simplify_eq. by apply Horder.
Defined.

Section passes.
Context (checksum : crcPolynomial → bytes → Z).
Abbreviation bytes_of l := (l ≫= render checksum).

(** Messages of the same length, both with an error or neither *)
Definition alike (l l' : list item) : Prop :=
  (items_error l = None ↔ items_error l' = None) ∧ len (bytes_of l) = len (bytes_of l').

Lemma alike_order l l' : l ≡ₚ l' → alike l l'.
Proof. intros Hl. split; [by rewrite !items_error_Forall, Hl|]. unfold len. by rewrite Hl. Qed.
Lemma items_error_both l k : items_error (l ++ k) = None ↔ items_error l = None ∧ items_error k = None.
Proof. by rewrite !items_error_Forall, Forall_app. Qed.
Lemma alike_app l l' k k' : alike l l' → alike k k' → alike (l ++ k) (l' ++ k').
Proof. intros [E1 L1] [E2 L2]. split; [by rewrite !items_error_both, E1, E2|]. rewrite !bind_app, !len_app. lia. Qed.
Lemma alike_field l l' : alike l l' → alike [Field lengthField l] [Field lengthField l'].
Proof.
  intros [E L]. split.
  - cbn [items_error]. rewrite !item_error_Field. destruct (items_error l), (items_error l'); naive_solver.
  - rewrite !bind_cons. cbn [render field_of]. rewrite !len_app, !len_be_bytes, L. done.
Qed.

Lemma sized_plain h l : plain l → forallb (sized checksum h) l = true.
Proof.
  intros Hl. apply forallb_forall. intros i Hi. apply list_elem_of_In in Hi.
  eapply Forall_forall in Hl as [_ Hr]; [|done]. rewrite <- (sized_measure checksum i h) by (rewrite Hr; constructor).
  apply sized_ext. intros r. rewrite Hr. by intros ?%not_elem_of_nil.
Qed.
(** The writing pass fills the buffer the counting pass has measured, whatever the orders. *)
Lemma encode_orders h l l' : plain l → plain l' → alike l l' →
  encode_passes checksum h (l ≫= calls) (l' ≫= calls) =
  Ret (match items_error l with
       | Some e => inr e
       | None => if MaxRequestSize <? len (bytes_of l') then inr InvalidRequestSize else inl (bytes_of l')
       end).
Proof.
  intros Hp Hp' [He Hlen]. apply encode_passes_shape; auto using plain_items_ok, sized_plain; [|by apply He].
  unfold message_ok. rewrite plain_items_ok by done. apply bool_decide_eq_true. rewrite plain_refs by done. constructor.
Qed.
(** What it returns is read back. *)
Lemma encode_orders_decode {A} h l l' (m : rd_get A) v bin :
  plain l → plain l' → alike l l' → wire checksum l' m v →
  encode_passes checksum h (l ≫= calls) (l' ≫= calls) = Ret (inl bin) →
  bin = bytes_of l' ∧ items_error l' = None ∧ len bin ≤ MaxRequestSize ∧ decode m bin = Ret (inl v).
Proof.
  intros Hp Hp' Ha Hw. rewrite encode_orders by done. destruct Ha as [He Hlen]. destruct (items_error l); [done|].
  destruct (Z.ltb_spec MaxRequestSize (len (bytes_of l'))); [done|]. intros [= <-]. split_and!; [done|by apply He|done|].
  apply decode_wire; [by apply He|unfold MaxRequestSize in *; simpl; lia|done].
Qed.
End passes.

(** The last part of a message *)
Lemma wire_last {A C} checksum l (m : rd_get A) (f : A → rd_get C) v w :
  wire checksum l m v → wire checksum [] (f v) w → wire checksum l (rd_bind m f) w.
Proof. intros Hm Hf. rewrite <- (app_nil_r l). by eapply wire_bind. Qed.

(** Reads a body part by part, with the lemmas of [wire] *)
Ltac wire_part :=
  lazymatch goal with
  | |- wire_from _ _ [] (rd_ret _) _ => apply wire_ret
  | |- wire_from _ _ (_ :: _) (rd_bind _ _) _ => eapply wire_cons; [done|solve [eauto with wire]|cbv beta]
  | |- wire_from _ _ (_ ++ _) (rd_bind _ _) _ => eapply wire_bind; [done|solve [eauto with wire]|cbv beta]
  | |- wire_from _ _ _ (rd_bind _ _) _ => eapply wire_last; [solve [eauto with wire]|cbv beta]
  | |- wire_from _ _ _ _ _ => solve [eauto with wire]
  end.
Ltac wire_parts := cbn [app]; repeat wire_part.
(** [body]: the encoders and decoders of the bodies; [part]: the encoders of their parts *)
Create HintDb body discriminated.
Create HintDb part discriminated.
#[export] Hint Unfold bytes_entry string_entry code_entry nullable_entry partitions_entry : part.
(** Reads a struct that is a part of a body; [x] is taken apart first. *)
Ltac part_auto := intros; cbn in *; destruct_and?; solve [wire_parts].
(** The laws of a body with [wire_parts] to read it: its encoder, when it is valid, what is
    received *)
Ltac body_auto items ok sent :=
  refine (body_laws _ items ok sent _ _ _ _ _);
  [ done
  | intros []; intros; cbn in *; autounfold with body in *; unfold int_ok in *; simpl in *; lia
  | intros o []; cbn; autounfold with body part; cbn; solve [auto 20 with wire]
  | intros o [] Ho; cbn; autounfold with body; cbn; intros; destruct_and?; solve [wire_parts]
  | intros o o' [] Ho Ho'; cbn; autounfold with body part; cbn; solve [auto 20 with order] ].
