(* ===== verification/KafkaGroups.v ===== *)
(** * Consumer groups: [kafka/join_group_*.go], [sync_group_*.go], [heartbeat_*.go],
    [leave_group_*.go], [list_groups_*.go], [describe_groups_*.go], [delete_groups_*.go],
    [consumer_group_members.go]

    The encoders, the decoders and the bodies of the requests and responses, and their laws.
    A [KError] is its number, a nil map is an empty map, a pointer in a map or slice is the
    value it points to. *)

From S2P Require Import Prelude GoStrings KafkaCodec KafkaProps KafkaDecoder KafkaDecoderProps KafkaWire KafkaRecord KafkaProtocol.

(** ** Members *)

(** [type ConsumerGroupMemberMetadata struct] *)
Record ConsumerGroupMemberMetadata := mk_member_metadata {
  mm_Version : Z; mm_Topics : list bytes; mm_UserData : option bytes }.
Definition ConsumerGroupMemberMetadata_encode (m : ConsumerGroupMemberMetadata) : list item :=
  [Data (putInt16 (mm_Version m)); Data (putStringArray (mm_Topics m)); Data (putBytes (mm_UserData m))].
Definition ConsumerGroupMemberMetadata_decode : rd_get ConsumerGroupMemberMetadata :=
  get* v := getInt16 in get* topics := getStringArray in get* data := getBytes in
  rd_ret (mk_member_metadata v topics data).

(** [type ConsumerGroupMemberAssignment struct] *)
Record ConsumerGroupMemberAssignment := mk_assignment {
  ma_Version : Z; ma_Topics : gmap bytes (list Z); ma_UserData : option bytes }.
Definition ConsumerGroupMemberAssignment_encode (o : orders) (m : ConsumerGroupMemberAssignment) : list item :=
  [Data (putInt16 (ma_Version m))] ++ put_map o [] (ma_Topics m) partitions_entry ++ [Data (putBytes (ma_UserData m))].
Definition ConsumerGroupMemberAssignment_decode : rd_get ConsumerGroupMemberAssignment :=
  get* v := getInt16 in
  get* topics := get_map (get_entry getString getInt32Array) in
  get* data := getBytes in
  rd_ret (mk_assignment v topics data).

(** ** Joining *)

(** [type GroupProtocol struct] *)
Record GroupProtocol := mk_protocol { gp_Name : bytes; gp_Metadata : option bytes }.
Definition GroupProtocol_encode (p : GroupProtocol) : list item :=
  [Data (putString (gp_Name p)); Data (putBytes (gp_Metadata p))].
Definition GroupProtocol_decode : rd_get GroupProtocol :=
  get* name := getString in get* metadata := getBytes in rd_ret (mk_protocol name metadata).

(** [type JoinGroupRequest struct] *)
Record JoinGroupRequest := mk_JoinGroupRequest {
  jq_Version : Z; jq_GroupId : bytes; jq_SessionTimeout : Z; jq_RebalanceTimeout : Z; jq_MemberId : bytes;
  jq_ProtocolType : bytes; GroupProtocols : gmap bytes (option bytes); OrderedGroupProtocols : list GroupProtocol }.
Definition JoinGroupRequest_encode (o : orders) (r : JoinGroupRequest) : list item :=
  [Data (putString (jq_GroupId r)); Data (putInt32 (jq_SessionTimeout r))] ++
  (if 1 <=? jq_Version r then [Data (putInt32 (jq_RebalanceTimeout r))] else []) ++
  [Data (putString (jq_MemberId r)); Data (putString (jq_ProtocolType r))] ++
  (if (0 <? size (GroupProtocols r))%nat then
     if 0 <? len (OrderedGroupProtocols r) then [Data (report BothGroupProtocols)]
     else put_map o [] (GroupProtocols r) bytes_entry
   else put_array (OrderedGroupProtocols r) GroupProtocol_encode).
Definition protocols_map (l : list GroupProtocol) : gmap bytes (option bytes) :=
  map_of ((fun p => (gp_Name p, gp_Metadata p)) <$> l).
Definition JoinGroupRequest_decode (version : Z) : rd_get JoinGroupRequest :=
  get* group := getString in
  get* session := getInt32 in
  get* rebalance := if 1 <=? version then getInt32 else rd_ret 0 in
  get* member := getString in
  get* type := getString in
  get* protocols := get_list GroupProtocol_decode in
  rd_ret (mk_JoinGroupRequest version group session rebalance member type (protocols_map protocols) protocols).
Definition JoinGroupRequest_body : protocolBody JoinGroupRequest := {|
  key _ := 11; version := jq_Version;
  requiredVersion r := if jq_Version r =? 2 then V0_11_0_0 else if jq_Version r =? 1 then V0_10_1_0 else V0_9_0_0;
  body_metrics _ := Ret 0; body_encode o r := Ret (JoinGroupRequest_encode o r); body_decode := JoinGroupRequest_decode |}.
#[export] Existing Instance JoinGroupRequest_body.
(** [func (r *JoinGroupRequest) AddGroupProtocol(name string, metadata []byte)] *)
Definition AddGroupProtocol (name : bytes) (metadata : option bytes) (r : JoinGroupRequest) : JoinGroupRequest :=
  mk_JoinGroupRequest (jq_Version r) (jq_GroupId r) (jq_SessionTimeout r) (jq_RebalanceTimeout r) (jq_MemberId r)
    (jq_ProtocolType r) (GroupProtocols r) (OrderedGroupProtocols r ++ [mk_protocol name metadata]).

(** [type JoinGroupResponse struct] *)
Record JoinGroupResponse := mk_JoinGroupResponse {
  jr_Version : Z; jr_ThrottleTime : Z; jr_Err : Z; jr_GenerationId : Z; jr_GroupProtocol : bytes; jr_LeaderId : bytes;
  jr_MemberId : bytes; jr_Members : gmap bytes (option bytes) }.
Definition JoinGroupResponse_encode (o : orders) (r : JoinGroupResponse) : list item :=
  (if 2 <=? jr_Version r then [Data (putInt32 (jr_ThrottleTime r))] else []) ++
  [Data (putInt16 (jr_Err r)); Data (putInt32 (jr_GenerationId r)); Data (putString (jr_GroupProtocol r));
   Data (putString (jr_LeaderId r)); Data (putString (jr_MemberId r))] ++
  put_map o [] (jr_Members r) bytes_entry.
Definition JoinGroupResponse_decode (version : Z) : rd_get JoinGroupResponse :=
  get* throttle := if 2 <=? version then getInt32 else rd_ret 0 in
  get* err := getInt16 in
  get* generation := getInt32 in
  get* protocol := getString in
  get* leader := getString in
  get* member := getString in
  get* members := get_map (get_entry getString getBytes) in
  rd_ret (mk_JoinGroupResponse version throttle err generation protocol leader member members).
Definition JoinGroupResponse_body : protocolBody JoinGroupResponse := {|
  key _ := 11; version := jr_Version;
  requiredVersion r := if jr_Version r =? 2 then V0_11_0_0 else if jr_Version r =? 1 then V0_10_1_0 else V0_9_0_0;
  body_metrics _ := Ret 0; body_encode o r := Ret (JoinGroupResponse_encode o r); body_decode := JoinGroupResponse_decode |}.
#[export] Existing Instance JoinGroupResponse_body.

(** [decode(bin, x)] leaves [x] as it is when [bin] is nil. *)
Definition decode_into {A} (m : rd_get A) (x : A) (bin : option bytes) : Go (A + decode_error) :=
  match bin with None => Ret (inl x) | Some b => decode m b end.
(** [func (r *JoinGroupResponse) GetMembers()], the first error in the order of the loop *)
Fixpoint decode_members (l : list (bytes * option bytes)) (members : gmap bytes ConsumerGroupMemberMetadata) :
    Go (gmap bytes ConsumerGroupMemberMetadata + decode_error) :=
  match l with
  | [] => Ret (inl members)
  | (id, bin) :: l =>
      let* r := decode_into ConsumerGroupMemberMetadata_decode (mk_member_metadata 0 [] None) bin in
      match r with
      | inr e => Ret (inr e)
      | inl meta => decode_members l (<[id := meta]> members)
      end
  end.
Definition GetMembers (o : orders) (r : JoinGroupResponse) : Go (gmap bytes ConsumerGroupMemberMetadata + decode_error) :=
  decode_members (range_map o [] (jr_Members r)) ∅.

(** ** Synchronizing *)

(** [type SyncGroupRequest struct] *)
Record SyncGroupRequest := mk_SyncGroupRequest {
  sq_GroupId : bytes; sq_GenerationId : Z; sq_MemberId : bytes; GroupAssignments : gmap bytes (option bytes) }.
Definition SyncGroupRequest_encode (o : orders) (r : SyncGroupRequest) : list item :=
  [Data (putString (sq_GroupId r)); Data (putInt32 (sq_GenerationId r)); Data (putString (sq_MemberId r))] ++
  put_map o [] (GroupAssignments r) bytes_entry.
Definition SyncGroupRequest_decode (_ : Z) : rd_get SyncGroupRequest :=
  get* group := getString in
  get* generation := getInt32 in
  get* member := getString in
  get* assignments := get_map (get_entry getString getBytes) in
  rd_ret (mk_SyncGroupRequest group generation member assignments).
Definition SyncGroupRequest_body : protocolBody SyncGroupRequest := {|
  key _ := 14; version _ := 0; requiredVersion _ := V0_9_0_0;
  body_metrics _ := Ret 0; body_encode o r := Ret (SyncGroupRequest_encode o r); body_decode := SyncGroupRequest_decode |}.
#[export] Existing Instance SyncGroupRequest_body.
(** [func (r *SyncGroupRequest) AddGroupAssignment(memberId string, memberAssignment []byte)] *)
Definition AddGroupAssignment (memberId : bytes) (a : option bytes) (r : SyncGroupRequest) : SyncGroupRequest :=
  mk_SyncGroupRequest (sq_GroupId r) (sq_GenerationId r) (sq_MemberId r) (<[memberId := a]> (GroupAssignments r)).

(** [type SyncGroupResponse struct] *)
Record SyncGroupResponse := mk_SyncGroupResponse { sr_Err : Z; sr_MemberAssignment : option bytes }.
Definition SyncGroupResponse_encode (r : SyncGroupResponse) : list item :=
  [Data (putInt16 (sr_Err r)); Data (putBytes (sr_MemberAssignment r))].
Definition SyncGroupResponse_decode (_ : Z) : rd_get SyncGroupResponse :=
  get* err := getInt16 in get* a := getBytes in rd_ret (mk_SyncGroupResponse err a).
Definition SyncGroupResponse_body : protocolBody SyncGroupResponse := {|
  key _ := 14; version _ := 0; requiredVersion _ := V0_9_0_0;
  body_metrics _ := Ret 0; body_encode _ r := Ret (SyncGroupResponse_encode r); body_decode := SyncGroupResponse_decode |}.
#[export] Existing Instance SyncGroupResponse_body.
(** [func (r *SyncGroupResponse) GetMemberAssignment()] *)
Definition GetMemberAssignment (r : SyncGroupResponse) : Go (ConsumerGroupMemberAssignment + decode_error) :=
  decode_into ConsumerGroupMemberAssignment_decode (mk_assignment 0 ∅ None) (sr_MemberAssignment r).

Section encoded.
Context (checksum : crcPolynomial → bytes → Z).
(** [func (r *JoinGroupRequest) AddGroupProtocolMetadata(name string, metadata)] *)
Definition AddGroupProtocolMetadata (name : bytes) (m : ConsumerGroupMemberMetadata) (r : JoinGroupRequest) :
    Go (JoinGroupRequest + packet_error) :=
  let* bin := encode checksum ∅ (ConsumerGroupMemberMetadata_encode m ≫= calls) in
  Ret (match bin with inl b => inl (AddGroupProtocol name (Some b) r) | inr e => inr e end).
(** [func (r *SyncGroupRequest) AddGroupAssignmentMember(memberId string, memberAssignment)]; the
    two passes may visit the topics in two orders. *)
Definition AddGroupAssignmentMember (o o' : orders) (memberId : bytes) (m : ConsumerGroupMemberAssignment) (r : SyncGroupRequest) :
    Go (SyncGroupRequest + packet_error) :=
  let* bin := encode_passes checksum ∅ (ConsumerGroupMemberAssignment_encode o m ≫= calls)
                (ConsumerGroupMemberAssignment_encode o' m ≫= calls) in
  Ret (match bin with inl b => inl (AddGroupAssignment memberId (Some b) r) | inr e => inr e end).
End encoded.

(** ** Staying and leaving *)

(** [type HeartbeatRequest struct], [type HeartbeatResponse struct] *)
Record HeartbeatRequest := mk_HeartbeatRequest { hq_GroupId : bytes; hq_GenerationId : Z; hq_MemberId : bytes }.
Definition HeartbeatRequest_encode (r : HeartbeatRequest) : list item :=
  [Data (putString (hq_GroupId r)); Data (putInt32 (hq_GenerationId r)); Data (putString (hq_MemberId r))].
Definition HeartbeatRequest_decode (_ : Z) : rd_get HeartbeatRequest :=
  get* group := getString in get* generation := getInt32 in get* member := getString in
  rd_ret (mk_HeartbeatRequest group generation member).
Definition HeartbeatRequest_body : protocolBody HeartbeatRequest := {|
  key _ := 12; version _ := 0; requiredVersion _ := V0_9_0_0;
  body_metrics _ := Ret 0; body_encode _ r := Ret (HeartbeatRequest_encode r); body_decode := HeartbeatRequest_decode |}.
#[export] Existing Instance HeartbeatRequest_body.

Record HeartbeatResponse := mk_HeartbeatResponse { hr_Err : Z }.
Definition HeartbeatResponse_encode (r : HeartbeatResponse) : list item := [Data (putInt16 (hr_Err r))].
Definition HeartbeatResponse_decode (_ : Z) : rd_get HeartbeatResponse := get* err := getInt16 in rd_ret (mk_HeartbeatResponse err).
Definition HeartbeatResponse_body : protocolBody HeartbeatResponse := {|
  key _ := 12; version _ := 0; requiredVersion _ := V0_9_0_0;
  body_metrics _ := Ret 0; body_encode _ r := Ret (HeartbeatResponse_encode r); body_decode := HeartbeatResponse_decode |}.
#[export] Existing Instance HeartbeatResponse_body.

(** [type LeaveGroupRequest struct], [type LeaveGroupResponse struct] *)
Record LeaveGroupRequest := mk_LeaveGroupRequest { lq_GroupId : bytes; lq_MemberId : bytes }.
Definition LeaveGroupRequest_encode (r : LeaveGroupRequest) : list item :=
  [Data (putString (lq_GroupId r)); Data (putString (lq_MemberId r))].
Definition LeaveGroupRequest_decode (_ : Z) : rd_get LeaveGroupRequest :=
  get* group := getString in get* member := getString in rd_ret (mk_LeaveGroupRequest group member).
Definition LeaveGroupRequest_body : protocolBody LeaveGroupRequest := {|
  key _ := 13; version _ := 0; requiredVersion _ := V0_9_0_0;
  body_metrics _ := Ret 0; body_encode _ r := Ret (LeaveGroupRequest_encode r); body_decode := LeaveGroupRequest_decode |}.
#[export] Existing Instance LeaveGroupRequest_body.

Record LeaveGroupResponse := mk_LeaveGroupResponse { lr_Err : Z }.
Definition LeaveGroupResponse_encode (r : LeaveGroupResponse) : list item := [Data (putInt16 (lr_Err r))].
Definition LeaveGroupResponse_decode (_ : Z) : rd_get LeaveGroupResponse := get* err := getInt16 in rd_ret (mk_LeaveGroupResponse err).
Definition LeaveGroupResponse_body : protocolBody LeaveGroupResponse := {|
  key _ := 13; version _ := 0; requiredVersion _ := V0_9_0_0;
  body_metrics _ := Ret 0; body_encode _ r := Ret (LeaveGroupResponse_encode r); body_decode := LeaveGroupResponse_decode |}.
#[export] Existing Instance LeaveGroupResponse_body.

(** ** Administration *)

(** [type ListGroupsRequest struct], [type ListGroupsResponse struct] *)
Record ListGroupsRequest := mk_ListGroupsRequest {}.
Definition ListGroupsRequest_body : protocolBody ListGroupsRequest := {|
  key _ := 16; version _ := 0; requiredVersion _ := V0_9_0_0;
  body_metrics _ := Ret 0; body_encode _ _ := Ret []; body_decode _ := rd_ret mk_ListGroupsRequest |}.
#[export] Existing Instance ListGroupsRequest_body.

Record ListGroupsResponse := mk_ListGroupsResponse { lg_Err : Z; lg_Groups : gmap bytes bytes }.
Definition ListGroupsResponse_encode (o : orders) (r : ListGroupsResponse) : list item :=
  [Data (putInt16 (lg_Err r))] ++ put_map o [] (lg_Groups r) string_entry.
Definition ListGroupsResponse_decode (_ : Z) : rd_get ListGroupsResponse :=
  get* err := getInt16 in
  get* groups := get_map (get_entry getString getString) in
  rd_ret (mk_ListGroupsResponse err groups).
Definition ListGroupsResponse_body : protocolBody ListGroupsResponse := {|
  key _ := 16; version _ := 0; requiredVersion _ := V0_9_0_0;
  body_metrics _ := Ret 0; body_encode o r := Ret (ListGroupsResponse_encode o r); body_decode := ListGroupsResponse_decode |}.
#[export] Existing Instance ListGroupsResponse_body.

(** [type DescribeGroupsRequest struct] *)
Record DescribeGroupsRequest := mk_DescribeGroupsRequest { dq_Groups : list bytes }.
Definition DescribeGroupsRequest_encode (r : DescribeGroupsRequest) : list item := [Data (putStringArray (dq_Groups r))].
Definition DescribeGroupsRequest_decode (_ : Z) : rd_get DescribeGroupsRequest :=
  get* groups := getStringArray in rd_ret (mk_DescribeGroupsRequest groups).
Definition DescribeGroupsRequest_body : protocolBody DescribeGroupsRequest := {|
  key _ := 15; version _ := 0; requiredVersion _ := V0_9_0_0;
  body_metrics _ := Ret 0; body_encode _ r := Ret (DescribeGroupsRequest_encode r); body_decode := DescribeGroupsRequest_decode |}.
#[export] Existing Instance DescribeGroupsRequest_body.
(** [func (r *DescribeGroupsRequest) AddGroup(group string)] *)
Definition DescribeGroupsRequest_AddGroup (group : bytes) (r : DescribeGroupsRequest) : DescribeGroupsRequest :=
  mk_DescribeGroupsRequest (dq_Groups r ++ [group]).

(** [type GroupMemberDescription struct], [type GroupDescription struct],
    [type DescribeGroupsResponse struct] *)
Record GroupMemberDescription := mk_member_description {
  md_ClientId : bytes; md_ClientHost : bytes; md_MemberMetadata : option bytes; md_MemberAssignment : option bytes }.
Definition GroupMemberDescription_encode (d : GroupMemberDescription) : list item :=
  [Data (putString (md_ClientId d)); Data (putString (md_ClientHost d));
   Data (putBytes (md_MemberMetadata d)); Data (putBytes (md_MemberAssignment d))].
Definition GroupMemberDescription_decode : rd_get GroupMemberDescription :=
  get* client := getString in get* host := getString in get* metadata := getBytes in get* assignment := getBytes in
  rd_ret (mk_member_description client host metadata assignment).
(** [GetMemberAssignment] and [GetMemberMetadata] of a member *)
Definition description_GetMemberAssignment (d : GroupMemberDescription) : Go (ConsumerGroupMemberAssignment + decode_error) :=
  decode_into ConsumerGroupMemberAssignment_decode (mk_assignment 0 ∅ None) (md_MemberAssignment d).
Definition description_GetMemberMetadata (d : GroupMemberDescription) : Go (ConsumerGroupMemberMetadata + decode_error) :=
  decode_into ConsumerGroupMemberMetadata_decode (mk_member_metadata 0 [] None) (md_MemberMetadata d).

Record GroupDescription := mk_description {
  gd_Err : Z; gd_GroupId : bytes; gd_State : bytes; gd_ProtocolType : bytes; gd_Protocol : bytes;
  gd_Members : gmap bytes GroupMemberDescription }.
Definition GroupDescription_encode (o : orders) (p : list nat) (gd : GroupDescription) : list item :=
  [Data (putInt16 (gd_Err gd)); Data (putString (gd_GroupId gd)); Data (putString (gd_State gd));
   Data (putString (gd_ProtocolType gd)); Data (putString (gd_Protocol gd))] ++
  put_map o p (gd_Members gd) (fun _ e => Data (putString e.1) :: GroupMemberDescription_encode e.2).
Definition GroupDescription_decode : rd_get GroupDescription :=
  get* err := getInt16 in
  get* group := getString in
  get* state := getString in
  get* type := getString in
  get* protocol := getString in
  get* members := get_map (get_entry getString GroupMemberDescription_decode) in
  rd_ret (mk_description err group state type protocol members).

Record DescribeGroupsResponse := mk_DescribeGroupsResponse { dr_Groups : list GroupDescription }.
Definition DescribeGroupsResponse_encode (o : orders) (r : DescribeGroupsResponse) : list item :=
  put_each [] (dr_Groups r) (GroupDescription_encode o).
Definition DescribeGroupsResponse_decode (_ : Z) : rd_get DescribeGroupsResponse :=
  get* groups := get_array GroupDescription_decode in rd_ret (mk_DescribeGroupsResponse groups).
Definition DescribeGroupsResponse_body : protocolBody DescribeGroupsResponse := {|
  key _ := 15; version _ := 0; requiredVersion _ := V0_9_0_0;
  body_metrics _ := Ret 0; body_encode o r := Ret (DescribeGroupsResponse_encode o r); body_decode := DescribeGroupsResponse_decode |}.
#[export] Existing Instance DescribeGroupsResponse_body.

(** [type DeleteGroupsRequest struct], [type DeleteGroupsResponse struct] *)
Record DeleteGroupsRequest := mk_DeleteGroupsRequest { xq_Groups : list bytes }.
Definition DeleteGroupsRequest_encode (r : DeleteGroupsRequest) : list item := [Data (putStringArray (xq_Groups r))].
Definition DeleteGroupsRequest_decode (_ : Z) : rd_get DeleteGroupsRequest :=
  get* groups := getStringArray in rd_ret (mk_DeleteGroupsRequest groups).
Definition DeleteGroupsRequest_body : protocolBody DeleteGroupsRequest := {|
  key _ := 42; version _ := 0; requiredVersion _ := V1_1_0_0;
  body_metrics _ := Ret 0; body_encode _ r := Ret (DeleteGroupsRequest_encode r); body_decode := DeleteGroupsRequest_decode |}.
#[export] Existing Instance DeleteGroupsRequest_body.
(** [func (r *DeleteGroupsRequest) AddGroup(group string)] *)
Definition DeleteGroupsRequest_AddGroup (group : bytes) (r : DeleteGroupsRequest) : DeleteGroupsRequest :=
  mk_DeleteGroupsRequest (xq_Groups r ++ [group]).

Record DeleteGroupsResponse := mk_DeleteGroupsResponse { xr_ThrottleTime : Z; GroupErrorCodes : gmap bytes Z }.
Definition DeleteGroupsResponse_encode (o : orders) (r : DeleteGroupsResponse) : list item :=
  [put_millis (xr_ThrottleTime r)] ++ put_map o [] (GroupErrorCodes r) code_entry.
Definition DeleteGroupsResponse_decode (_ : Z) : rd_get DeleteGroupsResponse :=
  get* throttle := get_millis in
  get* codes := get_map (get_entry getString getInt16) in
  rd_ret (mk_DeleteGroupsResponse throttle codes).
Definition DeleteGroupsResponse_body : protocolBody DeleteGroupsResponse := {|
  key _ := 42; version _ := 0; requiredVersion _ := V1_1_0_0;
  body_metrics _ := Ret 0; body_encode o r := Ret (DeleteGroupsResponse_encode o r); body_decode := DeleteGroupsResponse_decode |}.
#[export] Existing Instance DeleteGroupsResponse_body.

(** ** Laws *)

Section laws.
Context (checksum : crcPolynomial → bytes → Z).

#[local] Hint Unfold JoinGroupRequest_encode JoinGroupRequest_decode JoinGroupResponse_encode JoinGroupResponse_decode
  SyncGroupRequest_encode SyncGroupRequest_decode SyncGroupResponse_encode SyncGroupResponse_decode
  HeartbeatRequest_encode HeartbeatRequest_decode HeartbeatResponse_encode HeartbeatResponse_decode
  LeaveGroupRequest_encode LeaveGroupRequest_decode LeaveGroupResponse_encode LeaveGroupResponse_decode
  ListGroupsResponse_encode ListGroupsResponse_decode DescribeGroupsRequest_encode DescribeGroupsRequest_decode
  DescribeGroupsResponse_encode DescribeGroupsResponse_decode DeleteGroupsRequest_encode DeleteGroupsRequest_decode
  DeleteGroupsResponse_encode DeleteGroupsResponse_decode: body.
#[local] Hint Unfold GroupProtocol_encode GroupMemberDescription_encode GroupDescription_encode : part.

#[export] Instance HeartbeatRequest_laws : protocolLaws checksum HeartbeatRequest.
Proof. body_auto (fun _ : orders => HeartbeatRequest_encode) (fun r => int_ok 32 (hq_GenerationId r)) (@id HeartbeatRequest). Defined.
#[export] Instance HeartbeatResponse_laws : protocolLaws checksum HeartbeatResponse.
Proof. body_auto (fun _ : orders => HeartbeatResponse_encode) (fun r => int_ok 16 (hr_Err r)) (@id HeartbeatResponse). Defined.
#[export] Instance LeaveGroupRequest_laws : protocolLaws checksum LeaveGroupRequest.
Proof. body_auto (fun _ : orders => LeaveGroupRequest_encode) (fun _ : LeaveGroupRequest => True) (@id LeaveGroupRequest). Defined.
#[export] Instance LeaveGroupResponse_laws : protocolLaws checksum LeaveGroupResponse.
Proof. body_auto (fun _ : orders => LeaveGroupResponse_encode) (fun r => int_ok 16 (lr_Err r)) (@id LeaveGroupResponse). Defined.
#[export] Instance JoinGroupResponse_laws : protocolLaws checksum JoinGroupResponse.
Proof.
  body_auto JoinGroupResponse_encode (fun r => int_ok 16 (jr_Version r) ∧ int_ok 32 (jr_ThrottleTime r) ∧ int_ok 16 (jr_Err r) ∧
    int_ok 32 (jr_GenerationId r) ∧ short (size (jr_Members r)) ∧ ((2 <=? jr_Version r) = false → jr_ThrottleTime r = 0))
    (@id JoinGroupResponse).
Defined.
#[export] Instance SyncGroupRequest_laws : protocolLaws checksum SyncGroupRequest.
Proof.
  body_auto SyncGroupRequest_encode (fun r => int_ok 32 (sq_GenerationId r) ∧ short (size (GroupAssignments r))) (@id SyncGroupRequest).
Defined.
#[export] Instance SyncGroupResponse_laws : protocolLaws checksum SyncGroupResponse.
Proof. body_auto (fun _ : orders => SyncGroupResponse_encode) (fun r => int_ok 16 (sr_Err r)) (@id SyncGroupResponse). Defined.
#[export] Instance ListGroupsRequest_laws : protocolLaws checksum ListGroupsRequest.
Proof. body_auto (fun (_ : orders) (_ : ListGroupsRequest) => @nil item) (fun _ : ListGroupsRequest => True) (@id ListGroupsRequest). Defined.
#[export] Instance ListGroupsResponse_laws : protocolLaws checksum ListGroupsResponse.
Proof.
  body_auto ListGroupsResponse_encode (fun r => int_ok 16 (lg_Err r) ∧ short (size (lg_Groups r))) (@id ListGroupsResponse).
Defined.
#[export] Instance DescribeGroupsRequest_laws : protocolLaws checksum DescribeGroupsRequest.
Proof. body_auto (fun _ : orders => DescribeGroupsRequest_encode) (fun _ : DescribeGroupsRequest => True) (@id DescribeGroupsRequest). Defined.
#[export] Instance DeleteGroupsRequest_laws : protocolLaws checksum DeleteGroupsRequest.
Proof. body_auto (fun _ : orders => DeleteGroupsRequest_encode) (fun _ : DeleteGroupsRequest => True) (@id DeleteGroupsRequest). Defined.
#[export] Instance DeleteGroupsResponse_laws : protocolLaws checksum DeleteGroupsResponse.
Proof.
  body_auto DeleteGroupsResponse_encode (fun r => millis_ok (xr_ThrottleTime r) ∧ short (size (GroupErrorCodes r)) ∧
    map_Forall (fun _ => int_ok 16) (GroupErrorCodes r)) (@id DeleteGroupsResponse).
Defined.

(** A request to join names its protocols in [OrderedGroupProtocols]; the other side also finds
    them in the map. *)
Lemma wire_protocol x : wire checksum (GroupProtocol_encode x) GroupProtocol_decode x.
Proof. destruct x. unfold GroupProtocol_decode, GroupProtocol_encode. wire_parts. Qed.
Lemma wire_protocols l : short (length l) → wire checksum (put_array l GroupProtocol_encode) (get_list GroupProtocol_decode) l.
Proof. intros Hl. apply (wire_list _ (fun _ => True)); [intros x _; apply wire_protocol|done|done|by apply Forall_true]. Qed.
#[local] Hint Resolve wire_protocols : wire.

Definition join_valid (r : JoinGroupRequest) : Prop :=
  int_ok 16 (jq_Version r) ∧ int_ok 32 (jq_SessionTimeout r) ∧ int_ok 32 (jq_RebalanceTimeout r) ∧
  ((1 <=? jq_Version r) = false → jq_RebalanceTimeout r = 0) ∧
  GroupProtocols r = ∅ ∧ short (length (OrderedGroupProtocols r)).
Definition join_received (r : JoinGroupRequest) : JoinGroupRequest :=
  mk_JoinGroupRequest (jq_Version r) (jq_GroupId r) (jq_SessionTimeout r) (jq_RebalanceTimeout r) (jq_MemberId r)
    (jq_ProtocolType r) (protocols_map (OrderedGroupProtocols r)) (OrderedGroupProtocols r).
#[export] Instance JoinGroupRequest_laws : protocolLaws checksum JoinGroupRequest.
Proof.
  refine (body_laws _ JoinGroupRequest_encode join_valid join_received _ _ _ _ _); [done|..].
  - by intros r [? _].
  - intros o []. autounfold with body part. cbn. auto 20 with wire.
  - intros o [v g st rt m t gp l] Ho (_ & H1 & H2 & H3 & E & H4). cbn in *. subst gp.
    unfold JoinGroupRequest_encode, JoinGroupRequest_decode, join_received. cbn.
    rewrite map_size_empty. wire_parts.
  - intros o o' [] Ho Ho'. autounfold with body part. cbn. auto 20 with order.
Defined.

Lemma wire_member x : wire checksum (GroupMemberDescription_encode x) GroupMemberDescription_decode x.
Proof. destruct x. unfold GroupMemberDescription_decode, GroupMemberDescription_encode. wire_parts. Qed.
Lemma wire_members o p m : fair o → short (size m) →
  wire checksum (put_map o p m (fun _ e => Data (putString e.1) :: GroupMemberDescription_encode e.2))
    (get_map (get_entry getString GroupMemberDescription_decode)) m.
Proof.
  intros Ho Hm. apply (wire_gmap _ (fun _ _ => True)); [done|done| |done|by intros ???].
  intros q k v _. apply (wire_entry _ [_]); [apply wire_string|apply wire_member].
Qed.
#[local] Hint Resolve wire_members : wire.
Definition description_valid (d : GroupDescription) : Prop := int_ok 16 (gd_Err d) ∧ short (size (gd_Members d)).
Lemma wire_description o p d : fair o → description_valid d →
  wire checksum (GroupDescription_encode o p d) GroupDescription_decode d.
Proof. destruct d. intros Ho [? ?]. unfold GroupDescription_decode, GroupDescription_encode. cbn in *. wire_parts. Qed.
Lemma wire_descriptions o l : fair o → short (length l) → Forall description_valid l →
  wire checksum (put_each [] l (GroupDescription_encode o)) (get_array GroupDescription_decode) l.
Proof.
  intros Ho Hn Hl. rewrite <- (list_fmap_id l) at 2. apply wire_each; [done|].
  eapply Forall_impl; [exact Hl|]. intros d Hd p. split; [done|]. by apply wire_description.
Qed.
#[local] Hint Resolve wire_descriptions : wire.
#[export] Instance DescribeGroupsResponse_laws : protocolLaws checksum DescribeGroupsResponse.
Proof.
  refine (body_laws _ DescribeGroupsResponse_encode
    (fun r => short (length (dr_Groups r)) ∧ Forall description_valid (dr_Groups r)) id _ _ _ _ _); [done|done|..].
  - intros o []. autounfold with body part. cbn. auto 20 with wire.
  - intros o [] Ho [? ?]. cbn in *. unfold DescribeGroupsResponse_encode, DescribeGroupsResponse_decode. cbn. wire_parts.
  - intros o o' [] Ho Ho'. autounfold with body part. cbn. auto 20 with order.
Defined.

(** ** The subscription and the assignment of a member *)

Lemma wire_member_metadata m : int_ok 16 (mm_Version m) →
  wire checksum (ConsumerGroupMemberMetadata_encode m) ConsumerGroupMemberMetadata_decode m.
Proof.
  destruct m. unfold ConsumerGroupMemberMetadata_encode, ConsumerGroupMemberMetadata_decode. cbn. intros ?. wire_parts.
Qed.
Definition assignment_valid (m : ConsumerGroupMemberAssignment) : Prop :=
  int_ok 16 (ma_Version m) ∧ short (size (ma_Topics m)) ∧ map_Forall (fun _ => Forall (int_ok 32)) (ma_Topics m).
Lemma wire_assignment o m : fair o → assignment_valid m →
  wire checksum (ConsumerGroupMemberAssignment_encode o m) ConsumerGroupMemberAssignment_decode m.
Proof.
  destruct m. unfold assignment_valid, ConsumerGroupMemberAssignment_encode, ConsumerGroupMemberAssignment_decode. cbn.
  intros Ho (? & ? & ?). wire_parts.
Qed.
Lemma assignment_plain o m : plain (ConsumerGroupMemberAssignment_encode o m).
Proof. unfold ConsumerGroupMemberAssignment_encode. autounfold with part. auto 20 with wire. Qed.

(** What the leader of a group assigns with [AddGroupAssignmentMember] is what the member gets
    from the response that carries it. *)
Theorem assignment_delivered o o' id m r r' err :
  fair o → fair o' → assignment_valid m →
  AddGroupAssignmentMember checksum o o' id m r = Ret (inl r') →
  ∃ bin, GroupAssignments r' = <[id := Some bin]> (GroupAssignments r) ∧
    GetMemberAssignment (mk_SyncGroupResponse err (Some bin)) = Ret (inl m).
Proof.
  intros Ho Ho' Hm. unfold AddGroupAssignmentMember. destruct (encode_passes _ _ _ _) as [[bin|e]|] eqn:E; [|done..].
  intros [= <-]. exists bin. split; [done|]. unfold GetMemberAssignment, decode_into. cbn [sr_MemberAssignment].
  eapply encode_orders_decode in E as (_ & _ & _ & ->); [done|apply assignment_plain..| |by apply wire_assignment].
  apply alike_order. unfold ConsumerGroupMemberAssignment_encode. auto 20 with order.
Qed.
End laws.
