(* ===== verification/KafkaBalance.v ===== *)
(** * [kafka/balance_strategy.go]: the distribution of partitions in a consumer group

    The two strategies and the plan they fill.  A [float64] is the rational it stands for, with
    the rounding of each operation to 53 bits written out; the order in which maps are ranged
    over and the order [sort.Sort] gives to members of the same hash are parameters. *)

From Stdlib Require Import QArith.Qround QArith.QArith QArith.Qabs Lqa.
From Stdlib Require QArith.Qcanon.
From S2P Require Import Prelude GoStrings KafkaDecoderProps KafkaGroups.
#[local] Open Scope Z_scope.

(** ** [float64], for values that are neither negative nor out of the range of exponents *)

(** [n/d] to the nearest integer, ties to even *)
Definition half_even (n d : Z) : Z :=
  let q := n / d in
  let r := 2 * (n mod d) in
  if r <? d then q else if d <? r then q + 1 else if Z.even q then q else q + 1.

(** [2^e <= n/d], for an exponent of either sign *)
Definition pow_le (e n d : Z) : bool := d * 2 ^ Z.max 0 e <=? n * 2 ^ Z.max 0 (- e).
(** The exponent of the leading bit of [n/d] *)
Definition exponent (n d : Z) : Z :=
  let e := Z.log2 n - Z.log2 d in if pow_le e n d then e else e - 1.

(** The value an operation with the exact result [q] gives *)
Definition rnd (q : Q) : Q :=
  let n := Qnum q in
  let d := Z.pos (Qden q) in
  if n =? 0 then 0%Q
  else
    let x := exponent n d - 52 in
    let m := half_even (n * 2 ^ Z.max 0 (- x)) (d * 2 ^ Z.max 0 x) in
    Qred (inject_Z (m * 2 ^ Z.max 0 x) / inject_Z (2 ^ Z.max 0 (- x))).

Definition float64 (i : Z) : Q := rnd (inject_Z i).
Definition fadd (a b : Q) : Q := rnd (a + b).
Definition fmul (a b : Q) : Q := rnd (a * b).
Definition fdiv (a b : Q) : Q := rnd (a / b).
(** [int(math.Floor(x))] *)
Definition floor (x : Q) : Z := Qfloor x.

(** ** The plan *)

(** [type BalanceStrategyPlan map[string]map[string][]int32] *)
Abbreviation BalanceStrategyPlan := (gmap bytes (gmap bytes (list Z))).

(** [func (p BalanceStrategyPlan) Add(memberID, topic string, partitions ...int32)] *)
Definition Add (memberID topic : bytes) (partitions : list Z) (p : BalanceStrategyPlan) : BalanceStrategyPlan :=
  if len partitions =? 0 then p
  else
    let ts := default ∅ (p !! memberID) in
    <[memberID := <[topic := default [] (ts !! topic) ++ partitions]> ts]> p.

(** The core of a strategy *)
Abbreviation core_fn := (BalanceStrategyPlan → list bytes → bytes → list Z → Go BalanceStrategyPlan).

(** [int(math.Floor(pos*step + 0.5))] *)
Definition cut (pos step : Q) : Z := floor (fadd (fmul pos step) (1 # 2)).

Fixpoint range_loop (i : Z) (step : Q) (plan : BalanceStrategyPlan) (memberIDs : list bytes) (topic : bytes)
    (partitions : list Z) : Go BalanceStrategyPlan :=
  match memberIDs with
  | [] => Ret plan
  | memberID :: memberIDs' =>
      let pos := float64 i in
      let min := cut pos step in
      let max := cut (fadd pos 1) step in
      let* ps := go_slice partitions min max in
      range_loop (i + 1) step (Add memberID topic ps plan) memberIDs' topic partitions
  end.
(** [var BalanceStrategyRange] *)
Definition range_core : core_fn := fun plan memberIDs topic partitions =>
  range_loop 0 (fdiv (float64 (len partitions)) (float64 (len memberIDs))) plan memberIDs topic partitions.

Fixpoint roundRobin_loop (i : Z) (plan : BalanceStrategyPlan) (memberIDs : list bytes) (topic : bytes)
    (partitions : list Z) : Go BalanceStrategyPlan :=
  match partitions with
  | [] => Ret plan
  | part :: partitions' =>
      if len memberIDs =? 0 then Panic DivideByZero
      else
        let* memberID := go_index memberIDs (i mod len memberIDs) in
        roundRobin_loop (i + 1) (Add memberID topic [part] plan) memberIDs topic partitions'
  end.
(** [var BalanceStrategyRoundRobin] *)
Definition roundRobin_core : core_fn := roundRobin_loop 0.

(** [type balanceStrategy struct] *)
Record balanceStrategy := mk_strategy { strategy_name : bytes; coreFn : core_fn }.
Definition BalanceStrategyRange : balanceStrategy := mk_strategy (B "range") range_core.
Definition BalanceStrategyRoundRobin : balanceStrategy := mk_strategy (B "roundrobin") roundRobin_core.

(** [func balanceStrategyHashValue(vv ...string) uint32], over the runes of the strings *)
Definition balanceStrategyHashValue (vv : list bytes) : Z :=
  fold_left (fun h s => fold_left (fun h c => uwrap 32 (Z.lxor h (uwrap 32 c) * 16777619)) (snd <$> range s) h) vv 2166136261.

(** [func (p balanceStrategySortable) Less(i, j int) bool], on the members compared *)
Definition Less (topic a b : bytes) : bool :=
  balanceStrategyHashValue [topic; a] <? balanceStrategyHashValue [topic; b].

Section plan.
(** The order of ranging over a map; [sort.Sort] with [Less] of the topic. *)
Context (range_of : ∀ V : Type, gmap bytes V → list (bytes * V)) (sort_Sort : bytes → list bytes → list bytes).

(** The members of each topic, in the order they are ranged over *)
Definition append_member (memberID : bytes) (mbt : gmap bytes (list bytes)) (topic : bytes) : gmap bytes (list bytes) :=
  <[topic := default [] (mbt !! topic) ++ [memberID]]> mbt.
Definition members_by_topic (members : gmap bytes ConsumerGroupMemberMetadata) : gmap bytes (list bytes) :=
  fold_left (fun mbt m => fold_left (append_member m.1) (mm_Topics m.2) mbt) (range_of _ members) ∅.

Fixpoint assemble (core : core_fn) (topics : gmap bytes (list Z)) (mbt : list (bytes * list bytes)) (plan : BalanceStrategyPlan) :
    Go BalanceStrategyPlan :=
  match mbt with
  | [] => Ret plan
  | (topic, memberIDs) :: mbt' =>
      let* plan := core plan memberIDs topic (default [] (topics !! topic)) in assemble core topics mbt' plan
  end.

(** [func (s balanceStrategy) Plan(members map[string]ConsumerGroupMemberMetadata, topics
    map[string][]int32) (BalanceStrategyPlan, error)] *)
Definition Plan (s : balanceStrategy) (members : gmap bytes ConsumerGroupMemberMetadata) (topics : gmap bytes (list Z)) :
    Go BalanceStrategyPlan :=
  let mbt := map_imap (fun topic memberIDs => Some (sort_Sort topic memberIDs)) (members_by_topic members) in
  assemble (coreFn s) topics (range_of _ mbt) ∅.
End plan.

(** * Properties: the distribution of partitions ([kafka/balance_strategy.go])

    Whatever the rounding of its quotients, the range strategy cuts the partitions of a topic
    into consecutive ranges; with either strategy every partition of a topic is given to
    exactly one of its members. *)
(** ** Rounding *)

Lemma half_even_error n d : 0 < d → 2 * Z.abs (half_even n d * d - n) ≤ d.
Proof.
  intros Hd. unfold half_even. pose proof (Z.div_mod n d ltac:(lia)) as E. pose proof (Z.mod_pos_bound n d Hd).
  destruct (Z.ltb_spec (2 * (n mod d)) d); [|destruct (Z.ltb_spec d (2 * (n mod d))); [|destruct (Z.even _)]]; nia.
Qed.

Lemma half_even_by_one n : half_even n 1 = n.
Proof. unfold half_even. by rewrite Z.mod_1_r, Z.div_1_r. Qed.

(** The comparison does not depend on the common factor. *)
Lemma pow_le_shift e n d s u : 0 ≤ s → 0 ≤ u → s - u = e → pow_le e n d = (d * 2 ^ s <=? n * 2 ^ u).
Proof.
  intros Hs Hu He. unfold pow_le. set (k := s - Z.max 0 e). assert (0 ≤ k) as Hk by lia.
  replace s with (Z.max 0 e + k) by lia. replace u with (Z.max 0 (- e) + k) by lia.
  rewrite !Z.pow_add_r by lia. pose proof (Z.pow_pos_nonneg 2 k ltac:(lia) Hk).
  apply Bool.eq_true_iff_eq. rewrite !Z.leb_le. nia.
Qed.

Lemma exponent_le n d : 0 < n → 0 < d → pow_le (exponent n d) n d = true.
Proof.
  intros Hn Hd. unfold exponent. destruct (pow_le (Z.log2 n - Z.log2 d) n d) eqn:E; [done|]. clear E.
  pose proof (Z.log2_spec n Hn) as [Hl _]. pose proof (Z.log2_spec d Hd) as [_ Hu].
  pose proof (Z.log2_nonneg n). pose proof (Z.log2_nonneg d).
  rewrite (pow_le_shift _ _ _ (Z.log2 n) (Z.log2 d + 1)) by lia. rewrite <- Z.add_1_r in Hu. nia.
Qed.

Lemma exponent_small n k : 0 < n < 2 ^ k → exponent n 1 < k.
Proof.
  intros Hn. unfold exponent. assert (Z.log2 n < k) by (apply Z.log2_lt_pow2; lia). change (Z.log2 1) with 0. destruct (pow_le _ _ _); lia.
Qed.

(** The relative error of an operation *)
Definition eps : Q := 1 # 2 ^ 53.

Lemma rnd_error q : (0 <= q)%Q → (Qabs (rnd q - q) <= q * eps)%Q.
Proof.
  intros Hq. unfold rnd. destruct q as [n d]. cbn [Qnum Qden]. unfold Qle in Hq. cbn in Hq.
  destruct (Z.eqb_spec n 0) as [->|Hn]; [unfold Qle; cbn; lia|].
  set (x := exponent n (Z.pos d) - 52). set (a := Z.max 0 (- x)). set (b := Z.max 0 x).
  pose proof (exponent_le n (Z.pos d) ltac:(lia) ltac:(lia)) as He.
  rewrite (pow_le_shift _ _ _ (b + 52) a) in He by lia. apply Z.leb_le in He. rewrite Z.pow_add_r in He by lia.
  pose proof (Z.pow_pos_nonneg 2 a ltac:(lia) ltac:(lia)) as Ha. pose proof (Z.pow_pos_nonneg 2 b ltac:(lia) ltac:(lia)) as Hb.
  pose proof (half_even_error (n * 2 ^ a) (Z.pos d * 2 ^ b) ltac:(nia)) as Herr. set (m := half_even _ _) in *.
  rewrite Qred_correct. apply Qabs_Qle_condition.
  assert (∀ A : Z, 0 < A → ∃ p, A = Z.pos p) as Hpos by (intros [|p|p] ?; [lia|by exists p|lia]).
  destruct (Hpos _ Ha) as [pa Epa]. rewrite Epa in *.
  assert (inject_Z (m * 2 ^ b) / inject_Z (Z.pos pa) == (m * 2 ^ b) # pa)%Q as -> by (rewrite (Qmake_Qdiv (m * 2 ^ b) pa); reflexivity).
  unfold Qle, Qplus, Qopp, Qminus, Qmult, eps. cbn. rewrite !Pos2Z.inj_mul. set (T := 2 ^ b) in *. clearbody T. clear Epa Ha.
  set (P := Z.pos pa) in *. set (D := Z.pos d) in *. assert (0 < P ∧ 0 < D) as [HP HD] by (split; reflexivity || lia).
  change (Z.pos (2 ^ 53)) with (2 * 2 ^ 52). replace (m * T * D + - n * P) with (m * (D * T) - n * P) by ring.
  set (E := m * (D * T) - n * P) in *. assert (2 * 2 ^ 52 * Z.abs E ≤ n * P) as HE by nia.
  assert (- (n * P) ≤ 2 * 2 ^ 52 * E ≤ n * P) as HE' by lia. split; nia.
Qed.

Lemma rnd_int i : 0 ≤ i < 2 ^ 53 → rnd (inject_Z i) = inject_Z i.
Proof.
  intros Hi. unfold rnd. cbn [Qnum Qden inject_Z]. destruct (Z.eqb_spec i 0) as [->|Hn]; [done|].
  pose proof (exponent_small i 53 ltac:(lia)) as He. set (x := exponent i 1 - 52) in *.
  assert (Z.max 0 x = 0) as -> by lia. change (2 ^ 0) with 1. rewrite !Z.mul_1_r, half_even_by_one.
  pose proof (Z.pow_pos_nonneg 2 (Z.max 0 (- x)) ltac:(lia) ltac:(lia)) as Hp.
  rewrite <- (Qcanon.Qred_identity (inject_Z i)) by (simpl; apply Z.gcd_1_r). apply Qred_complete.
  rewrite inject_Z_mult, Qdiv_mult_l; [reflexivity|]. unfold Qeq. cbn. lia.
Qed.

(** ** The cuts of the range strategy *)

(** [i] of the [m] members have the first partitions up to [i * n / m], rounded. *)
Definition boundary (n m i : Z) : Z := cut (inject_Z i) (fdiv (inject_Z n) (inject_Z m)).

Lemma cut_near n m i :
  0 ≤ n ≤ 2 ^ 20 → 0 ≤ i ≤ m → 0 < m ≤ 2 ^ 20 →
  (Qabs (fadd (fmul (inject_Z i) (fdiv (inject_Z n) (inject_Z m))) (1 # 2) - (inject_Z i * (inject_Z n / inject_Z m) + (1 # 2))) <= 1 # 2 ^ 30)%Q.
Proof.
  intros Hn Hi Hm. unfold fadd, fmul, fdiv.
  assert (0 <= inject_Z n)%Q as Hn0 by (unfold Qle; simpl; lia). assert (inject_Z n <= 2 ^ 20 # 1)%Q as Hn1 by (unfold Qle; simpl; lia).
  assert (0 < inject_Z m)%Q as Hm0 by (unfold Qlt; simpl; lia). assert (0 <= inject_Z i)%Q as Hi0 by (unfold Qle; simpl; lia).
  assert (inject_Z i <= inject_Z m)%Q as Him by (rewrite <- Zle_Qle; lia).
  assert (0 <= inject_Z n / inject_Z m)%Q as Hr0 by (apply Qle_shift_div_l; [done|]; lra).
  assert (inject_Z m * (inject_Z n / inject_Z m) == inject_Z n)%Q as Hmr by (apply Qmult_div_r; intros E; rewrite E in Hm0; by apply Qlt_irrefl in Hm0).
  pose proof (rnd_error _ Hr0) as E1. set (r := (inject_Z n / inject_Z m)%Q) in *. set (step := rnd r) in *.
  apply Qabs_Qle_condition in E1. clearbody r step. unfold eps in E1.
  change (2 ^ 53)%positive with 9007199254740992%positive in *. change (2 ^ 30)%positive with 1073741824%positive.
  change (2 ^ 20)%Z with 1048576 in Hn1. set (N := inject_Z n) in *. set (M := inject_Z m) in *. set (I := inject_Z i) in *. clearbody N M I.
  assert (0 <= I * r)%Q as HX0 by nra. assert (I * r <= N)%Q as HX1 by nra.
  assert (- (I * r * (1 # 9007199254740992)) <= I * step - I * r <= I * r * (1 # 9007199254740992))%Q as E2 by nra.
  assert (0 <= I * step)%Q as Hp0 by lra. pose proof (rnd_error _ Hp0) as E3. apply Qabs_Qle_condition in E3. unfold eps in E3.
  change (2 ^ 53)%positive with 9007199254740992%positive in E3. set (a := rnd (I * step)) in *. clearbody a.
  assert (0 <= a + (1 # 2))%Q as Ha0 by lra. pose proof (rnd_error _ Ha0) as E4. apply Qabs_Qle_condition in E4. unfold eps in E4.
  change (2 ^ 53)%positive with 9007199254740992%positive in E4. set (c := rnd (a + (1 # 2))) in *. clearbody c.
  apply Qabs_Qle_condition. set (X := (I * r)%Q) in *. set (p := (I * step)%Q) in *. clearbody X p. split; lra.
Qed.

Lemma float64_int i : 0 ≤ i < 2 ^ 53 → float64 i = inject_Z i.
Proof. apply rnd_int. Qed.

Lemma fadd_int i : 0 ≤ i → i + 1 < 2 ^ 53 → fadd (inject_Z i) 1 = inject_Z (i + 1).
Proof.
  intros H0 H1. unfold fadd. replace (inject_Z i + 1)%Q with (inject_Z (i + 1)); [apply rnd_int; lia|].
  unfold inject_Z, Qplus. simpl. f_equal. lia.
Qed.

Lemma floor_between k x : (inject_Z k <= x)%Q → (x < inject_Z (k + 1))%Q → floor x = k.
Proof.
  intros Hl Hu. unfold floor. pose proof (Qfloor_le x) as H1. pose proof (Qlt_floor x) as H2.
  assert (inject_Z k < inject_Z (Qfloor x + 1))%Q as H3 by (eapply Qle_lt_trans; eauto).
  assert (inject_Z (Qfloor x) < inject_Z (k + 1))%Q as H4 by (eapply Qle_lt_trans; eauto).
  rewrite <- Zlt_Qlt in H3, H4. lia.
Qed.

(** The cuts start at the first partition, end behind the last, and never go back. *)
Lemma boundary_first n m : 0 ≤ n ≤ 2 ^ 20 → 0 < m ≤ 2 ^ 20 → boundary n m 0 = 0.
Proof.
  intros Hn Hm. pose proof (cut_near n m 0 Hn ltac:(lia) Hm) as H. apply Qabs_Qle_condition in H.
  change (2 ^ 30)%positive with 1073741824%positive in H. unfold boundary, cut.
  set (r := (inject_Z n / inject_Z m)%Q) in *. assert (inject_Z 0 * r == 0)%Q as E by (rewrite Qmult_0_l; reflexivity). rewrite E in H.
  set (y := fadd _ _) in *. clearbody y. apply floor_between; [change (inject_Z 0) with 0%Q|change (inject_Z (0 + 1)) with 1%Q]; lra.
Qed.

Lemma boundary_last n m : 0 ≤ n ≤ 2 ^ 20 → 0 < m ≤ 2 ^ 20 → boundary n m m = n.
Proof.
  intros Hn Hm. pose proof (cut_near n m m Hn ltac:(lia) Hm) as H. apply Qabs_Qle_condition in H.
  change (2 ^ 30)%positive with 1073741824%positive in H. unfold boundary, cut.
  rewrite Qmult_div_r in H by (unfold Qeq; simpl; lia). set (y := fadd _ _) in *. clearbody y.
  apply floor_between; rewrite ?inject_Z_plus; change (inject_Z 1) with 1%Q; lra.
Qed.

Lemma boundary_none m i : 0 < m ≤ 2 ^ 20 → 0 ≤ i ≤ m → boundary 0 m i = 0.
Proof.
  intros Hm Hi. pose proof (cut_near 0 m i ltac:(lia) Hi Hm) as H. apply Qabs_Qle_condition in H.
  change (2 ^ 30)%positive with 1073741824%positive in H. unfold boundary, cut.
  assert (inject_Z i * (inject_Z 0 / inject_Z m) == 0)%Q as E by (change (inject_Z 0) with 0%Q; unfold Qdiv; ring). rewrite E in H.
  set (y := fadd _ _) in *. clearbody y. apply floor_between; [change (inject_Z 0) with 0%Q|change (inject_Z (0 + 1)) with 1%Q]; lra.
Qed.

Lemma boundary_le n m i : 0 ≤ n ≤ 2 ^ 20 → 0 < m ≤ 2 ^ 20 → 0 ≤ i < m → boundary n m i ≤ boundary n m (i + 1).
Proof.
  intros Hn Hm Hi. destruct (decide (n = 0)) as [->|Hn0].
  { rewrite !boundary_none by lia. lia. }
  pose proof (cut_near n m i Hn ltac:(lia) Hm) as H1. pose proof (cut_near n m (i + 1) Hn ltac:(lia) Hm) as H2.
  apply Qabs_Qle_condition in H1, H2. change (2 ^ 30)%positive with 1073741824%positive in *. unfold boundary, cut, floor.
  apply Qfloor_resp_le. set (y := fadd (fmul (inject_Z i) _) _) in *. set (z := fadd (fmul (inject_Z (i + 1)) _) _) in *. clearbody y z.
  set (r := (inject_Z n / inject_Z m)%Q) in *. assert (inject_Z (i + 1) * r == inject_Z i * r + r)%Q as E by (rewrite inject_Z_plus; ring).
  rewrite E in H2. assert (1 # 1048576 <= r)%Q as Hr.
  { apply Qle_shift_div_l; [unfold Qlt; simpl; lia|]. unfold Qle. simpl. lia. }
  set (x := (inject_Z i * r)%Q) in *. clearbody x r. lra.
Qed.

Lemma boundary_range n m i : 0 ≤ n ≤ 2 ^ 20 → 0 < m ≤ 2 ^ 20 → 0 ≤ i ≤ m → 0 ≤ boundary n m i ≤ n.
Proof.
  intros Hn Hm Hi. split.
  - destruct Hi as [Hi Him]. revert Him. pattern i. apply natlike_ind; [|intros j Hj IH|done].
    + intros. by rewrite boundary_first.
    + intros Hjm. pose proof (boundary_le n m j Hn Hm ltac:(lia)). unfold Z.succ in *. lia.
  - replace i with (m - (m - i)) by lia. assert (0 ≤ m - i ≤ m) as [Hk Hkm] by lia. revert Hkm. generalize dependent (m - i). intros k Hk.
    pattern k. apply natlike_ind; [|intros j Hj IH|done].
    + intros. by rewrite Z.sub_0_r, boundary_last.
    + intros Hjm. pose proof (boundary_le n m (m - Z.succ j) Hn Hm ltac:(lia)) as Hle.
      replace (m - Z.succ j + 1) with (m - j) in Hle by lia. lia.
Qed.

(** ** What a plan assigns *)

(** The partitions of a topic that a member has, and those that any member has *)
Definition holds (p : BalanceStrategyPlan) (m t : bytes) : list Z := default [] (default ∅ (p !! m) !! t).
Definition assigned (p : BalanceStrategyPlan) (t : bytes) : list Z := map_to_list p ≫= fun x => default [] (x.2 !! t).

Lemma holds_Add m t ps p m' t' :
  holds (Add m t ps p) m' t' = holds p m' t' ++ (if decide (m = m' ∧ t = t') then ps else []).
Proof.
  unfold holds, Add. destruct ps as [|x ps].
  { change (len [] =? 0) with true. destruct (decide (m = m' ∧ t = t')); by rewrite app_nil_r. }
  rewrite (proj2 (Z.eqb_neq (len (x :: ps)) 0)) by (rewrite len_cons; pose proof (len_nonneg ps); lia).
  destruct (decide (m = m')) as [<-|Hm].
  - rewrite lookup_insert_eq. cbn [default from_option id]. destruct (decide (t = t')) as [<-|Ht].
    + rewrite lookup_insert_eq, decide_True by done. done.
    + rewrite lookup_insert_ne, decide_False by (done || naive_solver). by rewrite app_nil_r.
  - rewrite lookup_insert_ne, decide_False by (done || naive_solver). by rewrite app_nil_r.
Qed.

Lemma assigned_split p m ts t : p !! m = Some ts → assigned p t ≡ₚ default [] (ts !! t) ++ assigned (delete m p) t.
Proof. intros Hm. unfold assigned. by rewrite <- (map_to_list_delete p m ts Hm). Qed.

Lemma assigned_Add m t ps p t' :
  assigned (Add m t ps p) t' ≡ₚ assigned p t' ++ (if decide (t = t') then ps else []).
Proof.
  pose proof (holds_Add m t ps p m t') as Hh. unfold Add in *. destruct (len ps =? 0) eqn:E.
  { destruct ps as [|x ps]; [|rewrite len_cons in E; pose proof (len_nonneg ps); lia]. destruct (decide (t = t')); by rewrite app_nil_r. }
  set (ts := <[t := _]> _) in *.
  rewrite (assigned_split _ m ts) by apply lookup_insert_eq. rewrite delete_insert_eq.
  unfold holds in Hh. rewrite lookup_insert_eq in Hh. cbn [default from_option id] in Hh. 
  assert (default [] (ts !! t') = default [] (default ∅ (p !! m) !! t') ++ (if decide (t = t') then ps else [])) as ->.
  { destruct (decide (t = t')) as [Ht|Ht]; [rewrite decide_True in Hh by done|rewrite decide_False in Hh by naive_solver]; exact Hh. }
  destruct (p !! m) as [us|] eqn:Hm; cbn [default from_option id].
  - rewrite (assigned_split p m us t' Hm). solve_Permutation.
  - rewrite lookup_empty, delete_id by done. cbn. by rewrite (comm (++)).
Qed.

(** What the core of a strategy promises: the partitions of the topic go to its members, each
    one once. *)
Class Distributes (core : core_fn) : Prop := distributes plan ids topic ps :
  ids ≠ [] → len ids ≤ 2 ^ 20 → len ps ≤ 2 ^ 20 →
  ∃ plan', core plan ids topic ps = Ret plan' ∧
    (∀ t, assigned plan' t ≡ₚ assigned plan t ++ (if decide (topic = t) then ps else [])) ∧
    (∀ m t, holds plan' m t ≠ [] → holds plan m t ≠ [] ∨ (topic = t ∧ m ∈ ids)).

Lemma holds_Add_from m t ps p m' t' : holds (Add m t ps p) m' t' ≠ [] → holds p m' t' ≠ [] ∨ (t = t' ∧ m' = m).
Proof. rewrite holds_Add. destruct (decide _) as [[-> ->]|]; [auto|]. rewrite app_nil_r. auto. Qed.

Lemma range_loop_spec topic ps m ids : ∀ i plan,
  0 ≤ i → i + len ids = m → 0 < m ≤ 2 ^ 20 → len ps ≤ 2 ^ 20 →
  ∃ plan', range_loop i (fdiv (float64 (len ps)) (float64 m)) plan ids topic ps = Ret plan' ∧
    (∀ t, assigned plan' t ≡ₚ assigned plan t ++ (if decide (topic = t) then drop (Z.to_nat (boundary (len ps) m i)) ps else [])) ∧
    (∀ k t, holds plan' k t ≠ [] → holds plan k t ≠ [] ∨ (topic = t ∧ k ∈ ids)).
Proof.
  pose proof (len_nonneg ps) as Hps. induction ids as [|id ids IH]; intros i plan Hi Hm Hm20 Hlen.
  - exists plan. split; [done|]. unfold len in Hm at 1. simpl in Hm. replace i with m by lia.
    rewrite boundary_last, len_to_nat, drop_all by lia. split; [|auto]. intros t. destruct (decide (topic = t)); by rewrite app_nil_r.
  - rewrite len_cons in Hm. pose proof (len_nonneg ids). cbn [range_loop].
    assert (2 ^ 20 < 2 ^ 53) by done. rewrite !float64_int, fadd_int by lia.
    change (cut (inject_Z i) _) with (boundary (len ps) m i). change (cut (inject_Z (i + 1)) _) with (boundary (len ps) m (i + 1)).
    pose proof (boundary_range (len ps) m i ltac:(lia) Hm20 ltac:(lia)). pose proof (boundary_range (len ps) m (i + 1) ltac:(lia) Hm20 ltac:(lia)).
    pose proof (boundary_le (len ps) m i ltac:(lia) Hm20 ltac:(lia)).
    unfold go_slice. replace (_ && _ && _) with true by lia. cbn [gbind]. set (part := sub ps _ _).
    rewrite <- (float64_int (len ps)), <- (float64_int m) by lia.
    destruct (IH (i + 1) (Add id topic part plan) ltac:(lia) ltac:(lia) Hm20 Hlen) as (plan' & -> & Ha & Hh). exists plan'. split; [done|]. split.
    + intros t. rewrite Ha, assigned_Add. destruct (decide (topic = t)); [|by rewrite !app_nil_r]. rewrite <- (assoc_L (++)). f_equiv.
      unfold part, sub. set (x := boundary _ _ i) in *. set (y := boundary _ _ (i + 1)) in *.
      replace (drop (Z.to_nat y) ps) with (drop (Z.to_nat (y - x)) (drop (Z.to_nat x) ps)) by (rewrite drop_drop; f_equal; lia).
      by rewrite take_drop.
    + intros k t Hk. destruct (Hh k t Hk) as [Hk'|[? ?]]; [|right; split; [done|by apply list_elem_of_further]].
      destruct (holds_Add_from _ _ _ _ _ _ Hk') as [?|[? ->]]; [auto|right; split; [done|apply list_elem_of_here]].
Qed.

#[export] Instance range_distributes : Distributes range_core.
Proof.
  intros plan ids topic ps Hids Hm Hlen. assert (0 < len ids) as H0 by (destruct ids; [done|rewrite len_cons; pose proof (len_nonneg ids); lia]).
  destruct (range_loop_spec topic ps (len ids) ids 0 plan) as (plan' & Hr & Ha & Hh); [lia..|]. exists plan'. split; [exact Hr|]. split; [|exact Hh].
  intros t. rewrite Ha, boundary_first by (pose proof (len_nonneg ps); lia). done.
Qed.

Lemma roundRobin_loop_spec topic ids ps : ∀ i plan,
  ids ≠ [] → 0 ≤ i →
  ∃ plan', roundRobin_loop i plan ids topic ps = Ret plan' ∧
    (∀ t, assigned plan' t ≡ₚ assigned plan t ++ (if decide (topic = t) then ps else [])) ∧
    (∀ m t, holds plan' m t ≠ [] → holds plan m t ≠ [] ∨ (topic = t ∧ m ∈ ids)).
Proof.
  induction ps as [|p ps IH]; intros i plan Hids Hi; cbn [roundRobin_loop].
  - exists plan. split; [done|]. split; [|auto]. intros t. destruct (decide (topic = t)); by rewrite app_nil_r.
  - assert (0 < len ids) as H0 by (destruct ids; [done|rewrite len_cons; pose proof (len_nonneg ids); lia]).
    rewrite (proj2 (Z.eqb_neq _ _)) by lia. pose proof (Z.mod_pos_bound i (len ids) H0) as Hb.
    unfold go_index. replace (_ && _) with true by lia.
    destruct (lookup_lt_is_Some_2 ids (Z.to_nat (i mod len ids))) as [id Hid]; [unfold len in *; lia|]. rewrite Hid. cbn [gbind].
    destruct (IH (i + 1) (Add id topic [p] plan) Hids ltac:(lia)) as (plan' & -> & Ha & Hh). exists plan'. split; [done|]. split.
    + intros t. rewrite Ha, assigned_Add. destruct (decide (topic = t)); [|by rewrite !app_nil_r]. by rewrite <- (assoc_L (++)).
    + intros k t Hk. destruct (Hh k t Hk) as [Hk'|[? ?]]; [|by right]. apply list_elem_of_lookup_2 in Hid.
      destruct (holds_Add_from _ _ _ _ _ _ Hk') as [?|[? ->]]; [auto|by right].
Qed.

#[export] Instance roundRobin_distributes : Distributes roundRobin_core.
Proof. intros plan ids topic ps Hids _ _. by apply roundRobin_loop_spec. Qed.

(** ** The plan *)

Section assignment.
Context (range_of : ∀ V : Type, gmap bytes V → list (bytes * V)).
Hypothesis range_all : ∀ V (m : gmap bytes V), range_of V m ≡ₚ map_to_list m.

Definition subscribed (members : gmap bytes ConsumerGroupMemberMetadata) (m t : bytes) : Prop :=
  ∃ meta, members !! m = Some meta ∧ t ∈ mm_Topics meta.

Lemma append_members id ts : ∀ mbt t k,
  k ∈ default [] (fold_left (append_member id) ts mbt !! t) ↔ k ∈ default [] (mbt !! t) ∨ (k = id ∧ t ∈ ts).
Proof.
  induction ts as [|u ts IH]; intros mbt t k; cbn [fold_left]; [set_solver|]. rewrite IH. unfold append_member.
  destruct (decide (u = t)) as [->|Hu]; [rewrite lookup_insert_eq|rewrite lookup_insert_ne by done]; set_solver.
Qed.

Lemma mbt_elem members t k : k ∈ default [] (members_by_topic range_of members !! t) ↔ subscribed members k t.
Proof.
  unfold members_by_topic, subscribed.
  assert (∀ l mbt, k ∈ default [] (fold_left (fun mbt m => fold_left (append_member m.1) (mm_Topics m.2) mbt) l mbt !! t)
                   ↔ k ∈ default [] (mbt !! t) ∨ ∃ meta, (k, meta) ∈ l ∧ t ∈ mm_Topics meta) as Hfold.
  { induction l as [|[id meta] l IH]; intros mbt; cbn [fold_left]; [set_solver|]. rewrite IH, append_members. set_solver. }
  rewrite Hfold, lookup_empty. setoid_rewrite range_all. setoid_rewrite elem_of_map_to_list. set_solver.
Qed.

(** Every topic of the table has a member. *)
Lemma mbt_nonempty members t ids : members_by_topic range_of members !! t = Some ids → ids ≠ [].
Proof.
  unfold members_by_topic.
  assert (∀ ts id (mbt : gmap bytes (list bytes)), (∀ t ids, mbt !! t = Some ids → ids ≠ []) →
            ∀ t ids, fold_left (append_member id) ts mbt !! t = Some ids → ids ≠ []) as Hin.
  { induction ts as [|u ts IH]; intros id mbt Hmbt; cbn [fold_left]; [done|]. apply IH. intros t' ids'. unfold append_member.
    destruct (decide (u = t')) as [->|Hu]; [rewrite lookup_insert_eq; intros [= <-] E; by apply app_nil in E as [_ E]|].
    rewrite lookup_insert_ne by done. apply Hmbt. }
  generalize (range_of _ members). intros l.
  enough (∀ mbt : gmap bytes (list bytes), (∀ t ids, mbt !! t = Some ids → ids ≠ []) →
            fold_left (fun mbt m => fold_left (append_member m.1) (mm_Topics m.2) mbt) l mbt !! t = Some ids → ids ≠ []) as H by (apply H; set_solver).
  induction l as [|m l IH]; intros mbt Hmbt; cbn [fold_left]; [apply Hmbt|]. apply IH. by apply Hin.
Qed.

Lemma assemble_spec core topics l : ∀ plan,
  Distributes core → NoDup l.*1 → (∀ t ids, (t, ids) ∈ l → ids ≠ [] ∧ len ids ≤ 2 ^ 20) → (∀ t ps, topics !! t = Some ps → len ps ≤ 2 ^ 20) →
  ∃ plan', assemble core topics l plan = Ret plan' ∧
    (∀ t, assigned plan' t ≡ₚ assigned plan t ++ (if decide (t ∈ l.*1) then default [] (topics !! t) else [])) ∧
    (∀ m t, holds plan' m t ≠ [] → holds plan m t ≠ [] ∨ ∃ ids, (t, ids) ∈ l ∧ m ∈ ids).
Proof.
  induction l as [|[u ids] l IH]; intros plan Hcore Hnd Hids Htop; cbn [assemble].
  - exists plan. split; [done|]. split; [|auto]. intros t. rewrite decide_False by set_solver. by rewrite app_nil_r.
  - apply NoDup_cons in Hnd as [Hu Hnd]. destruct (Hids u ids ltac:(set_solver)) as [Hne Hlen].
    destruct (distributes plan ids u (default [] (topics !! u)) Hne Hlen) as (plan1 & -> & Ha1 & Hh1).
    { destruct (topics !! u) eqn:E; [by apply (Htop u)|done]. }
    cbn [gbind]. destruct (IH plan1 Hcore Hnd ltac:(set_solver) Htop) as (plan2 & -> & Ha2 & Hh2). exists plan2. split; [done|]. split.
    + intros t. rewrite Ha2, Ha1, <- (assoc_L (++)). f_equiv. cbn [fmap list_fmap fst].
      destruct (decide (u = t)) as [<-|Ht].
      * rewrite (decide_False (P := u ∈ l.*1)), decide_True by set_solver. by rewrite app_nil_r.
      * destruct (decide (t ∈ l.*1)); [rewrite decide_True by set_solver|rewrite decide_False by set_solver]; done.
    + intros m t Hm. destruct (Hh2 m t Hm) as [Hm1|(ids' & ? & ?)]; [|right; exists ids'; set_solver].
      destruct (Hh1 m t Hm1) as [?|[-> ?]]; [auto|]. right. exists ids. set_solver.
Qed.

Context (sort_Sort : bytes → list bytes → list bytes).
Hypothesis sort_permutes : ∀ t l, sort_Sort t l ≡ₚ l.

(** C12: With the range and the round-robin strategy, for up to 2^20 partitions and 2^20
    members of each topic, whatever the rounding of the quotients and the order of the
    members, every partition of a topic that has a subscriber is assigned exactly once, no
    member gets partitions of a topic it has not subscribed to, and no slice expression is out
    of range. *)
Theorem plan_assigns s members topics :
  s = BalanceStrategyRange ∨ s = BalanceStrategyRoundRobin →
  (∀ t ids, members_by_topic range_of members !! t = Some ids → len ids ≤ 2 ^ 20) →
  (∀ t ps, topics !! t = Some ps → len ps ≤ 2 ^ 20) →
  ∃ plan, Plan range_of sort_Sort s members topics = Ret plan ∧
    (∀ t, (∃ m, subscribed members m t) → assigned plan t ≡ₚ default [] (topics !! t)) ∧
    (∀ m t, holds plan m t ≠ [] → subscribed members m t).
Proof.
  intros Hs Hids Htop. assert (Distributes (coreFn s)) as Hcore by (destruct Hs as [->| ->]; apply _).
  unfold Plan. set (mbt := map_imap _ _). assert (∀ t ids, mbt !! t = Some ids ↔ ∃ l, members_by_topic range_of members !! t = Some l ∧ ids = sort_Sort t l) as Hmbt.
  { intros t ids. unfold mbt. rewrite map_lookup_imap. destruct (members_by_topic range_of members !! t); naive_solver. }
  assert (∀ t ids, (t, ids) ∈ range_of _ mbt → ∃ l, members_by_topic range_of members !! t = Some l ∧ ids ≡ₚ l) as Hl.
  { intros t ids. rewrite range_all, elem_of_map_to_list, Hmbt. intros (l & El & ->). eauto. }
  destruct (assemble_spec (coreFn s) topics (range_of _ mbt) ∅ Hcore) as (plan & Hp & Ha & Hh); [| |done|].
  - rewrite range_all. apply NoDup_fst_map_to_list.
  - intros t ids Ht. destruct (Hl t ids Ht) as (l & El & Hperm). pose proof (mbt_nonempty _ _ _ El) as Hne. pose proof (Hids t l El) as Hlen.
    split; [intros ->; by apply Hne, Permutation_nil|]. unfold len in *. by rewrite Hperm.
  - exists plan. split; [exact Hp|]. split.
    + intros t (m & Hm). apply mbt_elem in Hm. rewrite Ha. cbn. rewrite decide_True; [done|].
      destruct (members_by_topic range_of members !! t) as [l|] eqn:El; [|set_solver].
      apply list_elem_of_fmap. exists (t, sort_Sort t l). split; [done|]. rewrite range_all, elem_of_map_to_list, Hmbt. eauto.
    + intros m t Hm. destruct (Hh m t Hm) as [Hm0|(ids & Hin & Hmi)].
      * unfold holds in Hm0. by rewrite lookup_empty in Hm0.
      * destruct (Hl t ids Hin) as (l & El & Hperm). apply mbt_elem. rewrite El. cbn. by rewrite <- Hperm.
Qed.
End assignment.

(** Two members of three topics' worth of partitions, under the order of the keys *)
Definition sample_members : gmap bytes ConsumerGroupMemberMetadata :=
  list_to_map [(B "m1", mk_member_metadata 0 [B "a"; B "b"] None); (B "m2", mk_member_metadata 0 [B "a"] None)].
Definition sample_topics : gmap bytes (list Z) := list_to_map [(B "a", [0; 1; 2; 3; 4]); (B "b", [0; 1])].
Definition sample_plan (s : balanceStrategy) : Go BalanceStrategyPlan :=
  Plan (fun V m => map_to_list m) (fun t l => l) s sample_members sample_topics.

Lemma plan_assigns_witness :
  ∃ plan, sample_plan BalanceStrategyRange = Ret plan ∧
    (∀ t, (∃ m, subscribed sample_members m t) → assigned plan t ≡ₚ default [] (sample_topics !! t)) ∧
    (∀ m t, holds plan m t ≠ [] → subscribed sample_members m t).
Proof.
  apply (plan_assigns (fun V m => map_to_list m) (fun V m => reflexivity _) (fun t l => l) (fun t l => reflexivity _)).
  - by left.
  - intros t ids Ht. destruct (decide (t = B "a")) as [->|Ha]; [vm_compute in Ht; injection Ht as <-; done|].
    destruct (decide (t = B "b")) as [->|Hb]; [vm_compute in Ht; injection Ht as <-; done|].
    destruct ids as [|k ids]; [done|].
    assert (subscribed sample_members k t) as (meta & Hm & Hin).
    { apply (proj1 (mbt_elem (fun V m => map_to_list m) (fun V m => reflexivity _) sample_members t k)). rewrite Ht. apply list_elem_of_here. }
    clear Ht. unfold sample_members in Hm. apply elem_of_list_to_map_2 in Hm.
    apply elem_of_cons in Hm as [[= -> ->]|[[= -> ->]|[]%not_elem_of_nil]%elem_of_cons]; cbn [mm_Topics] in Hin;
      repeat (apply elem_of_cons in Hin as [->|Hin]; [done|]); by apply not_elem_of_nil in Hin.
  - intros t ps Ht. apply elem_of_list_to_map_2 in Ht.
    apply elem_of_cons in Ht as [[= -> ->]|[[= -> ->]|[]%not_elem_of_nil]%elem_of_cons]; done.
Defined.

(** The ranges of five and two partitions *)
Lemma sample_ranges :
  (let* plan := sample_plan BalanceStrategyRange in
   Ret (holds plan (B "m1") (B "a"), holds plan (B "m2") (B "a"), holds plan (B "m1") (B "b")))
  = Ret ([3; 4], [0; 1; 2], [0; 1]).
Proof. vm_compute. reflexivity. Qed.
