(* ===== verification/KafkaMetadata.v ===== *)
(** * The cluster: [kafka/metadata_*.go], [api_versions_*.go], [find_coordinator_*.go],
    [consumer_metadata_*.go], [sasl_*.go], [init_producer_id_*.go], with [encode] and [decode]
    of [kafka/broker.go]

    What a client learns of the brokers, the topics and its coordinator. *)

From S2P Require Import Prelude GoStrings GoNet KafkaCodec KafkaProps KafkaDecoder KafkaDecoderProps KafkaWire KafkaRecord KafkaProtocol.

(** ** Brokers *)

(** What a [Broker] has on the wire *)
Record BrokerNode := mk_node { b_id : Z; b_addr : bytes; b_rack : option bytes }.

(** [func (b *Broker) encode(pe packetEncoder, version int16) (err error)] *)
Definition Broker_encode (version : Z) (b : BrokerNode) : list item :=
  match SplitHostPort (b_addr b) with
  | None => [Data (report InvalidAddress)]
  | Some (host, portstr) =>
      match Atoi portstr with
      | (_, Some _) => [Data (report InvalidAddress)]
      | (port, None) =>
          [Data (putInt32 (b_id b)); Data (putString host); Data (putInt32 (swrap 32 port))] ++
          (if 1 <=? version then [Data (putNullableString (b_rack b))] else [])
      end
  end.
(** [func (b *Broker) decode(pd packetDecoder, version int16) (err error)] *)
Definition Broker_decode (version : Z) : rd_get BrokerNode :=
  get* id := getInt32 in
  get* host := getString in
  get* port := getInt32 in
  get* rack := if 1 <=? version then getNullableString else rd_ret None in
  let addr := JoinHostPort host (Itoa port) in
  match SplitHostPort addr with
  | None => rd_fail AddressInvalid
  | Some _ => rd_ret (mk_node id addr rack)
  end.

(** ** Metadata *)

(** [type MetadataRequest struct] *)
Record MetadataRequest := mk_MetadataRequest { mq_Version : Z; mq_Topics : list bytes; AllowAutoTopicCreation : bool }.
Definition MetadataRequest_encode (r : MetadataRequest) : list item :=
  if (mq_Version r <? 0) || (5 <? mq_Version r) then [Data (report UnsupportedVersion)]
  else
    (if (mq_Version r =? 0) || (0 <? len (mq_Topics r)) then put_array (mq_Topics r) (fun t => [Data (putString t)])
     else [Data (putInt32 (-1))]) ++
    (if 3 <? mq_Version r then [Data (putBool (AllowAutoTopicCreation r))] else []).
Definition MetadataRequest_decode (version : Z) : rd_get MetadataRequest :=
  get* topics := get_int_list getString in
  get* auto := if 3 <? version then getBool else rd_ret false in
  rd_ret (mk_MetadataRequest version topics auto).
(** [requiredVersion] of the request and the response *)
Definition metadata_required (v : Z) : KafkaVersion :=
  if v =? 1 then V0_10_0_0 else if v =? 2 then V0_10_1_0 else if (v =? 3) || (v =? 4) then V0_11_0_0
  else if v =? 5 then V1_0_0_0 else MinVersion.
Definition MetadataRequest_body : protocolBody MetadataRequest := {|
  key _ := 3; version := mq_Version; requiredVersion r := metadata_required (mq_Version r);
  body_metrics _ := Ret 0; body_encode _ r := Ret (MetadataRequest_encode r); body_decode := MetadataRequest_decode |}.
#[export] Existing Instance MetadataRequest_body.

(** [type PartitionMetadata struct] *)
Record PartitionMetadata := mk_partition {
  pm_Err : Z; pm_ID : Z; Leader : Z; Replicas : list Z; Isr : list Z; OfflineReplicas : list Z }.
Definition PartitionMetadata_encode (version : Z) (pm : PartitionMetadata) : list item :=
  [Data (putInt16 (pm_Err pm)); Data (putInt32 (pm_ID pm)); Data (putInt32 (Leader pm));
   Data (putInt32Array (Replicas pm)); Data (putInt32Array (Isr pm))] ++
  (if 5 <=? version then [Data (putInt32Array (OfflineReplicas pm))] else []).
Definition PartitionMetadata_decode (version : Z) : rd_get PartitionMetadata :=
  get* err := getInt16 in
  get* id := getInt32 in
  get* leader := getInt32 in
  get* replicas := getInt32Array in
  get* isr := getInt32Array in
  get* offline := if 5 <=? version then getInt32Array else rd_ret [] in
  rd_ret (mk_partition err id leader replicas isr offline).

(** [type TopicMetadata struct] *)
Record TopicMetadata := mk_topic { tm_Err : Z; tm_Name : bytes; IsInternal : bool; tm_Partitions : list PartitionMetadata }.
Definition TopicMetadata_encode (version : Z) (tm : TopicMetadata) : list item :=
  [Data (putInt16 (tm_Err tm)); Data (putString (tm_Name tm))] ++
  (if 1 <=? version then [Data (putBool (IsInternal tm))] else []) ++
  put_array (tm_Partitions tm) (PartitionMetadata_encode version).
Definition TopicMetadata_decode (version : Z) : rd_get TopicMetadata :=
  get* err := getInt16 in
  get* name := getString in
  get* internal := if 1 <=? version then getBool else rd_ret false in
  get* partitions := get_array (PartitionMetadata_decode version) in
  rd_ret (mk_topic err name internal partitions).

(** [type MetadataResponse struct] *)
Record MetadataResponse := mk_MetadataResponse {
  mr_Version : Z; mr_ThrottleTimeMs : Z; Brokers : list BrokerNode; ClusterID : option bytes; ControllerID : Z;
  mr_Topics : list TopicMetadata }.
Definition MetadataResponse_encode (r : MetadataResponse) : list item :=
  (if 3 <=? mr_Version r then [Data (putInt32 (mr_ThrottleTimeMs r))] else []) ++
  put_array (Brokers r) (Broker_encode (mr_Version r)) ++
  (if 2 <=? mr_Version r then [Data (putNullableString (ClusterID r))] else []) ++
  (if 1 <=? mr_Version r then [Data (putInt32 (ControllerID r))] else []) ++
  put_array (mr_Topics r) (TopicMetadata_encode (mr_Version r)).
Definition MetadataResponse_decode (version : Z) : rd_get MetadataResponse :=
  get* throttle := if 3 <=? version then getInt32 else rd_ret 0 in
  get* brokers := get_array (Broker_decode version) in
  get* cluster := if 2 <=? version then getNullableString else rd_ret None in
  get* controller := if 1 <=? version then getInt32 else rd_ret (-1) in
  get* topics := get_array (TopicMetadata_decode version) in
  rd_ret (mk_MetadataResponse version throttle brokers cluster controller topics).
Definition MetadataResponse_body : protocolBody MetadataResponse := {|
  key _ := 3; version := mr_Version; requiredVersion r := metadata_required (mr_Version r);
  body_metrics _ := Ret 0; body_encode _ r := Ret (MetadataResponse_encode r); body_decode := MetadataResponse_decode |}.
#[export] Existing Instance MetadataResponse_body.

Definition with_topics (l : list TopicMetadata) (r : MetadataResponse) : MetadataResponse :=
  mk_MetadataResponse (mr_Version r) (mr_ThrottleTimeMs r) (Brokers r) (ClusterID r) (ControllerID r) l.
(** [func (r *MetadataResponse) AddBroker(addr string, id int32)] *)
Definition AddBroker (addr : bytes) (id : Z) (r : MetadataResponse) : MetadataResponse :=
  mk_MetadataResponse (mr_Version r) (mr_ThrottleTimeMs r) (Brokers r ++ [mk_node id addr None]) (ClusterID r)
    (ControllerID r) (mr_Topics r).
(** [AddTopic] and [AddTopicPartition] change the first element that matches, or a new one at the
    end. *)
Fixpoint upsert {A} (found : A → bool) (new : A) (f : A → A) (l : list A) : list A :=
  match l with
  | [] => [f new]
  | x :: l => if found x then f x :: l else x :: upsert found new f l
  end.
Definition named (topic : bytes) (tm : TopicMetadata) : bool := beq (tm_Name tm) topic.
Definition AddTopic_with (topic : bytes) (f : TopicMetadata → TopicMetadata) (r : MetadataResponse) : MetadataResponse :=
  with_topics (upsert (named topic) (mk_topic 0 topic false []) f (mr_Topics r)) r.
Definition set_topic_err (err : Z) (tm : TopicMetadata) : TopicMetadata :=
  mk_topic err (tm_Name tm) (IsInternal tm) (tm_Partitions tm).
Definition AddTopic (topic : bytes) (err : Z) : MetadataResponse → MetadataResponse := AddTopic_with topic (set_topic_err err).
Definition AddTopicPartition (topic : bytes) (partition brokerID : Z) (replicas isr offline : list Z) (err : Z) :
    MetadataResponse → MetadataResponse :=
  AddTopic_with topic (fun tm =>
    mk_topic 0 (tm_Name tm) (IsInternal tm)
      (upsert (fun pm => pm_ID pm =? partition) (mk_partition 0 partition 0 [] [] [])
         (fun pm => mk_partition err (pm_ID pm) brokerID replicas isr offline) (tm_Partitions tm))).

(** ** Versions of the requests *)

(** [type ApiVersionsRequest struct], [type ApiVersionsResponse struct] *)
Record ApiVersionsRequest := mk_ApiVersionsRequest {}.
Definition ApiVersionsRequest_body : protocolBody ApiVersionsRequest := {|
  key _ := 18; version _ := 0; requiredVersion _ := V0_10_0_0;
  body_metrics _ := Ret 0; body_encode _ _ := Ret []; body_decode _ := rd_ret mk_ApiVersionsRequest |}.
#[export] Existing Instance ApiVersionsRequest_body.

Record ApiVersionsResponseBlock := mk_api_block { ab_ApiKey : Z; ab_MinVersion : Z; ab_MaxVersion : Z }.
Definition ApiVersionsResponseBlock_encode (b : ApiVersionsResponseBlock) : list item :=
  [Data (putInt16 (ab_ApiKey b)); Data (putInt16 (ab_MinVersion b)); Data (putInt16 (ab_MaxVersion b))].
Definition ApiVersionsResponseBlock_decode : rd_get ApiVersionsResponseBlock :=
  get* k := getInt16 in get* lo := getInt16 in get* hi := getInt16 in rd_ret (mk_api_block k lo hi).
Record ApiVersionsResponse := mk_ApiVersionsResponse { ar_Err : Z; ApiVersions : list ApiVersionsResponseBlock }.
Definition ApiVersionsResponse_encode (r : ApiVersionsResponse) : list item :=
  [Data (putInt16 (ar_Err r))] ++ put_array (ApiVersions r) ApiVersionsResponseBlock_encode.
Definition ApiVersionsResponse_decode (_ : Z) : rd_get ApiVersionsResponse :=
  get* err := getInt16 in get* blocks := get_array ApiVersionsResponseBlock_decode in
  rd_ret (mk_ApiVersionsResponse err blocks).
Definition ApiVersionsResponse_body : protocolBody ApiVersionsResponse := {|
  key _ := 18; version _ := 0; requiredVersion _ := V0_10_0_0;
  body_metrics _ := Ret 0; body_encode _ r := Ret (ApiVersionsResponse_encode r); body_decode := ApiVersionsResponse_decode |}.
#[export] Existing Instance ApiVersionsResponse_body.

(** ** Coordinators *)

Definition CoordinatorGroup : Z := 0.
(** [type FindCoordinatorRequest struct] *)
Record FindCoordinatorRequest := mk_FindCoordinatorRequest { fq_Version : Z; CoordinatorKey : bytes; CoordinatorType : Z }.
Definition FindCoordinatorRequest_encode (f : FindCoordinatorRequest) : list item :=
  [Data (putString (CoordinatorKey f))] ++ (if 1 <=? fq_Version f then [Data (putInt8 (CoordinatorType f))] else []).
Definition FindCoordinatorRequest_decode (version : Z) : rd_get FindCoordinatorRequest :=
  get* k := getString in
  if 1 <=? version then get* t := getInt8 in rd_ret (mk_FindCoordinatorRequest version k t)
  else rd_ret (mk_FindCoordinatorRequest 0 k 0).
Definition coordinator_required (v : Z) : KafkaVersion := if v =? 1 then V0_11_0_0 else V0_8_2_0.
Definition FindCoordinatorRequest_body : protocolBody FindCoordinatorRequest := {|
  key _ := 10; version := fq_Version; requiredVersion f := coordinator_required (fq_Version f);
  body_metrics _ := Ret 0; body_encode _ r := Ret (FindCoordinatorRequest_encode r); body_decode := FindCoordinatorRequest_decode |}.
#[export] Existing Instance FindCoordinatorRequest_body.

(** [var NoNode = &Broker{id: -1, addr: ":-1"}] *)
Definition NoNode : BrokerNode := mk_node (-1) (B ":-1") None.
(** [type FindCoordinatorResponse struct] *)
Record FindCoordinatorResponse := mk_FindCoordinatorResponse {
  fr_Version : Z; fr_ThrottleTime : Z; fr_Err : Z; fr_ErrMsg : option bytes; fr_Coordinator : option BrokerNode }.
Definition FindCoordinatorResponse_encode (f : FindCoordinatorResponse) : list item :=
  (if 1 <=? fr_Version f then [put_millis (fr_ThrottleTime f)] else []) ++
  [Data (putInt16 (fr_Err f))] ++
  (if 1 <=? fr_Version f then [Data (putNullableString (fr_ErrMsg f))] else []) ++
  Broker_encode 0 (default NoNode (fr_Coordinator f)).
Definition FindCoordinatorResponse_decode (version : Z) : rd_get FindCoordinatorResponse :=
  get* throttle := if 1 <=? version then get_millis else rd_ret 0 in
  get* err := getInt16 in
  get* msg := if 1 <=? version then getNullableString else rd_ret None in
  get* coordinator := Broker_decode 0 in
  rd_ret (mk_FindCoordinatorResponse (if 1 <=? version then version else 0) throttle err msg
            (if beq (b_addr coordinator) (B ":0") then None else Some coordinator)).
Definition FindCoordinatorResponse_body : protocolBody FindCoordinatorResponse := {|
  key _ := 10; version := fr_Version; requiredVersion f := coordinator_required (fr_Version f);
  body_metrics _ := Ret 0; body_encode _ r := Ret (FindCoordinatorResponse_encode r); body_decode := FindCoordinatorResponse_decode |}.
#[export] Existing Instance FindCoordinatorResponse_body.

(** [type ConsumerMetadataRequest struct] *)
Record ConsumerMetadataRequest := mk_ConsumerMetadataRequest { ConsumerGroup : bytes }.
Definition ConsumerMetadataRequest_encode (r : ConsumerMetadataRequest) : list item :=
  FindCoordinatorRequest_encode (mk_FindCoordinatorRequest 0 (ConsumerGroup r) CoordinatorGroup).
Definition ConsumerMetadataRequest_decode (version : Z) : rd_get ConsumerMetadataRequest :=
  get* tmp := FindCoordinatorRequest_decode version in rd_ret (mk_ConsumerMetadataRequest (CoordinatorKey tmp)).
Definition ConsumerMetadataRequest_body : protocolBody ConsumerMetadataRequest := {|
  key _ := 10; version _ := 0; requiredVersion _ := V0_8_2_0;
  body_metrics _ := Ret 0; body_encode _ r := Ret (ConsumerMetadataRequest_encode r); body_decode := ConsumerMetadataRequest_decode |}.
#[export] Existing Instance ConsumerMetadataRequest_body.

(** [type ConsumerMetadataResponse struct] *)
Record ConsumerMetadataResponse := mk_ConsumerMetadataResponse {
  cr_Err : Z; cr_Coordinator : option BrokerNode; CoordinatorID : Z; CoordinatorHost : bytes; CoordinatorPort : Z }.
(** The coordinator of a response that has only the deprecated fields; [encode] keeps it. *)
Definition coordinator_of (r : ConsumerMetadataResponse) : BrokerNode :=
  match cr_Coordinator r with
  | Some b => b
  | None => mk_node (CoordinatorID r) (JoinHostPort (CoordinatorHost r) (Itoa (CoordinatorPort r))) None
  end.
Definition ConsumerMetadataResponse_encode (r : ConsumerMetadataResponse) : list item :=
  FindCoordinatorResponse_encode (mk_FindCoordinatorResponse 0 0 (cr_Err r) None (Some (coordinator_of r))).
(** [strconv.ParseInt(s, 10, 32)] *)
Definition ParseInt32 (s : bytes) : option Z :=
  match Atoi s with (n, None) => if (-2 ^ 31 <=? n) && (n <? 2 ^ 31) then Some n else None | _ => None end.
Definition ConsumerMetadataResponse_decode (version : Z) : rd_get ConsumerMetadataResponse :=
  get* tmp := FindCoordinatorResponse_decode version in
  match fr_Coordinator tmp with
  | None => rd_ret (mk_ConsumerMetadataResponse (fr_Err tmp) None 0 [] 0)
  | Some b =>
      match SplitHostPort (b_addr b) with
      | None => rd_fail AddressInvalid
      | Some (host, portstr) =>
          match ParseInt32 portstr with
          | None => rd_fail AddressInvalid
          | Some port => rd_ret (mk_ConsumerMetadataResponse (fr_Err tmp) (Some b) (b_id b) host port)
          end
      end
  end.
Definition ConsumerMetadataResponse_body : protocolBody ConsumerMetadataResponse := {|
  key _ := 10; version _ := 0; requiredVersion _ := V0_8_2_0;
  body_metrics _ := Ret 0; body_encode _ r := Ret (ConsumerMetadataResponse_encode r); body_decode := ConsumerMetadataResponse_decode |}.
#[export] Existing Instance ConsumerMetadataResponse_body.

(** ** Authentication *)

(** [type SaslHandshakeRequest struct]: the decoder does not set the version. *)
Record SaslHandshakeRequest := mk_SaslHandshakeRequest { Mechanism : bytes; shq_Version : Z }.
Definition SaslHandshakeRequest_encode (r : SaslHandshakeRequest) : list item := [Data (putString (Mechanism r))].
Definition SaslHandshakeRequest_decode (_ : Z) : rd_get SaslHandshakeRequest :=
  get* m := getString in rd_ret (mk_SaslHandshakeRequest m 0).
Definition SaslHandshakeRequest_body : protocolBody SaslHandshakeRequest := {|
  key _ := 17; version := shq_Version; requiredVersion _ := V0_10_0_0;
  body_metrics _ := Ret 0; body_encode _ r := Ret (SaslHandshakeRequest_encode r); body_decode := SaslHandshakeRequest_decode |}.
#[export] Existing Instance SaslHandshakeRequest_body.

(** [type SaslHandshakeResponse struct] *)
Record SaslHandshakeResponse := mk_SaslHandshakeResponse { shr_Err : Z; EnabledMechanisms : list bytes }.
Definition SaslHandshakeResponse_encode (r : SaslHandshakeResponse) : list item :=
  [Data (putInt16 (shr_Err r)); Data (putStringArray (EnabledMechanisms r))].
Definition SaslHandshakeResponse_decode (_ : Z) : rd_get SaslHandshakeResponse :=
  get* err := getInt16 in get* ms := getStringArray in rd_ret (mk_SaslHandshakeResponse err ms).
Definition SaslHandshakeResponse_body : protocolBody SaslHandshakeResponse := {|
  key _ := 17; version _ := 0; requiredVersion _ := V0_10_0_0;
  body_metrics _ := Ret 0; body_encode _ r := Ret (SaslHandshakeResponse_encode r); body_decode := SaslHandshakeResponse_decode |}.
#[export] Existing Instance SaslHandshakeResponse_body.

(** [type SaslAuthenticateRequest struct], [type SaslAuthenticateResponse struct] *)
Record SaslAuthenticateRequest := mk_SaslAuthenticateRequest { saq_SaslAuthBytes : option bytes }.
Definition APIKeySASLAuth : Z := 36.
Definition SaslAuthenticateRequest_encode (r : SaslAuthenticateRequest) : list item := [Data (putBytes (saq_SaslAuthBytes r))].
Definition SaslAuthenticateRequest_decode (_ : Z) : rd_get SaslAuthenticateRequest :=
  get* b := getBytes in rd_ret (mk_SaslAuthenticateRequest b).
Definition SaslAuthenticateRequest_body : protocolBody SaslAuthenticateRequest := {|
  key _ := APIKeySASLAuth; version _ := 0; requiredVersion _ := V1_0_0_0;
  body_metrics _ := Ret 0; body_encode _ r := Ret (SaslAuthenticateRequest_encode r); body_decode := SaslAuthenticateRequest_decode |}.
#[export] Existing Instance SaslAuthenticateRequest_body.

Record SaslAuthenticateResponse := mk_SaslAuthenticateResponse {
  sar_Err : Z; sar_ErrorMessage : option bytes; sar_SaslAuthBytes : option bytes }.
Definition SaslAuthenticateResponse_encode (r : SaslAuthenticateResponse) : list item :=
  [Data (putInt16 (sar_Err r)); Data (putNullableString (sar_ErrorMessage r)); Data (putBytes (sar_SaslAuthBytes r))].
Definition SaslAuthenticateResponse_decode (_ : Z) : rd_get SaslAuthenticateResponse :=
  get* err := getInt16 in get* msg := getNullableString in get* b := getBytes in rd_ret (mk_SaslAuthenticateResponse err msg b).
Definition SaslAuthenticateResponse_body : protocolBody SaslAuthenticateResponse := {|
  key _ := APIKeySASLAuth; version _ := 0; requiredVersion _ := V1_0_0_0;
  body_metrics _ := Ret 0; body_encode _ r := Ret (SaslAuthenticateResponse_encode r); body_decode := SaslAuthenticateResponse_decode |}.
#[export] Existing Instance SaslAuthenticateResponse_body.

(** ** Producers *)

(** [type InitProducerIDRequest struct], [type InitProducerIDResponse struct] *)
Record InitProducerIDRequest := mk_InitProducerIDRequest { iq_TransactionalID : option bytes; TransactionTimeout : Z }.
Definition InitProducerIDRequest_encode (i : InitProducerIDRequest) : list item :=
  [Data (putNullableString (iq_TransactionalID i)); put_millis (TransactionTimeout i)].
Definition InitProducerIDRequest_decode (_ : Z) : rd_get InitProducerIDRequest :=
  get* id := getNullableString in get* t := get_millis in rd_ret (mk_InitProducerIDRequest id t).
Definition InitProducerIDRequest_body : protocolBody InitProducerIDRequest := {|
  key _ := 22; version _ := 0; requiredVersion _ := V0_11_0_0;
  body_metrics _ := Ret 0; body_encode _ r := Ret (InitProducerIDRequest_encode r); body_decode := InitProducerIDRequest_decode |}.
#[export] Existing Instance InitProducerIDRequest_body.

Record InitProducerIDResponse := mk_InitProducerIDResponse {
  ir_ThrottleTime : Z; ir_Err : Z; ir_ProducerID : Z; ir_ProducerEpoch : Z }.
Definition InitProducerIDResponse_encode (i : InitProducerIDResponse) : list item :=
  [put_millis (ir_ThrottleTime i); Data (putInt16 (ir_Err i)); Data (putInt64 (ir_ProducerID i)); Data (putInt16 (ir_ProducerEpoch i))].
Definition InitProducerIDResponse_decode (_ : Z) : rd_get InitProducerIDResponse :=
  get* t := get_millis in get* err := getInt16 in get* id := getInt64 in get* epoch := getInt16 in
  rd_ret (mk_InitProducerIDResponse t err id epoch).
Definition InitProducerIDResponse_body : protocolBody InitProducerIDResponse := {|
  key _ := 22; version _ := 0; requiredVersion _ := V0_11_0_0;
  body_metrics _ := Ret 0; body_encode _ r := Ret (InitProducerIDResponse_encode r); body_decode := InitProducerIDResponse_decode |}.
#[export] Existing Instance InitProducerIDResponse_body.

(** ** Laws *)

(** A host, which may be an IPv6 address, and a port *)
Definition addr_ok (addr : bytes) : Prop :=
  ∃ host port, addr = JoinHostPort host (Itoa port) ∧ (chr "[" ∉ host) ∧ (chr "]" ∉ host) ∧ int_ok 32 port.
Lemma addr_split host port : (chr "[" ∉ host) → (chr "]" ∉ host) →
  SplitHostPort (JoinHostPort host (Itoa port)) = Some (host, Itoa port).
Proof. intros H1 H2. apply SplitHostPort_Join; [done|done|]. intros c Hc. apply Itoa_not_in; set_unfold; naive_solver. Qed.

Section laws.
Context (checksum : crcPolynomial → bytes → Z).

Definition broker_valid (version : Z) (b : BrokerNode) : Prop :=
  int_ok 32 (b_id b) ∧ addr_ok (b_addr b) ∧ ((1 <=? version) = false → b_rack b = None).
Lemma wire_broker v b : broker_valid v b → wire checksum (Broker_encode v b) (Broker_decode v) b.
Proof.
  destruct b as [id addr rack]. intros (Hid & Ha & Hr). cbn in *. destruct Ha as (host & port & -> & H1 & H2 & Hp).
  unfold Broker_encode, Broker_decode. cbn. rewrite addr_split by done.
  rewrite Atoi_Itoa by (unfold int_ok in *; simpl in *; lia). rewrite int_ok_swrap by done. wire_parts.
  cbv zeta. rewrite addr_split by done. apply wire_ret.
Qed.
#[local] Hint Resolve wire_broker : wire.
Lemma broker_plain v b : plain (Broker_encode v b).
Proof. unfold Broker_encode. repeat case_match; auto 20 with wire. Qed.
#[local] Hint Resolve broker_plain : wire.

Lemma wire_topic_names ts : wire checksum (put_array ts (fun t => [Data (putString t)])) (get_int_list getString) ts.
Proof. apply wire_int_list, Forall_true. eauto with wire. Qed.
#[local] Hint Resolve wire_topic_names : wire.

Definition metadata_valid (r : MetadataRequest) : Prop :=
  0 ≤ mq_Version r ≤ 5 ∧ ((3 <? mq_Version r) = false → AllowAutoTopicCreation r = false).
#[export] Instance MetadataRequest_laws : protocolLaws checksum MetadataRequest.
Proof.
  refine (body_laws _ (fun _ => MetadataRequest_encode) metadata_valid id _ _ _ _ _); [done|..].
  - intros r [? _]. unfold int_ok. simpl. lia.
  - intros _ []. unfold MetadataRequest_encode. cbn. auto 20 with wire.
  - intros _ [v ts a] _ [Hv Ha]. cbn in *. unfold MetadataRequest_encode, MetadataRequest_decode. cbn.
    replace ((v <? 0) || (5 <? v)) with false by lia. eapply wire_bind; [done| |cbv beta; wire_parts].
    destruct ((v =? 0) || (0 <? len ts)) eqn:E; [auto with wire|].
    assert (ts = []) as -> by (destruct ts; [done|rewrite len_cons in E; pose proof (len_nonneg ts); lia]).
    unfold get_int_list. eapply wire_cons; [done|by apply wire_int32|]. apply wire_ret.
  - done.
Defined.

Definition partition_valid (version : Z) (pm : PartitionMetadata) : Prop :=
  int_ok 16 (pm_Err pm) ∧ int_ok 32 (pm_ID pm) ∧ int_ok 32 (Leader pm) ∧ Forall (int_ok 32) (Replicas pm) ∧
  Forall (int_ok 32) (Isr pm) ∧ Forall (int_ok 32) (OfflineReplicas pm) ∧ ((5 <=? version) = false → OfflineReplicas pm = []).
Lemma wire_partition v pm : partition_valid v pm → wire checksum (PartitionMetadata_encode v pm) (PartitionMetadata_decode v) pm.
Proof. destruct pm. unfold partition_valid, PartitionMetadata_encode, PartitionMetadata_decode. part_auto. Qed.
Lemma wire_partitions v l : short (length l) → Forall (partition_valid v) l →
  wire checksum (put_array l (PartitionMetadata_encode v)) (get_array (PartitionMetadata_decode v)) l.
Proof. intros Hn Hl. apply (wire_slice _ (partition_valid v)); [apply wire_partition|done|done|done]. Qed.
#[local] Hint Resolve wire_partitions : wire.

Definition topic_valid (version : Z) (tm : TopicMetadata) : Prop :=
  int_ok 16 (tm_Err tm) ∧ ((1 <=? version) = false → IsInternal tm = false) ∧ short (length (tm_Partitions tm)) ∧
  Forall (partition_valid version) (tm_Partitions tm).
Lemma wire_topic v tm : topic_valid v tm → wire checksum (TopicMetadata_encode v tm) (TopicMetadata_decode v) tm.
Proof. destruct tm. unfold topic_valid, TopicMetadata_encode, TopicMetadata_decode. part_auto. Qed.
Lemma wire_topic_list v l : short (length l) → Forall (topic_valid v) l →
  wire checksum (put_array l (TopicMetadata_encode v)) (get_array (TopicMetadata_decode v)) l.
Proof. intros Hn Hl. apply (wire_slice _ (topic_valid v)); [apply wire_topic|done|done|done]. Qed.
#[local] Hint Resolve wire_topic_list : wire.

#[local] Hint Unfold PartitionMetadata_encode TopicMetadata_encode ApiVersionsResponseBlock_encode : part.
#[local] Hint Unfold MetadataResponse_encode MetadataResponse_decode ApiVersionsResponse_encode ApiVersionsResponse_decode
  FindCoordinatorResponse_encode FindCoordinatorResponse_decode
  SaslHandshakeRequest_encode SaslHandshakeRequest_decode SaslHandshakeResponse_encode SaslHandshakeResponse_decode
  SaslAuthenticateRequest_encode SaslAuthenticateRequest_decode SaslAuthenticateResponse_encode SaslAuthenticateResponse_decode
  InitProducerIDRequest_encode InitProducerIDRequest_decode InitProducerIDResponse_encode InitProducerIDResponse_decode APIKeySASLAuth : body.

Lemma starts_broker v b : addr_ok (b_addr b) → starts (Broker_encode v b) = true.
Proof.
  destruct b as [id addr rack]. intros (host & port & E & H1 & H2 & Hp). unfold Broker_encode. rewrite E, addr_split by done.
  by rewrite Atoi_Itoa by (unfold int_ok in *; simpl in *; lia).
Qed.
Lemma wire_brokers v l : short (length l) → Forall (broker_valid v) l →
  wire checksum (put_array l (Broker_encode v)) (get_array (Broker_decode v)) l.
Proof. intros Hn Hl. apply (wire_slice _ (broker_valid v)); [apply wire_broker| |done|done]. intros b Hb. by apply starts_broker, Hb. Qed.
#[local] Hint Resolve wire_brokers : wire.

#[export] Instance MetadataResponse_laws : protocolLaws checksum MetadataResponse.
Proof.
  body_auto (fun _ : orders => MetadataResponse_encode) (fun r => int_ok 16 (mr_Version r) ∧ int_ok 32 (mr_ThrottleTimeMs r) ∧
    ((3 <=? mr_Version r) = false → mr_ThrottleTimeMs r = 0) ∧ short (length (Brokers r)) ∧
    Forall (broker_valid (mr_Version r)) (Brokers r) ∧ ((2 <=? mr_Version r) = false → ClusterID r = None) ∧
    int_ok 32 (ControllerID r) ∧ ((1 <=? mr_Version r) = false → ControllerID r = -1) ∧
    short (length (mr_Topics r)) ∧ Forall (topic_valid (mr_Version r)) (mr_Topics r)) (@id MetadataResponse).
Defined.

#[export] Instance ApiVersionsRequest_laws : protocolLaws checksum ApiVersionsRequest.
Proof. body_auto (fun (_ : orders) (_ : ApiVersionsRequest) => @nil item) (fun _ : ApiVersionsRequest => True) (@id ApiVersionsRequest). Defined.
Definition api_valid (b : ApiVersionsResponseBlock) : Prop :=
  int_ok 16 (ab_ApiKey b) ∧ int_ok 16 (ab_MinVersion b) ∧ int_ok 16 (ab_MaxVersion b).
Lemma wire_api_block b : api_valid b → wire checksum (ApiVersionsResponseBlock_encode b) ApiVersionsResponseBlock_decode b.
Proof. destruct b. unfold api_valid, ApiVersionsResponseBlock_encode, ApiVersionsResponseBlock_decode. part_auto. Qed.
Lemma wire_api_blocks l : short (length l) → Forall api_valid l →
  wire checksum (put_array l ApiVersionsResponseBlock_encode) (get_array ApiVersionsResponseBlock_decode) l.
Proof. intros Hn Hl. apply (wire_slice _ api_valid); [apply wire_api_block|done|done|done]. Qed.
#[local] Hint Resolve wire_api_blocks : wire.
#[export] Instance ApiVersionsResponse_laws : protocolLaws checksum ApiVersionsResponse.
Proof.
  body_auto (fun _ : orders => ApiVersionsResponse_encode) (fun r => int_ok 16 (ar_Err r) ∧ short (length (ApiVersions r)) ∧
    Forall api_valid (ApiVersions r)) (@id ApiVersionsResponse).
Defined.

Definition find_valid (f : FindCoordinatorRequest) : Prop :=
  0 ≤ fq_Version f < 2 ^ 15 ∧ int_ok 8 (CoordinatorType f) ∧ ((1 <=? fq_Version f) = false → CoordinatorType f = 0).
#[export] Instance FindCoordinatorRequest_laws : protocolLaws checksum FindCoordinatorRequest.
Proof.
  refine (body_laws _ (fun _ => FindCoordinatorRequest_encode) find_valid id _ _ _ _ _); [done|..].
  - intros f [? _]. unfold int_ok. simpl in *. lia.
  - intros _ []. unfold FindCoordinatorRequest_encode. cbn. auto 20 with wire.
  - intros _ [v k t] _ (Hv & Ht & H0). cbn in *. unfold FindCoordinatorRequest_encode, FindCoordinatorRequest_decode. cbn.
    wire_part. destruct (1 <=? v) eqn:E; [wire_parts|]. rewrite H0 by done.
    replace v with 0 by lia. apply wire_ret.
  - done.
Defined.
#[export] Instance ConsumerMetadataRequest_laws : protocolLaws checksum ConsumerMetadataRequest.
Proof.
  refine (body_laws _ (fun _ => ConsumerMetadataRequest_encode) (fun _ => True) id _ _ _ _ _); [done|done| | |done].
  - intros _ []. unfold ConsumerMetadataRequest_encode, FindCoordinatorRequest_encode. cbn. auto 20 with wire.
  - intros _ [g] _ _. cbn. unfold ConsumerMetadataRequest_encode, ConsumerMetadataRequest_decode.
    apply (wire_map _ _ _ _ (fun t => mk_ConsumerMetadataRequest (CoordinatorKey t)) (mk_FindCoordinatorRequest 0 g 0)).
    unfold FindCoordinatorRequest_encode, FindCoordinatorRequest_decode. cbn. wire_parts.
Defined.

(** The coordinator that is received: [NoNode] stands for none, and [":0"] is read as none. *)
Definition coordinator_received (b : BrokerNode) : option BrokerNode := if beq (b_addr b) (B ":0") then None else Some b.
Definition found_valid (f : FindCoordinatorResponse) : Prop :=
  0 ≤ fr_Version f < 2 ^ 15 ∧ millis_ok (fr_ThrottleTime f) ∧ int_ok 16 (fr_Err f) ∧
  ((1 <=? fr_Version f) = false → fr_ThrottleTime f = 0 ∧ fr_ErrMsg f = None) ∧
  broker_valid 0 (default NoNode (fr_Coordinator f)).
Definition found_received (f : FindCoordinatorResponse) : FindCoordinatorResponse :=
  mk_FindCoordinatorResponse (fr_Version f) (fr_ThrottleTime f) (fr_Err f) (fr_ErrMsg f)
    (coordinator_received (default NoNode (fr_Coordinator f))).
Lemma wire_found f : found_valid f →
  wire checksum (FindCoordinatorResponse_encode f) (FindCoordinatorResponse_decode (fr_Version f)) (found_received f).
Proof.
  destruct f as [v t e m c]. intros (Hv & Ht & He & H0 & Hc). cbn in *.
  assert ((1 <=? v) = false → t = 0) by naive_solver. assert ((1 <=? v) = false → m = None) by naive_solver.
  assert ((if 1 <=? v then v else 0) = v) as Ev by (case_match; lia).
  unfold FindCoordinatorResponse_encode, FindCoordinatorResponse_decode, found_received. cbn. rewrite Ev.
  do 4 wire_part. apply wire_ret.
Qed.
#[export] Instance FindCoordinatorResponse_laws : protocolLaws checksum FindCoordinatorResponse.
Proof.
  refine (body_laws _ (fun _ => FindCoordinatorResponse_encode) found_valid found_received _ _ _ _ _); [done|..].
  - intros f [? _]. unfold int_ok. simpl in *. lia.
  - intros _ []. unfold FindCoordinatorResponse_encode. cbn. auto 20 with wire.
  - intros _ f _. apply wire_found.
  - done.
Defined.

(** The deprecated fields are filled from the coordinator. *)
Definition consumer_received (r : ConsumerMetadataResponse) : ConsumerMetadataResponse :=
  let b := coordinator_of r in
  match coordinator_received b, SplitHostPort (b_addr b) with
  | Some _, Some (host, portstr) => mk_ConsumerMetadataResponse (cr_Err r) (Some b) (b_id b) host (Atoi portstr).1
  | _, _ => mk_ConsumerMetadataResponse (cr_Err r) None 0 [] 0
  end.
#[export] Instance ConsumerMetadataResponse_laws : protocolLaws checksum ConsumerMetadataResponse.
Proof.
  refine (body_laws _ (fun _ => ConsumerMetadataResponse_encode)
    (fun r => int_ok 16 (cr_Err r) ∧ broker_valid 0 (coordinator_of r)) consumer_received _ _ _ _ _); [done|done| | |done].
  - intros _ r. unfold ConsumerMetadataResponse_encode, FindCoordinatorResponse_encode. cbn. auto 20 with wire.
  - intros _ r _ [He Hb]. cbn [version ConsumerMetadataResponse_body body_decode].
    unfold ConsumerMetadataResponse_encode, ConsumerMetadataResponse_decode, consumer_received.
    eapply wire_last; [apply (wire_found (mk_FindCoordinatorResponse 0 0 (cr_Err r) None (Some (coordinator_of r))))|].
    { split_and!; cbn; [lia|lia|by exists 0|done|done|done]. }
    cbv beta. unfold found_received. cbn [fr_Coordinator default fr_Err from_option].
    destruct Hb as (_ & (host & port & E & H1 & H2 & Hp) & _). rewrite E, addr_split by done.
    destruct (coordinator_received _) as [b|] eqn:Ec; [|apply wire_ret].
    unfold coordinator_received in Ec. case_match; [done|]. injection Ec as <-. rewrite E, addr_split by done.
    unfold ParseInt32. rewrite Atoi_Itoa by (unfold int_ok in *; simpl in *; lia).
    replace (_ && _) with true by (unfold int_ok in *; simpl in *; lia). apply wire_ret.
Defined.

#[export] Instance SaslHandshakeRequest_laws : protocolLaws checksum SaslHandshakeRequest.
Proof.
  body_auto (fun _ : orders => SaslHandshakeRequest_encode) (fun r => int_ok 16 (shq_Version r))
    (fun r => mk_SaslHandshakeRequest (Mechanism r) 0).
Defined.
#[export] Instance SaslHandshakeResponse_laws : protocolLaws checksum SaslHandshakeResponse.
Proof. body_auto (fun _ : orders => SaslHandshakeResponse_encode) (fun r => int_ok 16 (shr_Err r)) (@id SaslHandshakeResponse). Defined.
#[export] Instance SaslAuthenticateRequest_laws : protocolLaws checksum SaslAuthenticateRequest.
Proof.
  body_auto (fun _ : orders => SaslAuthenticateRequest_encode) (fun _ : SaslAuthenticateRequest => True) (@id SaslAuthenticateRequest).
Defined.
#[export] Instance SaslAuthenticateResponse_laws : protocolLaws checksum SaslAuthenticateResponse.
Proof.
  body_auto (fun _ : orders => SaslAuthenticateResponse_encode) (fun r => int_ok 16 (sar_Err r)) (@id SaslAuthenticateResponse).
Defined.
#[export] Instance InitProducerIDRequest_laws : protocolLaws checksum InitProducerIDRequest.
Proof.
  body_auto (fun _ : orders => InitProducerIDRequest_encode) (fun i => millis_ok (TransactionTimeout i)) (@id InitProducerIDRequest).
Defined.
#[export] Instance InitProducerIDResponse_laws : protocolLaws checksum InitProducerIDResponse.
Proof.
  body_auto (fun _ : orders => InitProducerIDResponse_encode) (fun i => millis_ok (ir_ThrottleTime i) ∧ int_ok 16 (ir_Err i) ∧
    int_ok 64 (ir_ProducerID i) ∧ int_ok 16 (ir_ProducerEpoch i)) (@id InitProducerIDResponse).
Defined.
End laws.

(** A coordinator that is not there is not read as nil but as [NoNode]. *)
Lemma nil_coordinator_received f : fr_Coordinator f = None → fr_Coordinator (found_received f) = Some NoNode.
Proof. intros E. unfold found_received. by rewrite E. Qed.
