(* ===== verification/KafkaOffsets.v ===== *)
(** * Offsets and transactions: [kafka/offset_*.go] (the requests and responses),
    [add_offsets_to_txn_*.go], [add_partitions_to_txn_*.go], [end_txn_*.go],
    [txn_offset_commit_*.go]

    The offsets a consumer asks for, commits and fetches, and the transactions of a producer. *)

From S2P Require Import Prelude GoStrings KafkaCodec KafkaProps KafkaDecoder KafkaDecoderProps KafkaWire KafkaRecord KafkaProtocol.

(** ** Asking for offsets *)

(** [type offsetRequestBlock struct], [type OffsetRequest struct] *)
Record offsetRequestBlock := mk_offset_block { ob_time : Z; ob_maxOffsets : Z }.
Definition offsetRequestBlock_encode (version : Z) (b : offsetRequestBlock) : list item :=
  [Data (putInt64 (ob_time b))] ++ (if version =? 0 then [Data (putInt32 (ob_maxOffsets b))] else []).
Definition offsetRequestBlock_decode (version : Z) : rd_get offsetRequestBlock :=
  get* t := getInt64 in get* m := if version =? 0 then getInt32 else rd_ret 0 in rd_ret (mk_offset_block t m).

Record OffsetRequest := mk_OffsetRequest {
  oq_Version : Z; oq_replicaID : Z; isReplicaIDSet : bool; oq_blocks : gmap bytes (gmap Z offsetRequestBlock) }.
(** [func (r *OffsetRequest) ReplicaID() int32], [SetReplicaID], [AddBlock] *)
Definition ReplicaID (r : OffsetRequest) : Z := if isReplicaIDSet r then oq_replicaID r else -1.
Definition SetReplicaID (id : Z) (r : OffsetRequest) : OffsetRequest := mk_OffsetRequest (oq_Version r) id true (oq_blocks r).
Definition OffsetRequest_AddBlock (topic : bytes) (partitionID time maxOffsets : Z) (r : OffsetRequest) : OffsetRequest :=
  mk_OffsetRequest (oq_Version r) (oq_replicaID r) (isReplicaIDSet r)
    (add_block topic partitionID (mk_offset_block time (if oq_Version r =? 0 then maxOffsets else 0)) (oq_blocks r)).
Definition OffsetRequest_encode (o : orders) (r : OffsetRequest) : list item :=
  [Data (putInt32 (if isReplicaIDSet r then oq_replicaID r else -1))] ++
  put_topics o [] (oq_blocks r) (offsetRequestBlock_encode (oq_Version r)).
Definition OffsetRequest_decode (version : Z) : rd_get OffsetRequest :=
  get* replicaID := getInt32 in
  get* blocks := get_topics (offsetRequestBlock_decode version) in
  let r := mk_OffsetRequest version 0 false blocks in
  rd_ret (if 0 <=? replicaID then SetReplicaID replicaID r else r).
Definition offset_required (v : Z) : KafkaVersion := if v =? 1 then V0_10_1_0 else MinVersion.
Definition OffsetRequest_body : protocolBody OffsetRequest := {|
  key _ := 2; version := oq_Version; requiredVersion r := offset_required (oq_Version r);
  body_metrics _ := Ret 0; body_encode o r := Ret (OffsetRequest_encode o r); body_decode := OffsetRequest_decode |}.
#[export] Existing Instance OffsetRequest_body.

(** [type OffsetResponseBlock struct], [type OffsetResponse struct]: the decoder does not set the
    version. *)
Record OffsetResponseBlock := mk_offset_response_block { orb_Err : Z; orb_Offsets : list Z; orb_Offset : Z; orb_Timestamp : Z }.
Definition OffsetResponseBlock_encode (version : Z) (b : OffsetResponseBlock) : list item :=
  [Data (putInt16 (orb_Err b))] ++
  (if version =? 0 then [Data (putInt64Array (orb_Offsets b))]
   else [Data (putInt64 (orb_Timestamp b)); Data (putInt64 (orb_Offset b))]).
Definition OffsetResponseBlock_decode (version : Z) : rd_get OffsetResponseBlock :=
  get* err := getInt16 in
  if version =? 0 then get* offsets := getInt64Array in rd_ret (mk_offset_response_block err offsets 0 0)
  else get* timestamp := getInt64 in get* offset := getInt64 in
       rd_ret (mk_offset_response_block err [offset] offset timestamp).
Record OffsetResponse := mk_OffsetResponse { or_Version : Z; or_Blocks : gmap bytes (gmap Z OffsetResponseBlock) }.
Definition OffsetResponse_encode (o : orders) (r : OffsetResponse) : list item :=
  put_topics o [] (or_Blocks r) (OffsetResponseBlock_encode (or_Version r)).
Definition OffsetResponse_decode (version : Z) : rd_get OffsetResponse :=
  get* blocks := get_topics (OffsetResponseBlock_decode version) in rd_ret (mk_OffsetResponse 0 blocks).
Definition OffsetResponse_body : protocolBody OffsetResponse := {|
  key _ := 2; version := or_Version; requiredVersion r := offset_required (or_Version r);
  body_metrics _ := Ret 0; body_encode o r := Ret (OffsetResponse_encode o r); body_decode := OffsetResponse_decode |}.
#[export] Existing Instance OffsetResponse_body.
(** [func (r *OffsetResponse) GetBlock], [AddTopicPartition] *)
Definition OffsetResponse_GetBlock (r : OffsetResponse) (topic : bytes) (partition : Z) : option OffsetResponseBlock :=
  get_block (or_Blocks r) topic partition.
Definition OffsetResponse_AddTopicPartition (topic : bytes) (partition offset : Z) (r : OffsetResponse) : OffsetResponse :=
  mk_OffsetResponse (or_Version r) (add_block topic partition (mk_offset_response_block 0 [offset] offset 0) (or_Blocks r)).

(** ** Committing offsets *)

(** [type offsetCommitRequestBlock struct], [type OffsetCommitRequest struct] *)
Record offsetCommitRequestBlock := mk_commit_block { cb_offset : Z; cb_timestamp : Z; cb_metadata : bytes }.
Definition offsetCommitRequestBlock_encode (version : Z) (b : offsetCommitRequestBlock) : list item :=
  [Data (putInt64 (cb_offset b))] ++ (if version =? 1 then [Data (putInt64 (cb_timestamp b))] else []) ++
  [Data (putString (cb_metadata b))].
Definition offsetCommitRequestBlock_decode (version : Z) : rd_get offsetCommitRequestBlock :=
  get* offset := getInt64 in
  get* timestamp := if version =? 1 then getInt64 else rd_ret 0 in
  get* metadata := getString in
  rd_ret (mk_commit_block offset timestamp metadata).
Record OffsetCommitRequest := mk_OffsetCommitRequest {
  ocq_ConsumerGroup : bytes; ConsumerGroupGeneration : Z; ConsumerID : bytes; RetentionTime : Z; ocq_Version : Z;
  ocq_blocks : gmap bytes (gmap Z offsetCommitRequestBlock) }.
Definition OffsetCommitRequest_encode (o : orders) (r : OffsetCommitRequest) : list item :=
  if (ocq_Version r <? 0) || (4 <? ocq_Version r) then [Data (report UnsupportedVersion)]
  else
    [Data (putString (ocq_ConsumerGroup r))] ++
    (if 1 <=? ocq_Version r then [Data (putInt32 (ConsumerGroupGeneration r))] else []) ++
    (if 1 <=? ocq_Version r then [Data (putString (ConsumerID r))] else []) ++
    (if 2 <=? ocq_Version r then [Data (putInt64 (RetentionTime r))] else []) ++
    put_topics o [] (ocq_blocks r) (offsetCommitRequestBlock_encode (ocq_Version r)).
Definition OffsetCommitRequest_decode (version : Z) : rd_get OffsetCommitRequest :=
  get* group := getString in
  get* generation := if 1 <=? version then getInt32 else rd_ret 0 in
  get* id := if 1 <=? version then getString else rd_ret [] in
  get* retention := if 2 <=? version then getInt64 else rd_ret 0 in
  get* blocks := get_topics (offsetCommitRequestBlock_decode version) in
  rd_ret (mk_OffsetCommitRequest group generation id retention version blocks).
Definition commit_required (v : Z) : KafkaVersion :=
  if v =? 1 then V0_8_2_0 else if v =? 2 then V0_9_0_0 else if v =? 3 then V0_11_0_0 else if v =? 4 then V2_0_0_0 else MinVersion.
Definition OffsetCommitRequest_body : protocolBody OffsetCommitRequest := {|
  key _ := 8; version := ocq_Version; requiredVersion r := commit_required (ocq_Version r);
  body_metrics _ := Ret 0; body_encode o r := Ret (OffsetCommitRequest_encode o r); body_decode := OffsetCommitRequest_decode |}.
#[export] Existing Instance OffsetCommitRequest_body.
(** [func (r *OffsetCommitRequest) AddBlock], [Offset] *)
Definition OffsetCommitRequest_AddBlock (topic : bytes) (partitionID offset timestamp : Z) (metadata : bytes) (r : OffsetCommitRequest) :
    OffsetCommitRequest :=
  mk_OffsetCommitRequest (ocq_ConsumerGroup r) (ConsumerGroupGeneration r) (ConsumerID r) (RetentionTime r) (ocq_Version r)
    (add_block topic partitionID (mk_commit_block offset timestamp metadata) (ocq_blocks r)).
Definition OffsetCommitRequest_Offset (r : OffsetCommitRequest) (topic : bytes) (partitionID : Z) : option (Z * bytes) :=
  (fun b => (cb_offset b, cb_metadata b)) <$> get_block (ocq_blocks r) topic partitionID.

(** [type OffsetCommitResponse struct] *)
Record OffsetCommitResponse := mk_OffsetCommitResponse {
  ocr_Version : Z; ocr_ThrottleTimeMs : Z; ocr_Errors : gmap bytes (gmap Z Z) }.
Definition code_encode (kerror : Z) : list item := [Data (putInt16 kerror)].
Definition OffsetCommitResponse_encode (o : orders) (r : OffsetCommitResponse) : list item :=
  (if 3 <=? ocr_Version r then [Data (putInt32 (ocr_ThrottleTimeMs r))] else []) ++
  put_topics o [] (ocr_Errors r) code_encode.
Definition OffsetCommitResponse_decode (version : Z) : rd_get OffsetCommitResponse :=
  get* throttle := if 3 <=? version then getInt32 else rd_ret 0 in
  get* errors := get_topics getInt16 in
  rd_ret (mk_OffsetCommitResponse version throttle errors).
Definition OffsetCommitResponse_body : protocolBody OffsetCommitResponse := {|
  key _ := 8; version := ocr_Version; requiredVersion r := commit_required (ocr_Version r);
  body_metrics _ := Ret 0; body_encode o r := Ret (OffsetCommitResponse_encode o r); body_decode := OffsetCommitResponse_decode |}.
#[export] Existing Instance OffsetCommitResponse_body.
(** [func (r *OffsetCommitResponse) AddError(topic string, partition int32, kerror KError)] *)
Definition OffsetCommitResponse_AddError (topic : bytes) (partition kerror : Z) (r : OffsetCommitResponse) : OffsetCommitResponse :=
  mk_OffsetCommitResponse (ocr_Version r) (ocr_ThrottleTimeMs r) (add_block topic partition kerror (ocr_Errors r)).

(** ** Fetching committed offsets *)

(** [type OffsetFetchRequest struct]; here nil partitions are all partitions, from version 2 on. *)
Record OffsetFetchRequest := mk_OffsetFetchRequest {
  ofq_Version : Z; ofq_ConsumerGroup : bytes; ofq_partitions : option (gmap bytes (list Z)) }.
Definition OffsetFetchRequest_encode (o : orders) (r : OffsetFetchRequest) : list item :=
  if (ofq_Version r <? 0) || (5 <? ofq_Version r) then [Data (report UnsupportedVersion)]
  else
    [Data (putString (ofq_ConsumerGroup r))] ++
    match ofq_partitions r with
    | None => if 2 <=? ofq_Version r then [Data (putInt32 (-1))] else put_map o [] (∅ : gmap bytes (list Z)) partitions_entry
    | Some m => put_map o [] m partitions_entry
    end.
Definition OffsetFetchRequest_decode (version : Z) : rd_get OffsetFetchRequest :=
  get* group := getString in
  get* partitions := (
    get* n := getArrayLength in
    if (n =? 0) && (version <? 2) || (n <? 0) then rd_ret None
    else get* l := get_times (Z.to_nat n) (get_entry getString getInt32Array) in rd_ret (Some (map_of l))) in
  rd_ret (mk_OffsetFetchRequest version group partitions).
Definition fetch_required (v : Z) : KafkaVersion :=
  if v =? 1 then V0_8_2_0 else if v =? 2 then V0_10_2_0 else if v =? 3 then V0_11_0_0 else if v =? 4 then V2_0_0_0
  else if v =? 5 then V2_1_0_0 else MinVersion.
Definition OffsetFetchRequest_body : protocolBody OffsetFetchRequest := {|
  key _ := 9; version := ofq_Version; requiredVersion r := fetch_required (ofq_Version r);
  body_metrics _ := Ret 0; body_encode o r := Ret (OffsetFetchRequest_encode o r); body_decode := OffsetFetchRequest_decode |}.
#[export] Existing Instance OffsetFetchRequest_body.
(** [func (r *OffsetFetchRequest) ZeroPartitions()], [AddPartition] *)
Definition ZeroPartitions (r : OffsetFetchRequest) : OffsetFetchRequest :=
  match ofq_partitions r with
  | None => if 2 <=? ofq_Version r then mk_OffsetFetchRequest (ofq_Version r) (ofq_ConsumerGroup r) (Some ∅) else r
  | Some _ => r
  end.
Definition AddPartition (topic : bytes) (partitionID : Z) (r : OffsetFetchRequest) : OffsetFetchRequest :=
  let m := default ∅ (ofq_partitions r) in
  mk_OffsetFetchRequest (ofq_Version r) (ofq_ConsumerGroup r) (Some (<[topic := default [] (m !! topic) ++ [partitionID]]> m)).

(** [type OffsetFetchResponseBlock struct], [type OffsetFetchResponse struct] *)
Record OffsetFetchResponseBlock := mk_fetch_block { fb_Offset : Z; fb_LeaderEpoch : Z; fb_Metadata : bytes; fb_Err : Z }.
Definition OffsetFetchResponseBlock_encode (version : Z) (b : OffsetFetchResponseBlock) : list item :=
  [Data (putInt64 (fb_Offset b))] ++ (if 5 <=? version then [Data (putInt32 (fb_LeaderEpoch b))] else []) ++
  [Data (putString (fb_Metadata b)); Data (putInt16 (fb_Err b))].
Definition OffsetFetchResponseBlock_decode (version : Z) : rd_get OffsetFetchResponseBlock :=
  get* offset := getInt64 in
  get* epoch := if 5 <=? version then getInt32 else rd_ret 0 in
  get* metadata := getString in
  get* err := getInt16 in
  rd_ret (mk_fetch_block offset epoch metadata err).
Record OffsetFetchResponse := mk_OffsetFetchResponse {
  ofr_Version : Z; ofr_ThrottleTimeMs : Z; ofr_Blocks : gmap bytes (gmap Z OffsetFetchResponseBlock); ofr_Err : Z }.
Definition OffsetFetchResponse_encode (o : orders) (r : OffsetFetchResponse) : list item :=
  (if 3 <=? ofr_Version r then [Data (putInt32 (ofr_ThrottleTimeMs r))] else []) ++
  put_topics o [] (ofr_Blocks r) (OffsetFetchResponseBlock_encode (ofr_Version r)) ++
  (if 2 <=? ofr_Version r then [Data (putInt16 (ofr_Err r))] else []).
Definition OffsetFetchResponse_decode (version : Z) : rd_get OffsetFetchResponse :=
  get* throttle := if 3 <=? version then getInt32 else rd_ret 0 in
  get* blocks := get_topics (OffsetFetchResponseBlock_decode version) in
  get* err := if 2 <=? version then getInt16 else rd_ret 0 in
  rd_ret (mk_OffsetFetchResponse version throttle blocks err).
Definition OffsetFetchResponse_body : protocolBody OffsetFetchResponse := {|
  key _ := 9; version := ofr_Version; requiredVersion r := fetch_required (ofr_Version r);
  body_metrics _ := Ret 0; body_encode o r := Ret (OffsetFetchResponse_encode o r); body_decode := OffsetFetchResponse_decode |}.
#[export] Existing Instance OffsetFetchResponse_body.
(** [func (r *OffsetFetchResponse) GetBlock], [AddBlock] *)
Definition OffsetFetchResponse_GetBlock (r : OffsetFetchResponse) (topic : bytes) (partition : Z) : option OffsetFetchResponseBlock :=
  get_block (ofr_Blocks r) topic partition.
Definition OffsetFetchResponse_AddBlock (topic : bytes) (partition : Z) (block : OffsetFetchResponseBlock) (r : OffsetFetchResponse) :
    OffsetFetchResponse :=
  mk_OffsetFetchResponse (ofr_Version r) (ofr_ThrottleTimeMs r) (add_block topic partition block (ofr_Blocks r)) (ofr_Err r).

(** ** Transactions *)

(** [type AddOffsetsToTxnRequest struct], [type AddOffsetsToTxnResponse struct] *)
Record AddOffsetsToTxnRequest := mk_AddOffsetsToTxnRequest {
  aoq_TransactionalID : bytes; aoq_ProducerID : Z; aoq_ProducerEpoch : Z; aoq_GroupID : bytes }.
Definition AddOffsetsToTxnRequest_encode (a : AddOffsetsToTxnRequest) : list item :=
  [Data (putString (aoq_TransactionalID a)); Data (putInt64 (aoq_ProducerID a)); Data (putInt16 (aoq_ProducerEpoch a));
   Data (putString (aoq_GroupID a))].
Definition AddOffsetsToTxnRequest_decode (_ : Z) : rd_get AddOffsetsToTxnRequest :=
  get* t := getString in get* id := getInt64 in get* epoch := getInt16 in get* group := getString in
  rd_ret (mk_AddOffsetsToTxnRequest t id epoch group).
Definition AddOffsetsToTxnRequest_body : protocolBody AddOffsetsToTxnRequest := {|
  key _ := 25; version _ := 0; requiredVersion _ := V0_11_0_0;
  body_metrics _ := Ret 0; body_encode _ r := Ret (AddOffsetsToTxnRequest_encode r); body_decode := AddOffsetsToTxnRequest_decode |}.
#[export] Existing Instance AddOffsetsToTxnRequest_body.

Record AddOffsetsToTxnResponse := mk_AddOffsetsToTxnResponse { aor_ThrottleTime : Z; aor_Err : Z }.
Definition AddOffsetsToTxnResponse_encode (a : AddOffsetsToTxnResponse) : list item :=
  [put_millis (aor_ThrottleTime a); Data (putInt16 (aor_Err a))].
Definition AddOffsetsToTxnResponse_decode (_ : Z) : rd_get AddOffsetsToTxnResponse :=
  get* t := get_millis in get* err := getInt16 in rd_ret (mk_AddOffsetsToTxnResponse t err).
Definition AddOffsetsToTxnResponse_body : protocolBody AddOffsetsToTxnResponse := {|
  key _ := 25; version _ := 0; requiredVersion _ := V0_11_0_0;
  body_metrics _ := Ret 0; body_encode _ r := Ret (AddOffsetsToTxnResponse_encode r); body_decode := AddOffsetsToTxnResponse_decode |}.
#[export] Existing Instance AddOffsetsToTxnResponse_body.

(** [type AddPartitionsToTxnRequest struct] *)
Record AddPartitionsToTxnRequest := mk_AddPartitionsToTxnRequest {
  apq_TransactionalID : bytes; apq_ProducerID : Z; apq_ProducerEpoch : Z; apq_TopicPartitions : gmap bytes (list Z) }.
Definition AddPartitionsToTxnRequest_encode (o : orders) (a : AddPartitionsToTxnRequest) : list item :=
  [Data (putString (apq_TransactionalID a)); Data (putInt64 (apq_ProducerID a)); Data (putInt16 (apq_ProducerEpoch a))] ++
  put_map o [] (apq_TopicPartitions a) partitions_entry.
Definition AddPartitionsToTxnRequest_decode (_ : Z) : rd_get AddPartitionsToTxnRequest :=
  get* t := getString in get* id := getInt64 in get* epoch := getInt16 in
  get* m := get_map (get_entry getString getInt32Array) in
  rd_ret (mk_AddPartitionsToTxnRequest t id epoch m).
Definition AddPartitionsToTxnRequest_body : protocolBody AddPartitionsToTxnRequest := {|
  key _ := 24; version _ := 0; requiredVersion _ := V0_11_0_0;
  body_metrics _ := Ret 0; body_encode o r := Ret (AddPartitionsToTxnRequest_encode o r); body_decode := AddPartitionsToTxnRequest_decode |}.
#[export] Existing Instance AddPartitionsToTxnRequest_body.

(** [type PartitionError struct] *)
Record PartitionError := mk_partition_error { pe_Partition : Z; pe_Err : Z }.
Definition PartitionError_encode (p : PartitionError) : list item := [Data (putInt32 (pe_Partition p)); Data (putInt16 (pe_Err p))].
Definition PartitionError_decode : rd_get PartitionError :=
  get* id := getInt32 in get* err := getInt16 in rd_ret (mk_partition_error id err).
(** An entry of a [map[string][]*PartitionError] *)
Definition errors_entry (_ : list nat) (e : bytes * list PartitionError) : list item :=
  Data (putString e.1) :: put_array e.2 PartitionError_encode.

(** [type AddPartitionsToTxnResponse struct] *)
Record AddPartitionsToTxnResponse := mk_AddPartitionsToTxnResponse {
  apr_ThrottleTime : Z; apr_Errors : gmap bytes (list PartitionError) }.
Definition AddPartitionsToTxnResponse_encode (o : orders) (a : AddPartitionsToTxnResponse) : list item :=
  [put_millis (apr_ThrottleTime a)] ++ put_map o [] (apr_Errors a) errors_entry.
Definition AddPartitionsToTxnResponse_decode (_ : Z) : rd_get AddPartitionsToTxnResponse :=
  get* t := get_millis in
  get* m := get_map (get_entry getString (get_array PartitionError_decode)) in
  rd_ret (mk_AddPartitionsToTxnResponse t m).
Definition AddPartitionsToTxnResponse_body : protocolBody AddPartitionsToTxnResponse := {|
  key _ := 24; version _ := 0; requiredVersion _ := V0_11_0_0;
  body_metrics _ := Ret 0; body_encode o r := Ret (AddPartitionsToTxnResponse_encode o r); body_decode := AddPartitionsToTxnResponse_decode |}.
#[export] Existing Instance AddPartitionsToTxnResponse_body.

(** [type EndTxnRequest struct], [type EndTxnResponse struct]; the response has the key of
    another request. *)
Record EndTxnRequest := mk_EndTxnRequest { eq_TransactionalID : bytes; eq_ProducerID : Z; eq_ProducerEpoch : Z; TransactionResult : bool }.
Definition EndTxnRequest_encode (a : EndTxnRequest) : list item :=
  [Data (putString (eq_TransactionalID a)); Data (putInt64 (eq_ProducerID a)); Data (putInt16 (eq_ProducerEpoch a));
   Data (putBool (TransactionResult a))].
Definition EndTxnRequest_decode (_ : Z) : rd_get EndTxnRequest :=
  get* t := getString in get* id := getInt64 in get* epoch := getInt16 in get* res := getBool in
  rd_ret (mk_EndTxnRequest t id epoch res).
Definition EndTxnRequest_body : protocolBody EndTxnRequest := {|
  key _ := 26; version _ := 0; requiredVersion _ := V0_11_0_0;
  body_metrics _ := Ret 0; body_encode _ r := Ret (EndTxnRequest_encode r); body_decode := EndTxnRequest_decode |}.
#[export] Existing Instance EndTxnRequest_body.

Record EndTxnResponse := mk_EndTxnResponse { er_ThrottleTime : Z; er_Err : Z }.
Definition EndTxnResponse_encode (e : EndTxnResponse) : list item := [put_millis (er_ThrottleTime e); Data (putInt16 (er_Err e))].
Definition EndTxnResponse_decode (_ : Z) : rd_get EndTxnResponse :=
  get* t := get_millis in get* err := getInt16 in rd_ret (mk_EndTxnResponse t err).
Definition EndTxnResponse_body : protocolBody EndTxnResponse := {|
  key _ := 25; version _ := 0; requiredVersion _ := V0_11_0_0;
  body_metrics _ := Ret 0; body_encode _ r := Ret (EndTxnResponse_encode r); body_decode := EndTxnResponse_decode |}.
#[export] Existing Instance EndTxnResponse_body.

(** [type PartitionOffsetMetadata struct], [type TxnOffsetCommitRequest struct] *)
Record PartitionOffsetMetadata := mk_offset_metadata { pom_Partition : Z; pom_Offset : Z; pom_Metadata : option bytes }.
Definition PartitionOffsetMetadata_encode (p : PartitionOffsetMetadata) : list item :=
  [Data (putInt32 (pom_Partition p)); Data (putInt64 (pom_Offset p)); Data (putNullableString (pom_Metadata p))].
Definition PartitionOffsetMetadata_decode : rd_get PartitionOffsetMetadata :=
  get* id := getInt32 in get* offset := getInt64 in get* metadata := getNullableString in
  rd_ret (mk_offset_metadata id offset metadata).
Definition offsets_entry (_ : list nat) (e : bytes * list PartitionOffsetMetadata) : list item :=
  Data (putString e.1) :: put_array e.2 PartitionOffsetMetadata_encode.
Record TxnOffsetCommitRequest := mk_TxnOffsetCommitRequest {
  toq_TransactionalID : bytes; toq_GroupID : bytes; toq_ProducerID : Z; toq_ProducerEpoch : Z;
  toq_Topics : gmap bytes (list PartitionOffsetMetadata) }.
Definition TxnOffsetCommitRequest_encode (o : orders) (t : TxnOffsetCommitRequest) : list item :=
  [Data (putString (toq_TransactionalID t)); Data (putString (toq_GroupID t)); Data (putInt64 (toq_ProducerID t));
   Data (putInt16 (toq_ProducerEpoch t))] ++ put_map o [] (toq_Topics t) offsets_entry.
Definition TxnOffsetCommitRequest_decode (_ : Z) : rd_get TxnOffsetCommitRequest :=
  get* t := getString in get* group := getString in get* id := getInt64 in get* epoch := getInt16 in
  get* m := get_map (get_entry getString (get_array PartitionOffsetMetadata_decode)) in
  rd_ret (mk_TxnOffsetCommitRequest t group id epoch m).
Definition TxnOffsetCommitRequest_body : protocolBody TxnOffsetCommitRequest := {|
  key _ := 28; version _ := 0; requiredVersion _ := V0_11_0_0;
  body_metrics _ := Ret 0; body_encode o r := Ret (TxnOffsetCommitRequest_encode o r); body_decode := TxnOffsetCommitRequest_decode |}.
#[export] Existing Instance TxnOffsetCommitRequest_body.

(** [type TxnOffsetCommitResponse struct] *)
Record TxnOffsetCommitResponse := mk_TxnOffsetCommitResponse { tor_ThrottleTime : Z; tor_Topics : gmap bytes (list PartitionError) }.
Definition TxnOffsetCommitResponse_encode (o : orders) (t : TxnOffsetCommitResponse) : list item :=
  [put_millis (tor_ThrottleTime t)] ++ put_map o [] (tor_Topics t) errors_entry.
Definition TxnOffsetCommitResponse_decode (_ : Z) : rd_get TxnOffsetCommitResponse :=
  get* t := get_millis in
  get* m := get_map (get_entry getString (get_array PartitionError_decode)) in
  rd_ret (mk_TxnOffsetCommitResponse t m).
Definition TxnOffsetCommitResponse_body : protocolBody TxnOffsetCommitResponse := {|
  key _ := 28; version _ := 0; requiredVersion _ := V0_11_0_0;
  body_metrics _ := Ret 0; body_encode o r := Ret (TxnOffsetCommitResponse_encode o r); body_decode := TxnOffsetCommitResponse_decode |}.
#[export] Existing Instance TxnOffsetCommitResponse_body.

(** ** Laws *)

Section laws.
Context (checksum : crcPolynomial → bytes → Z).

#[local] Hint Unfold OffsetRequest_encode OffsetRequest_decode OffsetResponse_encode OffsetResponse_decode
  OffsetCommitResponse_encode OffsetCommitResponse_decode OffsetFetchResponse_encode OffsetFetchResponse_decode
  AddOffsetsToTxnRequest_encode AddOffsetsToTxnRequest_decode AddOffsetsToTxnResponse_encode AddOffsetsToTxnResponse_decode
  AddPartitionsToTxnRequest_encode AddPartitionsToTxnRequest_decode AddPartitionsToTxnResponse_encode
  AddPartitionsToTxnResponse_decode EndTxnRequest_encode EndTxnRequest_decode EndTxnResponse_encode EndTxnResponse_decode
  TxnOffsetCommitRequest_encode TxnOffsetCommitRequest_decode TxnOffsetCommitResponse_encode TxnOffsetCommitResponse_decode : body.
#[local] Hint Unfold offsetRequestBlock_encode OffsetResponseBlock_encode offsetCommitRequestBlock_encode code_encode
  OffsetFetchResponseBlock_encode PartitionError_encode errors_entry PartitionOffsetMetadata_encode offsets_entry : part.

(** *** Requests and responses about offsets *)

Definition offset_block_valid (v : Z) (b : offsetRequestBlock) : Prop :=
  int_ok 64 (ob_time b) ∧ int_ok 32 (ob_maxOffsets b) ∧ ((v =? 0) = false → ob_maxOffsets b = 0).
Lemma wire_offset_block v b : offset_block_valid v b → wire checksum (offsetRequestBlock_encode v b) (offsetRequestBlock_decode v) b.
Proof. destruct b. unfold offset_block_valid, offsetRequestBlock_encode, offsetRequestBlock_decode. part_auto. Qed.
Lemma wire_offset_blocks v o m : fair o → topics_ok (offset_block_valid v) m →
  wire checksum (put_topics o [] m (offsetRequestBlock_encode v)) (get_topics (offsetRequestBlock_decode v)) m.
Proof. intros Ho Hm. eapply wire_topics_id; [done|apply wire_offset_block|done]. Qed.
#[local] Hint Resolve wire_offset_blocks : wire.
Definition offset_valid (r : OffsetRequest) : Prop :=
  int_ok 16 (oq_Version r) ∧ (if isReplicaIDSet r then 0 ≤ oq_replicaID r < 2 ^ 31 else oq_replicaID r = 0) ∧
  topics_ok (offset_block_valid (oq_Version r)) (oq_blocks r).
#[export] Instance OffsetRequest_laws : protocolLaws checksum OffsetRequest.
Proof.
  refine (body_laws _ OffsetRequest_encode offset_valid id _ _ _ _ _); [done|..].
  - by intros r [? _].
  - intros o []. autounfold with body part. cbn. auto 20 with wire.
  - intros o [v id set m] Ho (Hv & Hid & Hm). cbn in *. unfold OffsetRequest_encode, OffsetRequest_decode. cbn.
    assert (int_ok 32 (if set then id else -1)) by (destruct set; unfold int_ok; simpl in *; lia).
    do 2 wire_part. cbv zeta. destruct set; [replace (0 <=? id) with true by lia|subst id]; apply wire_ret.
  - intros o o' [] Ho Ho'. autounfold with body part. cbn. auto 20 with order.
Defined.

(** From version 1 on the block has one offset; the response has version 0 when it is received. *)
Definition offset_response_valid (v : Z) (b : OffsetResponseBlock) : Prop :=
  int_ok 16 (orb_Err b) ∧ Forall (int_ok 64) (orb_Offsets b) ∧ int_ok 64 (orb_Offset b) ∧ int_ok 64 (orb_Timestamp b) ∧
  (v = 0 → orb_Offset b = 0 ∧ orb_Timestamp b = 0).
Definition offset_block_received (v : Z) (b : OffsetResponseBlock) : OffsetResponseBlock :=
  if v =? 0 then b else mk_offset_response_block (orb_Err b) [orb_Offset b] (orb_Offset b) (orb_Timestamp b).
Lemma wire_offset_response v b : offset_response_valid v b →
  wire checksum (OffsetResponseBlock_encode v b) (OffsetResponseBlock_decode v) (offset_block_received v b).
Proof.
  destruct b as [e l x t]. intros (? & ? & ? & ? & H0). cbn in *.
  unfold OffsetResponseBlock_encode, OffsetResponseBlock_decode, offset_block_received. cbn. wire_part.
  destruct (Z.eqb_spec v 0) as [->|]; [|wire_parts]. destruct (H0 eq_refl) as [-> ->]. wire_parts.
Qed.
Definition offset_response_received (r : OffsetResponse) : OffsetResponse :=
  mk_OffsetResponse 0 ((fun ps : gmap Z OffsetResponseBlock => offset_block_received (or_Version r) <$> ps) <$> or_Blocks r).
#[export] Instance OffsetResponse_laws : protocolLaws checksum OffsetResponse.
Proof.
  refine (body_laws _ OffsetResponse_encode (fun r => int_ok 16 (or_Version r) ∧
    topics_ok (offset_response_valid (or_Version r)) (or_Blocks r)) offset_response_received _ _ _ _ _); [done|..].
  - by intros r [? _].
  - intros o []. autounfold with body part. cbn. auto 20 with wire.
  - intros o [v m] Ho [Hv Hm]. cbn in *. unfold OffsetResponse_encode, OffsetResponse_decode, offset_response_received. cbn.
    eapply wire_last; [eapply wire_topics; [done|apply wire_offset_response|done]|]. apply wire_ret.
  - intros o o' [] Ho Ho'. autounfold with body part. cbn. auto 20 with order.
Defined.

(** *** Commits *)

Definition commit_block_valid (v : Z) (b : offsetCommitRequestBlock) : Prop :=
  int_ok 64 (cb_offset b) ∧ int_ok 64 (cb_timestamp b) ∧ ((v =? 1) = false → cb_timestamp b = 0).
Lemma wire_commit_block v b : commit_block_valid v b →
  wire checksum (offsetCommitRequestBlock_encode v b) (offsetCommitRequestBlock_decode v) b.
Proof. destruct b. unfold commit_block_valid, offsetCommitRequestBlock_encode, offsetCommitRequestBlock_decode. part_auto. Qed.
Lemma wire_commit_blocks v o m : fair o → topics_ok (commit_block_valid v) m →
  wire checksum (put_topics o [] m (offsetCommitRequestBlock_encode v)) (get_topics (offsetCommitRequestBlock_decode v)) m.
Proof. intros Ho Hm. eapply wire_topics_id; [done|apply wire_commit_block|done]. Qed.
#[local] Hint Resolve wire_commit_blocks : wire.
Definition commit_valid (r : OffsetCommitRequest) : Prop :=
  0 ≤ ocq_Version r ≤ 4 ∧ int_ok 32 (ConsumerGroupGeneration r) ∧ int_ok 64 (RetentionTime r) ∧
  ((1 <=? ocq_Version r) = false → ConsumerGroupGeneration r = 0) ∧ ((1 <=? ocq_Version r) = false → ConsumerID r = []) ∧
  ((2 <=? ocq_Version r) = false → RetentionTime r = 0) ∧ topics_ok (commit_block_valid (ocq_Version r)) (ocq_blocks r).
#[export] Instance OffsetCommitRequest_laws : protocolLaws checksum OffsetCommitRequest.
Proof.
  refine (body_laws _ OffsetCommitRequest_encode commit_valid id _ _ _ _ _); [done|..].
  - intros r [? _]. unfold int_ok. simpl. lia.
  - intros o []. unfold OffsetCommitRequest_encode. autounfold with part. cbn. auto 20 with wire.
  - intros o [g gen id t v m] Ho (Hv & ? & ? & ? & ? & ? & ?). cbn in *. unfold OffsetCommitRequest_encode, OffsetCommitRequest_decode. cbn.
    replace ((v <? 0) || (4 <? v)) with false by lia. wire_parts.
  - intros o o' [] Ho Ho'. unfold OffsetCommitRequest_encode. cbn. auto 20 with order.
Defined.

Lemma wire_codes o m : fair o → topics_ok (int_ok 16) m →
  wire checksum (put_topics o [] m code_encode) (get_topics getInt16) m.
Proof. intros Ho Hm. eapply wire_topics_id; [done| |done]. intros v Hv. by apply wire_int16. Qed.
#[local] Hint Resolve wire_codes : wire.
#[export] Instance OffsetCommitResponse_laws : protocolLaws checksum OffsetCommitResponse.
Proof.
  body_auto OffsetCommitResponse_encode (fun r => int_ok 16 (ocr_Version r) ∧ int_ok 32 (ocr_ThrottleTimeMs r) ∧
    ((3 <=? ocr_Version r) = false → ocr_ThrottleTimeMs r = 0) ∧ topics_ok (int_ok 16) (ocr_Errors r)) (@id OffsetCommitResponse).
Defined.

(** *** Fetches of committed offsets *)

(** Before version 2 an empty map is the same as none. *)
Definition fetch_valid (r : OffsetFetchRequest) : Prop :=
  0 ≤ ofq_Version r ≤ 5 ∧
  match ofq_partitions r with
  | None => True
  | Some m => short (size m) ∧ map_Forall (fun _ => Forall (int_ok 32)) m ∧ (ofq_Version r < 2 → m ≠ ∅)
  end.
Lemma wire_fetch_partitions v o m : fair o → short (size m) → map_Forall (fun _ => Forall (int_ok 32)) m →
  wire checksum (put_map o [] m partitions_entry)
    (get* n := getArrayLength in
     if (n =? 0) && (v <? 2) || (n <? 0) then rd_ret None
     else get* l := get_times (Z.to_nat n) (get_entry getString getInt32Array) in rd_ret (Some (map_of l)))
    (if (Z.of_nat (size m) =? 0) && (v <? 2) then None else Some m).
Proof.
  intros Ho Hn Hm. unfold put_map. pose proof (Ho [] _ (map_to_list m)) as Hp.
  set (l := range_map o [] m). change (o [] _ (map_to_list m)) with l in Hp.
  assert (size m = length l) as Hl by (by rewrite Hp, length_map_to_list). rewrite Hl in *.
  apply (wire_loop _ l _ _ id (fun n t => if (n =? 0) && (v <? 2) || (n <? 0) then rd_ret None
    else get* l := t in rd_ret (Some (map_of l)))); [done| |].
  - apply Forall_forall. intros [k ps] Hx i. split; [done|]. apply (wire_entry _ [_] [_]); [apply wire_string|].
    apply wire_int32_array, (Hm k), elem_of_map_to_list. by rewrite <- Hp.
  - intros Ht. rewrite list_fmap_id in Ht. change (len l) with (Z.of_nat (length l)). replace (Z.of_nat (length l) <? 0) with false by lia.
    rewrite orb_false_r. destruct ((Z.of_nat (length l) =? 0) && (v <? 2)) eqn:E.
    + assert (l = []) as -> by (destruct l; [done|simpl in E; lia]). apply wire_ret.
    + replace m with (map_of l); [by apply (wire_map checksum _ _ _ (fun l => Some (map_of l)))|].
      pose proof (map_of_entries (@id (list Z)) m l Hp) as E'. rewrite map_fmap_id in E'. etrans; [|exact E']. f_equal.
      rewrite <- (list_fmap_id l) at 1. apply list_fmap_ext. by intros _ [] _.
Qed.
#[export] Instance OffsetFetchRequest_laws : protocolLaws checksum OffsetFetchRequest.
Proof.
  refine (body_laws _ OffsetFetchRequest_encode fetch_valid id _ _ _ _ _); [done|..].
  - intros r [? _]. unfold int_ok. simpl. lia.
  - intros o [v g []]; unfold OffsetFetchRequest_encode; autounfold with part; cbn; auto 20 with wire.
  - intros o [v g m] Ho (Hv & Hm). cbn in *. unfold OffsetFetchRequest_encode, OffsetFetchRequest_decode. cbn.
    replace ((v <? 0) || (5 <? v)) with false by lia. wire_part. eapply wire_last; [|apply wire_ret].
    destruct m as [m|]; [destruct Hm as (Hn & Hm & H0)|destruct (2 <=? v) eqn:E].
    + pose proof (wire_fetch_partitions v o m Ho Hn Hm) as Hw.
      replace ((Z.of_nat (size m) =? 0) && (v <? 2)) with false in Hw; [exact Hw|].
      destruct (Z.ltb_spec v 2); [|by rewrite andb_false_r]. specialize (H0 H). apply map_size_non_empty_iff in H0. lia.
    + eapply wire_last; [apply wire_minus_one|]. cbn. apply wire_ret.
    + pose proof (wire_fetch_partitions v o ∅ Ho) as Hw. rewrite map_size_empty in Hw.
      assert ((v <? 2) = true) as Ev by (apply Z.leb_gt in E; lia). rewrite Ev in *.
      apply Hw; [unfold short, math_MaxUint16; simpl; lia|apply map_Forall_empty].
  - intros o o' [v g []] Ho Ho'; unfold OffsetFetchRequest_encode; cbn; auto 20 with order.
Defined.

Definition fetch_block_valid (v : Z) (b : OffsetFetchResponseBlock) : Prop :=
  int_ok 64 (fb_Offset b) ∧ int_ok 32 (fb_LeaderEpoch b) ∧ int_ok 16 (fb_Err b) ∧ ((5 <=? v) = false → fb_LeaderEpoch b = 0).
Lemma wire_fetch_block v b : fetch_block_valid v b →
  wire checksum (OffsetFetchResponseBlock_encode v b) (OffsetFetchResponseBlock_decode v) b.
Proof. destruct b. unfold fetch_block_valid, OffsetFetchResponseBlock_encode, OffsetFetchResponseBlock_decode. part_auto. Qed.
Lemma wire_fetch_blocks v o m : fair o → topics_ok (fetch_block_valid v) m →
  wire checksum (put_topics o [] m (OffsetFetchResponseBlock_encode v)) (get_topics (OffsetFetchResponseBlock_decode v)) m.
Proof. intros Ho Hm. eapply wire_topics_id; [done|apply wire_fetch_block|done]. Qed.
#[local] Hint Resolve wire_fetch_blocks : wire.
#[export] Instance OffsetFetchResponse_laws : protocolLaws checksum OffsetFetchResponse.
Proof.
  body_auto OffsetFetchResponse_encode (fun r => int_ok 16 (ofr_Version r) ∧ int_ok 32 (ofr_ThrottleTimeMs r) ∧ int_ok 16 (ofr_Err r) ∧
    ((3 <=? ofr_Version r) = false → ofr_ThrottleTimeMs r = 0) ∧ ((2 <=? ofr_Version r) = false → ofr_Err r = 0) ∧
    topics_ok (fetch_block_valid (ofr_Version r)) (ofr_Blocks r)) (@id OffsetFetchResponse).
Defined.

(** *** Transactions *)

#[export] Instance AddOffsetsToTxnRequest_laws : protocolLaws checksum AddOffsetsToTxnRequest.
Proof.
  body_auto (fun _ : orders => AddOffsetsToTxnRequest_encode) (fun a => int_ok 64 (aoq_ProducerID a) ∧ int_ok 16 (aoq_ProducerEpoch a))
    (@id AddOffsetsToTxnRequest).
Defined.
#[export] Instance AddOffsetsToTxnResponse_laws : protocolLaws checksum AddOffsetsToTxnResponse.
Proof.
  body_auto (fun _ : orders => AddOffsetsToTxnResponse_encode) (fun a => millis_ok (aor_ThrottleTime a) ∧ int_ok 16 (aor_Err a))
    (@id AddOffsetsToTxnResponse).
Defined.
#[export] Instance AddPartitionsToTxnRequest_laws : protocolLaws checksum AddPartitionsToTxnRequest.
Proof.
  body_auto AddPartitionsToTxnRequest_encode (fun a => int_ok 64 (apq_ProducerID a) ∧ int_ok 16 (apq_ProducerEpoch a) ∧
    short (size (apq_TopicPartitions a)) ∧ map_Forall (fun _ => Forall (int_ok 32)) (apq_TopicPartitions a))
    (@id AddPartitionsToTxnRequest).
Defined.
#[export] Instance EndTxnRequest_laws : protocolLaws checksum EndTxnRequest.
Proof.
  body_auto (fun _ : orders => EndTxnRequest_encode) (fun a => int_ok 64 (eq_ProducerID a) ∧ int_ok 16 (eq_ProducerEpoch a)) (@id EndTxnRequest).
Defined.
#[export] Instance EndTxnResponse_laws : protocolLaws checksum EndTxnResponse.
Proof.
  body_auto (fun _ : orders => EndTxnResponse_encode) (fun e => millis_ok (er_ThrottleTime e) ∧ int_ok 16 (er_Err e)) (@id EndTxnResponse).
Defined.

Definition partition_error_valid (p : PartitionError) : Prop := int_ok 32 (pe_Partition p) ∧ int_ok 16 (pe_Err p).
Lemma wire_partition_error p : partition_error_valid p → wire checksum (PartitionError_encode p) PartitionError_decode p.
Proof. destruct p. unfold partition_error_valid, PartitionError_encode, PartitionError_decode. part_auto. Qed.
Definition errors_valid (m : gmap bytes (list PartitionError)) : Prop :=
  short (size m) ∧ map_Forall (fun _ l => short (length l) ∧ Forall partition_error_valid l) m.
Lemma wire_errors o m : fair o → errors_valid m →
  wire checksum (put_map o [] m errors_entry) (get_map (get_entry getString (get_array PartitionError_decode))) m.
Proof.
  intros Ho [Hn Hm]. eapply wire_gmap; [done|done| |done|exact Hm]. intros p k l [Hl Hv].
  apply (wire_entry _ [_]); [apply wire_string|]. by eapply wire_slice; [apply wire_partition_error|..].
Qed.
#[local] Hint Resolve wire_errors : wire.
#[export] Instance AddPartitionsToTxnResponse_laws : protocolLaws checksum AddPartitionsToTxnResponse.
Proof.
  body_auto AddPartitionsToTxnResponse_encode (fun a => millis_ok (apr_ThrottleTime a) ∧ errors_valid (apr_Errors a))
    (@id AddPartitionsToTxnResponse).
Defined.
#[export] Instance TxnOffsetCommitResponse_laws : protocolLaws checksum TxnOffsetCommitResponse.
Proof.
  body_auto TxnOffsetCommitResponse_encode (fun t => millis_ok (tor_ThrottleTime t) ∧ errors_valid (tor_Topics t)) (@id TxnOffsetCommitResponse).
Defined.

Definition offset_metadata_valid (p : PartitionOffsetMetadata) : Prop := int_ok 32 (pom_Partition p) ∧ int_ok 64 (pom_Offset p).
Lemma wire_offset_metadata p : offset_metadata_valid p → wire checksum (PartitionOffsetMetadata_encode p) PartitionOffsetMetadata_decode p.
Proof. destruct p. unfold offset_metadata_valid, PartitionOffsetMetadata_encode, PartitionOffsetMetadata_decode. part_auto. Qed.
Definition offsets_valid (m : gmap bytes (list PartitionOffsetMetadata)) : Prop :=
  short (size m) ∧ map_Forall (fun _ l => short (length l) ∧ Forall offset_metadata_valid l) m.
Lemma wire_txn_offsets o m : fair o → offsets_valid m →
  wire checksum (put_map o [] m offsets_entry) (get_map (get_entry getString (get_array PartitionOffsetMetadata_decode))) m.
Proof.
  intros Ho [Hn Hm]. eapply wire_gmap; [done|done| |done|exact Hm]. intros p k l [Hl Hv].
  apply (wire_entry _ [_]); [apply wire_string|]. by eapply wire_slice; [apply wire_offset_metadata|..].
Qed.
#[local] Hint Resolve wire_txn_offsets : wire.
#[export] Instance TxnOffsetCommitRequest_laws : protocolLaws checksum TxnOffsetCommitRequest.
Proof.
  body_auto TxnOffsetCommitRequest_encode (fun t => int_ok 64 (toq_ProducerID t) ∧ int_ok 16 (toq_ProducerEpoch t) ∧ offsets_valid (toq_Topics t))
    (@id TxnOffsetCommitRequest).
Defined.
End laws.
