(* ===== verification/KafkaTopics.v ===== *)
(** * Topics and configurations: [kafka/create_topics_*.go], [delete_topics_*.go],
    [create_partitions_*.go], [delete_records_*.go], [describe_configs_*.go],
    [alter_configs_*.go]

    The requests of [ClusterAdmin] and their responses. *)

From S2P Require Import Prelude GoStrings KafkaCodec KafkaProps KafkaDecoder KafkaDecoderProps KafkaWire KafkaRecord KafkaProtocol.

(** ** Creating topics *)

(** [type TopicDetail struct] *)
Record TopicDetail := mk_detail {
  NumPartitions : Z; ReplicationFactor : Z; ReplicaAssignment : gmap Z (list Z); td_ConfigEntries : gmap bytes (option bytes) }.
Definition replicas_entry (_ : list nat) (e : Z * list Z) : list item := [Data (putInt32 e.1); Data (putInt32Array e.2)].
Definition TopicDetail_encode (o : orders) (p : list nat) (t : TopicDetail) : list item :=
  [Data (putInt32 (NumPartitions t)); Data (putInt16 (ReplicationFactor t))] ++
  put_map o (0%nat :: p) (ReplicaAssignment t) replicas_entry ++
  put_map o (1%nat :: p) (td_ConfigEntries t) nullable_entry.
Definition TopicDetail_decode : rd_get TopicDetail :=
  get* n := getInt32 in
  get* factor := getInt16 in
  get* replicas := get_map (get_entry getInt32 getInt32Array) in
  get* entries := get_map (get_entry getString getNullableString) in
  rd_ret (mk_detail n factor replicas entries).

(** [type CreateTopicsRequest struct] *)
Record CreateTopicsRequest := mk_CreateTopicsRequest {
  ctq_Version : Z; TopicDetails : gmap bytes TopicDetail; ctq_Timeout : Z; ctq_ValidateOnly : bool }.
Definition detail_entry (o : orders) (p : list nat) (e : bytes * TopicDetail) : list item :=
  Data (putString e.1) :: TopicDetail_encode o p e.2.
Definition CreateTopicsRequest_encode (o : orders) (c : CreateTopicsRequest) : list item :=
  put_map o [] (TopicDetails c) (detail_entry o) ++
  [put_millis (ctq_Timeout c)] ++
  (if 1 <=? ctq_Version c then [Data (putBool (ctq_ValidateOnly c))] else []).
Definition CreateTopicsRequest_decode (version : Z) : rd_get CreateTopicsRequest :=
  get* details := get_map (get_entry getString TopicDetail_decode) in
  get* timeout := get_millis in
  get* validate := if 1 <=? version then getBool else rd_ret false in
  rd_ret (mk_CreateTopicsRequest (if 1 <=? version then version else 0) details timeout validate).
Definition create_required (v : Z) : KafkaVersion :=
  if v =? 2 then V1_0_0_0 else if v =? 1 then V0_11_0_0 else V0_10_1_0.
Definition CreateTopicsRequest_body : protocolBody CreateTopicsRequest := {|
  key _ := 19; version := ctq_Version; requiredVersion c := create_required (ctq_Version c);
  body_metrics _ := Ret 0; body_encode o r := Ret (CreateTopicsRequest_encode o r); body_decode := CreateTopicsRequest_decode |}.
#[export] Existing Instance CreateTopicsRequest_body.

(** [type TopicError struct], [type CreateTopicsResponse struct] *)
Record TopicError := mk_topic_error { te_Err : Z; te_ErrMsg : option bytes }.
Definition TopicError_encode (version : Z) (t : TopicError) : list item :=
  [Data (putInt16 (te_Err t))] ++ (if 1 <=? version then [Data (putNullableString (te_ErrMsg t))] else []).
Definition TopicError_decode (version : Z) : rd_get TopicError :=
  get* err := getInt16 in
  get* msg := if 1 <=? version then getNullableString else rd_ret None in
  rd_ret (mk_topic_error err msg).
Record CreateTopicsResponse := mk_CreateTopicsResponse {
  ctr_Version : Z; ctr_ThrottleTime : Z; TopicErrors : gmap bytes TopicError }.
Definition topic_error_entry (version : Z) (_ : list nat) (e : bytes * TopicError) : list item :=
  Data (putString e.1) :: TopicError_encode version e.2.
Definition CreateTopicsResponse_encode (o : orders) (c : CreateTopicsResponse) : list item :=
  (if 2 <=? ctr_Version c then [put_millis (ctr_ThrottleTime c)] else []) ++
  put_map o [] (TopicErrors c) (topic_error_entry (ctr_Version c)).
Definition CreateTopicsResponse_decode (version : Z) : rd_get CreateTopicsResponse :=
  get* throttle := if 2 <=? version then get_millis else rd_ret 0 in
  get* errors := get_map (get_entry getString (TopicError_decode version)) in
  rd_ret (mk_CreateTopicsResponse version throttle errors).
Definition CreateTopicsResponse_body : protocolBody CreateTopicsResponse := {|
  key _ := 19; version := ctr_Version; requiredVersion c := create_required (ctr_Version c);
  body_metrics _ := Ret 0; body_encode o r := Ret (CreateTopicsResponse_encode o r); body_decode := CreateTopicsResponse_decode |}.
#[export] Existing Instance CreateTopicsResponse_body.

(** ** Deleting topics *)

(** [type DeleteTopicsRequest struct], [type DeleteTopicsResponse struct] *)
Record DeleteTopicsRequest := mk_DeleteTopicsRequest { dtq_Version : Z; dtq_Topics : list bytes; dtq_Timeout : Z }.
Definition DeleteTopicsRequest_encode (d : DeleteTopicsRequest) : list item :=
  [Data (putStringArray (dtq_Topics d)); put_millis (dtq_Timeout d)].
Definition DeleteTopicsRequest_decode (version : Z) : rd_get DeleteTopicsRequest :=
  get* topics := getStringArray in get* timeout := get_millis in rd_ret (mk_DeleteTopicsRequest version topics timeout).
Definition delete_required (v : Z) : KafkaVersion := if v =? 1 then V0_11_0_0 else V0_10_1_0.
Definition DeleteTopicsRequest_body : protocolBody DeleteTopicsRequest := {|
  key _ := 20; version := dtq_Version; requiredVersion d := delete_required (dtq_Version d);
  body_metrics _ := Ret 0; body_encode _ r := Ret (DeleteTopicsRequest_encode r); body_decode := DeleteTopicsRequest_decode |}.
#[export] Existing Instance DeleteTopicsRequest_body.

Record DeleteTopicsResponse := mk_DeleteTopicsResponse {
  dtr_Version : Z; dtr_ThrottleTime : Z; TopicErrorCodes : gmap bytes Z }.
Definition DeleteTopicsResponse_encode (o : orders) (d : DeleteTopicsResponse) : list item :=
  (if 1 <=? dtr_Version d then [put_millis (dtr_ThrottleTime d)] else []) ++ put_map o [] (TopicErrorCodes d) code_entry.
Definition DeleteTopicsResponse_decode (version : Z) : rd_get DeleteTopicsResponse :=
  get* throttle := if 1 <=? version then get_millis else rd_ret 0 in
  get* codes := get_map (get_entry getString getInt16) in
  rd_ret (mk_DeleteTopicsResponse (if 1 <=? version then version else 0) throttle codes).
Definition DeleteTopicsResponse_body : protocolBody DeleteTopicsResponse := {|
  key _ := 20; version := dtr_Version; requiredVersion d := delete_required (dtr_Version d);
  body_metrics _ := Ret 0; body_encode o r := Ret (DeleteTopicsResponse_encode o r); body_decode := DeleteTopicsResponse_decode |}.
#[export] Existing Instance DeleteTopicsResponse_body.

(** ** Partitions *)

(** [type TopicPartition struct], [type CreatePartitionsRequest struct] *)
Record TopicPartition := mk_topic_partition { tp_Count : Z; tp_Assignment : list (list Z) }.
Definition TopicPartition_encode (t : TopicPartition) : list item :=
  [Data (putInt32 (tp_Count t))] ++
  match tp_Assignment t with
  | [] => [Data (putInt32 (-1))]
  | _ => put_array (tp_Assignment t) (fun a => [Data (putInt32Array a)])
  end.
Definition TopicPartition_decode : rd_get TopicPartition :=
  get* n := getInt32 in get* a := get_int_list getInt32Array in rd_ret (mk_topic_partition n a).
Record CreatePartitionsRequest := mk_CreatePartitionsRequest {
  cpq_TopicPartitions : gmap bytes TopicPartition; cpq_Timeout : Z; cpq_ValidateOnly : bool }.
Definition partition_entry (_ : list nat) (e : bytes * TopicPartition) : list item :=
  Data (putString e.1) :: TopicPartition_encode e.2.
Definition CreatePartitionsRequest_encode (o : orders) (c : CreatePartitionsRequest) : list item :=
  put_map o [] (cpq_TopicPartitions c) partition_entry ++
  [put_millis (cpq_Timeout c); Data (putBool (cpq_ValidateOnly c))].
Definition CreatePartitionsRequest_decode (_ : Z) : rd_get CreatePartitionsRequest :=
  get* m := get_map (get_entry getString TopicPartition_decode) in
  get* timeout := get_millis in
  get* validate := getBool in
  rd_ret (mk_CreatePartitionsRequest m timeout validate).
Definition CreatePartitionsRequest_body : protocolBody CreatePartitionsRequest := {|
  key _ := 37; version _ := 0; requiredVersion _ := V1_0_0_0;
  body_metrics _ := Ret 0; body_encode o r := Ret (CreatePartitionsRequest_encode o r); body_decode := CreatePartitionsRequest_decode |}.
#[export] Existing Instance CreatePartitionsRequest_body.

(** [type TopicPartitionError struct], [type CreatePartitionsResponse struct] *)
Record TopicPartitionError := mk_topic_partition_error { tpe_Err : Z; tpe_ErrMsg : option bytes }.
Definition TopicPartitionError_encode (t : TopicPartitionError) : list item :=
  [Data (putInt16 (tpe_Err t)); Data (putNullableString (tpe_ErrMsg t))].
Definition TopicPartitionError_decode : rd_get TopicPartitionError :=
  get* err := getInt16 in get* msg := getNullableString in rd_ret (mk_topic_partition_error err msg).
Record CreatePartitionsResponse := mk_CreatePartitionsResponse {
  cpr_ThrottleTime : Z; TopicPartitionErrors : gmap bytes TopicPartitionError }.
Definition partition_error_entry (_ : list nat) (e : bytes * TopicPartitionError) : list item :=
  Data (putString e.1) :: TopicPartitionError_encode e.2.
Definition CreatePartitionsResponse_encode (o : orders) (c : CreatePartitionsResponse) : list item :=
  [put_millis (cpr_ThrottleTime c)] ++ put_map o [] (TopicPartitionErrors c) partition_error_entry.
Definition CreatePartitionsResponse_decode (_ : Z) : rd_get CreatePartitionsResponse :=
  get* throttle := get_millis in
  get* m := get_map (get_entry getString TopicPartitionError_decode) in
  rd_ret (mk_CreatePartitionsResponse throttle m).
Definition CreatePartitionsResponse_body : protocolBody CreatePartitionsResponse := {|
  key _ := 37; version _ := 0; requiredVersion _ := V1_0_0_0;
  body_metrics _ := Ret 0; body_encode o r := Ret (CreatePartitionsResponse_encode o r); body_decode := CreatePartitionsResponse_decode |}.
#[export] Existing Instance CreatePartitionsResponse_body.

(** ** Deleting records *)

(** [type DeleteRecordsRequest struct] over [type DeleteRecordsRequestTopic struct]: both maps are
    written in the order of their keys. *)
Record DeleteRecordsRequest := mk_DeleteRecordsRequest { drq_Topics : gmap bytes (gmap Z Z); drq_Timeout : Z }.
Definition offset_entry (_ : list nat) (e : Z * Z) : list item := [Data (putInt32 e.1); Data (putInt64 e.2)].
Definition DeleteRecordsRequestTopic_encode (o : orders) (p : list nat) (offsets : gmap Z Z) : list item :=
  put_sorted Z.le o p offsets offset_entry.
Definition DeleteRecordsRequestTopic_decode : rd_get (gmap Z Z) := get_map (get_entry getInt32 getInt64).
Definition delete_entry (o : orders) (p : list nat) (e : bytes * gmap Z Z) : list item :=
  Data (putString e.1) :: DeleteRecordsRequestTopic_encode o p e.2.
Definition DeleteRecordsRequest_encode (o : orders) (d : DeleteRecordsRequest) : list item :=
  put_sorted bytes_le o [] (drq_Topics d) (delete_entry o) ++ [put_millis (drq_Timeout d)].
Definition DeleteRecordsRequest_decode (_ : Z) : rd_get DeleteRecordsRequest :=
  get* topics := get_map (get_entry getString DeleteRecordsRequestTopic_decode) in
  get* timeout := get_millis in
  rd_ret (mk_DeleteRecordsRequest topics timeout).
Definition DeleteRecordsRequest_body : protocolBody DeleteRecordsRequest := {|
  key _ := 21; version _ := 0; requiredVersion _ := V0_11_0_0;
  body_metrics _ := Ret 0; body_encode o r := Ret (DeleteRecordsRequest_encode o r); body_decode := DeleteRecordsRequest_decode |}.
#[export] Existing Instance DeleteRecordsRequest_body.

(** [type DeleteRecordsResponsePartition struct], [type DeleteRecordsResponseTopic struct],
    [type DeleteRecordsResponse struct] *)
Record DeleteRecordsResponsePartition := mk_deleted { LowWatermark : Z; drp_Err : Z }.
Definition DeleteRecordsResponsePartition_encode (t : DeleteRecordsResponsePartition) : list item :=
  [Data (putInt64 (LowWatermark t)); Data (putInt16 (drp_Err t))].
Definition DeleteRecordsResponsePartition_decode : rd_get DeleteRecordsResponsePartition :=
  get* low := getInt64 in get* err := getInt16 in rd_ret (mk_deleted low err).
Definition deleted_partition_entry (_ : list nat) (e : Z * DeleteRecordsResponsePartition) : list item :=
  Data (putInt32 e.1) :: DeleteRecordsResponsePartition_encode e.2.
Definition DeleteRecordsResponseTopic_encode (o : orders) (p : list nat) (m : gmap Z DeleteRecordsResponsePartition) : list item :=
  put_sorted Z.le o p m deleted_partition_entry.
Definition DeleteRecordsResponseTopic_decode : rd_get (gmap Z DeleteRecordsResponsePartition) :=
  get_map (get_entry getInt32 DeleteRecordsResponsePartition_decode).
Record DeleteRecordsResponse := mk_DeleteRecordsResponse {
  drr_Version : Z; drr_ThrottleTime : Z; drr_Topics : gmap bytes (gmap Z DeleteRecordsResponsePartition) }.
Definition deleted_entry (o : orders) (p : list nat) (e : bytes * gmap Z DeleteRecordsResponsePartition) : list item :=
  Data (putString e.1) :: DeleteRecordsResponseTopic_encode o p e.2.
Definition DeleteRecordsResponse_encode (o : orders) (d : DeleteRecordsResponse) : list item :=
  [put_millis (drr_ThrottleTime d)] ++ put_sorted bytes_le o [] (drr_Topics d) (deleted_entry o).
Definition DeleteRecordsResponse_decode (version : Z) : rd_get DeleteRecordsResponse :=
  get* throttle := get_millis in
  get* topics := get_map (get_entry getString DeleteRecordsResponseTopic_decode) in
  rd_ret (mk_DeleteRecordsResponse version throttle topics).
Definition DeleteRecordsResponse_body : protocolBody DeleteRecordsResponse := {|
  key _ := 21; version _ := 0; requiredVersion _ := V0_11_0_0;
  body_metrics _ := Ret 0; body_encode o r := Ret (DeleteRecordsResponse_encode o r); body_decode := DeleteRecordsResponse_decode |}.
#[export] Existing Instance DeleteRecordsResponse_body.

(** ** Describing configurations *)

(** [type ConfigResource struct], [type DescribeConfigsRequest struct] *)
Record ConfigResource := mk_resource { cfr_Type : Z; cfr_Name : bytes; ConfigNames : list bytes }.
Definition ConfigResource_encode (c : ConfigResource) : list item :=
  [Data (putInt8 (cfr_Type c)); Data (putString (cfr_Name c));
   Data (match ConfigNames c with [] => putInt32 (-1) | names => putStringArray names end)].
Definition ConfigResource_decode : rd_get ConfigResource :=
  get* type := getInt8 in
  get* name := getString in
  get* n := getArrayLength in
  if n =? -1 then rd_ret (mk_resource type name [])
  else get* _ := make_slice n in get* names := get_times (Z.to_nat n) getString in rd_ret (mk_resource type name names).
Record DescribeConfigsRequest := mk_DescribeConfigsRequest {
  dcq_Version : Z; dcq_Resources : list ConfigResource; IncludeSynonyms : bool }.
Definition DescribeConfigsRequest_encode (r : DescribeConfigsRequest) : list item :=
  put_array (dcq_Resources r) ConfigResource_encode ++
  (if 1 <=? dcq_Version r then [Data (putBool (IncludeSynonyms r))] else []).
Definition DescribeConfigsRequest_decode (version : Z) : rd_get DescribeConfigsRequest :=
  get* resources := get_array ConfigResource_decode in
  get* synonyms := if 1 <=? version then getBool else rd_ret false in
  rd_ret (mk_DescribeConfigsRequest version resources synonyms).
Definition DescribeConfigsRequest_body : protocolBody DescribeConfigsRequest := {|
  key _ := 32; version := dcq_Version;
  requiredVersion r := if dcq_Version r =? 1 then V1_1_0_0 else if dcq_Version r =? 2 then V2_0_0_0 else V0_11_0_0;
  body_metrics _ := Ret 0; body_encode _ r := Ret (DescribeConfigsRequest_encode r); body_decode := DescribeConfigsRequest_decode |}.
#[export] Existing Instance DescribeConfigsRequest_body.

(** [type ConfigSynonym struct]: its decoder returns no error. *)
Record ConfigSynonym := mk_synonym { cs_ConfigName : bytes; cs_ConfigValue : bytes; cs_Source : Z }.
Definition ConfigSynonym_encode (c : ConfigSynonym) : list item :=
  [Data (putString (cs_ConfigName c)); Data (putString (cs_ConfigValue c)); Data (putInt8 (cs_Source c))].
Definition ConfigSynonym_decode : rd_get ConfigSynonym :=
  get_or getString (mk_synonym [] [] 0) (fun name =>
  get_or getString (mk_synonym name [] 0) (fun value =>
  get_or getInt8 (mk_synonym name value 0) (fun source =>
  rd_ret (mk_synonym name value source)))).

(** [type ConfigEntry struct]; [SourceUnknown] is 0. *)
Record ConfigEntry := mk_config_entry {
  ce_Name : bytes; ce_Value : bytes; ce_ReadOnly : bool; ce_Default : bool; ce_Source : Z; ce_Sensitive : bool;
  ce_Synonyms : list ConfigSynonym }.
Definition ConfigEntry_encode (version : Z) (r : ConfigEntry) : list item :=
  [Data (putString (ce_Name r)); Data (putString (ce_Value r)); Data (putBool (ce_ReadOnly r))] ++
  (if version <=? 0 then [Data (putBool (ce_Default r)); Data (putBool (ce_Sensitive r))]
   else [Data (putInt8 (ce_Source r)); Data (putBool (ce_Sensitive r))] ++ put_array (ce_Synonyms r) ConfigSynonym_encode).
Definition ConfigEntry_decode (version : Z) : rd_get ConfigEntry :=
  get* name := getString in
  get* value := getString in
  get* read := getBool in
  get* default := if version =? 0 then getBool else rd_ret false in
  get* source := if version =? 0 then rd_ret 0 else getInt8 in
  get* sensitive := getBool in
  get* synonyms := if 0 <? version then get_array ConfigSynonym_decode else rd_ret [] in
  rd_ret (mk_config_entry name value read default source sensitive synonyms).

(** [type ResourceResponse struct], [type DescribeConfigsResponse struct] *)
Record ResourceResponse := mk_resource_response {
  rr_ErrorCode : Z; rr_ErrorMsg : bytes; rr_Type : Z; rr_Name : bytes; rr_Configs : list ConfigEntry }.
Definition ResourceResponse_encode (version : Z) (r : ResourceResponse) : list item :=
  [Data (putInt16 (rr_ErrorCode r)); Data (putString (rr_ErrorMsg r)); Data (putInt8 (rr_Type r)); Data (putString (rr_Name r))] ++
  put_array (rr_Configs r) (ConfigEntry_encode version).
Definition ResourceResponse_decode (version : Z) : rd_get ResourceResponse :=
  get* code := getInt16 in
  get* msg := getString in
  get* type := getInt8 in
  get* name := getString in
  get* configs := get_array (ConfigEntry_decode version) in
  rd_ret (mk_resource_response code msg type name configs).
Record DescribeConfigsResponse := mk_DescribeConfigsResponse {
  dcr_Version : Z; dcr_ThrottleTime : Z; dcr_Resources : list ResourceResponse }.
Definition DescribeConfigsResponse_encode (r : DescribeConfigsResponse) : list item :=
  [put_millis (dcr_ThrottleTime r)] ++ put_array (dcr_Resources r) (ResourceResponse_encode (dcr_Version r)).
Definition DescribeConfigsResponse_decode (version : Z) : rd_get DescribeConfigsResponse :=
  get* throttle := get_millis in
  get* resources := get_array (ResourceResponse_decode version) in
  rd_ret (mk_DescribeConfigsResponse version throttle resources).
Definition DescribeConfigsResponse_body : protocolBody DescribeConfigsResponse := {|
  key _ := 32; version := dcr_Version;
  requiredVersion r := if dcr_Version r =? 1 then V1_0_0_0 else if dcr_Version r =? 2 then V2_0_0_0 else V0_11_0_0;
  body_metrics _ := Ret 0; body_encode _ r := Ret (DescribeConfigsResponse_encode r); body_decode := DescribeConfigsResponse_decode |}.
#[export] Existing Instance DescribeConfigsResponse_body.

(** ** Altering configurations *)

(** [type AlterConfigsResource struct], [type AlterConfigsRequest struct] *)
Record AlterConfigsResource := mk_alter { acr_Type : Z; acr_Name : bytes; acr_ConfigEntries : gmap bytes (option bytes) }.
Definition AlterConfigsResource_encode (o : orders) (p : list nat) (a : AlterConfigsResource) : list item :=
  [Data (putInt8 (acr_Type a)); Data (putString (acr_Name a))] ++ put_map o p (acr_ConfigEntries a) nullable_entry.
Definition AlterConfigsResource_decode : rd_get AlterConfigsResource :=
  get* type := getInt8 in
  get* name := getString in
  get* entries := get_map (get_entry getString getNullableString) in
  rd_ret (mk_alter type name entries).
Record AlterConfigsRequest := mk_AlterConfigsRequest { acq_Resources : list AlterConfigsResource; acq_ValidateOnly : bool }.
Definition AlterConfigsRequest_encode (o : orders) (a : AlterConfigsRequest) : list item :=
  put_each [] (acq_Resources a) (AlterConfigsResource_encode o) ++ [Data (putBool (acq_ValidateOnly a))].
Definition AlterConfigsRequest_decode (_ : Z) : rd_get AlterConfigsRequest :=
  get* resources := get_array AlterConfigsResource_decode in
  get* validate := getBool in
  rd_ret (mk_AlterConfigsRequest resources validate).
Definition AlterConfigsRequest_body : protocolBody AlterConfigsRequest := {|
  key _ := 33; version _ := 0; requiredVersion _ := V0_11_0_0;
  body_metrics _ := Ret 0; body_encode o r := Ret (AlterConfigsRequest_encode o r); body_decode := AlterConfigsRequest_decode |}.
#[export] Existing Instance AlterConfigsRequest_body.

(** [type AlterConfigsResourceResponse struct], [type AlterConfigsResponse struct].  The encoder
    returns nil when a string is too long; only the counting pass finds that out.  Its calls are
    those before the string, whose length it has counted already; the writing pass goes on. *)
Record AlterConfigsResourceResponse := mk_altered { alr_ErrorCode : Z; alr_ErrorMsg : bytes; alr_Type : Z; alr_Name : bytes }.
Record AlterConfigsResponse := mk_AlterConfigsResponse { acp_ThrottleTime : Z; acp_Resources : list AlterConfigsResourceResponse }.
Definition too_long (s : bytes) : bool := math_MaxInt16 <? len s.
Definition altered_encode (r : AlterConfigsResourceResponse) : list item :=
  [Data (putInt16 (alr_ErrorCode r)); Data (putString (alr_ErrorMsg r)); Data (putInt8 (alr_Type r)); Data (putString (alr_Name r))].
Fixpoint altered_count (l : list AlterConfigsResourceResponse) : list item :=
  match l with
  | [] => []
  | r :: l =>
      if too_long (alr_ErrorMsg r) then [Data (putInt16 (alr_ErrorCode r)); Data (putInt16 0)]
      else if too_long (alr_Name r) then
        [Data (putInt16 (alr_ErrorCode r)); Data (putString (alr_ErrorMsg r)); Data (putInt8 (alr_Type r)); Data (putInt16 0)]
      else altered_encode r ++ altered_count l
  end.
Definition AlterConfigsResponse_count (a : AlterConfigsResponse) : list item :=
  [put_millis (acp_ThrottleTime a); Data (putArrayLength (len (acp_Resources a)))] ++ altered_count (acp_Resources a).
Definition AlterConfigsResponse_encode (a : AlterConfigsResponse) : list item :=
  [put_millis (acp_ThrottleTime a)] ++ put_array (acp_Resources a) altered_encode.
Definition altered_decode : rd_get AlterConfigsResourceResponse :=
  get* code := getInt16 in get* msg := getString in get* type := getInt8 in get* name := getString in
  rd_ret (mk_altered code msg type name).
Definition AlterConfigsResponse_decode (_ : Z) : rd_get AlterConfigsResponse :=
  get* throttle := get_millis in get* resources := get_array altered_decode in
  rd_ret (mk_AlterConfigsResponse throttle resources).
(** [key], [version] and [requiredVersion]: the key is that of [DescribeConfigsResponse]. *)
Definition AlterConfigsResponse_key : Z := 32.
Definition AlterConfigsResponse_version : Z := 0.
Definition AlterConfigsResponse_requiredVersion : KafkaVersion := V0_11_0_0.

(** ** Laws *)

Section laws.
Context (checksum : crcPolynomial → bytes → Z).

#[local] Hint Unfold CreateTopicsResponse_encode CreateTopicsResponse_decode DeleteTopicsRequest_encode DeleteTopicsRequest_decode
  CreatePartitionsRequest_encode CreatePartitionsRequest_decode CreatePartitionsResponse_encode CreatePartitionsResponse_decode
  DeleteRecordsRequest_encode DeleteRecordsRequest_decode DeleteRecordsResponse_encode DeleteRecordsResponse_decode
  DescribeConfigsRequest_encode DescribeConfigsRequest_decode DescribeConfigsResponse_encode DescribeConfigsResponse_decode
  AlterConfigsRequest_encode AlterConfigsRequest_decode : body.
#[local] Hint Unfold replicas_entry TopicDetail_encode detail_entry TopicError_encode topic_error_entry TopicPartition_encode
  partition_entry TopicPartitionError_encode partition_error_entry offset_entry DeleteRecordsRequestTopic_encode delete_entry
  DeleteRecordsResponsePartition_encode deleted_partition_entry DeleteRecordsResponseTopic_encode deleted_entry
  ConfigResource_encode ConfigSynonym_encode ConfigEntry_encode ResourceResponse_encode AlterConfigsResource_encode : part.

(** *** Creating and deleting topics *)

Definition detail_valid (t : TopicDetail) : Prop :=
  int_ok 32 (NumPartitions t) ∧ int_ok 16 (ReplicationFactor t) ∧ short (size (ReplicaAssignment t)) ∧
  map_Forall (fun id l => int_ok 32 id ∧ Forall (int_ok 32) l) (ReplicaAssignment t) ∧ short (size (td_ConfigEntries t)).
Lemma wire_replicas o p m : fair o → short (size m) → map_Forall (fun id l => int_ok 32 id ∧ Forall (int_ok 32) l) m →
  wire checksum (put_map o p m replicas_entry) (get_map (get_entry getInt32 getInt32Array)) m.
Proof.
  intros Ho Hn Hm. eapply wire_gmap; [done|done| |done|exact Hm]. intros q id l [Hid Hl].
  apply (wire_entry _ [_] [_]); eauto with wire.
Qed.
#[local] Hint Resolve wire_replicas : wire.
Lemma wire_detail o p t : fair o → detail_valid t → wire checksum (TopicDetail_encode o p t) TopicDetail_decode t.
Proof. destruct t. unfold detail_valid, TopicDetail_encode, TopicDetail_decode. part_auto. Qed.
Lemma wire_details o m : fair o → short (size m) → map_Forall (fun _ => detail_valid) m →
  wire checksum (put_map o [] m (detail_entry o)) (get_map (get_entry getString TopicDetail_decode)) m.
Proof.
  intros Ho Hn Hm. eapply wire_gmap; [done|done| |done|exact Hm]. intros q k t Ht.
  apply (wire_entry _ [_]); [apply wire_string|by apply wire_detail].
Qed.
#[local] Hint Resolve wire_details : wire.
Definition create_valid (c : CreateTopicsRequest) : Prop :=
  0 ≤ ctq_Version c < 2 ^ 15 ∧ short (size (TopicDetails c)) ∧ map_Forall (fun _ => detail_valid) (TopicDetails c) ∧
  millis_ok (ctq_Timeout c) ∧ ((1 <=? ctq_Version c) = false → ctq_ValidateOnly c = false).
#[export] Instance CreateTopicsRequest_laws : protocolLaws checksum CreateTopicsRequest.
Proof.
  refine (body_laws _ CreateTopicsRequest_encode create_valid id _ _ _ _ _); [done|..].
  - intros c [? _]. unfold int_ok. simpl in *. lia.
  - intros o []. unfold CreateTopicsRequest_encode. autounfold with part. cbn. auto 20 with wire.
  - intros o [v m t b] Ho (Hv & ? & ? & ? & ?). cbn in *. unfold CreateTopicsRequest_encode, CreateTopicsRequest_decode. cbn.
    replace (if 1 <=? v then v else 0) with v by (case_match; lia). wire_parts.
  - intros o o' [] Ho Ho'. unfold CreateTopicsRequest_encode. autounfold with part. cbn. auto 20 with order.
Defined.

Definition topic_error_valid (v : Z) (t : TopicError) : Prop := int_ok 16 (te_Err t) ∧ ((1 <=? v) = false → te_ErrMsg t = None).
Lemma wire_topic_error v t : topic_error_valid v t → wire checksum (TopicError_encode v t) (TopicError_decode v) t.
Proof. destruct t. unfold topic_error_valid, TopicError_encode, TopicError_decode. part_auto. Qed.
Lemma wire_topic_errors v o m : fair o → short (size m) → map_Forall (fun _ => topic_error_valid v) m →
  wire checksum (put_map o [] m (topic_error_entry v)) (get_map (get_entry getString (TopicError_decode v))) m.
Proof.
  intros Ho Hn Hm. eapply wire_gmap; [done|done| |done|exact Hm]. intros q k t Ht.
  apply (wire_entry _ [_]); [apply wire_string|by apply wire_topic_error].
Qed.
#[local] Hint Resolve wire_topic_errors : wire.
#[export] Instance CreateTopicsResponse_laws : protocolLaws checksum CreateTopicsResponse.
Proof.
  body_auto CreateTopicsResponse_encode (fun c => int_ok 16 (ctr_Version c) ∧ millis_ok (ctr_ThrottleTime c) ∧
    ((2 <=? ctr_Version c) = false → ctr_ThrottleTime c = 0) ∧ short (size (TopicErrors c)) ∧
    map_Forall (fun _ => topic_error_valid (ctr_Version c)) (TopicErrors c)) (@id CreateTopicsResponse).
Defined.
#[export] Instance DeleteTopicsRequest_laws : protocolLaws checksum DeleteTopicsRequest.
Proof.
  body_auto (fun _ : orders => DeleteTopicsRequest_encode) (fun d => int_ok 16 (dtq_Version d) ∧ millis_ok (dtq_Timeout d)) (@id DeleteTopicsRequest).
Defined.
Definition deleted_valid (d : DeleteTopicsResponse) : Prop :=
  0 ≤ dtr_Version d < 2 ^ 15 ∧ millis_ok (dtr_ThrottleTime d) ∧ ((1 <=? dtr_Version d) = false → dtr_ThrottleTime d = 0) ∧
  short (size (TopicErrorCodes d)) ∧ map_Forall (fun _ => int_ok 16) (TopicErrorCodes d).
#[export] Instance DeleteTopicsResponse_laws : protocolLaws checksum DeleteTopicsResponse.
Proof.
  refine (body_laws _ DeleteTopicsResponse_encode deleted_valid id _ _ _ _ _); [done|..].
  - intros c [? _]. unfold int_ok. simpl in *. lia.
  - intros o []. unfold DeleteTopicsResponse_encode. autounfold with part. cbn. auto 20 with wire.
  - intros o [v t m] Ho (Hv & ? & ? & ? & ?). cbn in *. unfold DeleteTopicsResponse_encode, DeleteTopicsResponse_decode. cbn.
    replace (if 1 <=? v then v else 0) with v by (case_match; lia). wire_parts.
  - intros o o' [] Ho Ho'. unfold DeleteTopicsResponse_encode. cbn. auto 20 with order.
Defined.

(** *** Partitions and records *)

Definition topic_partition_valid (t : TopicPartition) : Prop := int_ok 32 (tp_Count t) ∧ Forall (Forall (int_ok 32)) (tp_Assignment t).
Lemma wire_topic_partition t : topic_partition_valid t → wire checksum (TopicPartition_encode t) TopicPartition_decode t.
Proof.
  destruct t as [n a]. intros [Hn Ha]. cbn in *. unfold TopicPartition_encode, TopicPartition_decode. cbn. wire_part.
  eapply wire_last; [|apply wire_ret]. destruct a as [|x a].
  - unfold get_int_list. eapply wire_cons; [done|by apply wire_int32|]. apply wire_ret.
  - apply wire_int_list. eapply Forall_impl; [exact Ha|]. eauto with wire.
Qed.
Lemma wire_topic_partitions o m : fair o → short (size m) → map_Forall (fun _ => topic_partition_valid) m →
  wire checksum (put_map o [] m partition_entry) (get_map (get_entry getString TopicPartition_decode)) m.
Proof.
  intros Ho Hn Hm. eapply wire_gmap; [done|done| |done|exact Hm]. intros q k t Ht.
  apply (wire_entry _ [_]); [apply wire_string|by apply wire_topic_partition].
Qed.
#[local] Hint Resolve wire_topic_partitions : wire.
Lemma topic_partition_plain t : plain (TopicPartition_encode t).
Proof. unfold TopicPartition_encode. destruct (tp_Assignment t); auto 20 with wire. Qed.
#[export] Instance CreatePartitionsRequest_laws : protocolLaws checksum CreatePartitionsRequest.
Proof.
  refine (body_laws _ CreatePartitionsRequest_encode (fun c => short (size (cpq_TopicPartitions c)) ∧
    map_Forall (fun _ => topic_partition_valid) (cpq_TopicPartitions c) ∧ millis_ok (cpq_Timeout c)) id _ _ _ _ _); [done|done|..].
  - intros o c. unfold CreatePartitionsRequest_encode, partition_entry. auto 20 using topic_partition_plain with wire.
  - intros o [] Ho (? & ? & ?). cbn in *. unfold CreatePartitionsRequest_encode, CreatePartitionsRequest_decode. cbn. wire_parts.
  - intros o o' [] Ho Ho'. unfold CreatePartitionsRequest_encode. cbn. auto 20 with order.
Defined.
Definition topic_partition_error_valid (t : TopicPartitionError) : Prop := int_ok 16 (tpe_Err t).
Lemma wire_topic_partition_error t : topic_partition_error_valid t →
  wire checksum (TopicPartitionError_encode t) TopicPartitionError_decode t.
Proof. destruct t. unfold topic_partition_error_valid, TopicPartitionError_encode, TopicPartitionError_decode. part_auto. Qed.
Lemma wire_topic_partition_errors o m : fair o → short (size m) → map_Forall (fun _ => topic_partition_error_valid) m →
  wire checksum (put_map o [] m partition_error_entry) (get_map (get_entry getString TopicPartitionError_decode)) m.
Proof.
  intros Ho Hn Hm. eapply wire_gmap; [done|done| |done|exact Hm]. intros q k t Ht.
  apply (wire_entry _ [_]); [apply wire_string|by apply wire_topic_partition_error].
Qed.
#[local] Hint Resolve wire_topic_partition_errors : wire.
#[export] Instance CreatePartitionsResponse_laws : protocolLaws checksum CreatePartitionsResponse.
Proof.
  body_auto CreatePartitionsResponse_encode (fun c => millis_ok (cpr_ThrottleTime c) ∧ short (size (TopicPartitionErrors c)) ∧
    map_Forall (fun _ => topic_partition_error_valid) (TopicPartitionErrors c)) (@id CreatePartitionsResponse).
Defined.

(** A map of topics whose entries are sorted *)
Definition sorted_valid {V} (P : V → Prop) (m : gmap Z V) : Prop := short (size m) ∧ map_Forall (fun id v => int_ok 32 id ∧ P v) m.
Lemma wire_delete_topic o p m : fair o → sorted_valid (int_ok 64) m →
  wire checksum (DeleteRecordsRequestTopic_encode o p m) DeleteRecordsRequestTopic_decode m.
Proof.
  intros Ho [Hn Hm]. eapply wire_sorted; [done|done| |done|exact Hm]. intros q id x [Hid Hx].
  apply (wire_entry _ [_] [_]); eauto with wire.
Qed.
Lemma wire_delete_topics o m : fair o → short (size m) → map_Forall (fun _ => sorted_valid (int_ok 64)) m →
  wire checksum (put_sorted bytes_le o [] m (delete_entry o)) (get_map (get_entry getString DeleteRecordsRequestTopic_decode)) m.
Proof.
  intros Ho Hn Hm. eapply wire_sorted; [done|done| |done|exact Hm]. intros q k x Hx.
  apply (wire_entry _ [_]); [apply wire_string|by apply wire_delete_topic].
Qed.
#[local] Hint Resolve wire_delete_topics : wire.
#[export] Instance DeleteRecordsRequest_laws : protocolLaws checksum DeleteRecordsRequest.
Proof.
  body_auto DeleteRecordsRequest_encode (fun d => short (size (drq_Topics d)) ∧
    map_Forall (fun _ => sorted_valid (int_ok 64)) (drq_Topics d) ∧ millis_ok (drq_Timeout d)) (@id DeleteRecordsRequest).
Defined.
Definition deleted_partition_valid (t : DeleteRecordsResponsePartition) : Prop := int_ok 64 (LowWatermark t) ∧ int_ok 16 (drp_Err t).
Lemma wire_deleted_partition t : deleted_partition_valid t →
  wire checksum (DeleteRecordsResponsePartition_encode t) DeleteRecordsResponsePartition_decode t.
Proof. destruct t. unfold deleted_partition_valid, DeleteRecordsResponsePartition_encode, DeleteRecordsResponsePartition_decode. part_auto. Qed.
Lemma wire_deleted_topic o p m : fair o → sorted_valid deleted_partition_valid m →
  wire checksum (DeleteRecordsResponseTopic_encode o p m) DeleteRecordsResponseTopic_decode m.
Proof.
  intros Ho [Hn Hm]. eapply wire_sorted; [done|done| |done|exact Hm]. intros q id x [Hid Hx].
  apply (wire_entry _ [_]); [by apply wire_int32|by apply wire_deleted_partition].
Qed.
Lemma wire_deleted_topics o m : fair o → short (size m) → map_Forall (fun _ => sorted_valid deleted_partition_valid) m →
  wire checksum (put_sorted bytes_le o [] m (deleted_entry o)) (get_map (get_entry getString DeleteRecordsResponseTopic_decode)) m.
Proof.
  intros Ho Hn Hm. eapply wire_sorted; [done|done| |done|exact Hm]. intros q k x Hx.
  apply (wire_entry _ [_]); [apply wire_string|by apply wire_deleted_topic].
Qed.
#[local] Hint Resolve wire_deleted_topics : wire.
#[export] Instance DeleteRecordsResponse_laws : protocolLaws checksum DeleteRecordsResponse.
Proof.
  body_auto DeleteRecordsResponse_encode (fun d => millis_ok (drr_ThrottleTime d) ∧ short (size (drr_Topics d)) ∧
    map_Forall (fun _ => sorted_valid deleted_partition_valid) (drr_Topics d))
    (fun d => mk_DeleteRecordsResponse 0 (drr_ThrottleTime d) (drr_Topics d)).
Defined.

(** *** Configurations *)

(** [putStringArray] is read by [getArrayLength] and a loop as well. *)
Lemma wire_names {D} names (k : Z → rd_get (list bytes) → rd_get D) v : short (length names) →
  (∀ l, wire checksum l (get_times (length names) getString) names → wire checksum l (k (len names) (get_times (length names) getString)) v) →
  wire checksum [Data (putStringArray names)] (get* n := getArrayLength in k n (get_times (Z.to_nat n) getString)) v.
Proof.
  intros Hn Hk. set (g := fun s : bytes => [Data (putString s)]).
  assert (wire checksum (Data (putArrayLength (len names)) :: (names ≫= g))
    (get* n := getArrayLength in k n (get_times (Z.to_nat n) getString)) v) as Hw.
  { rewrite <- join_const. apply (wire_loop _ names (fun _ => g) _ id); [done| |].
    - apply Forall_true. intros s i. split; [done|apply wire_string].
    - rewrite list_fmap_id. apply Hk. }
  intros He r Hr Hlen. cbn in He. destruct (math_MaxInt32 <? len names) eqn:El; [done|]. destruct (existsb _ _) eqn:Ex; [done|].
  assert (([Data (putStringArray names)] ≫= render checksum) =
    (Data (putArrayLength (len names)) :: (names ≫= g)) ≫= render checksum) as Eb.
  { rewrite !bind_cons. cbn [render data_bytes]. change ([] ≫= render checksum) with (@nil Z). rewrite app_nil_r. f_equal.
    clear. induction names as [|s names IH]; [done|]. rewrite !bind_cons, bind_app. f_equal; [|apply IH]. cbn. by rewrite app_nil_r. }
  rewrite Eb in *. apply Hw; [|done..]. cbn [items_error item_error data_error]. rewrite El.
  apply items_error_Forall, Forall_bind, Forall_forall. intros s Hs. apply Forall_singleton. cbn.
  destruct (math_MaxInt16 <? len s) eqn:Els; [|done]. apply not_true_iff_false in Ex. destruct Ex.
  apply existsb_exists. exists s. split; [by apply list_elem_of_In|done].
Qed.
Definition resource_valid (c : ConfigResource) : Prop := int_ok 8 (cfr_Type c) ∧ short (length (ConfigNames c)).
Lemma wire_resource c : resource_valid c → wire checksum (ConfigResource_encode c) ConfigResource_decode c.
Proof.
  destruct c as [t n names]. intros [Ht Hn]. cbn in *. unfold ConfigResource_encode, ConfigResource_decode. cbn. do 2 wire_part.
  destruct names as [|x names]; [eapply wire_cons; [done|apply wire_minus_one|apply wire_ret]|].
  apply (wire_names (x :: names) (fun n' t' => if n' =? -1 then rd_ret (mk_resource t n []) else
    get* _ := make_slice n' in get* ns := t' in rd_ret (mk_resource t n ns))); [done|]. intros l Hl.
  pose proof (len_nonneg (x :: names)). replace (len (x :: names) =? -1) with false by lia.
  eapply wire_skip; [apply wire_make_slice; lia|]. by apply (wire_map _ _ _ _ (mk_resource t n)).
Qed.
Lemma wire_resources l : short (length l) → Forall resource_valid l →
  wire checksum (put_array l ConfigResource_encode) (get_array ConfigResource_decode) l.
Proof. intros Hn Hl. apply (wire_slice _ resource_valid); [apply wire_resource|done..]. Qed.
#[local] Hint Resolve wire_resources : wire.
Lemma resource_plain c : plain (ConfigResource_encode c).
Proof. unfold ConfigResource_encode. destruct (ConfigNames c); auto 20 with wire. Qed.
#[export] Instance DescribeConfigsRequest_laws : protocolLaws checksum DescribeConfigsRequest.
Proof.
  refine (body_laws _ (fun _ => DescribeConfigsRequest_encode) (fun r => int_ok 16 (dcq_Version r) ∧ short (length (dcq_Resources r)) ∧
    Forall resource_valid (dcq_Resources r) ∧ ((1 <=? dcq_Version r) = false → IncludeSynonyms r = false)) id _ _ _ _ _); [done|..].
  - by intros r [? _].
  - intros _ r. unfold DescribeConfigsRequest_encode. auto 20 using resource_plain with wire.
  - intros _ [v l b] _ (? & ? & ? & ?). cbn in *. unfold DescribeConfigsRequest_encode, DescribeConfigsRequest_decode. cbn. wire_parts.
  - done.
Defined.

Definition synonym_valid (c : ConfigSynonym) : Prop := int_ok 8 (cs_Source c).
Lemma wire_synonym c : synonym_valid c → wire checksum (ConfigSynonym_encode c) ConfigSynonym_decode c.
Proof.
  destruct c as [n v s]. intros Hs. unfold ConfigSynonym_encode, ConfigSynonym_decode. cbn.
  eapply (wire_or _ [_]); [apply wire_string|]. eapply (wire_or _ [_]); [apply wire_string|].
  eapply (wire_or _ [_]); [by apply wire_int8|]. apply wire_ret.
Qed.
Lemma wire_synonyms l : short (length l) → Forall synonym_valid l →
  wire checksum (put_array l ConfigSynonym_encode) (get_array ConfigSynonym_decode) l.
Proof. intros Hn Hl. apply (wire_slice _ synonym_valid); [apply wire_synonym|done..]. Qed.
#[local] Hint Resolve wire_synonyms : wire.

(** Version 0 has no sources and synonyms, the later versions have no default. *)
Definition config_valid (v : Z) (r : ConfigEntry) : Prop :=
  0 ≤ v ∧ int_ok 8 (ce_Source r) ∧ short (length (ce_Synonyms r)) ∧ Forall synonym_valid (ce_Synonyms r) ∧
  if v =? 0 then ce_Source r = 0 ∧ ce_Synonyms r = [] else ce_Default r = false.
Lemma wire_config v r : config_valid v r → wire checksum (ConfigEntry_encode v r) (ConfigEntry_decode v) r.
Proof.
  destruct r as [n x ro d s se sy]. intros (Hv & Hs & Hn & Hsy & H0). cbn in *.
  unfold ConfigEntry_encode, ConfigEntry_decode. cbn. do 3 wire_part. destruct (Z.eqb_spec v 0) as [->|Hv'].
  - destruct H0 as [-> ->]. cbn. wire_part. eapply wire_skip; [apply wire_ret|]. wire_parts.
  - replace (v <=? 0) with false by lia. replace (0 <? v) with true by lia. subst d. eapply wire_skip; [apply wire_ret|]. wire_parts.
Qed.
Lemma wire_configs v l : short (length l) → Forall (config_valid v) l →
  wire checksum (put_array l (ConfigEntry_encode v)) (get_array (ConfigEntry_decode v)) l.
Proof. intros Hn Hl. apply (wire_slice _ (config_valid v)); [apply wire_config|done..]. Qed.
#[local] Hint Resolve wire_configs : wire.
Definition response_valid (v : Z) (r : ResourceResponse) : Prop :=
  int_ok 16 (rr_ErrorCode r) ∧ int_ok 8 (rr_Type r) ∧ short (length (rr_Configs r)) ∧ Forall (config_valid v) (rr_Configs r).
Lemma wire_response v r : response_valid v r → wire checksum (ResourceResponse_encode v r) (ResourceResponse_decode v) r.
Proof. destruct r. unfold response_valid, ResourceResponse_encode, ResourceResponse_decode. part_auto. Qed.
Lemma wire_responses v l : short (length l) → Forall (response_valid v) l →
  wire checksum (put_array l (ResourceResponse_encode v)) (get_array (ResourceResponse_decode v)) l.
Proof. intros Hn Hl. apply (wire_slice _ (response_valid v)); [apply wire_response|done..]. Qed.
#[local] Hint Resolve wire_responses : wire.
#[export] Instance DescribeConfigsResponse_laws : protocolLaws checksum DescribeConfigsResponse.
Proof.
  body_auto (fun _ : orders => DescribeConfigsResponse_encode) (fun r => int_ok 16 (dcr_Version r) ∧ millis_ok (dcr_ThrottleTime r) ∧
    short (length (dcr_Resources r)) ∧ Forall (response_valid (dcr_Version r)) (dcr_Resources r)) (@id DescribeConfigsResponse).
Defined.

Definition alter_valid (a : AlterConfigsResource) : Prop := int_ok 8 (acr_Type a) ∧ short (size (acr_ConfigEntries a)).
Lemma wire_alter o p a : fair o → alter_valid a → wire checksum (AlterConfigsResource_encode o p a) AlterConfigsResource_decode a.
Proof. destruct a. unfold alter_valid, AlterConfigsResource_encode, AlterConfigsResource_decode. part_auto. Qed.
Lemma wire_alters o l : fair o → short (length l) → Forall alter_valid l →
  wire checksum (put_each [] l (AlterConfigsResource_encode o)) (get_array AlterConfigsResource_decode) l.
Proof.
  intros Ho Hn Hl. rewrite <- (list_fmap_id l) at 2. apply wire_each; [done|].
  eapply Forall_impl; [exact Hl|]. intros a Ha p. split; [done|]. by apply wire_alter.
Qed.
#[local] Hint Resolve wire_alters : wire.
#[export] Instance AlterConfigsRequest_laws : protocolLaws checksum AlterConfigsRequest.
Proof.
  body_auto AlterConfigsRequest_encode (fun a => short (length (acq_Resources a)) ∧ Forall alter_valid (acq_Resources a)) (@id AlterConfigsRequest).
Defined.

(** *** The response to altering configurations *)

Definition altered_valid (r : AlterConfigsResourceResponse) : Prop :=
  int_ok 16 (alr_ErrorCode r) ∧ int_ok 8 (alr_Type r) ∧ too_long (alr_ErrorMsg r) = false ∧ too_long (alr_Name r) = false.
Lemma altered_count_short l : Forall altered_valid l → altered_count l = l ≫= altered_encode.
Proof.
  induction 1 as [|r l (_ & _ & H1 & H2) Hl IH]; [done|]. cbn [altered_count]. by rewrite H1, H2, IH.
Qed.
Lemma wire_altered r : altered_valid r → wire checksum (altered_encode r) altered_decode r.
Proof. destruct r. unfold altered_valid, altered_encode, altered_decode. part_auto. Qed.
Lemma altered_plain a : plain (AlterConfigsResponse_encode a).
Proof. unfold AlterConfigsResponse_encode, altered_encode. auto 20 with wire. Qed.

(** A response whose strings are short enough is encoded and read back. *)
Lemma alter_response_back h a bin :
  millis_ok (acp_ThrottleTime a) → short (length (acp_Resources a)) → Forall altered_valid (acp_Resources a) →
  encode_passes checksum h (AlterConfigsResponse_count a ≫= calls) (AlterConfigsResponse_encode a ≫= calls) = Ret (inl bin) →
  decode (AlterConfigsResponse_decode AlterConfigsResponse_version) bin = Ret (inl a).
Proof.
  intros Ht Hn Hl. replace (AlterConfigsResponse_count a) with (AlterConfigsResponse_encode a).
  2:{ unfold AlterConfigsResponse_count, AlterConfigsResponse_encode, put_array, put_each. cbn [app].
      by rewrite join_const, altered_count_short. }
  intros He. eapply encode_orders_decode in He as (_ & _ & _ & ->); [done|apply altered_plain..|by apply alike_order|].
  destruct a as [t l]. unfold AlterConfigsResponse_encode, AlterConfigsResponse_decode. cbn in *. wire_part.
  eapply wire_last; [|apply wire_ret]. apply (wire_slice _ altered_valid); [apply wire_altered|done..].
Qed.
End laws.

(** A message that is too long is no error of the counting pass, and the writing pass runs out of
    its buffer. *)
Lemma alter_response_panics :
  let a := mk_AlterConfigsResponse 0 [mk_altered 0 (replicate (Z.to_nat 32768) 97) 2 (B "t")] in
  encode_passes sample_checksum ∅ (AlterConfigsResponse_count a ≫= calls) (AlterConfigsResponse_encode a ≫= calls)
  = Panic IndexOutOfRange.
Proof. vm_compute. reflexivity. Qed.

(** [DescribeConfigsResponse] of version 1 cut off in a synonym is read without an error. *)
Lemma cut_synonym_accepted :
  decode ConfigSynonym_decode [0; 1; 97; 0] = Ret (inl (mk_synonym (B "a") [] 0)).
Proof. reflexivity. Qed.
