(* ===== verification/KafkaAcls.v ===== *)
(** * Access control: [kafka/acl_*.go]

    The filters, resources and entries of access control lists, and the requests about them.  The
    types of the lists are [int]s in memory and bytes on the wire. *)

From S2P Require Import Prelude GoStrings KafkaCodec KafkaProps KafkaDecoder KafkaDecoderProps KafkaWire KafkaRecord KafkaProtocol.

(** [AclPatternUnknown], [AclPatternLiteral] *)
Definition AclPatternUnknown : Z := 0.
Definition AclPatternLiteral : Z := 3.

(** ** Bindings *)

(** [type Resource struct]: the encoder replaces an unknown pattern. *)
Record Resource := mk_acl_resource { ResourceType : Z; ResourceName : bytes; ResourcePatternType : Z }.
Definition written_pattern (r : Resource) : Z :=
  if ResourcePatternType r =? AclPatternUnknown then AclPatternLiteral else ResourcePatternType r.
Definition Resource_encode (version : Z) (r : Resource) : list item :=
  [Data (putInt8 (swrap 8 (ResourceType r))); Data (putString (ResourceName r))] ++
  (if version =? 1 then [Data (putInt8 (swrap 8 (written_pattern r)))] else []).
Definition Resource_decode (version : Z) : rd_get Resource :=
  get* type := getInt8 in
  get* name := getString in
  get* pattern := if version =? 1 then getInt8 else rd_ret 0 in
  rd_ret (mk_acl_resource type name pattern).

(** [type Acl struct] *)
Record Acl := mk_acl { acl_Principal : bytes; acl_Host : bytes; acl_Operation : Z; acl_PermissionType : Z }.
Definition Acl_encode (a : Acl) : list item :=
  [Data (putString (acl_Principal a)); Data (putString (acl_Host a)); Data (putInt8 (swrap 8 (acl_Operation a)));
   Data (putInt8 (swrap 8 (acl_PermissionType a)))].
Definition Acl_decode : rd_get Acl :=
  get* principal := getString in get* host := getString in get* op := getInt8 in get* perm := getInt8 in
  rd_ret (mk_acl principal host op perm).

(** [type ResourceAcls struct] *)
Record ResourceAcls := mk_resource_acls { ra_Resource : Resource; ra_Acls : list Acl }.
Definition ResourceAcls_encode (version : Z) (r : ResourceAcls) : list item :=
  Resource_encode version (ra_Resource r) ++ put_array (ra_Acls r) Acl_encode.
Definition ResourceAcls_decode (version : Z) : rd_get ResourceAcls :=
  get* r := Resource_decode version in get* l := get_array Acl_decode in rd_ret (mk_resource_acls r l).

(** ** Filters *)

(** [type AclFilter struct] *)
Record AclFilter := mk_filter {
  af_Version : Z; af_ResourceType : Z; af_ResourceName : option bytes; ResourcePatternTypeFilter : Z;
  af_Principal : option bytes; af_Host : option bytes; af_Operation : Z; af_PermissionType : Z }.
Definition set_filter_version (v : Z) (a : AclFilter) : AclFilter :=
  mk_filter v (af_ResourceType a) (af_ResourceName a) (ResourcePatternTypeFilter a) (af_Principal a) (af_Host a) (af_Operation a)
    (af_PermissionType a).
Definition AclFilter_encode (a : AclFilter) : list item :=
  [Data (putInt8 (swrap 8 (af_ResourceType a))); Data (putNullableString (af_ResourceName a))] ++
  (if af_Version a =? 1 then [Data (putInt8 (swrap 8 (ResourcePatternTypeFilter a)))] else []) ++
  [Data (putNullableString (af_Principal a)); Data (putNullableString (af_Host a)); Data (putInt8 (swrap 8 (af_Operation a)));
   Data (putInt8 (swrap 8 (af_PermissionType a)))].
(** The decoder of a filter whose version is set *)
Definition AclFilter_decode (v : Z) : rd_get AclFilter :=
  get* type := getInt8 in
  get* name := getNullableString in
  get* pattern := if v =? 1 then getInt8 else rd_ret 0 in
  get* principal := getNullableString in
  get* host := getNullableString in
  get* op := getInt8 in
  get* perm := getInt8 in
  rd_ret (mk_filter v type name pattern principal host op perm).

(** ** Requests and responses *)

Definition acl_required (v : Z) : KafkaVersion := if v =? 1 then V2_0_0_0 else V0_11_0_0.

(** [type AclCreation struct], [type CreateAclsRequest struct] *)
Record AclCreation := mk_creation { ac_Resource : Resource; ac_Acl : Acl }.
Definition AclCreation_encode (version : Z) (a : AclCreation) : list item :=
  Resource_encode version (ac_Resource a) ++ Acl_encode (ac_Acl a).
Definition AclCreation_decode (version : Z) : rd_get AclCreation :=
  get* r := Resource_decode version in get* a := Acl_decode in rd_ret (mk_creation r a).
Record CreateAclsRequest := mk_CreateAclsRequest { caq_Version : Z; AclCreations : list AclCreation }.
Definition CreateAclsRequest_encode (c : CreateAclsRequest) : list item :=
  put_array (AclCreations c) (AclCreation_encode (caq_Version c)).
Definition CreateAclsRequest_decode (version : Z) : rd_get CreateAclsRequest :=
  get* l := get_array (AclCreation_decode version) in rd_ret (mk_CreateAclsRequest version l).
Definition CreateAclsRequest_body : protocolBody CreateAclsRequest := {|
  key _ := 30; version := caq_Version; requiredVersion c := acl_required (caq_Version c);
  body_metrics _ := Ret 0; body_encode _ r := Ret (CreateAclsRequest_encode r); body_decode := CreateAclsRequest_decode |}.
#[export] Existing Instance CreateAclsRequest_body.

(** [type AclCreationResponse struct], [type CreateAclsResponse struct] *)
Record AclCreationResponse := mk_creation_response { acrs_Err : Z; acrs_ErrMsg : option bytes }.
Definition AclCreationResponse_encode (a : AclCreationResponse) : list item :=
  [Data (putInt16 (acrs_Err a)); Data (putNullableString (acrs_ErrMsg a))].
Definition AclCreationResponse_decode : rd_get AclCreationResponse :=
  get* err := getInt16 in get* msg := getNullableString in rd_ret (mk_creation_response err msg).
Record CreateAclsResponse := mk_CreateAclsResponse { car_ThrottleTime : Z; AclCreationResponses : list AclCreationResponse }.
Definition CreateAclsResponse_encode (c : CreateAclsResponse) : list item :=
  [put_millis (car_ThrottleTime c)] ++ put_array (AclCreationResponses c) AclCreationResponse_encode.
Definition CreateAclsResponse_decode (_ : Z) : rd_get CreateAclsResponse :=
  get* t := get_millis in get* l := get_array AclCreationResponse_decode in rd_ret (mk_CreateAclsResponse t l).
Definition CreateAclsResponse_body : protocolBody CreateAclsResponse := {|
  key _ := 30; version _ := 0; requiredVersion _ := V0_11_0_0;
  body_metrics _ := Ret 0; body_encode _ r := Ret (CreateAclsResponse_encode r); body_decode := CreateAclsResponse_decode |}.
#[export] Existing Instance CreateAclsResponse_body.

(** [type DeleteAclsRequest struct] *)
Record DeleteAclsRequest := mk_DeleteAclsRequest { daq_Version : Z; Filters : list AclFilter }.
Definition DeleteAclsRequest_encode (d : DeleteAclsRequest) : list item :=
  put_array (Filters d) (fun f => AclFilter_encode (set_filter_version (daq_Version d) f)).
Definition DeleteAclsRequest_decode (version : Z) : rd_get DeleteAclsRequest :=
  get* l := get_array (AclFilter_decode version) in rd_ret (mk_DeleteAclsRequest version l).
Definition DeleteAclsRequest_body : protocolBody DeleteAclsRequest := {|
  key _ := 31; version d := swrap 16 (daq_Version d); requiredVersion d := acl_required (daq_Version d);
  body_metrics _ := Ret 0; body_encode _ r := Ret (DeleteAclsRequest_encode r); body_decode := DeleteAclsRequest_decode |}.
#[export] Existing Instance DeleteAclsRequest_body.

(** [type MatchingAcl struct], [type FilterResponse struct], [type DeleteAclsResponse struct]: the
    decoder does not set the version. *)
Record MatchingAcl := mk_matching { ma_Err : Z; ma_ErrMsg : option bytes; ma_Resource : Resource; ma_Acl : Acl }.
Definition MatchingAcl_encode (version : Z) (m : MatchingAcl) : list item :=
  [Data (putInt16 (ma_Err m)); Data (putNullableString (ma_ErrMsg m))] ++ Resource_encode version (ma_Resource m) ++ Acl_encode (ma_Acl m).
Definition MatchingAcl_decode (version : Z) : rd_get MatchingAcl :=
  get* err := getInt16 in get* msg := getNullableString in get* r := Resource_decode version in get* a := Acl_decode in
  rd_ret (mk_matching err msg r a).
Record FilterResponse := mk_filter_response { fr_ErrCode : Z; fr_Msg : option bytes; MatchingAcls : list MatchingAcl }.
Definition FilterResponse_encode (version : Z) (f : FilterResponse) : list item :=
  [Data (putInt16 (fr_ErrCode f)); Data (putNullableString (fr_Msg f))] ++ put_array (MatchingAcls f) (MatchingAcl_encode version).
Definition FilterResponse_decode (version : Z) : rd_get FilterResponse :=
  get* err := getInt16 in get* msg := getNullableString in get* l := get_array (MatchingAcl_decode version) in
  rd_ret (mk_filter_response err msg l).
Record DeleteAclsResponse := mk_DeleteAclsResponse { dar_Version : Z; dar_ThrottleTime : Z; FilterResponses : list FilterResponse }.
Definition DeleteAclsResponse_encode (d : DeleteAclsResponse) : list item :=
  [put_millis (dar_ThrottleTime d)] ++ put_array (FilterResponses d) (FilterResponse_encode (dar_Version d)).
Definition DeleteAclsResponse_decode (version : Z) : rd_get DeleteAclsResponse :=
  get* t := get_millis in get* l := get_array (FilterResponse_decode version) in rd_ret (mk_DeleteAclsResponse 0 t l).
Definition DeleteAclsResponse_body : protocolBody DeleteAclsResponse := {|
  key _ := 31; version := dar_Version; requiredVersion _ := V0_11_0_0;
  body_metrics _ := Ret 0; body_encode _ r := Ret (DeleteAclsResponse_encode r); body_decode := DeleteAclsResponse_decode |}.
#[export] Existing Instance DeleteAclsResponse_body.

(** [type DescribeAclsRequest struct] *)
Record DescribeAclsRequest := mk_DescribeAclsRequest { dsq_Version : Z; dsq_AclFilter : AclFilter }.
Definition DescribeAclsRequest_encode (d : DescribeAclsRequest) : list item :=
  AclFilter_encode (set_filter_version (dsq_Version d) (dsq_AclFilter d)).
Definition DescribeAclsRequest_decode (version : Z) : rd_get DescribeAclsRequest :=
  get* f := AclFilter_decode version in rd_ret (mk_DescribeAclsRequest version f).
Definition DescribeAclsRequest_body : protocolBody DescribeAclsRequest := {|
  key _ := 29; version d := swrap 16 (dsq_Version d); requiredVersion d := acl_required (dsq_Version d);
  body_metrics _ := Ret 0; body_encode _ r := Ret (DescribeAclsRequest_encode r); body_decode := DescribeAclsRequest_decode |}.
#[export] Existing Instance DescribeAclsRequest_body.

(** [type DescribeAclsResponse struct]: an empty message is read as nil, and the decoder does not
    set the version. *)
Record DescribeAclsResponse := mk_DescribeAclsResponse {
  dsr_Version : Z; dsr_ThrottleTime : Z; dsr_Err : Z; dsr_ErrMsg : option bytes; dsr_ResourceAcls : list ResourceAcls }.
Definition DescribeAclsResponse_encode (d : DescribeAclsResponse) : list item :=
  [put_millis (dsr_ThrottleTime d); Data (putInt16 (dsr_Err d)); Data (putNullableString (dsr_ErrMsg d))] ++
  put_array (dsr_ResourceAcls d) (ResourceAcls_encode (dsr_Version d)).
Definition message_or_nil (s : bytes) : option bytes := match s with [] => None | _ => Some s end.
Definition DescribeAclsResponse_decode (version : Z) : rd_get DescribeAclsResponse :=
  get* t := get_millis in
  get* err := getInt16 in
  get* msg := getString in
  get* l := get_array (ResourceAcls_decode version) in
  rd_ret (mk_DescribeAclsResponse 0 t err (message_or_nil msg) l).
Definition DescribeAclsResponse_body : protocolBody DescribeAclsResponse := {|
  key _ := 29; version := dsr_Version; requiredVersion d := acl_required (dsr_Version d);
  body_metrics _ := Ret 0; body_encode _ r := Ret (DescribeAclsResponse_encode r); body_decode := DescribeAclsResponse_decode |}.
#[export] Existing Instance DescribeAclsResponse_body.

(** ** Laws *)

Section laws.
Context (checksum : crcPolynomial → bytes → Z).

#[local] Hint Unfold CreateAclsRequest_encode CreateAclsRequest_decode CreateAclsResponse_encode CreateAclsResponse_decode
  DeleteAclsResponse_encode DeleteAclsResponse_decode : body.
#[local] Hint Unfold Resource_encode Acl_encode ResourceAcls_encode AclFilter_encode AclCreation_encode AclCreationResponse_encode
  MatchingAcl_encode FilterResponse_encode : part.

Lemma wire_byte n : int_ok 8 n → wire checksum [Data (putInt8 (swrap 8 n))] getInt8 n.
Proof. intros Hn. rewrite int_ok_swrap by done. by apply wire_int8. Qed.
#[local] Hint Resolve wire_byte : wire.

(** The pattern that is received: none before version 1, never an unknown one in version 1 *)
Definition resource_received (v : Z) (r : Resource) : Resource :=
  mk_acl_resource (ResourceType r) (ResourceName r) (if v =? 1 then written_pattern r else 0).
Definition acl_resource_valid (r : Resource) : Prop := int_ok 8 (ResourceType r) ∧ int_ok 8 (ResourcePatternType r).
Lemma wire_acl_resource v r : acl_resource_valid r → wire checksum (Resource_encode v r) (Resource_decode v) (resource_received v r).
Proof.
  intros [Ht Hp]. assert (int_ok 8 (written_pattern r)) by (unfold written_pattern; by case_match).
  unfold Resource_encode, Resource_decode, resource_received. cbn [app]. do 2 wire_part.
  destruct (v =? 1); [wire_parts|]. eapply wire_skip; apply wire_ret.
Qed.
#[local] Hint Resolve wire_acl_resource : wire.
Definition acl_valid (a : Acl) : Prop := int_ok 8 (acl_Operation a) ∧ int_ok 8 (acl_PermissionType a).
Lemma wire_acl a : acl_valid a → wire checksum (Acl_encode a) Acl_decode a.
Proof. destruct a. unfold acl_valid, Acl_encode, Acl_decode. part_auto. Qed.
#[local] Hint Resolve wire_acl : wire.
Lemma wire_acls l : short (length l) → Forall acl_valid l → wire checksum (put_array l Acl_encode) (get_array Acl_decode) l.
Proof. intros Hn Hl. apply (wire_slice _ acl_valid); [apply wire_acl|done..]. Qed.
#[local] Hint Resolve wire_acls : wire.

(** A slice whose elements change on the way *)
Lemma wire_changed {A} (P : A → Prop) (f : A → A) g (m : rd_get A) l :
  (∀ x, P x → wire checksum (g x) m (f x)) → (∀ x, starts (g x) = true) → short (length l) → Forall P l →
  wire checksum (put_array l g) (get_array m) (f <$> l).
Proof. intros Hw Hs Hn Hl. apply wire_each; [done|]. eapply Forall_impl; [exact Hl|]. auto. Qed.

(** *** Creating *)

Definition creation_valid (a : AclCreation) : Prop := acl_resource_valid (ac_Resource a) ∧ acl_valid (ac_Acl a).
Definition creation_received (v : Z) (a : AclCreation) : AclCreation := mk_creation (resource_received v (ac_Resource a)) (ac_Acl a).
Lemma wire_creation v a : creation_valid a → wire checksum (AclCreation_encode v a) (AclCreation_decode v) (creation_received v a).
Proof. intros [? ?]. unfold AclCreation_encode, AclCreation_decode, creation_received. wire_parts. Qed.
#[export] Instance CreateAclsRequest_laws : protocolLaws checksum CreateAclsRequest.
Proof.
  refine (body_laws _ (fun _ => CreateAclsRequest_encode) (fun c => int_ok 16 (caq_Version c) ∧ short (length (AclCreations c)) ∧
    Forall creation_valid (AclCreations c)) (fun c => mk_CreateAclsRequest (caq_Version c) (creation_received (caq_Version c) <$> AclCreations c))
    _ _ _ _ _); [done|..].
  - by intros c [? _].
  - intros _ []. autounfold with body part. auto 20 with wire.
  - intros _ [v l] _ (? & ? & ?). cbn in *. unfold CreateAclsRequest_encode, CreateAclsRequest_decode. cbn.
    eapply wire_last; [|apply wire_ret]. by apply (wire_changed creation_valid); [apply wire_creation|..].
  - done.
Defined.
Lemma wire_creation_response a : int_ok 16 (acrs_Err a) → wire checksum (AclCreationResponse_encode a) AclCreationResponse_decode a.
Proof. destruct a. unfold AclCreationResponse_encode, AclCreationResponse_decode. part_auto. Qed.
Lemma wire_creation_responses l : short (length l) → Forall (fun a => int_ok 16 (acrs_Err a)) l →
  wire checksum (put_array l AclCreationResponse_encode) (get_array AclCreationResponse_decode) l.
Proof. intros Hn Hl. eapply wire_slice; [apply wire_creation_response|done..]. Qed.
#[local] Hint Resolve wire_creation_responses : wire.
#[export] Instance CreateAclsResponse_laws : protocolLaws checksum CreateAclsResponse.
Proof.
  body_auto (fun _ : orders => CreateAclsResponse_encode) (fun c => millis_ok (car_ThrottleTime c) ∧ short (length (AclCreationResponses c)) ∧
    Forall (fun a => int_ok 16 (acrs_Err a)) (AclCreationResponses c)) (@id CreateAclsResponse).
Defined.

(** *** Deleting and describing *)

Definition filter_valid (v : Z) (a : AclFilter) : Prop :=
  int_ok 8 (af_ResourceType a) ∧ int_ok 8 (ResourcePatternTypeFilter a) ∧ int_ok 8 (af_Operation a) ∧ int_ok 8 (af_PermissionType a) ∧
  ((v =? 1) = false → ResourcePatternTypeFilter a = 0).
Lemma wire_filter v a : filter_valid v a →
  wire checksum (AclFilter_encode (set_filter_version v a)) (AclFilter_decode v) (set_filter_version v a).
Proof. destruct a. unfold filter_valid, AclFilter_encode, AclFilter_decode, set_filter_version. part_auto. Qed.
#[local] Hint Resolve wire_filter : wire.
#[export] Instance DeleteAclsRequest_laws : protocolLaws checksum DeleteAclsRequest.
Proof.
  refine (body_laws _ (fun _ => DeleteAclsRequest_encode) (fun d => int_ok 16 (daq_Version d) ∧ short (length (Filters d)) ∧
    Forall (filter_valid (daq_Version d)) (Filters d))
    (fun d => mk_DeleteAclsRequest (daq_Version d) (set_filter_version (daq_Version d) <$> Filters d)) _ _ _ _ _); [done|..].
  - intros d [? _]. cbn. by rewrite int_ok_swrap.
  - intros _ []. unfold DeleteAclsRequest_encode. autounfold with part. auto 20 with wire.
  - intros _ [v l] _ (? & ? & ?). cbn in *. rewrite int_ok_swrap by done. unfold DeleteAclsRequest_encode, DeleteAclsRequest_decode. cbn.
    eapply wire_last; [|apply wire_ret]. by apply (wire_changed (filter_valid v)); [apply wire_filter|..].
  - done.
Defined.
#[export] Instance DescribeAclsRequest_laws : protocolLaws checksum DescribeAclsRequest.
Proof.
  refine (body_laws _ (fun _ => DescribeAclsRequest_encode) (fun d => int_ok 16 (dsq_Version d) ∧ filter_valid (dsq_Version d) (dsq_AclFilter d))
    (fun d => mk_DescribeAclsRequest (dsq_Version d) (set_filter_version (dsq_Version d) (dsq_AclFilter d))) _ _ _ _ _); [done|..].
  - intros d [? _]. cbn. by rewrite int_ok_swrap.
  - intros _ []. unfold DescribeAclsRequest_encode. autounfold with part. auto 20 with wire.
  - intros _ [v f] _ (? & Hf). cbn -[DescribeAclsRequest_encode] in *. rewrite (int_ok_swrap 16) by done.
    unfold DescribeAclsRequest_encode, DescribeAclsRequest_decode. cbn [dsq_Version dsq_AclFilter].
    eapply wire_last; [by apply wire_filter|apply wire_ret].
  - done.
Defined.

Definition matching_valid (m : MatchingAcl) : Prop := int_ok 16 (ma_Err m) ∧ acl_resource_valid (ma_Resource m) ∧ acl_valid (ma_Acl m).
Definition matching_received (v : Z) (m : MatchingAcl) : MatchingAcl :=
  mk_matching (ma_Err m) (ma_ErrMsg m) (resource_received v (ma_Resource m)) (ma_Acl m).
Lemma wire_matching v m : matching_valid m → wire checksum (MatchingAcl_encode v m) (MatchingAcl_decode v) (matching_received v m).
Proof. intros (? & ? & ?). unfold MatchingAcl_encode, MatchingAcl_decode, matching_received. wire_parts. Qed.
Definition filter_response_valid (f : FilterResponse) : Prop :=
  int_ok 16 (fr_ErrCode f) ∧ short (length (MatchingAcls f)) ∧ Forall matching_valid (MatchingAcls f).
Definition filter_response_received (v : Z) (f : FilterResponse) : FilterResponse :=
  mk_filter_response (fr_ErrCode f) (fr_Msg f) (matching_received v <$> MatchingAcls f).
Lemma wire_filter_response v f : filter_response_valid f →
  wire checksum (FilterResponse_encode v f) (FilterResponse_decode v) (filter_response_received v f).
Proof.
  intros (? & ? & ?). unfold FilterResponse_encode, FilterResponse_decode, filter_response_received. cbn [app]. do 2 wire_part.
  eapply wire_last; [|apply wire_ret]. by apply (wire_changed matching_valid); [apply wire_matching|..].
Qed.
#[export] Instance DeleteAclsResponse_laws : protocolLaws checksum DeleteAclsResponse.
Proof.
  refine (body_laws _ (fun _ => DeleteAclsResponse_encode) (fun d => int_ok 16 (dar_Version d) ∧ millis_ok (dar_ThrottleTime d) ∧
    short (length (FilterResponses d)) ∧ Forall filter_response_valid (FilterResponses d))
    (fun d => mk_DeleteAclsResponse 0 (dar_ThrottleTime d) (filter_response_received (dar_Version d) <$> FilterResponses d)) _ _ _ _ _); [done|..].
  - by intros d [? _].
  - intros _ []. autounfold with body part. auto 20 with wire.
  - intros _ [v t l] _ (? & ? & ? & ?). cbn in *. unfold DeleteAclsResponse_encode, DeleteAclsResponse_decode. cbn [app dar_ThrottleTime dar_Version FilterResponses].
    wire_part. eapply wire_last; [|apply wire_ret]. by apply (wire_changed filter_response_valid); [apply wire_filter_response|..].
  - done.
Defined.

(** [putNullableString] is read by [getString] too, nil as the empty string. *)
Lemma wire_default_string s : wire checksum [Data (putNullableString s)] getString (default [] s).
Proof.
  apply wire_data. intros r Hr He. destruct s as [s|]; [by eapply reads_string, no_error|].
  rewrite <- (app_nil_r (data_bytes _)). eapply reads_bind; [apply (reads_string_length _ (-1)); unfold math_MaxInt16, len; simpl; lia|].
  apply reads_ret.
Qed.
Definition resource_acls_valid (r : ResourceAcls) : Prop :=
  acl_resource_valid (ra_Resource r) ∧ short (length (ra_Acls r)) ∧ Forall acl_valid (ra_Acls r).
Definition resource_acls_received (v : Z) (r : ResourceAcls) : ResourceAcls :=
  mk_resource_acls (resource_received v (ra_Resource r)) (ra_Acls r).
Lemma wire_resource_acls v r : resource_acls_valid r →
  wire checksum (ResourceAcls_encode v r) (ResourceAcls_decode v) (resource_acls_received v r).
Proof. intros (? & ? & ?). unfold ResourceAcls_encode, ResourceAcls_decode, resource_acls_received. wire_parts. Qed.
Definition describe_received (d : DescribeAclsResponse) : DescribeAclsResponse :=
  mk_DescribeAclsResponse 0 (dsr_ThrottleTime d) (dsr_Err d) (message_or_nil (default [] (dsr_ErrMsg d)))
    (resource_acls_received (dsr_Version d) <$> dsr_ResourceAcls d).
#[export] Instance DescribeAclsResponse_laws : protocolLaws checksum DescribeAclsResponse.
Proof.
  refine (body_laws _ (fun _ => DescribeAclsResponse_encode) (fun d => int_ok 16 (dsr_Version d) ∧ millis_ok (dsr_ThrottleTime d) ∧
    int_ok 16 (dsr_Err d) ∧ short (length (dsr_ResourceAcls d)) ∧ Forall resource_acls_valid (dsr_ResourceAcls d))
    describe_received _ _ _ _ _); [done|..].
  - by intros d [? _].
  - intros _ []. unfold DescribeAclsResponse_encode. autounfold with part. auto 20 with wire.
  - intros _ [v t e m l] _ (? & ? & ? & ? & ?). cbn in *. unfold DescribeAclsResponse_encode, DescribeAclsResponse_decode, describe_received.
    cbn [app dsr_ThrottleTime dsr_Version dsr_Err dsr_ErrMsg dsr_ResourceAcls]. do 2 wire_part.
    eapply wire_cons; [done|apply wire_default_string|]. cbv beta.
    eapply wire_last; [|apply wire_ret]. by apply (wire_changed resource_acls_valid); [apply wire_resource_acls|..].
  - done.
Defined.
End laws.
