(* ===== verification/KafkaProduce.v ===== *)
(** * [kafka/produce_request.go], [kafka/produce_response.go], [kafka/fetch_request.go],
    [kafka/fetch_response.go]: the messages that carry records

    A producer's records go to the broker by topic and partition, each under a length; a
    consumer's come back the same way, several batches one after the other under one length,
    the last of them possibly cut off. *)

From S2P Require Import Prelude GoStrings KafkaCodec KafkaProps KafkaDecoder KafkaDecoderProps KafkaWire.
From S2P Require Import KafkaRecord KafkaRecordProps KafkaMessage KafkaMessageProps KafkaPartitioner KafkaProtocol.

(** ** Calls of encoders that may panic *)

Fixpoint go_join (ms : list (Go (list item))) : Go (list item) :=
  match ms with
  | [] => Ret []
  | m :: ms => let* l := m in let* k := go_join ms in Ret (l ++ k)
  end.
(** [put_map] and [put_topics] for such encoders *)
Definition put_map_go `{Countable K} {V} (o : orders) (p : list nat) (m : gmap K V) (g : list nat → K * V → Go (list item)) :
    Go (list item) :=
  let* l := go_join (imap (fun i e => g (i :: p) e) (range_map o p m)) in
  Ret (Data (putArrayLength (Z.of_nat (size m))) :: l).
Definition put_topics_go {V} (o : orders) (p : list nat) (m : gmap bytes (gmap Z V)) (g : bytes → Z → V → Go (list item)) :
    Go (list item) :=
  put_map_go o p m (fun p t =>
    let* l := put_map_go o p t.2 (fun _ e => let* k := g t.1 e.1 e.2 in Ret (Data (putInt32 e.1) :: k)) in
    Ret (Data (putString t.1) :: l)).

(** [size := getInt32()], [getSubset(int(size))] and a decoder of its own on the bytes *)
Definition on_subset {A} (m : rd_get A) : rd_get A :=
  get* size := getInt32 in
  get* sub := getSubset size in
  fun rd => let* r := m sub in Ret (r.1, rd).

(** ** Producing *)

Definition NoResponse : Z := 0.
Definition WaitForLocal : Z := 1.
Definition WaitForAll : Z := -1.

(** [type ProduceRequest struct] *)
Record ProduceRequest := mk_ProduceRequest {
  TransactionalID : option bytes; RequiredAcks : Z; pr_Timeout : Z; pr_Version : Z;
  pr_records : gmap bytes (gmap Z Records_) }.

(** [type ProduceResponseBlock struct], [type ProduceResponse struct] *)
Record ProduceResponseBlock := mk_produced { prb_Err : Z; prb_Offset : Z; prb_Timestamp : Z }.
Record ProduceResponse := mk_ProduceResponse {
  prs_Blocks : gmap bytes (gmap Z ProduceResponseBlock); prs_Version : Z; prs_ThrottleTime : Z }.

(** [time.Unix(millis/1000, (millis%1000)*int64(time.Millisecond))], whatever the sign *)
Definition unix_millis (millis : Z) : Z := Z.quot millis 1000 * 1000000000 + Z.rem millis 1000 * Millisecond.
Definition ProduceResponseBlock_encode (version : Z) (b : ProduceResponseBlock) : list item :=
  [Data (putInt16 (prb_Err b)); Data (putInt64 (prb_Offset b))] ++
  (if 2 <=? version then Timestamp_items (prb_Timestamp b) else []).
Definition ProduceResponseBlock_decode (version : Z) : rd_get ProduceResponseBlock :=
  get* err := getInt16 in
  get* offset := getInt64 in
  get* t := if 2 <=? version
            then get* millis := getInt64 in rd_ret (if millis =? -1 then zero_time else unix_millis millis)
            else rd_ret zero_time in
  rd_ret (mk_produced err offset t).

Definition ProduceResponse_encode (o : orders) (r : ProduceResponse) : list item :=
  put_topics o [] (prs_Blocks r) (ProduceResponseBlock_encode (prs_Version r)) ++
  (if 1 <=? prs_Version r then [put_millis (prs_ThrottleTime r)] else []).
Definition ProduceResponse_decode (version : Z) : rd_get ProduceResponse :=
  get* blocks := get_topics (ProduceResponseBlock_decode version) in
  get* throttle := if 1 <=? version then get_millis else rd_ret 0 in
  rd_ret (mk_ProduceResponse blocks version throttle).
Definition produce_required (v : Z) : KafkaVersion :=
  if v =? 1 then V0_9_0_0 else if v =? 2 then V0_10_0_0 else if v =? 3 then V0_11_0_0 else MinVersion.
Definition ProduceResponse_body : protocolBody ProduceResponse := {|
  key _ := 0; version := prs_Version; requiredVersion r := produce_required (prs_Version r);
  body_metrics _ := Ret 0; body_encode o r := Ret (ProduceResponse_encode o r); body_decode := ProduceResponse_decode |}.
#[export] Existing Instance ProduceResponse_body.

Definition ProduceResponse_GetBlock (r : ProduceResponse) : bytes → Z → option ProduceResponseBlock := get_block (prs_Blocks r).
(** [now] is [time.Now()]. *)
Definition ProduceResponse_AddTopicPartition (now : Z) (topic : bytes) (partition err : Z) (r : ProduceResponse) : ProduceResponse :=
  let block := mk_produced err 0 (if 2 <=? prs_Version r then now else zero_time) in
  mk_ProduceResponse (add_block topic partition block (prs_Blocks r)) (prs_Version r) (prs_ThrottleTime r).

(** ** Fetching *)

(** [type fetchRequestBlock struct], [type FetchRequest struct] *)
Record fetchRequestBlock := mk_fetch { fetchOffset : Z; frq_maxBytes : Z }.
Definition fetchRequestBlock_encode (b : fetchRequestBlock) : list item :=
  [Data (putInt64 (fetchOffset b)); Data (putInt32 (frq_maxBytes b))].
Definition fetchRequestBlock_decode : rd_get fetchRequestBlock :=
  get* offset := getInt64 in get* max := getInt32 in rd_ret (mk_fetch offset max).
Record FetchRequest := mk_FetchRequest {
  MaxWaitTime : Z; MinBytes : Z; MaxBytes : Z; frq_Version : Z; Isolation : Z; frq_blocks : gmap bytes (gmap Z fetchRequestBlock) }.
Definition FetchRequest_encode (o : orders) (r : FetchRequest) : list item :=
  [Data (putInt32 (-1)); Data (putInt32 (MaxWaitTime r)); Data (putInt32 (MinBytes r))] ++
  (if 3 <=? frq_Version r then [Data (putInt32 (MaxBytes r))] else []) ++
  (if 4 <=? frq_Version r then [Data (putInt8 (Isolation r))] else []) ++
  put_topics o [] (frq_blocks r) fetchRequestBlock_encode.
Definition FetchRequest_decode (version : Z) : rd_get FetchRequest :=
  get* _ := getInt32 in
  get* wait := getInt32 in
  get* min := getInt32 in
  get* max := if 3 <=? version then getInt32 else rd_ret 0 in
  get* isolation := if 4 <=? version then getInt8 else rd_ret 0 in
  get* blocks := get_topics fetchRequestBlock_decode in
  rd_ret (mk_FetchRequest wait min max version isolation blocks).
Definition fetching_required (v : Z) : KafkaVersion :=
  if v =? 1 then V0_9_0_0 else if v =? 2 then V0_10_0_0 else if v =? 3 then V0_10_1_0
  else if v =? 4 then V0_11_0_0 else MinVersion.
Definition FetchRequest_body : protocolBody FetchRequest := {|
  key _ := 1; version := frq_Version; requiredVersion r := fetching_required (frq_Version r);
  body_metrics _ := Ret 0; body_encode o r := Ret (FetchRequest_encode o r); body_decode := FetchRequest_decode |}.
#[export] Existing Instance FetchRequest_body.
Definition FetchRequest_AddBlock (topic : bytes) (partitionID fetchOffset maxBytes : Z) (r : FetchRequest) : FetchRequest :=
  mk_FetchRequest (MaxWaitTime r) (MinBytes r) (MaxBytes r) (frq_Version r) (Isolation r)
    (add_block topic partitionID (mk_fetch fetchOffset maxBytes) (frq_blocks r)).

(** [type AbortedTransaction struct] *)
Record AbortedTransaction := mk_aborted { at_ProducerID : Z; at_FirstOffset : Z }.
Definition AbortedTransaction_encode (t : AbortedTransaction) : list item :=
  [Data (putInt64 (at_ProducerID t)); Data (putInt64 (at_FirstOffset t))].
Definition AbortedTransaction_decode : rd_get AbortedTransaction :=
  get* id := getInt64 in get* first := getInt64 in rd_ret (mk_aborted id first).

(** [type FetchResponseBlock struct]; the deprecated field [Records] is the first element of
    [RecordsSet] after decoding, and the encoder does not read it. *)
Record FetchResponseBlock := mk_FetchResponseBlock {
  frb_Err : Z; HighWaterMarkOffset : Z; LastStableOffset : Z; AbortedTransactions : list AbortedTransaction;
  RecordsSet : list Records_; Partial : bool }.
Definition frb_Records (b : FetchResponseBlock) : option Records_ := head (RecordsSet b).
(** [type FetchResponse struct] *)
Record FetchResponse := mk_FetchResponse {
  frs_Blocks : gmap bytes (gmap Z FetchResponseBlock); frs_ThrottleTime : Z; frs_Version : Z;
  frs_LogAppendTime : bool; frs_Timestamp : Z }.

(** [func (b *FetchResponseBlock) numRecords() (int, error)] *)
Definition block_numRecords (b : FetchResponseBlock) : Z + packet_error :=
  foldl (fun sum r => match sum, numRecords r with
                      | inl n, inl c => inl (n + c)
                      | inr e, _ => inr e
                      | _, inr e => inr e
                      end) (inl 0) (RecordsSet b).
(** [func (b *FetchResponseBlock) isPartial() (bool, error)] *)
Definition block_isPartial (b : FetchResponseBlock) : bool + packet_error :=
  if Partial b then inl true else match RecordsSet b with [r] => isPartial r | _ => inl false end.

Section records.
Context (checksum : crcPolynomial → bytes → Z).
Context (compressor : Z → Z → bytes → option bytes) (decompressor : Z → bytes → option bytes).
(** What the varint lengths of the records held before, by topic, partition and position in the
    block; how many message sets inside each other the stack has room for *)
Context (h : bytes → Z → nat → fields) (depth : nat).

(** [func updateMsgSetMetrics(msgSet *MessageSet, ...) int64] and [func updateBatchMetrics(
    recordBatch *RecordBatch, ...) int64]: the number of records, and a panic for records of the
    other format, whose pointer is nil.  The values of the histograms are not kept. *)
Definition updateMsgSetMetrics (msgSet : option MessageSet) : Go Z :=
  match msgSet with
  | None => Panic NilDereference
  | Some s => Ret (fold_right (fun b n => len (block_Messages b) + n) 0 (Messages s))
  end.
Definition updateBatchMetrics (recordBatch : option RecordBatch) : Go Z :=
  match recordBatch with None => Panic NilDereference | Some b => Ret (len (Records b)) end.
(** The metrics of [encode], which only the writing pass has a registry for: the records counted
    per partition and summed up *)
Definition records_counted (version : Z) (records : Records_) : Go Z :=
  if 3 <=? version then updateBatchMetrics (Batch records) else updateMsgSetMetrics (MsgSet records).
Fixpoint counted (version : Z) (l : list Records_) : Go Z :=
  match l with
  | [] => Ret 0
  | r :: l' => let* n := records_counted version r in let* m := counted version l' in Ret (n + m)
  end.
Definition ProduceRequest_metrics (r : ProduceRequest) : Go Z :=
  counted (pr_Version r) (map_to_list (pr_records r) ≫= fun t => snd <$> map_to_list t.2).

(** [func (r *ProduceRequest) encode(pe packetEncoder) error], the metrics apart *)
Definition ProduceRequest_encode (o : orders) (r : ProduceRequest) : Go (list item) :=
  let* topics := put_topics_go o [] (pr_records r) (fun topic id records =>
    let* l := Records_items checksum compressor (h topic id 0%nat) records in Ret [Field lengthField l]) in
  Ret ((if 3 <=? pr_Version r then [Data (putNullableString (TransactionalID r))] else []) ++
       [Data (putInt16 (RequiredAcks r)); Data (putInt32 (pr_Timeout r))] ++ topics).
(** [func (r *ProduceRequest) decode(pd packetDecoder, version int16) error] *)
Definition ProduceRequest_decode (version : Z) : rd_get ProduceRequest :=
  get* id := if 3 <=? version then getNullableString else rd_ret None in
  get* acks := getInt16 in
  get* timeout := getInt32 in
  get* records := get_topics (on_subset (Records_decode checksum decompressor depth)) in
  rd_ret (mk_ProduceRequest id acks timeout version records).
Definition ProduceRequest_body : protocolBody ProduceRequest := {|
  key _ := 0; version := pr_Version; requiredVersion r := produce_required (pr_Version r);
  body_metrics := ProduceRequest_metrics; body_encode := ProduceRequest_encode; body_decode := ProduceRequest_decode |}.

(** [func (b *FetchResponseBlock) encode(pe packetEncoder, version int16) (err error)] *)
Definition FetchResponseBlock_encode (topic : bytes) (id version : Z) (b : FetchResponseBlock) : Go (list item) :=
  let* sets := go_join (imap (fun i r => Records_items checksum compressor (h topic id i) r) (RecordsSet b)) in
  Ret ([Data (putInt16 (frb_Err b)); Data (putInt64 (HighWaterMarkOffset b))] ++
       (if 4 <=? version
        then Data (putInt64 (LastStableOffset b)) :: put_array (AbortedTransactions b) AbortedTransaction_encode
        else []) ++
       [Field lengthField sets]).

(** The records of a block, a set or a batch per unit of fuel; [sets] are the records so far.
    The result is [RecordsSet] and [Partial]. *)
Fixpoint records_loop (fuel : nat) (sets : list Records_) : rd_get (list Records_ * bool) := fun rd =>
  if negb (0 <? remaining rd) then Ret (inl (sets, false), rd)
  else match fuel with
  | O => Panic ExplicitPanic
  | S fuel =>
      let* r := Records_decode checksum decompressor depth rd in
      match r with
      | (inr ErrInsufficientData, rd) => Ret (inl (sets, match sets with [] => true | _ => false end), rd)
      | (inr e, rd) => Ret (inr e, rd)
      | (inl records, rd) =>
          match isPartial records, numRecords records, isOverflow records with
          | inr e, _, _ | _, inr e, _ | _, _, inr e => Ret (inr (RecordsInvalid e), rd)
          | inl partial, inl n, inl overflow =>
              let sets := if (0 <? n) || (partial && (len sets =? 0)) then sets ++ [records] else sets in
              if partial || overflow then Ret (inl (sets, false), rd) else records_loop fuel sets rd
          end
      end
  end.
(** One more iteration than bytes *)
Definition records_decode : rd_get (list Records_ * bool) := fun rd => records_loop (S (Z.to_nat (remaining rd))) [] rd.

(** [func (b *FetchResponseBlock) decode(pd packetDecoder, version int16) (err error)] *)
Definition FetchResponseBlock_decode (version : Z) : rd_get FetchResponseBlock :=
  get* err := getInt16 in
  get* highWaterMark := getInt64 in
  get* (lastStable, aborted) := if 4 <=? version
    then get* last := getInt64 in get* l := get_list AbortedTransaction_decode in rd_ret (last, l)
    else rd_ret (0, []) in
  get* (sets, partial) := on_subset records_decode in
  rd_ret (mk_FetchResponseBlock err highWaterMark lastStable aborted sets partial).

(** [func (r *FetchResponse) encode(pe packetEncoder) (err error)] *)
Definition FetchResponse_encode (o : orders) (r : FetchResponse) : Go (list item) :=
  let* topics := put_topics_go o [] (frs_Blocks r) (fun topic id b => FetchResponseBlock_encode topic id (frs_Version r) b) in
  Ret ((if 1 <=? frs_Version r then [put_millis (frs_ThrottleTime r)] else []) ++ topics).
(** [func (r *FetchResponse) decode(pd packetDecoder, version int16) (err error)] *)
Definition FetchResponse_decode (version : Z) : rd_get FetchResponse :=
  get* throttle := if 1 <=? version then get_millis else rd_ret 0 in
  get* blocks := get_topics (FetchResponseBlock_decode version) in
  rd_ret (mk_FetchResponse blocks throttle version false zero_time).
Definition FetchResponse_body : protocolBody FetchResponse := {|
  key _ := 1; version := frs_Version; requiredVersion r := fetching_required (frs_Version r);
  body_metrics _ := Ret 0; body_encode := FetchResponse_encode; body_decode := FetchResponse_decode |}.
End records.

(** ** Filling requests and responses *)

(** [ensureRecords] and the assignment behind it; [AddMessage], [AddSet], [AddBatch] *)
Definition set_records (topic : bytes) (partition : Z) (records : Records_) (r : ProduceRequest) : ProduceRequest :=
  mk_ProduceRequest (TransactionalID r) (RequiredAcks r) (pr_Timeout r) (pr_Version r) (add_block topic partition records (pr_records r)).
Definition AddMessage (topic : bytes) (partition : Z) (msg : Message) (r : ProduceRequest) : ProduceRequest :=
  let records := get_block (pr_records r) topic partition in
  match records ≫= MsgSet with
  | None => set_records topic partition (newLegacyRecords (addMessage msg (mk_set false false []))) r
  | Some set =>
      let old := default (newLegacyRecords set) records in
      set_records topic partition (mk_Records (recordsType old) (Some (addMessage msg set)) (Batch old)) r
  end.
Definition AddSet (topic : bytes) (partition : Z) (set : MessageSet) : ProduceRequest → ProduceRequest :=
  set_records topic partition (newLegacyRecords set).
Definition AddBatch (topic : bytes) (partition : Z) (batch : RecordBatch) : ProduceRequest → ProduceRequest :=
  set_records topic partition (newDefaultRecords batch).

(** [func (r *FetchResponse) getOrCreateBlock(topic string, partition int32) *FetchResponseBlock]
    and what is then done to the block *)
Definition with_block (topic : bytes) (partition : Z) (f : FetchResponseBlock → Go FetchResponseBlock) (r : FetchResponse) : Go FetchResponse :=
  let* b := f (default (mk_FetchResponseBlock 0 0 0 [] [] false) (get_block (frs_Blocks r) topic partition)) in
  Ret (mk_FetchResponse (add_block topic partition b (frs_Blocks r)) (frs_ThrottleTime r) (frs_Version r) (frs_LogAppendTime r) (frs_Timestamp r)).
Definition set_sets (l : list Records_) (b : FetchResponseBlock) : FetchResponseBlock :=
  mk_FetchResponseBlock (frb_Err b) (HighWaterMarkOffset b) (LastStableOffset b) (AbortedTransactions b) l (Partial b).
Definition AddError (topic : bytes) (partition err : Z) : FetchResponse → Go FetchResponse :=
  with_block topic partition (fun b =>
    Ret (mk_FetchResponseBlock err (HighWaterMarkOffset b) (LastStableOffset b) (AbortedTransactions b) (RecordsSet b) (Partial b))).
Definition SetLastStableOffset (topic : bytes) (partition offset : Z) : FetchResponse → Go FetchResponse :=
  with_block topic partition (fun b =>
    Ret (mk_FetchResponseBlock (frb_Err b) (HighWaterMarkOffset b) offset (AbortedTransactions b) (RecordsSet b) (Partial b))).
(** [func encodeKV(key, value Encoder) ([]byte, []byte)]; an encoder that fails returns no bytes. *)
Definition encoded (e : option Encoder) : option bytes := match e with Some (Encoded b) => Some b | _ => None end.
Definition encodeKV (key value : option Encoder) : option bytes * option bytes := (encoded key, encoded value).

(** The first records of a block, [fresh] ones when there are none, changed in place *)
Definition first_records (fresh : Records_) (f : Records_ → Go Records_) (b : FetchResponseBlock) : Go FetchResponseBlock :=
  match RecordsSet b with
  | [] => let* r := f fresh in Ret (set_sets [r] b)
  | r :: l => let* r := f r in Ret (set_sets (r :: l) b)
  end.
Definition on_batch (f : RecordBatch → RecordBatch) (r : Records_) : Go Records_ :=
  match Batch r with
  | None => Panic NilDereference
  | Some b => Ret (mk_Records (recordsType r) (MsgSet r) (Some (f b)))
  end.
Definition AddMessageWithTimestamp (topic : bytes) (partition : Z) (key value : option Encoder) (offset timestamp version : Z)
    (r : FetchResponse) : Go FetchResponse :=
  let (kb, vb) := encodeKV key value in
  let timestamp := if frs_LogAppendTime r then frs_Timestamp r else timestamp in
  let msg := mk_message 0 0 (frs_LogAppendTime r) kb vb None version timestamp in
  with_block topic partition (first_records (newLegacyRecords (mk_set false false [])) (fun records =>
    match MsgSet records with
    | None => Panic NilDereference
    | Some set => Ret (mk_Records (recordsType records)
        (Some (mk_set (PartialTrailingMessage set) (OverflowMessage set) (Messages set ++ [mk_block offset msg]))) (Batch records))
    end)) r.
(** A batch of version 2 *)
Definition new_batch (logAppend : bool) (first max firstOffset producerID : Z) (transactional control : bool) : RecordBatch :=
  mk_batch firstOffset 0 2 0 0 control logAppend 0 first max producerID 0 0 [] false transactional None.
(** [Time.Sub] saturates. *)
Definition time_Sub (t u : Z) : Z := Z.max (- 2 ^ 63) (Z.min (2 ^ 63 - 1) (t - u)).
Definition AddRecordWithTimestamp (topic : bytes) (partition : Z) (key value : option Encoder) (offset timestamp : Z)
    (r : FetchResponse) : Go FetchResponse :=
  let (kb, vb) := encodeKV key value in
  with_block topic partition (first_records
    (newDefaultRecords (new_batch (frs_LogAppendTime r) timestamp (frs_Timestamp r) 0 0 false false))
    (on_batch (fun batch => addRecord (mk_record [] 0 (time_Sub timestamp (FirstTimestamp batch)) offset kb vb) batch))) r.
Definition append_records (records : Records_) (b : FetchResponseBlock) : Go FetchResponseBlock :=
  Ret (set_sets (RecordsSet b ++ [records]) b).
Definition AddRecordBatchWithTimestamp (topic : bytes) (partition : Z) (key value : option Encoder) (offset producerID : Z)
    (isTransactional : bool) (timestamp : Z) (r : FetchResponse) : Go FetchResponse :=
  let (kb, vb) := encodeKV key value in
  let batch := new_batch (frs_LogAppendTime r) timestamp (frs_Timestamp r) offset producerID isTransactional false in
  with_block topic partition (append_records (newDefaultRecords (addRecord (mk_record [] 0 0 0 kb vb) batch))) r.
Definition SetLastOffsetDelta (topic : bytes) (partition offset : Z) : FetchResponse → Go FetchResponse :=
  with_block topic partition (first_records (newDefaultRecords (new_batch false zero_time zero_time 0 0 false false))
    (on_batch (fun b => mk_batch (FirstOffset b) (PartitionLeaderEpoch b) (Version b) (Codec b) (CompressionLevel b)
      (Control b) (LogAppendTime b) offset (FirstTimestamp b) (MaxTimestamp b) (ProducerID b) (ProducerEpoch b)
      (FirstSequence b) (Records b) (PartialTrailingRecord b) (IsTransactional b) (compressedRecords b)))).

(** [kafka/control_record.go]: [type ControlRecord struct], [encode], [decode] *)
Inductive ControlRecordType := ControlRecordAbort | ControlRecordCommit | ControlRecordUnknown.
Record ControlRecord := mk_control { cr_Version : Z; CoordinatorEpoch : Z; cr_Type : ControlRecordType }.
(** The calls on [key] and those on [value]; an unknown type leaves the key short. *)
Definition ControlRecord_encode (cr : ControlRecord) : list put * list put :=
  (putInt16 (cr_Version cr) :: match cr_Type cr with
                               | ControlRecordAbort => [putInt16 0]
                               | ControlRecordCommit => [putInt16 1]
                               | ControlRecordUnknown => []
                               end,
   [putInt16 (cr_Version cr); putInt32 (CoordinatorEpoch cr)]).
Definition ControlRecord_decode (key value : bytes) : Go (ControlRecord + decode_error) :=
  let* v := (get* _ := getInt16 in getInt32) (mk_rd value 0 []) in
  match v.1 with
  | inr e => Ret (inr e)
  | inl epoch =>
      let* k := (get* version := getInt16 in get* type := getInt16 in rd_ret (version, type)) (mk_rd key 0 []) in
      match k.1 with
      | inr e => Ret (inr e)
      | inl (version, type) =>
          Ret (inl (mk_control version epoch
            (if type =? 0 then ControlRecordAbort else if type =? 1 then ControlRecordCommit else ControlRecordUnknown)))
      end
  end.
(** [func (r *Records) getControlRecord() (ControlRecord, error)] *)
Definition getControlRecord (r : Records_) : Go (ControlRecord + decode_error) :=
  match Batch r with
  | Some b => match Records b with
              | [] => Ret (inr ControlBatchEmpty)
              | record :: _ => ControlRecord_decode (default [] (r_Key record)) (default [] (r_Value record))
              end
  | None => Ret (inr ControlBatchEmpty)
  end.
(** [AddControlRecordWithTimestamp]: the key and the value are written into slices of 4 and 6
    bytes. *)
Definition AddControlRecordWithTimestamp (checksum : crcPolynomial → bytes → Z) (topic : bytes) (partition offset producerID : Z)
    (recordType : ControlRecordType) (timestamp : Z) (r : FetchResponse) : Go FetchResponse :=
  let (key, value) := ControlRecord_encode (mk_control 0 0 recordType) in
  let* k := real_run checksum ∅ key (mk_real (replicate 4 0) 0 []) in
  let* v := real_run checksum ∅ value (mk_real (replicate 6 0) 0 []) in
  let written (x : realEncoder + packet_error) := match x with inl re => Some (raw re) | inr _ => None end in
  let batch := new_batch (frs_LogAppendTime r) timestamp (frs_Timestamp r) offset producerID true true in
  with_block topic partition (append_records (newDefaultRecords (addRecord (mk_record [] 0 0 0 (written k) (written v)) batch))) r.

(** A control record is read back, whatever the record types the client knows. *)
Lemma control_record_back checksum cr : int_ok 16 (cr_Version cr) → int_ok 32 (CoordinatorEpoch cr) → cr_Type cr ≠ ControlRecordUnknown →
  let (key, value) := ControlRecord_encode cr in
  ControlRecord_decode ((Data <$> key) ≫= render checksum) ((Data <$> value) ≫= render checksum) = Ret (inl cr).
Proof.
  intros Hv He Ht. destruct cr as [v e t]. cbn [cr_Version CoordinatorEpoch cr_Type] in *.
  set (type := match t with ControlRecordAbort => 0 | _ => 1 end).
  unfold ControlRecord_encode. cbn [cr_Version CoordinatorEpoch cr_Type].
  replace (putInt16 v :: match t with ControlRecordAbort => [putInt16 0] | ControlRecordCommit => [putInt16 1] | _ => [] end)
    with [putInt16 v; putInt16 type] by (by destruct t).
  cbn [fmap list_fmap]. rewrite !bind_cons. change ([] ≫= render checksum) with (@nil Z). rewrite !app_nil_r.
  cbn [render data_bytes]. unfold ControlRecord_decode.
  assert (∀ n, int_ok 16 n → swrap 16 n = n) by (intros; by apply int_ok_swrap).
  pose proof (reads_bind 0 getInt16 (fun _ => getInt32) (be_bytes 2 v) (be_bytes 4 e) v e
    ltac:(apply reads_int; [lia|auto]) ltac:(apply reads_int; [lia|by apply int_ok_swrap]) [] [] [] eq_refl) as E1.
  rewrite app_nil_r, app_nil_l in E1. change (len (@nil Z)) with 0 in E1. rewrite E1. cbn [gbind fst].
  pose proof (reads_bind 0 getInt16 (fun version => get* type := getInt16 in rd_ret (version, type)) (be_bytes 2 v) (be_bytes 2 type)
    v (v, type) ltac:(apply reads_int; [lia|auto]) ltac:(apply reads_map, reads_int; [lia|by destruct t]) [] [] [] eq_refl) as E2.
  rewrite app_nil_r, app_nil_l in E2. change (len (@nil Z)) with 0 in E2. rewrite E2. cbn [gbind fst]. by destruct t.
Qed.

(** ** Laws of bodies with records *)

Section laws.
Context (checksum : crcPolynomial → bytes → Z).
Abbreviation bytes_of l := (l ≫= render checksum).

(** Encoders that return *)
Lemma go_join_ret (ls : list (list item)) : go_join (Ret <$> ls) = Ret (mjoin ls).
Proof. induction ls as [|l ls IH]; [done|]. cbn [fmap list_fmap go_join gbind]. by rewrite IH. Qed.
Lemma go_join_imap {A} (l : list A) (g : nat → A → Go (list item)) f :
  (∀ i x, l !! i = Some x → g i x = Ret (f i x)) → go_join (imap g l) = Ret (mjoin (imap f l)).
Proof.
  intros Hg. rewrite <- go_join_ret, fmap_imap. f_equal. by apply imap_ext.
Qed.
Lemma put_map_go_ret `{Countable K} {V} (o : orders) p (m : gmap K V) g f :
  fair o → (∀ p k v, m !! k = Some v → g p (k, v) = Ret (f p (k, v))) → put_map_go o p m g = Ret (put_map o p m f).
Proof.
  intros Ho Hg. unfold put_map_go, put_map. rewrite (go_join_imap _ _ (fun i e => f (i :: p) e)); [done|].
  intros i [k v] Hi. apply Hg. apply elem_of_map_to_list. unfold range_map in Hi. rewrite <- (Ho p). by eapply list_elem_of_lookup_2.
Qed.
Lemma put_topics_go_ret {V} (o : orders) (p : list nat) (m : gmap bytes (gmap Z V)) (g : bytes → Z → V → Go (list item)) (f : V → list item) :
  fair o → (∀ t ps k v, m !! t = Some ps → ps !! k = Some v → g t k v = Ret (f v)) →
  put_topics_go o p m g = Ret (put_topics o p m f).
Proof.
  intros Ho Hg. unfold put_topics_go, put_topics.
  apply (put_map_go_ret _ _ _ _ (fun p e => Data (putString e.1) :: put_map o p e.2 (fun _ e => Data (putInt32 e.1) :: f e.2)));
    [done|]. intros q t ps Ht. cbn [fst snd].
  rewrite (put_map_go_ret _ _ _ _ (fun _ e => Data (putInt32 e.1) :: f e.2)); [done|done|].
  intros q' k v Hk. cbn [fst snd]. by rewrite (Hg t ps).
Qed.

(** Bytes under a length, read by a decoder of their own *)
Lemma wire_subset {A} l (m : rd_get A) v :
  (items_error l = None → len (bytes_of l) < 2 ^ 31 → ∃ rd, m (mk_rd (bytes_of l) 0 []) = Ret (inl v, rd)) →
  wire checksum [Field lengthField l] (on_subset m) v.
Proof.
  intros Hm He r Hr Hlen. cbn [items_error] in He. rewrite item_error_Field in He. destruct (items_error l); [done|].
  rewrite bind_cons in *. cbn [render field_of] in *. rewrite <- app_assoc in *. change ([] ≫= render checksum) with (@nil Z) in *.
  set (B := bytes_of l) in *. rewrite len_app, len_be_bytes in Hlen. rewrite app_nil_r in *. pose proof (len_nonneg B).
  destruct (Hm eq_refl ltac:(lia)) as [rd E]. unfold on_subset.
  apply reads_bind with (len B); [apply reads_int; [lia|apply int_ok_swrap; [done|]; unfold int_ok; simpl in *; lia]|].
  rewrite <- (app_nil_r B) at 2. apply reads_bind with (mk_rd B 0 []); [apply (reads_map _ _ (fun buf => mk_rd buf 0 [])); apply reads_raw|].
  intros pre post st _. rewrite E. cbn [gbind fst app]. by rewrite Z.add_0_r.
Qed.

(** *** Records *)

Hypothesis checksum_uint32 : ∀ p b, uint_ok 32 (checksum p b).
Context (compressor : Z → Z → bytes → option bytes) (decompressor : Z → bytes → option bytes).
Hypothesis decompress_compress : ∀ cc level raw p, compressor cc level raw = Some p → decompressor cc p = Some raw.
Context (h : bytes → Z → nat → fields) (depth : nat).

(** Records that can be sent: a message set with a message, or a batch whose records can be
    compressed *)
Inductive records_valid : Records_ → Prop :=
| valid_set s : set_ok checksum compressor depth s → Messages s ≠ [] → records_valid (newLegacyRecords s)
| valid_batch b p :
    batch_ok b → encodeRecords checksum compressor ∅ b = Ret (inl p) → len (Records b) ≤ len p →
    records_valid (newDefaultRecords b).
Definition records_items (r : Records_) : list item :=
  match Records_items checksum compressor ∅ r with Ret l => l | Panic _ => [] end.
(** What is read of them *)
Definition records_sent (r : Records_) : Records_ := mk_Records (recordsType r) (set_sent <$> MsgSet r) (sent <$> Batch r).

Lemma encodeRecords_fields f f' b : encodeRecords checksum compressor f b = encodeRecords checksum compressor f' b.
Proof. unfold encodeRecords. by rewrite !(encode_shape checksum _ _ (records_ok _)). Qed.
Lemma batch_records_items f b p : batch_ok b → encodeRecords checksum compressor ∅ b = Ret (inl p) →
  Records_items checksum compressor f (newDefaultRecords b) = Ret (batch_items b p).
Proof. intros Hb Hp. cbn. apply RecordBatch_items_eq; [done|]. by rewrite (encodeRecords_fields f ∅). Qed.
Lemma records_items_ret f r : records_valid r → Records_items checksum compressor f r = Ret (records_items r).
Proof. intros []; [done|]. unfold records_items. by rewrite !(batch_records_items _ b p). Qed.

Lemma plain_crc p body l : plain body → plain l → plain (Field (crc32Field p) body :: l).
Proof. intros Hb Hl. apply Forall_cons_2; [|done]. split; [by apply plain_items_ok|by apply plain_refs]. Qed.
Lemma plain_time t : plain (Timestamp_items t).
Proof. unfold Timestamp_items. auto with wire. Qed.
Lemma plain_payload m l : plain l → plain (Data (message_payload compressor m) :: l).
Proof. apply plain_data. unfold message_payload. by repeat case_match. Qed.
Lemma plain_bind {A} (g : A → list item) l : (∀ x, plain (g x)) → plain (l ≫= g).
Proof. intros Hg. rewrite bind_join. apply plain_join, Forall_fmap, Forall_true, Hg. Qed.
#[local] Hint Resolve plain_crc plain_time plain_payload : wire.
Lemma records_plain r : plain (records_items r).
Proof.
  assert (∀ s, plain (MessageSet_items compressor s)) as Hs.
  { intros s. apply plain_bind. intros x. unfold MessageBlock_items, Message_items. auto 10 with wire. }
  assert (∀ b, plain (match RecordBatch_items checksum compressor ∅ b with Ret l => l | Panic _ => [] end)) as Hb.
  { intros b. unfold RecordBatch_items. destruct (negb _); [auto with wire|]. destruct (match compressedRecords b with Some _ => _ | _ => _ end) as [[]|];
      cbn [gbind]; auto 20 with wire. }
  destruct r as [[] [s|] [b|]]; unfold records_items, Records_items; cbn -[RecordBatch_items MessageSet_items]; auto with wire.
Qed.

(** *** Reading records back *)

Lemma magic_batch b p pre post st : batch_ok b →
  magicValue (mk_rd (pre ++ bytes_of (batch_items b p) ++ post) (len pre) st)
  = Ret (inl 2, mk_rd (pre ++ bytes_of (batch_items b p) ++ post) (len pre) st).
Proof using checksum_uint32.
  intros Hb. rewrite batch_bytes by done. set (body := bytes_of (batch_body b) ++ p). pose proof (ok_Version _ Hb) as Hv.
  unfold start_items. rewrite !bind_cons. cbn [render data_bytes]. rewrite Hv. change ([] ≫= render checksum) with (@nil Z).
  unfold magicValue, peekInt8, magicOffset, remaining. cbn [rd_raw rd_off].
  pose proof (len_nonneg post). pose proof (len_nonneg body).
  rewrite (proj2 (Z.ltb_ge _ _)) by (cbn [field_of]; rewrite !len_app, !len_be_bytes; change (len [2 mod 256]) with 1; change (len (@nil Z)) with 0; lia).
  set (front := be_bytes 8 (FirstOffset b) ++ be_bytes 4 (len p + recordBatchOverhead) ++ be_bytes 4 (PartitionLeaderEpoch b)).
  replace (len pre + 16) with (len (pre ++ front)) by (unfold front; rewrite !len_app, !len_be_bytes; lia).
  rewrite <- !app_assoc, (app_assoc (be_bytes 4 (len p + _))), (app_assoc (be_bytes 8 _)). fold front. rewrite (app_assoc pre).
  change ([2 mod 256] ++ ?k) with (2 :: k). by rewrite go_index_mid.
Qed.
Lemma batch_ends b p post : batch_ok b → ends (bytes_of (batch_items b p) ++ post).
Proof using checksum_uint32. intros Hb. right. intros pre st. exists 2. split; [done|]. by apply magic_batch. Qed.

Lemma wire_records_batch b p :
  batch_ok b → encodeRecords checksum compressor ∅ b = Ret (inl p) → len (Records b) ≤ len p →
  wire checksum (batch_items b p) (Records_decode checksum decompressor depth) (records_sent (newDefaultRecords b)).
Proof using checksum_uint32 decompress_compress.
  intros Hb Hp Hd He r Hr Hlen pre post st Hpost. unfold Records_decode, rd_bind at 1. rewrite magic_batch by done. cbn [gbind].
  change (2 <? 2) with false. cbv iota.
  by rewrite (wire_map checksum 0 _ _ newDefaultRecords (sent b) (wire_batch checksum checksum_uint32 _ _ decompress_compress ∅ b p Hb Hp Hd) He r Hr Hlen pre post st Hpost).
Qed.

Lemma set_version s : set_ok checksum compressor depth s → ∀ b l, Messages s = b :: l → m_Version (mb_Msg b) = 0 ∨ m_Version (mb_Msg b) = 1.
Proof.
  intros (_ & _ & Hb)%set_ok_inner b l E. rewrite E in Hb. apply Forall_cons in Hb as [(_ & Hv & _) _]. naive_solver.
Qed.
Lemma records_set_back s pre post st :
  set_ok checksum compressor depth s → Messages s ≠ [] → ends post →
  items_error (MessageSet_items compressor s) = None → len (bytes_of (MessageSet_items compressor s)) + len post < 2 ^ 31 →
  Records_decode checksum decompressor depth (mk_rd (pre ++ bytes_of (MessageSet_items compressor s) ++ post) (len pre) st)
  = Ret (inl (records_sent (newLegacyRecords s)), mk_rd (pre ++ bytes_of (MessageSet_items compressor s) ++ post)
      (len (pre ++ bytes_of (MessageSet_items compressor s))) st).
Proof using checksum_uint32 decompress_compress.
  intros Hs Hne Hpost He Hl. unfold Records_decode, rd_bind at 1.
  assert (∃ m, m < 2 ∧ magicValue (mk_rd (pre ++ bytes_of (MessageSet_items compressor s) ++ post) (len pre) st)
    = Ret (inl m, mk_rd (pre ++ bytes_of (MessageSet_items compressor s) ++ post) (len pre) st)) as (m & Hm & ->).
  { destruct (Messages s) as [|b l] eqn:E; [done|]. pose proof (set_version s Hs b l E) as Hv. unfold MessageSet_items.
    exists (m_Version (mb_Msg b)). split; [lia|]. rewrite E, bind_cons, bind_app, <- app_assoc. by apply magic_at. }
  cbn [gbind]. rewrite (proj2 (Z.ltb_lt _ _) Hm). unfold rd_bind. by rewrite set_back.
Qed.

(** The records of a partition in a request *)
Lemma wire_partition_records r : records_valid r →
  wire checksum [Field lengthField (records_items r)] (on_subset (Records_decode checksum decompressor depth)) (records_sent r).
Proof using checksum_uint32 decompress_compress.
  intros Hr. apply wire_subset. intros He Hl. destruct Hr as [s Hs Hne|b p Hb Hp Hd].
  - pose proof (records_set_back s [] [] [] Hs Hne (or_introl eq_refl) He) as E. rewrite app_nil_r, Z.add_0_r in E.
    eexists. apply E. done.
  - unfold records_items in *. rewrite (batch_records_items _ b p) in * by done.
    pose proof (wire_records_batch b p Hb Hp Hd He 0 ltac:(lia) ltac:(lia) [] [] [] eq_refl) as E.
    rewrite app_nil_r in E. eexists. exact E.
Qed.

(** *** The records of a fetched block *)

(** Batches with records, after a message set or not: what a log holds that was written by old
    and then by new producers *)
Inductive batch_valid : Records_ → Prop :=
| valid_records b p :
    batch_ok b → Records b ≠ [] → encodeRecords checksum compressor ∅ b = Ret (inl p) → len (Records b) ≤ len p →
    batch_valid (newDefaultRecords b).
Inductive sets_valid : list Records_ → Prop :=
| valid_batches bs : Forall batch_valid bs → sets_valid bs
| valid_mixed s bs :
    set_ok checksum compressor depth s → Messages s ≠ [] → Forall batch_valid bs → sets_valid (newLegacyRecords s :: bs).
Abbreviation loop := (records_loop checksum decompressor depth).
Abbreviation sets_items l := (l ≫= records_items).

Lemma len_positive {A} (l : list A) : l ≠ [] → (0 <? len l) = true.
Proof. destruct l as [|x l]; [done|]. intros _. rewrite len_cons. pose proof (len_nonneg l). apply Z.ltb_lt. lia. Qed.
Lemma batch_state b : batch_ok b →
  isPartial (records_sent (newDefaultRecords b)) = inl false ∧
  numRecords (records_sent (newDefaultRecords b)) = inl (len (Records b)) ∧
  isOverflow (records_sent (newDefaultRecords b)) = inl false.
Proof. intros Hb. destruct (ok_fresh _ Hb) as [_ Hf]. cbn. by rewrite Hf. Qed.
Lemma set_state s : set_ok checksum compressor depth s →
  isPartial (records_sent (newLegacyRecords s)) = inl false ∧
  numRecords (records_sent (newLegacyRecords s)) = inl (len (Messages s)) ∧
  isOverflow (records_sent (newLegacyRecords s)) = inl false.
Proof. intros (Hp & Ho & _)%set_ok_inner. cbn. unfold len. by rewrite Hp, Ho, length_fmap. Qed.
Lemma loop_batch r fuel sets pre post st :
  batch_valid r → items_error (records_items r) = None → len (bytes_of (records_items r)) + len post < 2 ^ 31 →
  loop (S fuel) sets (mk_rd (pre ++ bytes_of (records_items r) ++ post) (len pre) st)
  = loop fuel (sets ++ [records_sent r])
      (mk_rd ((pre ++ bytes_of (records_items r)) ++ post) (len (pre ++ bytes_of (records_items r))) st).
Proof using checksum_uint32 decompress_compress.
  intros [b p Hb Hne Hp Hd] He Hl. unfold records_items in *. rewrite (batch_records_items _ b p) in * by done.
  pose proof (wire_records_batch b p Hb Hp Hd He (len post) (len_nonneg post) Hl pre post st eq_refl) as E.
  cbn [records_loop]. unfold remaining at 1. cbn [rd_raw rd_off].
  rewrite (proj2 (Z.ltb_lt _ _)) by (rewrite batch_bytes by done; rewrite !len_app, len_start; cbn [field_of];
    rewrite len_be_bytes; pose proof (len_nonneg post); pose proof (len_nonneg p); pose proof (len_nonneg (bytes_of (batch_body b))); lia).
  destruct (batch_state b Hb) as (S1 & S2 & S3). cbn [negb]. rewrite E. cbn [gbind]. rewrite S1, S2, S3, len_positive by done.
  cbn [orb andb]. by rewrite <- app_assoc, len_app.
Qed.
Lemma loop_batches bs : ∀ fuel sets pre st,
  Forall batch_valid bs → items_error (sets_items bs) = None → len (bytes_of (sets_items bs)) < 2 ^ 31 →
  loop (length bs + fuel) sets (mk_rd (pre ++ bytes_of (sets_items bs)) (len pre) st)
  = Ret (inl (sets ++ (records_sent <$> bs), false),
         mk_rd (pre ++ bytes_of (sets_items bs)) (len (pre ++ bytes_of (sets_items bs))) st).
Proof using checksum_uint32 decompress_compress.
  induction bs as [|r bs IH]; intros fuel sets pre st Hv He Hl.
  - cbn. rewrite !app_nil_r. destruct fuel; cbn [records_loop]; unfold remaining; cbn [rd_raw rd_off]; by rewrite Z.sub_diag.
  - apply Forall_cons in Hv as [Hr Hv]. rewrite bind_cons in *. apply items_error_app in He as [He1 He]. rewrite bind_app in *.
    rewrite len_app in Hl. pose proof (len_nonneg (bytes_of (records_items r))). cbn [length Nat.add].
    rewrite loop_batch by (done || lia). rewrite IH by (done || lia). by rewrite <- !app_assoc.
Qed.
Lemma batch_ends_first bs : Forall batch_valid bs → ends (bytes_of (sets_items bs)).
Proof using checksum_uint32.
  intros Hv. destruct Hv as [|r bs [b p Hb _ Hp _] _]; [by left|]. rewrite bind_cons, bind_app.
  unfold records_items at 1. rewrite (batch_records_items _ b p) by done. by apply batch_ends.
Qed.
Lemma loop_set s fuel pre post st :
  set_ok checksum compressor depth s → Messages s ≠ [] → ends post →
  items_error (MessageSet_items compressor s) = None → len (bytes_of (MessageSet_items compressor s)) + len post < 2 ^ 31 →
  loop (S fuel) [] (mk_rd (pre ++ bytes_of (MessageSet_items compressor s) ++ post) (len pre) st)
  = loop fuel [records_sent (newLegacyRecords s)]
      (mk_rd ((pre ++ bytes_of (MessageSet_items compressor s)) ++ post) (len (pre ++ bytes_of (MessageSet_items compressor s))) st).
Proof using checksum_uint32 decompress_compress.
  intros Hs Hne Hpost He Hl. cbn [records_loop]. unfold remaining at 1. cbn [rd_raw rd_off].
  pose proof (blocks_count checksum compressor (Messages s)) as Hc. fold (MessageSet_items compressor s) in Hc.
  rewrite (proj2 (Z.ltb_lt _ _)) by (rewrite !len_app; unfold len; destruct (Messages s); [done|]; cbn [length] in Hc; lia).
  destruct (set_state s Hs) as (S1 & S2 & S3). cbn [negb]. rewrite records_set_back by done. cbn [gbind].
  rewrite S1, S2, S3, len_positive by done. cbn [orb andb app]. by rewrite <- app_assoc.
Qed.

Lemma sets_count l : sets_valid l → (length l ≤ length (bytes_of (sets_items l)))%nat.
Proof using checksum_uint32.
  intros Hv. pose proof (len_bytes_of checksum (records_items <$> l)) as Hl. unfold len in Hl. rewrite <- bind_join, length_fmap in Hl.
  cut (Z.of_nat (length l) ≤ Z.of_nat (length (bytes_of (sets_items l)))); [lia|].
  assert (∀ bs, Forall batch_valid bs → Forall (fun l => bytes_of l ≠ []) (records_items <$> bs)) as Hbs.
  { intros bs Hbs. apply Forall_fmap. eapply Forall_impl; [done|]. intros r [b p Hb _ Hp _] E. unfold compose, records_items in E.
    rewrite (batch_records_items _ b p), batch_bytes in E by done. apply (f_equal len) in E. rewrite len_app, len_start in E.
    pose proof (len_nonneg (field_of checksum (crc32Field crcCastagnoli) (bytes_of (batch_body b) ++ p) ++ bytes_of (batch_body b) ++ p)).
    change (len (@nil Z)) with 0 in E. lia. }
  apply Hl. destruct Hv as [bs Hv|s bs Hs Hne Hv]; [by apply Hbs|]. cbn [fmap list_fmap]. apply Forall_cons_2; [|by apply Hbs].
  change (records_items (newLegacyRecords s)) with (MessageSet_items compressor s).
  pose proof (blocks_count checksum compressor (Messages s)) as Hc. fold (MessageSet_items compressor s) in Hc.
  destruct (Messages s); [done|]. intros E. rewrite E in Hc. cbn in Hc. lia.
Qed.
(** A block's records are read back, set by set. *)
Lemma sets_back l : sets_valid l → items_error (sets_items l) = None → len (bytes_of (sets_items l)) < 2 ^ 31 →
  ∃ rd, records_decode checksum decompressor depth (mk_rd (bytes_of (sets_items l)) 0 []) = Ret (inl (records_sent <$> l, false), rd).
Proof using checksum_uint32 decompress_compress.
  intros Hv He Hl. eexists. unfold records_decode. unfold remaining. cbn [rd_raw rd_off]. rewrite Z.sub_0_r, len_to_nat.
  pose proof (sets_count l Hv) as Hc. destruct Hv as [bs Hv|s bs Hs Hne Hv].
  - replace (S (length (bytes_of (sets_items bs)))) with (length bs + (S (length (bytes_of (sets_items bs))) - length bs))%nat by lia.
    exact (loop_batches bs _ [] [] [] Hv He Hl).
  - rewrite bind_cons in *. change (records_items (newLegacyRecords s)) with (MessageSet_items compressor s) in *.
    apply items_error_app in He as [He1 He]. rewrite bind_app in *. set (n := length (_ ++ _)) in *. rewrite len_app in Hl.
    pose proof (len_nonneg (bytes_of (MessageSet_items compressor s))). cbn [length] in Hc.
    pose proof (loop_set s n [] (bytes_of (sets_items bs)) [] Hs Hne (batch_ends_first bs Hv) He1 Hl) as E. cbn [app] in E.
    change (len (@nil Z)) with 0 in E. rewrite E. replace n with (length bs + (n - length bs))%nat by lia.
    apply loop_batches; (done || lia).
Qed.

(** *** Requests and responses *)

(** Records in the format of the version: batches from version 3 on, message sets before *)
Definition format_of (version : Z) (records : Records_) : Prop :=
  if 3 <=? version then is_Some (Batch records) else is_Some (MsgSet records).
Lemma counted_returns v l : Forall (format_of v) l → returns (counted v l).
Proof.
  induction 1 as [|r l Hr _ [m IH]]; [by eexists|]. cbn [counted]. unfold records_counted, format_of in *. rewrite IH.
  destruct (3 <=? v); destruct Hr as [x ->]; by eexists.
Qed.
Definition produce_valid (r : ProduceRequest) : Prop :=
  int_ok 16 (pr_Version r) ∧ int_ok 16 (RequiredAcks r) ∧ int_ok 32 (pr_Timeout r) ∧
  ((3 <=? pr_Version r) = false → TransactionalID r = None) ∧ topics_ok records_valid (pr_records r) ∧
  map_Forall (fun _ ps => map_Forall (fun _ records => format_of (pr_Version r) records) ps) (pr_records r).
Definition produce_received (r : ProduceRequest) : ProduceRequest :=
  mk_ProduceRequest (TransactionalID r) (RequiredAcks r) (pr_Timeout r) (pr_Version r)
    ((fun ps : gmap Z Records_ => records_sent <$> ps) <$> pr_records r).
Definition produce_items (o : orders) (r : ProduceRequest) : list item :=
  (if 3 <=? pr_Version r then [Data (putNullableString (TransactionalID r))] else []) ++
  [Data (putInt16 (RequiredAcks r)); Data (putInt32 (pr_Timeout r))] ++
  put_topics o [] (pr_records r) (fun records => [Field lengthField (records_items records)]).
Lemma produce_encode o r : fair o → topics_ok records_valid (pr_records r) →
  ProduceRequest_encode checksum compressor h o r = Ret (produce_items o r).
Proof.
  intros Ho [_ Hr]. unfold ProduceRequest_encode.
  rewrite (put_topics_go_ret _ _ _ _ (fun records => [Field lengthField (records_items records)])); [done|done|].
  intros t ps k v Ht Hk. rewrite records_items_ret; [done|]. destruct (Hr t ps Ht) as [_ Hps]. apply (Hps k v Hk).
Qed.
Definition ProduceRequest_laws : @protocolLaws checksum _ (ProduceRequest_body checksum compressor decompressor h depth).
Proof using checksum_uint32 decompress_compress.
  refine {| valid := produce_valid; received := produce_received : _ |}.
  - by intros r (? & _).
  - intros r (_ & _ & _ & _ & _ & Hf). apply counted_returns, Forall_bind, Forall_forall. intros [t ps] Hps. apply elem_of_map_to_list in Hps.
    apply Forall_fmap, Forall_forall. intros [id records] Hr. apply elem_of_map_to_list in Hr. exact (Hf t ps Hps id records Hr).
  - intros o r Ho Hr. pose proof Hr as (Hv & Ha & Ht & Hi & Hk & _). exists (produce_items o r). split; [by apply produce_encode|].
    split; [unfold produce_items; auto 10 using records_plain with wire|].
    cbn [body_decode ProduceRequest_body version]. unfold produce_items, ProduceRequest_decode, produce_received.
    eapply wire_bind; [done|apply wire_since; [eauto with wire|by apply Hi]|]. cbn [app]. do 2 wire_part.
    eapply wire_last; [|apply wire_ret]. eapply wire_topics; [done|apply wire_partition_records|done].
  - intros o o' r l l' Ho Ho' (_ & _ & _ & _ & Hk & _) E E'. cbn [body_encode ProduceRequest_body] in *.
    rewrite produce_encode in E, E' by done. simplify_eq. unfold produce_items. auto 20 with order.
Defined.

(** *** Fetch responses *)

Definition fetched_valid (v : Z) (b : FetchResponseBlock) : Prop :=
  int_ok 16 (frb_Err b) ∧ int_ok 64 (HighWaterMarkOffset b) ∧ int_ok 64 (LastStableOffset b) ∧
  short (length (AbortedTransactions b)) ∧
  Forall (fun t => int_ok 64 (at_ProducerID t) ∧ int_ok 64 (at_FirstOffset t)) (AbortedTransactions b) ∧
  ((4 <=? v) = false → LastStableOffset b = 0 ∧ AbortedTransactions b = []) ∧
  sets_valid (RecordsSet b) ∧ Partial b = false.
Definition fetched_received (b : FetchResponseBlock) : FetchResponseBlock :=
  mk_FetchResponseBlock (frb_Err b) (HighWaterMarkOffset b) (LastStableOffset b) (AbortedTransactions b)
    (records_sent <$> RecordsSet b) false.
Definition fetched_items (v : Z) (b : FetchResponseBlock) : list item :=
  [Data (putInt16 (frb_Err b)); Data (putInt64 (HighWaterMarkOffset b))] ++
  (if 4 <=? v then Data (putInt64 (LastStableOffset b)) :: put_array (AbortedTransactions b) AbortedTransaction_encode else []) ++
  [Field lengthField (sets_items (RecordsSet b))].

Lemma batch_records_valid r : batch_valid r → records_valid r.
Proof. intros []. by econstructor. Qed.
Lemma sets_records_valid l : sets_valid l → Forall records_valid l.
Proof.
  assert (∀ bs, Forall batch_valid bs → Forall records_valid bs) as Hb.
  { intros bs Hbs. eapply Forall_impl; [done|]. apply batch_records_valid. }
  intros [bs Hv|s bs Hs Hne Hv]; [by apply Hb|]. apply Forall_cons_2; [by constructor|by apply Hb].
Qed.
Lemma fetched_encode topic id v b : sets_valid (RecordsSet b) →
  FetchResponseBlock_encode checksum compressor h topic id v b = Ret (fetched_items v b).
Proof.
  intros Hs%sets_records_valid. unfold FetchResponseBlock_encode.
  rewrite (go_join_imap _ _ (fun _ => records_items)); [by rewrite join_const|].
  intros i r Hi. apply records_items_ret. by eapply Forall_lookup_1.
Qed.
Lemma wire_aborted t : int_ok 64 (at_ProducerID t) ∧ int_ok 64 (at_FirstOffset t) →
  wire checksum (AbortedTransaction_encode t) AbortedTransaction_decode t.
Proof. destruct t. unfold AbortedTransaction_encode, AbortedTransaction_decode. part_auto. Qed.
Lemma wire_fetched v b : fetched_valid v b →
  wire checksum (fetched_items v b) (FetchResponseBlock_decode checksum decompressor depth v) (fetched_received b).
Proof using checksum_uint32 decompress_compress.
  intros (? & ? & ? & ? & ? & Hd & Hs & _). unfold fetched_items, FetchResponseBlock_decode, fetched_received. cbn [app].
  do 2 wire_part. eapply wire_bind; [done| |].
  - apply (wire_since _ _ _ _ (LastStableOffset b, AbortedTransactions b)).
    + intros _. wire_part. apply (wire_map _ _ _ _ (fun l => (_, l))). by eapply wire_list; [apply wire_aborted|..].
    + intros [-> ->]%Hd. done.
  - cbv beta iota. apply (wire_last _ _ _ _ (records_sent <$> RecordsSet b, false)); [|apply wire_ret].
    apply wire_subset. intros He Hl. by apply sets_back.
Qed.

Definition fetch_response_valid (r : FetchResponse) : Prop :=
  int_ok 16 (frs_Version r) ∧ millis_ok (frs_ThrottleTime r) ∧ ((1 <=? frs_Version r) = false → frs_ThrottleTime r = 0) ∧
  topics_ok (fetched_valid (frs_Version r)) (frs_Blocks r).
Definition fetch_response_received (r : FetchResponse) : FetchResponse :=
  mk_FetchResponse ((fun ps : gmap Z FetchResponseBlock => fetched_received <$> ps) <$> frs_Blocks r)
    (frs_ThrottleTime r) (frs_Version r) false zero_time.
Definition fetch_items (o : orders) (r : FetchResponse) : list item :=
  (if 1 <=? frs_Version r then [put_millis (frs_ThrottleTime r)] else []) ++
  put_topics o [] (frs_Blocks r) (fetched_items (frs_Version r)).
Lemma fetch_encode o r : fair o → topics_ok (fetched_valid (frs_Version r)) (frs_Blocks r) →
  FetchResponse_encode checksum compressor h o r = Ret (fetch_items o r).
Proof.
  intros Ho [_ Hr]. unfold FetchResponse_encode.
  rewrite (put_topics_go_ret _ _ _ _ (fetched_items (frs_Version r))); [done|done|].
  intros t ps k b Ht Hk. apply fetched_encode. destruct (Hr t ps Ht) as [_ Hps]. apply (Hps k b Hk).
Qed.
Definition FetchResponse_laws : @protocolLaws checksum _ (FetchResponse_body checksum compressor decompressor h depth).
Proof using checksum_uint32 decompress_compress.
  refine {| valid := fetch_response_valid; received := fetch_response_received : _ |}.
  - by intros r (? & _).
  - intros r _. by eexists.
  - intros o r Ho Hr. pose proof Hr as (Hv & Ht & Hi & Hk). exists (fetch_items o r). split; [by apply fetch_encode|].
    split; [unfold fetch_items, fetched_items, AbortedTransaction_encode; auto 20 using plain_bind, records_plain with wire|].
    cbn [body_decode FetchResponse_body version]. unfold fetch_items, FetchResponse_decode, fetch_response_received.
    wire_part. eapply wire_last; [|apply wire_ret]. eapply wire_topics; [done|apply wire_fetched|done].
  - intros o o' r l l' Ho Ho' (_ & _ & _ & Hk) E E'. cbn [body_encode FetchResponse_body] in *.
    rewrite fetch_encode in E, E' by done. simplify_eq. unfold fetch_items. auto 20 with order.
Defined.
End laws.

Section plain_laws.
Context (checksum : crcPolynomial → bytes → Z).

Definition produced_time (millis : Z) : Z := if millis =? -1 then zero_time else unix_millis millis.
Lemma timestamp_produced t : time_ok t → ∃ n, Timestamp_items t = [Data (putInt64 n)] ∧ int_ok 64 n ∧ produced_time n = t.
Proof.
  intros Ht. destruct (timestamp_millis _ Ht) as (n & E & Hn & Et). exists n. split_and!; [done|done|].
  unfold Timestamp_items in E. unfold produced_time, time_of_millis in *. destruct (Z.ltb_spec t 0); cbn [negb] in E.
  - destruct (negb _); [done|]. by injection E as <-.
  - assert (0 ≤ n) as Hn0.
    { destruct Ht as [->|[Hr _]]; [by unfold zero_time in *|]. rewrite int_ok_swrap in E by (unfold int_ok; simpl in *; lia).
      injection E as <-. apply Z.quot_pos; [lia|done]. }
    replace (n =? -1) with false by lia. by replace (0 <=? n) with true in Et by lia.
Qed.
Definition produced_valid (v : Z) (b : ProduceResponseBlock) : Prop :=
  int_ok 16 (prb_Err b) ∧ int_ok 64 (prb_Offset b) ∧ time_ok (prb_Timestamp b) ∧ ((2 <=? v) = false → prb_Timestamp b = zero_time).
Lemma wire_produced v b : produced_valid v b →
  wire checksum (ProduceResponseBlock_encode v b) (ProduceResponseBlock_decode v) b.
Proof.
  destruct b as [err offset t]. intros (? & ? & Ht & Hv). unfold ProduceResponseBlock_encode, ProduceResponseBlock_decode. cbn in *.
  destruct (timestamp_produced t Ht) as (n & -> & Hn & En). do 2 wire_part. eapply wire_last; [|apply wire_ret].
  apply wire_since; [|done]. intros _. rewrite <- En. by apply (wire_map checksum _ _ _ produced_time), wire_int64.
Qed.
#[local] Hint Resolve wire_produced plain_time : wire.
#[local] Hint Unfold ProduceResponse_encode ProduceResponse_decode : body.
#[local] Hint Unfold ProduceResponseBlock_encode : part.
#[export] Instance ProduceResponse_laws : protocolLaws checksum ProduceResponse.
Proof.
  refine (body_laws _ ProduceResponse_encode (fun r => int_ok 16 (prs_Version r) ∧ millis_ok (prs_ThrottleTime r) ∧
    ((1 <=? prs_Version r) = false → prs_ThrottleTime r = 0) ∧ topics_ok (produced_valid (prs_Version r)) (prs_Blocks r)) id _ _ _ _ _).
  - done.
  - by intros r (? & _).
  - intros o r. autounfold with body part. auto 20 with wire.
  - intros o [blocks v t] Ho (? & ? & ? & ?). cbn in *. autounfold with body. cbn.
    eapply wire_bind; [done|eapply wire_topics_id; [done|apply wire_produced|done]|]. cbv beta. wire_parts.
  - intros o o' r Ho Ho'. autounfold with body. auto 20 with order.
Defined.

Definition asked_valid (b : fetchRequestBlock) : Prop := int_ok 64 (fetchOffset b) ∧ int_ok 32 (frq_maxBytes b).
Lemma wire_asked b : asked_valid b → wire checksum (fetchRequestBlock_encode b) fetchRequestBlock_decode b.
Proof. destruct b. unfold asked_valid, fetchRequestBlock_encode, fetchRequestBlock_decode. part_auto. Qed.
#[local] Hint Unfold FetchRequest_encode FetchRequest_decode : body.
#[local] Hint Unfold fetchRequestBlock_encode : part.
#[export] Instance FetchRequest_laws : protocolLaws checksum FetchRequest.
Proof.
  refine (body_laws _ FetchRequest_encode (fun r => int_ok 16 (frq_Version r) ∧ int_ok 32 (MaxWaitTime r) ∧ int_ok 32 (MinBytes r) ∧
    int_ok 32 (MaxBytes r) ∧ int_ok 8 (Isolation r) ∧ ((3 <=? frq_Version r) = false → MaxBytes r = 0) ∧
    ((4 <=? frq_Version r) = false → Isolation r = 0) ∧ topics_ok asked_valid (frq_blocks r)) id _ _ _ _ _).
  - done.
  - by intros r (? & _).
  - intros o r. autounfold with body part. auto 20 with wire.
  - intros o [wait mn mx v i blocks] Ho (? & ? & ? & ? & ? & ? & ? & ?). cbn in *. autounfold with body. cbn.
    eapply wire_cons; [done|by apply wire_int32|cbv beta]. do 4 wire_part.
    eapply wire_last; [|apply wire_ret]. eapply wire_topics_id; [done|apply wire_asked|done].
  - intros o o' r Ho Ho'. autounfold with body. auto 20 with order.
Defined.
End plain_laws.
