(* ===== verification/KafkaRequest.v ===== *)
(** * [kafka/request.go], [kafka/response_header.go]: requests on a connection

    A request is a length, a header and a body; the key in the header tells the receiver which
    body to decode.  The bodies are the types behind the interface [protocolBody]; what the
    theorems need of them is in the class [protocolLaws]. *)

From S2P Require Import Prelude GoStrings KafkaCodec KafkaProps KafkaDecoder KafkaDecoderProps KafkaWire.
From S2P Require Import KafkaRecord KafkaRecordProps KafkaMessage KafkaMessageProps KafkaProtocol.
From S2P Require Import KafkaGroups KafkaMetadata KafkaOffsets KafkaTopics KafkaAcls KafkaProduce.

(** The bodies [allocateBody] knows *)
Inductive request_body :=
| AProduce (b : ProduceRequest) | AFetch (b : FetchRequest) | AOffset (b : OffsetRequest)
| AMetadata (b : MetadataRequest) | AOffsetCommit (b : OffsetCommitRequest) | AOffsetFetch (b : OffsetFetchRequest)
| AFindCoordinator (b : FindCoordinatorRequest) | AJoinGroup (b : JoinGroupRequest)
| AHeartbeat (b : HeartbeatRequest) | ALeaveGroup (b : LeaveGroupRequest) | ASyncGroup (b : SyncGroupRequest)
| ADescribeGroups (b : DescribeGroupsRequest) | AListGroups (b : ListGroupsRequest)
| ASaslHandshake (b : SaslHandshakeRequest) | AApiVersions (b : ApiVersionsRequest)
| ACreateTopics (b : CreateTopicsRequest) | ADeleteTopics (b : DeleteTopicsRequest)
| ADeleteRecords (b : DeleteRecordsRequest) | AInitProducerID (b : InitProducerIDRequest)
| AAddPartitionsToTxn (b : AddPartitionsToTxnRequest) | AAddOffsetsToTxn (b : AddOffsetsToTxnRequest)
| AEndTxn (b : EndTxnRequest) | ATxnOffsetCommit (b : TxnOffsetCommitRequest)
| ADescribeAcls (b : DescribeAclsRequest) | ACreateAcls (b : CreateAclsRequest) | ADeleteAcls (b : DeleteAclsRequest)
| ADescribeConfigs (b : DescribeConfigsRequest) | AAlterConfigs (b : AlterConfigsRequest)
| ASaslAuthenticate (b : SaslAuthenticateRequest) | ACreatePartitions (b : CreatePartitionsRequest)
| ADeleteGroups (b : DeleteGroupsRequest) .

(** [type request struct] *)
Record request := mk_request { correlationID : Z; clientID : bytes; body : request_body }.

Section requests.
Context (checksum : crcPolynomial → bytes → Z).
Context (compressor : Z → Z → bytes → option bytes) (decompressor : Z → bytes → option bytes).
Context (h : bytes → Z → nat → fields) (depth : nat).
#[local] Existing Instance ProduceRequest_body.
#[local] Abbreviation produce := (ProduceRequest_body checksum compressor decompressor h depth).

(** A call of a method of the interface *)
Definition on_body {R} (f : ∀ A, protocolBody A → A → R) (b : request_body) : R :=
  match b with
  | AProduce b => f _ produce b
  | AFetch b => f _ _ b | AOffset b => f _ _ b | AMetadata b => f _ _ b | AOffsetCommit b => f _ _ b
  | AOffsetFetch b => f _ _ b | AFindCoordinator b => f _ _ b | AJoinGroup b => f _ _ b | AHeartbeat b => f _ _ b
  | ALeaveGroup b => f _ _ b | ASyncGroup b => f _ _ b | ADescribeGroups b => f _ _ b | AListGroups b => f _ _ b
  | ASaslHandshake b => f _ _ b | AApiVersions b => f _ _ b | ACreateTopics b => f _ _ b | ADeleteTopics b => f _ _ b
  | ADeleteRecords b => f _ _ b | AInitProducerID b => f _ _ b | AAddPartitionsToTxn b => f _ _ b
  | AAddOffsetsToTxn b => f _ _ b | AEndTxn b => f _ _ b | ATxnOffsetCommit b => f _ _ b | ADescribeAcls b => f _ _ b
  | ACreateAcls b => f _ _ b | ADeleteAcls b => f _ _ b | ADescribeConfigs b => f _ _ b | AAlterConfigs b => f _ _ b
  | ASaslAuthenticate b => f _ _ b | ACreatePartitions b => f _ _ b | ADeleteGroups b => f _ _ b 
  end.
Definition request_key : request_body → Z := on_body (fun A H b => key b).
Definition request_version : request_body → Z := on_body (fun A H b => version b).
Definition request_required : request_body → KafkaVersion := on_body (fun A H b => requiredVersion b).

(** [func (r *request) encode(pe packetEncoder) error] *)
Definition request_encode (o : orders) (r : request) : Go (list item) :=
  let* l := on_body (fun A H b => body_encode o b) (body r) in
  Ret [Field lengthField
    ([Data (putInt16 (request_key (body r))); Data (putInt16 (request_version (body r)));
      Data (putInt32 (correlationID r)); Data (putString (clientID r))] ++ l)].
(** [encode(req, metricRegistry)]: the counting pass visits the maps in the orders [o], the
    writing pass in the orders [o'].  Only the writing pass has the registry; that pass fails
    when the counting pass does, so that the metrics of the body are run when it succeeds. *)
Definition request_metrics : request_body → Go Z := on_body (fun A H b => body_metrics b).
Definition encode_request (metricRegistry : bool) (o o' : orders) (r : request) : Go (bytes + packet_error) :=
  let* l := request_encode o r in
  let* l' := request_encode o' r in
  let* res := encode_passes checksum ∅ (l ≫= calls) (l' ≫= calls) in
  match res with
  | inr e => Ret (inr e)
  | inl bin => let* _ := if metricRegistry then request_metrics (body r) else Ret 0 in Ret (inl bin)
  end.

(** [func allocateBody(key, version int16) protocolBody] with the [decode] that follows *)
Definition into {A} `{protocolBody A} (c : A → request_body) (version : Z) : option (rd_get request_body) :=
  Some (get* b := body_decode version in rd_ret (c b)).
Definition allocateBody (key version : Z) : option (rd_get request_body) :=
  match key with
  | 0 => @into _ produce AProduce version
  | 1 => into AFetch version
  | 2 => into AOffset version
  | 3 => into AMetadata version
  | 8 => into AOffsetCommit version
  | 9 => into AOffsetFetch version
  | 10 => into AFindCoordinator version
  | 11 => into AJoinGroup version
  | 12 => into AHeartbeat version
  | 13 => into ALeaveGroup version
  | 14 => into ASyncGroup version
  | 15 => into ADescribeGroups version
  | 16 => into AListGroups version
  | 17 => into ASaslHandshake version
  | 18 => into AApiVersions version
  | 19 => into ACreateTopics version
  | 20 => into ADeleteTopics version
  | 21 => into ADeleteRecords version
  | 22 => into AInitProducerID version
  | 24 => into AAddPartitionsToTxn version
  | 25 => into AAddOffsetsToTxn version
  | 26 => into AEndTxn version
  | 28 => into ATxnOffsetCommit version
  | 29 => into ADescribeAcls version
  | 30 => into ACreateAcls version
  | 31 => into ADeleteAcls version
  | 32 => into ADescribeConfigs version
  | 33 => into AAlterConfigs version
  | 36 => into ASaslAuthenticate version
  | 37 => into ACreatePartitions version
  | 42 => into ADeleteGroups version
  | _ => None
  end.
(** [func (r *request) decode(pd packetDecoder) (err error)] *)
Definition request_decode : rd_get request :=
  get* key := getInt16 in
  get* version := getInt16 in
  get* correlationID := getInt32 in
  get* clientID := getString in
  match allocateBody key version with
  | None => rd_fail (UnknownKey key)
  | Some decode => get* b := decode in rd_ret (mk_request correlationID clientID b)
  end.

(** [io.ReadFull] of [n] bytes: the bytes and the rest, or an error *)
Inductive read_error := EOF | ErrUnexpectedEOF | PacketDecodingError (e : decode_error).
Definition ReadFull (n : Z) (r : bytes) : bytes * bytes + read_error :=
  if n <=? len r then inl (take (Z.to_nat n) r, drop (Z.to_nat n) r)
  else inr (match r with [] => EOF | _ => ErrUnexpectedEOF end).
(** [func decodeRequest(r io.Reader) ( *request, int, error)]: the request or an error, the
    bytes read, and what the reader still holds *)
Definition decodeRequest (r : bytes) : Go ((request + read_error) * Z * bytes) :=
  match ReadFull 4 r with
  | inr e => Ret (inr e, 0, [])
  | inl (lengthBytes, r) =>
      let length := swrap 32 (be_uint lengthBytes) in
      if (length <=? 4) || (MaxRequestSize <? length)
      then Ret (inr (PacketDecodingError (SizeRejected length)), 4, r)
      else match ReadFull length r with
      | inr e => Ret (inr e, 4, [])
      | inl (encodedReq, r) =>
          let* req := decode request_decode encodedReq in
          Ret (match req with inl req => inl req | inr e => inr (PacketDecodingError e) end, 4 + length, r)
      end
  end.

(** [type responseHeader struct] and its [decode] *)
Record responseHeader := mk_response_header { rh_length : Z; rh_correlationID : Z }.
Definition MaxResponseSize : Z := 100 * 1024 * 1024.
Definition responseHeader_decode : rd_get responseHeader :=
  get* length := getInt32 in
  if (length <=? 4) || (MaxResponseSize <? length) then rd_fail (SizeRejected length)
  else get* id := getInt32 in rd_ret (mk_response_header length id).
End requests.

(** ** Round trip *)

Section laws.
Context (checksum : crcPolynomial → bytes → Z).
Hypothesis checksum_uint32 : ∀ p b, uint_ok 32 (checksum p b).
Context (compressor : Z → Z → bytes → option bytes) (decompressor : Z → bytes → option bytes).
Hypothesis decompress_compress : ∀ cc level raw p, compressor cc level raw = Some p → decompressor cc p = Some raw.
Context (h : bytes → Z → nat → fields) (depth : nat).
Abbreviation bytes_of l := (l ≫= render checksum).
Abbreviation produce_laws := (ProduceRequest_laws checksum checksum_uint32 compressor decompressor decompress_compress h depth).
Abbreviation on_body := (on_body checksum compressor decompressor h depth).
Abbreviation allocateBody := (allocateBody checksum compressor decompressor h depth).

(** The laws of a body, with the constructor of its type *)
Definition through {R} (f : ∀ A (H : protocolBody A), protocolLaws checksum A → (A → request_body) → A → R) (b : request_body) : R :=
  match b with
  | AProduce b => f _ _ produce_laws AProduce b
  | AFetch b => f _ _ _ AFetch b | AOffset b => f _ _ _ AOffset b | AMetadata b => f _ _ _ AMetadata b
  | AOffsetCommit b => f _ _ _ AOffsetCommit b | AOffsetFetch b => f _ _ _ AOffsetFetch b
  | AFindCoordinator b => f _ _ _ AFindCoordinator b | AJoinGroup b => f _ _ _ AJoinGroup b
  | AHeartbeat b => f _ _ _ AHeartbeat b | ALeaveGroup b => f _ _ _ ALeaveGroup b
  | ASyncGroup b => f _ _ _ ASyncGroup b | ADescribeGroups b => f _ _ _ ADescribeGroups b
  | AListGroups b => f _ _ _ AListGroups b | ASaslHandshake b => f _ _ _ ASaslHandshake b
  | AApiVersions b => f _ _ _ AApiVersions b | ACreateTopics b => f _ _ _ ACreateTopics b
  | ADeleteTopics b => f _ _ _ ADeleteTopics b | ADeleteRecords b => f _ _ _ ADeleteRecords b
  | AInitProducerID b => f _ _ _ AInitProducerID b | AAddPartitionsToTxn b => f _ _ _ AAddPartitionsToTxn b
  | AAddOffsetsToTxn b => f _ _ _ AAddOffsetsToTxn b | AEndTxn b => f _ _ _ AEndTxn b
  | ATxnOffsetCommit b => f _ _ _ ATxnOffsetCommit b | ADescribeAcls b => f _ _ _ ADescribeAcls b
  | ACreateAcls b => f _ _ _ ACreateAcls b | ADeleteAcls b => f _ _ _ ADeleteAcls b
  | ADescribeConfigs b => f _ _ _ ADescribeConfigs b | AAlterConfigs b => f _ _ _ AAlterConfigs b
  | ASaslAuthenticate b => f _ _ _ ASaslAuthenticate b | ACreatePartitions b => f _ _ _ ACreatePartitions b
  | ADeleteGroups b => f _ _ _ ADeleteGroups b 
  end.
(** A body the code can send, and what the other side receives *)
Definition body_valid : request_body → Prop := through (fun A H L c b => valid b).
Definition body_received : request_body → request_body := through (fun A H L c b => c (received b)).
Definition request_received (r : request) : request := mk_request (correlationID r) (clientID r) (body_received (body r)).

(** The key of a body leads [allocateBody] to its own type. *)
Lemma body_ind (P : request_body → Prop) :
  (∀ A (H : protocolBody A) (L : protocolLaws checksum A) (c : A → request_body),
     (∀ R (f : ∀ A, protocolBody A → A → R) x, on_body f (c x) = f A H x) →
     (∀ x, body_valid (c x) = valid x) → (∀ x, body_received (c x) = c (received x)) →
     (∀ x v, allocateBody (key x) v = into c v) → ∀ x, P (c x)) →
  ∀ b, P b.
Proof using Type. intros HP b. destruct b; eapply (HP _ _ _ _); reflexivity. Qed.

Definition header_items (k v : Z) (r : request) : list item :=
  [Data (putInt16 k); Data (putInt16 v); Data (putInt32 (correlationID r)); Data (putString (clientID r))].
Lemma ReadFull_app n (b r : bytes) : n = len b → ReadFull n (b ++ r) = inl (b, r).
Proof.
  intros ->. unfold ReadFull. rewrite len_app, len_to_nat, take_app_length, drop_app_length.
  rewrite (proj2 (Z.leb_le _ _)) by (pose proof (len_nonneg r); lia). done.
Qed.
(** The receiver of a message finds its end and decodes it. *)
Lemma decode_message l req rest :
  items_error l = None → 4 < len (bytes_of l) → len (bytes_of [Field lengthField l]) ≤ MaxRequestSize →
  wire checksum l (request_decode checksum compressor decompressor h depth) req →
  decodeRequest checksum compressor decompressor h depth (bytes_of [Field lengthField l] ++ rest) = Ret (inl req, len (bytes_of [Field lengthField l]), rest).
Proof.
  intros He Hn Hs Hw. rewrite bind_cons in *. cbn [render field_of] in *. change ([] ≫= render checksum) with (@nil Z) in *.
  rewrite app_nil_r in *. set (B := bytes_of l) in *. rewrite len_app, len_be_bytes in *. rewrite <- app_assoc.
  unfold decodeRequest. rewrite ReadFull_app by (by rewrite len_be_bytes).
  assert (swrap 32 (be_uint (be_bytes 4 (len B))) = len B) as ->.
  { rewrite be_uint_be_bytes. unfold MaxRequestSize in Hs. pose proof (len_nonneg B).
    rewrite Z.mod_small by (change (256 ^ Z.of_nat 4) with 4294967296; lia). apply int_ok_swrap; [done|]. unfold int_ok. simpl. lia. }
  rewrite (proj2 (Z.leb_gt _ _)), (proj2 (Z.ltb_ge _ _)) by lia. cbn [orb]. rewrite ReadFull_app by done.
  unfold B. rewrite (decode_wire checksum l _ req) by (done || unfold MaxRequestSize in *; fold B; simpl; lia). done.
Qed.

End laws.

(** ** Example *)

(** Two topics, which the writing pass visits in the other order *)
Definition forward : orders := fun _ _ l => l.
Definition backward : orders := fun _ _ l => reverse l.
Definition sample_request : request :=
  mk_request 7 (B "sarama") (AProduce (mk_ProduceRequest (Some (B "tx")) WaitForAll 10000 3
    {[B "t" := {[0 := newDefaultRecords sample_batch; 1 := newDefaultRecords sample_batch]}; B "u" := ∅]})).
Lemma sample_valid h : body_valid sample_checksum sample_checksum_uint32 reversing unreversing reversing_back h 1 (body sample_request).
Proof.
  change (produce_valid sample_checksum reversing 1 (mk_ProduceRequest (Some (B "tx")) WaitForAll 10000 3
    {[B "t" := {[0 := newDefaultRecords sample_batch; 1 := newDefaultRecords sample_batch]}; B "u" := ∅]})).
  do 3 (split; [by split|]). split; [done|]. cbn [pr_records]. split; [split|].
  - vm_compute. discriminate.
  - apply map_Forall_insert_2; [split; [vm_compute; discriminate|]|].
    + apply map_Forall_insert_2; [|apply map_Forall_singleton]; (split; [by split|]);
        (apply (valid_batch _ _ _ _ sample_payload); [exact sample_batch_ok|vm_compute; reflexivity|vm_compute; discriminate]).
    + apply map_Forall_singleton. split; [vm_compute; discriminate|apply map_Forall_empty].
  - apply map_Forall_insert_2; [|apply map_Forall_singleton, map_Forall_empty].
    apply map_Forall_insert_2; [|apply map_Forall_singleton]; by eexists.
Qed.
(** The two passes write different bytes, and the request goes through. *)
Example sample_request_sent :
  ∃ bin, encode_request sample_checksum reversing unreversing (fun _ _ _ => ∅) 1 true forward backward sample_request = Ret (inl bin) ∧
    encode_request sample_checksum reversing unreversing (fun _ _ _ => ∅) 1 true forward forward sample_request ≠ Ret (inl bin).
Proof. eexists. split; [vm_compute; reflexivity|]. vm_compute. discriminate. Qed.

(** A request with records of the other format is encoded without a registry of metrics; with
    one, which a client has unless it is configured away, the encoder dereferences nil. *)
Definition mismatched_request : request :=
  mk_request 7 (B "sarama") (AProduce (mk_ProduceRequest None WaitForAll 10000 3 {[B "t" := {[0 := newLegacyRecords sample_set]}]})).
Lemma mismatched_records_panic :
  encode_request sample_checksum reversing unreversing (fun _ _ _ => ∅) 1 true forward forward mismatched_request = Panic NilDereference ∧
  ∃ bin, encode_request sample_checksum reversing unreversing (fun _ _ _ => ∅) 1 false forward forward mismatched_request = Ret (inl bin).
Proof. split; [vm_compute; reflexivity|]. eexists. vm_compute. reflexivity. Qed.
