(* ===== verification/KafkaBrokerProps.v ===== *)
(** * The broker connection: every caller gets its own response *)

From S2P Require Import Prelude GoStrings KafkaCodec KafkaProps KafkaDecoder KafkaDecoderProps KafkaDecoderSafety KafkaWire KafkaProtocol KafkaGroups KafkaRequest KafkaBroker.

#[local] Arguments be_bytes : simpl never.

(** ** The receiver *)

(** No header makes the receiver panic. *)
Lemma int32_wp rd : 0 ≤ rd_off rd ≤ len (rd_raw rd) →
  wp (getInt32 rd) (fun r => 0 ≤ rd_off r.2 ≤ len (rd_raw r.2)).
Proof.
  intros Ho. unfold getInt32, get_int, rd_bind, get_uint. destruct (remaining rd <? Z.of_nat 4) eqn:E.
  - cbn. lia.
  - apply Z.ltb_ge in E. unfold remaining in E. apply wp_bind, wp_bind, wp_go_slice; [lia..|]. apply wp_ret. cbn. lia.
Qed.
Lemma header_returns header : ∃ r, decode responseHeader_decode header = Ret r.
Proof.
  assert (wp (responseHeader_decode (mk_rd header 0 [])) (fun _ => True)) as Hw.
  { unfold responseHeader_decode, rd_bind at 1. apply wp_bind. eapply wp_mono; [apply int32_wp; cbn; pose proof (len_nonneg header); lia|].
    intros [[n|e] rd] Hrd; [|done]. destruct (_ || _); [done|]. unfold rd_bind. apply wp_bind.
    eapply wp_mono; [by apply int32_wp|]. by intros [[] ?] _. }
  unfold decode. destruct (responseHeader_decode _) as [[[] ?]|]; cbn [gbind]; eauto. done.
Qed.
Lemma answer_returns id r : ∃ a r', answer id r = Ret (a, r').
Proof.
  unfold answer. destruct (dead r); [by do 2 eexists|]. unfold receive.
  destruct (ReadFull 8 (stream r)) as [[header s]|] eqn:E; [|by do 2 eexists].
  destruct (header_returns header) as [[d|] ->]; cbn [gbind]; [|by do 2 eexists].
  destruct (negb _); [by do 2 eexists|]. destruct (ReadFull _ s) as [[]|]; by do 2 eexists.
Qed.

Lemma receiver_app ps qs r l r' : responseReceiver ps r = Ret (l, r') →
  responseReceiver (ps ++ qs) r = (let* x := responseReceiver qs r' in Ret (l ++ x.1, x.2)).
Proof.
  revert r l. induction ps as [|p ps IH]; intros r l; cbn [app responseReceiver].
  - intros [= <- <-]. by destruct (responseReceiver qs r) as [[]|].
  - destruct (answer p r) as [[a r1]|]; cbn [gbind fst snd]; [|done].
    destruct (responseReceiver ps r1) as [[l1 r2]|] eqn:E; cbn [gbind fst snd]; [|done]. intros [= <- <-].
    rewrite (IH r1 l1 E). by destruct (responseReceiver qs r2) as [[]|].
Qed.

(** A response on the wire: its length, the correlation id, the payload *)
Definition response_frame (id : Z) (payload : bytes) : bytes := be_bytes 4 (4 + len payload) ++ be_bytes 4 id ++ payload.
Definition payload_ok (payload : bytes) : Prop := 0 < len payload ≤ MaxResponseSize - 4.

Lemma header_back id n : int_ok 32 id → 4 < n ≤ MaxResponseSize →
  decode responseHeader_decode (be_bytes 4 n ++ be_bytes 4 id) = Ret (inl (mk_response_header n id)).
Proof.
  intros Hid Hn. unfold MaxResponseSize in Hn.
  assert (reads 0 responseHeader_decode (be_bytes 4 n ++ be_bytes 4 id) (mk_response_header n id)) as Hr.
  { unfold responseHeader_decode. apply reads_bind with n.
    - apply reads_int; [lia|]. apply int_ok_swrap; [done|]. unfold int_ok. simpl. lia.
    - rewrite (proj2 (Z.leb_gt _ _)), (proj2 (Z.ltb_ge _ _)) by (unfold MaxResponseSize; lia). cbn [orb].
      apply reads_map, reads_int; [lia|]. by apply int_ok_swrap. }
  specialize (Hr [] [] [] eq_refl). unfold decode. rewrite app_nil_r, app_nil_l in Hr. change (len (@nil Z)) with 0 in Hr.
  rewrite Hr. cbn [gbind rd_off]. by rewrite Z.add_0_l, Z.eqb_refl.
Qed.
Lemma receive_frame id payload rest : int_ok 32 id → payload_ok payload →
  receive id (response_frame id payload ++ rest) = Ret (inl payload, rest).
Proof.
  intros Hid [Hp Hm]. unfold receive, response_frame. rewrite app_assoc, <- (app_assoc _ payload).
  rewrite ReadFull_app by (by rewrite len_app, !len_be_bytes). rewrite header_back by (done || lia). cbn [gbind rh_correlationID rh_length].
  rewrite Z.eqb_refl. cbn [negb]. by rewrite ReadFull_app by lia.
Qed.
Lemma receiver_frames ids : ∀ payloads rest,
  length ids = length payloads → Forall (int_ok 32) ids → Forall payload_ok payloads →
  responseReceiver ids (mk_receiver None (mjoin (zip_with response_frame ids payloads) ++ rest))
  = Ret (inl <$> payloads, mk_receiver None rest).
Proof.
  induction ids as [|id ids IH]; intros [|p payloads] rest Hl Hi Hp; try done. cbn [responseReceiver zip_with].
  apply Forall_cons in Hi as [Hid Hi]. apply Forall_cons in Hp as [Hpp Hp]. injection Hl as Hl.
  change (mjoin (?x :: ?l)) with (x ++ mjoin l). rewrite <- app_assoc. unfold answer. cbn [dead stream].
  rewrite receive_frame by done. cbn [gbind fst snd]. by rewrite IH.
Qed.
(** After an error the receiver has the same error for every promise. *)
Lemma receiver_dead ids e s : responseReceiver ids (mk_receiver (Some e) s) = Ret (replicate (length ids) (inr e), mk_receiver (Some e) s).
Proof. induction ids as [|id ids IH]; [done|]. cbn [responseReceiver answer dead gbind fst snd]. by rewrite IH. Qed.

(** ** The system *)

Section system.
Context (checksum : crcPolynomial → bytes → Z) (capacity : nat).
Abbreviation step := (step checksum capacity).
Abbreviation internal := (internal capacity).

Lemma promises_app log log' : promises (log ++ log') = promises log ++ promises log'.
Proof. unfold promises. by rewrite filter_app, fmap_app. Qed.

(** The requests are answered in their order, by what the receiver would hand out if it ran
    after all of them. *)
Definition in_order (r0 : receiver) (s : connection) : Prop :=
  ∃ answered, promises (c_log s) = answered ++ waiting s ∧
    responseReceiver answered.*1 r0 = Ret ((c_results s).*2, c_receiver s) ∧ answered.*2 = (c_results s).*1.

Lemma internal_in_order r0 s s' : internal s s' → in_order r0 s → in_order r0 s'.
Proof.
  intros Hs (answered & Hp & Hr & Hc). unfold in_order, waiting in *.
  destruct Hs as [b p q cur r res log _|b p r res log|b w p q r res cl log|b w q id c r res cl log a r' Ha|b r res log];
    cbn [c_log c_current c_responses c_sender c_results c_receiver option_list app] in *.
  - exists answered. split_and!; [|done|done]. by rewrite Hp, app_nil_r.
  - exists answered. by split_and!.
  - exists answered. by split_and!.
  - exists (answered ++ [(id, c)]). split_and!.
    + by rewrite Hp, <- app_assoc.
    + rewrite !fmap_app, (receiver_app _ _ _ _ _ Hr). cbn [fmap list_fmap responseReceiver fst]. by rewrite Ha.
    + by rewrite !fmap_app, Hc.
  - exists answered. by split_and!.
Qed.
Lemma call_in_order r0 s s' : call checksum s s' → in_order r0 s → in_order r0 s'.
Proof.
  intros Hs (answered & Hp & Hr & Hc). unfold in_order, waiting in *.
  destruct Hs as [A H o o' rb wants c b id buf b' q cur r res log _|b q cur r res log _];
    cbn [c_log c_current c_responses c_sender c_results c_receiver option_list] in *.
  - exists answered. split_and!; [|done|done]. rewrite promises_app, Hp, app_nil_r, <- !app_assoc. do 3 f_equal. by destruct wants.
  - exists answered. by split_and!.
Qed.
Lemma opened_in_order b r0 s : rtc step (opened b r0) s → in_order r0 s.
Proof.
  intros Hs. remember (opened b r0) as s0 eqn:E. assert (in_order r0 s0) as H0 by (subst; by exists []). clear E.
  induction Hs as [|s1 s2 s3 [H|H] _ IH]; [done| |]; eauto using internal_in_order, call_in_order.
Qed.

(** The correlation ids are 32-bit integers. *)
Definition numbered (s : connection) : Prop :=
  int_ok 32 (b_correlationID (c_broker s)) ∧ Forall (fun e => int_ok 32 e.1.1) (c_log s).
Lemma send_id {A} `{protocolBody A} o o' rb b id buf b' :
  send checksum o o' true rb b = Ret (inl (id, buf), b') → id = b_correlationID b ∧ b' = next_id b.
Proof.
  unfold send. destruct (negb _); [done|]. destruct (negb _); [done|].
  destruct (framed o _ _ rb) as [l|]; cbn [gbind]; [|done]. destruct (framed o' _ _ rb) as [l'|]; cbn [gbind]; [|done].
  destruct (encode_passes _ _ _ _) as [[buf'|]|]; cbn [gbind]; [|done..].
  destruct (if conf_MetricRegistry b then _ else _); cbn [gbind]; [|done]. by intros [= <- _ <-].
Qed.
Lemma step_numbered s s' : step s s' → numbered s → numbered s'.
Proof.
  intros [Hs|Hs] [Hb Hl]; unfold numbered in *.
  - by destruct Hs.
  - destruct Hs as [A H o o' rb wants c b id buf b' q cur r res log E|]; cbn [c_broker c_log] in *; [|done].
    apply send_id in E as [-> ->]. split; [|by apply Forall_app_2, Forall_singleton].
    cbn [next_id b_correlationID]. pose proof (swrap_range 32 (b_correlationID b + 1)). by apply H0.
Qed.
Lemma opened_numbered b r0 s : int_ok 32 (b_correlationID b) → rtc step (opened b r0) s → numbered s.
Proof.
  intros Hb Hs. remember (opened b r0) as s0 eqn:E. assert (numbered s0) as H0 by (subst; by split). clear E.
  induction Hs; [done|]. eauto using step_numbered.
Qed.
Lemma promises_numbered s : numbered s → Forall (int_ok 32) (promises (c_log s)).*1.
Proof.
  intros [_ Hl]. unfold promises. rewrite Forall_fmap, Forall_fmap. apply Forall_forall. intros e He.
  apply list_elem_of_filter in He as [_ He]. by eapply Forall_forall in Hl.
Qed.

(** C5: With any number of callers on a connection, in any interleaving, the responses handed
    out so far went to the callers in the order of their requests: every caller got the
    payload the server sent for its own request, and no other. *)
Theorem own_response b payloads rest s :
  int_ok 32 (b_correlationID b) → Forall payload_ok payloads →
  rtc step (opened b (mk_receiver None (mjoin (zip_with response_frame (promises (c_log s)).*1 payloads) ++ rest))) s →
  length payloads = length (promises (c_log s)) →
  let n := length (c_results s) in
  c_results s = zip (take n (promises (c_log s)).*2) (inl <$> take n payloads).
Proof.
  intros Hb Hp Hs Hl n. pose proof (opened_numbered _ _ _ Hb Hs) as Hn%promises_numbered.
  apply opened_in_order in Hs as (answered & Ha & Hr & Hc). rewrite Ha in *.
  assert (length answered = n) as En by (unfold n; rewrite <- (length_fmap fst (c_results s)), <- Hc; by rewrite length_fmap).
  rewrite !fmap_app in *. rewrite length_app in Hl.
  rewrite take_app_length' by (by rewrite length_fmap).
  rewrite <- (take_drop n payloads) in Hr, Hp. clearbody n.
  assert (length answered.*1 = length (take n payloads)) as Ht by (rewrite length_fmap, length_take; lia). rewrite zip_with_app in Hr by done.
  rewrite join_app, <- app_assoc in Hr. apply Forall_app in Hn as [Hn _]. apply Forall_app in Hp as [Hp _].
  rewrite receiver_frames in Hr by done. injection Hr as Hr _.
  rewrite Hr, Hc. symmetry. apply zip_fst_snd.
Qed.

(** ** Progress *)

Definition work (s : connection) : nat :=
  (3 * length (option_list (c_sender s)) + 2 * length (c_responses s) + length (option_list (c_current s)) + (if c_closing s then 1 else 0))%nat.
Lemma internal_work s s' : internal s s' → (work s' < work s)%nat ∧ c_log s' = c_log s.
Proof. intros []; unfold work; cbn; rewrite ?length_app; cbn; split; (done || lia). Qed.

(** A sender never waits while [Close] holds the lock. *)
Definition locked (s : connection) : Prop := c_closing s = true → c_sender s = None.
Lemma step_locked s s' : step s s' → locked s → locked s'.
Proof. intros [[]|[]]; unfold locked; cbn; try done; auto. Qed.
Lemma internal_enabled s : locked s → waiting s ≠ [] ∨ c_closing s = true → ∃ s', internal s s'.
Proof.
  destruct s as [b w q cur r res cl log]. unfold locked, waiting. cbn. intros Hl Hw.
  destruct cur as [[id c]|].
  - destruct (answer_returns id r) as (a & r' & E). eexists. by eapply step_answer.
  - destruct q as [|p q]; [|eexists; apply step_take]. destruct cl.
    + rewrite Hl by done. eexists. apply step_closed.
    + destruct w as [p|]; [|naive_solver]. eexists. apply step_handover.
Qed.

(** C6: From every reachable state of a connection, whatever bytes the server sends and also
    while it is being closed, the sender and the receiver can finish without another call:
    then every request that waits for a response has got exactly one response or error, in
    order, and nobody holds the lock. *)
Theorem all_answered b r0 s :
  rtc step (opened b r0) s →
  ∃ s', rtc internal s s' ∧ c_log s' = c_log s ∧ c_closing s' = false ∧
    (c_results s').*1 = (promises (c_log s)).*2 ∧
    responseReceiver (promises (c_log s)).*1 r0 = Ret ((c_results s').*2, c_receiver s').
Proof.
  intros Hs. pose proof (opened_in_order _ _ _ Hs) as Ho.
  assert (locked s) as Hl.
  { remember (opened b r0) as s0 eqn:E. assert (locked s0) as H0 by (by subst). clear E Ho. induction Hs; eauto using step_locked. }
  clear Hs. remember (work s) as n eqn:En. revert s En Ho Hl. induction n as [n IH] using lt_wf_ind. intros s -> Ho Hl.
  destruct (decide (waiting s = [] ∧ c_closing s = false)) as [[Hw Hcl]|Hn].
  - exists s. destruct Ho as (answered & Ha & Hr & Hc). rewrite Hw, app_nil_r in Ha. rewrite Ha. split_and!; auto using rtc_refl.
  - destruct (internal_enabled s Hl) as [s1 H1].
    { destruct (decide (waiting s = [])); [right|by left]. destruct (c_closing s); naive_solver. }
    destruct (internal_work s s1 H1) as [Hlt Hlog].
    destruct (IH _ Hlt s1 eq_refl) as (s' & Hs' & E & Hrest); [by eapply internal_in_order|by eapply step_locked; [left|]|].
    rewrite Hlog in *. exists s'. split_and!; [by eapply rtc_l|done|naive_solver..].
Qed.
End system.

(** ** A call *)

Section call.
Context (checksum : crcPolynomial → bytes → Z).
Abbreviation bytes_of l := (l ≫= render checksum).

(** [send] on an open connection: the request goes out, or it cannot be encoded. *)
Lemma send_valid {A} `{L : protocolLaws checksum A} o o' (rb : A) b :
  fair o → fair o' → valid rb → b_conn b = true → IsAtLeast (conf_Version b) (requiredVersion rb) = true →
  ∃ r b', send checksum o o' true rb b = Ret (r, b') ∧
    match r with
    | inl (id, buf) => id = b_correlationID b ∧ b' = next_id b
    | inr e => b' = b ∧ ∃ pe, e = EncodingFailed pe
    end.
Proof.
  intros Ho Ho' Hv Hc Hr. unfold send. rewrite Hc, Hr. cbn [negb].
  destruct (body_wire o rb Ho Hv) as (l & El & Pl & _), (body_wire o' rb Ho' Hv) as (l' & El' & Pl' & _).
  pose proof (body_order o o' rb l l' Ho Ho' Hv El El') as Hp. unfold framed. rewrite El, El'. cbn [gbind].
  rewrite encode_orders by eauto 10 using alike_field, alike_app, alike_order, Permutation_refl with wire. cbn [gbind].
  assert (returns (if conf_MetricRegistry b then body_metrics rb else Ret 0)) as [n ->]
    by (destruct (conf_MetricRegistry b); [by apply body_counted|by eexists]).
  case_match; do 2 eexists; (split; [done|]; cbn; eauto).
Qed.

(** A request method of Broker writes the request under the next correlation id and
    returns the response the server frames under it, decoded at the version of the request,
    leaving what follows in the stream; or it reports that the request cannot be encoded and
    leaves the connection as it was. *)
Theorem call_response {Req Res} `{LQ : protocolLaws checksum Req} `{LS : protocolLaws checksum Res} o o' o2 (req : Req) (res : Res) l b rest :
  fair o → fair o' → fair o2 → valid req → valid res → version res = version req →
  b_conn b = true → IsAtLeast (conf_Version b) (requiredVersion req) = true → int_ok 32 (b_correlationID b) →
  body_encode o2 res = Ret l → items_error l = None → payload_ok (bytes_of l) →
  let stream := response_frame (b_correlationID b) (bytes_of l) ++ rest in
  ∃ out buf b' r', sendAndReceive checksum o o' true req (Some body_decode) b (mk_receiver None stream) = Ret (out, buf, b', r') ∧
    (out = inl (Some (received res)) ∧ b' = next_id b ∧ r' = mk_receiver None rest ∨
     ∃ pe, out = inr (EncodingFailed pe) ∧ b' = b ∧ r' = mk_receiver None stream).
Proof.
  intros Ho Ho' Ho2 Hq Hs Ev Hc Hr Hid El He Hp st. unfold sendAndReceive.
  destruct (send_valid o o' req b Ho Ho' Hq Hc Hr) as ([[id buf]|e] & b' & -> & Hres); cbn [gbind].
  - destruct Hres as [-> ->]. unfold answer, st. cbn [dead stream]. rewrite receive_frame by done. cbn [gbind fst snd].
    destruct (body_wire o2 res Ho2 Hs) as (l2 & El2 & _ & Hw). rewrite El in El2. injection El2 as <-.
    unfold versionedDecode. rewrite <- Ev. destruct Hp as [_ Hp]. unfold MaxResponseSize in Hp.
    rewrite (decode_wire checksum l _ (received res)) by (done || simpl; lia). cbn [gbind]. do 4 eexists. split; [done|]. by left.
  - destruct Hres as (-> & pe & ->). do 4 eexists. split; [done|]. right. by exists pe.
Qed.
End call.

(** ** Examples *)

(** Two callers; the second sends while the first still waits, and the first is answered. *)
Definition sample_broker : Broker := mk_Broker V1_0_0_0 (B "sarama") true true None 0.
Definition sample_payloads : list bytes := [[0; 0]; [0; 27]].
Definition sample_log : list (Z * nat * bool) := [((0, 7%nat), true); ((1, 8%nat), true)].
Definition sample_stream : bytes := mjoin (zip_with response_frame (promises sample_log).*1 sample_payloads) ++ [].
Definition sample_connection : connection :=
  mk_connection (next_id (next_id sample_broker)) None [(1, 8%nat)] None (mk_receiver None (response_frame 1 [0; 27])) [(7%nat, inl [0; 0])]
    false sample_log.
Lemma sample_run : rtc (step sample_checksum 1) (opened sample_broker (mk_receiver None sample_stream)) sample_connection.
Proof.
  eapply rtc_l; [right; eapply (step_send _ forward forward (mk_HeartbeatRequest (B "g") 1 (B "m")) true 7%nat); vm_compute; reflexivity|].
  eapply rtc_l; [left; apply step_enqueue; vm_compute; lia|].
  eapply rtc_l; [left; apply step_take|].
  eapply rtc_l; [right; eapply (step_send _ forward forward (mk_LeaveGroupRequest (B "g") (B "m")) true 8%nat); vm_compute; reflexivity|].
  eapply rtc_l; [left; eapply step_answer; vm_compute; reflexivity|].
  eapply rtc_l; [left; apply step_enqueue; vm_compute; lia|]. apply rtc_refl.
Qed.
Lemma own_response_witness : c_results sample_connection = zip [7%nat] [inl [0; 0]].
Proof.
  refine (own_response sample_checksum 1 sample_broker sample_payloads [] sample_connection _ _ sample_run eq_refl).
  - by split.
  - apply Forall_cons_2, Forall_cons_2, Forall_nil_2; split; vm_compute; (reflexivity || discriminate).
Defined.
Lemma all_answered_witness :
  ∃ s', rtc (internal 1) sample_connection s' ∧ c_log s' = sample_log ∧ c_closing s' = false ∧
    (c_results s').*1 = [7%nat; 8%nat] ∧ responseReceiver [0; 1] (mk_receiver None sample_stream) = Ret ((c_results s').*2, c_receiver s').
Proof. exact (all_answered sample_checksum 1 sample_broker (mk_receiver None sample_stream) sample_connection sample_run). Defined.

Lemma call_response_witness :
  let b := mk_Broker V1_0_0_0 (B "sarama") true true None 2147483647 in
  let stream := response_frame 2147483647 [0; 27] ++ [9] in
  ∃ out buf b' r', sendAndReceive sample_checksum forward backward true (mk_HeartbeatRequest (B "g") 1 (B "m"))
      (Some (body_decode (A := HeartbeatResponse))) b (mk_receiver None stream) = Ret (out, buf, b', r') ∧
    (out = inl (Some (mk_HeartbeatResponse 27)) ∧ b' = next_id b ∧ r' = mk_receiver None [9] ∨
     ∃ pe, out = inr (EncodingFailed pe) ∧ b' = b ∧ r' = mk_receiver None stream).
Proof.
  intros b st.
  refine (call_response sample_checksum forward backward forward (mk_HeartbeatRequest (B "g") 1 (B "m")) (mk_HeartbeatResponse 27)
    [Data (putInt16 27)] b [9] _ _ _ _ _ eq_refl eq_refl eq_refl _ eq_refl eq_refl _).
  - intros p A l. done.
  - intros p A l. apply reverse_Permutation.
  - intros p A l. done.
  - by split.
  - by split.
  - by split.
  - split; vm_compute; (reflexivity || discriminate).
Defined.
(** The correlation id wraps around after [math.MaxInt32]. *)
Example correlation_id_wraps : b_correlationID (next_id (mk_Broker V1_0_0_0 [] true true None 2147483647)) = -2147483648.
Proof. reflexivity. Qed.
