(* ===== verification/KafkaConfig.v ===== *)
(** * [kafka/config.go]: the configuration of the client and its validation *)

From S2P Require Import Prelude GoStrings KafkaRecord KafkaProtocol KafkaProduce.

(** ** The configuration *)

(** [type Config struct], a record per group.  Values that are only passed on (TLS, proxy, local
    address, metric registry, backoff functions, user data) are left out; of the functions and
    interfaces that are only compared with nil it is kept whether they are set. *)
Record GSSAPIConfig := mk_gssapi {
  AuthType : Z; KeyTabPath : bytes; KerberosConfigPath : bytes; ServiceName : bytes; Username : bytes; gss_Password : bytes; Realm : bytes }.
Record SASLConf := mk_sasl {
  sasl_Enable : bool; Mechanism : bytes; Handshake : bool; User : bytes; Password : bytes;
  has_SCRAMClientGeneratorFunc : bool; has_TokenProvider : bool; GSSAPI : GSSAPIConfig }.
Record NetConf := mk_net {
  MaxOpenRequests : Z; DialTimeout : Z; ReadTimeout : Z; WriteTimeout : Z; SASL : SASLConf; KeepAlive : Z }.
Record MetadataConf := mk_metadata {
  meta_Retry_Max : Z; meta_Retry_Backoff : Z; RefreshFrequency : Z; Full : bool; meta_Timeout : Z }.
Record ProducerConf := mk_producer {
  MaxMessageBytes : Z; conf_RequiredAcks : Z; prod_Timeout : Z; Compression : Z; conf_CompressionLevel : Z;
  has_Partitioner : bool; Idempotent : bool; Return_Successes : bool; Return_Errors : bool;
  Flush_Bytes : Z; Flush_Messages : Z; Flush_Frequency : Z; Flush_MaxMessages : Z; Retry_Max : Z; Retry_Backoff : Z }.
Record GroupConf := mk_group {
  Session_Timeout : Z; Heartbeat_Interval : Z; has_Strategy : bool; Rebalance_Timeout : Z; Rebalance_Retry_Max : Z; Rebalance_Retry_Backoff : Z }.
Record ConsumerConf := mk_consumer {
  Group : GroupConf; cons_Retry_Backoff : Z; Fetch_Min : Z; Fetch_Default : Z; Fetch_Max : Z; cons_MaxWaitTime : Z; MaxProcessingTime : Z;
  cons_Return_Errors : bool; CommitInterval : Z; Initial : Z; Retention : Z; Offsets_Retry_Max : Z; IsolationLevel : Z }.
Record Config := mk_Config {
  Admin_Timeout : Z; Net : NetConf; Metadata : MetadataConf; Producer : ProducerConf; Consumer : ConsumerConf;
  ClientID : bytes; ChannelBufferSize : Z; conf_version : KafkaVersion }.

Definition CompressionGZIP : Z := 1.
Definition CompressionLZ4 : Z := 3.
Definition CompressionLevelDefault : Z := -1000.
Definition OffsetNewest : Z := -1.
Definition OffsetOldest : Z := -2.
Definition ReadUncommitted : Z := 0.
Definition ReadCommitted : Z := 1.
Definition KRB5_USER_AUTH : Z := 1.
Definition KRB5_KEYTAB_AUTH : Z := 2.
Definition SASLTypeOAuth : bytes := B "OAUTHBEARER".
Definition SASLTypePlaintext : bytes := B "PLAIN".
Definition SASLTypeSCRAMSHA256 : bytes := B "SCRAM-SHA-256".
Definition SASLTypeSCRAMSHA512 : bytes := B "SCRAM-SHA-512".
Definition SASLTypeGSSAPI : bytes := B "GSSAPI".
Definition defaultClientID : bytes := B "sarama".

Definition Second : Z := 1000 * Millisecond.
Definition Minute : Z := 60 * Second.

(** [func NewConfig() *Config] *)
Definition NewConfig : Config := {|
  Admin_Timeout := 3 * Second;
  Net := {| MaxOpenRequests := 5; DialTimeout := 30 * Second; ReadTimeout := 30 * Second; WriteTimeout := 30 * Second;
    SASL := {| sasl_Enable := false; Mechanism := []; Handshake := true; User := []; Password := [];
      has_SCRAMClientGeneratorFunc := false; has_TokenProvider := false; GSSAPI := mk_gssapi 0 [] [] [] [] [] [] |};
    KeepAlive := 0 |};
  Metadata := {| meta_Retry_Max := 3; meta_Retry_Backoff := 250 * Millisecond; RefreshFrequency := 10 * Minute; Full := true; meta_Timeout := 0 |};
  Producer := {| MaxMessageBytes := 1000000; conf_RequiredAcks := WaitForLocal; prod_Timeout := 10 * Second; Compression := 0;
    conf_CompressionLevel := CompressionLevelDefault; has_Partitioner := true; Idempotent := false; Return_Successes := false;
    Return_Errors := true; Flush_Bytes := 0; Flush_Messages := 0; Flush_Frequency := 0; Flush_MaxMessages := 0;
    Retry_Max := 3; Retry_Backoff := 100 * Millisecond |};
  Consumer := {| Group := {| Session_Timeout := 10 * Second; Heartbeat_Interval := 3 * Second; has_Strategy := true;
      Rebalance_Timeout := 60 * Second; Rebalance_Retry_Max := 4; Rebalance_Retry_Backoff := 2 * Second |};
    cons_Retry_Backoff := 2 * Second; Fetch_Min := 1; Fetch_Default := 1024 * 1024; Fetch_Max := 0; cons_MaxWaitTime := 250 * Millisecond;
    MaxProcessingTime := 100 * Millisecond; cons_Return_Errors := false; CommitInterval := Second; Initial := OffsetNewest;
    Retention := 0; Offsets_Retry_Max := 3; IsolationLevel := 0 |};
  ClientID := defaultClientID; ChannelBufferSize := 256; conf_version := MinVersion |}.

(** ** Validation *)

(** A [switch] of conditions: the error of the first that holds *)
Abbreviation check := (bool * string)%type.
Fixpoint first_error (l : list check) : option string :=
  match l with
  | [] => None
  | (failed, e) :: l => if failed then Some e else first_error l
  end.

Definition is_empty (s : bytes) : bool := match s with [] => true | _ => false end.
(** [validID]: [\A[A-Za-z0-9._-]+\z] *)
Definition id_char (c : Z) : bool :=
  ((65 <=? c) && (c <=? 90)) || ((97 <=? c) && (c <=? 122)) || ((48 <=? c) && (c <=? 57)) ||
  (c =? 46) || (c =? 95) || (c =? 45).
Definition validID (s : bytes) : bool := negb (is_empty s) && forallb id_char s.
(** [gzip.NewWriterLevel] fails outside [HuffmanOnly] to [BestCompression]. *)
Definition gzip_level_invalid (level : Z) : bool := (level <? -2) || (9 <? level).

Definition check_sasl (s : SASLConf) : list check :=
  let user := [(is_empty (User s), "Net.SASL.User must not be empty when SASL is enabled");
               (is_empty (Password s), "Net.SASL.Password must not be empty when SASL is enabled")] in
  let g := GSSAPI s in
  if decide (Mechanism s = SASLTypePlaintext) then user
  else if decide (Mechanism s = SASLTypeOAuth) then
    [(negb (has_TokenProvider s), "An AccessTokenProvider instance must be provided to Net.SASL.TokenProvider")]
  else if decide (Mechanism s = SASLTypeSCRAMSHA256 ∨ Mechanism s = SASLTypeSCRAMSHA512) then
    user ++ [(negb (has_SCRAMClientGeneratorFunc s), "A SCRAMClientGeneratorFunc function must be provided to Net.SASL.SCRAMClientGeneratorFunc")]
  else if decide (Mechanism s = SASLTypeGSSAPI) then
    [(is_empty (ServiceName g), "Net.SASL.GSSAPI.ServiceName must not be empty when GSS-API mechanism is used");
     ((AuthType g =? KRB5_USER_AUTH) && is_empty (gss_Password g), "Net.SASL.GSSAPI.Password must not be empty");
     ((AuthType g =? KRB5_KEYTAB_AUTH) && is_empty (KeyTabPath g), "Net.SASL.GSSAPI.KeyTabPath must not be empty");
     (negb ((AuthType g =? KRB5_USER_AUTH) || (AuthType g =? KRB5_KEYTAB_AUTH)), "Net.SASL.GSSAPI.AuthType is invalid");
     (is_empty (KerberosConfigPath g), "Net.SASL.GSSAPI.KerberosConfigPath must not be empty when GSS-API mechanism is used");
     (is_empty (Username g), "Net.SASL.GSSAPI.Username must not be empty when GSS-API mechanism is used");
     (is_empty (Realm g), "Net.SASL.GSSAPI.Realm must not be empty when GSS-API mechanism is used")]
  else [(true, "The SASL mechanism configuration is invalid")].
(** An empty mechanism becomes PLAIN, in the configuration itself. *)
Definition with_mechanism (s : SASLConf) : SASLConf :=
  if is_empty (Mechanism s)
  then mk_sasl (sasl_Enable s) SASLTypePlaintext (Handshake s) (User s) (Password s) (has_SCRAMClientGeneratorFunc s) (has_TokenProvider s) (GSSAPI s)
  else s.

Definition check_net (n : NetConf) : list check :=
  [(MaxOpenRequests n <=? 0, "Net.MaxOpenRequests must be > 0");
   (DialTimeout n <=? 0, "Net.DialTimeout must be > 0");
   (ReadTimeout n <=? 0, "Net.ReadTimeout must be > 0");
   (WriteTimeout n <=? 0, "Net.WriteTimeout must be > 0");
   (KeepAlive n <? 0, "Net.KeepAlive must be >= 0")].
Definition check_metadata (m : MetadataConf) : list check :=
  [(meta_Retry_Max m <? 0, "Metadata.Retry.Max must be >= 0");
   (meta_Retry_Backoff m <? 0, "Metadata.Retry.Backoff must be >= 0");
   (RefreshFrequency m <? 0, "Metadata.RefreshFrequency must be >= 0")].
Definition check_producer (n : NetConf) (v : KafkaVersion) (p : ProducerConf) : list check :=
  [(MaxMessageBytes p <=? 0, "Producer.MaxMessageBytes must be > 0");
   (conf_RequiredAcks p <? -1, "Producer.RequiredAcks must be >= -1");
   (prod_Timeout p <=? 0, "Producer.Timeout must be > 0");
   (negb (has_Partitioner p), "Producer.Partitioner must not be nil");
   (Flush_Bytes p <? 0, "Producer.Flush.Bytes must be >= 0");
   (Flush_Messages p <? 0, "Producer.Flush.Messages must be >= 0");
   (Flush_Frequency p <? 0, "Producer.Flush.Frequency must be >= 0");
   (Flush_MaxMessages p <? 0, "Producer.Flush.MaxMessages must be >= 0");
   ((0 <? Flush_MaxMessages p) && (Flush_MaxMessages p <? Flush_Messages p), "Producer.Flush.MaxMessages must be >= Producer.Flush.Messages when set");
   (Retry_Max p <? 0, "Producer.Retry.Max must be >= 0");
   (Retry_Backoff p <? 0, "Producer.Retry.Backoff must be >= 0");
   ((Compression p =? CompressionLZ4) && negb (IsAtLeast v V0_10_0_0), "lz4 compression requires Version >= V0_10_0_0");
   ((Compression p =? CompressionGZIP) && negb (conf_CompressionLevel p =? CompressionLevelDefault) &&
    gzip_level_invalid (conf_CompressionLevel p), "gzip compression does not work with level");
   (Idempotent p && negb (IsAtLeast v V0_11_0_0), "Idempotent producer requires Version >= V0_11_0_0");
   (Idempotent p && (Retry_Max p =? 0), "Idempotent producer requires Producer.Retry.Max >= 1");
   (Idempotent p && negb (conf_RequiredAcks p =? WaitForAll), "Idempotent producer requires Producer.RequiredAcks to be WaitForAll");
   (Idempotent p && (1 <? MaxOpenRequests n), "Idempotent producer requires Net.MaxOpenRequests to be 1")].
Definition check_consumer (v : KafkaVersion) (c : ConsumerConf) : list check :=
  let g := Group c in
  [(Fetch_Min c <=? 0, "Consumer.Fetch.Min must be > 0");
   (Fetch_Default c <=? 0, "Consumer.Fetch.Default must be > 0");
   (Fetch_Max c <? 0, "Consumer.Fetch.Max must be >= 0");
   (cons_MaxWaitTime c <? Millisecond, "Consumer.MaxWaitTime must be >= 1ms");
   (MaxProcessingTime c <=? 0, "Consumer.MaxProcessingTime must be > 0");
   (cons_Retry_Backoff c <? 0, "Consumer.Retry.Backoff must be >= 0");
   (CommitInterval c <=? 0, "Consumer.Offsets.CommitInterval must be > 0");
   (negb (Initial c =? OffsetOldest) && negb (Initial c =? OffsetNewest), "Consumer.Offsets.Initial must be OffsetOldest or OffsetNewest");
   (Offsets_Retry_Max c <? 0, "Consumer.Offsets.Retry.Max must be >= 0");
   (negb (IsolationLevel c =? ReadUncommitted) && negb (IsolationLevel c =? ReadCommitted), "Consumer.IsolationLevel must be ReadUncommitted or ReadCommitted");
   ((IsolationLevel c =? ReadCommitted) && negb (IsAtLeast v V0_11_0_0), "ReadCommitted requires Version >= V0_11_0_0");
   (Session_Timeout g <=? 2 * Millisecond, "Consumer.Group.Session.Timeout must be >= 2ms");
   (Heartbeat_Interval g <? Millisecond, "Consumer.Group.Heartbeat.Interval must be >= 1ms");
   (Session_Timeout g <=? Heartbeat_Interval g, "Consumer.Group.Heartbeat.Interval must be < Consumer.Group.Session.Timeout");
   (negb (has_Strategy g), "Consumer.Group.Rebalance.Strategy must not be empty");
   (Rebalance_Timeout g <=? Millisecond, "Consumer.Group.Rebalance.Timeout must be >= 1ms");
   (Rebalance_Retry_Max g <? 0, "Consumer.Group.Rebalance.Retry.Max must be >= 0");
   (Rebalance_Retry_Backoff g <? 0, "Consumer.Group.Rebalance.Retry.Backoff must be >= 0")].

(** [func (c *Config) Validate() error]: the error and the configuration after it; the warnings
    are only logged. *)
Definition Validate (c : Config) : option string * Config :=
  match first_error (check_net (Net c)) with
  | Some e => (Some e, c)
  | None =>
      let n := Net c in
      let s := if sasl_Enable (SASL n) then with_mechanism (SASL n) else SASL n in
      let c := mk_Config (Admin_Timeout c) (mk_net (MaxOpenRequests n) (DialTimeout n) (ReadTimeout n) (WriteTimeout n) s (KeepAlive n))
                 (Metadata c) (Producer c) (Consumer c) (ClientID c) (ChannelBufferSize c) (conf_version c) in
      (first_error ((if sasl_Enable s then check_sasl s else []) ++
         (Admin_Timeout c <=? 0, "Admin.Timeout must be > 0") :: check_metadata (Metadata c) ++
         check_producer n (conf_version c) (Producer c) ++ check_consumer (conf_version c) (Consumer c) ++
         [(ChannelBufferSize c <? 0, "ChannelBufferSize must be >= 0"); (negb (validID (ClientID c)), "ClientID is invalid")]), c)
  end.

(** ** What validation guarantees *)

Lemma first_error_none l : first_error l = None ↔ Forall (fun k => k.1 = false) l.
Proof.
  induction l as [|[[] e] l IH]; cbn [first_error]; rewrite ?Forall_cons, ?Forall_nil; [by split| |].
  - split; [done|]. by intros [? _].
  - rewrite IH. naive_solver.
Qed.
Lemma with_mechanism_idem s : with_mechanism (with_mechanism s) = with_mechanism s.
Proof. unfold with_mechanism. by destruct s as [? [|] ? ? ? ? ? ?]. Qed.

(** The network part of the configuration after [Validate] *)
Definition validated (c : Config) : Config :=
  let n := Net c in
  mk_Config (Admin_Timeout c) (mk_net (MaxOpenRequests n) (DialTimeout n) (ReadTimeout n) (WriteTimeout n)
    (if sasl_Enable (SASL n) then with_mechanism (SASL n) else SASL n) (KeepAlive n))
    (Metadata c) (Producer c) (Consumer c) (ClientID c) (ChannelBufferSize c) (conf_version c).
Definition all_checks (c : Config) : list check :=
  check_net (Net c) ++ (if sasl_Enable (SASL (Net c)) then check_sasl (SASL (Net c)) else []) ++
  (Admin_Timeout c <=? 0, "Admin.Timeout must be > 0") :: check_metadata (Metadata c) ++
  check_producer (Net c) (conf_version c) (Producer c) ++ check_consumer (conf_version c) (Consumer c) ++
  [(ChannelBufferSize c <? 0, "ChannelBufferSize must be >= 0"); (negb (validID (ClientID c)), "ClientID is invalid")].
Lemma first_error_app l k : first_error (l ++ k) = match first_error l with Some e => Some e | None => first_error k end.
Proof. induction l as [|[[] e] l IH]; [done..|]. exact IH. Qed.
(** [Validate] runs all checks on the configuration with the mechanism filled in. *)
Lemma Validate_checks c : (Validate c).1 = first_error (all_checks (validated c)).
Proof.
  unfold Validate, all_checks. rewrite (first_error_app (check_net _)).
  change (check_net (Net (validated c))) with (check_net (Net c)). destruct (first_error (check_net (Net c))); [done|].
  cbn [fst]. unfold validated. cbn [SASL Net Admin_Timeout Metadata Producer Consumer ClientID ChannelBufferSize conf_version].
  done.
Qed.

(** A configuration that Validate accepts stays accepted, and satisfies what the client
    relies on: positive limits, an idempotent producer with one open request, all
    acknowledgements, a retry and a broker from 0.11 on, a heartbeat shorter than the session,
    and a SASL mechanism when SASL is enabled. *)
Theorem Validate_guarantees c c' : Validate c = (None, c') →
  let p := Producer c' in
  let g := Group (Consumer c') in
  Validate c' = (None, c') ∧ c' = validated c ∧ 0 < MaxOpenRequests (Net c') ∧ 0 ≤ Retry_Max p ∧ 0 ≤ ChannelBufferSize c' ∧ 0 < MaxMessageBytes p ∧
  (Flush_MaxMessages p = 0 ∨ Flush_Messages p ≤ Flush_MaxMessages p) ∧
  (Idempotent p = true → IsAtLeast (conf_version c') V0_11_0_0 = true ∧ conf_RequiredAcks p = WaitForAll ∧ MaxOpenRequests (Net c') = 1 ∧ 1 ≤ Retry_Max p) ∧
  (IsolationLevel (Consumer c') = ReadCommitted → IsAtLeast (conf_version c') V0_11_0_0 = true) ∧
  Millisecond ≤ Heartbeat_Interval g < Session_Timeout g ∧
  (sasl_Enable (SASL (Net c')) = true → Mechanism (SASL (Net c')) ≠ []).
Proof.
  intros Hv p g. assert (c' = validated c ∧ first_error (all_checks (validated c)) = None) as [-> He].
  { split; [|by rewrite <- Validate_checks, Hv]. unfold Validate in Hv. destruct (first_error (check_net (Net c))); [done|].
    by injection Hv as _ <-. }
  assert (validated (validated c) = validated c) as Hid.
  { unfold validated. cbn. do 2 f_equal. destruct (sasl_Enable (SASL (Net c))) eqn:E; cbn; [|by rewrite E].
    rewrite with_mechanism_idem. unfold with_mechanism. destruct (is_empty _); cbn; by rewrite E. }
  assert (Validate (validated c) = (None, validated c)) as Hv'.
  { pose proof (Validate_checks (validated c)) as E. rewrite Hid, He in E. unfold Validate in *. cbn [fst] in E.
    destruct (first_error (check_net _)); [done|]. cbn [fst] in E. rewrite E. f_equal. exact Hid. }
  split; [done|]. split; [done|]. apply first_error_none in He. unfold all_checks, check_net, check_metadata, check_producer, check_consumer in He.
  decompose_Forall_hyps. subst p g. cbn [Net validated Producer Consumer SASL MaxOpenRequests ChannelBufferSize conf_version] in *.
  split_and!; try lia.
  - intros E. rewrite E in *. cbn [andb] in *. rewrite <- (negb_involutive (IsAtLeast _ _)). split_and!; [by apply negb_true_iff|lia..].
  - intros E. rewrite E in *. cbn [andb Z.eqb] in *. rewrite <- (negb_involutive (IsAtLeast _ _)). by apply negb_true_iff.
  - destruct (SASL (Net c)) as [[] m ? ? ? ? ? ?]; cbn; [|done]. intros _. unfold with_mechanism. by destruct m.
Qed.

(** The producer of an application with acknowledgements by all replicas *)
Definition sample_config : Config :=
  let c := NewConfig in
  let n := Net c in
  let p := Producer c in
  mk_Config (Admin_Timeout c)
    (mk_net 1 (DialTimeout n) (ReadTimeout n) (WriteTimeout n)
      (mk_sasl true [] true (B "user") (B "secret") false false (GSSAPI (SASL n))) (KeepAlive n))
    (Metadata c)
    (mk_producer (MaxMessageBytes p) WaitForAll (prod_Timeout p) CompressionGZIP 9 true true true true 0 10 0 20 3 (Retry_Backoff p))
    (Consumer c) (B "sql-review") 256 V1_0_0_0.
Lemma Validate_guarantees_witness :
  let c := validated sample_config in
  let p := Producer c in
  let g := Group (Consumer c) in
  Validate c = (None, c) ∧ c = validated sample_config ∧ 0 < MaxOpenRequests (Net c) ∧ 0 ≤ Retry_Max p ∧ 0 ≤ ChannelBufferSize c ∧ 0 < MaxMessageBytes p ∧
  (Flush_MaxMessages p = 0 ∨ Flush_Messages p ≤ Flush_MaxMessages p) ∧
  (Idempotent p = true → IsAtLeast (conf_version c) V0_11_0_0 = true ∧ conf_RequiredAcks p = WaitForAll ∧ MaxOpenRequests (Net c) = 1 ∧ 1 ≤ Retry_Max p) ∧
  (IsolationLevel (Consumer c) = ReadCommitted → IsAtLeast (conf_version c) V0_11_0_0 = true) ∧
  Millisecond ≤ Heartbeat_Interval g < Session_Timeout g ∧
  (sasl_Enable (SASL (Net c)) = true → Mechanism (SASL (Net c)) ≠ []).
Proof. apply (Validate_guarantees sample_config). vm_compute. reflexivity. Defined.
Example NewConfig_valid : Validate NewConfig = (None, NewConfig).
Proof. vm_compute. reflexivity. Qed.

(** A session timeout of 2 ms is refused, with the text that it must be at least 2 ms. *)
Lemma session_timeout_boundary c : (Validate c).1 = None → Session_Timeout (Group (Consumer c)) ≠ 2 * Millisecond.
Proof.
  rewrite Validate_checks. intros He%first_error_none. unfold all_checks, check_consumer in He. decompose_Forall_hyps. lia.
Qed.
