(* ===== verification/KafkaSync.v ===== *)
(** * [kafka/sync_producer.go], [lib/kafka.go]: sending and waiting for the outcome

    A synchronous producer hands its messages to the asynchronous one and waits on a channel of
    each message, its expectation, which two goroutines fill from the channels of successes and
    errors.  The goroutines and the callers are steps on the shared channels; what the
    asynchronous producer reports of a message, and when, is free.  A message is a number, the
    pointer of the source. *)

From S2P Require Import Prelude GoStrings KafkaConfig.

(** ** The synchronous producer *)

(** The error of a message that was not produced *)
Abbreviation perror := Z.
(** What is put in an expectation: nil, or the error *)
Abbreviation outcome := (option perror).

(** A call in progress: its messages, those not sent yet, the expectations not read yet, the
    errors collected, and whether the call is [SendMessage].  The goroutine of [SendMessages]
    that sends runs beside the loop that reads. *)
Record call := mk_call {
  c_msgs : list nat; c_unsent : list nat; c_waiting : list nat; c_errors : list (nat * perror); c_single : bool }.

(** The channels: the messages sent to the input that are not reported yet, the two channels of
    reports, the expectations that have a value, the fields the producer has set in a message,
    the calls, and whether the input is closed *)
Record syncProducer := mk_sp {
  sp_input : list nat; sp_successes : list nat; sp_errs : list (nat * perror);
  sp_expect : gmap nat (option outcome); sp_fields : gmap nat (Z * Z); sp_calls : gmap nat call; sp_closed : bool }.

Definition set_input l s := mk_sp l (sp_successes s) (sp_errs s) (sp_expect s) (sp_fields s) (sp_calls s) (sp_closed s).
Definition set_successes l s := mk_sp (sp_input s) l (sp_errs s) (sp_expect s) (sp_fields s) (sp_calls s) (sp_closed s).
Definition set_errs l s := mk_sp (sp_input s) (sp_successes s) l (sp_expect s) (sp_fields s) (sp_calls s) (sp_closed s).
Definition set_expect m s := mk_sp (sp_input s) (sp_successes s) (sp_errs s) m (sp_fields s) (sp_calls s) (sp_closed s).
Definition set_fields m s := mk_sp (sp_input s) (sp_successes s) (sp_errs s) (sp_expect s) m (sp_calls s) (sp_closed s).
Definition set_calls m s := mk_sp (sp_input s) (sp_successes s) (sp_errs s) (sp_expect s) (sp_fields s) m (sp_closed s).

(** [func verifyProducerConfig(config Config) error] *)
Inductive verify_error := NeedsErrors | NeedsSuccesses.
Definition verifyProducerConfig (returnErrors returnSuccesses : bool) : option verify_error :=
  if negb returnErrors then Some NeedsErrors else if negb returnSuccesses then Some NeedsSuccesses else None.

(** [func newSyncProducerFromAsyncProducer(p asyncProducer) syncProducer] *)
Definition newSyncProducerFromAsyncProducer : syncProducer := mk_sp [] [] [] ∅ ∅ ∅ false.

(** [SendMessage] and [SendMessages] are called *)
Definition start_call (k : nat) (msgs : list nat) (single : bool) (s : syncProducer) : syncProducer :=
  set_calls (<[k := mk_call msgs msgs [] [] single]> (sp_calls s)) s.

(** [msg.expectation = make(chan ProducerError, 1); sp.producer.Input() <- msg]: sending on a
    closed channel panics. *)
Definition send_next (k : nat) (s : syncProducer) : option (Go syncProducer) :=
  c ← sp_calls s !! k;
  match c_unsent c with
  | [] => None
  | m :: rest =>
      Some (if sp_closed s then Panic ExplicitPanic
            else Ret (set_calls (<[k := mk_call (c_msgs c) rest (c_waiting c ++ [m]) (c_errors c) (c_single c)]> (sp_calls s))
                       (set_expect (<[m := None]> (sp_expect s)) (set_input (sp_input s ++ [m]) s))))
  end.

(** [err := <-expectation]: enabled when the expectation has a value *)
Definition collect_next (k : nat) (s : syncProducer) : option syncProducer :=
  c ← sp_calls s !! k;
  match c_waiting c with
  | [] => None
  | m :: rest =>
      o ← sp_expect s !! m ≫= id;
      Some (set_calls (<[k := mk_call (c_msgs c) (c_unsent c) rest (match o with None => c_errors c | Some e => c_errors c ++ [(m, e)] end) (c_single c)]> (sp_calls s))
             (set_expect (<[m := None]> (sp_expect s)) s))
  end.

(** The asynchronous producer reports message [m], setting its fields when it was stored. *)
Definition report_success (m : nat) (partition offset : Z) (s : syncProducer) : option syncProducer :=
  if decide (m ∈ sp_input s)
  then Some (set_fields (<[m := (partition, offset)]> (sp_fields s)) (set_successes (sp_successes s ++ [m]) (set_input (filter (.≠ m) (sp_input s)) s)))
  else None.
Definition report_error (m : nat) (e : perror) (s : syncProducer) : option syncProducer :=
  if decide (m ∈ sp_input s)
  then Some (set_errs (sp_errs s ++ [(m, e)]) (set_input (filter (.≠ m) (sp_input s)) s))
  else None.

(** [expectation <- v], on a channel of capacity one: enabled when it is empty *)
Definition fulfil (m : nat) (o : outcome) (s : syncProducer) : option syncProducer :=
  match sp_expect s !! m with
  | Some None => Some (set_expect (<[m := Some o]> (sp_expect s)) s)
  | _ => None
  end.
(** [func (sp syncProducer) handleSuccesses()], one round *)
Definition handleSuccesses (s : syncProducer) : option syncProducer :=
  match sp_successes s with [] => None | m :: l => fulfil m None (set_successes l s) end.
(** [func (sp syncProducer) handleErrors()], one round *)
Definition handleErrors (s : syncProducer) : option syncProducer :=
  match sp_errs s with [] => None | (m, e) :: l => fulfil m (Some e) (set_errs l s) end.

(** What a finished call returns: [SendMessages] the errors, [SendMessage] the error of its
    message or its fields. *)
Inductive result := Errors (l : list (nat * perror)) | Sent (partition offset : Z) | Failed (e : perror).
Definition call_result (k : nat) (s : syncProducer) : option result :=
  c ← sp_calls s !! k;
  match c_unsent c, c_waiting c with
  | [], [] =>
      if c_single c then
        match c_errors c, c_msgs c with
        | (_, e) :: _, _ => Some (Failed e)
        | [], m :: _ => '(p, o) ← sp_fields s !! m; Some (Sent p o)
        | [], [] => None
        end
      else Some (Errors (c_errors c))
  | _, _ => None
  end.

(** [func (sp syncProducer) Close() error]: the producer finishes what is in flight, then the
    input is closed. *)
Definition Close (s : syncProducer) : syncProducer :=
  mk_sp (sp_input s) (sp_successes s) (sp_errs s) (sp_expect s) (sp_fields s) (sp_calls s) true.

(** ** Runs *)

Inductive event :=
| Start (k : nat) (msgs : list nat) (single : bool) | Send (k : nat) | Collect (k : nat)
| Succeeds (m : nat) (partition offset : Z) | Fails (m : nat) (e : perror) | HandleSuccess | HandleError.

(** A step of a producer that is not closed; [None] when it is not enabled. *)
Definition sp_step (e : event) (s : syncProducer) : option syncProducer :=
  match e with
  | Start k msgs single => match sp_calls s !! k with None => Some (start_call k msgs single s) | Some _ => None end
  | Send k => g ← send_next k s; match g with Ret s => Some s | Panic _ => None end
  | Collect k => collect_next k s
  | Succeeds m p o => report_success m p o s
  | Fails m e => report_error m e s
  | HandleSuccess => handleSuccesses s
  | HandleError => handleErrors s
  end.
Fixpoint sp_run (es : list event) (s : syncProducer) : option syncProducer :=
  match es with [] => Some s | e :: es' => s ← sp_step e s; sp_run es' s end.

(** ** The sender of the program ([lib/kafka.go]) *)

(** [type KafkaSender struct]: the producer is nil when it could not be made. *)
Record KafkaSender := mk_sender { ks_client : option syncProducer }.
(** [type KafkaConfType struct] *)
Record KafkaConfType := mk_kconf { KafkaHost : bytes; KafkaTopic : bytes; KafkaPort : Z; KafkaChan : Z; KafkaThreadNum : Z }.

(** The address of the broker *)
Definition kafka_addr (c : KafkaConfType) : bytes := KafkaHost c ++ B ":" ++ Itoa (KafkaPort c).

(** [func NewKafkaSender(kafka_conf KafkaConfType) (kafka KafkaSender, err error)]; [dial] makes
    the producer for the address, [make(chan string, n)] panics for a negative [n]. *)
Definition NewKafkaSender (dial : bytes → syncProducer + perror) (c : KafkaConfType) : Go (KafkaSender * option perror) :=
  if KafkaChan c <? 0 then Panic MakeSliceLen
  else Ret (match dial (kafka_addr c) with
            | inl p => (mk_sender (Some p), None)
            | inr e => (mk_sender None, Some e)
            end).

(** [func NewMessage(k KafkaSender, toppic string, line string) (err error)]: one message is
    sent and its outcome awaited, [send]; then the producer is closed. *)
Definition NewMessage (send : bytes → bytes → syncProducer → syncProducer * option perror) (k : KafkaSender) (topic line : bytes) :
    Go (KafkaSender * option perror) :=
  match ks_client k with
  | None => Panic NilDereference
  | Some p =>
      if sp_closed p then Panic ExplicitPanic
      else let (p, err) := send topic line p in Ret (mk_sender (Some (Close p)), err)
  end.

(** [func (k KafkaSender) sendToKafka(toppic string)], over the lines of the channel; the outcome
    of a line is only logged. *)
Fixpoint sendToKafka (send : bytes → bytes → syncProducer → syncProducer * option perror) (topic : bytes) (lines : list bytes)
    (k : KafkaSender) : Go KafkaSender :=
  match lines with
  | [] => Ret k
  | v :: lines' =>
      match ks_client k with
      | None => Panic NilDereference
      | Some p => if sp_closed p then Panic ExplicitPanic
                  else sendToKafka send topic lines' (mk_sender (Some (send topic v p).1))
      end
  end.

(** [func NewReciver(kafka_conf KafkaConfType) sarama.Consumer]: the consumer is closed when it
    is returned, and closing one that could not be made dereferences nil. *)
Definition NewReciver {C} (dial : bytes → C + perror) (close : C → C) (c : KafkaConfType) : Go C :=
  match dial (kafka_addr c) with
  | inl consumer => Ret (close consumer)
  | inr _ => Panic NilDereference
  end.

(** The end of the handler of [prodSQL.go]: the error of the sender is logged, and the message
    sent all the same. *)
Definition send_result (dial : bytes → syncProducer + perror) (send : bytes → bytes → syncProducer → syncProducer * option perror)
    (c : KafkaConfType) (topic line : bytes) : Go (KafkaSender * option perror) :=
  let* (k, _) := NewKafkaSender dial c in NewMessage send k topic line.

(** * Properties: the outcome of a message ([kafka/sync_producer.go])

    Whatever the interleaving of the callers, the asynchronous producer and the two goroutines
    that forward its reports: a call returns what was reported of its own messages, in their
    order, and no goroutine is ever stuck. *)
(** ** What was reported *)

(** The report in an event *)
Definition report_of (e : event) (m : nat) : option outcome :=
  match e with
  | Succeeds m' _ _ => if decide (m = m') then Some None else None
  | Fails m' err => if decide (m = m') then Some (Some err) else None
  | _ => None
  end.
Fixpoint reported (es : list event) (m : nat) : option outcome :=
  match es with [] => None | e :: es' => match report_of e m with Some o => Some o | None => reported es' m end end.

(** The messages of the calls that were started *)
Definition started (es : list event) : list nat := es ≫= fun e => match e with Start _ msgs _ => msgs | _ => [] end.

(** The errors reported of some messages, in their order *)
Definition failures (es : list event) (ms : list nat) : list (nat * perror) :=
  omap (fun m => match reported es m with Some (Some e) => Some (m, e) | _ => None end) ms.

Lemma reported_snoc es e m :
  reported (es ++ [e]) m = match reported es m with Some o => Some o | None => report_of e m end.
Proof. induction es as [|e' es IH]; cbn; [by destruct (report_of e m)|]. by destruct (report_of e' m). Qed.

Lemma started_snoc es e : started (es ++ [e]) = started es ++ started [e].
Proof. apply bind_app. Qed.

Lemma sp_run_snoc es e s : sp_run (es ++ [e]) s = sp_run es s ≫= sp_step e.
Proof.
  revert s. induction es as [|e' es IH]; intros s; cbn [app sp_run]; [cbn; by destruct (sp_step e s)|].
  destruct (sp_step e' s); cbn; [apply IH|done].
Qed.

Lemma failures_snoc es e ms : (∀ m, m ∈ ms → is_Some (reported es m)) → failures (es ++ [e]) ms = failures es ms.
Proof.
  unfold failures. induction ms as [|m ms IH]; intros H; [done|]. cbn. rewrite reported_snoc.
  destruct (H m ltac:(set_solver)) as [o ->]. rewrite IH by set_solver. done.
Qed.

(** ** The invariant *)

(** Nothing has happened to [m]. *)
Definition untouched (es : list event) (s : syncProducer) (m : nat) : Prop := reported es m = None ∧ sp_expect s !! m = None.
(** [m] is with the asynchronous producer, or its report is on the way. *)
Definition on_the_way (s : syncProducer) (m : nat) : Prop := m ∈ sp_input s ∨ m ∈ sp_successes s ∨ m ∈ (sp_errs s).*1.

Record call_ok (es : list event) (s : syncProducer) (c : call) : Prop := {
  call_split : ∃ fin, c_msgs c = fin ++ c_waiting c ++ c_unsent c ∧ c_errors c = failures es fin ∧ ∀ m, m ∈ fin → is_Some (reported es m);
  call_waiting : ∀ m, m ∈ c_waiting c → on_the_way s m ∨ ∃ o, sp_expect s !! m = Some (Some o);
  call_unsent : ∀ m, m ∈ c_unsent c → untouched es s m;
  call_started : c_msgs c ⊆ started es;
  call_nodup : NoDup (c_msgs c) }.

Record inv (es : list event) (s : syncProducer) : Prop := {
  inv_open : sp_closed s = false;
  inv_input : ∀ m, m ∈ sp_input s → reported es m = None;
  inv_successes : ∀ m, m ∈ sp_successes s → reported es m = Some None;
  inv_errs : ∀ m e, (m, e) ∈ sp_errs s → reported es m = Some (Some e);
  inv_empty : ∀ m, on_the_way s m → sp_expect s !! m = Some None;
  inv_nodup : NoDup (sp_input s ++ sp_successes s ++ (sp_errs s).*1);
  inv_expect : ∀ m o, sp_expect s !! m = Some (Some o) → reported es m = Some o;
  inv_fields : ∀ m, reported es m = Some None → ∃ p o, sp_fields s !! m = Some (p, o) ∧ Succeeds m p o ∈ es;
  inv_untouched : ∀ m, m ∉ started es → untouched es s m;
  inv_calls : ∀ k c, sp_calls s !! k = Some c → call_ok es s c;
  inv_apart : ∀ k1 k2 c1 c2 m, sp_calls s !! k1 = Some c1 → sp_calls s !! k2 = Some c2 → m ∈ c_msgs c1 → m ∈ c_msgs c2 → k1 = k2 }.

Lemma sync_inv_init : inv [] newSyncProducerFromAsyncProducer.
Proof. split; cbn; unfold on_the_way, untouched; cbn; try set_solver; try done. constructor. Qed.

(** An event that reports nothing leaves the reports as they are. *)
Lemma reported_silent es e m : report_of e m = None → reported (es ++ [e]) m = reported es m.
Proof. intros H. rewrite reported_snoc, H. by destruct (reported es m). Qed.

Lemma failures_silent es e ms : (∀ m, report_of e m = None) → failures (es ++ [e]) ms = failures es ms.
Proof. intros H. unfold failures. induction ms as [|m ms IH]; [done|]. cbn. by rewrite reported_silent, IH. Qed.

(** A call that did not move stays well-formed when the rest of the state moves. *)
Lemma call_ok_mono es e s s' c :
  call_ok es s c → (∀ m, is_Some (reported es m) → reported (es ++ [e]) m = reported es m) →
  (∀ m, m ∈ c_waiting c → on_the_way s m → on_the_way s' m ∨ ∃ o, sp_expect s' !! m = Some (Some o)) →
  (∀ m o, m ∈ c_waiting c → sp_expect s !! m = Some (Some o) → sp_expect s' !! m = Some (Some o)) →
  (∀ m, m ∈ c_unsent c → untouched es s m → untouched (es ++ [e]) s' m) → call_ok (es ++ [e]) s' c.
Proof.
  intros [(fin & Em & Ee & Hfin) Hw Hu Hst Hnd] Hrep Hway Hex Hun. split.
  - exists fin. split; [done|]. split; [by rewrite Ee, failures_snoc|]. intros m Hm. rewrite Hrep; auto.
  - intros m Hm. destruct (Hw m Hm) as [H|[o H]]; [auto|]. right. eauto.
  - intros m Hm. auto.
  - rewrite started_snoc. set_solver.
  - done.
Qed.

Lemma started_fresh es e m : NoDup (started (es ++ [e])) → m ∈ started [e] → m ∉ started es.
Proof. rewrite started_snoc. intros Hnd Hm Hin. apply NoDup_app in Hnd as (_ & H & _). by apply (H m). Qed.

Lemma inv_start es s k msgs single s' :
  inv es s → NoDup (started (es ++ [Start k msgs single])) → sp_step (Start k msgs single) s = Some s' → inv (es ++ [Start k msgs single]) s'.
Proof.
  intros [] Hnd. cbn. destruct (sp_calls s !! k) eqn:Ek; [done|]. intros [= <-].
  assert (∀ m, reported (es ++ [Start k msgs single]) m = reported es m) as Hrep by (intros; by apply reported_silent).
  assert (∀ m, m ∈ msgs → m ∉ started es) as Hfresh by (intros m Hm; apply (started_fresh es _ m Hnd); cbn; by rewrite app_nil_r).
  assert (NoDup msgs) as Hmsgs by (rewrite started_snoc in Hnd; apply NoDup_app in Hnd as (_ & _ & H); cbn in H; by rewrite app_nil_r in H).
  split; cbn; try (setoid_rewrite Hrep); try done.
  - intros m Hm. destruct (inv_fields0 m Hm) as (p & o & ? & ?). exists p, o. set_solver.
  - intros m. rewrite started_snoc. intros Hm. unfold untouched in *. cbn. rewrite Hrep. apply inv_untouched0. set_solver.
  - intros k' c'. rewrite lookup_insert_Some. intros [[<- <-]|[Hne Hc]].
    + split; cbn.
      * exists []. split_and!; [done|done|set_solver].
      * set_solver.
      * intros m Hm. unfold untouched in *. cbn. rewrite Hrep. apply inv_untouched0. auto.
      * rewrite started_snoc. cbn. set_solver.
      * done.
    + apply (call_ok_mono es _ s); [by apply (inv_calls0 k')|done|auto|auto|]. intros m _ [? ?]. split; cbn; [by rewrite Hrep|done].
  - intros k1 k2 c1 c2 m. rewrite !lookup_insert_Some. intros [[<- <-]|[H1 C1]] [[<- <-]|[H2 C2]] M1 M2; [done| | |by eapply inv_apart0].
    + exfalso. cbn in M1. apply (Hfresh m M1). by apply (call_started _ _ _ (inv_calls0 _ _ C2)).
    + exfalso. cbn in M2. apply (Hfresh m M2). by apply (call_started _ _ _ (inv_calls0 _ _ C1)).
Qed.

Lemma inv_send es s k s' : inv es s → sp_step (Send k) s = Some s' → inv (es ++ [Send k]) s'.
Proof.
  intros [] Hstep. cbn in Hstep. unfold send_next in Hstep. destruct (sp_calls s !! k) as [c|] eqn:Ek; [|done]. cbn in Hstep.
  destruct (c_unsent c) as [|m rest] eqn:Eu; [done|]. rewrite inv_open0 in Hstep. cbn in Hstep. injection Hstep as <-.
  assert (∀ m, reported (es ++ [Send k]) m = reported es m) as Hrep by (intros; by apply reported_silent).
  pose proof (inv_calls0 k c Ek) as [(fin & Em & Ee & Hfin) Hw Hu Hst Hndc]. rewrite Eu in *.
  destruct (Hu m ltac:(set_solver)) as [Hrm Hxm].
  assert (∀ m', on_the_way s m' → m' ≠ m) as Hway by (intros m' H ->; rewrite (inv_empty0 _ H) in Hxm; done).
  assert (m ∈ c_msgs c) as Hmc by (rewrite Em; set_solver).
  set (s' := set_calls _ _). assert (∀ m', on_the_way s' m' ↔ on_the_way s m' ∨ m' = m) as Hway' by (intros m'; unfold on_the_way; cbn; set_solver).
  assert (∀ m', m' ≠ m → sp_expect s' !! m' = sp_expect s !! m') as Hx by (intros; cbn; by rewrite lookup_insert_ne).
  split; cbn; try (setoid_rewrite Hrep); try done.
  - set_solver.
  - intros m' Hm'. apply Hway' in Hm' as [Hm'| ->]; [|by rewrite lookup_insert_eq]. rewrite lookup_insert_ne by (apply not_eq_sym; auto). auto.
  - assert (m ∉ sp_input s ++ sp_successes s ++ (sp_errs s).*1) as Hni by (intros H; apply (Hway m); [unfold on_the_way; set_solver|done]).
    rewrite <- (assoc_L (++)). cbn [app]. rewrite <- Permutation_middle. by constructor.
  - intros m' o. destruct (decide (m' = m)) as [->|Hne]; [by rewrite lookup_insert_eq|]. rewrite lookup_insert_ne by done. auto.
  - intros m' Hm'. destruct (inv_fields0 m' Hm') as (p & o & ? & ?). exists p, o. set_solver.
  - intros m'. rewrite started_snoc. cbn. rewrite app_nil_r. intros Hm'. unfold untouched in *. cbn. rewrite Hrep, lookup_insert_ne by set_solver. auto.
  - intros k' c'. rewrite lookup_insert_Some. intros [[<- <-]|[Hne Hc]].
    + rewrite Em in Hndc. split; cbn.
      * exists fin. split_and!; [rewrite Em; by rewrite <- !(assoc_L (++))|by rewrite failures_silent|]. intros. rewrite Hrep. auto.
      * intros m' [Hm'| ->%list_elem_of_singleton]%elem_of_app; [|left; by apply Hway'; right].
        destruct (Hw m' Hm') as [H|[o H]]; [left; apply Hway'; auto|]. right. exists o. rewrite lookup_insert_ne; [done|]. intros ->. congruence.
      * intros m' Hm'. destruct (Hu m' ltac:(set_solver)) as [? ?]. split; cbn; [by rewrite Hrep|]. rewrite lookup_insert_ne; [done|]. intros ->.
        apply NoDup_app in Hndc as (_ & _ & Hndc). apply NoDup_app in Hndc as (_ & _ & Hndc). by apply NoDup_cons in Hndc as [? _].
      * rewrite started_snoc. set_solver.
      * by rewrite Em.
    + assert (m ∉ c_msgs c') as Hm' by (intros H; apply Hne; by apply (inv_apart0 k k' c c' m)).
      pose proof (inv_calls0 k' c' Hc) as Hok. destruct (call_split _ _ _ Hok) as (fin' & Em' & _ & _). rewrite Em' in Hm'.
      apply (call_ok_mono es _ s); [done|auto| | |].
      * intros m' _ H. left. apply Hway'. auto.
      * intros m' o Hm2 H. rewrite Hx; [done|]. set_solver.
      * intros m' Hm2 [? ?]. split; [by rewrite Hrep|]. rewrite Hx; [done|]. set_solver.
  - intros k1 k2 c1 c2 m'. rewrite !lookup_insert_Some. intros [[<- <-]|[H1 C1]] [[<- <-]|[H2 C2]] M1 M2; [done|..]; by eapply inv_apart0.
Qed.

Lemma failures_app es l1 l2 : failures es (l1 ++ l2) = failures es l1 ++ failures es l2.
Proof. apply omap_app. Qed.

Lemma inv_collect es s k s' : inv es s → sp_step (Collect k) s = Some s' → inv (es ++ [Collect k]) s'.
Proof.
  intros [] Hstep. cbn in Hstep. unfold collect_next in Hstep. destruct (sp_calls s !! k) as [c|] eqn:Ek; [|done]. cbn in Hstep.
  destruct (c_waiting c) as [|m rest] eqn:Ew; [done|]. destruct (sp_expect s !! m) as [[o|]|] eqn:Ex; cbn in Hstep; try done. injection Hstep as <-.
  assert (∀ m, reported (es ++ [Collect k]) m = reported es m) as Hrep by (intros; by apply reported_silent).
  pose proof (inv_calls0 k c Ek) as [(fin & Em & Ee & Hfin) Hw Hu Hst Hndc]. rewrite Ew in *.
  pose proof (inv_expect0 m o Ex) as Hro.
  assert (∀ m', on_the_way s m' → m' ≠ m) as Hway by (intros m' H ->; rewrite (inv_empty0 _ H) in Ex; done).
  assert (m ∈ c_msgs c) as Hmc by (rewrite Em; set_solver).
  set (s' := set_calls _ _). assert (∀ m', m' ≠ m → sp_expect s' !! m' = sp_expect s !! m') as Hx by (intros; cbn; by rewrite lookup_insert_ne).
  split; cbn; try (setoid_rewrite Hrep); try done.
  - intros m' Hm'. change (on_the_way s m') in Hm'. rewrite lookup_insert_ne by (apply not_eq_sym; auto). auto.
  - intros m' o'. destruct (decide (m' = m)) as [->|Hne]; [by rewrite lookup_insert_eq|]. rewrite lookup_insert_ne by done. auto.
  - intros m' Hm'. destruct (inv_fields0 m' Hm') as (p & o' & ? & ?). exists p, o'. set_solver.
  - intros m'. rewrite started_snoc. cbn. rewrite app_nil_r. intros Hm'. unfold untouched in *. cbn. rewrite Hrep, lookup_insert_ne by set_solver. auto.
  - intros k' c'. rewrite lookup_insert_Some. intros [[<- <-]|[Hne Hc]].
    + rewrite Em in Hndc. apply NoDup_app in Hndc as Hnd'. destruct Hnd' as (_ & _ & Hnd'). apply NoDup_app in Hnd' as (Hnd1 & Hnd2 & _). apply NoDup_cons in Hnd1 as [Hmr _]. split; cbn.
      * exists (fin ++ [m]). split_and!; [rewrite Em; by rewrite <- !(assoc_L (++))| |].
        -- rewrite failures_silent by done. rewrite failures_app, <- Ee. unfold failures at 1. cbn. rewrite Hro. destruct o; cbn; [done|by rewrite app_nil_r].
        -- intros m'. rewrite Hrep. intros [?| ->%list_elem_of_singleton]%elem_of_app; [auto|by rewrite Hro].
      * intros m' Hm'. destruct (Hw m' ltac:(set_solver)) as [H|[o' H]]; [left; exact H|]. right. exists o'. rewrite lookup_insert_ne; [done|]. intros ->. done.
      * intros m' Hm'. destruct (Hu m' Hm') as [? ?]. split; cbn; [by rewrite Hrep|]. rewrite lookup_insert_ne; [done|]. intros ->. congruence.
      * rewrite started_snoc. set_solver.
      * by rewrite Em.
    + assert (m ∉ c_msgs c') as Hm' by (intros H; apply Hne; by apply (inv_apart0 k k' c c' m)).
      pose proof (inv_calls0 k' c' Hc) as Hok. destruct (call_split _ _ _ Hok) as (fin' & Em' & _ & _). rewrite Em' in Hm'.
      apply (call_ok_mono es _ s); [done|auto|auto| |].
      * intros m' o' Hm2 H. rewrite Hx; [done|]. set_solver.
      * intros m' Hm2 [? ?]. split; [by rewrite Hrep|]. rewrite Hx; [done|]. set_solver.
  - intros k1 k2 c1 c2 m'. rewrite !lookup_insert_Some. intros [[<- <-]|[H1 C1]] [[<- <-]|[H2 C2]] M1 M2; [done|..]; by eapply inv_apart0.
Qed.

(** A report of [m]: it leaves the input for one of the two channels. *)
Lemma inv_report es s e m o s' :
  inv es s → (∀ m', report_of e m' = if decide (m' = m) then Some o else None) → started [e] = [] →
  m ∈ sp_input s →
  sp_closed s' = false → sp_input s' = filter (.≠ m) (sp_input s) → sp_expect s' = sp_expect s → sp_calls s' = sp_calls s →
  match o with
  | None => ∃ p off, e = Succeeds m p off ∧ sp_fields s' = <[m := (p, off)]> (sp_fields s) ∧ sp_successes s' = sp_successes s ++ [m] ∧ sp_errs s' = sp_errs s
  | Some err => sp_fields s' = sp_fields s ∧ sp_successes s' = sp_successes s ∧ sp_errs s' = sp_errs s ++ [(m, err)]
  end → inv (es ++ [e]) s'.
Proof.
  intros [] He Hst Hm Hcl Hin Hex Hca Hch.
  pose proof (inv_input0 m Hm) as Hrm.
  assert (∀ m', reported (es ++ [e]) m' = if decide (m' = m) then Some o else reported es m') as Hrep.
  { intros m'. rewrite reported_snoc, He. destruct (decide (m' = m)) as [->|]; [by rewrite Hrm|by destruct (reported es m')]. }
  assert (∀ m', on_the_way s' m' ↔ on_the_way s m') as Hway.
  { intros m'. unfold on_the_way. rewrite Hin, list_elem_of_filter. destruct o as [err|]; [destruct Hch as (_ & -> & ->)|destruct Hch as (p & off & _ & _ & -> & ->)];
      rewrite ?fmap_app; destruct (decide (m' = m)) as [->|]; set_solver. }
  pose proof inv_nodup0 as Hnd. apply NoDup_app in Hnd as (Hnd1 & Hnd2 & Hnd3).
  assert (m ∉ sp_successes s ++ (sp_errs s).*1) as Hmn by auto.
  assert (NoDup (sp_input s' ++ sp_successes s' ++ (sp_errs s').*1)) as Hnd'.
  { assert (sp_input s' ++ sp_successes s' ++ (sp_errs s').*1 ≡ₚ filter (.≠ m) (sp_input s) ++ m :: sp_successes s ++ (sp_errs s).*1) as ->.
    { rewrite Hin. f_equiv. destruct o as [err|]; [destruct Hch as (_ & -> & ->)|destruct Hch as (p & off & _ & _ & -> & ->)]; rewrite ?fmap_app; cbn; solve_Permutation. }
    apply NoDup_app. split_and!; [by apply NoDup_filter| |by constructor].
    intros m'. rewrite list_elem_of_filter. intros [Hne Hm'] [->|H]%elem_of_cons; [done|]. by apply (Hnd2 m'). }
  split; try done.
  - intros m'. rewrite Hin, list_elem_of_filter, Hrep. intros [Hne Hm']. rewrite decide_False by done. auto.
  - intros m' Hm'. rewrite Hrep. destruct o as [err|].
    + destruct Hch as (_ & Es & _). rewrite Es in Hm'. rewrite decide_False by set_solver. auto.
    + destruct Hch as (p & off & _ & _ & Es & _). rewrite Es in Hm'. destruct (decide (m' = m)); [done|]. apply inv_successes0. set_solver.
  - intros m' e' Hm'. rewrite Hrep. destruct o as [err|].
    + destruct Hch as (_ & _ & Es). rewrite Es in Hm'. apply elem_of_app in Hm' as [Hm'|[= -> ->]%list_elem_of_singleton]; [|by rewrite decide_True].
      rewrite decide_False; [auto|]. intros ->. apply Hmn. apply elem_of_app. right. by apply (list_elem_of_fmap_2 fst) in Hm'.
    + destruct Hch as (p & off & _ & _ & _ & Es). rewrite Es in Hm'. rewrite decide_False; [auto|]. intros ->. apply Hmn. apply elem_of_app. right. by apply (list_elem_of_fmap_2 fst) in Hm'.
  - intros m'. rewrite Hway, Hex. auto.
  - intros m' o'. rewrite Hex, Hrep. intros H. rewrite decide_False; [auto|]. intros ->. rewrite (inv_empty0 m) in H; [done|by left].
  - intros m'. rewrite Hrep. destruct o as [err|].
    + destruct Hch as (-> & _ & _). destruct (decide (m' = m)); [done|]. intros H. destruct (inv_fields0 m' H) as (p & q & ? & ?). exists p, q. set_solver.
    + destruct Hch as (p & off & -> & -> & _ & _). destruct (decide (m' = m)) as [->|Hne]; [intros _; exists p, off; rewrite lookup_insert_eq; set_solver|].
      intros H. destruct (inv_fields0 m' H) as (p' & q & ? & ?). exists p', q. rewrite lookup_insert_ne by done. set_solver.
  - intros m'. rewrite started_snoc, Hst, app_nil_r. intros Hm'. destruct (inv_untouched0 m' Hm') as [H1 H2]. split; [|by rewrite Hex].
    rewrite Hrep, decide_False; [done|]. intros ->. rewrite (inv_empty0 m) in H2; [done|by left].
  - intros k c. rewrite Hca. intros Hc. apply (call_ok_mono es _ s); [by apply (inv_calls0 k)| | | |].
    + intros m' [o' H]. rewrite Hrep, decide_False; [done|]. intros ->. congruence.
    + intros m' _ H. left. by apply Hway.
    + intros m' o' _ H. by rewrite Hex.
    + intros m' _ [H1 H2]. split; [|by rewrite Hex]. rewrite Hrep, decide_False; [done|]. intros ->. rewrite (inv_empty0 m) in H2; [done|by left].
  - intros k1 k2 c1 c2 m'. rewrite Hca. apply inv_apart0.
Qed.

(** A goroutine puts the report of [m] in its expectation. *)
Lemma inv_handle es s e m o s' :
  inv es s → (∀ m', report_of e m' = None) → started [e] = [] → reported es m = Some o →
  sp_input s ++ sp_successes s ++ (sp_errs s).*1 ≡ₚ m :: sp_input s' ++ sp_successes s' ++ (sp_errs s').*1 →
  sp_successes s' ⊆ sp_successes s → sp_errs s' ⊆ sp_errs s → sp_input s' ⊆ sp_input s →
  sp_closed s' = false → sp_expect s' = <[m := Some o]> (sp_expect s) → sp_fields s' = sp_fields s → sp_calls s' = sp_calls s →
  inv (es ++ [e]) s'.
Proof.
  intros [] He Hst Hro Hperm Hsu Her Hin Hcl Hex Hfi Hca.
  assert (∀ m, reported (es ++ [e]) m = reported es m) as Hrep by (intros; by apply reported_silent).
  assert (∀ s m', on_the_way s m' ↔ m' ∈ sp_input s ++ sp_successes s ++ (sp_errs s).*1) as Hw by (intros; unfold on_the_way; set_solver).
  assert (NoDup (m :: sp_input s' ++ sp_successes s' ++ (sp_errs s').*1)) as Hnd by (by rewrite <- Hperm). apply NoDup_cons in Hnd as [Hmn Hnd].
  assert (∀ m', on_the_way s m' ↔ m' = m ∨ on_the_way s' m') as Hway by (intros m'; rewrite !Hw, Hperm; set_solver).
  assert (∀ m', on_the_way s' m' → m' ≠ m) as Hne by (intros m' H ->; apply Hmn; by apply Hw).
  split; try (setoid_rewrite Hrep); try done.
  - set_solver.
  - set_solver.
  - set_solver.
  - intros m' Hm'. rewrite Hex, lookup_insert_ne by (apply not_eq_sym; auto). apply inv_empty0, Hway. auto.
  - intros m' o'. rewrite Hex. destruct (decide (m' = m)) as [->|H]; [rewrite lookup_insert_eq; by intros [= <-]|]. rewrite lookup_insert_ne by done. auto.
  - intros m' Hm'. rewrite Hfi. destruct (inv_fields0 m' Hm') as (p & q & ? & ?). exists p, q. set_solver.
  - intros m'. rewrite started_snoc, Hst, app_nil_r. intros Hm'. destruct (inv_untouched0 m' Hm') as [H1 H2]. split; [by rewrite Hrep|].
    rewrite Hex, lookup_insert_ne; [done|]. intros <-. rewrite (inv_empty0 m) in H2; [done|]. apply Hway. by left.
  - intros k c. rewrite Hca. intros Hc. apply (call_ok_mono es _ s); [by apply (inv_calls0 k)|auto| | |].
    + intros m' _ H. apply Hway in H as [->|H]; [|auto]. right. exists o. by rewrite Hex, lookup_insert_eq.
    + intros m' o' _ H. rewrite Hex, lookup_insert_ne; [done|]. intros <-. rewrite (inv_empty0 m) in H; [done|]. apply Hway. by left.
    + intros m' _ [H1 H2]. split; [by rewrite Hrep|]. rewrite Hex, lookup_insert_ne; [done|]. intros <-. congruence.
  - intros k1 k2 c1 c2 m'. rewrite Hca. apply inv_apart0.
Qed.

Lemma sync_inv_step es e s s' : inv es s → NoDup (started (es ++ [e])) → sp_step e s = Some s' → inv (es ++ [e]) s'.
Proof.
  intros Hinv Hnd Hstep. destruct e as [k msgs single|k|k|m p off|m err| |].
  - by apply (inv_start es s).
  - by apply (inv_send es s).
  - by apply (inv_collect es s).
  - cbn in Hstep. unfold report_success in Hstep. destruct (decide _) as [Hm|]; [|done]. injection Hstep as <-.
    apply (inv_report es s _ m None); try done; try exact (inv_open _ _ Hinv). exists p, off. done.
  - cbn in Hstep. unfold report_error in Hstep. destruct (decide _) as [Hm|]; [|done]. injection Hstep as <-.
    apply (inv_report es s _ m (Some err)); try done; try exact (inv_open _ _ Hinv).
  - cbn in Hstep. unfold handleSuccesses, fulfil in Hstep. destruct (sp_successes s) as [|m l] eqn:Es; [done|].
    destruct (sp_expect (set_successes l s) !! m) as [[|]|]; try done. injection Hstep as <-.
    apply (inv_handle es s _ m None); try done; cbn; rewrite ?Es; try exact (inv_open _ _ Hinv); [apply (inv_successes _ _ Hinv); rewrite Es; set_solver|solve_Permutation|set_solver].
  - cbn in Hstep. unfold handleErrors, fulfil in Hstep. destruct (sp_errs s) as [|[m err] l] eqn:Es; [done|].
    destruct (sp_expect (set_errs l s) !! m) as [[|]|]; try done. injection Hstep as <-.
    apply (inv_handle es s _ m (Some err)); try done; cbn; rewrite ?Es; try exact (inv_open _ _ Hinv); [apply (inv_errs _ _ Hinv); rewrite Es; set_solver|cbn; solve_Permutation|set_solver].
Qed.

Lemma sync_inv_run es s : NoDup (started es) → sp_run es newSyncProducerFromAsyncProducer = Some s → inv es s.
Proof.
  revert s. induction es as [|e es IH] using rev_ind; intros s Hnd Hrun; [injection Hrun as <-; apply sync_inv_init|].
  rewrite sp_run_snoc in Hrun. destruct (sp_run es _) as [s0|]; [|done]. cbn in Hrun.
  apply (sync_inv_step es e s0); [|done|done]. apply IH; [|done]. rewrite started_snoc in Hnd. by apply NoDup_app in Hnd as (? & _ & _).
Qed.

(** ** Outcomes *)

(** What a call that has returned was told about its messages *)
Definition told (es : list event) (k : nat) (s : syncProducer) : Prop :=
  ∀ c r, sp_calls s !! k = Some c → call_result k s = Some r →
  (∀ m, m ∈ c_msgs c → is_Some (reported es m)) ∧
  match r with
  | Errors l => l = failures es (c_msgs c)
  | Failed e => c_single c = true ∧ ∃ m l, failures es (c_msgs c) = (m, e) :: l
  | Sent p o => c_single c = true ∧ ∃ m l, c_msgs c = m :: l ∧ Succeeds m p o ∈ es
  end.

(** C24: Any number of calls of SendMessage and SendMessages on an open producer, each message
    given to one call, in any interleaving with the asynchronous producer and the two
    goroutines that forward its reports: a call that has returned was told of its own messages
    and no others, SendMessages their errors in the order of the messages, SendMessage its
    error or the partition and offset it was stored at. *)
Theorem own_outcome es s k : NoDup (started es) → sp_run es newSyncProducerFromAsyncProducer = Some s → told es k s.
Proof.
  intros Hnd Hrun c r Hc Hr. pose proof (sync_inv_run es s Hnd Hrun) as Hinv. pose proof (inv_calls _ _ Hinv k c Hc) as [(fin & Em & Ee & Hfin) _ _ _ _].
  unfold call_result in Hr. rewrite Hc in Hr. cbn in Hr. destruct (c_unsent c); [|done]. destruct (c_waiting c); [|done].
  rewrite !app_nil_r in Em. subst fin. split; [done|]. destruct (c_single c); [|by injection Hr as <-].
  destruct (c_errors c) as [|[m e] l]; [|injection Hr as <-; eauto]. destruct (c_msgs c) as [|m ms]; [done|].
  destruct (sp_fields s !! m) as [[p o]|] eqn:Ef; [|done]. injection Hr as <-. split; [done|]. exists m, ms. split; [done|].
  assert (reported es m = Some None) as Hrm.
  { destruct (Hfin m ltac:(set_solver)) as [[e|] Hm]; [|done]. unfold failures in Ee. cbn in Ee. by rewrite Hm in Ee. }
  destruct (inv_fields _ _ Hinv m Hrm) as (p' & o' & Ef' & ?). rewrite Ef in Ef'. by injection Ef' as -> ->.
Qed.

(** Two calls at once, with reports in another order than the messages *)
Definition sample_events : list event :=
  [Start 0 [1; 2] false; Start 1 [3] true; Send 0; Send 1; Send 0; Fails 2 7%Z; Succeeds 3 5%Z 8%Z; HandleSuccess;
   Succeeds 1 0%Z 9%Z; HandleError; HandleSuccess; Collect 1; Collect 0; Collect 0]%nat.
Definition sample_producer : syncProducer := default newSyncProducerFromAsyncProducer (sp_run sample_events newSyncProducerFromAsyncProducer).
Lemma own_outcome_witness :
  call_result 0 sample_producer = Some (Errors [(2%nat, 7)]) ∧ call_result 1 sample_producer = Some (Sent 5 8) ∧
  told sample_events 0 sample_producer.
Proof.
  split; [vm_compute; reflexivity|]. split; [vm_compute; reflexivity|].
  apply (own_outcome sample_events sample_producer 0).
  - apply (bool_decide_unpack _). vm_compute. exact I.
  - vm_compute. reflexivity.
Defined.

(** When every message sent has been reported, either some goroutine can go on or every call
    has returned: neither of the two forwarding goroutines blocks on an expectation. *)
Theorem sync_progress es s :
  NoDup (started es) → sp_run es newSyncProducerFromAsyncProducer = Some s → sp_input s = [] →
  (∃ e s', sp_step e s = Some s' ∧ match e with Start _ _ _ => False | _ => True end) ∨
  ∀ k c, sp_calls s !! k = Some c → c_unsent c = [] ∧ c_waiting c = [].
Proof.
  intros Hnd Hrun Hin. pose proof (sync_inv_run es s Hnd Hrun) as Hinv.
  destruct (sp_successes s) as [|m l] eqn:Es.
  2:{ left. assert (sp_expect s !! m = Some None) as Hx by (apply (inv_empty _ _ Hinv); right; left; rewrite Es; set_solver).
      exists HandleSuccess. eexists. split; [|done]. cbn. unfold handleSuccesses, fulfil. rewrite Es. cbn. by rewrite Hx. }
  destruct (sp_errs s) as [|[m e] l] eqn:Ee.
  2:{ left. assert (sp_expect s !! m = Some None) as Hx by (apply (inv_empty _ _ Hinv); right; right; rewrite Ee; set_solver).
      exists HandleError. eexists. split; [|done]. cbn. unfold handleErrors, fulfil. rewrite Ee. cbn. by rewrite Hx. }
  destruct (decide (Forall (fun x => c_unsent x.2 = [] ∧ c_waiting x.2 = []) (map_to_list (sp_calls s)))) as [Hall|Hsome].
  { right. intros k c Hc. rewrite Forall_forall in Hall. by apply (Hall (k, c)), elem_of_map_to_list. }
  left. apply not_Forall_Exists in Hsome; [|apply _]. apply Exists_exists in Hsome as ([k c] & Hc & Hn). apply elem_of_map_to_list in Hc. cbn in Hn.
  destruct (c_unsent c) as [|m rest] eqn:Eu.
  - destruct (c_waiting c) as [|m rest] eqn:Ew; [by destruct Hn|]. exists (Collect k).
    destruct (call_waiting _ _ _ (inv_calls _ _ Hinv k c Hc) m ltac:(rewrite Ew; set_solver)) as [H|[o H]].
    { unfold on_the_way in H. rewrite Hin, Es, Ee in H. set_solver. }
    eexists. split; [|done]. cbn. unfold collect_next. rewrite Hc. cbn. rewrite Ew. cbn. rewrite H. done.
  - exists (Send k). eexists. split; [|done]. cbn. unfold send_next. rewrite Hc. cbn. rewrite Eu, (inv_open _ _ Hinv). done.
Qed.

(** ** The sender of the program *)

(** When no producer can be made the sender has none, and the message that is sent all the same
    dereferences it: the handler's goroutine panics, and with it the process. *)
Lemma kafka_down_panics dial send c topic line e :
  0 ≤ KafkaChan c → dial (kafka_addr c) = inr e → send_result dial send c topic line = Panic NilDereference.
Proof. intros Hc Hd. unfold send_result, NewKafkaSender. rewrite (proj2 (Z.ltb_ge _ _)), Hd by done. done. Qed.

(** A sender sends one message: it is closed with the first. *)
Lemma second_message_panics send k topic line k' e topic' line' :
  NewMessage send k topic line = Ret (k', e) → NewMessage send k' topic' line' = Panic ExplicitPanic.
Proof.
  unfold NewMessage at 1. destruct (ks_client k) as [p|]; [|done]. destruct (sp_closed p); [done|]. destruct (send topic line p) as [p' e'].
  intros [= <- <-]. done.
Qed.
