(* ===== verification/KafkaProduceSet.v ===== *)
(** * [kafka/produce_set.go]: the messages of the next request

    A broker's producer collects messages by topic and partition, keeps an estimate of their size
    and builds a [ProduceRequest] of them, with record batches or message sets according to the
    configured version. *)

From S2P Require Import Prelude GoStrings KafkaCodec KafkaProps KafkaRecord KafkaMessage KafkaPartitioner KafkaProtocol KafkaProduce KafkaConfig.

(** [5*binary.MaxVarintLen32 + binary.MaxVarintLen64 + 1], [producerMessageOverhead] *)
Definition MaxVarintLen32 : Z := 5.
Definition MaxVarintLen64 : Z := 10.
Definition maximumRecordOverhead : Z := 5 * MaxVarintLen32 + MaxVarintLen64 + 1.
Definition producerMessageOverhead : Z := 26.

(** [type partitionSet struct], [type produceSet struct] without [parent] *)
Record partitionSet := mk_pset { ps_msgs : list ProducerMessage; recordsToSend : Records_; ps_bufferBytes : Z }.
Record produceSet := mk_produceSet { msgs : gmap bytes (gmap Z partitionSet); bufferBytes : Z; bufferCount : Z }.
Definition newProduceSet : produceSet := mk_produceSet ∅ 0 0.

Definition opt_len (b : option bytes) : Z := default 0 (len <$> b).
Definition header_size (h : RecordHeader) : Z := opt_len (h_Key h) + opt_len (h_Value h) + 2 * MaxVarintLen32.
Definition sum_Z (l : list Z) : Z := foldr Z.add 0 l.
Definition headers (m : ProducerMessage) : list RecordHeader := default [] (pm_Headers m).
(** [func (m *ProducerMessage) byteSize(version int) int] *)
Definition byteSize (version : Z) (m : ProducerMessage) : Z :=
  (if 2 <=? version then maximumRecordOverhead + sum_Z (header_size <$> headers m) else producerMessageOverhead) +
  default 0 (Length <$> pm_Key m) + default 0 (Length <$> pm_Value m).

Inductive add_error := KeyNotEncoded | ValueNotEncoded | OutOfSequence.
(** [msg.Key.Encode()] when there is a key *)
Definition encode_part (e : option Encoder) (err : add_error) : option bytes + add_error :=
  match e with
  | None => inl None
  | Some (Encoded b) => inl (Some b)
  | Some (EncodeError _) => inr err
  end.

Section produceSet.
(** The configuration, and what the transaction manager knows of the producer *)
Context (conf : Config) (producerID producerEpoch : Z).
(** [ps.parent.conf.Version.IsAtLeast(V0_11_0_0)] and [V0_10_0_0] *)
Definition batches : bool := IsAtLeast (conf_version conf) V0_11_0_0.
Definition timestamps : bool := IsAtLeast (conf_version conf) V0_10_0_0.
Abbreviation P := (Producer conf).

(** A partition's records before the first message *)
Definition fresh_set (timestamp : Z) (msg : ProducerMessage) : partitionSet * Z :=
  if batches then
    (mk_pset [] (newDefaultRecords (mk_batch 0 0 2 (Compression P) (conf_CompressionLevel P) false false 0 timestamp zero_time
       producerID producerEpoch (if Idempotent P then sequenceNumber msg else 0) [] false false None)) 0, recordBatchOverhead)
  else (mk_pset [] (newLegacyRecords (mk_set false false [])) 0, 0).

(** The message as a record of the batch, or as a message of the set, with its estimated size *)
Definition add_record (timestamp : Z) (key val : option bytes) (msg : ProducerMessage) (size : Z) (r : Records_) :
    Go (Records_ * Z + add_error) :=
  match Batch r with
  | None => Panic NilDereference
  | Some b =>
      if Idempotent P && (sequenceNumber msg <? FirstSequence b) then Ret (inr OutOfSequence)
      else Ret (inl (mk_Records (recordsType r) (MsgSet r)
                       (Some (addRecord (mk_record (headers msg) 0 (time_Sub timestamp (FirstTimestamp b)) 0 key val) b)),
                     size + maximumRecordOverhead + (opt_len key + opt_len val) + sum_Z (header_size <$> headers msg)))
  end.
Definition add_message (timestamp : Z) (key val : option bytes) (r : Records_) : Go (Records_ * Z + add_error) :=
  match MsgSet r with
  | None => Panic NilDereference
  | Some s =>
      let m := if timestamps then mk_message CompressionNone 0 false key val None 1 timestamp
               else mk_message CompressionNone 0 false key val None 0 zero_time in
      Ret (inl (mk_Records (recordsType r) (Some (addMessage m s)) (Batch r), producerMessageOverhead + opt_len key + opt_len val))
  end.

(** [func (ps *produceSet) add(msg *ProducerMessage) error]; [now] is [time.Now()].  The message is
    in [set.msgs] before its sequence number is looked at. *)
Definition add (now : Z) (msg : ProducerMessage) (ps : produceSet) : Go (option add_error * produceSet) :=
  match encode_part (pm_Key msg) KeyNotEncoded with
  | inr e => Ret (Some e, ps)
  | inl key =>
      match encode_part (pm_Value msg) ValueNotEncoded with
      | inr e => Ret (Some e, ps)
      | inl val =>
          let timestamp := if pm_Timestamp msg =? zero_time then now else pm_Timestamp msg in
          let (set, size) := match get_block (msgs ps) (Topic msg) (pm_Partition msg) with
                             | Some set => (set, 0)
                             | None => fresh_set timestamp msg
                             end in
          let put_set set := add_block (Topic msg) (pm_Partition msg) set (msgs ps) in
          let l := ps_msgs set ++ [msg] in
          let* r := if batches then add_record timestamp key val msg size (recordsToSend set)
                    else add_message timestamp key val (recordsToSend set) in
          Ret (match r with
               | inr e => (Some e, mk_produceSet (put_set (mk_pset l (recordsToSend set) (ps_bufferBytes set))) (bufferBytes ps) (bufferCount ps))
               | inl (records, size) =>
                   (None, mk_produceSet (put_set (mk_pset l records (ps_bufferBytes set + size))) (bufferBytes ps + size) (bufferCount ps + 1))
               end)
      end
  end.

(** ** Requests *)

(** The batch with the offsets of its records *)
Definition numbered_batch (rb : RecordBatch) : RecordBatch :=
  match Records rb with
  | [] => rb
  | _ :: _ =>
      mk_batch (FirstOffset rb) (PartitionLeaderEpoch rb) (Version rb) (Codec rb) (CompressionLevel rb) (Control rb)
        (LogAppendTime rb) (swrap 32 (len (Records rb) - 1)) (FirstTimestamp rb) (MaxTimestamp rb) (ProducerID rb) (ProducerEpoch rb)
        (FirstSequence rb)
        (imap (fun i r => mk_record (Headers r) (Attributes r) (TimestampDelta r) (Z.of_nat i) (r_Key r) (r_Value r)) (Records rb))
        (PartialTrailingRecord rb) (IsTransactional rb) (compressedRecords rb)
  end.
(** The set with relative offsets *)
Definition numbered_set (s : MessageSet) : MessageSet :=
  mk_set (PartialTrailingMessage s) (OverflowMessage s) (imap (fun i b => mk_block (Z.of_nat i) (mb_Msg b)) (Messages s)).

Section build.
Context (checksum : crcPolynomial → bytes → Z) (compressor : Z → Z → bytes → option bytes).

(** The set as the payload of a single compressed message *)
Definition compressed_message (s : MessageSet) : Go Message :=
  let s := if timestamps then numbered_set s else s in
  let* r := encode checksum ∅ (MessageSet_items compressor s ≫= calls) in
  match r with
  | inr _ => Panic ExplicitPanic
  | inl payload =>
      if timestamps then
        match Messages s with
        | [] => Panic IndexOutOfRange
        | b :: _ => Ret (mk_message (Compression P) (conf_CompressionLevel P) false None (Some payload) (Some s) 1 (m_Timestamp (mb_Msg b)))
        end
      else Ret (mk_message (Compression P) (conf_CompressionLevel P) false None (Some payload) (Some s) 0 zero_time)
  end.

(** The body of the inner loop *)
Definition build_partition (topic : bytes) (partition : Z) (set : partitionSet) (req : ProduceRequest) : Go ProduceRequest :=
  if 3 <=? pr_Version req then
    match Batch (recordsToSend set) with
    | None => Panic NilDereference
    | Some rb => Ret (AddBatch topic partition (numbered_batch rb) req)
    end
  else match MsgSet (recordsToSend set) with
  | None => Panic NilDereference
  | Some s =>
      if Compression P =? CompressionNone then Ret (AddSet topic partition s req)
      else let* m := compressed_message s in Ret (AddMessage topic partition m req)
  end.
Fixpoint go_each {A S} (f : A → S → Go S) (l : list A) (s : S) : Go S :=
  match l with [] => Ret s | x :: l => let* s := f x s in go_each f l s end.
(** [eachPartition]: the partitions in the order of two nested loops *)
Definition eachPartition (o : orders) (ps : produceSet) : list (bytes * Z * partitionSet) :=
  mjoin (imap (fun i t => (fun e => (t.1, e.1, e.2)) <$> range_map o [i] t.2) (range_map o [] (msgs ps))).
(** [func (ps *produceSet) buildRequest() *ProduceRequest] *)
Definition buildRequest (o : orders) (ps : produceSet) : Go ProduceRequest :=
  let version := if batches then 3 else if timestamps then 2 else 0 in
  let req := mk_ProduceRequest None (conf_RequiredAcks P) (swrap 32 (Z.quot (prod_Timeout P) Millisecond)) version ∅ in
  go_each (fun e => build_partition e.1.1 e.1.2 e.2) (eachPartition o ps) req.
End build.

(** [func (ps *produceSet) dropPartition(topic string, partition int32) []*ProducerMessage] *)
Definition dropPartition (topic : bytes) (partition : Z) (ps : produceSet) : list ProducerMessage * produceSet :=
  match get_block (msgs ps) topic partition with
  | None => ([], ps)
  | Some set =>
      (ps_msgs set, mk_produceSet (alter (delete partition) topic (msgs ps)) (bufferBytes ps - ps_bufferBytes set) (bufferCount ps - len (ps_msgs set)))
  end.
(** [func (ps *produceSet) wouldOverflow(msg *ProducerMessage) bool] *)
Definition wouldOverflow (msg : ProducerMessage) (ps : produceSet) : bool :=
  let version := if batches then 2 else 1 in
  (MaxRequestSize - 10 * 1024 <=? bufferBytes ps + byteSize version msg) ||
  match get_block (msgs ps) (Topic msg) (pm_Partition msg) with
  | Some set => MaxMessageBytes P <=? ps_bufferBytes set + byteSize version msg
  | None => false
  end ||
  ((0 <? Flush_MaxMessages P) && (Flush_MaxMessages P <=? bufferCount ps)).
(** [func (ps *produceSet) empty() bool] and [readyToFlush] *)
Definition empty (ps : produceSet) : bool := bufferCount ps =? 0.
Definition readyToFlush (ps : produceSet) : bool :=
  negb (empty ps) &&
  ((Flush_Frequency P =? 0) && (Flush_Bytes P =? 0) && (Flush_Messages P =? 0) ||
   (0 <? Flush_Messages P) && (Flush_Messages P <=? bufferCount ps) ||
   (0 <? Flush_Bytes P) && (Flush_Bytes P <=? bufferBytes ps)).
End produceSet.
