(* ===== verification/KafkaProduceSetProps.v ===== *)
(** * The produce set: counters, contents, requests *)

From S2P Require Import Prelude GoStrings KafkaCodec KafkaProps KafkaDecoderProps KafkaWire KafkaRecord KafkaRecordProps KafkaMessage KafkaPartitioner KafkaProtocol KafkaProduce KafkaConfig KafkaProduceSet.

(** ** Sums over maps *)

Definition map_sum `{Countable K} {V} (f : V → Z) (m : gmap K V) : Z := map_fold (fun _ v n => f v + n) 0 m.
Lemma map_sum_fresh `{Countable K} {V} (f : V → Z) (m : gmap K V) k v : m !! k = None → map_sum f (<[k := v]> m) = f v + map_sum f m.
Proof. intros Hk. unfold map_sum. apply (map_fold_insert_L (fun _ v n => f v + n)); [intros; lia|done]. Qed.
Lemma map_sum_delete `{Countable K} {V} (f : V → Z) (m : gmap K V) k v : m !! k = Some v → map_sum f (delete k m) = map_sum f m - f v.
Proof.
  intros Hk. rewrite <- (insert_delete_id m k v Hk) at 2. rewrite map_sum_fresh by apply lookup_delete_eq. lia.
Qed.
Lemma map_sum_insert `{Countable K} {V} (f : V → Z) (m : gmap K V) k v :
  map_sum f (<[k := v]> m) = map_sum f m + f v - default 0 (f <$> m !! k).
Proof.
  destruct (m !! k) as [w|] eqn:E; cbn.
  - rewrite <- insert_delete_eq, map_sum_fresh, (map_sum_delete f m k w) by (done || apply lookup_delete_eq). lia.
  - rewrite map_sum_fresh by done. lia.
Qed.

(** The sum over all partitions of all topics *)
Definition total {V} (f : V → Z) (m : gmap bytes (gmap Z V)) : Z := map_sum (map_sum f) m.
Lemma total_add {V} (f : V → Z) (m : gmap bytes (gmap Z V)) (t : bytes) (p : Z) (v : V) :
  total f (add_block t p v m) = total f m + f v - default 0 (f <$> get_block m t p).
Proof.
  unfold total, add_block, get_block. rewrite map_sum_insert, map_sum_insert. destruct (m !! t) as [ps|]; cbn; [lia|].
  rewrite lookup_empty. assert (map_sum f (∅ : gmap Z V) = 0) as -> by apply map_fold_empty. cbn. lia.
Qed.
Lemma total_drop {V} (f : V → Z) (m : gmap bytes (gmap Z V)) (t : bytes) (p : Z) (v : V) :
  get_block m t p = Some v → total f (alter (delete p) t m) = total f m - f v.
Proof.
  unfold get_block. destruct (m !! t) as [ps|] eqn:E; cbn; [|done]. intros Hp. unfold total.
  assert (alter (delete p) t m = <[t := delete p ps]> m) as -> by (apply map_eq; intros k; destruct (decide (k = t)) as [->|];
    [by rewrite lookup_alter_eq, lookup_insert_eq, E|by rewrite lookup_alter_ne, lookup_insert_ne]).
  rewrite map_sum_insert, E, (map_sum_delete f ps p v) by done. cbn. lia.
Qed.

Lemma map_sum_ext `{Countable K} {V} (f g : V → Z) (m : gmap K V) : (∀ k v, m !! k = Some v → f v = g v) → map_sum f m = map_sum g m.
Proof.
  induction m as [|k v m Hk IH] using map_ind; intros Hfg; [done|]. rewrite !map_sum_fresh by done.
  rewrite (Hfg k v) by (by rewrite lookup_insert_eq). f_equal. apply IH. intros k' v' Hk'. apply (Hfg k'). rewrite lookup_insert_ne; [done|congruence].
Qed.
Lemma total_ext {V} (f g : V → Z) (m : gmap bytes (gmap Z V)) : (∀ t p v, get_block m t p = Some v → f v = g v) → total f m = total g m.
Proof. intros H. apply map_sum_ext. intros t ps Ht. apply map_sum_ext. intros p v Hp. apply (H t p). unfold get_block. by rewrite Ht. Qed.

(** *** Blocks *)

Lemma get_add {V} (t u : bytes) (p q : Z) (v : V) (m : gmap bytes (gmap Z V)) :
  get_block (add_block t p v m) u q = if decide (t = u ∧ p = q) then Some v else get_block m u q.
Proof.
  unfold get_block, add_block. destruct (decide (t = u)) as [->|Ht].
  - rewrite lookup_insert_eq. cbn. destruct (decide (p = q)) as [->|Hp].
    + by rewrite lookup_insert_eq, decide_True.
    + rewrite lookup_insert_ne, decide_False by naive_solver. by destruct (m !! u).
  - by rewrite lookup_insert_ne, decide_False by naive_solver.
Qed.
Lemma get_drop {V} (t u : bytes) (p q : Z) (m : gmap bytes (gmap Z V)) :
  get_block (alter (delete p) t m) u q = if decide (t = u ∧ p = q) then None else get_block m u q.
Proof.
  unfold get_block. destruct (decide (t = u)) as [->|Ht].
  - rewrite lookup_alter_eq. destruct (m !! u) as [ps|]; cbn; [|by destruct (decide _)]. destruct (decide (p = q)) as [->|Hp].
    + by rewrite lookup_delete_eq, decide_True.
    + by rewrite lookup_delete_ne, decide_False by naive_solver.
  - by rewrite lookup_alter_ne, decide_False by naive_solver.
Qed.

(** ** The invariant *)

Section produceSet.
Context (conf : Config) (producerID producerEpoch : Z).
Abbreviation batches := (batches conf).
Abbreviation timestamps := (timestamps conf).
Abbreviation add := (add conf producerID producerEpoch).

(** A message and the key and value, the record, the message of a set that are sent for it *)
Definition carries (m : ProducerMessage) (key val : option bytes) : Prop :=
  encode_part (pm_Key m) KeyNotEncoded = inl key ∧ encode_part (pm_Value m) ValueNotEncoded = inl val.
Definition record_carries (m : ProducerMessage) (r : Record_) : Prop :=
  carries m (r_Key r) (r_Value r) ∧ Headers r = headers m ∧ Attributes r = 0.
Definition message_carries (m : ProducerMessage) (b : MessageBlock) : Prop :=
  let x := mb_Msg b in
  carries m (m_Key x) (m_Value x) ∧ m_Codec x = CompressionNone ∧ m_Set x = None ∧ m_Version x = (if timestamps then 1 else 0).

Definition sizes (version : Z) (l : list ProducerMessage) : Z := sum_Z (byteSize version <$> l).
Definition partition_ok (s : partitionSet) : Prop :=
  if batches then
    ∃ b, recordsToSend s = newDefaultRecords b ∧ Version b = 2 ∧ Codec b = Compression (Producer conf) ∧ compressedRecords b = None ∧
      Forall2 record_carries (ps_msgs s) (Records b) ∧ ps_bufferBytes s = recordBatchOverhead + sizes 2 (ps_msgs s)
  else
    ∃ ms, recordsToSend s = newLegacyRecords (mk_set false false ms) ∧ Forall2 message_carries (ps_msgs s) ms ∧
      ps_bufferBytes s = sizes 1 (ps_msgs s).
Definition produce_set_ok (ps : produceSet) : Prop :=
  bufferCount ps = total (fun s => len (ps_msgs s)) (msgs ps) ∧ bufferBytes ps = total ps_bufferBytes (msgs ps) ∧
  ∀ t p s, get_block (msgs ps) t p = Some s →
    partition_ok s ∧ ps_msgs s ≠ [] ∧ Forall (fun m => Topic m = t ∧ pm_Partition m = p) (ps_msgs s).

Lemma new_ok : produce_set_ok newProduceSet.
Proof. split_and!; [done..|]. intros t p s. unfold get_block. cbn. by rewrite lookup_empty. Qed.

Lemma carries_size v m key val : carries m key val →
  byteSize v m = (if 2 <=? v then maximumRecordOverhead + sum_Z (header_size <$> headers m) else producerMessageOverhead) + opt_len key + opt_len val.
Proof.
  intros [Hk Hv]. unfold byteSize. destruct (pm_Key m) as [[]|], (pm_Value m) as [[]|]; simplify_eq/=; done.
Qed.
Lemma sizes_snoc v l m : sizes v (l ++ [m]) = sizes v l + byteSize v m.
Proof. unfold sizes, sum_Z. rewrite fmap_app. induction (byteSize v <$> l) as [|x k IH]; cbn in *; lia. Qed.

(** The messages of a partition *)
Definition partition_msgs (ps : produceSet) (t : bytes) (p : Z) : list ProducerMessage :=
  default [] (ps_msgs <$> get_block (msgs ps) t p).

(** The partition after a message *)
Lemma put_set_ok ps msg set size records l : produce_set_ok ps →
  ps_msgs set = l → default [] (ps_msgs <$> get_block (msgs ps) (Topic msg) (pm_Partition msg)) = l →
  default 0 (ps_bufferBytes <$> get_block (msgs ps) (Topic msg) (pm_Partition msg)) = ps_bufferBytes set →
  Forall (fun m => Topic m = Topic msg ∧ pm_Partition m = pm_Partition msg) l →
  partition_ok (mk_pset (l ++ [msg]) records (ps_bufferBytes set + size)) →
  produce_set_ok (mk_produceSet (add_block (Topic msg) (pm_Partition msg) (mk_pset (l ++ [msg]) records (ps_bufferBytes set + size)) (msgs ps))
    (bufferBytes ps + size) (bufferCount ps + 1)).
Proof.
  intros (Hc & Hb & Hp) Hl Hg Hgb Hf Hok. split_and!; cbn [msgs bufferBytes bufferCount].
  - rewrite total_add, Hc. cbn [ps_msgs]. rewrite len_app, <- Hg. destruct (get_block _ _ _); cbn [fmap option_fmap option_map default from_option id];
      rewrite (len_cons msg []); change (len (@nil ProducerMessage)) with 0; lia.
  - rewrite total_add, Hb. cbn [ps_bufferBytes]. rewrite Hgb. lia.
  - intros t p s. rewrite get_add. destruct (decide _) as [[<- <-]|]; [|apply Hp]. intros [= <-]. cbn [ps_msgs].
    split_and!; [done|by destruct l|]. by apply Forall_app_2, Forall_singleton.
Qed.

(** A partition's set with [size] bytes of it still to be counted *)
Definition almost_ok (size : Z) (s : partitionSet) : Prop :=
  partition_ok (mk_pset (ps_msgs s) (recordsToSend s) (ps_bufferBytes s + (if batches then size else 0))).
Lemma fresh_ok timestamp msg :
  let (s, size) := fresh_set conf producerID producerEpoch timestamp msg in almost_ok size s ∧ ps_msgs s = [] ∧ ps_bufferBytes s = 0.
Proof.
  unfold fresh_set, almost_ok, partition_ok. destruct batches; cbn; (split; [|done]); eexists; split_and!; try done; constructor.
Qed.
Lemma set_almost_ok s : partition_ok s → almost_ok 0 s.
Proof.
  unfold almost_ok. destruct s as [l r n]. cbn [ps_msgs recordsToSend ps_bufferBytes].
  by replace (n + (if batches then 0 else 0)) with n by (destruct batches; lia).
Qed.

(** The step of [add] that appends the message to the records *)
Lemma append_ok s size timestamp key val msg : almost_ok size s → carries msg key val →
  ∃ r, (if batches then add_record conf timestamp key val msg size (recordsToSend s) else add_message conf timestamp key val (recordsToSend s)) = Ret r ∧
    match r with
    | inl (records, n) => partition_ok (mk_pset (ps_msgs s ++ [msg]) records (ps_bufferBytes s + n))
    | inr e => e = OutOfSequence ∧ Idempotent (Producer conf) = true
    end.
Proof.
  intros Hs Hc. unfold almost_ok, partition_ok in *. destruct batches.
  - destruct Hs as (b & E & Hv & Hk & Hf & Hl & Hb). cbn [recordsToSend ps_msgs ps_bufferBytes] in *. unfold add_record. rewrite E. cbn [Batch newDefaultRecords].
    destruct (Idempotent _ && _) eqn:Ei; eexists; (split; [done|]); cbn [MsgSet recordsType newDefaultRecords].
    { split; [done|]. by apply andb_true_iff in Ei as [? _]. }
    eexists. split_and!; [done|done|done|done| |].
    + apply Forall2_app; [done|]. by apply Forall2_cons.
    + rewrite sizes_snoc, (carries_size 2 msg key val) by done. cbn. lia.
  - destruct Hs as (ms & E & Hl & Hb). cbn [recordsToSend ps_msgs ps_bufferBytes] in *. unfold add_message. rewrite E. cbn [MsgSet newLegacyRecords].
    eexists. split; [done|]. cbv iota. eexists. cbn [addMessage recordsToSend ps_msgs ps_bufferBytes recordsType MsgSet Batch].
    split_and!; [done| |].
    + apply Forall2_app; [done|]. apply Forall2_cons; split; [|done]. unfold message_carries. cbn [mb_Msg]. by destruct timestamps.
    + rewrite sizes_snoc, (carries_size 1 msg key val) by done. cbn. lia.
Qed.

(** Why a message is refused, if it is *)
Definition unencodable (m : ProducerMessage) : option add_error :=
  match encode_part (pm_Key m) KeyNotEncoded, encode_part (pm_Value m) ValueNotEncoded with
  | inr e, _ | _, inr e => Some e
  | _, _ => None
  end.
(** [add] returns, and a message it takes is the last of its partition. *)
Lemma add_spec now msg ps : produce_set_ok ps →
  ∃ r ps', add now msg ps = Ret (r, ps') ∧
    match unencodable msg with
    | Some e => r = Some e ∧ ps' = ps
    | None =>
        r = None ∧ produce_set_ok ps' ∧ (∀ t p, partition_msgs ps' t p =
          partition_msgs ps t p ++ (if decide (t = Topic msg ∧ p = pm_Partition msg) then [msg] else [])) ∨
        r = Some OutOfSequence ∧ Idempotent (Producer conf) = true
    end.
Proof.
  intros Hok. unfold KafkaProduceSet.add, unencodable. destruct (encode_part (pm_Key msg) _) as [key|e] eqn:Ek; [|eauto].
  destruct (encode_part (pm_Value msg) _) as [val|e] eqn:Ev; [|eauto].
  set (ts := if _ =? _ then _ else _). set (old := get_block (msgs ps) (Topic msg) (pm_Partition msg)).
  destruct (match old with Some set => (set, 0) | None => _ end) as [s size] eqn:Es.
  assert (almost_ok size s ∧ ps_msgs s = default [] (ps_msgs <$> old) ∧ default 0 (ps_bufferBytes <$> old) = ps_bufferBytes s ∧
    Forall (fun m => Topic m = Topic msg ∧ pm_Partition m = pm_Partition msg) (ps_msgs s)) as (Hs & Hl & Hb & Hf).
  { destruct old as [o|] eqn:Eo.
    - injection Es as <- <-. destruct Hok as (_ & _ & Hp). destruct (Hp _ _ _ Eo) as (H1 & _ & H2). split_and!; [by apply set_almost_ok|done|done|done].
    - pose proof (fresh_ok ts msg) as Hfr. rewrite Es in Hfr. destruct Hfr as (H1 & H2 & H3). rewrite H2. by split_and!. }
  destruct (append_ok s size ts key val msg Hs (conj Ek Ev)) as (r & -> & Hr). cbn [gbind].
  destruct r as [[records n]|e]; do 2 eexists; (split; [done|]).
  2:{ right. by destruct Hr as [-> ?]. }
  left. split; [done|]. split; [by apply put_set_ok|]. intros t p. unfold partition_msgs. cbn [msgs]. rewrite get_add.
  destruct (decide (Topic msg = t ∧ pm_Partition msg = p)) as [[<- <-]|Hn].
  - rewrite decide_True by done. cbn. by rewrite Hl.
  - rewrite decide_False by naive_solver. by rewrite app_nil_r.
Qed.

Lemma drop_spec t p ps : produce_set_ok ps →
  let (l, ps') := dropPartition t p ps in
  l = partition_msgs ps t p ∧ produce_set_ok ps' ∧
  ∀ u q, partition_msgs ps' u q = if decide (t = u ∧ p = q) then [] else partition_msgs ps u q.
Proof.
  intros (Hc & Hb & Hp). unfold dropPartition, partition_msgs. destruct (get_block (msgs ps) t p) as [s|] eqn:E.
  - split; [done|]. split; [split_and!|]; cbn [msgs bufferBytes bufferCount].
    + by rewrite (total_drop _ _ _ _ s), Hc.
    + by rewrite (total_drop _ _ _ _ s), Hb.
    + intros u q x. rewrite get_drop. destruct (decide _); [done|apply Hp].
    + intros u q. rewrite get_drop. by destruct (decide _).
  - split_and!; [done..|]. intros u q. destruct (decide _) as [[<- <-]|]; [by rewrite E|done].
Qed.

(** ** A sequence of operations *)

Inductive set_op := Add (now : Z) (msg : ProducerMessage) | Drop (topic : bytes) (partition : Z).
Inductive set_result := Added (e : option add_error) | Dropped (l : list ProducerMessage).
Definition run_op (op : set_op) (ps : produceSet) : Go (set_result * produceSet) :=
  match op with
  | Add now msg => let* r := add now msg ps in Ret (Added r.1, r.2)
  | Drop t p => let (l, ps) := dropPartition t p ps in Ret (Dropped l, ps)
  end.
Fixpoint run_ops (ops : list set_op) (ps : produceSet) : Go (list set_result * produceSet) :=
  match ops with
  | [] => Ret ([], ps)
  | op :: ops => let* r := run_op op ps in let* rest := run_ops ops r.2 in Ret (r.1 :: rest.1, rest.2)
  end.

(** The specification: a queue of messages for every partition *)
Definition queues : Type := bytes → Z → list ProducerMessage.
Definition spec_op (op : set_op) (q : queues) : set_result * queues :=
  match op with
  | Add _ m =>
      (Added (unencodable m), match unencodable m with
                              | Some _ => q
                              | None => fun t p => q t p ++ (if decide (t = Topic m ∧ p = pm_Partition m) then [m] else [])
                              end)
  | Drop t p => (Dropped (q t p), fun u r => if decide (t = u ∧ p = r) then [] else q u r)
  end.
Fixpoint spec_ops (ops : list set_op) (q : queues) : list set_result * queues :=
  match ops with
  | [] => ([], q)
  | op :: ops => let (r, q) := spec_op op q in let (rest, q) := spec_ops ops q in (r :: rest, q)
  end.

Lemma run_op_spec op ps (q : queues) : Idempotent (Producer conf) = false → produce_set_ok ps → (∀ t p, partition_msgs ps t p = q t p) →
  ∃ ps', run_op op ps = Ret ((spec_op op q).1, ps') ∧ produce_set_ok ps' ∧ ∀ t p, partition_msgs ps' t p = (spec_op op q).2 t p.
Proof.
  intros Hi Hok Hq. destruct op as [now msg|t p]; cbn [run_op spec_op].
  - destruct (add_spec now msg ps Hok) as (r & ps' & -> & H). cbn [gbind fst snd]. exists ps'. destruct (unencodable msg); cbn [snd].
    + by destruct H as [-> ->].
    + destruct H as [(-> & H1 & H2)|[_ H]]; [|congruence]. split_and!; [done|done|]. intros t p. by rewrite H2, Hq.
  - pose proof (drop_spec t p ps Hok) as H. destruct (dropPartition t p ps) as [l ps']. destruct H as (-> & H1 & H2).
    exists ps'. cbn [fst snd]. rewrite Hq. split_and!; [done|done|]. intros u r. rewrite H2. destruct (decide _); auto.
Qed.

Lemma run_ops_spec ops : Idempotent (Producer conf) = false →
  let (results, q) := spec_ops ops (fun _ _ => []) in
  ∃ ps, run_ops ops newProduceSet = Ret (results, ps) ∧ produce_set_ok ps ∧ ∀ t p, partition_msgs ps t p = q t p.
Proof.
  intros Hi. assert (∀ ps (q : queues), produce_set_ok ps → (∀ t p, partition_msgs ps t p = q t p) →
    let (results, q) := spec_ops ops q in
    ∃ ps', run_ops ops ps = Ret (results, ps') ∧ produce_set_ok ps' ∧ ∀ t p, partition_msgs ps' t p = q t p) as H.
  { induction ops as [|op ops IH]; intros ps q Hok Hq; cbn [spec_ops run_ops]; [by exists ps|].
    destruct (run_op_spec op ps q Hi Hok Hq) as (ps1 & -> & Hok1 & Hq1). destruct (spec_op op q) as [r q1]. cbn [fst snd gbind] in *.
    specialize (IH ps1 q1 Hok1 Hq1). destruct (spec_ops ops q1) as [rest q2]. destruct IH as (ps2 & -> & Hok2 & Hq2).
    exists ps2. by split_and!. }
  apply (H newProduceSet); [apply new_ok|]. intros t p. unfold partition_msgs, get_block. cbn. by rewrite lookup_empty.
Qed.

(** The counters of a set are the sums over its partitions. *)
Definition counters_ok (ps : produceSet) : Prop :=
  bufferCount ps = total (fun s => len (ps_msgs s)) (msgs ps) ∧
  bufferBytes ps = total (fun s => (if batches then recordBatchOverhead + sizes 2 (ps_msgs s) else sizes 1 (ps_msgs s))) (msgs ps).
Lemma counters_of ps : produce_set_ok ps → counters_ok ps.
Proof.
  intros (Hc & Hb & Hp). split; [done|]. rewrite Hb. apply total_ext. intros t p s Hs. destruct (Hp t p s Hs) as [Hok _].
  unfold partition_ok in Hok. destruct batches; [by destruct Hok as (b & _ & _ & _ & _ & _ & ?)|by destruct Hok as (ms & _ & _ & ?)].
Qed.

(** C13: The buffer of a producer that is not idempotent is a family of queues, one for each
    partition of each topic: any sequence of add and dropPartition from the empty buffer runs
    without a panic and returns what the queues return (a message that cannot be encoded is
    refused and not queued), every partition holds the messages of its queue in order, and the
    byte and message counts are the sums over the partitions. *)
Theorem produce_set_refines ops : Idempotent (Producer conf) = false →
  let (results, q) := spec_ops ops (fun _ _ => []) in
  ∃ ps, run_ops ops newProduceSet = Ret (results, ps) ∧ counters_ok ps ∧ ∀ t p, partition_msgs ps t p = q t p.
Proof.
  intros Hi. pose proof (run_ops_spec ops Hi) as H. destruct (spec_ops ops _) as [results q]. destruct H as (ps & E & Hok & Hq).
  exists ps. split_and!; [done|by apply counters_of|done].
Qed.

(** ** Requests *)

(** The partitions of a set, each once *)
Lemma each_bind o ps : eachPartition o ps = imap pair (range_map o [] (msgs ps)) ≫= fun it => (fun e => (it.2.1, e.1, e.2)) <$> range_map o [it.1] it.2.2.
Proof.
  unfold eachPartition. rewrite bind_join. f_equal. rewrite fmap_imap. apply imap_ext. done.
Qed.
Lemma each_elem o ps t p s : fair o → (t, p, s) ∈ eachPartition o ps ↔ get_block (msgs ps) t p = Some s.
Proof.
  intros Ho. rewrite each_bind, list_elem_of_bind. unfold get_block. split.
  - intros ([i [u ps']] & He & Hi). apply list_elem_of_fmap in He as ([q x] & [= -> -> ->] & He). cbn in *.
    apply elem_of_lookup_imap in Hi as (j & y & [= <- <-] & Hy). apply list_elem_of_lookup_2 in Hy. unfold range_map in Hy, He. rewrite (Ho []) in Hy. rewrite (Ho [i]) in He.
    apply elem_of_map_to_list in Hy, He. by rewrite Hy.
  - destruct (msgs ps !! t) as [ps'|] eqn:E; cbn; [|done]. intros Hp.
    assert ((t, ps') ∈ range_map o [] (msgs ps)) as [i Hi]%list_elem_of_lookup.
    { unfold range_map. rewrite (Ho _). by apply elem_of_map_to_list. }
    exists (i, (t, ps')). split.
    + apply list_elem_of_fmap. exists (p, s). split; [done|]. unfold range_map. rewrite (Ho _). by apply elem_of_map_to_list.
    + apply elem_of_lookup_imap. by exists i, (t, ps').
Qed.
Lemma each_nodup o ps : fair o → NoDup (eachPartition o ps).*1.
Proof.
  intros Ho. rewrite each_bind.
  assert (∀ `{Countable K} {V} (q : list nat) (m : gmap K V), NoDup (range_map o q m).*1) as Hr.
  { intros. unfold range_map. rewrite (Ho _). apply NoDup_fst_map_to_list. }
  assert (((imap pair (range_map o [] (msgs ps))) ≫= fun it => (fun e => (it.2.1, e.1, e.2)) <$> range_map o [it.1] it.2.2).*1
    = imap pair (range_map o [] (msgs ps)) ≫= fun it => (fun p => (it.2.1, p)) <$> (range_map o [it.1] it.2.2).*1) as ->.
  { generalize (imap pair (range_map o [] (msgs ps))). intros l. induction l as [|x l IH]; [done|]. rewrite !bind_cons, fmap_app, IH.
    f_equal. by rewrite <- !list_fmap_compose. }
  apply NoDup_bind.
  - intros [i [t x]] [j [u y]] [v p] Hi Hj Hx Hy. cbn in *. apply list_elem_of_fmap in Hx as (? & [= -> _] & _), Hy as (? & [= -> _] & _).
    apply elem_of_lookup_imap in Hi as (i' & ? & [= <- <-] & Hi), Hj as (j' & ? & [= <- <-] & Hj).
    assert (i = j) as ->.
    { eapply (NoDup_lookup (range_map o [] (msgs ps)).*1); [apply Hr|by rewrite list_lookup_fmap, Hi|by rewrite list_lookup_fmap, Hj]. }
    congruence.
  - intros [i [t x]] _. cbn. apply NoDup_fmap_2; [|apply Hr]. intros ???. congruence.
  - apply (NoDup_fmap_1 snd). rewrite fmap_imap. apply (NoDup_fmap_1 fst). rewrite fmap_imap.
    replace (imap _ _) with (range_map o [] (msgs ps)).*1; [apply Hr|].
    rewrite <- (imap_const fst (range_map o [] (msgs ps))). by apply imap_ext.
Qed.

Section build.
Context (checksum : crcPolynomial → bytes → Z) (compressor : Z → Z → bytes → option bytes).
(** What a partition's set becomes in the request *)
Definition sends (s : partitionSet) (r : Records_) : Prop :=
  if batches then ∃ b, Batch (recordsToSend s) = Some b ∧ r = newDefaultRecords (numbered_batch b)
  else ∃ ms, MsgSet (recordsToSend s) = Some ms ∧
    if Compression (Producer conf) =? CompressionNone then r = newLegacyRecords ms
    else ∃ m, compressed_message conf checksum compressor ms = Ret m ∧ r = newLegacyRecords (addMessage m (mk_set false false [])).
Abbreviation build := (build_partition conf checksum compressor).

Lemma build_sends t p s r req : (3 <=? pr_Version req) = batches → sends s r → get_block (pr_records req) t p = None →
  build t p s req = Ret (set_records t p r req).
Proof.
  intros Hv Hs Hn. unfold sends, build_partition in *. rewrite Hv. destruct batches.
  - by destruct Hs as (b & -> & ->).
  - destruct Hs as (ms & -> & Hs). destruct (_ =? _); [by rewrite Hs|]. destruct Hs as (m & -> & ->). cbn [gbind].
    unfold AddMessage. by rewrite Hn.
Qed.
Lemma build_each l : ∀ req, (3 <=? pr_Version req) = batches → NoDup l.*1 →
  (∀ t p s, (t, p, s) ∈ l → (∃ r, sends s r) ∧ get_block (pr_records req) t p = None) →
  ∃ req', go_each (fun e => build e.1.1 e.1.2 e.2) l req = Ret req' ∧
    (TransactionalID req' = TransactionalID req ∧ RequiredAcks req' = RequiredAcks req ∧ pr_Timeout req' = pr_Timeout req ∧ pr_Version req' = pr_Version req) ∧
    (∀ t p s, (t, p, s) ∈ l → ∃ r, sends s r ∧ get_block (pr_records req') t p = Some r) ∧
    ∀ t p, (t, p) ∉ l.*1 → get_block (pr_records req') t p = get_block (pr_records req) t p.
Proof.
  induction l as [|[[t p] s] l IH]; intros req Hv Hd Hl; cbn [go_each].
  { exists req. split_and!; [done..| |done]. by intros t p s ?%not_elem_of_nil. }
  apply NoDup_cons in Hd as [Hn Hd]. destruct (Hl t p s) as [[r Hr] Hg]; [by left|]. cbn [fst snd].
  rewrite (build_sends _ _ _ r) by done. cbn [gbind].
  destruct (IH (set_records t p r req)) as (req' & E & Hf & Hin & Hout); [done|done| |].
  { intros u q x Hx. destruct (Hl u q x) as [Hr' Hg']; [by right|]. split; [done|]. cbn [set_records pr_records]. rewrite get_add.
    destruct (decide _) as [[<- <-]|]; [|done]. destruct Hn. by apply (list_elem_of_fmap_2 fst _ (t, p, x)). }
  exists req'. split_and!; [done|naive_solver..| |].
  - intros u q x [[= -> -> ->]|Hx]%elem_of_cons; [|by apply Hin]. exists r. split; [done|]. rewrite Hout by done.
    cbn [set_records pr_records]. by rewrite get_add, decide_True.
  - intros u q [Hne Hnl]%not_elem_of_cons. rewrite Hout by done. cbn [set_records pr_records]. rewrite get_add, decide_False; naive_solver.
Qed.
(** Every partition is in the request, once. *)
Lemma build_request o ps : fair o → (∀ t p s, get_block (msgs ps) t p = Some s → ∃ r, sends s r) →
  ∃ req, buildRequest conf checksum compressor o ps = Ret req ∧
    RequiredAcks req = conf_RequiredAcks (Producer conf) ∧ pr_Version req = (if batches then 3 else if timestamps then 2 else 0) ∧
    ∀ t p, match get_block (msgs ps) t p with
           | Some s => ∃ r, sends s r ∧ get_block (pr_records req) t p = Some r
           | None => get_block (pr_records req) t p = None
           end.
Proof.
  intros Ho Hs. unfold buildRequest. set (req := mk_ProduceRequest _ _ _ _ _).
  assert (∀ t p, get_block (pr_records req) t p = None) as He by (intros; unfold get_block; cbn; by rewrite lookup_empty).
  destruct (build_each (eachPartition o ps) req) as (req' & E & (_ & Ha & _ & Hv) & Hin & Hout).
  - subst req. cbn [pr_Version]. by destruct batches, timestamps.
  - by apply each_nodup.
  - intros t p s Hx%each_elem; [|done]. eauto.
  - exists req'. split_and!; [done..|]. intros t p. destruct (get_block (msgs ps) t p) as [s|] eqn:Eg.
    + by apply Hin, each_elem.
    + rewrite Hout; [done|]. intros ([[u q] s] & [= <- <-] & Hx)%list_elem_of_fmap. apply each_elem in Hx; [congruence|done].
Qed.

(** A set that is in order becomes a batch for each of its partitions. *)
Lemma set_batches o ps : batches = true → fair o → produce_set_ok ps →
  ∃ req, buildRequest conf checksum compressor o ps = Ret req ∧ pr_Version req = 3 ∧
    RequiredAcks req = conf_RequiredAcks (Producer conf) ∧
    ∀ t p, match get_block (msgs ps) t p with
           | None => get_block (pr_records req) t p = None
           | Some s => ∃ b, get_block (pr_records req) t p = Some (newDefaultRecords b) ∧
               LastOffsetDelta b = swrap 32 (len (ps_msgs s) - 1) ∧ length (Records b) = length (ps_msgs s) ∧
               ∀ i m, ps_msgs s !! i = Some m → ∃ r, Records b !! i = Some r ∧ OffsetDelta r = Z.of_nat i ∧ record_carries m r
           end.
Proof.
  intros Hb Ho (_ & _ & Hp).
  assert (∀ t p s, get_block (msgs ps) t p = Some s → ∃ b, recordsToSend s = newDefaultRecords b ∧ ps_msgs s ≠ [] ∧ Forall2 record_carries (ps_msgs s) (Records b)) as Hr.
  { intros t p s Hg. destruct (Hp t p s Hg) as (Hs & Hne & _). unfold partition_ok in Hs. rewrite Hb in Hs. naive_solver. }
  destruct (build_request o ps Ho) as (req & E & Ha & Hv & Hg).
  { intros t p s Hg. destruct (Hr t p s Hg) as (b & Eb & _). unfold sends. rewrite Hb, Eb. eexists. by exists b. }
  rewrite Hb in Hv. exists req. split_and!; [done..|]. intros t p. specialize (Hg t p). destruct (get_block (msgs ps) t p) as [s|] eqn:Eg; [|done].
  destruct Hg as (r & Hs & ->). destruct (Hr t p s Eg) as (b & Eb & Hne & Hc). unfold sends in Hs. rewrite Hb, Eb in Hs.
  destruct Hs as (b' & [= <-] & ->). exists (numbered_batch b). pose proof (Forall2_length _ _ _ Hc) as Hlen.
  unfold numbered_batch. destruct (Records b) as [|r0 rs] eqn:Er; [by destruct (ps_msgs s)|]. cbn [LastOffsetDelta Records].
  split_and!; [done|by unfold len; rewrite <- Hlen|by rewrite length_imap|]. intros i m Hm.
  destruct (Forall2_lookup_l _ _ _ _ _ Hc Hm) as (x & Hx & Hcar). rewrite list_lookup_imap, Hx. eexists. split; [done|]. done.
Qed.

(** C32: For brokers from 0.11 on and a producer that is not idempotent, after any sequence of
    add and dropPartition from the empty buffer buildRequest does not panic: every partition
    whose queue has messages has one batch with one record for each of them, in order, with
    the offsets 0, 1, 2 and so on and the key, value and headers of its message, and no other
    partition has one. *)
Theorem buildRequest_batches o ops : batches = true → Idempotent (Producer conf) = false → fair o →
  let q := (spec_ops ops (fun _ _ => [])).2 in
  ∃ results ps req, run_ops ops newProduceSet = Ret (results, ps) ∧ buildRequest conf checksum compressor o ps = Ret req ∧
    pr_Version req = 3 ∧ RequiredAcks req = conf_RequiredAcks (Producer conf) ∧
    ∀ t p, match q t p with
           | [] => get_block (pr_records req) t p = None
           | l => ∃ b, get_block (pr_records req) t p = Some (newDefaultRecords b) ∧
               LastOffsetDelta b = swrap 32 (len l - 1) ∧ length (Records b) = length l ∧
               ∀ i m, l !! i = Some m → ∃ r, Records b !! i = Some r ∧ OffsetDelta r = Z.of_nat i ∧ record_carries m r
           end.
Proof.
  intros Hb Hi Ho. pose proof (run_ops_spec ops Hi) as H. destruct (spec_ops ops _) as [results q]. destruct H as (ps & E & Hok & Hq).
  destruct (set_batches o ps Hb Ho Hok) as (req & Er & Hv & Ha & Hg). exists results, ps, req. split_and!; [done..|].
  intros t p. specialize (Hg t p). cbn [snd]. rewrite <- Hq. unfold partition_msgs. destruct Hok as (_ & _ & Hp).
  destruct (get_block (msgs ps) t p) as [s|] eqn:Eg; cbn [fmap option_fmap option_map default from_option id]; [|done].
  destruct (Hp t p s Eg) as (_ & Hne & _). by destruct (ps_msgs s).
Qed.

(** ** Sizes *)

Abbreviation bytes_of l := (l ≫= render checksum).
Lemma uvarint_len k : ∀ fuel u, 0 ≤ u < 2 ^ (7 * Z.of_nat (S k)) → len (uvarint_bytes fuel u) ≤ Z.of_nat (S k).
Proof.
  induction k as [|k IH]; intros [|fuel] u Hu; cbn [uvarint_bytes]; try (change (len (@nil Z)) with 0; lia).
  - replace (u <? 128) with true by (simpl in *; lia). done.
  - destruct (u <? 128); [rewrite len_cons; change (len (@nil Z)) with 0; lia|]. rewrite len_cons.
    pose proof (IH fuel (Z.shiftr u 7)) as Hr. rewrite Z.shiftr_div_pow2 in * by done.
    replace (7 * Z.of_nat (S (S k))) with (7 * Z.of_nat (S k) + 7) in Hu by lia. rewrite Z.pow_add_r in Hu by lia.
    pose proof (Z.div_lt_upper_bound u (2 ^ 7) (2 ^ (7 * Z.of_nat (S k)))). pose proof (Z.div_pos u (2 ^ 7)). lia.
Qed.
Lemma varint_len32 n : int_ok 32 n → len (varint_bytes n) ≤ MaxVarintLen32.
Proof.
  intros Hn. apply (uvarint_len 4). unfold zigzag, uwrap, int_ok in *. change (2 ^ (7 * Z.of_nat 5)) with 34359738368. simpl in Hn.
  rewrite Z.mod_small; destruct (Z.ltb_spec n 0); simpl; lia.
Qed.
Lemma varint_len64 n : len (varint_bytes n) ≤ MaxVarintLen64.
Proof.
  apply (uvarint_len 9). unfold zigzag, uwrap. change (2 ^ (7 * Z.of_nat 10)) with 1180591620717411303424.
  pose proof (Z.mod_pos_bound (if n <? 0 then -2 * n - 1 else 2 * n) (2 ^ 64)). simpl in *. lia.
Qed.
Lemma varint_bytes_size b : opt_len b < 2 ^ 31 → len (data_bytes (putVarintBytes b)) ≤ MaxVarintLen32 + opt_len b.
Proof.
  destruct b as [b|]; cbn [data_bytes opt_len fmap option_fmap option_map default from_option id]; intros Hb.
  - rewrite len_app. pose proof (len_nonneg b). pose proof (varint_len32 (len b)). unfold int_ok in *. simpl in *. lia.
  - pose proof (varint_len32 (-1)). unfold int_ok in *. simpl in *. lia.
Qed.
Lemma opt_len_nonneg b : 0 ≤ opt_len b.
Proof. destruct b; cbn; [apply len_nonneg|done]. Qed.
Lemma header_size_bounds h : 10 ≤ header_size h ∧ opt_len (h_Key h) ≤ header_size h ∧ opt_len (h_Value h) ≤ header_size h.
Proof.
  unfold header_size, MaxVarintLen32. pose proof (opt_len_nonneg (h_Key h)). pose proof (opt_len_nonneg (h_Value h)). lia.
Qed.
Lemma headers_size hs : 10 * len hs ≤ sum_Z (header_size <$> hs) ∧
  (sum_Z (header_size <$> hs) < 2 ^ 31 → len (bytes_of (hs ≫= RecordHeader_items)) ≤ sum_Z (header_size <$> hs)).
Proof.
  induction hs as [|h hs [IH1 IH2]]; [by cbn|]. cbn [fmap list_fmap sum_Z foldr]. fold (sum_Z (header_size <$> hs)).
  change (foldr Z.add 0 (list_fmap _ _ header_size hs)) with (sum_Z (header_size <$> hs)).
  pose proof (header_size_bounds h) as (H1 & H2 & H3). rewrite len_cons. pose proof (len_nonneg hs). split; [lia|]. intros Hs.
  rewrite bind_cons, bind_app, len_app. specialize (IH2 ltac:(lia)). cut (len (bytes_of (RecordHeader_items h)) ≤ header_size h); [lia|].
  unfold RecordHeader_items. rewrite !bind_cons. cbn [render]. change ([] ≫= render checksum) with (@nil Z). rewrite app_nil_r, len_app.
  pose proof (varint_bytes_size (h_Key h)). pose proof (varint_bytes_size (h_Value h)). unfold header_size. lia.
Qed.
(** A record is not longer than the estimate. *)
Lemma record_size ref m r : record_carries m r → int_ok 32 (OffsetDelta r) → byteSize 2 m < 2 ^ 31 →
  len (render checksum (Record_items ref r)) ≤ byteSize 2 m.
Proof.
  intros (Hc & Hh & _) Ho Hs. rewrite (carries_size 2 m _ _ Hc) in *. cbn [Z.leb Z.compare Pos.compare Pos.compare_cont] in *. rewrite <- Hh in *.
  destruct (headers_size (Headers r)) as [H1 H2]. pose proof (opt_len_nonneg (r_Key r)). pose proof (opt_len_nonneg (r_Value r)).
  pose proof (len_nonneg (Headers r)). unfold maximumRecordOverhead, MaxVarintLen32, MaxVarintLen64 in *.
  unfold Record_items. cbn [render field_of]. set (body := bytes_of _).
  assert (len body ≤ 31 + sum_Z (header_size <$> Headers r) + opt_len (r_Key r) + opt_len (r_Value r)) as Hb.
  { unfold body. rewrite bind_app, !bind_cons, !len_app. cbn [render]. change ([] ≫= render checksum) with (@nil Z).
    specialize (H2 ltac:(lia)). pose proof (varint_bytes_size (r_Key r) ltac:(lia)). pose proof (varint_bytes_size (r_Value r) ltac:(lia)).
    pose proof (varint_len32 _ Ho). pose proof (varint_len64 (Z.quot (TimestampDelta r) Millisecond)).
    pose proof (varint_len32 (len (Headers r)) ltac:(unfold int_ok; simpl in *; lia)).
    unfold MaxVarintLen32, MaxVarintLen64 in *. cbn [data_bytes] in *. change (len (@nil Z)) with 0.
    change (len [Attributes r mod 256]) with 1. lia. }
  rewrite len_app. pose proof (len_nonneg body). pose proof (varint_len32 (len body) ltac:(unfold int_ok; simpl in *; lia)).
  unfold MaxVarintLen32 in *. lia.
Qed.
Lemma byteSize_pos m key val : carries m key val → 36 ≤ byteSize 2 m.
Proof.
  intros Hc. rewrite (carries_size 2 m key val Hc). cbn [Z.leb Z.compare Pos.compare Pos.compare_cont].
  destruct (headers_size (headers m)) as [H1 _]. pose proof (opt_len_nonneg key). pose proof (opt_len_nonneg val).
  pose proof (len_nonneg (headers m)). unfold maximumRecordOverhead, MaxVarintLen32, MaxVarintLen64. lia.
Qed.
Lemma sizes_count l rs : Forall2 record_carries l rs → 36 * len l ≤ sizes 2 l.
Proof.
  induction 1 as [|m r l rs [Hm _] _ IH]; [done|]. unfold sizes in *. cbn [fmap list_fmap]. rewrite len_cons.
  apply byteSize_pos in Hm. cbn [sum_Z foldr]. unfold sum_Z in IH. lia.
Qed.
Lemma records_size l rs : Forall2 record_carries l rs → ∀ n, Forall (fun r => int_ok 32 (OffsetDelta r)) rs → sizes 2 l < 2 ^ 31 →
  len (bytes_of (imap (fun i => Record_items (n + i)) rs)) ≤ sizes 2 l.
Proof.
  induction 1 as [|m r l rs Hm Hl IH]; intros n Ho Hs; [done|]. apply Forall_cons in Ho as [Hr Ho]. cbn [imap]. rewrite bind_cons, len_app.
  assert (sizes 2 (m :: l) = byteSize 2 m + sizes 2 l) as E by done. rewrite E in *.
  pose proof (byteSize_pos _ _ _ (proj1 Hm)). pose proof (sizes_count l rs Hl). pose proof (len_nonneg l).
  pose proof (record_size (n + 0) m r Hm Hr ltac:(lia)).
  specialize (IH (S n) Ho ltac:(lia)). erewrite (imap_ext _ (fun i => Record_items (S n + i))); [lia|].
  intros i x _. cbn. f_equal. lia.
Qed.

(** The size the buffer keeps for a partition is an upper bound of the bytes its
    uncompressed batch takes on the wire, so a batch under MaxMessageBytes by this count is
    under it. *)
Theorem batch_size s b p :
  batches = true → Compression (Producer conf) = CompressionNone → partition_ok s → recordsToSend s = newDefaultRecords b →
  ps_msgs s ≠ [] → ps_bufferBytes s < 2 ^ 31 →
  encodeRecords checksum compressor ∅ (numbered_batch b) = Ret (inl p) → len p + recordBatchOverhead ≤ ps_bufferBytes s.
Proof.
  intros Hb Hcomp Hs Eb Hne Hlt. unfold partition_ok in Hs. rewrite Hb, Eb in Hs.
  destruct Hs as (b' & [= <-] & _ & Hcodec & _ & Hc & Hbytes). rewrite Hbytes in *.
  pose proof (sizes_count _ _ Hc) as Hn. pose proof (len_nonneg (ps_msgs s)). unfold recordBatchOverhead in *.
  unfold encodeRecords. rewrite (encode_shape checksum ∅ _ (records_ok _)). cbn [gbind]. destruct (items_error _); [done|].
  destruct (_ <? _); [done|]. unfold compress.
  assert (Codec (numbered_batch b) = CompressionNone) as -> by (unfold numbered_batch; destruct (Records b); cbn; congruence).
  cbn [Z.eqb CompressionNone]. intros [= <-].
  assert (∃ rs, Records (numbered_batch b) = rs ∧ Forall2 record_carries (ps_msgs s) rs ∧ Forall (fun r => int_ok 32 (OffsetDelta r)) rs) as (rs & -> & Hc' & Ho).
  { eexists. split; [done|]. unfold numbered_batch. pose proof (Forall2_length _ _ _ Hc) as Hlen.
    destruct (Records b) as [|r0 rs0] eqn:Er; [by destruct (ps_msgs s)|]. cbn [Records]. rewrite <- Er in *. clear Er. split.
    - apply Forall2_same_length_lookup. split; [by rewrite length_imap|]. intros i m r Hm Hr. rewrite list_lookup_imap in Hr.
      destruct (Records b !! i) as [x|] eqn:Ex; [|done]. injection Hr as <-. exact (Forall2_lookup_lr _ _ _ _ _ _ Hc Hm Ex).
    - apply Forall_lookup. intros i r Hr. rewrite list_lookup_imap in Hr. destruct (Records b !! i) as [x|] eqn:Ex; [|done]. injection Hr as <-.
      apply lookup_lt_Some in Ex. cbn [OffsetDelta]. unfold int_ok, len in *. simpl in *. lia. }
  assert (len (bytes_of (recordsArray_items rs)) ≤ sizes 2 (ps_msgs s)) by (apply (records_size _ _ Hc' 0 Ho); lia). lia.
Qed.
End build.
End produceSet.

(** ** Examples *)

Definition with_producer (v : KafkaVersion) (compression : Z) (idempotent : bool) : Config :=
  let c := NewConfig in
  let p := Producer c in
  mk_Config (Admin_Timeout c) (Net c) (Metadata c)
    (mk_producer (MaxMessageBytes p) WaitForAll (prod_Timeout p) compression (conf_CompressionLevel p) true idempotent true true 0 0 0 0 3 (Retry_Backoff p))
    (Consumer c) (ClientID c) (ChannelBufferSize c) v.
Definition sample_msg (partition time sequence : Z) (value : bytes) : ProducerMessage :=
  mk_pm (B "sql") (Some (Encoded (B "db"))) (Some (Encoded value)) None 0 partition time 0 0 sequence.
Definition sample_time : Z := 1500000000000000000.
Definition sample_ops : list set_op :=
  [Add sample_time (sample_msg 0 zero_time 0 (B "select 1")); Add sample_time (sample_msg 1 sample_time 0 (B "select 2"));
   Add sample_time (mk_pm (B "sql") (Some (EncodeError 3)) None None 0 0 0 0 0 0); Add sample_time (sample_msg 0 sample_time 1 (B "select 3"));
   Drop (B "sql") 1].

Lemma produce_set_refines_witness :
  let conf := with_producer V1_0_0_0 0 false in
  let (results, q) := spec_ops sample_ops (fun _ _ => []) in
  ∃ ps, run_ops conf (-1) (-1) sample_ops newProduceSet = Ret (results, ps) ∧ counters_ok conf ps ∧ ∀ t p, partition_msgs ps t p = q t p.
Proof. intros conf. exact (produce_set_refines conf (-1) (-1) sample_ops eq_refl). Defined.

(** A set of two messages in one partition *)
Definition sample_set2 (conf : Config) : produceSet :=
  match (let* r := KafkaProduceSet.add conf (-1) (-1) sample_time (sample_msg 0 sample_time 0 (B "select 1")) newProduceSet in
         KafkaProduceSet.add conf (-1) (-1) sample_time (sample_msg 0 sample_time 1 (B "select 2")) r.2) with
  | Ret r => r.2
  | Panic _ => newProduceSet
  end.
Lemma sample_set2_ok conf : Idempotent (Producer conf) = false → produce_set_ok conf (sample_set2 conf).
Proof.
  intros Hi. unfold sample_set2.
  destruct (add_spec conf (-1) (-1) sample_time (sample_msg 0 sample_time 0 (B "select 1")) newProduceSet (new_ok conf)) as (r1 & ps1 & -> & H1).
  cbn [gbind snd]. cbn in H1. destruct H1 as [(-> & H1 & _)|[_ H1]]; [|congruence].
  destruct (add_spec conf (-1) (-1) sample_time (sample_msg 0 sample_time 1 (B "select 2")) ps1 H1) as (r2 & ps2 & -> & H2).
  cbn in *. destruct H2 as [(_ & H2 & _)|[_ H2]]; [done|congruence].
Qed.
Definition sample_queues : queues := (spec_ops sample_ops (fun _ _ => [])).2.
Lemma buildRequest_batches_witness :
  let conf := with_producer V1_0_0_0 0 false in
  sample_queues (B "sql") 0 = [sample_msg 0 zero_time 0 (B "select 1"); sample_msg 0 sample_time 1 (B "select 3")] ∧ sample_queues (B "sql") 1 = [] ∧
  ∃ results ps req, run_ops conf (-1) (-1) sample_ops newProduceSet = Ret (results, ps) ∧
    buildRequest conf sample_checksum (fun _ _ b => Some b) (fun _ _ l => reverse l) ps = Ret req ∧ pr_Version req = 3 ∧ RequiredAcks req = WaitForAll ∧
    ∀ t p, match sample_queues t p with
           | [] => get_block (pr_records req) t p = None
           | l => ∃ b, get_block (pr_records req) t p = Some (newDefaultRecords b) ∧
               LastOffsetDelta b = swrap 32 (len l - 1) ∧ length (Records b) = length l ∧
               ∀ i m, l !! i = Some m → ∃ r, Records b !! i = Some r ∧ OffsetDelta r = Z.of_nat i ∧ record_carries m r
           end.
Proof.
  intros conf. split; [vm_compute; reflexivity|]. split; [vm_compute; reflexivity|].
  refine (buildRequest_batches conf (-1) (-1) sample_checksum (fun _ _ b => Some b) (fun _ _ l => reverse l) sample_ops eq_refl eq_refl _).
  intros p A l. apply reverse_Permutation.
Defined.

Definition sample_partition : partitionSet :=
  default (mk_pset [] (mk_Records unknownRecords None None) 0) (get_block (msgs (sample_set2 (with_producer V1_0_0_0 0 false))) (B "sql") 0).
Lemma batch_size_witness :
  let b := mk_batch 0 0 2 0 (-1000) false false 0 sample_time zero_time (-1) (-1) 0
    [mk_record [] 0 0 0 (Some (B "db")) (Some (B "select 1")); mk_record [] 0 0 0 (Some (B "db")) (Some (B "select 2"))] false false None in
  let p := [34; 0; 0; 0; 4; 100; 98; 16; 115; 101; 108; 101; 99; 116; 32; 49; 0; 0; 34; 0; 0; 2; 4; 100; 98; 16; 115; 101; 108; 101; 99; 116; 32; 50; 0] in
  ∃ p, encodeRecords sample_checksum (fun _ _ b => Some b) ∅ (numbered_batch b) = Ret (inl p) ∧ len p + recordBatchOverhead ≤ ps_bufferBytes sample_partition.
Proof.
  intros b _. eexists. split; [vm_compute; reflexivity|].
  refine (batch_size (with_producer V1_0_0_0 0 false) sample_checksum (fun _ _ b => Some b) sample_partition b _ eq_refl eq_refl _ eq_refl _ _ _).
  - apply (proj2 (proj2 (sample_set2_ok (with_producer V1_0_0_0 0 false) eq_refl)) (B "sql") 0 sample_partition). vm_compute. reflexivity.
  - vm_compute. discriminate.
  - vm_compute. reflexivity.
  - vm_compute. reflexivity.
Defined.

(** A message that is out of sequence is refused, but stays among the messages of its partition:
    the caller reports an error for it now, and the response of the broker reports it again. *)
Lemma out_of_sequence_kept :
  let conf := with_producer V1_0_0_0 0 true in
  let m1 := sample_msg 0 sample_time 5 (B "select 1") in
  let m2 := sample_msg 0 sample_time 4 (B "select 2") in
  ∃ ps1 ps2, KafkaProduceSet.add conf 9 0 sample_time m1 newProduceSet = Ret (None, ps1) ∧
    KafkaProduceSet.add conf 9 0 sample_time m2 ps1 = Ret (Some OutOfSequence, ps2) ∧
    partition_msgs ps2 (B "sql") 0 = [m1; m2] ∧ bufferCount ps2 = 1.
Proof. do 2 eexists. repeat (split; [vm_compute; reflexivity|]). vm_compute. reflexivity. Qed.

(** Before 0.11 the estimate leaves out the eight bytes of the timestamp that 0.10 has added. *)
Lemma message_undercounted :
  let m := sample_msg 0 sample_time 0 (B "select 1") in
  let sent v t := mk_block 0 (mk_message 0 0 false (Some (B "db")) (Some (B "select 1")) None v t) in
  len (MessageBlock_items (fun _ _ b => Some b) (sent 0 zero_time) ≫= render sample_checksum) = byteSize 1 m ∧
  len (MessageBlock_items (fun _ _ b => Some b) (sent 1 sample_time) ≫= render sample_checksum) = byteSize 1 m + 8.
Proof. split; vm_compute; reflexivity. Qed.

(** With compression before 0.11, a message with a time before 1970 makes [buildRequest] panic. *)
Lemma early_timestamp_panics :
  let conf := with_producer V0_10_0_0 1 false in
  ∃ ps, KafkaProduceSet.add conf (-1) (-1) sample_time (sample_msg 0 (-1) 0 (B "select 1")) newProduceSet = Ret (None, ps) ∧
    buildRequest conf sample_checksum (fun _ _ b => Some b) (fun _ _ l => l) ps = Panic ExplicitPanic.
Proof. eexists. split; [vm_compute; reflexivity|]. vm_compute. reflexivity. Qed.
