(* ===== verification/KafkaProducer.v ===== *)
(** * [kafka/async_producer.go]: the asynchronous producer

    The goroutines of the producer as functions from the state between two receives to the next
    one: the dispatcher, a [topicProducer] for each topic, a [partitionProducer] for each
    partition, a [brokerProducer] with its bridge for each broker, [retryHandler] and
    [shutdown].  A channel is the queue of what was sent and not received yet; what the client
    answers about leaders and partitions, what the brokers answer, the clock, and the order of
    the goroutines are choices of the environment. *)

From S2P Require Import Prelude GoStrings KafkaCodec KafkaRecord KafkaPartitioner KafkaProtocol KafkaProduce KafkaBroker KafkaConfig KafkaProduceSet.

(** ** Messages *)

(** [type flagSet int8] *)
Definition syn : Z := 1.
Definition fin : Z := 2.
Definition shutdown : Z := 4.
(** [msg.flags&f == f] *)
Definition has (f : Z) (m : ProducerMessage) : bool := Z.land (pm_flags m) f =? f.

Definition set_retries (n : Z) (m : ProducerMessage) : ProducerMessage :=
  mk_pm (Topic m) (pm_Key m) (pm_Value m) (pm_Headers m) (pm_Offset m) (pm_Partition m) (pm_Timestamp m) n (pm_flags m) (sequenceNumber m).
Definition set_Partition (n : Z) (m : ProducerMessage) : ProducerMessage :=
  mk_pm (Topic m) (pm_Key m) (pm_Value m) (pm_Headers m) (pm_Offset m) n (pm_Timestamp m) (retries m) (pm_flags m) (sequenceNumber m).
Definition set_sequence (n : Z) (m : ProducerMessage) : ProducerMessage :=
  mk_pm (Topic m) (pm_Key m) (pm_Value m) (pm_Headers m) (pm_Offset m) (pm_Partition m) (pm_Timestamp m) (retries m) (pm_flags m) n.
(** [func (m *ProducerMessage) clear()] *)
Definition clear (m : ProducerMessage) : ProducerMessage :=
  mk_pm (Topic m) (pm_Key m) (pm_Value m) (pm_Headers m) (pm_Offset m) (pm_Partition m) (pm_Timestamp m) 0 0 (sequenceNumber m).
(** [&ProducerMessage{Topic: t, Partition: p, flags: f, retries: n}] *)
Definition control (t : bytes) (p f n : Z) : ProducerMessage := mk_pm t None None None 0 p zero_time n f 0.

(** ** Errors *)

Inductive producer_error :=
| KError (code : Z) | ErrIncompleteResponse | ErrInvalidPartition | ErrShuttingDown | HeadersUnsupported | PartitionerFailed
| LookupFailed | AddFailed (e : add_error) | RequestFailed (e : broker_error).
Definition ErrNoError : Z := 0.
Definition ErrInvalidMessage : Z := 2.
Definition ErrUnknownTopicOrPartition : Z := 3.
Definition ErrLeaderNotAvailable : Z := 5.
Definition ErrNotLeaderForPartition : Z := 6.
Definition ErrRequestTimedOut : Z := 7.
Definition ErrMessageSizeTooLarge : Z := 10.
Definition ErrNotEnoughReplicas : Z := 19.
Definition ErrNotEnoughReplicasAfterAppend : Z := 20.
Definition ErrDuplicateSequenceNumber : Z := 46.
(** The errors of a block that are worth another try *)
Definition retriable (code : Z) : bool :=
  existsb (Z.eqb code) [ErrInvalidMessage; ErrUnknownTopicOrPartition; ErrLeaderNotAvailable; ErrNotLeaderForPartition;
                        ErrRequestTimedOut; ErrNotEnoughReplicas; ErrNotEnoughReplicasAfterAppend].

(** ** State *)

(** What [run] of a broker producer does: the loop, [waitForSpace] for a message, [shutdown] *)
Inductive bp_mode := Running | Waiting (msg : ProducerMessage) | Draining.
(** [type brokerProducer struct] with the set its bridge has sent, and whether the variable
    [output] of [run] is the channel or nil *)
Record brokerProducer := mk_bp {
  bp_broker : Z; bp_flight : option produceSet; bp_buffer : produceSet; bp_timer : bool; timerFired : bool;
  closing : option producer_error; currentRetries : gmap bytes (gmap Z (option producer_error)); bp_output : bool; bp_run : bp_mode }.
(** [type partitionRetryState struct], [type partitionProducer struct] *)
Record partitionRetryState := mk_retry { rs_buf : list ProducerMessage; expectChaser : bool }.
Record partitionProducer := mk_pp {
  pp_topic : bytes; pp_partition : Z; pp_leader : option Z; pp_bp : option nat; highWatermark : Z; retryState : list partitionRetryState }.
(** A batch that [retryBatch] sends again *)
Record batch_retry := mk_batch_retry { br_topic : bytes; br_partition : Z; br_set : partitionSet; br_err : Z }.
(** [type asyncProducer struct]: the broker producers by number, their [input] channels with
    whether they are closed, the closed channels [abandoned], the wait group, the messages on
    [retries] and in the queue of [retryHandler], what was reported, the goroutines of
    [retryBatch], before and after they have found a leader, and [txnmgr.sequenceNumbers] *)
Record asyncProducer := mk_producer_state {
  p_brokers : gmap Z nat; p_refs : gmap nat Z; p_bps : gmap nat brokerProducer; p_inputs : gmap nat (list ProducerMessage * bool);
  p_abandoned : gset nat; p_inFlight : Z; p_retries : list ProducerMessage; p_errors : list (ProducerMessage * producer_error);
  p_successes : list ProducerMessage; p_batches : list batch_retry; p_resends : list (nat * produceSet); p_sequences : gmap bytes Z }.

Definition set_inFlight n p := mk_producer_state (p_brokers p) (p_refs p) (p_bps p) (p_inputs p) (p_abandoned p) n (p_retries p) (p_errors p) (p_successes p) (p_batches p) (p_resends p) (p_sequences p).
Definition set_retryq q p := mk_producer_state (p_brokers p) (p_refs p) (p_bps p) (p_inputs p) (p_abandoned p) (p_inFlight p) q (p_errors p) (p_successes p) (p_batches p) (p_resends p) (p_sequences p).
Definition set_errors q p := mk_producer_state (p_brokers p) (p_refs p) (p_bps p) (p_inputs p) (p_abandoned p) (p_inFlight p) (p_retries p) q (p_successes p) (p_batches p) (p_resends p) (p_sequences p).
Definition set_successes q p := mk_producer_state (p_brokers p) (p_refs p) (p_bps p) (p_inputs p) (p_abandoned p) (p_inFlight p) (p_retries p) (p_errors p) q (p_batches p) (p_resends p) (p_sequences p).
Definition set_brokers br rf p := mk_producer_state br rf (p_bps p) (p_inputs p) (p_abandoned p) (p_inFlight p) (p_retries p) (p_errors p) (p_successes p) (p_batches p) (p_resends p) (p_sequences p).
Definition set_bps m p := mk_producer_state (p_brokers p) (p_refs p) m (p_inputs p) (p_abandoned p) (p_inFlight p) (p_retries p) (p_errors p) (p_successes p) (p_batches p) (p_resends p) (p_sequences p).
Definition set_inputs m p := mk_producer_state (p_brokers p) (p_refs p) (p_bps p) m (p_abandoned p) (p_inFlight p) (p_retries p) (p_errors p) (p_successes p) (p_batches p) (p_resends p) (p_sequences p).
Definition set_abandoned a p := mk_producer_state (p_brokers p) (p_refs p) (p_bps p) (p_inputs p) a (p_inFlight p) (p_retries p) (p_errors p) (p_successes p) (p_batches p) (p_resends p) (p_sequences p).
Definition set_batches b r p := mk_producer_state (p_brokers p) (p_refs p) (p_bps p) (p_inputs p) (p_abandoned p) (p_inFlight p) (p_retries p) (p_errors p) (p_successes p) b r (p_sequences p).
Definition set_sequences s p := mk_producer_state (p_brokers p) (p_refs p) (p_bps p) (p_inputs p) (p_abandoned p) (p_inFlight p) (p_retries p) (p_errors p) (p_successes p) (p_batches p) (p_resends p) s.

Section producer.
Context (conf : Config) (producerID producerEpoch : Z).
Abbreviation Max := (Retry_Max (Producer conf)).

(** ** What the goroutines share *)

(** [p.inFlight.Add(n)]; a negative counter panics. *)
Definition inFlight_Add (n : Z) (p : asyncProducer) : Go asyncProducer :=
  if p_inFlight p + n <? 0 then Panic ExplicitPanic else Ret (set_inFlight (p_inFlight p + n) p).
(** [func (p *asyncProducer) returnError(msg *ProducerMessage, err error)]: on the channel when
    [Return.Errors] is set, otherwise only in the log *)
Definition returnError (msg : ProducerMessage) (err : producer_error) (p : asyncProducer) : Go asyncProducer :=
  inFlight_Add (-1) (set_errors (p_errors p ++ [(clear msg, err)]) p).
Definition returnErrors (batch : list ProducerMessage) (err : producer_error) : asyncProducer → Go asyncProducer :=
  go_each (fun msg => returnError msg err) batch.
(** [func (p *asyncProducer) returnSuccesses(batch []*ProducerMessage)]; without [Return.Successes]
    nobody is told. *)
Definition returnSuccess (msg : ProducerMessage) (p : asyncProducer) : Go asyncProducer :=
  inFlight_Add (-1) (set_successes (p_successes p ++ [if Return_Successes (Producer conf) then clear msg else msg]) p).
Definition returnSuccesses : list ProducerMessage → asyncProducer → Go asyncProducer := go_each returnSuccess.
(** [func (p *asyncProducer) retryMessage(msg *ProducerMessage, err error)] *)
Definition retryMessage (msg : ProducerMessage) (err : producer_error) (p : asyncProducer) : Go asyncProducer :=
  if Max <=? retries msg then returnError msg err p
  else Ret (set_retryq (p_retries p ++ [set_retries (retries msg + 1) msg]) p).
Definition retryMessages (batch : list ProducerMessage) (err : producer_error) : asyncProducer → Go asyncProducer :=
  go_each (fun msg => retryMessage msg err) batch.

(** [func (t *transactionManager) getAndIncrementSequenceNumber(topic string, partition int32) int32] *)
Definition getAndIncrementSequenceNumber (topic : bytes) (partition : Z) (p : asyncProducer) : Z * asyncProducer :=
  let key := topic ++ B "-" ++ Itoa partition in
  let sequence := default 0 (p_sequences p !! key) in
  (sequence, set_sequences (<[key := swrap 32 (sequence + 1)]> (p_sequences p)) p).

(** ** Broker producers by number *)

(** [func (p *asyncProducer) newBrokerProducer(broker *Broker) *brokerProducer] *)
Definition newBrokerProducer (broker : Z) : brokerProducer :=
  mk_bp broker None newProduceSet false false None ∅ false Running.
Definition new_number (p : asyncProducer) : nat := fresh (dom (p_inputs p)).
(** [func (p *asyncProducer) getBrokerProducer(broker *Broker) *brokerProducer] *)
Definition add_ref (b : nat) (n : Z) (p : asyncProducer) : asyncProducer :=
  set_brokers (p_brokers p) (<[b := default 0 (p_refs p !! b) + n]> (p_refs p)) p.
Definition getBrokerProducer (broker : Z) (p : asyncProducer) : nat * asyncProducer :=
  match p_brokers p !! broker with
  | Some b => (b, add_ref b 1 p)
  | None =>
      let b := new_number p in
      (b, add_ref b 1 (set_brokers (<[broker := b]> (p_brokers p)) (<[b := 0]> (p_refs p))
            (set_bps (<[b := newBrokerProducer broker]> (p_bps p)) (set_inputs (<[b := ([], false)]> (p_inputs p)) p))))
  end.
(** [close(bp.input)], [bp.input <- msg] *)
Definition close_input (b : nat) (p : asyncProducer) : Go asyncProducer :=
  match p_inputs p !! b with
  | None => Panic NilDereference
  | Some (_, true) => Panic ExplicitPanic
  | Some (q, false) => Ret (set_inputs (<[b := (q, true)]> (p_inputs p)) p)
  end.
Definition send_input (b : nat) (msg : ProducerMessage) (p : asyncProducer) : Go asyncProducer :=
  match p_inputs p !! b with
  | None => Panic NilDereference
  | Some (_, true) => Panic ExplicitPanic
  | Some (q, false) => Ret (set_inputs (<[b := (q ++ [msg], false)]> (p_inputs p)) p)
  end.
(** [func (p *asyncProducer) unrefBrokerProducer(broker *Broker, bp *brokerProducer)] *)
Definition unrefBrokerProducer (broker : option Z) (b : nat) (p : asyncProducer) : Go asyncProducer :=
  let p := add_ref b (-1) p in
  if negb (default 0 (p_refs p !! b) =? 0) then Ret p
  else
    let* p := close_input b p in
    Ret (set_brokers (match broker with
                      | Some k => if decide (p_brokers p !! k = Some b) then delete k (p_brokers p) else p_brokers p
                      | None => p_brokers p
                      end) (delete b (p_refs p)) p).
(** [func (p *asyncProducer) abandonBrokerConnection(broker *Broker)]; the channel [abandoned] is
    made when [Retry.Max <= 0]. *)
Definition abandonBrokerConnection (broker : Z) (p : asyncProducer) : Go asyncProducer :=
  let* p := match p_brokers p !! broker with
            | Some b => if Max <=? 0
                        then if decide (b ∈ p_abandoned p) then Panic ExplicitPanic else Ret (set_abandoned ({[b]} ∪ p_abandoned p) p)
                        else Ret p
            | None => Ret p
            end in
  Ret (set_brokers (delete broker (p_brokers p)) (p_refs p) p).

(** ** A partition *)

Definition set_bp l b pp := mk_pp (pp_topic pp) (pp_partition pp) l b (highWatermark pp) (retryState pp).
Definition set_hwm h rs pp := mk_pp (pp_topic pp) (pp_partition pp) (pp_leader pp) (pp_bp pp) h rs.
(** What the client says about the leader: [RefreshMetadata] fails or the breaker is open,
    [Leader] fails, or the leader *)
Inductive leader_result := RefreshFails | LeaderFails | LeaderIs (broker : Z).
(** [func (pp *partitionProducer) updateLeader() error] *)
Definition select_leader (broker : Z) (pp : partitionProducer) (p : asyncProducer) : Go (partitionProducer * asyncProducer) :=
  let (b, p) := getBrokerProducer broker p in
  let* p := inFlight_Add 1 p in
  let* p := send_input b (control (pp_topic pp) (pp_partition pp) syn 0) p in
  Ret (set_bp (Some broker) (Some b) pp, p).
Definition updateLeader (r : leader_result) (pp : partitionProducer) (p : asyncProducer) : Go (bool * partitionProducer * asyncProducer) :=
  match r with
  | RefreshFails => Ret (false, pp, p)
  | LeaderFails => Ret (false, set_bp None (pp_bp pp) pp, p)
  | LeaderIs broker => let* r := select_leader broker pp p in Ret (true, r.1, r.2)
  end.
(** [pp.retryState[n] = f(pp.retryState[n])] *)
Definition on_level (n : Z) (f : partitionRetryState → partitionRetryState) (pp : partitionProducer) : Go partitionProducer :=
  let* s := go_index (retryState pp) n in
  let* l := go_set (retryState pp) n (f s) in
  Ret (set_hwm (highWatermark pp) l pp).
Definition expect (b : bool) (s : partitionRetryState) : partitionRetryState := mk_retry (rs_buf s) b.
Definition push_buf (msg : ProducerMessage) (s : partitionRetryState) : partitionRetryState := mk_retry (rs_buf s ++ [msg]) (expectChaser s).
Definition drop_buf (s : partitionRetryState) : partitionRetryState := mk_retry [] (expectChaser s).
(** [pp.brokerProducer.input <- msg] *)
Definition send_current (msg : ProducerMessage) (pp : partitionProducer) (p : asyncProducer) : Go asyncProducer :=
  match pp_bp pp with None => Panic NilDereference | Some b => send_input b msg p end.

(** [func (pp *partitionProducer) newHighWatermark(hwm int)] *)
Definition newHighWatermark (hwm : Z) (pp : partitionProducer) (p : asyncProducer) : Go (partitionProducer * asyncProducer) :=
  let* pp := on_level hwm (expect true) (set_hwm hwm (retryState pp) pp) in
  let* p := inFlight_Add 1 p in
  let* p := send_current (control (pp_topic pp) (pp_partition pp) fin (hwm - 1)) pp p in
  match pp_leader pp, pp_bp pp with
  | Some leader, Some b => let* p := unrefBrokerProducer (Some leader) b p in Ret (set_bp (Some leader) None pp, p)
  | _, _ => Panic NilDereference
  end.
(** [func (pp *partitionProducer) flushRetryBuffers()]: [n] is [pp.highWatermark], and the client
    is asked for the leader at every level. *)
Definition flush_level (lead : Z → leader_result) (pp : partitionProducer) (p : asyncProducer) : Go (partitionProducer * asyncProducer) :=
  let* s := go_index (retryState pp) (highWatermark pp) in
  let* r := match pp_bp pp with
            | Some _ => Ret (true, pp, p)
            | None => updateLeader (lead (highWatermark pp)) pp p
            end in
  let '(ok, pp, p) := r in
  let* p := if ok : bool then go_each (fun msg => send_current msg pp) (rs_buf s) p else returnErrors (rs_buf s) LookupFailed p in
  let* pp := on_level (highWatermark pp) drop_buf pp in
  Ret (pp, p).
Fixpoint flushRetryBuffers (n : nat) (lead : Z → leader_result) (pp : partitionProducer) (p : asyncProducer) :
    Go (partitionProducer * asyncProducer) :=
  match n with
  | O => Ret (pp, p)
  | S n =>
      let* r := flush_level lead (set_hwm (Z.of_nat n) (retryState pp) pp) p in
      let* s := go_index (retryState r.1) (Z.of_nat n) in
      if expectChaser s then Ret r else flushRetryBuffers n lead r.1 r.2
  end.

(** The end of the loop body of [dispatch]: the message goes to the broker. *)
Definition forward (lead : Z → leader_result) (msg : ProducerMessage) (pp : partitionProducer) (p : asyncProducer) :
    Go (partitionProducer * asyncProducer) :=
  let* r := match pp_bp pp with
            | Some _ => Ret (true, pp, p)
            | None => updateLeader (lead (highWatermark pp)) pp p
            end in
  let '(ok, pp, p) := r in
  if ok : bool then let* p := send_current msg pp p in Ret (pp, p)
  else let* p := returnError msg LookupFailed p in Ret (pp, p).
(** [func (pp *partitionProducer) dispatch()]: the start, and the loop body for a message *)
Definition newPartitionProducer (topic : bytes) (partition : Z) (leader : option Z) (p : asyncProducer) : Go (partitionProducer * asyncProducer) :=
  let pp := mk_pp topic partition None None 0 (replicate (Z.to_nat (Max + 1)) (mk_retry [] false)) in
  match leader with
  | None => Ret (pp, p)
  | Some broker => select_leader broker pp p
  end.
Definition leave_abandoned (pp : partitionProducer) (p : asyncProducer) : Go (partitionProducer * asyncProducer) :=
  match pp_bp pp with
  | Some b =>
      if decide (b ∈ p_abandoned p)
      then let* p := unrefBrokerProducer (pp_leader pp) b p in Ret (set_bp (pp_leader pp) None pp, p)
      else Ret (pp, p)
  | None => Ret (pp, p)
  end.
Definition partition_dispatch (lead : Z → leader_result) (msg : ProducerMessage) (pp : partitionProducer) (p : asyncProducer) :
    Go (partitionProducer * asyncProducer) :=
  let* r := leave_abandoned pp p in
  let (pp, p) := r in
  if highWatermark pp <? retries msg then
    let* r := newHighWatermark (retries msg) pp p in forward lead msg r.1 r.2
  else if 0 <? highWatermark pp then
    if retries msg <? highWatermark pp then
      if has fin msg then
        let* pp := on_level (retries msg) (expect false) pp in
        let* p := inFlight_Add (-1) p in Ret (pp, p)
      else let* pp := on_level (retries msg) (push_buf msg) pp in Ret (pp, p)
    else if has fin msg then
      let* pp := on_level (highWatermark pp) (expect false) pp in
      let* r := flushRetryBuffers (Z.to_nat (highWatermark pp)) lead pp p in
      let* p := inFlight_Add (-1) r.2 in Ret (r.1, p)
    else forward lead msg pp p
  else forward lead msg pp p.

(** ** A topic *)

(** [func (tp *topicProducer) partitionMessage(msg *ProducerMessage) error]: [available] is what
    the client returns for all partitions or for the writable ones. *)
Definition partitionMessage (consistent : ProducerMessage → bool) (available : bool → list Z + producer_error)
    (partitioner : ProducerMessage → Z → Z + producer_error) (msg : ProducerMessage) : Go (ProducerMessage + producer_error) :=
  match available (consistent msg) with
  | inr e => Ret (inr e)
  | inl partitions =>
      let numPartitions := swrap 32 (len partitions) in
      if numPartitions =? 0 then Ret (inr (KError ErrLeaderNotAvailable))
      else match partitioner msg numPartitions with
      | inr e => Ret (inr e)
      | inl choice =>
          if (choice <? 0) || (numPartitions <=? choice) then Ret (inr ErrInvalidPartition)
          else let* q := go_index partitions choice in Ret (inl (set_Partition q msg))
      end
  end.

(** ** A broker *)

Definition set_buffer b bp := mk_bp (bp_broker bp) (bp_flight bp) b (bp_timer bp) (timerFired bp) (closing bp) (currentRetries bp) (bp_output bp) (bp_run bp).
Definition set_flight f bp := mk_bp (bp_broker bp) f (bp_buffer bp) (bp_timer bp) (timerFired bp) (closing bp) (currentRetries bp) (bp_output bp) (bp_run bp).
Definition set_timer t f bp := mk_bp (bp_broker bp) (bp_flight bp) (bp_buffer bp) t f (closing bp) (currentRetries bp) (bp_output bp) (bp_run bp).
Definition set_closing e bp := mk_bp (bp_broker bp) (bp_flight bp) (bp_buffer bp) (bp_timer bp) (timerFired bp) e (currentRetries bp) (bp_output bp) (bp_run bp).
Definition set_current m bp := mk_bp (bp_broker bp) (bp_flight bp) (bp_buffer bp) (bp_timer bp) (timerFired bp) (closing bp) m (bp_output bp) (bp_run bp).
Definition set_run r bp := mk_bp (bp_broker bp) (bp_flight bp) (bp_buffer bp) (bp_timer bp) (timerFired bp) (closing bp) (currentRetries bp) (bp_output bp) r.
(** The end of an iteration of [run] that was not left with [continue] *)
Definition set_output (bp : brokerProducer) : brokerProducer :=
  mk_bp (bp_broker bp) (bp_flight bp) (bp_buffer bp) (bp_timer bp) (timerFired bp) (closing bp) (currentRetries bp)
    (timerFired bp || readyToFlush conf (bp_buffer bp)) (bp_run bp).

(** [func (bp *brokerProducer) needsRetry(msg *ProducerMessage) error] *)
Definition needsRetry (bp : brokerProducer) (msg : ProducerMessage) : option producer_error :=
  match closing bp with
  | Some e => Some e
  | None => mjoin (get_block (currentRetries bp) (Topic msg) (pm_Partition msg))
  end.
(** [func (bp *brokerProducer) rollOver()] *)
Definition rollOver (bp : brokerProducer) : brokerProducer := set_buffer newProduceSet (set_timer false false bp).

(** [handleSuccess], the first loop: the topics to retry *)
Definition stamped (block : ProduceResponseBlock) (i : nat) (m : ProducerMessage) : ProducerMessage :=
  mk_pm (Topic m) (pm_Key m) (pm_Value m) (pm_Headers m) (swrap 64 (prb_Offset block + Z.of_nat i)) (pm_Partition m)
    (if timestamps conf && negb (prb_Timestamp block =? zero_time) then prb_Timestamp block else pm_Timestamp m)
    (retries m) (pm_flags m) (sequenceNumber m).
Definition settle (broker : Z) (response : option ProduceResponse) (e : bytes * Z * partitionSet) (st : list bytes * asyncProducer) :
    Go (list bytes * asyncProducer) :=
  let '(topic, partition, set) := e in
  let (retryTopics, p) := st in
  match response with
  | None => let* p := returnSuccesses (ps_msgs set) p in Ret (retryTopics, p)
  | Some response =>
      match ProduceResponse_GetBlock response topic partition with
      | None => let* p := returnErrors (ps_msgs set) ErrIncompleteResponse p in Ret (retryTopics, p)
      | Some block =>
          if prb_Err block =? ErrNoError then let* p := returnSuccesses (imap (stamped block) (ps_msgs set)) p in Ret (retryTopics, p)
          else if prb_Err block =? ErrDuplicateSequenceNumber then let* p := returnSuccesses (ps_msgs set) p in Ret (retryTopics, p)
          else if retriable (prb_Err block) then
            if Max <=? 0 then
              let* p := abandonBrokerConnection broker p in
              let* p := returnErrors (ps_msgs set) (KError (prb_Err block)) p in Ret (retryTopics, p)
            else Ret (retryTopics ++ [topic], p)
          else
            let* p := if Max <=? 0 then abandonBrokerConnection broker p else Ret p in
            let* p := returnErrors (ps_msgs set) (KError (prb_Err block)) p in Ret (retryTopics, p)
      end
  end.
(** The second loop: a partition that is to be retried, with what is buffered for it *)
Definition retry_partition (response : ProduceResponse) (e : bytes * Z * partitionSet) (st : brokerProducer * asyncProducer) :
    Go (brokerProducer * asyncProducer) :=
  let '(topic, partition, set) := e in
  let (bp, p) := st in
  match ProduceResponse_GetBlock response topic partition with
  | Some block =>
      if retriable (prb_Err block) then
        let err := KError (prb_Err block) in
        let bp := set_current (add_block topic partition (Some err) (currentRetries bp)) bp in
        let* p := if Idempotent (Producer conf)
                  then Ret (set_batches (p_batches p ++ [mk_batch_retry topic partition set (prb_Err block)]) (p_resends p) p)
                  else retryMessages (ps_msgs set) err p in
        let (dropped, buffer) := dropPartition topic partition (bp_buffer bp) in
        let* p := retryMessages dropped err p in
        Ret (set_buffer buffer bp, p)
      else Ret (bp, p)
  | None => Ret (bp, p)
  end.
(** [func (bp *brokerProducer) handleSuccess(sent *produceSet, response *ProduceResponse)] *)
Definition handleSuccess (o o' : orders) (sent : produceSet) (response : option ProduceResponse) (bp : brokerProducer) (p : asyncProducer) :
    Go (brokerProducer * asyncProducer) :=
  let* st := go_each (settle (bp_broker bp) response) (eachPartition o sent) ([], p) in
  match st.1, response with
  | _ :: _, Some response => go_each (retry_partition response) (eachPartition o' sent) (bp, st.2)
  | _, _ => Ret (bp, st.2)
  end.
(** [func (bp *brokerProducer) handleError(sent *produceSet, err error)] *)
Definition handleError (o o' : orders) (sent : produceSet) (err : broker_error) (bp : brokerProducer) (p : asyncProducer) :
    Go (brokerProducer * asyncProducer) :=
  match err with
  | EncodingFailed _ =>
      let* p := go_each (fun e => returnErrors (ps_msgs e.2) (RequestFailed err)) (eachPartition o sent) p in Ret (bp, p)
  | _ =>
      let* p := abandonBrokerConnection (bp_broker bp) p in
      let* p := go_each (fun e => retryMessages (ps_msgs e.2) (RequestFailed err)) (eachPartition o sent) p in
      let* p := go_each (fun e => retryMessages (ps_msgs e.2) (RequestFailed err)) (eachPartition o' (bp_buffer bp)) p in
      Ret (rollOver (set_closing (Some (RequestFailed err)) bp), p)
  end.
(** [func (bp *brokerProducer) handleResponse(response *brokerProducerResponse)] *)
Definition handleResponse (o o' : orders) (sent : produceSet) (r : option ProduceResponse + broker_error) (bp : brokerProducer) (p : asyncProducer) :
    Go (brokerProducer * asyncProducer) :=
  let* st := match r with
             | inr err => handleError o o' sent err bp p
             | inl response => handleSuccess o o' sent response bp p
             end in
  Ret (if empty (bp_buffer st.1) then rollOver st.1 else st.1, st.2).

(** [run]: the message goes into the buffer *)
Definition buffer_message (now : Z) (msg : ProducerMessage) (bp : brokerProducer) (p : asyncProducer) : Go (brokerProducer * asyncProducer) :=
  let* r := add conf producerID producerEpoch now msg (bp_buffer bp) in
  let bp := set_buffer r.2 (set_run Running bp) in
  match r.1 with
  | Some e => let* p := returnError msg (AddFailed e) p in Ret (bp, p)
  | None => Ret (set_output (set_timer (bp_timer bp || (0 <? Flush_Frequency (Producer conf))) (timerFired bp) bp), p)
  end.
(** [case msg := <-bp.input] *)
Definition bp_message (now : Z) (msg : ProducerMessage) (bp : brokerProducer) (p : asyncProducer) : Go (brokerProducer * asyncProducer) :=
  if has syn msg then
    let* p := inFlight_Add (-1) p in
    Ret (set_current (add_block (Topic msg) (pm_Partition msg) None (currentRetries bp)) bp, p)
  else match needsRetry bp msg with
  | Some reason =>
      let* p := retryMessage msg reason p in
      Ret (match closing bp with
           | None => if has fin msg
                     then set_current (alter (delete (pm_Partition msg)) (Topic msg) (currentRetries bp)) bp else bp
           | Some _ => bp
           end, p)
  | None =>
      if wouldOverflow conf msg (bp_buffer bp) then Ret (set_run (Waiting msg) bp, p)
      else buffer_message now msg bp p
  end.
(** [case output <- bp.buffer], [case bp.output <- bp.buffer] *)
Definition bp_flush (now : Z) (bp : brokerProducer) (p : asyncProducer) : Go (brokerProducer * asyncProducer) :=
  let bp := rollOver (set_flight (Some (bp_buffer bp)) bp) in
  match bp_run bp with
  | Running => Ret (set_output bp, p)
  | Waiting msg => buffer_message now msg bp p
  | Draining => Ret (bp, p)
  end.
(** [case response := <-bp.responses] *)
Definition bp_response (now : Z) (o o' : orders) (sent : produceSet) (r : option ProduceResponse + broker_error) (bp : brokerProducer) (p : asyncProducer) :
    Go (brokerProducer * asyncProducer) :=
  let* st := handleResponse o o' sent r (set_flight None bp) p in
  let (bp, p) := st in
  match bp_run bp with
  | Running => Ret (set_output bp, p)
  | Draining => Ret (bp, p)
  | Waiting msg =>
      match needsRetry bp msg with
      | Some reason => let* p := retryMessage msg reason p in Ret (set_run Running bp, p)
      | None => if wouldOverflow conf msg (bp_buffer bp) then Ret (bp, p) else buffer_message now msg bp p
      end
  end.

(** [func (p *asyncProducer) retryBatch(...)]: the loop over the messages, which are those of the
    set, then the leader *)
Fixpoint count_retries (msgs done : list ProducerMessage) : list ProducerMessage + ProducerMessage :=
  match msgs with
  | [] => inl done
  | msg :: msgs => if Max <=? retries msg then inr msg else count_retries msgs (done ++ [set_retries (retries msg + 1) msg])
  end.
Definition retryBatch (lead : leader_result) (b : batch_retry) (p : asyncProducer) : Go asyncProducer :=
  let kerr := KError (br_err b) in
  match count_retries (ps_msgs (br_set b)) [] with
  | inr msg => returnError msg kerr p
  | inl msgs =>
      match lead with
      | LeaderIs broker =>
          let set := mk_pset msgs (recordsToSend (br_set b)) (ps_bufferBytes (br_set b)) in
          let (n, p) := getBrokerProducer broker p in
          Ret (set_batches (p_batches p)
                 (p_resends p ++ [(n, mk_produceSet {[br_topic b := {[br_partition b := set]}]} (ps_bufferBytes set) (len msgs))]) p)
      | _ => returnErrors msgs kerr p
      end
  end.

(** ** The goroutines together *)

(** The producer with the messages on [p.input], whether the dispatcher is shutting down, the
    messages on the channels of the topic producers and of the partition producers, whether
    [shutdown] waits and whether it has closed the channels, the messages the dispatcher has
    accepted, and those a topic producer has given to a partition, in this order *)
Record system := mk_system {
  s_p : asyncProducer; s_input : list ProducerMessage; shuttingDown : bool; s_topics : gmap bytes (list ProducerMessage);
  s_parts : gmap (bytes * Z) (partitionProducer * list ProducerMessage); s_shutdown : bool; s_closed : bool;
  s_accepted : list ProducerMessage; s_submitted : list ProducerMessage }.
Definition set_p p s := mk_system p (s_input s) (shuttingDown s) (s_topics s) (s_parts s) (s_shutdown s) (s_closed s) (s_accepted s) (s_submitted s).
Definition set_input q s := mk_system (s_p s) q (shuttingDown s) (s_topics s) (s_parts s) (s_shutdown s) (s_closed s) (s_accepted s) (s_submitted s).
Definition set_topics m s := mk_system (s_p s) (s_input s) (shuttingDown s) m (s_parts s) (s_shutdown s) (s_closed s) (s_accepted s) (s_submitted s).
Definition set_parts m s := mk_system (s_p s) (s_input s) (shuttingDown s) (s_topics s) m (s_shutdown s) (s_closed s) (s_accepted s) (s_submitted s).
Definition accept m s := mk_system (s_p s) (s_input s) (shuttingDown s) (s_topics s) (s_parts s) (s_shutdown s) (s_closed s) (s_accepted s ++ [m]) (s_submitted s).
Definition submit m s := mk_system (s_p s) (s_input s) (shuttingDown s) (s_topics s) (s_parts s) (s_shutdown s) (s_closed s) (s_accepted s) (s_submitted s ++ [m]).

(** [func newAsyncProducer(client Client) (AsyncProducer, error)] *)
Definition newAsyncProducer : system :=
  mk_system (mk_producer_state ∅ ∅ ∅ ∅ ∅ 0 [] [] [] [] [] ∅) [] false ∅ ∅ false false [] [].

(** [func (p *asyncProducer) dispatcher()], the loop body: what follows the accounting *)
Definition route (msg : ProducerMessage) (s : system) : Go system :=
  let batches := batches conf in
  if negb batches && match pm_Headers msg with Some _ => true | None => false end then
    let* p := returnError msg HeadersUnsupported (s_p s) in Ret (set_p p s)
  else if MaxMessageBytes (Producer conf) <? byteSize (if batches then 2 else 1) msg then
    let* p := returnError msg (KError ErrMessageSizeTooLarge) (s_p s) in Ret (set_p p s)
  else Ret (set_topics (<[Topic msg := default [] (s_topics s !! Topic msg) ++ [msg]]> (s_topics s)) s).
Definition dispatcher (msg : ProducerMessage) (s : system) : Go system :=
  let p := s_p s in
  if negb (Z.land (pm_flags msg) shutdown =? 0) then
    let* p := inFlight_Add (-1) p in
    Ret (mk_system p (s_input s) true (s_topics s) (s_parts s) (s_shutdown s) (s_closed s) (s_accepted s) (s_submitted s))
  else if retries msg =? 0 then
    if shuttingDown s then Ret (set_p (set_errors (p_errors p ++ [(msg, ErrShuttingDown)]) p) s)
    else let* p := inFlight_Add 1 p in route msg (accept msg (set_p p s))
  else route msg s.

(** What a topic producer meets: the partitioner with its needs, the partitions the client
    returns, and the leader the client knows for a new partition producer *)
Record topic_env := mk_topic_env {
  te_consistent : ProducerMessage → bool; te_available : bool → list Z + producer_error;
  te_partitioner : ProducerMessage → Z → Z + producer_error; te_leader : option Z }.
(** [func (tp *topicProducer) dispatch()], the loop body *)
Definition hand_over (leader : option Z) (msg : ProducerMessage) (s : system) : Go system :=
  let k := (Topic msg, pm_Partition msg) in
  match s_parts s !! k with
  | Some (pp, q) => Ret (set_parts (<[k := (pp, q ++ [msg])]> (s_parts s)) s)
  | None =>
      let* r := newPartitionProducer (Topic msg) (pm_Partition msg) leader (s_p s) in
      Ret (set_parts (<[k := (r.1, [msg])]> (s_parts s)) (set_p r.2 s))
  end.
Definition topic_dispatch (env : topic_env) (msg : ProducerMessage) (s : system) : Go system :=
  if retries msg =? 0 then
    let* r := partitionMessage (te_consistent env) (te_available env) (te_partitioner env) msg in
    match r with
    | inr e => let* p := returnError msg e (s_p s) in Ret (set_p p s)
    | inl msg =>
        let (msg, p) := if Idempotent (Producer conf)
                        then let (n, p) := getAndIncrementSequenceNumber (Topic msg) (pm_Partition msg) (s_p s) in (set_sequence n msg, p)
                        else (msg, s_p s) in
        hand_over (te_leader env) msg (submit msg (set_p p s))
    end
  else hand_over (te_leader env) msg s.

(** What happens next, with what the environment decides *)
Inductive event :=
| Input (msg : ProducerMessage) | AsyncClose | Closed
| RetryHandler | Dispatch | DispatchTopic (topic : bytes) (env : topic_env)
| DispatchPartition (topic : bytes) (partition : Z) (lead : Z → leader_result)
| BrokerMessage (b : nat) (now : Z) | BrokerTimer (b : nat) | BrokerFlush (b : nat) (now : Z)
| BrokerResponse (b : nat) (now : Z) (o o' : orders) (r : option ProduceResponse + broker_error) | BrokerInputClosed (b : nat)
| RetryBatch (lead : leader_result) | ResendBatch.
Definition store_bp (b : nat) (r : brokerProducer * asyncProducer) (s : system) : system :=
  set_p (set_bps (<[b := r.1]> (p_bps r.2)) r.2) s.
(** Whether the buffer may go to the bridge *)
Definition may_flush (bp : brokerProducer) : bool :=
  match bp_flight bp with
  | Some _ => false
  | None => match bp_run bp with Running => bp_output bp | Waiting _ => true | Draining => negb (empty (bp_buffer bp)) end
  end.
(** The state after an event, if it can happen *)
Definition exec (e : event) (s : system) : Go (option system) :=
  let p := s_p s in
  match e with
  | Input msg =>
      if s_closed s then Ret None else Ret (Some (set_input (s_input s ++ [msg]) s))
  | AsyncClose =>
      if s_shutdown s then Ret None
      else
        let* p := inFlight_Add 1 p in
        Ret (Some (mk_system p (s_input s ++ [control [] 0 shutdown 0]) (shuttingDown s) (s_topics s) (s_parts s) true (s_closed s) (s_accepted s) (s_submitted s)))
  | Closed =>
      if s_shutdown s && (p_inFlight p =? 0)
      then Ret (Some (mk_system p (s_input s) (shuttingDown s) (s_topics s) (s_parts s) (s_shutdown s) true (s_accepted s) (s_submitted s)))
      else Ret None
  | RetryHandler =>
      match p_retries p with
      | [] => Ret None
      | msg :: q => if s_closed s then Panic ExplicitPanic else Ret (Some (set_input (s_input s ++ [msg]) (set_p (set_retryq q p) s)))
      end
  | Dispatch =>
      match s_input s with
      | [] => Ret None
      | msg :: q => let* s := dispatcher msg (set_input q s) in Ret (Some s)
      end
  | DispatchTopic t env =>
      match s_topics s !! t with
      | Some (msg :: q) => let* s := topic_dispatch env msg (set_topics (<[t := q]> (s_topics s)) s) in Ret (Some s)
      | _ => Ret None
      end
  | DispatchPartition t n lead =>
      match s_parts s !! (t, n) with
      | Some (pp, msg :: q) =>
          let* r := partition_dispatch lead msg pp p in
          Ret (Some (set_parts (<[(t, n) := (r.1, q)]> (s_parts s)) (set_p r.2 s)))
      | _ => Ret None
      end
  | BrokerMessage b now =>
      match p_bps p !! b, p_inputs p !! b with
      | Some bp, Some (msg :: q, closed) =>
          match bp_run bp with
          | Running => let* r := bp_message now msg bp (set_inputs (<[b := (q, closed)]> (p_inputs p)) p) in Ret (Some (store_bp b r s))
          | _ => Ret None
          end
      | _, _ => Ret None
      end
  | BrokerTimer b =>
      match p_bps p !! b with
      | Some bp =>
          match bp_run bp with
          | Running => if bp_timer bp then Ret (Some (store_bp b (set_output (set_timer true true bp), p) s)) else Ret None
          | _ => Ret None
          end
      | None => Ret None
      end
  | BrokerFlush b now =>
      match p_bps p !! b with
      | Some bp => if may_flush bp then let* r := bp_flush now bp p in Ret (Some (store_bp b r s)) else Ret None
      | None => Ret None
      end
  | BrokerResponse b now o o' r =>
      match p_bps p !! b with
      | Some bp =>
          match bp_flight bp with
          | Some sent => let* r := bp_response now o o' sent r bp p in Ret (Some (store_bp b r s))
          | None => Ret None
          end
      | None => Ret None
      end
  | BrokerInputClosed b =>
      match p_bps p !! b, p_inputs p !! b with
      | Some bp, Some ([], true) =>
          match bp_run bp with Running => Ret (Some (store_bp b (set_run Draining bp, p) s)) | _ => Ret None end
      | _, _ => Ret None
      end
  | RetryBatch lead =>
      match p_batches p with
      | [] => Ret None
      | b :: l => let* p := retryBatch lead b (set_batches l (p_resends p) p) in Ret (Some (set_p p s))
      end
  | ResendBatch =>
      match p_resends p with
      | [] => Ret None
      | (b, set) :: l =>
          match p_bps p !! b with
          | Some bp =>
              match bp_flight bp with
              | None => Ret (Some (store_bp b (set_flight (Some set) bp, set_batches (p_batches p) l p) s))
              | Some _ => Ret None
              end
          | None => Panic NilDereference
          end
      end
  end.
End producer.
