(* ===== verification/KafkaRetryOrder.v ===== *)
(** * The order of a partition's messages through retries

    What one partition sees of the producer: its [partitionProducer], the messages on their way
    back to it, and what each broker producer holds for it.  The rules are the single moves of
    these messages, whatever happens to other partitions; the invariant is that the messages
    still on their way can be listed, level by level, in the order in which they were
    submitted. *)

From stdpp Require Import functions.
From S2P Require Import Prelude GoStrings KafkaRecord KafkaPartitioner KafkaProducer.

(** What identifies a message whatever the producer does to it *)
Definition ident (m : ProducerMessage) : ProducerMessage :=
  mk_pm (Topic m) (pm_Key m) (pm_Value m) (pm_Headers m) 0 (pm_Partition m) 0 0 0 0.
Definition retried (m : ProducerMessage) : ProducerMessage := set_retries (retries m + 1) m.
Abbreviation is_data m := (pm_flags m = 0).
Abbreviation is_fin m := (pm_flags m = fin).

(** The partition: level and buffers of its partition producer, the levels whose last message is
    still expected, the broker producer in use; its queue, the messages behind it; for each
    broker producer what it has taken, what it has not yet, whether it sends everything back;
    the acknowledged and the submitted messages *)
Record view := mk_view {
  v_h : Z; v_buf : Z → list ProducerMessage; v_pend : Z → bool; v_cur : option nat;
  v_q : list ProducerMessage; v_back : list ProducerMessage;
  v_acc : nat → list ProducerMessage; v_rest : nat → list ProducerMessage; v_bad : nat → bool;
  v_acked : list ProducerMessage; v_sub : list ProducerMessage }.
Definition up (v : view) : list ProducerMessage := v_q v ++ v_back v.

Section order.
Context (Max : Z) (t : bytes) (n : Z).

Inductive move : view → view → Prop :=
| move_new h buf pend cur q back acc rest bad acked sub m : is_data m → retries m = 0 →
    move (mk_view h buf pend cur q back acc rest bad acked sub)
         (mk_view h buf pend cur (q ++ [m]) back acc rest bad acked (sub ++ [ident m]))
| move_up h buf pend cur q back acc rest bad acked sub m :
    move (mk_view h buf pend cur q (m :: back) acc rest bad acked sub)
         (mk_view h buf pend cur (q ++ [m]) back acc rest bad acked sub)
| move_lose h buf pend cur q l m l' acc rest bad acked sub :
    move (mk_view h buf pend cur q (l ++ m :: l') acc rest bad acked sub)
         (mk_view h buf pend cur q (l ++ l') acc rest bad acked sub)
| move_raise h buf pend b q back acc rest bad acked sub m : h < retries m →
    move (mk_view h buf pend (Some b) (m :: q) back acc rest bad acked sub)
         (mk_view (retries m) buf (<[retries m := true]> pend) None (m :: q) back acc
            (<[b := rest b ++ [control t n fin (retries m - 1)]]> rest) bad acked sub)
| move_lead h buf pend b q back acc rest bad acked sub :
    move (mk_view h buf pend None q back acc rest bad acked sub)
         (mk_view h buf pend (Some b) q back acc (<[b := rest b ++ [control t n syn 0]]> rest) bad acked sub)
| move_send h buf pend b q back acc rest bad acked sub m : is_data m → retries m = h → buf h = [] →
    move (mk_view h buf pend (Some b) (m :: q) back acc rest bad acked sub)
         (mk_view h buf pend (Some b) q back acc (<[b := rest b ++ [m]]> rest) bad acked sub)
| move_discard h buf pend cur q back acc rest bad acked sub m :
    move (mk_view h buf pend cur (m :: q) back acc rest bad acked sub)
         (mk_view h buf pend cur q back acc rest bad acked sub)
| move_buffer h buf pend cur q back acc rest bad acked sub m : is_data m → retries m < h →
    move (mk_view h buf pend cur (m :: q) back acc rest bad acked sub)
         (mk_view h (<[retries m := buf (retries m) ++ [m]]> buf) pend cur q back acc rest bad acked sub)
| move_fin h buf pend cur q back acc rest bad acked sub m : is_fin m → retries m ≤ h →
    move (mk_view h buf pend cur (m :: q) back acc rest bad acked sub)
         (mk_view h buf (<[retries m := false]> pend) cur q back acc rest bad acked sub)
| move_lower h buf pend cur q back acc rest bad acked sub : 0 < h → pend h = false → buf h = [] →
    move (mk_view h buf pend cur q back acc rest bad acked sub)
         (mk_view (h - 1) buf pend cur q back acc rest bad acked sub)
| move_flush h buf pend b q back acc rest bad acked sub m l : buf h = m :: l →
    move (mk_view h buf pend (Some b) q back acc rest bad acked sub)
         (mk_view h (<[h := l]> buf) pend (Some b) q back acc (<[b := rest b ++ [m]]> rest) bad acked sub)
| move_unbuffer h buf pend cur q back acc rest bad acked sub m l : buf h = m :: l →
    move (mk_view h buf pend cur q back acc rest bad acked sub)
         (mk_view h (<[h := l]> buf) pend cur q back acc rest bad acked sub)
| move_accept h buf pend cur q back acc rest bad acked sub b m l : bad b = false → rest b = m :: l → is_data m →
    move (mk_view h buf pend cur q back acc rest bad acked sub)
         (mk_view h buf pend cur q back (<[b := acc b ++ [m]]> acc) (<[b := l]> rest) bad acked sub)
| move_reject h buf pend cur q back acc rest bad acked sub b m l : rest b = m :: l → pm_flags m ≠ syn →
    move (mk_view h buf pend cur q back acc rest bad acked sub)
         (mk_view h buf pend cur q back acc (<[b := l]> rest) bad acked sub)
| move_bounce h buf pend cur q back acc rest bad acked sub b m l : bad b = true → rest b = m :: l → is_data m → retries m < Max →
    move (mk_view h buf pend cur q back acc rest bad acked sub)
         (mk_view h buf pend cur q (back ++ [retried m]) acc (<[b := l]> rest) bad acked sub)
| move_bounce_fin h buf pend cur q back acc rest bad acked sub b m l c : bad b = true → rest b = m :: l → is_fin m →
    move (mk_view h buf pend cur q back acc rest bad acked sub)
         (mk_view h buf pend cur q (back ++ [retried m]) acc (<[b := l]> rest) (<[b := c]> bad) acked sub)
| move_syn h buf pend cur q back acc rest bad acked sub b m l c : rest b = m :: l → pm_flags m = syn →
    move (mk_view h buf pend cur q back acc rest bad acked sub)
         (mk_view h buf pend cur q back acc (<[b := l]> rest) (<[b := c]> bad) acked sub)
| move_ack h buf pend cur q back acc rest bad acked sub b l l' : acc b = l ++ l' →
    move (mk_view h buf pend cur q back acc rest bad acked sub)
         (mk_view h buf pend cur q back (<[b := l']> acc) rest bad (acked ++ (ident <$> l)) sub)
| move_fail h buf pend cur q back acc rest bad acked sub b l l' : acc b = l ++ l' →
    move (mk_view h buf pend cur q back acc rest bad acked sub)
         (mk_view h buf pend cur q back (<[b := l']> acc) rest bad acked sub)
| move_break h buf pend cur q back acc rest bad acked sub b :
    move (mk_view h buf pend cur q back acc rest bad acked sub)
         (mk_view h buf pend cur q back (<[b := []]> acc) (<[b := acc b ++ rest b]> rest) (<[b := true]> bad) acked sub).

(** ** The invariant *)

(** The messages of a level, those a broker would send back to it, the levels of the last
    messages *)
Definition at_level (e : Z) : list ProducerMessage → list ProducerMessage := filter (fun m => is_data m ∧ retries m = e).
Definition back_to (e : Z) : list ProducerMessage → list ProducerMessage := filter (fun m => retries m + 1 = e).
Definition fins (l : list ProducerMessage) : list Z := retries <$> filter (fun m => is_fin m) l.
(** The messages that have come back from the broker producer in use *)
Definition high (v : view) : list ProducerMessage := filter (fun m => is_data m ∧ v_h v < retries m) (up v).
(** The levels that end with the last message of level [l] *)
Definition source (v : view) (l e : Z) : Prop := 1 ≤ e ≤ l ∧ ∀ l', v_pend v l' = true → l' < l → l' < e.

#[local] Instance source_dec v l e : Decision (source v l e).
Proof.
  refine (cast_if (decide (1 ≤ e ≤ l ∧ Forall (fun l' => v_pend v l' = false) (seqZ e (l - e))))); unfold source; rewrite Forall_forall in *.
  - destruct a as [? Hf]. split; [done|]. intros l' Hp Hl. destruct (decide (l' < e)); [done|]. rewrite Hf in Hp; [done|]. apply elem_of_seqZ. lia.
  - intros [? Hs]. apply n0. split; [done|]. intros l' Hl%elem_of_seqZ. destruct (v_pend v l') eqn:E; [|done]. specialize (Hs l' E). lia.
Defined.

(** What is on its way, level by level from [k] down *)
Definition level (v : view) (held : Z → list ProducerMessage) (e : Z) : list ProducerMessage :=
  ident <$> (v_buf v e ++ at_level e (up v) ++ held e).
Fixpoint levels (k : nat) (v : view) (held : Z → list ProducerMessage) : list ProducerMessage :=
  level v held (Z.of_nat k) ++ match k with O => [] | S k => levels k v held end.

(** [op]: the broker producers that were left, with the level of the last message sent to them
    and the messages in front of it; [cs] and [sy]: the messages in the broker producer in use,
    and whether its opening message is in front of them; [held]: the messages in broker
    producers by the level they would come back to *)
Definition left_part (op : option (Z * list ProducerMessage)) : list ProducerMessage :=
  match op with Some (l, ms) => ms ++ [control t n fin (l - 1)] | None => [] end.
Definition cur_part (v : view) (cs : list ProducerMessage) (sy : bool) (b : nat) : list ProducerMessage :=
  if decide (v_cur v = Some b) then (if sy then [control t n syn 0] else []) ++ cs else [].

Record inv (v : view) (op : nat → option (Z * list ProducerMessage)) (cs : list ProducerMessage) (sy : bool)
    (held : Z → list ProducerMessage) : Prop := mk_inv {
  i_h : 0 ≤ v_h v ≤ Max;
  i_pend l : v_pend v l = true → 1 ≤ l ≤ v_h v;
  i_buf e : Forall (fun m => is_data m ∧ retries m = e) (v_buf v e);
  i_buf_top e : v_h v < e → v_buf v e = [];
  i_up : Forall (fun m => is_data m ∧ 0 ≤ retries m ≤ Max ∨ is_fin m ∧ v_pend v (retries m) = true) (up v);
  i_back : Forall (fun m => 0 < retries m) (v_back v);
  i_fins : NoDup (fins (up v));
  i_after f m : [f; m] `sublist_of` up v → is_fin f → is_data m → ¬ source v (retries f) (retries m);
  i_orphan e : 1 ≤ e ≤ v_h v → (∀ l, v_pend v l = true → l < e) → at_level e (up v) = [];
  i_op b l ms : op b = Some (l, ms) → v_pend v l = true ∧ (l ∉ fins (up v)) ∧ v_bad v b = true ∧ (v_cur v = Some b → sy = true) ∧
    Forall (fun m => is_data m ∧ source v l (retries m + 1)) ms;
  i_op_inj b b' l ms ms' : op b = Some (l, ms) → op b' = Some (l, ms') → b = b';
  i_cs : Forall (fun m => is_data m ∧ v_h v ≤ retries m ≤ Max) cs;
  i_none : v_cur v = None → cs = [];
  i_high : StronglySorted Z.ge ((retries <$> high v) ++ ((fun m => retries m + 1) <$> cs));
  i_high_cur : high v ≠ [] → ∃ b, v_cur v = Some b ∧ sy = false ∧ v_bad v b = true;
  i_content b : v_acc v b ++ v_rest v b = left_part (op b) ++ cur_part v cs sy b;
  i_acc b : Forall (fun m => is_data m) (v_acc v b);
  i_bad b : v_bad v b = true → v_acc v b = [];
  i_held_cur e : v_h v < e → held e = back_to e cs;
  i_held_op b l ms e : op b = Some (l, ms) → source v l e → held e = back_to e ms;
  i_held_none e : e ≤ v_h v → (∀ b l ms, op b = Some (l, ms) → ¬ source v l e) → held e = [] }.
Definition in_order (v : view) (held : Z → list ProducerMessage) : Prop :=
  v_acked v ++ levels (Z.to_nat (Max + 1)) v held `sublist_of` v_sub v.
Definition ordered (v : view) : Prop := ∃ op cs sy held, inv v op cs sy held ∧ in_order v held.

(** ** Lists by levels *)

Lemma levels_ext k v v' held held' : (∀ e, 0 ≤ e ≤ Z.of_nat k → level v held e = level v' held' e) → levels k v held = levels k v' held'.
Proof.
  induction k as [|k IH]; intros H; cbn [levels]; rewrite (H _) by lia; [done|]. f_equal. apply IH. intros e ?. apply H. lia.
Qed.
Lemma levels_sub k v v' held held' : (∀ e, 0 ≤ e ≤ Z.of_nat k → level v' held' e `sublist_of` level v held e) →
  levels k v' held' `sublist_of` levels k v held.
Proof.
  induction k as [|k IH]; intros H; cbn [levels]; (apply sublist_app; [apply H; lia|]); [done|]. apply IH. intros e ?. apply H. lia.
Qed.
(** A message goes from the front of a level to the end of the next one. *)
Lemma levels_shift k j v v' held held' : 0 ≤ j < Z.of_nat k →
  (∀ e, 0 ≤ e ≤ Z.of_nat k → e ≠ j → e ≠ j + 1 → level v held e = level v' held' e) →
  level v held (j + 1) ++ level v held j = level v' held' (j + 1) ++ level v' held' j → levels k v held = levels k v' held'.
Proof.
  induction k as [|k IH]; intros Hj H E; [lia|]. cbn [levels]. destruct (decide (j = Z.of_nat k)) as [->|Hn].
  - replace (Z.of_nat k + 1) with (Z.of_nat (S k)) in * by lia. destruct k as [|k]; cbn [levels]; [by rewrite !app_nil_r|].
    rewrite !(app_assoc (level _ _ (Z.of_nat (S (S k))))), E. f_equal. apply levels_ext. intros e ?. apply H; lia.
  - rewrite (H (Z.of_nat (S k))) by lia. f_equal. apply IH; [lia| |done]. intros e ???. apply H; lia.
Qed.
(** New messages at the end of the last level *)
Lemma levels_snoc k v v' held x : (∀ e, 1 ≤ e ≤ Z.of_nat k → level v' held e = level v held e) →
  level v' held 0 = level v held 0 ++ x → levels k v' held = levels k v held ++ x.
Proof.
  induction k as [|k IH]; intros H H0; cbn [levels]; [by rewrite !app_nil_r|].
  rewrite H, IH by (done || lia || (intros; apply H; lia)). by rewrite app_assoc.
Qed.

Lemma filter_mono {A} (P : A → Prop) `{!∀ x, Decision (P x)} l k : l `sublist_of` k → filter P l `sublist_of` filter P k.
Proof.
  induction 1 as [|x l k _ IH|x l k _ IH]; [done| |]; rewrite !filter_cons; destruct (decide (P x)); auto using sublist_skip, sublist_cons.
Qed.
Lemma filter_none {A} (P : A → Prop) `{!∀ x, Decision (P x)} l : Forall (fun x => ¬ P x) l → filter P l = [].
Proof. induction 1; [done|]. by rewrite filter_cons_False. Qed.
Lemma filter_all {A} (P : A → Prop) `{!∀ x, Decision (P x)} l : Forall P l → filter P l = l.
Proof. induction 1 as [|x l Hx _ IH]; [done|]. by rewrite filter_cons_True, IH. Qed.
Lemma filter_same {A} (P Q : A → Prop) `{!∀ x, Decision (P x), !∀ x, Decision (Q x)} l : Forall (fun x => P x ↔ Q x) l → filter P l = filter Q l.
Proof. induction 1 as [|x l Hx _ IH]; [done|]. rewrite !filter_cons, IH. by rewrite (decide_ext (P x) (Q x)). Qed.
Lemma fmap_mono {A C} (f : A → C) l k : l `sublist_of` k → f <$> l `sublist_of` f <$> k.
Proof. induction 1; cbn; by constructor. Qed.
Lemma Forall_mono {A} (P : A → Prop) l k : l `sublist_of` k → Forall P k → Forall P l.
Proof. intros H. rewrite !Forall_forall. intros Hk x Hx. eapply Hk, elem_of_sublist; eauto. Qed.
Lemma sorted_mono (l k : list Z) : l `sublist_of` k → StronglySorted Z.ge k → StronglySorted Z.ge l.
Proof.
  induction 1 as [|x l k Hs IH|x l k Hs IH]; [done| |]; rewrite ?StronglySorted_cons; [|naive_solver].
  intros [Hf Hk]. split; [by eapply Forall_mono|auto].
Qed.
Lemma sorted_insert (l k : list Z) x : StronglySorted Z.ge (l ++ k) → Forall (fun y => x ≤ y) l → Forall (fun y => y ≤ x) k →
  StronglySorted Z.ge (l ++ x :: k).
Proof.
  rewrite !StronglySorted_app, StronglySorted_cons, !Forall_forall. intros (H1 & H2 & H3) Hl Hk. split_and!; [|done| |done].
  - intros y z Hy [->|Hz]%elem_of_cons; [specialize (Hl y Hy); lia|auto].
  - intros y Hy. specialize (Hk y Hy). lia.
Qed.
Lemma nil_mono {A} (l k : list A) : l `sublist_of` k → k = [] → l = [].
Proof. intros H ->. by apply sublist_nil_r. Qed.

Lemma levels_S k v held : levels (S k) v held = level v held (Z.of_nat (S k)) ++ levels k v held.
Proof. done. Qed.
#[local] Arguments levels : simpl never.
Ltac look := repeat match goal with
  | H : context [(<[?a := ?x]> ?f) ?a] |- _ => rewrite (fn_lookup_insert f a x) in H
  | |- context [(<[?a := ?x]> ?f) ?a] => rewrite (fn_lookup_insert f a x)
  | Hn : ?a ≠ ?b, H : context [(<[?a := ?x]> ?f) ?b] |- _ => rewrite (fn_lookup_insert_ne f a b x Hn) in H
  | Hn : ?a ≠ ?b |- context [(<[?a := ?x]> ?f) ?b] => rewrite (fn_lookup_insert_ne f a b x Hn)
  end.
Ltac open_inv H := destruct H as [Ih Ipend Ibuf Ibuf_top Iup Iback Ifins Iafter Iorphan Iop Iop_inj Ics Inone Ihigh Ihigh_cur Icontent Iacc Ibad Iheld_cur Iheld_op Iheld_none].
Ltac plain_view := unfold level, source, high, cur_part, up in *; cbn [v_h v_buf v_pend v_cur v_q v_back v_acc v_rest v_bad v_acked v_sub] in *.

(** What an invariant says of a sublist of the messages on their way back *)
Lemma inv_shorter h buf pend cur q back q' back' acc rest bad acked sub op cs sy held :
  q' ++ back' `sublist_of` q ++ back → Forall (fun m => 0 < retries m) back' →
  inv (mk_view h buf pend cur q back acc rest bad acked sub) op cs sy held →
  inv (mk_view h buf pend cur q' back' acc rest bad acked sub) op cs sy held.
Proof.
  intros Hs Hb H. open_inv H.
  assert (∀ P `{!∀ x, Decision (P x)}, filter P (q' ++ back') `sublist_of` filter P (q ++ back)) as Hf by (intros; by apply filter_mono).
  assert (∀ l, l ∉ fins (q ++ back) → l ∉ fins (q' ++ back')) as Hn.
  { intros l Hl Hl'. apply Hl. eapply elem_of_sublist; [exact Hl'|]. by apply fmap_mono. }
  constructor; plain_view; try done.
  - by eapply Forall_mono.
  - eapply sublist_NoDup; [exact Ifins|]. by apply fmap_mono.
  - intros f m Hfm. apply Iafter. by transitivity (q' ++ back').
  - intros e He Ho. eapply nil_mono; [apply Hf|by apply Iorphan].
  - intros b l ms E. destruct (Iop b l ms E) as (? & ? & ? & ? & ?). split_and!; auto.
  - eapply sorted_mono; [|exact Ihigh]. apply sublist_app; [|done]. by apply fmap_mono, Hf.
  - intros Hh. apply Ihigh_cur. intros E. apply Hh. eapply nil_mono; [apply Hf|exact E].
Qed.
Lemma order_shorter v v' held held' : v_acked v' = v_acked v → v_sub v' = v_sub v →
  (∀ e, v_buf v' e `sublist_of` v_buf v e) → up v' `sublist_of` up v → (∀ e, 0 ≤ e → held' e `sublist_of` held e) →
  in_order v held → in_order v' held'.
Proof.
  intros Ha Hs Hb Hu Hh H. unfold in_order in *. rewrite Ha, Hs. etrans; [|exact H]. apply sublist_app; [done|]. apply levels_sub. intros e He.
  apply fmap_mono. repeat apply sublist_app; [done|by apply filter_mono|apply Hh; lia].
Qed.

Lemma ordered_lose h buf pend cur q l m l' acc rest bad acked sub :
  ordered (mk_view h buf pend cur q (l ++ m :: l') acc rest bad acked sub) → ordered (mk_view h buf pend cur q (l ++ l') acc rest bad acked sub).
Proof.
  intros (op & cs & sy & held & H & Ho). exists op, cs, sy, held. pose proof (i_back _ _ _ _ _ H) as Hb. cbn in Hb.
  assert (q ++ l ++ l' `sublist_of` q ++ l ++ m :: l') by (repeat apply sublist_app; auto using sublist_cons). split.
  - eapply inv_shorter; [done| |exact H]. rewrite Forall_app, Forall_cons in *. naive_solver.
  - eapply order_shorter; [..|exact Ho]; done.
Qed.
Lemma ordered_discard h buf pend cur q back acc rest bad acked sub m :
  ordered (mk_view h buf pend cur (m :: q) back acc rest bad acked sub) → ordered (mk_view h buf pend cur q back acc rest bad acked sub).
Proof.
  intros (op & cs & sy & held & H & Ho). exists op, cs, sy, held.
  assert (q ++ back `sublist_of` (m :: q) ++ back) by (by apply sublist_cons). split.
  - eapply inv_shorter; [done|apply (i_back _ _ _ _ _ H)|exact H].
  - eapply order_shorter; [..|exact Ho]; done.
Qed.
Lemma ordered_up h buf pend cur q back acc rest bad acked sub m :
  ordered (mk_view h buf pend cur q (m :: back) acc rest bad acked sub) → ordered (mk_view h buf pend cur (q ++ [m]) back acc rest bad acked sub).
Proof.
  intros (op & cs & sy & held & H & Ho). exists op, cs, sy, held.
  assert ((q ++ [m]) ++ back `sublist_of` q ++ m :: back) by (by rewrite <- app_assoc). split.
  - eapply inv_shorter; [done| |exact H]. pose proof (i_back _ _ _ _ _ H) as Hb. cbn in Hb. rewrite Forall_cons in Hb. apply Hb.
  - eapply order_shorter; [..|exact Ho]; done.
Qed.

(** ** A new message *)

Lemma filter_mid {A} (P : A → Prop) `{!∀ x, Decision (P x)} l m k : ¬ P m → filter P (l ++ m :: k) = filter P (l ++ k).
Proof. intros Hm. by rewrite !filter_app, filter_cons_False. Qed.
Lemma pair_mid {A} (f x m : A) l k : [f; x] `sublist_of` l ++ m :: k → f = m ∨ x = m ∨ [f; x] `sublist_of` l ++ k.
Proof.
  rewrite sublist_app_r. intros (l1 & l2 & E & H1 & H2). apply sublist_cons_r in H2 as [H2|(l3 & -> & H2)].
  - right; right. rewrite E. by apply sublist_app.
  - destruct l1 as [|y [|z l1]]; simplify_eq/=; [by left|by right; left|by destruct l1].
Qed.
Lemma ordered_new h buf pend cur q back acc rest bad acked sub m : is_data m → retries m = 0 →
  ordered (mk_view h buf pend cur q back acc rest bad acked sub) →
  ordered (mk_view h buf pend cur (q ++ [m]) back acc rest bad acked (sub ++ [ident m])).
Proof.
  intros Hm Hr (op & cs & sy & held & H & Ho). exists op, cs, sy, held. open_inv H. plain_view.
  assert (fins (q ++ m :: back) = fins (q ++ back)) as Ef.
  { unfold fins. rewrite filter_mid; [done|]. by rewrite Hm. }
  assert (held 0 = []) as H0 by (apply Iheld_none; [lia|]; intros b l ms E [? _]; lia).
  assert (at_level 0 back = []) as Hb.
  { apply filter_none. eapply Forall_impl; [exact Iback|]. intros x Hx [_ ?]. cbn in Hx. lia. }
  split; [constructor|]; plain_view; rewrite <- ?app_assoc; cbn [app]; try done.
  - rewrite Forall_app, Forall_cons in *. naive_solver lia.
  - by rewrite Ef.
  - intros f x [->|[->|Hs]]%pair_mid Hf Hx; [by rewrite Hm in Hf| |by apply Iafter]. rewrite Hr. intros [? _]. lia.
  - intros e He Hl. unfold at_level. rewrite filter_mid; [by apply Iorphan|]. intros [_ ?]. lia.
  - intros b l ms E. rewrite Ef. by apply (Iop b l ms).
  - rewrite filter_mid; [done|]. intros [_ ?]. lia.
  - rewrite filter_mid; [done|]. intros [_ ?]. lia.
  - unfold in_order in *. plain_view. rewrite (levels_snoc _ (mk_view h buf pend cur q back acc rest bad acked sub) _ _ [ident m]).
    + rewrite app_assoc. by apply sublist_app.
    + intros e He. plain_view. unfold at_level. rewrite <- app_assoc. cbn [app]. rewrite filter_mid; [done|]. intros [_ ?]. lia.
    + plain_view. unfold at_level in *. rewrite !filter_app, Hb, H0, !app_nil_r, filter_singleton_True by done. by rewrite !fmap_app, app_assoc.
Qed.

(** ** Inside a broker producer *)

(** The same contents, taken or not *)
Lemma ordered_contents h buf pend cur q back acc rest bad acc' rest' bad' acked sub :
  (∀ b, acc' b ++ rest' b = acc b ++ rest b) → (∀ b, Forall (fun m => is_data m) (acc' b)) →
  (∀ b, bad b = true → bad' b = true) → (∀ b, bad' b = true → acc' b = []) →
  ordered (mk_view h buf pend cur q back acc rest bad acked sub) → ordered (mk_view h buf pend cur q back acc' rest' bad' acked sub).
Proof.
  intros Hc Ha Hb Hn (op & cs & sy & held & H & Ho). exists op, cs, sy, held. open_inv H. plain_view.
  split; [constructor|]; plain_view; try done.
  - intros b l ms E. destruct (Iop b l ms E) as (? & ? & ? & ? & ?). split_and!; auto.
  - intros Hh. destruct (Ihigh_cur Hh) as (b & ? & ? & ?). eauto 10.
  - intros b. by rewrite Hc.
  - eapply order_shorter; [..|exact Ho]; done.
Qed.
Lemma ordered_accept h buf pend cur q back acc rest bad acked sub b m l : bad b = false → rest b = m :: l → is_data m →
  ordered (mk_view h buf pend cur q back acc rest bad acked sub) →
  ordered (mk_view h buf pend cur q back (<[b := acc b ++ [m]]> acc) (<[b := l]> rest) bad acked sub).
Proof.
  intros Hb Hr Hm H. assert (∀ b, Forall (fun m => is_data m) (acc b) ∧ (bad b = true → acc b = [])) as Hv.
  { destruct H as (op & cs & sy & held & H & _). intros b'. split; [apply (i_acc _ _ _ _ _ H)|apply (i_bad _ _ _ _ _ H)]. }
  eapply ordered_contents; [..|exact H]; [|intros b'; destruct (Hv b') as [H1 H2]; destruct (decide (b = b')) as [<-|Hn]; look..|done| ]; try done.
  - intros b'. destruct (decide (b = b')) as [<-|Hn]; look; [|done]. by rewrite Hr, <- app_assoc.
  - by apply Forall_app_2, Forall_singleton.
  - intros b'. destruct (Hv b') as [H1 H2]; destruct (decide (b = b')) as [<-|Hn]; look; [congruence|auto].
Qed.
Lemma ordered_break h buf pend cur q back acc rest bad acked sub b :
  ordered (mk_view h buf pend cur q back acc rest bad acked sub) →
  ordered (mk_view h buf pend cur q back (<[b := []]> acc) (<[b := acc b ++ rest b]> rest) (<[b := true]> bad) acked sub).
Proof.
  intros H. assert (∀ b, Forall (fun m => is_data m) (acc b) ∧ (bad b = true → acc b = [])) as Hv.
  { destruct H as (op & cs & sy & held & H & _). intros b'. split; [apply (i_acc _ _ _ _ _ H)|apply (i_bad _ _ _ _ _ H)]. }
  eapply ordered_contents; [..|exact H]; intros b'; destruct (Hv b') as [H1 H2]; destruct (decide (b = b')) as [<-|Hn]; look; auto.
Qed.

(** What is in front of a broker producer *)
Lemma control_flags f k : pm_flags (control t n f k) = f.
Proof. done. Qed.
Lemma front_cur v op cs sy held b m l : inv v op cs sy held → op b = None → v_acc v b ++ v_rest v b = m :: l →
  v_cur v = Some b ∧ (if sy then m = control t n syn 0 ∧ l = cs ∧ v_acc v b = [] else cs = m :: l).
Proof.
  intros H Hb E. pose proof (i_content _ _ _ _ _ H b) as Hc. pose proof (i_acc _ _ _ _ _ H b) as Ha. rewrite Hb, E in Hc. cbn [left_part app] in Hc.
  unfold cur_part in Hc. destruct (decide _) as [Hcur|]; [|done]. split; [done|]. destruct sy; cbn [app] in Hc; [|done].
  injection Hc as -> ->. split_and!; [done..|]. destruct (v_acc v b) as [|x k]; [done|]. simplify_eq/=. by apply Forall_cons in Ha as [? _].
Qed.
(** A broker producer that was left takes nothing any more. *)
Lemma front_left v op cs sy held b l ms : inv v op cs sy held → op b = Some (l, ms) →
  v_acc v b = [] ∧ v_rest v b = ms ++ control t n fin (l - 1) :: cur_part v cs sy b.
Proof.
  intros H Hb. destruct (i_op _ _ _ _ _ H b l ms Hb) as (_ & _ & Hbad & _). pose proof (i_bad _ _ _ _ _ H b Hbad) as Ha. split; [done|].
  pose proof (i_content _ _ _ _ _ H b) as Hc. rewrite Ha, Hb in Hc. cbn [app left_part] in Hc. by rewrite <- app_assoc in Hc.
Qed.
Lemma source_unique v op cs sy held l l' e : inv v op cs sy held → v_pend v l = true → v_pend v l' = true →
  source v l e → source v l' e → l = l'.
Proof.
  intros H Hl Hl' [? H1] [? H2]. destruct (Z.lt_trichotomy l l') as [Hlt|[|Hlt]]; [|done|].
  - specialize (H2 l Hl Hlt). lia.
  - specialize (H1 l' Hl' Hlt). lia.
Qed.

Lemma ordered_syn h buf pend cur q back acc rest bad acked sub b m l c : rest b = m :: l → pm_flags m = syn →
  ordered (mk_view h buf pend cur q back acc rest bad acked sub) →
  ordered (mk_view h buf pend cur q back acc (<[b := l]> rest) (<[b := c]> bad) acked sub).
Proof.
  intros Hr Hm (op & cs & sy & held & H & Ho).
  assert (op b = None) as Hb.
  { destruct (op b) as [[lv ms]|] eqn:E; [|done]. destruct (front_left _ _ _ _ _ _ _ _ H E) as [_ Hc]. cbn in Hc. rewrite Hr in Hc.
    destruct (i_op _ _ _ _ _ H b lv ms E) as (_ & _ & _ & _ & Hf). destruct ms as [|x ms]; simplify_eq/=. apply Forall_cons in Hf as [[Hx _] _]. by rewrite Hx in Hm. }
  assert (∃ m' l', acc b ++ rest b = m' :: l') as (m' & l' & E) by (rewrite Hr; destruct (acc b); cbn; eauto).
  destruct (front_cur _ _ _ _ _ b m' l' H Hb E) as [Hcur Hs]. destruct sy; cbn in Hs.
  2:{ subst cs. pose proof (i_cs _ _ _ _ _ H) as Hcs. rewrite <- E, Hr in Hcs. apply Forall_app in Hcs as [_ Hcs].
      apply Forall_cons in Hcs as [[Hx _] _]. by rewrite Hx in Hm. }
  destruct Hs as (-> & -> & Ha). rewrite Ha, Hr in E. cbn in E. injection E as -> ->. exists op, cs, false, held. open_inv H. plain_view. subst cur.
  assert (∀ x : nat, Some x = Some b → x = b) as Hsome by congruence.
  split; [constructor|]; plain_view; try done.
  - intros b' lv ms E. assert (b ≠ b') as Hn by (intros ->; congruence). look. destruct (Iop b' lv ms E) as (? & ? & ? & Hc & ?). split_and!; auto. congruence.
  - intros Hh. by destruct (Ihigh_cur Hh) as (? & _ & ? & _).
  - intros b'. destruct (decide (b = b')) as [<-|Hn]; look; [|rewrite Icontent; by rewrite !decide_False by naive_solver].
    rewrite Ha, Hb, decide_True by done. done.
  - intros b'. destruct (decide (b = b')) as [<-|Hn]; look; auto.
  - eapply order_shorter; [..|exact Ho]; done.
Qed.
Lemma ordered_lead h buf pend b q back acc rest bad acked sub :
  ordered (mk_view h buf pend None q back acc rest bad acked sub) →
  ordered (mk_view h buf pend (Some b) q back acc (<[b := rest b ++ [control t n syn 0]]> rest) bad acked sub).
Proof.
  intros (op & cs & sy & held & H & Ho). exists op, cs, true, held. open_inv H. plain_view. specialize (Inone eq_refl) as ->.
  split; [constructor|]; plain_view; try done.
  - intros b' l ms E. destruct (Iop b' l ms E) as (? & ? & ? & _ & ?). by split_and!.
  - intros Hh. by destruct (Ihigh_cur Hh) as (? & ? & _).
  - intros b'. specialize (Icontent b'). rewrite decide_False in Icontent by done. rewrite app_nil_r in Icontent.
    destruct (decide (b = b')) as [<-|Hn]; look.
    + rewrite decide_True by done. by rewrite app_assoc, Icontent.
    + rewrite decide_False by naive_solver. by rewrite app_nil_r.
  - eapply order_shorter; [..|exact Ho]; done.
Qed.

(** *** The broker producer in use *)

(** Fewer messages in the broker producer in use *)
Definition hold (h : Z) (cs : list ProducerMessage) (held : Z → list ProducerMessage) (e : Z) : list ProducerMessage :=
  if decide (h < e) then back_to e cs else held e.
Lemma hold_low h cs held e : e ≤ h → hold h cs held e = held e.
Proof. intros He. unfold hold. by rewrite decide_False by lia. Qed.
Lemma hold_high h cs held e : h < e → hold h cs held e = back_to e cs.
Proof. intros He. unfold hold. by rewrite decide_True. Qed.
Lemma inv_cur h buf pend b q back acc rest bad acked acked' sub op cs held cs' acc' rest' :
  inv (mk_view h buf pend (Some b) q back acc rest bad acked sub) op cs false held → op b = None → cs' `sublist_of` cs →
  acc' b ++ rest' b = cs' → (bad b = true → acc' b = []) → (∀ b', b ≠ b' → acc' b' = acc b' ∧ rest' b' = rest b') →
  inv (mk_view h buf pend (Some b) q back acc' rest' bad acked' sub) op cs' false (hold h cs' held).
Proof.
  intros H Hb Hs E Ha Hother. open_inv H. plain_view.
  assert (Forall (fun m => is_data m ∧ h ≤ retries m ≤ Max) cs') as Ics' by (by eapply Forall_mono).
  constructor; plain_view; try done.
  - eapply sorted_mono; [|exact Ihigh]. apply sublist_app; [done|]. by apply fmap_mono.
  - intros b'. specialize (Icontent b'). destruct (decide (b = b')) as [<-|Hn].
    + by rewrite Hb, decide_True by done.
    + destruct (Hother b' Hn) as [-> ->]. rewrite Icontent. by rewrite !decide_False by naive_solver.
  - intros b'. destruct (decide (b = b')) as [<-|Hn]; [|by destruct (Hother b' Hn) as [-> _]].
    rewrite <- E in Ics'. apply Forall_app in Ics' as [Ics' _]. eapply Forall_impl; [exact Ics'|]. naive_solver.
  - intros b'. destruct (decide (b = b')) as [<-|Hn]; [done|]. destruct (Hother b' Hn) as [-> _]. auto.
  - intros e He. by rewrite hold_high.
  - intros b' l ms e Ho He. destruct (Iop b' l ms Ho) as (Hl & _). rewrite hold_low; [by eapply Iheld_op|]. apply Ipend in Hl. destruct He. lia.
  - intros e He Ho. rewrite hold_low by done. auto.
Qed.

(** The levels above the current one are the messages in the broker producer in use. *)
Lemma sorted_split (f : ProducerMessage → Z) k (l : list ProducerMessage) : StronglySorted Z.ge (f <$> l) →
  filter (fun m => f m ≤ k + 1) l = filter (fun m => f m = k + 1) l ++ filter (fun m => f m ≤ k) l.
Proof.
  induction l as [|x l IH]; [done|]. rewrite fmap_cons, StronglySorted_cons, !filter_cons. intros [Hf Hl].
  destruct (decide (f x ≤ k)) as [Hk|Hk].
  - rewrite decide_True, (decide_False (P := f x = k + 1)) by lia. rewrite IH by done.
    rewrite (filter_none (fun m => f m = k + 1)); [done|]. rewrite Forall_fmap in Hf. eapply Forall_impl; [exact Hf|]. intros y Hy. cbn in Hy. lia.
  - destruct (decide (f x = k + 1)) as [E|E].
    + rewrite decide_True by lia. cbn [app]. by rewrite IH.
    + rewrite decide_False by lia. by apply IH.
Qed.
Lemma levels_top v held cs k : 0 ≤ v_h v → (∀ e, v_h v < e → level v held e = ident <$> back_to e cs) →
  StronglySorted Z.ge ((fun m => retries m + 1) <$> cs) → Forall (fun m => v_h v ≤ retries m) cs →
  levels (Z.to_nat (v_h v) + k) v held = (ident <$> filter (fun m => retries m + 1 ≤ v_h v + Z.of_nat k) cs) ++ levels (Z.to_nat (v_h v)) v held.
Proof.
  intros Hh Hl Hs Hf. induction k as [|k IH].
  - rewrite Nat.add_0_r, filter_none; [done|]. eapply Forall_impl; [exact Hf|]. intros x Hx ?. cbn in *. lia.
  - rewrite Nat.add_succ_r, levels_S, IH, Hl by lia. unfold back_to. rewrite app_assoc, <- fmap_app. f_equal. f_equal.
    replace (Z.of_nat (S (Z.to_nat (v_h v) + k))) with (v_h v + Z.of_nat k + 1) by lia.
    rewrite <- (sorted_split (fun m => retries m + 1)) by done. apply list_filter_iff. intros x. lia.
Qed.

(** Messages leave it in order. *)
Lemma front_taken v op cs sy held b l l' : inv v op cs sy held → v_acc v b = l ++ l' → l ≠ [] →
  op b = None ∧ v_cur v = Some b ∧ sy = false ∧ v_bad v b = false ∧ high v = [] ∧ cs = l ++ l' ++ v_rest v b.
Proof.
  intros H Ha Hl. destruct l as [|m l]; [done|].
  assert (v_bad v b = false) as Hbad.
  { destruct (v_bad v b) eqn:E; [|done]. by rewrite (i_bad _ _ _ _ _ H b E) in Ha. }
  assert (op b = None) as Hb.
  { destruct (op b) as [[lv ms]|] eqn:E; [|done]. destruct (i_op _ _ _ _ _ H b lv ms E) as (_ & _ & Hc & _). congruence. }
  assert (v_acc v b ++ v_rest v b = m :: l ++ l' ++ v_rest v b) as E by (rewrite Ha; cbn; by rewrite <- app_assoc).
  destruct (front_cur _ _ _ _ _ b _ _ H Hb E) as [Hcur Hs]. destruct sy; [naive_solver congruence|]. split_and!; try done.
  destruct (high v) eqn:Eh; [done|]. destruct (i_high_cur _ _ _ _ _ H) as (b' & Hb' & _ & Hbad'); [by rewrite Eh|]. congruence.
Qed.
Lemma ordered_take h buf pend cur q back acc rest bad acked sub b l l' (got : bool) : acc b = l ++ l' →
  ordered (mk_view h buf pend cur q back acc rest bad acked sub) →
  ordered (mk_view h buf pend cur q back (<[b := l']> acc) rest bad (acked ++ (if got then ident <$> l else [])) sub).
Proof.
  intros Ha H. destruct l as [|m l].
  { replace (if got then _ else _) with (@nil ProducerMessage) by (by destruct got). rewrite app_nil_r. cbn in Ha.
    eapply ordered_contents; [..|exact H]; try done; destruct H as (op & cs & sy & held & H & _); intros b'.
    - destruct (decide (b = b')) as [<-|Hn]; look; by rewrite ?Ha.
    - pose proof (i_acc _ _ _ _ _ H b') as H1. destruct (decide (b = b')) as [<-|Hn]; look; [by rewrite <- Ha|done].
    - pose proof (i_bad _ _ _ _ _ H b') as H1. destruct (decide (b = b')) as [<-|Hn]; look; [by rewrite <- Ha|done]. }
  destruct H as (op & cs & sy & held & H & Ho). pose proof (front_taken _ _ _ _ _ b (m :: l) l' H Ha) as Hf. cbn [v_cur v_bad v_rest high] in Hf.
  destruct Hf as (Hb & -> & -> & Hbad & Hh & Hcs); [done|]. set (l0 := m :: l) in *. exists op, (l' ++ rest b), false, (hold h (l' ++ rest b) held).
  pose proof H as H'. open_inv H'. plain_view. assert (∀ e, h < e → at_level e (q ++ back) = []) as Hup.
  { intros e He. apply filter_none, Forall_forall. intros x Hx [? ?]. eapply filter_nil_not_elem_of; [exact Hh|split; [done|lia]|done]. }
  rewrite Hh in Ihigh. cbn [fmap list_fmap app] in Ihigh.
  assert (Forall (fun m => h ≤ retries m) cs) as Hlow by (eapply Forall_impl; [exact Ics|]; naive_solver).
  assert (StronglySorted Z.ge ((fun m => retries m + 1) <$> (l' ++ rest b)) ∧ Forall (fun m => h ≤ retries m) (l' ++ rest b)) as [Hs' Hlow'].
  { rewrite Hcs, fmap_app in Ihigh. apply StronglySorted_app_1_r in Ihigh. rewrite Hcs in Hlow. by apply Forall_app in Hlow as [_ ?]. }
  split.
  - eapply inv_cur; [exact H|done| | | |]; cbn.
    + rewrite Hcs. by apply sublist_inserts_l.
    + by look.
    + congruence.
    + intros b' Hn. by look.
  - unfold in_order in *. cbn [v_acked v_sub] in *.
    assert (∀ v held k, v_h v = h → (∀ e, h < e → level v held e = ident <$> back_to e k) →
      StronglySorted Z.ge ((fun m => retries m + 1) <$> k) → Forall (fun m => h ≤ retries m) k → Forall (fun m => retries m ≤ Max) k →
      levels (Z.to_nat (Max + 1)) v held = (ident <$> k) ++ levels (Z.to_nat h) v held) as Htop.
    { intros v held' k Hv Hl Hs Hk Hm. subst h. replace (Z.to_nat (Max + 1)) with (Z.to_nat (v_h v) + Z.to_nat (Max + 1 - v_h v))%nat by lia.
      rewrite (levels_top v held' k) by (done || lia). f_equal. f_equal. apply filter_all.
      rewrite Forall_forall in *. intros x Hx. specialize (Hm x Hx). cbn in Hm. lia. }
    rewrite (Htop _ _ cs) in Ho; [|done| |done..|eapply Forall_impl; [exact Ics|]; naive_solver].
    2:{ intros e He. plain_view. by rewrite Ibuf_top, Hup, Iheld_cur by done. }
    rewrite (Htop _ _ (l' ++ rest b)); [|done| |done..|].
    2:{ intros e He. plain_view. by rewrite Ibuf_top, Hup, hold_high by done. }
    2:{ rewrite Hcs in Ics. apply Forall_app in Ics as [_ Ics]. eapply Forall_impl; [exact Ics|]. naive_solver. }
    rewrite (levels_ext (Z.to_nat h) _ (mk_view h buf pend (Some b) q back acc rest bad acked sub) _ held).
    2:{ intros e He. plain_view. by rewrite hold_low by lia. }
    rewrite Hcs, (fmap_app _ l0) in Ho. destruct got; rewrite <- ?app_assoc in *; [done|]. cbn [app]. etrans; [|exact Ho].
    apply sublist_app; [done|]. by apply sublist_inserts_l.
Qed.

(** ** Messages that leave a broker producer *)

(** The first message of a broker producer that was left *)
Lemma inv_left h buf pend cur q back acc rest bad acked sub op cs sy held b l m ms k :
  inv (mk_view h buf pend cur q back acc rest bad acked sub) op cs sy held → op b = Some (l, m :: ms) → rest b = m :: k →
  inv (mk_view h buf pend cur q back acc (<[b := k]> rest) bad acked sub) (<[b := Some (l, ms)]> op) cs sy
    (<[retries m + 1 := back_to (retries m + 1) ms]> held) ∧ held (retries m + 1) = m :: back_to (retries m + 1) ms ∧ source (mk_view h buf pend cur q back acc rest bad acked sub) l (retries m + 1).
Proof.
  intros H Hb Hr. destruct (front_left _ _ _ _ _ _ _ _ H Hb) as [Ha Hc]. cbn in Ha, Hc. rewrite Hr in Hc. injection Hc as Hc.
  pose proof (fun l' => source_unique _ _ _ _ _ l l' (retries m + 1) H) as Hu. pose proof H as H'. open_inv H'. plain_view.
  destruct (Iop b l _ Hb) as (Hl & Hf & Hbad & Hcur & Hms). apply Forall_cons in Hms as [[Hm Hsrc] Hms].
  assert (held (retries m + 1) = m :: back_to (retries m + 1) ms) as Hh.
  { rewrite (Iheld_op b l _ _ Hb Hsrc). unfold back_to. by rewrite filter_cons_True. }
  assert (h < retries m + 1 → False) as Hlow by (apply Ipend in Hl; destruct Hsrc; lia).
  split; [|by split]. constructor; plain_view; try done.
  - intros b' l' ms' E. destruct (decide (b = b')) as [<-|Hn]; look; [|by apply (Iop b' l' ms')]. injection E as <- <-. by split_and!.
  - intros b1 b2 l' ms1 ms2 E1 E2. destruct (decide (b = b1)) as [<-|Hn1], (decide (b = b2)) as [<-|Hn2]; look; simplify_eq; eauto.
  - intros b'. specialize (Icontent b'). destruct (decide (b = b')) as [<-|Hn]; look; [|done]. rewrite Ha, Hc. cbn [app left_part]. by rewrite <- app_assoc.
  - intros e He. assert (retries m + 1 ≠ e) as Hn by naive_solver. look. auto.
  - intros b' l' ms' e E He. destruct (decide (b = b')) as [<-|Hn]; look.
    + injection E as <- <-. destruct (decide (retries m + 1 = e)) as [<-|Hn]; look; [done|]. rewrite (Iheld_op b l _ _ Hb He). unfold back_to. by rewrite filter_cons_False.
    + destruct (decide (retries m + 1 = e)) as [<-|Hne]; look; [|by eapply Iheld_op].
      destruct Hn. destruct (Iop b' l' ms' E) as (Hl' & _). assert (l = l') as <- by (apply Hu; done). by eapply Iop_inj.
  - intros e He Ho. assert (retries m + 1 ≠ e) as Hn. { intros <-. eapply (Ho b); [by look|done]. } look. apply Iheld_none; [done|].
    intros b' l' ms' E. destruct (decide (b = b')) as [<-|Hb']; [|eapply (Ho b'); look; exact E]. rewrite Hb in E. injection E as <- <-. eapply (Ho b). by look.
Qed.
(** Its last message *)
Lemma inv_left_fin h buf pend cur q back acc rest bad bad' acked sub op cs sy held b l k :
  inv (mk_view h buf pend cur q back acc rest bad acked sub) op cs sy held → op b = Some (l, []) → rest b = control t n fin (l - 1) :: k →
  (∀ b', b ≠ b' → bad' b' = bad b') →
  inv (mk_view h buf pend cur q back acc (<[b := k]> rest) bad' acked sub) (<[b := None]> op) cs sy held.
Proof.
  intros H Hb Hr Hbad'. destruct (front_left _ _ _ _ _ _ _ _ H Hb) as [Ha Hc]. cbn in Ha, Hc. rewrite Hr in Hc. injection Hc as Hc.
  open_inv H. destruct (Iop b l _ Hb) as (Hl & Hf & Hbad & Hcur & _). cbn in Hl, Hbad.
  constructor; unfold high, cur_part, up in *; cbn in *; try done.
  - intros b' l' ms' E. destruct (decide (b = b')) as [<-|Hn]; look; [done|]. rewrite Hbad' by done. by apply (Iop b' l' ms').
  - intros b1 b2 l' ms1 ms2 E1 E2. destruct (decide (b = b1)) as [<-|Hn1], (decide (b = b2)) as [<-|Hn2]; look; simplify_eq; eauto.
  - intros Hh. destruct (Ihigh_cur Hh) as (b' & E & Hs & Hb'). exists b'. split_and!; [done..|].
    rewrite Hbad'; [done|]. intros <-. rewrite Hcur in Hs; done.
  - intros b'. specialize (Icontent b'). destruct (decide (b = b')) as [<-|Hn]; look; [|done]. by rewrite Ha, Hc.
  - intros b' Hb'. destruct (decide (b = b')) as [<-|Hn]; [done|]. rewrite Hbad' in Hb' by done. auto.
  - intros b' l' ms' e E He. destruct (decide (b = b')) as [<-|Hn]; look; [done|]. by eapply Iheld_op.
  - intros e He Ho. destruct (decide (source (mk_view h buf pend cur q back acc rest bad acked sub) l e)) as [Hs|Hs].
    + by rewrite (Iheld_op b l [] e Hb Hs).
    + apply Iheld_none; [done|]. intros b' l' ms' E. destruct (decide (b = b')) as [<-|Hn]; [|eapply (Ho b'); look; exact E]. rewrite Hb in E. injection E as <- <-. exact Hs.
Qed.
(** What the first message of a broker producer can be *)
Lemma front_cases v op cs sy held b m k : inv v op cs sy held → v_rest v b = m :: k → pm_flags m ≠ syn →
  (∃ l, op b = Some (l, []) ∧ m = control t n fin (l - 1)) ∨ (∃ l ms, op b = Some (l, m :: ms) ∧ is_data m) ∨
  op b = None ∧ v_cur v = Some b ∧ sy = false ∧ cs = v_acc v b ++ m :: k ∧ is_data m.
Proof.
  intros H Hr Hm. destruct (op b) as [[l ms]|] eqn:E.
  - destruct (front_left _ _ _ _ _ _ _ _ H E) as [_ Hc]. rewrite Hr in Hc. destruct (i_op _ _ _ _ _ H b l ms E) as (_ & _ & _ & _ & Hf).
    destruct ms as [|x ms]; simplify_eq/=; [left; eauto|right; left]. apply Forall_cons in Hf as [[? _] _]. eauto.
  - right; right. assert (∃ m' l', v_acc v b ++ v_rest v b = m' :: l') as (m' & l' & E') by (rewrite Hr; destruct (v_acc v b); cbn; eauto).
    destruct (front_cur _ _ _ _ _ b m' l' H E E') as [Hcur Hs]. rewrite Hr in E'. destruct sy.
    + destruct Hs as (-> & _ & Ha). rewrite Ha in E'. by injection E' as -> _.
    + rewrite <- E' in Hs. split_and!; try done. pose proof (i_cs _ _ _ _ _ H) as Hcs. rewrite Hs in Hcs. apply Forall_app in Hcs as [_ Hcs].
      by apply Forall_cons in Hcs as [[? _] _].
Qed.
Lemma hold_sub v op cs sy held cs' e : inv v op cs sy held → cs' `sublist_of` cs → hold (v_h v) cs' held e `sublist_of` held e.
Proof.
  intros H Hs. unfold hold. destruct (decide _) as [He|He]; [|done]. rewrite (i_held_cur _ _ _ _ _ H e He). by apply filter_mono.
Qed.
Lemma ordered_reject h buf pend cur q back acc rest bad acked sub b m l : rest b = m :: l → pm_flags m ≠ syn →
  ordered (mk_view h buf pend cur q back acc rest bad acked sub) →
  ordered (mk_view h buf pend cur q back acc (<[b := l]> rest) bad acked sub).
Proof.
  intros Hr Hm (op & cs & sy & held & H & Ho).
  destruct (front_cases _ _ _ _ _ b m l H Hr Hm) as [(lv & E & ->)|[(lv & ms & E & Hd)|(E & Hcur & -> & Hcs & Hd)]].
  - exists (<[b := None]> op), cs, sy, held. split; [by eapply inv_left_fin|]. eapply order_shorter; [..|exact Ho]; done.
  - destruct (inv_left _ _ _ _ _ _ _ _ _ _ _ _ _ _ _ _ _ _ _ _ H E Hr) as (Hi & Hh & _).
    eexists _, _, _, _. split; [exact Hi|]. eapply order_shorter; [..|exact Ho]; try done. intros e _.
    destruct (decide (retries m + 1 = e)) as [<-|Hn]; look; [|done]. rewrite Hh. by apply sublist_cons.
  - cbn in Hcur, Hcs. subst cur. assert (acc b ++ l `sublist_of` cs) as Hsub by (rewrite Hcs; apply sublist_app; auto using sublist_cons).
    exists op, (acc b ++ l), false, (hold h (acc b ++ l) held). split.
    + eapply inv_cur; [exact H|done|done|by look| |by intros b' Hn; look]. apply (i_bad _ _ _ _ _ H b).
    + eapply order_shorter; [..|exact Ho]; try done. intros e _. by apply (hold_sub _ _ _ _ _ _ _ H).
Qed.

(** *** Back to the partition *)

Lemma pair_last {A} (f x m : A) l : [f; x] `sublist_of` l ++ [m] → x = m ∧ f ∈ l ∨ [f; x] `sublist_of` l.
Proof.
  rewrite sublist_app_r. intros (l1 & l2 & E & H1 & H2). apply sublist_cons_r in H2 as [H2|(l3 & -> & H2)]; apply sublist_nil_r in H2; subst.
  - right. by rewrite E, app_nil_r.
  - destruct l1 as [|y [|z l1]]; simplify_eq/=; [|by destruct l1]. left. split; [done|]. eapply elem_of_sublist; [|done]. by left.
Qed.
Lemma fins_snoc l m : fins (l ++ [m]) = fins l ++ (if decide (is_fin m) then [retries m] else []).
Proof. unfold fins. rewrite filter_app, filter_cons, filter_nil. destruct (decide _); by rewrite fmap_app. Qed.
Lemma fins_data l m : is_data m → fins (l ++ [m]) = fins l.
Proof. intros Hm. rewrite fins_snoc, decide_False, app_nil_r; [done|]. by rewrite Hm. Qed.
Lemma fins_elem v op cs sy held f : inv v op cs sy held → f ∈ up v → is_fin f → v_pend v (retries f) = true ∧ retries f ∈ fins (up v).
Proof.
  intros H Hf Hfin. split.
  - pose proof (i_up _ _ _ _ _ H) as Hu. rewrite Forall_forall in Hu. destruct (Hu f Hf) as [[E _]|[_ ?]]; [|done]. by rewrite E in Hfin.
  - unfold fins. apply list_elem_of_fmap. exists f. split; [done|]. by apply list_elem_of_filter.
Qed.
(** A message of a broker producer that was left *)
Lemma inv_back_low h buf pend cur q back acc rest bad acked sub op cs sy held x l :
  inv (mk_view h buf pend cur q back acc rest bad acked sub) op cs sy held → is_data x → pend l = true → l ∉ fins (q ++ back) →
  source (mk_view h buf pend cur q back acc rest bad acked sub) l (retries x) →
  inv (mk_view h buf pend cur q (back ++ [x]) acc rest bad acked sub) op cs sy held.
Proof.
  intros H Hx Hl Hn Hs. pose proof (fun l' => source_unique _ _ _ _ _ l' l (retries x) H) as Hu.
  pose proof (fun f => fins_elem _ _ _ _ _ f H) as Hfe. open_inv H. assert (1 ≤ l ≤ h) as Hlh by (by apply Ipend). destruct Hs as [? Hs].
  constructor; plain_view; rewrite ?app_assoc, ?fins_data by done; try done.
  - apply Forall_app_2; [done|]. apply Forall_singleton. left. split; [done|lia].
  - apply Forall_app_2; [done|]. apply Forall_singleton. lia.
  - intros f y [[-> Hf]|Hp]%pair_last Hfin Hy; [|by apply Iafter]. intros [H1 H2]. destruct (Hfe f Hf Hfin) as [Hp Hin].
    rewrite (Hu (retries f)) in Hin by done. done.
  - intros e He Ho. specialize (Ho l Hl) as Hle. unfold at_level in *. rewrite filter_app, (filter_none _ [x]), app_nil_r; [by apply Iorphan|].
    apply Forall_singleton. intros [_ <-]. lia.
  - rewrite filter_app, (filter_none _ [x]), app_nil_r; [done|]. apply Forall_singleton. lia.
  - rewrite filter_app, (filter_none _ [x]), app_nil_r; [done|]. apply Forall_singleton. lia.
Qed.
(** A message of the broker producer in use *)
Lemma inv_back_high h buf pend b q back acc rest bad acked sub op cs held x :
  inv (mk_view h buf pend (Some b) q back acc rest bad acked sub) op cs false held → is_data x → h < retries x ≤ Max → bad b = true →
  Forall (fun m => retries m + 1 ≤ retries x) cs → Forall (fun m => retries x ≤ retries m) (high (mk_view h buf pend (Some b) q back acc rest bad acked sub)) →
  inv (mk_view h buf pend (Some b) q (back ++ [x]) acc rest bad acked sub) op cs false held.
Proof.
  intros H Hx Hr Hbad Hcs Hhi. pose proof (fun f => fins_elem _ _ _ _ _ f H) as Hfe. open_inv H.
  constructor; plain_view; rewrite ?app_assoc, ?fins_data by done; try done.
  - apply Forall_app_2; [done|]. apply Forall_singleton. left. split; [done|lia].
  - apply Forall_app_2; [done|]. apply Forall_singleton. lia.
  - intros f y [[-> Hf]|Hp]%pair_last Hfin Hy; [|by apply Iafter]. intros [H1 H2]. destruct (Hfe f Hf Hfin) as [Hp _]. apply Ipend in Hp. lia.
  - intros e He Ho. unfold at_level in *. rewrite filter_app, (filter_none _ [x]), app_nil_r; [by apply Iorphan|].
    apply Forall_singleton. intros [_ <-]. lia.
  - rewrite filter_app, (filter_all _ [x]) by (apply Forall_singleton; split; [done|lia]). rewrite fmap_app, <- app_assoc. cbn [fmap list_fmap app].
    apply sorted_insert; [done|by rewrite Forall_fmap..].
  - intros _. eauto.
Qed.
(** The last message of a broker producer that was left *)
Lemma inv_back_fin h buf pend cur q back acc rest bad acked sub op cs sy held x :
  inv (mk_view h buf pend cur q back acc rest bad acked sub) op cs sy held → is_fin x → pend (retries x) = true →
  retries x ∉ fins (q ++ back) → (∀ b ms, op b ≠ Some (retries x, ms)) →
  inv (mk_view h buf pend cur q (back ++ [x]) acc rest bad acked sub) op cs sy held.
Proof.
  intros H Hx Hl Hn Hop. assert (¬ is_data x) as Hd by (by rewrite Hx). open_inv H. assert (1 ≤ retries x ≤ h) as Hlh by (by apply Ipend).
  assert (∀ P `{!∀ x, Decision (P x)}, ¬ P x → filter P ((q ++ back) ++ [x]) = filter P (q ++ back)) as Hfil.
  { intros P ? HP. rewrite filter_app, (filter_none _ [x]), app_nil_r; [done|]. by apply Forall_singleton. }
  constructor; plain_view; rewrite ?app_assoc, ?fins_snoc, ?decide_True by done; try done.
  - apply Forall_app_2; [done|]. apply Forall_singleton. by right.
  - apply Forall_app_2; [done|]. apply Forall_singleton. lia.
  - apply NoDup_app. split_and!; [done| |apply NoDup_singleton]. intros y Hy ->%list_elem_of_singleton. done.
  - intros f y [[-> Hf]|Hp]%pair_last Hfin Hy; [done|by apply Iafter].
  - intros e He Ho. unfold at_level in *. rewrite Hfil; [by apply Iorphan|naive_solver].
  - intros b l ms E. destruct (Iop b l ms E) as (? & ? & ? & ? & ?). split_and!; try done. rewrite elem_of_app, list_elem_of_singleton.
    intros [?| ->]; [done|]. by eapply Hop.
  - rewrite Hfil; [done|naive_solver].
  - rewrite Hfil; [done|naive_solver].
Qed.

Lemma ident_retried m : ident (retried m) = ident m.
Proof. done. Qed.
Lemma at_level_app e l k : at_level e (l ++ k) = at_level e l ++ at_level e k.
Proof. apply filter_app. Qed.
Lemma at_level_one e m : is_data m → at_level e [m] = if decide (retries m = e) then [m] else [].
Proof. intros Hm. unfold at_level. rewrite filter_cons, filter_nil. repeat destruct (decide _); naive_solver. Qed.
Lemma back_to_cons e m l : back_to e (m :: l) = if decide (retries m + 1 = e) then m :: back_to e l else back_to e l.
Proof. unfold back_to. rewrite filter_cons. done. Qed.
Lemma ordered_bounce h buf pend cur q back acc rest bad acked sub b m l : bad b = true → rest b = m :: l → is_data m → retries m < Max →
  ordered (mk_view h buf pend cur q back acc rest bad acked sub) →
  ordered (mk_view h buf pend cur q (back ++ [retried m]) acc (<[b := l]> rest) bad acked sub).
Proof.
  intros Hbad Hr Hm Hmax (op & cs & sy & held & H & Ho).
  assert (∀ v' held', v_acked v' = acked → v_sub v' = sub → v_buf v' = buf → up v' = (q ++ back) ++ [retried m] →
    (∀ e, held e = (if decide (retries m + 1 = e) then [m] else []) ++ held' e) → in_order v' held') as Hord.
  { intros v' held' E1 E2 E3 E4 Hh. unfold in_order in *. rewrite E1, E2. cbn in Ho.
    rewrite (levels_ext _ v' (mk_view h buf pend cur q back acc rest bad acked sub) held' held); [done|].
    intros e _. unfold level. cbn [v_buf]. rewrite E3, E4, Hh, at_level_app, (at_level_one e (retried m)) by done. cbn [retries retried set_retries up v_q v_back].
    destruct (decide _); [|by rewrite app_nil_r]. rewrite !fmap_app, <- !app_assoc. done. }
  destruct (front_cases _ _ _ _ _ b m l H Hr) as [(lv & E & ->)|[(lv & ms & E & Hd)|(E & Hcur & -> & Hcs & Hd)]]; [by rewrite Hm|done| |].
  - destruct (i_op _ _ _ _ _ H _ _ _ E) as (Hl & Hf & _).
    destruct (inv_left _ _ _ _ _ _ _ _ _ _ _ _ _ _ _ _ _ _ _ _ H E Hr) as (Hi & Hh & Hsrc).
    eexists _, _, _, _. split; [by eapply (inv_back_low _ _ _ _ _ _ _ _ _ _ _ _ _ _ _ _ lv Hi)|]. apply Hord; try done.
    + unfold up. cbn. by rewrite app_assoc.
    + intros e. destruct (decide _) as [<-|Hn]; look; [by rewrite Hh|done].
  - cbn in Hcur, Hcs. subst cur. pose proof (i_bad _ _ _ _ _ H b Hbad) as Ha. cbn in Ha. rewrite Ha in Hcs. cbn in Hcs.
    assert (l `sublist_of` cs) as Hsub by (rewrite Hcs; by apply sublist_cons).
    pose proof (inv_cur _ _ _ _ _ _ _ _ _ acked acked _ _ _ _ l acc (<[b := l]> rest) H E Hsub) as Hi.
    pose proof (i_high _ _ _ _ _ H) as Hhi. pose proof (i_cs _ _ _ _ _ H) as Hcs'. rewrite Hcs in Hhi, Hcs'. apply Forall_cons in Hcs' as [[_ Hm2] _]. cbn [v_h] in Hm2.
    rewrite fmap_cons, StronglySorted_app, StronglySorted_cons, Forall_fmap in Hhi. destruct Hhi as (Hx & _ & Hy & _).
    exists op, l, false, (hold h l held). split.
    + apply inv_back_high; [apply Hi|done|cbn; lia|done| |].
      * look. by rewrite Ha.
      * done.
      * intros b' Hn. by look.
      * eapply Forall_impl; [exact Hy|]. intros x. cbn. lia.
      * apply Forall_forall. intros x Hin. cut (retries x >= retries m + 1); [cbn; lia|]. apply Hx; [|by left]. apply list_elem_of_fmap. eauto.
    + apply Hord; try done.
      * unfold up. cbn. by rewrite app_assoc.
      * intros e. unfold hold. destruct (decide (h < e)) as [He|He].
        -- rewrite (i_held_cur _ _ _ _ _ H e He), Hcs, back_to_cons. by destruct (decide _).
        -- by rewrite decide_False by lia.
Qed.
Lemma ordered_bounce_fin h buf pend cur q back acc rest bad acked sub b m l c : bad b = true → rest b = m :: l → is_fin m →
  ordered (mk_view h buf pend cur q back acc rest bad acked sub) →
  ordered (mk_view h buf pend cur q (back ++ [retried m]) acc (<[b := l]> rest) (<[b := c]> bad) acked sub).
Proof.
  intros Hbad Hr Hm (op & cs & sy & held & H & Ho).
  destruct (front_cases _ _ _ _ _ b m l H Hr) as [(lv & E & ->)|[(lv & ms & E & Hd)|(E & Hcur & -> & Hcs & Hd)]]; [by rewrite Hm| |by rewrite Hd in Hm..].
  destruct (i_op _ _ _ _ _ H _ _ _ E) as (Hl & Hf & _). assert (retries (retried (control t n fin (lv - 1))) = lv) as Hrt by (cbn; lia).
  exists (<[b := None]> op), cs, sy, held. split.
  - apply inv_back_fin; rewrite ?Hrt; try done.
    + eapply inv_left_fin; [exact H|done..|]. intros b' Hn. by look.
    + intros b' ms'. destruct (decide (b = b')) as [<-|Hn]; look; [done|]. intros E'. destruct Hn. by eapply (i_op_inj _ _ _ _ _ H).
  - unfold in_order in *. cbn [v_acked v_sub] in *.
    rewrite (levels_ext _ _ (mk_view h buf pend cur q back acc rest bad acked sub) held held); [done|].
    intros e _. plain_view. rewrite (app_assoc q back), (at_level_app e (q ++ back)). unfold at_level. rewrite (filter_none _ [_]), app_nil_r; [done|]. apply Forall_singleton. by intros [? _].
Qed.

(** ** Messages that leave the partition producer *)

Lemma inv_unbuffered h buf pend cur q back acc rest bad acked sub op cs sy held buf' :
  (∀ e, buf' e `sublist_of` buf e) → inv (mk_view h buf pend cur q back acc rest bad acked sub) op cs sy held →
  inv (mk_view h buf' pend cur q back acc rest bad acked sub) op cs sy held.
Proof.
  intros Hs H. open_inv H. constructor; plain_view; try done.
  - intros e. eapply Forall_mono; [apply Hs|apply Ibuf].
  - intros e He. eapply nil_mono; [apply Hs|auto].
Qed.
(** The broker producer in use gets a message of the current level. *)
Lemma inv_emit h buf pend b q back acc rest bad acked sub op cs sy held m :
  inv (mk_view h buf pend (Some b) q back acc rest bad acked sub) op cs sy held → is_data m → retries m = h →
  inv (mk_view h buf pend (Some b) q back acc (<[b := rest b ++ [m]]> rest) bad acked sub) op (cs ++ [m]) sy (hold h (cs ++ [m]) held).
Proof.
  intros H Hm Hr. open_inv H. constructor; plain_view; try done.
  - apply Forall_app_2; [done|]. apply Forall_singleton. split; [done|lia].
  - rewrite fmap_app, app_assoc. cbn. apply sorted_insert; [by rewrite app_nil_r| |done]. apply Forall_app_2; apply Forall_fmap.
    + apply Forall_forall. intros x [[_ ?] _]%list_elem_of_filter. cbn. lia.
    + eapply Forall_impl; [exact Ics|]. intros x [_ ?]. cbn. lia.
  - intros b'. specialize (Icontent b'). destruct (decide (b = b')) as [<-|Hn]; look; [|by rewrite decide_False in * by naive_solver].
    rewrite decide_True in * by done. rewrite app_assoc, Icontent. by rewrite <- !app_assoc.
  - intros e He. by rewrite hold_high.
  - intros b' l ms e E He. rewrite hold_low; [by eapply Iheld_op|]. destruct (Iop b' l ms E) as (Hl & _). apply Ipend in Hl. lia.
  - intros e He Ho. rewrite hold_low by done. auto.
Qed.
Lemma order_emit h buf pend b q back acc rest bad acked sub op cs sy held buf' q' acc' rest' m :
  inv (mk_view h buf pend (Some b) q back acc rest bad acked sub) op cs sy held → is_data m → retries m = h →
  (∀ e, buf e ++ at_level e (q ++ back) = (if decide (h = e) then [m] else []) ++ buf' e ++ at_level e (q' ++ back)) →
  in_order (mk_view h buf pend (Some b) q back acc rest bad acked sub) held →
  in_order (mk_view h buf' pend (Some b) q' back acc' rest' bad acked sub) (hold h (cs ++ [m]) held).
Proof.
  intros H Hm Hr He Ho. open_inv H. unfold in_order in *. plain_view. erewrite levels_ext; [|intros e _; reflexivity].
  rewrite (levels_shift _ h _ (mk_view h buf pend (Some b) q back acc rest bad acked sub) _ held); [done|lia|..]; unfold level, up; cbn [v_buf v_q v_back].
  - intros e _ H1 H2. rewrite !app_assoc, He, decide_False by done. cbn. f_equal. f_equal. unfold hold. destruct (decide _) as [Hlt|]; [|done].
    rewrite Iheld_cur by done. unfold back_to. by rewrite filter_app, (filter_none _ [m]), app_nil_r by (apply Forall_singleton; lia).
  - rewrite !app_assoc, !He, (decide_False (P := h = h + 1)), (decide_True (P := h = h)) by lia. rewrite hold_high, hold_low by lia. rewrite (Iheld_cur (h + 1)) by lia.
    unfold back_to. rewrite (filter_app _ cs), (filter_all _ [m]) by (apply Forall_singleton; lia). rewrite !fmap_app, <- !app_assoc. done.
Qed.
Lemma ordered_send h buf pend b q back acc rest bad acked sub m : is_data m → retries m = h → buf h = [] →
  ordered (mk_view h buf pend (Some b) (m :: q) back acc rest bad acked sub) →
  ordered (mk_view h buf pend (Some b) q back acc (<[b := rest b ++ [m]]> rest) bad acked sub).
Proof.
  intros Hm Hr Hb (op & cs & sy & held & H & Ho). exists op, (cs ++ [m]), sy, (hold h (cs ++ [m]) held). split.
  - apply inv_emit; [|done..]. eapply inv_shorter; [|apply (i_back _ _ _ _ _ H)|exact H]. by apply sublist_cons.
  - eapply order_emit; [exact H|done..| |exact Ho]. intros e. cbn [app]. change (m :: q ++ back) with ([m] ++ q ++ back).
    rewrite at_level_app, at_level_one, Hr by done. destruct (decide _) as [<-|]; [by rewrite Hb|done].
Qed.
Lemma ordered_unbuffer h buf pend cur q back acc rest bad acked sub m l : buf h = m :: l →
  ordered (mk_view h buf pend cur q back acc rest bad acked sub) → ordered (mk_view h (<[h := l]> buf) pend cur q back acc rest bad acked sub).
Proof.
  intros Hb (op & cs & sy & held & H & Ho). exists op, cs, sy, held.
  assert (∀ e, (<[h := l]> buf) e `sublist_of` buf e) as Hs.
  { intros e. destruct (decide (h = e)) as [<-|Hn]; look; [|done]. rewrite Hb. by apply sublist_cons. }
  split; [by eapply inv_unbuffered|]. eapply order_shorter; [..|exact Ho]; done.
Qed.
Lemma ordered_flush h buf pend b q back acc rest bad acked sub m l : buf h = m :: l →
  ordered (mk_view h buf pend (Some b) q back acc rest bad acked sub) →
  ordered (mk_view h (<[h := l]> buf) pend (Some b) q back acc (<[b := rest b ++ [m]]> rest) bad acked sub).
Proof.
  intros Hb (op & cs & sy & held & H & Ho). exists op, (cs ++ [m]), sy, (hold h (cs ++ [m]) held).
  pose proof (i_buf _ _ _ _ _ H h) as Hf. cbn in Hf. rewrite Hb in Hf. apply Forall_cons in Hf as [[Hm Hr] _]. split.
  - apply inv_emit; [|done..]. eapply inv_unbuffered; [|exact H]. intros e. destruct (decide (h = e)) as [<-|Hn]; look; [|done]. rewrite Hb. by apply sublist_cons.
  - eapply order_emit; [exact H|done..| |exact Ho]. intros e. destruct (decide (h = e)) as [<-|Hn]; look; [by rewrite Hb|done].
Qed.
Lemma ordered_buffer h buf pend cur q back acc rest bad acked sub m : is_data m → retries m < h →
  ordered (mk_view h buf pend cur (m :: q) back acc rest bad acked sub) →
  ordered (mk_view h (<[retries m := buf (retries m) ++ [m]]> buf) pend cur q back acc rest bad acked sub).
Proof.
  intros Hm Hr (op & cs & sy & held & H & Ho). exists op, cs, sy, held. split.
  - assert (q ++ back `sublist_of` (m :: q) ++ back) as Hs by (by apply sublist_cons). pose proof (inv_shorter _ _ _ _ _ _ _ _ _ _ _ _ _ _ _ _ _ Hs (i_back _ _ _ _ _ H) H) as H'.
    open_inv H'. constructor; plain_view; try done.
    + intros e. destruct (decide (retries m = e)) as [<-|Hn]; look; [|done]. apply Forall_app_2; [done|]. by apply Forall_singleton.
    + intros e He. assert (retries m ≠ e) as Hn by lia. look. auto.
  - unfold in_order in *. cbn [v_acked v_sub] in *. erewrite levels_ext; [exact Ho|]. intros e _. plain_view.
    change ((m :: q) ++ back) with ([m] ++ q ++ back). rewrite (at_level_app e [m]), at_level_one by done.
    destruct (decide (retries m = e)) as [<-|Hn]; look; [|done]. by rewrite <- !app_assoc.
Qed.

(** ** Levels *)

Lemma ordered_lower h buf pend cur q back acc rest bad acked sub : 0 < h → pend h = false → buf h = [] →
  ordered (mk_view h buf pend cur q back acc rest bad acked sub) → ordered (mk_view (h - 1) buf pend cur q back acc rest bad acked sub).
Proof.
  intros Hh Hp Hb (op & cs & sy & held & H & Ho). exists op, cs, sy, held. split; [|eapply order_shorter; [..|exact Ho]; done].
  open_inv H. plain_view.
  assert (∀ l, pend l = true → 1 ≤ l < h) as Hp'. { intros l Hl. specialize (Ipend l Hl). destruct (decide (l = h)) as [->|]; [congruence|lia]. }
  assert (at_level h (q ++ back) = []) as Hup. { apply Iorphan; [lia|]. intros l Hl. apply Hp' in Hl. lia. }
  assert (filter (fun m => is_data m ∧ h - 1 < retries m) (q ++ back) = filter (fun m => is_data m ∧ h < retries m) (q ++ back)) as Ehi.
  { apply filter_same. apply Forall_forall. intros x Hx. split; [|naive_solver lia]. intros [Hd Hr]. split; [done|].
    destruct (decide (retries x = h)) as [E|]; [|lia]. exfalso. by eapply filter_nil_not_elem_of; [exact Hup|split|]. }
  constructor; plain_view; rewrite ?Ehi; try done.
  - lia.
  - intros l Hl. apply Hp' in Hl. lia.
  - intros e He. destruct (decide (h = e)) as [<-|]; [done|]. apply Ibuf_top. lia.
  - intros e He. apply Iorphan. lia.
  - eapply Forall_impl; [exact Ics|]. cbn. intros x [? ?]. split; [done|lia].
  - intros e He. destruct (decide (h = e)) as [<-|]; [|apply Iheld_cur; lia]. rewrite Iheld_none; [|done|].
    + symmetry. apply filter_none. eapply Forall_impl; [exact Ics|]. cbn. intros x [? ?]. lia.
    + intros b l ms E [? _]. destruct (Iop b l ms E) as (Hl & _). apply Hp' in Hl. lia.
  - intros e He Hn. apply Iheld_none; [lia|done].
Qed.
(** The last message of a level *)
Lemma source_fin h buf pend cur q back acc rest bad acked sub l0 l e (v := mk_view h buf pend cur q back acc rest bad acked sub)
    (v' := mk_view h buf (<[l0 := false]> pend) cur q back acc rest bad acked sub) :
  source v' l e → source v l e ∨ source v l0 e ∧ l0 < l.
Proof.
  subst v v'. plain_view. intros [? Hs].
  destruct (decide (e ≤ l0 < l)) as [He|He].
  - right. split; [|lia]. split; [lia|]. intros l' Hl' Hlt. apply Hs; [|lia]. assert (l0 ≠ l') as Hn by lia. by look.
  - left. split; [done|]. intros l' Hl' Hlt. destruct (decide (l0 = l')) as [<-|Hn]; [lia|]. apply Hs; [by look|done].
Qed.
Lemma source_weaken h buf pend cur q back acc rest bad acked sub l0 l e (v := mk_view h buf pend cur q back acc rest bad acked sub)
    (v' := mk_view h buf (<[l0 := false]> pend) cur q back acc rest bad acked sub) :
  source v l e → source v' l e.
Proof.
  subst v v'. plain_view. intros [? Hs]. split; [done|]. intros l' Hl'. apply Hs. destruct (decide (l0 = l')) as [<-|Hn]; by look.
Qed.
Lemma ordered_fin h buf pend cur q back acc rest bad acked sub m : is_fin m → retries m ≤ h →
  ordered (mk_view h buf pend cur (m :: q) back acc rest bad acked sub) →
  ordered (mk_view h buf (<[retries m := false]> pend) cur q back acc rest bad acked sub).
Proof.
  intros Hm Hr (op & cs & sy & held & H & Ho). exists op, cs, sy, held.
  assert (q ++ back `sublist_of` (m :: q) ++ back) as Hsub by (by apply sublist_cons).
  split; [|eapply order_shorter; [..|exact Ho]; done].
  pose proof (inv_shorter _ _ _ _ _ _ _ _ _ _ _ _ _ _ _ _ _ Hsub (i_back _ _ _ _ _ H) H) as H'.
  pose proof (fins_elem _ _ _ _ _ m H ltac:(left) Hm) as [Hp Hin]. cbn in Hp.
  pose proof (i_fins _ _ _ _ _ H) as Hnd. unfold up, fins in Hnd. cbn [v_q v_back app] in Hnd. rewrite filter_cons_True, fmap_cons in Hnd by done.
  apply NoDup_cons in Hnd as [Hni _]. fold (fins (q ++ back)) in Hni.
  assert (∀ x, x ∈ q ++ back → is_data x → ¬ source (mk_view h buf pend cur q back acc rest bad acked sub) (retries m) (retries x)) as Hlast.
  { intros x Hx Hd. apply (i_after _ _ _ _ _ H m x); [|done..]. apply sublist_skip. by apply singleton_sublist_l. }
  assert (∀ b l ms, op b = Some (l, ms) → l ≠ retries m) as Hop.
  { intros b l ms E ->. by destruct (i_op _ _ _ _ _ H _ _ _ E) as (_ & ? & _). }
  pose proof (fun l l' e => source_unique _ _ _ _ _ l l' e H') as Hu. pose proof (fun f => fins_elem _ _ _ _ _ f H') as Hfe. clear H Ho.
  set (v := mk_view h buf pend cur q back acc rest bad acked sub) in *.
  pose proof (fun l e => source_fin h buf pend cur q back acc rest bad acked sub (retries m) l e) as Hsrc. fold v in Hsrc.
  pose proof (fun l e => source_weaken h buf pend cur q back acc rest bad acked sub (retries m) l e) as Hweak. fold v in Hweak.
  open_inv H'. constructor; try done; unfold v in Ipend, Ibuf, Iup, Iorphan, Iop; unfold up; cbn [v_h v_buf v_pend v_cur v_q v_back v_acc v_rest v_bad v_acked v_sub].
  - intros l Hl. destruct (decide (retries m = l)) as [<-|Hn]; look; [done|auto].
  - rewrite Forall_forall in *. intros x Hx. destruct (Iup x Hx) as [?|[Hf Hpx]]; [by left|]. right. split; [done|].
    assert (retries m ≠ retries x) as Hn; [|by look]. intros E. apply Hni. rewrite E. by apply Hfe.
  - intros f x Hp' Hf Hx [Hs|[Hs _]]%Hsrc; [by eapply Iafter|]. eapply Hlast; [|exact Hx|exact Hs]. eapply elem_of_sublist; [|exact Hp']. right; left.
  - intros e He Hl. destruct (decide (retries m < e)) as [Hlt|Hge].
    + apply Iorphan; [done|]. cbn. intros l Hpl. destruct (decide (retries m = l)) as [<-|Hn]; [done|]. apply Hl. by look.
    + apply filter_none, Forall_forall. intros x Hx [Hd <-]. eapply Hlast; [done..|]. split; [lia|]. cbn. intros l Hpl Hlt. apply Hl.
      assert (retries m ≠ l) as Hn by lia. by look.
  - intros b l ms E. destruct (Iop b l ms E) as (? & ? & ? & ? & Hf). assert (retries m ≠ l) as Hn by (symmetry; by eapply Hop). look.
    split_and!; try done. eapply Forall_impl; [exact Hf|]. cbn. intros x [? Hs]. split; [done|]. by apply Hweak.
  - intros b l ms e E [Hs|[Hs Hlt]]%Hsrc; [by eapply Iheld_op|]. destruct (Iop b l ms E) as (Hpl & _ & _ & _ & Hf). rewrite Iheld_none.
    + symmetry. apply filter_none. eapply Forall_impl; [exact Hf|]. cbn. intros x [_ Hs'] <-. specialize (Hu _ _ _ Hpl Hp Hs' Hs). lia.
    + destruct Hs. cbn. lia.
    + intros b' l' ms' E' Hs'. destruct (Iop b' l' ms' E') as (Hpl' & _). eapply Hop; [exact E'|]. by eapply Hu.
  - intros e He Hn. apply Iheld_none; [done|]. intros b l ms E Hs. eapply Hn; [exact E|]. by apply Hweak.
Qed.
(** A message has come back: the level rises, and the broker producer in use is left. *)
Lemma ordered_raise h buf pend b q back acc rest bad acked sub m : h < retries m →
  ordered (mk_view h buf pend (Some b) (m :: q) back acc rest bad acked sub) →
  ordered (mk_view (retries m) buf (<[retries m := true]> pend) None (m :: q) back acc
    (<[b := rest b ++ [control t n fin (retries m - 1)]]> rest) bad acked sub).
Proof.
  intros Hr (op & cs & sy & held & H & Ho). pose proof (fun f => fins_elem _ _ _ _ _ f H) as Hfe. open_inv H. plain_view.
  assert (is_data m ∧ retries m ≤ Max) as [Hm Hmax].
  { pose proof Iup as Hu. cbn in Hu. apply Forall_cons in Hu as [[[? ?]|[? Hp]] _]; [split; [done|lia]|]. apply Ipend in Hp. lia. }
  cbn [app] in Ihigh, Ihigh_cur. rewrite filter_cons_True in Ihigh, Ihigh_cur by done. destruct Ihigh_cur as (b' & [= <-] & -> & Hbad); [done|].
  assert (op b = None) as Hb. { destruct (op b) as [[l ms]|] eqn:E; [|done]. destruct (Iop b l ms E) as (_ & _ & _ & Hc & _). by specialize (Hc eq_refl). }
  assert (rest b = cs) as Hrest. { specialize (Icontent b). rewrite Hb, decide_True in Icontent by done. by rewrite (Ibad b Hbad) in Icontent. }
  rewrite fmap_cons in Ihigh. cbn [app] in Ihigh. apply StronglySorted_cons in Ihigh as [Htop _]. rewrite Forall_app, !Forall_fmap in Htop. destruct Htop as [Htop Hcs].
  assert (Forall (fun m' => h < retries m' + 1 ≤ retries m) cs) as Hcs'.
  { rewrite Forall_forall in *. intros x Hx. specialize (Hcs x Hx). specialize (Ics x Hx). cbn in *. lia. }
  assert (∀ f, f ∈ fins (m :: q ++ back) → f ≤ h) as Hfins.
  { intros f (x & -> & [Hf Hx]%list_elem_of_filter)%list_elem_of_fmap. destruct (Hfe x Hx Hf) as [Hp _]. apply Ipend in Hp. lia. }
  assert (∀ e, h < e → e ≤ retries m → source (mk_view (retries m) buf (<[retries m := true]> pend) None (m :: q) back acc rest bad acked sub) (retries m) e) as Hsrc.
  { intros e H1 H2. split; [lia|]. cbn. intros l Hl Hlt. assert (retries m ≠ l) as Hn by lia. look. apply Ipend in Hl. lia. }
  assert (∀ l e, l ≤ h → source (mk_view (retries m) buf (<[retries m := true]> pend) None (m :: q) back acc rest bad acked sub) l e ↔
     source (mk_view h buf pend (Some b) (m :: q) back acc rest bad acked sub) l e) as Hsame.
  { intros l e Hl. unfold source. cbn. split; (intros [? Hs]; split; [done|]; intros l' Hp Hlt; apply Hs; [|done]; assert (retries m ≠ l') as Hn by lia; by look). }
  unfold source in Hsrc, Hsame; cbn [v_pend] in Hsrc, Hsame.
  assert (high (mk_view (retries m) buf (<[retries m := true]> pend) None (m :: q) back acc rest bad acked sub) = []) as Hhi.
  { apply filter_none, Forall_forall. intros x Hx [Hd Hlt]. apply elem_of_cons in Hx as [->|Hx]; [cbn in Hlt; lia|]. rewrite Forall_forall in Htop.
    cbn in Hlt. specialize (Htop x). cbn in Htop. cut (retries m >= retries x); [lia|]. apply Htop, list_elem_of_filter. split; [|done]. split; [done|lia]. }
  exists (<[b := Some (retries m, cs)]> op), [], true, held. split; [constructor|]; plain_view; rewrite ?Hhi; cbn [app] in *; try done.
  - lia.
  - intros l Hl. destruct (decide (retries m = l)) as [<-|Hn]; look; [lia|]. apply Ipend in Hl. lia.
  - intros e He. apply Ibuf_top. lia.
  - eapply Forall_impl; [exact Iup|]. cbn. intros x [?|[? Hp]]; [by left|]. right. split; [done|]. destruct (decide (retries m = retries x)) as [<-|Hn]; by look.
  - intros f x Hp Hf Hx. rewrite Hsame; [by apply Iafter|]. apply Hfins. apply Hfe; [|done]. eapply elem_of_sublist; [|exact Hp]. by left.
  - intros e He Hl. specialize (Hl (retries m)). look. lia.
  - intros b' l ms E. destruct (decide (b = b')) as [<-|Hn]; look.
    + injection E as <- <-. look. split_and!; try done. { intros Hin. apply Hfins in Hin. lia. }
      rewrite Forall_forall in *. intros x Hx. split; [by apply Ics|]. specialize (Hcs' x Hx). apply Hsrc; cbn in *; lia.
    + destruct (Iop b' l ms E) as (Hl & ? & ? & _ & Hf). specialize (Ipend l Hl). split_and!; try done.
      * assert (retries m ≠ l) as Hn' by lia. by look.
      * eapply Forall_impl; [exact Hf|]. cbn. intros x [? ?]. rewrite Hsame by lia. done.
  - assert (∀ b' l ms, op b' = Some (l, ms) → l ≠ retries m) as Hl. { intros b' l ms E ->. destruct (Iop _ _ _ E) as (Hp & _). apply Ipend in Hp. lia. }
    intros b1 b2 l ms1 ms2 E1 E2. destruct (decide (b = b1)) as [<-|Hn1], (decide (b = b2)) as [<-|Hn2]; look; simplify_eq; eauto; by edestruct Hl.
  - constructor.
  - intros b'. specialize (Icontent b'). rewrite decide_False, app_nil_r by done. destruct (decide (b = b')) as [<-|Hn]; look.
    + rewrite (Ibad b Hbad), Hrest. done.
    + rewrite Icontent, decide_False, app_nil_r by naive_solver. done.
  - intros e He. rewrite Iheld_cur by lia. apply filter_none. eapply Forall_impl; [exact Hcs'|]. cbn. lia.
  - intros b' l ms e E He. destruct (decide (b = b')) as [<-|Hn]; look.
    + injection E as <- <-. destruct (decide (h < e)) as [Hlt|Hge]; [auto|]. rewrite Iheld_none; [|lia|].
      * symmetry. apply filter_none. eapply Forall_impl; [exact Hcs'|]. cbn. lia.
      * intros b' l ms E [H1 _]. destruct (Iop b' l ms E) as (Hl & _). specialize (Ipend l Hl). destruct He as [_ He].
        assert (retries m ≠ l) as Hn by lia. specialize (He l). look. specialize (He Hl). lia.
    + destruct (Iop b' l ms E) as (Hl & _). specialize (Ipend l Hl). eapply Iheld_op; [exact E|]. by rewrite <- Hsame by lia.
  - intros e He Hno. destruct (decide (h < e)) as [Hlt|Hge].
    + edestruct (Hno b); [by look|]. by apply Hsrc.
    + apply Iheld_none; [lia|]. intros b' l ms E Hs. destruct (Iop b' l ms E) as (Hl & _). specialize (Ipend l Hl).
      assert (b ≠ b') as Hn by congruence. eapply (Hno b'); [by look|]. by rewrite Hsame by lia.
  - eapply order_shorter; [..|exact Ho]; done.
Qed.

(** No move breaks the order. *)
Lemma move_ordered v v' : move v v' → ordered v → ordered v'.
Proof.
  destruct 1; eauto using ordered_new, ordered_up, ordered_lose, ordered_raise, ordered_lead, ordered_send, ordered_discard, ordered_buffer, ordered_fin,
    ordered_lower, ordered_flush, ordered_unbuffer, ordered_accept, ordered_reject, ordered_bounce, ordered_bounce_fin, ordered_syn, ordered_break.
  - intros Hv. by apply (ordered_take _ _ _ _ _ _ _ _ _ _ _ b l l' true).
  - intros Hv. apply (ordered_take _ _ _ _ _ _ _ _ _ _ _ b l l' false) in Hv; [|done]. by rewrite app_nil_r in Hv.
Qed.
Lemma moves_ordered v v' : rtc move v v' → ordered v → ordered v'.
Proof. induction 1; eauto using move_ordered. Qed.

(** Views that are equal pointwise *)
Lemma ordered_ext h buf pend cur q back acc rest bad acked sub buf' pend' acc' rest' bad' :
  (∀ e, buf' e = buf e) → (∀ e, pend' e = pend e) → (∀ b, acc' b = acc b) → (∀ b, rest' b = rest b) → (∀ b, bad' b = bad b) →
  ordered (mk_view h buf pend cur q back acc rest bad acked sub) → ordered (mk_view h buf' pend' cur q back acc' rest' bad' acked sub).
Proof.
  intros Eb Ep Ea Er Ed (op & cs & sy & held & H & Ho). exists op, cs, sy, held.
  split; [|unfold in_order in *; cbn [v_acked v_sub] in *; erewrite levels_ext; [exact Ho|]; intros e _; plain_view; by rewrite Eb].
  assert (∀ l e, source (mk_view h buf' pend' cur q back acc' rest' bad' acked sub) l e ↔ source (mk_view h buf pend cur q back acc rest bad acked sub) l e) as Hs.
  { intros l e. unfold source. cbn. by setoid_rewrite Ep. }
  open_inv H. constructor; unfold high, cur_part, up in *; cbn [v_h v_buf v_pend v_cur v_q v_back v_acc v_rest v_bad v_acked v_sub] in *; try done.
  all: repeat setoid_rewrite Hs; repeat setoid_rewrite Eb; repeat setoid_rewrite Ep; repeat setoid_rewrite Ea; repeat setoid_rewrite Er; repeat setoid_rewrite Ed; done.
Qed.

(** ** Several moves at once *)

Definition again (l : list ProducerMessage) : list ProducerMessage := retried <$> filter (fun m => retries m < Max) l.
Lemma ordered_bounces h buf pend cur q back acc rest bad acked sub b l k rest' : bad b = true → rest b = l ++ k → Forall (fun m => is_data m) l →
  (∀ b', rest' b' = if decide (b = b') then k else rest b') →
  ordered (mk_view h buf pend cur q back acc rest bad acked sub) → ordered (mk_view h buf pend cur q (back ++ again l) acc rest' bad acked sub).
Proof.
  intros Hb. revert back rest. induction l as [|m l IH]; intros back rest Hr Hl Hr' H.
  - cbn. rewrite app_nil_r. eapply ordered_ext; [..|exact H]; try done. intros b'. rewrite Hr'. destruct (decide _) as [<-|]; by rewrite ?Hr.
  - apply Forall_cons in Hl as [Hm Hl]. unfold again. rewrite filter_cons. assert (∀ b', rest' b' = if decide (b = b') then k else (<[b := l ++ k]> rest) b') as Hr''.
    { intros b'. rewrite Hr'. destruct (decide _) as [<-|Hn]; look; done. }
    destruct (decide _) as [Hlt|Hge].
    + rewrite fmap_cons, cons_middle, app_assoc. eapply IH; [|done|exact Hr''|eapply ordered_bounce; eauto]. by look.
    + eapply IH; [|done|exact Hr''|eapply ordered_reject; [exact Hr|by rewrite Hm|done]]. by look.
Qed.
(** A broker producer sends back what it has taken. *)
Lemma ordered_return h buf pend cur q back acc rest bad acked sub b acc' bad' :
  (∀ b', acc' b' = if decide (b = b') then [] else acc b') → (∀ b', bad' b' = if decide (b = b') then true else bad b') →
  ordered (mk_view h buf pend cur q back acc rest bad acked sub) → ordered (mk_view h buf pend cur q (back ++ again (acc b)) acc' rest bad' acked sub).
Proof.
  intros Ha Hb H. assert (Forall (fun m => is_data m) (acc b)) as Hd. { destruct H as (op & cs & sy & held & H & _). apply (i_acc _ _ _ _ _ H). }
  apply (ordered_break _ _ _ _ _ _ _ _ _ _ _ b) in H.
  eapply (ordered_bounces _ _ _ _ _ _ _ _ _ _ _ b (acc b) (rest b)) with (rest' := rest) in H; look; try done.
  - eapply ordered_ext; [..|exact H]; try done; intros b'; rewrite ?Ha, ?Hb; destruct (decide (b = b')) as [<-|Hn]; by look.
  - intros b'. destruct (decide _) as [<-|Hn]; by look.
Qed.
(** What can be met in front of the partition producer and of a broker producer *)
Lemma ordered_queue h buf pend cur q back acc rest bad acked sub m :
  ordered (mk_view h buf pend cur (m :: q) back acc rest bad acked sub) → is_data m ∧ 0 ≤ retries m ≤ Max ∨ is_fin m ∧ 1 ≤ retries m ≤ h.
Proof.
  intros (op & cs & sy & held & H & _). open_inv H. cbn in Iup. apply Forall_cons in Iup as [[?|[? Hp]] _]; [by left|]. right. split; [done|]. by apply Ipend.
Qed.
Lemma ordered_front h buf pend cur q back acc rest bad acked sub b m l : rest b = m :: l →
  ordered (mk_view h buf pend cur q back acc rest bad acked sub) →
  pm_flags m = syn ∨ is_fin m ∧ bad b = true ∧ 0 ≤ retries m < Max ∨ is_data m ∧ 0 ≤ retries m ≤ Max.
Proof.
  intros Hr (op & cs & sy & held & H & _). destruct (decide (pm_flags m = syn)) as [|Hs]; [by left|]. right.
  destruct (front_cases _ _ _ _ _ b m l H Hr Hs) as [(lv & E & ->)|[(lv & ms & E & Hd)|(E & _ & _ & Hcs & Hd)]]; open_inv H; cbn in *.
  - left. destruct (Iop _ _ _ E) as (Hp & _ & Hb & _). apply Ipend in Hp. split_and!; (done || lia).
  - right. split; [done|]. destruct (Iop _ _ _ E) as (Hp & _ & _ & _ & Hf). apply Forall_cons in Hf as [[_ [Hs' _]] _]. apply Ipend in Hp. lia.
  - right. split; [done|]. rewrite Hcs in Ics. apply Forall_app in Ics as [_ Ics]. apply Forall_cons in Ics as [[_ ?] _]. lia.
Qed.
Lemma ordered_back h buf pend cur q back acc rest bad acked sub :
  ordered (mk_view h buf pend cur q back acc rest bad acked sub) → Forall (fun m => 0 < retries m) back.
Proof. intros (op & cs & sy & held & H & _). apply (i_back _ _ _ _ _ H). Qed.
(** What is acknowledged was submitted, in this order. *)
Lemma ordered_acked v : ordered v → v_acked v `sublist_of` v_sub v.
Proof. intros (op & cs & sy & held & _ & Ho). etrans; [|exact Ho]. by apply sublist_inserts_r. Qed.
Lemma ordered_start : 0 ≤ Max →
  ordered (mk_view 0 (fun _ => []) (fun _ => false) None [] [] (fun _ => []) (fun _ => []) (fun _ => false) [] []).
Proof.
  intros HM. exists (fun _ => None), [], true, (fun _ => []). split; [constructor|]; plain_view; try done; try lia.
  - constructor.
  - intros f m Hs%sublist_nil_r. done.
  - constructor.
  - unfold in_order. cbn [v_acked v_sub app]. induction (Z.to_nat (Max + 1)); [done|]. rewrite levels_S. done.
Qed.
End order.
