(* ===== verification/KafkaProducerOrder.v ===== *)
(** * The asynchronous producer keeps the order of a partition

    What the producer holds for one partition is a view of [KafkaRetryOrder], and every event of
    the producer is a sequence of moves of this view: the messages that are acknowledged are those
    that were submitted, in the same order. *)

From stdpp Require Import functions.
From S2P Require Import Prelude GoStrings KafkaRecord KafkaMessage KafkaPartitioner KafkaProtocol KafkaProduce KafkaBroker KafkaConfig KafkaProduceSet KafkaProduceSetProps KafkaProducer KafkaRetryOrder.

Definition key (m : ProducerMessage) : bytes * Z := (Topic m, pm_Partition m).
Definition pp_key (pp : partitionProducer) : bytes * Z := (pp_topic pp, pp_partition pp).
(** A level of a partition producer; there are none out of range. *)
Definition level_at (pp : partitionProducer) (e : Z) : option partitionRetryState :=
  if decide (0 ≤ e) then retryState pp !! Z.to_nat e else None.
Definition buf_at (pp : partitionProducer) (e : Z) : list ProducerMessage := default [] (rs_buf <$> level_at pp e).
Definition pend_at (pp : partitionProducer) (e : Z) : bool := default false (expectChaser <$> level_at pp e).
Definition waiting (bp : brokerProducer) : list ProducerMessage := match bp_run bp with Waiting m => [m] | _ => [] end.

(** ** What the functions do to the producer *)

Section effects.
Context (conf : Config).
Abbreviation Max := (Retry_Max (Producer conf)).

(** Messages are given to the retry handler and reported, the channels are as before. *)
Record adds (R S : list ProducerMessage) (p p' : asyncProducer) : Prop := mk_adds {
  a_retries : p_retries p' = p_retries p ++ R; a_successes : p_successes p' = p_successes p ++ S;
  a_bps : p_bps p' = p_bps p; a_inputs b : fst <$> p_inputs p' !! b = fst <$> p_inputs p !! b; a_abandoned : p_abandoned p' = p_abandoned p;
  a_batches : p_batches p' = p_batches p; a_resends : p_resends p' = p_resends p }.
Lemma adds_refl p : adds [] [] p p.
Proof. by constructor; rewrite ?app_nil_r. Qed.
Lemma adds_trans R R' S S' p p' p'' : adds R S p p' → adds R' S' p' p'' → adds (R ++ R') (S ++ S') p p''.
Proof. intros [] []. constructor; rewrite ?app_assoc; congruence. Qed.

Lemma inFlight_adds k p : wlp (inFlight_Add k p) (adds [] [] p).
Proof. unfold inFlight_Add. wlp_start; [done|]. by constructor; cbn; rewrite ?app_nil_r. Qed.
Lemma returnError_adds m e p : wlp (returnError m e p) (adds [] [] p).
Proof. unfold returnError. eapply wlp_mono; [apply inFlight_adds|]. intros p' []. by constructor. Qed.
Lemma retryMessage_adds m e p : wlp (retryMessage conf m e p) (adds (again Max [m]) [] p).
Proof.
  unfold retryMessage, again. rewrite filter_cons, filter_nil. destruct (Z.leb_spec Max (retries m)) as [Hm|Hm].
  - rewrite decide_False by lia. apply returnError_adds.
  - rewrite decide_True by lia. by constructor; cbn; rewrite ?app_nil_r.
Qed.
Lemma each_adds {A} (f : A → asyncProducer → Go asyncProducer) R S l p :
  (∀ x p, wlp (f x p) (adds (R x) (S x) p)) → wlp (go_each f l p) (adds (l ≫= R) (l ≫= S) p).
Proof.
  intros H. revert p. induction l as [|x l IH]; intros p; [apply adds_refl|]. cbn [go_each]. apply wlp_bind. eapply wlp_mono; [apply H|]. intros p' H1.
  eapply wlp_mono; [apply IH|]. intros p'' H2. by eapply adds_trans.
Qed.
Lemma bind_nil {A B} (l : list A) : (l ≫= fun _ => []) = @nil B.
Proof. by induction l. Qed.
Lemma returnErrors_adds l e p : wlp (returnErrors l e p) (adds [] [] p).
Proof.
  eapply wlp_mono; [apply (each_adds _ (fun _ => []) (fun _ => []))|]; [intros; apply returnError_adds|]. intros p'. by rewrite !bind_nil.
Qed.
Lemma again_bind l : (l ≫= fun m => again Max [m]) = again Max l.
Proof.
  induction l as [|m l IH]; [done|]. rewrite bind_cons, IH. unfold again. rewrite !filter_cons. by destruct (decide _).
Qed.
Lemma retryMessages_adds l e p : wlp (retryMessages conf l e p) (adds (again Max l) [] p).
Proof.
  eapply wlp_mono; [apply (each_adds _ (fun m => again Max [m]) (fun _ => []))|]; [intros; apply retryMessage_adds|]. intros p'. by rewrite bind_nil, again_bind.
Qed.
Definition told (m : ProducerMessage) : ProducerMessage := if Return_Successes (Producer conf) then clear m else m.
Lemma returnSuccesses_adds l p : wlp (returnSuccesses conf l p) (adds [] (told <$> l) p).
Proof.
  assert ((l ≫= fun m => [told m]) = told <$> l) as E by (induction l as [|m l IH]; [done|]; by rewrite bind_cons, IH).
  eapply wlp_mono; [apply (each_adds _ (fun _ => []) (fun m => [told m]))|].
  - intros m q. unfold returnSuccess. eapply wlp_mono; [apply inFlight_adds|]. intros q' []. constructor; try done. cbn in *. by rewrite a_successes0, app_nil_r.
  - intros p'. by rewrite bind_nil, E.
Qed.
Lemma abandon_adds b p : 0 < Max → wlp (abandonBrokerConnection conf b p) (adds [] [] p).
Proof.
  intros HM. unfold abandonBrokerConnection. replace (Max <=? 0) with false by lia.
  destruct (p_brokers p !! b); cbn; by constructor; cbn; rewrite ?app_nil_r.
Qed.
Lemma unref_adds broker b p : wlp (unrefBrokerProducer broker b p) (adds [] [] p).
Proof.
  unfold unrefBrokerProducer. apply wlp_if; intros _; [by constructor; cbn; rewrite ?app_nil_r|]. apply wlp_bind. unfold close_input. cbn.
  destruct (p_inputs p !! b) as [[q []]|] eqn:E; [done| |done]. constructor; cbn; rewrite ?app_nil_r; try done.
  intros b'. destruct (decide (b = b')) as [<-|Hn]; [by rewrite lookup_insert_eq, E|by rewrite lookup_insert_ne].
Qed.
End effects.
Ltac add_tac := lazymatch goal with
  | |- wlp (inFlight_Add _ _) _ => apply inFlight_adds
  | |- wlp (returnError _ _ _) _ => apply returnError_adds
  | |- wlp (returnErrors _ _ _) _ => apply returnErrors_adds
  | |- wlp (retryMessage _ _ _ _) _ => apply retryMessage_adds
  | |- wlp (retryMessages _ _ _ _) _ => apply retryMessages_adds
  | |- wlp (returnSuccesses _ _ _) _ => apply returnSuccesses_adds
  | |- wlp (unrefBrokerProducer _ _ _) _ => apply unref_adds
  | |- wlp (abandonBrokerConnection _ _ _) _ => by apply abandon_adds
  end.

(** ** The view *)

Section view.
Context (conf : Config) (producerID producerEpoch : Z) (t : bytes) (n : Z).
Abbreviation Max := (Retry_Max (Producer conf)).
Context (Hmax : 0 < Max) (Hidem : Idempotent (Producer conf) = false).
Abbreviation ordered := (ordered Max t n).
Abbreviation again := (again Max).

Definition mine : list ProducerMessage → list ProducerMessage := filter (fun m => key m = (t, n)).
Definition coming : list ProducerMessage → list ProducerMessage := filter (fun m => key m = (t, n) ∧ retries m ≠ 0).
Definition taken (bp : brokerProducer) : list ProducerMessage :=
  default [] ((fun f => partition_msgs f t n) <$> bp_flight bp) ++ partition_msgs (bp_buffer bp) t n.
Definition refuses (bp : brokerProducer) : bool :=
  match needsRetry bp (control t n 0 0) with Some _ => true | None => false end.
Definition acc_of (p : asyncProducer) (b : nat) : list ProducerMessage := default [] (taken <$> p_bps p !! b).
Definition rest_of (p : asyncProducer) (b : nat) : list ProducerMessage :=
  mine (default [] (waiting <$> p_bps p !! b) ++ default [] (fst <$> p_inputs p !! b)).
Definition bad_of (p : asyncProducer) (b : nat) : bool := default false (refuses <$> p_bps p !! b).
Definition view_of (pp : partitionProducer) (q front sub : list ProducerMessage) (p : asyncProducer) : view :=
  mk_view (highWatermark pp) (buf_at pp) (pend_at pp) (pp_bp pp) q (front ++ mine (p_retries p)) (acc_of p) (rest_of p) (bad_of p)
    (ident <$> mine (p_successes p)) sub.

(** What holds of every broker producer, whatever the order of the messages *)
Definition bp_ok (bp : brokerProducer) : Prop :=
  produce_set_ok conf (bp_buffer bp) ∧ (∀ f, bp_flight bp = Some f → produce_set_ok conf f) ∧
  ∀ m, bp_run bp = Waiting m → needsRetry bp m = None ∧ has syn m = false.
Record p_ok (p : asyncProducer) : Prop := mk_p_ok {
  po_abandoned : p_abandoned p = ∅; po_batches : p_batches p = []; po_resends : p_resends p = [];
  po_dom b : p_inputs p !! b = None → p_bps p !! b = None; po_bps b bp : p_bps p !! b = Some bp → bp_ok bp }.

Lemma adds_ok R S p p' : adds R S p p' → p_ok p → p_ok p'.
Proof.
  intros [] []. constructor; try congruence.
  - intros b Hb. specialize (a_inputs0 b). rewrite Hb in a_inputs0. rewrite a_bps0. apply po_dom0. by destruct (p_inputs p !! b).
  - intros b bp. rewrite a_bps0. apply po_bps0.
Qed.
(** The view after messages of this partition have been handed over *)
Lemma view_adds pp q front sub R S p p' : adds R S p p' →
  ordered (mk_view (highWatermark pp) (buf_at pp) (pend_at pp) (pp_bp pp) q ((front ++ mine (p_retries p)) ++ mine R) (acc_of p) (rest_of p) (bad_of p)
    ((ident <$> mine (p_successes p)) ++ (ident <$> mine S)) sub) → ordered (view_of pp q front sub p').
Proof.
  intros []. unfold view_of, mine. rewrite a_retries0, a_successes0, !filter_app, fmap_app, <- app_assoc. apply ordered_ext; try done; intros b.
  - unfold acc_of. by rewrite a_bps0.
  - unfold rest_of. by rewrite a_bps0, a_inputs0.
  - unfold bad_of. by rewrite a_bps0.
Qed.
Lemma view_adds_nil pp q front sub R S p p' : adds R S p p' → mine R = [] → mine S = [] →
  ordered (view_of pp q front sub p) → ordered (view_of pp q front sub p').
Proof. intros Ha HR HS H. eapply view_adds; [exact Ha|]. rewrite HR, HS. cbn. by rewrite !app_nil_r. Qed.

(** ** Partition producers *)

(** One level of the partition producer is changed. *)
Lemma on_level_spec k f pp : wlp (on_level k f pp) (fun pp' => ∃ s, level_at pp k = Some s ∧
  (∀ e, level_at pp' e = if decide (k = e) then Some (f s) else level_at pp e) ∧
  pp_key pp' = pp_key pp ∧ highWatermark pp' = highWatermark pp ∧ pp_bp pp' = pp_bp pp ∧ pp_leader pp' = pp_leader pp).
Proof.
  unfold on_level, go_index, go_set. destruct (_ && _) eqn:E; [|done]. destruct (retryState pp !! Z.to_nat k) as [s|] eqn:Es; [|done]. cbn [gbind wlp].
  apply andb_true_iff in E as [Hk _]. apply Z.leb_le in Hk. exists s. unfold level_at. cbn [retryState set_hwm]. rewrite decide_True by done.
  split_and!; try done. intros e. destruct (decide (0 ≤ e)) as [He|He]; [|by rewrite decide_False by lia].
  destruct (decide (k = e)) as [<-|Hn]; [|rewrite list_lookup_insert_ne by lia; done]. rewrite list_lookup_insert_eq; [done|]. by eapply lookup_lt_Some.
Qed.
(** What holds of every partition producer between two messages, and while a level is flushed *)
Definition buffers_ok (pp : partitionProducer) : Prop :=
  (∀ e, Forall (fun m => key m = pp_key pp) (buf_at pp e)) ∧ ∀ e, highWatermark pp < e → buf_at pp e = [].
Definition pp_ok (pp : partitionProducer) : Prop := buffers_ok pp ∧ buf_at pp (highWatermark pp) = [].

Section own.
(** The partition the view is of, when another one runs; the messages that are on their way to a
    partition, and the submitted ones *)
Context (PP : partitionProducer) (Q front sub : list ProducerMessage).
Definition own_at (k : bytes * Z) (h : Z) (buf : Z → list ProducerMessage) (pend : Z → bool) (cur : option nat) (q : list ProducerMessage) (p : asyncProducer) : Prop :=
  p_ok p ∧ if decide (k = (t, n))
           then ordered (mk_view h buf pend cur q (front ++ mine (p_retries p)) (acc_of p) (rest_of p) (bad_of p) (ident <$> mine (p_successes p)) sub)
           else ordered (view_of PP Q front sub p).
Definition own (pp : partitionProducer) : list ProducerMessage → asyncProducer → Prop :=
  own_at (pp_key pp) (highWatermark pp) (buf_at pp) (pend_at pp) (pp_bp pp).

Lemma own_adds k h buf pend cur q p p' : adds [] [] p p' → own_at k h buf pend cur q p → own_at k h buf pend cur q p'.
Proof.
  intros Ha [Hp H]. split; [by eapply adds_ok|]. destruct (decide _) as [Hk|Hk]; [|by eapply view_adds_nil].
  destruct Ha. unfold mine in *. rewrite a_retries0, a_successes0, !app_nil_r. eapply ordered_ext; [..|exact H]; try done; intros b.
  - unfold acc_of. by rewrite a_bps0.
  - unfold rest_of. by rewrite a_bps0, a_inputs0.
  - unfold bad_of. by rewrite a_bps0.
Qed.
(** A move of this partition that the other components do not see *)
Lemma own_move k h buf pend cur q p h' buf' pend' cur' q' :
  (k = (t, n) → ∀ back acc rest bad acked, ordered (mk_view h buf pend cur q back acc rest bad acked sub) → ordered (mk_view h' buf' pend' cur' q' back acc rest bad acked sub)) →
  own_at k h buf pend cur q p → own_at k h' buf' pend' cur' q' p.
Proof. intros Hm [Hp H]. split; [done|]. destruct (decide _); auto. Qed.
Lemma own_ext k h buf pend cur q p buf' pend' : (∀ e, buf' e = buf e) → (∀ e, pend' e = pend e) → own_at k h buf pend cur q p → own_at k h buf' pend' cur q p.
Proof. intros E1 E2. apply own_move. intros. eapply ordered_ext; [..|done]; done. Qed.

Lemma rest_push b b' m q c p : p_inputs p !! b = Some (q, c) →
  rest_of (set_inputs (<[b := (q ++ [m], c)]> (p_inputs p)) p) b' = (<[b := rest_of p b ++ mine [m]]> (rest_of p)) b'.
Proof.
  intros E. destruct (decide (b = b')) as [<-|Hn].
  - rewrite fn_lookup_insert. unfold rest_of. cbn [p_inputs p_bps set_inputs]. rewrite lookup_insert_eq, E. cbn [fst fmap option_fmap option_map default from_option id].
    unfold mine. by rewrite app_assoc, filter_app.
  - rewrite fn_lookup_insert_ne by done. unfold rest_of. cbn [p_inputs p_bps set_inputs]. by rewrite lookup_insert_ne.
Qed.
Lemma mine_own m : key m = (t, n) → mine [m] = [m].
Proof. intros. unfold mine. by rewrite filter_cons_True. Qed.
Lemma mine_other m : key m ≠ (t, n) → mine [m] = [].
Proof. intros. unfold mine. by rewrite filter_cons_False. Qed.
Lemma inputs_ok b q q' c p : p_inputs p !! b = Some (q, c) → p_ok p → p_ok (set_inputs (<[b := (q', c)]> (p_inputs p)) p).
Proof.
  intros E []. constructor; cbn; try done. intros b' Hb'. apply po_dom0. destruct (decide (b = b')) as [<-|Hn]; [by rewrite lookup_insert_eq in Hb'|].
  by rewrite lookup_insert_ne in Hb'.
Qed.
(** A message to a broker producer: the rest of its queue in the view *)
Lemma own_push k h buf pend cur q p h' buf' pend' cur' q' b m : key m = k →
  (k = (t, n) → ∀ back acc rest bad acked, ordered (mk_view h buf pend cur q back acc rest bad acked sub) →
   ordered (mk_view h' buf' pend' cur' q' back acc (<[b := rest b ++ [m]]> rest) bad acked sub)) →
  own_at k h buf pend cur q p → wlp (send_input b m p) (own_at k h' buf' pend' cur' q').
Proof.
  intros Hk Hm [Hp H]. unfold send_input. destruct (p_inputs p !! b) as [[l []]|] eqn:E; [done| |done]. split; [by apply (inputs_ok b l)|].
  destruct (decide _) as [Hk'|Hk'].
  - eapply ordered_ext; [..|exact (Hm Hk' _ _ _ _ _ H)]; try done. intros b'. rewrite (rest_push b b' m l false p E). rewrite mine_own by congruence. done.
  - eapply ordered_ext; [..|exact H]; try done. intros b'. rewrite (rest_push b b' m l false p E). rewrite mine_other by congruence. rewrite app_nil_r.
    destruct (decide (b = b')) as [<-|Hn]; [by rewrite fn_lookup_insert|by rewrite fn_lookup_insert_ne].
Qed.
(** The reference to a broker producer: a new one is empty. *)
Lemma own_get broker k h buf pend cur q p : own_at k h buf pend cur q p → own_at k h buf pend cur q (getBrokerProducer broker p).2.
Proof.
  intros H. unfold getBrokerProducer. destruct (p_brokers p !! broker) as [b|]; cbn [snd].
  { eapply own_adds; [|exact H]. by constructor; cbn; rewrite ?app_nil_r. }
  set (b := new_number p). assert (p_inputs p !! b = None) as Hb. { apply (not_elem_of_dom (D := gset nat)). exact (is_fresh (dom (p_inputs p))). }
  destruct H as [Hp H]. pose proof (po_dom p Hp b Hb) as Hb'. set (p' := add_ref _ _ _).
  assert (∀ b', acc_of p' b' = acc_of p b' ∧ rest_of p' b' = rest_of p b' ∧ bad_of p' b' = bad_of p b') as Hv.
  { intros b'. unfold acc_of, rest_of, bad_of. cbn [p' add_ref p_bps p_inputs set_brokers set_bps set_inputs]. destruct (decide (b = b')) as [<-|Hn].
    - by rewrite !lookup_insert_eq, Hb, Hb'.
    - by rewrite !lookup_insert_ne. }
  split.
  - destruct Hp. constructor; cbn; try done; intros b'.
    + destruct (decide (b = b')) as [<-|Hn]; [by rewrite lookup_insert_eq|]. rewrite !lookup_insert_ne by done. auto.
    + intros bp. destruct (decide (b = b')) as [<-|Hn]; [|rewrite lookup_insert_ne by done; eauto]. rewrite lookup_insert_eq. intros [= <-].
      split_and!; [apply new_ok|done..].
  - destruct (decide _); (eapply ordered_ext; [..|exact H]; try done; intros b'; apply (Hv b')).
Qed.

(** *** Leaders *)

(** What the choice of a leader leaves alone *)
Definition same_levels (pp pp' : partitionProducer) : Prop :=
  pp_key pp' = pp_key pp ∧ highWatermark pp' = highWatermark pp ∧ retryState pp' = retryState pp.
Lemma own_select broker pp q p : pp_bp pp = None → own pp q p →
  wlp (select_leader broker pp p) (fun r => own r.1 q r.2 ∧ same_levels pp r.1 ∧ is_Some (pp_bp r.1)).
Proof.
  intros Hb H. unfold select_leader. apply (own_get broker) in H. destruct (getBrokerProducer broker p) as [b p1]. cbn [snd] in H.
  apply wlp_bind. eapply wlp_mono; [add_tac|]. intros p2 Ha. eapply own_adds in H; [|exact Ha]. apply wlp_bind.
  eapply wlp_mono; [eapply (own_push _ _ _ _ _ _ _ _ _ _ (Some b)); [| |exact H]; [done|]|].
  - rewrite Hb. intros [= -> ->]. intros. by apply ordered_lead.
  - intros p3 H3. cbn [fst snd wlp]. split_and!; try done.
Qed.
(** The leader is looked up when there is no broker producer. *)
Definition with_leader (lead : Z → leader_result) (pp : partitionProducer) (p : asyncProducer) : Go (bool * partitionProducer * asyncProducer) :=
  match pp_bp pp with
  | Some _ => Ret (true, pp, p)
  | None => updateLeader (lead (highWatermark pp)) pp p
  end.
Lemma own_leader lead pp q p : own pp q p →
  wlp (with_leader lead pp p) (fun r => own r.1.2 q r.2 ∧ same_levels pp r.1.2 ∧ (r.1.1 = true → is_Some (pp_bp r.1.2))).
Proof.
  intros H. unfold with_leader. destruct (pp_bp pp) as [b|] eqn:Hb; [by cbn; eauto|]. unfold updateLeader. destruct (lead _) as [| |broker]; cbn [wlp fst snd].
  - done.
  - done.
  - apply wlp_bind. eapply wlp_mono; [by apply own_select|]. intros [pp' p'] (? & ? & ?). cbn. eauto.
Qed.

(** *** Messages *)

Lemma fin_flags m : has fin m = false → ¬ is_fin m.
Proof. unfold has. intros H E. by rewrite E in H. Qed.
Lemma same_own pp pp' q p : same_levels pp pp' →
  own pp' q p ↔ own_at (pp_key pp) (highWatermark pp) (buf_at pp) (pend_at pp) (pp_bp pp') q p.
Proof.
  intros (E1 & E2 & E3). unfold own. rewrite E1, E2. assert (∀ e, level_at pp' e = level_at pp e) as E by (intros e; unfold level_at; by rewrite E3).
  split; apply own_ext; intros e; unfold buf_at, pend_at; by rewrite E.
Qed.
Lemma same_ok pp pp' : same_levels pp pp' → pp_ok pp → pp_ok pp'.
Proof.
  intros (E1 & E2 & E3). assert (∀ e, level_at pp' e = level_at pp e) as E by (intros e; unfold level_at; by rewrite E3).
  unfold pp_ok, buffers_ok, buf_at. rewrite E1, E2. setoid_rewrite E. done.
Qed.
Lemma own_head pp m q p : own pp (m :: q) p → pp_key pp = (t, n) → is_data m ∧ 0 ≤ retries m ≤ Max ∨ is_fin m ∧ 1 ≤ retries m ≤ highWatermark pp.
Proof. intros [_ H] Hk. rewrite decide_True in H by done. by eapply ordered_queue. Qed.
Lemma own_forward lead m q pp p : pp_ok pp → key m = pp_key pp → (pp_key pp = (t, n) → is_data m ∧ retries m = highWatermark pp) →
  own pp (m :: q) p → wlp (forward lead m pp p) (fun r => own r.1 q r.2 ∧ same_levels pp r.1).
Proof.
  intros Hok Hk Hf H. unfold forward. apply wlp_bind. eapply (wlp_mono (with_leader lead pp p)); [by apply own_leader|].
  intros [[ok pp'] p'] (H' & Hs & Hb). cbn [fst snd] in *. pose proof (same_ok _ _ Hs Hok) as [_ Hok']. apply wlp_if; intros ->.
  - destruct (Hb eq_refl) as [b Eb]. apply wlp_bind. unfold send_current. rewrite Eb. destruct Hs as (E1 & E2 & E3).
    eapply wlp_mono; [eapply (own_push _ _ _ _ _ _ _ (highWatermark pp') (buf_at pp') (pend_at pp') (Some b) q b m); [| |exact H']; [congruence|]|].
    + intros Hk' back acc rest bad acked Ho. rewrite Eb in *. destruct Hf as [Hd Hr]; [congruence|]. apply ordered_send; [done|lia|done|done].
    + intros p2 H2. cbn [fst snd wlp]. split; [|by split_and!]. unfold own. by rewrite Eb in *.
  - apply wlp_bind. eapply wlp_mono; [add_tac|]. intros p2 Ha. cbn [fst snd wlp]. split; [|done]. eapply own_adds; [exact Ha|].
    eapply own_move; [|exact H']. intros _ ?????. by apply ordered_discard.
Qed.

(** A message that was sent back for the first time *)
Lemma own_raise m q pp p : pp_ok pp → highWatermark pp < retries m → own pp (m :: q) p →
  wlp (newHighWatermark (retries m) pp p) (fun r => own r.1 (m :: q) r.2 ∧ pp_ok r.1 ∧ pp_key r.1 = pp_key pp ∧ highWatermark r.1 = retries m).
Proof.
  intros Hok Hr H. unfold newHighWatermark. apply wlp_bind. eapply wlp_mono; [apply on_level_spec|].
  intros pp1 (s & Es & El & Ek & Eh & Eb & Elead). apply wlp_bind. eapply wlp_mono; [add_tac|]. intros p1 Ha. eapply own_adds in H; [|exact Ha].
  unfold send_current. destruct (pp_bp pp1) as [b|] eqn:Eb1; [|done]. cbn in Eb, Ek, Eh. apply wlp_bind. change (level_at (set_hwm (retries m) (retryState pp) pp)) with (level_at pp) in *.
  assert (∀ e, buf_at pp1 e = buf_at pp e) as Hbuf. { intros e. unfold buf_at. rewrite El. destruct (decide _) as [<-|]; by rewrite ?Es. }
  eapply wlp_mono; [eapply (own_push _ _ _ _ _ _ _ (retries m) (buf_at pp1) (pend_at pp1) None (m :: q) b); [| |exact H]|].
  - done.
  - intros Hk back acc rest bad acked Ho. rewrite <- Eb in Ho. apply ordered_raise in Ho; [|done]. eapply ordered_ext; [..|exact Ho]; try done.
    + intros e. unfold pend_at. rewrite El. destruct (decide _) as [<-|Hn]; [by rewrite fn_lookup_insert|by rewrite fn_lookup_insert_ne].
    + intros b'. assert (pp_topic pp1 = t ∧ pp_partition pp1 = n) as [-> ->] by (injection Hk as <- <-; by injection Ek as <- <-). done.
  - intros p2 H2. destruct (pp_leader pp1) as [leader|] eqn:El1; [|done]. apply wlp_bind. eapply wlp_mono; [add_tac|]. intros p3 Ha3. cbn [wlp fst snd].
    split; [|split_and!]; [|  |done|done].
    + unfold own. cbn. change (pp_key _) with (pp_key pp1) at 1. rewrite Ek, Eh. eapply own_adds; [exact Ha3|]. exact H2.
    + destruct Hok as [[Hf Ht] _]. unfold pp_ok, buffers_ok. cbn [highWatermark set_bp pp_key pp_topic pp_partition].
      change (buf_at (set_bp (Some leader) None pp1)) with (buf_at pp1). rewrite Eh. split; [split|].
      * intros e. rewrite Hbuf. eapply Forall_impl; [apply Hf|]. cbn. intros x ->. symmetry. exact Ek.
      * intros e He. rewrite Hbuf. apply Ht. lia.
      * rewrite Hbuf. by apply Ht.
Qed.

(** *** Levels that are complete *)

Lemma index_level pp e : wlp (go_index (retryState pp) e) (fun s => level_at pp e = Some s).
Proof.
  unfold go_index, level_at. destruct (_ && _) eqn:E; [|done]. apply andb_true_iff in E as [He%Z.leb_le _]. rewrite decide_True by done.
  by destruct (_ !! _).
Qed.
Lemma own_flush_sends pp0 b k h pend q l buf p : pp_bp pp0 = Some b → buf h = l → Forall (fun m => key m = k) l → own_at k h buf pend (Some b) q p →
  wlp (go_each (fun m => send_current m pp0) l p) (own_at k h (<[h := []]> buf) pend (Some b) q).
Proof.
  intros Hb. revert buf p. induction l as [|m l IH]; intros buf p Hl Hk H; cbn [go_each].
  - eapply own_ext; [..|exact H]; [|done]. intros e. destruct (decide (h = e)) as [<-|Hn]; [by rewrite fn_lookup_insert|by rewrite fn_lookup_insert_ne].
  - apply Forall_cons in Hk as [Hm Hk]. apply wlp_bind. unfold send_current at 1. rewrite Hb.
    eapply wlp_mono; [eapply (own_push _ _ _ _ _ _ _ h (<[h := l]> buf) pend (Some b) q b m); [exact Hm| |exact H]|].
    + intros _ back acc rest bad acked. by apply ordered_flush.
    + intros p' H'. eapply wlp_mono; [apply (IH (<[h := l]> buf) p')|]; [by rewrite fn_lookup_insert|done|done|]. intros p''. apply own_ext; [|done].
      intros e. destruct (decide (h = e)) as [<-|Hn]; [by rewrite !fn_lookup_insert|by rewrite !fn_lookup_insert_ne].
Qed.
Lemma ordered_unbuffers h buf pend cur q back acc rest bad acked : ordered (mk_view h buf pend cur q back acc rest bad acked sub) →
  ordered (mk_view h (<[h := []]> buf) pend cur q back acc rest bad acked sub).
Proof.
  remember (buf h) as l eqn:E. symmetry in E. revert buf E. induction l as [|m l IH]; intros buf E H.
  - eapply ordered_ext; [..|exact H]; try done. intros e. destruct (decide (h = e)) as [<-|Hn]; [by rewrite fn_lookup_insert|by rewrite fn_lookup_insert_ne].
  - eapply (ordered_unbuffer _ _ _ _ _ _ _ _ _ _ _ _ _ _ m l E) in H. apply IH in H; [|by rewrite fn_lookup_insert]. eapply ordered_ext; [..|exact H]; try done.
    intros e. destruct (decide (h = e)) as [<-|Hn]; [by rewrite !fn_lookup_insert|by rewrite !fn_lookup_insert_ne].
Qed.
Lemma own_flush_level lead pp q p : buffers_ok pp → own pp q p →
  wlp (flush_level lead pp p) (fun r => own r.1 q r.2 ∧ pp_ok r.1 ∧ pp_key r.1 = pp_key pp ∧ highWatermark r.1 = highWatermark pp).
Proof.
  intros [Hf Ht] H. unfold flush_level. apply wlp_bind. eapply wlp_mono; [apply index_level|]. intros s Hs. apply wlp_bind.
  eapply (wlp_mono (with_leader lead pp p)); [by apply own_leader|]. intros [[ok pp1] p1] (H1 & Hsame & Hb). cbn [fst snd] in *.
  apply (same_own _ _ _ _ Hsame) in H1. assert (rs_buf s = buf_at pp (highWatermark pp)) as Hbuf by (unfold buf_at; by rewrite Hs).
  apply wlp_bind. apply (wlp_mono _ (own_at (pp_key pp) (highWatermark pp) (<[highWatermark pp := []]> (buf_at pp)) (pend_at pp) (pp_bp pp1) q)).
  - apply wlp_if; intros ->.
    + destruct (Hb eq_refl) as [b Eb]. rewrite Eb in *. apply own_flush_sends; [done..| |done]. rewrite Hbuf. apply Hf.
    + eapply wlp_mono; [add_tac|]. intros p2 Ha. eapply own_adds; [exact Ha|]. eapply own_move; [|exact H1]. intros _ ?????. apply ordered_unbuffers.
  - intros p2 H2. destruct Hsame as (E1 & E2 & E3). apply wlp_bind. eapply wlp_mono; [apply on_level_spec|].
    intros pp2 (s' & Es' & El & Ek & Eh & Eb & _). cbn [wlp fst snd]. rewrite E2 in *.
    assert (∀ e, level_at pp1 e = level_at pp e) as E by (intros e; unfold level_at; by rewrite E3). rewrite E in Es'. assert (s' = s) as -> by congruence.
    assert (∀ e, buf_at pp2 e = (<[highWatermark pp := []]> (buf_at pp)) e) as Hb2.
    { intros e. unfold buf_at. rewrite El, E. destruct (decide _) as [<-|Hn]; [by rewrite fn_lookup_insert|by rewrite fn_lookup_insert_ne]. }
    split_and!; [| | congruence|congruence].
    + unfold own. rewrite Ek, E1, Eh, Eb. eapply own_ext; [exact Hb2| |exact H2]. intros e. unfold pend_at. rewrite El, E. destruct (decide _) as [<-|]; by rewrite ?Es'.
    + unfold pp_ok, buffers_ok. rewrite Ek, E1, Eh. split; [split|]; [intros e..|]; rewrite Hb2.
      * destruct (decide (highWatermark pp = e)) as [<-|Hn]; [by rewrite fn_lookup_insert|by rewrite fn_lookup_insert_ne].
      * intros He. rewrite fn_lookup_insert_ne by lia. auto.
      * by rewrite fn_lookup_insert.
Qed.
Lemma own_flush lead k pp q p : highWatermark pp = Z.of_nat k → pp_ok pp → pend_at pp (highWatermark pp) = false → own pp q p →
  wlp (flushRetryBuffers k lead pp p) (fun r => own r.1 q r.2 ∧ pp_ok r.1 ∧ pp_key r.1 = pp_key pp).
Proof.
  revert pp p. induction k as [|k IH]; intros pp p Hh Hok Hp H; cbn [flushRetryBuffers]; [done|]. apply wlp_bind.
  destruct Hok as [[Hf Ht] H0]. set (pp0 := set_hwm (Z.of_nat k) (retryState pp) pp).
  eapply wlp_mono; [apply (own_flush_level lead pp0 q)|].
  - split; [exact Hf|]. cbn. intros e He. change (buf_at pp0 e) with (buf_at pp e). destruct (decide (e = highWatermark pp)) as [->|]; [done|]. apply Ht. lia.
  - eapply own_move; [|exact H]. intros _ back acc rest bad acked Ho. replace (highWatermark pp0) with (highWatermark pp - 1) by (cbn; lia).
    apply ordered_lower; [lia|done..].
  - intros [pp1 p1] (H1 & Hok1 & E1 & E2). cbn [fst snd] in *. apply wlp_bind. eapply wlp_mono; [apply index_level|]. intros s Hs.
    apply wlp_if; intros He; [by cbn|]. eapply wlp_mono; [apply IH; try done|].
    + rewrite E2. cbn. unfold pend_at. rewrite Hs. done.
    + intros [pp2 p2] (? & ? & E). cbn in *. split_and!; [done..|]. by rewrite E, E1.
Qed.

(** *** [dispatch] *)

(** The last message of a level, and a message that has to wait *)
Lemma own_expect m q pp p : pp_ok pp → retries m ≤ highWatermark pp → (pp_key pp = (t, n) → is_fin m) → own pp (m :: q) p →
  wlp (on_level (retries m) (expect false) pp) (fun pp' => own pp' q p ∧ pp_ok pp' ∧ pp_key pp' = pp_key pp ∧ highWatermark pp' = highWatermark pp ∧ pend_at pp' (retries m) = false).
Proof.
  intros Hok Hr Hf H. eapply wlp_mono; [apply on_level_spec|]. intros pp1 (s & Es & El & Ek & Eh & Eb & _).
  assert (∀ e, buf_at pp1 e = buf_at pp e) as Hbuf. { intros e. unfold buf_at. rewrite El. destruct (decide _) as [<-|]; by rewrite ?Es. }
  split_and!; try done.
  - unfold own. rewrite Ek, Eh, Eb. eapply own_move; [|exact H]. intros E back acc rest bad acked Ho. eapply ordered_fin in Ho; [|by apply Hf|done].
    eapply ordered_ext; [..|exact Ho]; try done. intros e. unfold pend_at. rewrite El. destruct (decide _) as [<-|Hn]; [by rewrite fn_lookup_insert|by rewrite fn_lookup_insert_ne].
  - unfold pp_ok, buffers_ok. rewrite Ek, Eh. setoid_rewrite Hbuf. done.
  - unfold pend_at. rewrite El, decide_True by done. done.
Qed.
Lemma own_buffer m q pp p : pp_ok pp → key m = pp_key pp → retries m < highWatermark pp → (pp_key pp = (t, n) → is_data m) → own pp (m :: q) p →
  wlp (on_level (retries m) (push_buf m) pp) (fun pp' => own pp' q p ∧ pp_ok pp' ∧ pp_key pp' = pp_key pp).
Proof.
  intros [[Hf Ht] H0] Hk Hr Hd H. eapply wlp_mono; [apply on_level_spec|]. intros pp1 (s & Es & El & Ek & Eh & Eb & _).
  assert (∀ e, buf_at pp1 e = (<[retries m := buf_at pp (retries m) ++ [m]]> (buf_at pp)) e) as Hbuf.
  { intros e. unfold buf_at. rewrite El. destruct (decide _) as [<-|Hn]; [by rewrite Es, fn_lookup_insert|by rewrite fn_lookup_insert_ne]. }
  split_and!; try done.
  - unfold own. rewrite Ek, Eh, Eb. eapply own_move; [|exact H]. intros E back acc rest bad acked Ho. eapply ordered_buffer in Ho; [|by apply Hd|done].
    eapply ordered_ext; [..|exact Ho]; try done. intros e. unfold pend_at. rewrite El. destruct (decide _) as [<-|Hn]; by rewrite ?Es.
  - unfold pp_ok, buffers_ok. rewrite Ek, Eh. split; [split|]; [intros e..|]; rewrite Hbuf.
    + destruct (decide (retries m = e)) as [<-|Hn]; [|by rewrite fn_lookup_insert_ne]. rewrite fn_lookup_insert. apply Forall_app_2; [done|]. by apply Forall_singleton.
    + intros He. rewrite fn_lookup_insert_ne by lia. auto.
    + by rewrite fn_lookup_insert_ne by lia.
Qed.

Lemma own_dispatch lead m q pp p : pp_ok pp → key m = pp_key pp → own pp (m :: q) p →
  wlp (partition_dispatch lead m pp p) (fun r => own r.1 q r.2 ∧ pp_ok r.1 ∧ pp_key r.1 = pp_key pp).
Proof.
  intros Hok Hk H. unfold partition_dispatch. apply wlp_bind. assert (leave_abandoned pp p = Ret (pp, p)) as ->.
  { unfold leave_abandoned. destruct (pp_bp pp); [|done]. rewrite (po_abandoned p (proj1 H)). by rewrite decide_False by set_solver. }
  cbn [wlp]. pose proof (own_head _ _ _ _ H) as Hhead.
  assert (∀ pp1 p1, pp_ok pp1 → pp_key pp1 = pp_key pp → own pp1 (m :: q) p1 → (pp_key pp = (t, n) → is_data m ∧ retries m = highWatermark pp1) →
    wlp (forward lead m pp1 p1) (fun r => own r.1 q r.2 ∧ pp_ok r.1 ∧ pp_key r.1 = pp_key pp)) as Hfwd.
  { intros pp1 p1 Hok1 Ek H1 Hd. eapply wlp_mono; [apply own_forward; [done|congruence| |exact H1]|].
    - rewrite Ek. done.
    - intros [pp2 p2] [H2 Hs]. cbn in *. split_and!; [done|by eapply same_ok|]. destruct Hs as (-> & _). done. }
  assert (has fin m = true → pp_key pp = (t, n) → is_fin m) as Hfin.
  { intros Hf E. destruct (Hhead E) as [[Hd _]|[? _]]; [|done]. unfold has in Hf. by rewrite Hd in Hf. }
  assert (has fin m = false → pp_key pp = (t, n) → is_data m) as Hdata.
  { intros Hf%fin_flags E. by destruct (Hhead E) as [[Hd _]|[? _]]. }
  destruct (Z.ltb_spec (highWatermark pp) (retries m)) as [Hlt|Hge].
  { apply wlp_bind. eapply wlp_mono; [by apply (own_raise m q)|]. intros [pp1 p1] (H1 & Hok1 & E1 & E2). cbn [fst snd] in *.
    apply Hfwd; try done. intros E. destruct (Hhead E) as [[? _]|[_ ?]]; [done|lia]. }
  destruct (Z.ltb_spec 0 (highWatermark pp)) as [Hpos|Hzero].
  2:{ apply Hfwd; try done. intros E. destruct (Hhead E) as [[? ?]|[_ ?]]; [split; [done|lia]|lia]. }
  destruct (Z.ltb_spec (retries m) (highWatermark pp)) as [Hlow|Htop].
  - apply wlp_if; intros Hf.
    + apply wlp_bind. eapply wlp_mono; [apply (own_expect m q pp p); auto|]. intros pp1 (H1 & Hok1 & E1 & _). apply wlp_bind. eapply wlp_mono; [add_tac|].
      intros p1 Ha. cbn. split_and!; [by eapply own_adds|done..].
    + apply wlp_bind. eapply wlp_mono; [apply (own_buffer m q pp p); auto|]. by intros pp1 (H1 & Hok1 & E1).
  - assert (retries m = highWatermark pp) as Er by lia. apply wlp_if; intros Hf; [|by apply Hfwd; auto]. rewrite <- Er at 1. apply wlp_bind.
    eapply wlp_mono; [apply (own_expect m q pp p); auto|]. intros pp1 (H1 & Hok1 & E1 & E2 & E3). apply wlp_bind.
    eapply wlp_mono; [apply own_flush; [|exact Hok1| |exact H1]; [lia|congruence]|]. intros [pp2 p2] (H2 & Hok2 & E4). cbn [fst snd] in *. apply wlp_bind.
    eapply wlp_mono; [add_tac|]. intros p3 Ha. cbn. split_and!; [by eapply own_adds|done|congruence].
Qed.
End own.

(** ** Broker producers *)

Section broker.
Context (PP : partitionProducer) (Q front sub : list ProducerMessage).

Definition sets_ok (bp : brokerProducer) : Prop := produce_set_ok conf (bp_buffer bp) ∧ ∀ f, bp_flight bp = Some f → produce_set_ok conf f.
(** The view while a broker producer runs: [y] are the messages of a set that was answered and
    [x] those it has received, as long as it is not decided what happens to them. *)
Definition bview (y x : list ProducerMessage) (b : nat) (bp : brokerProducer) (p : asyncProducer) : view :=
  mk_view (highWatermark PP) (buf_at PP) (pend_at PP) (pp_bp PP) Q (front ++ mine (p_retries p)) (<[b := y ++ taken bp]> (acc_of p))
    (<[b := x ++ mine (waiting bp ++ default [] (fst <$> p_inputs p !! b))]> (rest_of p)) (<[b := refuses bp]> (bad_of p))
    (ident <$> mine (p_successes p)) sub.
Record bsafe (y x : list ProducerMessage) (b : nat) (bp : brokerProducer) (p : asyncProducer) : Prop := mk_bsafe {
  bs_p : p_ok p; bs_input : is_Some (p_inputs p !! b); bs_sets : sets_ok bp; bs_view : ordered (bview y x b bp p) }.
Definition waits_ok (bp : brokerProducer) : Prop := ∀ m, bp_run bp = Waiting m → needsRetry bp m = None ∧ has syn m = false.
Definition put (b : nat) (bp : brokerProducer) (p : asyncProducer) : asyncProducer := set_bps (<[b := bp]> (p_bps p)) p.

Ltac fn_cases b b' := destruct (decide (b = b')) as [<-|?]; [rewrite ?fn_lookup_insert|rewrite ?fn_lookup_insert_ne by done].

Lemma b_start b bp p : p_ok p → p_bps p !! b = Some bp → ordered (view_of PP Q front sub p) → bsafe [] [] b bp p.
Proof.
  intros Hp Hb H. destruct (po_bps p Hp b bp Hb) as (? & ? & _). split; [done| |done|].
  - destruct (p_inputs p !! b) eqn:E; [done|]. by rewrite (po_dom p Hp b E) in Hb.
  - eapply ordered_ext; [..|exact H]; try done; intros b'; fn_cases b b'; try done; unfold acc_of, rest_of, bad_of; by rewrite Hb.
Qed.
Lemma b_end b bp p : bsafe [] [] b bp p → waits_ok bp →
  p_ok (put b bp p) ∧ ordered (view_of PP Q front sub (put b bp p)).
Proof.
  intros [Hp Hi Hs H] Hw. split.
  - destruct Hp. constructor; cbn; try done; intros b'.
    + intros E. destruct (decide (b = b')) as [<-|Hn]; [by rewrite E in Hi; destruct Hi|]. rewrite lookup_insert_ne by done. auto.
    + intros bp'. destruct (decide (b = b')) as [<-|Hn]; [|rewrite lookup_insert_ne by done; eauto]. rewrite lookup_insert_eq. intros [= <-].
      destruct Hs. by split_and!.
  - eapply ordered_ext; [..|exact H]; try done; intros b'; fn_cases b b'; unfold acc_of, rest_of, bad_of; cbn [p_bps put set_bps p_inputs].
    all: first [by rewrite lookup_insert_eq | by rewrite lookup_insert_ne].
Qed.
Lemma b_same y x b bp bp' p : taken bp' = taken bp → waiting bp' = waiting bp → refuses bp' = refuses bp → sets_ok bp' → bsafe y x b bp p → bsafe y x b bp' p.
Proof. intros E1 E2 E3 Hs []. split; try done. unfold bview. by rewrite E1, E2, E3. Qed.
(** Messages are handed over. *)
Lemma b_adds y x y' x' b bp bp' p p' R S : adds R S p p' → sets_ok bp' → waiting bp' = waiting bp →
  (∀ back acked acc rest bad, ordered (mk_view (highWatermark PP) (buf_at PP) (pend_at PP) (pp_bp PP) Q back
      (<[b := y ++ taken bp]> acc) (<[b := x ++ rest]> (rest_of p)) (<[b := refuses bp]> bad) acked sub) →
    ordered (mk_view (highWatermark PP) (buf_at PP) (pend_at PP) (pp_bp PP) Q (back ++ mine R)
      (<[b := y' ++ taken bp']> acc) (<[b := x' ++ rest]> (rest_of p)) (<[b := refuses bp']> bad) (acked ++ (ident <$> mine S)) sub)) →
  bsafe y x b bp p → bsafe y' x' b bp' p'.
Proof.
  intros Ha Hs Hw Hm [Hp Hi _ H]. split; [by eapply adds_ok| |done|].
  - destruct Ha. specialize (a_inputs0 b). destruct Hi as [i Hi]. rewrite Hi in a_inputs0. by destruct (p_inputs p' !! b).
  - apply Hm in H. destruct Ha. unfold bview, mine in *. rewrite a_retries0, a_successes0, !filter_app, fmap_app, app_assoc. eapply ordered_ext; [..|exact H]; try done; intros b'; fn_cases b b'; try done.
    + unfold acc_of. by rewrite a_bps0.
    + by rewrite a_inputs0, Hw, filter_app.
    + unfold rest_of. by rewrite a_bps0, a_inputs0.
    + unfold bad_of. by rewrite a_bps0.
Qed.

(** *** A message *)

Lemma b_plain y x b bp p p' R S : adds R S p p' → mine R = [] → mine S = [] → bsafe y x b bp p → bsafe y x b bp p'.
Proof.
  intros Ha HR HS H. eapply b_adds; [exact Ha|apply (bs_sets _ _ _ _ _ H)|done| |exact H]. intros. by rewrite HR, HS, !app_nil_r.
Qed.
Lemma again_key m : mine (again [m]) = if decide (key m = (t, n)) then again [m] else [].
Proof.
  unfold again, mine. rewrite (filter_cons _ m), filter_nil. destruct (decide (retries m < Max)); cbn [fmap list_fmap]; [|by destruct (decide _)].
  rewrite filter_cons, filter_nil. done.
Qed.
Lemma refuses_mine bp m : key m = (t, n) → refuses bp = match needsRetry bp m with Some _ => true | None => false end.
Proof. intros [= E1 E2]. unfold refuses, needsRetry. cbn. by rewrite E1, E2. Qed.
(** A message is sent back. *)
Lemma b_retry m err b bp bp' p : needsRetry bp m = Some err → has syn m = false →
  taken bp' = taken bp → waiting bp' = waiting bp → sets_ok bp' → (refuses bp' = refuses bp ∨ key m = (t, n) ∧ has fin m = true) →
  bsafe [] (mine [m]) b bp p → wlp (retryMessage conf m err p) (bsafe [] [] b bp').
Proof.
  intros Hn Hsyn Et Ew Hs Hr H. eapply wlp_mono; [add_tac|]. intros p' Ha. eapply b_adds; [exact Ha|done|done| |exact H].
  intros back acked acc rest bad Ho. cbn [app] in *. rewrite Et, app_nil_r. destruct (decide (key m = (t, n))) as [Hk|Hk].
  2:{ rewrite mine_other in Ho by done. rewrite again_key, decide_False, app_nil_r by done. by destruct Hr as [->|[? _]]. }
  rewrite mine_own in Ho by done. cbn [app] in Ho. rewrite (refuses_mine bp m Hk), Hn in *. assert (pm_flags m ≠ syn) as Hsyn' by (intros E; unfold has in Hsyn; by rewrite E in Hsyn).
  pose proof Ho as Hfr. eapply (ordered_front _ _ _ _ _ _ _ _ _ _ _ _ _ _ b m) in Hfr; [|by rewrite fn_lookup_insert].
  destruct Hfr as [?|[(Hfin & _ & Hlt)|[Hd Hrt]]]; [done| |].
  - rewrite again_key, decide_True by done. unfold again. rewrite filter_cons, filter_nil, decide_True by lia. cbn [fmap list_fmap].
    eapply (ordered_bounce_fin _ _ _ _ _ _ _ _ _ _ _ _ _ _ b m rest (refuses bp')) in Ho; [|by rewrite fn_lookup_insert..|done].
    eapply ordered_ext; [..|exact Ho]; try done; intros b'; fn_cases b b'; done.
  - rewrite again_key, decide_True by done.
    eapply (ordered_bounces _ _ _ _ _ _ _ _ _ _ _ _ _ _ b [m] rest) in Ho; [eapply ordered_ext; [..|exact Ho]; try done| | | |]; try (by rewrite fn_lookup_insert).
    + intros b'. fn_cases b b'; [|done]. destruct Hr as [->|[_ Hf]]; [done|]. unfold has in Hf. by rewrite Hd in Hf.
    + by apply Forall_singleton.
    + intros b'. destruct (decide _) as [<-|?]; [by rewrite fn_lookup_insert|by rewrite !fn_lookup_insert_ne].
Qed.
(** The opening message of a partition *)
Lemma b_syn m b bp p p' : adds [] [] p p' → has syn m = true → bsafe [] (mine [m]) b bp p →
  bsafe [] [] b (set_current (add_block (Topic m) (pm_Partition m) None (currentRetries bp)) bp) p'.
Proof.
  intros Ha Hsyn H. eapply (b_adds _ _ _ _ b bp); [exact Ha|apply (bs_sets _ _ _ _ _ H)|done| |exact H].
  intros back acked acc rest bad Ho. change (taken (set_current _ bp)) with (taken bp). cbn [app fmap list_fmap] in *. rewrite !app_nil_r.
  destruct (decide (key m = (t, n))) as [Hk|Hk].
  - rewrite mine_own in Ho by done. cbn [app] in Ho. set (c := refuses (set_current _ _)). pose proof Ho as Hfr.
    eapply (ordered_front _ _ _ _ _ _ _ _ _ _ _ _ _ _ b m) in Hfr; [|by rewrite fn_lookup_insert].
    assert (pm_flags m = syn) as E. { unfold has in Hsyn. destruct Hfr as [?|[[E _]|[E _]]]; [done|by rewrite E in Hsyn..]. }
    eapply (ordered_syn _ _ _ _ _ _ _ _ _ _ _ _ _ _ b m rest c) in Ho; [|by rewrite fn_lookup_insert|done].
    eapply ordered_ext; [..|exact Ho]; try done; intros b'; fn_cases b b'; done.
  - rewrite mine_other in Ho by done. cbn [app] in Ho. assert (refuses (set_current (add_block (Topic m) (pm_Partition m) None (currentRetries bp)) bp) = refuses bp) as ->; [|done].
    unfold refuses, needsRetry. cbn [closing set_current currentRetries control Topic pm_Partition]. rewrite get_add, decide_False; [done|]. intros [E1 E2]. apply Hk. unfold key. congruence.
Qed.
(** A message goes into the buffer, or it cannot be encoded. *)
Lemma b_buffer now m b bp p : needsRetry bp m = None → has syn m = false → bsafe [] (mine [m]) b (set_run Running bp) p →
  wlp (buffer_message conf producerID producerEpoch now m bp p) (fun r => bsafe [] [] b r.1 r.2 ∧ bp_run r.1 = Running).
Proof.
  intros Hn Hsyn H. unfold buffer_message. destruct (bs_sets _ _ _ _ _ H) as [Hok Hfl]. cbn in Hok, Hfl.
  destruct (add_spec conf producerID producerEpoch now m (bp_buffer bp) Hok) as (r & ps' & -> & Hadd). cbn [gbind fst snd].
  assert (pm_flags m ≠ syn) as Hsyn' by (intros E; unfold has in Hsyn; by rewrite E in Hsyn).
  destruct (unencodable m) as [e|].
  - destruct Hadd as [-> ->]. apply wlp_bind. eapply wlp_mono; [add_tac|]. intros p' Ha. cbn [wlp fst snd]. split; [|done].
    eapply (b_adds _ _ _ _ b (set_run Running bp)); [exact Ha|done|done| |exact H]. intros back acked acc rest bad Ho. change (taken (set_buffer (bp_buffer bp) (set_run Running bp))) with (taken (set_run Running bp)).
    change (refuses (set_buffer (bp_buffer bp) (set_run Running bp))) with (refuses (set_run Running bp)). cbn [app fmap list_fmap] in *. rewrite !app_nil_r.
    destruct (decide (key m = (t, n))) as [Hk|Hk]; [rewrite mine_own in Ho by done|by rewrite mine_other in Ho by done]. cbn [app] in Ho.
    eapply (ordered_reject _ _ _ _ _ _ _ _ _ _ _ _ _ _ b m rest) in Ho; [|by rewrite fn_lookup_insert|done].
    eapply ordered_ext; [..|exact Ho]; try done; intros b'; fn_cases b b'; done.
  - destruct Hadd as [(-> & Hok' & Hq)|[_ ?]]; [|congruence]. cbn [wlp fst snd]. split; [|done].
    eapply (b_adds _ _ _ _ b (set_run Running bp) _ _ _ [] []); [apply adds_refl| |done| |exact H]; [by split|]. intros back acked acc rest bad Ho. cbn [app fmap list_fmap] in *. rewrite !app_nil_r.
    match goal with |- context [refuses ?x] => change (refuses x) with (refuses (set_run Running bp)) end.
    unfold taken in *. cbn [bp_flight bp_buffer set_output set_timer set_buffer set_run] in *. rewrite (Hq t n).
    destruct (decide (key m = (t, n))) as [Hk|Hk].
    + rewrite decide_True by (by injection Hk as -> ->). rewrite mine_own in Ho by done. cbn [app] in Ho. rewrite app_assoc.
      assert (refuses (set_run Running bp) = false) as Hf by (rewrite (refuses_mine _ m Hk); change (needsRetry (set_run Running bp) m) with (needsRetry bp m); by rewrite Hn). rewrite Hf in *.
      pose proof Ho as Hfr. eapply (ordered_front _ _ _ _ _ _ _ _ _ _ _ _ _ _ b m) in Hfr; [|by rewrite fn_lookup_insert].
      destruct Hfr as [?|[(_ & E & _)|[Hd _]]]; [done|by rewrite fn_lookup_insert in E|].
      eapply (ordered_accept _ _ _ _ _ _ _ _ _ _ _ _ _ _ b m rest) in Ho; [|by rewrite fn_lookup_insert..|done].
      eapply ordered_ext; [..|exact Ho]; try done; intros b'; fn_cases b b'; done.
    + rewrite mine_other in Ho by done. rewrite decide_False by (intros [-> ->]; done). by rewrite app_nil_r.
Qed.

Lemma mine_cons m l : mine (m :: l) = mine [m] ++ mine l.
Proof. apply (filter_app _ [m]). Qed.
Lemma b_wait y m b bp p : waiting bp = [] → bsafe y (mine [m]) b bp p → bsafe y [] b (set_run (Waiting m) bp) p.
Proof.
  intros Hw [Hp Hi Hs H]. split; try done. unfold bview in *. rewrite Hw in H. change (taken (set_run _ bp)) with (taken bp).
  change (refuses (set_run (Waiting m) bp)) with (refuses bp). cbn [waiting set_run bp_run app] in *. rewrite (mine_cons m). done.
Qed.
Lemma b_unwait y m b bp p : bp_run bp = Waiting m → bsafe y [] b bp p → bsafe y (mine [m]) b (set_run Running bp) p.
Proof.
  intros Hw [Hp Hi Hs H]. split; try done. unfold bview in *. change (taken (set_run _ bp)) with (taken bp).
  change (refuses (set_run Running bp)) with (refuses bp). unfold waiting in *. rewrite Hw in H. cbn [set_run bp_run app] in *. by rewrite mine_cons in H.
Qed.
Lemma run_ok bp : bp_run bp = Running → waits_ok bp.
Proof. intros E m. by rewrite E. Qed.
(** [case msg := <-bp.input] *)
Lemma b_message now m b bp p : bp_run bp = Running → bsafe [] (mine [m]) b bp p →
  wlp (bp_message conf producerID producerEpoch now m bp p) (fun r => bsafe [] [] b r.1 r.2 ∧ waits_ok r.1).
Proof.
  intros Hrun H. assert (waiting bp = []) as Hw by (unfold waiting; by rewrite Hrun). unfold bp_message. apply wlp_if; intros Hsyn.
  { apply wlp_bind. eapply wlp_mono; [add_tac|]. intros p' Ha. cbn [wlp fst snd]. split; [by eapply b_syn|by apply run_ok]. }
  destruct (needsRetry bp m) as [err|] eqn:Hn.
  - set (bp' := match closing bp with None => _ | Some _ => _ end).
    assert (taken bp' = taken bp ∧ waiting bp' = waiting bp ∧ sets_ok bp' ∧ bp_run bp' = Running ∧ (refuses bp' = refuses bp ∨ key m = (t, n) ∧ has fin m = true)) as (E1 & E2 & E3 & E4 & E5).
    { pose proof (bs_sets _ _ _ _ _ H). unfold bp'. destruct (closing bp) eqn:Hc; [by split_and!; auto|]. destruct (has fin m) eqn:Hfin; [|by split_and!; auto].
      split_and!; try done. destruct (decide (key m = (t, n))) as [|Hk]; [by right|]. left. unfold refuses, needsRetry. cbn [closing set_current currentRetries control Topic pm_Partition].
      rewrite Hc, get_drop, decide_False; [done|]. intros [E1 E2]. apply Hk. unfold key. congruence. }
    apply wlp_bind. eapply wlp_mono; [eapply (b_retry m err b bp bp'); eauto|]. intros p' H'. cbn. split; [done|by apply run_ok].
  - apply wlp_if; intros Ho.
    + cbn. split; [by apply b_wait|]. intros m' [= <-]. done.
    + eapply wlp_mono; [apply (b_buffer now m b bp); [done|done|]|].
      * eapply b_same; [..|exact H]; try done. apply (bs_sets _ _ _ _ _ H).
      * intros r [? ?]. split; [done|by apply run_ok].
Qed.
(** [case output <- bp.buffer] *)
Lemma b_flush now b bp p : bp_flight bp = None → waits_ok bp → bsafe [] [] b bp p →
  wlp (bp_flush conf producerID producerEpoch now bp p) (fun r => bsafe [] [] b r.1 r.2 ∧ waits_ok r.1).
Proof.
  intros Hf Hwait H. unfold bp_flush. set (bp1 := rollOver _). destruct (bs_sets _ _ _ _ _ H) as [Hok _].
  assert (bsafe [] [] b bp1 p) as H1.
  { eapply b_same; [..|exact H]; try done.
    - unfold taken. rewrite Hf. cbn. rewrite app_nil_r. done.
    - split; [apply new_ok|]. by intros f [= <-]. }
  change (bp_run bp1) with (bp_run bp). destruct (bp_run bp) as [|m|] eqn:Hrun.
  - cbn. split; [|by apply run_ok]. eapply b_same; [..|exact H1]; try done. apply (bs_sets _ _ _ _ _ H1).
  - destruct (Hwait m Hrun) as [Hn Hs]. eapply wlp_mono; [apply (b_buffer now m b bp1); [done|done|]|].
    + by apply b_unwait.
    + intros r [? ?]. split; [done|by apply run_ok].
  - cbn. split; [done|]. intros m. change (bp_run bp1) with (bp_run bp). by rewrite Hrun.
Qed.

(** *** A response *)

(** The partitions of a set, this one apart *)
Definition other (e : bytes * Z * partitionSet) : Prop := e.1 ≠ (t, n) ∧ Forall (fun m => key m = e.1) (ps_msgs e.2).
Lemma each_split o ps : fair o → produce_set_ok conf ps →
  ∃ l l', eachPartition o ps = l ++ (match get_block (msgs ps) t n with Some s => [(t, n, s)] | None => [] end) ++ l' ∧ Forall other l ∧ Forall other l'.
Proof.
  intros Ho (_ & _ & Hok). assert (∀ e, e ∈ eachPartition o ps → e.1 ≠ (t, n) → other e) as Hoth.
  { intros [[t' n'] s] He Hn. apply each_elem in He; [|done]. split; [done|]. destruct (Hok _ _ _ He) as (_ & _ & Hf). eapply Forall_impl; [exact Hf|]. cbn. intros x [<- <-]. done. }
  destruct (get_block (msgs ps) t n) as [s|] eqn:E.
  - apply (each_elem o _ _ _ _ Ho) in E. pose proof (each_nodup o ps Ho) as Hnd. apply list_elem_of_split in E as (l & l' & E). exists l, l'. split; [done|].
    rewrite E in Hnd, Hoth. rewrite fmap_app, NoDup_app, fmap_cons, NoDup_cons in Hnd. destruct Hnd as (_ & H1 & H2 & _).
    split; apply Forall_forall; intros e He; apply Hoth; try (rewrite elem_of_app, elem_of_cons; tauto).
    + intros En. apply (H1 e.1); [by apply list_elem_of_fmap_2|]. rewrite En. left.
    + intros En. apply H2. cbn. rewrite <- En. by apply list_elem_of_fmap_2.
  - exists (eachPartition o ps), []. rewrite !app_nil_r. split_and!; [done| |done]. apply Forall_forall. intros e He. apply Hoth; [done|]. intros En.
    destruct e as [[t' n'] s]. cbn in En. injection En as -> ->. apply each_elem in He; [congruence|done].
Qed.
Lemma each_app {A S} (f : A → S → Go S) l l' s : go_each f (l ++ l') s = let* s := go_each f l s in go_each f l' s.
Proof. revert s. induction l as [|x l IH]; intros s; [done|]. cbn. destruct (f x s); [apply IH|done]. Qed.
Lemma each_inv {A S} (f : A → S → Go S) (I : S → Prop) l s : Forall (fun x => ∀ s, I s → wlp (f x s) I) l → I s → wlp (go_each f l s) I.
Proof.
  intros Hl. revert s. induction Hl as [|x l Hx Hl IH]; intros s Hs; [done|]. cbn. apply wlp_bind. eapply wlp_mono; [by apply Hx|]. auto.
Qed.

(** What becomes of the messages of the set *)
Lemma b_acked y x b bp p p' S : adds [] S p p' → ident <$> mine S = ident <$> y → bsafe y x b bp p → bsafe [] x b bp p'.
Proof.
  intros Ha HS H. eapply (b_adds _ _ _ _ b bp); [exact Ha|apply (bs_sets _ _ _ _ _ H)|done| |exact H]. intros back acked acc rest bad Ho. rewrite HS.
  eapply (ordered_take _ _ _ _ _ _ _ _ _ _ _ _ _ _ b y (taken bp) true) in Ho; [|by rewrite fn_lookup_insert]. unfold mine. rewrite filter_nil, app_nil_r.
  eapply ordered_ext; [..|exact Ho]; try done; intros b'; fn_cases b b'; done.
Qed.
Lemma b_failed y x b bp p p' : adds [] [] p p' → bsafe y x b bp p → bsafe [] x b bp p'.
Proof.
  intros Ha H. eapply (b_adds _ _ _ _ b bp); [exact Ha|apply (bs_sets _ _ _ _ _ H)|done| |exact H]. intros back acked acc rest bad Ho.
  eapply (ordered_take _ _ _ _ _ _ _ _ _ _ _ _ _ _ b y (taken bp) false) in Ho; [|by rewrite fn_lookup_insert]. unfold mine. rewrite !filter_nil, app_nil_r.
  eapply ordered_ext; [..|exact Ho]; try done; intros b'; fn_cases b b'; done.
Qed.
Lemma b_return y x b bp bp' p p' R : adds R [] p p' → mine R = again (y ++ taken bp) → taken bp' = [] → refuses bp' = true → waiting bp' = waiting bp →
  sets_ok bp' → bsafe y x b bp p → bsafe [] x b bp' p'.
Proof.
  intros Ha HR Et Er Ew Hs H. eapply (b_adds _ _ _ _ b bp); [exact Ha|done|done| |exact H]. intros back acked acc rest bad Ho. rewrite HR, Et, Er. cbn [app]. unfold mine.
  rewrite filter_nil, app_nil_r. rewrite <- (fn_lookup_insert acc b (y ++ taken bp)).
  eapply (ordered_return _ _ _ _ _ _ _ _ _ _ _ _ _ _ b); [..|exact Ho]; intros b'; destruct (decide _) as [<-|]; by rewrite ?fn_lookup_insert, ?fn_lookup_insert_ne.
Qed.
Lemma back_other l : Forall (fun m => key m ≠ (t, n)) l → mine (again l) = [].
Proof.
  intros Hl. apply filter_none, Forall_fmap, Forall_forall. intros m Hm. apply list_elem_of_filter in Hm as [_ Hm]. rewrite Forall_forall in Hl. exact (Hl m Hm).
Qed.
Lemma back_mine l : Forall (fun m => key m = (t, n)) l → mine (again l) = again l.
Proof.
  intros Hl. apply filter_all, Forall_fmap, Forall_forall. intros m [_ Hm]%list_elem_of_filter. rewrite Forall_forall in Hl. exact (Hl m Hm).
Qed.
Lemma mine_app l l' : mine (l ++ l') = mine l ++ mine l'.
Proof. apply filter_app. Qed.
Lemma again_app l l' : again (l ++ l') = again l ++ again l'.
Proof. unfold KafkaRetryOrder.again. by rewrite filter_app, fmap_app. Qed.
Lemma other_back l : Forall other l → mine (l ≫= fun e => again (ps_msgs e.2)) = [].
Proof.
  induction 1 as [|e l [He Hf] _ IH]; [done|]. rewrite bind_cons, mine_app, IH, app_nil_r. apply back_other. eapply Forall_impl; [exact Hf|]. cbn. congruence.
Qed.
Lemma back_each o ps : fair o → produce_set_ok conf ps → mine (eachPartition o ps ≫= fun e => again (ps_msgs e.2)) = mine (again (partition_msgs ps t n)).
Proof.
  intros Ho Hok. destruct (each_split o ps Ho Hok) as (l & l' & -> & Hl & Hl'). rewrite !bind_app, !mine_app, (other_back l), (other_back l'), app_nil_r by done. unfold partition_msgs.
  destruct (get_block _ _ _) as [s|]; cbn; by rewrite ?app_nil_r.
Qed.
Lemma msgs_mine ps : produce_set_ok conf ps → Forall (fun m => key m = (t, n)) (partition_msgs ps t n).
Proof.
  intros (_ & _ & Hok). unfold partition_msgs. destruct (get_block _ _ _) as [s|] eqn:E; [|done]. cbn. destruct (Hok _ _ _ E) as (_ & _ & Hf).
  eapply Forall_impl; [exact Hf|]. cbn. intros x [<- <-]. done.
Qed.
Lemma taken_mine bp : sets_ok bp → Forall (fun m => key m = (t, n)) (taken bp).
Proof.
  intros [Hb Hf]. apply Forall_app_2; [|by apply msgs_mine]. destruct (bp_flight bp) as [f|]; [|done]. by apply msgs_mine, Hf.
Qed.
Lemma map_sum_nonneg `{Countable K} {V} (f : V → Z) (m : gmap K V) : (∀ v, 0 ≤ f v) → 0 ≤ map_sum f m.
Proof. intros Hf. unfold map_sum. apply (map_fold_weak_ind (fun r m => 0 ≤ r)); [lia|]. intros k v m' r _ Hr. specialize (Hf v). lia. Qed.
Lemma empty_msgs ps : produce_set_ok conf ps → empty ps = true → partition_msgs ps t n = [].
Proof.
  intros (Hc & _ & Hok) He. unfold empty in He. apply Z.eqb_eq in He. unfold partition_msgs. destruct (get_block _ _ _) as [s|] eqn:E; [|done]. exfalso.
  pose proof (total_drop (fun s => len (ps_msgs s)) _ _ _ _ E) as Hd. destruct (Hok _ _ _ E) as (_ & Hne & _).
  assert (0 ≤ total (fun s => len (ps_msgs s)) (alter (delete n) t (msgs ps))) by (do 2 (apply map_sum_nonneg; intros); apply len_nonneg).
  assert (0 < len (ps_msgs s)) by (destruct (ps_msgs s) as [|x l]; [done|]; rewrite len_cons; pose proof (len_nonneg l); lia). cbn in *. lia.
Qed.

(** Whether the block of this partition is to be retried *)
Definition kept (response : option ProduceResponse) : bool :=
  match response with
  | Some response => match ProduceResponse_GetBlock response t n with Some block => retriable (prb_Err block) | None => false end
  | None => false
  end.
Lemma told_key m : key (told conf m) = key m.
Proof. unfold told. by destruct (Return_Successes _). Qed.
Lemma told_ident m : ident (told conf m) = ident m.
Proof. unfold told. by destruct (Return_Successes _). Qed.
Lemma mine_none l : Forall (fun m => key m ≠ (t, n)) l → mine l = [].
Proof. apply filter_none. Qed.
Lemma mine_all l : Forall (fun m => key m = (t, n)) l → mine l = l.
Proof. apply filter_all. Qed.
Lemma stamped_keys block l : key <$> imap (stamped conf block) l = key <$> l.
Proof. rewrite fmap_imap. exact (imap_const key l). Qed.
Lemma stamped_idents block l : ident <$> imap (stamped conf block) l = ident <$> l.
Proof. rewrite fmap_imap. exact (imap_const ident l). Qed.
(** Whom the first loop reports, as far as this partition goes *)
Lemma settle_adds broker response t' n' s tp p :
  wlp (settle conf broker response (t', n', s) (tp, p)) (fun st => ∃ S, adds [] S p st.2 ∧ (tp ≠ [] → st.1 ≠ []) ∧
    (S = [] ∨ ∃ l, S = told conf <$> l ∧ key <$> l = key <$> ps_msgs s ∧ ident <$> l = ident <$> ps_msgs s ∧ (t' = t → n' = n → kept response = false)) ∧
    (t' = t → n' = n → kept response = true → st.1 ≠ [])).
Proof.
  unfold settle, kept. destruct response as [rsp|].
  2:{ apply wlp_bind. eapply wlp_mono; [add_tac|]. intros p' Ha. eexists. split_and!; [exact Ha|done| |done]. right. by eexists. }
  destruct (ProduceResponse_GetBlock rsp t' n') as [block|] eqn:Eb.
  2:{ apply wlp_bind. eapply wlp_mono; [add_tac|]. intros p' Ha. eexists. split_and!; [exact Ha|done|by left|]. intros -> ->. by rewrite Eb. }
  assert (∀ c, retriable (prb_Err block) = c → t' = t → n' = n →
    match ProduceResponse_GetBlock rsp t n with Some block => retriable (prb_Err block) | None => false end = c) as Hk by (intros c Hc -> ->; by rewrite Eb).
  destruct (Z.eqb_spec (prb_Err block) ErrNoError) as [E|E1].
  { apply wlp_bind. eapply wlp_mono; [add_tac|]. intros p' Ha. assert (retriable (prb_Err block) = false) as Hr by (by rewrite E). eexists. split_and!; [exact Ha|done| |].
    - right. eexists. split_and!; [done|apply stamped_keys|apply stamped_idents|]. auto.
    - intros E1' E2'. by rewrite (Hk false Hr E1' E2'). }
  destruct (Z.eqb_spec (prb_Err block) ErrDuplicateSequenceNumber) as [E|E2].
  { apply wlp_bind. eapply wlp_mono; [add_tac|]. intros p' Ha. assert (retriable (prb_Err block) = false) as Hr by (by rewrite E). eexists. split_and!; [exact Ha|done| |].
    - right. eexists. split_and!; [done..|]. auto.
    - intros E1' E2'. by rewrite (Hk false Hr E1' E2'). }
  replace (Max <=? 0) with false by lia. destruct (retriable (prb_Err block)) eqn:Hr.
  - exists []. split_and!; [apply adds_refl| |by left|]; intros; by destruct tp.
  - cbn [gbind]. apply wlp_bind. eapply wlp_mono; [add_tac|]. intros p' Ha. exists []. split_and!; [exact Ha|done|by left|]. intros E1' E2'. by rewrite (Hk false eq_refl E1' E2').
Qed.
Lemma keys_other l k : Forall (fun m => key m = k) l → k ≠ (t, n) → ∀ l', key <$> l' = key <$> l → mine (told conf <$> l') = [].
Proof.
  intros Hl Hk l' E. apply mine_none, Forall_fmap, Forall_forall. intros m Hm. cbn. rewrite told_key. intros E'. apply Hk. rewrite <- E'.
  assert (key m ∈ key <$> l) as (x & -> & Hx)%list_elem_of_fmap by (rewrite <- E; by apply list_elem_of_fmap_2). rewrite Forall_forall in Hl. symmetry. by apply Hl.
Qed.
Lemma keys_mine l : Forall (fun m => key m = (t, n)) l → ∀ l', key <$> l' = key <$> l → ident <$> l' = ident <$> l → ident <$> mine (told conf <$> l') = ident <$> l.
Proof.
  intros Hl l' E Ei. rewrite mine_all.
  - rewrite <- Ei, <- list_fmap_compose. apply list_fmap_ext. intros _ x _. apply told_ident.
  - apply Forall_fmap, Forall_forall. intros m Hm. cbn. rewrite told_key.
    assert (key m ∈ key <$> l) as (x & -> & Hx)%list_elem_of_fmap by (rewrite <- E; by apply list_elem_of_fmap_2). rewrite Forall_forall in Hl. by apply Hl.
Qed.
(** The first loop of [handleSuccess] *)
Lemma b_settle o sent response b bp p x : fair o → produce_set_ok conf sent → bsafe (partition_msgs sent t n) x b bp p →
  wlp (go_each (settle conf (bp_broker bp) response) (eachPartition o sent) ([], p)) (fun st =>
    if kept response && bool_decide (is_Some (get_block (msgs sent) t n)) then bsafe (partition_msgs sent t n) x b bp st.2 ∧ st.1 ≠ []
    else bsafe [] x b bp st.2).
Proof.
  intros Ho Hok H. pose proof (msgs_mine _ Hok) as Hkeys. destruct (each_split o sent Ho Hok) as (l & l' & -> & Hl & Hl').
  assert (∀ y (c : bool) l, Forall other l → Forall (fun e => ∀ st, (bsafe y x b bp st.2 ∧ (c = true → st.1 ≠ [])) →
    wlp (settle conf (bp_broker bp) response e st) (fun st => bsafe y x b bp st.2 ∧ (c = true → st.1 ≠ []))) l) as Hoth.
  { intros y c k Hk. eapply Forall_impl; [exact Hk|]. intros [[t' n'] s] [Hn Hf] [tp q] [Hq Hc]. cbn [fst snd] in *. eapply wlp_mono; [apply settle_adds|].
    intros [tp' q'] (S & Ha & Hne & HS & _). cbn [fst snd] in *. split; [|auto]. eapply b_plain; [exact Ha|done| |exact Hq].
    destruct HS as [->|(k' & -> & Ek & _)]; [done|]. by eapply keys_other. }
  rewrite each_app. apply wlp_bind. eapply wlp_mono; [apply (each_inv _ (fun st => bsafe (partition_msgs sent t n) x b bp st.2 ∧ (false = true → st.1 ≠ []))); [by apply Hoth|by split]|].
  intros [tp q] [Hq _]. cbn [snd] in Hq. rewrite each_app. apply wlp_bind. unfold partition_msgs in *. destruct (get_block (msgs sent) t n) as [s|] eqn:Es; cbn [fmap option_fmap option_map default from_option id] in *.
  - rewrite bool_decide_eq_true_2, andb_true_r by done. cbn [go_each]. apply wlp_bind. eapply wlp_mono; [apply settle_adds|].
    intros [tp' q'] (S & Ha & _ & HS & Hkept). cbn [fst snd wlp] in *. destruct (kept response) eqn:Ek.
    + assert (S = []) as ->. { destruct HS as [->|(k' & _ & _ & _ & Hf)]; [done|]. by specialize (Hf eq_refl eq_refl). }
      eapply wlp_mono; [apply (each_inv _ (fun st => bsafe (ps_msgs s) x b bp st.2 ∧ (true = true → st.1 ≠ []))); [by apply Hoth|]|].
      * split; [by eapply b_plain|]. intros _. by apply Hkept.
      * intros st [? ?]. auto.
    + eapply wlp_mono; [apply (each_inv _ (fun st => bsafe [] x b bp st.2 ∧ (false = true → st.1 ≠ []))); [by apply Hoth|]|].
      * split; [|done]. cbn [snd]. destruct HS as [->|(k' & -> & E1 & E2 & _)]; [by eapply b_failed|]. eapply b_acked; [exact Ha| |exact Hq]. by apply keys_mine.
      * by intros st [? _].
  - rewrite bool_decide_eq_false_2, andb_false_r by (by intros [? ?]). cbn [go_each wlp].
    eapply wlp_mono; [apply (each_inv _ (fun st => bsafe [] x b bp st.2 ∧ (false = true → st.1 ≠ []))); [by apply Hoth|by split]|]. by intros st [? _].
Qed.

(** The second loop: what it leaves of the broker producer *)
Definition looped (bp bp' : brokerProducer) : Prop := bp_run bp' = bp_run bp ∧ bp_flight bp' = bp_flight bp.
Lemma retry_other response e y x b bp p bp0 : other e → looped bp0 bp → bsafe y x b bp p →
  wlp (retry_partition conf response e (bp, p)) (fun st => bsafe y x b st.1 st.2 ∧ looped bp0 st.1).
Proof.
  destruct e as [[t' n'] s]. intros [Hn Hf] Hl H. cbn [fst snd] in *. unfold retry_partition. destruct (ProduceResponse_GetBlock response t' n') as [block|]; [|done].
  apply wlp_if; intros _; [|done]. rewrite Hidem. destruct (bs_sets _ _ _ _ _ H) as [Hb Hfl]. apply wlp_bind. eapply wlp_mono; [add_tac|]. intros p1 Ha1.
  cbn [bp_buffer set_current]. pose proof (drop_spec conf t' n' (bp_buffer bp) Hb) as Hd. destruct (dropPartition t' n' (bp_buffer bp)) as [dropped buffer].
  destruct Hd as (-> & Hok' & Hq). apply wlp_bind. eapply wlp_mono; [add_tac|]. intros p2 Ha2. cbn [wlp fst snd]. split; [|done].
  assert (t' ≠ t ∨ n' ≠ n) as Hne by (destruct (decide (t' = t)) as [->|]; [right; intros ->; done|by left]).
  assert (Forall (fun m => key m ≠ (t, n)) (ps_msgs s)) as Hs by (eapply Forall_impl; [exact Hf|]; cbn; congruence).
  assert (Forall (fun m => key m ≠ (t, n)) (partition_msgs (bp_buffer bp) t' n')) as Hdr.
  { unfold partition_msgs. destruct (get_block _ _ _) as [s'|] eqn:E; [|done]. destruct Hb as (_ & _ & Hb). destruct (Hb _ _ _ E) as (_ & _ & Hk). cbn.
    eapply Forall_impl; [exact Hk|]. cbn. intros m [E1 E2]. unfold key. rewrite E1, E2. done. }
  eapply b_same; [| | | |eapply b_plain; [exact (adds_trans _ _ _ _ _ _ _ Ha1 Ha2)| |done|exact H]].
  - unfold taken. cbn [bp_flight bp_buffer set_buffer set_current]. rewrite Hq, decide_False by tauto. done.
  - done.
  - unfold refuses, needsRetry. cbn [closing currentRetries set_buffer set_current control Topic pm_Partition]. rewrite get_add, decide_False by tauto. done.
  - by split.
  - by rewrite mine_app, !back_other.
Qed.
(** This partition, if it is to be retried *)
Lemma retry_mine response s x b bp p bp0 : looped bp0 bp → bp_flight bp = None → Forall (fun m => key m = (t, n)) (ps_msgs s) →
  (kept (Some response) = true → bsafe (ps_msgs s) x b bp p) → (kept (Some response) = false → bsafe [] x b bp p) →
  wlp (retry_partition conf response (t, n, s) (bp, p)) (fun st => bsafe [] x b st.1 st.2 ∧ looped bp0 st.1).
Proof.
  intros Hl Hfl Hs Hk Hnk. unfold retry_partition, kept in *. destruct (ProduceResponse_GetBlock response t n) as [block|]; [|split; auto].
  apply wlp_if; intros Hr; [specialize (Hk Hr)|split; auto]. rewrite Hidem. destruct (bs_sets _ _ _ _ _ Hk) as [Hb _]. apply wlp_bind. eapply wlp_mono; [add_tac|]. intros p1 Ha1.
  cbn [bp_buffer set_current]. pose proof (drop_spec conf t n (bp_buffer bp) Hb) as Hd. destruct (dropPartition t n (bp_buffer bp)) as [dropped buffer].
  destruct Hd as (-> & Hok' & Hq). apply wlp_bind. eapply wlp_mono; [add_tac|]. intros p2 Ha2. cbn [wlp fst snd]. split; [|done].
  assert (taken bp = partition_msgs (bp_buffer bp) t n) as Et by (unfold taken; by rewrite Hfl).
  eapply (b_return _ _ b bp); [exact (adds_trans _ _ _ _ _ _ _ Ha1 Ha2)| | | |done| |exact Hk].
  - rewrite <- again_app, <- Et. apply back_mine. apply Forall_app_2; [done|]. apply taken_mine, (bs_sets _ _ _ _ _ Hk).
  - unfold taken. cbn [bp_flight bp_buffer set_buffer set_current]. rewrite Hfl, Hq, decide_True by done. done.
  - unfold refuses, needsRetry. cbn [closing currentRetries set_buffer set_current control Topic pm_Partition]. rewrite get_add, decide_True by done. by destruct (closing bp).
  - split; [done|]. cbn. by rewrite Hfl.
Qed.
Lemma b_success o o' sent response b bp p x : fair o → fair o' → produce_set_ok conf sent → bp_flight bp = None → bsafe (partition_msgs sent t n) x b bp p →
  wlp (handleSuccess conf o o' sent response bp p) (fun st => bsafe [] x b st.1 st.2 ∧ looped bp st.1).
Proof.
  intros Ho Ho' Hok Hfl H. unfold handleSuccess. apply wlp_bind. eapply wlp_mono; [by apply b_settle|]. intros [tp p1] H1. cbn [fst snd] in *.
  assert (tp ≠ [] ∧ is_Some response ∨ wlp (A := brokerProducer * asyncProducer) (match tp, response with _ :: _, Some r => go_each (retry_partition conf r) (eachPartition o' sent) (bp, p1) | _, _ => Ret (bp, p1) end)
    (fun st => bsafe [] x b st.1 st.2 ∧ looped bp st.1)) as [[Htp [r ->]]|]; [|  |done].
  { destruct tp as [|t0 tp], response as [r|]; [right|right|left; eauto|right]; cbn [wlp fst snd]; (split; [|done]); destruct (kept _ && _) eqn:EK; try done; by destruct H1. }
  destruct tp as [|t0 tp]; [done|]. clear Htp. destruct (each_split o' sent Ho' Hok) as (l & l' & -> & Hl & Hl').
  set (y := if kept (Some r) && bool_decide (is_Some (get_block (msgs sent) t n)) then partition_msgs sent t n else []).
  assert (bsafe y x b bp p1) as Hy by (unfold y; destruct (kept _ && _); [by destruct H1|done]).
  assert (∀ z k, Forall other k → Forall (fun e => ∀ st, (bsafe z x b st.1 st.2 ∧ looped bp st.1) → wlp (retry_partition conf r e st) (fun st => bsafe z x b st.1 st.2 ∧ looped bp st.1)) k) as Hoth.
  { intros z k Hk. eapply Forall_impl; [exact Hk|]. intros e He [bp1 q] [? ?]. by apply retry_other. }
  rewrite each_app. apply wlp_bind. eapply wlp_mono; [apply (each_inv _ (fun st => bsafe y x b st.1 st.2 ∧ looped bp st.1)); [by apply Hoth|by split]|].
  intros [bp1 q1] [Hq1 Hl1]. cbn [fst snd] in *. rewrite each_app. apply wlp_bind. apply (wlp_mono _ (fun st => bsafe [] x b st.1 st.2 ∧ looped bp st.1)).
  - pose proof (msgs_mine _ Hok) as Hkeys. unfold partition_msgs in *. subst y. destruct (get_block (msgs sent) t n) as [s|]; cbn [fmap option_fmap option_map default from_option id go_each] in *.
    + rewrite bool_decide_eq_true_2, andb_true_r in Hq1 by done. apply wlp_bind. eapply wlp_mono; [eapply (retry_mine r s x b bp1 q1 bp); try done|].
      * destruct Hl1 as [_ ->]. done.
      * intros E. by rewrite E in Hq1.
      * intros E. by rewrite E in Hq1.
      * done.
    + rewrite bool_decide_eq_false_2, andb_false_r in Hq1 by (by intros [? ?]). by cbn.
  - intros st Hst. apply each_inv; [by apply Hoth|done].
Qed.
Lemma b_error o o' sent err b bp p x : fair o → fair o' → produce_set_ok conf sent → bp_flight bp = None → bsafe (partition_msgs sent t n) x b bp p →
  wlp (handleError conf o o' sent err bp p) (fun st => bsafe [] x b st.1 st.2 ∧ looped bp st.1).
Proof.
  intros Ho Ho' Hok Hfl H. destruct (bs_sets _ _ _ _ _ H) as [Hb _].
  assert (taken bp = partition_msgs (bp_buffer bp) t n) as Et by (unfold taken; by rewrite Hfl).
  assert (∀ err : broker_error, wlp (let* p := abandonBrokerConnection conf (bp_broker bp) p in
    let* p := go_each (fun e => retryMessages conf (ps_msgs e.2) (RequestFailed err)) (eachPartition o sent) p in
    let* p := go_each (fun e => retryMessages conf (ps_msgs e.2) (RequestFailed err)) (eachPartition o' (bp_buffer bp)) p in
    Ret (rollOver (set_closing (Some (RequestFailed err)) bp), p)) (fun st => bsafe [] x b st.1 st.2 ∧ looped bp st.1)) as Hretry.
  { intros e. apply wlp_bind. eapply wlp_mono; [add_tac|]. intros p1 Ha1.
    apply wlp_bind. eapply wlp_mono; [apply (each_adds _ (fun e => again (ps_msgs e.2)) (fun _ => [])); intros; add_tac|]. intros p2 Ha2.
    apply wlp_bind. eapply wlp_mono; [apply (each_adds _ (fun e => again (ps_msgs e.2)) (fun _ => [])); intros; add_tac|]. intros p3 Ha3. cbn [wlp fst snd]. split; [|done].
    rewrite bind_nil in Ha2, Ha3. eapply (b_return _ _ b bp); [exact (adds_trans _ _ _ _ _ _ _ (adds_trans _ _ _ _ _ _ _ Ha1 Ha2) Ha3)| |  |done|done| |exact H].
    - cbn [app]. rewrite mine_app, !back_each, <- mine_app, <- again_app, <- Et by done. apply back_mine.
      apply Forall_app_2; [by apply msgs_mine|]. apply taken_mine, (bs_sets _ _ _ _ _ H).
    - unfold taken. cbn [bp_flight bp_buffer rollOver set_buffer set_timer set_closing]. by rewrite Hfl.
    - split; [apply new_ok|]. cbn. by rewrite Hfl. }
  unfold handleError. destruct err; try apply Hretry.
  apply wlp_bind. eapply wlp_mono; [apply (each_adds _ (fun e => []) (fun _ => [])); intros; add_tac|]. intros p1 Ha1. rewrite !bind_nil in Ha1.
  cbn [wlp fst snd]. split; [by eapply b_failed|done].
Qed.
(** [case response := <-bp.responses] *)
Lemma b_response now o o' sent r b bp p : fair o → fair o' → bp_flight bp = Some sent → waits_ok bp → bsafe [] [] b bp p →
  wlp (bp_response conf producerID producerEpoch now o o' sent r bp p) (fun st => bsafe [] [] b st.1 st.2 ∧ waits_ok st.1).
Proof.
  intros Ho Ho' Hfl Hw H. destruct (bs_sets _ _ _ _ _ H) as [Hb Hf]. specialize (Hf sent Hfl).
  assert (bsafe (partition_msgs sent t n) [] b (set_flight None bp) p) as H1.
  { destruct H as [Hp Hi _ Hv]. split; [done|done|by split|]. unfold bview, taken in *. rewrite Hfl in Hv. cbn in *. exact Hv. }
  unfold bp_response, handleResponse. apply wlp_bind. apply wlp_bind.
  apply (wlp_mono _ (fun st => bsafe [] [] b st.1 st.2 ∧ looped (set_flight None bp) st.1)); [destruct r; by apply b_success || by apply b_error|].
  intros [bp1 p1] [H2 [Hrun Hfl2]]. cbn [fst snd] in *. cbn [wlp]. set (bp2 := if empty (bp_buffer bp1) then rollOver bp1 else bp1).
  assert (bsafe [] [] b bp2 p1 ∧ bp_run bp2 = bp_run bp) as [H3 Hrun2].
  { unfold bp2. destruct (empty _) eqn:He; [|done]. split; [|done]. destruct (bs_sets _ _ _ _ _ H2) as [Hb1 Hf1]. eapply b_same; [..|exact H2]; try done.
    unfold taken. cbn [bp_flight bp_buffer rollOver set_buffer set_timer]. by rewrite (empty_msgs _ Hb1 He). }
  destruct (bp_run bp2) as [|m|] eqn:Er.
  - cbn. split; [|by apply run_ok]. eapply b_same; [..|exact H3]; try done. apply (bs_sets _ _ _ _ _ H3).
  - destruct (Hw m) as [_ Hsyn]; [done|]. destruct (needsRetry bp2 m) as [err|] eqn:Hn.
    + apply wlp_bind. eapply wlp_mono; [eapply (b_retry m err b (set_run Running bp2) (set_run Running bp2)); try done|].
      * apply (bs_sets _ _ _ _ _ H3).
      * by left.
      * by apply b_unwait.
      * intros p2 H4. cbn. split; [done|by apply run_ok].
    + apply wlp_if; intros _.
      * cbn. split; [done|]. intros m'. rewrite Er. by intros [= <-].
      * eapply wlp_mono; [apply (b_buffer now m b bp2); [done|done|by apply b_unwait]|]. intros st [? ?]. split; [done|by apply run_ok].
  - cbn. split; [done|]. intros m. by rewrite Er.
Qed.
End broker.

(** ** The whole producer *)

Definition new_pp : partitionProducer := mk_pp t n None None 0 (replicate (Z.to_nat (Max + 1)) (mk_retry [] false)).
Definition part_of (s : system) : partitionProducer * list ProducerMessage := default (new_pp, []) (s_parts s !! (t, n)).
Definition front_of (s : system) : list ProducerMessage := coming (default [] (s_topics s !! t) ++ s_input s).
Definition sview (s : system) : view := view_of (part_of s).1 (part_of s).2 (front_of s) (ident <$> mine (s_submitted s)) (s_p s).
Record sys_ok (s : system) : Prop := mk_sys_ok {
  so_p : p_ok (s_p s);
  so_parts k pp q : s_parts s !! k = Some (pp, q) → pp_key pp = k ∧ pp_ok pp ∧ Forall (fun m => key m = k) q;
  so_topics u q : s_topics s !! u = Some q → Forall (fun m => Topic m = u ∧ (retries m = 0 → is_data m)) q;
  so_input : Forall (fun m => retries m = 0 → is_data m ∨ pm_flags m = shutdown) (s_input s) }.
Definition good (s : system) : Prop := sys_ok s ∧ ordered (sview s).

(** What the environment is trusted with: the application sends messages it has made itself, the
    iteration over a map meets every key *)
Definition event_ok (e : event) : Prop :=
  match e with
  | Input msg => retries msg = 0 ∧ is_data msg
  | BrokerResponse _ _ o o' _ => fair o ∧ fair o'
  | _ => True
  end.
Definition keeps (r : Go (option system)) : Prop := wlp r (fun r => ∀ s', r = Some s' → good s').

Lemma coming_cons m l : coming (m :: l) = coming [m] ++ coming l.
Proof. apply (filter_app _ [m]). Qed.
Lemma coming_app l k : coming (l ++ k) = coming l ++ coming k.
Proof. apply filter_app. Qed.
Lemma coming_new m : retries m = 0 → coming [m] = [].
Proof. intros Hm. unfold coming. by rewrite filter_cons_False by naive_solver. Qed.
Lemma coming_back m : retries m ≠ 0 → coming [m] = mine [m].
Proof. intros Hm. unfold coming, mine. rewrite !filter_cons, !filter_nil. repeat destruct (decide _); naive_solver. Qed.
(** A message that is not passed on *)
Lemma view_lose pp q l m k sub p : ordered (view_of pp q (l ++ coming [m] ++ k) sub p) → ordered (view_of pp q (l ++ k) sub p).
Proof.
  unfold view_of, coming. rewrite filter_cons, filter_nil. destruct (decide _); [|done]. rewrite <- !app_assoc. cbn [app]. apply ordered_lose.
Qed.
Lemma good_adds s p' : adds [] [] (s_p s) p' → good s → good (set_p p' s).
Proof.
  intros Ha [[] H]. split; [constructor; try done; by eapply adds_ok|]. by eapply view_adds_nil.
Qed.

Lemma keeps_input m s : retries m = 0 → is_data m → good s → keeps (exec conf producerID producerEpoch (Input m) s).
Proof.
  intros Hr Hd [[] H]. unfold keeps. cbn. destruct (s_closed s); [done|]. intros ? [= <-]. split.
  - constructor; try done. cbn. apply Forall_app_2; [done|]. apply Forall_singleton. auto.
  - unfold sview, front_of in *. cbn. by rewrite app_assoc, coming_app, (coming_new m), app_nil_r.
Qed.
Lemma keeps_close s : good s → keeps (exec conf producerID producerEpoch AsyncClose s).
Proof.
  intros H. unfold keeps. cbn [exec]. apply wlp_if; intros _; [done|]. apply wlp_bind. eapply wlp_mono; [add_tac|]. intros p' Ha. cbn [wlp]. intros ? [= <-].
  apply (good_adds s p' Ha) in H. destruct H as [[] H]. split.
  - constructor; try done. cbn. apply Forall_app_2; [done|]. apply Forall_singleton. auto.
  - unfold sview, front_of in *. cbn in *. by rewrite app_assoc, coming_app, (coming_new (control _ _ _ _)), app_nil_r.
Qed.
Lemma keeps_retry s : Forall (fun m => 0 < retries m) (p_retries (s_p s)) → good s → keeps (exec conf producerID producerEpoch RetryHandler s).
Proof.
  intros Hr [[[]] H]. unfold keeps. cbn [exec]. destruct (p_retries (s_p s)) as [|m q] eqn:E; [done|]. apply Forall_cons in Hr as [Hr _].
  apply wlp_if; intros _; [done|]. cbn [wlp]. intros ? [= <-]. split.
  - constructor; try done. cbn. apply Forall_app_2; [done|]. apply Forall_singleton. lia.
  - unfold sview, front_of, view_of in *. cbn. rewrite E in H. rewrite app_assoc, coming_app, (coming_back m) by lia. rewrite mine_cons in H. rewrite <- app_assoc. exact H.
Qed.

(** *** The dispatcher and the topics *)

(** A message is in the hands of a goroutine: the view with it in front *)
Definition with_message (m : ProducerMessage) (l : list ProducerMessage) (s : system) : Prop :=
  sys_ok s ∧ ordered (view_of (part_of s).1 (part_of s).2 (l ++ coming [m] ++ coming (s_input s)) (ident <$> mine (s_submitted s)) (s_p s)).
Lemma with_adds m l s p' : adds [] [] (s_p s) p' → with_message m l s → with_message m l (set_p p' s).
Proof. intros Ha [[] H]. split; [constructor; try done; by eapply adds_ok|]. by eapply view_adds_nil. Qed.
Lemma with_lose m s : with_message m (coming (default [] (s_topics s !! t))) s → good s.
Proof. intros [Hs H]. split; [done|]. unfold sview, front_of. rewrite coming_app. by eapply view_lose. Qed.
Lemma keeps_route m s : (retries m = 0 → is_data m) → with_message m (coming (default [] (s_topics s !! t))) s → wlp (route conf m s) good.
Proof.
  intros Hm H. assert (∀ e, wlp (let* p := returnError m e (s_p s) in Ret (set_p p s)) good) as Herr.
  { intros e. apply wlp_bind. eapply wlp_mono; [add_tac|]. intros p' Ha. cbn [wlp]. apply (with_lose m). by apply with_adds. }
  unfold route. apply wlp_if; intros _; [apply Herr|]. apply wlp_if; intros _; [apply Herr|]. cbn [wlp]. destruct H as [[] H]. split.
  - constructor; try done. cbn. intros u q. destruct (decide (Topic m = u)) as [<-|Hn]; [|rewrite lookup_insert_ne by done; apply so_topics0].
    rewrite lookup_insert_eq. intros [= <-]. apply Forall_app_2; [|by apply Forall_singleton]. destruct (s_topics s !! Topic m) eqn:E; [by apply so_topics0|done].
  - unfold sview, front_of in *. cbn. destruct (decide (Topic m = t)) as [Et|Hn].
    + rewrite Et, lookup_insert_eq. cbn. rewrite <- app_assoc, !coming_app. done.
    + rewrite lookup_insert_ne by done. apply view_lose in H. by rewrite coming_app.
Qed.
Lemma keeps_dispatch s : good s → keeps (exec conf producerID producerEpoch Dispatch s).
Proof.
  intros [Hs H]. unfold keeps. cbn [exec]. destruct (s_input s) as [|m q] eqn:E; [done|]. apply wlp_bind.
  apply (wlp_mono _ good); [|by intros s' Hs' ? [= <-]]. pose proof (so_input s Hs) as Hi. rewrite E in Hi. apply Forall_cons in Hi as [Hm Hi].
  assert (with_message m (coming (default [] (s_topics s !! t))) (set_input q s)) as Hw.
  { destruct Hs. split; [by constructor|]. unfold sview, front_of in H. rewrite E, coming_app, coming_cons in H. exact H. }
  unfold dispatcher. apply wlp_if; intros Hsh.
  { apply wlp_bind. eapply wlp_mono; [add_tac|]. intros p' Ha. cbn [wlp]. apply (with_adds _ _ _ p' Ha) in Hw. apply (with_lose m (set_p p' (set_input q s))) in Hw. destruct Hw as [[] Hv]. by split. }
  assert (retries m = 0 → is_data m) as Hd. { intros Hr. destruct (Hm Hr) as [?|E']; [done|]. by rewrite E' in Hsh. }
  apply wlp_if; intros Hr; [|by apply keeps_route]. apply wlp_if; intros _.
  - cbn [wlp]. eapply (with_lose m (set_p _ (set_input q s))), with_adds; [|exact Hw]. by constructor; cbn; rewrite ?app_nil_r.
  - apply wlp_bind. eapply wlp_mono; [add_tac|]. intros p' Ha. apply keeps_route; [done|]. apply (with_adds _ _ _ p' Ha) in Hw. destruct Hw as [[] Hv]. split; [by constructor|exact Hv].
Qed.

(** A message is given to its partition. *)
Lemma keeps_hand_over leader m s F S : sys_ok s → ordered (view_of (part_of s).1 (part_of s).2 F S (s_p s)) →
  (∀ pp q p, ordered (view_of pp q F S p) →
     ordered (view_of pp (if decide (key m = (t, n)) then q ++ [m] else q) (front_of s) (ident <$> mine (s_submitted s)) p)) →
  wlp (hand_over conf leader m s) good.
Proof.
  intros Hs H Hm. unfold hand_over. fold (key m). destruct (s_parts s !! key m) as [[pp q]|] eqn:E.
  - cbn [wlp]. destruct Hs. destruct (so_parts0 _ _ _ E) as (Hk & Hok & Hq). split.
    + constructor; try done. cbn. intros k pp' q'. destruct (decide (key m = k)) as [<-|Hn]; [|rewrite lookup_insert_ne by done; apply so_parts0].
      rewrite lookup_insert_eq. intros [= <- <-]. split_and!; try done. by apply Forall_app_2, Forall_singleton.
    + apply Hm in H. unfold sview, part_of in *. cbn. destruct (decide (key m = (t, n))) as [Ek|Hn].
      * rewrite Ek in *. rewrite lookup_insert_eq. rewrite E in H. exact H.
      * rewrite lookup_insert_ne by done. exact H.
  - unfold newPartitionProducer. set (pp0 := mk_pp _ _ _ _ _ _).
    assert (pp_ok pp0 ∧ pp_key pp0 = key m ∧ own (part_of s).1 (part_of s).2 F S pp0 [] (s_p s)) as (Hok & Hk & Hown).
    { assert (∀ e, buf_at pp0 e = []) as Hb.
      { intros e. unfold buf_at, level_at. destruct (decide (0 ≤ e)); [|done]. destruct (retryState pp0 !! Z.to_nat e) as [r|] eqn:Er; [|done]. apply lookup_replicate in Er as [-> _]. done. }
      split; [split; [split|]|split; [done|]]; try done.
      - intros e. by rewrite Hb.
      - split; [apply (so_p s Hs)|]. destruct (decide (pp_key pp0 = (t, n))) as [Ek|Hn]; [|exact H]. unfold part_of in H. change (pp_key pp0) with (key m) in Ek.
        rewrite <- Ek, E in H. cbn in H. unfold view_of, new_pp in H. cbn in H. injection Ek as Et En. unfold pp0. rewrite Et, En. exact H. }
    apply wlp_bind. apply (wlp_mono _ (fun r => own (part_of s).1 (part_of s).2 F S r.1 [] r.2 ∧ pp_ok r.1 ∧ pp_key r.1 = key m)).
    + destruct leader as [broker|]; [|by cbn]. eapply wlp_mono; [by apply own_select|]. intros [pp' p'] (H1 & H2 & _). cbn in *. split_and!; [done|by eapply same_ok|].
      by destruct H2 as (-> & _).
    + intros [pp' p'] ([Hp Hv] & Hok' & Hk'). cbn [wlp fst snd] in *. destruct Hs. split.
      * constructor; try done. cbn. intros k pp2 q2. destruct (decide (key m = k)) as [<-|Hn]; [|rewrite lookup_insert_ne by done; apply so_parts0].
        rewrite lookup_insert_eq. intros [= <- <-]. split_and!; try done. by apply Forall_singleton.
      * unfold sview. assert (front_of (set_parts (<[key m := (pp', [m])]> (s_parts s)) (set_p p' s)) = front_of s) as -> by done. cbn [s_submitted set_parts set_p s_p].
        rewrite Hk' in Hv. destruct (decide (key m = (t, n))) as [Ek|Hn].
        -- apply Hm in Hv. unfold part_of. cbn. rewrite Ek, lookup_insert_eq. exact Hv.
        -- apply Hm in Hv. unfold part_of in *. cbn. rewrite lookup_insert_ne by done. exact Hv.
Qed.
Lemma keeps_topic u env s : good s → keeps (exec conf producerID producerEpoch (DispatchTopic u env) s).
Proof.
  intros [Hs H]. unfold keeps. cbn [exec]. destruct (s_topics s !! u) as [[|m q]|] eqn:E; try done. apply wlp_bind.
  apply (wlp_mono _ good); [|by intros s' Hs' ? [= <-]]. pose proof (so_topics s Hs u _ E) as Ht. apply Forall_cons in Ht as [[Hu Hm] Ht].
  set (s1 := set_topics (<[u := q]> (s_topics s)) s). assert (sys_ok s1) as Hs1.
  { destruct Hs. constructor; try done. cbn. intros v k. destruct (decide (u = v)) as [<-|Hn]; [|rewrite lookup_insert_ne by done; apply so_topics0].
    rewrite lookup_insert_eq. by intros [= <-]. }
  assert (front_of s = (if decide (u = t) then coming [m] else []) ++ front_of s1) as Hfront.
  { unfold front_of. cbn [s1 s_topics s_input set_topics]. destruct (decide (u = t)) as [Et|Hn].
    - rewrite Et in E |- *. rewrite E, lookup_insert_eq. exact (coming_cons m (q ++ s_input s)).
    - by rewrite lookup_insert_ne. }
  unfold topic_dispatch. apply wlp_if; intros Hr.
  - apply Z.eqb_eq in Hr. rewrite (coming_new m Hr) in Hfront. assert (front_of s = front_of s1) as Hf by (rewrite Hfront; by destruct (decide _)).
    assert (good s1) as Hg1 by (split; [done|]; unfold sview; rewrite <- Hf; exact H). apply wlp_bind.
    destruct (partitionMessage _ _ _ _) as [[m'|e]|] eqn:Ep; cbn [wlp]; [| |done].
    + rewrite Hidem. assert (is_data m' ∧ retries m' = 0 ∧ Topic m' = Topic m) as (Hd' & Hr' & Ht').
      { unfold partitionMessage in Ep. destruct (te_available env _) as [ps|]; [|done]. destruct (_ =? 0); [done|]. destruct (te_partitioner env _ _) as [c|]; [|done].
        destruct (_ || _); [done|]. destruct (go_index _ _); [|done]. injection Ep as <-. cbn. auto. }
      apply (keeps_hand_over _ _ _ (front_of s1) (ident <$> mine (s_submitted s1))); [by destruct Hs1|exact (proj2 Hg1)|].
      intros pp k p Hv. cbn [s_submitted submit set_p]. change (front_of (submit m' (set_p (s_p s1) s1))) with (front_of s1). unfold mine in *. rewrite filter_app, fmap_app.
      rewrite (filter_cons _ m'), filter_nil. destruct (decide (key m' = (t, n))) as [Ek|Hn]; [|by rewrite app_nil_r]. cbn [fmap list_fmap]. by apply ordered_new.
    + apply wlp_bind. eapply wlp_mono; [add_tac|]. intros p' Ha. cbn [wlp]. by apply good_adds.
  - apply Z.eqb_neq in Hr. apply (keeps_hand_over _ _ _ (front_of s) (ident <$> mine (s_submitted s1))); [done|exact H|].
    intros pp k p Hv. rewrite Hfront in Hv. destruct (decide (key m = (t, n))) as [Ek|Hn].
    + injection Ek as Et En. rewrite decide_True in Hv by congruence. rewrite (coming_back m Hr), mine_own in Hv by (unfold key; congruence). by apply ordered_up.
    + destruct (decide (u = t)) as [Eu|]; [|done]. rewrite (coming_back m Hr), mine_other in Hv by done. exact Hv.
Qed.
Lemma keeps_partition u k lead s : good s → keeps (exec conf producerID producerEpoch (DispatchPartition u k lead) s).
Proof.
  intros [Hs H]. unfold keeps. cbn [exec]. destruct (s_parts s !! (u, k)) as [[pp [|m q]]|] eqn:E; try done.
  destruct (so_parts s Hs _ _ _ E) as (Hk & Hok & Hq). apply Forall_cons in Hq as [Hm Hq]. apply wlp_bind.
  eapply wlp_mono; [apply (own_dispatch (part_of s).1 (part_of s).2 (front_of s) (ident <$> mine (s_submitted s)) lead m q pp (s_p s) Hok)|].
  - congruence.
  - split; [apply (so_p s Hs)|]. rewrite Hk. destruct (decide _) as [Ek|]; [|exact H]. unfold sview, part_of in H. rewrite <- Ek, E in H. exact H.
  - intros [pp' p'] ([Hp Hv] & Hok' & Hk'). cbn [wlp fst snd] in *. intros ? [= <-]. destruct Hs. split.
    + constructor; try done. cbn. intros j pp2 q2. destruct (decide ((u, k) = j)) as [<-|Hn]; [|rewrite lookup_insert_ne by done; apply so_parts0].
      rewrite lookup_insert_eq. intros [= <- <-]. split_and!; [congruence|done|done].
    + unfold sview, part_of in *. cbn. rewrite Hk', Hk in Hv. destruct (decide ((u, k) = (t, n))) as [Ek|Hn].
      * rewrite Ek, lookup_insert_eq. exact Hv.
      * rewrite lookup_insert_ne by done. exact Hv.
Qed.

(** *** The brokers *)

Lemma good_broker s b bp : good s → p_bps (s_p s) !! b = Some bp →
  bsafe (part_of s).1 (part_of s).2 (front_of s) (ident <$> mine (s_submitted s)) [] [] b bp (s_p s) ∧ waits_ok bp.
Proof. intros [Hs H] Hb. split; [by apply b_start; [apply (so_p s Hs)|..]|]. by destruct (po_bps _ (so_p s Hs) b bp Hb) as (_ & _ & ?). Qed.
Lemma broker_good s b r : sys_ok s → bsafe (part_of s).1 (part_of s).2 (front_of s) (ident <$> mine (s_submitted s)) [] [] b r.1 r.2 → waits_ok r.1 → good (store_bp b r s).
Proof. intros [] Hb Hw. destruct (b_end _ _ _ _ _ _ _ Hb Hw) as [Hp Hv]. split; [by constructor|exact Hv]. Qed.
Lemma keeps_broker s b bp bp' : good s → p_bps (s_p s) !! b = Some bp → taken bp' = taken bp → waiting bp' = waiting bp → refuses bp' = refuses bp → sets_ok bp' → waits_ok bp' →
  good (store_bp b (bp', s_p s) s).
Proof.
  intros H Hb E1 E2 E3 Hs Hw. destruct (good_broker s b bp H Hb) as [Hbs _]. apply broker_good; [apply H| |done]. by eapply b_same.
Qed.
Lemma keeps_message b now s : good s → keeps (exec conf producerID producerEpoch (BrokerMessage b now) s).
Proof.
  intros H. unfold keeps. cbn [exec]. destruct (p_bps (s_p s) !! b) as [bp|] eqn:Hb; [|done]. destruct (p_inputs (s_p s) !! b) as [[[|m q] c]|] eqn:Hi; try done.
  destruct (bp_run bp) eqn:Hrun; try done. destruct (good_broker s b bp H Hb) as [Hbs _]. apply wlp_bind.
  eapply wlp_mono; [apply (b_message (part_of s).1 (part_of s).2 (front_of s) (ident <$> mine (s_submitted s)) now m b bp); [done|]|].
  - destruct Hbs as [Hp Hin Hse Hv]. split; [by apply (inputs_ok b (m :: q))|by cbn; rewrite lookup_insert_eq|done|].
    unfold bview, waiting in *. rewrite Hrun in *. cbn [p_inputs set_inputs]. rewrite lookup_insert_eq. rewrite Hi in Hv.
    eapply ordered_ext; [..|exact Hv]; try done. intros b'. destruct (decide (b = b')) as [<-|Hn]; [rewrite !fn_lookup_insert|rewrite !fn_lookup_insert_ne by done].
    + symmetry. exact (mine_cons m q).
    + unfold rest_of. cbn. by rewrite lookup_insert_ne.
  - intros r [Hr Hw] ? [= <-]. by apply broker_good; [apply H|..].
Qed.
Lemma exec_keeps e s : event_ok e → Forall (fun m => 0 < retries m) (p_retries (s_p s)) → good s → keeps (exec conf producerID producerEpoch e s).
Proof.
  intros He Hr H. destruct e as [m| | | | |u env|u k lead|b now|b|b now|b now o o' r|b|lead|].
  - destruct He. by apply keeps_input.
  - by apply keeps_close.
  - unfold keeps. cbn. apply wlp_if; intros _; [|done]. cbn. intros ? [= <-]. destruct H as [[] Hv]. split; [by constructor|exact Hv].
  - by apply keeps_retry.
  - by apply keeps_dispatch.
  - by apply keeps_topic.
  - by apply keeps_partition.
  - by apply keeps_message.
  - unfold keeps. cbn [exec]. destruct (p_bps (s_p s) !! b) as [bp|] eqn:Hb; [|done]. destruct (bp_run bp) eqn:Hrun; try done. apply wlp_if; intros _; [|done]. cbn [wlp]. intros ? [= <-].
    eapply keeps_broker; try done; [apply (bs_sets _ _ _ _ _ _ _ _ _ (proj1 (good_broker s b bp H Hb)))|by apply run_ok].
  - unfold keeps. cbn [exec]. destruct (p_bps (s_p s) !! b) as [bp|] eqn:Hb; [|done]. apply wlp_if; intros Hf; [|done]. destruct (good_broker s b bp H Hb) as [Hbs Hw].
    apply wlp_bind. eapply wlp_mono; [apply b_flush; [|exact Hw|exact Hbs]|].
    + unfold may_flush in Hf. by destruct (bp_flight bp).
    + intros r [? ?] ? [= <-]. by apply broker_good; [apply H|..].
  - destruct He as [Ho Ho']. unfold keeps. cbn [exec]. destruct (p_bps (s_p s) !! b) as [bp|] eqn:Hb; [|done]. destruct (bp_flight bp) as [sent|] eqn:Hf; [|done].
    destruct (good_broker s b bp H Hb) as [Hbs Hw]. apply wlp_bind. eapply wlp_mono; [by eapply b_response|].
    intros st [? ?] ? [= <-]. by apply broker_good; [apply H|..].
  - unfold keeps. cbn [exec]. destruct (p_bps (s_p s) !! b) as [bp|] eqn:Hb; [|done]. destruct (p_inputs (s_p s) !! b) as [[[|m q] []]|]; try done.
    destruct (bp_run bp) eqn:Hrun; try done. cbn [wlp]. intros ? [= <-]. eapply keeps_broker; try done.
    + unfold waiting. by rewrite Hrun.
    + apply (bs_sets _ _ _ _ _ _ _ _ _ (proj1 (good_broker s b bp H Hb))).
  - unfold keeps. cbn. by rewrite (po_batches _ (so_p s (proj1 H))).
  - unfold keeps. cbn. by rewrite (po_resends _ (so_p s (proj1 H))).
Qed.
Lemma good_start : good newAsyncProducer.
Proof.
  split; [constructor; try done; constructor; cbn; try done|].
  - eapply ordered_ext; [..|apply ordered_start; lia]; try done; intros e.
    + cbn. unfold buf_at, level_at. destruct (decide (0 ≤ e)); [|done]. destruct (retryState _ !! _) as [r|] eqn:Er; [|done]. apply lookup_replicate in Er as [-> _]. done.
    + cbn. unfold pend_at, level_at. destruct (decide (0 ≤ e)); [|done]. destruct (retryState _ !! _) as [r|] eqn:Er; [|done]. apply lookup_replicate in Er as [-> _]. done.
Qed.
End view.

(** ** Any interleaving *)

Section runs.
Context (conf : Config) (producerID producerEpoch : Z).

(** The events one after the other; a run ends where an event cannot happen. *)
Fixpoint run_events (es : list event) (s : system) : Go (option system) :=
  match es with
  | [] => Ret (Some s)
  | e :: es => let* r := exec conf producerID producerEpoch e s in match r with Some s => run_events es s | None => Ret None end
  end.
Lemma good_positive s : (∀ t n, good conf t n s) → Forall (fun m => 0 < retries m) (p_retries (s_p s)).
Proof.
  intros H. apply Forall_forall. intros m Hm. destruct (H (Topic m) (pm_Partition m)) as [_ Hv]. apply ordered_back in Hv. rewrite Forall_forall in Hv.
  apply Hv, elem_of_app. right. by apply list_elem_of_filter.
Qed.
Lemma run_good es s : 0 < Retry_Max (Producer conf) → Idempotent (Producer conf) = false → Forall event_ok es → (∀ t n, good conf t n s) →
  wlp (run_events es s) (fun r => ∀ s', r = Some s' → ∀ t n, good conf t n s').
Proof.
  intros HM Hi He. revert s. induction He as [|e es He _ IH]; intros s H; cbn [run_events]; [by intros ? [= <-]|].
  pose proof (fun t n => exec_keeps conf producerID producerEpoch t n HM Hi e s He (good_positive s H) (H t n)) as Hk.
  destruct (exec conf producerID producerEpoch e s) as [[s1|]|]; [|done..]. cbn [gbind]. apply IH. intros t n. by apply (Hk t n).
Qed.

(** C7: A producer that is not idempotent and allows retries (Retry.Max > 0), given messages
    that the application has made itself (no retries, no internal flags): under any
    interleaving of the dispatchers, the partition and broker producers, the retries and the
    brokers, with retried batches, closing brokers and leaders that move, the messages of a
    partition that were acknowledged so far were acknowledged in the order the application
    sent them: a message that has to be retried never falls behind one that was sent after it.
    Nothing is said of idempotent producers, whose batches are resent by goroutines of their
    own. *)
Theorem acks_in_order es s t n : 0 < Retry_Max (Producer conf) → Idempotent (Producer conf) = false → Forall event_ok es →
  run_events es newAsyncProducer = Ret (Some s) →
  ident <$> mine t n (p_successes (s_p s)) `sublist_of` ident <$> mine t n (s_submitted s).
Proof.
  intros HM Hi He Hr. pose proof (run_good es newAsyncProducer HM Hi He (fun t n => good_start conf t n HM)) as H. rewrite Hr in H. cbn in H.
  destruct (H s eq_refl t n) as [_ Hv]. exact (ordered_acked _ _ _ _ Hv).
Qed.
End runs.

(** ** Example *)

(** Two messages to a broker that is no longer the leader, then to the new one, which acknowledges
    them *)
Definition order_msg (v : string) : ProducerMessage := mk_pm (B "t") None (Some (Encoded (B v))) None 0 0 zero_time 0 0 0.
Definition order_env : topic_env := mk_topic_env (fun _ => true) (fun _ => inl [0; 1]) (fun _ _ => inl 1) (Some 7).
Definition order_response (code : Z) : option ProduceResponse + broker_error :=
  inl (Some (mk_ProduceResponse {[B "t" := {[1 := mk_produced code 100 zero_time]}]} 0 0)).
Definition order_events : list event :=
  [Input (order_msg "a"); Input (order_msg "b"); Dispatch; Dispatch; DispatchTopic (B "t") order_env; DispatchTopic (B "t") order_env;
   DispatchPartition (B "t") 1 (fun _ => LeaderIs 7); DispatchPartition (B "t") 1 (fun _ => LeaderIs 7); BrokerMessage 0 5; BrokerMessage 0 5;
   BrokerFlush 0 5; BrokerMessage 0 5; BrokerResponse 0 5 (fun _ _ l => l) (fun _ _ l => l) (order_response ErrNotLeaderForPartition);
   RetryHandler; RetryHandler; Dispatch; Dispatch; DispatchTopic (B "t") order_env; DispatchTopic (B "t") order_env;
   DispatchPartition (B "t") 1 (fun _ => LeaderIs 8); DispatchPartition (B "t") 1 (fun _ => LeaderIs 8);
   BrokerMessage 0 5; BrokerMessage 1 5; BrokerMessage 1 5; BrokerMessage 1 5; BrokerFlush 1 5;
   BrokerResponse 1 5 (fun _ _ l => l) (fun _ _ l => l) (order_response ErrNoError)].
Definition order_state : system :=
  match run_events NewConfig (-1) (-1) order_events newAsyncProducer with Ret (Some s) => s | _ => newAsyncProducer end.
Lemma acks_in_order_witness :
  pm_Value <$> p_successes (s_p order_state) = [Some (Encoded (B "a")); Some (Encoded (B "b"))] ∧
  ident <$> mine (B "t") 1 (p_successes (s_p order_state)) `sublist_of` ident <$> mine (B "t") 1 (s_submitted order_state).
Proof.
  split; [vm_compute; reflexivity|].
  refine (acks_in_order NewConfig (-1) (-1) order_events order_state (B "t") 1 _ _ _ _).
  - vm_compute. reflexivity.
  - vm_compute. reflexivity.
  - repeat (apply Forall_cons; split; [cbn [event_ok]; first [exact I | by split | split; intros ? ? ?; reflexivity]|]). by apply Forall_nil.
  - vm_compute. reflexivity.
Defined.

(** ** A batch that is out of retries

    Only the first message of the batch is reported; the others are gone, and the wait group of
    the producer counts them for ever. *)
Definition exhausted (v : string) : ProducerMessage := set_retries 3 (order_msg v).
Definition exhausted_batch : batch_retry :=
  mk_batch_retry (B "t") 1 (mk_pset [exhausted "a"; exhausted "b"] (newDefaultRecords (mk_batch 0 0 2 0 0 false false 0 0 0 0 0 0 [] false false None)) 0) ErrNotLeaderForPartition.
Definition producer_with (inFlight : Z) : asyncProducer := set_inFlight inFlight (s_p newAsyncProducer).
Lemma exhausted_batch_lost :
  ∃ p, retryBatch (with_producer V1_0_0_0 0 true) (LeaderIs 7) exhausted_batch (producer_with 2) = Ret p ∧
    (fun e => pm_Value e.1) <$> p_errors p = [Some (Encoded (B "a"))] ∧ p_inFlight p = 1 ∧ p_batches p = [] ∧ p_resends p = [].
Proof. eexists. split; [vm_compute; reflexivity|]. by vm_compute. Qed.
(** The broker producer of a batch that is sent again is referenced for ever: its input is never
    closed. *)
Lemma resent_batch_reference :
  let batch := mk_batch_retry (B "t") 1 (mk_pset [order_msg "a"] (newDefaultRecords (mk_batch 0 0 2 0 0 false false 0 0 0 0 0 0 [] false false None)) 0) ErrNotLeaderForPartition in
  ∃ p, retryBatch (with_producer V1_0_0_0 0 true) (LeaderIs 7) batch (producer_with 1) = Ret p ∧ p_refs p !! 0%nat = Some 1 ∧ p_inFlight p = 1 ∧ length (p_resends p) = 1%nat.
Proof. eexists. split; [vm_compute; reflexivity|]. by vm_compute. Qed.
