(* ===== verification/KafkaConsumer.v ===== *)
(** * [kafka/consumer.go]: the consumer of a partition

    A [partitionConsumer] keeps the offset it expects next; the [brokerConsumer] of the leader
    asks for it with the offsets of its other partitions, and every partition consumer parses the
    one response and hands the messages to the application.  The functions pass the state of the
    consumer explicitly; what the client and the brokers answer, the ticker and the application
    are choices of the environment. *)

From S2P Require Import Prelude GoStrings KafkaCodec KafkaProps KafkaDecoder KafkaRecord KafkaMessage KafkaProtocol KafkaProduce KafkaConfig KafkaProducer KafkaRequest.

(** ** Messages and errors *)

(** [type ConsumerMessage struct] *)
Record ConsumerMessage := mk_cm {
  cm_Headers : list RecordHeader; cm_Timestamp : Z; cm_BlockTimestamp : Z; cm_Key : option bytes; cm_Value : option bytes;
  cm_Topic : bytes; cm_Partition : Z; cm_Offset : Z }.
Definition ErrOffsetOutOfRange : Z := 1.
Definition ErrReplicaNotAvailable : Z := 9.
Inductive consumer_error :=
| CKError (code : Z) | CIncompleteResponse | CMessageTooLarge | CTimedOut | CRecords (e : packet_error) | CDecode (e : decode_error)
| CNoControlRecord | CUnknownRecords | CAlreadyConsumed | CClient | CBroker.

(** ** Control records: [kafka/control_record.go] *)

Inductive ControlRecordType := ControlRecordAbort | ControlRecordCommit | ControlRecordUnknown.
Record ControlRecord := mk_control { cr_Version : Z; CoordinatorEpoch : Z; cr_Type : ControlRecordType }.
(** [func (cr *ControlRecord) decode(key, value packetDecoder) error] *)
Definition ControlRecord_decode (key value : realDecoder) : Go (ControlRecord + decode_error) :=
  let* v := (get* _ := getInt16 in getInt32) value in
  match v.1 with
  | inr e => Ret (inr e)
  | inl epoch =>
      let* k := (get* version := getInt16 in get* t := getInt16 in rd_ret (version, t)) key in
      Ret (match k.1 with
           | inr e => inr e
           | inl (version, t) =>
               inl (mk_control version epoch (if t =? 0 then ControlRecordAbort else if t =? 1 then ControlRecordCommit else ControlRecordUnknown))
           end)
  end.
(** [func (cr *ControlRecord) encode(key, value packetEncoder)]: key and value *)
Definition ControlRecord_encode (cr : ControlRecord) : list item * list item :=
  (Data (putInt16 (cr_Version cr)) ::
     match cr_Type cr with ControlRecordAbort => [Data (putInt16 0)] | ControlRecordCommit => [Data (putInt16 1)] | ControlRecordUnknown => [] end,
   [Data (putInt16 (cr_Version cr)); Data (putInt32 (CoordinatorEpoch cr))]).
(** [func (r *Records) getControlRecord() (ControlRecord, error)] *)
Definition getControlRecord (r : Records_) : Go (ControlRecord + consumer_error) :=
  match Batch r with
  | Some b =>
      match Records b with
      | first :: _ =>
          let* c := ControlRecord_decode (mk_rd (default [] (r_Key first)) 0 []) (mk_rd (default [] (r_Value first)) 0 []) in
          Ret (match c with inl c => inl c | inr e => inr (CDecode e) end)
      | [] => Ret (inr CNoControlRecord)
      end
  | None => Ret (inr CNoControlRecord)
  end.

(** ** The consumer of a partition *)

(** [type partitionConsumer struct] with what was reported on its channel [errors], whether it is
    [dying], and [firstAttempt] of [responseFeeder] *)
Record partitionConsumer := mk_pc {
  highWaterMarkOffset : Z; pc_topic : bytes; pc_partition : Z; responseResult : option consumer_error; fetchSize : Z; pc_offset : Z; pc_retries : Z;
  pc_broker : option nat; pc_errors : list consumer_error; dying : bool; firstAttempt : bool }.
Definition set_offset o c := mk_pc (highWaterMarkOffset c) (pc_topic c) (pc_partition c) (responseResult c) (fetchSize c) o (pc_retries c) (pc_broker c) (pc_errors c) (dying c) (firstAttempt c).
Definition set_fetchSize n c := mk_pc (highWaterMarkOffset c) (pc_topic c) (pc_partition c) (responseResult c) n (pc_offset c) (pc_retries c) (pc_broker c) (pc_errors c) (dying c) (firstAttempt c).
Definition set_watermark n c := mk_pc n (pc_topic c) (pc_partition c) (responseResult c) (fetchSize c) (pc_offset c) (pc_retries c) (pc_broker c) (pc_errors c) (dying c) (firstAttempt c).
Definition set_result e c := mk_pc (highWaterMarkOffset c) (pc_topic c) (pc_partition c) e (fetchSize c) (pc_offset c) (pc_retries c) (pc_broker c) (pc_errors c) (dying c) (firstAttempt c).
Definition set_attempts n c := mk_pc (highWaterMarkOffset c) (pc_topic c) (pc_partition c) (responseResult c) (fetchSize c) (pc_offset c) n (pc_broker c) (pc_errors c) (dying c) (firstAttempt c).
Definition set_broker b c := mk_pc (highWaterMarkOffset c) (pc_topic c) (pc_partition c) (responseResult c) (fetchSize c) (pc_offset c) (pc_retries c) b (pc_errors c) (dying c) (firstAttempt c).
Definition set_first f c := mk_pc (highWaterMarkOffset c) (pc_topic c) (pc_partition c) (responseResult c) (fetchSize c) (pc_offset c) (pc_retries c) (pc_broker c) (pc_errors c) (dying c) f.
(** [func (child *partitionConsumer) sendError(err error)]: on the channel when [Return.Errors] is
    set, otherwise only in the log *)
Definition sendError (err : consumer_error) (c : partitionConsumer) : partitionConsumer :=
  mk_pc (highWaterMarkOffset c) (pc_topic c) (pc_partition c) (responseResult c) (fetchSize c) (pc_offset c) (pc_retries c) (pc_broker c) (pc_errors c ++ [err]) (dying c) (firstAttempt c).
(** [func (child *partitionConsumer) AsyncClose()] *)
Definition AsyncClose_child (c : partitionConsumer) : partitionConsumer :=
  mk_pc (highWaterMarkOffset c) (pc_topic c) (pc_partition c) (responseResult c) (fetchSize c) (pc_offset c) (pc_retries c) (pc_broker c) (pc_errors c) true (firstAttempt c).

Section consumer.
(** The configuration, and whether it has a [MetricRegistry] *)
Context (conf : Config) (metricRegistry : bool).
Abbreviation C := (Consumer conf).

(** [child.offset++] *)
Definition skip_offset (c : partitionConsumer) : partitionConsumer := set_offset (swrap 64 (pc_offset c + 1)) c.

(** [func (child *partitionConsumer) parseMessages(msgSet *MessageSet) ([]*ConsumerMessage, error)]:
    the inner loop, for the messages of a block *)
Definition message_offset (block msg : MessageBlock) : Z :=
  if 1 <=? m_Version (mb_Msg msg)
  then swrap 64 (mb_Offset msg + swrap 64 (mb_Offset block - default 0 (mb_Offset <$> last (block_Messages block))))
  else mb_Offset msg.
Definition consumed_message (block msg : MessageBlock) (c : partitionConsumer) : ConsumerMessage :=
  mk_cm [] (if (1 <=? m_Version (mb_Msg msg)) && m_LogAppendTime (mb_Msg msg) then m_Timestamp (mb_Msg block) else m_Timestamp (mb_Msg msg))
    (m_Timestamp (mb_Msg block)) (m_Key (mb_Msg msg)) (m_Value (mb_Msg msg)) (pc_topic c) (pc_partition c) (message_offset block msg).
Definition take_message (block : MessageBlock) (st : list ConsumerMessage * partitionConsumer) (msg : MessageBlock) : list ConsumerMessage * partitionConsumer :=
  let (messages, c) := st in
  let offset := message_offset block msg in
  if offset <? pc_offset c then (messages, c)
  else (messages ++ [consumed_message block msg c], set_offset (swrap 64 (offset + 1)) c).
Definition take_block (st : list ConsumerMessage * partitionConsumer) (block : MessageBlock) : list ConsumerMessage * partitionConsumer :=
  foldl (take_message block) st (block_Messages block).
Definition skip_if_empty (st : list ConsumerMessage * partitionConsumer) : list ConsumerMessage * partitionConsumer :=
  match st.1 with [] => ([], skip_offset st.2) | _ => st end.
Definition parseMessages (msgSet : MessageSet) (c : partitionConsumer) : list ConsumerMessage * partitionConsumer :=
  skip_if_empty (foldl take_block ([], c) (Messages msgSet)).

(** [func (child *partitionConsumer) parseRecords(batch *RecordBatch) ([]*ConsumerMessage, error)] *)
Definition record_offset (batch : RecordBatch) (rec : Record_) : Z := swrap 64 (FirstOffset batch + OffsetDelta rec).
Definition consumed_record (batch : RecordBatch) (rec : Record_) (c : partitionConsumer) : ConsumerMessage :=
  mk_cm (Headers rec) (if LogAppendTime batch then MaxTimestamp batch else FirstTimestamp batch + TimestampDelta rec) zero_time
    (r_Key rec) (r_Value rec) (pc_topic c) (pc_partition c) (record_offset batch rec).
Definition take_record (batch : RecordBatch) (st : list ConsumerMessage * partitionConsumer) (rec : Record_) : list ConsumerMessage * partitionConsumer :=
  let (messages, c) := st in
  let offset := record_offset batch rec in
  if offset <? pc_offset c then (messages, c)
  else (messages ++ [consumed_record batch rec c], set_offset (swrap 64 (offset + 1)) c).
Definition parseRecords (batch : RecordBatch) (c : partitionConsumer) : list ConsumerMessage * partitionConsumer :=
  skip_if_empty (foldl (take_record batch) ([], c) (Records batch)).

(** [func (b *FetchResponseBlock) getAbortedTransactions() []*AbortedTransaction] *)
Definition starts_before (t u : AbortedTransaction) : Prop := at_FirstOffset t ≤ at_FirstOffset u.
#[export] Instance starts_before_dec : RelDecision starts_before := fun t u => decide (at_FirstOffset t ≤ at_FirstOffset u).
Definition getAbortedTransactions (b : FetchResponseBlock) : list AbortedTransaction := merge_sort starts_before (AbortedTransactions b).

(** [parseResponse]: the aborted transactions that start up to the end of a batch *)
Fixpoint start_aborted (lastOffset : Z) (txns : list AbortedTransaction) (ids : gset Z) : list AbortedTransaction * gset Z :=
  match txns with
  | txn :: rest => if lastOffset <? at_FirstOffset txn then (txns, ids) else start_aborted lastOffset rest ({[at_ProducerID txn]} ∪ ids)
  | [] => ([], ids)
  end.
(** The type of records without one, as [numRecords] has set it *)
Definition typed_records (r : Records_) : Records_ :=
  match recordsType r with
  | unknownRecords => match setTypeFromFields r with inl (r, _) => r | inr _ => r end
  | _ => r
  end.
(** The body of the loop over the records: the messages to hand over, what was learned about
    transactions, or an error; the offset has moved in any case. *)
Definition parse_batch (r : Records_) (batch : RecordBatch) (txns : list AbortedTransaction) (ids : gset Z) (c : partitionConsumer) :
    Go ((list ConsumerMessage * list AbortedTransaction * gset Z + consumer_error) * partitionConsumer) :=
  let (txns, ids) := start_aborted (LastOffset batch) txns ids in
  let (messages, c) := parseRecords batch c in
  match isControl r with
  | inr e => Ret (if IsolationLevel C =? ReadCommitted then inr (CRecords e) else inl ([], txns, ids), c)
  | inl true =>
      let* control := getControlRecord r in
      Ret (match control with
           | inr e => inr e
           | inl cr => inl ([], txns, match cr_Type cr with ControlRecordAbort => ids ∖ {[ProducerID batch]} | _ => ids end)
           end, c)
  | inl false =>
      Ret (inl (if (IsolationLevel C =? ReadCommitted) && IsTransactional batch && bool_decide (ProducerID batch ∈ ids) then [] else messages, txns, ids), c)
  end.
Definition parse_set (r : Records_) (txns : list AbortedTransaction) (ids : gset Z) (c : partitionConsumer) :
    Go ((list ConsumerMessage * list AbortedTransaction * gset Z + consumer_error) * partitionConsumer) :=
  match recordsType r with
  | legacyRecords =>
      match MsgSet r with
      | None => Panic NilDereference
      | Some s => let (messages, c) := parseMessages s c in Ret (inl (messages, txns, ids), c)
      end
  | defaultRecords => match Batch r with None => Panic NilDereference | Some batch => parse_batch r batch txns ids c end
  | unknownRecords => Ret (inr CUnknownRecords, c)
  end.
Fixpoint parse_sets (l : list Records_) (txns : list AbortedTransaction) (ids : gset Z) (messages : list ConsumerMessage) (c : partitionConsumer) :
    Go ((list ConsumerMessage + consumer_error) * partitionConsumer) :=
  match l with
  | [] => Ret (inl messages, c)
  | r :: l =>
      let* st := parse_set (typed_records r) txns ids c in
      match st.1 with
      | inr e => Ret (inr e, st.2)
      | inl (more, txns, ids) => parse_sets l txns ids (messages ++ more) st.2
      end
  end.
(** [func (child *partitionConsumer) parseResponse(response *FetchResponse) ([]*ConsumerMessage, error)] *)
Definition grow_fetch (c : partitionConsumer) : partitionConsumer :=
  if (0 <? Fetch_Max C) && (fetchSize c =? Fetch_Max C) then skip_offset (sendError CMessageTooLarge c)
  else
    let size := swrap 32 (fetchSize c * 2) in
    set_fetchSize (if (0 <? Fetch_Max C) && (Fetch_Max C <? size) then Fetch_Max C else size) c.
Definition parseResponse (response : FetchResponse) (c : partitionConsumer) : Go ((list ConsumerMessage + consumer_error) * partitionConsumer) :=
  if negb (frs_ThrottleTime response =? 0) && bool_decide (frs_Blocks response = ∅) then Ret (inl [], c)
  else match get_block (frs_Blocks response) (pc_topic c) (pc_partition c) with
  | None => Ret (inr CIncompleteResponse, c)
  | Some block =>
      if negb (frb_Err block =? ErrNoError) then Ret (inr (CKError (frb_Err block)), c)
      else match block_numRecords block with
      | inr e => Ret (inr (CRecords e), c)
      | inl nRecs =>
          if negb metricRegistry then Panic NilDereference
          else if nRecs =? 0 then
            match block_isPartial block with
            | inr e => Ret (inr (CRecords e), c)
            | inl partialTrailingMessage => Ret (inl [], if partialTrailingMessage : bool then grow_fetch c else c)
            end
          else parse_sets (RecordsSet block) (getAbortedTransactions block) ∅ []
                 (set_watermark (HighWaterMarkOffset block) (set_fetchSize (Fetch_Default C) c))
      end
  end.

(** [func (child *partitionConsumer) chooseStartingOffset(offset int64) error]: the newest and the
    oldest offset as the client returns them *)
Definition chooseStartingOffset (offset : Z) (newest oldest : option Z) (c : partitionConsumer) : partitionConsumer + consumer_error :=
  match newest, oldest with
  | Some newest, Some oldest =>
      if offset =? OffsetNewest then inl (set_offset newest c)
      else if offset =? OffsetOldest then inl (set_offset oldest c)
      else if (oldest <=? offset) && (offset <=? newest) then inl (set_offset offset c)
      else inr (CKError ErrOffsetOutOfRange)
  | _, _ => inr CClient
  end.
(** [func (child *partitionConsumer) computeBackoff() time.Duration] *)
Definition computeBackoff (backoffFunc : option (Z → Z)) (c : partitionConsumer) : Z * partitionConsumer :=
  match backoffFunc with
  | Some f => let n := swrap 32 (pc_retries c + 1) in (f n, set_attempts n c)
  | None => (cons_Retry_Backoff C, c)
  end.

(** *** [responseFeeder] *)

(** The select of a message: it is taken, the ticker fires, the consumer is dying *)
Inductive feed_choice := Taken | Ticked | Dies.
(** After the time-out the rest is delivered, unless the consumer dies. *)
Fixpoint deliver_rest (cs : list feed_choice) (msgs : list ConsumerMessage) : list ConsumerMessage :=
  match msgs, cs with
  | msg :: msgs, Taken :: cs => msg :: deliver_rest cs msgs
  | msg :: msgs, Ticked :: cs => deliver_rest cs (msg :: msgs)
  | _, _ => []
  end.
(** What is delivered, the state of the ticker, whether it is dead, whether it was too slow *)
Fixpoint deliver (cs : list feed_choice) (first : bool) (msgs : list ConsumerMessage) : list ConsumerMessage * bool * bool :=
  match msgs, cs with
  | msg :: msgs, Taken :: cs => let '(sent, first, slow) := deliver cs true msgs in (msg :: sent, first, slow)
  | msg :: msgs, Ticked :: cs => if first then deliver cs false (msg :: msgs) else (deliver_rest cs (msg :: msgs), false, true)
  | _, _ => ([], first, false)
  end.
(** [func (child *partitionConsumer) responseFeeder()]: the body of the loop; after a time-out the
    consumer subscribes again itself. *)
Definition feed (cs : list feed_choice) (response : FetchResponse) (c : partitionConsumer) : Go (list ConsumerMessage * bool * partitionConsumer) :=
  let* r := parseResponse response c in
  let c := set_result (match r.1 with inl _ => None | inr e => Some e end) r.2 in
  let c := match responseResult c with None => set_attempts 0 c | Some _ => c end in
  let '(sent, first, slow) := deliver cs (firstAttempt c) (match r.1 with inl msgs => msgs | inr _ => [] end) in
  let c := set_first first c in
  Ret (sent, slow, if slow : bool then set_result (Some CTimedOut) c else c).

(** ** The consumer and its brokers *)

(** [type brokerConsumer struct]: the partition consumers that wait to be subscribed, in [input] and
    in the buffer of [subscriptionManager], whether [input] is closed, and the subscribed ones *)
Record brokerConsumer := mk_bc { bc_broker : Z; bc_input : list nat; bc_closed : bool; subscriptions : gset nat; bc_refs : Z }.
(** [type consumer struct]: partition consumers and broker consumers by number, with the tokens on
    the channel [trigger] of a partition consumer and whether it is closed *)
Record consumer := mk_consumer_state {
  children : gmap bytes (gmap Z nat); brokerConsumers : gmap Z nat; k_bcs : gmap nat brokerConsumer; k_pcs : gmap nat partitionConsumer;
  k_triggers : gmap nat (Z * bool) }.
Definition newConsumer : consumer := mk_consumer_state ∅ ∅ ∅ ∅ ∅.
Definition set_children m k := mk_consumer_state m (brokerConsumers k) (k_bcs k) (k_pcs k) (k_triggers k).
Definition set_bcs b m k := mk_consumer_state (children k) b m (k_pcs k) (k_triggers k).
Definition set_pcs m k := mk_consumer_state (children k) (brokerConsumers k) (k_bcs k) m (k_triggers k).
Definition set_triggers m k := mk_consumer_state (children k) (brokerConsumers k) (k_bcs k) (k_pcs k) m.
Definition on_pc (i : nat) (f : partitionConsumer → partitionConsumer) (k : consumer) : consumer := set_pcs (alter f i (k_pcs k)) k.

(** [func (c *consumer) addChild(child *partitionConsumer) error] and [removeChild] *)
Definition addChild (i : nat) (c : partitionConsumer) (k : consumer) : consumer + consumer_error :=
  match get_block (children k) (pc_topic c) (pc_partition c) with
  | Some _ => inr CAlreadyConsumed
  | None => inl (set_children (add_block (pc_topic c) (pc_partition c) i (children k)) k)
  end.
Definition removeChild (c : partitionConsumer) (k : consumer) : consumer :=
  set_children (alter (delete (pc_partition c)) (pc_topic c) (children k)) k.
(** [func (c *consumer) refBrokerConsumer(broker *Broker) *brokerConsumer] *)
Definition newBrokerConsumer (broker : Z) : brokerConsumer := mk_bc broker [] false ∅ 0.
Definition bc_number (k : consumer) : nat := fresh (dom (k_bcs k)).
Definition add_bc_refs (n : Z) (bc : brokerConsumer) : brokerConsumer := mk_bc (bc_broker bc) (bc_input bc) (bc_closed bc) (subscriptions bc) (bc_refs bc + n).
Definition refBrokerConsumer (broker : Z) (k : consumer) : nat * consumer :=
  match brokerConsumers k !! broker with
  | Some b => (b, set_bcs (brokerConsumers k) (alter (add_bc_refs 1) b (k_bcs k)) k)
  | None =>
      let b := bc_number k in
      (b, set_bcs (<[broker := b]> (brokerConsumers k)) (<[b := add_bc_refs 1 (newBrokerConsumer broker)]> (k_bcs k)) k)
  end.
(** [func (c *consumer) unrefBrokerConsumer(brokerWorker *brokerConsumer)] *)
Definition unrefBrokerConsumer (b : nat) (k : consumer) : Go consumer :=
  match k_bcs k !! b with
  | None => Panic NilDereference
  | Some bc =>
      let bc := add_bc_refs (-1) bc in
      if negb (bc_refs bc =? 0) then Ret (set_bcs (brokerConsumers k) (<[b := bc]> (k_bcs k)) k)
      else if bc_closed bc then Panic ExplicitPanic
      else Ret (set_bcs (if decide (brokerConsumers k !! bc_broker bc = Some b) then delete (bc_broker bc) (brokerConsumers k) else brokerConsumers k)
                  (<[b := mk_bc (bc_broker bc) (bc_input bc) true (subscriptions bc) (bc_refs bc)]> (k_bcs k)) k)
  end.
(** [func (c *consumer) abandonBrokerConsumer(brokerWorker *brokerConsumer)] *)
Definition abandonBrokerConsumer (bc : brokerConsumer) (k : consumer) : consumer := set_bcs (delete (bc_broker bc) (brokerConsumers k)) (k_bcs k) k.
(** [child.broker.input <- child] *)
Definition subscribe (i b : nat) (k : consumer) : Go consumer :=
  match k_bcs k !! b with
  | None => Panic NilDereference
  | Some bc =>
      if bc_closed bc then Panic ExplicitPanic
      else Ret (set_bcs (brokerConsumers k) (<[b := mk_bc (bc_broker bc) (bc_input bc ++ [i]) (bc_closed bc) (subscriptions bc) (bc_refs bc)]> (k_bcs k)) k)
  end.
(** [child.trigger <- none{}], [close(child.trigger)] *)
Definition trigger (i : nat) (k : consumer) : Go consumer :=
  match k_triggers k !! i with
  | Some (n, false) => Ret (set_triggers (<[i := (n + 1, false)]> (k_triggers k)) k)
  | Some (_, true) => Panic ExplicitPanic
  | None => Panic NilDereference
  end.
Definition close_trigger (i : nat) (k : consumer) : Go consumer :=
  match k_triggers k !! i with
  | Some (n, false) => Ret (set_triggers (<[i := (n, true)]> (k_triggers k)) k)
  | Some (_, true) => Panic ExplicitPanic
  | None => Panic NilDereference
  end.

(** [func (c *consumer) ConsumePartition(topic string, partition int32, offset int64) (PartitionConsumer, error)] *)
Definition pc_number (k : consumer) : nat := fresh (dom (k_pcs k)).
Definition newPartitionConsumer (topic : bytes) (partition : Z) : partitionConsumer :=
  mk_pc 0 topic partition None (Fetch_Default C) 0 0 None [] false true.
Definition ConsumePartition (topic : bytes) (partition offset : Z) (newest oldest leader : option Z) (k : consumer) : Go ((nat + consumer_error) * consumer) :=
  match chooseStartingOffset offset newest oldest (newPartitionConsumer topic partition) with
  | inr e => Ret (inr e, k)
  | inl child =>
      match leader with
      | None => Ret (inr CClient, k)
      | Some leader =>
          let i := pc_number k in
          match addChild i child k with
          | inr e => Ret (inr e, k)
          | inl k =>
              let (b, k) := refBrokerConsumer leader k in
              let* k := subscribe i b (set_triggers (<[i := (0, false)]> (k_triggers k)) (set_pcs (<[i := set_broker (Some b) child]> (k_pcs k)) k)) in
              Ret (inl i, k)
          end
      end
  end.
(** [func (c *consumer) HighWaterMarks() map[string]map[int32]int64] *)
Definition HighWaterMarks (k : consumer) : gmap bytes (gmap Z Z) :=
  (fun ps : gmap Z nat => (fun i => default 0 (highWaterMarkOffset <$> k_pcs k !! i)) <$> ps) <$> children k.

(** [func (child *partitionConsumer) dispatch() error] *)
Definition dispatch_child (i : nat) (lead : leader_result) (k : consumer) : Go (option consumer_error * consumer) :=
  match lead with
  | LeaderIs broker =>
      let (b, k) := refBrokerConsumer broker k in
      let* k := subscribe i b (on_pc i (set_broker (Some b)) k) in Ret (None, k)
  | _ => Ret (Some CClient, k)
  end.
(** [func (child *partitionConsumer) dispatcher()]: the body of the loop, which has taken a token of
    [trigger], then what follows it *)
Definition take_token (i : nat) (k : consumer) : consumer := set_triggers (alter (fun t : Z * bool => (t.1 - 1, t.2)) i (k_triggers k)) k.
Definition leave_broker (i : nat) (c : partitionConsumer) (k : consumer) : Go consumer :=
  match pc_broker c with None => Ret k | Some b => unrefBrokerConsumer b k end.
Definition dispatcher_child (i : nat) (backoffFunc : option (Z → Z)) (lead : leader_result) (dies : bool) (k : consumer) : Go consumer :=
  match k_pcs k !! i with
  | None => Panic NilDereference
  | Some c =>
      let c := (computeBackoff backoffFunc c).2 in
      let k := take_token i (set_pcs (<[i := c]> (k_pcs k)) k) in
      if dying c && dies then close_trigger i k
      else
        let* k := leave_broker i c k in
        let* r := dispatch_child i lead (on_pc i (set_broker None) k) in
        match r.1 with
        | None => Ret r.2
        | Some err => trigger i (on_pc i (sendError err) r.2)
        end
  end.
Definition end_child (i : nat) (k : consumer) : Go consumer :=
  match k_pcs k !! i with
  | None => Panic NilDereference
  | Some c => let* k := leave_broker i c k in Ret (removeChild c k)
  end.

(** *** A broker consumer *)

Definition set_subscriptions (x : gset nat) (bc : brokerConsumer) : brokerConsumer := mk_bc (bc_broker bc) (bc_input bc) (bc_closed bc) x (bc_refs bc).
Definition on_bc (b : nat) (f : brokerConsumer → brokerConsumer) (k : consumer) : consumer := set_bcs (brokerConsumers k) (alter f b (k_bcs k)) k.
(** [func (bc *brokerConsumer) updateSubscriptions(newSubscriptions []*partitionConsumer)] *)
Definition drop_dying (b i : nat) (k : consumer) : Go consumer :=
  match k_pcs k !! i with
  | None => Panic NilDereference
  | Some c => if dying c then let* k := close_trigger i k in Ret (on_bc b (fun bc => set_subscriptions (subscriptions bc ∖ {[i]}) bc) k) else Ret k
  end.
Definition updateSubscriptions (o : list nat → list nat) (b : nat) (k : consumer) : Go consumer :=
  match k_bcs k !! b with
  | None => Panic NilDereference
  | Some bc =>
      let subs := subscriptions bc ∪ list_to_set (bc_input bc) in
      let k := on_bc b (fun bc => mk_bc (bc_broker bc) [] (bc_closed bc) subs (bc_refs bc)) k in
      KafkaProduceSet.go_each (drop_dying b) (o (elements subs)) k
  end.
(** [func (bc *brokerConsumer) fetchNewMessages()]: the request *)
Definition fetch_request : FetchRequest :=
  let v := conf_version conf in
  let version := if IsAtLeast v V0_11_0_0 then 4 else if IsAtLeast v V0_10_1_0 then 3 else if IsAtLeast v V0_10_0_0 then 2 else if IsAtLeast v V0_9_0_0 then 1 else 0 in
  mk_FetchRequest (swrap 32 (Z.quot (cons_MaxWaitTime C) Millisecond)) (Fetch_Min C) (if IsAtLeast v V0_10_1_0 then MaxResponseSize else 0) version
    (if IsAtLeast v V0_11_0_0 then IsolationLevel C else 0) ∅.
Definition ask (k : consumer) (i : nat) (r : FetchRequest) : FetchRequest :=
  match k_pcs k !! i with Some c => FetchRequest_AddBlock (pc_topic c) (pc_partition c) (pc_offset c) (fetchSize c) r | None => r end.
Definition fetchNewMessages (o : list nat → list nat) (bc : brokerConsumer) (k : consumer) : FetchRequest :=
  foldl (fun r i => ask k i r) fetch_request (o (elements (subscriptions bc))).
(** [func (bc *brokerConsumer) handleResponses()] *)
Definition unsubscribe (b i : nat) (k : consumer) : consumer := on_bc b (fun bc => set_subscriptions (subscriptions bc ∖ {[i]}) bc) k.
Definition redispatched (code : Z) : bool :=
  existsb (Z.eqb code) [ErrUnknownTopicOrPartition; ErrNotLeaderForPartition; ErrLeaderNotAvailable; ErrReplicaNotAvailable].
Definition handle_result (b i : nat) (k : consumer) : Go consumer :=
  match k_pcs k !! i with
  | None => Panic NilDereference
  | Some c =>
      let k := on_pc i (set_result None) k in
      match responseResult c with
      | None => Ret k
      | Some CTimedOut => Ret (unsubscribe b i k)
      | Some result =>
          let ends := match result with CKError code => code =? ErrOffsetOutOfRange | _ => false end in
          let silent := match result with CKError code => redispatched code | _ => false end in
          let k := if silent then k else on_pc i (sendError result) k in
          let* k := if ends then close_trigger i k else trigger i k in
          Ret (unsubscribe b i k)
      end
  end.
Definition handleResponses (o : list nat → list nat) (b : nat) (k : consumer) : Go consumer :=
  match k_bcs k !! b with
  | None => Panic NilDereference
  | Some bc => KafkaProduceSet.go_each (handle_result b) (o (elements (subscriptions bc))) k
  end.
(** [func (bc *brokerConsumer) abort(err error)]: the subscribed partition consumers and those that
    wait; whoever subscribes later is sent away the same way. *)
Definition send_away (i : nat) (k : consumer) : Go consumer := trigger i (on_pc i (sendError CBroker) k).
Definition abort (o : list nat → list nat) (b : nat) (k : consumer) : Go consumer :=
  match k_bcs k !! b with
  | None => Panic NilDereference
  | Some bc =>
      let k := abandonBrokerConsumer bc k in
      let* k := KafkaProduceSet.go_each send_away (o (elements (subscriptions bc))) k in
      let* k := KafkaProduceSet.go_each send_away (bc_input bc) k in
      Ret (on_bc b (fun bc => mk_bc (bc_broker bc) [] (bc_closed bc) (subscriptions bc) (bc_refs bc)) k)
  end.
End consumer.
