(* ===== verification/KafkaConsumerProps.v ===== *)
(** * The consumer: order, completeness, transactions *)

From S2P Require Import Prelude GoStrings KafkaCodec KafkaProps KafkaDecoder KafkaDecoderSafety KafkaRecord KafkaMessage KafkaProtocol KafkaProduce KafkaConfig KafkaProducer KafkaRetryOrder KafkaConsumer.

(** ** Offsets that only grow *)

(** Offsets from [o] on and before [o'], each greater than the one before *)
Definition span (o : Z) (l : list Z) (o' : Z) : Prop := StronglySorted Z.lt l ∧ Forall (fun x => o ≤ x < o') l ∧ o ≤ o'.
Lemma span_nil o o' : o ≤ o' → span o [] o'.
Proof. intros. split_and!; [constructor|done|done]. Qed.
Lemma span_app o l o' l' o'' : span o l o' → span o' l' o'' → span o (l ++ l') o''.
Proof.
  intros (Hs & Hf & Ho) (Hs' & Hf' & Ho'). rewrite Forall_forall in *. split_and!; [|apply Forall_forall|lia].
  - apply StronglySorted_app_2; [|done..]. intros x y Hx Hy. specialize (Hf x Hx). specialize (Hf' y Hy). lia.
  - intros x [Hx|Hx]%elem_of_app; [specialize (Hf x Hx)|specialize (Hf' x Hx)]; lia.
Qed.
Lemma sorted_lt_mono (l k : list Z) : l `sublist_of` k → StronglySorted Z.lt k → StronglySorted Z.lt l.
Proof.
  induction 1 as [|x l k Hs IH|x l k Hs IH]; [done| |]; rewrite ?StronglySorted_cons; [|naive_solver].
  intros [Hf Hk]. split; [by eapply Forall_mono|auto].
Qed.
Lemma span_sub o l o' k : k `sublist_of` l → span o l o' → span o k o'.
Proof. intros Hk (Hs & Hf & Ho). split_and!; [by eapply sorted_lt_mono|by eapply Forall_mono|done]. Qed.
Lemma swrap_offset n : 0 ≤ n < 2 ^ 63 → swrap 64 n = n.
Proof. intros Hn. unfold swrap. rewrite Z.mod_small; lia. Qed.

(** *** One set of records *)

(** The loops of [parseRecords] and [parseMessages] *)
Definition take {A} (off : A → Z) (f : A → partitionConsumer → ConsumerMessage) (st : list ConsumerMessage * partitionConsumer) (x : A) : list ConsumerMessage * partitionConsumer :=
  let (ms, c) := st in
  if off x <? pc_offset c then (ms, c) else (ms ++ [f x c], set_offset (swrap 64 (off x + 1)) c).
Definition offsets (l : list ConsumerMessage) : list Z := cm_Offset <$> l.
Lemma take_span {A} (off : A → Z) f l N ms c o : (∀ x c, cm_Offset (f x c) = off x) → Forall (fun x => off x < N) l → N < 2 ^ 63 →
  0 ≤ pc_offset c ≤ N → span o (offsets ms) (pc_offset c) →
  let st := foldl (take off f) (ms, c) l in span o (offsets st.1) (pc_offset st.2) ∧ pc_offset c ≤ pc_offset st.2 ≤ N.
Proof.
  intros Hf Hl HN. revert ms c. induction l as [|x l IH]; intros ms c Hc Hs; cbn [foldl fst snd]; [split; [done|lia]|]. apply Forall_cons in Hl as [Hx Hl].
  cbn [take]. destruct (Z.ltb_spec (off x) (pc_offset c)) as [|Hge]; [by apply IH|].
  assert (swrap 64 (off x + 1) = off x + 1) as E by (apply swrap_offset; lia). rewrite E.
  destruct (IH Hl (ms ++ [f x c]) (set_offset (off x + 1) c)) as [H1 H2]; cbn [pc_offset set_offset] in *; [lia| |split; [done|lia]].
  unfold offsets. rewrite fmap_app. eapply span_app; [exact Hs|]. cbn. rewrite Hf. split_and!; [repeat constructor|apply Forall_singleton; lia|lia].
Qed.
Definition records_below (N : Z) (b : RecordBatch) : Prop := Forall (fun r => record_offset b r < N) (Records b).
Definition messages_below (N : Z) (s : MessageSet) : Prop := Forall (fun b => Forall (fun m => message_offset b m < N) (block_Messages b)) (Messages s).
Lemma skip_span c st N : span (pc_offset c) (offsets st.1) (pc_offset st.2) ∧ pc_offset c ≤ pc_offset st.2 ≤ N → 0 ≤ pc_offset c → N + 1 < 2 ^ 63 →
  span (pc_offset c) (offsets (skip_if_empty st).1) (pc_offset (skip_if_empty st).2) ∧ pc_offset c ≤ pc_offset (skip_if_empty st).2 ≤ N + 1.
Proof.
  intros [Hs Hb] Hc HN. unfold skip_if_empty. destruct st as [[|m ms] c']; cbn [fst snd] in *; [|split; [done|lia]]. cbn.
  rewrite swrap_offset by lia. split; [apply span_nil|]; lia.
Qed.
Lemma parseRecords_span b c N : records_below N b → 0 ≤ pc_offset c ≤ N → N + 1 < 2 ^ 63 →
  let st := parseRecords b c in span (pc_offset c) (offsets st.1) (pc_offset st.2) ∧ pc_offset c ≤ pc_offset st.2 ≤ N + 1.
Proof.
  intros Hb Hc HN. apply skip_span; [|lia|done]. apply (take_span (record_offset b) (consumed_record b) (Records b) N [] c); [done|exact Hb|lia|done|].
  apply span_nil. lia.
Qed.
Lemma parseMessages_span s c N : messages_below N s → 0 ≤ pc_offset c ≤ N → N + 1 < 2 ^ 63 →
  let st := parseMessages s c in span (pc_offset c) (offsets st.1) (pc_offset st.2) ∧ pc_offset c ≤ pc_offset st.2 ≤ N + 1.
Proof.
  intros Hs Hc HN. apply skip_span; [|lia|done].
  assert (∀ ms c', pc_offset c ≤ pc_offset c' ≤ N → span (pc_offset c) (offsets ms) (pc_offset c') →
    let st := foldl take_block (ms, c') (Messages s) in span (pc_offset c) (offsets st.1) (pc_offset st.2) ∧ pc_offset c ≤ pc_offset st.2 ≤ N) as H.
  { unfold messages_below in Hs. induction Hs as [|b l Hb _ IH]; intros ms c' Hc' Hsp; cbn [foldl]; [done|].
    pose proof (take_span (message_offset b) (consumed_message b) (block_Messages b) N ms c' (pc_offset c) (fun _ _ => eq_refl) Hb ltac:(lia) ltac:(lia) Hsp) as H.
    change (foldl (take (message_offset b) (consumed_message b)) (ms, c') (block_Messages b)) with (take_block (ms, c') b) in H.
    destruct (take_block (ms, c') b) as [ms1 c1]. cbn [fst snd] in H. apply IH; [lia|apply H]. }
  apply H; [lia|]. apply span_nil. lia.
Qed.
(** *** A response *)

Section consumer.
Context (conf : Config).

(** What is asked of records: they were decoded, and their offsets are below [N] *)
Definition batch_bytes (b : RecordBatch) : Prop :=
  Forall (fun r => bytes_ok (default [] (r_Key r)) ∧ bytes_ok (default [] (r_Value r))) (Records b).
Definition records_fine (N : Z) (r : Records_) : Prop :=
  match recordsType r with
  | legacyRecords => ∃ s, MsgSet r = Some s ∧ messages_below N s
  | defaultRecords => ∃ b, Batch r = Some b ∧ records_below N b ∧ batch_bytes b
  | unknownRecords => MsgSet r = None ∧ Batch r = None
  end.
Lemma fine_typed N r : records_fine N r → typed_records r = r.
Proof. unfold records_fine, typed_records, setTypeFromFields. destruct (recordsType r); try done. by intros [-> ->]. Qed.
Lemma fine_mono N M r : records_fine N r → N ≤ M → records_fine M r.
Proof.
  unfold records_fine, messages_below, records_below. intros Hr HM. destruct (recordsType r); [done| |].
  - destruct Hr as (s & -> & Hs). eexists. split; [done|]. eapply Forall_impl; [exact Hs|]. intros b Hb. eapply Forall_impl; [exact Hb|]. cbn. lia.
  - destruct Hr as (b & -> & Hb & Hy). eexists. split_and!; [done| |done]. eapply Forall_impl; [exact Hb|]. cbn. lia.
Qed.
Lemma control_returns r : (∀ b, Batch r = Some b → batch_bytes b) → returns (getControlRecord r).
Proof.
  intros Hb. unfold getControlRecord. destruct (Batch r) as [b|]; [|by eexists]. specialize (Hb b eq_refl). unfold batch_bytes in Hb.
  destruct (Records b) as [|x l]; [by eexists|]. apply Forall_cons in Hb as [[Hk Hv] _].
  assert (∀ l, bytes_ok l → rd_ok (mk_rd l 0 [])) as Hok by (intros l' Hl'; split; cbn; [done|pose proof (len_nonneg l'); lia]).
  apply (wp_returns _ (fun _ => True)). apply wp_bind. unfold ControlRecord_decode. apply wp_bind.
  eapply wp_mono; [apply (safe_bind getInt16 (fun _ => getInt32) (int_ok 16) (int_ok 32)); [apply (safe_int 2); lia|intros; apply (safe_int 4); lia|by apply Hok]|].
  intros [[e|e] rd] _; [|done]. cbn [fst]. apply wp_bind.
  eapply wp_mono; [apply (safe_bind getInt16 (fun v => rd_bind getInt16 (fun t => rd_ret (v, t))) (int_ok 16) (fun _ => True)); [apply (safe_int 2); lia| |by apply Hok]|].
  - intros v _. apply (safe_bind _ _ (int_ok 16)); [apply (safe_int 2); lia|]. intros. by apply safe_ret.
  - intros [[[v t]|e'] rd'] _; done.
Qed.
Lemma parse_set_span r txns ids c N : records_fine N r → 0 ≤ pc_offset c ≤ N → N + 1 < 2 ^ 63 →
  wp (parse_set conf r txns ids c) (fun st => pc_offset c ≤ pc_offset st.2 ≤ N + 1 ∧
    match st.1 with inl (ms, _, _) => span (pc_offset c) (offsets ms) (pc_offset st.2) | inr _ => True end).
Proof.
  intros Hr Hc HN. unfold parse_set, records_fine in *. destruct (recordsType r) eqn:Et.
  - cbn. split; [lia|done].
  - destruct Hr as (s & -> & Hs). pose proof (parseMessages_span s c N Hs Hc HN) as [H1 H2]. destruct (parseMessages s c). cbn. auto.
  - destruct Hr as (b & Eb & Hb & Hbytes). rewrite Eb. unfold parse_batch. destruct (start_aborted _ _ _) as [txns' ids'].
    pose proof (parseRecords_span b c N Hb Hc HN) as [H1 H2]. destruct (parseRecords b c) as [ms c']. cbn [fst snd] in *.
    assert (span (pc_offset c) (offsets []) (pc_offset c')) as Hnil by (apply span_nil; lia). destruct (isControl r) as [[]|e].
    + destruct (control_returns r) as [k ->]; [by intros ? [= <-]%(eq_trans (eq_sym Eb))|]. destruct k; cbn; auto.
    + destruct (_ && _); cbn; auto.
    + destruct (_ =? _); cbn; auto.
Qed.
Lemma parse_sets_span l txns ids ms c o N : Forall (records_fine N) l → 0 ≤ pc_offset c ≤ N → N + len l < 2 ^ 63 → span o (offsets ms) (pc_offset c) →
  wp (parse_sets conf l txns ids ms c) (fun st => pc_offset c ≤ pc_offset st.2 ≤ N + len l ∧ match st.1 with inl ms => span o (offsets ms) (pc_offset st.2) | inr _ => True end).
Proof.
  intros Hl. revert N txns ids ms c Hl. induction l as [|r l IH]; intros N txns ids ms c Hl Hc HN Hs; cbn [parse_sets].
  { cbn. unfold len. cbn. split; [lia|done]. }
  apply Forall_cons in Hl as [Hr Hl]. rewrite len_cons in HN. pose proof (len_nonneg l). rewrite (fine_typed N r Hr). apply wp_bind.
  eapply wp_mono; [apply (parse_set_span r txns ids c N); [done|done|lia]|]. intros [[[[more txns'] ids']|e] c'] [H1 H2]; cbn [fst snd] in *.
  - eapply wp_mono; [apply (IH (N + 1) txns' ids' (ms ++ more) c')|].
    + eapply Forall_impl; [exact Hl|]. intros x Hx. eapply fine_mono; [exact Hx|lia].
    + lia.
    + lia.
    + unfold offsets. rewrite fmap_app. by eapply span_app.
    + intros [r' c''] [H3 H4]. rewrite len_cons. cbn [fst snd] in *. split; [lia|done].
  - cbn. rewrite len_cons. split; [lia|done].
Qed.
(** The block of a response for a partition, and how far it can move the offset *)
Definition response_fine (N : Z) (topic : bytes) (partition : Z) (response : FetchResponse) : Prop :=
  ∀ block, get_block (frs_Blocks response) topic partition = Some block → Forall (records_fine N) (RecordsSet block).
Definition steps (topic : bytes) (partition : Z) (response : FetchResponse) : Z :=
  1 + match get_block (frs_Blocks response) topic partition with Some block => len (RecordsSet block) | None => 0 end.
Lemma parseResponse_span response c N : response_fine N (pc_topic c) (pc_partition c) response → 0 ≤ pc_offset c ≤ N → N + steps (pc_topic c) (pc_partition c) response < 2 ^ 63 →
  wp (parseResponse conf true response c) (fun st => pc_offset c ≤ pc_offset st.2 ≤ N + steps (pc_topic c) (pc_partition c) response ∧
    match st.1 with inl ms => span (pc_offset c) (offsets ms) (pc_offset st.2) | inr _ => True end).
Proof.
  intros Hr Hc. unfold parseResponse, steps, response_fine in *.
  destruct (get_block (frs_Blocks response) (pc_topic c) (pc_partition c)) as [block|]; [pose proof (len_nonneg (RecordsSet block))|]; intros HN.
  2:{ apply wp_if; intros _; cbn; (split; [lia|]); [apply span_nil; lia|done]. }
  apply wp_if; intros _; [cbn; split; [lia|apply span_nil; lia]|]. apply wp_if; intros _; [cbn; split; [lia|done]|].
  destruct (block_numRecords block) as [k|e]; [|cbn; split; [lia|done]]. cbn [negb]. apply wp_if; intros _.
  - destruct (block_isPartial block) as [[]|e]; cbn [wp fst snd]; [| |split; [lia|done]].
    + unfold grow_fetch. destruct (_ && _); cbn; rewrite ?swrap_offset by lia; (split; [lia|apply span_nil; lia]).
    + split; [lia|apply span_nil; lia].
  - eapply wp_mono; [apply (parse_sets_span _ _ _ _ _ (pc_offset c) N)|].
    + by apply Hr.
    + cbn. lia.
    + lia.
    + apply span_nil. cbn. lia.
    + intros [res c'] [H1 H2]. cbn [fst snd pc_offset set_watermark set_fetchSize] in *. split; [lia|done].
Qed.

(** *** The topic and the partition stay *)

Definition home (c : partitionConsumer) : bytes * Z := (pc_topic c, pc_partition c).
Lemma take_home {A} (off : A → Z) f l st : home (foldl (take off f) st l).2 = home st.2.
Proof. revert st. induction l as [|x l IH]; intros [ms c]; [done|]. cbn [foldl take]. rewrite IH. by destruct (_ <? _). Qed.
Lemma skip_home st : home (skip_if_empty st).2 = home st.2.
Proof. by destruct st as [[|] c]. Qed.
Lemma parseRecords_home b c : home (parseRecords b c).2 = home c.
Proof. unfold parseRecords. rewrite skip_home. apply (take_home (record_offset b) (consumed_record b)). Qed.
Lemma parseMessages_home s c : home (parseMessages s c).2 = home c.
Proof.
  unfold parseMessages. rewrite skip_home. generalize (Messages s). intros l. change (home c) with (home ([] : list ConsumerMessage, c).2).
  generalize ([] : list ConsumerMessage, c). induction l as [|b l IH]; intros st; [done|]. cbn [foldl]. rewrite IH. apply (take_home (message_offset b) (consumed_message b)).
Qed.
Lemma parse_set_home r txns ids c st : parse_set conf r txns ids c = Ret st → home st.2 = home c.
Proof.
  unfold parse_set, parse_batch. destruct (recordsType r); [by intros [= <-]|destruct (MsgSet r) as [s|]|destruct (Batch r) as [b|]]; try done.
  - pose proof (parseMessages_home s c) as E. destruct (parseMessages s c). by intros [= <-].
  - destruct (start_aborted _ _ _). pose proof (parseRecords_home b c) as E. destruct (parseRecords b c).
    destruct (isControl r) as [[]|]; [destruct (getControlRecord r); [|done]| |]; by intros [= <-].
Qed.
Lemma parse_sets_home l txns ids ms c st : parse_sets conf l txns ids ms c = Ret st → home st.2 = home c.
Proof.
  revert txns ids ms c. induction l as [|r l IH]; intros txns ids ms c; cbn [parse_sets]; [by intros [= <-]|].
  destruct (parse_set conf (typed_records r) txns ids c) as [[[[[more txns'] ids']|e] c']|] eqn:E; [| |done]; apply parse_set_home in E; cbn [fst snd gbind] in *.
  - intros ->%IH. done.
  - by intros [= <-].
Qed.
Lemma parseResponse_home response c st : parseResponse conf true response c = Ret st → home st.2 = home c.
Proof.
  unfold parseResponse. destruct (_ && _); [by intros [= <-]|]. destruct (get_block _ _ _) as [block|]; [|by intros [= <-]].
  destruct (negb (frb_Err block =? _)); [by intros [= <-]|]. destruct (block_numRecords block); [|by intros [= <-]]. cbn [negb].
  destruct (_ =? 0); [|by intros ->%parse_sets_home]. destruct (block_isPartial block) as [[]|]; [unfold grow_fetch; destruct (_ && _)| |]; by intros [= <-].
Qed.

(** *** The application gets a beginning of the messages *)

Lemma deliver_rest_prefix cs msgs : deliver_rest cs msgs `prefix_of` msgs.
Proof.
  revert msgs. induction cs as [|[] cs IH]; intros [|m msgs]; cbn [deliver_rest]; try apply prefix_nil; [by apply prefix_cons|apply IH].
Qed.
Lemma deliver_prefix cs first msgs : (deliver cs first msgs).1.1 `prefix_of` msgs.
Proof.
  revert first msgs. induction cs as [|[] cs IH]; intros first [|m msgs]; cbn [deliver]; try apply prefix_nil.
  - specialize (IH true msgs). destruct (deliver cs true msgs) as [[sent first'] slow]. by apply prefix_cons.
  - destruct first; [apply IH|apply deliver_rest_prefix].
Qed.
Lemma feed_span cs response c N : response_fine N (pc_topic c) (pc_partition c) response → 0 ≤ pc_offset c ≤ N →
  N + steps (pc_topic c) (pc_partition c) response < 2 ^ 63 →
  wp (feed conf true cs response c) (fun st => pc_offset c ≤ pc_offset st.2 ≤ N + steps (pc_topic c) (pc_partition c) response ∧ home st.2 = home c ∧
    span (pc_offset c) (offsets st.1.1) (pc_offset st.2)).
Proof.
  intros Hr Hc HN. pose proof (parseResponse_span response c N Hr Hc HN) as Hp. unfold feed.
  destruct (parseResponse conf true response c) as [[res c']|] eqn:E; [|done]. apply parseResponse_home in E. cbn [gbind wp fst snd] in *.
  destruct Hp as [Hb Hs]. set (msgs := match res with inl msgs => msgs | inr _ => [] end).
  assert (span (pc_offset c) (offsets msgs) (pc_offset c')) as Hm by (subst msgs; destruct res; [done|apply span_nil; lia]).
  set (c1 := match responseResult _ with Some _ => _ | None => _ end). assert (pc_offset c1 = pc_offset c' ∧ home c1 = home c') as [E1 E2] by (subst c1; by case_match).
  pose proof (deliver_prefix cs (firstAttempt c1) msgs) as Hd. destruct (deliver cs (firstAttempt c1) msgs) as [[sent first] slow]. cbn [fst wp snd] in *.
  split; [destruct slow; cbn; rewrite E1; lia|split; [transitivity (home c1); [by destruct slow|congruence]|]].
  assert (span (pc_offset c) (offsets sent) (pc_offset c')) by (eapply span_sub; [|exact Hm]; destruct Hd as [k ->]; unfold offsets; rewrite fmap_app; by apply sublist_inserts_r).
  destruct slow; cbn; by rewrite E1.
Qed.

(** *** The life of a consumer *)

(** What the application, the goroutines of the partition consumers (a response is fed, with what
    the application does meanwhile; the dispatcher runs; it ends) and those of the broker consumers
    do, each as the code does it *)
Inductive consumer_event :=
| Consume (topic : bytes) (partition offset : Z) (newest oldest leader : option Z)
| AsyncClose (i : nat)
| Feed (i : nat) (cs : list feed_choice) (response : FetchResponse)
| Dispatch (i : nat) (backoffFunc : option (Z → Z)) (lead : leader_result) (dies : bool)
| End (i : nat)
| Update (o : list nat → list nat) (b : nat)
| Handle (o : list nat → list nat) (b : nat)
| Abort_ (o : list nat → list nat) (b : nat).
Context (metricRegistry : bool).
(** [responseFeeder] of partition consumer [i]: one response *)
Definition feed_child (i : nat) (cs : list feed_choice) (response : FetchResponse) (k : consumer) : Go (list (nat * ConsumerMessage) * consumer) :=
  match k_pcs k !! i with
  | None => Panic NilDereference
  | Some c =>
      let* st := feed conf metricRegistry cs response c in
      let k := set_pcs (<[i := st.2]> (k_pcs k)) k in
      let* k := if st.1.2 : bool then match pc_broker st.2 with Some b => subscribe i b k | None => Panic NilDereference end else Ret k in
      Ret (pair i <$> st.1.1, k)
  end.
Definition silently (m : Go consumer) : Go (list (nat * ConsumerMessage) * consumer) := let* k := m in Ret ([], k).
Definition consumer_exec (ev : consumer_event) (k : consumer) : Go (list (nat * ConsumerMessage) * consumer) :=
  match ev with
  | Consume topic partition offset newest oldest leader => silently (let* r := ConsumePartition conf topic partition offset newest oldest leader k in Ret r.2)
  | AsyncClose i => Ret ([], on_pc i AsyncClose_child k)
  | Feed i cs response => feed_child i cs response k
  | Dispatch i backoffFunc lead dies => silently (dispatcher_child conf i backoffFunc lead dies k)
  | End i => silently (end_child i k)
  | Update o b => silently (updateSubscriptions o b k)
  | Handle o b => silently (handleResponses o b k)
  | Abort_ o b => silently (abort o b k)
  end.
Fixpoint consumer_run (l : list consumer_event) (k : consumer) : Go (list (nat * ConsumerMessage) * consumer) :=
  match l with
  | [] => Ret ([], k)
  | ev :: l =>
      let* st := consumer_exec ev k in
      let* st' := consumer_run l st.2 in
      Ret (st.1 ++ st'.1, st'.2)
  end.
(** What the application has received from partition consumer [i] *)
Definition received (i : nat) (log : list (nat * ConsumerMessage)) : list ConsumerMessage := snd <$> filter (fun x => x.1 = i) log.
Definition event_fine (N : Z) (i : nat) (h : bytes * Z) (ev : consumer_event) : Prop :=
  match ev with Feed j _ response => j = i → response_fine N h.1 h.2 response | _ => True end.
Definition event_steps (i : nat) (h : bytes * Z) (ev : consumer_event) : Z :=
  match ev with Feed j _ response => if decide (j = i) then steps h.1 h.2 response else 0 | _ => 0 end.
Definition all_steps (i : nat) (h : bytes * Z) (l : list consumer_event) : Z := foldr (fun ev n => event_steps i h ev + n) 0 l.
Lemma event_steps_nonneg i h ev : 0 ≤ event_steps i h ev.
Proof. destruct ev; cbn; try lia. case_decide; [|lia]. unfold steps. case_match; [pose proof (len_nonneg (RecordsSet f))|]; lia. Qed.
Lemma all_steps_nonneg i h l : 0 ≤ all_steps i h l.
Proof. induction l as [|ev l IH]; [done|]. cbn. pose proof (event_steps_nonneg i h ev). unfold all_steps in IH. lia. Qed.

(** **** What does not move a partition consumer *)

(** Only the feeding of a response changes the offset; nothing changes topic and partition. *)
Definition place (k : consumer) (i : nat) : option (Z * (bytes * Z)) := (fun c => (pc_offset c, home c)) <$> k_pcs k !! i.
Definition kept (k k' : consumer) : Prop := ∀ i x, place k i = Some x → place k' i = Some x.
(** What holds of the result, if there is one *)
Definition gives {A} (m : Go A) (Q : A → Prop) : Prop := match m with Ret a => Q a | Panic _ => True end.
Lemma gives_bind {A C} (m : Go A) (f : A → Go C) P Q : gives m P → (∀ a, P a → gives (f a) Q) → gives (gbind m f) Q.
Proof. destruct m; cbn; auto. Qed.
Lemma kept_pcs k k' : k_pcs k' = k_pcs k → kept k k'.
Proof. intros E i x. unfold place. by rewrite E. Qed.
Lemma kept_trans k k' k'' : kept k k' → kept k' k'' → kept k k''.
Proof. unfold kept. auto. Qed.
Lemma kept_on i f k : (∀ c, pc_offset (f c) = pc_offset c ∧ home (f c) = home c) → kept k (on_pc i f k).
Proof.
  intros Hf j x. unfold place, on_pc, set_pcs. cbn. destruct (decide (j = i)) as [->|Hne]; [|by rewrite lookup_alter_ne].
  rewrite lookup_alter_eq. destruct (k_pcs k !! i) as [c|]; [|done]. destruct (Hf c) as [E1 E2]. cbn. by rewrite E1, E2.
Qed.
Lemma gives_kept k k' m : kept k k' → gives m (kept k') → gives m (kept k).
Proof. destruct m; cbn; [|done]. intros. by eapply kept_trans. Qed.
Lemma kept_each {A} (f : A → consumer → Go consumer) l k : (∀ x k, gives (f x k) (kept k)) → gives (KafkaProduceSet.go_each f l k) (kept k).
Proof.
  intros Hf. revert k. induction l as [|x l IH]; intros k; [by apply kept_pcs|]. cbn. eapply gives_bind; [apply Hf|]. intros k' Hk. by eapply gives_kept.
Qed.
Lemma kept_ref b k : k_pcs (refBrokerConsumer b k).2 = k_pcs k.
Proof. unfold refBrokerConsumer. by destruct (_ !! _). Qed.
Lemma kept_unref b k : gives (unrefBrokerConsumer b k) (kept k).
Proof. unfold unrefBrokerConsumer. destruct (_ !! _); [|done]. destruct (negb _); [by apply kept_pcs|]. destruct (bc_closed _); [done|by apply kept_pcs]. Qed.
Lemma kept_subscribe i b k : gives (subscribe i b k) (kept k).
Proof. unfold subscribe. destruct (_ !! _); [|done]. destruct (bc_closed _); [done|by apply kept_pcs]. Qed.
Lemma kept_trigger i k : gives (trigger i k) (kept k).
Proof. unfold trigger. destruct (_ !! _) as [[n []]|]; [done| |done]. by apply kept_pcs. Qed.
Lemma kept_close i k : gives (close_trigger i k) (kept k).
Proof. unfold close_trigger. destruct (_ !! _) as [[n []]|]; [done| |done]. by apply kept_pcs. Qed.
Lemma kept_leave i c k : gives (leave_broker i c k) (kept k).
Proof. unfold leave_broker. destruct (pc_broker c); [apply kept_unref|by apply kept_pcs]. Qed.
Lemma kept_silently m k : gives m (kept k) → gives (silently m) (fun st => st.1 = [] ∧ kept k st.2).
Proof. destruct m; cbn; auto. Qed.
Lemma kept_fresh n c k : k_pcs k !! n = None → kept k (set_pcs (<[n := c]> (k_pcs k)) k).
Proof. intros Hn i x. unfold place, set_pcs. cbn. destruct (decide (i = n)) as [->|Hne]; [by rewrite Hn|by rewrite lookup_insert_ne]. Qed.
Lemma kept_consume topic partition offset newest oldest leader k :
  gives (let* r := ConsumePartition conf topic partition offset newest oldest leader k in Ret r.2) (kept k).
Proof.
  unfold ConsumePartition. destruct (chooseStartingOffset _ _ _ _) as [c|e]; [|by apply kept_pcs]. destruct leader as [b|]; [|by apply kept_pcs].
  unfold addChild. destruct (get_block _ _ _); [by apply kept_pcs|]. set (k1 := set_children _ k). destruct (refBrokerConsumer b k1) as [n k2] eqn:E.
  pose proof (kept_ref b k1) as E2. rewrite E in E2. cbn [snd] in E2. change (k_pcs k1) with (k_pcs k) in E2.
  match goal with |- context [subscribe ?i ?b ?k] => pose proof (kept_subscribe i b k) as Hk3; destruct (subscribe i b k) as [k3|]; [|done] end.
  cbn [gbind gives snd] in *. eapply kept_trans; [|exact Hk3].
  intros i x Hx. unfold place in *. cbn. rewrite E2. rewrite lookup_insert_ne; [done|]. intros <-.
  pose proof (is_fresh (dom (k_pcs k))) as Hf. unfold pc_number in Hx. by apply not_elem_of_dom in Hf as Hf'; rewrite Hf' in Hx.
Qed.
Lemma kept_dispatch i lead k : gives (let* r := dispatch_child i lead k in Ret r.2) (kept k).
Proof.
  unfold dispatch_child. destruct lead as [| |b]; try by apply kept_pcs. destruct (refBrokerConsumer b k) as [n k'] eqn:E.
  assert (kept k k') as Hk by (apply kept_pcs; pose proof (kept_ref b k) as Er; by rewrite E in Er).
  match goal with |- context [subscribe ?i ?b ?k] => pose proof (kept_subscribe i b k) as Hk3; destruct (subscribe i b k) as [k3|]; [|done] end.
  cbn [gbind gives snd] in *. eapply kept_trans; [exact Hk|]. eapply kept_trans; [|exact Hk3]. by apply kept_on.
Qed.
Lemma backoff_place f c : pc_offset (computeBackoff conf f c).2 = pc_offset c ∧ home (computeBackoff conf f c).2 = home c.
Proof. by destruct f. Qed.
Lemma kept_put i c c' k : k_pcs k !! i = Some c → pc_offset c' = pc_offset c → home c' = home c → kept k (set_pcs (<[i := c']> (k_pcs k)) k).
Proof.
  intros Hi E1 E2 j x. unfold place, set_pcs. cbn. destruct (decide (j = i)) as [->|Hne]; [|by rewrite lookup_insert_ne]. rewrite lookup_insert_eq, Hi. cbn. by rewrite E1, E2.
Qed.
Lemma kept_dispatcher i f lead dies k : gives (dispatcher_child conf i f lead dies k) (kept k).
Proof.
  unfold dispatcher_child. destruct (k_pcs k !! i) as [c|] eqn:Hi; [|done]. destruct (backoff_place f c) as [E1 E2]. set (c' := (computeBackoff conf f c).2) in *.
  pose proof (kept_put i c c' k Hi E1 E2) as Hk. set (k1 := set_pcs _ k) in *. assert (kept k (take_token i k1)) as Hk1 by (eapply kept_trans; [exact Hk|by apply kept_pcs]).
  eapply gives_kept; [exact Hk1|]. destruct (_ && _); [apply kept_close|]. eapply gives_bind; [apply kept_leave|]. intros k2 Hk2. eapply gives_kept; [exact Hk2|].
  pose proof (kept_dispatch i lead (on_pc i (set_broker None) k2)) as Hd. assert (kept k2 (on_pc i (set_broker None) k2)) as Hon by by apply kept_on.
  eapply gives_kept; [exact Hon|]. destruct (dispatch_child _ _ _) as [[[e|] k3]|]; cbn in *; [|done..].
  eapply gives_kept; [exact Hd|]. eapply gives_kept; [|apply kept_trigger]. by apply kept_on.
Qed.
Lemma kept_update o b k : gives (updateSubscriptions o b k) (kept k).
Proof.
  unfold updateSubscriptions. destruct (k_bcs k !! b); [|done]. eapply gives_kept; [|apply kept_each]; [by apply kept_pcs|]. intros i k'. unfold drop_dying.
  destruct (k_pcs k' !! i); [|done]. destruct (dying _); [|by apply kept_pcs]. eapply gives_bind; [apply kept_close|]. intros k2 Hk2. cbn. eapply kept_trans; [exact Hk2|by apply kept_pcs].
Qed.
Lemma kept_result b i k : gives (handle_result b i k) (kept k).
Proof.
  unfold handle_result. destruct (k_pcs k !! i) as [c|]; [|done]. assert (kept k (on_pc i (set_result None) k)) as Hk by by apply kept_on.
  eapply gives_kept; [exact Hk|]. destruct (responseResult c) as [e|]; [|by apply kept_pcs].
  assert (∀ (silent : bool) e k', kept k' (if silent then k' else on_pc i (sendError e) k')) as Hs by (intros []; intros; [by apply kept_pcs|by apply kept_on]).
  assert (∀ (ends : bool) k', gives (let* k := if ends then close_trigger i k' else trigger i k' in Ret (unsubscribe b i k)) (kept k')) as He.
  { intros ends k'. eapply gives_bind; [destruct ends; [apply kept_close|apply kept_trigger]|]. intros k3 Hk3. cbn. eapply kept_trans; [exact Hk3|by apply kept_pcs]. }
  destruct e; try (by apply kept_pcs); [eapply gives_kept; [apply Hs|apply He]|..]; (eapply gives_kept; [apply (Hs false)|apply (He false)]).
Qed.
Lemma kept_abort o b k : gives (abort o b k) (kept k).
Proof.
  assert (∀ i k, gives (send_away i k) (kept k)) as Ha by (intros i k'; eapply gives_kept; [|apply kept_trigger]; by apply kept_on).
  unfold abort. destruct (k_bcs k !! b) as [bc|]; [|done]. eapply gives_kept; [by apply (kept_pcs k (abandonBrokerConsumer bc k))|].
  eapply gives_bind; [by apply kept_each|]. intros k2 Hk2. eapply gives_kept; [exact Hk2|]. eapply gives_bind; [by apply kept_each|]. intros k3 Hk3. cbn. eapply kept_trans; [exact Hk3|by apply kept_pcs].
Qed.
Lemma exec_kept ev k : (∀ i cs response, ev ≠ Feed i cs response) → gives (consumer_exec ev k) (fun st => st.1 = [] ∧ kept k st.2).
Proof.
  destruct ev as [| i|i cs response|i f lead dies|i|o b|o b|o b]; intros Hev; cbn [consumer_exec]; try apply kept_silently.
  - apply kept_consume.
  - cbn. split; [done|by apply kept_on].
  - by destruct (Hev i cs response).
  - apply kept_dispatcher.
  - unfold end_child. destruct (k_pcs k !! i); [|done]. eapply gives_bind; [apply kept_leave|]. intros k2 Hk2. cbn. eapply kept_trans; [exact Hk2|by apply kept_pcs].
  - apply kept_update.
  - unfold handleResponses. destruct (k_bcs k !! b); [|done]. apply kept_each. intros. apply kept_result.
  - apply kept_abort.
Qed.

(** **** What a response does *)

Lemma registry_feed cs response c st : feed conf metricRegistry cs response c = Ret st → feed conf true cs response c = Ret st.
Proof.
  unfold feed, parseResponse. destruct metricRegistry; [done|]. destruct (_ && _); [done|]. destruct (get_block _ _ _); [|done].
  destruct (negb (frb_Err f =? _)); [done|]. by destruct (block_numRecords f).
Qed.
Lemma received_app i l l' : received i (l ++ l') = received i l ++ received i l'.
Proof. unfold received. by rewrite filter_app, fmap_app. Qed.
Lemma received_own i ms : received i (pair i <$> ms) = ms.
Proof. unfold received. induction ms as [|m ms IH]; [done|]. cbn [fmap list_fmap]. rewrite filter_cons_True by done. cbn [fmap list_fmap] in *. by rewrite IH. Qed.
Lemma received_other i j ms : j ≠ i → received i (pair j <$> ms) = [].
Proof. intros Hne. unfold received. induction ms as [|m ms IH]; [done|]. cbn [fmap list_fmap]. by rewrite filter_cons_False. Qed.
Lemma feed_child_span i j cs response k c N : k_pcs k !! i = Some c → event_fine N i (home c) (Feed j cs response) → 0 ≤ pc_offset c ≤ N →
  N + event_steps i (home c) (Feed j cs response) < 2 ^ 63 →
  gives (feed_child j cs response k) (fun st => ∃ c', k_pcs st.2 !! i = Some c' ∧ home c' = home c ∧
    pc_offset c ≤ pc_offset c' ≤ N + event_steps i (home c) (Feed j cs response) ∧ span (pc_offset c) (offsets (received i st.1)) (pc_offset c')).
Proof.
  intros Hi Hev Hc HN. unfold feed_child. destruct (k_pcs k !! j) as [cj|] eqn:Hj; [|done].
  destruct (feed conf metricRegistry cs response cj) as [[[sent slow] cj']|] eqn:Ef; [|done]. apply registry_feed in Ef. cbn [gbind fst snd].
  set (k1 := set_pcs _ k).
  assert (∃ c', k_pcs k1 !! i = Some c' ∧ home c' = home c ∧ pc_offset c ≤ pc_offset c' ≤ N + event_steps i (home c) (Feed j cs response) ∧
    span (pc_offset c) (offsets (received i (pair j <$> sent))) (pc_offset c')) as (c' & Hc' & Eh & Hb & Hs).
  { subst k1. cbn [k_pcs set_pcs event_fine event_steps] in *. destruct (decide (j = i)) as [->|Hne].
    - assert (cj = c) as -> by congruence. exists cj'. rewrite lookup_insert_eq, received_own. split; [done|].
      pose proof (feed_span cs response c N (Hev eq_refl) Hc HN) as H. rewrite Ef in H. cbn in H. tauto.
    - exists c. rewrite lookup_insert_ne, received_other by done. split_and!; [done|done|lia|lia|apply span_nil; lia]. }
  assert (gives (if slow then match pc_broker cj' with Some b => subscribe j b k1 | None => Panic NilDereference end else Ret k1) (kept k1)) as Hk.
  { destruct slow; [|by apply kept_pcs]. destruct (pc_broker cj'); [apply kept_subscribe|done]. }
  eapply gives_bind; [exact Hk|]. intros k2 Hk2. cbn [gives fst snd]. specialize (Hk2 i (pc_offset c', home c')). unfold place in Hk2. rewrite Hc' in Hk2. specialize (Hk2 eq_refl).
  destruct (k_pcs k2 !! i) as [c2|] eqn:H2; [|done]. injection Hk2 as E1 E2 E3. exists c2. rewrite E1. split; [done|]. split; [unfold home in *; congruence|done].
Qed.
Lemma exec_span ev i k c N : k_pcs k !! i = Some c → event_fine N i (home c) ev → 0 ≤ pc_offset c ≤ N → N + event_steps i (home c) ev < 2 ^ 63 →
  gives (consumer_exec ev k) (fun st => ∃ c', k_pcs st.2 !! i = Some c' ∧ home c' = home c ∧
    pc_offset c ≤ pc_offset c' ≤ N + event_steps i (home c) ev ∧ span (pc_offset c) (offsets (received i st.1)) (pc_offset c')).
Proof.
  intros Hi Hev Hc HN. assert ((∃ j cs response, ev = Feed j cs response) ∨ ∀ j cs response, ev ≠ Feed j cs response) as [(j & cs & response & ->)|Hne].
  { destruct ev; try (right; done). left. eauto. }
  - by apply feed_child_span.
  - pose proof (exec_kept ev k Hne) as Hk. destruct (consumer_exec ev k) as [[log k']|]; [|done]. destruct Hk as [E Hk]. cbn [fst snd gives] in *. subst log.
    specialize (Hk i (pc_offset c, home c)). unfold place in Hk. rewrite Hi in Hk. specialize (Hk eq_refl). destruct (k_pcs k' !! i) as [c'|]; [|done].
    injection Hk as E1 E2 E3. exists c'. pose proof (event_steps_nonneg i (home c) ev). rewrite E1. split_and!; [done| |lia|lia|apply span_nil; lia]. unfold home. congruence.
Qed.
Lemma event_fine_mono N M i h ev : event_fine N i h ev → N ≤ M → event_fine M i h ev.
Proof.
  destruct ev as [| |j cs response| | | | |]; try done. intros Hev HM Hj block Hblock. eapply Forall_impl; [by apply (Hev Hj)|]. intros r Hr. by eapply fine_mono.
Qed.
Lemma run_span l i k c N : k_pcs k !! i = Some c → Forall (event_fine N i (home c)) l → 0 ≤ pc_offset c ≤ N → N + all_steps i (home c) l < 2 ^ 63 →
  gives (consumer_run l k) (fun st => ∃ c', k_pcs st.2 !! i = Some c' ∧ home c' = home c ∧
    pc_offset c ≤ pc_offset c' ≤ N + all_steps i (home c) l ∧ span (pc_offset c) (offsets (received i st.1)) (pc_offset c')).
Proof.
  revert k c N. induction l as [|ev l IH]; intros k c N Hi Hl Hc HN.
  { cbn in *. exists c. split_and!; [done|done|lia|lia|apply span_nil; lia]. }
  apply Forall_cons in Hl as [Hev Hl]. cbn [all_steps foldr] in *. fold (all_steps i (home c) l) in *.
  pose proof (all_steps_nonneg i (home c) l). pose proof (event_steps_nonneg i (home c) ev). cbn [consumer_run].
  eapply gives_bind; [apply (exec_span ev i k c N); [done..|lia]|]. intros [log k1] (c1 & H1 & E1 & Hb1 & Hs1). cbn [fst snd] in *. rewrite <-E1 in *.
  eapply gives_bind; [apply (IH k1 c1 (N + event_steps i (home c1) ev)); [done| |lia|lia]|].
  - eapply Forall_impl; [exact Hl|]. intros e He. eapply event_fine_mono; [exact He|lia].
  - intros [log' k2] (c2 & H2 & E2 & Hb2 & Hs2). cbn [gives fst snd] in *. exists c2. split_and!; [done|done|lia|lia|]. rewrite received_app. unfold offsets. rewrite fmap_app. by eapply span_app.
Qed.
End consumer.

(** C9: In every run of a consumer, made of the calls of ConsumePartition and AsyncClose, the
    dispatchers and the ends of the partition consumers, the responses they are fed and the
    updates, results and aborts of the broker consumers, in whatever order, the messages the
    application receives from a partition consumer have strictly increasing offsets, from its
    offset at the beginning on and before the offset it asks for next: none twice, none out of
    order. With a metric registry (the default; without one see the findings) feeding it
    another response does not panic. Responses are as the decoder makes them, and the offsets
    in them stay so far below 2^63 that they cannot overflow. *)
Theorem consumed_increasing conf metricRegistry l k log k' i c N : k_pcs k !! i = Some c → consumer_run conf metricRegistry l k = Ret (log, k') →
  Forall (event_fine N i (home c)) l → 0 ≤ pc_offset c ≤ N → N + all_steps i (home c) l < 2 ^ 63 →
  ∃ c', k_pcs k' !! i = Some c' ∧ home c' = home c ∧
    StronglySorted Z.lt (offsets (received i log)) ∧ Forall (fun o => pc_offset c ≤ o < pc_offset c') (offsets (received i log)) ∧
    (metricRegistry = true → ∀ cs response, response_fine N (pc_topic c) (pc_partition c) response →
       N + all_steps i (home c) l + steps (pc_topic c) (pc_partition c) response < 2 ^ 63 → returns (feed conf metricRegistry cs response c')).
Proof.
  intros Hi Er Hl Hc HN. pose proof (run_span conf metricRegistry l i k c N Hi Hl Hc HN) as H. rewrite Er in H. destruct H as (c' & Hc' & Eh & Hb & Hs & Hf & Ho).
  exists c'. split_and!; [done..|]. intros -> cs response Hr Hsteps. injection Eh as E1 E2. pose proof (all_steps_nonneg i (home c) l).
  eapply wp_returns, (feed_span conf cs response c' (N + all_steps i (home c) l)); rewrite ?E1, ?E2; [|lia|done].
  intros block Hblock. eapply Forall_impl; [by apply Hr|]. intros r Hr'. eapply fine_mono; [exact Hr'|lia].
Qed.

(** ** What a response shows *)

(** A response for two partitions: of a batch with offsets 3 to 5 the consumer at offset 4 takes two
    messages; the next response repeats the last one. *)
Definition a_batch (first : Z) (values : list bytes) : RecordBatch :=
  mk_batch first 0 2 0 0 false false (len values - 1) 0 0 7 0 0 (imap (fun i v => mk_record [] 0 0 (Z.of_nat i) None (Some v)) values) false true None.
Definition a_response (txns : list AbortedTransaction) (bs : list RecordBatch) : FetchResponse :=
  mk_FetchResponse {[B "t" := {[0 := mk_FetchResponseBlock 0 9 9 txns (newDefaultRecords <$> bs) false]}]} 0 4 false 0.
Definition a_child (offset : Z) : partitionConsumer := set_offset offset (newPartitionConsumer NewConfig (B "t") 0).
(** The application consumes the partition from offset 4 at broker 7; the broker fails, and the
    partition moves to broker 8, whose first response repeats the last message. *)
Definition begun : consumer := match ConsumePartition NewConfig (B "t") 0 4 (Some 9) (Some 0) (Some 7) newConsumer with Ret (_, k) => k | Panic _ => newConsumer end.
Definition some_events : list consumer_event :=
  [Update id 0; Feed 0 [Taken; Ticked; Taken] (a_response [] [a_batch 3 [B "a"; B "b"; B "c"]]); Handle id 0; Abort_ id 0; Dispatch 0 None (LeaderIs 8) false;
   Update id 1; Feed 0 [Taken] (a_response [] [a_batch 5 [B "c"; B "d"]]); Handle id 1; AsyncClose 0; Update id 1; End 0].
Definition consumed : list (nat * ConsumerMessage) * consumer := match consumer_run NewConfig true some_events begun with Ret st => st | Panic _ => ([], begun) end.
Lemma consumed_run : consumer_run NewConfig true some_events begun = Ret (consumed.1, consumed.2).
Proof.
  unfold consumed. assert (match consumer_run NewConfig true some_events begun with Ret _ => true | Panic _ => false end = true) as H by (vm_compute; reflexivity).
  revert H. by destruct (consumer_run NewConfig true some_events begun) as [[]|].
Qed.
Lemma consumed_increasing_witness :
  received 0 consumed.1 = [consumed_record (a_batch 3 []) (mk_record [] 0 0 1 None (Some (B "b"))) (a_child 4);
    consumed_record (a_batch 3 []) (mk_record [] 0 0 2 None (Some (B "c"))) (a_child 4); consumed_record (a_batch 5 []) (mk_record [] 0 0 1 None (Some (B "d"))) (a_child 4)] ∧
  ∃ c', k_pcs consumed.2 !! 0%nat = Some c' ∧ Forall (fun o => 4 ≤ o < pc_offset c') (offsets (received 0 consumed.1)).
Proof.
  split; [vm_compute; reflexivity|].
  assert (k_pcs begun !! 0%nat = Some (set_broker (Some 0%nat) (a_child 4))) as Hk by (vm_compute; reflexivity).
  assert (10 + all_steps 0 (home (set_broker (Some 0%nat) (a_child 4))) some_events < 2 ^ 63) as HN by (vm_compute; reflexivity).
  assert (0 ≤ pc_offset (set_broker (Some 0%nat) (a_child 4)) ≤ 10) as Hc by (cbn; lia).
  destruct (consumed_increasing NewConfig true some_events begun consumed.1 consumed.2 0 (set_broker (Some 0%nat) (a_child 4)) 10 Hk consumed_run) as (c' & Hc' & _ & _ & Hf & _);
    [|exact Hc|exact HN|exists c'; split; [exact Hc'|exact Hf]].
  unfold some_events. rewrite !Forall_cons. split_and!; try done; intros _ block [= <-]; apply Forall_singleton;
    (eexists; split; [reflexivity|]; split; [unfold records_below|unfold batch_bytes, bytes_ok, byte_ok]; apply (bool_decide_unpack _); vm_compute; exact I).
Defined.

(** *** Records in the order of the log *)

(** The offset after a list of offsets: the ones before it do not count *)
Definition next (o : Z) (l : list Z) : Z := foldl (fun o x => if x <? o then o else x + 1) o l.
Lemma set_offset_twice o o' c : set_offset o (set_offset o' c) = set_offset o c.
Proof. done. Qed.
Lemma set_offset_same c : set_offset (pc_offset c) c = c.
Proof. by destruct c. Qed.
Lemma filter_above {A} (off : A → Z) (o o' : Z) l : o ≤ o' → Forall (fun x => o' ≤ off x) l → filter (fun x => o' ≤ off x) l = filter (fun x => o ≤ off x) l.
Proof. intros Ho. induction 1 as [|x l Hx _ IH]; [done|]. rewrite !filter_cons_True by lia. by rewrite IH. Qed.
Lemma next_below o l : Forall (fun x => x < o) l → next o l = o.
Proof. induction 1 as [|x l Hx _ IH]; [done|]. cbn. by destruct (Z.ltb_spec x o); [|lia]. Qed.
Lemma next_bound o l N : 0 ≤ o ≤ N → Forall (fun x => 0 ≤ x < N) l → 0 ≤ next o l ≤ N.
Proof. intros Ho Hl. revert o Ho. induction Hl as [|x l Hx _ IH]; intros o Ho; [done|]. cbn. apply IH. destruct (_ <? _); lia. Qed.
Lemma next_sorted o l x : StronglySorted Z.lt (l ++ [x]) → o ≤ x → next o (l ++ [x]) = x + 1.
Proof.
  revert o. induction l as [|y l IH]; intros o Hs Ho; cbn [app next foldl].
  - by destruct (Z.ltb_spec x o); [lia|].
  - cbn [app] in Hs. apply StronglySorted_cons in Hs as [Hy Hs]. apply IH; [done|]. rewrite Forall_app, Forall_singleton in Hy. destruct (_ <? _); lia.
Qed.
Lemma take_sorted {A} (off : A → Z) f l ms c : (∀ x o c, f x (set_offset o c) = f x c) → StronglySorted Z.lt (off <$> l) → Forall (fun x => 0 ≤ off x < 2 ^ 63 - 1) l →
  foldl (take off f) (ms, c) l = (ms ++ ((fun x => f x c) <$> filter (fun x => pc_offset c ≤ off x) l), set_offset (next (pc_offset c) (off <$> l)) c).
Proof.
  intros Hf. revert ms c. induction l as [|x l IH]; intros ms c Hs Hb; [cbn; by rewrite app_nil_r, set_offset_same|].
  rewrite fmap_cons in *. apply StronglySorted_cons in Hs as [Hx Hs]. apply Forall_cons in Hb as [Hbx Hb]. cbn [foldl take next].
  destruct (Z.ltb_spec (off x) (pc_offset c)) as [Hlt|Hge].
  - rewrite IH by done. rewrite filter_cons_False by lia. done.
  - rewrite (swrap_offset (off x + 1)), IH, filter_cons_True by (done || lia). cbn [pc_offset set_offset]. rewrite set_offset_twice, fmap_cons, <-app_assoc. f_equal. cbn. f_equal. f_equal.
    rewrite (filter_above off (pc_offset c) (off x + 1)); [|lia|].
    + apply list_fmap_ext. intros. apply Hf.
    + rewrite Forall_fmap in Hx. eapply Forall_impl; [exact Hx|]. cbn. lia.
Qed.
Lemma parseRecords_sorted b c : StronglySorted Z.lt (record_offset b <$> Records b) → Forall (fun r => 0 ≤ record_offset b r < 2 ^ 63 - 1) (Records b) →
  Exists (fun r => pc_offset c ≤ record_offset b r) (Records b) →
  parseRecords b c = ((fun r => consumed_record b r c) <$> filter (fun r => pc_offset c ≤ record_offset b r) (Records b),
                      set_offset (next (pc_offset c) (record_offset b <$> Records b)) c).
Proof.
  intros Hs Hb Hex. unfold parseRecords. pose proof (take_sorted (record_offset b) (consumed_record b) (Records b) [] c (fun _ _ _ => eq_refl) Hs Hb) as E.
  change (foldl (take_record b) ([], c) (Records b)) with (foldl (take (record_offset b) (consumed_record b)) ([], c) (Records b)). rewrite E. unfold skip_if_empty. cbn [fst].
  destruct (_ <$> filter _ _) eqn:Ef; [|done]. apply fmap_nil_inv in Ef. apply Exists_exists in Hex as (r & Hr & Ho).
  assert (r ∈ filter (fun r => pc_offset c ≤ record_offset b r) (Records b)) as Hin by by apply list_elem_of_filter. rewrite Ef in Hin. set_solver.
Qed.

(** *** Transactions *)

Section transactions.
Context (conf : Config).

(** The control batch that ends a transaction with an abort *)
Definition abort_marker (b : RecordBatch) : bool :=
  Control b && match getControlRecord (newDefaultRecords b) with Ret (inl (mk_control _ _ ControlRecordAbort)) => true | _ => false end.
(** An aborted transaction of the producer of [b] has begun by the end of [b], and no abort marker
    of that producer has ended it in the batches [before]. *)
Definition ended_before (t : AbortedTransaction) (k : RecordBatch) : bool :=
  abort_marker k && (ProducerID k =? at_ProducerID t) && (at_FirstOffset t <=? LastOffset k).
Definition aborts (before : list RecordBatch) (b : RecordBatch) (t : AbortedTransaction) : bool :=
  (at_ProducerID t =? ProducerID b) && (at_FirstOffset t <=? LastOffset b) && negb (existsb (ended_before t) before).
Definition shown (txns : list AbortedTransaction) (before : list RecordBatch) (b : RecordBatch) : bool :=
  negb (Control b) && negb ((IsolationLevel (Consumer conf) =? ReadCommitted) && IsTransactional b && existsb (aborts before b) txns).
(** The records of the batches that a reader of this isolation level sees *)
Fixpoint visible (txns : list AbortedTransaction) (before bs : list RecordBatch) : list (RecordBatch * Record_) :=
  match bs with
  | [] => []
  | b :: bs => (if shown txns before b then pair b <$> Records b else []) ++ visible txns (before ++ [b]) bs
  end.

(** What the loop knows: the transactions [started] and the ones to come, and the producers whose
    batches are skipped *)
Record learned (all : list AbortedTransaction) (before bs : list RecordBatch) (started txns : list AbortedTransaction) (ids : gset Z) : Prop := mk_learned {
  l_all : ∀ t, t ∈ all ↔ t ∈ started ∨ t ∈ txns;
  l_sorted : StronglySorted starts_before txns;
  l_late : ∀ t k, t ∈ txns → k ∈ before → LastOffset k < at_FirstOffset t;
  l_early : ∀ t b, t ∈ started → b ∈ bs → at_FirstOffset t ≤ LastOffset b;
  l_ids : ∀ p, p ∈ ids ↔ ∃ t, t ∈ started ∧ at_ProducerID t = p ∧ existsb (ended_before t) before = false }.
Lemma none_ended t before : (∀ k, k ∈ before → LastOffset k < at_FirstOffset t) → existsb (ended_before t) before = false.
Proof.
  intros H. apply not_true_iff_false. rewrite existsb_exists. intros (k & Hk & E). apply list_elem_of_In in Hk. specialize (H k Hk).
  unfold ended_before in E. rewrite !andb_true_iff, Z.leb_le in E. lia.
Qed.
Lemma start_learned all before b bs txns : ∀ started ids, learned all before (b :: bs) started txns ids → (∀ b', b' ∈ b :: bs → LastOffset b ≤ LastOffset b') →
  ∃ started' txns' ids', start_aborted (LastOffset b) txns ids = (txns', ids') ∧ learned all before (b :: bs) started' txns' ids' ∧ (∀ t, t ∈ txns' → LastOffset b < at_FirstOffset t).
Proof.
  induction txns as [|t txns IH]; intros started ids Hl Hb; cbn [start_aborted]; [exists started, [], ids; split_and!; [done..|set_solver]|].
  pose proof Hl as [Hall Hsort Hlate Hearly Hids]. apply StronglySorted_cons in Hsort as [Ht Hsort].
  destruct (Z.ltb_spec (LastOffset b) (at_FirstOffset t)) as [Hlt|Hge].
  - exists started, (t :: txns), ids. split_and!; [done..|]. intros u [->|Hu]%elem_of_cons; [done|]. rewrite Forall_forall in Ht. specialize (Ht u Hu). unfold starts_before in Ht. lia.
  - apply (IH (started ++ [t])); [|done]. split; [|done| | |].
    + intros u. rewrite Hall. set_solver.
    + intros u k Hu. apply Hlate. set_solver.
    + intros u b' [Hu|Hu]%elem_of_app Hb'; [by apply Hearly|]. apply list_elem_of_singleton in Hu as ->. specialize (Hb b' Hb'). lia.
    + intros p. rewrite elem_of_union, elem_of_singleton, Hids. split.
      * intros [->|(u & Hu & Hp)]; [|exists u; set_solver]. exists t. split_and!; [set_solver|done|]. apply none_ended. intros k Hk. apply Hlate; [set_solver|done].
      * intros (u & Hu & <- & E). apply elem_of_app in Hu as [Hu|Hu]; [right; by exists u|]. apply list_elem_of_singleton in Hu as ->. by left.
Qed.
Lemma learned_skips all before b bs started txns ids : learned all before (b :: bs) started txns ids → (∀ t, t ∈ txns → LastOffset b < at_FirstOffset t) →
  bool_decide (ProducerID b ∈ ids) = existsb (aborts before b) all.
Proof.
  intros [Hall _ _ Hearly Hids] Hlate. apply eq_true_iff_eq. rewrite bool_decide_eq_true, Hids, existsb_exists. unfold aborts. split.
  - intros (t & Ht & Ep & E). exists t. rewrite <-list_elem_of_In, Hall, E, Ep, Z.eqb_refl. split; [by left|]. rewrite (proj2 (Z.leb_le _ _)); [done|]. apply Hearly; set_solver.
  - intros (t & Ht & E). rewrite !andb_true_iff, Z.eqb_eq, Z.leb_le, negb_true_iff in E. destruct E as [[Ep Ef] E]. exists t. split_and!; [|done..].
    apply list_elem_of_In, Hall in Ht as [Ht|Ht]; [done|]. specialize (Hlate t Ht). lia.
Qed.
Lemma next_learned all before b bs started txns ids : learned all before (b :: bs) started txns ids → (∀ t, t ∈ txns → LastOffset b < at_FirstOffset t) →
  learned all (before ++ [b]) bs started txns (if abort_marker b then ids ∖ {[ProducerID b]} else ids).
Proof.
  intros [Hall Hsort Hlate Hearly Hids] Hb. split; [done|done| | |].
  - intros t k Ht [Hk|Hk]%elem_of_app; [by apply Hlate|]. apply list_elem_of_singleton in Hk as ->. by apply Hb.
  - intros t b' Ht Hb'. apply Hearly; set_solver.
  - intros p. assert (∀ t, t ∈ started → existsb (ended_before t) (before ++ [b]) = existsb (ended_before t) before || abort_marker b && (ProducerID b =? at_ProducerID t)) as E.
    { intros t Ht. rewrite existsb_app. cbn. rewrite orb_false_r. unfold ended_before. rewrite (proj2 (Z.leb_le _ _)) by (apply Hearly; set_solver). by rewrite andb_true_r. }
    destruct (abort_marker b); rewrite ?elem_of_difference, ?elem_of_singleton, Hids; split.
    + intros [(t & Ht & <- & Et) Hp]. exists t. rewrite E, Et by done. split_and!; [done..|]. cbn. by apply Z.eqb_neq.
    + intros (t & Ht & <- & Et). rewrite E in Et by done. apply orb_false_iff in Et as [Et Hp]. apply Z.eqb_neq in Hp. split; [by exists t|done].
    + intros (t & Ht & <- & Et). exists t. by rewrite E, Et by done.
    + intros (t & Ht & <- & Et). rewrite E, orb_false_r in Et by done. by exists t.
Qed.

(** *** A response, batch by batch *)

(** The batches of a log: at least one record each, offsets that grow within a batch and from one to
    the next, control batches with a control record *)
Definition batch_offsets (b : RecordBatch) : list Z := record_offset b <$> Records b.
Record log_batches (bs : list RecordBatch) : Prop := mk_log {
  g_offsets : StronglySorted Z.lt (bs ≫= batch_offsets);
  g_bounds : Forall (fun o => 0 ≤ o < 2 ^ 63 - 1) (bs ≫= batch_offsets);
  g_last : StronglySorted Z.le (LastOffset <$> bs);
  g_filled : Forall (fun b => Records b ≠ []) bs;
  g_control : Forall (fun b => Control b = true → ∃ cr, getControlRecord (newDefaultRecords b) = Ret (inl cr)) bs }.
(** The first batch reaches the offset of the consumer. *)
Definition reaches (o : Z) (bs : list RecordBatch) : Prop := match bs with [] => True | b :: _ => Exists (fun r => o ≤ record_offset b r) (Records b) end.
Definition from_offset (o : Z) (l : list (RecordBatch * Record_)) : list (RecordBatch * Record_) := filter (fun p => o ≤ record_offset p.1 p.2) l.
Definition handed (c : partitionConsumer) (p : RecordBatch * Record_) : ConsumerMessage := consumed_record p.1 p.2 c.
Lemma sorted_app_l (l k : list Z) : StronglySorted Z.lt (l ++ k) → StronglySorted Z.lt l ∧ StronglySorted Z.lt k ∧ ∀ x y, x ∈ l → y ∈ k → x < y.
Proof.
  induction l as [|x l IH]; cbn [app]; [intros; split_and!; [constructor|done|set_solver]|]. intros [Hf Hs]%StronglySorted_cons.
  destruct (IH Hs) as (H1 & H2 & H3). rewrite Forall_app in Hf. destruct Hf as [Hl Hk]. rewrite !Forall_forall in Hl, Hk. split_and!; [constructor; [done|by apply Forall_forall]|done|].
  intros u v [->|Hu]%elem_of_cons Hv; [by apply Hk|by apply H3].
Qed.
Lemma log_cons b bs : log_batches (b :: bs) → log_batches bs ∧ StronglySorted Z.lt (batch_offsets b) ∧ Forall (fun r => 0 ≤ record_offset b r < 2 ^ 63 - 1) (Records b) ∧
  (∀ x y, x ∈ batch_offsets b → y ∈ bs ≫= batch_offsets → x < y) ∧ (∀ b', b' ∈ b :: bs → LastOffset b ≤ LastOffset b').
Proof.
  intros [Ho Hb Hl Hf Hc]. cbn [mbind list_bind] in Ho, Hb. apply sorted_app_l in Ho as (H1 & H2 & H3). apply Forall_app in Hb as [Hb1 Hb2]. rewrite fmap_cons in Hl. apply StronglySorted_cons in Hl as [Hl1 Hl2].
  apply Forall_cons in Hf as [_ Hf]. apply Forall_cons in Hc as [_ Hc]. split_and!; [by split|done|by apply Forall_fmap in Hb1|done|].
  intros b' [->|Hb']%elem_of_cons; [done|]. rewrite Forall_fmap, Forall_forall in Hl1. by apply Hl1.
Qed.
Lemma reaches_next b bs o : log_batches (b :: bs) → reaches o (b :: bs) →
  let o' := next o (batch_offsets b) in reaches o' bs ∧ o ≤ o' ∧ ∀ y, y ∈ bs ≫= batch_offsets → o' ≤ y.
Proof.
  intros Hlog Hr. pose proof (log_cons b bs Hlog) as (Hbs & Hs & _ & Hlt & _). cbn [reaches] in Hr. apply Exists_exists in Hr as (r & Hr & Ho).
  assert (record_offset b r ∈ batch_offsets b) as Hin by by apply list_elem_of_fmap_2.
  destruct (exists_last (l:=batch_offsets b)) as (l & x & E); [by destruct (batch_offsets b); [set_solver|]|]. rewrite E in *.
  assert (o ≤ x) as Hox.
  { apply elem_of_app in Hin as [Hin|Hin]; [|apply list_elem_of_singleton in Hin; lia]. apply sorted_app_l in Hs as (_ & _ & Hs). specialize (Hs _ x Hin ltac:(set_solver)). lia. }
  rewrite (next_sorted o l x Hs Hox). assert (∀ y, y ∈ bs ≫= batch_offsets → x + 1 ≤ y) as Hy by (intros y Hy; specialize (Hlt x y ltac:(set_solver) Hy); lia).
  split_and!; [|lia|done]. destruct bs as [|b' bs]; [done|]. cbn [reaches]. destruct Hbs as [_ _ _ [Hf _]%Forall_cons _].
  destruct (Records b') as [|r' l'] eqn:Er; [done|]. apply Exists_cons_hd, Hy. cbn [mbind list_bind]. apply elem_of_app. left. unfold batch_offsets. rewrite Er. set_solver.
Qed.
Lemma visible_offsets all before bs p : p ∈ visible all before bs → record_offset p.1 p.2 ∈ bs ≫= batch_offsets.
Proof.
  revert before. induction bs as [|b bs IH]; intros before; cbn [visible mbind list_bind]; [set_solver|]. rewrite !elem_of_app. intros [Hp|Hp]; [left|right; by eapply IH].
  destruct (shown _ _ _); [|set_solver]. apply list_elem_of_fmap in Hp as (r & -> & Hr). by apply list_elem_of_fmap_2.
Qed.
Lemma from_pairs o (b : RecordBatch) l : from_offset o (pair b <$> l) = pair b <$> filter (fun r => o ≤ record_offset b r) l.
Proof. unfold from_offset. induction l as [|r l IH]; [done|]. rewrite fmap_cons, !filter_cons. cbn [fst snd]. case_decide; [by rewrite fmap_cons, IH|done]. Qed.
(** One batch *)
Lemma parse_batch_visible all before b bs started txns ids c : learned all before (b :: bs) started txns ids → log_batches (b :: bs) → reaches (pc_offset c) (b :: bs) →
  ∃ started' txns' ids', learned all (before ++ [b]) bs started' txns' ids' ∧
  parse_set conf (newDefaultRecords b) txns ids c = Ret (inl (handed c <$> from_offset (pc_offset c) (if shown all before b then pair b <$> Records b else []), txns', ids'),
    set_offset (next (pc_offset c) (batch_offsets b)) c).
Proof.
  intros Hl Hlog Hr. pose proof (log_cons b bs Hlog) as (Hbs & Hs & Hb & Hlt & Hlast). destruct Hlog as [_ _ _ _ [Hcontrol _]%Forall_cons].
  destruct (start_learned all before b bs txns started ids Hl Hlast) as (started' & txns' & ids' & E & Hl' & Hlate).
  pose proof (learned_skips _ _ _ _ _ _ _ Hl' Hlate) as Hskip. pose proof (next_learned _ _ _ _ _ _ _ Hl' Hlate) as Hnext.
  unfold parse_set, parse_batch, shown, abort_marker in *. cbn [newDefaultRecords recordsType Batch]. rewrite E, (parseRecords_sorted b c Hs Hb Hr).
  change (isControl _) with (inl (Control b) : bool + packet_error). destruct (Control b); cbn [negb andb].
  - destruct (Hcontrol eq_refl) as [cr Ecr]. rewrite Ecr in *. cbn [gbind]. eexists _, _, _. split; [exact Hnext|]. by destruct cr as [v e []].
  - eexists _, _, _. split; [exact Hnext|]. rewrite Hskip. destruct (_ && existsb _ _); cbn [negb]; [done|]. by rewrite from_pairs, <-list_fmap_compose.
Qed.
Lemma parse_sets_visible all bs : ∀ before started txns ids ms c, learned all before bs started txns ids → log_batches bs → reaches (pc_offset c) bs →
  parse_sets conf (newDefaultRecords <$> bs) txns ids ms c =
    Ret (inl (ms ++ (handed c <$> from_offset (pc_offset c) (visible all before bs))), set_offset (next (pc_offset c) (bs ≫= batch_offsets)) c).
Proof.
  induction bs as [|b bs IH]; intros before started txns ids ms c Hl Hlog Hr; [cbn; by rewrite app_nil_r, set_offset_same|].
  destruct (parse_batch_visible _ _ _ _ _ _ _ c Hl Hlog Hr) as (started' & txns' & ids' & Hl' & E). pose proof (reaches_next b bs (pc_offset c) Hlog Hr) as (Hr' & Ho & Hge).
  pose proof (log_cons b bs Hlog) as (Hbs & _). rewrite fmap_cons. cbn [parse_sets]. change (typed_records (newDefaultRecords b)) with (newDefaultRecords b). rewrite E. cbn [gbind fst snd].
  rewrite (IH _ _ _ _ _ (set_offset (next (pc_offset c) (batch_offsets b)) c) Hl' Hbs Hr'). cbn [visible pc_offset set_offset]. f_equal. f_equal.
  - f_equal. rewrite <-app_assoc. f_equal. unfold from_offset at 3. rewrite filter_app, fmap_app. f_equal. unfold from_offset. f_equal.
    apply (filter_above (fun p : RecordBatch * Record_ => record_offset p.1 p.2)); [done|]. apply Forall_forall. intros p Hp. eapply Hge, visible_offsets, Hp.
  - rewrite set_offset_twice. f_equal. cbn [mbind list_bind]. unfold next. by rewrite foldl_app.
Qed.
Lemma learned_start txns bs : learned txns [] bs [] (merge_sort starts_before txns) ∅.
Proof.
  split; [|apply StronglySorted_merge_sort|set_solver..].
  - intros t. rewrite merge_sort_Permutation. set_solver.
  - intros t u v H1 H2. unfold starts_before in *. lia.
  - intros t u. unfold starts_before. lia.
Qed.
Lemma default_numRecords block bs : RecordsSet block = newDefaultRecords <$> bs → Forall (fun b => Records b ≠ []) bs → bs ≠ [] →
  ∃ n, block_numRecords block = inl n ∧ n ≠ 0.
Proof.
  unfold block_numRecords. intros -> Hf Hne.
  assert (∀ n, ∃ m, foldl (fun sum r => match sum, numRecords r with inl n, inl c => inl (n + c) | inr e, _ => inr e | _, inr e => inr e end) (inl n) (newDefaultRecords <$> bs)
    = inl m ∧ n + len bs ≤ m) as H.
  { clear Hne. induction Hf as [|b bs Hb _ IH]; intros n; [exists n; split; [done|unfold len; cbn; lia]|]. rewrite fmap_cons. cbn [foldl].
    change (numRecords (newDefaultRecords b)) with (inl (len (Records b)) : Z + packet_error). destruct (IH (n + len (Records b))) as (m & -> & Hm). exists m. split; [done|].
    rewrite len_cons. assert (0 < len (Records b)) by (destruct (Records b); [done|]; rewrite len_cons; pose proof (len_nonneg l); lia). lia. }
  destruct (H 0) as (m & -> & Hm). exists m. split; [done|]. assert (0 < len bs) by (destruct bs; [done|]; rewrite len_cons; pose proof (len_nonneg bs); lia). lia.
Qed.
End transactions.

(** C8: For a response whose batches continue the log from the offset of the consumer,
    parseResponse returns exactly the records from that offset on, in order, without those of
    control batches and, when only committed messages are read, of transactional batches whose
    producer has an aborted transaction that began by the end of the batch and was not ended
    by an abort marker before it; the consumer is left behind the last record. *)
Theorem response_exposes conf response block bs c o :
  get_block (frs_Blocks response) (pc_topic c) (pc_partition c) = Some block → frb_Err block = ErrNoError →
  RecordsSet block = newDefaultRecords <$> bs → log_batches bs → last (bs ≫= batch_offsets) = Some o → reaches (pc_offset c) bs →
  parseResponse conf true response c =
    Ret (inl (handed c <$> from_offset (pc_offset c) (visible conf (AbortedTransactions block) [] bs)),
         set_offset (o + 1) (set_watermark (HighWaterMarkOffset block) (set_fetchSize (Fetch_Default (Consumer conf)) c))).
Proof.
  intros Hblock Herr Hset Hlog Ho Hr. assert (bs ≠ []) as Hne by by intros ->.
  destruct (default_numRecords block bs Hset (g_filled bs Hlog) Hne) as (n & En & Hn). unfold parseResponse. rewrite Hblock, Herr, En.
  rewrite bool_decide_eq_false_2 by (intros E; by rewrite E in Hblock). rewrite andb_false_r. cbn [negb]. rewrite Z.eqb_refl, (proj2 (Z.eqb_neq n 0) Hn), Hset. cbn [negb].
  pose proof (learned_start (AbortedTransactions block) bs) as Hl. unfold getAbortedTransactions.
  rewrite (parse_sets_visible conf _ bs _ _ _ _ _ (set_watermark _ (set_fetchSize _ c)) Hl Hlog Hr). cbn [app]. f_equal. f_equal. f_equal. cbn [pc_offset set_watermark set_fetchSize].
  apply last_Some in Ho as [l El]. rewrite El. apply next_sorted; [rewrite <-El; apply Hlog|]. destruct bs as [|b bs]; [done|].
  cbn [reaches] in Hr. apply Exists_exists in Hr as (r & Hr & Hle). assert (record_offset b r ∈ l ++ [o]) as Hin.
  { rewrite <-El. cbn [mbind list_bind]. apply elem_of_app. left. by apply list_elem_of_fmap_2. }
  apply elem_of_app in Hin as [Hin|Hin]; [|apply list_elem_of_singleton in Hin; lia].
  pose proof (g_offsets _ Hlog) as Hs. rewrite El in Hs. apply sorted_app_l in Hs as (_ & _ & Hs). specialize (Hs _ o Hin ltac:(set_solver)). lia.
Qed.

(** *** A response with an aborted transaction, and what the consumer loses *)

Definition committed_config : Config :=
  let c := Consumer NewConfig in
  mk_Config (Admin_Timeout NewConfig) (Net NewConfig) (Metadata NewConfig) (Producer NewConfig)
    (mk_consumer (Group c) (cons_Retry_Backoff c) (Fetch_Min c) (Fetch_Default c) (Fetch_Max c) (cons_MaxWaitTime c) (MaxProcessingTime c)
      (cons_Return_Errors c) (CommitInterval c) (Initial c) (Retention c) (Offsets_Retry_Max c) ReadCommitted)
    (ClientID NewConfig) (ChannelBufferSize NewConfig) V0_11_0_0.
(** A control batch of the producer of [a_batch] *)
Definition a_marker (offset : Z) (key value : bytes) : RecordBatch :=
  mk_batch offset 0 2 0 0 true false 0 0 0 7 0 0 [mk_record [] 0 0 0 (Some key) (Some value)] false true None.
Definition a_log : list RecordBatch :=
  [a_batch 3 [B "a"; B "b"]; a_marker 5 [0; 0; 0; 0] [0; 0; 0; 0; 0; 1]; a_batch 6 [B "c"; B "d"]].
Lemma response_exposes_witness : ∃ response block c',
  visible committed_config (AbortedTransactions block) [] a_log = pair (a_batch 6 [B "c"; B "d"]) <$> Records (a_batch 6 [B "c"; B "d"]) ∧ pc_offset c' = 8 ∧
  parseResponse committed_config true response (a_child 4) =
    Ret (inl (handed (a_child 4) <$> from_offset 4 (visible committed_config (AbortedTransactions block) [] a_log)), c').
Proof.
  exists (a_response [mk_aborted 7 3] a_log), (mk_FetchResponseBlock 0 9 9 [mk_aborted 7 3] (newDefaultRecords <$> a_log) false). eexists. split; [by vm_compute|].
  split; [|apply (response_exposes committed_config _ _ a_log (a_child 4) 7)]; try reflexivity; [|apply (bool_decide_unpack _); by vm_compute].
  split; [apply (bool_decide_unpack _); by vm_compute..|].
  unfold a_log. rewrite !Forall_cons. split_and!; try done. intros _. eexists. vm_compute. reflexivity.
Defined.

(** A control batch that does not parse: the messages before it are never handed over, and the
    consumer is past them. *)
Lemma parsed_messages_lost : let response := a_response [] [a_batch 3 [B "a"; B "b"]; a_marker 5 [] []] in
  ∃ e c', parseResponse committed_config true response (a_child 3) = Ret (inr e, c') ∧ pc_offset c' = 6.
Proof. eexists _, _. split; [vm_compute; reflexivity|reflexivity]. Qed.
(** A batch of which every record is before the offset makes the consumer skip the first message of
    the next one. *)
Lemma first_message_skipped : let response := a_response [] [a_batch 3 [B "a"]; a_batch 4 [B "b"; B "c"]] in
  ∃ ms c', parseResponse NewConfig true response (a_child 4) = Ret (inl ms, c') ∧ offsets ms = [5].
Proof. eexists _, _. split; [vm_compute; reflexivity|reflexivity]. Qed.
(** Without a maximum the fetch size doubles until it is negative, then zero. *)
Lemma fetch_size_wraps c :
  fetchSize (grow_fetch NewConfig (set_fetchSize (2 ^ 30) c)) = - 2 ^ 31 ∧ fetchSize (grow_fetch NewConfig (set_fetchSize (- 2 ^ 31) c)) = 0.
Proof. done. Qed.
(** Without a registry of metrics every response with a block panics. *)
Lemma no_registry_panics conf response block c n : get_block (frs_Blocks response) (pc_topic c) (pc_partition c) = Some block → frb_Err block = ErrNoError →
  block_numRecords block = inl n → parseResponse conf false response c = Panic NilDereference.
Proof.
  intros Hb He Hn. unfold parseResponse. rewrite bool_decide_eq_false_2 by (intros E; by rewrite E in Hb). by rewrite andb_false_r, Hb, He, Hn.
Qed.
