(* ===== verification/KafkaClient.v ===== *)
(** * [kafka/client.go]: brokers, metadata and coordinators

    The state of a client and every method on it.  The methods pass the state explicitly; what the
    brokers answer, the clock, and the broker that a loop over the map of brokers meets first are
    choices of the environment, numbered by the questions asked so far.  Calls of a client are taken
    one at a time: the lock protects the maps, and the model does not interleave the calls. *)

From S2P Require Import Prelude GoStrings KafkaCodec KafkaProtocol KafkaMetadata KafkaOffsets KafkaConfig KafkaProducer KafkaConsumer.

(** ** Errors *)

Definition ErrConsumerCoordinatorNotAvailable : Z := 15.
Definition ErrInvalidTopic : Z := 17.
Definition ErrTopicAuthorizationFailed : Z := 29.
Definition ErrClusterAuthorizationFailed : Z := 31.
Definition ErrUnsupportedVersion : Z := 35.
Definition ErrSASLAuthenticationFailed : Z := 58.
(** What a request to a broker can fail with, and the errors of the client *)
Inductive call_error := PacketEncodingError | CallKError (code : Z) | CallOther.
Inductive client_error :=
| KErr (code : Z) | ErrClosedClient | ErrOutOfBrokers | ErrControllerNotAvailable | ErrNoTopicsToUpdateMetadata | ErrIncompleteResponse
| ErrCall (e : call_error) | ErrConfiguration (why : bytes).

(** ** The state *)

(** A broker object, with a number that stands for its address in memory *)
Record Broker_ := mk_broker_ { br_number : nat; br_node : BrokerNode }.
Definition br_id (b : Broker_) : Z := b_id (br_node b).
Definition br_addr (b : Broker_) : bytes := b_addr (br_node b).
(** The calls on broker objects that return nothing the client uses *)
Inductive broker_call := Opened (n : nat) | CloseCalled (n : nat) | AsyncClosed (n : nat).
(** [type client struct]; a map that [Close] sets to nil is [None], and an element of
    [cachedPartitionsResults] has the slices of [allPartitions] and [writablePartitions].  The last
    fields count the broker objects, the questions to brokers and the readings of the clock. *)
Record client := mk_client {
  seedBrokers : list Broker_; deadSeeds : list Broker_; controllerID : Z; c_brokers : option (gmap Z Broker_);
  c_metadata : option (gmap bytes (gmap Z PartitionMetadata)); metadataTopics : option (gset bytes); coordinators : gmap bytes Z;
  cachedPartitionsResults : gmap bytes (option (list Z) * option (list Z));
  c_calls : list broker_call; c_objects : nat; c_asked : nat; c_reads : nat }.
Definition set_seeds s d c := mk_client s d (controllerID c) (c_brokers c) (c_metadata c) (metadataTopics c) (coordinators c) (cachedPartitionsResults c) (c_calls c) (c_objects c) (c_asked c) (c_reads c).
Definition set_controller i c := mk_client (seedBrokers c) (deadSeeds c) i (c_brokers c) (c_metadata c) (metadataTopics c) (coordinators c) (cachedPartitionsResults c) (c_calls c) (c_objects c) (c_asked c) (c_reads c).
Definition set_brokers b c := mk_client (seedBrokers c) (deadSeeds c) (controllerID c) b (c_metadata c) (metadataTopics c) (coordinators c) (cachedPartitionsResults c) (c_calls c) (c_objects c) (c_asked c) (c_reads c).
Definition set_metadata m t p c := mk_client (seedBrokers c) (deadSeeds c) (controllerID c) (c_brokers c) m t (coordinators c) p (c_calls c) (c_objects c) (c_asked c) (c_reads c).
Definition set_coordinators k c := mk_client (seedBrokers c) (deadSeeds c) (controllerID c) (c_brokers c) (c_metadata c) (metadataTopics c) k (cachedPartitionsResults c) (c_calls c) (c_objects c) (c_asked c) (c_reads c).
Definition log_call e c := mk_client (seedBrokers c) (deadSeeds c) (controllerID c) (c_brokers c) (c_metadata c) (metadataTopics c) (coordinators c) (cachedPartitionsResults c) (c_calls c ++ [e]) (c_objects c) (c_asked c) (c_reads c).
Definition set_objects n c := mk_client (seedBrokers c) (deadSeeds c) (controllerID c) (c_brokers c) (c_metadata c) (metadataTopics c) (coordinators c) (cachedPartitionsResults c) (c_calls c) n (c_asked c) (c_reads c).
Definition set_asked n c := mk_client (seedBrokers c) (deadSeeds c) (controllerID c) (c_brokers c) (c_metadata c) (metadataTopics c) (coordinators c) (cachedPartitionsResults c) (c_calls c) (c_objects c) n (c_reads c).
Definition set_reads n c := mk_client (seedBrokers c) (deadSeeds c) (controllerID c) (c_brokers c) (c_metadata c) (metadataTopics c) (coordinators c) (cachedPartitionsResults c) (c_calls c) (c_objects c) (c_asked c) n.

(** ** Brokers *)

Section client.
Context (conf : Config) (backoffFunc : option (Z → Z → Z)).
(** The broker a loop over the map meets first, the clock, and the answers *)
Context (pick : gmap Z Broker_ → Broker_) (clock : nat → Z).
Context (get_metadata : nat → Broker_ → MetadataRequest → MetadataResponse + call_error).
Context (find_coordinator : nat → Broker_ → FindCoordinatorRequest → FindCoordinatorResponse + call_error).
Context (get_offsets : nat → Broker_ → OffsetRequest → OffsetResponse + call_error).
Context (init_producer_id : nat → Broker_ → InitProducerIDRequest → InitProducerIDResponse + call_error).
Abbreviation M := (Metadata conf).

(** [func (client *client) Closed() bool] *)
Definition Closed (c : client) : bool := bool_decide (c_brokers c = None).
(** [client.brokers[id]] *)
Definition broker_at (id : Z) (c : client) : option Broker_ := c_brokers c ≫= (fun m => m !! id).
(** [func (client *client) registerBroker(broker *Broker)] *)
Definition put_broker (b : Broker_) (c : client) : Go client :=
  match c_brokers c with
  | None => Panic NilDereference
  | Some m => Ret (set_brokers (Some (<[br_id b := b]> m)) c)
  end.
Definition registerBroker (b : Broker_) (c : client) : Go client :=
  match broker_at (br_id b) c with
  | None => put_broker b c
  | Some old => if beq (br_addr b) (br_addr old) then Ret c else put_broker b (log_call (AsyncClosed (br_number old)) c)
  end.
(** A broker that was decoded from a response is a new object. *)
Definition new_broker (node : BrokerNode) (c : client) : Broker_ * client := (mk_broker_ (c_objects c) node, set_objects (S (c_objects c)) c).
(** [func (client *client) deregisterBroker(broker *Broker)] *)
Definition deregisterBroker (b : Broker_) (c : client) : client :=
  match seedBrokers c with
  | s :: rest => if decide (br_number b = br_number s) then set_seeds rest (deadSeeds c ++ [b]) c else set_brokers (delete (br_id b) <$> c_brokers c) c
  | [] => set_brokers (delete (br_id b) <$> c_brokers c) c
  end.
(** [func (client *client) resurrectDeadBrokers()] *)
Definition resurrectDeadBrokers (c : client) : client := set_seeds (seedBrokers c ++ deadSeeds c) [] c.
(** [func (client *client) any() *Broker] *)
Definition any (c : client) : option (Broker_ * client) :=
  let found b := Some (b, log_call (Opened (br_number b)) c) in
  match seedBrokers c with
  | b :: _ => found b
  | [] => match c_brokers c with
          | Some m => if decide (m = ∅) then None else found (pick m)
          | None => None
          end
  end.
(** The answer to the next question, and a reading of the clock *)
Definition ask_broker {A} (answer : nat → A) (c : client) : A * client := (answer (c_asked c), set_asked (S (c_asked c)) c).
Definition time_Now (c : client) : Z * client := (clock (c_reads c), set_reads (S (c_reads c)) c).
(** [_ = broker.Close()] and [client.deregisterBroker(broker)] *)
Definition discard_broker (b : Broker_) (c : client) : client := deregisterBroker b (log_call (CloseCalled (br_number b)) c).

(** ** The cache *)

(** [func (client *client) cachedMetadata(topic string, partitionID int32) *PartitionMetadata] *)
Definition topic_metadata (topic : bytes) (c : client) : option (gmap Z PartitionMetadata) := c_metadata c ≫= (fun m => m !! topic).
Definition cachedMetadata (topic : bytes) (partitionID : Z) (c : client) : option PartitionMetadata :=
  topic_metadata topic c ≫= (fun m => m !! partitionID).
Inductive partitionType := allPartitions | writablePartitions.
(** [func (client *client) cachedPartitions(topic string, partitionSet partitionType) []int32] *)
Definition cachedPartitions (topic : bytes) (set : partitionType) (c : client) : option (list Z) :=
  match cachedPartitionsResults c !! topic with
  | None => None
  | Some (all, writable) => match set with allPartitions => all | writablePartitions => writable end
  end.
(** [func (client *client) setPartitionCache(topic string, partitionSet partitionType) []int32] *)
Definition in_set (set : partitionType) (p : PartitionMetadata) : bool :=
  match set with allPartitions => true | writablePartitions => negb (pm_Err p =? ErrLeaderNotAvailable) end.
Definition partition_ids (set : partitionType) (m : gmap Z PartitionMetadata) : list Z :=
  merge_sort Z.le (pm_ID <$> filter (fun p => in_set set p = true) ((map_to_list m).*2)).
Definition setPartitionCache (topic : bytes) (set : partitionType) (c : client) : option (list Z) := partition_ids set <$> topic_metadata topic c.
(** [func (client *client) cachedLeader(topic string, partitionID int32) ( *Broker, error)] *)
Definition cachedLeader (topic : bytes) (partitionID : Z) (c : client) : (Broker_ + client_error) * client :=
  match cachedMetadata topic partitionID c with
  | Some metadata =>
      if pm_Err metadata =? ErrLeaderNotAvailable then (inr (KErr ErrLeaderNotAvailable), c)
      else match broker_at (Leader metadata) c with
           | None => (inr (KErr ErrLeaderNotAvailable), c)
           | Some b => (inl b, log_call (Opened (br_number b)) c)
           end
  | None => (inr (KErr ErrUnknownTopicOrPartition), c)
  end.
(** [func (client *client) cachedCoordinator(consumerGroup string) *Broker] and [cachedController] *)
Definition cachedCoordinator (consumerGroup : bytes) (c : client) : option Broker_ := coordinators c !! consumerGroup ≫= (fun id => broker_at id c).
Definition cachedController (c : client) : option Broker_ := broker_at (controllerID c) c.

(** [func (client *client) updateMetadata(data *MetadataResponse, allKnownMetaData bool) (retry bool, err error)] *)
Definition register_node (node : BrokerNode) (c : client) : Go client := let (b, c) := new_broker node c in registerBroker b c.
Definition forget_all (c : client) : client := set_metadata (Some ∅) (Some ∅) ∅ c.
(** The topic is tracked, and what was known of it is gone. *)
Definition forget_topic (topic : bytes) (c : client) : Go client :=
  match metadataTopics c with
  | None => Panic NilDereference
  | Some topics => Ret (set_metadata (delete topic <$> c_metadata c) (Some ({[topic]} ∪ topics)) (delete topic (cachedPartitionsResults c)) c)
  end.
Definition partition_map (l : list PartitionMetadata) : gmap Z PartitionMetadata := foldl (fun m p => <[pm_ID p := p]> m) ∅ l.
Definition store_topic (topic : bytes) (l : list PartitionMetadata) (c : client) : Go client :=
  match c_metadata c with
  | None => Panic NilDereference
  | Some m =>
      let c := set_metadata (Some (<[topic := partition_map l]> m)) (metadataTopics c) (cachedPartitionsResults c) c in
      Ret (set_metadata (c_metadata c) (metadataTopics c)
             (<[topic := (setPartitionCache topic allPartitions c, setPartitionCache topic writablePartitions c)]> (cachedPartitionsResults c)) c)
  end.
Definition leaderless (l : list PartitionMetadata) : bool := existsb (fun p => pm_Err p =? ErrLeaderNotAvailable) l.
Definition update_topic (st : bool * option Z) (t : TopicMetadata) (c : client) : Go (bool * option Z * client) :=
  let (retry, err) := st in
  let* c := forget_topic (tm_Name t) c in
  let e := tm_Err t in
  let store retry := let* c := store_topic (tm_Name t) (tm_Partitions t) c in Ret (retry || leaderless (tm_Partitions t), err, c) in
  if e =? ErrNoError then store retry
  else if (e =? ErrInvalidTopic) || (e =? ErrTopicAuthorizationFailed) then Ret (retry, Some e, c)
  else if e =? ErrUnknownTopicOrPartition then Ret (true, Some e, c)
  else if e =? ErrLeaderNotAvailable then store true
  else Ret (retry, Some e, c).
Fixpoint update_topics (st : bool * option Z) (l : list TopicMetadata) (c : client) : Go (bool * option Z * client) :=
  match l with
  | [] => Ret (st, c)
  | t :: l => let* r := update_topic st t c in update_topics r.1 l r.2
  end.
Definition updateMetadata (data : MetadataResponse) (allKnownMetaData : bool) (c : client) : Go (bool * option Z * client) :=
  let* c := KafkaProduceSet.go_each register_node (Brokers data) c in
  let c := set_controller (ControllerID data) c in
  update_topics (false, None) (mr_Topics data) (if allKnownMetaData then forget_all c else c).

(** ** Refreshing the metadata *)

(** [func (client *client) computeBackoff(attemptsRemaining int) time.Duration] *)
Definition client_backoff (attemptsRemaining : Z) : Z :=
  match backoffFunc with
  | Some f => f (meta_Retry_Max M - attemptsRemaining) (meta_Retry_Max M)
  | None => meta_Retry_Backoff M
  end.
(** [pastDeadline]: the clock is read only when there is a deadline. *)
Definition pastDeadline (deadline : option Z) (backoff : Z) (c : client) : bool * client :=
  match deadline with
  | None => (false, c)
  | Some d => let (now, c) := time_Now c in (d <? now + backoff, c)
  end.
Definition metadata_request (topics : list bytes) : MetadataRequest :=
  mk_MetadataRequest (if IsAtLeast (conf_version conf) V1_0_0_0 then 5 else if IsAtLeast (conf_version conf) V0_10_0_0 then 1 else 0)
    topics (negb (len topics =? 0)).
(** How the loop of [tryRefreshMetadata] ends: the call returns, or it retries *)
Inductive loop_end := Return (err : option client_error) | Retry (err : option client_error).
(** The loop over the brokers: a broker that fails is removed, so the number of brokers bounds the
    rounds; a loop that is not done after [fuel] rounds counts as a panic. *)
Fixpoint try_brokers (fuel : nat) (topics : list bytes) (deadline : option Z) (c : client) : Go (loop_end * client) :=
  match fuel with
  | O => Panic StackOverflow
  | S fuel =>
      match any c with
      | None => Ret (Retry (Some ErrOutOfBrokers), resurrectDeadBrokers c)
      | Some (b, c) =>
          let (late, c) := pastDeadline deadline 0 c in
          if late : bool then Ret (Retry (Some ErrOutOfBrokers), c)
          else
            let (answer, c) := ask_broker (fun n => get_metadata n b (metadata_request topics)) c in
            match answer with
            | inl response =>
                let* r := updateMetadata response (len topics =? 0) c in
                let '(shouldRetry, err, c) := r in
                Ret (if shouldRetry : bool then Retry (KErr <$> err) else Return (KErr <$> err), c)
            | inr PacketEncodingError => Ret (Return (Some (ErrCall PacketEncodingError)), c)
            | inr (CallKError code) =>
                if code =? ErrSASLAuthenticationFailed then Ret (Return (Some (KErr code)), c)
                else try_brokers fuel topics deadline (discard_broker b c)
            | inr CallOther => try_brokers fuel topics deadline (discard_broker b c)
            end
      end
  end.
Definition broker_count (c : client) : nat := length (seedBrokers c) + default O (size <$> c_brokers c).
(** [func (client *client) tryRefreshMetadata(topics []string, attemptsRemaining int, deadline time.Time) error] *)
Fixpoint tryRefreshMetadata (attemptsRemaining : nat) (topics : list bytes) (deadline : option Z) (c : client) : Go (option client_error * client) :=
  let* r := try_brokers (S (broker_count c)) topics deadline c in
  match r with
  | (Return err, c) => Ret (err, c)
  | (Retry err, c) =>
      match attemptsRemaining with
      | O => Ret (err, c)
      | S n =>
          let (late, c) := pastDeadline deadline (client_backoff (Z.of_nat (S n))) c in
          if late : bool then Ret (err, c) else tryRefreshMetadata n topics deadline c
      end
  end.
(** [func (client *client) RefreshMetadata(topics ...string) error] *)
Definition RefreshMetadata (topics : list bytes) (c : client) : Go (option client_error * client) :=
  if Closed c then Ret (Some ErrClosedClient, c)
  else if existsb (fun t => len t =? 0) topics then Ret (Some (KErr ErrInvalidTopic), c)
  else
    let (deadline, c) := if 0 <? meta_Timeout M then let (now, c) := time_Now c in (Some (now + meta_Timeout M), c) else (None, c) in
    tryRefreshMetadata (Z.to_nat (meta_Retry_Max M)) topics deadline c.
(** [func (client *client) MetadataTopics() ([]string, error)] and [Topics], with the order in which
    the map is visited *)
Definition MetadataTopics (o : list bytes → list bytes) (c : client) : list bytes + client_error :=
  if Closed c then inr ErrClosedClient else inl (o (default [] (elements <$> metadataTopics c))).
Definition Topics (o : list bytes → list bytes) (c : client) : list bytes + client_error :=
  if Closed c then inr ErrClosedClient else inl (o (default [] ((fun m => (map_to_list m).*1) <$> c_metadata c))).
(** [func (client *client) Brokers() []*Broker] *)
Definition client_Brokers (o : list Broker_ → list Broker_) (c : client) : list Broker_ := o (default [] ((fun m => (map_to_list m).*2) <$> c_brokers c)).
(** [func (client *client) refreshMetadata() error] *)
Definition refreshMetadata (o : list bytes → list bytes) (c : client) : Go (option client_error * client) :=
  if Full M then RefreshMetadata [] c
  else match MetadataTopics o c with
       | inr e => Ret (Some e, c)
       | inl [] => Ret (Some ErrNoTopicsToUpdateMetadata, c)
       | inl topics => RefreshMetadata topics c
       end.
(** [func (client *client) backgroundMetadataUpdater()]: what a tick does *)
Definition metadata_tick (o : list bytes → list bytes) (c : client) : Go client := let* r := refreshMetadata o c in Ret r.2.

(** ** What callers ask *)

(** Asking the cache, and again after a refresh when it knows nothing *)
Definition refreshed {A} (look : client → option A) (topic : bytes) (c : client) : Go ((option A + client_error) * client) :=
  match look c with
  | Some a => Ret (inl (Some a), c)
  | None =>
      let* r := RefreshMetadata [topic] c in
      match r.1 with Some e => Ret (inr e, r.2) | None => Ret (inl (look r.2), r.2) end
  end.
(** [len(partitions) == 0] *)
Definition filled (l : option (list Z)) : option (list Z) := match l with Some [] => None | l => l end.
(** [func (client *client) Partitions(topic string) ([]int32, error)] *)
Definition client_Partitions (topic : bytes) (c : client) : Go ((list Z + client_error) * client) :=
  if Closed c then Ret (inr ErrClosedClient, c)
  else
    let* r := refreshed (fun c => filled (cachedPartitions topic allPartitions c)) topic c in
    Ret (match r.1 with inr e => inr e | inl (Some l) => inl l | inl None => inr (KErr ErrUnknownTopicOrPartition) end, r.2).
(** [func (client *client) WritablePartitions(topic string) ([]int32, error)]: after the refresh an
    empty slice is an answer. *)
Definition WritablePartitions (topic : bytes) (c : client) : Go ((list Z + client_error) * client) :=
  if Closed c then Ret (inr ErrClosedClient, c)
  else
    let* r := refreshed (fun c => filled (cachedPartitions topic writablePartitions c)) topic c in
    Ret (match r.1 with
         | inr e => inr e
         | inl _ => match cachedPartitions topic writablePartitions r.2 with Some l => inl l | None => inr (KErr ErrUnknownTopicOrPartition) end
         end, r.2).
(** [Replicas], [InSyncReplicas] and [OfflineReplicas]: the slice comes with an error when a replica
    is not available. *)
Definition replicas_of (field : PartitionMetadata → list Z) (topic : bytes) (partitionID : Z) (c : client) :
    Go ((list Z * option client_error + client_error) * client) :=
  if Closed c then Ret (inr ErrClosedClient, c)
  else
    let* r := refreshed (cachedMetadata topic partitionID) topic c in
    Ret (match r.1 with
         | inr e => inr e
         | inl None => inr (KErr ErrUnknownTopicOrPartition)
         | inl (Some metadata) =>
             inl (field metadata, if pm_Err metadata =? ErrReplicaNotAvailable then Some (KErr (pm_Err metadata)) else None)
         end, r.2).
Definition client_Replicas := replicas_of Replicas.
Definition InSyncReplicas := replicas_of Isr.
Definition client_OfflineReplicas := replicas_of OfflineReplicas.
(** [func (client *client) Leader(topic string, partitionID int32) ( *Broker, error)] *)
Definition client_Leader (topic : bytes) (partitionID : Z) (c : client) : Go ((Broker_ + client_error) * client) :=
  if Closed c then Ret (inr ErrClosedClient, c)
  else match cachedLeader topic partitionID c with
       | (inl b, c) => Ret (inl b, c)
       | (inr _, c) =>
           let* r := RefreshMetadata [topic] c in
           match r.1 with Some e => Ret (inr e, r.2) | None => Ret (cachedLeader topic partitionID r.2) end
       end.
(** [func (client *client) getOffset(topic string, partitionID int32, time int64) (int64, error)] *)
Definition offset_request (topic : bytes) (partitionID time : Z) : OffsetRequest :=
  OffsetRequest_AddBlock topic partitionID time 1 (mk_OffsetRequest (if IsAtLeast (conf_version conf) V0_10_1_0 then 1 else 0) 0 false ∅).
Definition getOffset (topic : bytes) (partitionID time : Z) (c : client) : Go ((Z + client_error) * client) :=
  let* r := client_Leader topic partitionID c in
  match r with
  | (inr e, c) => Ret (inr e, c)
  | (inl broker, c) =>
      let (answer, c) := ask_broker (fun n => get_offsets n broker (offset_request topic partitionID time)) c in
      let closed := log_call (CloseCalled (br_number broker)) c in
      Ret (match answer with
           | inr e => (inr (ErrCall e), closed)
           | inl response =>
               match get_block (or_Blocks response) topic partitionID with
               | None => (inr ErrIncompleteResponse, closed)
               | Some block =>
                   (if negb (orb_Err block =? ErrNoError) then inr (KErr (orb_Err block))
                    else match orb_Offsets block with [offset] => inl offset | _ => inr (KErr ErrOffsetOutOfRange) end, c)
               end
           end)
  end.
(** [func (client *client) GetOffset(topic string, partitionID int32, time int64) (int64, error)] *)
Definition GetOffset (topic : bytes) (partitionID time : Z) (c : client) : Go ((Z + client_error) * client) :=
  if Closed c then Ret (inr ErrClosedClient, c)
  else
    let* r := getOffset topic partitionID time c in
    match r with
    | (inl offset, c) => Ret (inl offset, c)
    | (inr _, c) =>
        let* r := RefreshMetadata [topic] c in
        match r.1 with Some e => Ret (inr e, r.2) | None => getOffset topic partitionID time r.2 end
    end.
(** [func (client *client) Controller() ( *Broker, error)] *)
Definition Controller (o : list bytes → list bytes) (c : client) : Go ((Broker_ + client_error) * client) :=
  if Closed c then Ret (inr ErrClosedClient, c)
  else if negb (IsAtLeast (conf_version conf) V0_10_0_0) then Ret (inr (KErr ErrUnsupportedVersion), c)
  else
    let found b c := Ret (inl b, log_call (Opened (br_number b)) c) in
    match cachedController c with
    | Some b => found b c
    | None =>
        let* r := refreshMetadata o c in
        match r with
        | (Some e, c) => Ret (inr e, c)
        | (None, c) => match cachedController c with Some b => found b c | None => Ret (inr ErrControllerNotAvailable, c) end
        end
    end.

(** ** Coordinators *)

(** [func (client *client) getConsumerMetadata(consumerGroup string, attemptsRemaining int) ( *FindCoordinatorResponse, error)] *)
Inductive coordinator_end := Found (coordinator : BrokerNode) | Fails (err : client_error) | Again (err : client_error).
Definition coordinator_request (consumerGroup : bytes) : FindCoordinatorRequest := mk_FindCoordinatorRequest 0 consumerGroup CoordinatorGroup.
Fixpoint ask_coordinator (fuel : nat) (consumerGroup : bytes) (c : client) : Go (coordinator_end * client) :=
  match fuel with
  | O => Panic StackOverflow
  | S fuel =>
      match any c with
      | None => Ret (Again ErrOutOfBrokers, resurrectDeadBrokers c)
      | Some (b, c) =>
          let (answer, c) := ask_broker (fun n => find_coordinator n b (coordinator_request consumerGroup)) c in
          match answer with
          | inr PacketEncodingError => Ret (Fails (ErrCall PacketEncodingError), c)
          | inr _ => ask_coordinator fuel consumerGroup (discard_broker b c)
          | inl response =>
              if fr_Err response =? ErrNoError then match fr_Coordinator response with Some node => Ret (Found node, c) | None => Panic NilDereference end
              else if fr_Err response =? ErrConsumerCoordinatorNotAvailable then
                let* r := client_Leader (B "__consumer_offsets") 0 c in Ret (Again (KErr ErrConsumerCoordinatorNotAvailable), r.2)
              else Ret (Fails (KErr (fr_Err response)), c)
          end
      end
  end.
Fixpoint getConsumerMetadata (attemptsRemaining : nat) (consumerGroup : bytes) (c : client) : Go ((BrokerNode + client_error) * client) :=
  let* r := ask_coordinator (S (broker_count c)) consumerGroup c in
  match r with
  | (Found node, c) => Ret (inl node, c)
  | (Fails e, c) => Ret (inr e, c)
  | (Again e, c) => match attemptsRemaining with O => Ret (inr e, c) | S n => getConsumerMetadata n consumerGroup c end
  end.
(** [func (client *client) RefreshCoordinator(consumerGroup string) error] *)
Definition RefreshCoordinator (consumerGroup : bytes) (c : client) : Go (option client_error * client) :=
  if Closed c then Ret (Some ErrClosedClient, c)
  else
    let* r := getConsumerMetadata (Z.to_nat (meta_Retry_Max M)) consumerGroup c in
    match r with
    | (inr e, c) => Ret (Some e, c)
    | (inl node, c) =>
        let* c := register_node node c in
        Ret (None, set_coordinators (<[consumerGroup := b_id node]> (coordinators c)) c)
    end.
(** [func (client *client) Coordinator(consumerGroup string) ( *Broker, error)] *)
Definition Coordinator (consumerGroup : bytes) (c : client) : Go ((Broker_ + client_error) * client) :=
  if Closed c then Ret (inr ErrClosedClient, c)
  else
    let found b c := Ret (inl b, log_call (Opened (br_number b)) c) in
    match cachedCoordinator consumerGroup c with
    | Some b => found b c
    | None =>
        let* r := RefreshCoordinator consumerGroup c in
        match r with
        | (Some e, c) => Ret (inr e, c)
        | (None, c) => match cachedCoordinator consumerGroup c with Some b => found b c | None => Ret (inr (KErr ErrConsumerCoordinatorNotAvailable), c) end
        end
    end.

(** ** The life of a client *)

(** [func (client *client) InitProducerID() ( *InitProducerIDResponse, error)]: the error of the loop is a
    variable of its own, so after the last broker a nil response comes with a nil error. *)
Fixpoint InitProducerID_loop (fuel : nat) (c : client) : Go (option InitProducerIDResponse * option client_error * client) :=
  match fuel with
  | O => Panic StackOverflow
  | S fuel =>
      match any c with
      | None => Ret (None, None, c)
      | Some (b, c) =>
          let (answer, c) := ask_broker (fun n => init_producer_id n b (mk_InitProducerIDRequest None 0)) c in
          match answer with
          | inl response => Ret (Some response, None, c)
          | inr _ => InitProducerID_loop fuel (discard_broker b c)
          end
      end
  end.
Definition InitProducerID (c : client) : Go (option InitProducerIDResponse * option client_error * client) := InitProducerID_loop (S (broker_count c)) c.
(** [func (client *client) Close() error], with the order in which the map of brokers is visited *)
Definition client_Close (o : list Broker_ → list Broker_) (c : client) : option client_error * client :=
  if Closed c then (Some ErrClosedClient, c)
  else
    let c := foldl (fun c b => log_call (AsyncClosed (br_number b)) c) c (client_Brokers o c ++ seedBrokers c) in
    (None, set_metadata None None (cachedPartitionsResults c) (set_brokers None c)).
(** [func NewClient(addrs []string, conf *Config) (Client, error)]: after [Validate]; the permutation of
    the addresses is random. *)
Definition seeds_of (addrs : list bytes) (perm : list nat) : list Broker_ :=
  imap (fun n i => mk_broker_ n (mk_node (-1) (default [] (addrs !! i)) None)) perm.
Definition new_client (addrs : list bytes) (perm : list nat) : client :=
  mk_client (seeds_of addrs perm) [] 0 (Some ∅) (Some ∅) (Some ∅) ∅ ∅ [] (length perm) 0 0.
Definition tolerated (e : client_error) : bool :=
  match e with
  | KErr code => existsb (Z.eqb code) [ErrLeaderNotAvailable; ErrReplicaNotAvailable; ErrTopicAuthorizationFailed; ErrClusterAuthorizationFailed]
  | _ => false
  end.
Definition NewClient (addrs : list bytes) (perm : list nat) : Go (client + client_error) :=
  match addrs with
  | [] => Ret (inr (ErrConfiguration (B "You must provide at least one broker address")))
  | _ =>
      let c := new_client addrs perm in
      if negb (Full M) then Ret (inl c)
      else
        let* r := RefreshMetadata [] c in
        Ret (match r with
             | (None, c) => inl c
             | (Some e, c) => if tolerated e then inl c else inr e
             end)
  end.
End client.
