(* ===== verification/KafkaClientProps.v ===== *)
(** * The client: termination, the cache, what the last response said *)

From S2P Require Import Prelude GoStrings KafkaCodec KafkaProtocol KafkaMetadata KafkaOffsets KafkaConfig KafkaProducer KafkaConsumer KafkaClient.

(** ** The invariant of a client *)

(** The cached partitions of a topic are those of its metadata, which is keyed by partition. *)
Definition cache_of (m : gmap Z PartitionMetadata) : option (list Z) * option (list Z) :=
  (Some (partition_ids allPartitions m), Some (partition_ids writablePartitions m)).
Definition keyed_brokers (m : gmap Z Broker_) : Prop := ∀ id b, m !! id = Some b → br_id b = id.
Definition keyed_partitions (m : gmap Z PartitionMetadata) : Prop := ∀ id p, m !! id = Some p → pm_ID p = id.
Record metadata_ok (md : gmap bytes (gmap Z PartitionMetadata)) (cache : gmap bytes (option (list Z) * option (list Z))) : Prop := mk_metadata_ok {
  md_cache : cache = cache_of <$> md;
  md_keyed : ∀ topic m, md !! topic = Some m → keyed_partitions m }.
Record open_client (c : client) : Prop := mk_open {
  o_brokers : ∃ m, c_brokers c = Some m ∧ keyed_brokers m;
  o_metadata : ∃ md, c_metadata c = Some md ∧ metadata_ok md (cachedPartitionsResults c);
  o_topics : ∃ ts, metadataTopics c = Some ts }.

(** *** What leaves it alone *)

Definition same_cache (c c' : client) : Prop :=
  c_metadata c' = c_metadata c ∧ metadataTopics c' = metadataTopics c ∧ cachedPartitionsResults c' = cachedPartitionsResults c.
Lemma open_same c c' : open_client c → c_brokers c' = c_brokers c → same_cache c c' → open_client c'.
Proof. intros [Hb Hm Ht] E (E1 & E2 & E3). split; rewrite ?E, ?E1, ?E2, ?E3; done. Qed.
Lemma open_brokers c m : open_client c → keyed_brokers m → open_client (set_brokers (Some m) c).
Proof. intros [_ Hm Ht] Hk. split; [by exists m|exact Hm|exact Ht]. Qed.
Lemma keyed_delete id m : keyed_brokers m → keyed_brokers (delete id m).
Proof. intros Hm i b [_ Hb]%lookup_delete_Some. by apply Hm. Qed.
Lemma keyed_insert b m : keyed_brokers m → keyed_brokers (<[br_id b := b]> m).
Proof. intros Hm i b' [[<- <-]|[_ Hb]]%lookup_insert_Some; [done|by apply Hm]. Qed.
Lemma open_register b c : open_client c → wp (registerBroker b c) (fun c' => open_client c' ∧ same_cache c c').
Proof.
  intros Hc. pose proof (o_brokers c Hc) as (m & Em & Hk). unfold registerBroker, put_broker, broker_at. rewrite Em. cbn [mbind option_bind].
  destruct (m !! br_id b) as [old|]; [destruct (beq _ _)|].
  - by cbn.
  - cbn. rewrite Em. cbn. split; [|done]. apply open_brokers; [by eapply open_same|by apply keyed_insert].
  - cbn. split; [|done]. apply open_brokers; [done|by apply keyed_insert].
Qed.
Lemma open_deregister b c : open_client c → open_client (deregisterBroker b c) ∧ same_cache c (deregisterBroker b c).
Proof.
  intros Hc. pose proof (o_brokers c Hc) as (m & Em & Hk). unfold deregisterBroker. rewrite Em. cbn [fmap option_fmap option_map].
  destruct (seedBrokers c); [|case_decide]; (split; [|done]); try (apply open_brokers; [done|by apply keyed_delete]). by eapply open_same.
Qed.
Lemma wp_each {A S} (f : A → S → Go S) (l : list A) (I : S → Prop) s : I s → (∀ x s, I s → wp (f x s) I) → wp (KafkaProduceSet.go_each f l s) I.
Proof. intros Hs Hf. revert s Hs. induction l as [|x l IH]; intros s Hs; [done|]. cbn. apply wp_bind. eapply wp_mono; [by apply Hf|]. auto. Qed.
Lemma open_nodes l c : open_client c → wp (KafkaProduceSet.go_each register_node l c) (fun c' => open_client c' ∧ same_cache c c').
Proof.
  intros Hc. apply (wp_each _ _ (fun c' => open_client c' ∧ same_cache c c')); [done|]. intros node c' [Hc' Hs]. cbn.
  eapply wp_mono; [apply open_register; by eapply (open_same c')|]. intros c'' [Hc'' Hs']. split; [done|]. unfold same_cache in *. cbn in *. naive_solver congruence.
Qed.

(** *** A response *)

Lemma partition_map_keyed l : keyed_partitions (partition_map l).
Proof.
  unfold partition_map. assert (∀ m, keyed_partitions m → keyed_partitions (foldl (fun m p => <[pm_ID p := p]> m) m l)) as H; [|by apply H].
  induction l as [|p l IH]; intros m Hm; [done|]. cbn. apply IH. intros id q [[<- <-]|[_ Hq]]%lookup_insert_Some; [done|by apply Hm].
Qed.
(** What a topic entry says: the partitions of the topic, or nothing that can be used *)
Definition usable (e : Z) : bool := (e =? ErrNoError) || (e =? ErrLeaderNotAvailable).
Definition says (t : TopicMetadata) : option (gmap Z PartitionMetadata) := if usable (tm_Err t) then Some (partition_map (tm_Partitions t)) else None.
Definition learn (md : gmap bytes (gmap Z PartitionMetadata)) (t : TopicMetadata) : gmap bytes (gmap Z PartitionMetadata) := partial_alter (fun _ => says t) (tm_Name t) md.
Lemma open_topic st t c md : open_client c → c_metadata c = Some md →
  wp (update_topic st t c) (fun r => open_client r.2 ∧ c_metadata r.2 = Some (learn md t)).
Proof.
  intros Hc Emd. pose proof (o_brokers c Hc) as (m & Em & Hk). pose proof (o_metadata c Hc) as (md' & Emd' & Hcache & Hkeyed).
  pose proof (o_topics c Hc) as (ts & Ets). rewrite Emd in Emd'. injection Emd' as <-. destruct st as [retry err]. unfold update_topic, forget_topic. rewrite Ets, Emd.
  cbn [gbind fmap option_fmap option_map]. set (c1 := set_metadata _ _ _ c).
  assert (open_client c1 ∧ c_metadata c1 = Some (delete (tm_Name t) md)) as [Hc1 E1].
  { split; [|done]. split; [by exists m| |by eexists]. exists (delete (tm_Name t) md). split; [done|]. cbn. split; [by rewrite Hcache, fmap_delete|].
    intros topic pm [_ Hpm]%lookup_delete_Some. by eapply Hkeyed. }
  assert (∀ retry', wp (let* c := store_topic (tm_Name t) (tm_Partitions t) c1 in Ret (retry' || leaderless (tm_Partitions t), err, c))
    (fun r => open_client r.2 ∧ c_metadata r.2 = Some (<[tm_Name t := partition_map (tm_Partitions t)]> md))) as Hstore.
  { intros retry'. unfold store_topic. rewrite E1. cbn. rewrite insert_delete_eq. split; [|done]. split; [by exists m| |by eexists].
    eexists. split; [reflexivity|]. unfold setPartitionCache, topic_metadata. cbn. rewrite lookup_insert_eq. cbn. split.
    - by rewrite Hcache, insert_delete_eq, fmap_insert.
    - intros topic pm [[_ <-]|[_ Hpm]]%lookup_insert_Some; [apply partition_map_keyed|by eapply Hkeyed]. }
  unfold learn, says, usable. cbv zeta. destruct (Z.eqb_spec (tm_Err t) ErrNoError) as [E|E]; [apply Hstore|].
  destruct (Z.eqb_spec (tm_Err t) ErrLeaderNotAvailable) as [E'|E'].
  - rewrite E'. apply (Hstore true).
  - cbn [orb]. destruct (_ || _); [by cbn|]. destruct (_ =? ErrUnknownTopicOrPartition); by cbn.
Qed.
Lemma open_topics l : ∀ st c md, open_client c → c_metadata c = Some md →
  wp (update_topics st l c) (fun r => open_client r.2 ∧ c_metadata r.2 = Some (foldl learn md l)).
Proof.
  induction l as [|t l IH]; intros st c md Hc E; [by cbn|]. cbn [update_topics foldl]. apply wp_bind. eapply wp_mono; [by apply open_topic|]. intros r [Hr Er]. by apply IH.
Qed.
Lemma forget_all_open c : open_client c → open_client (forget_all c).
Proof. intros [Hb _ _]. split; [exact Hb| |by eexists]. exists ∅. split; [done|]. split; [done|]. intros topic m Hm. by rewrite lookup_empty in Hm. Qed.
Lemma open_update data all c md : open_client c → c_metadata c = Some md →
  wp (updateMetadata data all c) (fun r => open_client r.2 ∧ c_metadata r.2 = Some (foldl learn (if all then ∅ else md) (mr_Topics data))).
Proof.
  intros Hc E. unfold updateMetadata. apply wp_bind. eapply wp_mono; [by apply open_nodes|]. intros c' [Hc' (E1 & _)].
  assert (open_client (set_controller (ControllerID data) c')) as H' by by eapply open_same.
  destruct all; apply open_topics; [by apply forget_all_open|done|done|cbn; congruence].
Qed.

(** ** The cache is what the last response said *)

(** What a response says of a topic: its last entry for it, or that there is no such topic when the
    response lists all topics, or nothing *)
Definition mention (topic : bytes) (r : MetadataResponse * bool) : option (option (gmap Z PartitionMetadata)) :=
  match last (filter (fun t => tm_Name t = topic) (mr_Topics r.1)) with
  | Some t => Some (says t)
  | None => if r.2 then Some None else None
  end.
Definition known (topic : bytes) (rs : list (MetadataResponse * bool)) : option (gmap Z PartitionMetadata) := default None (last (omap (mention topic) rs)).
(** The responses to a sequence of requests, each for all topics or for some *)
Definition updates (rs : list (MetadataResponse * bool)) (c : client) : Go client :=
  KafkaProduceSet.go_each (fun (r : MetadataResponse * bool) c => let* x := updateMetadata r.1 r.2 c in Ret x.2) rs c.
Lemma learn_lookup l md topic : foldl learn md l !! topic = match last (filter (fun t => tm_Name t = topic) l) with Some t => says t | None => md !! topic end.
Proof.
  induction l as [|t l IH] using rev_ind; [done|]. rewrite foldl_app. cbn [foldl]. unfold learn at 1. rewrite filter_app, filter_cons, filter_nil. case_decide as E.
  - rewrite last_snoc. subst. by rewrite lookup_partial_alter_eq.
  - rewrite app_nil_r, lookup_partial_alter_ne by done. exact IH.
Qed.
Definition heard (md : gmap bytes (gmap Z PartitionMetadata)) (r : MetadataResponse * bool) : gmap bytes (gmap Z PartitionMetadata) :=
  foldl learn (if r.2 then ∅ else md) (mr_Topics r.1).
Lemma heard_known rs topic : foldl heard ∅ rs !! topic = known topic rs.
Proof.
  induction rs as [|r rs IH] using rev_ind; [done|]. rewrite foldl_app. cbn [foldl]. unfold known. rewrite omap_app. cbn [omap list_omap]. unfold heard at 1. rewrite learn_lookup. unfold mention at 2.
  destruct (last (filter _ (mr_Topics r.1))); [by rewrite last_snoc|]. destruct r.2; [by rewrite last_snoc, lookup_empty|by rewrite app_nil_r].
Qed.
Lemma sorted_lt l : StronglySorted Z.le l → NoDup l → StronglySorted Z.lt l.
Proof.
  induction 1 as [|x l Hs IH Hx]; [constructor|]. intros [Hn Hd]%NoDup_cons. constructor; [auto|]. rewrite Forall_forall in *. intros y Hy. specialize (Hx y Hy).
  assert (x ≠ y) by (by intros ->). lia.
Qed.
Lemma partition_ids_spec set m : keyed_partitions m →
  StronglySorted Z.lt (partition_ids set m) ∧ ∀ id, id ∈ partition_ids set m ↔ ∃ p, m !! id = Some p ∧ in_set set p = true.
Proof.
  intros Hk. unfold partition_ids. split.
  - apply sorted_lt; [apply StronglySorted_merge_sort; [intros x y z; lia|intros x y; lia]|]. rewrite merge_sort_Permutation.
    assert (pm_ID <$> (map_to_list m).*2 = (map_to_list m).*1) as E.
    { rewrite <-list_fmap_compose. apply list_fmap_ext. intros i [id p] Hi. apply list_elem_of_lookup_2, elem_of_map_to_list in Hi. by apply Hk. }
    eapply sublist_NoDup; [|apply fmap_sublist, sublist_filter]. rewrite E. apply NoDup_fst_map_to_list.
  - intros id. rewrite merge_sort_Permutation, list_elem_of_fmap. split.
    + intros (p & -> & [Hp Hin]%list_elem_of_filter). apply list_elem_of_fmap in Hin as ([i q] & -> & Hq%elem_of_map_to_list). exists q. cbn [snd] in *. by rewrite (Hk i q Hq).
    + intros (p & Hp & Hs). exists p. split; [by rewrite (Hk id p Hp)|]. apply list_elem_of_filter. split; [done|]. apply list_elem_of_fmap. exists (id, p). split; [done|]. by apply elem_of_map_to_list.
Qed.
Lemma updates_heard rs : ∀ c md, open_client c → c_metadata c = Some md → wp (updates rs c) (fun c' => open_client c' ∧ c_metadata c' = Some (foldl heard md rs)).
Proof.
  induction rs as [|r rs IH]; intros c md Hc E; [by cbn|]. unfold updates. cbn [KafkaProduceSet.go_each foldl]. apply wp_bind, wp_bind.
  eapply wp_mono; [by apply open_update|]. intros x [Hx Ex]. by apply IH.
Qed.

(** C10: The metadata cache of the client holds what the last response that mentions a topic
    said of it: after any sequence of responses, for all topics or for some, every partition
    of every topic is looked up as that response had it, and the cached partition lists are
    the ids of these partitions in increasing order, all of them or those with a leader. *)
Theorem cache_refines rs c : open_client c → c_metadata c = Some ∅ → ∃ c', updates rs c = Ret c' ∧ ∀ topic,
  (∀ id, cachedMetadata topic id c' = known topic rs ≫= (fun m => m !! id)) ∧
  ∀ set, match cachedPartitions topic set c', known topic rs with
         | Some ids, Some m => StronglySorted Z.lt ids ∧ ∀ id, id ∈ ids ↔ ∃ p, m !! id = Some p ∧ in_set set p = true
         | None, None => True
         | _, _ => False
         end.
Proof.
  intros Hc E. pose proof (updates_heard rs c ∅ Hc E) as H. destruct (updates rs c) as [c'|]; [|done]. destruct H as [Hc' Emd]. exists c'. split; [done|].
  intros topic. rewrite <-heard_known. unfold cachedMetadata, topic_metadata, cachedPartitions. rewrite Emd. cbn [mbind option_bind]. split; [done|]. intros set.
  destruct (o_metadata c' Hc') as (md & Emd' & Hcache & Hk). rewrite Emd in Emd'. injection Emd' as <-. rewrite Hcache, lookup_fmap.
  destruct (foldl heard ∅ rs !! topic) as [m|] eqn:Em; [|done]. cbn. destruct set; apply partition_ids_spec; by eapply Hk.
Qed.

(** ** Every call returns *)

Section calls.
Context (conf : Config) (backoffFunc : option (Z → Z → Z)).
Context (pick : gmap Z Broker_ → Broker_) (clock : nat → Z).
Context (get_metadata : nat → Broker_ → MetadataRequest → MetadataResponse + call_error).
Context (find_coordinator : nat → Broker_ → FindCoordinatorRequest → FindCoordinatorResponse + call_error).
Context (get_offsets : nat → Broker_ → OffsetRequest → OffsetResponse + call_error).
Context (init_producer_id : nat → Broker_ → InitProducerIDRequest → InitProducerIDResponse + call_error).
(** A loop over a map that is not empty meets one of its elements. *)
Context (Hpick : ∀ m, m ≠ ∅ → ∃ id, m !! id = Some (pick m)).

(** *** The panic that an answer can cause *)

(** A broker names the coordinator of a group, without an error, at the address [:0]: the
    response has no coordinator. *)
Definition nowhere : Prop :=
  ∃ n b group r, find_coordinator n b (coordinator_request group) = inl r ∧ fr_Err r = ErrNoError ∧ fr_Coordinator r = None.
(** A call returns, unless there is such an answer: then it may dereference nil. *)
Definition called {A} (m : Go A) (Q : A → Prop) : Prop := match m with Ret a => Q a | Panic p => p = NilDereference ∧ nowhere end.
Lemma called_wp {A} (m : Go A) Q : wp m Q → called m Q.
Proof. by destruct m. Qed.
Lemma called_bind {A C} (m : Go A) (k : A → Go C) Q : called m (fun a => called (k a) Q) → called (gbind m k) Q.
Proof. by destruct m. Qed.
Lemma called_mono {A} (m : Go A) (P Q : A → Prop) : called m P → (∀ a, P a → Q a) → called m Q.
Proof. destruct m; cbn; auto. Qed.
Lemma called_each {A S} (f : A → S → Go S) (l : list A) (I : S → Prop) s : I s → (∀ x s, I s → called (f x s) I) → called (KafkaProduceSet.go_each f l s) I.
Proof. intros Hs Hf. revert s Hs. induction l as [|x l IH]; intros s Hs; [done|]. cbn. apply called_bind. eapply called_mono; [by apply Hf|]. auto. Qed.

(** A client that is open, or closed with brokers left in the seeds only *)
Definition sound (c : client) : Prop := open_client c ∨ c_brokers c = None.
(** What a step leaves of the cache and the brokers *)
Definition still (c c' : client) : Prop := c_brokers c' = c_brokers c ∧ seedBrokers c' = seedBrokers c ∧ same_cache c c'.
Lemma still_open c c' : still c c' → open_client c → open_client c'.
Proof. intros (E & _ & Hs) Hc. by eapply open_same. Qed.
Lemma still_sound c c' : still c c' → sound c → sound c'.
Proof. intros Hs [Hc|Hc]; [left; by eapply still_open|right; by destruct Hs as [-> _]]. Qed.
Lemma still_count c c' : still c c' → broker_count c' = broker_count c.
Proof. intros (E1 & E2 & _). unfold broker_count. by rewrite E1, E2. Qed.
Lemma still_trans c c' c'' : still c c' → still c' c'' → still c c''.
Proof. unfold still, same_cache. intros. naive_solver congruence. Qed.
Lemma still_late d x c : still c (pastDeadline clock d x c).2.
Proof. by destruct d. Qed.

(** A broker that is given up is one less to ask. *)
Lemma any_some c b c1 : any pick c = Some (b, c1) → still c c1 ∧
  (head (seedBrokers c) = Some b ∨ seedBrokers c = [] ∧ ∃ m, c_brokers c = Some m ∧ m ≠ ∅ ∧ b = pick m).
Proof.
  unfold any. destruct (seedBrokers c) as [|s l] eqn:Es; [|intros [= <- <-]; by split; [|left]].
  destruct (c_brokers c) as [m|] eqn:Em; [|done]. case_decide; [done|]. intros [= <- <-]. split; [done|]. right. split; [done|]. by exists m.
Qed.
Lemma discard_broker_fewer c b c1 c2 : sound c → any pick c = Some (b, c1) → still c1 c2 → (broker_count (discard_broker b c2) < broker_count c)%nat.
Proof.
  intros Hc Ha Hs. destruct (any_some c b c1 Ha) as [Hs1 Hb]. pose proof (still_trans _ _ _ Hs1 Hs) as (E1 & E2 & _).
  unfold discard_broker, deregisterBroker, broker_count. cbn [seedBrokers log_call]. rewrite E2. destruct Hb as [Hb|(Hb & m & Em & Hne & ->)].
  - destruct (seedBrokers c) as [|s l]; [done|]. injection Hb as ->. rewrite decide_True by done. cbn. rewrite E1. lia.
  - rewrite Hb. cbn. rewrite E1, Em. cbn. destruct (Hpick m Hne) as [id Hid]. destruct Hc as [Hc|Hc]; [|congruence].
    destruct (o_brokers c Hc) as (m' & Em' & Hk). assert (m' = m) as -> by congruence. rewrite (Hk id _ Hid). rewrite map_size_delete, Hid. cbn.
    rewrite E2, Hb. cbn. pose proof (map_size_ne_0_lookup_2 m id ltac:(by eexists)). lia.
Qed.
Lemma discard_broker_sound b c : sound c → sound (discard_broker b c).
Proof.
  intros [Hc|Hc]; [left; apply open_deregister; by apply (still_open c)|right]. unfold discard_broker, deregisterBroker. cbn. rewrite Hc.
  destruct (seedBrokers c); [done|]. by case_decide.
Qed.
Lemma discard_broker_open b c : open_client c → open_client (discard_broker b c).
Proof. intros Hc. apply open_deregister. by apply (still_open c). Qed.
Lemma resurrect_open c : open_client c → open_client (resurrectDeadBrokers c).
Proof. intros Hc. by eapply open_same. Qed.
Lemma update_open data all c : open_client c → wp (updateMetadata data all c) (fun r => open_client r.2).
Proof. intros Hc. destruct (o_metadata c Hc) as (md & E & _). eapply wp_mono; [by apply (open_update data all c md)|]. by intros r [Hr _]. Qed.
Lemma try_brokers_returns fuel topics deadline c : open_client c → (broker_count c < fuel)%nat →
  wp (try_brokers conf pick clock get_metadata fuel topics deadline c) (fun r => open_client r.2).
Proof.
  revert c. induction fuel as [|fuel IH]; intros c Hc Hf; [lia|]. cbn [try_brokers]. destruct (any pick c) as [[b c1]|] eqn:Ea; [|cbn; by apply resurrect_open].
  pose proof (any_some c b c1 Ea) as [Hs1 _]. pose proof (still_late deadline 0 c1) as Hs2. destruct (pastDeadline clock deadline 0 c1) as [late c2]. cbn [snd] in Hs2.
  assert (open_client c2) as Hc2 by (eapply still_open; [exact Hs2|by eapply still_open]). destruct late; [done|]. cbn [ask_broker].
  assert (open_client (set_asked (S (c_asked c2)) c2)) as Hc3 by by apply (still_open c2).
  pose proof (discard_broker_fewer c b c1 (set_asked (S (c_asked c2)) c2) (or_introl Hc) Ea Hs2) as Hless.
  destruct (get_metadata _ _ _) as [response|[|code|]].
  - apply wp_bind. eapply wp_mono; [by apply update_open|]. intros [[retry err] c4] Hc4. cbn. by destruct retry.
  - done.
  - destruct (_ =? _); [done|]. apply IH; [by apply discard_broker_open|]. lia.
  - apply IH; [by apply discard_broker_open|]. lia.
Qed.
Lemma tryRefresh_returns n topics deadline c : open_client c →
  wp (tryRefreshMetadata conf backoffFunc pick clock get_metadata n topics deadline c) (fun r => open_client r.2).
Proof.
  revert c. induction n as [|n IH]; intros c Hc; cbn [tryRefreshMetadata]; apply wp_bind; (eapply wp_mono; [apply try_brokers_returns; [done|lia]|]); intros [[err|err] c1] Hc1; try done.
  pose proof (still_late deadline (client_backoff conf backoffFunc (Z.of_nat (S n))) c1) as Hs. destruct (pastDeadline _ _ _ c1) as [late c2]. cbn [snd fst] in *.
  assert (open_client c2) by by eapply still_open. destruct late; [done|]. by apply IH.
Qed.
Abbreviation Refresh := (RefreshMetadata conf backoffFunc pick clock get_metadata).
Lemma open_not_closed c : open_client c → Closed c = false.
Proof. intros Hc. destruct (o_brokers c Hc) as (m & Em & _). unfold Closed. by rewrite Em. Qed.
Lemma Refresh_returns topics c : open_client c → wp (Refresh topics c) (fun r => open_client r.2).
Proof.
  intros Hc. unfold RefreshMetadata. rewrite open_not_closed by done. destruct (existsb _ _); [done|].
  destruct (0 <? _); cbn [time_Now]; apply tryRefresh_returns; by apply (still_open c).
Qed.
Lemma refreshed_returns {A} (look : client → option A) topic c : open_client c →
  wp (refreshed conf backoffFunc pick clock get_metadata look topic c) (fun r => open_client r.2).
Proof. intros Hc. unfold refreshed. destruct (look c); [done|]. apply wp_bind. eapply wp_mono; [by apply Refresh_returns|]. intros [[e|] c'] Hc'; done. Qed.
Lemma cachedLeader_open topic id c : open_client c → open_client (cachedLeader topic id c).2.
Proof. intros Hc. unfold cachedLeader. destruct (cachedMetadata _ _ _); [|done]. destruct (_ =? _); [done|]. destruct (broker_at _ _); [by apply (still_open c)|done]. Qed.
Lemma Leader_returns topic id c : open_client c → wp (client_Leader conf backoffFunc pick clock get_metadata topic id c) (fun r => open_client r.2).
Proof.
  intros Hc. unfold client_Leader. rewrite open_not_closed by done. pose proof (cachedLeader_open topic id c Hc) as Hl. destruct (cachedLeader topic id c) as [[b|e] c1]; [done|].
  apply wp_bind. eapply wp_mono; [by apply Refresh_returns|]. intros [[e'|] c2] Hc2; [done|]. by apply cachedLeader_open.
Qed.
Abbreviation leader := (client_Leader conf backoffFunc pick clock get_metadata).
Lemma getOffset_returns topic id time c : open_client c →
  wp (getOffset conf backoffFunc pick clock get_metadata get_offsets topic id time c) (fun r => open_client r.2).
Proof.
  intros Hc. unfold getOffset. apply wp_bind. eapply wp_mono; [by apply Leader_returns|]. intros [[b|e] c1] Hc1; [|done]. cbn [ask_broker fst snd wp].
  destruct (get_offsets _ _ _); [destruct (get_block _ _ _)|]; by apply (still_open c1).
Qed.
Lemma refreshMetadata_returns o c : open_client c → wp (refreshMetadata conf backoffFunc pick clock get_metadata o c) (fun r => open_client r.2).
Proof. intros Hc. unfold refreshMetadata. destruct (Full _); [by apply Refresh_returns|]. destruct (MetadataTopics o c) as [[|t l]|e]; [done|by apply Refresh_returns|done]. Qed.
Lemma ask_coordinator_returns fuel group c : open_client c → (broker_count c < fuel)%nat →
  called (ask_coordinator conf backoffFunc pick clock get_metadata find_coordinator fuel group c) (fun r => open_client r.2).
Proof.
  revert c. induction fuel as [|fuel IH]; intros c Hc Hf; [lia|]. cbn [ask_coordinator]. destruct (any pick c) as [[b c1]|] eqn:Ea; [|cbn; by apply resurrect_open].
  pose proof (any_some c b c1 Ea) as [Hs1 _]. cbn [ask_broker]. assert (open_client (set_asked (S (c_asked c1)) c1)) as Hc1 by by apply (still_open c).
  pose proof (discard_broker_fewer c b c1 (set_asked (S (c_asked c1)) c1) (or_introl Hc) Ea) as Hless. specialize (Hless ltac:(done)).
  destruct (find_coordinator (c_asked c1) b (coordinator_request group)) as [r|[|code|]] eqn:Er.
  - destruct (Z.eqb_spec (fr_Err r) ErrNoError) as [E|_]; [destruct (fr_Coordinator r) eqn:Ec; [done|]; split; [done|]; by exists (c_asked c1), b, group, r|].
    destruct (_ =? _); [|done]. apply called_bind. eapply called_mono; [by apply called_wp, Leader_returns|]. done.
  - done.
  - apply IH; [by apply discard_broker_open|lia].
  - apply IH; [by apply discard_broker_open|lia].
Qed.
Lemma getConsumerMetadata_returns n group c : open_client c →
  called (getConsumerMetadata conf backoffFunc pick clock get_metadata find_coordinator n group c) (fun r => open_client r.2).
Proof.
  revert c. induction n as [|n IH]; intros c Hc; cbn [getConsumerMetadata]; apply called_bind; (eapply called_mono; [apply ask_coordinator_returns; [done|lia]|]); intros [[|e|e] c1] Hc1; try done.
  by apply IH.
Qed.
Lemma RefreshCoordinator_returns group c : open_client c →
  called (RefreshCoordinator conf backoffFunc pick clock get_metadata find_coordinator group c) (fun r => open_client r.2).
Proof.
  intros Hc. unfold RefreshCoordinator. rewrite open_not_closed by done. apply called_bind. eapply called_mono; [by apply getConsumerMetadata_returns|]. intros [[node|e] c1] Hc1; [|done].
  apply called_bind. cbn [register_node new_broker]. eapply called_mono; [apply called_wp, open_register; by apply (still_open c1)|]. intros c2 [Hc2 _]. cbn. by apply (still_open c2).
Qed.
Lemma InitProducerID_returns fuel c : sound c → (broker_count c < fuel)%nat → wp (InitProducerID_loop pick init_producer_id fuel c) (fun r => sound r.2).
Proof.
  revert c. induction fuel as [|fuel IH]; intros c Hc Hf; [lia|]. cbn [InitProducerID_loop]. destruct (any pick c) as [[b c1]|] eqn:Ea; [|done].
  pose proof (any_some c b c1 Ea) as [Hs1 _]. cbn [ask_broker]. assert (sound (set_asked (S (c_asked c1)) c1)) as Hc1 by by apply (still_sound c).
  pose proof (discard_broker_fewer c b c1 (set_asked (S (c_asked c1)) c1) Hc Ea) as Hless. specialize (Hless ltac:(done)).
  destruct (init_producer_id _ _ _); [done|]. apply IH; [by apply discard_broker_sound|lia].
Qed.

(** The calls of an application, with the order in which a map is visited *)
Inductive client_call :=
| ARefresh (topics : list bytes) | ALeader (topic : bytes) (id : Z) | APartitions (topic : bytes) | AWritable (topic : bytes)
| AReplicas (field : PartitionMetadata → list Z) (topic : bytes) (id : Z) | AGetOffset (topic : bytes) (id time : Z)
| AController (o : list bytes → list bytes) | ATick (o : list bytes → list bytes) | ACoordinator (group : bytes) | ARefreshCoordinator (group : bytes)
| AInitProducerID | AClose (o : list Broker_ → list Broker_).
Definition state_of {A} (m : Go (A * client)) : Go client := let* r := m in Ret r.2.
Definition client_exec (a : client_call) (c : client) : Go client :=
  match a with
  | ARefresh topics => state_of (Refresh topics c)
  | ALeader topic id => state_of (leader topic id c)
  | APartitions topic => state_of (client_Partitions conf backoffFunc pick clock get_metadata topic c)
  | AWritable topic => state_of (WritablePartitions conf backoffFunc pick clock get_metadata topic c)
  | AReplicas field topic id => state_of (replicas_of conf backoffFunc pick clock get_metadata field topic id c)
  | AGetOffset topic id time => state_of (GetOffset conf backoffFunc pick clock get_metadata get_offsets topic id time c)
  | AController o => state_of (Controller conf backoffFunc pick clock get_metadata o c)
  | ATick o => metadata_tick conf backoffFunc pick clock get_metadata o c
  | ACoordinator group => state_of (Coordinator conf backoffFunc pick clock get_metadata find_coordinator group c)
  | ARefreshCoordinator group => state_of (RefreshCoordinator conf backoffFunc pick clock get_metadata find_coordinator group c)
  | AInitProducerID => state_of (InitProducerID pick init_producer_id c)
  | AClose o => Ret (client_Close o c).2
  end.
Lemma state_open {A} (m : Go (A * client)) : called m (fun r => open_client r.2) → called (state_of m) sound.
Proof. intros H. apply called_bind. eapply called_mono; [exact H|]. intros r Hr. by left. Qed.
Lemma close_sound o c : open_client c → sound (client_Close o c).2.
Proof. intros Hc. unfold client_Close. rewrite open_not_closed by done. by right. Qed.
Lemma exec_open a c : open_client c → called (client_exec a c) sound.
Proof.
  intros Hc. pose proof (open_not_closed c Hc) as Eo. destruct a; cbn [client_exec].
  1-10: apply state_open.
  - by apply called_wp, Refresh_returns.
  - by apply called_wp, Leader_returns.
  - apply called_wp. unfold client_Partitions. rewrite Eo. apply wp_bind. eapply wp_mono; [by apply refreshed_returns|]. done.
  - apply called_wp. unfold WritablePartitions. rewrite Eo. apply wp_bind. eapply wp_mono; [by apply refreshed_returns|]. done.
  - apply called_wp. unfold replicas_of. rewrite Eo. apply wp_bind. eapply wp_mono; [by apply refreshed_returns|]. done.
  - apply called_wp. unfold GetOffset. rewrite Eo. apply wp_bind. eapply wp_mono; [by apply getOffset_returns|]. intros [[off|e] c1] Hc1; [done|].
    apply wp_bind. eapply wp_mono; [by apply Refresh_returns|]. intros [[e'|] c2] Hc2; [done|]. by apply getOffset_returns.
  - apply called_wp. unfold Controller. rewrite Eo. destruct (negb _); [done|]. destruct (cachedController c) as [b|]; [by apply (still_open c)|].
    apply wp_bind. eapply wp_mono; [by apply refreshMetadata_returns|]. intros [[e|] c1] Hc1; [done|]. destruct (cachedController c1); [by apply (still_open c1)|done].
  - by apply called_wp, refreshMetadata_returns.
  - unfold Coordinator. rewrite Eo. destruct (cachedCoordinator group c) as [b|]; [by apply (still_open c)|].
    apply called_bind. eapply called_mono; [by apply RefreshCoordinator_returns|]. intros [[e|] c1] Hc1; [done|]. destruct (cachedCoordinator group c1); [by apply (still_open c1)|done].
  - by apply RefreshCoordinator_returns.
  - apply called_wp, wp_bind. eapply wp_mono; [apply InitProducerID_returns; [by left|lia]|]. done.
  - by apply close_sound.
Qed.
Lemma exec_closed a c : c_brokers c = None → wp (client_exec a c) sound.
Proof.
  intros Hc. assert (Closed c = true) as E by (unfold Closed; by rewrite Hc). assert (sound c) as Hs by by right.
  destruct a; cbn [client_exec]; unfold client_Leader, client_Partitions, WritablePartitions, replicas_of, GetOffset, Controller, metadata_tick, refreshMetadata, MetadataTopics, Coordinator, RefreshCoordinator, client_Close, RefreshMetadata;
    rewrite ?E; try done.
  - by destruct (Full _).
  - apply wp_bind. eapply wp_mono; [apply InitProducerID_returns; [done|lia]|]. done.
Qed.

(** A new client *)
Lemma new_client_open addrs perm : open_client (new_client addrs perm).
Proof.
  split; [exists ∅; split; [done|by intros id b Hb]|exists ∅; split; [done|split; [done|by intros topic m Hm]]|by eexists].
Qed.
End calls.

(** *** A cluster of two brokers *)

(** The seed knows both brokers; the broker at address [b1] never answers. *)
Definition a_cluster : MetadataResponse :=
  mk_MetadataResponse 1 0 [mk_node 1 (B "b1:9092") None; mk_node 2 (B "b2:9092") None] None 1
    [mk_topic 0 (B "t") false [mk_partition 0 1 2 [1; 2] [2] []; mk_partition 5 0 (-1) [1] [] []]].
Definition seed_answers (_ : nat) (b : Broker_) (_ : MetadataRequest) : MetadataResponse + call_error :=
  if br_id b =? 1 then inr CallOther else inl a_cluster.
Definition first_broker (m : gmap Z Broker_) : Broker_ := default (mk_broker_ 0 NoNode) (snd <$> head (map_to_list m)).
Definition no_coordinator (_ : nat) (_ : Broker_) (_ : FindCoordinatorRequest) : FindCoordinatorResponse + call_error := inr CallOther.
Definition offset_seven (_ : nat) (_ : Broker_) (_ : OffsetRequest) : OffsetResponse + call_error :=
  inl (mk_OffsetResponse 0 {[B "t" := {[1 := mk_offset_response_block 0 [7] 7 0]}]}).
Definition no_producer_id (_ : nat) (_ : Broker_) (_ : InitProducerIDRequest) : InitProducerIDResponse + call_error := inr CallOther.
Lemma first_broker_in m : m ≠ ∅ → ∃ id, m !! id = Some (first_broker m).
Proof.
  intros Hm. unfold first_broker. destruct (map_to_list m) as [|[id b] l] eqn:E; [by apply map_to_list_empty_iff in E|]. exists id. apply elem_of_map_to_list. rewrite E. set_solver.
Qed.
Definition some_calls : list client_call := [ARefresh []; ALeader (B "t") 1; AGetOffset (B "t") 1 (-1); ACoordinator (B "g"); AWritable (B "t"); AInitProducerID; APartitions (B "t")].
Lemma cache_refines_witness : ∃ c', updates [(a_cluster, true); (mk_MetadataResponse 1 0 [] None 1 [mk_topic 3 (B "t") false []], false)] (new_client [] []) = Ret c' ∧
  cachedMetadata (B "t") 1 c' = None ∧
  ∃ c'', updates [(a_cluster, true)] (new_client [] []) = Ret c'' ∧ ∀ id, cachedMetadata (B "t") id c'' = known (B "t") [(a_cluster, true)] ≫= (fun m => m !! id).
Proof.
  destruct (cache_refines [(a_cluster, true); (mk_MetadataResponse 1 0 [] None 1 [mk_topic 3 (B "t") false []], false)] (new_client [] []) (new_client_open [] []) eq_refl) as (c' & E & H).
  exists c'. split; [exact E|]. split; [exact (proj1 (H (B "t")) 1)|].
  destruct (cache_refines [(a_cluster, true)] (new_client [] []) (new_client_open [] []) eq_refl) as (c'' & E' & H'). exists c''. split; [exact E'|]. exact (proj1 (H' (B "t"))).
Defined.

(** When no broker can be reached, [InitProducerID] returns no response and no error. *)
Lemma no_id_no_error : ∃ c, InitProducerID first_broker no_producer_id (new_client [B "s1:9092"] [0%nat]) = Ret (None, None, c).
Proof. eexists. reflexivity. Qed.

(** A broker that names a coordinator at the address [:0] stops the client. *)
Definition coordinator_nowhere (_ : nat) (_ : Broker_) (_ : FindCoordinatorRequest) : FindCoordinatorResponse + call_error :=
  inl (mk_FindCoordinatorResponse 0 0 ErrNoError None None).
Example coordinator_nowhere_panics :
  KafkaProduceSet.go_each (client_exec NewConfig None first_broker (fun _ => 0) seed_answers coordinator_nowhere offset_seven no_producer_id) [ACoordinator (B "g")]
    (new_client [B "s1:9092"] [0%nat]) = Panic NilDereference.
Proof. reflexivity. Qed.
