(* ===== verification/MysqlUtils.v ===== *)
(** * [mysql/utils.go]: integers, strings and times of the MySQL protocol

    Length-encoded integers and strings, the escaping of string literals into a buffer that
    is grown once, and the text of binary dates and times.  A slice whose capacity matters is
    its bytes with the bytes of its backing array behind them ([spare]). *)

From S2P Require Import Prelude GoStrings.

(** ** Booleans *)

(** [func readBool(input string) (value bool, valid bool)] *)
Definition readBool (input : bytes) : bool * bool :=
  if existsb (beq input) [B "1"; B "true"; B "TRUE"; B "True"] then (true, true)
  else if existsb (beq input) [B "0"; B "false"; B "FALSE"; B "False"] then (false, true)
  else (false, false).

(** ** Little-endian integers *)

(** [uint64(b[0]) | uint64(b[1])<<8 | ...] *)
Fixpoint le_uint (b : bytes) : Z :=
  match b with [] => 0 | x :: b' => Z.lor x (Z.shiftl (le_uint b') 8) end.
(** [byte(n), byte(n>>8), ...] *)
Fixpoint le_bytes (w : nat) (n : Z) : bytes :=
  match w with O => [] | S k => uwrap 8 n :: le_bytes k (Z.shiftr n 8) end.

(** [func uint64ToBytes(n uint64) []byte] *)
Definition uint64ToBytes (n : Z) : bytes := le_bytes 8 n.

(** [func uint64ToString(n uint64) []byte]: the digits are stored from the end of an array of
    20; the fuel bounds the loop by the size of the array. *)
Fixpoint uint64ToString_loop (fuel : nat) (a : bytes) (i n : Z) : Go bytes :=
  match fuel with
  | O => Panic IndexOutOfRange
  | S k =>
      if 10 <=? n then
        let i := i - 1 in
        let q := n / 10 in
        let* a := go_set a i (uwrap 8 (uwrap 8 (n - q * 10) + 48)) in
        uint64ToString_loop k a i q
      else
        let i := i - 1 in
        let* a := go_set a i (uwrap 8 (uwrap 8 n + 48)) in
        go_slice a i (len a)
  end.
Definition uint64ToString (n : Z) : Go bytes := uint64ToString_loop 21 (replicate 20 0) 20 n.

(** [func stringToInt(b []byte) int] *)
Definition stringToInt (b : bytes) : Z :=
  fold_left (fun val c => swrap 64 (swrap 64 (val * 10) + uwrap 8 (c - 48))) b 0.

(** ** Length-encoded integers and strings *)

(** [func readLengthEncodedInteger(b []byte) (uint64, bool, int)] *)
Definition readLengthEncodedInteger (b : bytes) : Go (Z * bool * Z) :=
  match b with
  | [] => Ret (0, true, 1)
  | c :: _ =>
      let following (w : Z) :=
        if len b <? 1 + w then Panic IndexOutOfRange
        else Ret (le_uint (sub b 1 (1 + w)), false, 1 + w) in
      if c =? 251 then Ret (0, true, 1)
      else if c =? 252 then following 2
      else if c =? 253 then following 3
      else if c =? 254 then following 8
      else Ret (c, false, 1)
  end.

(** [func appendLengthEncodedInteger(b []byte, n uint64) []byte] *)
Definition appendLengthEncodedInteger (b : bytes) (n : Z) : bytes :=
  if n <=? 250 then b ++ [uwrap 8 n]
  else if n <=? 65535 then b ++ 252 :: le_bytes 2 n
  else if n <=? 16777215 then b ++ 253 :: le_bytes 3 n
  else b ++ 254 :: le_bytes 8 n.

(** [func readLengthEncodedString(b []byte) ([]byte, bool, int, error)]; [int(num)] and the
    sum wrap, the error is [io.EOF]. *)
Definition readLengthEncodedString (b : bytes) : Go (option bytes * bool * Z * bool) :=
  let* (num, isNull, n) := readLengthEncodedInteger b in
  if num <? 1 then let* s := go_slice b n n in Ret (Some s, isNull, n, false)
  else
    let n := swrap 64 (n + swrap 64 num) in
    if n <=? len b
    then let* s := go_slice b (swrap 64 (n - swrap 64 num)) n in Ret (Some s, false, n, false)
    else Ret (None, false, n, true).

(** [func skipLengthEncodedString(b []byte) (int, error)] *)
Definition skipLengthEncodedString (b : bytes) : Go (Z * bool) :=
  let* (num, _, n) := readLengthEncodedInteger b in
  if num <? 1 then Ret (n, false)
  else
    let n := swrap 64 (n + swrap 64 num) in
    Ret (n, negb (n <=? len b)).

(** ** Escaping *)

(** [func reserveBuffer(buf []byte, appendSize int) []byte] *)
Definition reserveBuffer (buf spare : bytes) (appendSize : Z) : bytes :=
  let newSize := len buf + appendSize in
  let buf' := if len buf + len spare <? newSize
              then buf ++ replicate (Z.to_nat (len buf + appendSize)) 0
              else buf ++ spare in
  take (Z.to_nat newSize) buf'.

(** The cases of the [switch]: the byte that follows the backslash. *)
Definition backslash_of (c : Z) : option Z :=
  if c =? 0 then Some (chr "0")
  else if c =? 10 then Some (chr "n")
  else if c =? 13 then Some (chr "r")
  else if c =? 26 then Some (chr "Z")
  else if c =? 39 then Some 39
  else if c =? 34 then Some 34
  else if c =? 92 then Some 92
  else None.

(** The loops: [pair] gives the two bytes a special byte becomes. *)
Fixpoint escape_loop (pair : Z → option (Z * Z)) (buf : bytes) (pos : Z) (v : bytes) : Go (bytes * Z) :=
  match v with
  | [] => Ret (buf, pos)
  | c :: v' =>
      match pair c with
      | Some (a, b) =>
          let* buf := go_set buf pos a in
          let* buf := go_set buf (pos + 1) b in
          escape_loop pair buf (pos + 2) v'
      | None =>
          let* buf := go_set buf pos c in
          escape_loop pair buf (pos + 1) v'
      end
  end.
Definition escape (pair : Z → option (Z * Z)) (buf spare v : bytes) : Go bytes :=
  let pos := len buf in
  let buf := reserveBuffer buf spare (len v * 2) in
  let* (buf, pos) := escape_loop pair buf pos v in
  go_slice buf 0 pos.

Definition pair_backslash (c : Z) : option (Z * Z) :=
  match backslash_of c with Some e => Some (92, e) | None => None end.
Definition pair_quotes (c : Z) : option (Z * Z) := if c =? 39 then Some (39, 39) else None.

(** [escapeBytesBackslash], [escapeStringBackslash]; [escapeBytesQuotes],
    [escapeStringQuotes]: the same loops on bytes and on strings *)
Definition escapeBytesBackslash (buf spare v : bytes) : Go bytes := escape pair_backslash buf spare v.
Definition escapeStringBackslash (buf spare v : bytes) : Go bytes := escape pair_backslash buf spare v.
Definition escapeBytesQuotes (buf spare v : bytes) : Go bytes := escape pair_quotes buf spare v.
Definition escapeStringQuotes (buf spare v : bytes) : Go bytes := escape pair_quotes buf spare v.

(** ** Dates and times *)

Definition digits01 : bytes :=
  B "0123456789012345678901234567890123456789012345678901234567890123456789012345678901234567890123456789".
Definition digits10 : bytes :=
  B "0000000000111111111122222222223333333333444444444455555555556666666666777777777788888888889999999999".
Definition zeroDateTime : bytes := B "0000-00-00 00:00:00.000000".

(** [digits10[p], digits01[p]] *)
Definition two_digits (p : Z) : Go bytes :=
  let* a := go_index digits10 p in let* b := go_index digits01 p in Ret [a; b].
Definition one_digit (p : Z) : Go bytes := let* a := go_index digits10 p in Ret [a].

(** [append] of parts that are computed in order *)
Fixpoint parts (dst : bytes) (l : list (Go bytes)) : Go bytes :=
  match l with [] => Ret dst | p :: l' => let* b := p in parts (dst ++ b) l' end.

(** [func appendMicrosecs(dst, src []byte, decimals int) []byte] *)
Definition appendMicrosecs (dst src : bytes) (decimals : Z) : Go bytes :=
  if decimals <=? 0 then Ret dst
  else if len src =? 0 then
    let* z := go_slice (B ".000000") 0 (decimals + 1) in Ret (dst ++ z)
  else
    let* s := go_slice src 0 4 in
    let microsecs := le_uint s in
    let p1 := uwrap 8 (microsecs / 10000) in
    let microsecs := uwrap 32 (microsecs - uwrap 32 (10000 * p1)) in
    let p2 := uwrap 8 (microsecs / 100) in
    let microsecs := uwrap 32 (microsecs - uwrap 32 (100 * p2)) in
    let p3 := uwrap 8 microsecs in
    let dot := Ret (B ".") in
    parts dst
      (if decimals =? 1 then [dot; one_digit p1]
       else if decimals =? 2 then [dot; two_digits p1]
       else if decimals =? 3 then [dot; two_digits p1; one_digit p2]
       else if decimals =? 4 then [dot; two_digits p1; two_digits p2]
       else if decimals =? 5 then [dot; two_digits p1; two_digits p2; one_digit p3]
       else [dot; two_digits p1; two_digits p2; two_digits p3]).

Definition mem (x : Z) (l : list Z) : bool := existsb (Z.eqb x) l.

Inductive time_error := IllegalLength (n : Z) | IllegalPacketLength (n : Z).

(** [func formatBinaryDateTime(src []byte, length uint8) (driver.Value, error)] *)
Definition formatBinaryDateTime (src : bytes) (length : Z) : Go (bytes + time_error) :=
  if len src =? 0 then let* z := go_slice zeroDateTime 0 length in Ret (inl z)
  else if negb (mem length [10; 19; 21; 22; 23; 24; 25; 26]) then Ret (inr (IllegalLength length))
  else if negb (mem (len src) [4; 7; 11]) then Ret (inr (IllegalPacketLength (len src)))
  else
    let* y := go_slice src 0 2 in
    let year := le_uint y in
    let pt := year / 100 in
    let p1 := uwrap 8 (uwrap 16 (year - uwrap 16 (100 * pt))) in
    let* p2 := go_index src 2 in
    let* p3 := go_index src 3 in
    let* dst := parts [] [two_digits pt; two_digits p1; Ret (B "-"); two_digits p2; Ret (B "-"); two_digits p3] in
    if length =? 10 then Ret (inl dst)
    else if len src =? 4 then
      let* z := go_slice zeroDateTime 10 length in Ret (inl (dst ++ z))
    else
      let* p1 := go_index src 4 in
      let* src := go_slice src 5 (len src) in
      let* p2 := go_index src 0 in
      let* p3 := go_index src 1 in
      let* dst := parts (dst ++ B " ") [two_digits p1; Ret (B ":"); two_digits p2; Ret (B ":"); two_digits p3] in
      let* src := go_slice src 2 (len src) in
      let* dst := appendMicrosecs dst src (length - 20) in
      Ret (inl dst).

(** [func formatBinaryTime(src []byte, length uint8) (driver.Value, error)] *)
Definition formatBinaryTime (src : bytes) (length : Z) : Go (bytes + time_error) :=
  if len src =? 0 then let* z := go_slice zeroDateTime 11 (11 + length) in Ret (inl z)
  else if negb (mem length [8; 10; 11; 12; 13; 14; 15]) then Ret (inr (IllegalLength length))
  else if negb (mem (len src) [8; 12]) then Ret (inr (IllegalPacketLength (len src)))
  else
    let* sign := go_index src 0 in
    let dst := if sign =? 1 then B "-" else [] in
    let* d := go_slice src 1 5 in
    let* h := go_index src 5 in
    let hours := le_uint d * 24 + h in
    let* dst := if 100 <=? hours then Ret (dst ++ Itoa hours) else parts dst [two_digits hours] in
    let* min := go_index src 6 in
    let* sec := go_index src 7 in
    let* dst := parts dst [Ret (B ":"); two_digits min; Ret (B ":"); two_digits sec] in
    let* src := go_slice src 8 (len src) in
    let* dst := appendMicrosecs dst src (length - 9) in
    Ret (inl dst).

(** [func parseBinaryDateTime(num uint64, data []byte, loc *time.Location)]: the arguments of
    [time.Date]; [None] is the zero time. *)
Record date_args := mk_date { d_year : Z; d_month : Z; d_day : Z; d_hour : Z; d_min : Z; d_sec : Z; d_nsec : Z }.
Definition parseBinaryDateTime (num : Z) (data : bytes) : Go (option date_args + time_error) :=
  if num =? 0 then Ret (inl None)
  else if mem num [4; 7; 11] then
    let* y := go_slice data 0 2 in
    let* mo := go_index data 2 in
    let* d := go_index data 3 in
    if num =? 4 then Ret (inl (Some (mk_date (le_uint y) mo d 0 0 0 0)))
    else
      let* h := go_index data 4 in
      let* mi := go_index data 5 in
      let* s := go_index data 6 in
      if num =? 7 then Ret (inl (Some (mk_date (le_uint y) mo d h mi s 0)))
      else
        let* us := go_slice data 7 11 in
        Ret (inl (Some (mk_date (le_uint y) mo d h mi s (le_uint us * 1000))))
  else Ret (inr (IllegalPacketLength num)).

(** ** Small helpers *)

(** [func mapIsolationLevel(level driver.IsolationLevel) (string, error)]; the numbers are
    those of [database/sql]. *)
Definition mapIsolationLevel (level : Z) : option bytes :=
  if level =? 4 then Some (B "REPEATABLE READ")
  else if level =? 2 then Some (B "READ COMMITTED")
  else if level =? 1 then Some (B "READ UNCOMMITTED")
  else if level =? 6 then Some (B "SERIALIZABLE")
  else None.

(** [func namedValueToValue(named []driver.NamedValue) ([]driver.Value, error)]: a value with
    a name is an error. *)
Fixpoint namedValueToValue {V} (named : list (bytes * V)) : option (list V) :=
  match named with
  | [] => Some []
  | (name, v) :: named' =>
      if 0 <? len name then None
      else match namedValueToValue named' with Some vs => Some (v :: vs) | None => None end
  end.

(** [type atomicBool struct]: the [uint32], and what the methods do to it *)
Definition atomicBool_IsSet (value : Z) : bool := 0 <? value.
Definition atomicBool_Set (b : bool) : Z := if b then 1 else 0.
Definition atomicBool_TrySet (value : Z) (b : bool) : Z * bool :=
  if b then (1, value =? 0) else (0, 0 <? value).
