(* ===== verification/MysqlUtilsProps.v ===== *)
(** * Properties of [mysql/utils.go]

    Length-encoded values read back; the escaping loops compute a byte-by-byte map, and what
    they write is read by MySQL's string scanner as the original value; the digit tables
    print dates as their decimal text. *)

From S2P Require Import Prelude GoStrings MysqlUtils.

(** ** Little-endian integers *)

Lemma le_bytes_length w n : length (le_bytes w n) = w.
Proof. revert n. induction w as [|w IH]; intros n; [done|]. cbn [le_bytes length]. by rewrite IH. Qed.

Lemma len_le_bytes w n : len (le_bytes w n) = Z.of_nat w.
Proof. unfold len. by rewrite le_bytes_length. Qed.

Lemma le_uint_le_bytes w n : le_uint (le_bytes w n) = n mod 2 ^ (8 * Z.of_nat w).
Proof.
  revert n. induction w as [|w IH]; intros n; [by rewrite Z.mod_1_r|].
  cbn [le_bytes le_uint]. unfold uwrap. pose proof (Z.mod_pos_bound n (2 ^ 8)).
  rewrite lor_shiftl, IH by lia. rewrite Z.shiftr_div_pow2 by lia.
  replace (8 * Z.of_nat (S w)) with (8 + 8 * Z.of_nat w) by lia.
  rewrite Z.pow_add_r by lia. rewrite Z.rem_mul_r by (try apply Z.pow_pos_nonneg; lia). lia.
Qed.

Lemma le_uint_small w n : 0 ≤ n < 2 ^ (8 * Z.of_nat w) → le_uint (le_bytes w n) = n.
Proof. intros Hn. rewrite le_uint_le_bytes. by apply Z.mod_small. Qed.

(** ** Length-encoded integers *)

Lemma sub_1 {A} (c : A) l w rest : len l = w → sub (c :: l ++ rest) 1 (1 + w) = l.
Proof.
  intros <-. unfold sub. rewrite Z.add_simpl_l. change (Z.to_nat 1) with 1%nat. cbn [drop].
  unfold len. rewrite Nat2Z.id. apply take_app_length.
Qed.

Lemma read_following c w n rest :
  c ≠ 251 → 0 ≤ n < 2 ^ (8 * Z.of_nat w) →
  (c = 252 ∧ w = 2%nat) ∨ (c = 253 ∧ w = 3%nat) ∨ (c = 254 ∧ w = 8%nat) →
  readLengthEncodedInteger ((c :: le_bytes w n) ++ rest) = Ret (n, false, 1 + Z.of_nat w).
Proof.
  intros Hc Hn Hw.
  assert ((len ((c :: le_bytes w n) ++ rest) <? 1 + Z.of_nat w) = false) as Hlen.
  { apply Z.ltb_ge. rewrite len_app, len_cons, len_le_bytes. pose proof (len_nonneg rest). lia. }
  pose proof (sub_1 c _ _ rest (len_le_bytes w n)) as Hsub.
  pose proof (le_uint_small w n Hn) as Hv.
  unfold readLengthEncodedInteger. cbn [app] in *.
  destruct Hw as [[-> ->]|[[-> ->]|[-> ->]]];
    change (Z.of_nat 2) with 2 in *; change (Z.of_nat 3) with 3 in *; change (Z.of_nat 8) with 8 in *;
    cbn [Z.eqb Pos.eqb]; by rewrite Hlen, Hsub, Hv.
Qed.

Lemma read_append n rest :
  uint_ok 64 n →
  readLengthEncodedInteger (appendLengthEncodedInteger [] n ++ rest)
  = Ret (n, false, len (appendLengthEncodedInteger [] n)).
Proof.
  intros [H0 H1]. unfold appendLengthEncodedInteger.
  destruct (Z.leb_spec n 250).
  - unfold uwrap. rewrite Z.mod_small by lia. cbn [app readLengthEncodedInteger].
    rewrite !(proj2 (Z.eqb_neq n _)) by lia. done.
  - destruct (Z.leb_spec n 65535); [|destruct (Z.leb_spec n 16777215)]; rewrite app_nil_l, len_cons, len_le_bytes;
      rewrite read_following by (first [lia | simpl; lia]); do 2 f_equal; lia.
Qed.

Lemma len_append_pos n : 0 < len (appendLengthEncodedInteger [] n).
Proof.
  unfold appendLengthEncodedInteger. repeat case_match; cbn [app]; rewrite len_cons;
    pose proof (len_nonneg (le_bytes 2 n)); pose proof (len_nonneg (le_bytes 3 n));
    pose proof (len_nonneg (le_bytes 8 n)); pose proof (len_nonneg (@nil Z)); lia.
Qed.

(** A length-encoded string reads back, and is skipped, whatever follows it. *)
Lemma lenenc_string_reads s rest :
  len s < 2 ^ 62 →
  let e := appendLengthEncodedInteger [] (len s) ++ s in
  readLengthEncodedString (e ++ rest) = Ret (Some s, false, len e, false) ∧
  skipLengthEncodedString (e ++ rest) = Ret (len e, false).
Proof.
  intros Hs. cbv zeta.
  set (h := appendLengthEncodedInteger [] (len s)). pose proof (len_nonneg s). pose proof (len_nonneg rest).
  assert (len h ≤ 9) as Hh.
  { unfold h, appendLengthEncodedInteger. repeat case_match; cbn [app]; rewrite ?len_cons, ?len_le_bytes; unfold len; simpl; lia. }
  pose proof (len_append_pos (len s)) as Hp. fold h in Hp.
  assert (readLengthEncodedInteger ((h ++ s) ++ rest) = Ret (len s, false, len h)) as Hr.
  { rewrite <- (assoc_L (++)). apply read_append. split; [lia|]. simpl in *. lia. }
  unfold readLengthEncodedString, skipLengthEncodedString. rewrite Hr. cbn [gbind].
  assert (swrap 64 (len s) = len s) as W1 by (apply swrap_id; unfold int_ok; simpl in *; lia).
  assert (swrap 64 (len h + len s) = len h + len s) as W2 by (apply swrap_id; unfold int_ok; simpl in *; lia).
  assert (go_slice ((h ++ s) ++ rest) (len h) (len h + len s) = Ret s) as Hg.
  { rewrite <- (assoc_L (++)). apply go_slice_mid. }
  destruct (Z.ltb_spec (len s) 1) as [E|E].
  - assert (len s = 0) as E0 by lia. rewrite E0, Z.add_0_r in Hg. rewrite Hg, !len_app, E0, Z.add_0_r. done.
  - rewrite W1, W2, !len_app. rewrite (proj2 (Z.leb_le _ _)) by lia. split; [|done].
    replace (len h + len s - len s) with (len h) by lia. rewrite swrap_id by (unfold int_ok; simpl in *; lia).
    by rewrite Hg.
Qed.

(** Length-encoded integers of 64 bits and length-encoded strings are read back as
    written, with the number of bytes they take. *)
Theorem length_encoded_roundtrip (n : Z) (s rest : bytes) :
  uint_ok 64 n → len s < 2 ^ 62 →
  readLengthEncodedInteger (appendLengthEncodedInteger [] n ++ rest)
    = Ret (n, false, len (appendLengthEncodedInteger [] n)) ∧
  let e := appendLengthEncodedInteger [] (len s) ++ s in
  readLengthEncodedString (e ++ rest) = Ret (Some s, false, len e, false) ∧
  skipLengthEncodedString (e ++ rest) = Ret (len e, false).
Proof. intros Hn Hs. split; [by apply read_append|by apply lenenc_string_reads]. Qed.

Lemma length_encoded_roundtrip_witness :
  readLengthEncodedInteger [252; 44; 1; 7] = Ret (300, false, 3) ∧
  (readLengthEncodedString (3 :: B "abcde") = Ret (Some (B "abc"), false, 4, false) ∧
   skipLengthEncodedString (3 :: B "abcde") = Ret (4, false)).
Proof.
  split.
  - apply (length_encoded_roundtrip 300 (B "abc") [7]); done.
  - apply (length_encoded_roundtrip 300 (B "abc") (B "de")); done.
Defined.

(** A header cut short: the code reads past the slice. *)
Lemma readLengthEncodedInteger_short c b :
  c = 252 ∨ c = 253 ∨ c = 254 → len b < 2 → readLengthEncodedInteger (c :: b) = Panic IndexOutOfRange.
Proof.
  intros Hc Hb. unfold readLengthEncodedInteger. rewrite len_cons.
  destruct Hc as [->|[->| ->]]; cbn [Z.eqb Pos.eqb];
    rewrite (proj2 (Z.ltb_lt _ _)) by lia; done.
Qed.

(** ** Escaping *)

(** What a byte becomes. *)
Definition escaped (pair : Z → option (Z * Z)) (c : Z) : bytes :=
  match pair c with Some (a, b) => [a; b] | None => [c] end.

Lemma len_escaped pair v : len (v ≫= escaped pair) ≤ 2 * len v.
Proof.
  induction v as [|c v IH]; [done|]. rewrite bind_cons, len_app, len_cons.
  assert (len (escaped pair c) ≤ 2) by (unfold escaped, len; repeat case_match; simpl; lia). lia.
Qed.

Lemma escape_loop_spec pair v : ∀ pre room,
  2 * len v ≤ len room →
  escape_loop pair (pre ++ room) (len pre) v
  = Ret ((pre ++ (v ≫= escaped pair)) ++ drop (length (v ≫= escaped pair)) room,
         len (pre ++ (v ≫= escaped pair))).
Proof.
  induction v as [|c v IH]; intros pre room Hr; [by rewrite !app_nil_r|].
  rewrite len_cons in Hr. pose proof (len_nonneg v).
  destruct room as [|x [|y room]]; [unfold len in *; simpl in *; lia..|].
  rewrite !len_cons in Hr. cbn [escape_loop]. rewrite bind_cons. unfold escaped at 1 3 5.
  destruct (pair c) as [[a b]|].
  - rewrite go_set_mid. cbn [gbind]. rewrite (cons_middle a pre), (assoc_L (++)).
    replace (len pre + 1) with (len (pre ++ [a])) by (rewrite len_app; done).
    rewrite go_set_mid. cbn [gbind]. rewrite <- (assoc_L (++)), (cons_middle b), !(assoc_L (++)), <- (assoc_L (++) pre [a]).
    replace (len pre + 2) with (len (pre ++ [a] ++ [b])) by (rewrite len_app; done).
    rewrite IH by lia. by rewrite <- !(assoc_L (++)).
  - rewrite go_set_mid. cbn [gbind]. rewrite (cons_middle c pre), (assoc_L (++)).
    replace (len pre + 1) with (len (pre ++ [c])) by (rewrite len_app; done).
    rewrite IH by (rewrite len_cons; lia). by rewrite <- !(assoc_L (++)).
Qed.

Lemma reserveBuffer_spec buf spare n :
  0 ≤ n → ∃ room, reserveBuffer buf spare n = buf ++ room ∧ len room = n.
Proof.
  intros Hn. pose proof (len_nonneg buf). unfold reserveBuffer.
  set (behind := if len buf + len spare <? len buf + n then replicate (Z.to_nat (len buf + n)) 0 else spare).
  assert (n ≤ len behind) as Hb.
  { unfold behind. destruct (Z.ltb_spec (len buf + len spare) (len buf + n)); [|lia].
    unfold len at 1. rewrite length_replicate. lia. }
  replace (if len buf + len spare <? len buf + n then _ else _) with (buf ++ behind)
    by (unfold behind; by destruct (len buf + len spare <? len buf + n)).
  exists (take (Z.to_nat n) behind). split.
  - replace (Z.to_nat (len buf + n)) with (length buf + Z.to_nat n)%nat by (unfold len; lia).
    apply take_app_add.
  - unfold len in *. rewrite length_take. lia.
Qed.

(** Whatever lies behind the buffer, the escaped bytes are appended to it. *)
Lemma escape_spec pair buf spare v : escape pair buf spare v = Ret (buf ++ (v ≫= escaped pair)).
Proof.
  unfold escape. pose proof (len_nonneg v).
  destruct (reserveBuffer_spec buf spare (len v * 2)) as (room & -> & Hroom); [lia|].
  rewrite escape_loop_spec by lia. cbn [gbind]. apply go_slice_front.
Qed.

(** ** MySQL's scanner

    String literals as the server's manual defines them: the literal ends at a quote that is
    not doubled; unless NO_BACKSLASH_ESCAPES is set, a backslash gives the next byte a
    meaning, and a backslash before a per cent sign or an underscore is kept. *)
Definition unescape (c : Z) : bytes :=
  if c =? chr "0" then [0] else if c =? chr "n" then [10] else if c =? chr "r" then [13]
  else if c =? chr "Z" then [26] else if c =? chr "b" then [8] else if c =? chr "t" then [9]
  else if (c =? chr "%") || (c =? chr "_") then [92; c] else [c].

(** The value of the literal and what follows it. *)
Fixpoint scan_string (backslash : bool) (s : bytes) : option (bytes * bytes) :=
  match s with
  | [] => None
  | c :: t =>
      if c =? 39 then
        match t with
        | d :: t' => if d =? 39 then (fun r => (39 :: r.1, r.2)) <$> scan_string backslash t' else Some ([], t)
        | [] => Some ([], [])
        end
      else if backslash && (c =? 92) then
        match t with
        | d :: t' => (fun r => (unescape d ++ r.1, r.2)) <$> scan_string backslash t'
        | [] => None
        end
      else (fun r => (c :: r.1, r.2)) <$> scan_string backslash t
  end.

(** The escaping that goes with each mode of the server. *)
Definition pair_of (backslash : bool) : Z → option (Z * Z) :=
  if backslash then pair_backslash else pair_quotes.

Lemma scan_escaped_byte backslash c t :
  scan_string backslash (escaped (pair_of backslash) c ++ t)
  = (fun r => (c :: r.1, r.2)) <$> scan_string backslash t.
Proof.
  unfold escaped. destruct backslash; cbn [pair_of].
  - unfold pair_backslash, backslash_of. chr_norm.
    repeat match goal with |- context [c =? ?k] => destruct (Z.eqb_spec c k) as [->|]; [done|] end.
    cbn [app scan_string]. rewrite !(proj2 (Z.eqb_neq c _)) by done. done.
  - unfold pair_quotes. destruct (Z.eqb_spec c 39) as [->|]; [done|].
    cbn [app scan_string]. by rewrite (proj2 (Z.eqb_neq c _)).
Qed.

Lemma scan_escaped backslash v rest :
  head rest ≠ Some 39 →
  scan_string backslash ((v ≫= escaped (pair_of backslash)) ++ 39 :: rest) = Some (v, rest).
Proof.
  intros Hr. induction v as [|c v IH].
  - cbn. destruct rest as [|d rest]; [done|]. rewrite (proj2 (Z.eqb_neq d 39)); [done|].
    intros ->. by apply Hr.
  - rewrite bind_cons, <- (assoc_L (++)), scan_escaped_byte, IH. done.
Qed.

(** ** Dates and times *)

(** Two decimal digits. *)
Definition dec2 (p : Z) : bytes := [48 + p / 10; 48 + p mod 10].

Lemma two_digits_dec p : 0 ≤ p < 100 → two_digits p = Ret (dec2 p).
Proof.
  intros Hp. assert (two_digits <$> seqZ 0 100 = (fun p => Ret (dec2 p)) <$> seqZ 0 100) as E by reflexivity.
  assert (seqZ 0 100 !! Z.to_nat p = Some p) as Hl by (apply lookup_seqZ; lia).
  pose proof (f_equal (fun l => l !! Z.to_nat p) E) as H. cbv beta in H.
  rewrite !list_lookup_fmap, Hl in H. by injection H.
Qed.

Lemma one_digit_dec p : 0 ≤ p < 100 → one_digit p = Ret (take 1 (dec2 p)).
Proof.
  intros Hp. pose proof (two_digits_dec p Hp) as H. unfold two_digits, one_digit in *.
  destruct (go_index digits10 p); [|done]. cbn [gbind] in *. destruct (go_index digits01 p); [|done].
  cbn [gbind] in H. unfold dec2 in *. by injection H as -> ->.
Qed.

(** The fraction of a second with its six digits. *)
Definition fraction (us : Z) : bytes :=
  B "." ++ dec2 (us / 10000) ++ dec2 (us / 100 mod 100) ++ dec2 (us mod 100).

Lemma appendMicrosecs_text dst src d us :
  src = [] ∧ us = 0 ∨ src = le_bytes 4 us → 0 ≤ us < 1000000 → 1 ≤ d ≤ 6 →
  appendMicrosecs dst src d = Ret (dst ++ take (Z.to_nat (d + 1)) (fraction us)).
Proof.
  intros Hsrc Hus Hd. unfold appendMicrosecs. rewrite (proj2 (Z.leb_gt d 0)) by lia.
  destruct Hsrc as [[-> ->]| ->].
  - assert (d = 1 ∨ d = 2 ∨ d = 3 ∨ d = 4 ∨ d = 5 ∨ d = 6) as Hc by lia.
    by repeat destruct Hc as [->|Hc]; [..|subst d].
  - rewrite len_le_bytes. cbn [Z.eqb Z.of_nat].
    assert (go_slice (le_bytes 4 us) 0 4 = Ret (le_bytes 4 us)) as -> by reflexivity. cbn [gbind].
    rewrite le_uint_small by (simpl; lia). unfold uwrap.
    rewrite (Z.mod_small (us / 10000) (2 ^ 8)) by (split; [apply Z.div_pos; lia|apply Z.div_lt_upper_bound; simpl; lia]).
    pose proof (Z.div_mod us 10000 ltac:(lia)) as E1. pose proof (Z.mod_pos_bound us 10000 ltac:(lia)).
    pose proof (Z.div_pos us 10000 ltac:(lia) ltac:(lia)).
    assert (us / 10000 < 100) by (apply Z.div_lt_upper_bound; lia).
    rewrite (Z.mod_small (10000 * _)), (Z.mod_small (us - _)) by (simpl; lia).
    replace (us - 10000 * (us / 10000)) with (us mod 10000) by lia.
    set (m := us mod 10000) in *.
    pose proof (Z.div_mod m 100 ltac:(lia)). pose proof (Z.mod_pos_bound m 100 ltac:(lia)).
    pose proof (Z.div_pos m 100 ltac:(lia) ltac:(lia)).
    assert (m / 100 < 100) by (apply Z.div_lt_upper_bound; lia).
    rewrite (Z.mod_small (m / 100)), (Z.mod_small (100 * _)), (Z.mod_small (m - _)) by (simpl; lia).
    replace (m - 100 * (m / 100)) with (m mod 100) by lia. rewrite (Z.mod_small (m mod 100)) by (simpl; lia).
    unfold fraction. replace (us / 100 mod 100) with (m / 100).
    2:{ unfold m. change 10000 with (100 * 100). rewrite Z.rem_mul_r by lia.
        rewrite Z.add_comm, Z.mul_comm, Z.div_add_l by lia. rewrite (Z.div_small (us mod 100)); [lia|].
        apply Z.mod_pos_bound. lia. }
    replace (us mod 100) with (m mod 100).
    2:{ unfold m. change 10000 with (100 * 100). rewrite Z.rem_mul_r by lia.
        rewrite Z.mul_comm, Z_mod_plus_full, Z.mod_mod; lia. }
    assert (d = 1 ∨ d = 2 ∨ d = 3 ∨ d = 4 ∨ d = 5 ∨ d = 6) as Hc by lia.
    repeat destruct Hc as [->|Hc]; [..|subst d]; cbn [Z.eqb Pos.eqb parts gbind];
      rewrite ?two_digits_dec, ?one_digit_dec by lia; cbn [gbind parts]; rewrite <- !(assoc_L (++)); done.
Qed.

(** The text of a date and time, "YYYY-MM-DD hh:mm:ss.uuuuuu". *)
Definition date_text (y mo d : Z) : bytes :=
  dec2 (y / 100) ++ dec2 (y mod 100) ++ B "-" ++ dec2 mo ++ B "-" ++ dec2 d.
Definition clock_text (h mi s : Z) : bytes := dec2 h ++ B ":" ++ dec2 mi ++ B ":" ++ dec2 s.
Definition datetime_text (y mo d h mi s us : Z) : bytes :=
  date_text y mo d ++ B " " ++ clock_text h mi s ++ fraction us.

(** The binary packet: 4, 7 or 11 bytes, the rest being zero. *)
Definition datetime_packet (k : nat) (y mo d h mi s us : Z) : bytes :=
  take k (le_bytes 2 y ++ [mo; d; h; mi; s] ++ le_bytes 4 us).

(** The text of the date, which every packet starts with. *)
Lemma date_parts y mo d :
  0 ≤ y < 10000 → 0 ≤ mo < 100 → 0 ≤ d < 100 →
  parts [] [two_digits (y / 100); two_digits (uwrap 8 (uwrap 16 (y - uwrap 16 (100 * (y / 100)))));
            Ret (B "-"); two_digits mo; Ret (B "-"); two_digits d]
  = Ret (date_text y mo d).
Proof.
  intros Hy Hmo Hd. pose proof (Z.div_mod y 100 ltac:(lia)). pose proof (Z.mod_pos_bound y 100 ltac:(lia)).
  pose proof (Z.div_pos y 100 ltac:(lia) ltac:(lia)). assert (y / 100 < 100) by (apply Z.div_lt_upper_bound; lia).
  unfold uwrap. rewrite (Z.mod_small (100 * _)), (Z.mod_small (y - _)) by (simpl; lia).
  replace (y - 100 * (y / 100)) with (y mod 100) by lia. rewrite (Z.mod_small (y mod 100)) by (simpl; lia).
  cbn [parts gbind]. rewrite !two_digits_dec by lia. done.
Qed.

Lemma clock_parts dst h mi s :
  0 ≤ h < 100 → 0 ≤ mi < 100 → 0 ≤ s < 100 →
  parts dst [two_digits h; Ret (B ":"); two_digits mi; Ret (B ":"); two_digits s]
  = Ret (dst ++ clock_text h mi s).
Proof.
  intros Hh Hmi Hs. cbn [parts gbind]. rewrite !two_digits_dec by done. cbn [gbind].
  unfold clock_text. by rewrite <- !(assoc_L (++)).
Qed.

Definition date_lengths : list Z := [10; 19; 21; 22; 23; 24; 25; 26].

(** A packet with a clock, from the date on. *)
Lemma datetime_clock fr y0 y1 y mo d h mi s us length :
  le_uint [y0; y1] = y → 0 ≤ y < 10000 → 0 ≤ mo < 100 → 0 ≤ d < 100 → 0 ≤ h < 100 → 0 ≤ mi < 100 →
  0 ≤ s < 100 → 0 ≤ us < 1000000 → fr = [] ∧ us = 0 ∨ fr = le_bytes 4 us →
  mem length date_lengths = true →
  formatBinaryDateTime ([y0; y1; mo; d; h; mi; s] ++ fr) length
  = Ret (inl (take (Z.to_nat length) (datetime_text y mo d h mi s us))).
Proof.
  intros Ey Hy Hmo Hd Hh Hmi Hs Hus Hfr Hl. unfold formatBinaryDateTime.
  change [10; 19; 21; 22; 23; 24; 25; 26] with date_lengths. rewrite Hl.
  assert (len fr = 0 ∨ len fr = 4) as Hfl by (destruct Hfr as [[-> _]| ->]; [by left|right; apply len_le_bytes]).
  set (src := [y0; y1; mo; d; h; mi; s] ++ fr).
  assert (len src = 7 + len fr) as El by (unfold src; rewrite len_app; done). rewrite El.
  rewrite (proj2 (Z.eqb_neq _ 0)), (proj2 (Z.eqb_neq _ 4)) by lia.
  replace (mem (7 + len fr) [4; 7; 11]) with true by (unfold mem; simpl; lia). cbn [negb].
  assert (∀ i x, [y0; y1; mo; d; h; mi; s] !! Z.to_nat i = Some x → 0 ≤ i < 7 → go_index src i = Ret x) as Hix.
  { intros i x Hx Hi. unfold go_index. rewrite El. replace (_ && _) with true by lia.
    unfold src. by rewrite lookup_app_l, Hx by (simpl; lia). }
  change src with ([y0; y1] ++ [mo; d; h; mi; s] ++ fr) at 1. change 2 with (len [y0; y1]) at 1.
  rewrite go_slice_front. cbn [gbind]. rewrite Ey, (Hix 2 mo), (Hix 3 d) by (done || lia). cbn [gbind].
  rewrite date_parts by done. cbn [gbind].
  assert (length = 10 ∨ length = 19 ∨ 21 ≤ length ≤ 26) as Hc by (unfold mem, date_lengths in Hl; simpl in Hl; lia).
  destruct (Z.eqb_spec length 10) as [->|]; [done|].
  rewrite (Hix 4 h) by (done || lia). cbn [gbind].
  rewrite <- El. change src with ([y0; y1; mo; d; h] ++ mi :: s :: fr). change 5 with (len [y0; y1; mo; d; h]).
  rewrite go_slice_tail. cbn [gbind].
  assert (∀ i x, [mi; s] !! Z.to_nat i = Some x → 0 ≤ i < 2 → go_index (mi :: s :: fr) i = Ret x) as Hix'.
  { intros i x Hx Hi. unfold go_index. rewrite !len_cons. replace (_ && _) with true by lia.
    change (mi :: s :: fr) with ([mi; s] ++ fr). by rewrite lookup_app_l, Hx by (simpl; lia). }
  rewrite (Hix' 0 mi), (Hix' 1 s) by (done || lia). cbn [gbind]. rewrite clock_parts by done. cbn [gbind].
  change (mi :: s :: fr) with ([mi; s] ++ fr). change 2 with (len [mi; s]). rewrite go_slice_tail. cbn [gbind].
  destruct Hc as [->|[->|Hc]]; [done|done|].
  rewrite (appendMicrosecs_text _ _ _ us) by (done || lia). cbn [gbind]. unfold datetime_text.
  do 2 f_equal. rewrite !(assoc_L (++)).
  rewrite <- take_app_add. f_equal. change (Datatypes.length _) with 19%nat. lia.
Qed.

(** The text of a binary date and time, cut to the length the column asks for *)
Lemma formatBinaryDateTime_text k y mo d h mi s us length :
  0 ≤ y < 10000 → 0 ≤ mo < 100 → 0 ≤ d < 100 → 0 ≤ h < 100 → 0 ≤ mi < 100 → 0 ≤ s < 100 →
  0 ≤ us < 1000000 →
  (k = 4%nat ∧ h = 0 ∧ mi = 0 ∧ s = 0 ∧ us = 0) ∨ (k = 7%nat ∧ us = 0) ∨ k = 11%nat →
  mem length date_lengths = true →
  formatBinaryDateTime (datetime_packet k y mo d h mi s us) length
  = Ret (inl (take (Z.to_nat length) (datetime_text y mo d h mi s us))).
Proof.
  intros Hy Hmo Hd Hh Hmi Hs Hus Hk Hl. unfold datetime_packet.
  pose proof (le_uint_small 2 y ltac:(simpl; lia)) as Ey.
  destruct (le_bytes 2 y) as [|y0 [|y1 [|]]] eqn:E2; try discriminate.
  destruct Hk as [(-> & -> & -> & -> & ->)|[[-> ->]| ->]].
  - unfold formatBinaryDateTime. change [10; 19; 21; 22; 23; 24; 25; 26] with date_lengths. rewrite Hl.
    assert (length = 10 ∨ length = 19 ∨ length = 21 ∨ length = 22 ∨ length = 23 ∨ length = 24 ∨ length = 25 ∨ length = 26) as Hc
      by (unfold mem, date_lengths in Hl; simpl in Hl; lia).
    change (take 4 _) with [y0; y1; mo; d]. change (len [y0; y1; mo; d]) with 4.
    cbn [Z.eqb mem existsb Pos.eqb orb negb].
    change (go_slice [y0; y1; mo; d] 0 2) with (Ret [y0; y1]). cbn [gbind]. rewrite Ey.
    change (go_index [y0; y1; mo; d] 2) with (Ret mo). change (go_index [y0; y1; mo; d] 3) with (Ret d).
    cbn [gbind]. rewrite date_parts by done. cbn [gbind].
    by repeat destruct Hc as [->|Hc]; [..|subst length].
  - change (take 7 _) with ([y0; y1; mo; d; h; mi; s] ++ []). apply datetime_clock; auto.
  - change (take 11 _) with ([y0; y1; mo; d; h; mi; s] ++ take 4 (le_bytes 4 us)).
    rewrite (take_ge (le_bytes 4 us)) by (rewrite le_bytes_length; lia). apply datetime_clock; auto.
Qed.

Lemma formatBinaryDateTime_text_witness :
  formatBinaryDateTime [228; 7; 2; 29; 23; 59; 8; 64; 226; 1; 0] 23 = Ret (inl (B "2020-02-29 23:59:08.123")).
Proof. exact (formatBinaryDateTime_text 11 2020 2 29 23 59 8 123456 23 ltac:(lia) ltac:(lia) ltac:(lia) ltac:(lia) ltac:(lia) ltac:(lia) ltac:(lia) ltac:(auto) eq_refl). Defined.

(** A time of day or a duration: the sign, the hours of the days and of the clock, minutes,
    seconds and the fraction; in binary 8 or 12 bytes *)
Definition hours_text (hours : Z) : bytes := if hours <? 100 then dec2 hours else Itoa hours.
Definition duration_text (negative : bool) (days h mi s : Z) : bytes :=
  (if negative then B "-" else []) ++ hours_text (24 * days + h) ++ B ":" ++ dec2 mi ++ B ":" ++ dec2 s.
Definition duration_packet (k : nat) (negative : bool) (days h mi s us : Z) : bytes :=
  take k (((if negative then 1 else 0) :: le_bytes 4 days ++ [h; mi; s]) ++ le_bytes 4 us).
(** The digits of the fraction a column has *)
Definition cut_fraction (decimals us : Z) : bytes :=
  if mem decimals [1; 2; 3; 4; 5; 6] then take (Z.to_nat (decimals + 1)) (fraction us) else [].

Lemma formatBinaryTime_text k negative days h mi s us decimals :
  0 ≤ days < 2 ^ 32 → 0 ≤ h → 0 ≤ mi < 100 → 0 ≤ s < 100 → 0 ≤ us < 1000000 → (k = 8%nat ∧ us = 0) ∨ k = 12%nat →
  mem decimals [0; 1; 2; 3; 4; 5; 6] = true →
  formatBinaryTime (duration_packet k negative days h mi s us) (if decimals =? 0 then 8 else 9 + decimals)
  = Ret (inl (duration_text negative days h mi s ++ cut_fraction decimals us)).
Proof.
  intros Hd Hh Hmi Hs Hus Hk Hdec. set (l := if decimals =? 0 then 8 else 9 + decimals).
  set (hd := (if negative then 1 else 0) :: le_bytes 4 days ++ [h; mi; s]).
  assert (∃ fr, duration_packet k negative days h mi s us = hd ++ fr ∧ (fr = [] ∧ us = 0 ∨ fr = le_bytes 4 us)) as (fr & -> & Hfr).
  { unfold duration_packet. fold hd. destruct Hk as [[-> ->]| ->]; [exists []; by split; [|left]|]. exists (le_bytes 4 us). split; [done|by right]. }
  assert (len fr = 0 ∨ len fr = 4) as Hfl by (destruct Hfr as [[-> _]| ->]; [by left|right; apply len_le_bytes]).
  assert (len (hd ++ fr) = 8 + len fr) as El by (rewrite len_app; done).
  unfold formatBinaryTime. rewrite El, (proj2 (Z.eqb_neq _ 0)) by lia.
  assert (decimals = 0 ∨ 1 ≤ decimals ≤ 6) as Hc by (unfold mem in Hdec; simpl in Hdec; lia).
  replace (mem l [8; 10; 11; 12; 13; 14; 15]) with true by (unfold mem, l; destruct (Z.eqb_spec decimals 0); simpl; lia).
  replace (mem (8 + len fr) [8; 12]) with true by (unfold mem; simpl; lia). cbn [negb].
  assert (∀ i x, hd !! Z.to_nat i = Some x → 0 ≤ i < 8 → go_index (hd ++ fr) i = Ret x) as Hix.
  { intros i x Hx Hi. unfold go_index. rewrite El. replace (_ && _) with true by lia. by rewrite lookup_app_l, Hx by (simpl; lia). }
  rewrite (Hix 0 (if negative then 1 else 0)) by (done || lia). cbn [gbind].
  assert (go_slice (hd ++ fr) 1 5 = Ret (le_bytes 4 days)) as ->.
  { unfold hd. change (((if negative then 1 else 0) :: le_bytes 4 days ++ [h; mi; s]) ++ fr) with ([if negative then 1 else 0] ++ le_bytes 4 days ++ ([h; mi; s] ++ fr)).
    change 1 with (len [if negative then 1 else 0]) at 2. apply (go_slice_mid [if negative then 1 else 0] (le_bytes 4 days)). }
  cbn [gbind]. rewrite (Hix 5 h) by (done || lia). cbn [gbind]. rewrite le_uint_small by (simpl; lia).
  replace (days * 24 + h) with (24 * days + h) by lia.
  replace (if (if negative then 1 else 0) =? 1 then B "-" else []) with (if negative then B "-" else []) by (by destruct negative).
  set (sg := if negative then B "-" else []).
  assert ((if 100 <=? 24 * days + h then Ret (sg ++ Itoa (24 * days + h)) else parts sg [two_digits (24 * days + h)]) = Ret (sg ++ hours_text (24 * days + h))) as ->.
  { unfold hours_text. destruct (Z.leb_spec 100 (24 * days + h)), (Z.ltb_spec (24 * days + h) 100); try lia; [done|]. cbn [parts]. by rewrite two_digits_dec by lia. }
  cbn [gbind]. rewrite (Hix 6 mi), (Hix 7 s) by (done || lia). cbn [gbind parts]. rewrite !two_digits_dec by done. cbn [gbind].
  change 8 with (len hd) at 1. rewrite <- El, go_slice_tail. cbn [gbind]. unfold duration_text, cut_fraction, l. fold sg.
  destruct Hc as [->|Hc].
  - cbn [Z.eqb]. unfold appendMicrosecs. cbn. rewrite app_nil_r. by rewrite <- !(assoc_L (++)).
  - rewrite (proj2 (Z.eqb_neq decimals 0)) by lia. replace (9 + decimals - 9) with decimals by lia.
    rewrite (appendMicrosecs_text _ _ _ us) by (done || lia). cbn [gbind].
    replace (mem decimals [1; 2; 3; 4; 5; 6]) with true by (unfold mem; simpl; lia). by rewrite <- !(assoc_L (++)).
Qed.

(** A field out of range indexes past the digit tables. *)
Lemma formatBinaryDateTime_panics : formatBinaryDateTime [228; 7; 200; 1] 10 = Panic IndexOutOfRange.
Proof. reflexivity. Qed.

(** ** Decimal text of a 64-bit number *)

Lemma go_set_last i x (tail : bytes) v :
  go_set (replicate (S i) x ++ tail) (Z.of_nat i) v = Ret (replicate i x ++ v :: tail).
Proof.
  rewrite replicate_S_end, <- (assoc_L (++)). cbn [app].
  replace (Z.of_nat i) with (len (replicate i x)) by (unfold len; by rewrite length_replicate).
  apply go_set_mid.
Qed.

Lemma uint64ToString_loop_digits i : ∀ fuel n tail,
  (i < fuel)%nat → (0 < i)%nat → 0 ≤ n < 10 ^ Z.of_nat i →
  uint64ToString_loop fuel (replicate i 0 ++ tail) (Z.of_nat i) n = Ret (reverse (digits_rev i n) ++ tail).
Proof.
  induction i as [|i IH]; intros fuel n tail Hf Hi Hn; [lia|].
  destruct fuel as [|fuel]; [lia|]. cbn [uint64ToString_loop digits_rev].
  replace (Z.of_nat (S i) - 1) with (Z.of_nat i) by lia. rewrite !go_set_last. cbn [gbind].
  rewrite Nat2Z.inj_succ, Z.pow_succ_r in Hn by lia.
  pose proof (Z.mod_pos_bound n 10 ltac:(lia)). pose proof (Z.div_mod n 10 ltac:(lia)).
  pose proof (Z.div_pos n 10 ltac:(lia) ltac:(lia)).
  destruct (Z.leb_spec 10 n) as [Hge|Hlt].
  - rewrite (proj2 (Z.ltb_ge n 10)) by lia.
    replace (n - n / 10 * 10) with (n mod 10) by lia. unfold uwrap.
    rewrite (Z.mod_small (n mod 10)), (Z.mod_small (n mod 10 + 48)) by (simpl; lia).
    destruct i as [|i]; [simpl in Hn; lia|].
    rewrite IH by first [lia | split; [lia|apply Z.div_lt_upper_bound; lia]].
    rewrite reverse_cons, <- (assoc_L (++)), (Z.add_comm 48). done.
  - rewrite (proj2 (Z.ltb_lt n 10)) by lia. unfold uwrap.
    rewrite (Z.mod_small n (2 ^ 8)), (Z.mod_small (n + 48)) by (simpl; lia).
    replace (Z.of_nat i) with (len (replicate i 0)) by (unfold len; by rewrite length_replicate).
    rewrite go_slice_tail, (Z.mod_small n 10), (Z.add_comm 48) by lia. done.
Qed.

(** [uint64ToString] is [strconv.FormatUint]. *)
Lemma uint64ToString_Itoa n : uint_ok 64 n → uint64ToString n = Ret (Itoa n).
Proof.
  intros [H0 H1]. unfold uint64ToString.
  replace (replicate 20 0) with (replicate 20 0 ++ []) by apply app_nil_r.
  rewrite (uint64ToString_loop_digits 20) by (simpl in *; lia).
  unfold Itoa. by rewrite app_nil_r, (proj2 (Z.ltb_ge n 0)).
Qed.
