(* ===== verification/MysqlDsn.v ===== *)
(** * [mysql/dsn.go]: data source names

    A DSN [user:password@net(addr)/dbname?params] is parsed to a [Config] and formatted from
    one.  Time zones, [time.Duration] and its text, the registries of TLS configurations and
    of public keys are parameters. *)

From S2P Require Import Prelude GoStrings GoNet MysqlUtils.

(** ** Library functions *)

(** [url.QueryEscape] *)
Definition unreserved (c : Z) : bool :=
  ((97 <=? c) && (c <=? 122)) || ((65 <=? c) && (c <=? 90)) || ((48 <=? c) && (c <=? 57)) ||
  (c =? chr "-") || (c =? chr "_") || (c =? chr ".") || (c =? chr "~").
Definition upperhex (n : Z) : Z := if n <? 10 then 48 + n else 55 + n.
Definition escape_byte (c : Z) : bytes :=
  if c =? 32 then B "+" else if unreserved c then [c] else [37; upperhex (c / 16); upperhex (c mod 16)].
Definition QueryEscape (s : bytes) : bytes := s ≫= escape_byte.

(** [url.QueryUnescape] *)
Definition unhex (c : Z) : option Z :=
  if (48 <=? c) && (c <=? 57) then Some (c - 48)
  else if (97 <=? c) && (c <=? 102) then Some (c - 87)
  else if (65 <=? c) && (c <=? 70) then Some (c - 55)
  else None.
Fixpoint QueryUnescape (s : bytes) : option bytes :=
  match s with
  | [] => Some []
  | c :: t =>
      if c =? 37 then
        match t with
        | a :: b :: u =>
            match unhex a, unhex b with
            | Some x, Some y => (fun r => x * 16 + y :: r) <$> QueryUnescape u
            | _, _ => None
            end
        | _ => None
        end
      else (fun r => (if c =? 43 then 32 else c) :: r) <$> QueryUnescape t
  end.

(** [strings.SplitN(v, "=", 2)], [None] when there is one part only *)
Definition split_eq (v : bytes) : option (bytes * bytes) :=
  let k := index_in v (chr "=") in
  if k =? len v then None else Some (sub v 0 k, sub v (k + 1) (len v)).

(** ** The configuration *)

(** What the driver sets of a [tls.Config] *)
Record tls_config := mk_tls { InsecureSkipVerify : bool; ServerName : bytes }.

Inductive dsn_error :=
| errInvalidDSNUnescaped | errInvalidDSNAddr | errInvalidDSNNoSlash | errInvalidDSNUnsafeCollation
| ErrDefaultAddr (net : bytes) | ErrUnknownTLS (name : bytes) | ErrUnknownPubKey (name : bytes)
| ErrInvalidBool (value : bytes) | ErrCompression | ErrUnescape (value : bytes) | ErrLocation (name : bytes)
| ErrDuration (value : bytes) | ErrInteger (value : bytes).

Definition defaultCollation : bytes := B "utf8mb4_general_ci".
Definition defaultMaxAllowedPacket : Z := 4 * 2 ^ 20.
Definition unsafeCollations : list bytes :=
  [B "big5_chinese_ci";
   B "sjis_japanese_ci";
   B "gbk_chinese_ci";
   B "big5_bin";
   B "gb2312_bin";
   B "gbk_bin";
   B "sjis_bin";
   B "cp932_japanese_ci";
   B "cp932_bin";
   B "gb18030_chinese_ci";
   B "gb18030_bin";
   B "gb18030_unicode_520_ci"].

Section dsn.
(** [*time.Location], [*rsa.PublicKey] *)
Context {L K : Type} `{!EqDecision L} (UTC : L) (LoadLocation : bytes → option L) (loc_String : L → bytes).
Context (ParseDuration : bytes → option Z) (duration_String : Z → bytes).
(** [getTLSConfigClone], [getServerPubKey] *)
Context (tls_registry : bytes → option tls_config) (key_registry : bytes → option K).
Context `{UnicodeTables}.

(** [type Config struct]; [None] is the nil map of [Params] and the nil pointer of [Loc]. *)
Record Config := mk_Config {
  User : bytes; Passwd : bytes; Net : bytes; Addr : bytes; DBName : bytes;
  Params : option (gmap bytes bytes); Collation : bytes; Loc : option L; MaxAllowedPacket : Z; ServerPubKey : bytes;
  pubKey : option K; TLSConfig : bytes; tls : option tls_config; Timeout : Z; ReadTimeout : Z;
  WriteTimeout : Z; AllowAllFiles : bool; AllowCleartextPasswords : bool; AllowNativePasswords : bool; AllowOldPasswords : bool;
  ClientFoundRows : bool; ColumnsWithAlias : bool; InterpolateParams : bool; MultiStatements : bool; ParseTime : bool;
  RejectReadOnly : bool }.

Definition set_User (v : bytes) (c : Config) : Config :=
  mk_Config v (Passwd c) (Net c) (Addr c) (DBName c) (Params c) (Collation c) (Loc c)
    (MaxAllowedPacket c) (ServerPubKey c) (pubKey c) (TLSConfig c) (tls c) (Timeout c) (ReadTimeout
    c) (WriteTimeout c) (AllowAllFiles c) (AllowCleartextPasswords c) (AllowNativePasswords c)
    (AllowOldPasswords c) (ClientFoundRows c) (ColumnsWithAlias c) (InterpolateParams c)
    (MultiStatements c) (ParseTime c) (RejectReadOnly c).
Definition set_Passwd (v : bytes) (c : Config) : Config :=
  mk_Config (User c) v (Net c) (Addr c) (DBName c) (Params c) (Collation c) (Loc c)
    (MaxAllowedPacket c) (ServerPubKey c) (pubKey c) (TLSConfig c) (tls c) (Timeout c) (ReadTimeout
    c) (WriteTimeout c) (AllowAllFiles c) (AllowCleartextPasswords c) (AllowNativePasswords c)
    (AllowOldPasswords c) (ClientFoundRows c) (ColumnsWithAlias c) (InterpolateParams c)
    (MultiStatements c) (ParseTime c) (RejectReadOnly c).
Definition set_Net (v : bytes) (c : Config) : Config :=
  mk_Config (User c) (Passwd c) v (Addr c) (DBName c) (Params c) (Collation c) (Loc c)
    (MaxAllowedPacket c) (ServerPubKey c) (pubKey c) (TLSConfig c) (tls c) (Timeout c) (ReadTimeout
    c) (WriteTimeout c) (AllowAllFiles c) (AllowCleartextPasswords c) (AllowNativePasswords c)
    (AllowOldPasswords c) (ClientFoundRows c) (ColumnsWithAlias c) (InterpolateParams c)
    (MultiStatements c) (ParseTime c) (RejectReadOnly c).
Definition set_Addr (v : bytes) (c : Config) : Config :=
  mk_Config (User c) (Passwd c) (Net c) v (DBName c) (Params c) (Collation c) (Loc c)
    (MaxAllowedPacket c) (ServerPubKey c) (pubKey c) (TLSConfig c) (tls c) (Timeout c) (ReadTimeout
    c) (WriteTimeout c) (AllowAllFiles c) (AllowCleartextPasswords c) (AllowNativePasswords c)
    (AllowOldPasswords c) (ClientFoundRows c) (ColumnsWithAlias c) (InterpolateParams c)
    (MultiStatements c) (ParseTime c) (RejectReadOnly c).
Definition set_DBName (v : bytes) (c : Config) : Config :=
  mk_Config (User c) (Passwd c) (Net c) (Addr c) v (Params c) (Collation c) (Loc c)
    (MaxAllowedPacket c) (ServerPubKey c) (pubKey c) (TLSConfig c) (tls c) (Timeout c) (ReadTimeout
    c) (WriteTimeout c) (AllowAllFiles c) (AllowCleartextPasswords c) (AllowNativePasswords c)
    (AllowOldPasswords c) (ClientFoundRows c) (ColumnsWithAlias c) (InterpolateParams c)
    (MultiStatements c) (ParseTime c) (RejectReadOnly c).
Definition set_Params (v : option (gmap bytes bytes)) (c : Config) : Config :=
  mk_Config (User c) (Passwd c) (Net c) (Addr c) (DBName c) v (Collation c) (Loc c)
    (MaxAllowedPacket c) (ServerPubKey c) (pubKey c) (TLSConfig c) (tls c) (Timeout c) (ReadTimeout
    c) (WriteTimeout c) (AllowAllFiles c) (AllowCleartextPasswords c) (AllowNativePasswords c)
    (AllowOldPasswords c) (ClientFoundRows c) (ColumnsWithAlias c) (InterpolateParams c)
    (MultiStatements c) (ParseTime c) (RejectReadOnly c).
Definition set_Collation (v : bytes) (c : Config) : Config :=
  mk_Config (User c) (Passwd c) (Net c) (Addr c) (DBName c) (Params c) v (Loc c) (MaxAllowedPacket
    c) (ServerPubKey c) (pubKey c) (TLSConfig c) (tls c) (Timeout c) (ReadTimeout c) (WriteTimeout
    c) (AllowAllFiles c) (AllowCleartextPasswords c) (AllowNativePasswords c) (AllowOldPasswords c)
    (ClientFoundRows c) (ColumnsWithAlias c) (InterpolateParams c) (MultiStatements c) (ParseTime c)
    (RejectReadOnly c).
Definition set_Loc (v : option L) (c : Config) : Config :=
  mk_Config (User c) (Passwd c) (Net c) (Addr c) (DBName c) (Params c) (Collation c) v
    (MaxAllowedPacket c) (ServerPubKey c) (pubKey c) (TLSConfig c) (tls c) (Timeout c) (ReadTimeout
    c) (WriteTimeout c) (AllowAllFiles c) (AllowCleartextPasswords c) (AllowNativePasswords c)
    (AllowOldPasswords c) (ClientFoundRows c) (ColumnsWithAlias c) (InterpolateParams c)
    (MultiStatements c) (ParseTime c) (RejectReadOnly c).
Definition set_MaxAllowedPacket (v : Z) (c : Config) : Config :=
  mk_Config (User c) (Passwd c) (Net c) (Addr c) (DBName c) (Params c) (Collation c) (Loc c) v
    (ServerPubKey c) (pubKey c) (TLSConfig c) (tls c) (Timeout c) (ReadTimeout c) (WriteTimeout c)
    (AllowAllFiles c) (AllowCleartextPasswords c) (AllowNativePasswords c) (AllowOldPasswords c)
    (ClientFoundRows c) (ColumnsWithAlias c) (InterpolateParams c) (MultiStatements c) (ParseTime c)
    (RejectReadOnly c).
Definition set_ServerPubKey (v : bytes) (c : Config) : Config :=
  mk_Config (User c) (Passwd c) (Net c) (Addr c) (DBName c) (Params c) (Collation c) (Loc c)
    (MaxAllowedPacket c) v (pubKey c) (TLSConfig c) (tls c) (Timeout c) (ReadTimeout c)
    (WriteTimeout c) (AllowAllFiles c) (AllowCleartextPasswords c) (AllowNativePasswords c)
    (AllowOldPasswords c) (ClientFoundRows c) (ColumnsWithAlias c) (InterpolateParams c)
    (MultiStatements c) (ParseTime c) (RejectReadOnly c).
Definition set_pubKey (v : option K) (c : Config) : Config :=
  mk_Config (User c) (Passwd c) (Net c) (Addr c) (DBName c) (Params c) (Collation c) (Loc c)
    (MaxAllowedPacket c) (ServerPubKey c) v (TLSConfig c) (tls c) (Timeout c) (ReadTimeout c)
    (WriteTimeout c) (AllowAllFiles c) (AllowCleartextPasswords c) (AllowNativePasswords c)
    (AllowOldPasswords c) (ClientFoundRows c) (ColumnsWithAlias c) (InterpolateParams c)
    (MultiStatements c) (ParseTime c) (RejectReadOnly c).
Definition set_TLSConfig (v : bytes) (c : Config) : Config :=
  mk_Config (User c) (Passwd c) (Net c) (Addr c) (DBName c) (Params c) (Collation c) (Loc c)
    (MaxAllowedPacket c) (ServerPubKey c) (pubKey c) v (tls c) (Timeout c) (ReadTimeout c)
    (WriteTimeout c) (AllowAllFiles c) (AllowCleartextPasswords c) (AllowNativePasswords c)
    (AllowOldPasswords c) (ClientFoundRows c) (ColumnsWithAlias c) (InterpolateParams c)
    (MultiStatements c) (ParseTime c) (RejectReadOnly c).
Definition set_tls (v : option tls_config) (c : Config) : Config :=
  mk_Config (User c) (Passwd c) (Net c) (Addr c) (DBName c) (Params c) (Collation c) (Loc c)
    (MaxAllowedPacket c) (ServerPubKey c) (pubKey c) (TLSConfig c) v (Timeout c) (ReadTimeout c)
    (WriteTimeout c) (AllowAllFiles c) (AllowCleartextPasswords c) (AllowNativePasswords c)
    (AllowOldPasswords c) (ClientFoundRows c) (ColumnsWithAlias c) (InterpolateParams c)
    (MultiStatements c) (ParseTime c) (RejectReadOnly c).
Definition set_Timeout (v : Z) (c : Config) : Config :=
  mk_Config (User c) (Passwd c) (Net c) (Addr c) (DBName c) (Params c) (Collation c) (Loc c)
    (MaxAllowedPacket c) (ServerPubKey c) (pubKey c) (TLSConfig c) (tls c) v (ReadTimeout c)
    (WriteTimeout c) (AllowAllFiles c) (AllowCleartextPasswords c) (AllowNativePasswords c)
    (AllowOldPasswords c) (ClientFoundRows c) (ColumnsWithAlias c) (InterpolateParams c)
    (MultiStatements c) (ParseTime c) (RejectReadOnly c).
Definition set_ReadTimeout (v : Z) (c : Config) : Config :=
  mk_Config (User c) (Passwd c) (Net c) (Addr c) (DBName c) (Params c) (Collation c) (Loc c)
    (MaxAllowedPacket c) (ServerPubKey c) (pubKey c) (TLSConfig c) (tls c) (Timeout c) v
    (WriteTimeout c) (AllowAllFiles c) (AllowCleartextPasswords c) (AllowNativePasswords c)
    (AllowOldPasswords c) (ClientFoundRows c) (ColumnsWithAlias c) (InterpolateParams c)
    (MultiStatements c) (ParseTime c) (RejectReadOnly c).
Definition set_WriteTimeout (v : Z) (c : Config) : Config :=
  mk_Config (User c) (Passwd c) (Net c) (Addr c) (DBName c) (Params c) (Collation c) (Loc c)
    (MaxAllowedPacket c) (ServerPubKey c) (pubKey c) (TLSConfig c) (tls c) (Timeout c) (ReadTimeout
    c) v (AllowAllFiles c) (AllowCleartextPasswords c) (AllowNativePasswords c) (AllowOldPasswords
    c) (ClientFoundRows c) (ColumnsWithAlias c) (InterpolateParams c) (MultiStatements c) (ParseTime
    c) (RejectReadOnly c).
Definition set_AllowAllFiles (v : bool) (c : Config) : Config :=
  mk_Config (User c) (Passwd c) (Net c) (Addr c) (DBName c) (Params c) (Collation c) (Loc c)
    (MaxAllowedPacket c) (ServerPubKey c) (pubKey c) (TLSConfig c) (tls c) (Timeout c) (ReadTimeout
    c) (WriteTimeout c) v (AllowCleartextPasswords c) (AllowNativePasswords c) (AllowOldPasswords c)
    (ClientFoundRows c) (ColumnsWithAlias c) (InterpolateParams c) (MultiStatements c) (ParseTime c)
    (RejectReadOnly c).
Definition set_AllowCleartextPasswords (v : bool) (c : Config) : Config :=
  mk_Config (User c) (Passwd c) (Net c) (Addr c) (DBName c) (Params c) (Collation c) (Loc c)
    (MaxAllowedPacket c) (ServerPubKey c) (pubKey c) (TLSConfig c) (tls c) (Timeout c) (ReadTimeout
    c) (WriteTimeout c) (AllowAllFiles c) v (AllowNativePasswords c) (AllowOldPasswords c)
    (ClientFoundRows c) (ColumnsWithAlias c) (InterpolateParams c) (MultiStatements c) (ParseTime c)
    (RejectReadOnly c).
Definition set_AllowNativePasswords (v : bool) (c : Config) : Config :=
  mk_Config (User c) (Passwd c) (Net c) (Addr c) (DBName c) (Params c) (Collation c) (Loc c)
    (MaxAllowedPacket c) (ServerPubKey c) (pubKey c) (TLSConfig c) (tls c) (Timeout c) (ReadTimeout
    c) (WriteTimeout c) (AllowAllFiles c) (AllowCleartextPasswords c) v (AllowOldPasswords c)
    (ClientFoundRows c) (ColumnsWithAlias c) (InterpolateParams c) (MultiStatements c) (ParseTime c)
    (RejectReadOnly c).
Definition set_AllowOldPasswords (v : bool) (c : Config) : Config :=
  mk_Config (User c) (Passwd c) (Net c) (Addr c) (DBName c) (Params c) (Collation c) (Loc c)
    (MaxAllowedPacket c) (ServerPubKey c) (pubKey c) (TLSConfig c) (tls c) (Timeout c) (ReadTimeout
    c) (WriteTimeout c) (AllowAllFiles c) (AllowCleartextPasswords c) (AllowNativePasswords c) v
    (ClientFoundRows c) (ColumnsWithAlias c) (InterpolateParams c) (MultiStatements c) (ParseTime c)
    (RejectReadOnly c).
Definition set_ClientFoundRows (v : bool) (c : Config) : Config :=
  mk_Config (User c) (Passwd c) (Net c) (Addr c) (DBName c) (Params c) (Collation c) (Loc c)
    (MaxAllowedPacket c) (ServerPubKey c) (pubKey c) (TLSConfig c) (tls c) (Timeout c) (ReadTimeout
    c) (WriteTimeout c) (AllowAllFiles c) (AllowCleartextPasswords c) (AllowNativePasswords c)
    (AllowOldPasswords c) v (ColumnsWithAlias c) (InterpolateParams c) (MultiStatements c)
    (ParseTime c) (RejectReadOnly c).
Definition set_ColumnsWithAlias (v : bool) (c : Config) : Config :=
  mk_Config (User c) (Passwd c) (Net c) (Addr c) (DBName c) (Params c) (Collation c) (Loc c)
    (MaxAllowedPacket c) (ServerPubKey c) (pubKey c) (TLSConfig c) (tls c) (Timeout c) (ReadTimeout
    c) (WriteTimeout c) (AllowAllFiles c) (AllowCleartextPasswords c) (AllowNativePasswords c)
    (AllowOldPasswords c) (ClientFoundRows c) v (InterpolateParams c) (MultiStatements c) (ParseTime
    c) (RejectReadOnly c).
Definition set_InterpolateParams (v : bool) (c : Config) : Config :=
  mk_Config (User c) (Passwd c) (Net c) (Addr c) (DBName c) (Params c) (Collation c) (Loc c)
    (MaxAllowedPacket c) (ServerPubKey c) (pubKey c) (TLSConfig c) (tls c) (Timeout c) (ReadTimeout
    c) (WriteTimeout c) (AllowAllFiles c) (AllowCleartextPasswords c) (AllowNativePasswords c)
    (AllowOldPasswords c) (ClientFoundRows c) (ColumnsWithAlias c) v (MultiStatements c) (ParseTime
    c) (RejectReadOnly c).
Definition set_MultiStatements (v : bool) (c : Config) : Config :=
  mk_Config (User c) (Passwd c) (Net c) (Addr c) (DBName c) (Params c) (Collation c) (Loc c)
    (MaxAllowedPacket c) (ServerPubKey c) (pubKey c) (TLSConfig c) (tls c) (Timeout c) (ReadTimeout
    c) (WriteTimeout c) (AllowAllFiles c) (AllowCleartextPasswords c) (AllowNativePasswords c)
    (AllowOldPasswords c) (ClientFoundRows c) (ColumnsWithAlias c) (InterpolateParams c) v
    (ParseTime c) (RejectReadOnly c).
Definition set_ParseTime (v : bool) (c : Config) : Config :=
  mk_Config (User c) (Passwd c) (Net c) (Addr c) (DBName c) (Params c) (Collation c) (Loc c)
    (MaxAllowedPacket c) (ServerPubKey c) (pubKey c) (TLSConfig c) (tls c) (Timeout c) (ReadTimeout
    c) (WriteTimeout c) (AllowAllFiles c) (AllowCleartextPasswords c) (AllowNativePasswords c)
    (AllowOldPasswords c) (ClientFoundRows c) (ColumnsWithAlias c) (InterpolateParams c)
    (MultiStatements c) v (RejectReadOnly c).
Definition set_RejectReadOnly (v : bool) (c : Config) : Config :=
  mk_Config (User c) (Passwd c) (Net c) (Addr c) (DBName c) (Params c) (Collation c) (Loc c)
    (MaxAllowedPacket c) (ServerPubKey c) (pubKey c) (TLSConfig c) (tls c) (Timeout c) (ReadTimeout
    c) (WriteTimeout c) (AllowAllFiles c) (AllowCleartextPasswords c) (AllowNativePasswords c)
    (AllowOldPasswords c) (ClientFoundRows c) (ColumnsWithAlias c) (InterpolateParams c)
    (MultiStatements c) (ParseTime c) v.

(** [func NewConfig() *Config] *)
Definition NewConfig : Config :=
  mk_Config [] [] [] [] [] None defaultCollation (Some UTC) defaultMaxAllowedPacket [] None [] None 0 0 0
    false false true false false false false false false false.

(** [func ensureHavePort(addr string) string] *)
Definition ensureHavePort (addr : bytes) : bytes :=
  match SplitHostPort addr with None => JoinHostPort addr (B "3306") | Some _ => addr end.

(** The address [normalize] leaves *)
Definition normal_addr (net addr : bytes) : bytes + dsn_error :=
  if beq addr [] then
    if beq net (B "tcp") then inl (B "127.0.0.1:3306")
    else if beq net (B "unix") then inl (B "/tmp/mysql.sock")
    else inr (ErrDefaultAddr net)
  else if beq net (B "tcp") then inl (ensureHavePort addr)
  else inl addr.

(** The TLS configuration [normalize] selects by name, before and after the server name is
    filled in *)
Definition select_tls (name : bytes) (current : option tls_config) : option tls_config + dsn_error :=
  if beq name (B "false") || beq name [] then inl current
  else if beq name (B "true") then inl (Some (mk_tls false []))
  else if beq name (B "skip-verify") || beq name (B "preferred") then inl (Some (mk_tls true []))
  else match tls_registry name with Some t => inl (Some t) | None => inr (ErrUnknownTLS name) end.
Definition name_server (addr : bytes) (t : tls_config) : tls_config :=
  if beq (ServerName t) [] && negb (InsecureSkipVerify t) then
    match SplitHostPort addr with Some (host, _) => mk_tls (InsecureSkipVerify t) host | None => t end
  else t.

(** [func (cfg *Config) normalize() error] *)
Definition normalize (cfg : Config) : Config + dsn_error :=
  if InterpolateParams cfg && existsb (beq (Collation cfg)) unsafeCollations then inr errInvalidDSNUnsafeCollation
  else
    let cfg := if beq (Net cfg) [] then set_Net (B "tcp") cfg else cfg in
    match normal_addr (Net cfg) (Addr cfg) with
    | inr e => inr e
    | inl addr =>
        let cfg := set_Addr addr cfg in
        match select_tls (TLSConfig cfg) (tls cfg) with
        | inr e => inr e
        | inl t =>
            let cfg := set_tls (name_server addr <$> t) cfg in
            if beq (ServerPubKey cfg) [] then inl cfg
            else match key_registry (ServerPubKey cfg) with
                 | None => inr (ErrUnknownPubKey (ServerPubKey cfg))
                 | Some k => inl (set_pubKey (Some k) cfg)
                 end
        end
    end.

(** ** Formatting *)

(** [if hasParam { "&..." } else { "?..." }] when the option is set *)
Definition add_param (cond : bool) (text : bytes) (st : bytes * bool) : bytes * bool :=
  if cond then (st.1 ++ (if st.2 : bool then B "&" else B "?") ++ text, true) else st.

(** The options in the order they are written *)
Definition format_options (cfg : Config) : list (bool * bytes) :=
  [(AllowAllFiles cfg, B "allowAllFiles=true");
   (AllowCleartextPasswords cfg, B "allowCleartextPasswords=true");
   (negb (AllowNativePasswords cfg), B "allowNativePasswords=false");
   (AllowOldPasswords cfg, B "allowOldPasswords=true");
   (ClientFoundRows cfg, B "clientFoundRows=true");
   (negb (beq (Collation cfg) defaultCollation) && negb (beq (Collation cfg) []), B "collation=" ++ Collation cfg);
   (ColumnsWithAlias cfg, B "columnsWithAlias=true");
   (InterpolateParams cfg, B "interpolateParams=true");
   (match Loc cfg with Some l => negb (bool_decide (l = UTC)) | None => false end,
    B "loc=" ++ match Loc cfg with Some l => QueryEscape (loc_String l) | None => [] end);
   (MultiStatements cfg, B "multiStatements=true");
   (ParseTime cfg, B "parseTime=true");
   (0 <? ReadTimeout cfg, B "readTimeout=" ++ duration_String (ReadTimeout cfg));
   (RejectReadOnly cfg, B "rejectReadOnly=true");
   (negb (beq (ServerPubKey cfg) []), B "serverPubKey=" ++ QueryEscape (ServerPubKey cfg));
   (0 <? Timeout cfg, B "timeout=" ++ duration_String (Timeout cfg));
   (negb (beq (TLSConfig cfg) []), B "tls=" ++ QueryEscape (TLSConfig cfg));
   (0 <? WriteTimeout cfg, B "writeTimeout=" ++ duration_String (WriteTimeout cfg));
   (negb (MaxAllowedPacket cfg =? defaultMaxAllowedPacket), B "maxAllowedPacket=" ++ Itoa (MaxAllowedPacket cfg))].

(** The other parameters, by name *)
Definition format_params (m : option (gmap bytes bytes)) : list (bool * bytes) :=
  match m with
  | None => []
  | Some m =>
      map (fun k => (true, k ++ B "=" ++ QueryEscape (default [] (m !! k))))
        (merge_sort bytes_le (map fst (map_to_list m)))
  end.

(** [func (cfg *Config) FormatDSN() string] *)
Definition FormatDSN (cfg : Config) : bytes :=
  let buf :=
    (if 0 <? len (User cfg) then
       User cfg ++ (if 0 <? len (Passwd cfg) then B ":" ++ Passwd cfg else []) ++ B "@"
     else []) ++
    (if 0 <? len (Net cfg) then
       Net cfg ++ (if 0 <? len (Addr cfg) then B "(" ++ Addr cfg ++ B ")" else [])
     else []) ++
    B "/" ++ DBName cfg in
  (foldl (fun st o => add_param o.1 o.2 st) (buf, false) (format_options cfg ++ format_params (Params cfg))).1.

(** ** Parsing *)

Definition with_bool (set : bool → Config → Config) (value : bytes) (cfg : Config) : Config + dsn_error :=
  let (v, isBool) := readBool value in if isBool then inl (set v cfg) else inr (ErrInvalidBool value).
Definition with_duration (set : Z → Config → Config) (value : bytes) (cfg : Config) : Config + dsn_error :=
  match ParseDuration value with Some d => inl (set d cfg) | None => inr (ErrDuration value) end.

(** The value of [tls] *)
Definition tls_value (value : bytes) : option bytes :=
  let (v, isBool) := readBool value in
  if isBool then Some (if v then B "true" else B "false")
  else
    let vl := ToLower value in
    if beq vl (B "skip-verify") || beq vl (B "preferred") then Some vl else QueryUnescape value.

(** The switch of [parseDSNParams]: what one parameter does *)
Definition parse_param (name value : bytes) (cfg : Config) : Go (Config + dsn_error) :=
  if beq name (B "allowAllFiles") then Ret (with_bool set_AllowAllFiles value cfg)
  else if beq name (B "allowCleartextPasswords") then Ret (with_bool set_AllowCleartextPasswords value cfg)
  else if beq name (B "allowNativePasswords") then Ret (with_bool set_AllowNativePasswords value cfg)
  else if beq name (B "allowOldPasswords") then Ret (with_bool set_AllowOldPasswords value cfg)
  else if beq name (B "clientFoundRows") then Ret (with_bool set_ClientFoundRows value cfg)
  else if beq name (B "collation") then Ret (inl (set_Collation value cfg))
  else if beq name (B "columnsWithAlias") then Ret (with_bool set_ColumnsWithAlias value cfg)
  else if beq name (B "compress") then Ret (inr ErrCompression)
  else if beq name (B "interpolateParams") then Ret (with_bool set_InterpolateParams value cfg)
  else if beq name (B "loc") then
    match QueryUnescape value with
    | None => Ret (inr (ErrUnescape value))
    | Some v => match LoadLocation v with
                | Some l => Ret (inl (set_Loc (Some l) cfg))
                | None => Ret (inr (ErrLocation v))
                end
    end
  else if beq name (B "multiStatements") then Ret (with_bool set_MultiStatements value cfg)
  else if beq name (B "parseTime") then Ret (with_bool set_ParseTime value cfg)
  else if beq name (B "readTimeout") then Ret (with_duration set_ReadTimeout value cfg)
  else if beq name (B "rejectReadOnly") then Ret (with_bool set_RejectReadOnly value cfg)
  else if beq name (B "serverPubKey") then
    match QueryUnescape value with
    | None => Ret (inr (ErrUnescape value))
    | Some v => Ret (inl (set_ServerPubKey v cfg))
    end
  else if beq name (B "strict") then Panic ExplicitPanic
  else if beq name (B "timeout") then Ret (with_duration set_Timeout value cfg)
  else if beq name (B "tls") then
    match tls_value value with
    | None => Ret (inr (ErrUnescape value))
    | Some v => Ret (inl (set_TLSConfig v cfg))
    end
  else if beq name (B "writeTimeout") then Ret (with_duration set_WriteTimeout value cfg)
  else if beq name (B "maxAllowedPacket") then
    let (n, e) := Atoi value in
    match e with None => Ret (inl (set_MaxAllowedPacket n cfg)) | Some _ => Ret (inr (ErrInteger value)) end
  else
    match QueryUnescape value with
    | None => Ret (inr (ErrUnescape value))
    | Some v => Ret (inl (set_Params (Some (<[name := v]> (default ∅ (Params cfg)))) cfg))
    end.

(** [func parseDSNParams(cfg *Config, params string) (err error)] *)
Fixpoint parse_params (l : list bytes) (cfg : Config) : Go (Config + dsn_error) :=
  match l with
  | [] => Ret (inl cfg)
  | v :: l =>
      match split_eq v with
      | None => parse_params l cfg
      | Some (name, value) =>
          let* r := parse_param name value cfg in
          match r with inl cfg => parse_params l cfg | inr e => Ret (inr e) end
      end
  end.
Definition parseDSNParams (cfg : Config) (params : bytes) : Go (Config + dsn_error) :=
  parse_params (SplitByte params (chr "&")) cfg.

(** [username[:password]@], left of the last slash, at [i]: the offset of the last [@], or -1 *)
Definition parse_user (dsn : bytes) (i : Z) (cfg : Config) : Go (Z * Config) :=
  let* lhs := go_slice dsn 0 i in
  let j := last_in lhs (chr "@") in
  if 0 <=? j then
    let* userinfo := go_slice dsn 0 j in
    let k := index_in userinfo (chr ":") in
    let* cfg := if k <? j then let* p := go_slice dsn (k + 1) j in Ret (set_Passwd p cfg) else Ret cfg in
    let* u := go_slice dsn 0 k in Ret (j, set_User u cfg)
  else Ret (j, cfg).

(** [protocol[(address)]], between them *)
Definition parse_protocol (dsn : bytes) (j i : Z) (cfg : Config) : Go (Config + dsn_error) :=
  let* protocol := go_slice dsn (j + 1) i in
  let k := j + 1 + index_in protocol (chr "(") in
  let* r :=
    if k <? i then
      let* c := go_index dsn (i - 1) in
      if negb (c =? chr ")") then
        let* a := go_slice dsn (k + 1) i in
        Ret (inr (if contains a (chr ")") then errInvalidDSNUnescaped else errInvalidDSNAddr))
      else let* a := go_slice dsn (k + 1) (i - 1) in Ret (inl (set_Addr a cfg))
    else Ret (inl cfg) in
  match r with
  | inr e => Ret (inr e)
  | inl cfg => let* n := go_slice dsn (j + 1) k in Ret (inl (set_Net n cfg))
  end.

Definition parse_left (dsn : bytes) (i : Z) (cfg : Config) : Go (Config + dsn_error) :=
  let* (j, cfg) := parse_user dsn i cfg in parse_protocol dsn j i cfg.

(** [func ParseDSN(dsn string) (cfg *Config, err error)]; the configuration that comes with
    an error of the parameters is left out. *)
Definition ParseDSN (dsn : bytes) : Go (Config + dsn_error) :=
  let i := last_in dsn (chr "/") in
  let* r :=
    if 0 <=? i then
      let* r := if 0 <? i then parse_left dsn i NewConfig else Ret (inl NewConfig) in
      match r with
      | inr e => Ret (inr e)
      | inl cfg =>
          let* rest := go_slice dsn (i + 1) (len dsn) in
          let j := i + 1 + index_in rest (chr "?") in
          let* r :=
            if j <? len dsn then let* params := go_slice dsn (j + 1) (len dsn) in parseDSNParams cfg params
            else Ret (inl cfg) in
          match r with
          | inr e => Ret (inr e)
          | inl cfg => let* d := go_slice dsn (i + 1) j in Ret (inl (set_DBName d cfg))
          end
      end
    else if 0 <? len dsn then Ret (inr errInvalidDSNNoSlash)
    else Ret (inl NewConfig) in
  match r with inr e => Ret (inr e) | inl cfg => Ret (normalize cfg) end.

End dsn.
