(* ===== verification/MysqlDsnProps.v ===== *)
(** * Data source names: round trip, and the one the program builds *)

From S2P Require Import Prelude GoStrings GoNet MysqlUtils Mysql MysqlDsn.

(** ** Searching and slicing *)

Lemma split_eq_app n v : chr "=" ∉ n → split_eq (n ++ B "=" ++ v) = Some (n, v).
Proof.
  intros Hn. unfold split_eq. change (B "=" ++ v) with (chr "=" :: v). rewrite index_in_app by done.
  rewrite len_app, len_cons. pose proof (len_nonneg v). replace (len n =? len n + (len v + 1)) with false by lia.
  unfold sub, len. f_equal. f_equal.
  - rewrite Z.sub_0_r, Nat2Z.id. change (Z.to_nat 0) with 0%nat. rewrite drop_0. apply take_app_length.
  - replace (Z.to_nat (Z.of_nat (length n) + 1)) with (length n + 1)%nat by lia.
    rewrite <- drop_drop, drop_app_length. simpl. rewrite drop_0. apply take_ge. lia.
Qed.

(** ** Escaping *)

(** Bytes that have a meaning in a DSN *)
Definition special (c : Z) : Prop := c ∈ [chr "/"; chr "&"; chr "="; chr "?"].

Lemma upperhex_spec n : 0 ≤ n < 16 → unhex (upperhex n) = Some n ∧ (48 ≤ upperhex n ≤ 57 ∨ 65 ≤ upperhex n ≤ 70).
Proof.
  intros Hn. unfold upperhex, unhex. destruct (n <? 10) eqn:E; [apply Z.ltb_lt in E|apply Z.ltb_ge in E].
  - replace (_ && _) with true by lia. split; [f_equal; lia|lia].
  - replace ((48 <=? 55 + n) && (55 + n <=? 57)) with false by lia.
    replace ((97 <=? 55 + n) && (55 + n <=? 102)) with false by lia.
    replace ((65 <=? 55 + n) && (55 + n <=? 70)) with true by lia. split; [f_equal; lia|lia].
Qed.

Lemma unescape_escape s : bytes_ok s → QueryUnescape (QueryEscape s) = Some s.
Proof.
  induction 1 as [|c s Hc Hs IH]; [done|]. unfold byte_ok in Hc. unfold QueryEscape in *. csimpl.
  unfold escape_byte at 1. destruct (c =? 32) eqn:E32.
  - apply Z.eqb_eq in E32 as ->. change (B "+") with [43]. cbn [app QueryUnescape]. by rewrite IH.
  - destruct (unreserved c) eqn:Eu.
    + cbn [app QueryUnescape]. assert (c ≠ 37 ∧ c ≠ 43) as [H1 H2].
      { split; intros ->; discriminate Eu. }
      replace (c =? 37) with false by lia. rewrite IH. simpl. by replace (c =? 43) with false by lia.
    + cbn [app QueryUnescape]. simpl (37 =? 37).
      destruct (upperhex_spec (c / 16)) as [-> _]; [split; [apply Z.div_pos; lia|apply Z.div_lt_upper_bound; lia]|].
      destruct (upperhex_spec (c mod 16)) as [-> _]; [apply Z.mod_pos_bound; lia|].
      rewrite IH. simpl. f_equal. f_equal. pose proof (Z.div_mod c 16). lia.
Qed.

Lemma escape_not_special s : bytes_ok s → Forall (fun c => ¬ special c) (QueryEscape s).
Proof.
  unfold QueryEscape, special. intros Hs. apply Forall_bind. eapply Forall_impl; [done|]. intros c Hc. unfold byte_ok in Hc. simpl.
  assert (Hhex : ∀ n, 0 ≤ n < 16 → upperhex n ∉ [chr "/"; chr "&"; chr "="; chr "?"]).
  { intros n Hn. destruct (upperhex_spec n Hn) as [_ Hr]. chr_norm. set_unfold. lia. }
  unfold escape_byte. destruct (c =? 32) eqn:E; [repeat constructor; chr_norm; set_unfold; lia|].
  destruct (unreserved c) eqn:Eu.
  - repeat constructor. intros Hin. rewrite !elem_of_cons in Hin.
    destruct Hin as [->|[->|[->|[->|Hin]]]]; try discriminate Eu. by apply elem_of_nil in Hin.
  - repeat constructor; [chr_norm; set_unfold; lia|apply Hhex|apply Hhex].
    + split; [apply Z.div_pos; lia|apply Z.div_lt_upper_bound; lia].
    + apply Z.mod_pos_bound. lia.
Qed.

(** ** The parameters as a list *)

(** The texts that are written, and the query string they make *)
Definition texts (l : list (bool * bytes)) : list bytes := l ≫= fun o => if o.1 : bool then [o.2] else [].
Definition query_string (l : list bytes) : bytes :=
  match l with [] => [] | t :: l => B "?" ++ t ++ (l ≫= fun t => B "&" ++ t) end.

Lemma add_params_true l buf :
  (foldl (fun st o => add_param o.1 o.2 st) (buf, true) l).1 = buf ++ (texts l ≫= fun t => B "&" ++ t).
Proof.
  revert buf. induction l as [|[[] t] l IH]; intros buf; [by rewrite app_nil_r| |by apply IH].
  cbn [foldl]. unfold add_param at 2. cbn [fst snd]. rewrite IH. unfold texts. csimpl. by rewrite <- !app_assoc.
Qed.
Lemma add_params_false l buf :
  (foldl (fun st o => add_param o.1 o.2 st) (buf, false) l).1 = buf ++ query_string (texts l).
Proof.
  revert buf. induction l as [|[[] t] l IH]; intros buf; [by rewrite app_nil_r| |by apply IH].
  cbn [foldl]. unfold add_param at 2. cbn [fst snd]. rewrite add_params_true. unfold texts. csimpl. by rewrite <- !app_assoc.
Qed.

Lemma split_params t l :
  Forall (fun t => chr "&" ∉ t) (t :: l) → SplitByte (t ++ (l ≫= fun t => B "&" ++ t)) (chr "&") = t :: l.
Proof.
  revert t. induction l as [|u l IH]; intros t Hl; apply Forall_cons in Hl as [Ht Hl].
  - csimpl. rewrite app_nil_r. by apply SplitByte_single.
  - csimpl. change (B "&") with [chr "&"]. cbn [app]. rewrite SplitByte_cons by done. f_equal. by apply IH.
Qed.

Lemma texts_app l k : texts (l ++ k) = texts l ++ texts k.
Proof. apply bind_app. Qed.

Lemma texts_true t l : texts ((true, t) :: l) = t :: texts l.
Proof. done. Qed.

Ltac not_in := apply (bool_decide_unpack _); vm_compute; exact I.
Ltac clean_text := apply (bool_decide_unpack _); vm_compute; exact I.

(** A slice expression whose result is the part [bs] of the text *)
Ltac slice pre bs post :=
  rewrite (slice_is _ pre bs post); [|repeat (rewrite <- app_assoc; cbn [app]); rewrite ?app_nil_r; reflexivity|lens|lens]; cbn [gbind].

(** ** The parameters keep their delimiters apart *)

Definition clean (t : bytes) : Prop := Forall (fun x => x ≠ chr "/" ∧ x ≠ chr "&") t.
#[local] Instance clean_dec t : Decision (clean t).
Proof. unfold clean. apply _. Defined.

Lemma clean_special t : Forall (fun c => ¬ special c) t → clean t.
Proof. intros Ht. eapply Forall_impl; [done|]. intros x Hx. unfold special in Hx. split; intros ->; apply Hx; set_solver. Qed.
Lemma clean_escape s : bytes_ok s → clean (QueryEscape s).
Proof. intros Hs. by apply clean_special, escape_not_special. Qed.
Lemma clean_not_in t : (chr "/" ∉ t) → (chr "&" ∉ t) → clean t.
Proof. intros H1 H2. apply Forall_forall. intros x Hx. split; by intros ->. Qed.
Lemma clean_Itoa n : clean (Itoa n).
Proof.
  assert (Hd : ∀ l, Forall (fun c => is_digit c = true) l → clean (reverse l)).
  { intros l Hl. apply Forall_reverse. eapply Forall_impl; [done|]. intros x Hx. unfold is_digit in Hx. chr_norm. lia. }
  unfold Itoa. bool_case; [apply Forall_cons; split; [chr_norm; lia|]|]; apply Hd, digits_rev_digit; lia.
Qed.

Lemma query_clean l : Forall clean l → chr "/" ∉ query_string l.
Proof.
  assert (Hc : ∀ t, clean t → chr "/" ∉ t) by (intros t Ht Hin; by apply (proj1 (Forall_forall _ _) Ht) in Hin as [? _]).
  intros Hl. destruct Hl as [|t l Ht Hl]; [set_solver|]. cbn [query_string].
  rewrite !elem_of_app. intros [Hin|[Hin|Hin]]; [revert Hin; apply (bool_decide_unpack _); vm_compute; exact I|by eapply Hc|].
  apply list_elem_of_bind in Hin as (u & Hin & Hu). rewrite elem_of_app in Hin.
  destruct Hin as [Hin|Hin]; [revert Hin; apply (bool_decide_unpack _); vm_compute; exact I|].
  eapply Hc; [|done]. by eapply (proj1 (Forall_forall _ _) Hl).
Qed.

(** ** Other parameters, hosts and ports *)

Definition param_text (m : gmap bytes bytes) (k : bytes) : bytes := k ++ B "=" ++ QueryEscape (default [] (m !! k)).
Definition put_param (m : gmap bytes bytes) (acc : gmap bytes bytes) (k : bytes) : gmap bytes bytes :=
  <[k := default [] (m !! k)]> acc.

Lemma put_params_lookup m ks acc k :
  Forall (fun k => is_Some (m !! k)) ks →
  foldl (put_param m) acc ks !! k = if decide (k ∈ ks) then m !! k else acc !! k.
Proof.
  revert acc. induction ks as [|x ks IH]; intros acc Hks; [done|]. apply Forall_cons in Hks as [[v Hx] Hks]. cbn [foldl].
  rewrite IH by done. unfold put_param. rewrite Hx. cbn [default from_option].
  destruct (decide (k = x)) as [->|Hne].
  - rewrite lookup_insert_eq, Hx. repeat case_decide; set_solver.
  - rewrite lookup_insert_ne by done. repeat case_decide; set_solver.
Qed.

Lemma param_keys (m : gmap bytes bytes) k : k ∈ merge_sort bytes_le (map fst (map_to_list m)) ↔ is_Some (m !! k).
Proof.
  rewrite (merge_sort_Permutation bytes_le), list_elem_of_fmap. split.
  - intros ([k' v] & -> & Hin). apply elem_of_map_to_list in Hin. by exists v.
  - intros [v Hv]. exists (k, v). split; [done|]. by apply elem_of_map_to_list.
Qed.

Lemma format_params_texts m :
  texts (format_params (Some m)) = param_text m <$> merge_sort bytes_le (map fst (map_to_list m)).
Proof.
  unfold format_params. induction (merge_sort _ _) as [|k ks IH]; [done|].
  cbn [map fmap list_fmap]. rewrite texts_true. f_equal. exact IH.
Qed.

Lemma unescape_unreserved s : Forall (fun c => unreserved c = true) s → QueryUnescape s = Some s.
Proof.
  induction 1 as [|c s Hc Hs IH]; [done|]. cbn [QueryUnescape].
  assert (c ≠ 37 ∧ c ≠ 43) as [H1 H2] by (split; intros ->; discriminate Hc).
  replace (c =? 37) with false by lia. rewrite IH. simpl. by replace (c =? 43) with false by lia.
Qed.

(** The address of a configured host and port *)
Lemma host_port host port :
  Forall (fun c => c ∉ host) [chr "@"; chr ":"; chr "["; chr "]"] →
  (chr "@" ∉ host ++ B ":" ++ Itoa port) ∧ ensureHavePort (host ++ B ":" ++ Itoa port) = host ++ B ":" ++ Itoa port ∧
  beq (host ++ B ":" ++ Itoa port) [] = false.
Proof.
  rewrite !Forall_cons. intros (Hh1 & Hh2 & Hh3 & Hh4 & _).
  assert (Hp : ∀ c, c ∈ [chr ":"; chr "["; chr "]"; chr "@"] → c ∉ Itoa port).
  { intros c Hc. apply Itoa_not_in; rewrite !elem_of_cons in Hc;
      destruct Hc as [->|[->|[->|[->|Hc]]]]; done || by apply elem_of_nil in Hc. }
  repeat split.
  - rewrite !elem_of_app. intros [?|[H1|H1]]; [done|revert H1; not_in|revert H1; apply Hp; set_solver].
  - unfold ensureHavePort. rewrite SplitHostPort_plain; [done|]. intros c Hc. split; [|apply Hp; set_solver].
    rewrite !elem_of_cons in Hc. destruct Hc as [->|[->|[->|Hc]]]; try done. by apply elem_of_nil in Hc.
  - apply beq_neq. by destruct host.
Qed.

(** The configuration after the part left of the slash, and after the options *)
Definition after_left {L K} (UTC : L) (c : @Config L K) : @Config L K :=
  set_Net (Net c) (set_Addr (Addr c) (set_User (User c) (set_Passwd (Passwd c) (NewConfig UTC)))).
Definition after_options {L K} (c : @Config L K) : @Config L K :=
  set_tls None (set_pubKey None (set_Params None (set_DBName [] c))).

Ltac flat := cbv beta iota delta [after_left after_options NewConfig
  User Passwd Net Addr DBName Params Collation Loc MaxAllowedPacket ServerPubKey pubKey
  TLSConfig tls Timeout ReadTimeout WriteTimeout AllowAllFiles AllowCleartextPasswords
  AllowNativePasswords AllowOldPasswords ClientFoundRows ColumnsWithAlias InterpolateParams
  MultiStatements ParseTime RejectReadOnly
  set_User set_Passwd set_Net set_Addr set_DBName set_Params set_Collation set_Loc
  set_MaxAllowedPacket set_ServerPubKey set_pubKey set_TLSConfig set_tls set_Timeout
  set_ReadTimeout set_WriteTimeout set_AllowAllFiles set_AllowCleartextPasswords
  set_AllowNativePasswords set_AllowOldPasswords set_ClientFoundRows set_ColumnsWithAlias
  set_InterpolateParams set_MultiStatements set_ParseTime set_RejectReadOnly].
Section dsn_props.
Context {L K : Type} `{!EqDecision L} (UTC : L) (LoadLocation : bytes → option L) (loc_String : L → bytes).
Context (ParseDuration : bytes → option Z) (duration_String : Z → bytes).
Context (tls_registry : bytes → option tls_config) (key_registry : bytes → option K).
Context `{UnicodeTables}.

Abbreviation Config := (@Config L K).
Abbreviation parse_param := (parse_param (L := L) (K := K) LoadLocation ParseDuration).
Abbreviation parse_params := (parse_params (L := L) (K := K) LoadLocation ParseDuration).

Lemma parse_params_cons v l cfg :
  parse_params (v :: l) cfg =
  match split_eq v with
  | None => parse_params l cfg
  | Some (name, value) =>
      let* r := parse_param name value cfg in
      match r with inl cfg => parse_params l cfg | inr e => Ret (inr e) end
  end.
Proof. done. Qed.

(** A parameter that is written when it differs from the default, and sets its field *)
Lemma option_step (cond : bool) text name value (set : Config → Config) l cfg :
  text = name ++ B "=" ++ value → chr "=" ∉ name →
  (cond = true → parse_param name value cfg = Ret (inl (set cfg))) → (cond = false → set cfg = cfg) →
  parse_params (texts ((cond, text) :: l)) cfg = parse_params (texts l) (set cfg).
Proof.
  intros -> Hn Ht Hf. destruct cond.
  - rewrite texts_true, parse_params_cons, split_eq_app by done. by rewrite Ht.
  - by rewrite Hf.
Qed.

(** What a configuration must be for its DSN to be read back: normal (what [ParseDSN] returns
    is), no delimiter where the code does not escape, parameters with names of their own. *)
Definition reserved : list bytes :=
  B <$> ["allowAllFiles"; "allowCleartextPasswords"; "allowNativePasswords"; "allowOldPasswords"; "clientFoundRows";
    "collation"; "columnsWithAlias"; "compress"; "interpolateParams"; "loc"; "multiStatements"; "parseTime";
    "readTimeout"; "rejectReadOnly"; "serverPubKey"; "strict"; "timeout"; "tls"; "writeTimeout"; "maxAllowedPacket"]%string.
Definition name_ok (k : bytes) : Prop :=
  existsb (beq k) reserved = false ∧ (chr "=" ∉ k) ∧ (chr "&" ∉ k) ∧ (chr "/" ∉ k).
Record dsn_ok (c : Config) : Prop := {
  ok_normal : normalize tls_registry key_registry
    (set_tls None (set_pubKey None c)) = inl c;
  ok_net : Net c ≠ [] ∧ (chr "(" ∉ Net c) ∧ (chr "@" ∉ Net c);
  ok_addr : Addr c ≠ [] ∧ (chr "@" ∉ Addr c);
  ok_user : (chr ":" ∉ User c) ∧ (User c = [] → Passwd c = []);
  ok_db : (chr "/" ∉ DBName c) ∧ (chr "?" ∉ DBName c);
  ok_collation : Collation c ≠ [] ∧ (chr "/" ∉ Collation c) ∧ (chr "&" ∉ Collation c);
  ok_loc : ∃ l, Loc c = Some l ∧ LoadLocation (loc_String l) = Some l ∧ bytes_ok (loc_String l);
  ok_key : bytes_ok (ServerPubKey c);
  ok_tls : bytes_ok (TLSConfig c) ∧ (TLSConfig c ≠ [] → tls_value (QueryEscape (TLSConfig c)) = Some (TLSConfig c));
  ok_times : Forall (fun d => 0 ≤ d ∧ int_ok 64 d) [Timeout c; ReadTimeout c; WriteTimeout c];
  ok_packet : int_ok 64 (MaxAllowedPacket c);
  ok_params : match Params c with
    | Some m => m ≠ ∅ ∧ map_Forall (fun k v => name_ok k ∧ bytes_ok v) m
    | None => True end }.

(** What the parameters that are not booleans do, in any configuration *)
Lemma parse_loc l cfg :
  LoadLocation (loc_String l) = Some l → bytes_ok (loc_String l) →
  parse_param (B "loc") (QueryEscape (loc_String l)) cfg = Ret (inl (set_Loc (Some l) cfg)).
Proof.
  intros Hl Hb. change (match QueryUnescape (QueryEscape (loc_String l)) with
    | None => Ret (inr (ErrUnescape (QueryEscape (loc_String l))))
    | Some v => match LoadLocation v with
                | Some l => Ret (inl (set_Loc (Some l) cfg))
                | None => Ret (inr (ErrLocation v))
                end
    end = Ret (inl (set_Loc (Some l) cfg))).
  by rewrite unescape_escape, Hl.
Qed.
Lemma parse_key k cfg : bytes_ok k →
  parse_param (B "serverPubKey") (QueryEscape k) cfg = Ret (inl (set_ServerPubKey k cfg)).
Proof.
  intros Hk. change (match QueryUnescape (QueryEscape k) with None => Ret (inr (ErrUnescape (QueryEscape k)))
    | Some v => Ret (inl (set_ServerPubKey v cfg)) end = Ret (inl (set_ServerPubKey k cfg))). by rewrite unescape_escape.
Qed.
Lemma parse_tls v t cfg : tls_value v = Some t → parse_param (B "tls") v cfg = Ret (inl (set_TLSConfig t cfg)).
Proof.
  intros Hv. change (match tls_value v with None => Ret (inr (ErrUnescape v)) | Some v => Ret (inl (set_TLSConfig v cfg)) end
    = Ret (inl (set_TLSConfig t cfg))). by rewrite Hv.
Qed.
Lemma parse_packet n cfg : int_ok 64 n →
  parse_param (B "maxAllowedPacket") (Itoa n) cfg = Ret (inl (set_MaxAllowedPacket n cfg)).
Proof.
  intros Hn. change ((let (m, e) := Atoi (Itoa n) in match e with None => Ret (inl (set_MaxAllowedPacket m cfg))
    | Some _ => Ret (inr (ErrInteger (Itoa n))) end) = Ret (inl (set_MaxAllowedPacket n cfg))). by rewrite Atoi_Itoa.
Qed.

(** ** The other parameters *)

Lemma parse_other k value v cfg :
  existsb (beq k) reserved = false → QueryUnescape value = Some v →
  parse_param k value cfg = Ret (inl (set_Params (Some (<[k := v]> (default ∅ (Params cfg)))) cfg)).
Proof.
  intros Hk Hv. unfold reserved in Hk. cbn [fmap list_fmap existsb] in Hk. unfold MysqlDsn.parse_param.
  repeat match type of Hk with (beq k ?n || ?r)%bool = false =>
    apply orb_false_iff in Hk as [? Hk]; match goal with E : beq k n = false |- _ => rewrite E; clear E end end.
  by rewrite Hv.
Qed.

Lemma params_parse m ks cfg :
  map_Forall (fun k v => name_ok k ∧ bytes_ok v) m → Forall (fun k => is_Some (m !! k)) ks →
  parse_params (param_text m <$> ks) cfg
  = Ret (inl (match ks with [] => cfg | _ => set_Params (Some (foldl (put_param m) (default ∅ (Params cfg)) ks)) cfg end)).
Proof.
  intros Hm. revert cfg. induction ks as [|k ks IH]; intros cfg Hks; [done|].
  apply Forall_cons in Hks as [[v Hk] Hks]. destruct (Hm k v Hk) as [(Hr & He & _ & _) Hv].
  cbn [fmap list_fmap]. rewrite parse_params_cons. unfold param_text at 1. rewrite Hk, split_eq_app by done.
  cbn [default from_option]. rewrite (parse_other k _ v) by (done || by apply unescape_escape). cbn [gbind]. rewrite IH by done. f_equal. f_equal.
  assert (E : ∀ acc, put_param m acc k = <[k := v]> acc) by (intros acc; unfold put_param; by rewrite Hk).
  destruct ks; cbn [foldl]; by rewrite E.
Qed.

Lemma other_parse c :
  dsn_ok c → parse_params (texts (format_params (Params c))) (after_options c)
  = Ret (inl (set_tls None (set_pubKey None (set_DBName [] c)))).
Proof.
  intros Hok. pose proof (ok_params _ Hok) as Hp. destruct (Params c) as [m|] eqn:Em.
  - destruct Hp as [Hne Hm]. rewrite format_params_texts.
    assert (Hks : Forall (fun k => is_Some (m !! k)) (merge_sort bytes_le (map fst (map_to_list m))))
      by (apply Forall_forall; intros k; apply param_keys).
    rewrite params_parse by done. f_equal. f_equal.
    assert (foldl (put_param m) ∅ (merge_sort bytes_le (map fst (map_to_list m))) = m) as E.
    { apply map_eq. intros k. rewrite put_params_lookup by done. case_decide as Hd; [done|].
      rewrite param_keys in Hd. rewrite lookup_empty. symmetry. by apply eq_None_not_Some. }
    assert (merge_sort bytes_le (map fst (map_to_list m)) ≠ []) as Hks0.
    { intros E0. rewrite E0 in E. by apply Hne. }
    destruct (merge_sort bytes_le (map fst (map_to_list m))); [done|]. cbn [default from_option].
    change (Params (after_options c)) with (@None (gmap bytes bytes)). cbn [default from_option]. rewrite E.
    destruct c. simpl in Em. by subst.
  - simpl. f_equal. f_equal. destruct c. simpl in Em. by subst.
Qed.

(** ** The part left of the slash *)

Definition user_part (user passwd : bytes) : bytes :=
  if 0 <? len user then user ++ (if 0 <? len passwd then B ":" ++ passwd else []) ++ B "@" else [].

Lemma parse_user_colon user passwd p post (cfg : Config) :
  (chr ":" ∉ user) → (chr "@" ∉ p) →
  parse_user ((user ++ B ":" ++ passwd ++ B "@") ++ p ++ post) (len ((user ++ B ":" ++ passwd ++ B "@") ++ p)) cfg
  = Ret (len (user ++ B ":" ++ passwd ++ B "@") - 1, set_User user (set_Passwd passwd cfg)).
Proof.
  intros Hu Hp. change (B "@") with [chr "@"]. change (B ":") with [chr ":"]. cbn [app].
  pose proof (len_nonneg user). pose proof (len_nonneg passwd). unfold parse_user. rewrite (app_assoc _ p), go_slice_front. cbn [gbind].
  replace ((user ++ chr ":" :: passwd ++ [chr "@"]) ++ p) with ((user ++ chr ":" :: passwd) ++ chr "@" :: p)
    by (by repeat (rewrite <- app_assoc; cbn [app])).
  rewrite last_in_app by done. replace (0 <=? len (user ++ chr ":" :: passwd)) with true by (symmetry; apply Z.leb_le; lens).
  slice (@nil Z) (user ++ chr ":" :: passwd) (chr "@" :: p ++ post). rewrite index_in_app by done.
  replace (len user <? len (user ++ chr ":" :: passwd)) with true by (symmetry; apply Z.ltb_lt; lens).
  slice (user ++ [chr ":"]) passwd (chr "@" :: p ++ post).
  slice (@nil Z) user (chr ":" :: passwd ++ chr "@" :: p ++ post). f_equal. f_equal. lens.
Qed.

Lemma parse_user_part user passwd p post (cfg : Config) :
  (chr ":" ∉ user) → (user = [] → passwd = []) → (chr "@" ∉ p) → User cfg = [] → Passwd cfg = [] →
  parse_user (user_part user passwd ++ p ++ post) (len (user_part user passwd ++ p)) cfg
  = Ret (len (user_part user passwd) - 1, set_User user (set_Passwd passwd cfg)).
Proof.
  intros Hu Hup Hp Eu Ep. unfold user_part. destruct (0 <? len user) eqn:El.
  2:{ destruct user; [|rewrite len_cons in El; pose proof (len_nonneg user); lia]. rewrite (Hup eq_refl).
      unfold parse_user. cbn [app]. rewrite go_slice_front. cbn [gbind]. rewrite last_in_none by done.
      destruct cfg. simpl in *. by subst. }
  destruct (0 <? len passwd) eqn:Epw; [rewrite <- (app_assoc (B ":")); by apply parse_user_colon|].
  assert (passwd = []) as -> by (destruct passwd; [done|rewrite len_cons in Epw; pose proof (len_nonneg passwd); lia]).
  change (B "@") with [chr "@"]. cbn [app]. pose proof (len_nonneg user).
  unfold parse_user. rewrite (app_assoc _ p), go_slice_front. cbn [gbind].
  replace ((user ++ [chr "@"]) ++ p) with (user ++ chr "@" :: p) by (by rewrite <- !app_assoc).
  rewrite last_in_app by done. replace (0 <=? len user) with true by lia.
  slice (@nil Z) user (chr "@" :: p ++ post). rewrite index_in_none, Z.ltb_irrefl by done. cbn [gbind].
  slice (@nil Z) user (chr "@" :: p ++ post). f_equal. f_equal; [lens|]. destruct cfg. simpl in *. by subst.
Qed.

Definition net_part (net addr : bytes) : bytes := net ++ B "(" ++ addr ++ B ")".
Lemma net_part_at net addr : (chr "@" ∉ net) → (chr "@" ∉ addr) → chr "@" ∉ net_part net addr.
Proof.
  intros Hn Ha. unfold net_part. rewrite !elem_of_app. intros [?|[H1|[?|H1]]]; try done; revert H1; not_in.
Qed.

Lemma parse_protocol_part u net addr post (cfg : Config) :
  (chr "(" ∉ net) →
  parse_protocol (u ++ (net ++ B "(" ++ addr ++ B ")") ++ post) (len u - 1)
    (len (u ++ net ++ B "(" ++ addr ++ B ")")) cfg
  = Ret (inl (set_Net net (set_Addr addr cfg))).
Proof.
  intros Hn. change (B "(") with [chr "("]. change (B ")") with [chr ")"]. unfold parse_protocol.
  replace (len u - 1 + 1) with (len u) by lia. pose proof (len_nonneg u). pose proof (len_nonneg net). pose proof (len_nonneg addr).
  slice u (net ++ [chr "("] ++ addr ++ [chr ")"]) post. cbn [app]. rewrite index_in_app by done.
  replace (len u + len net <? len (u ++ net ++ chr "(" :: addr ++ [chr ")"])) with true by (symmetry; apply Z.ltb_lt; lens).
  replace (u ++ (net ++ chr "(" :: addr ++ [chr ")"]) ++ post) with ((u ++ net ++ chr "(" :: addr) ++ chr ")" :: post)
    by (repeat (rewrite <- app_assoc; cbn [app]); reflexivity).
  replace (len (u ++ net ++ chr "(" :: addr ++ [chr ")"]) - 1) with (len (u ++ net ++ chr "(" :: addr)) by lens.
  rewrite go_index_mid. cbn [gbind]. rewrite Z.eqb_refl. cbn [negb].
  slice (u ++ net ++ [chr "("]) addr (chr ")" :: post).
  slice u net (chr "(" :: addr ++ chr ")" :: post). done.
Qed.

(** ** Whole texts *)

Lemma params_clean c : dsn_ok c → Forall clean (texts (format_params (Params c))).
Proof.
  intros Hok. pose proof (ok_params _ Hok) as Hp. destruct (Params c) as [m|]; [|done]. rewrite format_params_texts.
  apply Forall_fmap, Forall_forall. intros k Hk%param_keys. destruct Hk as [v Hv]. destruct Hp as [_ Hm].
  destruct (Hm k v Hv) as [(_ & _ & H1 & H2) Hb]. unfold compose, param_text. rewrite Hv. cbn [default from_option].
  apply Forall_app. split; [by apply clean_not_in|]. apply Forall_app. split; [clean_text|by apply clean_escape].
Qed.

Lemma parse_query t l (cfg : Config) :
  Forall clean (t :: l) →
  parseDSNParams LoadLocation ParseDuration cfg (t ++ (l ≫= fun t => B "&" ++ t)) = parse_params (t :: l) cfg.
Proof.
  intros Hl. unfold parseDSNParams. rewrite split_params; [done|].
  eapply Forall_impl; [done|]. intros u Hu Hin. by apply (proj1 (Forall_forall _ _) Hu) in Hin as [_ ?].
Qed.

Lemma FormatDSN_shape c : dsn_ok c →
  FormatDSN UTC loc_String duration_String c
  = (user_part (User c) (Passwd c) ++ net_part (Net c) (Addr c)) ++ B "/" ++ DBName c ++
    query_string (texts (format_options UTC loc_String duration_String c ++ format_params (Params c))).
Proof.
  intros [_ (Hn & _) (Ha & _) _ _ _ _ _ _ _ _ _]. unfold FormatDSN. rewrite add_params_false.
  assert (Hpos : ∀ l : bytes, l ≠ [] → (0 <? len l) = true).
  { intros [|x l] Hl; [done|]. rewrite len_cons. pose proof (len_nonneg l). lia. }
  rewrite (Hpos (Net c)), (Hpos (Addr c)) by done. unfold user_part, net_part. by rewrite <- !app_assoc.
Qed.

(** Parsing a text whose left part is known: then the parameters and the name of the database *)
Lemma ParseDSN_shape lp db l cfg0 cfg :
  0 < len lp → (∀ post, parse_left (lp ++ post) (len lp) (NewConfig UTC) = Ret (inl cfg0)) →
  (chr "/" ∉ db) → (chr "?" ∉ db) → Forall clean l → parse_params l cfg0 = Ret (inl cfg) →
  ParseDSN UTC LoadLocation ParseDuration tls_registry key_registry (lp ++ B "/" ++ db ++ query_string l)
  = Ret (normalize tls_registry key_registry (set_DBName db cfg)).
Proof.
  intros Hlp HL Hd1 Hd2 Hl Hcfg. unfold ParseDSN. change (B "/") with [chr "/"]. cbn [app].
  assert (Hq : chr "/" ∉ db ++ query_string l) by (rewrite elem_of_app; intros [?|?]; [done|by eapply query_clean]).
  rewrite last_in_app by done. replace (0 <=? len lp) with true by lia. replace (0 <? len lp) with true by lia.
  rewrite HL. cbn [gbind]. pose proof (len_nonneg db).
  slice (lp ++ [chr "/"]) (db ++ query_string l) (@nil Z).
  destruct l as [|t l]; cbn [query_string] in *.
  - rewrite app_nil_r, index_in_none by done. replace (_ <? _) with false by (symmetry; apply Z.ltb_ge; lens). cbn [gbind].
    injection Hcfg as <-. slice (lp ++ [chr "/"]) db (@nil Z). done.
  - set (qs := t ++ (l ≫= fun t => B "&" ++ t)). change (B "?" ++ qs) with (chr "?" :: qs).
    pose proof (len_nonneg qs). rewrite index_in_app by done.
    replace (_ <? _) with true by (symmetry; apply Z.ltb_lt; lens).
    slice (lp ++ chr "/" :: db ++ [chr "?"]) qs (@nil Z). unfold qs at 1. rewrite parse_query, Hcfg by done. cbn [gbind].
    slice (lp ++ [chr "/"]) db (chr "?" :: qs). done.
Qed.

Lemma len_net_part u net addr : 0 < len (u ++ net_part net addr).
Proof.
  unfold net_part. change (B "(") with [chr "("]. pose proof (len_nonneg u). pose proof (len_nonneg net).
  pose proof (len_nonneg addr). lens.
Qed.

(** ** The data source name of the program *)

(** The configuration the driver gets from [InitMySQLPool] *)
Definition pool_config (m : MysqlConfType) : Config :=
  set_DBName (MysqlDb m)
    (set_Params (Some (<[B "autocommit" := B "true"]> {[B "charset" := MysqlCharset m]}))
      (set_Net (B "tcp") (set_Addr (MysqlHost m ++ B ":" ++ Itoa (MysqlPort m))
        (set_User (MysqlUser m) (set_Passwd (MysqlPw m) (NewConfig UTC)))))).

(** The data source name InitMySQLPool builds is read by the driver as the configured
    user, password, host, port, database and character set, for any password, when user, host
    and database have no delimiter of their own. *)
Theorem pool_dsn m :
  (chr ":" ∉ MysqlUser m) → Forall (fun c => c ∉ MysqlHost m) [chr "@"; chr ":"; chr "["; chr "]"] →
  (chr "/" ∉ MysqlDb m) → (chr "?" ∉ MysqlDb m) → Forall (fun c => unreserved c = true) (MysqlCharset m) →
  ParseDSN UTC LoadLocation ParseDuration tls_registry key_registry (dataSourceName m) = Ret (inl (pool_config m)).
Proof.
  intros Hu Hh Hd1 Hd2 Hcs. destruct (host_port _ (MysqlPort m) Hh) as (Ha & Hq & Hn).
  set (addr := MysqlHost m ++ B ":" ++ Itoa (MysqlPort m)) in *.
  set (l := [B "charset=" ++ MysqlCharset m; B "autocommit=true"]).
  assert (E : dataSourceName m = ((MysqlUser m ++ B ":" ++ MysqlPw m ++ B "@") ++ net_part (B "tcp") addr)
    ++ B "/" ++ MysqlDb m ++ query_string l).
  { unfold dataSourceName, net_part, addr, l. cbn [query_string mbind list_bind]. rewrite ?app_nil_r, <- !app_assoc. reflexivity. }
  assert (Hl : Forall clean l).
  { apply Forall_cons_2, Forall_cons_2, Forall_nil_2; [|clean_text]. apply Forall_app. split; [clean_text|].
    eapply Forall_impl; [done|]. intros c Hc. split; intros ->; discriminate Hc. }
  rewrite E. erewrite (ParseDSN_shape _ _ l); [|apply len_net_part| |done|done|done|].
  3:{ unfold l. rewrite parse_params_cons.
      replace (split_eq (B "charset=" ++ MysqlCharset m)) with (Some (B "charset", MysqlCharset m))
        by (symmetry; apply (split_eq_app (B "charset")); not_in).
      rewrite (parse_other (B "charset") _ (MysqlCharset m)) by (done || by apply unescape_unreserved).
      cbn [gbind]. rewrite parse_params_cons. change (split_eq (B "autocommit=true")) with (Some (B "autocommit", B "true")).
      cbn iota beta. rewrite (parse_other (B "autocommit") (B "true") (B "true")) by done. reflexivity. }
  2:{ intros post. unfold parse_left. rewrite <- app_assoc, parse_user_colon by (done || by apply net_part_at; [not_in|]).
      cbn [gbind]. apply parse_protocol_part. not_in. }
  f_equal. unfold normalize, pool_config. fold addr. flat. cbn [andb]. change (beq (B "tcp") []) with false. cbv iota. flat.
  unfold normal_addr. rewrite Hn. change (beq (B "tcp") (B "tcp")) with true. cbv iota. rewrite Hq. reflexivity.
Qed.
End dsn_props.

(** ** Reading back what [FormatDSN] writes *)

Section roundtrip.
Context {L K : Type} `{!EqDecision L} (UTC : L) (LoadLocation : bytes → option L) (loc_String : L → bytes).
Context (ParseDuration : bytes → option Z) (duration_String : Z → bytes).
Context (tls_registry : bytes → option tls_config) (key_registry : bytes → option K).
Context `{UnicodeTables}.

Abbreviation Config := (@Config L K).
Abbreviation parse_param := (parse_param (L := L) (K := K) LoadLocation ParseDuration).
Abbreviation parse_params := (parse_params (L := L) (K := K) LoadLocation ParseDuration).
Abbreviation dsn_ok := (dsn_ok LoadLocation loc_String tls_registry key_registry).

(** The texts of durations: [ParseDuration] reads what [String] prints, which has no character that means
    something in a DSN. *)
Hypothesis duration_text : ∀ d, 0 < d → int_ok 64 d → ParseDuration (duration_String d) = Some d ∧
  Forall (fun c => ¬ special c) (duration_String d).

Lemma parse_read_timeout d cfg : 0 < d → int_ok 64 d →
  parse_param (B "readTimeout") (duration_String d) cfg = Ret (inl (set_ReadTimeout d cfg)).
Proof.
  intros Hd Hi. change (Ret (with_duration ParseDuration set_ReadTimeout (duration_String d) cfg) = Ret (inl (set_ReadTimeout d cfg))).
  unfold with_duration. by rewrite (proj1 (duration_text d Hd Hi)).
Qed.
Lemma parse_timeout d cfg : 0 < d → int_ok 64 d →
  parse_param (B "timeout") (duration_String d) cfg = Ret (inl (set_Timeout d cfg)).
Proof.
  intros Hd Hi. change (Ret (with_duration ParseDuration set_Timeout (duration_String d) cfg) = Ret (inl (set_Timeout d cfg))).
  unfold with_duration. by rewrite (proj1 (duration_text d Hd Hi)).
Qed.
Lemma parse_write_timeout d cfg : 0 < d → int_ok 64 d →
  parse_param (B "writeTimeout") (duration_String d) cfg = Ret (inl (set_WriteTimeout d cfg)).
Proof.
  intros Hd Hi. change (Ret (with_duration ParseDuration set_WriteTimeout (duration_String d) cfg) = Ret (inl (set_WriteTimeout d cfg))).
  unfold with_duration. by rewrite (proj1 (duration_text d Hd Hi)).
Qed.
(** One option: when it is written it sets its field, when it is not the field has its default *)
Ltac option_parsed := intros E;
  first [by apply parse_loc|by apply parse_key|by apply parse_packet|by apply parse_tls; auto
        |apply parse_read_timeout; [lia|done]|apply parse_timeout; [lia|done]|apply parse_write_timeout; [lia|done]
        |first [rewrite E|apply negb_true_iff in E; rewrite E|idtac];
         match goal with |- MysqlDsn.parse_param _ _ _ _ ?cfg = _ => generalize cfg; intros; reflexivity end].
Ltac option_default := intros E; flat;
  first [f_equal; lia|f_equal; by apply negb_false_iff, beq_eq in E|f_equal; by apply negb_false_iff, Z.eqb_eq in E
        |by apply negb_false_iff, bool_decide_eq_true in E as ->
        |apply andb_false_iff in E as [E|E]; apply negb_false_iff, beq_eq in E; congruence
        |first [rewrite E|apply negb_false_iff in E; rewrite E]; reflexivity].
Tactic Notation "dsn_option" constr(n) constr(v) uconstr(f) :=
  rewrite (option_step _ _ _ _ n v f); [flat|reflexivity|not_in|option_parsed|option_default].

Lemma options_parse c rest :
  dsn_ok c →
  parse_params (texts (format_options UTC loc_String duration_String c ++ rest)) (after_left UTC c)
  = parse_params (texts rest) (after_options c).
Proof.
  intros [_ _ _ _ _ (Hc & _) (l & Hl & Hload & Hlb) Hk [Htb Ht] Ht3 Hp _].
  destruct c as
    [cUser cPasswd cNet cAddr cDBName cParams cCollation cLoc
     cMaxAllowedPacket cServerPubKey cpubKey cTLSConfig ctls cTimeout cReadTimeout cWriteTimeout
     cAllowAllFiles cAllowCleartextPasswords cAllowNativePasswords cAllowOldPasswords cClientFoundRows
     cColumnsWithAlias cInterpolateParams cMultiStatements cParseTime cRejectReadOnly].
  simpl in Hc, Hl, Hk, Htb, Ht, Ht3, Hp.
  assert (Ht' : negb (beq cTLSConfig []) = true → tls_value (QueryEscape cTLSConfig) = Some cTLSConfig)
    by (intros E; by apply Ht, beq_neq, negb_true_iff).
  rewrite !Forall_cons in Ht3. destruct Ht3 as ([T1 I1] & [T2 I2] & [T3 I3] & _). subst cLoc. unfold format_options. flat. cbn [app].
  dsn_option (B "allowAllFiles") (B "true") (set_AllowAllFiles cAllowAllFiles).
  dsn_option (B "allowCleartextPasswords") (B "true") (set_AllowCleartextPasswords cAllowCleartextPasswords).
  dsn_option (B "allowNativePasswords") (B "false") (set_AllowNativePasswords cAllowNativePasswords).
  dsn_option (B "allowOldPasswords") (B "true") (set_AllowOldPasswords cAllowOldPasswords).
  dsn_option (B "clientFoundRows") (B "true") (set_ClientFoundRows cClientFoundRows).
  dsn_option (B "collation") cCollation (set_Collation cCollation).
  dsn_option (B "columnsWithAlias") (B "true") (set_ColumnsWithAlias cColumnsWithAlias).
  dsn_option (B "interpolateParams") (B "true") (set_InterpolateParams cInterpolateParams).
  dsn_option (B "loc") (QueryEscape (loc_String l)) (set_Loc (Some l)).
  dsn_option (B "multiStatements") (B "true") (set_MultiStatements cMultiStatements).
  dsn_option (B "parseTime") (B "true") (set_ParseTime cParseTime).
  dsn_option (B "readTimeout") (duration_String cReadTimeout) (set_ReadTimeout cReadTimeout).
  dsn_option (B "rejectReadOnly") (B "true") (set_RejectReadOnly cRejectReadOnly).
  dsn_option (B "serverPubKey") (QueryEscape cServerPubKey) (set_ServerPubKey cServerPubKey).
  dsn_option (B "timeout") (duration_String cTimeout) (set_Timeout cTimeout).
  dsn_option (B "tls") (QueryEscape cTLSConfig) (set_TLSConfig cTLSConfig).
  dsn_option (B "writeTimeout") (duration_String cWriteTimeout) (set_WriteTimeout cWriteTimeout).
  dsn_option (B "maxAllowedPacket") (Itoa cMaxAllowedPacket) (set_MaxAllowedPacket cMaxAllowedPacket).
  reflexivity.
Qed.

Lemma options_clean c :
  dsn_ok c → Forall (fun o => o.1 = true → clean o.2) (format_options UTC loc_String duration_String c).
Proof.
  intros [_ _ _ _ _ (_ & Hc1 & Hc2) (l & Hl & _ & Hlb) Hk [Ht _] Ht3 _ _]. unfold format_options. rewrite Hl.
  rewrite !Forall_cons in Ht3. destruct Ht3 as ([T1 I1] & [T2 I2] & [T3 I3] & _).
  repeat (apply Forall_cons_2; [intros E; cbn [fst snd] in *|]); [..|apply Forall_nil_2];
    match goal with |- clean (B _ ++ _) => apply Forall_app; split; [clean_text|] | _ => clean_text end.
  - by apply clean_not_in.
  - by apply clean_escape.
  - apply clean_special, duration_text; [lia|done].
  - by apply clean_escape.
  - apply clean_special, duration_text; [lia|done].
  - by apply clean_escape.
  - apply clean_special, duration_text; [lia|done].
  - apply clean_Itoa.
Qed.

Lemma texts_clean c : dsn_ok c →
  Forall clean (texts (format_options UTC loc_String duration_String c ++ format_params (Params c))).
Proof.
  intros Hok. rewrite texts_app. apply Forall_app. split; [|by eapply params_clean].
  unfold texts. apply Forall_bind. eapply Forall_impl; [by apply options_clean|].
  intros [[] t] Ht; simpl in *; [|done]. by repeat constructor; apply Ht.
Qed.

(** C37: Parsing the text FormatDSN writes for a normal configuration gives the configuration
    back, with every option, timeout and parameter, escaped or not, whatever the password
    contains. What is written unescaped must be free of the delimiters of the format: the user
    of colons, the database of slashes and question marks, the network of parentheses and at
    signs, the address of at signs, the collation and the names of parameters of slashes and
    ampersands, the names also of equals signs and not those of options; a password needs a
    user, timeouts are not negative, a map of parameters is not empty, and the location and
    the TLS configuration are those found under their names. *)
Theorem DSN_roundtrip c :
  dsn_ok c →
  ParseDSN UTC LoadLocation ParseDuration tls_registry key_registry (FormatDSN UTC loc_String duration_String c)
  = Ret (inl c).
Proof.
  intros Hok. erewrite FormatDSN_shape by exact Hok. pose proof (texts_clean c Hok) as Hcl.
  pose proof (other_parse LoadLocation loc_String ParseDuration tls_registry key_registry c Hok) as Hp.
  pose proof (ok_normal _ _ _ _ _ Hok) as Hnorm. pose proof (options_parse c (format_params (Params c)) Hok) as Ho.
  rewrite Hp in Ho. destruct Hok as [_ (_ & Hn2 & Hn1) (_ & Ha1) (Hu & Hup) (Hd1 & Hd2) _ _ _ _ _ _ _].
  erewrite (ParseDSN_shape _ _ _ _ _ _ _ _ (after_left UTC c) _ (len_net_part _ _ _)) by
    (done || intros post; unfold parse_left; rewrite <- app_assoc, parse_user_part by (done || by apply net_part_at);
     by apply parse_protocol_part).
  f_equal. rewrite <- Hnorm. f_equal.
Qed.
End roundtrip.

(** ** Witnesses *)

(** Two locations, durations printed in nanoseconds, no registered TLS configuration or key *)
Definition sample_location (b : bool) : bytes := if b then B "UTC" else B "Asia/Shanghai".
Definition sample_load (s : bytes) : option bool :=
  if beq s (B "UTC") then Some true else if beq s (B "Asia/Shanghai") then Some false else None.
Definition sample_duration (d : Z) : bytes := Itoa d ++ B "ns".
Definition sample_parse_duration (s : bytes) : option Z :=
  let (n, e) := Atoi (take (length s - 2) s) in match e with None => Some n | Some _ => None end.

Lemma sample_durations d :
  0 < d → int_ok 64 d → sample_parse_duration (sample_duration d) = Some d ∧
    Forall (fun c => ¬ special c) (sample_duration d).
Proof.
  intros Hd Hi. split.
  - unfold sample_parse_duration, sample_duration. rewrite length_app. change (length (B "ns")) with 2%nat.
    replace (length (Itoa d) + 2 - 2)%nat with (length (Itoa d)) by lia. by rewrite take_app_length, Atoi_Itoa.
  - apply Forall_app. split; [|apply (bool_decide_unpack _); vm_compute; exact I].
    apply Forall_forall. intros x Hx Hs. revert Hx. unfold special in Hs. rewrite !elem_of_cons in Hs.
    destruct Hs as [->|[->|[->|[->|Hs]]]]; try (by apply Itoa_not_in). by apply elem_of_nil in Hs.
Qed.

(** A password with delimiters, a location, a timeout, TLS and two parameters, one of them escaped *)
Definition sample_config : @Config bool unit :=
  set_User (B "root") (set_Passwd (B "p@ss:w/d") (set_Net (B "tcp") (set_Addr (B "db.local:3307") (set_DBName (B "review")
    (set_Loc (Some false) (set_Timeout 30000 (set_TLSConfig (B "skip-verify") (set_tls (Some (mk_tls true []))
      (set_ParseTime true (set_AllowNativePasswords false
        (set_Params (Some (<[B "charset" := B "utf8mb4"]> {[B "sql_mode" := B "'a/b & c=d'"]})) (NewConfig true)))))))))))).

Ltac by_compute := apply (bool_decide_unpack _); vm_compute; exact I.
Lemma sample_config_ok :
  dsn_ok sample_load sample_location (fun _ => None) (fun _ => None) sample_config.
Proof.
  split.
  - vm_compute. reflexivity.
  - repeat split; [done|by_compute..].
  - split; [done|by_compute].
  - split; [by_compute|done].
  - split; by_compute.
  - repeat split; [done|by_compute..].
  - exists false. repeat split. by_compute.
  - by_compute.
  - split; [by_compute|]. intros _. vm_compute. reflexivity.
  - by_compute.
  - by_compute.
  - split; [by_compute|]. apply map_Forall_insert_2; [repeat split; by_compute|].
    apply map_Forall_singleton. repeat split; by_compute.
Qed.

Lemma DSN_roundtrip_witness :
  ParseDSN true sample_load sample_parse_duration (fun _ => None) (fun _ => None)
    (FormatDSN true sample_location sample_duration sample_config) = Ret (inl sample_config).
Proof. apply (DSN_roundtrip _ _ _ _ _ _ _ sample_durations). exact sample_config_ok. Defined.

Definition sample_mysql : MysqlConfType :=
  mk_MysqlConf (B "127.0.0.1") (B "review") (B "root") (B "se@cr:et/") (B "utf8") 3306 10 5.
Lemma pool_dsn_witness :
  ParseDSN true sample_load sample_parse_duration (fun _ => None) (fun _ : bytes => @None unit) (dataSourceName sample_mysql)
  = Ret (inl (pool_config true sample_mysql)).
Proof. apply pool_dsn; by_compute. Defined.
