(* ===== verification/MysqlBuffer.v ===== *)
(** * [mysql/buffer.go]: the double-buffered reader

    A connection reads into one of two backing arrays, or into an array of its own when a
    packet is too large to keep.  The slices handed out alias these arrays, so the arrays are
    a store here and the buffer holds references to them.  The network is the list of
    results its [Read] calls will return. *)

From S2P Require Import Prelude.

Definition defaultBufSize : Z := 4096.
Definition maxCachedBufSize : Z := 256 * 1024.
Definition maxPacketSize : Z := 2 ^ 24 - 1.

(** ** The network *)

Inductive net_error := EOF | UnexpectedEOF | NetError.

(** The data a [Read] delivers with its error; past the end of the list, [EOF]. *)
Abbreviation reads := (list (bytes * option net_error)).

(** [nc.Read(p)] with [room = len(p)]: what does not fit is left for the next call. *)
Definition net_read (room : nat) (net : reads) : bytes * option net_error * reads :=
  match net with
  | [] => ([], Some EOF, [])
  | (d, e) :: net' =>
      if (length d <=? room)%nat then (d, e, net')
      else (take room d, None, (drop room d, e) :: net')
  end.

(** ** The buffer *)

(** [type buffer struct]; arrays are numbered in the order of their allocation. *)
Record buffer := mk_buffer {
  b_buf : nat; b_idx : Z; b_length : Z;
  b_dbuf0 : option nat; b_dbuf1 : option nat; b_flipcnt : Z }.

Record bworld := mk_world { arrays : list bytes; bb : buffer; net : reads }.

Definition arr (w : bworld) (i : nat) : bytes := default [] (arrays w !! i).
Definition set_arr (i : nat) (a : bytes) (w : bworld) : bworld :=
  mk_world (<[i := a]> (arrays w)) (bb w) (net w).
Definition set_bb (b : buffer) (w : bworld) : bworld := mk_world (arrays w) b (net w).
Definition set_net (n : reads) (w : bworld) : bworld := mk_world (arrays w) (bb w) n.
(** [make([]byte, n)] *)
Definition alloc (n : Z) (w : bworld) : nat * bworld :=
  (length (arrays w), mk_world (arrays w ++ [replicate (Z.to_nat n) 0]) (bb w) (net w)).

(** [func newBuffer(nc net.Conn) buffer] *)
Definition newBuffer (n : reads) : bworld :=
  mk_world [replicate (Z.to_nat defaultBufSize) 0] (mk_buffer 0 0 0 (Some 0%nat) None 0) n.

(** [func (b buffer) flip()] *)
Definition flip (w : bworld) : bworld :=
  let b := bb w in
  set_bb (mk_buffer (b_buf b) (b_idx b) (b_length b) (b_dbuf0 b) (b_dbuf1 b) (uwrap 64 (b_flipcnt b + 1))) w.

(** [b.dbuf[b.flipcnt&1]] *)
Definition slot (b : buffer) : option nat := if Z.odd (b_flipcnt b) then b_dbuf1 b else b_dbuf0 b.
Definition set_slot (i : nat) (b : buffer) : buffer :=
  if Z.odd (b_flipcnt b)
  then mk_buffer (b_buf b) (b_idx b) (b_length b) (b_dbuf0 b) (Some i) (b_flipcnt b)
  else mk_buffer (b_buf b) (b_idx b) (b_length b) (Some i) (b_dbuf1 b) (b_flipcnt b).

(** The array [fill] reads into: the backing array of the slot, or a new one. *)
Definition destination (need : Z) (w : bworld) : nat * bworld :=
  let dest := slot (bb w) in
  let size := match dest with Some i => len (arr w i) | None => 0 end in
  if size <? need then
    let n := (need / defaultBufSize + 1) * defaultBufSize in
    let (i, w) := alloc n w in
    (i, if n <=? maxCachedBufSize then set_bb (set_slot i (bb w)) w else w)
  else (default 0%nat dest, w).

(** The read loop of [fill]: [n] bytes are in the array; an error leaves [length] alone. *)
Fixpoint fill_loop (fuel : nat) (need n : Z) (w : bworld) : Go (option net_error * bworld) :=
  match fuel with
  | O => Ret (Some NetError, w)
  | S k =>
      let a := arr w (b_buf (bb w)) in
      let* room := go_slice a n (len a) in
      let '(d, err, net') := net_read (length room) (net w) in
      let* a := go_copy a n (len a) d in
      let w := set_net net' (set_arr (b_buf (bb w)) a w) in
      let n := n + len d in
      let b := bb w in
      let done := set_bb (mk_buffer (b_buf b) (b_idx b) n (b_dbuf0 b) (b_dbuf1 b) (b_flipcnt b)) w in
      match err with
      | None => if n <? need then fill_loop k need n w else Ret (None, done)
      | Some EOF => if need <=? n then Ret (None, done) else Ret (Some UnexpectedEOF, w)
      | Some e => Ret (Some e, w)
      end
  end.

(** One [Read] for every result the network still holds, and one for the final [EOF]: a
    result that does not fit fills the array and ends the loop. *)
Definition net_fuel (n : reads) : nat := S (length n).

(** [func (b buffer) fill(need int) error] *)
Definition fill (need : Z) (w : bworld) : Go (option net_error * bworld) :=
  let n := b_length (bb w) in
  let src := arr w (b_buf (bb w)) in
  let (dest, w) := destination need w in
  let* w := if 0 <? n then
              let* s := go_slice src (b_idx (bb w)) (len src) in
              let* a := go_copy (arr w dest) 0 n s in
              Ret (set_arr dest a w)
            else Ret w in
  let b := bb w in
  let w := set_bb (mk_buffer dest 0 (b_length b) (b_dbuf0 b) (b_dbuf1 b) (b_flipcnt b)) w in
  fill_loop (net_fuel (net w)) need n w.

(** [func (b buffer) readNext(need int) ([]byte, error)]: the slice is given by its array and
    its bounds, with its bytes. *)
Definition readNext (need : Z) (w : bworld) : Go ((bytes + net_error) * bworld) :=
  let* (err, w) := if b_length (bb w) <? need then fill need w else Ret (None, w) in
  match err with
  | Some e => Ret (inr e, w)
  | None =>
      let b := bb w in
      let offset := b_idx b in
      let idx := offset + need in
      let w := set_bb (mk_buffer (b_buf b) idx (b_length b - need) (b_dbuf0 b) (b_dbuf1 b) (b_flipcnt b)) w in
      let* s := go_slice (arr w (b_buf b)) offset idx in
      Ret (inl s, w)
  end.

(** [takeBuffer], [takeSmallBuffer], [takeCompleteBuffer]: an array and the length of the
    slice of it; [None] is [ErrBusyBuffer]. *)
Definition takeBuffer (length : Z) (w : bworld) : option (nat * Z) * bworld :=
  let b := bb w in
  if 0 <? b_length b then (None, w)
  else if length <=? len (arr w (b_buf b)) then (Some (b_buf b, length), w)
  else if length <? maxPacketSize then
    let (i, w) := alloc length w in
    (Some (i, length), set_bb (mk_buffer i (b_idx b) (b_length b) (b_dbuf0 b) (b_dbuf1 b) (b_flipcnt b)) w)
  else let (i, w) := alloc length w in (Some (i, length), w).
Definition takeSmallBuffer (length : Z) (w : bworld) : Go (option (nat * Z)) :=
  if 0 <? b_length (bb w) then Ret None
  else if length <=? len (arr w (b_buf (bb w))) then Ret (Some (b_buf (bb w), length))
  else Panic SliceOutOfRange.
Definition takeCompleteBuffer (w : bworld) : option (nat * Z) :=
  if 0 <? b_length (bb w) then None else Some (b_buf (bb w), len (arr w (b_buf (bb w)))).

(** [func (b buffer) store(buf []byte) error], on an array taken before *)
Definition store_buffer (i : nat) (w : bworld) : bool * bworld :=
  let b := bb w in
  if 0 <? b_length b then (false, w)
  else if (len (arr w i) <=? maxPacketSize) && (len (arr w (b_buf b)) <? len (arr w i)) then
    (true, set_bb (mk_buffer i (b_idx b) (b_length b) (b_dbuf0 b) (b_dbuf1 b) (b_flipcnt b)) w)
  else (true, w).
