(* ===== verification/MysqlBufferProps.v ===== *)
(** * The buffer is a byte stream ([mysql/buffer.go])

    However the network cuts its data, [readNext] returns the next bytes of the stream; and a
    slice that was handed out before [flip] is not overwritten by the reads that follow. *)

From S2P Require Import Prelude MysqlBuffer.

(** ** The stream *)

(** The bytes a network delivers before its error. *)
Fixpoint incoming (n : reads) : bytes :=
  match n with
  | [] => []
  | (d, None) :: n' => d ++ incoming n'
  | (d, Some EOF) :: _ => d
  | (d, Some _) :: _ => []
  end.

(** An error ends the connection, and comes without data unless it is [EOF]. *)
Fixpoint net_ok (n : reads) : bool :=
  match n with
  | [] => true
  | (d, None) :: n' => net_ok n'
  | (d, Some EOF) :: n' => match n' with [] => true | _ => false end
  | (d, Some _) :: n' => match d, n' with [], [] => true | _, _ => false end
  end.

(** Every reference points to an array, and the unread bytes lie in theirs.  The slot that is
    not in use is never the array in use. *)
Record valid (w : bworld) : Prop := {
  valid_buf : (b_buf (bb w) < length (arrays w))%nat;
  valid_idx : 0 ≤ b_idx (bb w);
  valid_length : 0 ≤ b_length (bb w);
  valid_room : b_idx (bb w) + b_length (bb w) ≤ len (arr w (b_buf (bb w)));
  valid_dbuf0 : ∀ i, b_dbuf0 (bb w) = Some i → (i < length (arrays w))%nat;
  valid_dbuf1 : ∀ i, b_dbuf1 (bb w) = Some i → (i < length (arrays w))%nat;
  valid_slots : ∀ i, b_dbuf0 (bb w) = Some i → b_dbuf1 (bb w) = Some i → False }.

(** What has been read and not been taken. *)
Definition pending (w : bworld) : bytes :=
  sub (arr w (b_buf (bb w))) (b_idx (bb w)) (b_idx (bb w) + b_length (bb w)).
Definition stream (w : bworld) : bytes := pending w ++ incoming (net w).

Lemma valid_newBuffer n : valid (newBuffer n).
Proof. split; simpl; intros; simplify_eq; unfold arr; simpl; try lia; try done. Qed.

(** All arrays but [i] are the same. *)
Definition same_but (i : nat) (w w' : bworld) : Prop :=
  length (arrays w') = length (arrays w) ∧ ∀ j, j ≠ i → arrays w' !! j = arrays w !! j.

Lemma same_but_trans i w1 w2 w3 : same_but i w1 w2 → same_but i w2 w3 → same_but i w1 w3.
Proof.
  intros [L1 S1] [L2 S2]. split; [congruence|]. intros j Hj. rewrite S2, S1; done.
Qed.

Lemma same_but_set_arr i a w : same_but i w (set_arr i a w).
Proof.
  split; simpl; [apply length_insert|]. intros j Hj. by apply list_lookup_insert_ne.
Qed.

Lemma arr_set_arr i a w : (i < length (arrays w))%nat → arr (set_arr i a w) i = a.
Proof. intros Hi. unfold arr, set_arr. simpl. by rewrite list_lookup_insert_eq. Qed.

(** ** Reading *)

Lemma go_copy_mid {A} (got free d : list A) :
  len d ≤ len free →
  go_copy (got ++ free) (len got) (len (got ++ free)) d = Ret ((got ++ d) ++ drop (length d) free).
Proof.
  intros Hd. pose proof (len_nonneg got). pose proof (len_nonneg free). unfold go_copy.
  replace (_ && _ && _) with true by (rewrite len_app; lia).
  rewrite len_app, Z.min_r, !len_to_nat by lia.
  by rewrite take_app_length, firstn_all, drop_app_add, (assoc_L (++)).
Qed.

Definition with_length (n : Z) (b : buffer) : buffer :=
  mk_buffer (b_buf b) (b_idx b) n (b_dbuf0 b) (b_dbuf1 b) (b_flipcnt b).

(** The outcome of the read loop that has [got] in its array. *)
Definition filled (need : Z) (got : bytes) (w : bworld) (r : option net_error) (w' : bworld) : Prop :=
  same_but (b_buf (bb w)) w w' ∧
  if need <=? len got + len (incoming (net w)) then
    r = None ∧ net_ok (net w') = true ∧
    ∃ more free, arr w' (b_buf (bb w)) = (got ++ more) ++ free ∧
      bb w' = with_length (len (got ++ more)) (bb w) ∧
      need ≤ len (got ++ more) ∧ incoming (net w) = more ++ incoming (net w')
  else ∃ e, r = Some e.

(** What one [Read] delivers, in terms of the stream. *)
Lemma net_read_spec room n d err n' :
  net_read room n = (d, err, n') → net_ok n = true →
  (length d ≤ room)%nat ∧ net_ok n' = true ∧
  match err with
  | None => incoming n = d ++ incoming n' ∧ ((length n' < length n)%nat ∨ length d = room)
  | Some EOF => incoming n = d ∧ incoming n' = []
  | Some _ => incoming n = []
  end.
Proof.
  unfold net_read. destruct n as [|[d0 e0] n0]; [intros [= <- <- <-] _; simpl; split_and!; try done; lia|].
  destruct (Nat.leb_spec (length d0) room); intros [= <- <- <-] Hok; cbn [net_ok incoming] in *.
  - destruct e0 as [[]|]; [destruct n0; [|done]|destruct d0, n0; try done..|]; split_and!; try done.
    left. simpl. lia.
  - rewrite length_take. destruct e0 as [[]|]; [|destruct d0; [simpl in *; lia|done]..|];
      (split_and!; [lia|done|by rewrite ?(assoc_L (++)), take_drop|right; lia]).
Qed.

Lemma fill_loop_spec fuel : ∀ need w got free,
  (length (net w) < fuel)%nat → (b_buf (bb w) < length (arrays w))%nat →
  arr w (b_buf (bb w)) = got ++ free → len got < need → need ≤ len (got ++ free) →
  net_ok (net w) = true →
  ∃ r w', fill_loop fuel need (len got) w = Ret (r, w') ∧ filled need got w r w'.
Proof.
  induction fuel as [|fuel IH]; intros need w got free Hf Hb Ha Hn Hneed Hok; [lia|].
  rewrite len_app in Hneed. cbn [fill_loop]. rewrite Ha, go_slice_tail. cbn [gbind].
  destruct (net_read (length free) (net w)) as [[d err] net'] eqn:Hr.
  destruct (net_read_spec _ _ _ _ _ Hr Hok) as (Hd & Hok' & Hin).
  rewrite go_copy_mid by (unfold len; lia). cbn [gbind].
  set (w1 := set_net net' (set_arr (b_buf (bb w)) ((got ++ d) ++ drop (length d) free) w)).
  assert (same_but (b_buf (bb w)) w w1) as Hs by apply (same_but_set_arr (b_buf (bb w)) _ w).
  assert (arr w1 (b_buf (bb w)) = (got ++ d) ++ drop (length d) free) as Ha1 by (by apply arr_set_arr).
  rewrite <- len_app. unfold filled.
  assert (∀ rest, incoming (net w) = d ++ rest → rest = incoming net' → need ≤ len (got ++ d) →
    ∃ r w', Ret (None, set_bb (with_length (len (got ++ d)) (bb w1)) w1) = Ret (r, w') ∧ filled need got w r w') as Hdone.
  { intros rest Hi -> Hge. exists None, (set_bb (with_length (len (got ++ d)) (bb w1)) w1).
    split; [done|]. split; [done|]. rewrite Hi, len_app. pose proof (len_nonneg (incoming net')).
    rewrite len_app in Hge. rewrite (proj2 (Z.leb_le need _)) by lia.
    split; [done|]. split; [done|]. exists d, (drop (length d) free). rewrite len_app. auto. }
  destruct err as [[]|].
  - destruct Hin as [Hi Hi']. destruct (Z.leb_spec need (len (got ++ d))).
    + apply (Hdone []); [by rewrite app_nil_r|done|done].
    + exists (Some UnexpectedEOF), w1. split; [done|]. split; [done|]. rewrite Hi, <- len_app.
      rewrite (proj2 (Z.leb_gt _ _)) by done. by eexists.
  - exists (Some UnexpectedEOF), w1. split; [done|]. split; [done|]. rewrite Hin. 
    rewrite (proj2 (Z.leb_gt _ _)) by (unfold len at 2; simpl; lia). by eexists.
  - exists (Some NetError), w1. split; [done|]. split; [done|]. rewrite Hin. 
    rewrite (proj2 (Z.leb_gt _ _)) by (unfold len at 2; simpl; lia). by eexists.
  - destruct Hin as [Hi Hlt]. destruct (Z.ltb_spec (len (got ++ d)) need) as [Hl|Hl].
    + destruct (IH need w1 (got ++ d) (drop (length d) free)) as (r & w2 & Hw2 & Hs2 & Hf2); try done.
      { destruct Hlt as [Hlt|Hlt]; [simpl; lia|]. rewrite len_app in Hl. unfold len in *. lia. }
      { simpl. by rewrite length_insert. }
      { rewrite !len_app. unfold len in *. rewrite length_drop. lia. }
      exists r, w2. split; [exact Hw2|]. split; [by eapply same_but_trans|].
      change (net w1) with net' in Hf2. change (bb w1) with (bb w) in Hf2.
      rewrite Hi, len_app, Z.add_assoc, <- (len_app got). destruct (need <=? _); [|done].
      destruct Hf2 as (-> & ? & more & fr & ? & ? & ? & Hm). split; [done|]. split; [done|].
      exists (d ++ more), fr. rewrite (assoc_L (++)). split_and!; try done. by rewrite Hm, (assoc_L (++)).
    + by apply (Hdone (incoming net')).
Qed.

(** ** The destination *)

Lemma arr_alloc j w n : (j < length (arrays w))%nat → arr (alloc n w).2 j = arr w j.
Proof. intros Hj. unfold arr, alloc. simpl. by rewrite lookup_app_l. Qed.

Lemma arr_alloc_new w n : arr (alloc n w).2 (length (arrays w)) = replicate (Z.to_nat n) 0.
Proof. unfold arr, alloc. simpl. by rewrite lookup_app_r, Nat.sub_diag. Qed.

Lemma valid_alloc n w : valid w → valid (alloc n w).2.
Proof.
  intros [H1 H2 H3 H4 H5 H6 H7]. split; try done.
  - simpl. rewrite length_app. simpl. lia.
  - rewrite arr_alloc; done.
  - intros i Hi. simpl. rewrite length_app. specialize (H5 i Hi). lia.
  - intros i Hi. simpl. rewrite length_app. specialize (H6 i Hi). lia.
Qed.

(** The slot may be moved to a new array. *)
Lemma valid_set_slot i w :
  valid w → (i < length (arrays w))%nat → b_dbuf0 (bb w) ≠ Some i → b_dbuf1 (bb w) ≠ Some i →
  valid (set_bb (set_slot i (bb w)) w).
Proof.
  intros [H1 H2 H3 H4 H5 H6 H7] Hi N0 N1. unfold set_slot.
  destruct (Z.odd (b_flipcnt (bb w))); split; simpl; try done; intros j Hj; simplify_eq; eauto; congruence.
Qed.

(** The slot that is not in turn; the array in use should not be in it. *)
Definition other (b : buffer) : option nat := if Z.odd (b_flipcnt b) then b_dbuf0 b else b_dbuf1 b.
Definition flippable (w : bworld) : Prop := other (bb w) ≠ Some (b_buf (bb w)).

Lemma slot_other w : valid w → ∀ i, slot (bb w) = Some i → other (bb w) ≠ Some i.
Proof.
  intros Hv i. unfold slot, other. pose proof (valid_slots w Hv i). destruct (Z.odd _); intros H1 H2; auto.
Qed.

Lemma destination_spec need w dest w' :
  valid w → 0 < need → destination need w = (dest, w') →
  valid w' ∧ (dest < length (arrays w'))%nat ∧ need ≤ len (arr w' dest) ∧
  (∀ j, (j < length (arrays w))%nat → arrays w' !! j = arrays w !! j) ∧
  (dest = length (arrays w) ∨ slot (bb w) = Some dest) ∧ net w' = net w ∧
  b_buf (bb w') = b_buf (bb w) ∧ b_idx (bb w') = b_idx (bb w) ∧ b_length (bb w') = b_length (bb w) ∧
  b_flipcnt (bb w') = b_flipcnt (bb w) ∧ other (bb w') ≠ Some dest.
Proof.
  intros Hv Hneed Hd. unfold destination in Hd.
  destruct (Z.ltb_spec (match slot (bb w) with Some i => len (arr w i) | None => 0 end) need) as [Hlt|Hge].
  - set (n := (need / defaultBufSize + 1) * defaultBufSize) in *.
    assert (need ≤ n) as Hn.
    { unfold n, defaultBufSize. pose proof (Z.div_mod need 4096 ltac:(lia)).
      pose proof (Z.mod_pos_bound need 4096 ltac:(lia)). lia. }
    destruct (alloc n w) as [i w1] eqn:Ea. injection Hd as <- <-.
    assert (i = length (arrays w) ∧ w1 = (alloc n w).2) as [-> ->] by (by rewrite Ea; injection Ea as <- <-).
    assert (length (arrays (alloc n w).2) = S (length (arrays w))) as HL by (simpl; rewrite length_app; simpl; lia).
    assert (∀ k, b_dbuf0 (bb w) = Some k ∨ b_dbuf1 (bb w) = Some k → k ≠ length (arrays w)) as Hne.
    { intros k [Hk|Hk] ->; [apply (valid_dbuf0 _ Hv) in Hk|apply (valid_dbuf1 _ Hv) in Hk]; lia. }
    assert (valid (set_bb (set_slot (length (arrays w)) (bb (alloc n w).2)) (alloc n w).2)) as Hv'.
    { apply valid_set_slot; [by apply valid_alloc|lia|..]; simpl; intros Hk; by eapply Hne; eauto. }
    assert (need ≤ len (arr (alloc n w).2 (length (arrays w)))) as Hroom.
    { rewrite arr_alloc_new. unfold len. rewrite length_replicate. lia. }
    destruct (n <=? maxCachedBufSize); split_and!; try done; try (by apply valid_alloc); try lia;
      try (intros j Hj; simpl; by rewrite lookup_app_l); try (by left); try (by right);
      try (simpl; lia); unfold set_slot, other; simpl; destruct (Z.odd (b_flipcnt (bb w))) eqn:E; simpl; rewrite ?E;
      try done; try (rewrite length_app; simpl; lia); intros Hk; by eapply Hne; eauto.
  - injection Hd as <- <-. destruct (slot (bb w)) as [i|] eqn:Es; [|lia].
    split_and!; simpl; try done; auto; [|by apply slot_other]. unfold slot in Es.
    destruct (Z.odd (b_flipcnt (bb w))); [by apply (valid_dbuf1 _ Hv)|by apply (valid_dbuf0 _ Hv)].
Qed.

Lemma arr_ext w w' j : arrays w' !! j = arrays w !! j → arr w' j = arr w j.
Proof. unfold arr. by intros ->. Qed.

Lemma length_pending w : valid w → len (pending w) = b_length (bb w).
Proof.
  intros Hv. unfold pending, sub, len. rewrite length_take, length_drop.
  pose proof (valid_idx _ Hv). pose proof (valid_length _ Hv). pose proof (valid_room _ Hv). unfold len in *. lia.
Qed.

(** The unread bytes are moved to the front of the destination. *)
Lemma move_pending w dest w1 n :
  valid w → valid w1 → (dest < length (arrays w1))%nat → n ≤ len (arr w1 dest) →
  n = b_length (bb w) → b_buf (bb w1) = b_buf (bb w) → b_idx (bb w1) = b_idx (bb w) →
  ∃ w2 free,
    (if 0 <? n then
       let* s := go_slice (arr w (b_buf (bb w))) (b_idx (bb w1)) (len (arr w (b_buf (bb w)))) in
       let* a := go_copy (arr w1 dest) 0 n s in Ret (set_arr dest a w1)
     else Ret w1) = Ret w2 ∧
    bb w2 = bb w1 ∧ net w2 = net w1 ∧ same_but dest w1 w2 ∧ arr w2 dest = pending w ++ free ∧
    len (pending w ++ free) = len (arr w1 dest).
Proof.
  intros Hv Hv1 Hdest Hroom -> Eb Ei.
  pose proof (valid_idx _ Hv). pose proof (valid_length _ Hv). pose proof (valid_room _ Hv).
  pose proof (length_pending w Hv) as Hp.
  destruct (Z.ltb_spec 0 (b_length (bb w))) as [Hn|Hn].
  - rewrite Ei. unfold go_slice. replace (_ && _ && _) with true by lia. cbn [gbind]. unfold go_copy.
    replace (_ && _ && _) with true by lia. cbn [gbind].
    set (s := sub (arr w (b_buf (bb w))) (b_idx (bb w)) (len (arr w (b_buf (bb w))))).
    assert (len s = len (arr w (b_buf (bb w))) - b_idx (bb w)) as Hs.
    { unfold s, sub, len. rewrite length_take, length_drop. unfold len in *. lia. }
    rewrite Z.min_l, Z.sub_0_r by lia. change (Z.to_nat 0) with 0%nat. cbn [take app Nat.add].
    assert (take (Z.to_nat (b_length (bb w))) s = pending w) as ->.
    { unfold s, pending, sub. rewrite take_take. f_equal. lia. }
    exists (set_arr dest (pending w ++ drop (Z.to_nat (b_length (bb w))) (arr w1 dest)) w1), (drop (Z.to_nat (b_length (bb w))) (arr w1 dest)).
    split_and!; try done; [apply same_but_set_arr|by apply arr_set_arr|].
    rewrite len_app, Hp. unfold len in *. rewrite length_drop. lia.
  - assert (pending w = []) as ->.
    { apply length_zero_iff_nil. unfold len in Hp. lia. }
    exists w1, (arr w1 dest). done.
Qed.

Lemma pending_front w a free :
  arr w (b_buf (bb w)) = a ++ free → b_idx (bb w) = 0 → b_length (bb w) = len a → pending w = a.
Proof.
  intros Ha Hi Hl. unfold pending, sub. rewrite Ha, Hi, Hl, Z.add_0_l, Z.sub_0_r, len_to_nat.
  by rewrite drop_0, take_app_length.
Qed.

(** [fill] keeps the stream, and every array but the destination. *)
Lemma fill_spec need w :
  valid w → net_ok (net w) = true → b_length (bb w) < need →
  ∃ r w', fill need w = Ret (r, w') ∧
    (∀ j, (j < length (arrays w))%nat → slot (bb w) ≠ Some j → arrays w' !! j = arrays w !! j) ∧
    if need <=? len (stream w)
    then r = None ∧ valid w' ∧ net_ok (net w') = true ∧ flippable w' ∧
         (b_buf (bb w') = length (arrays w) ∨ slot (bb w) = Some (b_buf (bb w'))) ∧
         stream w' = stream w ∧ need ≤ b_length (bb w')
    else ∃ e, r = Some e.
Proof.
  intros Hv Hok Hlt. pose proof (valid_length _ Hv). unfold fill.
  destruct (destination need w) as [dest w1] eqn:Hd.
  destruct (destination_spec need w dest w1 Hv ltac:(lia) Hd)
    as (Hv1 & Hdest & Hroom & Hold & Hwhich & Hnet & Eb & Ei & El & Ef & Hother).
  destruct (move_pending w dest w1 (b_length (bb w))) as (w2 & free & -> & Hb2 & Hn2 & Hs2 & Ha2 & Hl2); try done; [lia|].
  cbn [gbind]. set (w3 := set_bb _ w2). rewrite <- (length_pending w Hv).
  assert (length (arrays w2) = length (arrays w1)) as HL2 by apply Hs2.
  destruct (fill_loop_spec (net_fuel (net w3)) need w3 (pending w) free) as (r & w' & -> & Hs3 & Hfill);
    [unfold net_fuel; lia|simpl; lia|done|by rewrite length_pending|by rewrite Hl2|by simpl; rewrite Hn2, Hnet|].
  exists r, w'. split; [done|]. split.
  - intros j Hj Hne. assert (j ≠ dest) as Hjd.
    { destruct Hwhich as [->|Hw]; [lia|]. congruence. }
    destruct Hs3 as [_ Hs3]. destruct Hs2 as [_ Hs2]. rewrite Hs3 by done. simpl. by rewrite Hs2, Hold.
  - change (net w3) with (net w2) in Hfill. rewrite Hn2, Hnet in Hfill.
    unfold stream. rewrite len_app. destruct (need <=? _); [|done].
    destruct Hfill as (-> & Hok' & more & fr & Ha' & Hbb & Hge & Hin).
    change (b_buf (bb w3)) with dest in Ha', Hs3.
    assert (arr w' (b_buf (bb w')) = (pending w ++ more) ++ fr) as Ha'' by (by rewrite Hbb).
    split; [done|]. split; [|split; [done|split; [|split; [by rewrite Hbb|split; [|by rewrite Hbb]]]]].
    + destruct Hv1 as [_ _ _ _ V5 V6 V7]. destruct Hs3 as [HL3 _]. simpl in HL3.
      split; rewrite ?Hbb; simpl; rewrite ?Hb2; rewrite ?HL3, ?HL2; try done; try apply len_nonneg.
      rewrite Ha', !len_app. pose proof (len_nonneg fr). lia.
    + unfold flippable, other. rewrite Hbb. simpl. by rewrite Hb2.
    + rewrite (pending_front w' (pending w ++ more) fr) by (done || by rewrite Hbb).
      by rewrite <- (assoc_L (++)), <- Hin.
Qed.

(** Taking bytes that are there. *)
Definition taken (need : Z) (w : bworld) : bworld :=
  let b := bb w in
  set_bb (mk_buffer (b_buf b) (b_idx b + need) (b_length b - need) (b_dbuf0 b) (b_dbuf1 b) (b_flipcnt b)) w.

Lemma sub_split {A} (l : list A) a n m :
  0 ≤ a → 0 ≤ n ≤ m → sub l a (a + m) = sub l a (a + n) ++ sub l (a + n) (a + m).
Proof.
  intros Ha Hn. unfold sub. replace (a + m - a) with m by lia. replace (a + n - a) with n by lia.
  replace (a + m - (a + n)) with (m - n) by lia.
  rewrite Z2Nat.inj_add, <- drop_drop by lia.
  rewrite <- (take_drop (Z.to_nat n) (take (Z.to_nat m) _)), take_take, Nat.min_l by lia.
  f_equal. rewrite !drop_drop, !take_drop_commute, drop_drop. do 2 f_equal. lia.
Qed.

Lemma taken_spec need w :
  valid w → 0 ≤ need ≤ b_length (bb w) →
  go_slice (arr (taken need w) (b_buf (bb w))) (b_idx (bb w)) (b_idx (bb w) + need)
    = Ret (take (Z.to_nat need) (stream w)) ∧
  stream (taken need w) = drop (Z.to_nat need) (stream w) ∧ valid (taken need w).
Proof.
  intros Hv Hneed. pose proof (valid_idx _ Hv). pose proof (valid_room _ Hv).
  pose proof (length_pending w Hv) as Hp.
  set (s := sub (arr w (b_buf (bb w))) (b_idx (bb w)) (b_idx (bb w) + need)).
  assert (pending w = s ++ pending (taken need w)) as Hsplit.
  { unfold pending, taken. simpl. unfold s. replace (b_idx (bb w) + need + (b_length (bb w) - need)) with (b_idx (bb w) + b_length (bb w)) by lia.
    by apply sub_split. }
  assert (length s = Z.to_nat need) as Hs.
  { unfold s, sub. rewrite length_take, length_drop. unfold len in *. lia. }
  unfold stream. rewrite Hsplit, <- (assoc_L (++)), <- Hs, take_app_length, drop_app_length. split_and!; [|done|].
  - change (arr (taken need w)) with (arr w). unfold go_slice. by replace (_ && _ && _) with true by lia.
  - destruct Hv as [V1 V2 V3 V4 V5 V6 V7]. split; simpl; try done; try lia.
    change (arr (taken need w)) with (arr w). unfold taken, set_bb, arr in *. simpl in *. lia.
Qed.

(** [readNext] takes the next bytes of the stream, or reports that there are not enough. *)
Lemma readNext_spec need w :
  valid w → net_ok (net w) = true → 0 ≤ need →
  ∃ r w', readNext need w = Ret (r, w') ∧
    if need <=? len (stream w)
    then r = inl (take (Z.to_nat need) (stream w)) ∧ stream w' = drop (Z.to_nat need) (stream w) ∧
         valid w' ∧ net_ok (net w') = true
    else ∃ e, r = inr e.
Proof.
  intros Hv Hok Hneed. unfold readNext.
  destruct (Z.ltb_spec (b_length (bb w)) need) as [Hlt|Hge].
  - destruct (fill_spec need w Hv Hok Hlt) as (r & w1 & -> & _ & Hfill). cbn [gbind].
    destruct (need <=? len (stream w)).
    + destruct Hfill as (-> & Hv1 & Hok1 & _ & _ & Hs & Hn).
      destruct (taken_spec need w1 Hv1 ltac:(lia)) as (Hg & Hd & Hvt). unfold taken in *.
      rewrite Hg. cbn [gbind]. rewrite Hs in *. eauto 10.
    + destruct Hfill as [e ->]. eauto.
  - cbn [gbind]. destruct (taken_spec need w Hv ltac:(lia)) as (Hg & Hd & Hvt). unfold taken in *.
    rewrite Hg. cbn [gbind]. rewrite (proj2 (Z.leb_le _ _)); [eauto 10|].
    unfold stream. rewrite len_app, length_pending by done. pose proof (len_nonneg (incoming (net w))). lia.
Qed.

(** C36: The read buffer is a byte stream: however the network cuts the data, readNext returns
    the next bytes of the stream and leaves the rest, and fails when there are fewer. *)
Theorem readNext_stream need w :
  valid w → net_ok (net w) = true → 0 ≤ need →
  ∃ r w', readNext need w = Ret (r, w') ∧
    if need <=? len (stream w)
    then r = inl (take (Z.to_nat need) (stream w)) ∧ stream w' = drop (Z.to_nat need) (stream w) ∧
         valid w' ∧ net_ok (net w') = true
    else ∃ e, r = inr e.
Proof. apply readNext_spec. Qed.

Definition cut_stream : reads := [(B "ab", None); ([], None); (B "cdef", None); (B "g", Some EOF)].

Lemma readNext_stream_witness :
  ∃ r w', readNext 5 (newBuffer cut_stream) = Ret (r, w') ∧ r = inl (B "abcde") ∧ stream w' = B "fg" ∧
    valid w' ∧ net_ok (net w') = true.
Proof. exact (readNext_stream 5 (newBuffer cut_stream) (valid_newBuffer _) eq_refl ltac:(lia)). Defined.

(** ** Double buffering *)

Lemma slot_flip w : slot (bb (flip w)) = other (bb w).
Proof.
  unfold slot, other, flip. simpl. unfold uwrap.
  rewrite <- !Z.bit0_odd, Z.mod_pow2_bits_low, !Z.bit0_odd by lia.
  rewrite Z.add_1_r, Z.odd_succ, <- Z.negb_odd. by destruct (Z.odd _).
Qed.

Lemma flippable_newBuffer n : flippable (newBuffer n).
Proof. done. Qed.

(** After flip, reading more does not write to the array whose bytes were handed out
    before. *)
Theorem flip_keeps_handed_out need w :
  valid w → net_ok (net w) = true → flippable w → 0 ≤ need ≤ len (stream w) → b_length (bb w) < need →
  ∃ s w', readNext need (flip w) = Ret (inl s, w') ∧
    arrays w' !! b_buf (bb w) = arrays w !! b_buf (bb w) ∧ b_buf (bb w') ≠ b_buf (bb w) ∧ flippable w'.
Proof.
  intros Hv Hok Hfl Hneed Hlt. unfold readNext.
  rewrite (proj2 (Z.ltb_lt (b_length (bb (flip w))) need)) by done.
  assert (valid (flip w)) as Hvf by (by destruct Hv; split).
  destruct (fill_spec need (flip w) Hvf Hok Hlt) as (r & w1 & -> & Hkeep & Hfill). cbn [gbind].
  change (stream (flip w)) with (stream w) in Hfill. rewrite (proj2 (Z.leb_le _ _)) in Hfill by lia.
  destruct Hfill as (-> & Hv1 & Hok1 & Hfl1 & Hw & Hs & Hn).
  destruct (taken_spec need w1 Hv1 ltac:(lia)) as (Hg & _). unfold taken in Hg.
  rewrite Hg. cbn [gbind]. do 2 eexists. split; [done|]. simpl.
  split; [apply Hkeep; [apply Hv|by rewrite slot_flip]|]. split; [|done].
  pose proof (valid_buf _ Hv). destruct Hw as [->|Hw]; [simpl; lia|].
  rewrite slot_flip in Hw. intros E. apply Hfl. by rewrite Hw, E.
Qed.

Lemma flip_keeps_handed_out_witness :
  ∃ s w', readNext 5 (flip (newBuffer cut_stream)) = Ret (inl s, w') ∧
    arrays w' !! 0%nat = arrays (newBuffer cut_stream) !! 0%nat ∧ b_buf (bb w') ≠ 0%nat ∧ flippable w'.
Proof.
  exact (flip_keeps_handed_out 5 (newBuffer cut_stream) (valid_newBuffer _) eq_refl (flippable_newBuffer _)
           ltac:(vm_compute; split; discriminate) ltac:(vm_compute; reflexivity)).
Defined.
