(* ===== verification/MysqlConn.v ===== *)
(** * [mysql/packets.go], [mysql/connection.go]: packets and commands

    A connection frames its payloads in packets of at most 2^24-1 bytes with a sequence
    number, sends commands and reads the replies of the text protocol.  What is written is
    collected in [out]; the array of the buffer that a packet is built in is not written
    back, since every byte of it is set again before it is used. *)

From S2P Require Import Prelude GoStrings MysqlUtils MysqlBuffer.

(** ** The connection *)

Inductive merror :=
| ErrInvalidConn | ErrPktSync | ErrPktSyncMul | ErrPktTooLarge | ErrMalformPkt
| ErrBadConn | errBadConnNoWrite | ErrSkip | ErrCanceled | ErrEOF | ErrColumnCount
| ErrInFile | ErrTime | ErrArgCount | ErrConvert | ErrDecimals (n : Z) | ErrFieldType (t : Z)
| ErrBusyBuffer | ErrNoTLS | ErrCleartextPassword | ErrNativePassword | ErrOldPassword | ErrUnknownPlugin | ErrOldProtocol
| ErrProtocolVersion (v : Z) | ErrCollation | ErrTLS | ErrPublicKey | ErrEncrypt | ErrDial | ErrKeepAlive
| MySQLError (number : Z) (message : bytes).

(** What the next [netConn.Write] does: fail or write short after [n] bytes. *)
Inductive write_out := WriteErr (n : nat) | WriteShort (n : nat).

(** The options of [Config] the commands read. *)
Record mconfig := mk_cfg {
  InterpolateParams : bool; RejectReadOnly : bool; ColumnsWithAlias : bool; AllowAllFiles : bool }.

(** [type mysqlConn struct]; [stale] is what [connCheck] will find, [wouts] what the writes
    will do, all of them succeeding after the list. *)
Record mysqlConn := mk_conn {
  world : bworld; out : bytes; wouts : list (option write_out); stale : bool;
  affectedRows : Z; insertId : Z; cfg : mconfig; maxAllowedPacket : Z; maxWriteSize : Z;
  status : Z; sequence : Z; reset : bool; canceled : bool; closed : bool }.

(** Operations on a connection: a value or an error, and the connection after it. *)
Definition MC (A : Type) : Type := mysqlConn → Go ((A + merror) * mysqlConn).
Definition mret {A} (a : A) : MC A := fun mc => Ret (inl a, mc).
Definition mfail {A} (e : merror) : MC A := fun mc => Ret (inr e, mc).
Definition mbind {A C} (m : MC A) (k : A → MC C) : MC C := fun mc =>
  let* (r, mc) := m mc in
  match r with inl a => k a mc | inr e => Ret (inr e, mc) end.
(** The error of [m] is dropped, as in [mc.Close()]. *)
Definition mignore {A} (m : MC A) : MC unit := fun mc => let* (_, mc) := m mc in Ret (inl tt, mc).
Definition mgo {A} (g : Go A) : MC A := fun mc => let* a := g in Ret (inl a, mc).
Definition mget {A} (f : mysqlConn → A) : MC A := fun mc => Ret (inl (f mc), mc).

Declare Scope mc_scope.
Delimit Scope mc_scope with mc.
Notation "x <-- c1 ;; c2" := (mbind c1 (fun x => c2)) (at level 100, c1 at next level, right associativity) : mc_scope.
Notation "c1 ;;; c2" := (mbind c1 (fun _ => c2)) (at level 100, right associativity) : mc_scope.
Open Scope mc_scope.

Definition set_world (w : bworld) (mc : mysqlConn) : mysqlConn :=
  mk_conn w (out mc) (wouts mc) (stale mc) (affectedRows mc) (insertId mc) (cfg mc) (maxAllowedPacket mc) (maxWriteSize mc)
    (status mc) (sequence mc) (reset mc) (canceled mc) (closed mc).
Definition set_out (o : bytes) (ws : list (option write_out)) (mc : mysqlConn) : mysqlConn :=
  mk_conn (world mc) o ws (stale mc) (affectedRows mc) (insertId mc) (cfg mc) (maxAllowedPacket mc) (maxWriteSize mc)
    (status mc) (sequence mc) (reset mc) (canceled mc) (closed mc).
Definition set_result (a i : Z) (mc : mysqlConn) : mysqlConn :=
  mk_conn (world mc) (out mc) (wouts mc) (stale mc) a i (cfg mc) (maxAllowedPacket mc) (maxWriteSize mc)
    (status mc) (sequence mc) (reset mc) (canceled mc) (closed mc).
Definition set_status (s : Z) (mc : mysqlConn) : mysqlConn :=
  mk_conn (world mc) (out mc) (wouts mc) (stale mc) (affectedRows mc) (insertId mc) (cfg mc) (maxAllowedPacket mc) (maxWriteSize mc)
    s (sequence mc) (reset mc) (canceled mc) (closed mc).
Definition set_sequence (n : Z) (mc : mysqlConn) : mysqlConn :=
  mk_conn (world mc) (out mc) (wouts mc) (stale mc) (affectedRows mc) (insertId mc) (cfg mc) (maxAllowedPacket mc) (maxWriteSize mc)
    (status mc) n (reset mc) (canceled mc) (closed mc).
Definition set_reset (b : bool) (mc : mysqlConn) : mysqlConn :=
  mk_conn (world mc) (out mc) (wouts mc) (stale mc) (affectedRows mc) (insertId mc) (cfg mc) (maxAllowedPacket mc) (maxWriteSize mc)
    (status mc) (sequence mc) b (canceled mc) (closed mc).
Definition set_closed (mc : mysqlConn) : mysqlConn :=
  mk_conn (world mc) (out mc) (wouts mc) (stale mc) (affectedRows mc) (insertId mc) (cfg mc) (maxAllowedPacket mc) (maxWriteSize mc)
    (status mc) (sequence mc) (reset mc) (canceled mc) true.
Definition modify (f : mysqlConn → mysqlConn) : MC unit := fun mc => Ret (inl tt, f mc).

(** [func (mc mysqlConn) cleanup()]: a closed connection answers no read. *)
Definition cleanup (mc : mysqlConn) : mysqlConn :=
  if closed mc then mc else set_closed (set_world (set_net [([], Some NetError)] (world mc)) mc).

(** ** Writing *)

(** [netConn.Write(bs)]: the bytes written and whether there was an error *)
Definition net_write (bs : bytes) (mc : mysqlConn) : Z * bool * mysqlConn :=
  if closed mc then (0, true, mc)
  else match wouts mc with
  | [] => (len bs, false, set_out (out mc ++ bs) [] mc)
  | None :: ws => (len bs, false, set_out (out mc ++ bs) ws mc)
  | Some (WriteErr n) :: ws => (len (take n bs), true, set_out (out mc ++ take n bs) ws mc)
  | Some (WriteShort n) :: ws => (len (take n bs), false, set_out (out mc ++ take n bs) ws mc)
  end.

(** [data[0], data[1], data[2], data[3] = size, sequence] *)
Definition put_header (size seq : Z) (data : bytes) : Go bytes :=
  let* data := go_set data 0 (uwrap 8 size) in
  let* data := go_set data 1 (uwrap 8 (Z.shiftr size 8)) in
  let* data := go_set data 2 (uwrap 8 (Z.shiftr size 16)) in
  go_set data 3 seq.

(** The loop of [writePacket]; [pktLen] bytes of payload are left behind the four of the
    header. *)
Fixpoint write_loop (fuel : nat) (data : bytes) (pktLen : Z) (mc : mysqlConn) : Go ((unit + merror) * mysqlConn) :=
  match fuel with
  | O => Ret (inr ErrInvalidConn, mc)
  | S k =>
      let size := if maxPacketSize <=? pktLen then maxPacketSize else pktLen in
      let* data := put_header size (sequence mc) data in
      let* frame := go_slice data 0 (4 + size) in
      let '(n, err, mc) := net_write frame mc in
      if negb err && (n =? 4 + size) then
        let mc := set_sequence (uwrap 8 (sequence mc + 1)) mc in
        if negb (size =? maxPacketSize) then Ret (inl tt, mc)
        else
          let* data' := go_slice data size (len data) in
          write_loop k data' (pktLen - size) mc
      else if negb err then Ret (inr ErrInvalidConn, cleanup mc)
      else if canceled mc then Ret (inr ErrCanceled, mc)
      else if (n =? 0) && (pktLen =? len data - 4) then Ret (inr errBadConnNoWrite, mc)
      else Ret (inr ErrInvalidConn, cleanup mc)
  end.

(** [func (mc mysqlConn) writePacket(data []byte) error], without the stale check *)
Definition write_payload (data : bytes) (mc : mysqlConn) : Go ((unit + merror) * mysqlConn) :=
  let pktLen := len data - 4 in
  write_loop (S (Z.to_nat (pktLen / maxPacketSize))) data pktLen mc.

(** [writeCommandPacket] on a connection that need not be checked: the buffer is taken, the
    command is written behind the header. *)
Definition command_data (command : Z) (mc : mysqlConn) : Go (option bytes) :=
  let* t := takeSmallBuffer 5 (world mc) in
  match t with
  | None => Ret None
  | Some (i, n) => let* data := go_set (take (Z.to_nat n) (arr (world mc) i)) 4 command in Ret (Some data)
  end.
Definition comQuit : Z := 1.
Definition checked_quit (mc : mysqlConn) : Go ((unit + merror) * mysqlConn) :=
  let mc := set_sequence 0 mc in
  let* data := command_data comQuit mc in
  match data with
  | None => Ret (inr errBadConnNoWrite, mc)
  | Some data =>
      if maxAllowedPacket mc <? len data - 4 then Ret (inr ErrPktTooLarge, mc) else write_payload data mc
  end.
(** [mc.Close()] when [reset] is not set *)
Definition checked_Close (mc : mysqlConn) : Go mysqlConn :=
  let* (_, mc) := if closed mc then Ret (inl tt, mc) else checked_quit mc in
  Ret (cleanup mc).

(** [func (mc mysqlConn) writePacket(data []byte) error]: [reset] is cleared before the
    connection is closed, so that closing it does not check it again. *)
Definition writePacket (data : bytes) : MC unit := fun mc =>
  let pktLen := len data - 4 in
  if maxAllowedPacket mc <? pktLen then Ret (inr ErrPktTooLarge, mc)
  else if reset mc then
    let mc := set_reset false mc in
    if stale mc then let* mc := checked_Close mc in Ret (inr ErrBadConn, mc)
    else write_payload data mc
  else write_payload data mc.

(** [func (mc mysqlConn) writeCommandPacket(command byte) error] *)
Definition writeCommandPacket (command : Z) : MC unit := fun mc =>
  let mc := set_sequence 0 mc in
  let* data := command_data command mc in
  match data with
  | None => Ret (inr errBadConnNoWrite, mc)
  | Some data => writePacket data mc
  end.

(** [func (mc mysqlConn) Close() (err error)] *)
Definition conn_Close : MC unit := fun mc =>
  let* (r, mc) := if closed mc then Ret (inl tt, mc) else writeCommandPacket comQuit mc in
  Ret (r, cleanup mc).

(** ** Reading *)

(** Every round of the loop takes a header off what can still be read. *)
Definition read_fuel (w : bworld) : nat :=
  S (Z.to_nat (b_length (bb w)) + foldr (fun x k => length x.1 + k)%nat 0%nat (net w)).

(** [readNext] with the handling of its error *)
Definition next (need : Z) : MC bytes := fun mc =>
  let* (r, w) := readNext need (world mc) in
  let mc := set_world w mc in
  match r with
  | inl data => Ret (inl data, mc)
  | inr _ =>
      if canceled mc then Ret (inr ErrCanceled, mc)
      else let* (_, mc) := conn_Close mc in Ret (inr ErrInvalidConn, mc)
  end.

(** The loop of [readPacket]; [prevData] is nil before the first packet of the full size. *)
Fixpoint read_loop (fuel : nat) (prevData : option bytes) : MC bytes :=
  match fuel with
  | O => mfail ErrInvalidConn
  | S k =>
      data <-- next 4 ;;
      d0 <-- mgo (go_index data 0) ;; d1 <-- mgo (go_index data 1) ;; d2 <-- mgo (go_index data 2) ;;
      d3 <-- mgo (go_index data 3) ;;
      let pktLen := Z.lor (Z.lor d0 (Z.shiftl d1 8)) (Z.shiftl d2 16) in
      seq <-- mget sequence ;;
      if negb (d3 =? seq) then mfail (if seq <? d3 then ErrPktSyncMul else ErrPktSync)
      else
        modify (fun mc => set_sequence (uwrap 8 (sequence mc + 1)) mc) ;;;
        if pktLen =? 0 then
          match prevData with
          | None => mignore conn_Close ;;; mfail ErrInvalidConn
          | Some p => mret p
          end
        else
          body <-- next pktLen ;;
          if pktLen <? maxPacketSize then mret (default [] prevData ++ body)
          else read_loop k (Some (default [] prevData ++ body))
  end.

(** [func (mc mysqlConn) readPacket() ([]byte, error)] *)
Definition readPacket : MC bytes := fun mc => read_loop (read_fuel (world mc)) None mc.
