(* ===== verification/MysqlQuery.v ===== *)
(** * [mysql/packets.go], [mysql/connection.go], [mysql/rows.go]: commands and text results

    The replies of the server: OK and ERR packets, column definitions, rows of the text
    protocol; the commands built on them, and the client-side interpolation of arguments. *)

From S2P Require Import Prelude GoStrings MysqlUtils MysqlBuffer MysqlConn Mysql.
Open Scope mc_scope.

Definition iOK : Z := 0.
Definition iLocalInFile : Z := 251.
Definition iEOF : Z := 254.
Definition iERR : Z := 255.
Definition comQuery : Z := 3.
Definition comPing : Z := 14.
Definition statusMoreResultsExists : Z := 8.
Definition statusNoBackslashEscapes : Z := 512.

(** [m] with its error as a value *)
Definition mtry {A} (m : MC A) : MC (A + merror) := fun mc => let* (r, mc) := m mc in Ret (inl r, mc).

(** ** Commands *)

(** The bytes of a slice of an array *)
Definition slice_bytes (mc : mysqlConn) (t : nat * Z) : bytes := take (Z.to_nat t.2) (arr (world mc) t.1).

(** [func (mc mysqlConn) writeCommandPacketStr(command byte, arg string) error] *)
Definition writeCommandPacketStr (command : Z) (arg : bytes) : MC unit := fun mc =>
  let mc := set_sequence 0 mc in
  let pktLen := 1 + len arg in
  let (t, w) := takeBuffer (pktLen + 4) (world mc) in
  let mc := set_world w mc in
  match t with
  | None => Ret (inr errBadConnNoWrite, mc)
  | Some t =>
      let* data := go_set (slice_bytes mc t) 4 command in
      let* data := go_copy data 5 (len data) arg in
      writePacket data mc
  end.

(** [func (mc mysqlConn) writeCommandPacketUint32(command byte, arg uint32) error] *)
Definition writeCommandPacketUint32 (command arg : Z) : MC unit := fun mc =>
  let mc := set_sequence 0 mc in
  let* t := takeSmallBuffer 9 (world mc) in
  match t with
  | None => Ret (inr errBadConnNoWrite, mc)
  | Some t =>
      let* data := go_set (slice_bytes mc t) 4 command in
      let* data := go_set data 5 (uwrap 8 arg) in
      let* data := go_set data 6 (uwrap 8 (Z.shiftr arg 8)) in
      let* data := go_set data 7 (uwrap 8 (Z.shiftr arg 16)) in
      let* data := go_set data 8 (uwrap 8 (Z.shiftr arg 24)) in
      writePacket data mc
  end.

(** ** Replies *)

(** [func readStatus(b []byte) statusFlag] *)
Definition readStatus (b : bytes) : Go Z :=
  let* b0 := go_index b 0 in let* b1 := go_index b 1 in Ret (Z.lor b0 (Z.shiftl b1 8)).

(** [func (mc mysqlConn) handleOkPacket(data []byte) error] *)
Definition handleOkPacket (data : bytes) : MC unit :=
  d <-- mgo (go_slice data 1 (len data)) ;;
  a <-- mgo (readLengthEncodedInteger d) ;;
  let '(rows, _, n) := a in
  modify (fun mc => set_result rows (insertId mc) mc) ;;;
  d <-- mgo (go_slice data (1 + n) (len data)) ;;
  i <-- mgo (readLengthEncodedInteger d) ;;
  let '(id, _, m) := i in
  modify (fun mc => set_result (affectedRows mc) id mc) ;;;
  d <-- mgo (go_slice data (1 + n + m) (1 + n + m + 2)) ;;
  s <-- mgo (readStatus d) ;;
  modify (set_status s).

(** [func (mc mysqlConn) handleErrorPacket(data []byte) error]; it always returns an error. *)
Definition handleErrorPacket {A} (data : bytes) : MC A :=
  d0 <-- mgo (go_index data 0) ;;
  if negb (d0 =? iERR) then mfail ErrMalformPkt
  else
    e <-- mgo (go_slice data 1 3) ;;
    let errno := le_uint e in
    c <-- mget cfg ;;
    if ((errno =? 1792) || (errno =? 1290)) && RejectReadOnly c
    then mignore conn_Close ;;; mfail ErrBadConn
    else
      d3 <-- mgo (go_index data 3) ;;
      m <-- mgo (go_slice data (if d3 =? 35 then 9 else 3) (len data)) ;;
      mfail (MySQLError errno m).

(** [func (mc mysqlConn) readResultOK() error] *)
Definition readResultOK : MC unit :=
  data <-- readPacket ;;
  d0 <-- mgo (go_index data 0) ;;
  if d0 =? iOK then handleOkPacket data else handleErrorPacket data.

(** ** Local files ([mysql/infile.go])

    What a LOCAL INFILE request names: the reads of a registered reader, or of a file that is
    registered or allowed; [None] is an error before anything is read. *)
Section InFile.
Context (reader : bytes → option (list bytes)) (registered : bytes → bool) (file : bytes → option bytes).

(** [strings.Trim] with one byte *)
Fixpoint trim_left (c : Z) (s : bytes) : bytes :=
  match s with x :: t => if x =? c then trim_left c t else s | [] => [] end.
Definition Trim (c : Z) (s : bytes) : bytes := reverse (trim_left c (reverse (trim_left c s))).

(** The reads of a file in pieces of [size] bytes *)
Fixpoint pieces (fuel : nat) (size : nat) (b : bytes) : list bytes :=
  match fuel, b with
  | S k, _ :: _ => take size b :: pieces k size (drop size b)
  | _, _ => []
  end.

Definition infile_source (name : bytes) (mc : mysqlConn) : option (list bytes) :=
  let packetSize := Z.min 16384 (maxWriteSize mc) in
  let idx := Index name (B "Reader::") in
  if (idx =? 0) || ((0 <? idx) && (default 0 (name !! Z.to_nat (idx - 1)) =? chr "/"))
  then reader (drop (Z.to_nat (idx + 8)) name)
  else
    let name := Trim 34 name in
    if AllowAllFiles (cfg mc) || registered name
    then match file name with
         | Some b => Some (if 0 <? Z.min packetSize (len b) then pieces (length b) (Z.to_nat (Z.min packetSize (len b))) b else [])
         | None => None
         end
    else None.

(** One packet per read that delivers data *)
Fixpoint send_reads (l : list bytes) : MC unit :=
  match l with
  | [] => mret tt
  | b :: l' => (if 0 <? len b then writePacket (replicate 4 0 ++ b) else mret tt) ;;; send_reads l'
  end.

(** [func (mc mysqlConn) handleInFileRequest(name string) (err error)] *)
Definition handleInFileRequest (name : bytes) : MC unit :=
  src <-- mget (infile_source name) ;;
  match src with
  | Some l => send_reads l ;;; writePacket (replicate 4 0) ;;; readResultOK
  | None => writePacket (replicate 4 0) ;;; mignore readPacket ;;; mfail ErrInFile
  end.

(** [func (mc mysqlConn) readResultSetHeaderPacket() (int, error)] *)
Definition readResultSetHeaderPacket : MC Z :=
  data <-- readPacket ;;
  d0 <-- mgo (go_index data 0) ;;
  if d0 =? iOK then handleOkPacket data ;;; mret 0
  else if d0 =? iERR then handleErrorPacket data
  else if d0 =? iLocalInFile then
    name <-- mgo (go_slice data 1 (len data)) ;; handleInFileRequest name ;;; mret 0
  else
    r <-- mgo (readLengthEncodedInteger data) ;;
    let '(num, _, n) := r in
    if n - len data =? 0 then mret (swrap 64 num) else mfail ErrMalformPkt.

(** [func (mc mysqlConn) readUntilEOF() error] *)
Fixpoint until_eof (fuel : nat) : MC unit :=
  match fuel with
  | O => mfail ErrInvalidConn
  | S k =>
      data <-- readPacket ;;
      d0 <-- mgo (go_index data 0) ;;
      if d0 =? iERR then handleErrorPacket data
      else if d0 =? iEOF then
        (if len data =? 5 then
           d <-- mgo (go_slice data 3 (len data)) ;; s <-- mgo (readStatus d) ;; modify (set_status s)
         else mret tt)
      else until_eof k
  end.
Definition readUntilEOF : MC unit := fun mc => until_eof (read_fuel (world mc)) mc.

(** [func (mc mysqlConn) discardResults() error] *)
Fixpoint discard_loop (fuel : nat) : MC unit :=
  match fuel with
  | O => mfail ErrInvalidConn
  | S k =>
      s <-- mget status ;;
      if Z.land s statusMoreResultsExists =? 0 then mret tt
      else
        resLen <-- readResultSetHeaderPacket ;;
        (if 0 <? resLen then readUntilEOF ;;; readUntilEOF else mret tt) ;;;
        discard_loop k
  end.
Definition discardResults : MC unit := fun mc => discard_loop (read_fuel (world mc)) mc.

(** ** Columns *)

(** [data[pos:]] and a length-encoded string there: the position behind it *)
Definition skip_at (data : bytes) (pos : Z) : MC Z :=
  d <-- mgo (go_slice data pos (len data)) ;;
  r <-- mgo (skipLengthEncodedString d) ;;
  let (n, eof) := r in if eof : bool then mfail ErrEOF else mret (pos + n).
Definition string_at (data : bytes) (pos : Z) : MC (bytes * bool * Z) :=
  d <-- mgo (go_slice data pos (len data)) ;;
  r <-- mgo (readLengthEncodedString d) ;;
  let '(s, isNull, n, eof) := r in
  if eof : bool then mfail ErrEOF else mret (default [] s, isNull, pos + n).

(** The body of the loop of [readColumns] on a column definition *)
Definition column_of (alias : bool) (data : bytes) (i count : Z) : MC mysqlField :=
  pos <-- skip_at data 0 ;;
  pos <-- skip_at data pos ;;
  t <-- (if alias then s <-- string_at data pos ;; let '(s, _, pos) := s in
                       if i <? count then mret (s, pos) else mgo (Panic IndexOutOfRange)
         else pos <-- skip_at data pos ;; mret ([], pos)) ;;
  let (tableName, pos) := t in
  pos <-- skip_at data pos ;;
  n <-- string_at data pos ;;
  let '(name, _, pos) := n in
  (if i <? count then mret tt else mgo (Panic IndexOutOfRange)) ;;;
  pos <-- skip_at data pos ;;
  let pos := pos + 1 in
  charSet <-- mgo (go_index data pos) ;;
  let pos := pos + 2 in
  length <-- mgo (go_slice data pos (pos + 4)) ;;
  let pos := pos + 4 in
  ft <-- mgo (go_index data pos) ;;
  let pos := pos + 1 in
  flags <-- mgo (go_slice data pos (pos + 2)) ;;
  let pos := pos + 2 in
  decimals <-- mgo (go_index data pos) ;;
  mret (mk_field tableName name (le_uint length) (le_uint flags) ft decimals charSet).

(** [func (mc mysqlConn) readColumns(count int) ([]mysqlField, error)]; a [mysqlField] takes 48
    bytes. *)
Fixpoint columns_loop (fuel : nat) (count : Z) (columns : list mysqlField) : MC (list mysqlField) :=
  match fuel with
  | O => mfail ErrInvalidConn
  | S k =>
      data <-- readPacket ;;
      d0 <-- mgo (go_index data 0) ;;
      if (d0 =? iEOF) && ((len data =? 5) || (len data =? 1)) then
        if len columns =? count then mret columns else mfail ErrColumnCount
      else
        c <-- mget cfg ;;
        f <-- column_of (ColumnsWithAlias c) data (len columns) count ;;
        columns_loop k count (columns ++ [f])
  end.
Definition readColumns (count : Z) : MC (list mysqlField) := fun mc =>
  (_ <-- mgo (go_make 48 count) ;; columns_loop (read_fuel (world mc)) count []) mc.

(** ** Rows of the text protocol ([mysql/rows.go]) *)

(** The times of [parseTime]: [time.Parse] and the zone are those of the environment. *)
Context {Time : Type} (zeroTime : Time) (time_Parse : bytes → bytes → option Time) (in_loc : Time → Time).

Inductive cell := CNull | CBytes (b : bytes) | CTime (t : Time).

(** [func parseDateTime(str string, loc *time.Location) (t time.Time, err error)] *)
Definition timeFormat : bytes := B "2006-01-02 15:04:05.999999".
Definition parseDateTime (str : bytes) : option Time :=
  if mem (len str) [10; 19; 21; 22; 23; 24; 25; 26] then
    if beq str (take (length str) (B "0000-00-00 00:00:00.0000000")) then Some zeroTime
    else in_loc <$> time_Parse (take (length str) timeFormat) str
  else None.

(** [type mysqlRows struct]: [r_mc] says that the connection is still attached. *)
Record textRows := mk_rows { r_mc : bool; r_columns : list mysqlField; r_done : bool }.

(** One value: its length-encoded text, parsed as a time where the column asks for it *)
Definition cell_of (parseTime : bool) (f : mysqlField) (data : bytes) (pos : Z) : MC (cell * Z) :=
  r <-- string_at data pos ;;
  let '(s, isNull, pos) := r in
  if isNull : bool then mret (CNull, pos)
  else if parseTime && mem (f_type f) [fieldTypeTimestamp; fieldTypeDateTime; fieldTypeDate; fieldTypeNewDate]
  then match parseDateTime s with Some t => mret (CTime t, pos) | None => mfail ErrTime end
  else mret (CBytes s, pos).
Fixpoint row_of (parseTime : bool) (fs : list mysqlField) (data : bytes) (pos : Z) : MC (list cell) :=
  match fs with
  | [] => mret []
  | f :: fs' =>
      r <-- cell_of parseTime f data pos ;;
      let (c, pos) := r in
      cs <-- row_of parseTime fs' data pos ;; mret (c :: cs)
  end.

(** [func (rows textRows) readRow(dest []driver.Value) error], [dest] having one element per
    column; the error is a value because [rows] changes with it. *)
Definition readRow (parseTime : bool) (rows : textRows) : MC ((list cell + merror) * textRows) :=
  if r_done rows then mret (inr ErrEOF, rows)
  else
    p <-- mtry readPacket ;;
    match p with
    | inr e => mret (inr e, rows)
    | inl data =>
        d0 <-- mgo (go_index data 0) ;;
        if (d0 =? iEOF) && (len data =? 5) then
          d <-- mgo (go_slice data 3 (len data)) ;;
          s <-- mgo (readStatus d) ;;
          modify (set_status s) ;;;
          let more := negb (Z.land s statusMoreResultsExists =? 0) in
          mret (inr ErrEOF, mk_rows (r_mc rows && more) (r_columns rows) true)
        else if d0 =? iERR then
          e <-- mtry (handleErrorPacket (A := list cell) data) ;;
          mret (e, mk_rows false (r_columns rows) (r_done rows))
        else
          r <-- mtry (row_of parseTime (r_columns rows) data 0) ;; mret (r, rows)
    end.

(** [func (mc mysqlConn) error() error] *)
Definition conn_error (mc : mysqlConn) : option merror :=
  if closed mc then Some (if canceled mc then ErrCanceled else ErrInvalidConn) else None.

(** [func (rows textRows) Next(dest []driver.Value) error] *)
Definition Next (parseTime : bool) (rows : textRows) : MC ((list cell + merror) * textRows) :=
  if r_mc rows then
    e <-- mget conn_error ;;
    match e with Some e => mret (inr e, rows) | None => readRow parseTime rows end
  else mret (inr ErrEOF, rows).

(** [func (rows mysqlRows) nextResultSet() (int, error)] *)
Definition nextResultSet (rows : textRows) : MC ((Z + merror) * textRows) :=
  if negb (r_mc rows) then mret (inr ErrEOF, rows)
  else
    e <-- mget conn_error ;;
    match e with
    | Some e => mret (inr e, rows)
    | None =>
        u <-- mtry (if r_done rows then mret tt else readUntilEOF) ;;
        match u with
        | inr e => mret (inr e, rows)
        | inl _ =>
            s <-- mget status ;;
            if Z.land s statusMoreResultsExists =? 0
            then mret (inr ErrEOF, mk_rows false (r_columns rows) true)
            else
              r <-- mtry readResultSetHeaderPacket ;;
              mret (r, mk_rows true [] false)
        end
    end.

(** [func (rows mysqlRows) nextNotEmptyResultSet() (int, error)] *)
Fixpoint nextNotEmptyResultSet (fuel : nat) (rows : textRows) : MC ((Z + merror) * textRows) :=
  match fuel with
  | O => mret (inr ErrInvalidConn, rows)
  | S k =>
      r <-- nextResultSet rows ;;
      match r with
      | (inr e, rows) => mret (inr e, rows)
      | (inl n, rows) =>
          if 0 <? n then mret (inl n, rows)
          else nextNotEmptyResultSet k (mk_rows (r_mc rows) (r_columns rows) true)
      end
  end.

(** [func (rows textRows) NextResultSet() (err error)] *)
Definition NextResultSet (rows : textRows) : MC ((unit + merror) * textRows) := fun mc =>
  (r <-- nextNotEmptyResultSet (read_fuel (world mc)) rows ;;
   match r with
   | (inr e, rows) => mret (inr e, rows)
   | (inl n, rows) =>
       cs <-- mtry (readColumns n) ;;
       match cs with
       | inl cs => mret (inl tt, mk_rows (r_mc rows) cs (r_done rows))
       | inr e => mret (inr e, mk_rows (r_mc rows) [] (r_done rows))
       end
   end) mc.

(** [func (rows mysqlRows) Close() (err error)] *)
Definition rows_Close (rows : textRows) : MC ((unit + merror) * textRows) :=
  if negb (r_mc rows) then mret (inl tt, rows)
  else
    e <-- mget conn_error ;;
    match e with
    | Some e => mret (inr e, rows)
    | None =>
        modify (fun mc => set_world (flip (world mc)) mc) ;;;
        u <-- mtry (if r_done rows then mret tt else readUntilEOF) ;;
        match u with
        | inr e => mret (inr e, mk_rows false (r_columns rows) (r_done rows))
        | inl _ =>
            d <-- mtry discardResults ;;
            match d with
            | inr e => mret (inr e, rows)
            | inl _ => mret (inl tt, mk_rows false (r_columns rows) (r_done rows))
            end
        end
    end.

(** ** Interpolation of arguments *)

(** [driver.Value]; a time is given by its fields in the configured zone, rounded to
    microseconds, or is zero. *)
Inductive driver_value :=
| VNil | VInt64 (n : Z) | VUint64 (n : Z) | VFloat64 (text : bytes) | VBool (b : bool)
| VTime (d : option date_args) | VBytes (b : option bytes) | VString (s : bytes) | VOther.

(** The text of a time: the digit tables are indexed by its fields. *)
Definition time_text (d : date_args) : Go bytes :=
  let year := d_year d in
  let micro := d_nsec d / 1000 in
  let* t := parts [39] [two_digits (Z.quot year 100); two_digits (Z.rem year 100); Ret (B "-"); two_digits (d_month d);
                        Ret (B "-"); two_digits (d_day d); Ret (B " "); two_digits (d_hour d); Ret (B ":");
                        two_digits (d_min d); Ret (B ":"); two_digits (d_sec d)] in
  let* t := if micro =? 0 then Ret t
            else parts t [Ret (B "."); two_digits (micro / 10000); two_digits (micro / 100 mod 100); two_digits (micro mod 100)] in
  Ret (t ++ [39]).

(** What lies behind a slice in its backing array *)
Context (spare : bytes → bytes).

(** The [switch] on an argument: [None] is [driver.ErrSkip]. *)
Definition append_arg (noBackslash : bool) (buf : bytes) (arg : driver_value) : Go (option bytes) :=
  match arg with
  | VNil | VBytes None => Ret (Some (buf ++ B "NULL"))
  | VInt64 n | VUint64 n => Ret (Some (buf ++ Itoa n))
  | VFloat64 text => Ret (Some (buf ++ text))
  | VBool b => Ret (Some (buf ++ (if b then B "1" else B "0")))
  | VTime None => Ret (Some (buf ++ B "'0000-00-00'"))
  | VTime (Some d) => let* t := time_text d in Ret (Some (buf ++ t))
  | VBytes (Some v) =>
      let buf := buf ++ B "_binary'" in
      let* buf := if noBackslash then escapeBytesQuotes buf (spare buf) v else escapeBytesBackslash buf (spare buf) v in
      Ret (Some (buf ++ [39]))
  | VString v =>
      let buf := buf ++ [39] in
      let* buf := if noBackslash then escapeStringQuotes buf (spare buf) v else escapeStringBackslash buf (spare buf) v in
      Ret (Some (buf ++ [39]))
  | VOther => Ret None
  end.

(** [strings.Count(query, "?")] *)
Definition count_marks (query : bytes) : Z := len (filter (fun c => c = 63) query).

(** The loop over the query from position [i] *)
Fixpoint interpolate_loop (fuel : nat) (noBackslash : bool) (maxAllowed : Z) (query : bytes) (i : Z)
    (args : list driver_value) (argPos : Z) (buf : bytes) : Go (option (bytes * Z)) :=
  match fuel with
  | O => Ret None
  | S k =>
      if len query <=? i then Ret (Some (buf, argPos))
      else
        let* rest := go_slice query i (len query) in
        let q := Index rest [63] in
        if q =? -1 then Ret (Some (buf ++ rest, argPos))
        else
          let* before := go_slice query i (i + q) in
          let buf := buf ++ before in
          let i := i + q in
          let* arg := go_index args argPos in
          let* r := append_arg noBackslash buf arg in
          match r with
          | None => Ret None
          | Some buf =>
              let checked := match arg with VNil => false | _ => true end in
              if checked && (maxAllowed <? len buf + 4) then Ret None
              else interpolate_loop k noBackslash maxAllowed query (i + 1) args (argPos + 1) buf
          end
  end.

(** [func (mc mysqlConn) interpolateParams(query string, args []driver.Value) (string, error)] *)
Definition interpolateParams (query : bytes) (args : list driver_value) : MC bytes := fun mc =>
  if negb (count_marks query =? len args) then Ret (inr ErrSkip, mc)
  else match takeCompleteBuffer (world mc) with
  | None => Ret (inr ErrInvalidConn, mc)
  | Some _ =>
      let noBackslash := negb (Z.land (status mc) statusNoBackslashEscapes =? 0) in
      let* r := interpolate_loop (S (length query)) noBackslash (maxAllowedPacket mc) query 0 args 0 [] in
      match r with
      | None => Ret (inr ErrSkip, mc)
      | Some (buf, argPos) => Ret (if argPos =? len args then inl buf else inr ErrSkip, mc)
      end
  end.

(** ** Statements *)

(** [func (mc mysqlConn) markBadConn(err error) error] *)
Definition markBadConn (e : merror) : merror :=
  match e with errBadConnNoWrite => ErrBadConn | _ => e end.
Definition mmark {A} (m : MC A) : MC A :=
  r <-- mtry m ;; match r with inl a => mret a | inr e => mfail (markBadConn e) end.

(** [func (mc mysqlConn) exec(query string) error] *)
Definition exec (query : bytes) : MC unit :=
  mmark (writeCommandPacketStr comQuery query) ;;;
  resLen <-- readResultSetHeaderPacket ;;
  (if 0 <? resLen then readUntilEOF ;;; readUntilEOF else mret tt) ;;;
  discardResults.

(** The start of [Exec] and [query]: the query with its arguments in place *)
Definition prepared_query (query : bytes) (args : list driver_value) : MC bytes :=
  c <-- mget closed ;;
  if c : bool then mfail ErrBadConn
  else if len args =? 0 then mret query
  else
    cf <-- mget cfg ;;
    if negb (InterpolateParams cf) then mfail ErrSkip else interpolateParams query args.

(** [func (mc mysqlConn) Exec(query string, args []driver.Value) (driver.Result, error)]: the
    affected rows and the insert id, as [int64] *)
Definition Exec (query : bytes) (args : list driver_value) : MC (Z * Z) :=
  query <-- prepared_query query args ;;
  modify (set_result 0 0) ;;;
  mmark (exec query) ;;;
  mget (fun mc => (swrap 64 (affectedRows mc), swrap 64 (insertId mc))).

(** [func (mc mysqlConn) query(query string, args []driver.Value) (textRows, error)] *)
Definition conn_query (query : bytes) (args : list driver_value) : MC textRows :=
  query <-- prepared_query query args ;;
  resLen <-- mmark (writeCommandPacketStr comQuery query ;;; readResultSetHeaderPacket) ;;
  if resLen =? 0 then
    r <-- NextResultSet (mk_rows true [] true) ;;
    match r with
    | (inl _, rows) => mret rows
    | (inr ErrEOF, rows) => mret rows
    | (inr e, _) => mfail e
    end
  else
    cs <-- readColumns resLen ;; mret (mk_rows true cs false).

(** [func (mc mysqlConn) begin(readOnly bool) (driver.Tx, error)] *)
Definition begin (readOnly : bool) : MC unit :=
  c <-- mget closed ;;
  if c : bool then mfail ErrBadConn
  else mmark (exec (if readOnly then B "START TRANSACTION READ ONLY" else B "START TRANSACTION")).

(** [func (tx mysqlTx) Commit() (err error)], [Rollback]: [tx.mc] is detached afterwards. *)
Definition tx_end (statement : bytes) (attached : bool) : MC ((unit + merror) * bool) :=
  c <-- mget closed ;;
  if negb attached || c then mret (inr ErrInvalidConn, attached)
  else r <-- mtry (exec statement) ;; mret (r, false).
Definition Commit : bool → MC ((unit + merror) * bool) := tx_end (B "COMMIT").
Definition Rollback : bool → MC ((unit + merror) * bool) := tx_end (B "ROLLBACK").

(** All rows of a result, by calling [Next] until it fails *)
Fixpoint fetch (fuel : nat) (parseTime : bool) (rows : textRows) : MC (list (list cell) * merror * textRows) :=
  match fuel with
  | O => mret ([], ErrInvalidConn, rows)
  | S k =>
      r <-- Next parseTime rows ;;
      match r with
      | (inr e, rows) => mret ([], e, rows)
      | (inl row, rows) =>
          t <-- fetch k parseTime rows ;;
          let '(rs, e, rows) := t in mret (row :: rs, e, rows)
      end
  end.

End InFile.

Arguments CNull {Time}.
Arguments CBytes {Time} _.
Arguments CTime {Time} _.
