(* ===== verification/MysqlStmt.v ===== *)
(** * [mysql/statement.go], [mysql/packets.go]: prepared statements and the binary protocol

    Preparing a statement, sending its arguments, as parts of the execute packet or ahead of it when
    they are long, and reading rows in the binary protocol.  The array a packet is built in is not
    written back, as in [MysqlConn]; how much room the values find in it decides whether the buffer
    is replaced by a larger one. *)

From S2P Require Import Prelude GoStrings MysqlUtils MysqlBuffer MysqlConn Mysql MysqlQuery.
Open Scope mc_scope.

Definition comStmtPrepare : Z := 22.
Definition comStmtExecute : Z := 23.
Definition comStmtSendLongData : Z := 24.
Definition comStmtClose : Z := 25.
Definition minPktLen : Z := 4 + 1 + 4 + 1 + 4.
Definition dataOffset : Z := 1 + 4 + 2.

(** [type mysqlStmt struct]: whether the connection is attached, the id, the number of parameters *)
Record mysqlStmt := mk_stmt { s_mc : bool; s_id : Z; paramCount : Z }.

(** A [driver.Value] as an argument: a float by its bits, a time by its text in the zone of the
    connection, or zero *)
Inductive stmt_arg :=
| ANil | AInt64 (n : Z) | AUint64 (n : Z) | AFloat64 (bits : Z) | ABool (b : bool) | ABytes (b : option bytes) | AString (s : bytes)
| ATime (text : option bytes) | AOther.
(** A value of a row *)
Inductive bcell := BNull | BInt64 (n : Z) | BFloat32 (bits : Z) | BFloat64 (bits : Z) | BBytes (b : bytes) | BTime (t : option date_args).

Section stmt.
(** The sources of LOCAL INFILE requests, and the capacity of a slice that [append] makes for a number of bytes *)
Context (reader : bytes → option (list bytes)) (registered : bytes → bool) (file : bytes → option bytes).
Context (grow : Z → Z).
Abbreviation readHeader := (readResultSetHeaderPacket reader registered file).
Abbreviation discard := (discardResults reader registered file).

(** ** Preparing *)

(** [func (stmt mysqlStmt) readPrepareResultPacket() (uint16, error)] *)
Definition readPrepareResultPacket : MC (mysqlStmt * Z) :=
  data <-- readPacket ;;
  d0 <-- mgo (go_index data 0) ;;
  if negb (d0 =? iOK) then handleErrorPacket data
  else
    id <-- mgo (go_slice data 1 5) ;;
    columnCount <-- mgo (go_slice data 5 7) ;;
    params <-- mgo (go_slice data 7 9) ;;
    mret (mk_stmt true (le_uint id) (le_uint params), le_uint columnCount).
(** [func (mc mysqlConn) Prepare(query string) (driver.Stmt, error)] *)
Definition Prepare (query : bytes) : MC mysqlStmt :=
  c <-- mget closed ;;
  if c : bool then mfail ErrBadConn
  else
    mmark (writeCommandPacketStr comStmtPrepare query) ;;;
    r <-- readPrepareResultPacket ;;
    let (stmt, columnCount) := r in
    (if 0 <? paramCount stmt then readUntilEOF else mret tt) ;;;
    (if 0 <? columnCount then readUntilEOF else mret tt) ;;;
    mret stmt.
(** [func (stmt mysqlStmt) Close() error] *)
Definition stmt_Close (stmt : mysqlStmt) : MC ((unit + merror) * mysqlStmt) :=
  c <-- mget closed ;;
  if negb (s_mc stmt) || c then mret (inr ErrBadConn, stmt)
  else r <-- mtry (writeCommandPacketUint32 comStmtClose (s_id stmt)) ;; mret (r, mk_stmt false (s_id stmt) (paramCount stmt)).

(** ** Arguments *)

(** [func (stmt mysqlStmt) writeCommandLongData(paramID int, arg []byte) error]: one packet for each
    piece; the pieces are as long as the packet size allows. *)
Definition long_packet (id paramID : Z) (piece : bytes) : bytes :=
  [0; 0; 0; 0] ++ comStmtSendLongData :: le_bytes 4 id ++ le_bytes 2 paramID ++ piece.
Fixpoint long_loop (fuel : nat) (id paramID maxLen : Z) (arg : bytes) : MC unit :=
  match arg, fuel with
  | [], _ => modify (set_sequence 0)
  | _, O => mfail ErrInvalidConn
  | _, S fuel =>
      let pktLen := if dataOffset + len arg <? maxLen then dataOffset + len arg else maxLen in
      modify (set_sequence 0) ;;;
      piece <-- mgo (go_slice arg 0 (pktLen - dataOffset)) ;;
      writePacket (long_packet id paramID piece) ;;;
      rest <-- mgo (go_slice arg (pktLen - dataOffset) (len arg)) ;;
      long_loop fuel id paramID maxLen rest
  end.
Definition writeCommandLongData (id paramID : Z) (arg : bytes) : MC unit :=
  maxAllowed <-- mget maxAllowedPacket ;; long_loop (length arg) id paramID (maxAllowed - 1) arg.

(** [nullMask[i/8] |= 1 << (uint(i) & 7)] *)
Definition set_null (mask : bytes) (i : Z) : Go bytes :=
  let* b := go_index mask (i / 8) in go_set mask (i / 8) (Z.lor b (Z.shiftl 1 (Z.land i 7))).
(** The type of a parameter, and its value where it has a fixed size *)
Definition lenenc_arg (v : bytes) : bytes := appendLengthEncodedInteger [] (len v) ++ v.
(** The body of the loop over the arguments: the mask, the types and the values so far *)
Definition put_arg (id longDataSize i : Z) (arg : stmt_arg) (st : bytes * bytes * bytes) : MC (bytes * bytes * bytes) :=
  let '(mask, types, values) := st in
  let null := mask <-- mgo (set_null mask i) ;; mret (mask, types ++ [fieldTypeNULL; 0], values) in
  let fixed t flag v := mret (mask, types ++ [t; flag], values ++ v) in
  let text v := if len v <? longDataSize then fixed fieldTypeString 0 (lenenc_arg v)
                else writeCommandLongData id i v ;;; fixed fieldTypeString 0 [] in
  match arg with
  | ANil | ABytes None => null
  | AInt64 n => fixed fieldTypeLongLong 0 (le_bytes 8 (uwrap 64 n))
  | AUint64 n => fixed fieldTypeLongLong 128 (le_bytes 8 n)
  | AFloat64 bits => fixed fieldTypeDouble 0 (le_bytes 8 bits)
  | ABool b => fixed fieldTypeTiny 0 [if b then 1 else 0]
  | ABytes (Some v) => text v
  | AString v => text v
  | ATime t => fixed fieldTypeString 0 (lenenc_arg (match t with None => B "0000-00-00" | Some t => t end))
  | AOther => mfail ErrConvert
  end.
Fixpoint put_args (id longDataSize i : Z) (args : list stmt_arg) (st : bytes * bytes * bytes) : MC (bytes * bytes * bytes) :=
  match args with
  | [] => mret st
  | arg :: args => st <-- put_arg id longDataSize i arg st ;; put_args id longDataSize (i + 1) args st
  end.
(** The command, the id, the flags and the iteration count *)
Definition execute_head (id : Z) : bytes := comStmtExecute :: le_bytes 4 id ++ [0; 1; 0; 0; 0].
(** When the values do not fit behind the types, the packet is built in a new array, which becomes
    the buffer. *)
Definition store_values (fixedLen values : Z) : MC unit := fun mc =>
  let size := len (arr (world mc) (b_buf (bb (world mc)))) in
  let room := if size <=? fixedLen then 0 else size - fixedLen in
  if values <=? room then Ret (inl tt, mc)
  else
    let (i, w) := alloc (grow (fixedLen + values)) (world mc) in
    let (ok, w) := store_buffer i w in
    Ret (if ok : bool then inl tt else inr errBadConnNoWrite, set_world w mc).
(** [func (stmt mysqlStmt) writeExecutePacket(args []driver.Value) error] *)
Definition writeExecutePacket (stmt : mysqlStmt) (args : list stmt_arg) : MC unit := fun mc =>
  if negb (len args =? paramCount stmt) then Ret (inr ErrArgCount, mc)
  else
    let longDataSize := Z.max 64 (Z.quot (maxAllowedPacket mc) (paramCount stmt + 1)) in
    let mc := set_sequence 0 mc in
    match args with
    | [] =>
        let (t, w) := takeBuffer minPktLen (world mc) in
        match t with
        | None => Ret (inr errBadConnNoWrite, set_world w mc)
        | Some _ => writePacket ([0; 0; 0; 0] ++ execute_head (s_id stmt)) (set_world w mc)
        end
    | _ =>
        match takeCompleteBuffer (world mc) with
        | None => Ret (inr errBadConnNoWrite, mc)
        | Some (_, n) =>
            if n <? minPktLen then Panic IndexOutOfRange
            else
              (let maskLen := (len args + 7) / 8 in
               r <-- put_args (s_id stmt) longDataSize 0 args (replicate (Z.to_nat maskLen) 0, [], []) ;;
               let '(mask, types, values) := r in
               store_values (minPktLen + maskLen + 1 + 2 * len args) (len values) ;;;
               writePacket ([0; 0; 0; 0] ++ execute_head (s_id stmt) ++ mask ++ 1 :: types ++ values)) mc
        end
    end.

(** ** Rows of the binary protocol *)

(** [binary.LittleEndian] at a position *)
Definition uint_at (w : nat) (data : bytes) (pos : Z) : MC Z := d <-- mgo (go_slice data pos (pos + Z.of_nat w)) ;; mret (le_uint d).
(** An integer column of [w] bytes *)
Definition int_cell (w : nat) (f : mysqlField) (data : bytes) (pos : Z) : MC (bcell * Z) :=
  n <-- uint_at w data pos ;;
  mret (BInt64 (if negb (Z.land (f_flags f) flagUnsigned =? 0) then n else swrap (8 * Z.of_nat w) n), pos + Z.of_nat w).
Definition longlong_cell (f : mysqlField) (data : bytes) (pos : Z) : MC (bcell * Z) :=
  n <-- uint_at 8 data pos ;;
  if negb (Z.land (f_flags f) flagUnsigned =? 0) then
    if 2 ^ 63 - 1 <? n then s <-- mgo (uint64ToString n) ;; mret (BBytes s, pos + 8) else mret (BInt64 n, pos + 8)
  else mret (BInt64 (swrap 64 n), pos + 8).
(** The length of the text of a time with a number of decimals *)
Definition text_length (base decimals : Z) : option Z :=
  if mem decimals [0; 31] then Some base else if mem decimals [1; 2; 3; 4; 5; 6] then Some (base + 1 + decimals) else None.
Definition ok_or_time {A} (g : Go (A + time_error)) : MC A :=
  r <-- mgo g ;; match r with inl a => mret a | inr _ => mfail ErrTime end.
Definition time_cell (parseTime : bool) (f : mysqlField) (data : bytes) (pos : Z) : MC (bcell * Z) :=
  d <-- mgo (go_slice data pos (len data)) ;;
  r <-- mgo (readLengthEncodedInteger d) ;;
  let '(num, isNull, n) := r in
  let pos := pos + n in
  let end_ := swrap 64 (pos + swrap 64 num) in
  if isNull : bool then mret (BNull, pos)
  else if f_type f =? fieldTypeTime then
    match text_length 8 (f_decimals f) with
    | None => mfail (ErrDecimals (f_decimals f))
    | Some l => src <-- mgo (go_slice data pos end_) ;; s <-- ok_or_time (formatBinaryTime src l) ;; mret (BBytes s, end_)
    end
  else if parseTime then
    d <-- mgo (go_slice data pos (len data)) ;; t <-- ok_or_time (parseBinaryDateTime num d) ;; mret (BTime t, end_)
  else
    match (if f_type f =? fieldTypeDate then Some 10 else text_length 19 (f_decimals f)) with
    | None => mfail (ErrDecimals (f_decimals f))
    | Some l => src <-- mgo (go_slice data pos end_) ;; s <-- ok_or_time (formatBinaryDateTime src l) ;; mret (BBytes s, end_)
    end.
Definition string_types : list Z :=
  [fieldTypeDecimal; fieldTypeNewDecimal; fieldTypeVarChar; fieldTypeBit; fieldTypeEnum; fieldTypeSet; fieldTypeTinyBLOB;
   fieldTypeMediumBLOB; fieldTypeLongBLOB; fieldTypeBLOB; fieldTypeVarString; fieldTypeString; fieldTypeGeometry; fieldTypeJSON].
(** The [switch] on the type of a column that is not NULL by the bitmap *)
Definition binary_cell (parseTime : bool) (f : mysqlField) (data : bytes) (pos : Z) : MC (bcell * Z) :=
  let t := f_type f in
  if t =? fieldTypeNULL then mret (BNull, pos)
  else if t =? fieldTypeTiny then
    b <-- mgo (go_index data pos) ;;
    mret (BInt64 (if negb (Z.land (f_flags f) flagUnsigned =? 0) then b else swrap 8 b), pos + 1)
  else if mem t [fieldTypeShort; fieldTypeYear] then int_cell 2 f data pos
  else if mem t [fieldTypeInt24; fieldTypeLong] then int_cell 4 f data pos
  else if t =? fieldTypeLongLong then longlong_cell f data pos
  else if t =? fieldTypeFloat then n <-- uint_at 4 data pos ;; mret (BFloat32 n, pos + 4)
  else if t =? fieldTypeDouble then n <-- uint_at 8 data pos ;; mret (BFloat64 n, pos + 8)
  else if mem t string_types then
    r <-- string_at data pos ;;
    let '(s, isNull, pos) := r in mret (if isNull : bool then BNull else BBytes s, pos)
  else if mem t [fieldTypeDate; fieldTypeNewDate; fieldTypeTime; fieldTypeTimestamp; fieldTypeDateTime] then time_cell parseTime f data pos
  else mfail (ErrFieldType t).
(** [((nullMask[(i+2)>>3] >> uint((i+2)&7)) & 1) == 1] *)
Definition null_bit (mask : bytes) (i : Z) : Go bool :=
  let* b := go_index mask (Z.shiftr (i + 2) 3) in Ret (Z.land (Z.shiftr b (Z.land (i + 2) 7)) 1 =? 1).
Fixpoint binary_cells (parseTime : bool) (fs : list mysqlField) (mask data : bytes) (i pos : Z) : MC (list bcell) :=
  match fs with
  | [] => mret []
  | f :: fs =>
      isNull <-- mgo (null_bit mask i) ;;
      r <-- (if isNull : bool then mret (BNull, pos) else binary_cell parseTime f data pos) ;;
      let (c, pos) := r in
      cs <-- binary_cells parseTime fs mask data (i + 1) pos ;; mret (c :: cs)
  end.
(** [func (rows binaryRows) readRow(dest []driver.Value) error]; the fields of [binaryRows] are those
    of [textRows]. *)
Definition binary_readRow (parseTime : bool) (rows : textRows) : MC ((list bcell + merror) * textRows) :=
  p <-- mtry readPacket ;;
  match p with
  | inr e => mret (inr e, rows)
  | inl data =>
      d0 <-- mgo (go_index data 0) ;;
      if negb (d0 =? iOK) then
        if (d0 =? iEOF) && (len data =? 5) then
          d <-- mgo (go_slice data 3 (len data)) ;;
          s <-- mgo (readStatus d) ;;
          modify (set_status s) ;;;
          let more := negb (Z.land s statusMoreResultsExists =? 0) in
          mret (inr ErrEOF, mk_rows (r_mc rows && more) (r_columns rows) true)
        else
          e <-- mtry (handleErrorPacket (A := list bcell) data) ;;
          mret (e, mk_rows false (r_columns rows) (r_done rows))
      else
        let pos := 1 + Z.shiftr (len (r_columns rows) + 7 + 2) 3 in
        mask <-- mgo (go_slice data 1 pos) ;;
        r <-- mtry (binary_cells parseTime (r_columns rows) mask data 0 pos) ;; mret (r, rows)
  end.
(** [func (rows binaryRows) Next(dest []driver.Value) error] *)
Definition binary_Next (parseTime : bool) (rows : textRows) : MC ((list bcell + merror) * textRows) :=
  if r_mc rows then
    e <-- mget conn_error ;;
    match e with Some e => mret (inr e, rows) | None => binary_readRow parseTime rows end
  else mret (inr ErrEOF, rows).

(** ** Executing *)

(** [func (stmt mysqlStmt) Exec(args []driver.Value) (driver.Result, error)] *)
Definition stmt_Exec (stmt : mysqlStmt) (args : list stmt_arg) : MC (Z * Z) :=
  if negb (s_mc stmt) then mgo (Panic NilDereference)
  else
    c <-- mget closed ;;
    if c : bool then mfail ErrBadConn
    else
      mmark (writeExecutePacket stmt args) ;;;
      modify (set_result 0 0) ;;;
      resLen <-- readHeader ;;
      (if 0 <? resLen then readUntilEOF ;;; readUntilEOF else mret tt) ;;;
      discard ;;;
      mget (fun mc => (swrap 64 (affectedRows mc), swrap 64 (insertId mc))).
(** [func (stmt mysqlStmt) query(args []driver.Value) (binaryRows, error)]: without columns the rows
    are not attached to the connection. *)
Definition stmt_query (stmt : mysqlStmt) (args : list stmt_arg) : MC textRows :=
  if negb (s_mc stmt) then mgo (Panic NilDereference)
  else
    c <-- mget closed ;;
    if c : bool then mfail ErrBadConn
    else
      mmark (writeExecutePacket stmt args) ;;;
      resLen <-- readHeader ;;
      if 0 <? resLen then cs <-- readColumns resLen ;; mret (mk_rows true cs false)
      else
        r <-- NextResultSet reader registered file (mk_rows false [] true) ;;
        match r with
        | (inl _, rows) => mret rows
        | (inr ErrEOF, rows) => mret rows
        | (inr e, _) => mfail e
        end.
(** All rows of a result, by calling [Next] until it fails *)
Fixpoint binary_fetch (fuel : nat) (parseTime : bool) (rows : textRows) : MC (list (list bcell) * merror * textRows) :=
  match fuel with
  | O => mret ([], ErrInvalidConn, rows)
  | S k =>
      r <-- binary_Next parseTime rows ;;
      match r with
      | (inr e, rows) => mret ([], e, rows)
      | (inl row, rows) => t <-- binary_fetch k parseTime rows ;; let '(rs, e, rows) := t in mret (row :: rs, e, rows)
      end
  end.
End stmt.
