(* ===== verification/MysqlAuth.v ===== *)
(** * [mysql/auth.go], [mysql/connector.go]: connecting and authenticating

    The handshake of a connection: the greeting of the server, the response of the client in
    one of five authentication methods, the exchange that follows, and the settings read and
    made before the connection is handed out.  A slice expression on a packet is checked
    against the capacity of the array the packet lies in, so it can take bytes behind the
    packet ([behind]). *)

From S2P Require Import Prelude GoStrings MysqlUtils MysqlDsn MysqlBuffer MysqlConn Mysql MysqlQuery.
Open Scope mc_scope.

(** [var collations] ([mysql/collations.go]) *)
Definition collations : list (bytes * Z) :=
  [(B "big5_chinese_ci", 1); (B "latin2_czech_cs", 2); (B "dec8_swedish_ci", 3); (B "cp850_general_ci", 4);
   (B "latin1_german1_ci", 5); (B "hp8_english_ci", 6); (B "koi8r_general_ci", 7);
   (B "latin1_swedish_ci", 8); (B "latin2_general_ci", 9); (B "swe7_swedish_ci", 10);
   (B "ascii_general_ci", 11); (B "ujis_japanese_ci", 12); (B "sjis_japanese_ci", 13);
   (B "cp1251_bulgarian_ci", 14); (B "latin1_danish_ci", 15); (B "hebrew_general_ci", 16);
   (B "tis620_thai_ci", 18); (B "euckr_korean_ci", 19); (B "latin7_estonian_cs", 20);
   (B "latin2_hungarian_ci", 21); (B "koi8u_general_ci", 22); (B "cp1251_ukrainian_ci", 23);
   (B "gb2312_chinese_ci", 24); (B "greek_general_ci", 25); (B "cp1250_general_ci", 26);
   (B "latin2_croatian_ci", 27); (B "gbk_chinese_ci", 28); (B "cp1257_lithuanian_ci", 29);
   (B "latin5_turkish_ci", 30); (B "latin1_german2_ci", 31); (B "armscii8_general_ci", 32);
   (B "utf8_general_ci", 33); (B "cp1250_czech_cs", 34); (B "cp866_general_ci", 36);
   (B "keybcs2_general_ci", 37); (B "macce_general_ci", 38); (B "macroman_general_ci", 39);
   (B "cp852_general_ci", 40); (B "latin7_general_ci", 41); (B "latin7_general_cs", 42);
   (B "macce_bin", 43); (B "cp1250_croatian_ci", 44); (B "utf8mb4_general_ci", 45); (B "utf8mb4_bin", 46);
   (B "latin1_bin", 47); (B "latin1_general_ci", 48); (B "latin1_general_cs", 49); (B "cp1251_bin", 50);
   (B "cp1251_general_ci", 51); (B "cp1251_general_cs", 52); (B "macroman_bin", 53);
   (B "cp1256_general_ci", 57); (B "cp1257_bin", 58); (B "cp1257_general_ci", 59); (B "binary", 63);
   (B "armscii8_bin", 64); (B "ascii_bin", 65); (B "cp1250_bin", 66); (B "cp1256_bin", 67);
   (B "cp866_bin", 68); (B "dec8_bin", 69); (B "greek_bin", 70); (B "hebrew_bin", 71); (B "hp8_bin", 72);
   (B "keybcs2_bin", 73); (B "koi8r_bin", 74); (B "koi8u_bin", 75); (B "utf8_tolower_ci", 76);
   (B "latin2_bin", 77); (B "latin5_bin", 78); (B "latin7_bin", 79); (B "cp850_bin", 80);
   (B "cp852_bin", 81); (B "swe7_bin", 82); (B "utf8_bin", 83); (B "big5_bin", 84); (B "euckr_bin", 85);
   (B "gb2312_bin", 86); (B "gbk_bin", 87); (B "sjis_bin", 88); (B "tis620_bin", 89); (B "ujis_bin", 91);
   (B "geostd8_general_ci", 92); (B "geostd8_bin", 93); (B "latin1_spanish_ci", 94);
   (B "cp932_japanese_ci", 95); (B "cp932_bin", 96); (B "eucjpms_japanese_ci", 97); (B "eucjpms_bin", 98);
   (B "cp1250_polish_ci", 99); (B "utf8_unicode_ci", 192); (B "utf8_icelandic_ci", 193);
   (B "utf8_latvian_ci", 194); (B "utf8_romanian_ci", 195); (B "utf8_slovenian_ci", 196);
   (B "utf8_polish_ci", 197); (B "utf8_estonian_ci", 198); (B "utf8_spanish_ci", 199);
   (B "utf8_swedish_ci", 200); (B "utf8_turkish_ci", 201); (B "utf8_czech_ci", 202);
   (B "utf8_danish_ci", 203); (B "utf8_lithuanian_ci", 204); (B "utf8_slovak_ci", 205);
   (B "utf8_spanish2_ci", 206); (B "utf8_roman_ci", 207); (B "utf8_persian_ci", 208);
   (B "utf8_esperanto_ci", 209); (B "utf8_hungarian_ci", 210); (B "utf8_sinhala_ci", 211);
   (B "utf8_german2_ci", 212); (B "utf8_croatian_ci", 213); (B "utf8_unicode_520_ci", 214);
   (B "utf8_vietnamese_ci", 215); (B "utf8_general_mysql500_ci", 223); (B "utf8mb4_unicode_ci", 224);
   (B "utf8mb4_icelandic_ci", 225); (B "utf8mb4_latvian_ci", 226); (B "utf8mb4_romanian_ci", 227);
   (B "utf8mb4_slovenian_ci", 228); (B "utf8mb4_polish_ci", 229); (B "utf8mb4_estonian_ci", 230);
   (B "utf8mb4_spanish_ci", 231); (B "utf8mb4_swedish_ci", 232); (B "utf8mb4_turkish_ci", 233);
   (B "utf8mb4_czech_ci", 234); (B "utf8mb4_danish_ci", 235); (B "utf8mb4_lithuanian_ci", 236);
   (B "utf8mb4_slovak_ci", 237); (B "utf8mb4_spanish2_ci", 238); (B "utf8mb4_roman_ci", 239);
   (B "utf8mb4_persian_ci", 240); (B "utf8mb4_esperanto_ci", 241); (B "utf8mb4_hungarian_ci", 242);
   (B "utf8mb4_sinhala_ci", 243); (B "utf8mb4_german2_ci", 244); (B "utf8mb4_croatian_ci", 245);
   (B "utf8mb4_unicode_520_ci", 246); (B "utf8mb4_vietnamese_ci", 247); (B "gb18030_chinese_ci", 248);
   (B "gb18030_bin", 249); (B "gb18030_unicode_520_ci", 250); (B "utf8mb4_0900_ai_ci", 255)].
Definition collation_id (name : bytes) : option Z :=
  snd <$> List.find (fun c => beq c.1 name) collations.

(** ** Constants ([mysql/const.go]) *)
Definition defaultAuthPlugin : bytes := B "mysql_native_password".
Definition minProtocolVersion : Z := 10.
Definition iAuthMoreData : Z := 1.
Definition cachingSha2PasswordRequestPublicKey : Z := 2.
Definition cachingSha2PasswordFastAuthSuccess : Z := 3.
Definition cachingSha2PasswordPerformFullAuthentication : Z := 4.

Definition clientLongPassword : Z := 2 ^ 0.
Definition clientFoundRows : Z := 2 ^ 1.
Definition clientLongFlag : Z := 2 ^ 2.
Definition clientConnectWithDB : Z := 2 ^ 3.
Definition clientLocalFiles : Z := 2 ^ 7.
Definition clientProtocol41 : Z := 2 ^ 9.
Definition clientSSL : Z := 2 ^ 11.
Definition clientTransactions : Z := 2 ^ 13.
Definition clientSecureConn : Z := 2 ^ 15.
Definition clientMultiStatements : Z := 2 ^ 16.
Definition clientMultiResults : Z := 2 ^ 17.
Definition clientPluginAuth : Z := 2 ^ 19.
Definition clientPluginAuthLenEncClientData : Z := 2 ^ 21.

(** [bytes.IndexByte(s, c)] *)
Fixpoint IndexByte (s : bytes) (c : Z) : Z :=
  match s with
  | [] => -1
  | x :: s' => if x =? c then 0 else let i := IndexByte s' c in if i =? -1 then -1 else i + 1
  end.

(** ** The method of servers before 4.1 *)

Definition myRndMaxVal : Z := 1073741823.

(** [type myRnd struct] *)
Record myRnd := mk_rnd { seed1 : Z; seed2 : Z }.

(** [func newMyRnd(seed1, seed2 uint32) myRnd] *)
Definition newMyRnd (seed1 seed2 : Z) : myRnd := mk_rnd (seed1 mod myRndMaxVal) (seed2 mod myRndMaxVal).

(** [func (r myRnd) NextByte() byte] *)
Definition NextByte (r : myRnd) : Z * myRnd :=
  let s1 := uwrap 32 (uwrap 32 (seed1 r * 3) + seed2 r) mod myRndMaxVal in
  let s2 := uwrap 32 (uwrap 32 (s1 + seed2 r) + 33) mod myRndMaxVal in
  (uwrap 8 (uwrap 64 (s1 * 31) / myRndMaxVal), mk_rnd s1 s2).

(** The loop of [pwHash]: the two words of the result and [add]. *)
Definition hash_char (s : Z * Z * Z) (c : Z) : Z * Z * Z :=
  let '(r0, r1, add) := s in
  if (c =? 32) || (c =? 9) then (r0, r1, add)
  else
    let r0 := Z.lxor r0 (uwrap 32 (uwrap 32 (uwrap 32 (Z.land r0 63 + add) * c) + uwrap 32 (Z.shiftl r0 8))) in
    let r1 := uwrap 32 (r1 + Z.lxor (uwrap 32 (Z.shiftl r1 8)) r0) in
    (r0, r1, uwrap 32 (add + c)).

(** [func pwHash(password []byte) (result [2]uint32)] *)
Definition pwHash (password : bytes) : Z * Z :=
  let '(r0, r1, _) := fold_left hash_char password (1345345333, 305419889, 7) in
  (Z.land r0 2147483647, Z.land r1 2147483647).

(** [n] bytes of the generator *)
Fixpoint next_bytes (n : nat) (r : myRnd) : bytes * myRnd :=
  match n with
  | O => ([], r)
  | S k => let (b, r) := NextByte r in let (l, r) := next_bytes k r in (b :: l, r)
  end.

(** [func scrambleOldPassword(scramble []byte, password string) []byte]; [scramble] is the
    array behind the slice, from its first byte. *)
Definition scrambleOldPassword (scramble password : bytes) : Go bytes :=
  if len password =? 0 then Ret []
  else
    let* scramble := go_slice scramble 0 8 in
    let hashPw := pwHash password in
    let hashSc := pwHash scramble in
    let r := newMyRnd (Z.lxor hashPw.1 hashSc.1) (Z.lxor hashPw.2 hashSc.2) in
    let (out, r) := next_bytes 8 r in
    let out := (fun b => uwrap 8 (b + 64)) <$> out in
    let (mask, _) := NextByte r in
    Ret ((fun b => Z.lxor b mask) <$> out).

(** [for i := range a { a[i] ^= b[i] }] *)
Fixpoint xor_range (a b : bytes) : Go bytes :=
  match a with
  | [] => Ret []
  | x :: a' =>
      match b with
      | [] => Panic IndexOutOfRange
      | y :: b' => let* l := xor_range a' b' in Ret (Z.lxor x y :: l)
      end
  end.

(** The loop of [encryptPassword], from index [i] *)
Fixpoint xor_seed (i : Z) (plain seed : bytes) : Go bytes :=
  match plain with
  | [] => Ret []
  | p :: plain' =>
      if len seed =? 0 then Panic DivideByZero
      else
        let* s := go_index seed (i mod len seed) in
        let* l := xor_seed (i + 1) plain' seed in
        Ret (Z.lxor p s :: l)
  end.

(** [a], or an error *)
Definition mlift {A} (g : Go (A + merror)) : MC A := fun mc => let* r := g in Ret (r, mc).

(** ** Authentication *)
Section auth.
(** [*time.Location], [*rsa.PublicKey]; the hashes; [rsa.EncryptOAEP] with its randomness
    ([None]: an error); [pem.Decode] ([None]: no block); [x509.ParsePKIXPublicKey] ([None]: an
    error, [Some None]: a key of another kind than RSA). *)
Context {L K : Type} (SHA1 SHA256 : bytes → bytes) (EncryptOAEP : K → bytes → option bytes).
Context (pem_Decode : bytes → option bytes) (ParsePKIXPublicKey : bytes → option (option K)).
(** What a TLS connection over the given network delivers ([None]: the handshake failed); what
    earlier packets left in the array of the buffer; the spare capacity of a packet that was
    put together from several. *)
Context (tls_Client : tls_config → reads → option reads) (leftover : bytes) (spare : bytes → bytes).
Abbreviation Config := (Config (L := L) (K := K)).

(** The bytes between the end of the packet that was read last and the end of its array *)
Definition behind (data : bytes) (mc : mysqlConn) : bytes :=
  if len data <? maxPacketSize then
    let n := length (drop (Z.to_nat (b_idx (bb (world mc)))) (arr (world mc) (b_buf (bb (world mc))))) in
    take n (leftover ++ replicate n 0)
  else spare data.

(** [func scramblePassword(scramble []byte, password string) []byte] *)
Definition scramblePassword (scramble password : bytes) : Go bytes :=
  if len password =? 0 then Ret []
  else
    let stage1 := SHA1 password in
    let hash := SHA1 stage1 in
    xor_range (SHA1 (scramble ++ hash)) stage1.

(** [func scrambleSHA256Password(scramble []byte, password string) []byte] *)
Definition scrambleSHA256Password (scramble password : bytes) : Go bytes :=
  if len password =? 0 then Ret []
  else
    let message1 := SHA256 password in
    let message1Hash := SHA256 message1 in
    let message2 := SHA256 (message1Hash ++ scramble) in
    xor_range message1 message2.

(** [func encryptPassword(password string, seed []byte, pub rsa.PublicKey) ([]byte, error)] *)
Definition encryptPassword (password seed : bytes) (pub : K) : Go (bytes + merror) :=
  let* plain := xor_seed 0 (password ++ [0]) seed in
  Ret (match EncryptOAEP pub plain with Some enc => inl enc | None => inr ErrEncrypt end).

(** [func (mc mysqlConn) writeAuthSwitchPacket(authData []byte) error] *)
Definition writeAuthSwitchPacket (authData : bytes) : MC unit := fun mc =>
  let* t := takeSmallBuffer (4 + len authData) (world mc) in
  match t with
  | None => Ret (inr errBadConnNoWrite, mc)
  | Some t =>
      let data := slice_bytes mc t in
      let* data := go_copy data 4 (len data) authData in
      writePacket data mc
  end.

(** [func (mc mysqlConn) sendEncryptedPassword(seed []byte, pub rsa.PublicKey) error] *)
Definition sendEncryptedPassword (c : Config) (seed : bytes) (pub : K) : MC unit :=
  enc <-- mlift (encryptPassword (Passwd c) seed pub) ;; writeAuthSwitchPacket enc.

Definition is_unix (c : Config) : bool := beq (Net c) (B "unix").

(** [func (mc mysqlConn) auth(authData []byte, plugin string) ([]byte, error)]; [spare] is what
    lies behind [authData] in its array. *)
Definition auth (c : Config) (authData spare plugin : bytes) : Go (bytes + merror) :=
  if beq plugin (B "caching_sha2_password") then
    let* r := scrambleSHA256Password authData (Passwd c) in Ret (inl r)
  else if beq plugin (B "mysql_old_password") then
    if negb (AllowOldPasswords c) then Ret (inr ErrOldPassword)
    else
      let* s := go_slice (authData ++ spare) 0 8 in
      let* r := scrambleOldPassword s (Passwd c) in Ret (inl (r ++ [0]))
  else if beq plugin (B "mysql_clear_password") then
    if negb (AllowCleartextPasswords c) then Ret (inr ErrCleartextPassword)
    else Ret (inl (Passwd c ++ [0]))
  else if beq plugin (B "mysql_native_password") then
    if negb (AllowNativePasswords c) then Ret (inr ErrNativePassword)
    else
      let* s := go_slice (authData ++ spare) 0 20 in
      let* r := scramblePassword s (Passwd c) in Ret (inl r)
  else if beq plugin (B "sha256_password") then
    if len (Passwd c) =? 0 then Ret (inl [0])
    else if bool_decide (is_Some (tls c)) || is_unix c then Ret (inl (Passwd c ++ [0]))
    else match pubKey c with
         | None => Ret (inl [1])
         | Some k => encryptPassword (Passwd c) authData k
         end
  else Ret (inr ErrUnknownPlugin).

(** [func (mc mysqlConn) readAuthResult() ([]byte, string, error)]: the data ([None] is nil)
    with what lies behind it, and the plugin *)
Definition readAuthResult : MC (option (bytes * bytes) * bytes) :=
  data <-- readPacket ;;
  d0 <-- mgo (go_index data 0) ;;
  tail <-- mget (behind data) ;;
  if d0 =? iOK then handleOkPacket data ;;; mret (None, [])
  else if d0 =? iAuthMoreData then d <-- mgo (go_slice data 1 (len data)) ;; mret (Some (d, tail), [])
  else if d0 =? iEOF then
    if len data =? 1 then mret (None, B "mysql_old_password")
    else
      let pluginEndIndex := IndexByte data 0 in
      if pluginEndIndex <? 0 then mfail ErrMalformPkt
      else
        plugin <-- mgo (go_slice data 1 pluginEndIndex) ;;
        authData <-- mgo (go_slice data (pluginEndIndex + 1) (len data)) ;;
        mret (Some (authData, tail), plugin)
  else handleErrorPacket data.

(** [block, _ := pem.Decode(data); pub, err := x509.ParsePKIXPublicKey(block.Bytes);
    pub.( *rsa.PublicKey)] *)
Definition public_key (data : bytes) : Go (K + merror) :=
  match pem_Decode data with
  | None => Panic NilDereference
  | Some block =>
      match ParsePKIXPublicKey block with
      | None => Ret (inr ErrPublicKey)
      | Some None => Panic TypeAssertionFailed
      | Some (Some k) => Ret (inl k)
      end
  end.

(** The request for the public key of the server, whose error is dropped, and its answer *)
Definition request_key : MC K :=
  t <-- (fun mc => let* t := takeSmallBuffer 5 (world mc) in Ret (inl t, mc)) ;;
  match t with
  | None => mfail ErrBusyBuffer
  | Some t =>
      data <-- mget (fun mc => slice_bytes mc t) ;;
      data <-- mgo (go_set data 4 cachingSha2PasswordRequestPublicKey) ;;
      mignore (writePacket data) ;;;
      data <-- readPacket ;;
      d <-- mgo (go_slice data 1 (len data)) ;;
      mlift (public_key d)
  end.

(** The full authentication of [caching_sha2_password] *)
Definition full_authentication (c : Config) (oldAuthData : bytes) : MC unit :=
  (if bool_decide (is_Some (tls c)) || is_unix c then writeAuthSwitchPacket (Passwd c ++ [0])
   else
     k <-- (match pubKey c with None => request_key | Some k => mret k end) ;;
     sendEncryptedPassword c oldAuthData k) ;;;
  readResultOK.

(** The [switch plugin] at the end of [handleAuthResult] *)
Definition finish_auth (c : Config) (oldAuthData plugin : bytes) (authData : option bytes) : MC unit :=
  let authData := default [] authData in
  if beq plugin (B "caching_sha2_password") then
    if len authData =? 0 then mret tt
    else if len authData =? 1 then
      a <-- mgo (go_index authData 0) ;;
      if a =? cachingSha2PasswordFastAuthSuccess then readResultOK
      else if a =? cachingSha2PasswordPerformFullAuthentication then full_authentication c oldAuthData
      else mfail ErrMalformPkt
    else mfail ErrMalformPkt
  else if beq plugin (B "sha256_password") then
    if len authData =? 0 then mret tt
    else
      k <-- mlift (public_key authData) ;;
      sendEncryptedPassword c oldAuthData k ;;;
      readResultOK
  else mret tt.

(** [copy(dst, src)] *)
Definition copy_over (dst src : bytes) : bytes := take (length dst) src ++ drop (length src) dst.

(** [func (mc mysqlConn) handleAuthResult(oldAuthData []byte, plugin string) error] *)
Definition handleAuthResult (c : Config) (oldAuthData plugin : bytes) : MC unit :=
  r <-- readAuthResult ;;
  let (authData, newPlugin) := r in
  if beq newPlugin [] then finish_auth c oldAuthData plugin (fst <$> authData)
  else
    let '(old, a, tail) := match authData with
                           | None => (oldAuthData, oldAuthData, [])
                           | Some (d, tail) => (copy_over oldAuthData d, d, tail)
                           end in
    authResp <-- mlift (auth c a tail newPlugin) ;;
    writeAuthSwitchPacket authResp ;;;
    r <-- readAuthResult ;;
    let (authData, again) := r in
    if beq again [] then finish_auth c old newPlugin (fst <$> authData) else mfail ErrMalformPkt.

(** ** The handshake *)

(** [func (mc mysqlConn) readHandshakePacket() (data []byte, plugin string, err error)]: the
    cipher, the plugin, the flags of the server, and the configuration, in which a preferred
    TLS the server does not have is cleared.  [append] writes its bytes behind the first part
    of the cipher, before anything that is read after it. *)
Definition readHandshakePacket (c : Config) : MC (bytes * bytes * Z * Config) := fun mc =>
  let* (r, mc) := readPacket mc in
  match r with
  | inr ErrInvalidConn => Ret (inr ErrBadConn, mc)
  | inr e => Ret (inr e, mc)
  | inl data =>
      (d0 <-- mgo (go_index data 0) ;;
       if d0 =? iERR then handleErrorPacket data
       else if d0 <? minProtocolVersion then mfail (ErrProtocolVersion d0)
       else
         tail <-- mget (behind data) ;;
         rest <-- mgo (go_slice data 1 (len data)) ;;
         let pos := 1 + IndexByte rest 0 + 1 + 4 in
         authData <-- mgo (go_slice (data ++ tail) pos (pos + 8)) ;;
         let pos := pos + 8 + 1 in
         f <-- mgo (go_slice (data ++ tail) pos (pos + 2)) ;;
         let flags := le_uint f in
         if Z.land flags clientProtocol41 =? 0 then mfail ErrOldProtocol
         else
           c <-- (if (Z.land flags clientSSL =? 0) && bool_decide (is_Some (tls c)) then
                    if beq (TLSConfig c) (B "preferred") then mret (set_tls None c) else mfail ErrNoTLS
                  else mret c) ;;
           let pos := pos + 2 in
           if pos <? len data then
             let pos := pos + (1 + 2 + 2 + 1 + 10) in
             second <-- mgo (go_slice (data ++ tail) pos (pos + 12)) ;;
             let pos := pos + 13 in
             d <-- mgo (go_slice data pos (len data)) ;;
             let e := IndexByte d 0 in
             plugin <-- (if negb (e =? -1) then mgo (go_slice data pos (pos + e)) else mret d) ;;
             mret (copy_over (replicate 20 0) (authData ++ second), plugin, flags, c)
           else mret (copy_over (replicate 8 0) authData, [], flags, c)) mc
  end.

(** The capabilities the client asks for *)
Definition client_flags (c : Config) (flags authRespLEI : Z) : Z :=
  let f := foldl Z.lor clientProtocol41
             [clientSecureConn; clientLongPassword; clientTransactions; clientLocalFiles;
              clientPluginAuth; clientMultiResults; Z.land flags clientLongFlag] in
  let f := if ClientFoundRows c then Z.lor f clientFoundRows else f in
  let f := if bool_decide (is_Some (tls c)) then Z.lor f clientSSL else f in
  let f := if MultiStatements c then Z.lor f clientMultiStatements else f in
  let f := if 1 <? authRespLEI then Z.lor f clientPluginAuthLenEncClientData else f in
  if 0 <? len (DBName c) then Z.lor f clientConnectWithDB else f.

(** [data[pos] = b; pos++] and [pos += copy(data[pos:], s)] *)
Definition put_byte (b : Z) (t : bytes * Z) : Go (bytes * Z) :=
  let* data := go_set t.1 t.2 b in Ret (data, t.2 + 1).
Definition put_bytes (s : bytes) (t : bytes * Z) : Go (bytes * Z) :=
  let* data := go_copy t.1 t.2 (len t.1) s in Ret (data, t.2 + Z.min (len t.1 - t.2) (len s)).
Fixpoint put_all (l : bytes) (t : bytes * Z) : Go (bytes * Z) :=
  match l with
  | [] => Ret t
  | b :: l' => let* t := put_byte b t in put_all l' t
  end.

(** The part of the response before the user name: the flags, the maximal packet size and the
    collation *)
Definition response_head (flags collation : Z) (data : bytes) : Go (bytes * Z) :=
  put_all [uwrap 8 flags; uwrap 8 (Z.shiftr flags 8); uwrap 8 (Z.shiftr flags 16); uwrap 8 (Z.shiftr flags 24);
           0; 0; 0; 0; collation] (data, 4).

(** The rest: the filler, the user, the answer to the cipher, the database, the plugin *)
Definition response_tail (c : Config) (authRespLEI authResp plugin : bytes) (t : bytes * Z) : Go (bytes * Z) :=
  let* t := put_all (replicate 23 0) t in
  let* t := if 0 <? len (User c) then put_bytes (User c) t else Ret t in
  let* t := put_byte 0 t in
  let* t := put_bytes authRespLEI t in
  let* t := put_bytes authResp t in
  let* t := if 0 <? len (DBName c) then let* t := put_bytes (DBName c) t in put_byte 0 t else Ret t in
  let* t := put_bytes plugin t in
  put_byte 0 t.

Definition response_length (c : Config) (authRespLEI authResp : bytes) : Z :=
  4 + 4 + 1 + 23 + len (User c) + 1 + len authRespLEI + len authResp + 21 + 1
  + (if 0 <? len (DBName c) then len (DBName c) + 1 else 0).

(** The request for TLS and the switch of the network to it *)
Definition start_tls (t : tls_config) (data : bytes) : MC unit :=
  d <-- mgo (go_slice data 0 36) ;;
  writePacket d ;;;
  w <-- mget world ;;
  match tls_Client t (net w) with
  | None => mfail ErrTLS
  | Some n => modify (fun mc => set_world (set_net n (world mc)) mc)
  end.

(** [func (mc mysqlConn) writeHandshakeResponsePacket(authResp []byte, plugin string) error];
    the flags are written to the packet once, after the database is known. *)
Definition writeHandshakeResponsePacket (c : Config) (flags : Z) (authResp plugin : bytes) : MC unit := fun mc =>
  let authRespLEI := appendLengthEncodedInteger [] (len authResp) in
  let clientFlags := client_flags c flags (len authRespLEI) in
  let* t := takeSmallBuffer (response_length c authRespLEI authResp + 4) (world mc) in
  match t with
  | None => Ret (inr errBadConnNoWrite, mc)
  | Some t =>
      (data <-- mget (fun mc => slice_bytes mc t) ;;
       match collation_id (Collation c) with
       | None => mfail ErrCollation
       | Some id =>
           h <-- mgo (response_head clientFlags id data) ;;
           (match tls c with Some t => start_tls t h.1 | None => mret tt end) ;;;
           t <-- mgo (response_tail c authRespLEI authResp plugin h) ;;
           d <-- mgo (go_slice t.1 0 t.2) ;;
           writePacket d
       end) mc
  end.

(** ** Connecting ([mysql/connector.go]) *)

(** From the greeting to the result of the authentication; the configuration is the one left
    in the connector. *)
Definition requested (c : Config) (authData plugin : bytes) : Go ((bytes + merror) * bytes) :=
  let plugin := if beq plugin [] then defaultAuthPlugin else plugin in
  let* r := auth c authData [] plugin in
  match r with
  | inl authResp => Ret (inl authResp, plugin)
  | inr _ => let* r := auth c authData [] defaultAuthPlugin in Ret (r, defaultAuthPlugin)
  end.
Definition authenticate (c : Config) : mysqlConn → Go ((unit + merror) * Config * mysqlConn) := fun mc =>
  let* (r, mc) := readHandshakePacket c mc in
  match r with
  | inr e => Ret (inr e, c, mc)
  | inl (authData, plugin, flags, c) =>
      let* (r, plugin) := requested c authData plugin in
      match r with
      | inr e => Ret (inr e, c, mc)
      | inl authResp =>
          let* (r, mc) := (writeHandshakeResponsePacket c flags authResp plugin ;;; handleAuthResult c authData plugin) mc in
          Ret (r, c, mc)
      end
  end.

Section settings.
Context (reader : bytes → option (list bytes)) (registered : bytes → bool) (file : bytes → option bytes).
(** The order in which the parameters are ranged over *)
Context (range : gmap bytes bytes → list (bytes * bytes)).

(** The values of a row as slices of the packet: where each starts and ends ([None]: NULL).
    The type of a column is looked at when times are parsed, and [getSystemVar] gives one
    column. *)
Fixpoint row_slices (parseTime : bool) (i n : nat) (data : bytes) (pos : Z) : MC (list (option (Z * Z))) :=
  match n with
  | O => mret []
  | S n' =>
      r <-- string_at data pos ;;
      let '(s, isNull, e) := r in
      if negb isNull && parseTime && (0 <? i)%nat then mgo (Panic IndexOutOfRange)
      else
        l <-- row_slices parseTime (S i) n' data e ;;
        mret ((if isNull : bool then None else Some (e - len s, e)) :: l)
  end.

(** [rows.readRow(dest)] on the fresh [rows] of [getSystemVar]: the packet and its values *)
Definition system_row (parseTime : bool) (n : nat) : MC (bytes * list (option (Z * Z))) :=
  data <-- readPacket ;;
  d0 <-- mgo (go_index data 0) ;;
  if (d0 =? iEOF) && (len data =? 5) then
    d <-- mgo (go_slice data 3 (len data)) ;;
    s <-- mgo (readStatus d) ;;
    modify (set_status s) ;;; mfail ErrEOF
  else if d0 =? iERR then handleErrorPacket data
  else l <-- row_slices parseTime 0 n data 0 ;; mret (data, l).

(** [func (mc mysqlConn) getSystemVar(name string) ([]byte, error)]: the bytes of the result
    as they are when it is returned, after the rest of the result set was read into the same
    buffer. *)
Definition getSystemVar (parseTime : bool) (name : bytes) : MC bytes :=
  writeCommandPacketStr comQuery (B "SELECT @@" ++ name) ;;;
  resLen <-- readResultSetHeaderPacket reader registered file ;;
  (if 0 <? resLen then readUntilEOF else mret tt) ;;;
  if resLen <? 0 then mgo (Panic MakeSliceLen)
  else
    r <-- system_row parseTime (Z.to_nat resLen) ;;
    b <-- mget (fun mc => bb (world mc)) ;;
    v <-- mgo (go_index r.2 0) ;;
    match v with
    | None => mgo (Panic TypeAssertionFailed)
    | Some (from, to) =>
        readUntilEOF ;;;
        if len r.1 <? maxPacketSize then
          let start := b_idx b - len r.1 in
          mget (fun mc => sub (arr (world mc) (b_buf b)) (start + from) (start + to))
        else mret (sub r.1 from to)
    end.

(** [func (mc mysqlConn) handleParams() (err error)] *)
Fixpoint set_names (err : option merror) (charsets : list bytes) : MC unit :=
  match charsets with
  | [] => match err with Some e => mfail e | None => mret tt end
  | cs :: rest =>
      r <-- mtry (exec reader registered file (B "SET NAMES " ++ cs)) ;;
      match r with inl _ => mret tt | inr e => set_names (Some e) rest end
  end.
Fixpoint set_params (l : list (bytes * bytes)) : MC unit :=
  match l with
  | [] => mret tt
  | (param, val) :: l' =>
      (if beq param (B "charset") then set_names None (SplitByte val 44)
       else exec reader registered file (B "SET " ++ param ++ B "=" ++ val)) ;;;
      set_params l'
  end.
Definition handleParams (c : Config) : MC unit := set_params (range (default ∅ (Params c))).

(** The sizes of packets: configured, or asked from the server *)
Definition set_sizes (a w : Z) (mc : mysqlConn) : mysqlConn :=
  mk_conn (world mc) (out mc) (wouts mc) (stale mc) (affectedRows mc) (insertId mc) (cfg mc) a w
    (status mc) (sequence mc) (reset mc) (canceled mc) (closed mc).
Definition packet_sizes (c : Config) : MC unit :=
  a <-- (if 0 <? MaxAllowedPacket c then mret (MaxAllowedPacket c)
         else v <-- getSystemVar (ParseTime c) (B "max_allowed_packet") ;; mret (swrap 64 (stringToInt v - 1))) ;;
  modify (fun mc => set_sizes a (if a <? maxPacketSize then a else maxWriteSize mc) mc).

(** What dialing the address gives: an error, temporary or not, or a connection, with the
    outcome of [SetKeepAlive] and what its reads and writes will do. *)
Inductive dial_result :=
| DialErr (temporary : bool)
| Dialed (keepAlive : bool) (n : reads) (ws : list (option write_out)).

(** The connection [Connect] makes *)
Definition new_conn (c : Config) (n : reads) (ws : list (option write_out)) : mysqlConn :=
  mk_conn (newBuffer n) [] ws false 0 0
    (mk_cfg (MysqlDsn.InterpolateParams c) (MysqlDsn.RejectReadOnly c) (MysqlDsn.ColumnsWithAlias c) (MysqlDsn.AllowAllFiles c))
    maxPacketSize (maxPacketSize - 1) 0 0 false false false.

(** [func (c connector) Connect(ctx context.Context) (driver.Conn, error)], with a context
    that is not cancelled *)
Definition Connect (c : Config) (dialed : dial_result) : Go ((mysqlConn + merror) * Config * option mysqlConn) :=
  match dialed with
  | DialErr temporary => Ret (inr (if temporary then ErrBadConn else ErrDial), c, None)
  | Dialed false _ _ => Ret (inr ErrKeepAlive, c, None)
  | Dialed true n ws =>
      let* (r, c, mc) := authenticate c (new_conn c n ws) in
      match r with
      | inr e => Ret (inr e, c, Some (cleanup mc))
      | inl _ =>
          let* (r, mc) := (packet_sizes c ;;; handleParams c) mc in
          match r with
          | inl _ => Ret (inl mc, c, Some mc)
          | inr e => let* (_, mc) := conn_Close mc in Ret (inr e, c, Some mc)
          end
      end
  end.
End settings.
End auth.
