(* ===== verification/MysqlPacketProps.v ===== *)
(** * Packets of [mysql/packets.go]

    [frames] is the documented framing of a payload.  [writePacket] produces it, for payloads
    of any size; [readPacket] reads it back from a network that cuts it anywhere. *)

From S2P Require Import Prelude GoStrings MysqlUtils MysqlUtilsProps MysqlBuffer MysqlBufferProps MysqlConn.
Open Scope mc_scope.

(** ** Framing *)

Definition header (n seq : Z) : bytes := le_bytes 3 n ++ [seq].

(** The packets of the full size that a payload needs, and the last one. *)
Definition full_packets (payload : bytes) : nat := Z.to_nat (len payload / maxPacketSize).
Definition next_seq (seq : Z) : Z := uwrap 8 (seq + 1).
Fixpoint frames_go (n : nat) (seq : Z) (payload : bytes) : bytes :=
  match n with
  | O => header (len payload) seq ++ payload
  | S k => header maxPacketSize seq ++ take (Z.to_nat maxPacketSize) payload ++
           frames_go k (next_seq seq) (drop (Z.to_nat maxPacketSize) payload)
  end.
Definition frames (seq : Z) (payload : bytes) : bytes := frames_go (full_packets payload) seq payload.
Definition seq_after (seq : Z) (payload : bytes) : Z := Nat.iter (S (full_packets payload)) next_seq seq.

Lemma len_header n seq : len (header n seq) = 4.
Proof. unfold header. rewrite len_app, len_le_bytes. done. Qed.

Lemma iter_next k seq : Nat.iter k next_seq (next_seq seq) = next_seq (Nat.iter k next_seq seq).
Proof. induction k as [|k IH]; [done|]. simpl. by rewrite IH. Qed.

Lemma next_seq_ok seq : uint_ok 8 (next_seq seq).
Proof. unfold next_seq, uwrap. apply Z.mod_pos_bound. done. Qed.

(** The size of the payload decides the number of packets. *)
Lemma full_packets_O payload : full_packets payload = O ↔ len payload < maxPacketSize.
Proof.
  unfold full_packets, maxPacketSize. pose proof (len_nonneg payload).
  pose proof (Z.div_pos (len payload) (2 ^ 24 - 1) ltac:(lia) ltac:(lia)).
  split; intros E.
  - assert (len payload / (2 ^ 24 - 1) = 0) as E0 by lia. apply Z.div_small_iff in E0; lia.
  - rewrite Z.div_small by lia. done.
Qed.

Lemma full_packets_S payload k :
  full_packets payload = S k →
  maxPacketSize ≤ len payload ∧ full_packets (drop (Z.to_nat maxPacketSize) payload) = k ∧
  len (take (Z.to_nat maxPacketSize) payload) = maxPacketSize.
Proof.
  intros E. assert (maxPacketSize ≤ len payload) as Hge.
  { apply Z.nlt_ge. intros Hlt. apply full_packets_O in Hlt. lia. }
  split; [done|]. assert (len (drop (Z.to_nat maxPacketSize) payload) = len payload - 1 * maxPacketSize) as Hl.
  { unfold len in *. rewrite length_drop. unfold maxPacketSize in *. lia. }
  split.
  - unfold full_packets in *. rewrite Hl. unfold maxPacketSize in *. rewrite <- Z.add_opp_r, <- Z.mul_opp_l, Z.div_add by lia. lia.
  - unfold len in *. rewrite length_take. unfold maxPacketSize in *. lia.
Qed.

(** ** Writing *)

(** A connection on which writes succeed. *)
Definition writable (mc : mysqlConn) : Prop := closed mc = false ∧ wouts mc = [].

(** The connection after [bs] have been written, with sequence number [s]. *)
Definition wrote (bs : bytes) (s : Z) (mc : mysqlConn) : mysqlConn :=
  set_sequence s (set_out (out mc ++ bs) [] mc).

Lemma put_header_spec size seq a b c d payload :
  put_header size seq (a :: b :: c :: d :: payload) = Ret (header size seq ++ payload).
Proof.
  unfold put_header, header. cbn [le_bytes app]. rewrite Z.shiftr_shiftr by lia. change (8 + 8) with 16.
  set (x := uwrap 8 size). set (y := uwrap 8 (Z.shiftr size 8)). set (z := uwrap 8 (Z.shiftr size 16)).
  rewrite (go_set_mid [] a _ x : go_set (a :: b :: c :: d :: payload) 0 x = _). cbn [gbind app].
  rewrite (go_set_mid [x] b _ y : go_set (x :: b :: c :: d :: payload) 1 y = _). cbn [gbind app].
  rewrite (go_set_mid [x; y] c _ z : go_set (x :: y :: c :: d :: payload) 2 z = _). cbn [gbind app].
  exact (go_set_mid [x; y; z] d payload seq).
Qed.

Lemma net_write_ok bs mc :
  writable mc → net_write bs mc = (len bs, false, set_out (out mc ++ bs) [] mc).
Proof. intros [Hc Hw]. unfold net_write. by rewrite Hc, Hw. Qed.

Lemma write_loop_frames k : ∀ fuel h payload mc,
  (k < fuel)%nat → len h = 4 → full_packets payload = k → writable mc →
  write_loop fuel (h ++ payload) (len payload) mc
  = Ret (inl tt, wrote (frames_go k (sequence mc) payload) (Nat.iter (S k) next_seq (sequence mc)) mc).
Proof.
  induction k as [|k IH]; intros fuel h payload mc Hf Hh Hk Hw;
    (destruct fuel as [|fuel]; [lia|]); cbn [write_loop];
    (destruct h as [|a [|b [|c [|d [|e h]]]]]; try (unfold len in Hh; simpl in Hh; lia)); cbn [app].
  - apply full_packets_O in Hk. rewrite (proj2 (Z.leb_gt _ _)) by done.
    rewrite put_header_spec. cbn [gbind frames_go].
    replace (4 + len payload) with (len (header (len payload) (sequence mc) ++ payload)) by (rewrite len_app, len_header; done).
    rewrite <- (app_nil_r (header _ _ ++ payload)) at 1. rewrite go_slice_front. cbn [gbind].
    rewrite net_write_ok, Z.eqb_refl by done. cbn [negb andb].
    rewrite (proj2 (Z.eqb_neq (len payload) maxPacketSize)) by lia. done.
  - destruct (full_packets_S _ _ Hk) as (Hge & Hk' & Hlt). rewrite (proj2 (Z.leb_le _ _)) by done.
    rewrite put_header_spec. cbn [gbind frames_go].
    set (pre := take (Z.to_nat maxPacketSize) payload) in *. set (post := drop (Z.to_nat maxPacketSize) payload) in *.
    assert (payload = pre ++ post) as Hp by (symmetry; apply take_drop).
    set (hd := header maxPacketSize (sequence mc)). assert (len hd = 4) as Hhd by apply len_header.
    replace (4 + maxPacketSize) with (len (hd ++ pre)) by (rewrite len_app; lia).
    assert (hd ++ payload = (hd ++ pre) ++ post) as -> by (by rewrite <- (assoc_L (++)), <- Hp).
    rewrite go_slice_front. cbn [gbind].
    rewrite net_write_ok, Z.eqb_refl by done. cbn [negb andb].
    rewrite Z.eqb_refl. cbn [negb].
    (* the last four bytes of this packet become the header of the next *)
    assert (∃ front h', hd ++ pre = front ++ h' ∧ len front = maxPacketSize ∧ len h' = 4) as (front & h' & Ef & Hfront & Hh').
    { exists (take (Z.to_nat maxPacketSize) (hd ++ pre)), (drop (Z.to_nat maxPacketSize) (hd ++ pre)).
      rewrite take_drop. split; [done|]. unfold len in *. rewrite length_take, length_drop, length_app. unfold maxPacketSize in *. lia. }
    rewrite Ef, <- (assoc_L (++)), <- Hfront, go_slice_tail. cbn [gbind].
    replace (len payload - len front) with (len post) by (rewrite Hp, len_app; lia).
    rewrite IH; [|lia|done|done|by destruct Hw]. f_equal. f_equal. unfold wrote. rewrite <- Ef.
    cbn [sequence set_sequence set_out out]. change (uwrap 8 (sequence mc + 1)) with (next_seq (sequence mc)).
    rewrite iter_next, <- !(assoc_L (++)). done.
Qed.

(** What [writePacket] puts on the wire. *)
Lemma writePacket_frames h payload mc :
  len h = 4 → writable mc → reset mc = false → len payload ≤ maxAllowedPacket mc →
  writePacket (h ++ payload) mc
  = Ret (inl tt, wrote (frames (sequence mc) payload) (seq_after (sequence mc) payload) mc).
Proof.
  intros Hh Hw Hr Hm. unfold writePacket, write_payload. rewrite len_app, Hh, Hr.
  replace (4 + len payload - 4) with (len payload) by lia. rewrite (proj2 (Z.ltb_ge _ _)) by done.
  apply write_loop_frames; [unfold full_packets; lia|done|done|done].
Qed.

(** ** Reading *)

(** A connection with [data] to be read, in whatever pieces. *)
Record readable (mc : mysqlConn) (data : bytes) : Prop := {
  readable_stream : stream (world mc) = data;
  readable_valid : valid (world mc);
  readable_net : net_ok (net (world mc)) = true }.

Lemma next_spec need mc data rest :
  readable mc (data ++ rest) → len data = need →
  ∃ w, next need mc = Ret (inl data, set_world w mc) ∧ readable (set_world w mc) rest.
Proof.
  intros [Hs Hv Hn] Hlen. pose proof (len_nonneg data). pose proof (len_nonneg rest).
  destruct (readNext_spec need (world mc) Hv Hn ltac:(lia)) as (r & w & Hr & Hspec).
  rewrite Hs, len_app, (proj2 (Z.leb_le _ _)) in Hspec by lia.
  destruct Hspec as (-> & Hs' & Hv' & Hn').
  rewrite <- Hlen, len_to_nat, drop_app_length in Hs'.
  exists w. split; [|by split]. unfold next. rewrite Hr. cbn [gbind].
  by rewrite <- Hlen, len_to_nat, take_app_length.
Qed.

(** The three length bytes of a header. *)
Lemma header_length n seq :
  0 ≤ n < 2 ^ 24 → ∃ b0 b1 b2, header n seq = [b0; b1; b2; seq] ∧
    Z.lor (Z.lor b0 (Z.shiftl b1 8)) (Z.shiftl b2 16) = n.
Proof.
  intros Hn. unfold header. cbn [le_bytes app]. do 3 eexists. split; [done|].
  pose proof (le_uint_small 3 n Hn) as E. cbn [le_bytes le_uint] in E.
  rewrite Z.shiftl_0_l, Z.lor_0_r, Z.shiftl_lor, Z.shiftl_shiftl, Z.lor_assoc in E by lia. exact E.
Qed.

Lemma mbind_inl {A C} (m : MC A) (k : A → MC C) mc a mc' :
  m mc = Ret (inl a, mc') → mbind m k mc = k a mc'.
Proof. intros H. unfold mbind. by rewrite H. Qed.

Lemma set_world_world w1 w2 mc : set_world w2 (set_world w1 mc) = set_world w2 mc.
Proof. done. Qed.

(** One round of the loop on a packet of [body]. *)
Lemma read_round k prev body rest mc :
  0 < len body ≤ maxPacketSize → readable mc (header (len body) (sequence mc) ++ body ++ rest) →
  ∃ w, readable (set_world w mc) rest ∧
  read_loop (S k) prev mc =
  (if len body <? maxPacketSize then mret (default [] prev ++ body) else read_loop k (Some (default [] prev ++ body)))
    (set_sequence (next_seq (sequence mc)) (set_world w mc)).
Proof.
  intros Hb Hr. destruct (next_spec 4 mc _ _ Hr (len_header _ _)) as (w1 & E1 & Hr1).
  destruct (header_length (len body) (sequence mc)) as (b0 & b1 & b2 & Eh & Ev); [unfold maxPacketSize in Hb; lia|].
  rewrite Eh in E1.
  set (mc1 := set_sequence (next_seq (sequence mc)) (set_world w1 mc)).
  assert (readable mc1 (body ++ rest)) as Hr1' by (destruct Hr1; by split).
  destruct (next_spec (len body) mc1 body rest Hr1' eq_refl) as (w2 & E2 & Hr2).
  exists w2. split; [destruct Hr2; by split|]. cbn [read_loop].
  rewrite (mbind_inl _ _ _ _ _ E1). cbn [mbind mgo gbind mget].
  change (go_index [b0; b1; b2; sequence mc] 0) with (Ret b0).
  change (go_index [b0; b1; b2; sequence mc] 1) with (Ret b1).
  change (go_index [b0; b1; b2; sequence mc] 2) with (Ret b2).
  change (go_index [b0; b1; b2; sequence mc] 3) with (Ret (sequence mc)). unfold mbind at 1 2 3 4 5. unfold mgo, mget. cbn [gbind].
  change (sequence (set_world w1 mc)) with (sequence mc).
  rewrite Ev, Z.eqb_refl. cbn [negb]. unfold mbind at 1. cbn [modify gbind].
  rewrite (proj2 (Z.eqb_neq (len body) 0)) by lia.
  change (set_sequence (uwrap 8 (sequence (set_world w1 mc) + 1)) (set_world w1 mc)) with mc1.
  rewrite (mbind_inl _ _ _ _ _ E2). done.
Qed.

(** The empty packet that ends a payload of whole packets. *)
Lemma read_round_empty k p rest mc :
  readable mc (header 0 (sequence mc) ++ rest) →
  ∃ w, readable (set_world w mc) rest ∧
  read_loop (S k) (Some p) mc = Ret (inl p, set_sequence (next_seq (sequence mc)) (set_world w mc)).
Proof.
  intros Hr. destruct (next_spec 4 mc _ _ Hr (len_header _ _)) as (w1 & E1 & Hr1).
  exists w1. split; [done|]. cbn [read_loop]. rewrite (mbind_inl _ _ _ _ _ E1).
  unfold mbind, mgo, mget, modify, mret. cbn [gbind].
  change (go_index (header 0 (sequence mc)) 0) with (@Ret Z 0). change (go_index (header 0 (sequence mc)) 1) with (@Ret Z 0).
  change (go_index (header 0 (sequence mc)) 2) with (@Ret Z 0).
  change (go_index (header 0 (sequence mc)) 3) with (Ret (sequence mc)). cbn [gbind].
  change (sequence (set_world w1 mc)) with (sequence mc). by rewrite Z.eqb_refl.
Qed.

Lemma read_loop_frames k : ∀ fuel prev payload rest mc,
  (k < fuel)%nat → full_packets payload = k → (payload = [] → prev ≠ None) →
  readable mc (frames_go k (sequence mc) payload ++ rest) →
  ∃ w, readable (set_world w mc) rest ∧
  read_loop fuel prev mc
  = Ret (inl (default [] prev ++ payload), set_sequence (Nat.iter (S k) next_seq (sequence mc)) (set_world w mc)).
Proof.
  induction k as [|k IH]; intros fuel prev payload rest mc Hf Hk Hne Hr; (destruct fuel as [|fuel]; [lia|]); cbn [frames_go] in Hr.
  - apply full_packets_O in Hk. rewrite <- (assoc_L (++)) in Hr.
    destruct payload as [|b payload].
    + destruct prev as [p|]; [|by destruct Hne]. destruct (read_round_empty fuel p rest mc Hr) as (w & Hw & ->).
      exists w. split; [done|]. by rewrite app_nil_r.
    + destruct (read_round fuel prev (b :: payload) rest mc) as (w & Hw & ->); [|done|].
      { rewrite len_cons in *. pose proof (len_nonneg payload). lia. }
      exists w. split; [done|]. by rewrite (proj2 (Z.ltb_lt _ _)).
  - destruct (full_packets_S _ _ Hk) as (Hge & Hk' & Hlt).
    pose proof (take_drop (Z.to_nat maxPacketSize) payload) as Hp. revert Hp Hk' Hlt Hr.
    generalize (take (Z.to_nat maxPacketSize) payload) (drop (Z.to_nat maxPacketSize) payload).
    intros pre post <- Hk' Hlt Hr.
    rewrite <- Hlt, <- !(assoc_L (++)) in Hr.
    destruct (read_round fuel prev pre _ mc ltac:(rewrite Hlt; unfold maxPacketSize; lia) Hr) as (w & Hw & ->).
    rewrite Hlt, Z.ltb_irrefl. set (mc1 := set_sequence (next_seq (sequence mc)) (set_world w mc)).
    destruct (IH fuel (Some (default [] prev ++ pre)) post rest mc1) as (w2 & Hw2 & ->); [lia|done|done|by destruct Hw|].
    exists w2. split; [by destruct Hw2|]. cbn [default from_option id]. rewrite <- (assoc_L (++)). unfold mc1. cbn [sequence set_sequence]. by rewrite iter_next.
Qed.

(** ** Fuel *)

Lemma length_incoming n : (length (incoming n) ≤ foldr (fun x k => length x.1 + k)%nat 0%nat n)%nat.
Proof.
  induction n as [|[d [[]|]] n IH]; simpl; rewrite ?length_app; lia.
Qed.

Lemma read_fuel_stream w : valid w → (length (stream w) < read_fuel w)%nat.
Proof.
  intros Hv. pose proof (length_pending w Hv) as Hp. pose proof (length_incoming (net w)).
  unfold stream, read_fuel, len in *. rewrite length_app. lia.
Qed.

Lemma length_frames_go k : ∀ seq payload, full_packets payload = k → (4 * S k ≤ length (frames_go k seq payload))%nat.
Proof.
  induction k as [|k IH]; intros seq payload Hk; cbn [frames_go].
  - rewrite length_app. pose proof (len_header (len payload) seq). unfold len in *. lia.
  - destruct (full_packets_S _ _ Hk) as (_ & Hk' & _). rewrite !length_app.
    pose proof (IH (next_seq seq) _ Hk'). pose proof (len_header maxPacketSize seq). unfold len in *. lia.
Qed.

(** What [readPacket] takes off the network. *)
Lemma readPacket_frames payload rest mc :
  payload ≠ [] → readable mc (frames (sequence mc) payload ++ rest) →
  ∃ w, readable (set_world w mc) rest ∧
  readPacket mc = Ret (inl payload, set_sequence (seq_after (sequence mc) payload) (set_world w mc)).
Proof.
  intros Hne Hr. unfold readPacket.
  destruct (read_loop_frames (full_packets payload) (read_fuel (world mc)) None payload rest mc) as (w & Hw & ->); try done; eauto.
  pose proof (read_fuel_stream _ (readable_valid _ _ Hr)) as Hfuel. rewrite (readable_stream _ _ Hr), length_app in Hfuel.
  pose proof (length_frames_go (full_packets payload) (sequence mc) payload eq_refl). unfold frames in Hfuel. lia.
Qed.

(** C22: A payload that is not empty, of any size up to the allowed one and split into packets
    where it is 16 MB or more, is read back as written by a connection with the same sequence
    number (an empty payload is written as an empty packet, for which the reader closes the
    connection); both sides end with the same sequence number and what follows stays readable.
    *)
Theorem packet_roundtrip h payload rest sender receiver :
  len h = 4 → payload ≠ [] → len payload ≤ maxAllowedPacket sender →
  writable sender → reset sender = false → sequence receiver = sequence sender →
  ∃ sent, writePacket (h ++ payload) sender
          = Ret (inl tt, wrote sent (seq_after (sequence sender) payload) sender) ∧
  (readable receiver (sent ++ rest) →
   ∃ w, readPacket receiver
        = Ret (inl payload, set_sequence (seq_after (sequence sender) payload) (set_world w receiver)) ∧
        readable (set_world w receiver) rest).
Proof.
  intros Hh Hne Hmax Hw Hr Hseq. exists (frames (sequence sender) payload). split; [by apply writePacket_frames|].
  rewrite <- Hseq. intros Hread. destruct (readPacket_frames payload rest receiver Hne Hread) as (w & ? & ?). eauto.
Qed.

(** A fresh connection over a network. *)
Definition fresh_conn (n : reads) : mysqlConn :=
  mk_conn (newBuffer n) [] [] false 0 0 (mk_cfg false false false false) (4 * 1024 * 1024) (4 * 1024 * 1024) 0 0 false false false.

Lemma packet_roundtrip_witness :
  ∃ w, readPacket (fresh_conn [([5; 0], None); ([0; 0; 104; 101], None); (B "llo", None)])
       = Ret (inl (B "hello"), set_sequence 1 (set_world w (fresh_conn [([5; 0], None); ([0; 0; 104; 101], None); (B "llo", None)]))).
Proof.
  destruct (packet_roundtrip (replicate 4 0) (B "hello") [] (fresh_conn []) (fresh_conn [([5; 0], None); ([0; 0; 104; 101], None); (B "llo", None)]))
    as (sent & Hs & Hr); [done|done|vm_compute; discriminate|done|done|done|].
  assert (sent = [5; 0; 0; 0] ++ B "hello") as ->.
  { vm_compute in Hs. injection Hs as Hs. unfold wrote in Hs. by destruct sent. }
  destruct Hr as (w & Hr & _); [split; [reflexivity|apply valid_newBuffer|reflexivity]|].
  exists w. exact Hr.
Defined.

(** An empty payload is written as an empty packet, which is taken for the end of a payload of
    whole packets: with none before it the reader closes the connection. *)
Example empty_payload_refused :
  ∃ w mc, writePacket (replicate 4 0) (fresh_conn []) = Ret (inl tt, w) ∧ out w = [0; 0; 0; 0] ∧
    readPacket (fresh_conn [(out w, None)]) = Ret (inr ErrInvalidConn, mc) ∧ closed mc = true.
Proof. eexists _, _. split; [vm_compute; reflexivity|]. split; [vm_compute; reflexivity|]. split; vm_compute; reflexivity. Qed.
