(* ===== verification/MysqlQueryProps.v ===== *)
(** * Text results of the MySQL driver

    A server that answers a query with the documented packets of a text result set: the
    driver sends the query, returns the column definitions, and [Next] returns exactly the
    rows, whatever their sizes and however the network cuts them. *)

From S2P Require Import Prelude GoStrings MysqlUtils MysqlUtilsProps MysqlBuffer MysqlBufferProps MysqlConn MysqlPacketProps Mysql MysqlQuery.
Open Scope mc_scope.

(** ** What the server sends *)

Definition lenenc (s : bytes) : bytes := appendLengthEncodedInteger [] (len s) ++ s.

(** A column definition (Protocol::ColumnDefinition41) *)
Record server_column := mk_column {
  sc_schema : bytes; sc_table : bytes; sc_org_table : bytes; sc_name : bytes; sc_org_name : bytes;
  sc_charset : Z; sc_length : Z; sc_type : Z; sc_flags : Z; sc_decimals : Z }.
Definition column_packet (c : server_column) : bytes :=
  lenenc (B "def") ++ lenenc (sc_schema c) ++ lenenc (sc_table c) ++ lenenc (sc_org_table c) ++
  lenenc (sc_name c) ++ lenenc (sc_org_name c) ++
  12 :: le_bytes 2 (sc_charset c) ++ le_bytes 4 (sc_length c) ++ sc_type c :: le_bytes 2 (sc_flags c) ++ [sc_decimals c; 0; 0].

(** A row: the text of each value, or the NULL byte *)
Definition row_packet (row : list (option bytes)) : bytes :=
  row ≫= fun v => match v with None => [251] | Some b => lenenc b end.
Definition eof_packet (warnings st : Z) : bytes := 254 :: le_bytes 2 warnings ++ le_bytes 2 st.

(** The packets of a result set; the columns and the rows end with the warnings and the status
    of [e1] and of [e2]. *)
Definition resultset (cs : list server_column) (rows : list (list (option bytes))) (e1 e2 : Z * Z) : list bytes :=
  appendLengthEncodedInteger [] (len cs) :: (column_packet <$> cs) ++ eof_packet e1.1 e1.2 ::
  (row_packet <$> rows) ++ [eof_packet e2.1 e2.2].

(** Packets on the wire, numbered in sequence *)
Fixpoint wire (seq : Z) (ps : list bytes) : bytes :=
  match ps with [] => [] | p :: ps' => frames seq p ++ wire (seq_after seq p) ps' end.

Lemma wire_app seq ps qs : ∃ seq', wire seq (ps ++ qs) = wire seq ps ++ wire seq' qs.
Proof.
  revert seq. induction ps as [|p ps IH]; intros seq; [by exists seq|]. cbn [wire app].
  destruct (IH (seq_after seq p)) as [seq' ->]. exists seq'. by rewrite (assoc_L (++)).
Qed.

Lemma length_wire ps : ∀ seq, (length ps ≤ length (wire seq ps))%nat.
Proof.
  induction ps as [|p ps IH]; intros seq; [done|]. cbn [wire length]. rewrite length_app.
  pose proof (length_frames_go (full_packets p) seq p eq_refl). specialize (IH (seq_after seq p)). unfold frames. lia.
Qed.

(** A connection on which [ps] arrive, and [rest] after them. *)
Definition serves (mc : mysqlConn) (ps : list bytes) (rest : bytes) : Prop :=
  readable mc (wire (sequence mc) ps ++ rest).

(** The connection [mc] with other input, sequence number and status *)
Definition moved_to (w : bworld) (s st : Z) (mc : mysqlConn) : mysqlConn :=
  set_status st (set_sequence s (set_world w mc)).

(** Only the input and the sequence number matter. *)
Lemma serves_moved w s st st' mc ps rest : serves (moved_to w s st mc) ps rest → serves (moved_to w s st' mc) ps rest.
Proof. intros [H1 H2 H3]. by split. Qed.

Lemma readPacket_serves p ps rest mc :
  p ≠ [] → serves mc (p :: ps) rest →
  ∃ w s, readPacket mc = Ret (inl p, moved_to w s (status mc) mc) ∧ serves (moved_to w s (status mc) mc) ps rest.
Proof.
  intros Hp Hs. unfold serves in Hs. cbn [wire] in Hs. rewrite <- (assoc_L (++)) in Hs.
  destruct (readPacket_frames p _ mc Hp Hs) as (w & Hw & ->).
  exists w, (seq_after (sequence mc) p). split; [by destruct mc|]. destruct Hw; by split.
Qed.

(** ** Length-encoded strings at a position *)

(** Strings of a size that fits a Go slice *)
Definition sized (s : bytes) : Prop := len s < 2 ^ 62.

Lemma lenenc_pos s : 0 < len (lenenc s).
Proof. unfold lenenc. rewrite len_app. pose proof (len_append_pos (len s)). pose proof (len_nonneg s). lia. Qed.

Lemma skip_at_lenenc pre s post mc :
  sized s → skip_at (pre ++ lenenc s ++ post) (len pre) mc = Ret (inl (len (pre ++ lenenc s)), mc).
Proof.
  intros Hs. unfold skip_at, mbind, mgo. rewrite go_slice_tail. cbn [gbind].
  destruct (lenenc_string_reads s post Hs) as [_ E]. fold (lenenc s) in E. rewrite E. cbn [gbind]. unfold mret. by rewrite len_app.
Qed.

Lemma string_at_lenenc pre s post mc :
  sized s → string_at (pre ++ lenenc s ++ post) (len pre) mc = Ret (inl (s, false, len (pre ++ lenenc s)), mc).
Proof.
  intros Hs. unfold string_at, mbind, mgo. rewrite go_slice_tail. cbn [gbind].
  destruct (lenenc_string_reads s post Hs) as [E _]. fold (lenenc s) in E. rewrite E. cbn [gbind]. unfold mret. by rewrite len_app.
Qed.

Lemma mgo_ret {A} (a : A) mc : mgo (Ret a) mc = Ret (inl a, mc).
Proof. done. Qed.

(** ** Column definitions *)

Record column_ok (c : server_column) : Prop := {
  co_strings : sized (sc_schema c) ∧ sized (sc_table c) ∧ sized (sc_org_table c) ∧ sized (sc_name c) ∧ sized (sc_org_name c);
  co_length : uint_ok 32 (sc_length c);
  co_flags : uint_ok 16 (sc_flags c) }.

(** What the driver keeps of a column *)
Definition field_of (alias : bool) (c : server_column) : mysqlField :=
  mk_field (if alias then sc_table c else []) (sc_name c) (sc_length c) (sc_flags c) (sc_type c)
    (sc_decimals c) (uwrap 8 (sc_charset c)).

(** Two ways to bracket a concatenation. *)
Ltac list_eq := repeat (progress cbn [app] || rewrite <- (assoc_L (++))); reflexivity.

(** The fixed-size end of a definition, from position [len pre]. *)
Lemma column_tail pre c :
  column_ok c →
  let data := pre ++ 12 :: le_bytes 2 (sc_charset c) ++ le_bytes 4 (sc_length c) ++
              sc_type c :: le_bytes 2 (sc_flags c) ++ [sc_decimals c; 0; 0] in
  go_index data (len pre + 1) = Ret (uwrap 8 (sc_charset c)) ∧
  go_slice data (len pre + 1 + 2) (len pre + 1 + 2 + 4) = Ret (le_bytes 4 (sc_length c)) ∧
  go_index data (len pre + 1 + 2 + 4) = Ret (sc_type c) ∧
  go_slice data (len pre + 1 + 2 + 4 + 1) (len pre + 1 + 2 + 4 + 1 + 2) = Ret (le_bytes 2 (sc_flags c)) ∧
  go_index data (len pre + 1 + 2 + 4 + 1 + 2) = Ret (sc_decimals c).
Proof.
  intros Hc data.
  set (cs := le_bytes 2 (sc_charset c)). set (l4 := le_bytes 4 (sc_length c)). set (f2 := le_bytes 2 (sc_flags c)).
  assert (len cs = 2) as H1 by apply len_le_bytes. assert (len l4 = 4) as H2 by apply len_le_bytes.
  assert (len f2 = 2) as H3 by apply len_le_bytes.
  assert (data = (pre ++ [12]) ++ uwrap 8 (sc_charset c) :: [uwrap 8 (Z.shiftr (sc_charset c) 8)] ++ l4 ++ sc_type c :: f2 ++ [sc_decimals c; 0; 0]) as E1 by (unfold data; list_eq).
  assert (data = (pre ++ 12 :: cs) ++ l4 ++ sc_type c :: f2 ++ [sc_decimals c; 0; 0]) as E2 by (unfold data; list_eq).
  assert (data = (pre ++ 12 :: cs ++ l4) ++ sc_type c :: f2 ++ [sc_decimals c; 0; 0]) as E3 by (unfold data; list_eq).
  assert (data = (pre ++ 12 :: cs ++ l4 ++ [sc_type c]) ++ f2 ++ [sc_decimals c; 0; 0]) as E4 by (unfold data; list_eq).
  assert (data = (pre ++ 12 :: cs ++ l4 ++ sc_type c :: f2) ++ sc_decimals c :: [0; 0]) as E5 by (unfold data; list_eq).
  split_and!.
  - rewrite E1. replace (len pre + 1) with (len (pre ++ [12])) by (rewrite len_app; done). apply go_index_mid.
  - rewrite E2. replace (len pre + 1 + 2) with (len (pre ++ 12 :: cs)) by (rewrite len_app, len_cons; lia).
    rewrite <- H2. apply go_slice_mid.
  - rewrite E3. replace (len pre + 1 + 2 + 4) with (len (pre ++ 12 :: cs ++ l4)) by (rewrite len_app, len_cons, len_app; lia).
    apply go_index_mid.
  - rewrite E4. replace (len pre + 1 + 2 + 4 + 1) with (len (pre ++ 12 :: cs ++ l4 ++ [sc_type c]))
      by (rewrite len_app, len_cons, !len_app; unfold len at 4; simpl; lia).
    rewrite <- H3. apply go_slice_mid.
  - rewrite E5. replace (len pre + 1 + 2 + 4 + 1 + 2) with (len (pre ++ 12 :: cs ++ l4 ++ sc_type c :: f2))
      by (rewrite len_app, len_cons, !len_app, len_cons; lia).
    apply go_index_mid.
Qed.

(** The readers at a position given by an equation. *)
Lemma skip_step {C} data pre s post pos (k : Z → MC C) mc :
  data = pre ++ lenenc s ++ post → pos = len pre → sized s →
  mbind (skip_at data pos) k mc = k (len (pre ++ lenenc s)) mc.
Proof. intros -> -> Hs. apply mbind_inl. by apply skip_at_lenenc. Qed.

Lemma string_step {C} data pre s post pos (k : bytes * bool * Z → MC C) mc :
  data = pre ++ lenenc s ++ post → pos = len pre → sized s →
  mbind (string_at data pos) k mc = k (s, false, len (pre ++ lenenc s)) mc.
Proof. intros -> -> Hs. apply mbind_inl. by apply string_at_lenenc. Qed.

Lemma column_of_packet alias c i count mc :
  column_ok c → i < count →
  column_of alias (column_packet c) i count mc = Ret (inl (field_of alias c), mc).
Proof.
  intros Hc Hi. destruct (co_strings c Hc) as (H1 & H2 & H3 & H4 & H5).
  set (p1 := [] ++ lenenc (B "def")). set (p2 := p1 ++ lenenc (sc_schema c)). set (p3 := p2 ++ lenenc (sc_table c)).
  set (p4 := p3 ++ lenenc (sc_org_table c)). set (p5 := p4 ++ lenenc (sc_name c)). set (p6 := p5 ++ lenenc (sc_org_name c)).
  set (tail := 12 :: le_bytes 2 (sc_charset c) ++ le_bytes 4 (sc_length c) ++ sc_type c :: le_bytes 2 (sc_flags c) ++ [sc_decimals c; 0; 0]).
  assert (column_packet c = p6 ++ tail) as E by (unfold column_packet, tail, p6, p5, p4, p3, p2, p1; list_eq).
  destruct (column_tail p6 c Hc) as (T1 & T2 & T3 & T4 & T5). fold tail in T1, T2, T3, T4, T5.
  assert (sized (B "def")) as H0 by done.
  unfold column_of. rewrite E.
  rewrite (skip_step _ [] (B "def") (lenenc (sc_schema c) ++ lenenc (sc_table c) ++ lenenc (sc_org_table c) ++ lenenc (sc_name c) ++ lenenc (sc_org_name c) ++ tail));
    [|unfold p6, p5, p4, p3, p2, p1; list_eq|done|done]. fold p1.
  rewrite (skip_step _ p1 (sc_schema c) (lenenc (sc_table c) ++ lenenc (sc_org_table c) ++ lenenc (sc_name c) ++ lenenc (sc_org_name c) ++ tail));
    [|unfold p6, p5, p4, p3, p2; list_eq|done|done]. fold p2.
  rewrite (mbind_inl _ _ mc (if alias then sc_table c else [], len p3) mc).
  2:{ destruct alias.
      - rewrite (string_step _ p2 (sc_table c) (lenenc (sc_org_table c) ++ lenenc (sc_name c) ++ lenenc (sc_org_name c) ++ tail));
          [|unfold p6, p5, p4, p3; list_eq|done|done]. by rewrite (proj2 (Z.ltb_lt _ _)).
      - rewrite (skip_step _ p2 (sc_table c) (lenenc (sc_org_table c) ++ lenenc (sc_name c) ++ lenenc (sc_org_name c) ++ tail));
          [done|unfold p6, p5, p4, p3; list_eq|done|done]. }
  rewrite (skip_step _ p3 (sc_org_table c) (lenenc (sc_name c) ++ lenenc (sc_org_name c) ++ tail));
    [|unfold p6, p5, p4; list_eq|done|done]. fold p4.
  rewrite (string_step _ p4 (sc_name c) (lenenc (sc_org_name c) ++ tail)); [|unfold p6, p5; list_eq|done|done]. fold p5.
  rewrite (proj2 (Z.ltb_lt _ _)) by done. rewrite (mbind_inl _ _ mc tt mc) by done.
  rewrite (skip_step _ p5 (sc_org_name c) tail); [|unfold p6; list_eq|done|done]. fold p6.
  unfold mbind, mgo. rewrite T1, T2, T3, T4, T5. cbn [gbind]. unfold mret, field_of.
  by rewrite !le_uint_small by apply Hc.
Qed.

(** ** The loops *)

Lemma column_packet_head c : ∃ l, column_packet c = 3 :: l.
Proof. eexists. reflexivity. Qed.

Lemma column_packet_ne c : column_packet c ≠ [].
Proof. by destruct (column_packet_head c) as [l ->]. Qed.

Lemma eof_packet_ne wn st : eof_packet wn st ≠ [].
Proof. done. Qed.

Lemma len_eof_packet wn st : len (eof_packet wn st) = 5.
Proof. unfold eof_packet. rewrite len_cons, len_app, !len_le_bytes. done. Qed.

Lemma columns_loop_serves cs : ∀ acc fuel count wn st ps rest mc,
  (length cs < fuel)%nat → Forall column_ok cs → count = len acc + len cs →
  serves mc ((column_packet <$> cs) ++ eof_packet wn st :: ps) rest →
  ∃ w s, columns_loop fuel count acc mc
         = Ret (inl (acc ++ (field_of (ColumnsWithAlias (cfg mc)) <$> cs)), moved_to w s (status mc) mc) ∧
         serves (moved_to w s (status mc) mc) ps rest.
Proof.
  induction cs as [|c cs IH]; intros acc fuel count wn st ps rest mc Hf Hok Hcount Hs;
    (destruct fuel as [|fuel]; [simpl in Hf; lia|]); cbn [columns_loop fmap list_fmap app] in *.
  - destruct (readPacket_serves _ _ _ _ (eof_packet_ne wn st) Hs) as (w & s & Hr & Hs').
    exists w, s. split; [|done]. rewrite (mbind_inl _ _ _ _ _ Hr).
    change (go_index (eof_packet wn st) 0) with (@Ret Z 254). rewrite (mbind_inl _ _ _ _ _ (mgo_ret _ _)).
    rewrite len_eof_packet. cbn [Z.eqb Pos.eqb iEOF andb orb].
    rewrite Hcount, app_nil_r. replace (len acc + len []) with (len acc) by (unfold len; simpl; lia).
    by rewrite Z.eqb_refl.
  - apply Forall_cons in Hok as [Hc Hok].
    destruct (readPacket_serves _ _ _ _ (column_packet_ne c) Hs) as (w & s & Hr & Hs').
    rewrite (mbind_inl _ _ _ _ _ Hr). destruct (column_packet_head c) as [l El].
    rewrite (mbind_inl _ _ _ 3 (moved_to w s (status mc) mc)) by (by rewrite El).
    cbn [Z.eqb Pos.eqb iEOF andb]. rewrite (mbind_inl _ _ _ (cfg mc) (moved_to w s (status mc) mc)) by done.
    rewrite len_cons in Hcount. pose proof (len_nonneg cs).
    rewrite (mbind_inl _ _ _ _ _ (column_of_packet (ColumnsWithAlias (cfg mc)) c (len acc) count _ Hc ltac:(lia))).
    destruct (IH (acc ++ [field_of (ColumnsWithAlias (cfg mc)) c]) fuel count wn st ps rest (moved_to w s (status mc) mc))
      as (w2 & s2 & Hr2 & Hs2); [simpl in Hf; lia|done|rewrite len_app; unfold len in *; simpl; lia|done|].
    exists w2, s2. split; [|done]. rewrite Hr2, <- (assoc_L (++)). done.
Qed.

(** ** Rows *)

Section Rows.
Context {Time : Type} (zeroTime : Time) (time_Parse : bytes → bytes → option Time) (in_loc : Time → Time).

(** The text of a date or a time, with or without a fraction, and the time it stands for: the
    zero date, or what the time library reads in the layout of the same length *)
Inductive time_text : bytes → Time → Prop :=
| zero_text n : n ∈ [10; 19; 21; 22; 23; 24; 25; 26]%nat → time_text (take n (B "0000-00-00 00:00:00.0000000")) zeroTime
| other_text v t : length v ∈ [10; 19; 21; 22; 23; 24; 25; 26]%nat → v ≠ take (length v) (B "0000-00-00 00:00:00.0000000") →
    time_Parse (take (length v) (B "2006-01-02 15:04:05.999999")) v = Some t → time_text v (in_loc t).

(** What the driver is to return for a value of a column: NULL, the text as sent, or, when the
    application asks for it, the time of a date, datetime or timestamp column *)
Definition as_time (parseTime : bool) (f : mysqlField) : bool :=
  parseTime && mem (f_type f) [fieldTypeTimestamp; fieldTypeDateTime; fieldTypeDate; fieldTypeNewDate].
Inductive cell_sent (parseTime : bool) (f : mysqlField) : option bytes → cell (Time := Time) → Prop :=
| sent_null : cell_sent parseTime f None CNull
| sent_text b : as_time parseTime f = false → sized b → cell_sent parseTime f (Some b) (CBytes b)
| sent_time b t : as_time parseTime f = true → sized b → time_text b t → cell_sent parseTime f (Some b) (CTime t).
Definition row_sent (parseTime : bool) : list mysqlField → list (option bytes) → list (cell (Time := Time)) → Prop :=
  Forall3 (cell_sent parseTime).

Lemma parseDateTime_text v t : time_text v t → parseDateTime zeroTime time_Parse in_loc v = Some t.
Proof.
  unfold parseDateTime. intros [n Hn|v' t' Hn Hz Ht].
  - assert (length (take n (B "0000-00-00 00:00:00.0000000")) = n ∧ mem (Z.of_nat n) [10; 19; 21; 22; 23; 24; 25; 26] = true) as [Hl Hm].
    { set_unfold in Hn. by destruct_or! Hn; subst n. }
    unfold len. rewrite Hl, Hm. by rewrite beq_refl.
  - assert (mem (len v') [10; 19; 21; 22; 23; 24; 25; 26] = true) as ->.
    { unfold len. set_unfold in Hn. by destruct_or! Hn; rewrite Hn. }
    apply beq_neq in Hz. rewrite Hz. unfold timeFormat. by rewrite Ht.
Qed.

Definition value_bytes (v : option bytes) : bytes := match v with None => [251] | Some b => lenenc b end.
Lemma string_at_null pre post mc :
  string_at (pre ++ 251 :: post) (len pre) mc = Ret (inl ([], true, len pre + 1), mc).
Proof.
  unfold string_at, mbind, mgo. rewrite go_slice_tail. cbn [gbind].
  assert (readLengthEncodedString (251 :: post) = Ret (Some [], true, 1, false)) as ->; [|done].
  unfold readLengthEncodedString. cbn [readLengthEncodedInteger Z.eqb Pos.eqb gbind Z.ltb Z.compare].
  assert (go_slice (251 :: post) 1 1 = Ret []) as ->; [|done].
  change (251 :: post) with ([251] ++ [] ++ post). apply (go_slice_mid [251] [] post).
Qed.

Lemma cell_of_sent parseTime f v c pre post mc :
  cell_sent parseTime f v c →
  cell_of zeroTime time_Parse in_loc parseTime f (pre ++ value_bytes v ++ post) (len pre) mc = Ret (inl (c, len (pre ++ value_bytes v)), mc).
Proof.
  intros Hc. unfold cell_of. destruct Hc as [|b Hf Hb|b t Hf Hb Ht]; cbn [value_bytes].
  - change ([251] ++ post) with (251 :: post). rewrite (mbind_inl _ _ _ _ _ (string_at_null pre post mc)). by rewrite len_app.
  - rewrite (mbind_inl _ _ mc (b, false, len (pre ++ lenenc b)) mc) by (by rewrite string_at_lenenc). unfold as_time in Hf. by rewrite Hf.
  - rewrite (mbind_inl _ _ mc (b, false, len (pre ++ lenenc b)) mc) by (by rewrite string_at_lenenc). unfold as_time in Hf.
    by rewrite Hf, (parseDateTime_text b t).
Qed.
Lemma row_of_values parseTime fs row cells : row_sent parseTime fs row cells → ∀ pre mc,
  row_of zeroTime time_Parse in_loc parseTime fs (pre ++ row_packet row) (len pre) mc = Ret (inl cells, mc).
Proof.
  induction 1 as [|f v c fs row cells Hc _ IH]; intros pre mc; [done|]. cbn [row_of].
  unfold row_packet. rewrite bind_cons. fold (row_packet row). fold (value_bytes v).
  rewrite (mbind_inl _ _ _ _ _ (cell_of_sent parseTime f v c pre (row_packet row) mc Hc)).
  by rewrite (assoc_L (++)), (mbind_inl _ _ mc cells mc) by (by apply IH).
Qed.

(** A row is neither an EOF nor an ERR packet. *)
Lemma row_packet_head row :
  row ≠ [] → ∃ b l, row_packet row = b :: l ∧ b ≠ 255 ∧ (b = 254 → 5 < len (b :: l)).
Proof.
  destruct row as [|[s|] row]; [done| |by exists 251, (row_packet row)]. intros _.
  unfold row_packet. rewrite bind_cons. fold (row_packet row). pose proof (len_nonneg s).
  unfold lenenc, appendLengthEncodedInteger. pose proof (len_nonneg (row_packet row)).
  destruct (Z.leb_spec (len s) 250); [|destruct (Z.leb_spec (len s) 65535); [|destruct (Z.leb_spec (len s) 16777215)]];
    cbn [app]; do 2 eexists; (split; [reflexivity|]); try (split; [done|]).
  - unfold uwrap. rewrite Z.mod_small by (simpl; lia). lia.
  - done.
  - done.
  - intros _. rewrite len_cons, !len_app, len_le_bytes. lia.
Qed.

Lemma eof_status wn st :
  uint_ok 16 st → go_slice (eof_packet wn st) 3 (len (eof_packet wn st)) = Ret (le_bytes 2 st) ∧ readStatus (le_bytes 2 st) = Ret st.
Proof.
  intros Hst. split.
  - change (eof_packet wn st) with ((254 :: le_bytes 2 wn) ++ le_bytes 2 st).
    replace 3 with (len (254 :: le_bytes 2 wn)) by (rewrite len_cons, len_le_bytes; done). apply go_slice_tail.
  - pose proof (le_uint_small 2 st Hst) as E. unfold readStatus. cbn [le_bytes le_uint] in *.
    change (go_index _ 0) with (Ret (uwrap 8 st)). change (go_index _ 1) with (Ret (uwrap 8 (Z.shiftr st 8))). cbn [gbind].
    rewrite Z.shiftl_0_l, Z.lor_0_r in E. by rewrite E.
Qed.

Definition more_results (st : Z) : bool := negb (Z.land st statusMoreResultsExists =? 0).

(** [Next] on a row and on the end of the rows *)
Lemma Next_row parseTime fs row cells ps rest mc :
  closed mc = false → row ≠ [] → row_sent parseTime fs row cells → serves mc (row_packet row :: ps) rest →
  ∃ w s, Next zeroTime time_Parse in_loc parseTime (mk_rows true fs false) mc
         = Ret (inl (inl cells, mk_rows true fs false), moved_to w s (status mc) mc) ∧
         serves (moved_to w s (status mc) mc) ps rest.
Proof.
  intros Hcl Hne Hok Hs. destruct (row_packet_head row Hne) as (b & l & Hb & H255 & H254).
  destruct (readPacket_serves (row_packet row) ps rest mc ltac:(by rewrite Hb) Hs) as (w & s & Hr & Hs').
  exists w, s. split; [|done]. unfold Next. cbn [r_mc].
  rewrite (mbind_inl _ _ mc None mc) by (unfold mget, conn_error; by rewrite Hcl).
  unfold readRow. cbn [r_done r_columns]. set (mc' := moved_to w s (status mc) mc) in *.
  rewrite (mbind_inl _ _ mc (inl (row_packet row)) mc') by (unfold mtry; by rewrite Hr).
  rewrite (mbind_inl _ _ mc' b mc') by (by rewrite Hb).
  replace ((b =? iEOF) && (len (row_packet row) =? 5)) with false.
  2:{ symmetry. apply andb_false_iff. destruct (Z.eqb_spec b iEOF); [right|by left]. apply Z.eqb_neq.
      rewrite Hb. specialize (H254 ltac:(done)). lia. }
  rewrite (proj2 (Z.eqb_neq b iERR)) by done.
  rewrite (mbind_inl _ _ mc' (inl cells) mc'); [done|].
  unfold mtry. rewrite (row_of_values parseTime fs row cells Hok [] mc' : row_of _ _ _ _ _ (row_packet row) 0 mc' = _). done.
Qed.

Lemma Next_end parseTime fs wn st ps rest mc :
  closed mc = false → uint_ok 16 st → serves mc (eof_packet wn st :: ps) rest →
  ∃ w s, Next zeroTime time_Parse in_loc parseTime (mk_rows true fs false) mc
         = Ret (inl (inr ErrEOF, mk_rows (more_results st) fs true), moved_to w s st mc) ∧
         serves (moved_to w s st mc) ps rest.
Proof.
  intros Hcl Hst Hs. destruct (eof_status wn st Hst) as [E1 E2].
  destruct (readPacket_serves _ _ _ _ (eof_packet_ne wn st) Hs) as (w & s & Hr & Hs').
  exists w, s. split; [|by eapply serves_moved]. unfold Next. cbn [r_mc].
  rewrite (mbind_inl _ _ mc None mc) by (unfold mget, conn_error; by rewrite Hcl).
  unfold readRow. cbn [r_done r_columns r_mc]. set (mc' := moved_to w s (status mc) mc) in *.
  rewrite (mbind_inl _ _ mc (inl (eof_packet wn st)) mc') by (unfold mtry; by rewrite Hr).
  change (go_index (eof_packet wn st) 0) with (@Ret Z 254). rewrite (mbind_inl _ _ _ _ _ (mgo_ret _ _)).
  rewrite len_eof_packet. cbn [Z.eqb Pos.eqb iEOF andb]. rewrite len_eof_packet in E1. rewrite E1.
  rewrite (mbind_inl _ _ _ _ _ (mgo_ret _ _)), E2, (mbind_inl _ _ _ _ _ (mgo_ret _ _)).
  rewrite (mbind_inl _ _ mc' tt (set_status st mc')) by done. done.
Qed.

Lemma fetch_serves parseTime fs (rows : list (list (option bytes))) : ∀ cells fuel wn st ps rest mc,
  (length rows < fuel)%nat → fs ≠ [] → closed mc = false → uint_ok 16 st → Forall2 (row_sent parseTime fs) rows cells →
  serves mc ((row_packet <$> rows) ++ eof_packet wn st :: ps) rest →
  ∃ w s, fetch zeroTime time_Parse in_loc fuel parseTime (mk_rows true fs false) mc
         = Ret (inl (cells, ErrEOF, mk_rows (more_results st) fs true), moved_to w s st mc) ∧
         serves (moved_to w s st mc) ps rest.
Proof.
  induction rows as [|row rows IH]; intros cells fuel wn st ps rest mc Hf Hfs Hcl Hst Hok Hs;
    [apply Forall2_nil_inv_l in Hok as ->|apply Forall2_cons_inv_l in Hok as (c & cs' & Hrow & Hok & ->)]; (destruct fuel as [|fuel]; [simpl in Hf; lia|]); cbn [fetch fmap list_fmap app] in *.
  - destruct (Next_end parseTime fs wn st ps rest mc Hcl Hst Hs) as (w & s & Hr & Hs').
    exists w, s. split; [|done]. by rewrite (mbind_inl _ _ _ _ _ Hr).
  - assert (row ≠ []) as Hne by (intros ->; by inversion Hrow; subst).
    destruct (Next_row parseTime fs row c _ rest mc Hcl Hne Hrow Hs) as (w & s & Hr & Hs').
    rewrite (mbind_inl _ _ _ _ _ Hr).
    destruct (IH cs' fuel wn st ps rest (moved_to w s (status mc) mc)) as (w2 & s2 & Hr2 & Hs2); try done; [simpl in Hf; lia|].
    exists w2, s2. split; [|done]. by rewrite (mbind_inl _ _ _ _ _ Hr2).
Qed.

(** ** Sending the query *)

Lemma takeBuffer_spec n w :
  valid w → b_length (bb w) = 0 → 0 ≤ n →
  ∃ i w', takeBuffer n w = (Some (i, n), w') ∧ valid w' ∧ stream w' = stream w ∧ net w' = net w ∧ n ≤ len (arr w' i).
Proof.
  intros Hv Hl Hn. unfold takeBuffer. rewrite Hl. cbn [Z.ltb Z.compare].
  assert (∀ w' : bworld, b_length (bb w') = 0 → pending w' = []) as Hp.
  { intros w' H0. unfold pending, sub. rewrite H0, Z.add_0_r, Z.sub_diag. done. }
  destruct (Z.leb_spec n (len (arr w (b_buf (bb w))))) as [Hle|Hgt]; [by do 2 eexists|].
  assert (n ≤ len (arr (alloc n w).2 (length (arrays w)))) as Hroom.
  { rewrite arr_alloc_new. unfold len. rewrite length_replicate. lia. }
  pose proof (valid_alloc n w Hv) as Hva. destruct (alloc n w) as [i w1] eqn:Ea.
  assert (i = length (arrays w) ∧ w1 = (alloc n w).2) as [-> ->] by (by rewrite Ea; injection Ea as <- <-).
  destruct (n <? maxPacketSize).
  - do 2 eexists. split; [reflexivity|]. split_and!; [|by unfold stream; rewrite !Hp|done|done].
    pose proof (valid_idx _ Hv). pose proof (valid_room _ Hv).
    destruct Hva as [V1 V2 V3 V4 V5 V6 V7]. split; simpl; try done.
    + rewrite length_app. simpl. lia.
    + etrans; [|exact Hroom]. lia.
  - do 2 eexists. split; [reflexivity|]. split_and!; [done|by unfold stream; rewrite !Hp|done|done].
Qed.

Lemma writeCommandPacketStr_spec command q mc data :
  writable mc → reset mc = false → b_length (bb (world mc)) = 0 → readable mc data →
  1 + len q ≤ maxAllowedPacket mc →
  ∃ w, writeCommandPacketStr command q mc
       = Ret (inl tt, wrote (frames 0 (command :: q)) (seq_after 0 (command :: q)) (set_world w (set_sequence 0 mc))) ∧
       readable (set_world w mc) data.
Proof.
  intros Hw Hr Hl [Hs Hv Hn] Hm. pose proof (len_nonneg q). unfold writeCommandPacketStr.
  destruct (takeBuffer_spec (1 + len q + 4) (world mc) Hv Hl ltac:(lia)) as (i & w & Ht & Hv' & Hs' & Hn' & Hroom).
  change (world (set_sequence 0 mc)) with (world mc). rewrite Ht.
  exists w. split; [|split; simpl; congruence].
  unfold slice_bytes. cbn [fst snd]. change (arr (world (set_world w (set_sequence 0 mc))) i) with (arr w i).
  set (d := take (Z.to_nat (1 + len q + 4)) (arr w i)).
  assert (len d = 1 + len q + 4) as Hd by (unfold d, len in *; rewrite length_take; lia).
  assert (∃ h x t, d = h ++ x :: t ∧ len h = 4 ∧ len t = len q) as (h & x & t & -> & Hh & Ht').
  { destruct d as [|a [|b [|c [|e [|x t]]]]]; try (unfold len in Hd; simpl in Hd; lia).
    exists [a; b; c; e], x, t. split_and!; [done|done|]. rewrite !len_cons in Hd. lia. }
  rewrite <- Hh, go_set_mid. cbn [gbind].
  assert (go_copy (h ++ command :: t) 5 (len (h ++ command :: t)) q = Ret (h ++ command :: q)) as ->.
  { replace (h ++ command :: t) with ((h ++ [command]) ++ t) by list_eq.
    replace 5 with (len (h ++ [command])) by (rewrite len_app, Hh; done).
    rewrite go_copy_mid by lia. rewrite drop_ge by (unfold len in Ht'; lia). rewrite app_nil_r. f_equal. list_eq. }
  cbn [gbind]. rewrite writePacket_frames; try done. rewrite len_cons. simpl. lia.
Qed.

(** ** The query and its result *)

Context (reader : bytes → option (list bytes)) (registered : bytes → bool) (file : bytes → option bytes) (spare : bytes → bytes).

(** A positive count is neither OK, nor ERR, nor a request for a file. *)
Lemma count_head n : 0 < n → ∃ d l, appendLengthEncodedInteger [] n = d :: l ∧ d ≠ 0 ∧ d ≠ 255 ∧ d ≠ 251.
Proof.
  intros Hn. unfold appendLengthEncodedInteger.
  destruct (Z.leb_spec n 250); [|by repeat case_match; do 2 eexists].
  exists (uwrap 8 n), []. unfold uwrap. rewrite Z.mod_small by (simpl; lia). split; [done|]. lia.
Qed.

Lemma header_serves n ps rest mc :
  0 < n < 2 ^ 63 → serves mc (appendLengthEncodedInteger [] n :: ps) rest →
  ∃ w s, readResultSetHeaderPacket reader registered file mc = Ret (inl n, moved_to w s (status mc) mc) ∧
         serves (moved_to w s (status mc) mc) ps rest.
Proof.
  intros Hn Hs. destruct (count_head n ltac:(lia)) as (d & l & Hd & H0 & H255 & H251).
  destruct (readPacket_serves (appendLengthEncodedInteger [] n) ps rest mc ltac:(by rewrite Hd) Hs) as (w & s & Hr & Hs').
  exists w, s. split; [|done]. unfold readResultSetHeaderPacket. rewrite (mbind_inl _ _ _ _ _ Hr).
  set (mc' := moved_to w s (status mc) mc). rewrite (mbind_inl _ _ mc' d mc') by (by rewrite Hd).
  unfold iOK, iERR, iLocalInFile.
  rewrite (proj2 (Z.eqb_neq d 0)), (proj2 (Z.eqb_neq d 255)), (proj2 (Z.eqb_neq d 251)) by done.
  pose proof (read_append n [] ltac:(unfold uint_ok; simpl in *; lia)) as Hra. rewrite app_nil_r in Hra.
  rewrite Hra, (mbind_inl _ _ _ _ _ (mgo_ret _ _)), Z.sub_diag. cbn [Z.eqb].
  rewrite swrap_id by (unfold int_ok; simpl in *; lia). done.
Qed.

Lemma wrote_readable bs s w mc data :
  readable (set_world w mc) data → readable (wrote bs s (set_world w (set_sequence 0 mc))) data.
Proof. intros [H1 H2 H3]. by split. Qed.

(** C14: A query without arguments, on a connection in good order, writes the command packet,
    and for any result set the server sends in the text protocol, with any warnings and
    statuses at its two ends, the driver returns its columns and, row by row, every value as
    sent and NULL as NULL; with parseTime the dates, datetimes and timestamps are returned as
    the times of their texts (all of which the time library must accept). Then comes the end
    of the rows; the connection is left at the first byte behind the result, with the status
    of its end. *)
Theorem query_text_result parseTime (cs : list server_column) (rows : list (list (option bytes))) cells e1 e2 q rest mc :
  let fs := field_of (ColumnsWithAlias (cfg mc)) <$> cs in
  cs ≠ [] → 48 * len cs ≤ maxAlloc → Forall column_ok cs → Forall2 (row_sent parseTime fs) rows cells → uint_ok 16 e2.2 →
  writable mc → reset mc = false → b_length (bb (world mc)) = 0 → 1 + len q ≤ maxAllowedPacket mc →
  readable mc (wire (seq_after 0 (comQuery :: q)) (resultset cs rows e1 e2) ++ rest) →
  ∃ mc1 mc2,
    conn_query reader registered file spare q [] mc = Ret (inl (mk_rows true fs false), mc1) ∧
    out mc1 = out mc ++ frames 0 (comQuery :: q) ∧
    fetch zeroTime time_Parse in_loc (S (length rows)) parseTime (mk_rows true fs false) mc1
      = Ret (inl (cells, ErrEOF, mk_rows (more_results e2.2) fs true), mc2) ∧
    readable mc2 rest ∧ status mc2 = e2.2.
Proof.
  intros fs Hne Hcount Hcs Hrows Hst Hw Hreset Hl Hmax Hread. destruct e1 as [w1' st1], e2 as [w2' st]. cbn [fst snd] in *.
  destruct (writeCommandPacketStr_spec comQuery q mc _ Hw Hreset Hl Hread Hmax) as (w & Hsend & Hr1).
  set (mc0 := wrote (frames 0 (comQuery :: q)) (seq_after 0 (comQuery :: q)) (set_world w (set_sequence 0 mc))) in *.
  assert (serves mc0 (resultset cs rows (w1', st1) (w2', st)) rest) as Hs0 by (by apply wrote_readable). unfold resultset in Hs0. cbn [fst snd] in Hs0.
  assert (0 < len cs) as Hpos by (destruct cs; [done|rewrite len_cons; pose proof (len_nonneg cs); lia]).
  destruct (header_serves (len cs) _ rest mc0 ltac:(unfold maxAlloc in Hcount; lia) Hs0) as (w1 & s1 & Hh & Hs1).
  set (mc1 := moved_to w1 s1 (status mc0) mc0) in *.
  destruct (columns_loop_serves cs [] (read_fuel (world mc1)) (len cs) w1' st1 ((row_packet <$> rows) ++ [eof_packet w2' st]) rest mc1)
    as (w2 & s2 & Hc & Hs2); try done.
  { pose proof (read_fuel_stream _ (readable_valid _ _ Hs1)) as Hf. rewrite (readable_stream _ _ Hs1) in Hf.
    destruct (wire_app (sequence mc1) (column_packet <$> cs) (eof_packet w1' st1 :: (row_packet <$> rows) ++ [eof_packet w2' st])) as [seq' E].
    rewrite E, !length_app in Hf. pose proof (length_wire (column_packet <$> cs) (sequence mc1)) as Hlw.
    rewrite length_fmap in Hlw. lia. }
  set (mc2 := moved_to w2 s2 (status mc1) mc1) in *.
  destruct (fetch_serves parseTime fs rows cells (S (length rows)) w2' st [] rest mc2) as (w3 & s3 & Hf & Hs3); try done.
  { lia. } { unfold fs. by destruct cs. } { apply Hw. }
  exists mc2, (moved_to w3 s3 st mc2). split_and!; [|done|exact Hf|exact Hs3|done].
  unfold conn_query, prepared_query.
  rewrite (mbind_inl _ _ mc q mc).
  2:{ rewrite (mbind_inl _ _ mc false mc) by (unfold mget; by rewrite (proj1 Hw)). done. }
  rewrite (mbind_inl _ _ mc (len cs) mc1).
  2:{ unfold mmark. rewrite (mbind_inl _ _ mc (inl (len cs)) mc1); [done|]. unfold mtry.
      rewrite (mbind_inl _ _ _ _ _ Hsend). by rewrite Hh. }
  rewrite (proj2 (Z.eqb_neq (len cs) 0)) by lia. rewrite (mbind_inl _ _ mc1 fs mc2); [done|].
  unfold readColumns. rewrite go_make_ok by lia. rewrite (mbind_inl _ _ _ _ _ (mgo_ret _ _)). exact Hc.
Qed.
End Rows.

(** Two rows of a number and a date, the first number NULL, the second date zero, arriving in
    three pieces; the times of the example are their texts. *)
Definition sample_column : server_column := mk_column (B "db") (B "t") (B "t") (B "id") (B "id") 33 11 3 0 0.
Definition date_column : server_column := mk_column (B "db") (B "t") (B "t") (B "d") (B "d") 33 11 10 0 0.
Definition sample_rows : list (list (option bytes)) := [[None; Some (B "2020-01-02")]; [Some (B "7"); Some (B "0000-00-00")]].
Definition sample_cells : list (list (cell (Time := bytes))) := [[CNull; CTime (B "2020-01-02")]; [CBytes (B "7"); CTime (B "never")]].
Definition sample_reply : bytes := wire 1 (resultset [sample_column; date_column] sample_rows (1, 34) (3, 2)).
Definition sample_conn : mysqlConn :=
  fresh_conn [(take 3 sample_reply, None); (take 40 (drop 3 sample_reply), None); (drop 43 sample_reply, None)].
Definition text_Parse (_ v : bytes) : option bytes := Some v.

Lemma sample_conn_readable :
  readable sample_conn (wire (seq_after 0 (comQuery :: B "SELECT id")) (resultset [sample_column; date_column] sample_rows (1, 34) (3, 2)) ++ []).
Proof. split; [vm_compute; reflexivity|apply valid_newBuffer|reflexivity]. Qed.

Definition sample_fields : list mysqlField := field_of (ColumnsWithAlias (cfg sample_conn)) <$> [sample_column; date_column].
Lemma sample_rows_sent : Forall2 (row_sent (B "never") text_Parse id true sample_fields) sample_rows sample_cells.
Proof.
  unfold sample_rows, sample_cells, sample_fields. apply Forall2_cons. split; [|apply Forall2_cons; split; [|constructor]].
  - apply Forall3_cons; [apply sent_null|]. apply Forall3_cons; [|constructor]. apply sent_time; [vm_compute; reflexivity..|].
    apply (other_text (B "never") text_Parse id (B "2020-01-02") (B "2020-01-02")); [set_solver|discriminate|reflexivity].
  - apply Forall3_cons; [apply sent_text; vm_compute; reflexivity|]. apply Forall3_cons; [|constructor]. apply sent_time; [vm_compute; reflexivity..|].
    apply (zero_text (B "never") text_Parse id 10). set_solver.
Qed.

Lemma query_text_result_witness :
  ∃ mc1 mc2,
    conn_query (fun _ => None) (fun _ => false) (fun _ => None) (fun _ => []) (B "SELECT id") [] sample_conn
      = Ret (inl (mk_rows true sample_fields false), mc1) ∧
    out mc1 = out sample_conn ++ frames 0 (comQuery :: B "SELECT id") ∧
    fetch (B "never") text_Parse id (S (length sample_rows)) true (mk_rows true sample_fields false) mc1
      = Ret (inl (sample_cells, ErrEOF, mk_rows (more_results 2) sample_fields true), mc2) ∧
    readable mc2 [] ∧ status mc2 = 2.
Proof.
  apply (query_text_result (B "never") text_Parse id (fun _ => None) (fun _ => false) (fun _ => None) (fun _ => [])
           true [sample_column; date_column] sample_rows sample_cells (1, 34) (3, 2) (B "SELECT id") [] sample_conn).
  - discriminate.
  - vm_compute. discriminate.
  - repeat constructor; vm_compute; congruence.
  - apply sample_rows_sent.
  - split; reflexivity || discriminate.
  - split; reflexivity.
  - reflexivity.
  - reflexivity.
  - vm_compute. discriminate.
  - apply sample_conn_readable.
Defined.
