(* ===== verification/MysqlStmtProps.v ===== *)
(** * Prepared statements of the MySQL driver

    A server that answers in the documented binary protocol: the arguments arrive as they were
    given, and [Next] returns the rows as they were sent. *)

From S2P Require Import Prelude GoStrings MysqlUtils MysqlUtilsProps MysqlBuffer MysqlBufferProps MysqlConn MysqlPacketProps Mysql MysqlQuery MysqlQueryProps MysqlStmt.
Open Scope mc_scope.

(** ** Values of a row *)

(** What the server has for a value that is not NULL: a number, the bits of a float, a text, the
    zero date or time, a date (sent in 4, 7 or 11 bytes), or a time (in 8 or 12 bytes) *)
Inductive svalue := SInt (n : Z) | SFloat (bits : Z) | SDouble (bits : Z) | SText (b : bytes) | SZero
| SDate (k : nat) (y mo d h mi s us : Z) | STime (k : nat) (negative : bool) (days h mi s us : Z).
Definition int_width (t : Z) : option nat :=
  if t =? fieldTypeTiny then Some 1%nat else if mem t [fieldTypeShort; fieldTypeYear] then Some 2%nat
  else if mem t [fieldTypeInt24; fieldTypeLong] then Some 4%nat else if t =? fieldTypeLongLong then Some 8%nat else None.
Definition unsigned (f : mysqlField) : bool := negb (Z.land (f_flags f) flagUnsigned =? 0).
Definition date_types : list Z := [fieldTypeDate; fieldTypeNewDate; fieldTypeTime; fieldTypeTimestamp; fieldTypeDateTime].
(** Values on the wire (Binary Protocol Value) *)
Definition svalue_bytes (f : mysqlField) (v : svalue) : bytes :=
  match v with
  | SInt n => le_bytes (default O (int_width (f_type f))) n
  | SFloat bits => le_bytes 4 bits
  | SDouble bits => le_bytes 8 bits
  | SText b => lenenc b
  | SZero => [0]
  | SDate k y mo d h mi s us => let src := datetime_packet k y mo d h mi s us in len src :: src
  | STime k negative days h mi s us => let src := duration_packet k negative days h mi s us in len src :: src
  end.
(** The text of a date or of a date and time, with the decimals of the column *)
Definition date_cell_text (f : mysqlField) (y mo d h mi s us : Z) : bytes :=
  if f_type f =? fieldTypeDate then date_text y mo d else date_text y mo d ++ B " " ++ clock_text h mi s ++ cut_fraction (f_decimals f) us.
(** What the caller gets *)
Definition svalue_cell (parseTime : bool) (f : mysqlField) (v : svalue) : bcell :=
  match v with
  | SInt n => if (f_type f =? fieldTypeLongLong) && unsigned f && (2 ^ 63 - 1 <? n) then BBytes (Itoa n) else BInt64 n
  | SFloat bits => BFloat32 bits
  | SDouble bits => BFloat64 bits
  | SText b => BBytes b
  | SZero => if f_type f =? fieldTypeTime then BBytes (B "00:00:00" ++ cut_fraction (f_decimals f) 0)
             else if parseTime then BTime None else BBytes (date_cell_text f 0 0 0 0 0 0 0)
  | SDate _ y mo d h mi s us =>
      if parseTime then BTime (Some (mk_date y mo d h mi s (us * 1000))) else BBytes (date_cell_text f y mo d h mi s us)
  | STime _ negative days h mi s us => BBytes (duration_text negative days h mi s ++ cut_fraction (f_decimals f) us)
  end.
Definition decimals_ok (f : mysqlField) : Prop := mem (f_decimals f) [0; 1; 2; 3; 4; 5; 6; 31] = true.
(** The value is one of the type of the column. *)
Definition svalue_ok (parseTime : bool) (f : mysqlField) (v : svalue) : Prop :=
  match v with
  | SInt n => ∃ w, int_width (f_type f) = Some w ∧ (if unsigned f then uint_ok (8 * Z.of_nat w) n else int_ok (8 * Z.of_nat w) n)
  | SFloat bits => f_type f = fieldTypeFloat ∧ uint_ok 32 bits
  | SDouble bits => f_type f = fieldTypeDouble ∧ uint_ok 64 bits
  | SText b => mem (f_type f) string_types = true ∧ sized b
  | SZero => mem (f_type f) date_types = true ∧ decimals_ok f
  | SDate k y mo d h mi s us =>
      mem (f_type f) date_types = true ∧ f_type f ≠ fieldTypeTime ∧ decimals_ok f ∧
      0 ≤ y < 10000 ∧ 0 ≤ mo < 100 ∧ 0 ≤ d < 100 ∧ 0 ≤ h < 100 ∧ 0 ≤ mi < 100 ∧ 0 ≤ s < 100 ∧ 0 ≤ us < 1000000 ∧
      ((k = 4%nat ∧ h = 0 ∧ mi = 0 ∧ s = 0 ∧ us = 0) ∨ (k = 7%nat ∧ us = 0) ∨ k = 11%nat)
  | STime k negative days h mi s us =>
      f_type f = fieldTypeTime ∧ decimals_ok f ∧ 0 ≤ days < 2 ^ 32 ∧ 0 ≤ h < 256 ∧ 0 ≤ mi < 100 ∧ 0 ≤ s < 100 ∧ 0 ≤ us < 1000000 ∧
      ((k = 8%nat ∧ us = 0) ∨ k = 12%nat)
  end.

(** *** Reading the bytes of a date *)

Definition inl_of {A C} (g : Go (A + C)) : option A := match g with Ret (inl a) => Some a | _ => None end.
Definition date_read (parseTime : bool) (f : mysqlField) (src : bytes) : option bcell :=
  if f_type f =? fieldTypeTime then l ← text_length 8 (f_decimals f); BBytes <$> inl_of (formatBinaryTime src l)
  else if parseTime then BTime <$> inl_of (parseBinaryDateTime (len src) src)
  else l ← (if f_type f =? fieldTypeDate then Some 10 else text_length 19 (f_decimals f)); BBytes <$> inl_of (formatBinaryDateTime src l).

Lemma decimals_cases f : decimals_ok f →
  (mem (f_decimals f) [0; 31] = true ∧ cut_fraction (f_decimals f) = fun _ => []) ∨
  (1 ≤ f_decimals f ≤ 6 ∧ mem (f_decimals f) [0; 31] = false ∧ mem (f_decimals f) [1; 2; 3; 4; 5; 6] = true ∧ mem (f_decimals f) [0; 1; 2; 3; 4; 5; 6] = true ∧
   cut_fraction (f_decimals f) = fun us => take (Z.to_nat (f_decimals f + 1)) (fraction us)).
Proof.
  unfold decimals_ok. generalize (f_decimals f). intros d Hd. assert (d = 0 ∨ d = 31 ∨ 1 ≤ d ≤ 6) as Hc by (unfold mem in Hd; simpl in Hd; lia).
  assert (d = 0 ∨ d = 31 ∨ d = 1 ∨ d = 2 ∨ d = 3 ∨ d = 4 ∨ d = 5 ∨ d = 6) as Hc' by lia. clear Hc.
  repeat destruct Hc' as [->|Hc']; [by left..|right|right|right|right|right|subst d; right]; by split_and!.
Qed.
Lemma date_read_date parseTime f k y mo d h mi s us :
  svalue_ok parseTime f (SDate k y mo d h mi s us) →
  date_read parseTime f (datetime_packet k y mo d h mi s us) = Some (svalue_cell parseTime f (SDate k y mo d h mi s us)).
Proof.
  intros (Ht & Hn & Hdec & Hy & Hmo & Hd & Hh & Hmi & Hs & Hus & Hk). unfold date_read. rewrite (proj2 (Z.eqb_neq _ _) Hn). cbn [svalue_cell].
  destruct parseTime.
  - pose proof (le_uint_small 2 y ltac:(simpl; lia)) as Ey. pose proof (le_uint_small 4 us ltac:(simpl; lia)) as Eu. unfold datetime_packet.
    destruct (le_bytes 2 y) as [|y0 [|y1 [|]]] eqn:E2; try discriminate. destruct (le_bytes 4 us) as [|u0 [|u1 [|u2 [|u3 [|]]]]] eqn:E4; try discriminate.
    destruct Hk as [(-> & -> & -> & -> & ->)|[[-> ->]| ->]]; cbn [app take]; unfold parseBinaryDateTime.
    + change (len [y0; y1; mo; d]) with 4. cbn [Z.eqb mem existsb Pos.eqb orb]. change (go_slice [y0; y1; mo; d] 0 2) with (Ret [y0; y1]).
      change (go_index [y0; y1; mo; d] 2) with (Ret mo). change (go_index [y0; y1; mo; d] 3) with (Ret d). cbn [gbind inl_of fmap option_fmap option_map]. by rewrite Ey.
    + set (src := [y0; y1; mo; d; h; mi; s]). change (len src) with 7. cbn [Z.eqb mem existsb Pos.eqb orb]. change (go_slice src 0 2) with (Ret [y0; y1]).
      change (go_index src 2) with (Ret mo). change (go_index src 3) with (Ret d). change (go_index src 4) with (Ret h). change (go_index src 5) with (Ret mi).
      change (go_index src 6) with (Ret s). cbn [gbind inl_of fmap option_fmap option_map]. by rewrite Ey.
    + set (src := [y0; y1; mo; d; h; mi; s; u0; u1; u2; u3]). change (len src) with 11. cbn [Z.eqb mem existsb Pos.eqb orb]. change (go_slice src 0 2) with (Ret [y0; y1]).
      change (go_index src 2) with (Ret mo). change (go_index src 3) with (Ret d). change (go_index src 4) with (Ret h). change (go_index src 5) with (Ret mi).
      change (go_index src 6) with (Ret s). change (go_slice src 7 11) with (Ret [u0; u1; u2; u3]). cbn [gbind inl_of fmap option_fmap option_map]. by rewrite Ey, Eu.
  - unfold date_cell_text. assert (∀ l, mem l date_lengths = true → inl_of (formatBinaryDateTime (datetime_packet k y mo d h mi s us) l)
      = Some (take (Z.to_nat l) (datetime_text y mo d h mi s us))) as E by (intros l Hl; by rewrite (formatBinaryDateTime_text k y mo d h mi s us l)).
    destruct (f_type f =? fieldTypeDate); [cbn; by rewrite (E 10)|]. unfold text_length.
    destruct (decimals_cases f Hdec) as [[Hm Hc]|(Hr & Hm0 & Hm & _ & Hc)]; rewrite Hc; clear Hc.
    + rewrite Hm. cbn. rewrite (E 19) by done. cbn. by rewrite app_nil_r.
    + rewrite Hm0, Hm. cbn [base.mbind option_bind]. rewrite E by (unfold mem, date_lengths; simpl; lia). cbn [fmap option_fmap option_map]. do 2 f_equal.
      unfold datetime_text. rewrite !(assoc_L (++)). rewrite <- take_app_add. f_equal. change (Datatypes.length _) with 19%nat. lia.
Qed.
Lemma date_read_time parseTime f k negative days h mi s us :
  svalue_ok parseTime f (STime k negative days h mi s us) →
  date_read parseTime f (duration_packet k negative days h mi s us) = Some (svalue_cell parseTime f (STime k negative days h mi s us)).
Proof.
  intros (Ht & Hdec & Hd & Hh & Hmi & Hs & Hus & Hk). unfold date_read, text_length. rewrite Ht, Z.eqb_refl. cbn [svalue_cell].
  pose proof (fun dec => formatBinaryTime_text k negative days h mi s us dec Hd (proj1 Hh) Hmi Hs Hus Hk) as E.
  destruct (decimals_cases f Hdec) as [[Hm Hc]|(Hr & Hm0 & Hm & Hm1 & Hc)].
  - rewrite Hm, Hc. cbn [base.mbind option_bind]. pose proof (E 0 eq_refl) as E0. cbn [Z.eqb] in E0. rewrite E0. done.
  - rewrite Hm0, Hm. cbn [base.mbind option_bind]. pose proof (E _ Hm1) as E0. rewrite (proj2 (Z.eqb_neq (f_decimals f) 0)) in E0 by lia.
    replace (8 + 1 + f_decimals f) with (9 + f_decimals f) by lia. by rewrite E0.
Qed.
Lemma date_read_zero parseTime f : svalue_ok parseTime f SZero → date_read parseTime f [] = Some (svalue_cell parseTime f SZero).
Proof.
  intros [Ht Hdec]. unfold date_read, svalue_cell, date_cell_text, text_length. revert Hdec. unfold decimals_ok. generalize (f_decimals f). intros d Hdec.
  assert (d = 0 ∨ d = 31 ∨ d = 1 ∨ d = 2 ∨ d = 3 ∨ d = 4 ∨ d = 5 ∨ d = 6) as Hc by (unfold mem in Hdec; simpl in Hdec; lia).
  destruct (f_type f =? fieldTypeTime), parseTime, (f_type f =? fieldTypeDate); try done;
    by repeat destruct Hc as [->|Hc]; [..|subst d].
Qed.

(** *** Reading at a position *)

Lemma uint_at_le w pre n post mc : uint_at w (pre ++ le_bytes w n ++ post) (len pre) mc = Ret (inl (n mod 2 ^ (8 * Z.of_nat w)), mc).
Proof.
  unfold uint_at, mbind, mgo. rewrite <-(len_le_bytes w n), go_slice_mid. cbn [gbind]. unfold mret. by rewrite le_uint_le_bytes, len_le_bytes.
Qed.
Lemma swrap_mod_id w n : (0 < w)%nat → int_ok (8 * Z.of_nat w) n → swrap (8 * Z.of_nat w) (n mod 2 ^ (8 * Z.of_nat w)) = n.
Proof.
  intros Hw Hn. unfold int_ok in Hn. unfold swrap. set (m := 8 * Z.of_nat w) in *. assert (0 < m) by lia. pose proof (Z.pow_pos_nonneg 2 m ltac:(lia) ltac:(lia)).
  assert (2 ^ m = 2 * 2 ^ (m - 1)) as E by (rewrite <-Z.pow_succ_r by lia; f_equal; lia). rewrite Zplus_mod_idemp_l, Z.mod_small; lia.
Qed.
Lemma go_index_prefix {A} (l post : list A) i x : go_index l i = Ret x → go_index (l ++ post) i = Ret x.
Proof.
  unfold go_index. rewrite len_app. pose proof (len_nonneg post). destruct ((0 <=? i) && (i <? len l)) eqn:E; [|done]. replace (_ && _) with true by lia.
  intros H1. rewrite lookup_app_l by (unfold len in *; lia). exact H1.
Qed.
Lemma go_slice_prefix {A} (l post : list A) i j x : go_slice l i j = Ret x → go_slice (l ++ post) i j = Ret x.
Proof.
  unfold go_slice. rewrite len_app. pose proof (len_nonneg post). destruct ((0 <=? i) && (i <=? j) && (j <=? len l)) eqn:E; [|done]. replace (_ && _ && _) with true by lia.
  intros [= <-]. f_equal. unfold sub. rewrite !drop_app_le by (unfold len in *; lia). rewrite take_app_le; [done|]. rewrite length_drop. unfold len in *. lia.
Qed.
Lemma parseBinaryDateTime_prefix num data post t : parseBinaryDateTime num data = Ret (inl t) → parseBinaryDateTime num (data ++ post) = Ret (inl t).
Proof.
  unfold parseBinaryDateTime. destruct (num =? 0); [done|]. destruct (mem num _); [|done].
  destruct (go_slice data 0 2) as [y|] eqn:E1; [|done]. rewrite (go_slice_prefix _ post _ _ _ E1). cbn [gbind].
  destruct (go_index data 2) as [mo|] eqn:E2; [|done]. rewrite (go_index_prefix _ post _ _ E2). cbn [gbind].
  destruct (go_index data 3) as [d|] eqn:E3; [|done]. rewrite (go_index_prefix _ post _ _ E3). cbn [gbind]. destruct (num =? 4); [done|].
  destruct (go_index data 4) as [h|] eqn:E4; [|done]. rewrite (go_index_prefix _ post _ _ E4). cbn [gbind].
  destruct (go_index data 5) as [mi|] eqn:E5; [|done]. rewrite (go_index_prefix _ post _ _ E5). cbn [gbind].
  destruct (go_index data 6) as [s|] eqn:E6; [|done]. rewrite (go_index_prefix _ post _ _ E6). cbn [gbind]. destruct (num =? 7); [done|].
  destruct (go_slice data 7 11) as [us|] eqn:E7; [|done]. by rewrite (go_slice_prefix _ post _ _ _ E7).
Qed.

(** *** Which reader a column has *)

Lemma mem_elem x l : mem x l = true ↔ x ∈ l.
Proof.
  unfold mem. rewrite existsb_exists, list_elem_of_In. split; [intros (y & Hy & E); apply Z.eqb_eq in E; by subst|]. intros Hx. exists x. by rewrite Z.eqb_refl.
Qed.
Ltac by_type := repeat match goal with
  | H : mem _ _ = true |- _ => apply mem_elem in H
  | H : _ ∈ _ :: _ |- _ => apply elem_of_cons in H as [H|H]
  | H : _ ∈ [] |- _ => by apply not_elem_of_nil in H
  end.
Lemma cell_string parseTime f data pos : mem (f_type f) string_types = true →
  binary_cell parseTime f data pos = (r <-- string_at data pos ;; let '(s, isNull, pos) := r in mret (if isNull : bool then BNull else BBytes s, pos)).
Proof. intros H. unfold binary_cell. unfold string_types in H. by_type; by rewrite H. Qed.
Lemma cell_date parseTime f data pos : mem (f_type f) date_types = true → binary_cell parseTime f data pos = time_cell parseTime f data pos.
Proof. intros H. unfold binary_cell. unfold date_types in H. by_type; by rewrite H. Qed.
(** One byte is read by its index, which is the same as reading a number of one byte. *)
Lemma index_byte pre n post : go_index (pre ++ le_bytes 1 n ++ post) (len pre) = Ret (n mod 2 ^ 8).
Proof. cbn [le_bytes app]. by rewrite go_index_mid. Qed.
Lemma cell_int parseTime f n pre post mc : svalue_ok parseTime f (SInt n) →
  binary_cell parseTime f (pre ++ svalue_bytes f (SInt n) ++ post) (len pre) mc
  = Ret (inl (svalue_cell parseTime f (SInt n), len (pre ++ svalue_bytes f (SInt n))), mc).
Proof.
  intros (w & Hw & Hn). cbn [svalue_bytes svalue_cell]. rewrite Hw. cbn [default from_option]. unfold id. rewrite len_app, len_le_bytes.
  assert ((if unsigned f then n mod 2 ^ (8 * Z.of_nat w) else swrap (8 * Z.of_nat w) (n mod 2 ^ (8 * Z.of_nat w))) = n) as E.
  { destruct (unsigned f); [by apply Z.mod_small|]. apply swrap_mod_id; [|done]. unfold int_width in Hw. repeat case_match; simplify_eq; lia. }
  unfold int_width in Hw. unfold unsigned in *. destruct (Z.eqb_spec (f_type f) fieldTypeTiny) as [Et|_]; [|destruct (mem _ [fieldTypeShort; fieldTypeYear]) eqn:H2; [|destruct (mem _ [fieldTypeInt24; fieldTypeLong]) eqn:H4; [|destruct (Z.eqb_spec (f_type f) fieldTypeLongLong) as [Et|]; [|done]]]]; injection Hw as <-.
  - unfold binary_cell. rewrite Et. cbn [Z.eqb fieldTypeNULL fieldTypeTiny Pos.eqb]. unfold mbind, mgo. rewrite index_byte. cbn [gbind]. unfold mret. change (8 * Z.of_nat 1) with 8 in E. by rewrite E.
  - assert (binary_cell parseTime f (pre ++ le_bytes 2 n ++ post) (len pre) = int_cell 2 f (pre ++ le_bytes 2 n ++ post) (len pre)) as -> by (unfold binary_cell; by_type; by rewrite H2).
    unfold int_cell, mbind at 1. rewrite uint_at_le. cbn [gbind]. unfold mret. rewrite E. by_type; by rewrite H2.
  - assert (binary_cell parseTime f (pre ++ le_bytes 4 n ++ post) (len pre) = int_cell 4 f (pre ++ le_bytes 4 n ++ post) (len pre)) as -> by (unfold binary_cell; by_type; by rewrite H4).
    unfold int_cell, mbind at 1. rewrite uint_at_le. cbn [gbind]. unfold mret. rewrite E. by_type; by rewrite H4.
  - assert (binary_cell parseTime f (pre ++ le_bytes 8 n ++ post) (len pre) = longlong_cell f (pre ++ le_bytes 8 n ++ post) (len pre)) as -> by (unfold binary_cell; by rewrite Et).
    unfold longlong_cell, mbind. rewrite uint_at_le. cbn [gbind]. change (8 * Z.of_nat 8) with 64 in *.
    destruct (negb _); [|unfold mret; by rewrite E]. rewrite E. cbn [andb Z.eqb fieldTypeLongLong Pos.eqb]. destruct (_ <? n); [|done]. unfold mgo. by rewrite uint64ToString_Itoa.
Qed.
Lemma cell_text parseTime f b pre post mc : svalue_ok parseTime f (SText b) →
  binary_cell parseTime f (pre ++ lenenc b ++ post) (len pre) mc = Ret (inl (BBytes b, len (pre ++ lenenc b)), mc).
Proof. intros [Ht Hb]. rewrite cell_string by done. by rewrite (mbind_inl _ _ _ _ _ (string_at_lenenc pre b post mc Hb)). Qed.
Lemma inl_of_some {A C} (g : Go (A + C)) a : inl_of g = Some a → g = Ret (inl a).
Proof. destruct g as [[]|]; cbn; congruence. Qed.
Lemma cell_time parseTime f src c pre post mc : mem (f_type f) date_types = true → len src ≤ 250 → date_read parseTime f src = Some c → len pre < 2 ^ 62 →
  binary_cell parseTime f (pre ++ (len src :: src) ++ post) (len pre) mc = Ret (inl (c, len (pre ++ len src :: src)), mc).
Proof.
  intros Ht Hl Hc Hpre. rewrite cell_date by done. unfold time_cell. pose proof (len_nonneg src). pose proof (len_nonneg pre).
  rewrite (mbind_inl _ _ mc ((len src :: src) ++ post) mc) by (unfold mgo; by rewrite go_slice_tail).
  rewrite (mbind_inl _ _ mc (len src, false, 1) mc).
  2:{ unfold mgo. cbn [app readLengthEncodedInteger]. by rewrite !(proj2 (Z.eqb_neq _ _)) by lia. }
  assert (swrap 64 (len src) = len src) as E1 by (apply swrap_id; unfold int_ok; simpl in *; lia).
  assert (swrap 64 (len pre + 1 + len src) = len pre + 1 + len src) as E2 by (apply swrap_id; unfold int_ok; simpl in *; lia). cbv zeta. rewrite E1, E2.
  assert (pre ++ (len src :: src) ++ post = (pre ++ [len src]) ++ src ++ post) as Ed by list_eq. assert (len (pre ++ [len src]) = len pre + 1) as Ep by (rewrite len_app; done).
  assert (go_slice (pre ++ (len src :: src) ++ post) (len pre + 1) (len pre + 1 + len src) = Ret src) as Es by (rewrite Ed, <-Ep; apply go_slice_mid).
  assert (len (pre ++ len src :: src) = len pre + 1 + len src) as -> by (rewrite len_app, len_cons; lia).
  unfold date_read in Hc. destruct (f_type f =? fieldTypeTime); [|destruct parseTime].
  - destruct (text_length 8 (f_decimals f)) as [l|]; [|done]. cbn in Hc. apply fmap_Some in Hc as (s & Hs%inl_of_some & ->).
    rewrite (mbind_inl _ _ mc src mc) by (unfold mgo; by rewrite Es). rewrite (mbind_inl _ _ mc s mc); [done|]. unfold ok_or_time, mbind, mgo. by rewrite Hs.
  - apply fmap_Some in Hc as (t & Hs%inl_of_some & ->). rewrite (mbind_inl _ _ mc (src ++ post) mc) by (unfold mgo; rewrite Ed, <-Ep; by rewrite go_slice_tail).
    rewrite (mbind_inl _ _ mc t mc); [done|]. unfold ok_or_time, mbind, mgo. by rewrite (parseBinaryDateTime_prefix _ _ post _ Hs).
  - destruct (if f_type f =? fieldTypeDate then _ else _) as [l|]; [|done]. cbn in Hc. apply fmap_Some in Hc as (s & Hs%inl_of_some & ->).
    rewrite (mbind_inl _ _ mc src mc) by (unfold mgo; by rewrite Es). rewrite (mbind_inl _ _ mc s mc); [done|]. unfold ok_or_time, mbind, mgo. by rewrite Hs.
Qed.
Lemma binary_cell_value parseTime f v pre post mc : svalue_ok parseTime f v → len pre < 2 ^ 62 →
  binary_cell parseTime f (pre ++ svalue_bytes f v ++ post) (len pre) mc = Ret (inl (svalue_cell parseTime f v, len (pre ++ svalue_bytes f v)), mc).
Proof.
  intros Hv Hpre. destruct v as [n|bits|bits|b| |k y mo d h mi s us|k ng days h mi s us].
  - by apply cell_int.
  - destruct Hv as [Ht Hb]. unfold binary_cell. rewrite Ht. cbn [svalue_bytes svalue_cell]. rewrite len_app, len_le_bytes.
    change (mbind (uint_at 4 (pre ++ le_bytes 4 bits ++ post) (len pre)) (fun n => mret (BFloat32 n, len pre + 4)) mc = Ret (inl (BFloat32 bits, len pre + 4), mc)).
    rewrite (mbind_inl _ _ _ _ _ (uint_at_le 4 pre bits post mc)). unfold mret. by rewrite Z.mod_small.
  - destruct Hv as [Ht Hb]. unfold binary_cell. rewrite Ht. cbn [svalue_bytes svalue_cell]. rewrite len_app, len_le_bytes.
    change (mbind (uint_at 8 (pre ++ le_bytes 8 bits ++ post) (len pre)) (fun n => mret (BFloat64 n, len pre + 8)) mc = Ret (inl (BFloat64 bits, len pre + 8), mc)).
    rewrite (mbind_inl _ _ _ _ _ (uint_at_le 8 pre bits post mc)). unfold mret. by rewrite Z.mod_small.
  - by apply (cell_text parseTime).
  - apply (cell_time parseTime f [] _ pre post mc); [apply Hv|done|by apply date_read_zero|done].
  - apply cell_time; [apply Hv| |by apply date_read_date|done]. unfold datetime_packet, len. rewrite length_take, !length_app, !le_bytes_length. simpl. lia.
  - apply cell_time; [destruct Hv as [-> _]; done| |by apply date_read_time|done]. unfold duration_packet, len. rewrite length_take, length_app. cbn [length]. rewrite length_app, !le_bytes_length. simpl. lia.
Qed.

(** ** Rows *)

(** Bit [j] of a bitmap, the lowest bit of a byte first *)
Definition mask_bit (mask : bytes) (j : Z) : bool := Z.testbit (default 0 (mask !! Z.to_nat (j / 8))) (j mod 8).
Lemma land_7 n : 0 ≤ n → Z.land n 7 = n mod 8.
Proof. intros Hn. change 7 with (Z.ones 3). by rewrite Z.land_ones. Qed.
Lemma low_bit a k : 0 ≤ k → (Z.land (Z.shiftr a k) 1 =? 1) = Z.testbit a k.
Proof.
  intros Hk. change 1 with (Z.ones 1) at 1. rewrite Z.land_ones by lia. change (2 ^ 1) with 2. rewrite Zmod_odd, Z.testbit_odd. by destruct (Z.odd _).
Qed.
Lemma null_bit_mask mask i : 0 ≤ i → (i + 2) / 8 < len mask → null_bit mask i = Ret (mask_bit mask (i + 2)).
Proof.
  intros Hi Hl. unfold null_bit, mask_bit, go_index. rewrite Z.shiftr_div_pow2 by lia. change (2 ^ 3) with 8. pose proof (Z.div_pos (i + 2) 8 ltac:(lia) ltac:(lia)).
  replace (_ && _) with true by lia. destruct (lookup_lt_is_Some_2 mask (Z.to_nat ((i + 2) / 8))) as [b Hb]; [unfold len in *; lia|]. rewrite Hb. cbn [gbind default from_option].
  rewrite land_7 by lia. unfold id. rewrite low_bit; [done|]. apply Z.mod_pos_bound. lia.
Qed.
(** A row as the server sends it: the bitmap of the NULL values, then the others (Binary Protocol
    Resultset Row) *)
Definition value_on_wire (f : mysqlField) (v : option svalue) : bytes := match v with None => [] | Some v => svalue_bytes f v end.
Definition values_on_wire (fs : list mysqlField) (row : list (option svalue)) : bytes := mjoin (zip_with value_on_wire fs row).
Definition binary_row (fs : list mysqlField) (r : bytes * list (option svalue)) : bytes := 0 :: r.1 ++ values_on_wire fs r.2.
Definition value_cell (parseTime : bool) (f : mysqlField) (v : option svalue) : bcell := match v with None => BNull | Some v => svalue_cell parseTime f v end.
Record binary_row_ok (parseTime : bool) (fs : list mysqlField) (r : bytes * list (option svalue)) : Prop := mk_row_ok {
  rk_values : Forall2 (fun f v => match v with None => True | Some v => svalue_ok parseTime f v end) fs r.2;
  rk_mask : len r.1 = (len fs + 9) / 8;
  rk_bits : ∀ i v, r.2 !! i = Some v → mask_bit r.1 (Z.of_nat i + 2) = bool_decide (v = None);
  rk_size : len (binary_row fs r) < 2 ^ 62 }.
Lemma binary_cells_values parseTime mask fs row : Forall2 (fun f v => match v with None => True | Some v => svalue_ok parseTime f v end) fs row → ∀ pre i mc,
  0 ≤ i → (∀ k v, row !! k = Some v → mask_bit mask (i + Z.of_nat k + 2) = bool_decide (v = None)) → i + len fs + 10 ≤ 8 * len mask + 8 →
  len (pre ++ values_on_wire fs row) < 2 ^ 62 →
  binary_cells parseTime fs mask (pre ++ values_on_wire fs row) i (len pre) mc = Ret (inl (zip_with (value_cell parseTime) fs row), mc).
Proof.
  induction 1 as [|f v fs row Hv _ IH]; intros pre i mc Hi Hbits Hm Hsize; [done|]. cbn [binary_cells zip_with]. unfold values_on_wire in *. cbn [zip_with mjoin list_join] in *.
  rewrite len_cons in Hm. pose proof (len_nonneg fs). assert ((i + 2) / 8 < len mask) as Hin by (apply Z.div_lt_upper_bound; lia).
  pose proof (Hbits O v eq_refl) as Hb. rewrite Z.add_0_r in Hb. rewrite (mbind_inl _ _ mc (bool_decide (v = None)) mc) by (unfold mgo; by rewrite null_bit_mask, Hb).
  set (tail := mjoin (zip_with value_on_wire fs row)) in *. rewrite (assoc_L (++)) in Hsize.
  assert (len pre < 2 ^ 62) as Hpre by (rewrite !len_app in Hsize; pose proof (len_nonneg (value_on_wire f v)); pose proof (len_nonneg tail); lia).
  rewrite (mbind_inl _ _ mc (value_cell parseTime f v, len (pre ++ value_on_wire f v)) mc).
  2:{ destruct v as [v|]; [rewrite bool_decide_eq_false_2 by done; by apply binary_cell_value|]. rewrite bool_decide_eq_true_2 by done. cbn. by rewrite app_nil_r. }
  rewrite (assoc_L (++)). rewrite (mbind_inl _ _ mc (zip_with (value_cell parseTime) fs row) mc); [done|]. apply IH; [lia| |lia|done].
  intros k v' Hk. rewrite <-(Hbits (S k) v' Hk). f_equal. lia.
Qed.
Lemma binary_Next_row parseTime fs r ps rest mc : closed mc = false → binary_row_ok parseTime fs r → serves mc (binary_row fs r :: ps) rest →
  ∃ w s, binary_Next parseTime (mk_rows true fs false) mc
         = Ret (inl (inl (zip_with (value_cell parseTime) fs r.2), mk_rows true fs false), moved_to w s (status mc) mc) ∧
         serves (moved_to w s (status mc) mc) ps rest.
Proof.
  intros Hcl Hrow Hs. destruct (readPacket_serves (binary_row fs r) ps rest mc ltac:(done) Hs) as (w & s & Hr & Hs'). exists w, s. split; [|done]. unfold binary_Next. cbn [r_mc].
  rewrite (mbind_inl _ _ mc None mc) by (unfold mget, conn_error; by rewrite Hcl). unfold binary_readRow. set (mc' := moved_to w s (status mc) mc) in *.
  rewrite (mbind_inl _ _ mc (inl (binary_row fs r)) mc') by (unfold mtry; by rewrite Hr). rewrite (mbind_inl _ _ mc' 0 mc') by done.
  cbn [Z.eqb iOK negb r_columns]. destruct Hrow as [Hv Hm Hbits Hsize]. rewrite Z.shiftr_div_pow2 by lia. change (2 ^ 3) with 8.
  replace (len fs + 7 + 2) with (len fs + 9) by lia. rewrite <-Hm.
  assert (binary_row fs r = [0] ++ r.1 ++ values_on_wire fs r.2) as Ed by done. rewrite Ed.
  assert (go_slice ([0] ++ r.1 ++ values_on_wire fs r.2) 1 (1 + len r.1) = Ret r.1) as Em by apply (go_slice_mid [0]).
  assert (1 + len r.1 = len ([0] ++ r.1)) as Ep by (rewrite len_app; done).
  rewrite (mbind_inl _ _ mc' r.1 mc') by (unfold mgo; by rewrite Em). rewrite Ep, (assoc_L (++)).
  rewrite (mbind_inl _ _ mc' (inl (zip_with (value_cell parseTime) fs r.2)) mc'); [done|]. unfold mtry. rewrite binary_cells_values; [done|done|lia|exact Hbits| |].
  - pose proof (Z.mul_succ_div_gt (len fs + 9) 8 ltac:(lia)). lia.
  - rewrite Ed, (assoc_L (++)) in Hsize. exact Hsize.
Qed.
Lemma binary_Next_end parseTime fs wn st ps rest mc : closed mc = false → uint_ok 16 st → serves mc (eof_packet wn st :: ps) rest →
  ∃ w s, binary_Next parseTime (mk_rows true fs false) mc
         = Ret (inl (inr ErrEOF, mk_rows (more_results st) fs true), moved_to w s st mc) ∧ serves (moved_to w s st mc) ps rest.
Proof.
  intros Hcl Hst Hs. destruct (eof_status wn st Hst) as [E1 E2].
  destruct (readPacket_serves _ _ _ _ (eof_packet_ne wn st) Hs) as (w & s & Hr & Hs').
  exists w, s. split; [|by eapply serves_moved]. unfold binary_Next. cbn [r_mc].
  rewrite (mbind_inl _ _ mc None mc) by (unfold mget, conn_error; by rewrite Hcl).
  unfold binary_readRow. cbn [r_done r_columns r_mc]. set (mc' := moved_to w s (status mc) mc) in *.
  rewrite (mbind_inl _ _ mc (inl (eof_packet wn st)) mc') by (unfold mtry; by rewrite Hr).
  change (go_index (eof_packet wn st) 0) with (@Ret Z 254). rewrite (mbind_inl _ _ _ _ _ (mgo_ret _ _)).
  rewrite len_eof_packet. cbn [Z.eqb Pos.eqb iEOF iOK negb andb]. rewrite len_eof_packet in E1. rewrite E1.
  rewrite (mbind_inl _ _ _ _ _ (mgo_ret _ _)), E2, (mbind_inl _ _ _ _ _ (mgo_ret _ _)).
  rewrite (mbind_inl _ _ mc' tt (set_status st mc')) by done. done.
Qed.
Lemma binary_fetch_serves parseTime fs (rows : list (bytes * list (option svalue))) : ∀ fuel wn st ps rest mc,
  (length rows < fuel)%nat → closed mc = false → uint_ok 16 st → Forall (binary_row_ok parseTime fs) rows →
  serves mc ((binary_row fs <$> rows) ++ eof_packet wn st :: ps) rest →
  ∃ w s, binary_fetch fuel parseTime (mk_rows true fs false) mc
         = Ret (inl ((fun r => zip_with (value_cell parseTime) fs r.2) <$> rows, ErrEOF, mk_rows (more_results st) fs true), moved_to w s st mc) ∧
         serves (moved_to w s st mc) ps rest.
Proof.
  induction rows as [|row rows IH]; intros fuel wn st ps rest mc Hf Hcl Hst Hok Hs; (destruct fuel as [|fuel]; [simpl in Hf; lia|]); cbn [binary_fetch fmap list_fmap app] in *.
  - destruct (binary_Next_end parseTime fs wn st ps rest mc Hcl Hst Hs) as (w & s & Hr & Hs'). exists w, s. split; [|done]. by rewrite (mbind_inl _ _ _ _ _ Hr).
  - apply Forall_cons in Hok as [Hrow Hok]. destruct (binary_Next_row parseTime fs row _ rest mc Hcl Hrow Hs) as (w & s & Hr & Hs').
    rewrite (mbind_inl _ _ _ _ _ Hr). destruct (IH fuel wn st ps rest (moved_to w s (status mc) mc)) as (w2 & s2 & Hr2 & Hs2); try done; [simpl in Hf; lia|].
    exists w2, s2. split; [|done]. by rewrite (mbind_inl _ _ _ _ _ Hr2).
Qed.

(** ** Arguments as the server reads them *)

Inductive pvalue := PNull | PInt (n : Z) | PUint (n : Z) | PDouble (bits : Z) | PTiny (n : Z) | PText (b : bytes).
(** The values of the execute packet behind its types (COM_STMT_EXECUTE); a text that was sent ahead
    is not among them. *)
Fixpoint decode_params (n : nat) (long : gmap Z bytes) (mask : bytes) (i : Z) (types values : bytes) : option (list pvalue) :=
  match n, types with
  | O, [] => if decide (values = []) then Some [] else None
  | S n, t :: flag :: types =>
      let next v k := cons v <$> decode_params n long mask (i + 1) types (drop k values) in
      if mask_bit mask i then next PNull O
      else if t =? fieldTypeLongLong then let u := le_uint (take 8 values) in next (if flag =? 128 then PUint u else PInt (swrap 64 u)) 8%nat
      else if t =? fieldTypeDouble then next (PDouble (le_uint (take 8 values))) 8%nat
      else if t =? fieldTypeTiny then next (PTiny (le_uint (take 1 values))) 1%nat
      else if t =? fieldTypeString then
        match long !! i with
        | Some b => next (PText b) O
        | None => match readLengthEncodedString values with Ret (Some b, false, k, false) => next (PText b) (Z.to_nat k) | _ => None end
        end
      else None
  | _, _ => None
  end.
Definition decode_execute (id : Z) (n : nat) (long : gmap Z bytes) (p : bytes) : option (list pvalue) :=
  if decide (take 10 p = execute_head id) then
    let body := drop 10 p in
    match n with
    | O => if decide (body = []) then Some [] else None
    | _ =>
        let maskLen := Z.to_nat ((Z.of_nat n + 7) / 8) in
        match drop maskLen body with
        | 1 :: rest => decode_params n long (take maskLen body) 0 (take (2 * n) rest) (drop (2 * n) rest)
        | _ => None
        end
    end
  else None.
(** A server that collects the texts sent ahead (COM_STMT_SEND_LONG_DATA) until the execute packet *)
Fixpoint server_reads (id : Z) (n : nat) (long : gmap Z bytes) (ps : list bytes) : option (list pvalue) :=
  match ps with
  | [] => None
  | [p] => decode_execute id n long p
  | p :: ps =>
      if decide (take 5 p = comStmtSendLongData :: le_bytes 4 id) then
        let i := le_uint (take 2 (drop 5 p)) in server_reads id n (<[i := default [] (long !! i) ++ drop 7 p]> long) ps
      else None
  end.
(** What an argument means *)
Definition arg_value (a : stmt_arg) : pvalue :=
  match a with
  | ANil | ABytes None | AOther => PNull
  | AInt64 n => PInt n
  | AUint64 n => PUint n
  | AFloat64 bits => PDouble bits
  | ABool b => PTiny (if b then 1 else 0)
  | ABytes (Some v) | AString v => PText v
  | ATime t => PText (default (B "0000-00-00") t)
  end.
Definition arg_ok (a : stmt_arg) : Prop :=
  match a with
  | AInt64 n => int_ok 64 n
  | AUint64 n | AFloat64 n => uint_ok 64 n
  | ABytes (Some v) | AString v => sized v
  | ATime (Some t) => sized t
  | AOther => False
  | _ => True
  end.
Definition is_null (a : stmt_arg) : bool := match a with ANil | ABytes None => true | _ => false end.

(** *** What the driver writes for an argument *)

Definition arg_type (a : stmt_arg) : bytes :=
  match a with
  | ANil | ABytes None | AOther => [fieldTypeNULL; 0]
  | AInt64 _ => [fieldTypeLongLong; 0]
  | AUint64 _ => [fieldTypeLongLong; 128]
  | AFloat64 _ => [fieldTypeDouble; 0]
  | ABool _ => [fieldTypeTiny; 0]
  | _ => [fieldTypeString; 0]
  end.
(** The text that is sent ahead *)
Definition long_text (L : Z) (a : stmt_arg) : option bytes :=
  match a with ABytes (Some v) | AString v => if len v <? L then None else Some v | _ => None end.
Definition arg_bytes (L : Z) (a : stmt_arg) : bytes :=
  match a with
  | AInt64 n => le_bytes 8 (uwrap 64 n)
  | AUint64 n | AFloat64 n => le_bytes 8 n
  | ABool b => [if b then 1 else 0]
  | ABytes (Some v) | AString v => if len v <? L then lenenc v else []
  | ATime t => lenenc (default (B "0000-00-00") t)
  | _ => []
  end.
Lemma le_uint_take w n rest : uint_ok (8 * Z.of_nat w) n → le_uint (take w (le_bytes w n ++ rest)) = n.
Proof. intros Hn. rewrite take_app_le by (rewrite le_bytes_length; lia). rewrite take_ge by (rewrite le_bytes_length; lia). by apply le_uint_small. Qed.
Lemma drop_le w n (rest : bytes) : drop w (le_bytes w n ++ rest) = rest.
Proof. apply drop_app_length'. by rewrite le_bytes_length. Qed.
(** Reading one parameter *)
Lemma decode_param n L long mask i a types values : arg_ok a → long !! i = long_text L a → mask_bit mask i = is_null a →
  decode_params (S n) long mask i (arg_type a ++ types) (arg_bytes L a ++ values) = cons (arg_value a) <$> decode_params n long mask (i + 1) types values.
Proof.
  intros Ha Hl Hm. cbn [decode_params].
  assert (∀ v, sized v → readLengthEncodedString (lenenc v ++ values) = Ret (Some v, false, len (lenenc v), false)) as Hread by (intros v Hv; apply (lenenc_string_reads v values Hv)).
  assert (∀ v, drop (Z.to_nat (len (lenenc v))) (lenenc v ++ values) = values) as Hdrop by (intros v; apply drop_app_length'; unfold len; lia).
  destruct a as [|x|x|bits|b|[v|]|v|t|]; cbn [arg_type arg_bytes arg_value is_null app long_text] in *; rewrite Hm; cbn [Z.eqb Pos.eqb fieldTypeLongLong fieldTypeDouble fieldTypeTiny fieldTypeString].
  - done.
  - assert (swrap 64 (uwrap 64 x) = x) as E by (unfold uwrap; rewrite (swrap_mod _ x) by (apply Z.mod_mod; done); by apply swrap_id).
    rewrite le_uint_take by (unfold uwrap; by apply Z.mod_pos_bound). by rewrite drop_le, E.
  - by rewrite le_uint_take, drop_le.
  - by rewrite le_uint_take, drop_le.
  - by destruct b.
  - rewrite Hl. destruct (len v <? L); [by rewrite Hread, Hdrop|done].
  - done.
  - rewrite Hl. destruct (len v <? L); [by rewrite Hread, Hdrop|done].
  - rewrite Hl. rewrite Hread, Hdrop; [done|]. by destruct t.
  - done.
Qed.
Lemma decode_args L long mask args : ∀ i, Forall arg_ok args → (∀ k a, args !! k = Some a → long !! (i + Z.of_nat k) = long_text L a) →
  (∀ k a, args !! k = Some a → mask_bit mask (i + Z.of_nat k) = is_null a) →
  decode_params (length args) long mask i (mjoin (arg_type <$> args)) (mjoin (arg_bytes L <$> args)) = Some (arg_value <$> args).
Proof.
  induction args as [|a args IH]; intros i Hok Hl Hm; [done|]. apply Forall_cons in Hok as [Ha Hok]. cbn [length fmap list_fmap mjoin list_join].
  rewrite (decode_param _ L); [|done|rewrite <-(Hl O a eq_refl); f_equal; lia|rewrite <-(Hm O a eq_refl); f_equal; lia].
  rewrite IH; [done|done|..]; intros k b Hk; [rewrite <-(Hl (S k) b Hk)|rewrite <-(Hm (S k) b Hk)]; f_equal; lia.
Qed.

(** *** Writing the arguments *)

Lemma set_null_spec mask i : 0 ≤ i < 8 * len mask → ∃ mask', set_null mask i = Ret mask' ∧ len mask' = len mask ∧
  ∀ j, 0 ≤ j → mask_bit mask' j = mask_bit mask j || (j =? i).
Proof.
  intros Hi. pose proof (Z.div_pos i 8 ltac:(lia) ltac:(lia)). assert (i / 8 < len mask) as Hlt by (apply Z.div_lt_upper_bound; lia).
  destruct (lookup_lt_is_Some_2 mask (Z.to_nat (i / 8))) as [b Hb]; [unfold len in *; lia|]. unfold set_null, go_index, go_set. rewrite Hb. replace (_ && _) with true by lia. cbn [gbind].
  eexists. split; [reflexivity|]. split; [unfold len; by rewrite length_insert|]. intros j Hj. unfold mask_bit. destruct (decide (j / 8 = i / 8)) as [E|E].
  - rewrite E, list_lookup_insert_eq by (unfold len in *; lia). rewrite Hb. cbn [default from_option]. unfold id. rewrite Z.lor_spec. f_equal.
    pose proof (Z.mod_pos_bound j 8 ltac:(lia)). rewrite land_7, Z.shiftl_1_l, Z.pow2_bits_eqb by (lia || apply Z.mod_pos_bound; lia).
    pose proof (Z.div_mod j 8 ltac:(lia)). pose proof (Z.div_mod i 8 ltac:(lia)). destruct (Z.eqb_spec j i); [apply Z.eqb_eq|apply Z.eqb_neq]; lia.
  - rewrite list_lookup_insert_ne by (intros F; apply Z2Nat.inj in F; [done|lia|by apply Z.div_pos]). destruct (Z.eqb_spec j i); [by subst|]. by rewrite orb_false_r.
Qed.
(** Packets, each with sequence number 0 *)
Definition commands (ps : list bytes) : bytes := mjoin (frames 0 <$> ps).
Lemma commands_app ps qs : commands (ps ++ qs) = commands ps ++ commands qs.
Proof. unfold commands. by rewrite fmap_app, join_app. Qed.
Definition long_payload (id i : Z) (piece : bytes) : bytes := comStmtSendLongData :: le_bytes 4 id ++ le_bytes 2 i ++ piece.
Lemma wrote_wrote bs s bs' s' mc : wrote bs' s' (wrote bs s mc) = wrote (bs ++ bs') s' mc.
Proof. unfold wrote. cbn. by rewrite (assoc_L (++)). Qed.
Lemma wrote_nil s mc : wouts mc = [] → set_sequence s mc = wrote [] s mc.
Proof. intros H. unfold wrote. rewrite app_nil_r. destruct mc; cbn in *. by subst. Qed.
Lemma long_loop_pieces id i maxLen fuel : ∀ arg mc, (length arg ≤ fuel)%nat → dataOffset < maxLen < maxAllowedPacket mc → writable mc → reset mc = false →
  ∃ pieces, mjoin pieces = arg ∧ (arg ≠ [] → pieces ≠ []) ∧
    long_loop fuel id i maxLen arg mc = Ret (inl tt, wrote (commands (long_payload id i <$> pieces)) 0 mc).
Proof.
  induction fuel as [|fuel IH]; intros arg mc Hf Hmax Hw Hr; (destruct arg as [|x arg]; [|try (cbn in Hf; lia)]).
  1-2: exists []; split_and!; [done..|]; change (@Ret ((unit + merror) * mysqlConn) (inl tt, set_sequence 0 mc) = Ret (inl tt, wrote [] 0 mc)); by rewrite (wrote_nil 0 mc) by apply Hw.
  cbn [long_loop]. set (whole := x :: arg) in *. set (pktLen := if _ <? _ then _ else _). unfold dataOffset in *.
  assert (0 < pktLen - 7 ≤ len whole ∧ pktLen ≤ maxLen) as [Hp Hple].
  { subst pktLen whole. rewrite len_cons. pose proof (len_nonneg arg). destruct (_ <? maxLen) eqn:E; [apply Z.ltb_lt in E|apply Z.ltb_ge in E]; lia. }
  set (k := Z.to_nat (pktLen - 7)). assert (len (take k whole) = pktLen - 7) as Hk by (subst k; unfold len in *; rewrite length_take; lia).
  rewrite (mbind_inl _ _ mc tt (set_sequence 0 mc)) by done. set (mc0 := set_sequence 0 mc).
  assert (go_slice whole 0 (pktLen - (1 + 4 + 2)) = Ret (take k whole)) as E1.
  { pose proof (go_slice_front (take k whole) (drop k whole)) as H. rewrite take_drop, Hk in H. exact H. }
  assert (go_slice whole (pktLen - (1 + 4 + 2)) (len whole) = Ret (drop k whole)) as E2.
  { pose proof (go_slice_tail (take k whole) (drop k whole)) as H. rewrite take_drop, Hk in H. exact H. }
  rewrite (mbind_inl _ _ mc0 (take k whole) mc0) by (unfold mgo; by rewrite E1).
  set (mc1 := wrote (frames 0 (long_payload id i (take k whole))) (seq_after 0 (long_payload id i (take k whole))) mc0).
  rewrite (mbind_inl _ _ mc0 tt mc1).
  2:{ unfold long_packet. change ([0; 0; 0; 0] ++ comStmtSendLongData :: le_bytes 4 id ++ le_bytes 2 i ++ take k whole) with ([0; 0; 0; 0] ++ long_payload id i (take k whole)).
      apply writePacket_frames; [done|exact Hw|exact Hr|]. unfold long_payload. rewrite len_cons, !len_app, !len_le_bytes, Hk. cbn. lia. }
  rewrite (mbind_inl _ _ mc1 (drop k whole) mc1) by (unfold mgo; by rewrite E2).
  destruct (IH (drop k whole) mc1) as (pieces & Hj & _ & E).
  { rewrite length_drop. subst whole. cbn [length] in *. lia. } { cbn. lia. } { by destruct Hw. } { exact Hr. }
  exists (take k whole :: pieces). split_and!; [change (take k whole ++ mjoin pieces = whole); by rewrite Hj, take_drop|done|]. rewrite E. f_equal. f_equal. unfold mc1, mc0. rewrite wrote_wrote, (wrote_nil 0 mc) by apply Hw.
  rewrite wrote_wrote. done.
Qed.
(** A text sent ahead arrives whole. *)
Lemma server_takes id n i pieces ps : uint_ok 16 i → ps ≠ [] → pieces ≠ [] → ∀ long,
  server_reads id n long ((long_payload id i <$> pieces) ++ ps) = server_reads id n (<[i := default [] (long !! i) ++ mjoin pieces]> long) ps.
Proof.
  intros Hi Hps. induction pieces as [|p pieces IH]; [done|]. intros _ long. cbn [fmap list_fmap app].
  assert (server_reads id n long (long_payload id i p :: (long_payload id i <$> pieces) ++ ps)
    = server_reads id n (<[i := default [] (long !! i) ++ p]> long) ((long_payload id i <$> pieces) ++ ps)) as ->.
  { cbn [server_reads]. destruct ((long_payload id i <$> pieces) ++ ps) eqn:E; [apply app_eq_nil in E as [_ E]; done|].
    unfold long_payload. assert (take 5 (comStmtSendLongData :: le_bytes 4 id ++ le_bytes 2 i ++ p) = comStmtSendLongData :: le_bytes 4 id) as -> by done.
    rewrite decide_True by done. cbn [drop]. rewrite drop_le, le_uint_take by done. change 6%nat with (4 + 2)%nat. by rewrite <-drop_drop, !drop_le. }
  destruct pieces as [|q pieces]; [cbn [fmap list_fmap app mjoin list_join]; by rewrite app_nil_r|].
  rewrite IH by done. rewrite lookup_insert_eq, insert_insert_eq. cbn [default from_option mjoin list_join]. unfold Datatypes.id. by rewrite <-(assoc_L (++)).
Qed.
Lemma wrote_none mc : writable mc → sequence mc = 0 → mc = wrote (commands []) 0 mc.
Proof. intros [_ Hw] Hs. change (commands []) with ([] : bytes). rewrite <-(wrote_nil 0 mc Hw). destruct mc; cbn in *. by subst. Qed.
(** What is asked of a connection that arguments are written to *)
Record sends (mc : mysqlConn) : Prop := mk_sends {
  sd_writable : writable mc; sd_reset : reset mc = false; sd_sequence : sequence mc = 0; sd_max : dataOffset + 1 < maxAllowedPacket mc }.
Lemma wrote_sends bs mc : sends mc → sends (wrote bs 0 mc).
Proof. intros [[Hc Hw] Hr Hs Hm]. by split. Qed.
Definition add_long (L i : Z) (a : stmt_arg) (long : gmap Z bytes) : gmap Z bytes := match long_text L a with Some v => <[i := v]> long | None => long end.
Lemma put_arg_spec id n L i a mask types values long mc : arg_ok a → 0 < L → 0 ≤ i < 8 * len mask → uint_ok 16 i → sends mc → long !! i = None →
  ∃ ps mask', put_arg id L i a (mask, types, values) mc = Ret (inl (mask', types ++ arg_type a, values ++ arg_bytes L a), wrote (commands ps) 0 mc) ∧
    len mask' = len mask ∧ (∀ j, 0 ≤ j → mask_bit mask' j = mask_bit mask j || (j =? i) && is_null a) ∧
    ∀ qs, qs ≠ [] → server_reads id n long (ps ++ qs) = server_reads id n (add_long L i a long) qs.
Proof.
  intros Ha HL Hi Hi16 Hmc Hlong. pose proof Hmc as [Hw Hr Hs Hm].
  assert (∀ t v, arg_type a = t → arg_bytes L a = v → long_text L a = None → is_null a = false → put_arg id L i a (mask, types, values) mc = Ret (inl (mask, types ++ t, values ++ v), mc) →
    ∃ ps mask', put_arg id L i a (mask, types, values) mc = Ret (inl (mask', types ++ arg_type a, values ++ arg_bytes L a), wrote (commands ps) 0 mc) ∧
    len mask' = len mask ∧ (∀ j, 0 ≤ j → mask_bit mask' j = mask_bit mask j || (j =? i) && is_null a) ∧
    ∀ qs, qs ≠ [] → server_reads id n long (ps ++ qs) = server_reads id n (add_long L i a long) qs) as Hplain.
  { intros t v -> -> Et En E. exists [], mask. rewrite <-wrote_none by done. unfold add_long. rewrite Et, En. split_and!; [done..| |done].
    intros j Hj. by rewrite andb_false_r, orb_false_r. }
  assert (∀ v, long_text L a = (if len v <? L then None else Some v) → arg_type a = [fieldTypeString; 0] → arg_bytes L a = (if len v <? L then lenenc v else []) → is_null a = false →
    put_arg id L i a (mask, types, values) mc = (if len v <? L then mret (mask, types ++ [fieldTypeString; 0], values ++ lenenc_arg v)
      else writeCommandLongData id i v ;;; mret (mask, types ++ [fieldTypeString; 0], values ++ [])) mc →
    ∃ ps mask', put_arg id L i a (mask, types, values) mc = Ret (inl (mask', types ++ arg_type a, values ++ arg_bytes L a), wrote (commands ps) 0 mc) ∧
    len mask' = len mask ∧ (∀ j, 0 ≤ j → mask_bit mask' j = mask_bit mask j || (j =? i) && is_null a) ∧
    ∀ qs, qs ≠ [] → server_reads id n long (ps ++ qs) = server_reads id n (add_long L i a long) qs) as Htext.
  { intros v Et Ety Eb En E. destruct (Z.ltb_spec (len v) L) as [Hlt|Hge]; [by apply (Hplain [fieldTypeString; 0] (lenenc v))|].
    destruct (long_loop_pieces id i (maxAllowedPacket mc - 1) (length v) v mc ltac:(lia) ltac:(lia) Hw Hr) as (pieces & Hj & Hne & El).
    assert (v ≠ []) as Hv by (intros ->; unfold len in Hge; cbn in Hge; lia). exists (long_payload id i <$> pieces), mask. rewrite E, Ety, Eb, En.
    rewrite (mbind_inl _ _ mc tt (wrote (commands (long_payload id i <$> pieces)) 0 mc)) by exact El. split_and!; [done..| |].
    - intros j Hj'. by rewrite andb_false_r, orb_false_r.
    - intros qs Hqs. rewrite server_takes, Hlong, Hj by auto. unfold add_long. by rewrite Et. }
  destruct a as [|x|x|bits|b|[v|]|v|t|].
  1,7: destruct (set_null_spec mask i Hi) as (mask' & E & El & Eb); exists [], mask'; rewrite <-wrote_none by done;
    unfold put_arg; rewrite (mbind_inl _ _ mc mask' mc) by (unfold mgo; by rewrite E); rewrite app_nil_r; split_and!; [done..| |done];
    intros j Hj; by rewrite andb_true_r, Eb.
  - by apply (Hplain [fieldTypeLongLong; 0] (le_bytes 8 (uwrap 64 x))).
  - by apply (Hplain [fieldTypeLongLong; 128] (le_bytes 8 x)).
  - by apply (Hplain [fieldTypeDouble; 0] (le_bytes 8 bits)).
  - by apply (Hplain [fieldTypeTiny; 0] [if b then 1 else 0]).
  - by apply (Htext v).
  - by apply (Htext v).
  - by apply (Hplain [fieldTypeString; 0] (lenenc (default (B "0000-00-00") t))).
  - done.
Qed.
Fixpoint add_longs (L i : Z) (args : list stmt_arg) (long : gmap Z bytes) : gmap Z bytes :=
  match args with [] => long | a :: args => add_longs L (i + 1) args (add_long L i a long) end.
Lemma add_long_other L i a long k : k ≠ i → add_long L i a long !! k = long !! k.
Proof. intros Hk. unfold add_long. destruct (long_text L a); [by rewrite lookup_insert_ne|done]. Qed.
Lemma add_longs_before L args : ∀ i long k, k < i → add_longs L i args long !! k = long !! k.
Proof. induction args as [|a args IH]; intros i long k Hk; [done|]. cbn [add_longs]. rewrite IH by lia. apply add_long_other. lia. Qed.
Lemma add_longs_lookup L args : ∀ i long k a, (∀ j, i ≤ j → long !! j = None) → args !! k = Some a → add_longs L i args long !! (i + Z.of_nat k) = long_text L a.
Proof.
  induction args as [|b args IH]; intros i long k a Hl Hk; [done|]. cbn [add_longs]. destruct k as [|k]; cbn [lookup list_lookup] in Hk.
  - injection Hk as ->. rewrite Z.add_0_r, add_longs_before by lia. unfold add_long. destruct (long_text L a); [by rewrite lookup_insert_eq|]. apply Hl. lia.
  - replace (i + Z.of_nat (S k)) with (i + 1 + Z.of_nat k) by lia. apply IH; [|done]. intros j Hj. rewrite add_long_other by lia. apply Hl. lia.
Qed.
Lemma put_args_spec id n L args : 0 < L → Forall arg_ok args → ∀ i mask types values long mc, 0 ≤ i → i + len args ≤ 8 * len mask → i + len args ≤ 2 ^ 16 → sends mc →
  (∀ j, i ≤ j → long !! j = None) →
  ∃ ps mask', put_args id L i args (mask, types, values) mc
      = Ret (inl (mask', types ++ mjoin (arg_type <$> args), values ++ mjoin (arg_bytes L <$> args)), wrote (commands ps) 0 mc) ∧
    len mask' = len mask ∧
    (∀ j, 0 ≤ j → mask_bit mask' j = mask_bit mask j || default false (if i <=? j then is_null <$> args !! Z.to_nat (j - i) else None)) ∧
    ∀ qs, qs ≠ [] → server_reads id n long (ps ++ qs) = server_reads id n (add_longs L i args long) qs.
Proof.
  intros HL. induction 1 as [|a args Ha _ IH]; intros i mask types values long mc Hi Hm H16 Hmc Hlong.
  - exists [], mask. cbn [put_args fmap list_fmap mjoin list_join add_longs]. rewrite !app_nil_r, <-wrote_none by apply Hmc. split_and!; [done..| |done].
    intros j Hj. destruct (i <=? j); cbn; by rewrite orb_false_r.
  - rewrite len_cons in *. pose proof (len_nonneg args). destruct (put_arg_spec id n L i a mask types values long mc) as (ps & mask1 & E1 & El1 & Eb1 & Es1);
      [done|done|lia|unfold uint_ok; lia|done|apply Hlong; lia|].
    destruct (IH (i + 1) mask1 (types ++ arg_type a) (values ++ arg_bytes L a) (add_long L i a long) (wrote (commands ps) 0 mc)) as (qs & mask2 & E2 & El2 & Eb2 & Es2);
      [lia|lia|lia|by apply wrote_sends|intros j Hj; rewrite add_long_other by lia; apply Hlong; lia|].
    exists (ps ++ qs), mask2. cbn [put_args fmap list_fmap mjoin list_join add_longs]. rewrite (mbind_inl _ _ _ _ _ E1), E2, wrote_wrote, commands_app, <-!(assoc_L (++)).
    split_and!; [done|lia| |].
    + intros j Hj. rewrite Eb2, Eb1, <-orb_assoc by done. f_equal. destruct (Z.eqb_spec j i) as [->|Hne].
      * rewrite (proj2 (Z.leb_gt (i + 1) i)), Z.leb_refl, Z.sub_diag by lia. cbn. by rewrite orb_false_r.
      * destruct (Z.leb_spec (i + 1) j); [|by rewrite (proj2 (Z.leb_gt i j)) by lia]. rewrite (proj2 (Z.leb_le i j)) by lia.
        replace (Z.to_nat (j - i)) with (S (Z.to_nat (j - (i + 1)))) by lia. done.
    + intros rs Hrs. rewrite <-(assoc_L (++)), Es1, Es2; [done|done|]. intros E. by apply app_eq_nil in E as [_ E].
Qed.

(** *** The execute packet *)

Definition mask_len (args : list stmt_arg) : Z := (len args + 7) / 8.
Definition long_limit (args : list stmt_arg) (mc : mysqlConn) : Z := Z.max 64 (Z.quot (maxAllowedPacket mc) (len args + 1)).
Definition execute_size (L : Z) (args : list stmt_arg) : Z :=
  10 + match args with [] => 0 | _ => mask_len args + 1 + 2 * len args + len (mjoin (arg_bytes L <$> args)) end.
Lemma length_types args : length (mjoin (arg_type <$> args)) = (2 * length args)%nat.
Proof. induction args as [|a args IH]; [done|]. change (length (arg_type a ++ mjoin (arg_type <$> args)) = (2 * length (a :: args))%nat). rewrite length_app, IH. cbn [length]. destruct a as [| | | | |[]| | |]; cbn [arg_type length]; lia. Qed.
Lemma execute_decodes id L args mask : args ≠ [] → Forall arg_ok args → len mask = mask_len args → (∀ k a, args !! k = Some a → mask_bit mask (Z.of_nat k) = is_null a) →
  decode_execute id (length args) (add_longs L 0 args ∅) (execute_head id ++ mask ++ 1 :: mjoin (arg_type <$> args) ++ mjoin (arg_bytes L <$> args)) = Some (arg_value <$> args).
Proof.
  intros Hne Hok Hlen Hbits. unfold decode_execute. set (rest := mask ++ _).
  change (take 10 (execute_head id ++ rest)) with (execute_head id). change (drop 10 (execute_head id ++ rest)) with rest. rewrite decide_True by done.
  destruct (length args) as [|m] eqn:El; [by destruct args|]. rewrite <-El. replace (Z.to_nat ((Z.of_nat (length args) + 7) / 8)) with (length mask) by (unfold mask_len, len in Hlen; lia).
  subst rest. rewrite drop_app_length, take_app_length. rewrite <-(length_types args), take_app_length, drop_app_length.
  apply decode_args; [done|..]; intros k a Hk; rewrite ?Z.add_0_l; [|by apply Hbits]. rewrite <-(Z.add_0_l (Z.of_nat k)). by apply add_longs_lookup.
Qed.
Lemma zero_mask n j : 0 ≤ j → mask_bit (replicate n 0) j = false.
Proof. intros Hj. unfold mask_bit. destruct (replicate n 0 !! Z.to_nat (j / 8)) as [b|] eqn:E; cbn; [apply lookup_replicate in E as [-> _]|]; apply Z.testbit_0_l. Qed.

Section execute.
Context (reader : bytes → option (list bytes)) (registered : bytes → bool) (file : bytes → option bytes) (grow : Z → Z).
Lemma store_values_spec a b mc data : readable mc data → b_length (bb (world mc)) = 0 → 0 ≤ a → 0 ≤ b →
  ∃ w, store_values grow a b mc = Ret (inl tt, set_world w mc) ∧ readable (set_world w mc) data.
Proof.
  intros [Hs Hv Hn] Hl Ha Hb. unfold store_values. set (w := world mc) in *. destruct (b <=? _); [exists w; split; [by destruct mc|by split]|].
  pose proof (valid_alloc (grow (a + b)) w Hv) as Hva. pose proof (arr_alloc_new w (grow (a + b))) as En. pose proof (arr_alloc (b_buf (bb w)) w (grow (a + b)) (valid_buf w Hv)) as Eo.
  destruct (alloc (grow (a + b)) w) as [i w1] eqn:Ea. injection Ea as <- E1. cbn [snd] in *.
  assert (bb w1 = bb w ∧ net w1 = net w ∧ length (arrays w1) = S (length (arrays w))) as (Eb & Enet & Elen) by (subst w1; cbn; rewrite length_app; cbn; split_and!; [done..|lia]).
  assert (∀ w' : bworld, b_length (bb w') = 0 → pending w' = []) as Hp by (intros w' H0; unfold pending, sub; by rewrite H0, Z.add_0_r, Z.sub_diag).
  unfold store_buffer. rewrite Eb, Hl. cbn [Z.ltb Z.compare]. destruct (_ && _) eqn:E; eexists; (split; [reflexivity|]).
  - apply andb_prop in E as [_ E%Z.ltb_lt]. split; cbn; [|destruct Hva as [V1 V2 V3 V4 V5 V6 V7]; rewrite Eb in *; split; cbn; try done; [lia|]|by rewrite Enet].
    + unfold stream. rewrite (Hp _) by done. cbn. rewrite Enet, <-Hs. unfold stream. by rewrite Hp.
    + rewrite Hl in V4. etrans; [exact V4|]. apply Z.lt_le_incl, E.
  - split; cbn; [|done|by rewrite Enet]. unfold stream in *. rewrite Hp in Hs |- * by (rewrite ?Eb; done). by rewrite Enet.
Qed.
Lemma writeExecutePacket_spec stmt args mc data : let L := long_limit args mc in
  writable mc → reset mc = false → b_length (bb (world mc)) = 0 → minPktLen ≤ len (arr (world mc) (b_buf (bb (world mc)))) → readable mc data →
  paramCount stmt = len args → len args < 2 ^ 16 → Forall arg_ok args → dataOffset + 1 < maxAllowedPacket mc → execute_size L args ≤ maxAllowedPacket mc →
  ∃ ps p w, writeExecutePacket grow stmt args mc = Ret (inl tt, wrote (commands (ps ++ [p])) (seq_after 0 p) (set_world w (set_sequence 0 mc))) ∧
    readable (set_world w mc) data ∧ len p = execute_size L args ∧ server_reads (s_id stmt) (length args) ∅ (ps ++ [p]) = Some (arg_value <$> args).
Proof.
  intros L Hw Hr Hl Hbuf Hread Hcount H16 Hok Hmax Hsize. unfold writeExecutePacket. rewrite Hcount, Z.eqb_refl. cbn [negb]. fold (long_limit args mc). fold L.
  assert (0 < L) as HL by (unfold L, long_limit; lia). clearbody L.
  change (world (set_sequence 0 mc)) with (world mc). destruct args as [|a args'] eqn:Eargs.
  - pose proof Hread as [Hs Hv Hn]. destruct (takeBuffer_spec minPktLen (world mc) Hv Hl ltac:(done)) as (i & w & Ht & Hv' & Hs' & Hn' & _). rewrite Ht.
    exists [], (execute_head (s_id stmt)), w. rewrite writePacket_frames; [|done|exact Hw|exact Hr|exact Hsize]. split_and!.
    + change (commands ([] ++ [execute_head (s_id stmt)])) with (frames 0 (execute_head (s_id stmt)) ++ []). by rewrite app_nil_r.
    + split; cbn; congruence.
    + done.
    + cbn [server_reads app]. unfold decode_execute. by rewrite decide_True.
  - rewrite <-Eargs in *. assert (args ≠ []) as Hne by by subst. clear a args' Eargs. unfold takeCompleteBuffer. rewrite Hl. cbn [Z.ltb Z.compare].
    rewrite (proj2 (Z.ltb_ge _ _)) by done. pose proof (len_nonneg args).
    set (mask0 := replicate (Z.to_nat ((len args + 7) / 8)) 0). assert (len mask0 = mask_len args) as Hm0.
    { unfold mask0, mask_len, len. rewrite length_replicate. pose proof (Z.div_pos (Z.of_nat (length args) + 7) 8 ltac:(lia) ltac:(lia)). lia. }
    assert (len args ≤ 8 * mask_len args) as Hm8 by (unfold mask_len; pose proof (Z.mul_succ_div_gt (len args + 7) 8 ltac:(lia)); lia).
    destruct (put_args_spec (s_id stmt) (length args) L args HL Hok 0 mask0 [] [] ∅ (set_sequence 0 mc)) as (ps & mask & E & Hlen & Hbits & Hserver);
      [lia|lia|lia|by split|done|]. cbn [app] in E. set (mc1 := wrote (commands ps) 0 (set_sequence 0 mc)) in *.
    destruct (store_values_spec (minPktLen + mask_len args + 1 + 2 * len args) (len (mjoin (arg_bytes L <$> args))) mc1 data) as (w & Est & Hread');
      [by destruct Hread|done|unfold minPktLen; lia|apply len_nonneg|].
    set (p := execute_head (s_id stmt) ++ mask ++ 1 :: mjoin (arg_type <$> args) ++ mjoin (arg_bytes L <$> args)).
    assert (len p = execute_size L args) as Hp.
    { unfold p, execute_size. rewrite !len_app, len_cons, !len_app, Hlen, Hm0. change (len (execute_head (s_id stmt))) with 10.
      assert (len (mjoin (arg_type <$> args)) = 2 * len args) as -> by (unfold len; rewrite length_types; lia). destruct args; [done|]. lia. }
    exists ps, p, w. split_and!; [|by destruct Hread'|done|].
    + cbv zeta. fold mask0. rewrite (mbind_inl _ _ _ _ _ E). fold (mask_len args). rewrite (mbind_inl _ _ _ _ _ Est). fold p.
      rewrite writePacket_frames; [|done|by destruct Hw|exact Hr|rewrite Hp; exact Hsize]. rewrite commands_app. cbn [sequence set_world mc1 wrote set_sequence].
      change (commands [p]) with (frames 0 p ++ []). rewrite app_nil_r. f_equal. f_equal. unfold mc1, wrote. cbn. by rewrite (assoc_L (++)).
    + rewrite Hserver by done. cbn [server_reads]. apply execute_decodes; [done|done|lia|]. intros k a Hk. rewrite Hbits by lia. unfold mask0. rewrite zero_mask by lia.
      rewrite (proj2 (Z.leb_le 0 _)), Z.sub_0_r, Nat2Z.id, Hk by lia. done.
Qed.

(** ** A statement and its result *)

(** The packets of a result set in the binary protocol; the columns and the rows end with the
    warnings and the status of [e1] and of [e2]. *)
Definition binary_resultset (cs : list server_column) (fs : list mysqlField) (rows : list (bytes * list (option svalue))) (e1 e2 : Z * Z) : list bytes :=
  appendLengthEncodedInteger [] (len cs) :: (column_packet <$> cs) ++ eof_packet e1.1 e1.2 :: (binary_row fs <$> rows) ++ [eof_packet e2.1 e2.2].
(** The sequence number behind a packet depends on its size only. *)
Definition answer_seq (size : Z) : Z := seq_after 0 (replicate (Z.to_nat size) 0).
Lemma seq_after_size p : seq_after 0 p = answer_seq (len p).
Proof. unfold answer_seq, seq_after, full_packets, len. by rewrite length_replicate, Nat2Z.id. Qed.

(** C15: Executing a prepared statement sends packets from which a server that reads the
    binary protocol gets exactly the arguments, NULL as NULL, texts in the packet or sent
    ahead in pieces; and for any result the server sends in the binary protocol the rows are
    returned value by value, integers with their sign, dates and times as the text of their
    fields with the decimals of the column, or with parseTime as times; the connection is left
    behind the result. *)
Theorem execute_result stmt args (cs : list server_column) (rows : list (bytes * list (option svalue))) parseTime e1 e2 rest mc :
  let L := long_limit args mc in let fs := field_of (ColumnsWithAlias (cfg mc)) <$> cs in
  s_mc stmt = true → paramCount stmt = len args → len args < 2 ^ 16 → Forall arg_ok args →
  writable mc → reset mc = false → b_length (bb (world mc)) = 0 → minPktLen ≤ len (arr (world mc) (b_buf (bb (world mc)))) →
  dataOffset + 1 < maxAllowedPacket mc → execute_size L args ≤ maxAllowedPacket mc →
  cs ≠ [] → 48 * len cs ≤ maxAlloc → Forall column_ok cs → Forall (binary_row_ok parseTime fs) rows → uint_ok 16 e2.2 →
  readable mc (wire (answer_seq (execute_size L args)) (binary_resultset cs fs rows e1 e2) ++ rest) →
  ∃ packets mc1 mc2,
    stmt_query reader registered file grow stmt args mc = Ret (inl (mk_rows true fs false), mc1) ∧
    out mc1 = out mc ++ commands packets ∧ server_reads (s_id stmt) (length args) ∅ packets = Some (arg_value <$> args) ∧
    binary_fetch (S (length rows)) parseTime (mk_rows true fs false) mc1
      = Ret (inl ((fun r => zip_with (value_cell parseTime) fs r.2) <$> rows, ErrEOF, mk_rows (more_results e2.2) fs true), mc2) ∧
    readable mc2 rest ∧ status mc2 = e2.2.
Proof.
  intros L fs Hmc Hcount H16 Hargs Hw Hreset Hl Hbuf Hmax Hsize Hne Hcs Hcols Hrows Hst Hread. destruct e1 as [w1' st1], e2 as [w2' st]. cbn [fst snd] in *.
  destruct (writeExecutePacket_spec stmt args mc _ Hw Hreset Hl Hbuf Hread Hcount H16 Hargs Hmax Hsize) as (ps & p & w & Hsend & Hr1 & Hp & Hserver). fold L in Hp.
  set (mc0 := wrote (commands (ps ++ [p])) (seq_after 0 p) (set_world w (set_sequence 0 mc))) in *.
  assert (serves mc0 (binary_resultset cs fs rows (w1', st1) (w2', st)) rest) as Hs0.
  { unfold serves. change (sequence mc0) with (seq_after 0 p). rewrite seq_after_size, Hp. by apply wrote_readable. }
  unfold binary_resultset in Hs0. cbn [fst snd] in Hs0.
  assert (0 < len cs) as Hpos by (destruct cs; [done|rewrite len_cons; pose proof (len_nonneg cs); lia]).
  destruct (header_serves reader registered file (len cs) _ rest mc0 ltac:(unfold maxAlloc in Hcs; lia) Hs0) as (w1 & s1 & Hh & Hs1).
  set (mc1 := moved_to w1 s1 (status mc0) mc0) in *.
  destruct (columns_loop_serves cs [] (read_fuel (world mc1)) (len cs) w1' st1 ((binary_row fs <$> rows) ++ [eof_packet w2' st]) rest mc1)
    as (w2 & s2 & Hc & Hs2); try done.
  { pose proof (read_fuel_stream _ (readable_valid _ _ Hs1)) as Hf. rewrite (readable_stream _ _ Hs1) in Hf.
    destruct (wire_app (sequence mc1) (column_packet <$> cs) (eof_packet w1' st1 :: (binary_row fs <$> rows) ++ [eof_packet w2' st])) as [seq' E].
    rewrite E, !length_app in Hf. pose proof (length_wire (column_packet <$> cs) (sequence mc1)) as Hlw.
    rewrite length_fmap in Hlw. lia. }
  set (mc2 := moved_to w2 s2 (status mc1) mc1) in *.
  destruct (binary_fetch_serves parseTime fs rows (S (length rows)) w2' st [] rest mc2) as (w3 & s3 & Hf & Hs3); try done.
  { lia. } { apply Hw. }
  exists (ps ++ [p]), mc2, (moved_to w3 s3 st mc2). split_and!; [|done|exact Hserver|exact Hf|exact Hs3|done].
  unfold stmt_query. rewrite Hmc. cbn [negb]. rewrite (mbind_inl _ _ mc false mc) by (unfold mget; by rewrite (proj1 Hw)).
  rewrite (mbind_inl _ _ mc tt mc0); [|unfold mmark; rewrite (mbind_inl _ _ mc (inl tt) mc0); [done|unfold mtry; by rewrite Hsend]].
  rewrite (mbind_inl _ _ _ _ _ Hh). rewrite (proj2 (Z.ltb_lt 0 (len cs))) by done.
  rewrite (mbind_inl _ _ mc1 fs mc2); [done|]. unfold readColumns. rewrite go_make_ok by lia. rewrite (mbind_inl _ _ _ _ _ (mgo_ret _ _)). exact Hc.
Qed.
End execute.

(** *** Three arguments, one sent ahead, and two rows of three columns *)

Definition number_column : server_column := mk_column (B "db") (B "t") (B "t") (B "n") (B "n") 33 11 3 0 0.
Definition text_column : server_column := mk_column (B "db") (B "t") (B "t") (B "s") (B "s") 33 11 253 0 0.
Definition datetime_column : server_column := mk_column (B "db") (B "t") (B "t") (B "d") (B "d") 33 11 12 0 3.
Definition some_columns : list server_column := [number_column; text_column; datetime_column].
Definition some_fields : list mysqlField := field_of false <$> some_columns.
Definition some_binary_rows : list (bytes * list (option svalue)) :=
  [([0], [Some (SInt (-7)); Some (SText (B "x")); Some (SDate 11 2020 2 29 23 59 8 123456)]); ([12], [None; None; Some SZero])].
Definition some_args : list stmt_arg := [AInt64 (-5); ANil; AString (replicate 70 65)].
Definition some_stmt : mysqlStmt := mk_stmt true 9 3.
Definition statement_conn : mysqlConn :=
  mk_conn (newBuffer [(wire 1 (binary_resultset some_columns some_fields some_binary_rows (0, 34) (1, 2)), None)]) [] [] false 0 0 (mk_cfg false false false false)
    200 200 0 0 false false false.
Lemma execute_result_witness : ∃ packets mc1 mc2,
  stmt_query (fun _ => None) (fun _ => false) (fun _ => None) (fun n => n) some_stmt some_args statement_conn = Ret (inl (mk_rows true some_fields false), mc1) ∧
  out mc1 = commands packets ∧ server_reads 9 3 ∅ packets = Some [PInt (-5); PNull; PText (replicate 70 65)] ∧
  binary_fetch 3 false (mk_rows true some_fields false) mc1
    = Ret (inl ([[BInt64 (-7); BBytes (B "x"); BBytes (B "2020-02-29 23:59:08.123")]; [BNull; BNull; BBytes (B "0000-00-00 00:00:00.000")]],
                ErrEOF, mk_rows false some_fields true), mc2) ∧
  readable mc2 [] ∧ status mc2 = 2.
Proof.
  assert ((fun r : bytes * list (option svalue) => zip_with (value_cell false) some_fields r.2) <$> some_binary_rows
    = [[BInt64 (-7); BBytes (B "x"); BBytes (B "2020-02-29 23:59:08.123")]; [BNull; BNull; BBytes (B "0000-00-00 00:00:00.000")]]) as Hcells by (vm_compute; reflexivity).
  destruct (execute_result (fun _ => None) (fun _ => false) (fun _ => None) (fun n => n) some_stmt some_args some_columns some_binary_rows false (0, 34) (1, 2) [] statement_conn)
    as (packets & mc1 & mc2 & H1 & H2 & H3 & H4 & H5 & H6).
  - reflexivity.
  - reflexivity.
  - reflexivity.
  - repeat constructor; vm_compute; congruence.
  - split; reflexivity.
  - reflexivity.
  - reflexivity.
  - vm_compute. congruence.
  - vm_compute. congruence.
  - vm_compute. congruence.
  - discriminate.
  - vm_compute. congruence.
  - repeat constructor; vm_compute; congruence.
  - apply Forall_cons; split; [|apply Forall_singleton]; split.
    + apply Forall2_cons. split; [eexists; split; [reflexivity|]; vm_compute; split; congruence|]. apply Forall2_cons. split; [split; vm_compute; congruence|].
      apply Forall2_cons. split; [|constructor]. cbn [svalue_ok]. split_and!; try (vm_compute; congruence); try lia; auto.
    + reflexivity.
    + intros [|[|[|i]]] v [= <-]; vm_compute; reflexivity.
    + vm_compute. congruence.
    + do 2 (apply Forall2_cons; split; [done|]). apply Forall2_cons. split; [|constructor]. split; vm_compute; congruence.
    + reflexivity.
    + intros [|[|[|i]]] v [= <-]; vm_compute; reflexivity.
    + vm_compute. congruence.
  - vm_compute. split; congruence.
  - split; [vm_compute; reflexivity|apply valid_newBuffer|reflexivity].
  - exists packets, mc1, mc2. split; [exact H1|]. split; [exact H2|]. split; [exact H3|]. split; [rewrite <-Hcells; exact H4|]. split; [exact H5|exact H6].
Defined.

(** *** Results behind a result without columns, and behind the last row *)

Definition ok_packet (st : Z) : bytes := [0; 0; 0] ++ le_bytes 2 st ++ [0; 0].
Definition answers (ps : list bytes) : mysqlConn :=
  mk_conn (newBuffer [(wire 1 ps, None)]) [] [] false 0 0 (mk_cfg false false false false) 4096 4096 0 0 false false false.
(** A statement whose first result has no columns: the rows are not attached to the connection, so
    the results that follow, which the status announces, are never read. *)
Lemma following_results_unread :
  ∃ mc, stmt_query (fun _ => None) (fun _ => false) (fun _ => None) (fun n => n) (mk_stmt true 9 0) []
          (answers (ok_packet 8 :: binary_resultset [number_column] [field_of false number_column] [([0], [Some (SInt 7)])] (0, 2) (0, 2))) = Ret (inl (mk_rows false [] true), mc) ∧
    status mc = 8 ∧ stream (world mc) = wire 2 (binary_resultset [number_column] [field_of false number_column] [([0], [Some (SInt 7)])] (0, 2) (0, 2)).
Proof. eexists. split; [vm_compute; reflexivity|]. split; vm_compute; reflexivity. Qed.
(** After the last row of a result that is followed by another, [Next] of the text protocol keeps
    answering that there are no more rows; in the binary protocol it takes the header of the next
    result for a row, and gives up the connection. *)
Lemma next_past_the_end : let rows := mk_rows true [field_of false number_column] true in
  let mc := set_sequence 1 (answers (binary_resultset [number_column] [field_of false number_column] [] (0, 2) (0, 2))) in
  Next tt (fun _ _ => None) id false rows mc = Ret (inl (inr ErrEOF, rows), mc) ∧
  ∃ mc', binary_Next false rows mc = Ret (inl (inr ErrMalformPkt, mk_rows false [field_of false number_column] true), mc').
Proof. split; [vm_compute; reflexivity|]. eexists. vm_compute. reflexivity. Qed.
