(* ===== verification/MysqlInterpolateProps.v ===== *)
(** * Client-side interpolation ([mysql/connection.go])

    [interpolateParams] puts a literal for every question mark, and the literal of a string
    is scanned by the server as exactly that string. *)

From S2P Require Import Prelude GoStrings MysqlUtils MysqlUtilsProps MysqlBuffer MysqlConn Mysql MysqlQuery.

Section Interpolate.
Context (spare : bytes → bytes).

(** The literal of an argument, for arguments that have one *)
Definition literal (noBackslash : bool) (arg : driver_value) : option bytes :=
  match arg with
  | VNil | VBytes None => Some (B "NULL")
  | VInt64 n | VUint64 n => Some (Itoa n)
  | VFloat64 text => Some text
  | VBool b => Some (if b then B "1" else B "0")
  | VTime None => Some (B "'0000-00-00'")
  | VTime (Some d) => match time_text d with Ret t => Some t | Panic _ => None end
  | VBytes (Some v) => Some (B "_binary'" ++ (v ≫= escaped (pair_of (negb noBackslash))) ++ [39])
  | VString v => Some (39 :: (v ≫= escaped (pair_of (negb noBackslash))) ++ [39])
  | VOther => None
  end.

Lemma append_arg_literal nb buf arg l :
  literal nb arg = Some l → append_arg spare nb buf arg = Ret (Some (buf ++ l)).
Proof.
  destruct arg as [|n|n|t|b|[d|]|[v|]|v|]; cbn [literal append_arg]; intros E; try discriminate; try (by injection E as <-).
  - destruct (time_text d); [|done]. by injection E as <-.
  - injection E as <-. unfold escapeBytesQuotes, escapeBytesBackslash.
    destruct nb; rewrite escape_spec; cbn [gbind negb pair_of]; by rewrite <- !(assoc_L (++)).
  - injection E as <-. unfold escapeStringQuotes, escapeStringBackslash.
    destruct nb; rewrite escape_spec; cbn [gbind negb pair_of]; by rewrite <- !(assoc_L (++)).
Qed.

(** The query with its question marks replaced, from left to right *)
Fixpoint interleave (query : bytes) (ls : list bytes) : bytes :=
  match query with
  | [] => []
  | c :: q =>
      if c =? 63 then match ls with l :: ls' => l ++ interleave q ls' | [] => [] end
      else c :: interleave q ls
  end.

Lemma interleave_before before q ls :
  63 ∉ before → interleave (before ++ q) ls = before ++ interleave q ls.
Proof.
  induction before as [|c before IH]; intros Hn; [done|]. apply not_elem_of_cons in Hn as [Hc Hn].
  cbn [app interleave]. rewrite (proj2 (Z.eqb_neq c 63)) by done. by rewrite IH.
Qed.

Lemma interleave_none q ls : 63 ∉ q → interleave q ls = q.
Proof. intros Hn. rewrite <- (app_nil_r q) at 1. rewrite interleave_before by done. apply app_nil_r. Qed.

Lemma count_marks_app a b : count_marks (a ++ b) = count_marks a + count_marks b.
Proof. unfold count_marks. by rewrite filter_app, len_app. Qed.

Lemma count_marks_none q : 63 ∉ q → count_marks q = 0.
Proof.
  intros Hn. unfold count_marks. induction q as [|c q IH]; [done|]. apply not_elem_of_cons in Hn as [Hc Hn].
  rewrite filter_cons_False by done. by apply IH.
Qed.

(** The first question mark, if there is one *)
Lemma Index_mark s :
  (Index s [63] = -1 ∧ 63 ∉ s) ∨
  (∃ before after, s = before ++ (63 :: after) ∧ (63 ∉ before) ∧ Index s [63] = len before).
Proof.
  induction s as [|c s IH].
  - left. split; [done|]. apply not_elem_of_nil.
  - cbn [Index HasPrefix]. destruct (Z.eqb_spec 63 c) as [<-|Hc].
    + right. exists [], s. split_and!; [done|apply not_elem_of_nil|]. by destruct s.
    + replace (c =? 63) with false by (symmetry; apply Z.eqb_neq; done). cbn [andb].
      destruct IH as [[Hi Hn]|(before & after & -> & Hn & Hi)]; rewrite Hi.
      * left. split; [done|]. apply not_elem_of_cons. auto.
      * right. exists (c :: before), after. split_and!; [done|apply not_elem_of_cons; auto|].
        pose proof (len_nonneg before). rewrite len_cons. destruct (Z.eqb_spec (len before) (-1)); lia.
Qed.

Lemma go_index_drop {A} (l : list A) x i rest : drop (Z.to_nat i) l = x :: rest → 0 ≤ i → go_index l i = Ret x.
Proof.
  intros Hd Hi. rewrite <- (take_drop (Z.to_nat i) l), Hd.
  assert (i = len (take (Z.to_nat i) l)) as E.
  { pose proof (f_equal length Hd) as Hl. rewrite length_drop in Hl. simpl in Hl. unfold len. rewrite length_take. lia. }
  rewrite E at 2. apply go_index_mid.
Qed.

Lemma interpolate_loop_spec fuel : ∀ nb maxAllowed pre rest args argPos buf ls,
  (length rest < fuel)%nat → 0 ≤ argPos →
  Forall2 (fun arg l => literal nb arg = Some l) (drop (Z.to_nat argPos) args) ls →
  count_marks rest = len ls → len (buf ++ interleave rest ls) + 4 ≤ maxAllowed →
  interpolate_loop spare fuel nb maxAllowed (pre ++ rest) (len pre) args argPos buf
  = Ret (Some (buf ++ interleave rest ls, argPos + len ls)).
Proof.
  induction fuel as [|fuel IH]; intros nb maxAllowed pre rest args argPos buf ls Hf Hpos Hls Hc Hmax; [lia|].
  cbn [interpolate_loop]. rewrite len_app. pose proof (len_nonneg rest).
  destruct (Z.leb_spec (len pre + len rest) (len pre)) as [Hle|Hgt].
  - assert (rest = []) as -> by (apply length_zero_iff_nil; unfold len in *; lia).
    assert (ls = []) as -> by (apply length_zero_iff_nil; unfold count_marks, len in Hc; simpl in Hc; lia).
    cbn [interleave]. rewrite app_nil_r. unfold len at 1. by rewrite Z.add_0_r.
  - rewrite <- len_app, go_slice_tail. cbn [gbind].
    destruct (Index_mark rest) as [[-> Hn]|(before & after & -> & Hn & ->)].
    + rewrite (count_marks_none rest Hn) in Hc. assert (ls = []) as -> by (apply length_zero_iff_nil; unfold len in Hc; lia).
      rewrite interleave_none by done. cbn [Z.eqb Pos.eqb]. unfold len at 1. by rewrite Z.add_0_r.
    + pose proof (len_nonneg before). rewrite (proj2 (Z.eqb_neq (len before) (-1))) by lia.
      rewrite go_slice_mid. cbn [gbind].
      change (63 :: after) with ([63] ++ after) in Hc. rewrite !count_marks_app, (count_marks_none before Hn) in Hc.
      change (count_marks [63]) with 1 in Hc.
      destruct ls as [|l ls]; [pose proof (len_nonneg (filter (fun c => c = 63) after)); unfold count_marks in Hc; unfold len in *; simpl in *; lia|].
      rewrite len_cons in Hc. rewrite interleave_before in * by done.
      cbn [interleave] in *. rewrite Z.eqb_refl in *.
      inversion Hls as [|arg l' args' ls' Hl Hrest Ea El]; subst.
      rewrite (go_index_drop args arg argPos args') by done. cbn [gbind].
      rewrite (append_arg_literal _ _ _ _ Hl). cbn [gbind].
      replace (maxAllowed <? len ((buf ++ before) ++ l) + 4) with false.
      2:{ symmetry. apply Z.ltb_ge. rewrite !len_app in *. pose proof (len_nonneg (interleave after ls)). lia. }
      rewrite andb_false_r. replace (len pre + len before + 1) with (len (pre ++ before ++ [63])) by (rewrite !len_app; unfold len at 3; simpl; lia).
      replace (pre ++ before ++ 63 :: after) with ((pre ++ before ++ [63]) ++ after) by (by rewrite <- !(assoc_L (++))).
      rewrite (IH _ _ _ _ _ _ _ ls); [|rewrite length_app in Hf; simpl in Hf; lia|lia| |lia|].
      * rewrite len_cons, <- !(assoc_L (++)). do 3 f_equal. lia.
      * replace (Z.to_nat (argPos + 1)) with (Z.to_nat argPos + 1)%nat by lia. rewrite <- drop_drop, <- Ea. exact Hrest.
      * rewrite !len_app in *. lia.
Qed.

(** interpolateParams replaces each question mark by the literal of its argument, in
    order, when there are as many as arguments and the result fits a packet. *)
Theorem interpolateParams_spec query args ls mc :
  let nb := negb (Z.land (status mc) statusNoBackslashEscapes =? 0) in
  Forall2 (fun arg l => literal nb arg = Some l) args ls → count_marks query = len args →
  b_length (bb (world mc)) = 0 → len (interleave query ls) + 4 ≤ maxAllowedPacket mc →
  interpolateParams spare query args mc = Ret (inl (interleave query ls), mc).
Proof.
  intros nb Hls Hc Hb Hmax. unfold interpolateParams. fold nb. rewrite Hc, Z.eqb_refl. cbn [negb].
  unfold takeCompleteBuffer. rewrite Hb. cbn [Z.ltb Z.compare].
  assert (len ls = len args) as Hl by (unfold len; by rewrite (Forall2_length _ _ _ Hls)).
  pose proof (interpolate_loop_spec (S (length query)) nb (maxAllowedPacket mc) [] query args 0 [] ls) as H.
  cbn [app] in H. change (len (@nil Z)) with 0 in H. rewrite H; [|lia|lia|done|lia|done].
  cbn [gbind]. by rewrite Z.add_0_l, Hl, Z.eqb_refl.
Qed.

(** A count that differs from the arguments is left to a prepared statement. *)
Lemma interpolateParams_mismatch query args mc :
  count_marks query ≠ len args → interpolateParams spare query args mc = Ret (inr ErrSkip, mc).
Proof. intros Hc. unfold interpolateParams. by rewrite (proj2 (Z.eqb_neq _ _)). Qed.

(** *** The server reads the query *)

(** The bytes of a query outside of literals, and its literals.  The scanner is for queries
    without other quotes and without comments, and for character sets in which a byte below 128
    is always a character of its own. *)
Inductive token := Byte (c : Z) | Lit (v : bytes).
Definition starts_comment (c : Z) (rest : bytes) : bool :=
  (c =? 35) || (c =? 45) && bool_decide (head rest = Some 45) || (c =? 47) && bool_decide (head rest = Some 42).
Fixpoint lex (fuel : nat) (backslash : bool) (s : bytes) : option (list token) :=
  match fuel, s with
  | O, _ => None
  | _, [] => Some []
  | S k, c :: rest =>
      if c =? 39 then match scan_string backslash rest with Some (v, rest) => cons (Lit v) <$> lex k backslash rest | None => None end
      else if (c =? 34) || (c =? 96) || starts_comment c rest then None
      else cons (Byte c) <$> lex k backslash rest
  end.

(** A query without quotes and comments, in which no two question marks are neighbours *)
Fixpoint marks_ok (query : bytes) : bool :=
  match query with
  | [] => true
  | c :: q => negb ((c =? 39) || (c =? 34) || (c =? 96) || starts_comment c q || (c =? 63) && bool_decide (head q = Some 63)) && marks_ok q
  end.

(** String and byte arguments, and what is to stand for their question marks *)
Inductive text_arg := TString (v : bytes) | TBytes (v : bytes).
Definition text_value (a : text_arg) : driver_value := match a with TString v => VString v | TBytes v => VBytes (Some v) end.
Definition text_tokens (a : text_arg) : list token := match a with TString v => [Lit v] | TBytes v => (Byte <$> B "_binary") ++ [Lit v] end.
Fixpoint replaced (query : bytes) (args : list text_arg) : list token :=
  match query with
  | [] => []
  | c :: q => if c =? 63 then match args with a :: args' => text_tokens a ++ replaced q args' | [] => [] end else Byte c :: replaced q args
  end.

Definition text_literal (nb : bool) (a : text_arg) : bytes :=
  match a with TString _ => [] | TBytes _ => B "_binary" end ++
  39 :: (match a with TString v | TBytes v => v end ≫= escaped (pair_of (negb nb))) ++ [39].
Lemma text_literal_of nb a : literal nb (text_value a) = Some (text_literal nb a).
Proof. by destruct a. Qed.

Lemma lex_plain backslash p : ∀ k s, Forall (fun c => c ∉ [39; 34; 96; 35; 45; 47]) p →
  lex (length p + k) backslash (p ++ s) = app (Byte <$> p) <$> lex k backslash s.
Proof.
  induction p as [|c p IH]; intros k s Hp; [by cbn; destruct (lex k backslash s)|]. apply Forall_cons in Hp as [Hc Hp].
  cbn [length app lex Nat.add]. unfold starts_comment. rewrite !(proj2 (Z.eqb_neq c _)) by set_solver. cbn [orb andb].
  rewrite IH by done. by destruct (lex k backslash s).
Qed.
Lemma lex_text nb a fuel s : head s ≠ Some 39 → (length (text_literal nb a ++ s) < fuel)%nat →
  ∃ k, (length s < k)%nat ∧ lex fuel (negb nb) (text_literal nb a ++ s) = app (text_tokens a) <$> lex k (negb nb) s.
Proof.
  intros Hs Hf. assert (∀ (v : bytes) k, lex (S k) (negb nb) ((39 :: (v ≫= escaped (pair_of (negb nb))) ++ [39]) ++ s) = cons (Lit v) <$> lex k (negb nb) s) as Hl.
  { intros v k'. cbn [app lex]. rewrite Z.eqb_refl, <- (assoc_L (++)). cbn [app]. by rewrite scan_escaped. }
  destruct a as [v|v]; unfold text_literal, text_tokens in *; rewrite !length_app in Hf; cbn [length] in Hf; rewrite length_app in Hf.
  - rewrite app_nil_l. destruct fuel as [|k]; [lia|]. exists k. split; [simpl in Hf; lia|]. by rewrite Hl.
  - rewrite <- (assoc_L (++) (B "_binary")). change (length (B "_binary")) with 7%nat in Hf.
    replace fuel with (length (B "_binary") + S (fuel - 8))%nat by (change (length (B "_binary")) with 7%nat; lia).
    exists (fuel - 8)%nat. split; [simpl in Hf; lia|]. rewrite lex_plain, Hl; [by destruct (lex _ _ s)|].
    apply (bool_decide_unpack _). vm_compute. exact I.
Qed.

(** What comes first when a query is interpolated *)
Lemma head_interleave nb q (args : list text_arg) d :
  count_marks q = len args → head (interleave q (text_literal nb <$> args)) = Some d → (head q = Some 63 ∧ (d = 39 ∨ d = 95)) ∨ head q = Some d.
Proof.
  destruct q as [|c q]; [done|]. cbn [interleave head]. destruct (Z.eqb_spec c 63) as [->|Hc].
  - destruct args as [|a args]; [done|]. intros _. destruct a; cbn; intros [= <-]; auto.
  - intros _ [= ->]. by right.
Qed.

Lemma lex_interleave nb q : ∀ (args : list text_arg) fuel,
  marks_ok q = true → count_marks q = len args → (length (interleave q (text_literal nb <$> args)) < fuel)%nat →
  lex fuel (negb nb) (interleave q (text_literal nb <$> args)) = Some (replaced q args).
Proof.
  induction q as [|c q IH]; intros args fuel Hq Hc Hf; (destruct fuel as [|fuel]; [lia|]); [done|].
  cbn [marks_ok] in Hq. apply andb_true_iff in Hq as [Hq Hqs]. apply negb_true_iff in Hq. rewrite !orb_false_iff in Hq. destruct Hq as [[[[H39 H34] H96] Hcom] H63].
  change (c :: q) with ([c] ++ q) in Hc. rewrite count_marks_app in Hc. cbn [interleave replaced] in *. destruct (Z.eqb_spec c 63) as [->|Hne].
  - change (count_marks [63]) with 1 in Hc. cbn [andb] in H63. apply bool_decide_eq_false in H63.
    destruct args as [|a args]; [unfold count_marks, len in Hc; simpl in Hc; lia|]. rewrite len_cons in Hc. cbn [fmap list_fmap] in *.
    destruct (lex_text nb a (S fuel) (interleave q (text_literal nb <$> args))) as (k & Hk & ->); [|done|by rewrite IH by (done || lia)].
    intros Hh. apply (head_interleave nb q args) in Hh as [[Hh _]|Hh]; [done| |lia].
    destruct q as [|d q]; [done|]. injection Hh as ->. done.
  - rewrite (count_marks_none [c]) in Hc by set_solver. cbn [lex]. rewrite H39, H34, H96. cbn [orb].
    assert (starts_comment c (interleave q (text_literal nb <$> args)) = false) as ->; [|by rewrite IH by (done || (cbn in Hf; lia))].
    unfold starts_comment in *. rewrite !orb_false_iff, !andb_false_iff, !bool_decide_eq_false in *. destruct Hcom as [[H35 H45] H47].
    split; [split; [done|]|].
    + destruct H45 as [?|H45]; [by left|right]. intros Hh. apply (head_interleave nb q args) in Hh as [[_ Hh]|Hh]; [lia|done|lia].
    + destruct H47 as [?|H47]; [by left|right]. intros Hh. apply (head_interleave nb q args) in Hh as [[_ Hh]|Hh]; [lia|done|lia].
Qed.

(** C21: String and byte arguments interpolated into a query cannot break out: for a query
    without quotes and comments in which no two question marks are neighbours, with as many
    marks as arguments and a result that fits a packet, interpolateParams returns a query in
    which a scanner of MySQL string literals, in both escaping modes, finds the bytes of the
    query with one literal in place of each mark, whose value is exactly the argument. The
    scanner works byte by byte, so that this is for character sets like utf8 and latin1, not
    for BIG5, GBK or SJIS. *)
Theorem interpolated_query_scans query (args : list text_arg) mc :
  let nb := negb (Z.land (status mc) statusNoBackslashEscapes =? 0) in
  marks_ok query = true → count_marks query = len args → b_length (bb (world mc)) = 0 →
  len (interleave query (text_literal nb <$> args)) + 4 ≤ maxAllowedPacket mc →
  ∃ q, interpolateParams spare query (text_value <$> args) mc = Ret (inl q, mc) ∧
       lex (S (length q)) (negb nb) q = Some (replaced query args).
Proof.
  intros nb Hq Hc Hb Hmax. exists (interleave query (text_literal nb <$> args)). split.
  - apply interpolateParams_spec; [|unfold len in *; by rewrite length_fmap|done|done]. fold nb. clear.
    induction args as [|a args IH]; constructor; [apply text_literal_of|done].
  - apply lex_interleave; [done..|lia].
Qed.
End Interpolate.

Definition idle_conn : mysqlConn :=
  mk_conn (newBuffer []) [] [] false 0 0 (mk_cfg true false false false) 1000 1000 2 0 false false false.

(** An attempt to close the literal early is kept inside it. *)
Lemma interpolated_query_scans_witness :
  ∃ q, interpolateParams (fun _ => []) (B "a=? AND b=?") [VString (B "x' OR '1"); VBytes (Some (B "\"))] idle_conn = Ret (inl q, idle_conn) ∧
       lex (S (length q)) true q = Some ((Byte <$> B "a=") ++ [Lit (B "x' OR '1")] ++ (Byte <$> B " AND b=_binary") ++ [Lit (B "\")]).
Proof.
  apply (interpolated_query_scans (fun _ => []) (B "a=? AND b=?") [TString (B "x' OR '1"); TBytes (B "\")] idle_conn);
    [reflexivity|reflexivity|reflexivity|vm_compute; discriminate].
Defined.
(** Inside quotes a question mark is replaced as well, and ends the literal around it; a literal
    that touches another one is read as one. *)
Example mark_in_quotes :
  interpolateParams (fun _ => []) (B "a='?'") [VString (B " OR 1=1 OR ")] idle_conn = Ret (inl (B "a='' OR 1=1 OR ''"), idle_conn).
Proof. vm_compute. reflexivity. Qed.
Example neighbours_merge :
  ∃ q, interpolateParams (fun _ => []) (B "??") [VString (B "a"); VString (B "b")] idle_conn = Ret (inl q, idle_conn) ∧ lex 9 true q = Some [Lit (B "a'b")].
Proof. eexists. split; [vm_compute; reflexivity|]. vm_compute. reflexivity. Qed.

Lemma interpolateParams_spec_witness :
  interpolateParams (fun _ => []) (B "a=? AND b=?") [VInt64 (-5); VString (B "it's")] idle_conn
  = Ret (inl (B "a=-5 AND b='it\'s'"), idle_conn).
Proof.
  apply (interpolateParams_spec (fun _ => []) (B "a=? AND b=?") [VInt64 (-5); VString (B "it's")] [B "-5"; B "'it\'s'"] idle_conn);
    [repeat constructor|reflexivity|reflexivity|vm_compute; discriminate].
Defined.
