(* ===== verification/MysqlAuthProps.v ===== *)
(** * Logging in ([mysql/auth.go], [mysql/packets.go])

    A server that greets with a cipher and stores the double hash of the password: whatever
    the pieces in which its packets arrive, the client answers with a response the server can
    read, whose token it accepts, and the connection is ready for commands. *)

From S2P Require Import Prelude GoStrings MysqlUtils MysqlUtilsProps MysqlDsn MysqlBuffer MysqlBufferProps MysqlConn MysqlPacketProps Mysql MysqlQuery MysqlQueryProps MysqlAuth.
Open Scope mc_scope.

(** ** A conversation

    The server waits for the response before it sends more.  What has not been sent yet does
    not change what is read before it, so the buffer is empty when the client answers. *)

(** [w] with [n2] arriving after all the rest *)
Definition later (n2 : reads) (w : bworld) : bworld := set_net (net w ++ n2) w.

(** Every array has at least the initial size. *)
Definition roomy (w : bworld) : Prop := Forall (fun a => defaultBufSize ≤ len a) (arrays w).

Lemma roomy_set_arr i a w : roomy w → len a = len (arr w i) → (i < length (arrays w))%nat → roomy (set_arr i a w).
Proof.
  intros Hr Ha Hi. apply Forall_insert; [done|]. rewrite Ha. unfold arr.
  destruct (lookup_lt_is_Some_2 _ _ Hi) as [x Hx]. rewrite Hx. by apply (Forall_lookup_1 _ _ _ _ Hr Hx).
Qed.

Lemma roomy_arr w : roomy w → valid w → defaultBufSize ≤ len (arr w (b_buf (bb w))).
Proof.
  intros Hr Hv. destruct (lookup_lt_is_Some_2 _ _ (valid_buf _ Hv)) as [x Hx]. unfold arr. rewrite Hx.
  by apply (Forall_lookup_1 _ _ _ _ Hr Hx).
Qed.

Lemma len_go_copy {A} (l : list A) a b src l' : go_copy l a b src = Ret l' → len l' = len l.
Proof.
  unfold go_copy. destruct (_ && _) eqn:E; [|done]. intros [= <-]. unfold len in *.
  rewrite !length_app, !length_take, length_drop. lia.
Qed.

Lemma fill_loop_later n2 k : ∀ k' need n w w',
  (k ≤ k')%nat → n < need → fill_loop k need n w = Ret (None, w') → fill_loop k' need n (later n2 w) = Ret (None, later n2 w').
Proof.
  induction k as [|k IH]; intros [|k'] need n w w' Hk Hn Hf; try done; [lia|].
  cbn [fill_loop] in *. change (arr (later n2 w) (b_buf (bb (later n2 w)))) with (arr w (b_buf (bb w))).
  change (bb (later n2 w)) with (bb w).
  destruct (go_slice _ _ _) as [room|]; [|done]. cbn [gbind] in *.
  destruct (net w) as [|[d e] n'] eqn:En.
  { cbn [net_read] in Hf. destruct (go_copy _ _ _ _); [|done]. cbn [gbind] in Hf.
    change (len []) with 0 in Hf. rewrite Z.add_0_r, (proj2 (Z.leb_gt need n)) in Hf by lia. done. }
  change (net (later n2 w)) with (net w ++ n2). rewrite En. cbn [app net_read] in *.
  destruct (length d <=? length room)%nat; (destruct (go_copy _ _ _ _) as [a|]; [|done]); cbn [gbind] in *.
  - destruct e as [[]|]; try done.
    + destruct (_ <=? _); [|done]. injection Hf as <-. done.
    + destruct (Z.ltb_spec (n + len d) need); [|by injection Hf as <-].
      exact (IH k' need _ (set_net n' (set_arr _ a w)) w' ltac:(lia) ltac:(done) Hf).
  - destruct (Z.ltb_spec (n + len (take (length room) d)) need); [|by injection Hf as <-].
    exact (IH k' need _ (set_net ((drop (length room) d, e) :: n') (set_arr _ a w)) w' ltac:(lia) ltac:(done) Hf).
Qed.

Lemma fill_later n2 need w w' :
  b_length (bb w) < need → fill need w = Ret (None, w') → fill need (later n2 w) = Ret (None, later n2 w').
Proof.
  unfold fill. intros Hl. change (bb (later n2 w)) with (bb w). change (arr (later n2 w) (b_buf (bb w))) with (arr w (b_buf (bb w))).
  assert (destination need (later n2 w) = ((destination need w).1, later n2 (destination need w).2)) as ->.
  { unfold destination. change (bb (later n2 w)) with (bb w). change (arr (later n2 w)) with (arr w).
    cbn [alloc]. repeat case_match; simplify_eq; done. }
  destruct (destination need w) as [dest w1]. cbn [fst snd].
  change (bb (later n2 w1)) with (bb w1). change (arr (later n2 w1) dest) with (arr w1 dest).
  assert (∀ w2 : bworld, fill_loop (net_fuel (net w2)) need (b_length (bb w)) w2 = Ret (None, w') →
    fill_loop (net_fuel (net w2 ++ n2)) need (b_length (bb w)) (later n2 w2) = Ret (None, later n2 w')) as Hloop.
  { intros w2. apply fill_loop_later; [unfold net_fuel; rewrite length_app; lia|done]. }
  destruct (0 <? b_length (bb w)).
  - destruct (go_slice _ _ _) as [s|]; [|done]. cbn [gbind]. destruct (go_copy _ _ _ _) as [a|]; [|done]. cbn [gbind].
    exact (Hloop (set_bb _ (set_arr dest a w1))).
  - exact (Hloop (set_bb _ w1)).
Qed.

Lemma readNext_later n2 need w d w' :
  readNext need w = Ret (inl d, w') → readNext need (later n2 w) = Ret (inl d, later n2 w').
Proof.
  unfold readNext. change (bb (later n2 w)) with (bb w). destruct (Z.ltb_spec (b_length (bb w)) need) as [Hl|Hl].
  - destruct (fill need w) as [[[e|] w1]|] eqn:Hf; try done. rewrite (fill_later n2 need w w1 Hl Hf). cbn [gbind].
    change (bb (later n2 w1)) with (bb w1). intros H.
    change (arr _ (b_buf (bb w1))) with (arr w1 (b_buf (bb w1))) in H |- *.
    destruct (go_slice _ _ _); [|done]. by injection H as <- <-.
  - cbn [gbind]. intros H.
    change (arr _ (b_buf (bb w))) with (arr w (b_buf (bb w))) in H |- *.
    destruct (go_slice _ _ _); [|done]. by injection H as <- <-.
Qed.

(** Reads without an error *)
Definition quiet (n : reads) : Prop := Forall (fun x => x.2 = None) n.
Definition calm (w : bworld) : Prop := roomy w ∧ quiet (net w).

Lemma quiet_ok n : quiet n → net_ok n = true.
Proof. induction 1 as [|[d e] n He _ IH]; [done|]. simpl in He. by subst. Qed.

Lemma quiet_incoming n n2 : quiet n → incoming (n ++ n2) = incoming n ++ incoming n2.
Proof. induction 1 as [|[d e] n He _ IH]; [done|]. simpl in He. subst. cbn. by rewrite IH, (assoc_L (++)). Qed.

Lemma quiet_net_ok n n2 : quiet n → net_ok (n ++ n2) = net_ok n2.
Proof. induction 1 as [|[d e] n He _ IH]; [done|]. simpl in He. by subst. Qed.

Lemma net_read_quiet room n d e n' : quiet n → net_read room n = (d, e, n') → quiet n'.
Proof.
  intros Hq. destruct Hq as [|[d0 e0] n He Hq]; [intros [= _ _ <-]; constructor|]. cbn [net_read]. 
  destruct (_ <=? _)%nat; intros [= _ _ <-]; [done|]. by constructor.
Qed.

Lemma fill_loop_calm k : ∀ need n w r w',
  calm w → (b_buf (bb w) < length (arrays w))%nat → fill_loop k need n w = Ret (r, w') → calm w'.
Proof.
  induction k as [|k IH]; intros need n w r w' [Hr Hq] Hb; cbn [fill_loop]; [by intros [= _ <-]|].
  destruct (go_slice _ _ _) as [room|]; [|done]. cbn [gbind].
  destruct (net_read _ _) as [[d e] n'] eqn:En. apply net_read_quiet in En; [|done]. destruct (go_copy _ _ _ _) as [a|] eqn:Ea; [|done]. cbn [gbind].
  pose proof (roomy_set_arr _ a w Hr (len_go_copy _ _ _ _ _ Ea) Hb) as Hr'.
  assert (calm (set_net n' (set_arr (b_buf (bb w)) a w))) as Hc by done.
  destruct e as [[]|]; try (by intros [= _ <-]).
  - destruct (_ <=? _); by intros [= _ <-].
  - destruct (_ <? _); [|by intros [= _ <-]]. apply IH; [exact Hc|]. simpl. by rewrite length_insert.
Qed.

Lemma destination_roomy need w :
  roomy w → valid w → roomy (destination need w).2 ∧ ((destination need w).1 < length (arrays (destination need w).2))%nat ∧
  net (destination need w).2 = net w.
Proof.
  intros Hr Hv. unfold destination. assert (∀ i, slot (bb w) = Some i → (i < length (arrays w))%nat) as Hs.
  { unfold slot. intros i. destruct (Z.odd _); [apply (valid_dbuf1 _ Hv)|apply (valid_dbuf0 _ Hv)]. }
  destruct (Z.ltb_spec (match slot (bb w) with Some i => len (arr w i) | None => 0 end) need) as [Hlt|Hge].
  - assert (roomy (alloc ((need / defaultBufSize + 1) * defaultBufSize) w).2) as Hra.
    { apply Forall_app. split; [done|]. constructor; [|done]. unfold len. rewrite length_replicate.
      assert (0 < need) by (destruct (slot _) as [i|]; [pose proof (len_nonneg (arr w i)); lia|lia]).
      pose proof (Z.div_pos need defaultBufSize ltac:(lia) ltac:(done)). unfold defaultBufSize in *. lia. }
    cbn [alloc] in *. destruct (_ <=? _); (split_and!; [exact Hra|simpl; rewrite length_app; simpl; lia|done]).
  - cbn [fst snd]. split_and!; [done| |done]. destruct (slot (bb w)) as [i|]; [by apply Hs|]. simpl. pose proof (valid_buf _ Hv). lia.
Qed.

Lemma readNext_calm need w r w' : valid w → calm w → readNext need w = Ret (r, w') → calm w'.
Proof.
  intros Hv [Hr Hq]. unfold readNext. destruct (_ <? _); cbn [gbind].
  - destruct (fill need w) as [[e w1]|] eqn:Hf; [|done]. cbn [gbind]. intros H. assert (calm w1) as Hr1.
    { clear H. revert Hf. unfold fill. pose proof (destination_roomy need w Hr Hv) as Hd.
      destruct (destination need w) as [i w2]. cbn [fst snd] in Hd. destruct Hd as (Hr2 & Hi & Hn2).
      destruct (0 <? _).
      - destruct (go_slice _ _ _) as [s|]; [|done]. cbn [gbind]. destruct (go_copy _ _ _ _) as [a|] eqn:Ea; [|done]. cbn [gbind].
        apply fill_loop_calm; [split; [exact (roomy_set_arr i a w2 Hr2 (len_go_copy _ _ _ _ _ Ea) Hi)|by simpl; rewrite Hn2]|]. simpl. by rewrite length_insert.
      - cbn [gbind]. apply fill_loop_calm; [|done]. split; [done|by simpl; rewrite Hn2]. }
    destruct e; [by injection H as <- <-|]. destruct (go_slice _ _ _); [|done]. by injection H as <- <-.
  - destruct (go_slice _ _ _); [|done]. by intros [= <- <-].
Qed.

(** [mc] with [n2] arriving after all the rest *)
Definition later_conn (n2 : reads) (mc : mysqlConn) : mysqlConn := set_world (later n2 (world mc)) mc.

Lemma next_later n2 need mc d mc' : next need mc = Ret (inl d, mc') → next need (later_conn n2 mc) = Ret (inl d, later_conn n2 mc').
Proof.
  unfold next. change (world (later_conn n2 mc)) with (later n2 (world mc)).
  destruct (readNext need (world mc)) as [[[r|e] w]|] eqn:Hr; try done; cbn [gbind].
  - intros [= <- <-]. by rewrite (readNext_later n2 _ _ _ _ Hr).
  - destruct (canceled _); [done|]. by destruct (conn_Close _) as [[]|].
Qed.

Lemma mbind_inv {A C} (m : MC A) (k : A → MC C) mc c mc' :
  mbind m k mc = Ret (inl c, mc') → ∃ a mc1, m mc = Ret (inl a, mc1) ∧ k a mc1 = Ret (inl c, mc').
Proof. unfold mbind. destruct (m mc) as [[[a|e] mc1]|]; try done. cbn [gbind]. eauto. Qed.

Lemma mgo_inv {A} (g : Go A) mc a mc' : mgo g mc = Ret (inl a, mc') → g = Ret a ∧ mc' = mc.
Proof. unfold mgo. destruct g; [|done]. cbn [gbind]. intros [= <- <-]. done. Qed.

Lemma read_loop_later n2 k : ∀ k' prev mc p mc',
  (k ≤ k')%nat → read_loop k prev mc = Ret (inl p, mc') → read_loop k' prev (later_conn n2 mc) = Ret (inl p, later_conn n2 mc').
Proof.
  induction k as [|k IH]; intros [|k'] prev mc p mc' Hk; try done; [lia|]. cbn [read_loop]. intros H.
  apply mbind_inv in H as (h & mc1 & Hh & H). rewrite (mbind_inl _ _ _ _ _ (next_later n2 _ _ _ _ Hh)). clear Hh.
  do 4 (apply mbind_inv in H as (? & ? & [Hd ->]%mgo_inv & H); rewrite Hd, (mbind_inl _ _ _ _ _ (mgo_ret _ _)); clear Hd).
  apply mbind_inv in H as (s & mc2 & Hs & H). injection Hs as <- <-. rewrite (mbind_inl _ _ (later_conn n2 mc1) (sequence mc1) (later_conn n2 mc1)) by done.
  destruct (negb _); [done|]. apply mbind_inv in H as (u & mc2 & Hs & H). injection Hs as <- <-.
  set (mc2 := set_sequence (uwrap 8 (sequence mc1 + 1)) mc1) in *.
  rewrite (mbind_inl _ _ (later_conn n2 mc1) tt (later_conn n2 mc2)) by done.
  destruct (_ =? 0).
  - destruct prev; [injection H as <- <-; done|]. apply mbind_inv in H as (? & ? & _ & ?). done.
  - apply mbind_inv in H as (body & mc3 & Hb & H). rewrite (mbind_inl _ _ _ _ _ (next_later n2 _ _ _ _ Hb)).
    destruct (_ <? _); [injection H as <- <-; done|]. by apply IH; [lia|].
Qed.

Lemma readPacket_later n2 mc p mc' : readPacket mc = Ret (inl p, mc') → readPacket (later_conn n2 mc) = Ret (inl p, later_conn n2 mc').
Proof.
  unfold readPacket. apply read_loop_later. unfold read_fuel, later_conn, later. simpl.
  enough (∀ n : reads, foldr (fun x k => length x.1 + k)%nat 0%nat n ≤ foldr (fun x k => length x.1 + k)%nat 0%nat (n ++ n2))%nat by (specialize (H (net (world mc))); lia).
  induction n as [|x n IH]; simpl; [lia|]. lia.
Qed.

(** Reading keeps the buffer in order. *)
Definition sane (w : bworld) : Prop := valid w ∧ calm w.

Lemma next_sane need mc d mc' : sane (world mc) → next need mc = Ret (inl d, mc') → sane (world mc').
Proof.
  intros [Hv Hc]. unfold next. destruct (readNext need (world mc)) as [[[r|e] w]|] eqn:Hr; try done; cbn [gbind];
    [|destruct (canceled _); [done|]; by destruct (conn_Close _) as [[]|]].
  intros [= <- <-]. pose proof (readNext_calm _ _ _ _ Hv Hc Hr) as Hc'. split; [|exact Hc'].
  destruct (decide (0 ≤ need)) as [Hn|Hn].
  - destruct (readNext_spec need (world mc) Hv (quiet_ok _ (proj2 Hc)) Hn) as (r' & w' & Hr' & Hs).
    rewrite Hr in Hr'. injection Hr' as <- <-. destruct (_ <=? _); [by destruct Hs as (_ & _ & ? & _)|by destruct Hs].
  - exfalso. unfold readNext in Hr. pose proof (valid_length _ Hv). rewrite (proj2 (Z.ltb_ge _ _)) in Hr by lia. cbn [gbind] in Hr.
    unfold go_slice in Hr. rewrite (proj2 (Z.leb_gt (b_idx _) (b_idx _ + need))) in Hr by lia. rewrite andb_false_r in Hr. done.
Qed.

Lemma read_loop_sane k : ∀ prev mc p mc', sane (world mc) → read_loop k prev mc = Ret (inl p, mc') → sane (world mc').
Proof.
  induction k as [|k IH]; intros prev mc p mc' Hs; [done|]. cbn [read_loop]. intros H.
  apply mbind_inv in H as (h & mc1 & Hh & H). apply next_sane in Hh as Hs1; [|done].
  do 4 (apply mbind_inv in H as (? & ? & [Hd ->]%mgo_inv & H); clear Hd).
  apply mbind_inv in H as (s & mc2 & Hq & H). injection Hq as <- <-.
  destruct (negb _); [done|]. apply mbind_inv in H as (u & mc2 & Hq & H). injection Hq as <- <-.
  destruct (_ =? 0).
  - destruct prev; [by injection H as <- <-|]. apply mbind_inv in H as (? & ? & _ & ?). done.
  - apply mbind_inv in H as (body & mc3 & Hb & H). apply next_sane in Hb; [|done].
    destruct (_ <? _); [by injection H as <- <-|]. by apply IH in H.
Qed.

(** A packet that arrives alone leaves an empty buffer, and what arrives later is all that can
    be read. *)
Lemma readPacket_alone p n2 mc :
  p ≠ [] → sane (world mc) → stream (world mc) = frames (sequence mc) p → net_ok n2 = true →
  ∃ w, readPacket (later_conn n2 mc) = Ret (inl p, set_sequence (seq_after (sequence mc) p) (set_world w mc)) ∧
       b_length (bb w) = 0 ∧ defaultBufSize ≤ len (arr w (b_buf (bb w))) ∧ readable (set_world w mc) (incoming n2).
Proof.
  intros Hp [Hv [Hr Hq]] Hs Hn2.
  destruct (readPacket_frames p [] mc Hp) as (w & Hw & Hrd); [split; [by rewrite app_nil_r|done|by apply quiet_ok]|].
  pose proof (read_loop_sane _ _ _ _ _ (conj Hv (conj Hr Hq)) Hrd) as [Hv' [Hr' Hq']]. simpl in Hv', Hr', Hq'.
  destruct Hw as [Hst _ _]. simpl in Hst. unfold stream in Hst. apply app_nil in Hst as [Hp0 Hi0].
  exists (later n2 w). split; [by rewrite (readPacket_later n2 _ _ _ Hrd)|].
  assert (b_length (bb w) = 0) as Hl.
  { pose proof (length_pending w Hv') as Hlen. rewrite Hp0 in Hlen. unfold len in Hlen. simpl in Hlen. lia. }
  split_and!; [done|exact (roomy_arr w Hr' Hv')|]. split; simpl; [|destruct Hv'; by split|by rewrite quiet_net_ok].
  unfold stream. change (pending (later n2 w)) with (pending w). rewrite Hp0. simpl. by rewrite quiet_incoming, Hi0.
Qed.

(** ** What the server does

    Its greeting, how it reads the response, and how it checks the token of the response
    against what it stores of the password, as the protocol documents them. *)

Record server_greeting := mk_greeting {
  g_version : bytes; g_connection : bytes; g_scramble : bytes; g_flags : Z; g_middle : bytes; g_plugin : bytes }.

(** Protocol::HandshakeV10 *)
Definition greeting (g : server_greeting) : bytes :=
  10 :: g_version g ++ 0 :: g_connection g ++ take 8 (g_scramble g) ++ 0 :: le_bytes 2 (g_flags g) ++
  g_middle g ++ drop 8 (g_scramble g) ++ 0 :: g_plugin g ++ [0].

Record greeting_ok (g : server_greeting) : Prop := {
  gok_version : 0 ∉ g_version g;
  gok_connection : length (g_connection g) = 4%nat;
  gok_scramble : length (g_scramble g) = 20%nat;
  gok_flags : uint_ok 16 (g_flags g);
  gok_41 : Z.land (g_flags g) clientProtocol41 ≠ 0;
  gok_middle : length (g_middle g) = 16%nat;
  gok_plugin : 0 ∉ g_plugin g;
  gok_size : len (greeting g) < maxPacketSize }.

(** A string up to its NUL, and what follows *)
Definition cstring (s : bytes) : option (bytes * bytes) :=
  let i := IndexByte s 0 in
  if i <? 0 then None else Some (take (Z.to_nat i) s, drop (Z.to_nat (i + 1)) s).

#[local] Arguments cstring : simpl never.

(** Protocol::HandshakeResponse41 *)
Record login := mk_login { l_charset : Z; l_user : bytes; l_token : bytes; l_db : bytes; l_plugin : bytes }.
Definition read_login (p : bytes) : option login :=
  let flags := le_uint (take 4 p) in
  charset ← p !! 8%nat;
  '(user, r) ← cstring (drop 32 p);
  '(token, r) ← (if Z.testbit flags 21
                 then match readLengthEncodedInteger r with
                      | Ret (n, _, k) => Some (sub r k (k + n), drop (Z.to_nat (k + n)) r)
                      | Panic _ => None
                      end
                 else match r with n :: r => Some (take (Z.to_nat n) r, drop (Z.to_nat n) r) | [] => None end);
  '(db, r) ← (if Z.testbit flags 3 then cstring r else Some ([], r));
  '(plugin, r) ← (if Z.testbit flags 19 then cstring r else Some ([], r));
  Some (mk_login charset user token db plugin).

Lemma IndexByte_end s r : 0 ∉ s → IndexByte (s ++ 0 :: r) 0 = len s.
Proof.
  induction s as [|x s IH]; intros Hs; [done|]. apply not_elem_of_cons in Hs as [Hx Hs]. cbn [IndexByte app].
  rewrite (proj2 (Z.eqb_neq x 0)), IH, len_cons by done. pose proof (len_nonneg s). rewrite (proj2 (Z.eqb_neq _ _)) by lia. lia.
Qed.

Lemma cstring_end s r : 0 ∉ s → cstring (s ++ 0 :: r) = Some (s, r).
Proof.
  intros Hs. unfold cstring. rewrite IndexByte_end by done. pose proof (len_nonneg s). rewrite (proj2 (Z.ltb_ge _ _)) by lia.
  rewrite len_to_nat, take_app_length. replace (Z.to_nat (len s + 1)) with (length s + 1)%nat by (unfold len; lia).
  by rewrite drop_app_add.
Qed.

Lemma go_slice_at {A} (data pre bs post : list A) a b :
  data = pre ++ bs ++ post → a = len pre → b = a + len bs → go_slice data a b = Ret bs.
Proof. intros -> -> ->. apply go_slice_mid. Qed.

(** ** The response *)

(** [pre] is written, and [n] bytes are left in the buffer. *)
Definition built (pre : bytes) (n : Z) (t : bytes * Z) : Prop := ∃ junk, t = (pre ++ junk, len pre) ∧ len junk = n.

Lemma put_byte_built b pre n t : built pre n t → 1 ≤ n → wp (put_byte b t) (built (pre ++ [b]) (n - 1)).
Proof.
  intros (junk & -> & <-) Hn. destruct junk as [|x junk]; [unfold len in Hn; simpl in Hn; lia|].
  unfold put_byte. cbn [fst snd]. rewrite go_set_mid. exists junk. split; [by rewrite len_app, <- (assoc_L (++))|rewrite len_cons; lia].
Qed.

Lemma put_bytes_built s pre n t : built pre n t → len s ≤ n → wp (put_bytes s t) (built (pre ++ s) (n - len s)).
Proof.
  intros (junk & -> & <-) Hn. unfold put_bytes. cbn [fst snd]. rewrite go_copy_mid by done.
  exists (drop (length s) junk). split; [f_equal; rewrite !len_app; lia|unfold len in *; rewrite length_drop; lia].
Qed.

Lemma put_all_built l : ∀ pre n t, built pre n t → len l ≤ n → wp (put_all l t) (built (pre ++ l) (n - len l)).
Proof.
  induction l as [|b l IH]; intros pre n t Ht Hn.
  - rewrite app_nil_r. change (len []) with 0. by rewrite Z.sub_0_r.
  - rewrite len_cons in Hn. pose proof (len_nonneg l). apply wp_bind. eapply wp_mono; [apply (put_byte_built _ _ _ _ Ht); lia|].
    intros t' Ht'. eapply wp_mono; [apply (IH _ _ _ Ht'); lia|]. intros t'' Ht''. rewrite <- (assoc_L (++)) in Ht''.
    by replace (n - len (b :: l)) with (n - 1 - len l) by (rewrite len_cons; lia).
Qed.

(** An empty string is not copied. *)
Lemma put_some_built s pre n t :
  built pre n t → len s ≤ n → wp (if 0 <? len s then put_bytes s t else Ret t) (built (pre ++ s) (n - len s)).
Proof.
  intros Ht Hn. destruct (Z.ltb_spec 0 (len s)); [by apply put_bytes_built|].
  destruct s as [|x s]; [|rewrite len_cons in *; pose proof (len_nonneg s); lia].
  rewrite app_nil_r. change (len []) with 0. by rewrite Z.sub_0_r.
Qed.

Section login.
Context {L K : Type} (SHA1 SHA256 : bytes → bytes) (EncryptOAEP : K → bytes → option bytes).
Context (pem_Decode : bytes → option bytes) (ParsePKIXPublicKey : bytes → option (option K)).
Context (tls_Client : tls_config → reads → option reads) (leftover : bytes) (spare : bytes → bytes).
Abbreviation Config := (Config (L := L) (K := K)).

(** The payload of the response *)
Definition response (c : Config) (flags id : Z) (authResp plugin : bytes) : bytes :=
  let lei := appendLengthEncodedInteger [] (len authResp) in
  le_bytes 4 (client_flags c flags (len lei)) ++ 0 :: 0 :: 0 :: 0 :: id :: replicate 23 0 ++ User c ++ 0 :: lei ++ authResp ++
  (if 0 <? len (DBName c) then DBName c ++ [0] else []) ++ plugin ++ [0].

Lemma client_flags_bits (c : Config) flags n :
  let f := client_flags c flags n in
  Z.testbit f 3 = (0 <? len (DBName c)) ∧ Z.testbit f 19 = true ∧ Z.testbit f 21 = (1 <? n).
Proof.
  unfold client_flags. cbn [foldl]. 
  split_and!; repeat case_match; rewrite ?Z.lor_spec, Z.land_spec; cbn; rewrite ?andb_false_r, ?orb_true_r, ?orb_false_r; done.
Qed.

(** The server reads back what the client sends. *)
Lemma read_response (c : Config) flags id authResp plugin :
  0 ∉ User c → 0 ∉ DBName c → 0 ∉ plugin → len authResp < 2 ^ 62 →
  read_login (response c flags id authResp plugin) = Some (mk_login id (User c) authResp (DBName c) plugin).
Proof.
  intros Hu Hd Hp Ha. unfold read_login, response. pose proof (len_nonneg authResp).
  set (lei := appendLengthEncodedInteger [] (len authResp)). set (f := client_flags c flags (len lei)).
  set (more := (if 0 <? len (DBName c) then _ else _) ++ plugin ++ [0]).
  destruct (client_flags_bits c flags (len lei)) as (F3 & F19 & F21). fold f in F3, F19, F21.
  rewrite (take_app_length' _ _ 4) by (symmetry; apply le_bytes_length). rewrite le_uint_le_bytes, !Z.mod_pow2_bits_low by lia.
  rewrite F3, F19, F21. rewrite lookup_app_r by (rewrite le_bytes_length; lia). rewrite le_bytes_length. cbn.
  rewrite drop_0, cstring_end by done. cbn.
  assert ((if 1 <? len lei
           then match readLengthEncodedInteger (lei ++ authResp ++ more) with
                | Ret (n, _, k) => Some (sub (lei ++ authResp ++ more) k (k + n), drop (Z.to_nat (k + n)) (lei ++ authResp ++ more))
                | Panic _ => None
                end
           else match lei ++ authResp ++ more with n :: r => Some (take (Z.to_nat n) r, drop (Z.to_nat n) r) | [] => None end)
          = Some (authResp, more)) as ->.
  { destruct (Z.ltb_spec 1 (len lei)) as [Hl|Hl].
    - unfold lei. rewrite read_append by (unfold uint_ok; simpl in *; lia). fold lei. unfold sub. pose proof (len_nonneg lei).
      rewrite Z.add_simpl_l, !len_to_nat, drop_app_length, take_app_length.
      replace (Z.to_nat (len lei + len authResp)) with (length (lei ++ authResp)) by (rewrite length_app; unfold len; lia).
      by rewrite (assoc_L (++)), drop_app_length.
    - unfold lei, appendLengthEncodedInteger in *. destruct (Z.leb_spec (len authResp) 250); [|repeat case_match; unfold len in Hl; rewrite length_app in Hl; simpl in Hl; lia].
      cbn [app]. unfold uwrap. rewrite Z.mod_small by (simpl; lia). by rewrite len_to_nat, take_app_length, drop_app_length. }
  cbn. unfold more. destruct (0 <? len (DBName c)) eqn:En.
  - rewrite <- (assoc_L (++)). cbn [app]. rewrite (cstring_end (DBName c)) by done. cbn. by rewrite (cstring_end plugin []).
  - cbn. rewrite (cstring_end plugin []) by done. cbn. assert (DBName c = []) as ->; [|done].
    destruct (DBName c); [done|]. rewrite len_cons in En. pose proof (len_nonneg l). lia.
Qed.

(** The packet that is built in the buffer *)
Lemma response_head_built (flags id : Z) (h junk : bytes) :
  len h = 4 → 9 ≤ len junk →
  wp (response_head flags id (h ++ junk)) (built (h ++ le_bytes 4 flags ++ [0; 0; 0; 0; id]) (len junk - 9)).
Proof.
  intros Hh Hj. unfold response_head. cbn [le_bytes app]. rewrite !Z.shiftr_shiftr by lia.
  apply (put_all_built [_; _; _; _; _; _; _; _; _] h (len junk)); [|done]. exists junk. by rewrite Hh.
Qed.

Definition database (c : Config) : bytes := if 0 <? len (DBName c) then DBName c ++ [0] else [].

Lemma database_built (c : Config) pre n t :
  built pre n t → len (database c) ≤ n →
  wp (if 0 <? len (DBName c) then let* t := put_bytes (DBName c) t in put_byte 0 t else Ret t)
     (built (pre ++ database c) (n - len (database c))).
Proof.
  unfold database. intros Ht Hn. destruct (0 <? len (DBName c)).
  - rewrite len_app in *. change (len [0]) with 1 in *. pose proof (len_nonneg (DBName c)).
    apply wp_bind. eapply wp_mono; [apply put_bytes_built; [done|lia]|]. intros t' Ht'.
    eapply wp_mono; [apply put_byte_built; [done|lia]|]. intros t''. rewrite <- (assoc_L (++)).
    by replace (n - (len (DBName c) + 1)) with (n - len (DBName c) - 1) by lia.
  - rewrite app_nil_r. change (len []) with 0. by rewrite Z.sub_0_r.
Qed.

Lemma response_tail_built (c : Config) lei authResp plugin pre n t :
  built pre n t → 23 + len (User c) + 1 + len lei + len authResp + len (database c) + len plugin + 1 ≤ n →
  wp (response_tail c lei authResp plugin t)
     (fun t => ∃ m, built (pre ++ replicate 23 0 ++ User c ++ 0 :: lei ++ authResp ++ database c ++ plugin ++ [0]) m t).
Proof.
  intros Ht Hn. pose proof (len_nonneg (User c)). pose proof (len_nonneg (database c)).
  pose proof (len_nonneg lei). pose proof (len_nonneg authResp). pose proof (len_nonneg plugin). unfold response_tail.
  assert (len (replicate 23 0) = 23) as H23 by done.
  apply wp_bind. eapply wp_mono; [apply (put_all_built _ _ _ _ Ht); lia|]. clear t Ht. intros t Ht.
  apply wp_bind. eapply wp_mono; [apply (put_some_built _ _ _ _ Ht); lia|]. clear t Ht. intros t Ht.
  apply wp_bind. eapply wp_mono; [apply (put_byte_built _ _ _ _ Ht); lia|]. clear t Ht. intros t Ht.
  apply wp_bind. eapply wp_mono; [apply (put_bytes_built _ _ _ _ Ht); lia|]. clear t Ht. intros t Ht.
  apply wp_bind. eapply wp_mono; [apply (put_bytes_built _ _ _ _ Ht); lia|]. clear t Ht. intros t Ht.
  apply wp_bind. eapply wp_mono; [apply (database_built _ _ _ _ Ht); lia|]. clear t Ht. intros t Ht.
  apply wp_bind. eapply wp_mono; [apply (put_bytes_built _ _ _ _ Ht); lia|]. clear t Ht. intros t Ht.
  eapply wp_mono; [apply (put_byte_built _ _ _ _ Ht); lia|]. clear t Ht. intros t Ht.
  eexists. repeat (progress cbn [app] in Ht || rewrite <- (assoc_L (++)) in Ht). exact Ht.
Qed.

Lemma len_database (c : Config) : len (database c) = if 0 <? len (DBName c) then len (DBName c) + 1 else 0.
Proof. unfold database. destruct (0 <? _); [by rewrite len_app|done]. Qed.

(** The response is written in one packet. *)
Lemma response_written (c : Config) flags id authResp plugin mc :
  let lei := appendLengthEncodedInteger [] (len authResp) in
  writable mc → reset mc = false → b_length (bb (world mc)) = 0 → tls c = None → collation_id (Collation c) = Some id →
  len plugin ≤ 21 → response_length c lei authResp + 4 ≤ len (arr (world mc) (b_buf (bb (world mc)))) →
  len (response c flags id authResp plugin) ≤ maxAllowedPacket mc →
  writeHandshakeResponsePacket tls_Client c flags authResp plugin mc
  = Ret (inl tt, wrote (frames (sequence mc) (response c flags id authResp plugin))
                   (seq_after (sequence mc) (response c flags id authResp plugin)) mc).
Proof.
  intros lei Hw Hr Hb Ht Hid Hp Hroom Hmax. unfold writeHandshakeResponsePacket. fold lei.
  unfold takeSmallBuffer. rewrite Hb, (proj2 (Z.leb_le _ _)) by done. cbn [Z.ltb Z.compare gbind].
  rewrite (mbind_inl _ _ mc _ mc) by reflexivity. rewrite Hid.
  unfold slice_bytes. cbn [fst snd]. set (n := response_length c lei authResp) in *.
  assert (0 ≤ n) as Hn.
  { unfold n, response_length. pose proof (len_nonneg (User c)). pose proof (len_nonneg lei). pose proof (len_nonneg authResp).
    pose proof (len_nonneg (DBName c)). destruct (0 <? _); lia. }
  set (d := take (Z.to_nat (n + 4)) (arr (world mc) (b_buf (bb (world mc))))).
  assert (len d = n + 4) as Hd by (unfold d, len in *; rewrite length_take; lia).
  assert (d = take 4 d ++ drop 4 d) as Ed by (by rewrite take_drop).
  assert (len (take 4 d) = 4 ∧ len (drop 4 d) = n) as [Hh Hj] by (unfold len in *; rewrite length_take, length_drop; lia).
  rewrite Ed. set (h := take 4 d) in *. set (junk := drop 4 d) in *. clearbody h junk. clear Ed Hd d.
  assert (n = 9 + 23 + len (User c) + 1 + len lei + len authResp + len (database c) + 22) as En.
  { unfold n, response_length. rewrite len_database. lia. }
  pose proof (len_nonneg (User c)). pose proof (len_nonneg (database c)). pose proof (len_nonneg lei). pose proof (len_nonneg authResp).
  pose proof (response_head_built (client_flags c flags (len lei)) id h junk Hh ltac:(lia)) as Hhead.
  destruct (response_head _ _ _) as [t|]; [|done]. simpl in Hhead. rewrite (mbind_inl _ _ _ _ _ (mgo_ret _ _)), Ht, (mbind_inl _ _ mc tt mc) by reflexivity.
  pose proof (response_tail_built c lei authResp plugin _ _ t Hhead ltac:(lia)) as Htail.
  destruct (response_tail _ _ _ _ _) as [t'|]; [|done]. destruct Htail as (m & junk' & -> & _).
  rewrite (mbind_inl _ _ _ _ _ (mgo_ret _ _)). cbn [fst snd]. rewrite go_slice_front, (mbind_inl _ _ _ _ _ (mgo_ret _ _)).
  rewrite <- (assoc_L (++)), <- (writePacket_frames h) by done. reflexivity.
Qed.

(** ** The token *)

Lemma xor_range_spec a : ∀ b, (length a ≤ length b)%nat → xor_range a b = Ret (zip_with Z.lxor a b).
Proof.
  induction a as [|x a IH]; intros [|y b] Hl; simpl in *; try done; [lia|]. by rewrite IH by lia.
Qed.

Lemma zip_lxor_cancel (a b : bytes) : length a = length b → zip_with Z.lxor (zip_with Z.lxor a b) a = b ∧ zip_with Z.lxor (zip_with Z.lxor a b) b = a.
Proof.
  revert b. induction a as [|x a IH]; intros [|y b] Hl; try done. simpl in *. destruct (IH b ltac:(lia)) as [E1 E2]. rewrite E1, E2.
  split; f_equal; [by rewrite Z.lxor_comm, <- Z.lxor_assoc, Z.lxor_nilpotent, Z.lxor_0_l|by rewrite Z.lxor_assoc, Z.lxor_nilpotent, Z.lxor_0_r].
Qed.

(** What the server stores of a password: its hash, hashed again *)
Definition stored (H : bytes → bytes) (password : bytes) : bytes :=
  if len password =? 0 then [] else H (H password).

(** The server takes the hash of the password out of the token and hashes it again.  The two
    methods differ in the order of the cipher and the stored hash. *)
Definition accepts (H : bytes → bytes) (nonce st token : bytes) : bool :=
  match token with
  | [] => beq st []
  | _ => beq (H (zip_with Z.lxor token (H nonce))) st
  end.
Definition server_accepts (plugin scramble password token : bytes) : bool :=
  if beq plugin (B "caching_sha2_password")
  then accepts SHA256 (stored SHA256 password ++ scramble) (stored SHA256 password) token
  else accepts SHA1 (scramble ++ stored SHA1 password) (stored SHA1 password) token.

(** A hash of [n] bytes *)
Definition digest (n : nat) (H : bytes → bytes) : Prop := n ≠ 0%nat ∧ ∀ s, length (H s) = n.

Lemma accepts_token n H nonce password token :
  digest n H → len password ≠ 0 →
  length token = n → zip_with Z.lxor token (H nonce) = H password → accepts H nonce (stored H password) token = true.
Proof.
  intros [Hn Hd] Hp Hl Hx. unfold accepts, stored. rewrite (proj2 (Z.eqb_neq _ _)) by done.
  destruct token; [simpl in Hl; lia|]. rewrite Hx. apply beq_refl.
Qed.

Lemma native_accepted scramble password :
  digest 20 SHA1 → ∃ t, scramblePassword SHA1 scramble password = Ret t ∧ (length t ≤ 20)%nat ∧
  accepts SHA1 (scramble ++ stored SHA1 password) (stored SHA1 password) t = true.
Proof.
  intros Hd. unfold scramblePassword. destruct (Z.eqb_spec (len password) 0) as [E|E].
  { exists []. split_and!; [done|simpl; lia|]. unfold accepts, stored. rewrite (proj2 (Z.eqb_eq _ _)) by done. done. }
  pose proof Hd as [_ Hs]. rewrite xor_range_spec by (rewrite !Hs; lia). eexists. split; [done|].
  assert (SHA1 (SHA1 password) = stored SHA1 password) as Es by (unfold stored; by rewrite (proj2 (Z.eqb_neq _ _))).
  rewrite Es. split; [rewrite length_zip_with, !Hs; lia|].
  apply (accepts_token 20); [done|done|rewrite length_zip_with, !Hs; lia|]. by apply zip_lxor_cancel; rewrite !Hs.
Qed.

Lemma sha2_accepted scramble password :
  digest 32 SHA256 → ∃ t, scrambleSHA256Password SHA256 scramble password = Ret t ∧ (length t ≤ 32)%nat ∧
  accepts SHA256 (stored SHA256 password ++ scramble) (stored SHA256 password) t = true.
Proof.
  intros Hd. unfold scrambleSHA256Password. destruct (Z.eqb_spec (len password) 0) as [E|E].
  { exists []. split_and!; [done|simpl; lia|]. unfold accepts, stored. rewrite (proj2 (Z.eqb_eq _ _)) by done. done. }
  pose proof Hd as [_ Hs]. rewrite xor_range_spec by (rewrite !Hs; lia). eexists. split; [done|].
  assert (SHA256 (SHA256 password) = stored SHA256 password) as Es by (unfold stored; by rewrite (proj2 (Z.eqb_neq _ _))).
  rewrite Es. split; [rewrite length_zip_with, !Hs; lia|].
  apply (accepts_token 32); [done|done|rewrite length_zip_with, !Hs; lia|]. by apply zip_lxor_cancel; rewrite !Hs.
Qed.

(** The two methods of current servers, where the configuration allows them *)
Definition method (c : Config) (plugin : bytes) : Prop :=
  plugin = B "caching_sha2_password" ∨ plugin = B "mysql_native_password" ∧ AllowNativePasswords c = true.

Lemma requested_token (c : Config) scramble plugin :
  digest 20 SHA1 → digest 32 SHA256 → method c plugin → length scramble = 20%nat →
  ∃ t, requested SHA1 SHA256 EncryptOAEP c scramble plugin = Ret (inl t, plugin) ∧ (length t ≤ 32)%nat ∧
       server_accepts plugin scramble (Passwd c) t = true.
Proof.
  intros H1 H2 Hm Hs. unfold requested, auth, server_accepts. destruct Hm as [->|[-> Ha]].
  - destruct (sha2_accepted scramble (Passwd c) H2) as (t & Ht & Hl & Hacc). exists t. cbn -[scrambleSHA256Password accepts].
    by rewrite Ht.
  - destruct (native_accepted scramble (Passwd c) H1) as (t & Ht & Hl & Hacc). exists t. cbn -[scramblePassword accepts go_slice].
    rewrite Ha, app_nil_r. cbn -[scramblePassword accepts go_slice].
    assert (go_slice scramble 0 20 = Ret scramble) as ->.
    { rewrite <- (app_nil_r scramble) at 1. replace 20 with (len scramble) by (unfold len; lia). apply go_slice_front. }
    cbn [gbind]. rewrite Ht. split_and!; [done|lia|done].
Qed.

(** ** The greeting *)

Lemma copy_over_full (dst src : bytes) : length dst = length src → copy_over dst src = src.
Proof. intros Hl. unfold copy_over. by rewrite Hl, firstn_all, drop_ge, app_nil_r by lia. Qed.

Lemma len_length {A} (l : list A) n : length l = n → len l = Z.of_nat n.
Proof. unfold len. lia. Qed.

Lemma slice_step {C} data pre bs post a b (k : bytes → MC C) mc :
  data = pre ++ bs ++ post → a = len pre → b = a + len bs → mbind (mgo (go_slice data a b)) k mc = k bs mc.
Proof. intros Hd Ha Hb. by rewrite (go_slice_at data pre bs post a b Hd Ha Hb), (mbind_inl _ _ _ _ _ (mgo_ret _ _)). Qed.

Lemma greeting_read (c : Config) g mc mc1 :
  greeting_ok g → tls c = None → readPacket mc = Ret (inl (greeting g), mc1) →
  readHandshakePacket leftover spare c mc = Ret (inl (g_scramble g, g_plugin g, g_flags g, c), mc1).
Proof.
  intros Hg Ht Hr. unfold readHandshakePacket. rewrite Hr. cbn [gbind].
  destruct Hg as [Hv Hcn Hsc Hfl H41 Hmid Hpl _]. apply len_length in Hcn, Hmid.
  assert (len (take 8 (g_scramble g)) = 8 ∧ len (drop 8 (g_scramble g)) = 12) as [H8 H12] by (unfold len; rewrite length_take, length_drop; lia).
  assert (len (le_bytes 2 (g_flags g)) = 2) as H2 by apply len_le_bytes. pose proof (len_nonneg (g_version g)) as Hvn. pose proof (len_nonneg (g_plugin g)).
  pose proof (le_uint_small 2 (g_flags g) Hfl) as Hle. pose proof (take_drop 8 (g_scramble g)) as Htd.
  set (data := greeting g). set (tail := behind leftover spare data mc1).
  set (s1 := take 8 (g_scramble g)) in *. set (s2 := drop 8 (g_scramble g)) in *. set (fb := le_bytes 2 (g_flags g)) in *.
  assert (data = 10 :: g_version g ++ 0 :: g_connection g ++ s1 ++ 0 :: fb ++ g_middle g ++ s2 ++ 0 :: g_plugin g ++ [0]) as Ed by done.
  assert (len data = len (g_version g) + len (g_plugin g) + 47) as Hlen by (rewrite Ed; repeat (rewrite len_app || rewrite len_cons); change (len []) with 0; lia).
  clearbody s1 s2 fb data.
  rewrite (mbind_inl _ _ mc1 10 mc1) by (by rewrite Ed). change iERR with 255. change minProtocolVersion with 10.
  cbn [Z.eqb Z.ltb Z.compare Pos.eqb Pos.compare Pos.compare_cont].
  rewrite (mbind_inl _ _ mc1 tail mc1) by reflexivity. clearbody tail.
  assert (len [10] = 1 ∧ len [0] = 1) as [L10 L0] by done.
  set (p1 := [10] ++ g_version g ++ [0] ++ g_connection g). assert (len p1 = len (g_version g) + 6) as Hp1 by (unfold p1; rewrite !len_app; lia).
  rewrite (slice_step data [10] (g_version g ++ 0 :: g_connection g ++ s1 ++ 0 :: fb ++ g_middle g ++ s2 ++ 0 :: g_plugin g ++ [0]) [])
    by (rewrite ?app_nil_r, ?Ed; try done; rewrite <- Ed, Hlen; repeat (rewrite len_app || rewrite len_cons); change (len []) with 0; lia).
  rewrite IndexByte_end by done.
  rewrite (slice_step (data ++ tail) p1 s1 (0 :: fb ++ g_middle g ++ s2 ++ 0 :: g_plugin g ++ [0] ++ tail)) by (try lia; rewrite Ed; unfold p1; list_eq).
  rewrite (slice_step (data ++ tail) (p1 ++ s1 ++ [0]) fb (g_middle g ++ s2 ++ 0 :: g_plugin g ++ [0] ++ tail))
    by (rewrite ?len_app; try lia; rewrite Ed; unfold p1; list_eq).
  rewrite Hle, (proj2 (Z.eqb_neq _ _)) by done. rewrite Ht, andb_false_r, (mbind_inl _ _ mc1 c mc1) by reflexivity.
  rewrite (proj2 (Z.ltb_lt _ _)) by lia.
  rewrite (slice_step (data ++ tail) (p1 ++ s1 ++ [0] ++ fb ++ g_middle g) s2 (0 :: g_plugin g ++ [0] ++ tail))
    by (rewrite ?len_app; try lia; rewrite Ed; unfold p1; list_eq).
  rewrite (slice_step data (p1 ++ s1 ++ [0] ++ fb ++ g_middle g ++ s2 ++ [0]) (g_plugin g ++ [0]) [])
    by (rewrite ?len_app; try lia; rewrite Ed; unfold p1; list_eq).
  rewrite (IndexByte_end (g_plugin g) []), (proj2 (Z.eqb_neq _ _)) by (done || lia). cbn [negb].
  rewrite (slice_step data (p1 ++ s1 ++ [0] ++ fb ++ g_middle g ++ s2 ++ [0]) (g_plugin g) [0])
    by (rewrite ?len_app; try lia; rewrite Ed; unfold p1; list_eq).
  by rewrite Htd, copy_over_full.
Qed.

(** ** The answer of the server *)

(** An OK packet; a server of [caching_sha2_password] that has the account in its cache says so
    first ([fast]). *)
Definition accepted (st : Z) : bytes := 0 :: 0 :: 0 :: le_bytes 2 st ++ [0; 0].
Definition replies (plugin : bytes) (fast : bool) (st : Z) : list bytes :=
  if fast && beq plugin (B "caching_sha2_password") then [[iAuthMoreData; cachingSha2PasswordFastAuthSuccess]; accepted st] else [accepted st].

(** [mc] after an OK packet *)
Definition after_ok (st : Z) (mc : mysqlConn) : mysqlConn := set_status st (set_result 0 0 mc).

Lemma handleOk_accepted st mc : uint_ok 16 st → handleOkPacket (accepted st) mc = Ret (inl tt, after_ok st mc).
Proof.
  intros Hst. pose proof (le_uint_small 2 st Hst) as E. cbn [le_bytes le_uint] in E.
  rewrite Z.shiftl_0_l, Z.lor_0_r in E. rewrite <- E at 2. unfold accepted. cbn [le_bytes app].
  generalize (uwrap 8 st) (uwrap 8 (Z.shiftr st 8)). intros x y. reflexivity.
Qed.

Abbreviation handleAuthResult' := (handleAuthResult SHA1 SHA256 EncryptOAEP pem_Decode ParsePKIXPublicKey leftover spare).
Abbreviation finish_auth' := (finish_auth EncryptOAEP pem_Decode ParsePKIXPublicKey).

Lemma finish_after (c : Config) oldAuthData plugin a mc mc1 :
  readAuthResult leftover spare mc = Ret (inl (a, []), mc1) →
  handleAuthResult' c oldAuthData plugin mc = finish_auth' c oldAuthData plugin (fst <$> a) mc1.
Proof. intros Hr. unfold handleAuthResult. by rewrite (mbind_inl _ _ _ _ _ Hr). Qed.

Lemma readAuthResult_more b mc mc1 :
  readPacket mc = Ret (inl [iAuthMoreData; b], mc1) →
  readAuthResult leftover spare mc = Ret (inl (Some ([b], behind leftover spare [iAuthMoreData; b] mc1), []), mc1).
Proof. intros Hr. unfold readAuthResult. by rewrite (mbind_inl _ _ _ _ _ Hr). Qed.

Lemma readAuthResult_ok st mc mc1 :
  uint_ok 16 st → readPacket mc = Ret (inl (accepted st), mc1) →
  readAuthResult leftover spare mc = Ret (inl (None, []), after_ok st mc1).
Proof.
  intros Hst Hr. unfold readAuthResult. rewrite (mbind_inl _ _ _ _ _ Hr). rewrite (mbind_inl _ _ mc1 0 mc1) by reflexivity.
  rewrite (mbind_inl _ _ mc1 (behind leftover spare (accepted st) mc1) mc1) by reflexivity.
  by rewrite Z.eqb_refl, (mbind_inl _ _ _ _ _ (handleOk_accepted st mc1 Hst)).
Qed.

Lemma replies_handled (c : Config) oldAuthData plugin fast st mc rest :
  method c plugin → uint_ok 16 st → serves mc (replies plugin fast st) rest →
  ∃ w s, handleAuthResult' c oldAuthData plugin mc = Ret (inl tt, after_ok st (moved_to w s (status mc) mc)) ∧
         readable (after_ok st (moved_to w s (status mc) mc)) rest.
Proof.
  intros Hm Hst Hs. unfold replies in Hs. destruct (fast && beq plugin (B "caching_sha2_password")) eqn:Ef.
  - apply andb_true_iff in Ef as [_ ->%beq_eq].
    destruct (readPacket_serves _ _ _ _ (ltac:(discriminate) : [iAuthMoreData; cachingSha2PasswordFastAuthSuccess] ≠ []) Hs) as (w & s & Hr & Hs1).
    set (mc1 := moved_to w s (status mc) mc) in *.
    destruct (readPacket_serves _ _ _ _ (ltac:(discriminate) : accepted st ≠ []) Hs1) as (w2 & s2 & Hr2 & [Hrd1 Hrd2 Hrd3]).
    exists w2, s2. split; [|by split]. rewrite (finish_after _ _ _ _ _ _ (readAuthResult_more _ _ _ Hr)).
    change (readResultOK mc1 = Ret (inl tt, after_ok st (moved_to w2 s2 (status mc) mc))). unfold readResultOK.
    rewrite (mbind_inl _ _ _ _ _ Hr2). rewrite (mbind_inl _ _ _ 0 (moved_to w2 s2 (status mc1) mc1)) by reflexivity.
    by rewrite Z.eqb_refl, handleOk_accepted.
  - destruct (readPacket_serves _ _ _ _ (ltac:(discriminate) : accepted st ≠ []) Hs) as (w & s & Hr & [Hrd1 Hrd2 Hrd3]).
    exists w, s. split; [|by split]. rewrite (finish_after _ _ _ _ _ _ (readAuthResult_ok st _ _ Hst Hr)). by destruct Hm as [->|[-> _]].
Qed.

(** ** The whole exchange *)

Lemma seq_after_small seq p : len p < maxPacketSize → seq_after seq p = next_seq seq.
Proof. intros Hp. unfold seq_after. by rewrite (proj2 (full_packets_O p) Hp). Qed.

Lemma len_response (c : Config) flags id t plugin :
  len plugin ≤ 21 → len (response c flags id t plugin) ≤ response_length c (appendLengthEncodedInteger [] (len t)) t.
Proof.
  intros Hp. unfold response, response_length. fold (database c). repeat (rewrite len_app || rewrite len_cons).
  rewrite len_le_bytes, len_database. change (len (replicate 23 0)) with 23. change (len []) with 0. lia.
Qed.

(** C16: A client that does not use TLS logs in: the server greets with a cipher of twenty
    bytes and asks for mysql_native_password (which the client must allow) or
    caching_sha2_password, and stores the doubly hashed password. In whatever pieces its
    packets arrive, the client answers the greeting in one packet that names the user, the
    database (without NUL bytes, at most 3900 bytes together) and the method, with a token the
    server accepts for the password under SHA-1 or SHA-256. When the server accepts, at once
    or after announcing the fast authentication of caching_sha2_password, the connection is
    open, with its status, at the first byte behind the exchange; the full authentication of
    caching_sha2_password and a switch of the method are not part of this. *)
Theorem login_accepted (c : Config) g id fast st n1 n2 rest :
  digest 20 SHA1 → digest 32 SHA256 →
  greeting_ok g → method c (g_plugin g) → uint_ok 16 st →
  tls c = None → collation_id (Collation c) = Some id → 0 ∉ User c → 0 ∉ DBName c →
  len (User c) + len (DBName c) ≤ 3900 →
  quiet n1 → incoming n1 = frames 0 (greeting g) →
  net_ok n2 = true → incoming n2 = wire 2 (replies (g_plugin g) fast st) ++ rest →
  ∃ mc p token,
    authenticate SHA1 SHA256 EncryptOAEP pem_Decode ParsePKIXPublicKey tls_Client leftover spare c (new_conn c (n1 ++ n2) [])
    = Ret (inl tt, c, mc) ∧
    out mc = frames 1 p ∧ read_login p = Some (mk_login id (User c) token (DBName c) (g_plugin g)) ∧
    server_accepts (g_plugin g) (g_scramble g) (Passwd c) token = true ∧
    readable mc rest ∧ status mc = st ∧ closed mc = false.
Proof.
  intros H1 H2 Hg Hm Hst Ht Hid Hu Hd Hlen Hq Hn1 Hok2 Hn2. set (mc0 := new_conn c n1 []).
  assert (len (g_plugin g) ≤ 21) as Hpl by (destruct Hm as [->|[-> _]]; done).
  assert (sane (world mc0)) as Hsane.
  { split; [apply valid_newBuffer|]. split; [|done]. constructor; [|done]. unfold len. by rewrite length_replicate. }
  destruct (readPacket_alone (greeting g) n2 mc0 ltac:(done) Hsane ltac:(done) Hok2) as (w & Hr & Hb & Hroom & [R1 R2 R3]).
  unfold authenticate. change (new_conn c (n1 ++ n2) []) with (later_conn n2 mc0).
  rewrite (greeting_read c g _ _ Hg Ht Hr). cbn [gbind].
  destruct (requested_token c (g_scramble g) (g_plugin g) H1 H2 Hm (gok_scramble _ Hg)) as (t & -> & Htl & Hacc). cbn [gbind].
  rewrite (seq_after_small _ _ (gok_size _ Hg)). change (next_seq (sequence mc0)) with 1.
  set (mc1 := set_sequence 1 (set_world w mc0)).
  assert (len (appendLengthEncodedInteger [] (len t)) = 1) as Hlei.
  { unfold appendLengthEncodedInteger. rewrite (proj2 (Z.leb_le _ _)) by (unfold len; lia). done. }
  pose proof (len_response c (g_flags g) id t (g_plugin g) Hpl) as Hresp.
  assert (response_length c (appendLengthEncodedInteger [] (len t)) t + 4 ≤ 4096) as Hsize.
  { unfold response_length. rewrite Hlei. pose proof (len_nonneg (DBName c)). unfold len at 2. case_match; lia. }
  set (p := response c (g_flags g) id t (g_plugin g)) in *.
  assert (len p < maxPacketSize) as Hp by (unfold maxPacketSize; simpl; lia).
  rewrite (mbind_inl _ _ _ _ _ (response_written c (g_flags g) id t (g_plugin g) mc1 ltac:(done) eq_refl Hb Ht Hid Hpl
    ltac:(unfold defaultBufSize in *; simpl; lia) ltac:(fold p; simpl; lia))). fold p. change (sequence mc1) with 1.
  rewrite (seq_after_small 1 p Hp). change (next_seq 1) with 2. set (mc2 := wrote (frames 1 p) 2 mc1).
  destruct (replies_handled c (g_scramble g) (g_plugin g) fast st mc2 rest Hm Hst) as (w2 & s2 & -> & Hrd).
  { split; [exact (eq_trans R1 Hn2)|exact R2|exact R3]. }
  cbn [gbind]. exists (after_ok st (moved_to w2 s2 (status mc2) mc2)), p, t. split_and!; try done.
  apply read_response; [done|done|exact (gok_plugin _ Hg)|unfold len; simpl; lia].
Qed.
End login.

(** ** Runs *)

(** A configuration with the given password, database and TLS *)
Definition sample_config (passwd db : bytes) (t : option tls_config) (name : bytes) : Config (L := unit) (K := unit) :=
  mk_Config (B "root") passwd (B "tcp") (B "127.0.0.1:3306") db None (B "utf8mb4_general_ci") None 0 []
    None name t 0 0 0 false false true false false false false false false false.

(** Stand-ins for the hashes, of their sizes *)
Definition sample_sha1 (s : bytes) : bytes := (fun i => Z.of_nat i + fold_right Z.add 0 s) <$> seq 0 20.
Definition sample_sha256 (s : bytes) : bytes := (fun i => Z.of_nat i * 3 + fold_right Z.add 0 s) <$> seq 0 32.

Definition sample_greeting (plugin : bytes) : server_greeting :=
  mk_greeting (B "5.7.30") [1; 0; 0; 0] (B "abcdefghijklmnopqrst") 63487 (replicate 16 0) plugin.

Lemma sample_greeting_ok : greeting_ok (sample_greeting (B "caching_sha2_password")).
Proof. split; vm_compute; try done; set_solver by lia. Qed.

Abbreviation sample_authenticate :=
  (authenticate sample_sha1 sample_sha256 (fun _ s => Some s) (fun _ => None) (fun _ => None) (fun _ n => Some n) [] (fun _ => [])).

Lemma login_accepted_witness :
  ∃ mc p token,
    sample_authenticate (sample_config (B "secret") (B "shop") None [])
      (new_conn (sample_config (B "secret") (B "shop") None [])
         ([(take 30 (frames 0 (greeting (sample_greeting (B "caching_sha2_password")))), None);
           (drop 30 (frames 0 (greeting (sample_greeting (B "caching_sha2_password")))), None)] ++
          [(wire 2 [[1; 3]; accepted 2], None)]) [])
    = Ret (inl tt, sample_config (B "secret") (B "shop") None [], mc) ∧
    out mc = frames 1 p ∧ read_login p = Some (mk_login 45 (B "root") token (B "shop") (B "caching_sha2_password")) ∧
    server_accepts sample_sha1 sample_sha256 (B "caching_sha2_password") (B "abcdefghijklmnopqrst") (B "secret") token = true ∧
    readable mc [] ∧ status mc = 2 ∧ closed mc = false.
Proof.
  apply (login_accepted sample_sha1 sample_sha256 (fun _ s => Some s) (fun _ => None) (fun _ => None) (fun _ n => Some n) [] (fun _ => [])
           (sample_config (B "secret") (B "shop") None []) (sample_greeting (B "caching_sha2_password")) 45 true 2).
  - split; [done|]. intros s. unfold sample_sha1. by rewrite length_fmap, length_seq.
  - split; [done|]. intros s. unfold sample_sha256. by rewrite length_fmap, length_seq.
  - apply sample_greeting_ok.
  - left. reflexivity.
  - done.
  - reflexivity.
  - vm_compute. reflexivity.
  - vm_compute. set_solver by lia.
  - vm_compute. set_solver by lia.
  - vm_compute. discriminate.
  - repeat constructor.
  - vm_compute. reflexivity.
  - reflexivity.
  - vm_compute. reflexivity.
Defined.

(** A server whose greeting ends after the capability flags has sent eight bytes of cipher;
    the default method takes twenty, and panics. *)
Lemma short_greeting_panics passwd db :
  sample_authenticate (sample_config passwd db None [])
    (new_conn (sample_config passwd db None []) [(frames 0 (10 :: B "4.1" ++ [0; 1; 0; 0; 0] ++ B "abcdefgh" ++ [0; 0; 130]), None)] [])
  = Panic SliceOutOfRange.
Proof. vm_compute. reflexivity. Qed.

(** When full authentication is asked for and the answer to the request for the public key is
    not PEM, an error of the server for example, the client panics. *)
Lemma key_refused_panics :
  sample_authenticate (sample_config (B "secret") [] None [])
    (new_conn (sample_config (B "secret") [] None [])
       [(frames 0 (greeting (sample_greeting (B "caching_sha2_password"))), None); (frames 2 [1; 4], None);
        (frames 4 ([255; 21; 4] ++ B "#28000denied"), None)] [])
  = Panic NilDereference.
Proof. vm_compute. reflexivity. Qed.

(** A password that does not fit the initial buffer makes the cleartext method panic instead of
    growing the buffer. *)
Lemma long_password_panics (mc : mysqlConn) (passwd : bytes) :
  b_length (bb (world mc)) = 0 → len (arr (world mc) (b_buf (bb (world mc)))) < 4 + len passwd + 1 →
  writeAuthSwitchPacket (passwd ++ [0]) mc = Panic SliceOutOfRange.
Proof.
  intros Hb Hl. unfold writeAuthSwitchPacket, takeSmallBuffer. rewrite Hb, len_app. cbn [Z.ltb Z.compare].
  by rewrite (proj2 (Z.leb_gt _ _)) by (change (len [0]) with 1; lia).
Qed.

(** A connector whose TLS is preferred loses it when one server has none: the configuration it
    connects with next has no TLS. *)
Lemma preferred_tls_lost :
  ∃ mc, sample_authenticate (sample_config [] [] (Some (mk_tls true [])) (B "preferred"))
          (new_conn (sample_config [] [] (Some (mk_tls true [])) (B "preferred"))
             [(frames 0 (greeting (mk_greeting (B "5.7.30") [1; 0; 0; 0] (B "abcdefghijklmnopqrst") 63487 (replicate 16 0) (B "mysql_native_password"))), None);
              (frames 2 (accepted 2), None)] [])
        = Ret (inl tt, sample_config [] [] None (B "preferred"), mc).
Proof. eexists. vm_compute. reflexivity. Qed.

(** The result of [SELECT @@max_allowed_packet], with the row and the packet that ends it in
    the given reads *)
Definition variable_column : server_column := mk_column [] [] [] (B "@@max_allowed_packet") [] 63 21 8 128 0.
Definition variable_reads (cut : bool) : reads :=
  let head := wire 1 [[1]; column_packet variable_column; eof_packet 0 2] in
  let row := frames 4 (row_packet [Some (B "4194304")]) in
  let tail := frames 5 (eof_packet 0 2) in
  if cut then [(head, None); (row, None); (tail, None)] else [(head, None); (row ++ tail, None)].
Definition variable_run (cut : bool) : Go (bytes + merror) :=
  let* (r, _) := getSystemVar (fun _ => None) (fun _ => false) (fun _ => None) false (B "max_allowed_packet") (fresh_conn (variable_reads cut)) in Ret r.

(** The value is returned as a slice of the buffer after the end of the result was read into
    the buffer: when that end arrives in a read of its own the value is overwritten. *)
Lemma variable_kept : variable_run false = Ret (inl (B "4194304")).
Proof. vm_compute. reflexivity. Qed.
Lemma variable_overwritten : variable_run true = Ret (inl ([0; 0; 2; 0] ++ B "304")).
Proof. vm_compute. reflexivity. Qed.
